(* ===== verification/_CoqProject ===== *)
-Q . S2P
Prelude.v
Utf8.v
Canonical.v
Parse.v
ParseFacts.v
Digest.v
Goal.v
Task.v
Proposal.v
Validate.v
Artifact.v
Scope.v
Candidate.v
ConfigModel.v
Compile.v
CompileFacts.v
CompileExact.v
Scheduling.v
ContextPlan.v
Execution.v
Workspace.v
Sandbox.v
Pipeline.v
Sql.v
Schema.v
Transaction.v
Command.v
StoreBase.v
StorePlanning.v
StoreConfiguration.v
StoreWorkspace.v
StoreArtifacts.v
StoreExecution.v
StoreScheduling.v
StoreContext.v
StoreAgentControl.v
StoreSandbox.v
StoreOperator.v
StoreLaws.v
StoreHistory.v
StoreFrames.v
StoreCredentials.v
StoreLifecycle.v
StoreReads.v
Migration.v
Scenario.v
EngineBase.v
Operator.v
Watch.v
EngineConfiguration.v
EnginePlanning.v
EngineRouting.v
EngineScheduling.v
EngineContext.v
EngineSandbox.v
EngineRun.v
EngineScenario.v
EngineWorkspace.v
WorkspaceScenario.v
EngineSealing.v
SealScenario.v
EngineAgentControl.v
AgentControlScenario.v
Cas.v
CasScenario.v
Container.v
ContainerScenario.v
Capture.v
GitBase.v
GitScenario.v
StoreOpen.v
StoreWriter.v
Cli.v
OperatorApi.v
Client.v
ClientScenario.v
