(* ===== verification/Prelude.v ===== *)
(** * Pantheon: a verification library for the control plane

    Pantheon (crates under [src/crates]) is a control plane for software agents:
    an operator states a Goal, a planner proposes a Task, the proposal is
    validated against the Goal's authority, the Task is routed to a configured
    agent and an execution backend, run in an isolated workspace and sandbox, and
    its output is captured, sealed and submitted as a Candidate. The crate
    [pantheon-core] holds the decisions (pure functions on values), the crate
    [pantheon-store] the durable state, [pantheon-engine] the controllers that
    join the two to the outside world, and the other crates the concrete ports
    (git, container sandbox, content store, HTTP API, command line, daemon).

    This library models all of [pantheon-core] and [pantheon-store], all the
    controllers of [pantheon-engine], the content store ([pantheon-cas]), the git
    ports ([pantheon-git]), the sandbox backend ([pantheon-sandbox]), the operator
    API's handlers and protocol ([pantheon-operator-api], [pantheon-operator-protocol]),
    the command-line client ([pantheon-cli]), and of the daemon ([pantheond]) its
    options and its configuration step.

    ** How the code is modelled

    - Rust's [Result] is [Prelude.Result], the [?] operator is [let?] and [do?];
      loops that return early are [collect], [for_each], [try_fold] and
      [find_map]; a loop that mutates accumulators is a fold over the state.
    - An integer is a [Z] with its width written out ([in_i64], [in_u32],
      [u32_try_from], [i64_saturating], [u64_as_i64]).
    - A Rust string is a [string] of bytes; [utf8_valid] says that it is UTF-8,
      [chars] decodes it and [of_chars] encodes it ([Utf8]). The invariant that a
      Rust [String] is UTF-8 is an explicit part of the well-formedness
      predicates ([wf_value], [wf_task], ...).
    - A [BTreeMap] is a list of entries with strictly increasing keys
      ([bt_insert], [bt_get]).
    - Sorting, [dedup], [min_by], [max_by], [binary_search_by] are the
      definitions of [Prelude], with the stability and tie rules of the Rust
      standard library.
    - An error keeps the source's constructor; where the source formats a text
      into it, the model keeps the values the text is made of.
    - SHA-256 comes from a crate outside the repository. It is the class
      [Digest.Sha256]: a function from byte strings to 32 bytes, with no other
      assumption. Since some texts always collide, identity theorems conclude that two
      values are equal or that two texts they name - the encodings of these very values -
      are a collision ([Digest.clash]). [prefix_hash] and
      [Scenario.stir_hash] are instances, used to evaluate examples.
    - SQLite is modelled by what the store's statements use of it, as documented
      ([Sql]): a statement takes effect when the database it would leave
      satisfies the declared constraints, and has no effect otherwise; a CHECK
      passes unless its condition is false, so three-valued logic is kept. What
      SQLite and the disk decide on their own (begin, commit and rollback
      failures, the answer on the transaction state, random identities, the clock) are
      arguments ([Driver], [Ambient]), quantified over in the theorems. A single
      statement of a transaction fails for what it says (an unknown column, a broken
      constraint, a value of another type), not for an I/O error of its own, and the two
      SELECTs of [append_event] for a random identity and the time always answer.
    - A write closure is a function [Tx A] of the [Writer]: its database and its
      failure mark. The operations of a store are the constructors of
      [StoreHistory.Operation], a history is a list of requests, and the theorems
      about histories quantify over every such list and every driver answer.
    - A controller is a function [Eng E A] of the [World] ([EngineBase]): the
      connection, the published configuration and the number of accesses made. Before
      its n-th access the others serve the requests of the n-th [Slot], which also
      holds what the driver, the clock and a failing read answer; slots are
      arguments, so a theorem about a controller holds under every interleaving.
      Backends, launchers, sandboxes and the entropy source are arguments too. The
      Run controller ([EngineRun.Ctl]) adds its bearers and a list of the contacts it
      made, each with the world at that moment; the Workspace, sealing and agent-control
      controllers likewise add what their ports were asked to do, in order, so that a
      theorem can say what came before what.
    - Operating systems are arguments. The content store runs on a file system whose
      every call may fail and which may lose power between two calls ([Cas]); the tree
      capture runs over a kernel that answers each call as it likes ([Capture]); git
      and the container runtime are functions from the command lines the code builds to
      what they answer ([GitBase], [Container]).
    - Threads are interleaved explicitly: publishers step by step in [Cas], writers of
      several stores as a step relation with mutexes and the thread-local guard in
      [StoreWriter].
    - The client's link loses any request and any answer ([Client.Delivery]); bodies
      cross it as values of the protocol's types, because JSON is a library's.

    ** Files

    - [Prelude]: results, integers, orders and sorting, bisection.
    - [Utf8]: bytes, UTF-8, the string operations the source uses.
    - [Canonical] ([config/canonical.rs]), [Digest] ([config/digest.rs]): the
      value domain, its one encoding and content identity.
    - [Parse], [ParseFacts] ([config/parse.rs]): the configuration parser. Its
      recursion runs on fuel; [parse] starts it with one more than the length of
      the input, and [parse_total] proves that it never runs out.
    - [ConfigModel] ([config/model.rs], [config/revision.rs]), [Compile],
      [CompileFacts] and [CompileExact] ([config/reader.rs], [error.rs],
      [compile.rs], [validate.rs]): configuration components, the compiler and the
      cross-reference rules, and a source document for everything that compiles.
    - [Goal], [Task], [Proposal], [Validate], [Scope] ([planning/*.rs]): Goals,
      Task specifications, the DIRECT planner, the planner-authority boundary
      with evaluator pinning, and the path scope of a Task.
    - [Artifact] ([artifact.rs]), [Candidate] ([candidate.rs]): repository paths,
      captured states, changesets, submissions.
    - [Scheduling] ([scheduling.rs]), [ContextPlan] ([context.rs]), [Execution]
      ([execution.rs]): the fair service order and the frozen context sources,
      the context plan, agent resolution and candidate selection. The drop loop
      of [ContextPlan] runs on one more round than there are sections;
      [drop_kind_done] and [drop_kind_fuel] show that this is enough.
    - [Workspace] ([workspace.rs]), [Sandbox] ([sandbox.rs], [attempt.rs]): base
      names, phases, sandbox plans and verdicts.
    - [Pipeline]: theorems across components: what is compiled, stored, read back
      and used by the planner, the scheduler and the context builder.
    - [Sql]: rows, constraints and statements; [Schema] ([migrations.rs]): the
      tables of all sixteen migrations with their constraints and the bootstrap rows;
      [Migration]: the runner, its history check and its failure points.
    - [Transaction] ([transaction.rs]): the transaction monad, the revisioned
      update and the commit boundary; sequences of optimistic updates.
    - [Command] ([command.rs], [Store::execute_command]): the command envelope,
      its kernel invariant and histories of commands.
    - [StoreBase]: queries, insertions and what a transaction preserves.
      [StorePlanning], [StoreConfiguration], [StoreWorkspace] (with [seal.rs]),
      [StoreArtifacts], [StoreExecution], [StoreScheduling], [StoreContext],
      [StoreAgentControl], [StoreSandbox], [StoreOperator]: one file per family of
      the store, each operation with its guards and its reads.
    - [StoreLaws], [StoreHistory], [StoreFrames], [StoreCredentials],
      [StoreLifecycle], [StoreReads]: what holds of every history: laws of rows, the
      tables an operation writes, credentials, state machines, decodable rows.
    - [EngineBase], [Operator] ([operator.rs], problem codes), [Watch]
      ([operator/events.rs] and the API's [events.rs]), [EngineConfiguration]
      ([configuration.rs], the daemon's [publish]), [EnginePlanning] ([planning.rs],
      [operator/goals.rs]), [EngineRouting] ([routing.rs]), [EngineScheduling]
      ([scheduling.rs], [operator/dispatch.rs], [operator/system.rs]),
      [EngineContext] ([context.rs]), [EngineSandbox] ([sandbox.rs]), [EngineRun]
      ([run.rs]), [EngineWorkspace] ([workspace.rs]), [EngineSealing] ([sealing.rs]),
      [EngineAgentControl] ([agent_control.rs]): the controllers.
    - [Cas] ([pantheon-cas]), [Capture] (the walk of [pantheon-git/src/capture.rs]),
      [GitBase] (the rest of [pantheon-git]), [Container] ([pantheon-sandbox]): the
      ports.
    - [StoreOpen] ([store.rs], [policy.rs]): opening, claims and the connection policy;
      [StoreWriter] ([Store::write]): the writers of several threads.
    - [Cli] ([args.rs], the daemon's [options.rs]), [OperatorApi] (the handlers and the
      routes), [Client] ([client.rs], [commands.rs], [main.rs]): from the words typed to
      the exit code.
    - [Scenario], [EngineScenario]: one story from an empty database to a submitted
      Candidate and to a launched Attempt, on which the theorems are instantiated;
      [WorkspaceScenario], [SealScenario], [AgentControlScenario], [CasScenario],
      [ContainerScenario], [GitScenario] and [ClientScenario] do the same for the other
      components. [Scenario.stir_hash] is the hash used there.

    ** What is shown

    - Round trips: whatever is written in canonical form (any value, Goals,
      Tasks, context policies, snapshots, digests, manifest paths) reads back as
      it was written; the parser is total and returns only well-formed values.
    - Identity: a digest of a value, a configuration revision, a captured state,
      a candidate or a sandbox plan determines the content it was taken over, unless
      the texts of the two contents collide.
    - Exactness: the configuration compiler, validation, scope compilation and matching, changeset entries,
      submission checks, cross references, agent resolution, candidate admission
      and base names accept exactly what their contract says, stated as an
      independent predicate.
    - Safety: a validated Task stays within its Goal; a compiled configuration
      keeps the control-plane isolation and hard-policy rules; the context drop
      removes only what policy lists.
    - Durable state: a write is atomic and a discarded failure cannot be
      committed; successful revisioned updates are never lost; a command takes
      effect exactly once over any later history, and the event journal is
      numbered without gaps; migrations resume at a recorded prefix.
    - Histories: whatever requests are served, rows obey the laws of their tables and
      move along their state machines, at most one Run is live, the credential of a
      contacted Attempt is frozen, and stored rows decode.
    - Store operations: materialization, cancellation, the Run intent, plan
      attachment and Candidate submission happen exactly under their documented
      conditions and leave exactly the documented rows.
    - Controllers: a create-Goal request leaves one Goal however often it is
      repeated; the published configuration is the durable one and a restart deploys
      nothing; routing only reads and picks a best admissible placement; a cycle
      dispatches at most one Run, fairly; the prepared context is reproducible;
      provisioning fails closed; the backend is contacted only behind the durable
      marker with the stored key and credential; a watching client loses no event; the
      external state of a Workspace is touched only behind its durable marker; a seal
      names exactly the difference between base and tree, publishes only payloads inside
      the Task's scope, each before the commit, and is answered once per request.
    - Ports: the capture never leaves the tree it was given, and over a tree that stands
      still it is the reference's answer; a materialized repository shares nothing with
      the network or another repository; an object published in the content store is
      whole at every moment and survives a power failure; a container that passes the
      verification is isolated as far as the runtime reports.
    - Processes and people: one handle per database file, writers that wait for each
      other as if they ran one after the other, and never for themselves; an invocation
      that can be spelled is read as it was meant; a mutation without its command
      identity touches nothing and a read writes nothing; a command typed again after a
      lost answer is the same command; the events of a stream are read whatever pieces
      its bytes arrive in.
    - Determinism: service order, section drop, captured states and candidate
      selection do not depend on the order their inputs arrive in.
    - Where the code does not do what it says: a decision materialized after
      cancellation, an ended first contact that escapes the recovery policy, profiles
      with a brokered network that are never read back, an object answered for before
      its name is durable, a container in the host's network that passes the
      verification, and an unreachable daemon that has acted.

    ** What is not modelled

    The text of [Display] implementations and of what the client renders; debug
    assertions; the poisoning of the configuration authority's lock by a panic; the
    bytes of HTTP and JSON, the Unix socket and its file, and the API's description,
    which are the transport's; of [pantheond] the wiring of threads and signals and the
    fake backend; [base_args] of the sandbox backend, which nothing calls. What git, a
    container runtime, SQLite and the kernel do is assumed of them in named hypotheses
    where a theorem needs it, and quantified over everywhere else. *)

From Stdlib Require Import ZArith Lia Sorted.
From stdpp Require Export base tactics list strings sorting gmap.

Declare Scope rust_scope.
Delimit Scope rust_scope with rust.
Open Scope rust_scope.

(** ** Results *)

(** Rust's [Result<A, E>]. *)
Inductive Result (A E : Type) : Type :=
| Ok (a : A)
| Err (e : E).
Arguments Ok {A E} a.
Arguments Err {A E} e.

(** The [?] operator: bind on the success side, return the error at once. *)
Definition try_bind {A B E} (r : Result A E) (k : A → Result B E) : Result B E :=
  match r with
  | Ok a => k a
  | Err e => Err e
  end.

Notation "'let?' x := r 'in' k" := (try_bind r (fun x => k))
  (at level 10, x pattern, r at level 100, k at level 200)
  : rust_scope.
Notation "'do?' r 'in' k" := (try_bind r (fun _ => k))
  (at level 10, r at level 100, k at level 200)
  : rust_scope.

(** [Option::ok_or]. *)
Definition ok_or {A E} (o : option A) (e : E) : Result A E :=
  match o with
  | Some a => Ok a
  | None => Err e
  end.

(** [Result::map_err]. *)
Definition map_err {A E F} (f : E → F) (r : Result A E) : Result A F :=
  match r with
  | Ok a => Ok a
  | Err e => Err (f e)
  end.

(** [iter().map(f).collect::<Result<Vec<_>, _>>()]: the first error wins. *)
Fixpoint collect {A B E} (f : A → Result B E) (l : list A) : Result (list B) E :=
  match l with
  | [] => Ok []
  | x :: rest =>
      let? y := f x in
      let? ys := collect f rest in
      Ok (y :: ys)
  end.

(** A [for] loop whose body may return an error and keeps no state. *)
Fixpoint for_each {A E} (f : A → Result unit E) (l : list A) : Result unit E :=
  match l with
  | [] => Ok tt
  | x :: rest => do? f x in for_each f rest
  end.

(** A [for] loop that threads a state and may return an error. *)
Fixpoint try_fold {A S E} (f : S → A → Result S E) (s : S) (l : list A) : Result S E :=
  match l with
  | [] => Ok s
  | x :: rest => let? s' := f s x in try_fold f s' rest
  end.

(** [iter().find(p)] and [iter().find_map(f)]. *)
Definition find_first {A} (p : A → bool) (l : list A) : option A := List.find p l.

Fixpoint find_map {A B} (f : A → option B) (l : list A) : option B :=
  match l with
  | [] => None
  | x :: rest =>
      match f x with
      | Some y => Some y
      | None => find_map f rest
      end
  end.

(** [slice.contains(&x)] over a type with decidable equality. *)
Definition contains {A} `{EqDecision A} (l : list A) (x : A) : bool :=
  bool_decide (x ∈ l).

(** ** Machine integers *)

Definition i64_min : Z := -9223372036854775808.
Definition i64_max : Z := 9223372036854775807.
Definition u32_max : Z := 4294967295.
Definition u64_max : Z := 18446744073709551615.

Definition in_i64 (z : Z) : bool := (i64_min <=? z)%Z && (z <=? i64_max)%Z.
Definition in_u32 (z : Z) : bool := (0 <=? z)%Z && (z <=? u32_max)%Z.
Definition in_u64 (z : Z) : bool := (0 <=? z)%Z && (z <=? u64_max)%Z.

(** [u32::try_from(z)] of an [i64]. *)
Definition u32_try_from (z : Z) : option Z := if in_u32 z then Some z else None.

(** [i64::try_from(z).unwrap_or(i64::MAX)] of an unsigned value. *)
Definition i64_saturating (z : Z) : Z := if (z <=? i64_max)%Z then z else i64_max.

(** [z as i64] of a [u64]: two's-complement reinterpretation. *)
Definition u64_as_i64 (z : Z) : Z :=
  if (z <=? i64_max)%Z then z else (z - 18446744073709551616)%Z.

(** ** Total orders

    Rust's [Ord]: a three-way comparison.  [Comparator] holds of every
    comparison a stable sort may use; [OrdLaws] adds that only equal values
    compare equal. *)

Class Ord (A : Type) := cmp : A → A → comparison.

Definition cmp_le {A} (f : A → A → comparison) (x y : A) : Prop := f x y ≠ Gt.

Class Comparator {A} (f : A → A → comparison) : Prop := {
  comparator_antisym : ∀ x y, f y x = CompOpp (f x y);
  comparator_trans : ∀ x y z, cmp_le f x y → cmp_le f y z → cmp_le f x z
}.

Class TotalOrder {A} (f : A → A → comparison) : Prop := {
  total_order_comparator :: Comparator f;
  total_order_eq : ∀ x y, f x y = Eq → x = y
}.

Arguments comparator_antisym {A} f {_} x y.
Arguments comparator_trans {A} f {_} x y z _ _.
Arguments total_order_eq {A} f {_} x y _.

(** [Ordering::then]. *)
Definition then_cmp (c d : comparison) : comparison :=
  match c with
  | Eq => d
  | _ => c
  end.

(** Tuples compare lexicographically. *)
Definition pair_cmp {A B} (f : A → A → comparison) (g : B → B → comparison)
    (x y : A * B) : comparison :=
  then_cmp (f x.1 y.1) (g x.2 y.2).

(** Comparison through a key, as [sort_by_key] and [sort_by] closures do. *)
Definition key_cmp {A K} (key : A → K) (f : K → K → comparison) (x y : A) : comparison :=
  f (key x) (key y).

#[export] Instance string_ord : Ord string := String.compare.
#[export] Instance Z_ord : Ord Z := Z.compare.
#[export] Instance pair_ord {A B} `{Ord A, Ord B} : Ord (A * B) := pair_cmp cmp cmp.

(** ** Stable sorting

    [slice::sort], [sort_by] and [sort_by_key] are stable; a stable sort's
    result does not depend on the algorithm, so insertion sort stands for it. *)

Fixpoint insert_by {A} (f : A → A → comparison) (x : A) (l : list A) : list A :=
  match l with
  | [] => [x]
  | y :: rest =>
      match f x y with
      | Gt => y :: insert_by f x rest
      | _ => x :: l
      end
  end.

Fixpoint sort_by {A} (f : A → A → comparison) (l : list A) : list A :=
  match l with
  | [] => []
  | x :: rest => insert_by f x (sort_by f rest)
  end.

Definition sort {A} `{Ord A} (l : list A) : list A := sort_by cmp l.

(** [Vec::dedup]: removes consecutive repeated elements. *)
Fixpoint dedup {A} `{EqDecision A} (l : list A) : list A :=
  match l with
  | [] => []
  | x :: rest =>
      match dedup rest with
      | y :: rest' => if decide (x = y) then y :: rest' else x :: y :: rest'
      | [] => [x]
      end
  end.

(** [windows(2).find_map(f)]. *)
Fixpoint find_window {A B} (f : A → A → option B) (l : list A) : option B :=
  match l with
  | x :: ((y :: _) as rest) =>
      match f x y with
      | Some b => Some b
      | None => find_window f rest
      end
  | _ => None
  end.

(** [iter().min_by(f)] keeps the first minimum, [iter().max_by(f)] the last
    maximum. *)
Definition min_by {A} (f : A → A → comparison) (l : list A) : option A :=
  match l with
  | [] => None
  | x :: rest =>
      Some (fold_left (fun best y => match f best y with Gt => y | _ => best end) rest x)
  end.

Definition max_by {A} (f : A → A → comparison) (l : list A) : option A :=
  match l with
  | [] => None
  | x :: rest =>
      Some (fold_left (fun best y => match f best y with Gt => best | _ => y end) rest x)
  end.

(** ** Proof automation *)

Create HintDb pantheon.

(** Splits every [match], [if] and [let?] of the hypotheses and the goal. *)
Ltac case_results :=
  repeat match goal with
  | H : context [try_bind ?r _] |- _ => unfold try_bind in H
  | |- context [try_bind ?r _] => unfold try_bind
  | H : Ok _ = Ok _ |- _ => injection H as H; try subst
  | H : Err _ = Err _ |- _ => injection H as H; try subst
  | H : Ok _ = Err _ |- _ => discriminate H
  | H : Err _ = Ok _ |- _ => discriminate H
  | H : Some _ = Some _ |- _ => injection H as H; try subst
  | H : Some _ = None |- _ => discriminate H
  | H : None = Some _ |- _ => discriminate H
  | H : context [match ?x with _ => _ end] |- _ => destruct x eqn:?
  | |- context [match ?x with _ => _ end] => destruct x eqn:?
  end.

(** Inverts the reader of an enumeration, a chain of comparisons with the texts
    of its constructors: [parse text = Some p -> text = as_str p]. *)
Ltac parse_inv :=
  let Hp := fresh in intros Hp;
  repeat match type of Hp with
  | (if String.eqb ?x ?y then _ else _) = _ =>
      destruct (String.eqb_spec x y) as [->|_]; [by injection Hp as <-|]
  end; done.

(** Splits a boolean conjunction into its parts. *)
Ltac split_andb :=
  repeat match goal with
  | H : _ && _ = true |- _ => apply andb_true_iff in H; destruct H
  | |- _ && _ = true => apply andb_true_iff; split
  | H : Is_true (_ && _) |- _ => apply andb_True in H; destruct H
  end.

(** ** Lemmas on results and loops *)

Lemma try_bind_Ok {A B E} (r : Result A E) (k : A → Result B E) b :
  try_bind r k = Ok b ↔ ∃ a, r = Ok a ∧ k a = Ok b.
Proof.
  destruct r; simpl; split; [eauto | naive_solver | discriminate | naive_solver].
Qed.

Lemma collect_Ok {A B E} (f : A → Result B E) l l' :
  collect f l = Ok l' ↔ Forall2 (fun x y => f x = Ok y) l l'.
Proof.
  revert l'; induction l as [|x l IH]; intros l'; simpl.
  - split; [by intros [= <-] | by inversion 1].
  - rewrite try_bind_Ok. setoid_rewrite try_bind_Ok. split.
    + intros (y & Hy & ys & Hys & [= <-]). constructor; [done | by apply IH].
    + inversion 1 as [|? y ? ys ? Hys]; subst. exists y. split; [done|].
      exists ys. split; [by apply IH | done].
Qed.

(** A collection that decodes what was encoded gives the elements back. *)
Lemma collect_map {A B E} (f : B → Result A E) (g : A → B) (l : list A) :
  (∀ x, x ∈ l → f (g x) = Ok x) → collect f (map g l) = Ok l.
Proof.
  induction l as [|x l IH]; simpl; intros H; [done|].
  rewrite H by left. simpl. rewrite IH; [done|]. intros y Hy; apply H; by right.
Qed.

Lemma for_each_Err {A E} (f : A → Result unit E) l e :
  for_each f l = Err e → ∃ x, x ∈ l ∧ f x = Err e.
Proof.
  induction l as [|x l IH]; cbn; [done|]. destruct (f x) as [u|e'] eqn:Ex; cbn.
  - intros (y & Hy & He)%IH. exists y. split; [by right|done].
  - intros [= ->]. exists x. split; [left|done].
Qed.

Lemma for_each_Ok {A E} (f : A → Result unit E) l :
  for_each f l = Ok tt ↔ ∀ x, x ∈ l → f x = Ok tt.
Proof.
  induction l as [|x l IH]; simpl.
  - split; [intros _ x Hx; by apply not_elem_of_nil in Hx | done].
  - rewrite try_bind_Ok. setoid_rewrite elem_of_cons. split.
    + intros ([] & Hx & Hl) y [->|Hy]; [done | by apply IH].
    + intros H. exists tt. split; [apply H; by left | apply IH; eauto].
Qed.

Lemma contains_true {A} `{EqDecision A} (l : list A) x : contains l x = true ↔ x ∈ l.
Proof. unfold contains. apply bool_decide_eq_true. Qed.

Lemma contains_false {A} `{EqDecision A} (l : list A) x : contains l x = false ↔ x ∉ l.
Proof. unfold contains. apply bool_decide_eq_false. Qed.

Lemma find_first_Some {A} (p : A → bool) l x :
  find_first p l = Some x → x ∈ l ∧ p x = true.
Proof. intros H. apply find_some in H as [? ?]. by rewrite list_elem_of_In. Qed.

Lemma find_first_None {A} (p : A → bool) l :
  find_first p l = None ↔ ∀ x, x ∈ l → p x = false.
Proof.
  setoid_rewrite list_elem_of_In. split; [apply find_none|].
  unfold find_first. induction l as [|y l IH]; simpl; intros H; [done|].
  rewrite (H y) by auto. auto.
Qed.

Lemma find_map_None {A B} (f : A → option B) l :
  find_map f l = None ↔ ∀ x, x ∈ l → f x = None.
Proof.
  induction l as [|y l IH]; simpl.
  - split; [intros _ x Hx; by apply not_elem_of_nil in Hx | done].
  - setoid_rewrite elem_of_cons. destruct (f y) eqn:Hy.
    + split; [done|]. intros H. rewrite <-Hy. apply H; by left.
    + rewrite IH. naive_solver.
Qed.

Lemma find_map_Some {A B} (f : A → option B) l b :
  find_map f l = Some b → ∃ x, x ∈ l ∧ f x = Some b.
Proof.
  induction l as [|y l IH]; simpl; [done|]. destruct (f y) eqn:Hy.
  - intros [= <-]. exists y. split; [left | done].
  - intros (x & Hx & Hf)%IH. exists x. split; [by right | done].
Qed.

Lemma existsb_True {A} (p : A → bool) l :
  existsb p l = true ↔ ∃ x, x ∈ l ∧ p x = true.
Proof. rewrite existsb_exists. by setoid_rewrite list_elem_of_In. Qed.

Lemma existsb_False {A} (p : A → bool) l :
  existsb p l = false ↔ ∀ x, x ∈ l → p x = false.
Proof.
  rewrite <-not_true_iff_false, existsb_True. split.
  - intros H x Hx. apply not_true_iff_false. naive_solver.
  - intros H (x & Hx & Hp). rewrite H in Hp; done.
Qed.

Lemma forallb_True {A} (p : A → bool) l :
  forallb p l = true ↔ ∀ x, x ∈ l → p x = true.
Proof. rewrite forallb_forall. by setoid_rewrite list_elem_of_In. Qed.

(** ** Lemmas on comparisons *)

Section Comparators.
Context {A : Type} (f : A → A → comparison) `{!Comparator f}.

Lemma comparator_refl x : f x x = Eq.
Proof. pose proof (comparator_antisym f x x). destruct (f x x); simpl in *; congruence. Qed.

Lemma cmp_le_total x y : cmp_le f x y ∨ cmp_le f y x.
Proof.
  unfold cmp_le. rewrite (comparator_antisym f x y). destruct (f x y); simpl; auto.
Qed.

Lemma cmp_gt_le x y : f x y = Gt → cmp_le f y x.
Proof. unfold cmp_le. rewrite (comparator_antisym f x y). by intros ->. Qed.

Lemma cmp_le_antisym_eq x y : cmp_le f x y → cmp_le f y x → f x y = Eq.
Proof.
  unfold cmp_le. rewrite (comparator_antisym f x y). destruct (f x y); simpl; congruence.
Qed.

Lemma insert_by_perm x l : insert_by f x l ≡ₚ x :: l.
Proof.
  induction l as [|y l IH]; simpl; [done|].
  destruct (f x y); try done. rewrite IH. apply perm_swap.
Qed.

Lemma sort_by_perm l : sort_by f l ≡ₚ l.
Proof. induction l as [|x l IH]; simpl; [done|]. by rewrite insert_by_perm, IH. Qed.

Lemma insert_by_sorted x l :
  StronglySorted (cmp_le f) l → StronglySorted (cmp_le f) (insert_by f x l).
Proof.
  induction 1 as [|y l Hl IH Hy]; simpl; [by repeat constructor|].
  assert (cmp_le f x y → Forall (cmp_le f x) l) as Hmono.
  { intros Hxy. eapply Forall_impl; [exact Hy|]. intros z. by apply comparator_trans. }
  destruct (f x y) eqn:Hxy.
  - constructor; [by constructor|]. assert (cmp_le f x y) by (unfold cmp_le; congruence).
    constructor; auto.
  - constructor; [by constructor|]. assert (cmp_le f x y) by (unfold cmp_le; congruence).
    constructor; auto.
  - constructor; [done|]. rewrite insert_by_perm.
    constructor; [by apply cmp_gt_le | done].
Qed.

Lemma sort_by_sorted l : StronglySorted (cmp_le f) (sort_by f l).
Proof. induction l; simpl; [constructor | by apply insert_by_sorted]. Qed.

(** Sorting forgets the order of the input when only identical elements
    compare equal. *)
Lemma sort_by_unique l1 l2 :
  (∀ x y, x ∈ l1 → y ∈ l1 → f x y = Eq → x = y) →
  l1 ≡ₚ l2 → sort_by f l1 = sort_by f l2.
Proof.
  intros Heq Hp. apply (StronglySorted_unique_strong (cmp_le f)).
  - intros x y Hx Hy Hxy Hyx. rewrite sort_by_perm in Hx. rewrite sort_by_perm in Hy.
    apply Heq; [done | by rewrite Hp | by apply cmp_le_antisym_eq].
  - apply sort_by_sorted.
  - apply sort_by_sorted.
  - by rewrite !sort_by_perm.
Qed.

Lemma insert_by_le x l : Forall (cmp_le f x) l → insert_by f x l = x :: l.
Proof. destruct l as [|y l]; simpl; [done|]. inversion 1 as [|? ? Hle]; subst.
  unfold cmp_le in Hle. by destruct (f x y).
Qed.

Lemma sort_by_sorted_id l : StronglySorted (cmp_le f) l → sort_by f l = l.
Proof.
  induction 1 as [|x l Hl IH Hx]; simpl; [done|]. rewrite IH. by apply insert_by_le.
Qed.

Lemma elem_of_sort_by x l : x ∈ sort_by f l ↔ x ∈ l.
Proof. by rewrite sort_by_perm. Qed.

Lemma fold_min_spec l b :
  let m := fold_left (fun best y => match f best y with Gt => y | _ => best end) l b in
  (m = b ∨ m ∈ l) ∧ cmp_le f m b ∧ Forall (cmp_le f m) l.
Proof.
  revert b; induction l as [|y l IH]; intros b; simpl.
  - split; [by left|]. split; [|constructor]. unfold cmp_le. by rewrite comparator_refl.
  - destruct (f b y) eqn:Hby.
    1,2: destruct (IH b) as (Hm & Hle & Hall); repeat split; try done;
      [destruct Hm as [->|?]; [by left | right; by right]
      | constructor; [|done]; eapply (comparator_trans f); [exact Hle | unfold cmp_le; congruence]].
    destruct (IH y) as (Hm & Hle & Hall). repeat split.
    + right. destruct Hm as [Hm|?]; [rewrite Hm; left | by right].
    + eapply (comparator_trans f); [exact Hle | by apply cmp_gt_le].
    + by constructor.
Qed.

Lemma min_by_Some l m :
  min_by f l = Some m → m ∈ l ∧ ∀ x, x ∈ l → cmp_le f m x.
Proof.
  destruct l as [|b l]; simpl; [done|]. intros [= <-].
  destruct (fold_min_spec l b) as (Hm & Hle & Hall). split.
  - destruct Hm as [Hm|Hm]; [rewrite Hm; left | by right].
  - intros x [->|Hx]%elem_of_cons; [done|]. by eapply Forall_forall in Hall.
Qed.

Lemma fold_max_spec l b :
  let m := fold_left (fun best y => match f best y with Gt => best | _ => y end) l b in
  (m = b ∨ m ∈ l) ∧ cmp_le f b m ∧ Forall (fun x => cmp_le f x m) l.
Proof.
  revert b; induction l as [|y l IH]; intros b; simpl.
  - split; [by left|]. split; [|constructor]. unfold cmp_le. by rewrite comparator_refl.
  - destruct (f b y) eqn:Hby.
    1,2: destruct (IH y) as (Hm & Hle & Hall); repeat split;
      [right; destruct Hm as [Hm|?]; [rewrite Hm; left | by right]
      | eapply (comparator_trans f); [|exact Hle]; unfold cmp_le; congruence
      | by constructor].
    destruct (IH b) as (Hm & Hle & Hall). repeat split.
    + destruct Hm as [->|?]; [by left | right; by right].
    + done.
    + constructor; [|done]. eapply (comparator_trans f); [by apply cmp_gt_le | exact Hle].
Qed.

Lemma max_by_Some l m :
  max_by f l = Some m → m ∈ l ∧ ∀ x, x ∈ l → cmp_le f x m.
Proof.
  destruct l as [|b l]; simpl; [done|]. intros [= <-].
  destruct (fold_max_spec l b) as (Hm & Hle & Hall). split.
  - destruct Hm as [Hm|Hm]; [rewrite Hm; left | by right].
  - intros x [->|Hx]%elem_of_cons; [done|]. by eapply (proj1 (Forall_forall _ _) Hall).
Qed.
End Comparators.

#[export] Hint Resolve sort_by_sorted sort_by_perm comparator_refl : pantheon.

(** The minimum of a total order does not depend on the order of the list. *)
Lemma min_by_perm {A} (f : A → A → comparison) `{!TotalOrder f} l1 l2 :
  l1 ≡ₚ l2 → min_by f l1 = min_by f l2.
Proof.
  intros Hp. destruct (min_by f l1) as [m1|] eqn:H1, (min_by f l2) as [m2|] eqn:H2.
  - apply min_by_Some in H1 as [Hin1 Hle1]; [|apply _].
    apply min_by_Some in H2 as [Hin2 Hle2]; [|apply _]. f_equal.
    apply (total_order_eq f), cmp_le_antisym_eq; [apply _|..].
    + apply Hle1. by rewrite Hp.
    + apply Hle2. by rewrite <-Hp.
  - destruct l2; [|done]. apply Permutation_nil_r in Hp as ->. done.
  - destruct l1; [|done]. apply Permutation_nil in Hp as ->. done.
  - done.
Qed.

(** ** Instances of the order classes *)

Section Chains.
Context {A : Type} (f : A → A → comparison) `{!Comparator f}.

Lemma cmp_lt_le_trans x y z : f x y = Lt → cmp_le f y z → f x z = Lt.
Proof.
  intros Hxy Hyz. assert (cmp_le f x z) as Hxz.
  { eapply (comparator_trans f); [|exact Hyz]. unfold cmp_le; congruence. }
  destruct (f x z) eqn:E; [|done|done]. exfalso.
  assert (cmp_le f z x) as Hzx.
  { unfold cmp_le. by rewrite (comparator_antisym f x z), E. }
  pose proof (comparator_trans f _ _ _ Hyz Hzx) as Hyx. apply Hyx.
  by rewrite (comparator_antisym f x y), Hxy.
Qed.

Lemma cmp_le_lt_trans x y z : cmp_le f x y → f y z = Lt → f x z = Lt.
Proof.
  intros Hxy Hyz. destruct (f x z) eqn:E; [|done|].
  1,2: exfalso; assert (cmp_le f z x) as Hzx
    by (unfold cmp_le; by rewrite (comparator_antisym f x z), E);
    pose proof (comparator_trans f _ _ _ Hzx Hxy) as Hzy; apply Hzy;
    by rewrite (comparator_antisym f y z), Hyz.
Qed.

Lemma cmp_eq_trans x y z : f x y = Eq → f y z = Eq → f x z = Eq.
Proof.
  intros Hxy Hyz. apply cmp_le_antisym_eq; [done|..].
  - eapply (comparator_trans f); unfold cmp_le; [by rewrite Hxy | by rewrite Hyz].
  - eapply (comparator_trans f); unfold cmp_le;
      [by rewrite (comparator_antisym f y z), Hyz | by rewrite (comparator_antisym f x y), Hxy].
Qed.
End Chains.

(** Lexicographic chaining of two comparators. *)
#[export] Instance then_cmp_comparator {A} (f g : A → A → comparison)
    `{!Comparator f, !Comparator g} : Comparator (fun x y => then_cmp (f x y) (g x y)).
Proof.
  split.
  - intros x y. rewrite (comparator_antisym f x y), (comparator_antisym g x y).
    by destruct (f x y), (g x y).
  - intros x y z. unfold cmp_le at 1 2. intros Hxy Hyz.
    destruct (f x y) eqn:E1, (f y z) eqn:E2; simpl in *; try congruence.
    + unfold cmp_le. rewrite (cmp_eq_trans f _ _ _ E1 E2). simpl.
      by eapply (comparator_trans g).
    + unfold cmp_le. rewrite (cmp_le_lt_trans f x y z); [done|unfold cmp_le; congruence|done].
    + unfold cmp_le. rewrite (cmp_lt_le_trans f x y z); [done|done|unfold cmp_le; congruence].
    + unfold cmp_le. rewrite (cmp_lt_le_trans f x y z); [done|done|unfold cmp_le; congruence].
Qed.

#[export] Instance key_cmp_comparator {A K} (key : A → K) (f : K → K → comparison)
    `{!Comparator f} : Comparator (key_cmp key f).
Proof.
  unfold key_cmp. split.
  - intros x y. apply (comparator_antisym f).
  - intros x y z. apply (comparator_trans f).
Qed.

#[export] Instance pair_cmp_total {A B} (f : A → A → comparison) (g : B → B → comparison)
    `{!TotalOrder f, !TotalOrder g} : TotalOrder (pair_cmp f g).
Proof.
  split.
  - apply (then_cmp_comparator (key_cmp fst f) (key_cmp snd g)).
  - intros [x1 x2] [y1 y2]. unfold pair_cmp; simpl. destruct (f x1 y1) eqn:E; [|done..].
    simpl. intros E2. f_equal; [by apply (total_order_eq f) | by apply (total_order_eq g)].
Qed.

(** The reversed comparison, for descending keys. *)
Lemma flip_comparator {A} (f : A → A → comparison) `{!Comparator f} :
  Comparator (fun x y => f y x).
Proof.
  split.
  - intros x y. apply (comparator_antisym f).
  - unfold cmp_le. intros x y z Hyx Hzy. exact (comparator_trans f z y x Hzy Hyx).
Qed.

#[export] Instance Z_compare_total : TotalOrder Z.compare.
Proof.
  split; [split|].
  - intros x y. apply Z.compare_antisym.
  - unfold cmp_le. intros x y z. rewrite !Z.compare_le_iff. lia.
  - intros x y. apply Z.compare_eq_iff.
Qed.

#[export] Instance string_compare_total : TotalOrder String.compare.
Proof.
  assert (∀ s t, String.compare s t ≠ Gt ↔ String.le s t) as Hle.
  { intros s t. unfold String.le, String.leb. by destruct (String.compare s t). }
  split; [split|].
  - intros s t. apply String.compare_antisym.
  - unfold cmp_le. intros s t u. rewrite !Hle. apply transitivity.
  - intros s t. apply String.compare_eq_iff.
Qed.

#[export] Instance string_cmp_total : TotalOrder (cmp (A:=string)) := string_compare_total.
#[export] Instance Z_cmp_total : TotalOrder (cmp (A:=Z)) := Z_compare_total.
#[export] Instance pair_cmp_ord_total {A B} `{Ord A, Ord B}
    `{!TotalOrder (cmp (A:=A)), !TotalOrder (cmp (A:=B))} : TotalOrder (cmp (A:=A * B)) :=
  pair_cmp_total cmp cmp.

(** ** Sorted lists without repeated keys *)

Definition strict {A} (f : A → A → comparison) (x y : A) : Prop := f x y = Lt.

(** A sorted list in which no two neighbours compare equal is strictly sorted. *)
Lemma find_window_strict {A B} (f : A → A → comparison) `{!Comparator f}
    (w : A → A → option B) l :
  (∀ x y, x ∈ l → y ∈ l → w x y = None → f x y ≠ Eq) →
  StronglySorted (cmp_le f) l → find_window w l = None → StronglySorted (strict f) l.
Proof.
  intros Hw Hs. induction Hs as [|x l Hl IH Hx]; intros Hf; [constructor|].
  assert (StronglySorted (strict f) l) as Hl'.
  { apply IH; [intros a b Ha Hb; apply Hw; by right|].
    simpl in Hf. destruct l; [done|]. by destruct (w x a). }
  constructor; [done|].
  destruct l as [|y l]; [constructor|]. simpl in Hf.
  destruct (w x y) eqn:Hwxy; [done|].
  assert (f x y = Lt) as Hxy.
  { inversion Hx as [|? ? Hle]; subst. unfold cmp_le in Hle.
    destruct (f x y) eqn:E; [|done|done]. exfalso.
    eapply (Hw x y); [left | right; left | done | done]. }
  constructor; [done|]. inversion Hl' as [|? ? _ Hy]; subst.
  eapply Forall_impl; [exact Hy|]. intros z Hz.
  eapply (cmp_lt_le_trans f); [exact Hxy|]. unfold cmp_le. unfold strict in Hz. congruence.
Qed.

Lemma find_window_Some {A B} (w : A → A → option B) l b :
  find_window w l = Some b →
  ∃ l1 x y l2, l = l1 ++ x :: y :: l2 ∧ w x y = Some b.
Proof.
  induction l as [|x [|y l] IH]; [done|done|]. simpl. destruct (w x y) eqn:E.
  - intros [= <-]. by exists [], x, y, l.
  - intros (l1 & x' & y' & l2 & Heq & Hw)%IH. exists (x :: l1), x', y', l2.
    split; [|done]. simpl in *. by rewrite Heq.
Qed.

(** Two strictly sorted lists with the same elements are the same list. *)
Lemma strict_sorted_unique {A} (f : A → A → comparison) `{!Comparator f} l1 l2 :
  StronglySorted (strict f) l1 → StronglySorted (strict f) l2 → l1 ≡ₚ l2 → l1 = l2.
Proof.
  apply (StronglySorted_unique_strong (strict f)). unfold strict.
  intros x y _ _ Hxy Hyx. rewrite (comparator_antisym f x y), Hxy in Hyx. done.
Qed.

Lemma strict_sorted_nodup {A K} (key : A → K) (f : K → K → comparison) `{!Comparator f} l :
  StronglySorted (strict (key_cmp key f)) l → NoDup (map key l).
Proof.
  induction 1 as [|x l Hl IH Hx]; simpl; constructor; [|done].
  intros Hin. apply list_elem_of_In, in_map_iff in Hin as (y & Hk & Hy).
  apply list_elem_of_In in Hy. eapply Forall_forall in Hx; [|exact Hy].
  unfold strict, key_cmp in Hx. rewrite Hk, comparator_refl in Hx; done.
Qed.

(** [dedup] after a sort keeps exactly the elements. *)
Lemma elem_of_dedup {A} `{EqDecision A} (l : list A) x : x ∈ dedup l ↔ x ∈ l.
Proof.
  induction l as [|y l IH]; simpl; [done|]. rewrite elem_of_cons, <-IH.
  destruct (dedup l) as [|z l']; [set_solver|]. case_decide; set_solver.
Qed.

Lemma dedup_nil {A} `{EqDecision A} (l : list A) : dedup l = [] ↔ l = [].
Proof.
  destruct l as [|y l]; simpl; [done|]. destruct (dedup l); [done|].
  by case_decide.
Qed.

(** ** Lemmas on machine integers *)

Lemma in_i64_spec z : in_i64 z = true ↔ (i64_min ≤ z ≤ i64_max)%Z.
Proof. unfold in_i64. rewrite andb_true_iff, !Z.leb_le. lia. Qed.

Lemma in_u32_spec z : in_u32 z = true ↔ (0 ≤ z ≤ u32_max)%Z.
Proof. unfold in_u32. rewrite andb_true_iff, !Z.leb_le. lia. Qed.

Lemma in_u32_i64 z : in_u32 z = true → in_i64 z = true.
Proof. rewrite in_u32_spec, in_i64_spec. unfold u32_max, i64_min, i64_max. lia. Qed.

Lemma u32_try_from_in z : in_u32 z = true → u32_try_from z = Some z.
Proof. unfold u32_try_from. by intros ->. Qed.

Lemma i64_saturating_in z : in_u64 z = true → in_i64 (i64_saturating z) = true.
Proof.
  unfold in_u64, i64_saturating. rewrite in_i64_spec. rewrite andb_true_iff, !Z.leb_le.
  unfold i64_min, i64_max, u64_max. destruct (Z.leb_spec z 9223372036854775807); lia.
Qed.

Lemma u64_as_i64_in z : in_u64 z = true → in_i64 (u64_as_i64 z) = true.
Proof.
  unfold in_u64, u64_as_i64. rewrite in_i64_spec. rewrite andb_true_iff, !Z.leb_le.
  unfold i64_min, i64_max, u64_max. destruct (Z.leb_spec z 9223372036854775807); lia.
Qed.

#[export] Hint Resolve in_u32_i64 i64_saturating_in u64_as_i64_in : pantheon.

(** ** Binary search

    [slice::binary_search_by]: bisection of [lo, hi).  Each step at least halves
    the interval, so the length of the slice is enough fuel. *)

Fixpoint bisect {A} (f : A → comparison) (l : list A) (fuel lo hi : nat) : option nat :=
  match fuel with
  | O => None
  | S fuel' =>
      if hi <=? lo then None
      else
        let mid := lo + Nat.div2 (hi - lo) in
        match l !! mid with
        | None => None
        | Some x =>
            match f x with
            | Eq => Some mid
            | Lt => bisect f l fuel' (S mid) hi
            | Gt => bisect f l fuel' lo mid
            end
        end
  end.

Definition binary_search_by {A} (f : A → comparison) (l : list A) : option nat :=
  bisect f l (S (length l)) 0 (length l).

Lemma strict_lookup_lt {A} (f : A → A → comparison) l i j x y :
  StronglySorted (strict f) l → l !! i = Some x → l !! j = Some y → i < j → f x y = Lt.
Proof.
  intros Hs. revert i j. induction Hs as [|z l Hl IH Hz]; intros i j Hi Hj Hij; [done|].
  destruct j as [|j]; [lia|]. destruct i as [|i]; cbn in *.
  - injection Hi as ->. eapply Forall_forall in Hz; [exact Hz|]. by eapply list_elem_of_lookup_2.
  - eapply IH; [done|done|lia].
Qed.

Section BinarySearch.
Context {A K : Type} (key : A → K) (f : K → K → comparison) `{!TotalOrder f}.
Context (l : list A) (Hl : StronglySorted (strict (key_cmp key f)) l) (k : K).

Lemma bisect_found fuel lo hi i :
  bisect (fun x => f (key x) k) l fuel lo hi = Some i →
  ∃ x, l !! i = Some x ∧ key x = k.
Proof.
  revert lo hi; induction fuel as [|fuel IH]; intros lo hi; cbn [bisect]; [done|].
  destruct (hi <=? lo); [done|]. destruct (l !! (lo + _)) as [x|] eqn:Hx; [|done].
  destruct (f (key x) k) eqn:E; [|by apply IH|by apply IH].
  intros [= <-]. exists x. split; [done | by apply (total_order_eq f)].
Qed.

Lemma bisect_complete fuel lo hi i x :
  l !! i = Some x → key x = k → lo ≤ i < hi → hi ≤ length l → hi - lo < fuel →
  bisect (fun x => f (key x) k) l fuel lo hi = Some i.
Proof.
  intros Hi Hk. revert lo hi; induction fuel as [|fuel IH]; intros lo hi Hin Hhi Hf; [lia|].
  cbn [bisect]. destruct (Nat.leb_spec hi lo); [lia|].
  assert (Nat.div2 (hi - lo) < hi - lo) as Hd by (apply Nat.lt_div2; lia).
  assert (lo ≤ lo + Nat.div2 (hi - lo) < hi) as Hmid by (revert Hd; generalize (Nat.div2 (hi - lo)); lia).
  generalize dependent (lo + Nat.div2 (hi - lo)). intros mid Hmid.
  destruct (l !! mid) as [y|] eqn:Hy; [|apply lookup_ge_None in Hy; lia].
  destruct (lt_eq_lt_dec mid i) as [[Hlt|Heq]|Hgt].
  - pose proof (strict_lookup_lt _ _ _ _ _ _ Hl Hy Hi Hlt) as E. unfold key_cmp in E.
    rewrite Hk in E. rewrite E. apply IH; lia.
  - subst i. rewrite Hy in Hi. injection Hi as ->. by rewrite Hk, (comparator_refl f).
  - pose proof (strict_lookup_lt _ _ _ _ _ _ Hl Hi Hy Hgt) as E. unfold key_cmp in E.
    rewrite Hk in E. rewrite (comparator_antisym f k (key y)), E. cbn. apply IH; lia.
Qed.

(** On a strictly sorted slice the search finds exactly the element of the key. *)
Lemma binary_search_lookup x :
  (binary_search_by (fun y => f (key y) k) l ≫= fun i => l !! i) = Some x ↔ x ∈ l ∧ key x = k.
Proof.
  split.
  - intros H. apply bind_Some in H as (i & Hi & Hx).
    apply bisect_found in Hi as (y & Hy & Hk). rewrite Hx in Hy. injection Hy as <-.
    split; [by eapply list_elem_of_lookup_2 | done].
  - intros [(i & Hi)%list_elem_of_lookup_1 Hk]. unfold binary_search_by.
    pose proof (lookup_lt_Some _ _ _ Hi). by rewrite (bisect_complete _ _ _ i x) by (done || lia).
Qed.
End BinarySearch.

(** ** Sorting by a key and refusing repeated keys *)

Lemma NoDup_map_inj {A K} (key : A → K) l x y :
  NoDup (map key l) → x ∈ l → y ∈ l → key x = key y → x = y.
Proof.
  induction l as [|z l IH]; cbn; [intros _ H; by apply not_elem_of_nil in H|].
  intros Hnd Hx Hy Hk. apply NoDup_cons in Hnd as [Hz Hnd].
  assert (∀ u, u ∈ l → key u ∈ map key l) as Hmap.
  { intros u Hu. apply list_elem_of_In, in_map. by apply list_elem_of_In. }
  apply elem_of_cons in Hx as [->|Hx], Hy as [->|Hy]; auto.
  - destruct Hz. rewrite Hk. auto.
  - destruct Hz. rewrite <-Hk. auto.
Qed.

Section KeyedSort.
Context {A K B : Type} (key : A → K) (f : K → K → comparison) `{!TotalOrder f}.

Lemma sort_by_key_perm l1 l2 :
  NoDup (map key l1) → l1 ≡ₚ l2 → sort_by (key_cmp key f) l1 = sort_by (key_cmp key f) l2.
Proof.
  intros Hnd Hp. apply sort_by_unique; [apply _| |done]. intros x y Hx Hy E.
  apply (NoDup_map_inj key l1); [exact Hnd|exact Hx|exact Hy|]. exact (total_order_eq f _ _ E).
Qed.

(** The adjacent-pair test on the sorted list finds a repeated key exactly when
    there is one. *)
Lemma sorted_window_nodup (w : A → A → option B) l :
  (∀ x y, w x y = None ↔ key x ≠ key y) →
  find_window w (sort_by (key_cmp key f) l) = None ↔ NoDup (map key l).
Proof.
  intros Hw. assert (map key (sort_by (key_cmp key f) l) ≡ₚ map key l) as Hp.
  { apply Permutation_map, sort_by_perm. }
  split.
  - intros Hf. rewrite <-Hp. apply (strict_sorted_nodup key f).
    eapply find_window_strict; [apply _| |apply sort_by_sorted; apply _|exact Hf].
    intros x y _ _ Hxy E. apply Hw in Hxy. by apply Hxy, (total_order_eq f).
  - intros Hnd. rewrite <-Hp in Hnd. destruct (find_window _ _) as [b|] eqn:E; [|done].
    apply find_window_Some in E as (l1 & x & y & l2 & Heq & Hxy). rewrite Heq, map_app in Hnd.
    apply NoDup_app in Hnd as (_ & _ & Hnd). cbn in Hnd. apply NoDup_cons in Hnd as [Hnot _].
    destruct (decide (w x y = None)) as [E|E]; [congruence|]. exfalso. apply E, Hw.
    intros Hk. apply Hnot. rewrite Hk. left.
Qed.

Lemma sorted_nodup_strict l :
  NoDup (map key l) → StronglySorted (strict (key_cmp key f)) (sort_by (key_cmp key f) l).
Proof.
  intros Hnd. assert (StronglySorted (cmp_le (key_cmp key f)) (sort_by (key_cmp key f) l)) as Hs.
  { apply sort_by_sorted; apply _. }
  assert (NoDup (map key (sort_by (key_cmp key f) l))) as Hnd'.
  { by rewrite (Permutation_map key (sort_by_perm (key_cmp key f) l)). }
  induction Hs as [|x m Hm IH Hx]; constructor.
  - apply IH. cbn in Hnd'. by apply NoDup_cons in Hnd' as [_ ?].
  - cbn in Hnd'. apply NoDup_cons in Hnd' as [Hnot _]. rewrite Forall_forall in *.
    intros y Hy. specialize (Hx y Hy). unfold strict, cmp_le, key_cmp in *.
    destruct (f (key x) (key y)) eqn:E; [|done|done]. apply (total_order_eq f) in E.
    destruct Hnot. rewrite E. apply list_elem_of_In, in_map. by apply list_elem_of_In.
Qed.
End KeyedSort.

Lemma NoDup_snoc {A} (l : list A) x : NoDup l → x ∉ l → NoDup (l ++ [x]).
Proof.
  intros Hl Hx. apply NoDup_app. split; [done|]. split; [|apply NoDup_singleton].
  intros y Hy ->%list_elem_of_singleton. done.
Qed.
