(* ===== verification/Utf8.v ===== *)
(** * Rust strings: bytes, UTF-8 and decimal text

    A Rust [String] is a sequence of bytes that is valid UTF-8; here it is a
    Stdlib [string], whose characters are bytes, and [utf8_valid] is the
    validity [std::str::from_utf8] decides.  Comparison of strings is byte
    comparison and [len] is the number of bytes, as in Rust.  [chars] and [push]
    decode and encode scalar values; [u64_to_string] and [i64_to_string] are
    [to_string] on integers. *)

From Stdlib Require Import ZArith NArith Lia Ascii.
From S2P Require Import Prelude.

Ltac Zify.zify_post_hook ::= Z.to_euclidean_division_equations.

(** Appending to a known prefix computes. *)
#[global] Arguments String.append : simpl nomatch.

Section Text.
Local Open Scope N_scope.

(** The value of a byte, and the byte of a value. *)
Definition byte_val (b : ascii) : N := N_of_ascii b.
Definition byte_of (n : N) : ascii := ascii_of_N n.

Definition in_range (lo hi : N) (b : ascii) : bool :=
  (lo <=? byte_val b) && (byte_val b <=? hi).

(** Continuation bytes [10xxxxxx]. *)
Definition is_cont (b : ascii) : bool := in_range 128 191 b.

(** [char::from_u32] succeeds exactly on Unicode scalar values. *)
Definition is_scalar (c : N) : bool :=
  (c <? 55296) || ((57344 <=? c) && (c <=? 1114111)).

Definition char_from_u32 (c : N) : option N := if is_scalar c then Some c else None.

(** The second bytes a three- or four-byte lead admits (no overlong forms, no
    surrogates, nothing above U+10FFFF). *)
Definition second_of_three (b0 b1 : ascii) : bool :=
  if byte_val b0 =? 224 then in_range 160 191 b1
  else if byte_val b0 =? 237 then in_range 128 159 b1
  else in_range 128 191 b1.

Definition second_of_four (b0 b1 : ascii) : bool :=
  if byte_val b0 =? 240 then in_range 144 191 b1
  else if byte_val b0 =? 244 then in_range 128 143 b1
  else in_range 128 191 b1.

(** The first character of a byte string and what follows it, when the bytes
    there are well-formed UTF-8. *)
Definition next_char (s : string) : option (N * string) :=
  match s with
  | EmptyString => None
  | String b0 s0 =>
    let v0 := byte_val b0 in
    if v0 <? 128 then Some (v0, s0)
    else match s0 with
    | EmptyString => None
    | String b1 s1 =>
      let v1 := byte_val b1 - 128 in
      if in_range 194 223 b0 then
        if is_cont b1 then Some ((v0 - 192) * 64 + v1, s1) else None
      else match s1 with
      | EmptyString => None
      | String b2 s2 =>
        let v2 := byte_val b2 - 128 in
        if in_range 224 239 b0 then
          if second_of_three b0 b1 && is_cont b2
          then Some ((v0 - 224) * 4096 + v1 * 64 + v2, s2) else None
        else match s2 with
        | EmptyString => None
        | String b3 s3 =>
          let v3 := byte_val b3 - 128 in
          if in_range 240 244 b0 then
            if second_of_four b0 b1 && is_cont b2 && is_cont b3
            then Some ((v0 - 240) * 262144 + v1 * 4096 + v2 * 64 + v3, s3) else None
          else None
        end
      end
    end
  end.

(** Every character takes at least one byte, so the length bounds the loop. *)
Fixpoint chars_upto (fuel : nat) (s : string) : option (list N) :=
  match s with
  | EmptyString => Some []
  | _ =>
    match fuel with
    | O => None
    | S fuel' =>
      match next_char s with
      | Some (c, rest) => cons c <$> chars_upto fuel' rest
      | None => None
      end
    end
  end.

(** [std::str::from_utf8], as the list of characters of a valid text. *)
Definition from_utf8 (s : string) : option (list N) := chars_upto (String.length s) s.

(** A text of bytes below 128, which is valid as it stands. *)
Fixpoint is_ascii (s : string) : bool :=
  match s with
  | EmptyString => true
  | String (Ascii _ _ _ _ _ _ _ high) rest => if high then false else is_ascii rest
  end.

Definition utf8_valid (s : string) : bool :=
  if is_ascii s then true
  else match from_utf8 s with
       | Some _ => true
       | None => false
       end.

(** [str::chars]; every Rust [str] is valid. *)
Definition chars (s : string) : list N := default [] (from_utf8 s).

(** [char::encode_utf8], what [String::push] appends. *)
Definition encode_utf8 (c : N) : string :=
  if c <? 128 then String (byte_of c) EmptyString
  else if c <? 2048 then
    String (byte_of (192 + c / 64)) (String (byte_of (128 + c mod 64)) EmptyString)
  else if c <? 65536 then
    String (byte_of (224 + c / 4096))
      (String (byte_of (128 + (c / 64) mod 64))
        (String (byte_of (128 + c mod 64)) EmptyString))
  else
    String (byte_of (240 + c / 262144))
      (String (byte_of (128 + (c / 4096) mod 64))
        (String (byte_of (128 + (c / 64) mod 64))
          (String (byte_of (128 + c mod 64)) EmptyString))).

(** A text as the concatenation of its characters. *)
Fixpoint of_chars (cs : list N) : string :=
  match cs with
  | [] => EmptyString
  | c :: rest => encode_utf8 c +:+ of_chars rest
  end.

(** [str::starts_with] and [str::strip_prefix]. *)
Fixpoint strip_prefix (p s : string) : option string :=
  match p, s with
  | EmptyString, _ => Some s
  | String a p', String b s' => if Ascii.eqb a b then strip_prefix p' s' else None
  | String _ _, EmptyString => None
  end.

Definition starts_with (p s : string) : bool :=
  match strip_prefix p s with
  | Some _ => true
  | None => false
  end.

(** [str::split(sep)] on one separator byte: always at least one piece. *)
Fixpoint split_on (sep : ascii) (s : string) : list string :=
  match s with
  | EmptyString => [EmptyString]
  | String b rest =>
      if Ascii.eqb b sep then EmptyString :: split_on sep rest
      else match split_on sep rest with
           | piece :: more => String b piece :: more
           | [] => [String b EmptyString]
           end
  end.

(** [str::contains(c)] for an ASCII byte. *)
Fixpoint contains_byte (c : ascii) (s : string) : bool :=
  match s with
  | EmptyString => false
  | String b rest => Ascii.eqb b c || contains_byte c rest
  end.

Lemma contains_byte_app c s t : contains_byte c (s +:+ t) = contains_byte c s || contains_byte c t.
Proof. induction s as [|b s IH]; cbn [String.append contains_byte]; [done|]. by rewrite IH, orb_assoc. Qed.

(** [str::ends_with] and [str::contains] of a text. *)
Fixpoint ends_with (suffix s : string) : bool :=
  String.eqb s suffix
  || match s with
     | EmptyString => false
     | String _ rest => ends_with suffix rest
     end.

Fixpoint contains_str (pattern s : string) : bool :=
  starts_with pattern s
  || match s with
     | EmptyString => false
     | String _ rest => contains_str pattern rest
     end.

(** [char::is_whitespace]: the Unicode [White_Space] characters. *)
Definition char_is_whitespace (c : N) : bool :=
  ((9 <=? c) && (c <=? 13)) || (c =? 32) || (c =? 133) || (c =? 160) || (c =? 5760)
  || ((8192 <=? c) && (c <=? 8202)) || (c =? 8232) || (c =? 8233) || (c =? 8239)
  || (c =? 8287) || (c =? 12288).

Fixpoint skip_blank (cs : list N) : list N :=
  match cs with
  | c :: rest => if char_is_whitespace c then skip_blank rest else cs
  | [] => []
  end.

(** [str::trim]. *)
Definition trim (s : string) : string :=
  of_chars (rev (skip_blank (rev (skip_blank (chars s))))).

Definition is_empty (s : string) : bool := String.eqb s EmptyString.

(** [char::from_digit(d, 16)] for a nibble, and decimal digits. *)
Definition hex_char (d : N) : ascii :=
  if d <? 10 then byte_of (48 + d) else byte_of (87 + d).

Definition dec_char (d : N) : ascii := byte_of (48 + d).

(** [u64::to_string]; a number has at most [1 + log2] decimal digits. *)
Fixpoint dec_digits (fuel : nat) (n : N) (acc : string) : string :=
  match fuel with
  | O => acc
  | S fuel' =>
      let acc' := String (dec_char (n mod 10)) acc in
      if n <? 10 then acc' else dec_digits fuel' (n / 10) acc'
  end.

Definition u64_to_string (n : N) : string :=
  dec_digits (S (N.to_nat (N.log2 n))) n EmptyString.

(** [i64::to_string]. *)
Definition i64_to_string (z : Z) : string :=
  match z with
  | Zneg p => String "-"%char (u64_to_string (Npos p))
  | _ => u64_to_string (Z.to_N z)
  end.
End Text.

(** ** Bytes *)

Lemma byte_val_lt b : (byte_val b < 256)%N.
Proof. apply N_ascii_bounded. Qed.

Lemma byte_of_val b : byte_of (byte_val b) = b.
Proof. apply ascii_N_embedding. Qed.

Lemma byte_val_of n : (n < 256)%N → byte_val (byte_of n) = n.
Proof. apply N_ascii_embedding. Qed.

Lemma byte_of_eq b n : byte_val b = n → byte_of n = b.
Proof. intros <-. apply byte_of_val. Qed.

Lemma byte_val_inj a b : byte_val a = byte_val b → a = b.
Proof. intros H. by rewrite <-(byte_of_val a), <-(byte_of_val b), H. Qed.

Lemma eqb_byte_val a b : Ascii.eqb a b = N.eqb (byte_val a) (byte_val b).
Proof.
  destruct (Ascii.eqb_spec a b) as [->|Hne]; [by rewrite N.eqb_refl|].
  symmetry. apply N.eqb_neq. intros H. by apply Hne, byte_val_inj.
Qed.

(** Decides the comparisons of a decoding table by linear arithmetic. *)
Ltac bool_lia :=
  repeat match goal with
  | |- context [N.ltb ?a ?b] => destruct (N.ltb_spec a b); try (exfalso; lia); simpl
  | |- context [N.leb ?a ?b] => destruct (N.leb_spec a b); try (exfalso; lia); simpl
  | |- context [N.eqb ?a ?b] => destruct (N.eqb_spec a b); try (exfalso; lia); simpl
  end.

Ltac bool_split :=
  repeat match goal with
  | H : _ && _ = true |- _ => apply andb_true_iff in H as [? ?]
  | H : N.leb _ _ = true |- _ => apply N.leb_le in H
  | H : N.ltb _ _ = true |- _ => apply N.ltb_lt in H
  | H : N.ltb _ _ = false |- _ => apply N.ltb_ge in H
  | H : N.eqb _ _ = true |- _ => apply N.eqb_eq in H
  | H : N.eqb _ _ = false |- _ => apply N.eqb_neq in H
  end.

(** ** UTF-8 *)

Lemma is_scalar_spec c :
  is_scalar c = true ↔ (c < 55296 ∨ (57344 ≤ c ∧ c ≤ 1114111))%N.
Proof.
  unfold is_scalar. rewrite orb_true_iff, andb_true_iff, N.ltb_lt, !N.leb_le. done.
Qed.

Lemma encode_utf8_1 c : (c < 128)%N → encode_utf8 c = String (byte_of c) EmptyString.
Proof. unfold encode_utf8. intros H. by rewrite (proj2 (N.ltb_lt _ _) H). Qed.

(** Decoding after encoding. *)
Lemma next_char_encode c s :
  is_scalar c = true → next_char (encode_utf8 c +:+ s) = Some (c, s).
Proof.
  intros Hc%is_scalar_spec. unfold encode_utf8, is_cont, in_range.
  destruct (N.ltb_spec c 128); [|destruct (N.ltb_spec c 2048);
    [|destruct (N.ltb_spec c 65536)]]; cbn [String.append next_char];
    unfold second_of_three, second_of_four, is_cont, in_range;
    rewrite ?byte_val_of by lia; bool_lia; f_equal; f_equal; lia.
Qed.

Lemma encode_utf8_cons c : ∃ b s, encode_utf8 c = String b s.
Proof. unfold encode_utf8. repeat case_match; eauto. Qed.

(** Encoding after decoding. *)
Lemma next_char_inv s c rest :
  next_char s = Some (c, rest) → is_scalar c = true ∧ s = encode_utf8 c +:+ rest.
Proof.
  destruct s as [|b0 s0]; [done|]. cbn [next_char].
  pose proof (byte_val_lt b0).
  destruct (N.ltb_spec (byte_val b0) 128).
  { intros [= <- <-]. split; [apply is_scalar_spec; lia|].
    rewrite encode_utf8_1 by done. cbn. by rewrite byte_of_val. }
  destruct s0 as [|b1 s1]; [done|]. pose proof (byte_val_lt b1). unfold is_cont.
  destruct (in_range 194 223 b0) eqn:R2.
  { destruct (in_range 128 191 b1) eqn:C1; [|done]. intros [= <- <-].
    unfold in_range in *. bool_split. split; [apply is_scalar_spec; lia|].
    unfold encode_utf8. bool_lia. cbn. repeat f_equal; symmetry; apply byte_of_eq; lia. }
  destruct s1 as [|b2 s2]; [done|]. pose proof (byte_val_lt b2).
  destruct (in_range 224 239 b0) eqn:R3.
  { destruct (second_of_three b0 b1 && in_range 128 191 b2) eqn:C1; [|done]. intros [= <- <-].
    unfold second_of_three, in_range in *. bool_split.
    destruct (N.eqb_spec (byte_val b0) 224), (N.eqb_spec (byte_val b0) 237); bool_split;
    (split; [apply is_scalar_spec; lia|]);
    unfold encode_utf8; bool_lia; cbn; repeat f_equal; symmetry; apply byte_of_eq; lia. }
  destruct s2 as [|b3 s3]; [done|]. pose proof (byte_val_lt b3).
  destruct (in_range 240 244 b0) eqn:R4; [|done].
  destruct (second_of_four b0 b1 && in_range 128 191 b2 && in_range 128 191 b3) eqn:C1; [|done].
  intros [= <- <-]. unfold second_of_four, in_range in *. bool_split.
  destruct (N.eqb_spec (byte_val b0) 240), (N.eqb_spec (byte_val b0) 244); bool_split;
  (split; [apply is_scalar_spec; lia|]);
  unfold encode_utf8; bool_lia; cbn; repeat f_equal; symmetry; apply byte_of_eq; lia.
Qed.

#[global] Arguments next_char : simpl never.
#[global] Arguments encode_utf8 : simpl never.

(** ** Strings as sequences of bytes *)

Lemma append_nil_r s : s +:+ EmptyString = s.
Proof. induction s as [|b s IH]; cbn; [done | by rewrite IH]. Qed.

Lemma append_assoc s t u : (s +:+ t) +:+ u = s +:+ (t +:+ u).
Proof. induction s as [|b s IH]; cbn; [done | by rewrite IH]. Qed.

Lemma length_append s t : String.length (s +:+ t) = String.length s + String.length t.
Proof. induction s as [|b s IH]; cbn; [done | by rewrite IH]. Qed.

Lemma append_inj_l s t u : s +:+ t = s +:+ u → t = u.
Proof. induction s as [|b s IH]; cbn; [done | intros [= H]; auto]. Qed.

Lemma strip_prefix_app p s : strip_prefix p (p +:+ s) = Some s.
Proof. induction p as [|b p IH]; cbn; [done | by rewrite Ascii.eqb_refl]. Qed.

Lemma strip_prefix_Some p s r : strip_prefix p s = Some r ↔ s = p +:+ r.
Proof.
  split; [|intros ->; apply strip_prefix_app].
  revert s; induction p as [|a p IH]; intros s; cbn; [by intros [= ->]|].
  destruct s as [|b s]; [done|]. destruct (Ascii.eqb_spec a b) as [->|]; [|done].
  intros ->%IH. done.
Qed.

Lemma starts_with_true p s : starts_with p s = true ↔ ∃ r, s = p +:+ r.
Proof.
  unfold starts_with. destruct (strip_prefix p s) eqn:E.
  - apply strip_prefix_Some in E. naive_solver.
  - split; [done|]. intros [r ->]. by rewrite strip_prefix_app in E.
Qed.

(** ** Characters of a text *)

Lemma next_char_length s c rest :
  next_char s = Some (c, rest) → String.length rest < String.length s.
Proof.
  intros [_ ->]%next_char_inv. destruct (encode_utf8_cons c) as (b & t & ->).
  cbn. rewrite length_append. lia.
Qed.

Lemma chars_upto_of_chars cs n :
  Forall (fun c => is_scalar c = true) cs →
  String.length (of_chars cs) ≤ n → chars_upto n (of_chars cs) = Some cs.
Proof.
  revert n; induction cs as [|c cs IH]; intros n Hcs Hn; cbn; [by destruct n|].
  inversion Hcs as [|? ? Hc Hrest]; subst.
  pose proof (next_char_encode c (of_chars cs) Hc) as Hnext.
  cbn in Hn. destruct (encode_utf8_cons c) as (b & t & E). rewrite E in *. cbn in *.
  destruct n as [|n]; [lia|]. cbn [chars_upto]. rewrite Hnext.
  rewrite length_append in Hn. rewrite IH; [done|done|lia].
Qed.

Lemma chars_upto_inv n s cs :
  chars_upto n s = Some cs → s = of_chars cs ∧ Forall (fun c => is_scalar c = true) cs.
Proof.
  revert s cs; induction n as [|n IH]; intros s cs.
  - destruct s; cbn; [by intros [= <-] | done].
  - destruct s as [|b s]; [by intros [= <-]|]. cbn [chars_upto].
    destruct (next_char (String b s)) as [[c rest]|] eqn:E; [|done].
    apply next_char_inv in E as [Hc Heq].
    destruct (chars_upto n rest) as [cs'|] eqn:Er; [|done].
    intros [= <-]. apply IH in Er as [-> Hall]. split; [exact Heq | by constructor].
Qed.

(** [from_utf8] accepts exactly the encodings of scalar values. *)
Lemma from_utf8_Some s cs :
  from_utf8 s = Some cs ↔ s = of_chars cs ∧ Forall (fun c => is_scalar c = true) cs.
Proof.
  split; [apply chars_upto_inv|]. intros [-> Hcs].
  apply chars_upto_of_chars; [done|done].
Qed.

Lemma is_ascii_chars s : is_ascii s = true → ∃ cs, s = of_chars cs ∧ Forall (fun c => is_scalar c = true) cs.
Proof.
  induction s as [|b s IH]; [by exists []|]. destruct b as [b0 b1 b2 b3 b4 b5 b6 [|]]; [done|]. intros (cs & -> & Hcs)%IH.
  set (b := Ascii b0 b1 b2 b3 b4 b5 b6 false).
  assert ((byte_val b < 128)%N) as Hb by (destruct b0, b1, b2, b3, b4, b5, b6; done).
  exists (byte_val b :: cs). split; [|constructor; [|done]].
  - cbn [of_chars]. by rewrite encode_utf8_1, byte_of_val by done.
  - apply is_scalar_spec. lia.
Qed.

Lemma utf8_valid_spec s :
  utf8_valid s = true ↔ ∃ cs, s = of_chars cs ∧ Forall (fun c => is_scalar c = true) cs.
Proof.
  unfold utf8_valid. destruct (is_ascii s) eqn:Ha; [by split; [intros _; apply is_ascii_chars|]|].
  setoid_rewrite <-from_utf8_Some.
  destruct (from_utf8 s) as [cs|]; naive_solver.
Qed.

Lemma chars_of_chars cs :
  Forall (fun c => is_scalar c = true) cs → chars (of_chars cs) = cs.
Proof.
  intros H. unfold chars. by rewrite (proj2 (from_utf8_Some (of_chars cs) cs) (conj eq_refl H)).
Qed.

Lemma of_chars_app cs ds : of_chars (cs ++ ds) = of_chars cs +:+ of_chars ds.
Proof. induction cs as [|c cs IH]; cbn; [done | by rewrite IH, append_assoc]. Qed.

Lemma utf8_valid_app s t : utf8_valid s = true → utf8_valid t = true → utf8_valid (s +:+ t) = true.
Proof.
  rewrite !utf8_valid_spec. intros (cs & -> & Hcs) (ds & -> & Hds).
  exists (cs ++ ds). split; [by rewrite of_chars_app | by apply Forall_app].
Qed.

Lemma utf8_valid_encode c : is_scalar c = true → utf8_valid (encode_utf8 c) = true.
Proof.
  intros Hc. apply utf8_valid_spec. exists [c]. cbn. rewrite append_nil_r. auto.
Qed.

(** What follows a character of a valid text is a valid text. *)
Lemma utf8_valid_tail c s :
  is_scalar c = true → utf8_valid (encode_utf8 c +:+ s) = true → utf8_valid s = true.
Proof.
  rewrite !utf8_valid_spec. intros Hc (cs & Heq & Hcs).
  pose proof (next_char_encode c s Hc) as Hn. rewrite Heq in Hn.
  destruct cs as [|d cs]; [done|]. inversion Hcs; subst. cbn in Hn.
  rewrite next_char_encode in Hn by done. injection Hn as _ <-. eauto.
Qed.

#[export] Hint Resolve utf8_valid_app utf8_valid_encode : pantheon.

(** ** Splitting *)

Fixpoint join_on (sep : ascii) (pieces : list string) : string :=
  match pieces with
  | [] => EmptyString
  | [p] => p
  | p :: rest => p +:+ String sep (join_on sep rest)
  end.

Lemma split_on_ne sep s : split_on sep s ≠ [].
Proof.
  destruct s as [|b s]; cbn; [done|]. destruct (Ascii.eqb b sep); [done|].
  by destruct (split_on sep s).
Qed.

(** Splitting loses nothing: the pieces joined give the text back. *)
Lemma join_split sep s : join_on sep (split_on sep s) = s.
Proof.
  induction s as [|b s IH]; cbn [split_on]; [done|].
  pose proof (split_on_ne sep s) as Hne.
  destruct (Ascii.eqb_spec b sep) as [->|Hb].
  - cbn. destruct (split_on sep s) eqn:E; [done|]. by rewrite IH.
  - destruct (split_on sep s) as [|p [|q ps]] eqn:E; [done|..]; cbn in *; by rewrite IH.
Qed.

Lemma split_on_no_sep sep s p : p ∈ split_on sep s → contains_byte sep p = false.
Proof.
  revert p; induction s as [|b s IH]; intros p; cbn [split_on].
  - by intros ->%list_elem_of_singleton.
  - destruct (Ascii.eqb b sep) eqn:Hb.
    + intros [->|Hp]%elem_of_cons; [done | by apply IH].
    + pose proof (split_on_ne sep s) as Hne.
      destruct (split_on sep s) as [|q qs] eqn:E; [done|].
      intros [->|Hp]%elem_of_cons; [|apply IH; by right].
      cbn. rewrite Hb. apply IH. left.
Qed.

Lemma contains_byte_true c s : contains_byte c s = true ↔ ∃ l r, s = l +:+ String c r.
Proof.
  induction s as [|b s IH]; cbn.
  - split; [done|]. intros (l & r & H). by destruct l.
  - rewrite orb_true_iff, IH. split.
    + intros [->%Ascii.eqb_eq|(l & r & ->)]; [by exists EmptyString, s | by exists (String b l), r].
    + intros (l & r & H). destruct l as [|a l]; cbn in H; injection H as -> ->.
      * left. apply Ascii.eqb_refl.
      * right. eauto.
Qed.

(** ** Blank text *)

Lemma skip_blank_nil cs : skip_blank cs = [] ↔ forallb char_is_whitespace cs = true.
Proof. induction cs as [|c cs IH]; cbn; [done|]. by destruct (char_is_whitespace c). Qed.

Lemma skip_blank_suffix cs : ∃ ds, cs = ds ++ skip_blank cs ∧ forallb char_is_whitespace ds = true.
Proof.
  induction cs as [|c cs (ds & Heq & Hds)]; cbn; [by exists []|].
  destruct (char_is_whitespace c) eqn:E; [|by exists []].
  exists (c :: ds). cbn. rewrite E. split; [by f_equal | done].
Qed.

(** A text trims to nothing exactly when it has only white space. *)
Lemma trim_is_empty s : is_empty (trim s) = forallb char_is_whitespace (chars s).
Proof.
  unfold is_empty, trim. set (m := skip_blank (chars s)).
  assert (∀ cs, String.eqb (of_chars cs) EmptyString = true ↔ cs = []) as Hnil.
  { intros [|c cs]; cbn [of_chars]; [done|]. destruct (encode_utf8_cons c) as (b & t & ->). done. }
  apply eq_true_iff_eq. rewrite Hnil. split.
  - intros H%(f_equal (@rev N)). rewrite rev_involutive in H. apply skip_blank_nil in H.
    destruct (skip_blank_suffix (chars s)) as (ds & -> & Hds). fold m.
    rewrite forallb_app, Hds. cbn. rewrite forallb_forall in *. intros c Hc. apply H.
    by apply in_rev in Hc.
  - intros H. apply skip_blank_nil in H. subst m. by rewrite H.
Qed.

(** ** Substrings *)

Lemma ends_with_true suffix s : ends_with suffix s = true ↔ ∃ l, s = l +:+ suffix.
Proof.
  induction s as [|b s IH]; cbn [ends_with]; rewrite orb_true_iff, String.eqb_eq.
  - split.
    + intros [<-|?]; [by exists EmptyString|done].
    + intros [[|? ?] H]; [by left|done].
  - rewrite IH. split.
    + intros [<-|[l ->]]; [by exists EmptyString | by exists (String b l)].
    + intros [[|c l] H]; cbn in H; [by left|]. injection H as -> ->. right. eauto.
Qed.

Lemma contains_str_true p s : contains_str p s = true ↔ ∃ l r, s = l +:+ (p +:+ r).
Proof.
  induction s as [|b s IH]; cbn [contains_str]; rewrite orb_true_iff, starts_with_true.
  - split.
    + intros [[r ->]|?]; [by exists EmptyString, r|done].
    + intros ([|? ?] & r & H); [left; by exists r|done].
  - rewrite IH. split.
    + intros [[r ->]|(l & r & ->)]; [by exists EmptyString, r | by exists (String b l), r].
    + intros ([|c l] & r & H); cbn in H; [left; by exists r|]. injection H as -> ->. right. eauto.
Qed.

(** An empty component comes from a leading, a trailing or a doubled separator. *)
Lemma split_on_head_empty sep s ps :
  split_on sep s = EmptyString :: ps →
  s = EmptyString ∨ starts_with (String sep EmptyString) s = true.
Proof.
  destruct s as [|b s]; cbn [split_on]; [by left|]. intros H. right. apply starts_with_true.
  destruct (Ascii.eqb_spec b sep) as [->|Hb]; [by exists s|].
  by destruct (split_on sep s).
Qed.

Lemma split_on_tail_empty sep s :
  EmptyString ∈ tail (split_on sep s) →
  ends_with (String sep EmptyString) s = true ∨
  contains_str (String sep (String sep EmptyString)) s = true.
Proof.
  induction s as [|b s IH]; [intros H; by apply not_elem_of_nil in H|].
  assert (ends_with (String sep EmptyString) s = true ∨
      contains_str (String sep (String sep EmptyString)) s = true →
    ends_with (String sep EmptyString) (String b s) = true ∨
      contains_str (String sep (String sep EmptyString)) (String b s) = true) as Hmono.
  { intros [H|H]; [left; cbn | right; cbn [contains_str]]; by rewrite H, orb_true_r. }
  cbn [split_on]. destruct (Ascii.eqb_spec b sep) as [->|Hb]; cbn [tail].
  - intros Hin. destruct (split_on sep s) as [|p ps] eqn:E; [by apply split_on_ne in E|].
    apply elem_of_cons in Hin as [<-|Hin]; [|by apply Hmono, IH].
    apply split_on_head_empty in E as [->|[r ->]%starts_with_true].
    + left. cbn. by rewrite Ascii.eqb_refl.
    + right. apply contains_str_true. by exists EmptyString, r.
  - destruct (split_on sep s) as [|p ps] eqn:E; [by apply split_on_ne in E|]. cbn [tail]. auto.
Qed.

Lemma split_on_empty sep s :
  EmptyString ∈ split_on sep s →
  s = EmptyString ∨ starts_with (String sep EmptyString) s = true ∨
  ends_with (String sep EmptyString) s = true ∨
  contains_str (String sep (String sep EmptyString)) s = true.
Proof.
  pose proof (split_on_tail_empty sep s) as Ht.
  destruct (split_on sep s) as [|p ps] eqn:E; [by apply split_on_ne in E|].
  intros [<-|Hin]%elem_of_cons; [|by right; right; apply Ht].
  apply split_on_head_empty in E. tauto.
Qed.

(** What follows a separator is split on its own. *)
Lemma split_on_after sep l r p :
  p ∈ split_on sep r → p ∈ tail (split_on sep (l +:+ String sep r)).
Proof.
  intros Hp. induction l as [|b l IH]; cbn [String.append split_on].
  - by rewrite Ascii.eqb_refl.
  - destruct (Ascii.eqb b sep); cbn [tail].
    + destruct (split_on sep (l +:+ String sep r)); [by apply not_elem_of_nil in IH|]. by right.
    + by destruct (split_on sep (l +:+ String sep r)).
Qed.

Lemma elem_of_tail {A} (l : list A) x : x ∈ tail l → x ∈ l.
Proof. destruct l; cbn; [done|]. by right. Qed.

(** A text has an empty piece exactly when it is empty, starts or ends with the
    separator, or doubles it. *)
Lemma split_on_empty_iff sep s :
  EmptyString ∈ split_on sep s ↔
  s = EmptyString ∨ starts_with (String sep EmptyString) s = true ∨
  ends_with (String sep EmptyString) s = true ∨
  contains_str (String sep (String sep EmptyString)) s = true.
Proof.
  split; [apply split_on_empty|].
  intros [->|[[r ->]%starts_with_true|[[l ->]%ends_with_true|(l & r & ->)%contains_str_true]]].
  - left.
  - cbn. rewrite Ascii.eqb_refl. left.
  - apply elem_of_tail, split_on_after. left.
  - apply elem_of_tail, (split_on_after sep l (String sep r)). cbn. rewrite Ascii.eqb_refl. left.
Qed.
