(* ===== verification/Canonical.v ===== *)
(** * The canonical value form ([pantheon-core/src/config/canonical.rs])

    [Value] is the whole domain configuration and every content-addressed
    document lowers into.  An object is a [BTreeMap]: an association list kept
    strictly sorted by key.  [write_canonical] is the only encoding; an
    operation that pushes onto an output buffer is the text it pushes. *)

From Stdlib Require Import ZArith NArith Lia Ascii.
From S2P Require Import Prelude Utf8.

(** ** [BTreeMap<String, V>] *)

Section BTreeMap.
Context {V : Type}.

(** [BTreeMap::insert]: replaces the value of a key that is present. *)
Fixpoint bt_insert (k : string) (v : V) (m : list (string * V)) : list (string * V) :=
  match m with
  | [] => [(k, v)]
  | (k', v') :: rest =>
      match String.compare k k' with
      | Lt => (k, v) :: m
      | Eq => (k, v) :: rest
      | Gt => (k', v') :: bt_insert k v rest
      end
  end.

(** [BTreeMap::get]. *)
Fixpoint bt_get (k : string) (m : list (string * V)) : option V :=
  match m with
  | [] => None
  | (k', v') :: rest => if String.eqb k k' then Some v' else bt_get k rest
  end.

(** [collect::<BTreeMap<_, _>>()]: later pairs win. *)
Definition bt_from_iter (pairs : list (string * V)) : list (string * V) :=
  fold_left (fun m p => bt_insert p.1 p.2 m) pairs [].

(** Keys strictly increasing. *)
Fixpoint bt_sorted (m : list (string * V)) : bool :=
  match m with
  | (k1, _) :: (((k2, _) :: _) as rest) => String.ltb k1 k2 && bt_sorted rest
  | _ => true
  end.
End BTreeMap.

(** ** Values *)

Inductive Value : Type :=
| Null
| Bool (b : bool)
| Integer (z : Z)
| Str (s : string)
| Array (vs : list Value)
| Object (es : list (string * Value)).

(** [Value::object] and [Value::get]. *)
Definition object (pairs : list (string * Value)) : Value := Object (bt_from_iter pairs).

Definition get (v : Value) (key : string) : option Value :=
  match v with
  | Object es => bt_get key es
  | _ => None
  end.

Definition kind (v : Value) : string :=
  match v with
  | Null => "null"
  | Bool _ => "boolean"
  | Integer _ => "integer"
  | Str _ => "string"
  | Array _ => "array"
  | Object _ => "object"
  end.

(** ** Encoding *)

Definition quote : string := String "034"%char EmptyString.

(** The [\uXXXX] form: one lowercase hexadecimal digit per nibble. *)
Definition unicode_form (code : N) : string :=
  "\u" +:+ String.concat EmptyString
    (map (fun shift => String (hex_char (N.land (N.shiftr code shift) 15)) EmptyString)
         [12; 8; 4; 0]%N).

(** The one escape form of a character. *)
Definition escape_char (c : N) : string :=
  if (c =? 34)%N then "\" +:+ quote
  else if (c =? 92)%N then "\\"
  else if (c =? 10)%N then "\n"
  else if (c =? 13)%N then "\r"
  else if (c =? 9)%N then "\t"
  else if (c <? 32)%N then unicode_form c
  else encode_utf8 c.

Fixpoint escape_chars (cs : list N) : string :=
  match cs with
  | [] => EmptyString
  | c :: rest => escape_char c +:+ escape_chars rest
  end.

Definition write_canonical_string (value : string) : string :=
  quote +:+ (escape_chars (chars value) +:+ quote).

Fixpoint write_canonical (v : Value) : string :=
  match v with
  | Null => "null"
  | Bool true => "true"
  | Bool false => "false"
  | Integer z => i64_to_string z
  | Str s => write_canonical_string s
  | Array vs => "[" +:+ (join_on ","%char (map write_canonical vs) +:+ "]")
  | Object es =>
      "{" +:+ (join_on ","%char
        (map (fun e => write_canonical_string e.1 +:+ (":" +:+ write_canonical e.2)) es) +:+ "}")
  end.

(** [Value::to_canonical_bytes] and [Display]. *)
Definition to_canonical_bytes (v : Value) : string := write_canonical v.

(** ** Well-formed values

    What the Rust types guarantee of every value: integers are [i64], strings
    are UTF-8, object keys are strictly sorted. *)
Fixpoint wf_value (v : Value) : bool :=
  match v with
  | Null | Bool _ => true
  | Integer z => in_i64 z
  | Str s => utf8_valid s
  | Array vs => forallb wf_value vs
  | Object es => bt_sorted es && forallb (fun e => utf8_valid e.1 && wf_value e.2) es
  end.

(** Induction over values, through the nested lists. *)
Section ValueInduction.
Variable P : Value → Prop.
Hypothesis Hnull : P Null.
Hypothesis Hbool : ∀ b, P (Bool b).
Hypothesis Hint : ∀ z, P (Integer z).
Hypothesis Hstr : ∀ s, P (Str s).
Hypothesis Harray : ∀ vs, Forall P vs → P (Array vs).
Hypothesis Hobject : ∀ es, Forall (fun e => P e.2) es → P (Object es).

Fixpoint Value_nested_ind (v : Value) : P v :=
  match v with
  | Null => Hnull
  | Bool b => Hbool b
  | Integer z => Hint z
  | Str s => Hstr s
  | Array vs =>
      Harray vs ((fix go vs : Forall P vs :=
        match vs with
        | [] => Forall_nil_2 _
        | v :: rest => Forall_cons_2 _ _ _ (Value_nested_ind v) (go rest)
        end) vs)
  | Object es =>
      Hobject es ((fix go es : Forall (fun e => P e.2) es :=
        match es with
        | [] => Forall_nil_2 _
        | (k, v) :: rest => Forall_cons_2 (fun e => P e.2) (k, v) rest (Value_nested_ind v) (go rest)
        end) es)
  end.
End ValueInduction.

(** ** Lemmas on [BTreeMap] *)

Section BTreeMapLemmas.
Context {V : Type}.
Implicit Types (k : string) (v : V) (m : list (string * V)).

Lemma string_ltb_lt k1 k2 : String.ltb k1 k2 = true ↔ String.compare k1 k2 = Lt.
Proof. unfold String.ltb. by destruct (String.compare k1 k2). Qed.

Lemma string_compare_refl k : String.compare k k = Eq.
Proof. apply (comparator_refl String.compare). Qed.

Lemma bt_sorted_cons k v m :
  bt_sorted ((k, v) :: m) = true ↔
  bt_sorted m = true ∧ ∀ k' v', (k', v') ∈ m → String.compare k k' = Lt.
Proof.
  revert k v; induction m as [|[k1 v1] m IH]; intros k v.
  - cbn. split; [|done]. intros _. split; [done|]. intros ? ? H. by apply not_elem_of_nil in H.
  - cbn [bt_sorted]. rewrite andb_true_iff, string_ltb_lt. split.
    + intros [Hlt Hs]. split; [done|]. intros k' v' [[= -> ->]|Hin]%elem_of_cons; [done|].
      apply (IH k1 v1) in Hs as [_ Hall].
      eapply (cmp_lt_le_trans String.compare); [exact Hlt|]. unfold cmp_le.
      by rewrite (Hall _ _ Hin).
    + intros [Hs Hall]. split; [|done]. apply (Hall k1 v1). left.
Qed.

Lemma bt_insert_perm k v m :
  (∀ k' v', (k', v') ∈ m → String.compare k k' ≠ Eq) → bt_insert k v m ≡ₚ (k, v) :: m.
Proof.
  induction m as [|[k1 v1] m IH]; intros Hne; cbn; [done|].
  destruct (String.compare k k1) eqn:E; [|done|].
  - exfalso. eapply Hne; [left | done].
  - rewrite IH; [apply perm_swap|]. intros k' v' Hin. eapply Hne. by right.
Qed.

Lemma elem_of_bt_insert k v m k' v' :
  (k', v') ∈ bt_insert k v m → (k', v') = (k, v) ∨ (k', v') ∈ m.
Proof.
  induction m as [|[k1 v1] m IH]; cbn; [set_solver|].
  destruct (String.compare k k1); set_solver.
Qed.

Lemma bt_insert_sorted k v m : bt_sorted m = true → bt_sorted (bt_insert k v m) = true.
Proof.
  induction m as [|[k1 v1] m IH]; cbn [bt_insert]; [done|]. intros Hs.
  pose proof Hs as [Hm Hall]%bt_sorted_cons.
  destruct (String.compare k k1) eqn:E.
  - apply String.compare_eq_iff in E as ->. apply bt_sorted_cons. split; [done|exact Hall].
  - apply bt_sorted_cons. split; [done|].
    intros k' v' [[= -> ->]|Hin]%elem_of_cons; [done|].
    eapply (cmp_lt_le_trans String.compare); [exact E|]. unfold cmp_le.
    by rewrite (Hall _ _ Hin).
  - apply bt_sorted_cons. split; [auto|]. intros k' v' [[= -> ->]|Hin]%elem_of_bt_insert.
    + by rewrite String.compare_antisym, E.
    + by eapply Hall.
Qed.

Lemma bt_from_iter_sorted (l : list (string * V)) : bt_sorted (bt_from_iter l) = true.
Proof.
  unfold bt_from_iter. assert (bt_sorted (@nil (string * V)) = true) as H by done.
  revert H. generalize (@nil (string * V)).
  induction l as [|[k v] l IH]; intros m Hm; cbn; [done|]. by apply IH, bt_insert_sorted.
Qed.

Lemma elem_of_bt_from_iter (l : list (string * V)) e : e ∈ bt_from_iter l → e ∈ l.
Proof.
  unfold bt_from_iter. cut (∀ m, e ∈ fold_left (fun m p => bt_insert p.1 p.2 m) l m → e ∈ m ∨ e ∈ l).
  { intros H He. destruct (H _ He) as [?%not_elem_of_nil|?]; done. }
  induction l as [|[k v] l IH]; intros m; cbn; [auto|]. intros [Hin|Hin]%IH; [|set_solver].
  destruct e. apply elem_of_bt_insert in Hin. set_solver.
Qed.

Lemma bt_get_insert k v m k' :
  bt_get k' (bt_insert k v m) = if String.eqb k' k then Some v else bt_get k' m.
Proof.
  induction m as [|[k1 v1] m IH]; cbn; [done|].
  destruct (String.compare k k1) eqn:E; cbn.
  - apply String.compare_eq_iff in E as ->. by destruct (String.eqb k' k1).
  - done.
  - rewrite IH. destruct (String.eqb_spec k' k1) as [->|]; [|done].
    destruct (String.eqb_spec k1 k) as [->|]; [|done].
    by rewrite string_compare_refl in E.
Qed.

(** Inserting past the last key appends: what the parser does on sorted text. *)
Lemma bt_insert_last k v m :
  (∀ k' v', (k', v') ∈ m → String.compare k' k = Lt) → bt_insert k v m = m ++ [(k, v)].
Proof.
  induction m as [|[k1 v1] m IH]; intros Hall; cbn; [done|].
  rewrite String.compare_antisym, (Hall k1 v1) by left. cbn. rewrite IH; [done|].
  intros k' v' Hin. eapply Hall. by right.
Qed.

Lemma bt_get_None k m : (∀ k' v', (k', v') ∈ m → k' ≠ k) → bt_get k m = None.
Proof.
  induction m as [|[k1 v1] m IH]; intros Hall; cbn; [done|].
  destruct (String.eqb_spec k k1) as [->|]; [|apply IH; intros; eapply Hall; by right].
  exfalso. eapply Hall; [left | done].
Qed.

Lemma bt_get_elem k m v : bt_get k m = Some v → (k, v) ∈ m.
Proof.
  induction m as [|[k1 v1] m IH]; cbn; [done|].
  destruct (String.eqb_spec k k1) as [->|]; [intros [= ->]; left | intros; right; auto].
Qed.

Lemma bt_sorted_app_l m m' : bt_sorted (m ++ m') = true → bt_sorted m = true.
Proof.
  induction m as [|[k v] m IH]; [done|]. cbn [app]. intros [Hs Hall]%bt_sorted_cons.
  apply bt_sorted_cons. split; [auto|]. intros k' v' Hin. apply (Hall k' v').
  apply elem_of_app. by left.
Qed.

Lemma bt_sorted_app_last m k v k' v' :
  bt_sorted (m ++ [(k, v)]) = true → (k', v') ∈ m → String.compare k' k = Lt.
Proof.
  induction m as [|[k1 v1] m IH]; [intros _ H; by apply not_elem_of_nil in H|].
  intros Hs Hin. cbn [app] in Hs. apply bt_sorted_cons in Hs as [Hs Hall].
  apply elem_of_cons in Hin as [[= -> ->]|Hin]; [|auto].
  apply (Hall k v). apply elem_of_app. right. left.
Qed.
End BTreeMapLemmas.

(** An object built from well-formed pairs is well-formed. *)
Lemma wf_object pairs :
  forallb (fun e => utf8_valid e.1 && wf_value e.2) pairs = true → wf_value (object pairs) = true.
Proof.
  intros H. cbn [wf_value object]. rewrite bt_from_iter_sorted. cbn.
  apply forallb_True. intros e He. apply elem_of_bt_from_iter in He.
  eapply forallb_True in H; done.
Qed.

Lemma wf_array_map {A} (f : A → Value) (l : list A) :
  (∀ x, x ∈ l → wf_value (f x) = true) → wf_value (Array (map f l)) = true.
Proof.
  intros H. cbn. apply forallb_True. intros v Hv.
  apply list_elem_of_In, in_map_iff in Hv as (x & <- & Hx). by apply H, list_elem_of_In.
Qed.

#[export] Hint Resolve wf_object wf_array_map : pantheon.

(** ** Reading fields of an object built from pairs *)

(** The last pair with a key wins. *)
Definition lookup_last (k : string) (pairs : list (string * Value)) : option Value :=
  fold_left (fun found p => if String.eqb k p.1 then Some p.2 else found) pairs None.

Lemma get_object pairs k : get (object pairs) k = lookup_last k pairs.
Proof.
  unfold get, object, bt_from_iter, lookup_last.
  change (@None Value) with (bt_get k (@nil (string * Value))) at 1.
  generalize (@nil (string * Value)) as m.
  induction pairs as [|[k1 v1] l IH]; intros m; cbn; [done|].
  rewrite IH, bt_get_insert. done.
Qed.

(** Evaluates the reads of literal keys. *)
Ltac get_fields :=
  rewrite ?get_object; cbn [lookup_last fold_left fst snd String.eqb Ascii.eqb Bool.eqb].

(** Proves that a value built from well-formed parts is well-formed. *)
Ltac wf_parts :=
  repeat match goal with
  | |- wf_value (object _) = true => apply wf_object; cbn [forallb fst snd]
  | |- wf_value (Array (map _ _)) = true => apply wf_array_map; intros ? ?
  | |- wf_value (Str _) = true => cbn [wf_value]
  | |- wf_value (Integer _) = true => cbn [wf_value]
  | |- wf_value (Bool _) = true => reflexivity
  | |- wf_value Null = true => reflexivity
  | |- _ && _ = true => apply andb_true_iff; split
  | |- true = true => reflexivity
  | H : ?P |- ?P => exact H
  | |- utf8_valid _ = true => reflexivity
  | |- utf8_valid _ = true => solve [eauto with pantheon]
  | |- in_i64 _ = true => solve [eauto with pantheon]
  end.

(** A list of strings as an array. *)
Definition strings (values : list string) : Value := Array (map Str values).

Definition all_valid (values : list string) : bool := forallb utf8_valid values.

Lemma wf_strings values : all_valid values = true → wf_value (strings values) = true.
Proof. intros H. apply wf_array_map. intros s Hs. cbn. by eapply forallb_True in H. Qed.

Lemma all_valid_elem values s : all_valid values = true → s ∈ values → utf8_valid s = true.
Proof. intros H Hs. by eapply forallb_True in H. Qed.

#[export] Hint Resolve wf_strings all_valid_elem : pantheon.

(** ** Injectivity of a lowering

    Two equal objects agree on every key; a lowering whose fields determine its
    argument is injective. *)
Lemma object_field ps qs k : object ps = object qs → lookup_last k ps = lookup_last k qs.
Proof. intros H. by rewrite <-!get_object, H. Qed.

Lemma array_map_inj {A} (f : A → Value) l1 l2 :
  (∀ x y, f x = f y → x = y) → Array (map f l1) = Array (map f l2) → l1 = l2.
Proof.
  intros Hf [= H]. revert l2 H. induction l1 as [|x l1 IH]; intros [|y l2]; cbn; try done.
  intros [= Hx Hl]. f_equal; auto.
Qed.

Lemma strings_inj l1 l2 : strings l1 = strings l2 → l1 = l2.
Proof. apply array_map_inj. by intros x y [= ->]. Qed.

Lemma Str_inj s t : Str s = Str t → s = t.
Proof. by intros [= ->]. Qed.

(** Adds the equation of field [k] from an equation of objects. *)
Ltac field_eq H k :=
  let E := fresh "E" in
  pose proof (object_field _ _ k H) as E;
  cbn [lookup_last fold_left fst snd String.eqb Ascii.eqb Bool.eqb] in E;
  apply (inj Some) in E;
  lazymatch type of E with
  | Str _ = Str _ => apply Str_inj in E
  | Integer _ = Integer _ => injection E as E
  | Bool _ = Bool _ => injection E as E
  | strings _ = strings _ => apply strings_inj in E
  | _ => idtac
  end.
