(* ===== verification/Parse.v ===== *)
(** * The strict source parser ([pantheon-core/src/config/parse.rs])

    The parser's state is the byte offset and the bytes from it on.  An error
    carries its offset and, in place of the English sentence, a constructor with
    the sentence's arguments.  The Rust functions recurse and loop without a
    bound; here [value] takes the nesting depth it may still descend and each
    loop the number of iterations it may still run, and [OutOfFuel] is the value
    of a run that exceeds them.  [parse] starts with one more than the length of
    the source, which always suffices (see [parse_outcome]). *)

From Stdlib Require Import ZArith NArith Lia Ascii.
From S2P Require Import Prelude Utf8 Canonical.

Inductive ParseDetail : Type :=
| TrailingContent
| Expected (b : ascii)
| ExpectedWord (w : string)
| UnexpectedEnd
| UnexpectedByte (b : ascii)
| ExpectedDigit
| FractionalNumber
| InvalidUtf8InNumber
| LeadingZeros
| IntegerOutOfRange
| UnterminatedString
| UnterminatedEscape
| UnknownEscape (b : ascii)
| ControlCharacter
| InvalidUtf8InString
| TruncatedUnicodeEscape
| InvalidUtf8InEscape
| InvalidUnicodeEscape
| NotAScalarValue
| ExpectedCommaOrBracket
| ExpectedCommaOrBrace
| DuplicateKey (k : string).

Record ParseError : Type := {
  error_offset : nat;
  error_detail : ParseDetail
}.

(** Why a run of the parser stopped without a value. *)
Inductive Stop : Type :=
| Failed (e : ParseError)
| OutOfFuel.

Record Parser : Type := {
  p_rest : string;   (** [bytes[offset..]] *)
  p_offset : nat
}.

Section Parser.

Definition error {A} (p : Parser) (detail : ParseDetail) : Result A Stop :=
  Err (Failed {| error_offset := p_offset p; error_detail := detail |}).

Definition peek (p : Parser) : option ascii :=
  match p_rest p with
  | EmptyString => None
  | String b _ => Some b
  end.

Fixpoint drop_bytes (n : nat) (s : string) : string :=
  match n, s with
  | O, _ => s
  | S n', String _ s' => drop_bytes n' s'
  | S _, EmptyString => EmptyString
  end.

(** [self.offset += n]. *)
Definition advance (n : nat) (p : Parser) : Parser :=
  {| p_rest := drop_bytes n (p_rest p); p_offset := p_offset p + n |}.

Definition peek_is (b : ascii) (p : Parser) : bool :=
  match peek p with
  | Some b' => Ascii.eqb b' b
  | None => false
  end.

Definition is_whitespace (b : ascii) : bool :=
  Ascii.eqb b " " || Ascii.eqb b "009" || Ascii.eqb b "010" || Ascii.eqb b "013".

Fixpoint skip_bytes (s : string) (offset : nat) : Parser :=
  match s with
  | String b s' =>
      if is_whitespace b then skip_bytes s' (S offset)
      else {| p_rest := s; p_offset := offset |}
  | EmptyString => {| p_rest := s; p_offset := offset |}
  end.

Definition skip_whitespace (p : Parser) : Parser := skip_bytes (p_rest p) (p_offset p).

Definition expect (b : ascii) (p : Parser) : Result Parser Stop :=
  if peek_is b p then Ok (advance 1 p) else error p (Expected b).

Definition literal (word : string) (v : Value) (p : Parser) : Result (Value * Parser) Stop :=
  if starts_with word (p_rest p) then Ok (v, advance (String.length word) p)
  else error p (ExpectedWord word).

(** ** Integers *)

Definition is_digit (b : ascii) : bool := in_range 48 57 b.

(** The longest prefix of digits. *)
Fixpoint take_digits (s : string) : string :=
  match s with
  | String b s' => if is_digit b then String b (take_digits s') else EmptyString
  | EmptyString => EmptyString
  end.

(** [str::parse::<i64>()]: an optional sign, at least one digit, no overflow. *)
Fixpoint digits_value (s : string) (acc : Z) : option Z :=
  match s with
  | EmptyString => Some acc
  | String b s' =>
      if is_digit b then digits_value s' (acc * 10 + (Z.of_N (byte_val b) - 48))%Z
      else None
  end.

Definition unsigned_value (s : string) : option Z :=
  match s with
  | EmptyString => None
  | _ => digits_value s 0%Z
  end.

Definition parse_i64 (s : string) : option Z :=
  let signed :=
    match s with
    | String b s' =>
        if Ascii.eqb b "-" then Z.opp <$> unsigned_value s'
        else if Ascii.eqb b "+" then unsigned_value s'
        else unsigned_value s
    | EmptyString => None
    end in
  match signed with
  | Some z => if in_i64 z then Some z else None
  | None => None
  end.

Definition integer (p : Parser) : Result (Value * Parser) Stop :=
  let negative := peek_is "-" p in
  let p1 := if negative then advance 1 p else p in
  let digits := take_digits (p_rest p1) in
  let p2 := advance (String.length digits) p1 in
  if Nat.eqb (String.length digits) 0 then error p2 ExpectedDigit
  else if peek_is "." p2 || peek_is "e" p2 || peek_is "E" p2 then error p2 FractionalNumber
  else
    let text := if negative then String "-" digits else digits in
    if negb (utf8_valid text) then error p2 InvalidUtf8InNumber
    else
      let unsigned := default text (strip_prefix "-" text) in
      if Nat.ltb 1 (String.length unsigned) && starts_with "0" unsigned
      then error p2 LeadingZeros
      else
        match parse_i64 text with
        | Some z => Ok (Integer z, p2)
        | None => error p2 IntegerOutOfRange
        end.

(** ** Strings *)

Definition hex_digit (b : ascii) : option N :=
  if in_range 48 57 b then Some (byte_val b - 48)%N
  else if in_range 97 102 b then Some (byte_val b - 87)%N
  else if in_range 65 70 b then Some (byte_val b - 55)%N
  else None.

Fixpoint hex_value (s : string) (acc : N) : option N :=
  match s with
  | EmptyString => Some acc
  | String b s' =>
      match hex_digit b with
      | Some d => hex_value s' (acc * 16 + d)%N
      | None => None
      end
  end.

(** [u32::from_str_radix(text, 16)] on four bytes: a leading [+] is accepted,
    an empty digit sequence is not, and four digits cannot overflow. *)
Definition u32_from_hex (text : string) : option N :=
  let digits :=
    match text with
    | String b s => if Ascii.eqb b "+" then s else text
    | EmptyString => EmptyString
    end in
  match digits with
  | EmptyString => None
  | _ => hex_value digits 0%N
  end.

Fixpoint take_bytes (n : nat) (s : string) : string :=
  match n, s with
  | S n', String b s' => String b (take_bytes n' s')
  | _, _ => EmptyString
  end.

Definition unicode_escape (p : Parser) : Result (N * Parser) Stop :=
  if Nat.ltb (String.length (p_rest p)) 4 then error p TruncatedUnicodeEscape
  else
    let hex := take_bytes 4 (p_rest p) in
    if negb (utf8_valid hex) then error p InvalidUtf8InEscape
    else
      match u32_from_hex hex with
      | None => error p InvalidUnicodeEscape
      | Some code =>
          let p' := advance 4 p in
          match char_from_u32 code with
          | Some c => Ok (c, p')
          | None => error p' NotAScalarValue
          end
      end.

(** The character an escape letter other than [u] stands for. *)
Definition short_escape (b : ascii) : option N :=
  if Ascii.eqb b "034" then Some 34%N
  else if Ascii.eqb b "\" then Some 92%N
  else if Ascii.eqb b "/" then Some 47%N
  else if Ascii.eqb b "n" then Some 10%N
  else if Ascii.eqb b "r" then Some 13%N
  else if Ascii.eqb b "t" then Some 9%N
  else if Ascii.eqb b "b" then Some 8%N
  else if Ascii.eqb b "f" then Some 12%N
  else None.

Fixpoint string_loop (fuel : nat) (p : Parser) (out : string) : Result (string * Parser) Stop :=
  match fuel with
  | O => Err OutOfFuel
  | S fuel' =>
    match peek p with
    | None => error p UnterminatedString
    | Some b =>
      if Ascii.eqb b "034" then Ok (out, advance 1 p)
      else if Ascii.eqb b "\" then
        let p1 := advance 1 p in
        match peek p1 with
        | None => error p1 UnterminatedEscape
        | Some escape =>
          let p2 := advance 1 p1 in
          if Ascii.eqb escape "u" then
            let? r := unicode_escape p2 in
            string_loop fuel' r.2 (out +:+ encode_utf8 r.1)
          else
            match short_escape escape with
            | Some c => string_loop fuel' p2 (out +:+ encode_utf8 c)
            | None => error p2 (UnknownEscape escape)
            end
        end
      else if (byte_val b <? 32)%N then error p ControlCharacter
      else if negb (utf8_valid (p_rest p)) then error p InvalidUtf8InString
      else
        let c := match next_char (p_rest p) with
                 | Some (c, _) => c
                 | None => 65533%N
                 end in
        string_loop fuel' (advance (String.length (encode_utf8 c)) p) (out +:+ encode_utf8 c)
    end
  end.

Definition string_ (p : Parser) : Result (string * Parser) Stop :=
  let? p1 := expect "034" p in
  string_loop (S (String.length (p_rest p1))) p1 EmptyString.

(** ** Arrays, objects and values *)

Section Loops.
Variable value : Parser → Result (Value * Parser) Stop.

Fixpoint array_loop (fuel : nat) (p : Parser) (values : list Value) : Result (Value * Parser) Stop :=
  match fuel with
  | O => Err OutOfFuel
  | S fuel' =>
    let? r := value (skip_whitespace p) in
    let values' := values ++ [r.1] in
    let p' := skip_whitespace r.2 in
    if peek_is "," p' then array_loop fuel' (advance 1 p') values'
    else if peek_is "]" p' then Ok (Array values', advance 1 p')
    else error p' ExpectedCommaOrBracket
  end.

Definition array (p : Parser) : Result (Value * Parser) Stop :=
  let? p1 := expect "[" p in
  let p2 := skip_whitespace p1 in
  if peek_is "]" p2 then Ok (Array [], advance 1 p2)
  else array_loop (S (String.length (p_rest p2))) p2 [].

Fixpoint object_loop (fuel : nat) (p : Parser) (entries : list (string * Value)) :
    Result (Value * Parser) Stop :=
  match fuel with
  | O => Err OutOfFuel
  | S fuel' =>
    let p1 := skip_whitespace p in
    let? k := string_ p1 in
    match bt_get k.1 entries with
    | Some _ => error p1 (DuplicateKey k.1)
    | None =>
      let? p2 := expect ":" (skip_whitespace k.2) in
      let? v := value (skip_whitespace p2) in
      let entries' := bt_insert k.1 v.1 entries in
      let p' := skip_whitespace v.2 in
      if peek_is "," p' then object_loop fuel' (advance 1 p') entries'
      else if peek_is "}" p' then Ok (Object entries', advance 1 p')
      else error p' ExpectedCommaOrBrace
    end
  end.

Definition object_ (p : Parser) : Result (Value * Parser) Stop :=
  let? p1 := expect "{" p in
  let p2 := skip_whitespace p1 in
  if peek_is "}" p2 then Ok (Object [], advance 1 p2)
  else object_loop (S (String.length (p_rest p2))) p2 [].
End Loops.

Fixpoint value (fuel : nat) (p : Parser) : Result (Value * Parser) Stop :=
  match fuel with
  | O => Err OutOfFuel
  | S fuel' =>
    match peek p with
    | None => error p UnexpectedEnd
    | Some b =>
      if Ascii.eqb b "n" then literal "null" Null p
      else if Ascii.eqb b "t" then literal "true" (Bool true) p
      else if Ascii.eqb b "f" then literal "false" (Bool false) p
      else if Ascii.eqb b "034" then let? r := string_ p in Ok (Str r.1, r.2)
      else if Ascii.eqb b "[" then array (value fuel') p
      else if Ascii.eqb b "{" then object_ (value fuel') p
      else if Ascii.eqb b "-" || is_digit b then integer p
      else error p (UnexpectedByte b)
    end
  end.

(** [parse]. *)
Definition parse (source : string) : Result Value Stop :=
  let p := skip_whitespace {| p_rest := source; p_offset := 0 |} in
  let? r := value (S (String.length source)) p in
  let p' := skip_whitespace r.2 in
  match p_rest p' with
  | EmptyString => Ok r.1
  | _ => error p' TrailingContent
  end.
End Parser.

Example parse_sample :
  parse (to_canonical_bytes (object [("b", Array [Integer (-12); Null]); ("a", Str "x\")]))
  = Ok (object [("a", Str "x\"); ("b", Array [Integer (-12); Null])]).
Proof. vm_compute. reflexivity. Qed.
