(* ===== verification/ParseFacts.v ===== *)
(** * Facts about the parser

    Round trip of the canonical encoding, totality (the fuel always suffices)
    and well-formedness of every parsed value. *)

From Stdlib Require Import ZArith NArith Lia Ascii.
From S2P Require Import Prelude Utf8 Canonical Parse.

Definition mkp (s : string) (offset : nat) : Parser := {| p_rest := s; p_offset := offset |}.

(** ** Decimal text *)

Fixpoint all_digits (s : string) : bool :=
  match s with
  | EmptyString => true
  | String b s' => is_digit b && all_digits s'
  end.

(** What may follow an integer without being read into it. *)
Definition ends_number (s : string) : bool :=
  match s with
  | EmptyString => true
  | String b _ =>
      negb (is_digit b || Ascii.eqb b "." || Ascii.eqb b "e" || Ascii.eqb b "E")
  end.

Lemma is_digit_dec d : (d < 10)%N → is_digit (dec_char d) = true ∧ byte_val (dec_char d) = (48 + d)%N.
Proof.
  intros Hd. unfold is_digit, in_range, dec_char. rewrite byte_val_of by lia.
  split; [|done]. apply andb_true_iff. rewrite !N.leb_le. lia.
Qed.

Lemma digits_value_app s t a :
  digits_value (s +:+ t) a = match digits_value s a with Some b => digits_value t b | None => None end.
Proof. revert a; induction s as [|b s IH]; intros a; cbn; [done|]. by destruct (is_digit b). Qed.

(** The digits [to_string] writes: what they are and what they are worth. *)
Lemma dec_digits_spec fuel n acc :
  (n < 10 ^ N.of_nat fuel)%N → fuel ≠ 0 →
  ∃ b ds, dec_digits fuel n acc = String b ds +:+ acc ∧
    all_digits (String b ds) = true ∧
    digits_value (String b ds) 0 = Some (Z.of_N n) ∧
    (Ascii.eqb b "0" = true → n = 0%N ∧ ds = EmptyString).
Proof.
  revert n acc; induction fuel as [|fuel IH]; intros n acc Hn Hf; [done|].
  cbn [dec_digits]. destruct (N.ltb_spec n 10) as [Hlt|Hge].
  - rewrite N.mod_small by done. exists (dec_char n), EmptyString.
    destruct (is_digit_dec n Hlt) as [Hd Hv]. cbn. rewrite Hd, Hv.
    split; [done|]. split; [done|]. split; [f_equal; lia|].
    rewrite eqb_byte_val, Hv. intros H%N.eqb_eq. change (byte_val "0") with 48%N in H. split; [lia|done].
  - assert (n `mod` 10 < 10)%N as Hm by (apply N.mod_lt; lia).
    destruct fuel as [|fuel'].
    { cbn in Hn. lia. }
    destruct (IH (n / 10)%N (String (dec_char (n `mod` 10)) acc)) as (b & ds & Heq & Hd & Hv & Hz);
      [|done|].
    { apply N.Div0.div_lt_upper_bound.
      rewrite <-N.pow_succ_r', <-Nat2N.inj_succ. done. }
    destruct (is_digit_dec _ Hm) as [Hdc Hvc].
    exists b, (ds +:+ String (dec_char (n `mod` 10)) EmptyString). rewrite Heq.
    split; [cbn; by rewrite append_assoc|]. split; [|split].
    + revert Hd. clear -Hdc. cbn. rewrite !andb_true_iff. intros [-> H]. split; [done|].
      induction ds as [|c ds IH]; cbn in *; [by rewrite Hdc|].
      apply andb_true_iff in H as [-> H]. cbn. auto.
    + change (String b (ds +:+ String (dec_char (n `mod` 10)) EmptyString))
        with (String b ds +:+ String (dec_char (n `mod` 10)) EmptyString).
      rewrite digits_value_app, Hv. cbn [digits_value]. rewrite Hdc, Hvc. f_equal. lia.
    + intros H0%Hz. exfalso. lia.
Qed.

Lemma u64_to_string_spec n :
  ∃ b ds, u64_to_string n = String b ds ∧ all_digits (String b ds) = true ∧
    digits_value (String b ds) 0 = Some (Z.of_N n) ∧
    (Ascii.eqb b "0" = true → n = 0%N ∧ ds = EmptyString).
Proof.
  unfold u64_to_string.
  destruct (dec_digits_spec (S (N.to_nat (N.log2 n))) n EmptyString) as (b & ds & Heq & H); [|done|].
  - rewrite Nat2N.inj_succ, N2Nat.id. eapply N.lt_le_trans with (2 ^ N.succ (N.log2 n))%N.
    + destruct (N.eq_dec n 0%N) as [->|]; [done|]. apply N.log2_spec; lia.
    + apply N.pow_le_mono_l. lia.
  - exists b, ds. rewrite Heq, append_nil_r. done.
Qed.

Lemma take_digits_app ds r :
  all_digits ds = true → ends_number r = true → take_digits (ds +:+ r) = ds.
Proof.
  intros Hd Hr. induction ds as [|b ds IH]; cbn in *.
  - destruct r as [|b r]; [done|]. cbn in *. by destruct (is_digit b).
  - apply andb_true_iff in Hd as [-> Hd]. by rewrite IH.
Qed.

Lemma drop_bytes_app s r : drop_bytes (String.length s) (s +:+ r) = r.
Proof. induction s as [|b s IH]; cbn; [done | exact IH]. Qed.

Lemma advance_app s r off : advance (String.length s) (mkp (s +:+ r) off) = mkp r (off + String.length s).
Proof. unfold advance, mkp. cbn. by rewrite drop_bytes_app. Qed.

(** Text of one-byte characters is valid UTF-8. *)
Lemma utf8_valid_cons b s : (byte_val b < 128)%N → utf8_valid s = true → utf8_valid (String b s) = true.
Proof.
  intros Hb Hs. change (String b s) with (String b EmptyString +:+ s).
  rewrite <-(byte_of_val b), <-encode_utf8_1 by done.
  apply utf8_valid_app; [|done]. apply utf8_valid_encode, is_scalar_spec. lia.
Qed.

Lemma is_digit_lt b : is_digit b = true → (byte_val b < 128)%N.
Proof. unfold is_digit, in_range. rewrite andb_true_iff, !N.leb_le. lia. Qed.

Lemma all_digits_valid ds : all_digits ds = true → utf8_valid ds = true.
Proof.
  induction ds as [|b ds IH]; cbn; [done|]. rewrite andb_true_iff. intros [Hb Hd].
  apply utf8_valid_cons; [by apply is_digit_lt | auto].
Qed.

(** Text of a number is read back as that number. *)
Lemma integer_digits b ds n neg r off :
  all_digits (String b ds) = true →
  digits_value (String b ds) 0 = Some n →
  (Ascii.eqb b "0" = true → ds = EmptyString) →
  in_i64 (if neg : bool then (- n)%Z else n) = true →
  ends_number r = true →
  let text := if neg then String "-" (String b ds) else String b ds in
  integer (mkp (text +:+ r) off)
  = Ok (Integer (if neg then (- n)%Z else n), mkp r (off + String.length text)).
Proof.
  intros Hd Hv Hz Hin Hr text.
  assert (is_digit b = true) as Hb by (cbn in Hd; by destruct (is_digit b)).
  assert (Ascii.eqb b "-" = false ∧ Ascii.eqb b "+" = false) as [Hminus Hplus].
  { rewrite !eqb_byte_val. unfold is_digit, in_range in Hb.
    apply andb_true_iff in Hb as [H1%N.leb_le H2%N.leb_le].
    change (byte_val "-") with 45%N. change (byte_val "+") with 43%N.
    rewrite !N.eqb_neq. lia. }
  assert (peek_is "-" (mkp (text +:+ r) off) = neg) as Hpeek.
  { unfold text. destruct neg; cbn; [done | exact Hminus]. }
  unfold integer. rewrite Hpeek.
  assert ((if neg then advance 1 (mkp (text +:+ r) off) else mkp (text +:+ r) off)
    = mkp (String b ds +:+ r) (if neg then off + 1 else off)) as ->.
  { unfold text. by destruct neg. }
  cbn [p_rest mkp]. rewrite take_digits_app by done.
  rewrite advance_app. cbn [String.length Nat.eqb].
  replace (if neg then String "-" (String b ds) else String b ds) with text by done.
  assert (∀ o, peek_is "." (mkp r o) || peek_is "e" (mkp r o) || peek_is "E" (mkp r o) = false) as ->.
  { intros o. destruct r as [|a r]; cbn in *; [done|].
    destruct (is_digit a), (Ascii.eqb a "."), (Ascii.eqb a "e"), (Ascii.eqb a "E"); done. }
  assert (utf8_valid text = true) as ->.
  { unfold text. destruct neg; [apply utf8_valid_cons; [done|]|]; by apply all_digits_valid. }
  assert (default text (strip_prefix "-" text) = String b ds) as ->.
  { unfold text. destruct neg; cbn [strip_prefix].
    - by rewrite Ascii.eqb_refl.
    - rewrite Ascii.eqb_sym, Hminus. done. }
  assert (Nat.ltb 1 (String.length (String b ds)) && starts_with "0" (String b ds) = false) as ->.
  { unfold starts_with. cbn [strip_prefix]. rewrite Ascii.eqb_sym.
    destruct (Ascii.eqb b "0") eqn:E0; [|apply andb_false_r]. by rewrite Hz. }
  assert (parse_i64 text = Some (if neg then (- n)%Z else n)) as ->.
  { unfold parse_i64, text. destruct neg.
    - rewrite Ascii.eqb_refl. unfold unsigned_value. rewrite Hv. cbn. by rewrite Hin.
    - rewrite Hminus, Hplus. unfold unsigned_value. rewrite Hv. by rewrite Hin. }
  cbn [negb]. f_equal. f_equal. unfold mkp. f_equal. unfold text. destruct neg; cbn; lia.
Qed.

(** The canonical text of an integer is read back. *)
Lemma integer_write z r off :
  in_i64 z = true → ends_number r = true →
  integer (mkp (i64_to_string z +:+ r) off)
  = Ok (Integer z, mkp r (off + String.length (i64_to_string z))).
Proof.
  intros Hz Hr. destruct z as [|q|q].
  - apply (integer_digits "0" EmptyString 0%Z false); done.
  - unfold i64_to_string. destruct (u64_to_string_spec (Z.to_N (Zpos q))) as (b & ds & -> & Hd & Hv & H0).
    apply (integer_digits b ds (Zpos q) false); try done. intros H. by apply H0.
  - unfold i64_to_string. destruct (u64_to_string_spec (Npos q)) as (b & ds & -> & Hd & Hv & H0).
    apply (integer_digits b ds (Zpos q) true); try done. intros H. by apply H0.
Qed.

(** ** Canonical strings *)

(** Splits a number below [32] into its values. *)
Ltac small_cases c :=
  destruct c as [|c]; [|do 5 (try destruct c as [c|c|])]; try lia.

Lemma unicode_form_read c r off :
  (c < 32)%N → ∃ u, unicode_form c = "\u" +:+ u ∧ String.length u = 4 ∧
  unicode_escape (mkp (u +:+ r) off) = Ok (c, mkp r (off + 4)).
Proof.
  intros Hc. small_cases c; (eexists; split; [vm_compute; reflexivity|]; split; [reflexivity|]);
    reflexivity.
Qed.

Lemma escape_char_plain c :
  (32 ≤ c)%N → c ≠ 34%N → c ≠ 92%N → escape_char c = encode_utf8 c.
Proof. intros H H1 H2. unfold escape_char. bool_lia; done. Qed.

Lemma escape_char_ascii c : (c < 32)%N ∨ c = 34%N ∨ c = 92%N →
  utf8_valid (escape_char c) = true.
Proof.
  intros [Hc|[->| ->]]; [|done|done]. small_cases c; reflexivity.
Qed.

Lemma escape_char_valid c : is_scalar c = true → utf8_valid (escape_char c) = true.
Proof.
  intros Hc. destruct (N.lt_ge_cases c 32%N); [apply escape_char_ascii; auto|].
  destruct (N.eq_dec c 34%N); [apply escape_char_ascii; auto|].
  destruct (N.eq_dec c 92%N); [apply escape_char_ascii; auto|].
  rewrite escape_char_plain by done. by apply utf8_valid_encode.
Qed.

Lemma escape_chars_valid cs :
  Forall (fun c => is_scalar c = true) cs → utf8_valid (escape_chars cs) = true.
Proof.
  induction 1 as [|c cs Hc _ IH]; cbn; [done|]. by apply utf8_valid_app, IH; apply escape_char_valid.
Qed.

(** The first byte of a plain character is not one the string loop treats
    specially. *)
Lemma encode_utf8_head c :
  is_scalar c = true → (32 ≤ c)%N → c ≠ 34%N → c ≠ 92%N →
  ∃ b t, encode_utf8 c = String b t ∧ Ascii.eqb b "034" = false ∧
    Ascii.eqb b "\" = false ∧ (byte_val b <? 32)%N = false.
Proof.
  intros Hs%is_scalar_spec H32 H34 H92.
  destruct (N.lt_ge_cases c 128%N) as [Hlt|Hge].
  - rewrite encode_utf8_1 by done. do 2 eexists. split; [done|].
    rewrite !eqb_byte_val, byte_val_of by lia.
    change (byte_val "034") with 34%N. change (byte_val "\") with 92%N.
    rewrite !N.eqb_neq, N.ltb_ge. done.
  - unfold encode_utf8. bool_lia; (do 2 eexists; split; [done|]);
      rewrite !eqb_byte_val, byte_val_of by lia;
      change (byte_val "034") with 34%N; change (byte_val "\") with 92%N;
      rewrite !N.eqb_neq, N.ltb_ge; lia.
Qed.

(** Computes a reader over two known bytes. *)
Ltac two_bytes off :=
  cbn; unfold mkp, advance; cbn; by replace (off + 1 + 1) with (off + 2) by lia.

(** One character of a canonical string is read back. *)
Lemma string_loop_char c n r out off :
  is_scalar c = true → utf8_valid r = true →
  string_loop (S n) (mkp (escape_char c +:+ r) off) out
  = string_loop n (mkp r (off + String.length (escape_char c))) (out +:+ encode_utf8 c).
Proof.
  intros Hc Hr. destruct (N.lt_ge_cases c 32%N) as [Hlt|Hge].
  - destruct (N.eq_dec c 10%N) as [->|H10]; [two_bytes off|].
    destruct (N.eq_dec c 13%N) as [->|H13]; [two_bytes off|].
    destruct (N.eq_dec c 9%N) as [->|H9]; [two_bytes off|].
    assert (escape_char c = unicode_form c) as -> by (unfold escape_char; bool_lia; done).
    destruct (unicode_form_read c r (off + 2) Hlt) as (u & -> & Hlen & Hread).
    rewrite length_append, Hlen. cbn [String.append]. cbn [string_loop peek mkp p_rest].
    cbn -[string_loop unicode_escape]. unfold advance. cbn -[string_loop unicode_escape].
    replace (off + 1 + 1) with (off + 2) by lia. fold (mkp (u +:+ r) (off + 2)).
    rewrite Hread. cbn -[string_loop]. by replace (off + 2 + 4) with (off + 6) by lia.
  - destruct (N.eq_dec c 34%N) as [->|H34]; [two_bytes off|].
    destruct (N.eq_dec c 92%N) as [->|H92]; [two_bytes off|].
    rewrite escape_char_plain by done.
    destruct (encode_utf8_head c) as (b & t & Heq & Hq & Hb & H32); try done.
    cbn [string_loop]. unfold peek. cbn [mkp p_rest].
    rewrite utf8_valid_app by auto using utf8_valid_encode.
    rewrite next_char_encode, advance_app by done.
    rewrite Heq. cbn [String.append]. rewrite Hq, Hb, H32. done.
Qed.

Lemma string_loop_write cs n r out off :
  Forall (fun c => is_scalar c = true) cs → utf8_valid r = true →
  String.length (escape_chars cs) < n →
  string_loop n (mkp (escape_chars cs +:+ (quote +:+ r)) off) out
  = Ok (out +:+ of_chars cs, mkp r (off + String.length (escape_chars cs) + 1)).
Proof.
  intros Hcs Hr. revert n out off; induction Hcs as [|c cs Hc Hcs IH]; intros n out off Hn.
  - destruct n as [|n]; [cbn in Hn; lia|]. cbn. rewrite append_nil_r.
    unfold advance, mkp. cbn. by rewrite Nat.add_0_r.
  - cbn [escape_chars] in *. rewrite length_append in Hn. rewrite append_assoc.
    assert (0 < String.length (escape_char c)).
    { unfold escape_char. repeat case_match; try (cbn; lia).
      destruct (encode_utf8_cons c) as (b & t & ->). cbn; lia. }
    destruct n as [|n]; [lia|]. rewrite string_loop_char; [|done|].
    + rewrite IH by lia. cbn [of_chars]. rewrite append_assoc, length_append.
      do 2 f_equal. unfold mkp. f_equal. lia.
    + apply utf8_valid_app; [by apply escape_chars_valid|]. by apply utf8_valid_cons.
Qed.

(** A canonical string is read back. *)
Lemma string_write s r off :
  utf8_valid s = true → utf8_valid r = true →
  string_ (mkp (write_canonical_string s +:+ r) off)
  = Ok (s, mkp r (off + String.length (write_canonical_string s))).
Proof.
  intros (cs & -> & Hcs)%utf8_valid_spec Hr. unfold write_canonical_string.
  rewrite chars_of_chars by done. unfold string_.
  assert (expect "034" (mkp ((quote +:+ (escape_chars cs +:+ quote)) +:+ r) off)
    = Ok (mkp (escape_chars cs +:+ (quote +:+ r)) (off + 1))) as ->.
  { unfold expect, advance, mkp. cbn. by rewrite append_assoc. }
  cbn [try_bind]. rewrite string_loop_write; [|done|done|].
  - rewrite !length_append. cbn [of_chars String.append]. do 2 f_equal. unfold mkp. f_equal.
    cbn. lia.
  - cbn [mkp p_rest]. rewrite length_append. lia.
Qed.

Lemma write_canonical_string_valid s :
  utf8_valid s = true → utf8_valid (write_canonical_string s) = true.
Proof.
  intros (cs & -> & Hcs)%utf8_valid_spec. unfold write_canonical_string.
  rewrite chars_of_chars by done.
  apply utf8_valid_app; [done|]. apply utf8_valid_app; [by apply escape_chars_valid | done].
Qed.

(** ** Canonical values *)

(** What follows a value inside a canonical text. *)
Definition ends_value (s : string) : bool :=
  match s with
  | EmptyString => true
  | String b _ => Ascii.eqb b "," || Ascii.eqb b "]" || Ascii.eqb b "}"
  end.

Lemma ends_value_byte b s :
  ends_value (String b s) = true → b = ","%char ∨ b = "]"%char ∨ b = "}"%char.
Proof. cbn. rewrite !orb_true_iff, !Ascii.eqb_eq. tauto. Qed.

Lemma ends_value_number s : ends_value s = true → ends_number s = true.
Proof. destruct s as [|b s]; [done|]. intros [->|[->| ->]]%ends_value_byte; reflexivity. Qed.

Lemma skip_ends_value s off : ends_value s = true → skip_whitespace (mkp s off) = mkp s off.
Proof. destruct s as [|b s]; [done|]. intros [->|[->| ->]]%ends_value_byte; reflexivity. Qed.

(** The first byte of a canonical text decides what is read. *)
Definition starts_value (s : string) : Prop :=
  ∃ b t, s = String b t ∧ is_whitespace b = false ∧
    Ascii.eqb b "]" = false ∧ Ascii.eqb b "}" = false.

Lemma starts_value_skip s r off :
  starts_value s → skip_whitespace (mkp (s +:+ r) off) = mkp (s +:+ r) off.
Proof. intros (b & t & -> & Hw & _). unfold skip_whitespace. cbn. by rewrite Hw. Qed.

Lemma starts_value_peek s r off :
  starts_value s →
  peek_is "]" (mkp (s +:+ r) off) = false ∧ peek_is "}" (mkp (s +:+ r) off) = false.
Proof. intros (b & t & -> & _ & H1 & H2). done. Qed.

Lemma starts_value_app s r : starts_value s → starts_value (s +:+ r).
Proof. intros (b & t & -> & H). exists b, (t +:+ r). done. Qed.

Lemma digit_not_special b :
  is_digit b = true →
  is_whitespace b = false ∧ Ascii.eqb b "]" = false ∧ Ascii.eqb b "}" = false ∧
  Ascii.eqb b "n" = false ∧ Ascii.eqb b "t" = false ∧ Ascii.eqb b "f" = false ∧
  Ascii.eqb b "034" = false ∧ Ascii.eqb b "[" = false ∧ Ascii.eqb b "{" = false.
Proof.
  unfold is_digit, in_range, is_whitespace. rewrite andb_true_iff, !N.leb_le.
  intros [H1 H2]. rewrite !orb_false_iff, !eqb_byte_val, !N.eqb_neq.
  repeat match goal with
  | |- context [byte_val (Ascii ?a ?b ?c ?d ?e ?f ?g ?h)] =>
      let v := eval vm_compute in (byte_val (Ascii a b c d e f g h)) in
      change (byte_val (Ascii a b c d e f g h)) with v
  end. lia.
Qed.

(** An integer's text starts with a minus sign or a digit. *)
Lemma i64_to_string_head z :
  ∃ b t, i64_to_string z = String b t ∧ (b = "-"%char ∨ is_digit b = true).
Proof.
  destruct z as [|q|q]; cbn [i64_to_string].
  - exists "0"%char, EmptyString. split; [reflexivity | by right].
  - destruct (u64_to_string_spec (Z.to_N (Zpos q))) as (b & ds & -> & Hd & _).
    exists b, ds. cbn in Hd. split; [done|]. right. by destruct (is_digit b).
  - exists "-"%char, (u64_to_string (Npos q)). split; [done | by left].
Qed.

Lemma starts_value_string s : starts_value (write_canonical_string s).
Proof. by exists "034"%char, (escape_chars (chars s) +:+ quote). Qed.

Lemma starts_value_write v : starts_value (write_canonical v).
Proof.
  destruct v as [|[]|z|s|vs|es]; cbn [write_canonical];
    try (eexists _, _; split; [reflexivity | done]).
  - destruct (i64_to_string_head z) as (b & t & -> & [->|Hb]); [by exists "-"%char, t|].
    destruct (digit_not_special b Hb) as (? & ? & ? & _). by exists b, t.
Qed.

Lemma join_valid (l : list string) :
  Forall (fun s => utf8_valid s = true) l → utf8_valid (join_on ","%char l) = true.
Proof.
  induction 1 as [|s l Hs Hl IH]; [done|]. destruct l as [|t l]; [done|].
  cbn [join_on]. apply utf8_valid_app; [done|]. by apply utf8_valid_cons.
Qed.

Lemma write_canonical_valid v : wf_value v = true → utf8_valid (write_canonical v) = true.
Proof.
  induction v as [|[]|z|s|vs IH|es IH] using Value_nested_ind; cbn [write_canonical wf_value];
    intros Hwf; try done.
  - destruct z as [|q|q]; [done|..]; cbn [i64_to_string].
    + destruct (u64_to_string_spec (Z.to_N (Zpos q))) as (b & ds & -> & Hd & _).
      by apply all_digits_valid.
    + destruct (u64_to_string_spec (Npos q)) as (b & ds & -> & Hd & _).
      apply utf8_valid_cons; [done | by apply all_digits_valid].
  - by apply write_canonical_string_valid.
  - apply utf8_valid_app; [done|]. apply utf8_valid_app; [|done]. apply join_valid.
    apply Forall_fmap. rewrite Forall_forall in IH |- *. intros v Hv.
    apply IH; [done|]. by eapply forallb_True in Hwf.
  - apply andb_true_iff in Hwf as [_ Hwf].
    apply utf8_valid_app; [done|]. apply utf8_valid_app; [|done]. apply join_valid.
    apply Forall_fmap. rewrite Forall_forall in IH |- *. intros e He.
    eapply forallb_True in Hwf; [|exact He]. apply andb_true_iff in Hwf as [Hk Hv].
    apply utf8_valid_app; [by apply write_canonical_string_valid|].
    apply utf8_valid_cons; [done|]. by apply IH.
Qed.

(** What the reader of a component promises on canonical text. *)
Definition reads {A} (read : Parser → Result (A * Parser) Stop) (text : string) (a : A) : Prop :=
  ∀ r off, ends_value r = true → utf8_valid r = true →
  read (mkp (text +:+ r) off) = Ok (a, mkp r (off + String.length text)).

Lemma array_loop_write f vs acc n r off :
  Forall (fun v => reads f (write_canonical v) v ∧ wf_value v = true) vs → vs ≠ [] →
  length vs ≤ n → utf8_valid r = true →
  array_loop f n (mkp (join_on ","%char (map write_canonical vs) +:+ ("]" +:+ r)) off) acc
  = Ok (Array (acc ++ vs),
        mkp r (off + String.length (join_on ","%char (map write_canonical vs)) + 1)).
Proof.
  intros Hvs. revert acc n off; induction Hvs as [|v vs [Hv Hwf] Hvs IH];
    intros acc n off Hne Hn Hr; [done|].
  destruct n as [|n]; [cbn in Hn; lia|]. cbn [array_loop].
  destruct vs as [|w vs].
  - cbn [map join_on]. rewrite starts_value_skip by apply starts_value_write.
    rewrite Hv; [|done|by apply utf8_valid_cons]. cbn [try_bind fst snd].
    rewrite skip_ends_value by done. done.
  - change (join_on ","%char (map write_canonical (v :: w :: vs)))
      with (write_canonical v +:+ ("," +:+ join_on ","%char (map write_canonical (w :: vs)))).
    rewrite !append_assoc. rewrite starts_value_skip by apply starts_value_write.
    rewrite Hv; [|done|].
    + cbn [try_bind fst snd]. rewrite skip_ends_value by done.
      cbn [peek_is peek mkp p_rest String.append Ascii.eqb Bool.eqb].
      unfold advance. cbn [p_rest p_offset drop_bytes].
      rewrite IH; [|done|cbn in *; lia|done]. rewrite <-app_assoc. cbn [app].
      do 2 f_equal. unfold mkp. f_equal. rewrite !length_append. cbn [String.length p_offset]. lia.
    + apply utf8_valid_cons; [done|]. apply utf8_valid_app; [|by apply utf8_valid_cons].
      apply join_valid, Forall_fmap. eapply Forall_impl; [exact Hvs|].
      intros u [_ Hu]. by apply write_canonical_valid.
Qed.

(** The text of one object entry. *)
Definition write_entry (e : string * Value) : string :=
  write_canonical_string e.1 +:+ (":" +:+ write_canonical e.2).

Lemma write_object es :
  write_canonical (Object es) = "{" +:+ (join_on ","%char (map write_entry es) +:+ "}").
Proof. reflexivity. Qed.

Lemma write_entry_valid e :
  utf8_valid e.1 = true → wf_value e.2 = true → utf8_valid (write_entry e) = true.
Proof.
  intros Hk Hv. apply utf8_valid_app; [by apply write_canonical_string_valid|].
  apply utf8_valid_cons; [done | by apply write_canonical_valid].
Qed.

Lemma starts_value_entry e : starts_value (write_entry e).
Proof. apply starts_value_app, starts_value_string. Qed.

(** Reading one entry, up to the byte after its value. *)
Lemma object_loop_entry f k v acc n r off :
  reads f (write_canonical v) v → utf8_valid k = true → wf_value v = true →
  (∀ k' v', (k', v') ∈ acc → String.compare k' k = Lt) →
  ends_value r = true → utf8_valid r = true →
  object_loop f (S n) (mkp (write_entry (k, v) +:+ r) off) acc
  = let p' := mkp r (off + String.length (write_entry (k, v))) in
    if peek_is "," p' then object_loop f n (advance 1 p') (acc ++ [(k, v)])
    else if peek_is "}" p' then Ok (Object (acc ++ [(k, v)]), advance 1 p')
    else error p' ExpectedCommaOrBrace.
Proof.
  intros Hv Hk Hwf Hacc Hend Hr. cbn [object_loop].
  rewrite starts_value_skip by apply starts_value_entry.
  unfold write_entry. cbn [fst snd]. rewrite append_assoc.
  assert (utf8_valid (write_canonical v +:+ r) = true)
    by (apply utf8_valid_app; [by apply write_canonical_valid | done]).
  rewrite string_write; [|done|cbn [String.append]; by apply utf8_valid_cons].
  cbn [try_bind fst snd].
  rewrite bt_get_None by (intros k' v' Hin ->; apply Hacc in Hin; by rewrite string_compare_refl in Hin).
  assert (∀ o, skip_whitespace (mkp ((":" +:+ write_canonical v) +:+ r) o)
    = mkp (":" +:+ (write_canonical v +:+ r)) o) as -> by reflexivity.
  assert (∀ o, expect ":" (mkp (":" +:+ (write_canonical v +:+ r)) o)
    = Ok (mkp (write_canonical v +:+ r) (o + 1))) as -> by reflexivity.
  cbn [try_bind]. rewrite starts_value_skip by apply starts_value_write.
  rewrite Hv by done. cbn [try_bind fst snd].
  rewrite bt_insert_last by done. rewrite skip_ends_value by done.
  rewrite !length_append. cbn [String.length].
  replace (off + String.length (write_canonical_string k) + 1 + String.length (write_canonical v))
    with (off + (String.length (write_canonical_string k) + (1 + String.length (write_canonical v))))
    by lia. reflexivity.
Qed.

Lemma object_loop_write f es acc n r off :
  Forall (fun e => reads f (write_canonical e.2) e.2 ∧ utf8_valid e.1 = true ∧ wf_value e.2 = true) es →
  es ≠ [] → bt_sorted (acc ++ es) = true → length es ≤ n → utf8_valid r = true →
  object_loop f n (mkp (join_on ","%char (map write_entry es) +:+ ("}" +:+ r)) off) acc
  = Ok (Object (acc ++ es), mkp r (off + String.length (join_on ","%char (map write_entry es)) + 1)).
Proof.
  intros Hes. revert acc n off; induction Hes as [|[k v] es (Hv & Hk & Hwf) Hes IH];
    intros acc n off Hne Hs Hn Hr; [done|].
  destruct n as [|n]; [cbn in Hn; lia|]. cbn [fst snd] in *.
  assert (∀ k' v', (k', v') ∈ acc → String.compare k' k = Lt) as Hacc.
  { intros k' v'. apply bt_sorted_app_last with (v := v).
    rewrite (cons_middle (k, v)), app_assoc in Hs. by apply bt_sorted_app_l in Hs. }
  destruct es as [|e es].
  - cbn [map join_on]. rewrite object_loop_entry; try done; by apply utf8_valid_cons.
  - change (join_on ","%char (map write_entry ((k, v) :: e :: es)))
      with (write_entry (k, v) +:+ ("," +:+ join_on ","%char (map write_entry (e :: es)))).
    rewrite !append_assoc. rewrite object_loop_entry; try done.
    + cbv zeta. cbn [peek_is peek mkp p_rest String.append Ascii.eqb Bool.eqb].
      unfold advance. cbn [p_rest p_offset drop_bytes].
      rewrite IH; [|done|by rewrite <-app_assoc|cbn in *; lia|done].
      rewrite <-app_assoc. cbn [app]. do 2 f_equal. unfold mkp. f_equal.
      rewrite !length_append. cbn [String.length p_offset]. lia.
    + apply utf8_valid_cons; [done|]. apply utf8_valid_app; [|by apply utf8_valid_cons].
      apply join_valid, Forall_fmap. eapply Forall_impl; [exact Hes|].
      intros u (_ & Hu & Hw). by apply write_entry_valid.
Qed.

Lemma join_length_elem (l : list string) s :
  s ∈ l → String.length s ≤ String.length (join_on ","%char l).
Proof.
  induction l as [|t l IH]; [intros H; by apply not_elem_of_nil in H|].
  intros [->|Hin]%elem_of_cons; destruct l as [|u l].
  - done.
  - cbn [join_on]. rewrite length_append. lia.
  - by apply not_elem_of_nil in Hin.
  - apply IH in Hin. change (join_on ","%char (t :: u :: l))
      with (t +:+ ("," +:+ join_on ","%char (u :: l))). rewrite !length_append. lia.
Qed.

Lemma join_length_count (l : list string) :
  length l ≤ S (String.length (join_on ","%char l)).
Proof.
  induction l as [|t l IH]; [cbn; lia|]. destruct l as [|u l]; [cbn; lia|].
  change (join_on ","%char (t :: u :: l)) with (t +:+ ("," +:+ join_on ","%char (u :: l))).
  rewrite !length_append. cbn [length String.length] in *. lia.
Qed.


Section Containers.
Context (f : Parser → Result (Value * Parser) Stop).

(** A reader of values reads an array of the values it reads. *)
Lemma array_write vs :
  Forall (fun v => reads f (write_canonical v) v ∧ wf_value v = true) vs →
  reads (array f) (write_canonical (Array vs)) (Array vs).
Proof.
  intros Hvs r off Hend Hr. destruct vs as [|v vs]; [two_bytes off|].
  cbn [write_canonical]. rewrite !length_append. cbn [String.length].
  set (J := join_on ","%char (map write_canonical (v :: vs))).
  assert (starts_value J) as HJ.
  { unfold J. cbn [map join_on]. destruct vs; cbn [map join_on];
      [|apply starts_value_app]; apply starts_value_write. }
  unfold array. cbn [String.append]. rewrite append_assoc.
  assert (expect "[" (mkp (String "[" (J +:+ ("]" +:+ r))) off)
    = Ok (mkp (J +:+ ("]" +:+ r)) (off + 1))) as -> by reflexivity.
  cbn [try_bind]. rewrite starts_value_skip by done.
  rewrite (proj1 (starts_value_peek _ _ _ HJ)). unfold J.
  rewrite array_loop_write; [|done|done| |done].
  - cbn [app]. fold J. do 2 f_equal. unfold mkp. f_equal. lia.
  - cbn [mkp p_rest]. rewrite length_append. fold J. cbn [String.length String.append].
    pose proof (join_length_count (map write_canonical (v :: vs))) as Hc.
    rewrite length_map in Hc. fold J in Hc. lia.
Qed.

(** ... and an object of them. *)
Lemma object_write es :
  Forall (fun e => reads f (write_canonical e.2) e.2 ∧ utf8_valid e.1 = true ∧ wf_value e.2 = true) es →
  bt_sorted es = true → reads (object_ f) (write_canonical (Object es)) (Object es).
Proof.
  intros Hes Hs r off Hend Hr. destruct es as [|e es]; [two_bytes off|].
  rewrite write_object. rewrite !length_append. cbn [String.length].
  set (J := join_on ","%char (map write_entry (e :: es))).
  assert (starts_value J) as HJ.
  { unfold J. cbn [map join_on]. destruct es; cbn [map join_on];
      [|apply starts_value_app]; apply starts_value_entry. }
  unfold object_. cbn [String.append]. rewrite append_assoc.
  assert (expect "{" (mkp (String "{" (J +:+ ("}" +:+ r))) off)
    = Ok (mkp (J +:+ ("}" +:+ r)) (off + 1))) as -> by reflexivity.
  cbn [try_bind]. rewrite starts_value_skip by done.
  rewrite (proj2 (starts_value_peek _ _ _ HJ)). unfold J.
  rewrite object_loop_write; [|done|done|done| |done].
  - cbn [app]. fold J. do 2 f_equal. unfold mkp. f_equal. lia.
  - cbn [mkp p_rest]. rewrite length_append. fold J. cbn [String.length String.append].
    pose proof (join_length_count (map write_entry (e :: es))) as Hc.
    rewrite length_map in Hc. fold J in Hc. lia.
Qed.
End Containers.

Lemma element_shorter vs v :
  v ∈ vs → String.length (write_canonical v) < String.length (write_canonical (Array vs)).
Proof.
  intros Hv. cbn [write_canonical]. rewrite !length_append. cbn [String.length].
  pose proof (join_length_elem (map write_canonical vs) (write_canonical v)) as H.
  rewrite !list_elem_of_In in H. rewrite list_elem_of_In in Hv.
  specialize (H (in_map _ _ _ Hv)). lia.
Qed.

Lemma entry_shorter es e :
  e ∈ es → String.length (write_canonical e.2) < String.length (write_canonical (Object es)).
Proof.
  intros He. rewrite write_object, !length_append. cbn [String.length].
  pose proof (join_length_elem (map write_entry es) (write_entry e)) as H.
  rewrite !list_elem_of_In in H. rewrite list_elem_of_In in He.
  specialize (H (in_map _ _ _ He)). unfold write_entry at 1 in H. rewrite !length_append in H. lia.
Qed.

(** The reader of values reads every well-formed value back, given as much depth
    as its text is long. *)
Lemma value_write v :
  wf_value v = true → ∀ fuel, String.length (write_canonical v) < fuel →
  reads (value fuel) (write_canonical v) v.
Proof.
  induction v as [|[]|z|s|vs IH|es IH] using Value_nested_ind; intros Hwf fuel Hf r off Hend Hr;
    (destruct fuel as [|fuel]; [lia|]); try reflexivity.
  - destruct (i64_to_string_head z) as (b & t & Heq & Hb).
    pose proof (integer_write z r off Hwf (ends_value_number _ Hend)) as Hi.
    cbn [write_canonical] in *. rewrite Heq in *. cbn [value peek mkp p_rest String.append].
    destruct Hb as [->|Hb]; [exact Hi|].
    destruct (digit_not_special b Hb) as (_ & _ & _ & -> & -> & -> & -> & -> & ->).
    rewrite Hb, orb_true_r. exact Hi.
  - cbn [value write_canonical]. rewrite (string_write s r off Hwf Hr). reflexivity.
  - transitivity (array (value fuel) (mkp (write_canonical (Array vs) +:+ r) off)); [reflexivity|].
    apply array_write; [|done|done]. rewrite Forall_forall in IH |- *. intros w Hw.
    assert (wf_value w = true) by (by eapply forallb_True in Hwf).
    split; [|done]. apply IH; [done..|]. pose proof (element_shorter vs w Hw). lia.
  - transitivity (object_ (value fuel) (mkp (write_canonical (Object es) +:+ r) off)); [reflexivity|].
    apply andb_true_iff in Hwf as [Hs Hwf].
    apply object_write; [|done|done|done]. rewrite Forall_forall in IH |- *. intros w Hw.
    eapply forallb_True in Hwf as [Hk Hv]%andb_true_iff; [|exact Hw].
    split; [|done]. apply IH; [done..|]. pose proof (entry_shorter es w Hw). lia.
Qed.

(** Numbers that print alike are the same. *)
Lemma i64_to_string_inj a b : i64_to_string a = i64_to_string b → a = b.
Proof.
  unfold i64_to_string. intros He.
  assert (∀ n p, u64_to_string n ≠ String "-" (u64_to_string p)) as Hneg.
  { intros n p. destruct (u64_to_string_spec n) as (b' & ds & -> & Hd & _). intros [= -> _]. done. }
  assert (∀ n p, u64_to_string n = u64_to_string p → n = p) as Hinj.
  { intros n p Hnp. destruct (u64_to_string_spec n) as (b1 & d1 & E1 & _ & V1 & _).
    destruct (u64_to_string_spec p) as (b2 & d2 & E2 & _ & V2 & _). rewrite E1, E2 in Hnp. rewrite Hnp in V1.
    rewrite V1 in V2. injection V2. lia. }
  destruct a, b;
    first [ done | by apply Hinj in He; lia | by apply Hneg in He | by symmetry in He; apply Hneg in He | idtac ].
  apply (append_inj_l "-") in He. by apply Hinj in He; lia.
Qed.

(** The canonical text of a well-formed value is read back as that value. *)
Lemma parse_write v : wf_value v = true → parse (to_canonical_bytes v) = Ok v.
Proof.
  intros Hwf. unfold parse, to_canonical_bytes.
  fold (mkp (write_canonical v) 0). rewrite <-(append_nil_r (write_canonical v)).
  rewrite starts_value_skip by apply starts_value_write.
  rewrite (value_write v Hwf); [reflexivity| |done|done].
  rewrite append_nil_r. lia.
Qed.

(** Hence the encoding is injective on well-formed values. *)
Lemma to_canonical_bytes_inj v w :
  wf_value v = true → wf_value w = true → to_canonical_bytes v = to_canonical_bytes w → v = w.
Proof.
  intros Hv Hw Heq. pose proof (parse_write v Hv) as H1. rewrite Heq, parse_write in H1 by done.
  congruence.
Qed.

(** ** Totality, progress and well-formedness

    [inside N p]: the parser's offset and remaining bytes together make up a
    source of [N] bytes.  [sound N Q n r]: the run [r] did not exhaust its fuel; if
    it produced a value, the value satisfies [Q], the parser is still inside the
    source and fewer than [n] bytes remain; if it failed, the reported offset lies
    inside the source. *)

Definition inside (N : nat) (p : Parser) : Prop := p_offset p + String.length (p_rest p) = N.

Definition sound {A} (N : nat) (Q : A → Prop) (n : nat) (r : Result (A * Parser) Stop) : Prop :=
  match r with
  | Ok (a, p) => Q a ∧ inside N p ∧ String.length (p_rest p) < n
  | Err (Failed e) => error_offset e ≤ N
  | Err OutOfFuel => False
  end.

Lemma sound_error {A} N (Q : A → Prop) n p d : inside N p → sound N Q n (error p d).
Proof. unfold inside. cbn. lia. Qed.

Lemma sound_mono {A} N (Q : A → Prop) n m (r : Result (A * Parser) Stop) :
  sound N Q n r → n ≤ m → sound N Q m r.
Proof.
  destruct r as [[a p]|[e|]]; cbn; [|done|done]. intros (H1 & H2 & H3) Hle.
  split; [done|]. split; [done|lia].
Qed.

(** Sequencing: the continuation is sound on what the first run leaves. *)
Lemma sound_bind {A B} N (Q : A → Prop) (R : B → Prop) n m (r : Result (A * Parser) Stop) k :
  sound N Q n r →
  (∀ a p, Q a → inside N p → String.length (p_rest p) < n → sound N R m (k (a, p))) →
  sound N R m (try_bind r k).
Proof. destruct r as [[a p]|[e|]]; cbn; [|done|done]. intros (? & ? & ?) Hk. auto. Qed.

Lemma length_drop_bytes n s : String.length (drop_bytes n s) = String.length s - n.
Proof. revert s; induction n as [|n IH]; intros [|b s]; cbn; [done|done|done|apply IH]. Qed.

Lemma inside_advance N n p :
  inside N p → n ≤ String.length (p_rest p) → inside N (advance n p).
Proof. unfold inside, advance. cbn. rewrite length_drop_bytes. lia. Qed.

Lemma length_advance n p :
  String.length (p_rest (advance n p)) = String.length (p_rest p) - n.
Proof. cbn. apply length_drop_bytes. Qed.

Lemma peek_length p b : peek p = Some b → 0 < String.length (p_rest p).
Proof. unfold peek. destruct (p_rest p); cbn; [done|lia]. Qed.

Lemma peek_is_length b p : peek_is b p = true → 0 < String.length (p_rest p).
Proof. unfold peek_is. destruct (peek p) eqn:E; [|done]. intros _. by eapply peek_length. Qed.

Lemma skip_bytes_spec s off :
  p_offset (skip_bytes s off) + String.length (p_rest (skip_bytes s off)) = off + String.length s ∧
  String.length (p_rest (skip_bytes s off)) ≤ String.length s.
Proof.
  revert off; induction s as [|b s IH]; intros off; cbn; [lia|].
  destruct (is_whitespace b); cbn; [|lia]. destruct (IH (S off)). lia.
Qed.

Lemma inside_skip N p :
  inside N p → inside N (skip_whitespace p) ∧
  String.length (p_rest (skip_whitespace p)) ≤ String.length (p_rest p).
Proof.
  unfold inside, skip_whitespace. intros H.
  destruct (skip_bytes_spec (p_rest p) (p_offset p)). lia.
Qed.

Lemma expect_spec N b p p' :
  inside N p → expect b p = Ok p' →
  inside N p' ∧ S (String.length (p_rest p')) = String.length (p_rest p).
Proof.
  unfold expect. intros Hin. destruct (peek_is b p) eqn:E; [|done]. intros [= <-].
  apply peek_is_length in E. split; [by apply inside_advance|]. rewrite length_advance. lia.
Qed.

Lemma sound_expect {B} N b p (R : B → Prop) m k :
  inside N p →
  (∀ p', inside N p' → S (String.length (p_rest p')) = String.length (p_rest p) →
    sound N R m (k p')) →
  sound N R m (try_bind (expect b p) k).
Proof.
  intros Hin Hk. destruct (expect b p) as [p'|e] eqn:E.
  - apply (expect_spec N) in E as [? ?]; [|done]. cbn. auto.
  - unfold expect in E. destruct (peek_is b p); [done|]. injection E as <-.
    by apply sound_error.
Qed.

Lemma length_take_digits s : String.length (take_digits s) ≤ String.length s.
Proof. induction s as [|b s IH]; cbn; [lia|]. destruct (is_digit b); cbn; lia. Qed.

Lemma parse_i64_range s z : parse_i64 s = Some z → in_i64 z = true.
Proof.
  unfold parse_i64. destruct (match s with EmptyString => _ | _ => _ end) as [y|]; [|done].
  destruct (in_i64 y) eqn:E; [|done]. by intros [= <-].
Qed.

Lemma integer_sound N p :
  inside N p → sound N (fun v => wf_value v = true) (String.length (p_rest p)) (integer p).
Proof.
  intros Hin. unfold integer.
  set (neg := peek_is "-" p). set (p1 := if neg then advance 1 p else p).
  assert (inside N p1 ∧ String.length (p_rest p1) ≤ String.length (p_rest p)) as [Hin1 Hl1].
  { unfold p1. destruct neg eqn:E; [|done]. rewrite length_advance.
    split; [|lia]. apply inside_advance; [done|]. by apply peek_is_length in E. }
  set (ds := take_digits (p_rest p1)). set (p2 := advance (String.length ds) p1).
  pose proof (length_take_digits (p_rest p1)) as Hlt.
  assert (inside N p2) as Hin2 by (by apply inside_advance).
  destruct (Nat.eqb_spec (String.length ds) 0); [by apply sound_error|].
  destruct (peek_is "." p2 || peek_is "e" p2 || peek_is "E" p2); [by apply sound_error|].
  destruct (negb _); [by apply sound_error|].
  destruct (Nat.ltb _ _ && _); [by apply sound_error|].
  destruct (parse_i64 _) as [z|] eqn:E; [|by apply sound_error].
  cbn. split; [by eapply parse_i64_range|]. split; [done|].
  unfold p2. rewrite length_drop_bytes. fold ds in Hlt. lia.
Qed.

Lemma unicode_escape_sound N p :
  inside N p → sound N (fun c => is_scalar c = true) (S (String.length (p_rest p))) (unicode_escape p).
Proof.
  intros Hin. unfold unicode_escape. destruct (Nat.ltb_spec (String.length (p_rest p)) 4);
    [by apply sound_error|].
  destruct (negb _); [by apply sound_error|].
  destruct (u32_from_hex _) as [code|]; [|by apply sound_error].
  assert (inside N (advance 4 p)) by (by apply inside_advance).
  unfold char_from_u32. destruct (is_scalar code) eqn:E; [|by apply sound_error].
  cbn [sound]. split; [done|]. split; [done|]. rewrite length_advance. lia.
Qed.

Lemma short_escape_scalar b c : short_escape b = Some c → is_scalar c = true.
Proof. unfold short_escape. intros H. repeat case_match; simplify_eq; reflexivity. Qed.

Lemma next_char_bounded s c t :
  next_char s = Some (c, t) → String.length (encode_utf8 c) ≤ String.length s.
Proof. intros [_ ->]%next_char_inv. rewrite length_append. lia. Qed.

Lemma length_encode_pos c : 0 < String.length (encode_utf8 c).
Proof. destruct (encode_utf8_cons c) as (b & t & ->). cbn. lia. Qed.

Lemma utf8_valid_next s :
  utf8_valid s = true → s ≠ EmptyString → ∃ c t, next_char s = Some (c, t).
Proof.
  intros (cs & -> & Hcs)%utf8_valid_spec Hne. destruct cs as [|c cs]; [done|].
  inversion Hcs; subst. cbn. rewrite next_char_encode by done. eauto.
Qed.

Lemma string_loop_sound N fuel p out :
  inside N p → String.length (p_rest p) < fuel → utf8_valid out = true →
  sound N (fun s => utf8_valid s = true) (String.length (p_rest p)) (string_loop fuel p out).
Proof.
  revert p out; induction fuel as [|fuel IH]; intros p out Hin Hf Hout; [lia|].
  cbn [string_loop]. destruct (peek p) as [b|] eqn:Hp; [|by apply sound_error].
  pose proof (peek_length p b Hp) as Hpos.
  assert (inside N (advance 1 p)) as Hin1 by (by apply inside_advance).
  pose proof (length_advance 1 p) as Hlen1.
  destruct (Ascii.eqb b "034").
  { cbn [sound]. split; [done|]. split; [done|]. lia. }
  destruct (Ascii.eqb b "\").
  { destruct (peek (advance 1 p)) as [e|] eqn:He; [|by apply sound_error].
    pose proof (peek_length _ _ He) as Hpos1.
    assert (inside N (advance 1 (advance 1 p))) as Hin2 by (by apply inside_advance).
    pose proof (length_advance 1 (advance 1 p)) as Hlen2.
    destruct (Ascii.eqb e "u").
    - eapply sound_bind; [by apply unicode_escape_sound|]. cbn [fst snd].
      intros c q Hc Hq Hlq. eapply sound_mono; [apply IH; [done|lia|]|lia].
      apply utf8_valid_app; [done | by apply utf8_valid_encode].
    - destruct (short_escape e) as [c|] eqn:Hs; [|by apply sound_error].
      apply short_escape_scalar in Hs.
      eapply sound_mono; [apply IH; [done|lia|]|lia].
      apply utf8_valid_app; [done | by apply utf8_valid_encode]. }
  destruct (byte_val b <? 32)%N; [by apply sound_error|].
  destruct (utf8_valid (p_rest p)) eqn:Hval; cbn [negb]; [|by apply sound_error].
  destruct (utf8_valid_next _ Hval) as (c & t & Hnext).
  { intros E. rewrite E in Hpos. cbn in Hpos. lia. }
  rewrite Hnext. pose proof (next_char_bounded _ _ _ Hnext). pose proof (length_encode_pos c).
  apply next_char_inv in Hnext as [Hc _].
  eapply sound_mono; [apply IH|].
  - by apply inside_advance.
  - rewrite length_advance. lia.
  - apply utf8_valid_app; [done | by apply utf8_valid_encode].
  - rewrite length_advance. lia.
Qed.

Lemma string_sound N p :
  inside N p → sound N (fun s => utf8_valid s = true) (String.length (p_rest p)) (string_ p).
Proof.
  intros Hin. apply sound_expect; [done|]. intros p' Hin' Hlen.
  eapply sound_mono; [apply string_loop_sound; [done|lia|done]|lia].
Qed.

Section LoopSoundness.
Context (N : nat) (f : Parser → Result (Value * Parser) Stop) (bound : nat).
Hypothesis f_sound : ∀ p, inside N p → String.length (p_rest p) < bound →
  sound N (fun v => wf_value v = true) (String.length (p_rest p)) (f p).

Lemma array_loop_sound fuel p values :
  inside N p → String.length (p_rest p) < fuel → String.length (p_rest p) < bound →
  forallb wf_value values = true →
  sound N (fun v => wf_value v = true) (String.length (p_rest p)) (array_loop f fuel p values).
Proof.
  revert p values; induction fuel as [|fuel IH]; intros p values Hin Hf Hb Hvs; [lia|].
  cbn [array_loop]. destruct (inside_skip N p Hin) as [Hin1 Hl1].
  eapply sound_bind; [apply f_sound; [done|lia]|]. cbn [fst snd]. intros v q Hv Hq Hlq.
  destruct (inside_skip N q Hq) as [Hq' Hlq'].
  assert (forallb wf_value (values ++ [v]) = true) as Hvs'.
  { rewrite forallb_app, Hvs. cbn. by rewrite Hv. }
  destruct (peek_is "," (skip_whitespace q)) eqn:Hc.
  - apply peek_is_length in Hc. pose proof (length_advance 1 (skip_whitespace q)).
    eapply sound_mono; [apply IH; [by apply inside_advance|lia|lia|done]|lia].
  - destruct (peek_is "]" (skip_whitespace q)) eqn:He; [|by apply sound_error].
    apply peek_is_length in He. cbn [sound]. split; [exact Hvs'|].
    split; [by apply inside_advance|]. rewrite length_advance. lia.
Qed.

Lemma array_sound p :
  inside N p → String.length (p_rest p) ≤ bound →
  sound N (fun v => wf_value v = true) (String.length (p_rest p)) (array f p).
Proof.
  intros Hin Hb. apply sound_expect; [done|]. intros p1 Hin1 Hl1. cbv zeta.
  destruct (inside_skip N p1 Hin1) as [Hin2 Hl2].
  destruct (peek_is "]" (skip_whitespace p1)) eqn:He.
  - apply peek_is_length in He. cbn [sound]. split; [done|].
    split; [by apply inside_advance|]. rewrite length_advance. lia.
  - eapply sound_mono; [apply array_loop_sound; [done|lia|lia|done]|lia].
Qed.

Lemma object_loop_sound fuel p entries :
  inside N p → String.length (p_rest p) < fuel → String.length (p_rest p) < bound →
  wf_value (Object entries) = true →
  sound N (fun v => wf_value v = true) (String.length (p_rest p)) (object_loop f fuel p entries).
Proof.
  revert p entries; induction fuel as [|fuel IH]; intros p entries Hin Hf Hb Hes; [lia|].
  cbn [object_loop]. destruct (inside_skip N p Hin) as [Hin1 Hl1].
  eapply sound_bind; [by apply string_sound|]. cbn [fst snd]. intros k p2 Hk Hin2 Hl2.
  destruct (bt_get k entries); [by apply sound_error|].
  destruct (inside_skip N p2 Hin2) as [Hin3 Hl3].
  apply sound_expect; [done|]. intros p4 Hin4 Hl4.
  destruct (inside_skip N p4 Hin4) as [Hin5 Hl5].
  eapply sound_bind; [apply f_sound; [done|lia]|]. cbn [fst snd]. intros v q Hv Hq Hlq.
  destruct (inside_skip N q Hq) as [Hq' Hlq'].
  assert (wf_value (Object (bt_insert k v entries)) = true) as Hes'.
  { cbn [wf_value] in *. apply andb_true_iff in Hes as [Hs Hes]. rewrite bt_insert_sorted by done.
    apply forallb_True. intros [k' v'] [[= -> ->]|Hin']%elem_of_bt_insert.
    - cbn. by rewrite Hk, Hv.
    - by eapply forallb_True in Hes. }
  destruct (peek_is "," (skip_whitespace q)) eqn:Hc.
  - apply peek_is_length in Hc. pose proof (length_advance 1 (skip_whitespace q)).
    eapply sound_mono; [apply IH; [by apply inside_advance|lia|lia|done]|lia].
  - destruct (peek_is "}" (skip_whitespace q)) eqn:He; [|by apply sound_error].
    apply peek_is_length in He. cbn [sound]. split; [exact Hes'|].
    split; [by apply inside_advance|]. rewrite length_advance. lia.
Qed.

Lemma object_sound p :
  inside N p → String.length (p_rest p) ≤ bound →
  sound N (fun v => wf_value v = true) (String.length (p_rest p)) (object_ f p).
Proof.
  intros Hin Hb. apply sound_expect; [done|]. intros p1 Hin1 Hl1. cbv zeta.
  destruct (inside_skip N p1 Hin1) as [Hin2 Hl2].
  destruct (peek_is "}" (skip_whitespace p1)) eqn:He.
  - apply peek_is_length in He. cbn [sound]. split; [done|].
    split; [by apply inside_advance|]. rewrite length_advance. lia.
  - eapply sound_mono; [apply object_loop_sound; [done|lia|lia|done]|lia].
Qed.
End LoopSoundness.

Lemma literal_sound N w v p :
  inside N p → wf_value v = true → 0 < String.length w →
  sound N (fun v => wf_value v = true) (String.length (p_rest p)) (literal w v p).
Proof.
  intros Hin Hv Hw. unfold literal. destruct (starts_with w (p_rest p)) eqn:E; [|by apply sound_error].
  apply starts_with_true in E as [r E].
  assert (String.length w ≤ String.length (p_rest p)) by (rewrite E, length_append; lia).
  cbn [sound]. split; [done|]. split; [by apply inside_advance|]. rewrite length_advance. lia.
Qed.

Lemma value_sound N fuel p :
  inside N p → String.length (p_rest p) < fuel →
  sound N (fun v => wf_value v = true) (String.length (p_rest p)) (value fuel p).
Proof.
  revert p; induction fuel as [|fuel IH]; intros p Hin Hf; [lia|].
  cbn [value]. destruct (peek p) as [b|] eqn:Hp; [|by apply sound_error].
  repeat (case_match; [solve [apply literal_sound; [done|done|cbn; lia]
    | eapply sound_bind; [by apply string_sound|]; intros s q Hs Hq Hl; by cbn
    | apply array_sound with fuel; [exact IH|done|lia]
    | apply object_sound with fuel; [exact IH|done|lia]
    | by apply integer_sound]|]).
  by apply sound_error.
Qed.

(** [parse] always returns, and what it returns is a well-formed value or an
    error located inside the source. *)
Lemma parse_outcome source :
  match parse source with
  | Ok v => wf_value v = true
  | Err (Failed e) => error_offset e ≤ String.length source
  | Err OutOfFuel => False
  end.
Proof.
  unfold parse. fold (mkp source 0).
  assert (inside (String.length source) (mkp source 0)) as Hin by done.
  apply inside_skip in Hin as [Hin Hl].
  pose proof (value_sound _ (S (String.length source)) _ Hin) as Hs.
  specialize (Hs ltac:(cbn [mkp p_rest] in Hl; lia)).
  destruct (value _ _) as [[v q]|[e|]]; cbn [try_bind sound] in *; [|done|done].
  destruct Hs as (Hv & Hq & _). apply inside_skip in Hq as [Hq _]. cbn [fst snd].
  destruct (p_rest (skip_whitespace q)) eqn:E; [done|]. cbn. unfold inside in Hq. lia.
Qed.

(** ** Claims *)

(** C35: parsing the canonical encoding of any well-formed value gives that value
    back: the parser inverts the one canonical writer, for every nesting,
    escape and integer. *)
Theorem canonical_roundtrip v : wf_value v = true → parse (to_canonical_bytes v) = Ok v.
Proof. apply parse_write. Qed.

Definition sample_value : Value :=
  object [("name", Str (of_chars [97; 34; 10; 233; 128512]%N)); ("n", Integer i64_min);
          ("list", Array [Null; Bool true; Object []])].

Lemma canonical_roundtrip_witness :
  wf_value sample_value = true ∧ parse (to_canonical_bytes sample_value) = Ok sample_value.
Proof. split; [vm_compute; reflexivity | apply canonical_roundtrip; vm_compute; reflexivity]. Defined.

(** C36: the parser is total: on every input it returns, either a value the Rust
    types admit (integers in range, UTF-8 strings, strictly sorted keys) or an
    error whose offset lies inside the source; the fuel of the model is never
    what stops it. *)
Theorem parse_total source :
  match parse source with
  | Ok v => wf_value v = true
  | Err (Failed e) => error_offset e ≤ String.length source
  | Err OutOfFuel => False
  end.
Proof. apply parse_outcome. Qed.

(** The escape decoder reads four characters with [u32::from_str_radix], which
    accepts a leading sign: a signed escape is read as a character. *)
Lemma signed_escape_accepted :
  parse (quote +:+ ("\u+041" +:+ quote)) = Ok (Str "A").
Proof. vm_compute. reflexivity. Qed.
