(* ===== verification/Digest.v ===== *)
(** * Content digests ([pantheon-core/src/config/digest.rs])

    SHA-256 is a third-party crate: the hash is a parameter, the class [Sha256],
    of which the development uses only that its output has 32 bytes.  Nothing
    assumes that it has no collisions; identity theorems say that equal digests
    mean equal content or that two texts the theorem names are a collision ([clash]). *)

From Stdlib Require Import ZArith NArith Lia Ascii.
From S2P Require Import Prelude Utf8 Canonical Parse ParseFacts.

(** The 32 raw bytes. *)
Record Digest : Type := mk_digest { digest_bytes : string }.

#[export] Instance Digest_eq_dec : EqDecision Digest.
Proof. solve_decision. Defined.

Definition wf_digest (d : Digest) : bool := Nat.eqb (String.length (digest_bytes d)) 32.

Class Sha256 : Type := {
  sha256 : string → string;
  sha256_length : ∀ s, String.length (sha256 s) = 32
}.

(** [Digest::of]. *)
Definition digest_of `{Sha256} (bytes : string) : Digest := mk_digest (sha256 bytes).

(** [Value::digest]. *)
Definition value_digest `{Sha256} (v : Value) : Digest := digest_of (to_canonical_bytes v).

Section DigestText.
Local Open Scope N_scope.

Definition hex_nibble (b : ascii) : option N :=
  if in_range 48 57 b then Some (byte_val b - 48)
  else if in_range 97 102 b then Some (byte_val b - 97 + 10)
  else if in_range 65 70 b then Some (byte_val b - 65 + 10)
  else None.

Fixpoint hex_of_bytes (s : string) : string :=
  match s with
  | EmptyString => EmptyString
  | String b rest =>
      String (hex_char (N.shiftr (byte_val b) 4))
        (String (hex_char (N.land (byte_val b) 15)) (hex_of_bytes rest))
  end.

Definition to_hex (d : Digest) : string := hex_of_bytes (digest_bytes d).

(** [Display]: [sha256:<hex>]. *)
Definition to_display (d : Digest) : string := "sha256:" +:+ to_hex d.

(** Two digits per byte, [n] bytes. *)
Fixpoint bytes_of_hex (n : nat) (s : string) : option string :=
  match n with
  | O => Some EmptyString
  | S n' =>
      match s with
      | String high (String low rest) =>
          match hex_nibble high, hex_nibble low with
          | Some h, Some l =>
              match bytes_of_hex n' rest with
              | Some bytes => Some (String (byte_of (N.lor (N.shiftl h 4) l)) bytes)
              | None => None
              end
          | _, _ => None
          end
      | _ => None
      end
  end.

Definition from_display (text : string) : option Digest :=
  match strip_prefix "sha256:" text with
  | None => None
  | Some hex =>
      if negb (Nat.eqb (String.length hex) 64) then None
      else mk_digest <$> bytes_of_hex 32 hex
  end.
End DigestText.

(** ** Hexadecimal text *)

Lemma hex_nibble_char d : (d < 16)%N → hex_nibble (hex_char d) = Some d.
Proof.
  intros Hd. unfold hex_char. destruct (N.ltb_spec d 10); unfold hex_nibble, in_range;
    rewrite byte_val_of by lia; bool_lia; f_equal; lia.
Qed.

Lemma nibbles_lt n : (n < 256)%N → (N.shiftr n 4 < 16)%N ∧ (N.land n 15 < 16)%N.
Proof.
  intros Hn. rewrite N.shiftr_div_pow2. change 15%N with (N.ones 4). rewrite N.land_ones.
  change (2 ^ 4)%N with 16%N. split; lia.
Qed.

Lemma nibbles_join n : N.lor (N.shiftl (N.shiftr n 4) 4) (N.land n 15) = n.
Proof.
  change 15%N with (N.ones 4). rewrite <-N.ldiff_ones_r. apply N.bits_inj. intros i.
  rewrite N.lor_spec, N.ldiff_spec, N.land_spec.
  destruct (N.testbit n i), (N.testbit (N.ones 4) i); done.
Qed.

Lemma bytes_of_hex_of_bytes s : bytes_of_hex (String.length s) (hex_of_bytes s) = Some s.
Proof.
  induction s as [|b s IH]; cbn [String.length hex_of_bytes bytes_of_hex]; [done|].
  destruct (nibbles_lt (byte_val b) (byte_val_lt b)) as [H1 H2].
  rewrite !hex_nibble_char by done. by rewrite IH, nibbles_join, byte_of_val.
Qed.

Lemma length_hex_of_bytes s : String.length (hex_of_bytes s) = 2 * String.length s.
Proof. induction s as [|b s IH]; cbn [String.length hex_of_bytes]; lia. Qed.

Lemma length_bytes_of_hex n s t : bytes_of_hex n s = Some t → String.length t = n.
Proof.
  revert s t; induction n as [|n IH]; intros s t; cbn [bytes_of_hex]; [by intros [= <-]|].
  intros H. repeat case_match; simplify_eq. cbn. f_equal. by eapply IH.
Qed.

Lemma from_display_to_display d : wf_digest d = true → from_display (to_display d) = Some d.
Proof.
  unfold wf_digest. intros Hd%Nat.eqb_eq. unfold from_display, to_display.
  rewrite strip_prefix_app. unfold to_hex. rewrite length_hex_of_bytes, Hd. cbn [negb Nat.eqb].
  pose proof (bytes_of_hex_of_bytes (digest_bytes d)) as Hb. rewrite Hd in Hb. rewrite Hb.
  by destruct d.
Qed.

Lemma to_display_inj d1 d2 :
  wf_digest d1 = true → wf_digest d2 = true → to_display d1 = to_display d2 → d1 = d2.
Proof.
  intros H1 H2 H. apply (inj Some).
  by rewrite <-(from_display_to_display d1), <-(from_display_to_display d2), H.
Qed.

Lemma from_display_wf text d : from_display text = Some d → wf_digest d = true.
Proof.
  unfold from_display, wf_digest. intros H. repeat case_match; simplify_eq.
  apply fmap_Some in H as (u & Hu & ->). apply length_bytes_of_hex in Hu. cbn. by rewrite Hu.
Qed.

Lemma hex_char_lt d : (d < 16)%N → (byte_val (hex_char d) < 128)%N.
Proof. intros Hd. unfold hex_char. destruct (d <? 10)%N; rewrite byte_val_of; lia. Qed.

Lemma to_display_valid d : utf8_valid (to_display d) = true.
Proof.
  apply utf8_valid_app; [done|]. unfold to_hex. induction (digest_bytes d) as [|b s IH]; [done|].
  cbn [hex_of_bytes]. destruct (nibbles_lt (byte_val b) (byte_val_lt b)) as [H1 H2].
  apply utf8_valid_cons; [by apply hex_char_lt|]. apply utf8_valid_cons; [by apply hex_char_lt|done].
Qed.

Lemma digest_of_wf `{Sha256} bytes : wf_digest (digest_of bytes) = true.
Proof. unfold wf_digest, digest_of. cbn. by rewrite sha256_length. Qed.

#[export] Hint Resolve from_display_to_display to_display_valid digest_of_wf : pantheon.

(** These two texts are a collision of the hash. *)
Definition clash `{Sha256} (a b : string) : Prop := a ≠ b ∧ sha256 a = sha256 b.

(** Equal digests: equal texts, or a clash of the two. *)
Lemma digest_of_eq `{Sha256} a b : digest_of a = digest_of b → a = b ∨ clash a b.
Proof. intros [= H1]. destruct (decide (a = b)); [by left|by right]. Qed.

(** Equal digests of two values: the values are equal, or their encodings are a
    collision of the hash. *)
Lemma value_digest_eq `{Sha256} v w :
  wf_value v = true → wf_value w = true → value_digest v = value_digest w →
  v = w ∨ clash (to_canonical_bytes v) (to_canonical_bytes w).
Proof.
  intros Hv Hw [= Heq].
  destruct (decide (to_canonical_bytes v = to_canonical_bytes w)) as [E|]; [|by right].
  left. by apply to_canonical_bytes_inj.
Qed.

(** ** A concrete hash, for evaluation: the first 32 bytes, padded with zeros. *)

Fixpoint pad_to (n : nat) (s : string) : string :=
  match n with
  | O => EmptyString
  | S n' =>
      match s with
      | EmptyString => String "000" (pad_to n' EmptyString)
      | String b s' => String b (pad_to n' s')
      end
  end.

Lemma pad_to_length n s : String.length (pad_to n s) = n.
Proof. revert s; induction n as [|n IH]; intros [|b s]; cbn; auto. Qed.

Definition prefix_hash : Sha256 := {| sha256 := pad_to 32; sha256_length := pad_to_length 32 |}.

(** ** Claims *)

(** a digest binds content: two well-formed values with the same digest are
    the same value, unless their two canonical encodings are an actual collision
    of SHA-256. *)
Theorem digest_binds_content `{Sha256} v w :
  wf_value v = true → wf_value w = true → value_digest v = value_digest w →
  v = w ∨ clash (to_canonical_bytes v) (to_canonical_bytes w).
Proof. apply value_digest_eq. Qed.

Definition long_text (last : string) : Value :=
  Str ("0123456789012345678901234567890123456789" +:+ last).

(** With a hash that keeps only 32 bytes, two long texts collide. *)
Lemma digest_binds_content_witness :
  @value_digest prefix_hash (long_text "a") = @value_digest prefix_hash (long_text "b") ∧
  (long_text "a" = long_text "b" ∨
   (to_canonical_bytes (long_text "a") ≠ to_canonical_bytes (long_text "b") ∧
    @sha256 prefix_hash (to_canonical_bytes (long_text "a"))
    = @sha256 prefix_hash (to_canonical_bytes (long_text "b")))).
Proof.
  split; [vm_compute; reflexivity|].
  apply (@digest_binds_content prefix_hash); vm_compute; reflexivity.
Defined.

(** the text of a digest reads back as the digest, and whatever reads as a
    digest is 32 bytes. *)
Theorem digest_display_roundtrip d text :
  wf_digest d = true →
  from_display (to_display d) = Some d ∧
  (∀ e, from_display text = Some e → wf_digest e = true).
Proof. intros Hd. split; [by apply from_display_to_display | by apply from_display_wf]. Qed.

Lemma digest_display_roundtrip_witness :
  let d := @digest_of prefix_hash "content" in
  wf_digest d = true ∧ from_display (to_display d) = Some d ∧
  (∀ e, from_display "sha256:00" = Some e → wf_digest e = true).
Proof.
  split; [vm_compute; reflexivity|]. apply digest_display_roundtrip. vm_compute. reflexivity.
Defined.
