(* ===== verification/Goal.v ===== *)
(** * Goals ([pantheon-core/src/planning/goal.rs])

    The Goal lifecycle phases, the immutable content of a Goal revision, its
    canonical form and the decoder that reads a stored revision back. *)

From Stdlib Require Import ZArith.
From S2P Require Import Prelude Utf8 Canonical Parse ParseFacts Digest.

(** ** Phases *)

Inductive GoalPhase : Type :=
| GoalPlanning | GoalActive | GoalEvaluating | GoalFinalizing
| GoalSucceeded | GoalFailed | GoalCancelled.

#[export] Instance GoalPhase_eq_dec : EqDecision GoalPhase.
Proof. solve_decision. Defined.

Definition goal_phase_as_str (p : GoalPhase) : string :=
  match p with
  | GoalPlanning => "Planning"
  | GoalActive => "Active"
  | GoalEvaluating => "Evaluating"
  | GoalFinalizing => "Finalizing"
  | GoalSucceeded => "Succeeded"
  | GoalFailed => "Failed"
  | GoalCancelled => "Cancelled"
  end.

Definition goal_is_nonterminal (p : GoalPhase) : bool :=
  match p with
  | GoalPlanning | GoalActive | GoalEvaluating | GoalFinalizing => true
  | _ => false
  end.

Definition goal_phase_parse (text : string) : option GoalPhase :=
  if String.eqb text "Planning" then Some GoalPlanning
  else if String.eqb text "Active" then Some GoalActive
  else if String.eqb text "Evaluating" then Some GoalEvaluating
  else if String.eqb text "Finalizing" then Some GoalFinalizing
  else if String.eqb text "Succeeded" then Some GoalSucceeded
  else if String.eqb text "Failed" then Some GoalFailed
  else if String.eqb text "Cancelled" then Some GoalCancelled
  else None.

(** ** Content *)

Record GoalInput : Type := {
  goal_input_name : string;
  goal_input_reference : string
}.

Record Deliverable : Type := {
  deliverable_name : string;
  deliverable_kind : string;
  deliverable_required : bool
}.

Record GoalConstraints : Type := {
  gc_permitted_effects : list string;
  gc_forbidden_effects : list string;
  gc_permitted_resources : list string
}.

Record GoalSpec : Type := {
  goal_objective : string;
  goal_inputs : list GoalInput;
  goal_deliverables : list Deliverable;
  goal_constraints : GoalConstraints
}.

Definition goal_input_value (i : GoalInput) : Value :=
  object [("name", Str (goal_input_name i)); ("ref", Str (goal_input_reference i))].

Definition deliverable_value (d : Deliverable) : Value :=
  object [("name", Str (deliverable_name d)); ("kind", Str (deliverable_kind d));
          ("required", Bool (deliverable_required d))].

Definition goal_to_value (g : GoalSpec) : Value :=
  object [
    ("objective", Str (goal_objective g));
    ("inputs", Array (map goal_input_value (goal_inputs g)));
    ("deliverables", Array (map deliverable_value (goal_deliverables g)));
    ("constraints", object [
       ("permittedEffects", strings (gc_permitted_effects (goal_constraints g)));
       ("forbiddenEffects", strings (gc_forbidden_effects (goal_constraints g)));
       ("permittedResources", strings (gc_permitted_resources (goal_constraints g)))])].

Definition goal_digest `{Sha256} (g : GoalSpec) : Digest := value_digest (goal_to_value g).

(** ** Decoding *)

Inductive GoalDecodeError : Type :=
| GoalUnparsable (s : Stop)
| GoalMissing (name : string)
| GoalObjectiveNotAString
| GoalMalformedInput
| GoalMalformedDeliverable
| GoalMissingConstraint (name : string)
| GoalConstraintNotStrings (name : string).

Definition decode_goal_input (entry : Value) : Result GoalInput GoalDecodeError :=
  match get entry "name", get entry "ref" with
  | Some (Str name), Some (Str reference) =>
      Ok {| goal_input_name := name; goal_input_reference := reference |}
  | _, _ => Err GoalMalformedInput
  end.

Definition decode_deliverable (entry : Value) : Result Deliverable GoalDecodeError :=
  match get entry "name", get entry "kind", get entry "required" with
  | Some (Str name), Some (Str kind), Some (Bool required) =>
      Ok {| deliverable_name := name; deliverable_kind := kind; deliverable_required := required |}
  | _, _, _ => Err GoalMalformedDeliverable
  end.

Definition goal_field (value : Value) (name : string) : Result Value GoalDecodeError :=
  ok_or (get value name) (GoalMissing name).

(** [if let Value::Array(entries) = field]: anything but an array reads as
    nothing. *)
Definition goal_entries {A} (f : Value → Result A GoalDecodeError) (v : Value) :
    Result (list A) GoalDecodeError :=
  match v with
  | Array entries => collect f entries
  | _ => Ok []
  end.

Definition goal_constraint_list (constraints : Value) (name : string) :
    Result (list string) GoalDecodeError :=
  match get constraints name with
  | Some (Array entries) =>
      collect (fun entry => match entry with
                            | Str text => Ok text
                            | _ => Err (GoalConstraintNotStrings name)
                            end) entries
  | _ => Err (GoalMissingConstraint name)
  end.

Definition goal_from_value (value : Value) : Result GoalSpec GoalDecodeError :=
  let? objective_value := goal_field value "objective" in
  let? objective := match objective_value with
                    | Str s => Ok s
                    | _ => Err GoalObjectiveNotAString
                    end in
  let? inputs_value := goal_field value "inputs" in
  let? inputs := goal_entries decode_goal_input inputs_value in
  let? deliverables_value := goal_field value "deliverables" in
  let? deliverables := goal_entries decode_deliverable deliverables_value in
  let? constraints := goal_field value "constraints" in
  let? permitted_effects := goal_constraint_list constraints "permittedEffects" in
  let? forbidden_effects := goal_constraint_list constraints "forbiddenEffects" in
  let? permitted_resources := goal_constraint_list constraints "permittedResources" in
  Ok {| goal_objective := objective; goal_inputs := inputs; goal_deliverables := deliverables;
        goal_constraints := {| gc_permitted_effects := permitted_effects;
                               gc_forbidden_effects := forbidden_effects;
                               gc_permitted_resources := permitted_resources |} |}.

Definition goal_from_canonical_json (text : string) : Result GoalSpec GoalDecodeError :=
  let? value := map_err GoalUnparsable (parse text) in
  goal_from_value value.

(** [GoalSpec::required_deliverable_kinds]. *)
Definition required_deliverable_kinds (g : GoalSpec) : list string :=
  map deliverable_kind (List.filter deliverable_required (goal_deliverables g)).

(** What the Rust types guarantee: every string is UTF-8. *)
Definition wf_goal (g : GoalSpec) : bool :=
  utf8_valid (goal_objective g)
  && forallb (fun i => utf8_valid (goal_input_name i) && utf8_valid (goal_input_reference i))
       (goal_inputs g)
  && forallb (fun d => utf8_valid (deliverable_name d) && utf8_valid (deliverable_kind d))
       (goal_deliverables g)
  && all_valid (gc_permitted_effects (goal_constraints g))
  && all_valid (gc_forbidden_effects (goal_constraints g))
  && all_valid (gc_permitted_resources (goal_constraints g)).

(** ** Lemmas *)

Lemma goal_phase_parse_as_str p : goal_phase_parse (goal_phase_as_str p) = Some p.
Proof. by destruct p. Qed.

Lemma goal_phase_parse_Some text p : goal_phase_parse text = Some p → text = goal_phase_as_str p.
Proof. unfold goal_phase_parse. parse_inv. Qed.

Lemma goal_to_value_wf g : wf_goal g = true → wf_value (goal_to_value g) = true.
Proof.
  unfold wf_goal. rewrite !andb_true_iff. intros (((((Ho & Hi) & Hd) & Hp) & Hf) & Hr).
  unfold goal_to_value. wf_parts; try (by apply wf_strings).
  - eapply forallb_True in Hi; [|done]. split_andb. unfold goal_input_value. wf_parts.
  - eapply forallb_True in Hd; [|done]. split_andb. unfold deliverable_value. wf_parts.
Qed.

(** Reading a list of strings back. *)
Lemma collect_strings {E} (f : Value → Result string E) (l : list string) :
  (∀ s, f (Str s) = Ok s) → collect f (map Str l) = Ok l.
Proof. intros H. apply collect_map. auto. Qed.

Lemma goal_from_to_value g : goal_from_value (goal_to_value g) = Ok g.
Proof.
  unfold goal_from_value, goal_to_value, goal_field, goal_constraint_list, strings.
  get_fields. cbn [ok_or try_bind goal_entries].
  rewrite collect_map by (by intros []). cbn [try_bind].
  rewrite collect_map by (by intros []). cbn [try_bind].
  get_fields. rewrite !collect_strings by done. cbn [try_bind].
  by destruct g as [? ? ? []].
Qed.

Lemma goal_from_canonical g :
  wf_goal g = true → goal_from_canonical_json (to_canonical_bytes (goal_to_value g)) = Ok g.
Proof.
  intros Hg. unfold goal_from_canonical_json. rewrite parse_write by by apply goal_to_value_wf.
  apply goal_from_to_value.
Qed.

(** ** Claims *)

(** a Goal revision stored as canonical JSON reads back as exactly the Goal
    that was stored. *)
Theorem goal_roundtrip g :
  wf_goal g = true → goal_from_canonical_json (to_canonical_bytes (goal_to_value g)) = Ok g.
Proof. apply goal_from_canonical. Qed.

Definition sample_goal : GoalSpec := {|
  goal_objective := "Fix the failing build";
  goal_inputs := [{| goal_input_name := "repository"; goal_input_reference := "repo://app" |}];
  goal_deliverables := [{| deliverable_name := "patch"; deliverable_kind := "code.changeset";
                           deliverable_required := true |}];
  goal_constraints := {| gc_permitted_effects := ["filesystem.write"];
                         gc_forbidden_effects := ["secret.read"];
                         gc_permitted_resources := ["workspace://src/**"] |} |}.

Lemma goal_roundtrip_witness :
  wf_goal sample_goal = true ∧
  goal_from_canonical_json (to_canonical_bytes (goal_to_value sample_goal)) = Ok sample_goal.
Proof. split; [reflexivity | apply goal_roundtrip; reflexivity]. Defined.

(** A stored Goal whose deliverables are not an array decodes, with no
    deliverables at all. *)
Lemma goal_degraded_deliverables :
  goal_from_value (object [
    ("objective", Str "x"); ("inputs", Array []); ("deliverables", Null);
    ("constraints", object [("permittedEffects", Array []); ("forbiddenEffects", Array []);
                            ("permittedResources", Array [])])])
  = Ok {| goal_objective := "x"; goal_inputs := []; goal_deliverables := [];
          goal_constraints := {| gc_permitted_effects := []; gc_forbidden_effects := [];
                                 gc_permitted_resources := [] |} |}.
Proof. reflexivity. Qed.
