(* ===== verification/Task.v ===== *)
(** * Tasks ([pantheon-core/src/planning/task.rs])

    The Task lifecycle phases, the immutable Task specification with its pinned
    acceptance contract, its canonical form and the decoder routing reads it
    back with. *)

From Stdlib Require Import ZArith.
From S2P Require Import Prelude Utf8 Canonical Parse ParseFacts Digest Goal.

(** ** Phases *)

Inductive TaskPhase : Type :=
| Pending | Ready | Active | Waiting | Evaluating | Finalizing
| Succeeded | TaskFailed | Cancelled | Superseded.

#[export] Instance TaskPhase_eq_dec : EqDecision TaskPhase.
Proof. solve_decision. Defined.

Definition task_phase_as_str (p : TaskPhase) : string :=
  match p with
  | Pending => "Pending"
  | Ready => "Ready"
  | Active => "Active"
  | Waiting => "Waiting"
  | Evaluating => "Evaluating"
  | Finalizing => "Finalizing"
  | Succeeded => "Succeeded"
  | TaskFailed => "Failed"
  | Cancelled => "Cancelled"
  | Superseded => "Superseded"
  end.

Definition task_is_terminal (p : TaskPhase) : bool :=
  match p with
  | Succeeded | TaskFailed | Cancelled | Superseded => true
  | _ => false
  end.

Definition requires_no_run (p : TaskPhase) : bool :=
  match p with
  | Ready | Waiting => true
  | _ => false
  end.

Definition task_phase_parse (text : string) : option TaskPhase :=
  if String.eqb text "Pending" then Some Pending
  else if String.eqb text "Ready" then Some Ready
  else if String.eqb text "Active" then Some Active
  else if String.eqb text "Waiting" then Some Waiting
  else if String.eqb text "Evaluating" then Some Evaluating
  else if String.eqb text "Finalizing" then Some Finalizing
  else if String.eqb text "Succeeded" then Some Succeeded
  else if String.eqb text "Failed" then Some TaskFailed
  else if String.eqb text "Cancelled" then Some Cancelled
  else if String.eqb text "Superseded" then Some Superseded
  else None.

(** ** Content *)

Record TaskInput : Type := {
  task_input_name : string;
  task_input_reference : string
}.

Record TaskOutput : Type := {
  output_name : string;
  output_kind : string;
  output_required : bool
}.

Record TaskScope : Type := {
  scope_resources : list string;
  scope_permitted_effects : list string;
  scope_forbidden_effects : list string
}.

Inductive Severity : Type := Required | Advisory.

Definition severity_as_str (s : Severity) : string :=
  match s with
  | Required => "required"
  | Advisory => "advisory"
  end.

Record AcceptanceCriterion : Type := {
  criterion_id : string;
  criterion_statement : string;
  criterion_evaluator_ref : string;
  criterion_evaluator_version : string;
  criterion_severity : Severity
}.

Record AcceptanceContract : Type := {
  acc_criteria : list AcceptanceCriterion;
  acc_evaluator_registry_digest : Digest;
  acc_configuration_activation_sequence : Z
}.

Record TaskSpec : Type := {
  task_type : string;
  task_objective : string;
  task_inputs : list TaskInput;
  task_outputs : list TaskOutput;
  task_competencies : list string;
  task_scope : TaskScope;
  task_acceptance : AcceptanceContract;
  task_goal_id : string;
  task_goal_revision : Z
}.

(** ** Canonical form *)

Definition task_input_value (i : TaskInput) : Value :=
  object [("name", Str (task_input_name i)); ("ref", Str (task_input_reference i))].

Definition task_output_value (o : TaskOutput) : Value :=
  object [("name", Str (output_name o)); ("kind", Str (output_kind o));
          ("required", Bool (output_required o))].

Definition criterion_value (c : AcceptanceCriterion) : Value :=
  object [("id", Str (criterion_id c)); ("statement", Str (criterion_statement c));
          ("evaluatorRef", Str (criterion_evaluator_ref c));
          ("evaluatorVersion", Str (criterion_evaluator_version c));
          ("severity", Str (severity_as_str (criterion_severity c)))].

Definition acceptance_value (t : TaskSpec) : Value :=
  let a := task_acceptance t in
  object [
    ("strategy", Str "all");
    ("criteria", Array (map criterion_value (acc_criteria a)));
    ("evaluatorRegistryDigest", Str (to_display (acc_evaluator_registry_digest a)));
    ("configurationActivationSequence", Integer (acc_configuration_activation_sequence a))].

Definition task_to_value (t : TaskSpec) : Value :=
  object [
    ("type", Str (task_type t));
    ("objective", Str (task_objective t));
    ("inputs", Array (map task_input_value (task_inputs t)));
    ("outputs", Array (map task_output_value (task_outputs t)));
    ("competencies", strings (task_competencies t));
    ("scope", object [
       ("resources", strings (scope_resources (task_scope t)));
       ("permittedEffects", strings (scope_permitted_effects (task_scope t)));
       ("forbiddenEffects", strings (scope_forbidden_effects (task_scope t)))]);
    ("acceptance", acceptance_value t);
    ("goalId", Str (task_goal_id t));
    ("goalRevision", Integer (task_goal_revision t))].

Definition task_digest `{Sha256} (t : TaskSpec) : Digest := value_digest (task_to_value t).
Definition acceptance_digest `{Sha256} (t : TaskSpec) : Digest := value_digest (acceptance_value t).

(** ** Decoding *)

Inductive TaskDecodeError : Type :=
| TaskUnparsable (s : Stop)
| TaskMissing (name : string)
| TaskNotAString (name found : string)
| TaskNotAnInteger (name found : string)
| TaskMissingOrMalformed (name : string)
| TaskNonStringEntry (name found : string)
| TaskMalformedInput
| TaskMalformedOutput
| TaskUnknownSeverity (severity : string)
| TaskCriteriaNotAnArray
| TaskUnsupportedStrategy (strategy : string)
| TaskInvalidRegistryDigest.

Definition entry_string (value : Value) (name : string) : Result string TaskDecodeError :=
  match get value name with
  | Some (Str text) => Ok text
  | Some other => Err (TaskNotAString name (kind other))
  | None => Err (TaskMissing name)
  end.

Definition entry_integer (value : Value) (name : string) : Result Z TaskDecodeError :=
  match get value name with
  | Some (Integer number) => Ok number
  | Some other => Err (TaskNotAnInteger name (kind other))
  | None => Err (TaskMissing name)
  end.

Definition task_string_list (parent : Value) (name : string) :
    Result (list string) TaskDecodeError :=
  match get parent name with
  | Some (Array entries) =>
      collect (fun entry => match entry with
                            | Str text => Ok text
                            | other => Err (TaskNonStringEntry name (kind other))
                            end) entries
  | _ => Err (TaskMissingOrMalformed name)
  end.

Definition decode_task_input (entry : Value) : Result TaskInput TaskDecodeError :=
  match get entry "name", get entry "ref" with
  | Some (Str name), Some (Str reference) =>
      Ok {| task_input_name := name; task_input_reference := reference |}
  | _, _ => Err TaskMalformedInput
  end.

Definition decode_task_output (entry : Value) : Result TaskOutput TaskDecodeError :=
  match get entry "name", get entry "kind", get entry "required" with
  | Some (Str name), Some (Str kind), Some (Bool required) =>
      Ok {| output_name := name; output_kind := kind; output_required := required |}
  | _, _, _ => Err TaskMalformedOutput
  end.

Definition decode_severity (text : string) : Result Severity TaskDecodeError :=
  if String.eqb text "required" then Ok Required
  else if String.eqb text "advisory" then Ok Advisory
  else Err (TaskUnknownSeverity text).

Definition decode_criterion (entry : Value) : Result AcceptanceCriterion TaskDecodeError :=
  let? id := entry_string entry "id" in
  let? statement := entry_string entry "statement" in
  let? evaluator_ref := entry_string entry "evaluatorRef" in
  let? evaluator_version := entry_string entry "evaluatorVersion" in
  let? severity_text := entry_string entry "severity" in
  let? severity := decode_severity severity_text in
  Ok {| criterion_id := id; criterion_statement := statement;
        criterion_evaluator_ref := evaluator_ref;
        criterion_evaluator_version := evaluator_version;
        criterion_severity := severity |}.

Definition decode_acceptance (acceptance : Value) : Result AcceptanceContract TaskDecodeError :=
  let? criteria_value := ok_or (get acceptance "criteria") (TaskMissing "acceptance.criteria") in
  let? criteria := match criteria_value with
                   | Array entries => collect decode_criterion entries
                   | _ => Err TaskCriteriaNotAnArray
                   end in
  let? strategy := entry_string acceptance "strategy" in
  do? (if String.eqb strategy "all" then Ok tt else Err (TaskUnsupportedStrategy strategy)) in
  let? digest_text := entry_string acceptance "evaluatorRegistryDigest" in
  let? digest := ok_or (from_display digest_text) TaskInvalidRegistryDigest in
  let? sequence := entry_integer acceptance "configurationActivationSequence" in
  Ok {| acc_criteria := criteria; acc_evaluator_registry_digest := digest;
        acc_configuration_activation_sequence := sequence |}.

Definition decode_slots {A} (f : Value → Result A TaskDecodeError) (value : Value) (name : string) :
    Result (list A) TaskDecodeError :=
  match get value name with
  | Some (Array entries) => collect f entries
  | _ => Err (TaskMissingOrMalformed name)
  end.

Definition task_from_value (value : Value) : Result TaskSpec TaskDecodeError :=
  let? inputs := decode_slots decode_task_input value "inputs" in
  let? outputs := decode_slots decode_task_output value "outputs" in
  let? scope := ok_or (get value "scope") (TaskMissing "scope") in
  let? acceptance_value := ok_or (get value "acceptance") (TaskMissing "acceptance") in
  let? acceptance := decode_acceptance acceptance_value in
  let? type := entry_string value "type" in
  let? objective := entry_string value "objective" in
  let? competencies := task_string_list value "competencies" in
  let? resources := task_string_list scope "resources" in
  let? permitted_effects := task_string_list scope "permittedEffects" in
  let? forbidden_effects := task_string_list scope "forbiddenEffects" in
  let? goal_id := entry_string value "goalId" in
  let? goal_revision := entry_integer value "goalRevision" in
  Ok {| task_type := type; task_objective := objective; task_inputs := inputs;
        task_outputs := outputs; task_competencies := competencies;
        task_scope := {| scope_resources := resources;
                         scope_permitted_effects := permitted_effects;
                         scope_forbidden_effects := forbidden_effects |};
        task_acceptance := acceptance; task_goal_id := goal_id;
        task_goal_revision := goal_revision |}.

Definition task_from_canonical_json (text : string) : Result TaskSpec TaskDecodeError :=
  let? value := map_err TaskUnparsable (parse text) in
  task_from_value value.

(** What the Rust types guarantee. *)
Definition wf_criterion (c : AcceptanceCriterion) : bool :=
  utf8_valid (criterion_id c) && utf8_valid (criterion_statement c)
  && utf8_valid (criterion_evaluator_ref c) && utf8_valid (criterion_evaluator_version c).

Definition wf_acceptance (a : AcceptanceContract) : bool :=
  forallb wf_criterion (acc_criteria a) && wf_digest (acc_evaluator_registry_digest a)
  && in_i64 (acc_configuration_activation_sequence a).

Definition wf_task_text (t : TaskSpec) : bool :=
  utf8_valid (task_type t) && utf8_valid (task_objective t)
  && forallb (fun i => utf8_valid (task_input_name i) && utf8_valid (task_input_reference i))
       (task_inputs t)
  && forallb (fun o => utf8_valid (output_name o) && utf8_valid (output_kind o)) (task_outputs t)
  && all_valid (task_competencies t) && all_valid (scope_resources (task_scope t))
  && all_valid (scope_permitted_effects (task_scope t))
  && all_valid (scope_forbidden_effects (task_scope t)) && utf8_valid (task_goal_id t).

Definition wf_task (t : TaskSpec) : bool :=
  wf_task_text t && wf_acceptance (task_acceptance t) && in_i64 (task_goal_revision t).

(** ** Lemmas *)

Lemma task_phase_parse_as_str p : task_phase_parse (task_phase_as_str p) = Some p.
Proof. by destruct p. Qed.

Lemma task_phase_parse_Some text p : task_phase_parse text = Some p → text = task_phase_as_str p.
Proof. unfold task_phase_parse. parse_inv. Qed.

Lemma wf_criterion_value c : wf_criterion c = true → wf_value (criterion_value c) = true.
Proof.
  unfold wf_criterion, criterion_value. intros H. split_andb. wf_parts.
  by destruct (criterion_severity c).
Qed.

Lemma wf_acceptance_value t :
  wf_acceptance (task_acceptance t) = true → wf_value (acceptance_value t) = true.
Proof.
  unfold wf_acceptance, acceptance_value. intros H. split_andb. wf_parts.
  apply wf_criterion_value. by eapply forallb_True in H.
Qed.

Lemma task_to_value_wf t : wf_task t = true → wf_value (task_to_value t) = true.
Proof.
  unfold wf_task, wf_task_text. rewrite !andb_true_iff.
  intros [[((((((((Ht & Ho) & Hi) & Hout) & Hc) & Hr) & Hp) & Hf) & Hg) Ha] Hrev].
  pose proof (wf_acceptance_value t Ha).
  unfold task_to_value. wf_parts; try (by apply wf_strings).
  - eapply forallb_True in Hi; [|done]. split_andb. unfold task_input_value. wf_parts.
  - eapply forallb_True in Hout; [|done]. split_andb. unfold task_output_value. wf_parts.
Qed.

Lemma decode_criterion_value c : decode_criterion (criterion_value c) = Ok c.
Proof. by destruct c as [? ? ? ? []]. Qed.

Lemma decode_acceptance_value t :
  wf_acceptance (task_acceptance t) = true →
  decode_acceptance (acceptance_value t) = Ok (task_acceptance t).
Proof.
  unfold wf_acceptance. intros H. split_andb.
  unfold decode_acceptance, acceptance_value, entry_string, entry_integer. get_fields.
  cbn [ok_or try_bind]. rewrite collect_map by (intros; apply decode_criterion_value).
  cbn [try_bind String.eqb Ascii.eqb Bool.eqb].
  rewrite from_display_to_display by done. cbn. by destruct (task_acceptance t).
Qed.

Lemma task_from_to_value t : wf_task t = true → task_from_value (task_to_value t) = Ok t.
Proof.
  unfold wf_task. intros H. split_andb.
  unfold task_from_value, task_to_value, decode_slots, task_string_list, entry_string,
    entry_integer, strings. get_fields.
  rewrite collect_map by (by intros []). cbn [try_bind].
  rewrite collect_map by (by intros []). cbn [try_bind ok_or].
  rewrite decode_acceptance_value by done. cbn [try_bind]. get_fields.
  rewrite !collect_strings by done. cbn [try_bind].
  by destruct t as [? ? ? ? ? [] ? ? ?].
Qed.

Lemma task_from_canonical t :
  wf_task t = true → task_from_canonical_json (to_canonical_bytes (task_to_value t)) = Ok t.
Proof.
  intros Ht. unfold task_from_canonical_json. rewrite parse_write by by apply task_to_value_wf.
  by apply task_from_to_value.
Qed.

(** ** Claims *)

(** an immutable Task specification stored as canonical JSON, with its pinned
    acceptance contract and registry digest, reads back as exactly the
    specification that was stored. *)
Theorem task_roundtrip t :
  wf_task t = true → task_from_canonical_json (to_canonical_bytes (task_to_value t)) = Ok t.
Proof. apply task_from_canonical. Qed.

Definition sample_task : TaskSpec := {|
  task_type := "code.change"; task_objective := "Fix the failing build";
  task_inputs := [{| task_input_name := "repository"; task_input_reference := "repo://app" |}];
  task_outputs := [{| output_name := "patch"; output_kind := "code.changeset"; output_required := true |}];
  task_competencies := ["code.editing"];
  task_scope := {| scope_resources := ["workspace://src/**"];
                   scope_permitted_effects := ["filesystem.write"];
                   scope_forbidden_effects := [] |};
  task_acceptance := {|
    acc_criteria := [{| criterion_id := "tests"; criterion_statement := "Checks pass";
                        criterion_evaluator_ref := "check://project/unit-tests";
                        criterion_evaluator_version := "unit-tests@1";
                        criterion_severity := Required |}];
    acc_evaluator_registry_digest := @digest_of prefix_hash "registry";
    acc_configuration_activation_sequence := 3 |};
  task_goal_id := "goal-1"; task_goal_revision := 1 |}.

Lemma task_roundtrip_witness :
  wf_task sample_task = true ∧
  task_from_canonical_json (to_canonical_bytes (task_to_value sample_task)) = Ok sample_task.
Proof. split; [vm_compute; reflexivity | apply task_roundtrip; vm_compute; reflexivity]. Defined.
