(* ===== verification/Proposal.v ===== *)
(** * Proposals and the DIRECT planner
      ([pantheon-core/src/planning/proposal.rs], [direct.rs])

    A proposal names evaluators by logical reference only; it is evidence, and
    the validator decides whether it becomes a specification.  The planner is a
    pure function of its input. *)

From Stdlib Require Import ZArith.
From S2P Require Import Prelude Utf8 Canonical Parse ParseFacts Digest Goal.

Record ProposedCriterion : Type := {
  pc_id : string;
  pc_statement : string;
  pc_evaluator_ref : string;
  pc_required : bool
}.

Record ProposedTask : Type := {
  pt_task_type : string;
  pt_objective : string;
  pt_inputs : list (string * string);
  pt_outputs : list (string * string * bool);
  pt_competencies : list string;
  pt_resources : list string;
  pt_permitted_effects : list string;
  pt_forbidden_effects : list string;
  pt_criteria : list ProposedCriterion
}.

(** Edges are pairs of [usize] indices. *)
Record Proposal : Type := {
  proposal_tasks : list ProposedTask;
  proposal_edges : list (Z * Z)
}.

Definition proposed_input_value (i : string * string) : Value :=
  object [("name", Str i.1); ("ref", Str i.2)].

Definition proposed_output_value (o : string * string * bool) : Value :=
  object [("name", Str o.1.1); ("kind", Str o.1.2); ("required", Bool o.2)].

Definition proposed_criterion_value (c : ProposedCriterion) : Value :=
  object [("id", Str (pc_id c)); ("statement", Str (pc_statement c));
          ("evaluatorRef", Str (pc_evaluator_ref c)); ("required", Bool (pc_required c))].

Definition proposed_task_value (t : ProposedTask) : Value :=
  object [
    ("type", Str (pt_task_type t));
    ("objective", Str (pt_objective t));
    ("inputs", Array (map proposed_input_value (pt_inputs t)));
    ("outputs", Array (map proposed_output_value (pt_outputs t)));
    ("competencies", strings (pt_competencies t));
    ("scope", object [
       ("resources", strings (pt_resources t));
       ("permittedEffects", strings (pt_permitted_effects t));
       ("forbiddenEffects", strings (pt_forbidden_effects t))]);
    ("criteria", Array (map proposed_criterion_value (pt_criteria t)))].

Definition edge_value (e : Z * Z) : Value :=
  object [("upstream", Integer (i64_saturating e.1)); ("downstream", Integer (i64_saturating e.2))].

Definition proposal_to_value (p : Proposal) : Value :=
  object [("tasks", Array (map proposed_task_value (proposal_tasks p)));
          ("edges", Array (map edge_value (proposal_edges p)))].

Definition proposal_digest `{Sha256} (p : Proposal) : Digest := value_digest (proposal_to_value p).

(** ** The planner *)

Definition PLANNER_IMPLEMENTATION : string := "pantheon-direct-planner".
Definition PLANNER_VERSION : string := "v1".
Definition MVP_EVALUATOR_REF : string := "check://project/unit-tests".

Inductive Trigger : Type := Initial.

Definition trigger_as_str (t : Trigger) : string :=
  match t with
  | Initial => "initial"
  end.

Record PlanningInput : Type := {
  pi_goal_id : string;
  pi_goal_revision : Z;
  pi_goal : GoalSpec;
  pi_expected_graph_revision : Z;
  pi_configuration_activation_sequence : Z;
  pi_trigger : Trigger
}.

Definition planning_input_value (i : PlanningInput) : Value :=
  object [
    ("goalId", Str (pi_goal_id i));
    ("goalRevision", Integer (pi_goal_revision i));
    ("goalSpec", goal_to_value (pi_goal i));
    ("expectedGraphRevision", Integer (pi_expected_graph_revision i));
    ("configurationActivationSequence", Integer (pi_configuration_activation_sequence i));
    ("trigger", Str (trigger_as_str (pi_trigger i)));
    ("plannerImplementation", Str PLANNER_IMPLEMENTATION);
    ("plannerVersion", Str PLANNER_VERSION)].

(** [PlanningInput::digest]. *)
Definition planning_input_digest `{Sha256} (i : PlanningInput) : Digest :=
  value_digest (planning_input_value i).

Definition plan (input : PlanningInput) : Proposal :=
  let goal := pi_goal input in
  let proposed := {|
    pt_task_type := "code.change";
    pt_objective := goal_objective goal;
    pt_inputs := map (fun i => (goal_input_name i, goal_input_reference i)) (goal_inputs goal);
    pt_outputs := map (fun d => (deliverable_name d, deliverable_kind d, deliverable_required d))
                    (goal_deliverables goal);
    pt_competencies := ["code.analysis"; "code.editing"; "test.execution"];
    pt_resources := gc_permitted_resources (goal_constraints goal);
    pt_permitted_effects := gc_permitted_effects (goal_constraints goal);
    pt_forbidden_effects := gc_forbidden_effects (goal_constraints goal);
    pt_criteria := [{|
      pc_id := "acceptance-checks-pass";
      pc_statement := "The configured deterministic acceptance checks pass.";
      pc_evaluator_ref := MVP_EVALUATOR_REF;
      pc_required := true |}] |} in
  {| proposal_tasks := [proposed]; proposal_edges := [] |}.

(** What the Rust types guarantee of a planning input. *)
Definition wf_planning_input (i : PlanningInput) : bool :=
  utf8_valid (pi_goal_id i) && in_i64 (pi_goal_revision i) && wf_goal (pi_goal i)
  && in_i64 (pi_expected_graph_revision i) && in_i64 (pi_configuration_activation_sequence i).

(** ** Lemmas *)

Lemma planning_input_value_wf i :
  wf_planning_input i = true → wf_value (planning_input_value i) = true.
Proof.
  unfold wf_planning_input, planning_input_value. intros H. split_andb.
  pose proof (goal_to_value_wf (pi_goal i)) as Hg. rewrite H2 in Hg. specialize (Hg eq_refl).
  wf_parts. by destruct (pi_trigger i).
Qed.

Lemma goal_to_value_inj g1 g2 : goal_to_value g1 = goal_to_value g2 → g1 = g2.
Proof.
  intros H. pose proof (goal_from_to_value g1) as H1. rewrite H, goal_from_to_value in H1.
  by injection H1.
Qed.

Lemma planning_input_value_inj i j : planning_input_value i = planning_input_value j → i = j.
Proof.
  unfold planning_input_value. intros H.
  field_eq H "goalId". field_eq H "goalRevision". field_eq H "goalSpec".
  field_eq H "expectedGraphRevision". field_eq H "configurationActivationSequence".
  apply goal_to_value_inj in E1. destruct i as [? ? ? ? ? []], j as [? ? ? ? ? []]; cbn in *.
  by subst.
Qed.

(** The planner's criterion and competencies are never empty. *)
Lemma plan_shape i :
  ∃ t, proposal_tasks (plan i) = [t] ∧ proposal_edges (plan i) = [] ∧
       pt_competencies t ≠ [] ∧ pt_criteria t ≠ [].
Proof. eexists. repeat split; discriminate. Qed.
