(* ===== verification/Validate.v ===== *)
(** * The planner-authority boundary
      ([pantheon-core/src/planning/validate.rs], [evaluators.rs])

    [validate] turns a proposal into a [Materializable], the only thing the
    store writes, after checking it against authoritative facts.  The evaluator
    resolver is the interface [EvaluatorResolver]; [registry_resolver] is the
    implementation that reads a stored evaluators component. *)

From Stdlib Require Import ZArith.
From S2P Require Import Prelude Utf8 Canonical Parse ParseFacts Digest Goal Task Proposal.

(** The texts of the errors are not modelled; what each one names is. *)
Inductive PlanError : Type :=
| ShapeTasks (found : nat)
| ShapeEdges (found : nat)
| InvalidValue (path : string)
| UnknownEvaluator (reference : string)
| EffectNotPermitted (effect : string)
| EffectForbidden (effect : string)
| ResourceOutsideScope (resource : string)
| DeliverableNotCovered (name kind : string)
| ForbiddenTaskContent (description reference : string).

Definition plan_error_kind (e : PlanError) : string :=
  match e with
  | ShapeTasks _ | ShapeEdges _ => "shape"
  | InvalidValue _ => "invalid-value"
  | UnknownEvaluator _ => "unknown-evaluator"
  | EffectNotPermitted _ | EffectForbidden _ | ResourceOutsideScope _ => "scope-escalation"
  | DeliverableNotCovered _ _ => "deliverable-not-covered"
  | ForbiddenTaskContent _ _ => "forbidden-task-content"
  end.

(** [dyn EvaluatorResolver]: a trait object is its method. *)
Record EvaluatorResolver : Type := { resolve : string → option string }.

Record Authority : Type := {
  au_goal : GoalSpec;
  au_goal_id : string;
  au_goal_revision : Z;
  au_evaluators : EvaluatorResolver;
  au_evaluator_registry_digest : Digest;
  au_configuration_activation_sequence : Z
}.

Record Materializable : Type := {
  mat_spec : TaskSpec;
  mat_proposal_digest : Digest;
  mat_goal_revision : Z;
  mat_goal_digest : Digest
}.

Definition FORBIDDEN_PREFIXES : list (string * string) := [
  ("agent://", "a Logical Agent assignment");
  ("backend://", "a backend assignment");
  ("model://", "a provider or model assignment");
  ("runtime://", "a runtime assignment");
  ("secret://", "credential material");
  ("run://", "a Run reference");
  ("attempt://", "an Attempt reference");
  ("sandbox://", "a Sandbox reference")].

Definition reject_reference (reference : string) : Result unit PlanError :=
  for_each (fun p => if starts_with p.1 reference
                     then Err (ForbiddenTaskContent p.2 reference) else Ok tt)
    FORBIDDEN_PREFIXES.

Definition reject_forbidden_content (task : ProposedTask) : Result unit PlanError :=
  do? for_each reject_reference (map snd (pt_inputs task)) in
  for_each reject_reference (pt_resources task).

Definition check_effect (goal : GoalSpec) (effect : string) : Result unit PlanError :=
  if negb (contains (gc_permitted_effects (goal_constraints goal)) effect)
  then Err (EffectNotPermitted effect)
  else if contains (gc_forbidden_effects (goal_constraints goal)) effect
  then Err (EffectForbidden effect)
  else Ok tt.

Definition check_resource (goal : GoalSpec) (resource : string) : Result unit PlanError :=
  if negb (contains (gc_permitted_resources (goal_constraints goal)) resource)
  then Err (ResourceOutsideScope resource) else Ok tt.

Definition covers (task : ProposedTask) (d : Deliverable) : bool :=
  existsb (fun o => o.2 && String.eqb o.1.2 (deliverable_kind d)) (pt_outputs task).

Definition check_deliverable (task : ProposedTask) (d : Deliverable) : Result unit PlanError :=
  if negb (deliverable_required d) then Ok tt
  else if negb (covers task d)
  then Err (DeliverableNotCovered (deliverable_name d) (deliverable_kind d)) else Ok tt.

(** Pins the version the active configuration resolves a criterion to. *)
Definition pin_criterion (evaluators : EvaluatorResolver) (c : ProposedCriterion) :
    Result AcceptanceCriterion PlanError :=
  let? version := ok_or (resolve evaluators (pc_evaluator_ref c))
                    (UnknownEvaluator (pc_evaluator_ref c)) in
  Ok {| criterion_id := pc_id c; criterion_statement := pc_statement c;
        criterion_evaluator_ref := pc_evaluator_ref c;
        criterion_evaluator_version := version;
        criterion_severity := if pc_required c then Required else Advisory |}.

Definition build_spec (task : ProposedTask) (authority : Authority)
    (criteria : list AcceptanceCriterion) : TaskSpec := {|
  task_type := pt_task_type task;
  task_objective := pt_objective task;
  task_inputs := map (fun i => {| task_input_name := i.1; task_input_reference := i.2 |})
                   (pt_inputs task);
  task_outputs := map (fun o => {| output_name := o.1.1; output_kind := o.1.2;
                                   output_required := o.2 |}) (pt_outputs task);
  task_competencies := pt_competencies task;
  task_scope := {| scope_resources := pt_resources task;
                   scope_permitted_effects := pt_permitted_effects task;
                   scope_forbidden_effects := pt_forbidden_effects task |};
  task_acceptance := {| acc_criteria := criteria;
                        acc_evaluator_registry_digest := au_evaluator_registry_digest authority;
                        acc_configuration_activation_sequence :=
                          au_configuration_activation_sequence authority |};
  task_goal_id := au_goal_id authority;
  task_goal_revision := au_goal_revision authority |}.

(** The checks of the one task of the proposal, in the code's order. *)
Definition check_task (task : ProposedTask) (authority : Authority) :
    Result (list AcceptanceCriterion) PlanError :=
  if is_empty (trim (pt_task_type task)) then Err (InvalidValue "task.type")
  else if is_empty (trim (pt_objective task)) then Err (InvalidValue "task.objective")
  else if Nat.eqb (length (pt_competencies task)) 0 then Err (InvalidValue "task.competencies")
  else if Nat.eqb (length (pt_criteria task)) 0 then Err (InvalidValue "task.criteria")
  else
    do? reject_forbidden_content task in
    do? for_each (check_effect (au_goal authority)) (pt_permitted_effects task) in
    do? for_each (check_resource (au_goal authority)) (pt_resources task) in
    do? for_each (check_deliverable task) (goal_deliverables (au_goal authority)) in
    collect (pin_criterion (au_evaluators authority)) (pt_criteria task).

Definition validate `{Sha256} (proposal : Proposal) (authority : Authority) :
    Result Materializable PlanError :=
  match proposal_tasks proposal with
  | [task] =>
      if negb (Nat.eqb (length (proposal_edges proposal)) 0)
      then Err (ShapeEdges (length (proposal_edges proposal)))
      else
        let? criteria := check_task task authority in
        Ok {| mat_spec := build_spec task authority criteria;
              mat_proposal_digest := proposal_digest proposal;
              mat_goal_revision := au_goal_revision authority;
              mat_goal_digest := goal_digest (au_goal authority) |}
  | tasks => Err (ShapeTasks (length tasks))
  end.

(** ** The stored registry *)

Record RegistryResolver : Type := { registry_entries : list (string * string) }.

(** An entry without two string fields is skipped. *)
Definition registry_entry (entry : Value) : option (string * string) :=
  match get entry "ref", get entry "currentVersion" with
  | Some (Str reference), Some (Str version) => Some (reference, version)
  | _, _ => None
  end.

Definition registry_from_canonical_json (text : string) : Result RegistryResolver Stop :=
  let? value := parse text in
  Ok {| registry_entries :=
          match get value "refs" with
          | Some (Array refs) => omap registry_entry refs
          | _ => []
          end |}.

Definition registry_len (r : RegistryResolver) : nat := length (registry_entries r).

(** [impl EvaluatorResolver for RegistryResolver]. *)
Definition registry_resolver (r : RegistryResolver) : EvaluatorResolver := {|
  resolve reference :=
    snd <$> find_first (fun e => String.eqb e.1 reference) (registry_entries r) |}.

(** ** What the checks decide *)

Lemma reject_reference_Ok r :
  reject_reference r = Ok tt ↔
  ∀ p, p ∈ FORBIDDEN_PREFIXES → starts_with p.1 r = false.
Proof.
  unfold reject_reference. rewrite for_each_Ok.
  split; intros H p Hp; specialize (H p Hp); by destruct (starts_with p.1 r).
Qed.

Lemma reject_forbidden_content_Ok t :
  reject_forbidden_content t = Ok tt ↔
  ∀ r p, r ∈ map snd (pt_inputs t) ++ pt_resources t → p ∈ FORBIDDEN_PREFIXES →
    starts_with p.1 r = false.
Proof.
  unfold reject_forbidden_content. rewrite try_bind_Ok. setoid_rewrite elem_of_app. split.
  - intros ([] & H1 & H2) r p [Hr|Hr] Hp;
      [rewrite for_each_Ok in H1; apply H1 in Hr | rewrite for_each_Ok in H2; apply H2 in Hr];
      by eapply reject_reference_Ok in Hr.
  - intros H. exists tt. rewrite !for_each_Ok. setoid_rewrite reject_reference_Ok. naive_solver.
Qed.

Lemma check_effect_Ok g e :
  check_effect g e = Ok tt ↔
  e ∈ gc_permitted_effects (goal_constraints g) ∧ e ∉ gc_forbidden_effects (goal_constraints g).
Proof.
  unfold check_effect. rewrite <-contains_true, <-contains_false.
  destruct (contains _ e), (contains _ e); naive_solver.
Qed.

Lemma check_resource_Ok g r :
  check_resource g r = Ok tt ↔ r ∈ gc_permitted_resources (goal_constraints g).
Proof. unfold check_resource. rewrite <-contains_true. by destruct (contains _ r). Qed.

Lemma check_deliverable_Ok t d :
  check_deliverable t d = Ok tt ↔
  (deliverable_required d = true →
   ∃ name, (name, deliverable_kind d, true) ∈ pt_outputs t).
Proof.
  unfold check_deliverable. destruct (deliverable_required d); cbn; [|naive_solver].
  assert (covers t d = true ↔ ∃ name, (name, deliverable_kind d, true) ∈ pt_outputs t) as <-.
  { unfold covers. rewrite existsb_True. split.
    - intros ([[n k] b] & Hin & H). cbn in H. split_andb. subst.
      apply String.eqb_eq in H0 as ->. eauto.
    - intros (n & Hin). exists (n, deliverable_kind d, true). cbn. by rewrite String.eqb_refl. }
  destruct (covers t d); naive_solver.
Qed.

Lemma pin_criterion_Ok ev c a :
  pin_criterion ev c = Ok a ↔
  resolve ev (pc_evaluator_ref c) = Some (criterion_evaluator_version a) ∧
  criterion_id a = pc_id c ∧ criterion_statement a = pc_statement c ∧
  criterion_evaluator_ref a = pc_evaluator_ref c ∧
  criterion_severity a = (if pc_required c then Required else Advisory).
Proof.
  unfold pin_criterion. destruct (resolve ev (pc_evaluator_ref c)) as [v|] eqn:E; cbn.
  - destruct a. split; [intros [= <- <- <- <- <-]; by repeat split|]. cbn. naive_solver.
  - naive_solver.
Qed.

(** ** What the boundary admits

    The declarative reading of the contract: one task, no edges, no blank
    identity, no execution identity smuggled in, nothing beyond the Goal's
    ceiling, every required deliverable covered, every criterion pinned. *)
Record admissible (task : ProposedTask) (a : Authority) (cs : list AcceptanceCriterion) : Prop := {
  adm_type : forallb char_is_whitespace (chars (pt_task_type task)) = false;
  adm_objective : forallb char_is_whitespace (chars (pt_objective task)) = false;
  adm_competencies : pt_competencies task ≠ [];
  adm_criteria : pt_criteria task ≠ [];
  adm_content : ∀ r p, r ∈ map snd (pt_inputs task) ++ pt_resources task →
    p ∈ FORBIDDEN_PREFIXES → starts_with p.1 r = false;
  adm_effects : ∀ e, e ∈ pt_permitted_effects task →
    e ∈ gc_permitted_effects (goal_constraints (au_goal a)) ∧
    e ∉ gc_forbidden_effects (goal_constraints (au_goal a));
  adm_resources : ∀ r, r ∈ pt_resources task →
    r ∈ gc_permitted_resources (goal_constraints (au_goal a));
  adm_deliverables : ∀ d, d ∈ goal_deliverables (au_goal a) → deliverable_required d = true →
    ∃ name, (name, deliverable_kind d, true) ∈ pt_outputs task;
  adm_pinned : Forall2 (fun c pinned =>
    resolve (au_evaluators a) (pc_evaluator_ref c) = Some (criterion_evaluator_version pinned) ∧
    criterion_id pinned = pc_id c ∧ criterion_statement pinned = pc_statement c ∧
    criterion_evaluator_ref pinned = pc_evaluator_ref c ∧
    criterion_severity pinned = (if pc_required c then Required else Advisory))
    (pt_criteria task) cs
}.

Lemma length_eqb_0 {A} (l : list A) : Nat.eqb (length l) 0 = false ↔ l ≠ [].
Proof. by destruct l. Qed.

Lemma check_task_Ok task a cs : check_task task a = Ok cs ↔ admissible task a cs.
Proof.
  unfold check_task. rewrite !trim_is_empty. split.
  - intros H. repeat (case_match; [discriminate|]).
    apply try_bind_Ok in H as ([] & Hf & H). apply try_bind_Ok in H as ([] & He & H).
    apply try_bind_Ok in H as ([] & Hr & H). apply try_bind_Ok in H as ([] & Hd & H).
    rewrite reject_forbidden_content_Ok in Hf. rewrite for_each_Ok in He. rewrite for_each_Ok in Hr. rewrite for_each_Ok in Hd.
    apply collect_Ok in H. split; try done.
    + by apply length_eqb_0.
    + by apply length_eqb_0.
    + intros e Hin. by apply check_effect_Ok, He.
    + intros r Hin. by apply check_resource_Ok, Hr.
    + intros d Hin. by apply check_deliverable_Ok, Hd.
    + eapply Forall2_impl; [exact H|]. intros c p. apply pin_criterion_Ok.
  - intros [-> -> Hc%length_eqb_0 Ha%length_eqb_0 Hf He Hr Hd Hp]. rewrite Hc, Ha.
    rewrite (proj2 (reject_forbidden_content_Ok task) Hf). cbn [try_bind].
    rewrite (proj2 (for_each_Ok _ _)) by (intros; by apply check_effect_Ok, He). cbn [try_bind].
    rewrite (proj2 (for_each_Ok _ _)) by (intros; by apply check_resource_Ok, Hr). cbn [try_bind].
    rewrite (proj2 (for_each_Ok _ _)) by (intros ? ?; by apply check_deliverable_Ok, Hd).
    cbn [try_bind]. apply collect_Ok. eapply Forall2_impl; [exact Hp|].
    intros c p. apply pin_criterion_Ok.
Qed.

Section Boundary.
Context `{Sha256}.

Lemma validate_Ok p a m :
  validate p a = Ok m ↔
  ∃ task cs, proposal_tasks p = [task] ∧ proposal_edges p = [] ∧ admissible task a cs ∧
    m = {| mat_spec := build_spec task a cs; mat_proposal_digest := proposal_digest p;
           mat_goal_revision := au_goal_revision a; mat_goal_digest := goal_digest (au_goal a) |}.
Proof.
  unfold validate. split.
  - intros Hv. destruct (proposal_tasks p) as [|task [|? ?]]; [done| |done].
    destruct (proposal_edges p) eqn:He; [|done]. cbn [length Nat.eqb negb] in Hv.
    apply try_bind_Ok in Hv as (cs & Hc%check_task_Ok & [= <-]). eauto 10.
  - intros (task & cs & -> & -> & Hc%check_task_Ok & ->). cbn [length Nat.eqb negb].
    by rewrite Hc.
Qed.

(** The planner's own task, against the Goal it was planned from. *)
Lemma plan_admissible i a :
  pi_goal i = au_goal a →
  (∃ m, validate (plan i) a = Ok m) ↔
  let g := au_goal a in
  forallb char_is_whitespace (chars (goal_objective g)) = false ∧
  (∀ r p, r ∈ map goal_input_reference (goal_inputs g)
               ++ gc_permitted_resources (goal_constraints g) →
     p ∈ FORBIDDEN_PREFIXES → starts_with p.1 r = false) ∧
  (∀ e, e ∈ gc_permitted_effects (goal_constraints g) →
     e ∉ gc_forbidden_effects (goal_constraints g)) ∧
  is_Some (resolve (au_evaluators a) MVP_EVALUATOR_REF).
Proof.
  intros Hg. setoid_rewrite validate_Ok. cbn zeta. split.
  - intros (m & task & cs & [= <-] & _ & [_ Ho _ _ Hf He _ _ Hp] & _). rewrite Hg in *.
    cbn in *. rewrite map_map in Hf. repeat split; [done|done|naive_solver|].
    inversion Hp as [|c pinned ? ? [Hres _]]; subst. eauto.
  - intros (Ho & Hf & He & [v Hv]). eexists. eexists. eexists [_].
    split; [done|]. split; [done|]. split; [|done]. rewrite <-Hg in *.
    split; cbn; rewrite <-?Hg; try done.
    + by rewrite map_map.
    + intros e Hin. split; [done | by apply He].
    + intros d Hin Hreq. exists (deliverable_name d). rewrite <-Hreq.
      apply list_elem_of_In, in_map_iff. exists d. split; [done | by apply list_elem_of_In].
    + constructor; [|constructor]. cbn.
      instantiate (1 := {| criterion_id := _; criterion_statement := _;
        criterion_evaluator_ref := _; criterion_evaluator_version := v;
        criterion_severity := _ |}). cbn. by repeat split.
Qed.
End Boundary.

(** ** Claims *)

(** C2: the planner-authority boundary admits a proposal exactly when it is one
    task without edges that names a type and an objective, carries no execution
    identity, stays inside the Goal's effects and resources, covers every
    required deliverable and pins every criterion to the version the active
    registry resolves; what it returns is that task, bound to the authoritative
    Goal. *)
Theorem validate_admits_exactly `{Sha256} p a m :
  validate p a = Ok m ↔
  ∃ task cs, proposal_tasks p = [task] ∧ proposal_edges p = [] ∧ admissible task a cs ∧
    m = {| mat_spec := build_spec task a cs; mat_proposal_digest := proposal_digest p;
           mat_goal_revision := au_goal_revision a; mat_goal_digest := goal_digest (au_goal a) |}.
Proof. apply validate_Ok. Qed.

(** the DIRECT planner's proposal for a Goal passes validation against that
    Goal exactly when the Goal itself is sound: a stated objective, no execution
    identity among its inputs and resources, no effect both permitted and
    forbidden, and a resolvable acceptance check.  Deliverable coverage and the
    scope ceiling always hold of a planned task. *)
Theorem plan_validates `{Sha256} i a :
  pi_goal i = au_goal a →
  (∃ m, validate (plan i) a = Ok m) ↔
  let g := au_goal a in
  forallb char_is_whitespace (chars (goal_objective g)) = false ∧
  (∀ r p, r ∈ map goal_input_reference (goal_inputs g)
               ++ gc_permitted_resources (goal_constraints g) →
     p ∈ FORBIDDEN_PREFIXES → starts_with p.1 r = false) ∧
  (∀ e, e ∈ gc_permitted_effects (goal_constraints g) →
     e ∉ gc_forbidden_effects (goal_constraints g)) ∧
  is_Some (resolve (au_evaluators a) MVP_EVALUATOR_REF).
Proof. apply plan_admissible. Qed.

Definition sample_registry : RegistryResolver :=
  {| registry_entries := [(MVP_EVALUATOR_REF, "unit-tests@1")] |}.

Definition sample_authority : Authority := {|
  au_goal := sample_goal; au_goal_id := "goal-1"; au_goal_revision := 1;
  au_evaluators := registry_resolver sample_registry;
  au_evaluator_registry_digest := @digest_of prefix_hash "registry";
  au_configuration_activation_sequence := 3 |}.

Definition sample_input : PlanningInput := {|
  pi_goal_id := "goal-1"; pi_goal_revision := 1; pi_goal := sample_goal;
  pi_expected_graph_revision := 0; pi_configuration_activation_sequence := 3;
  pi_trigger := Initial |}.

(** The sample Goal plans and validates, so it satisfies the conditions. *)
Lemma plan_validates_witness :
  pi_goal sample_input = au_goal sample_authority ∧
  is_Some (resolve (au_evaluators sample_authority) MVP_EVALUATOR_REF).
Proof.
  split; [reflexivity|].
  destruct (proj1 (@plan_validates prefix_hash sample_input sample_authority eq_refl))
    as (_ & _ & _ & Hr); [|exact Hr].
  eexists. vm_compute. reflexivity.
Defined.
