(* ===== verification/Artifact.v ===== *)
(** * Artifacts ([pantheon-core/src/artifact.rs])

    Repository paths as raw bytes, their lossless manifest spelling, changed-path
    entries, the captured revision state and the [code.changeset] manifest. *)

From Stdlib Require Import ZArith NArith Lia Ascii.
From S2P Require Import Prelude Utf8 Canonical Parse ParseFacts Digest.

Definition CHANGESET_SCHEMA_VERSION : Z := 1.
Definition CODE_CHANGESET_KIND : string := "code.changeset".
Definition MAX_PATH_BYTES : nat := 4096.


Inductive EntryKind : Type := Regular | Executable | Symlink.

Definition entry_kind_as_str (k : EntryKind) : string :=
  match k with
  | Regular => "regular"
  | Executable => "executable"
  | Symlink => "symlink"
  end.

Definition entry_kind_parse (text : string) : option EntryKind :=
  if String.eqb text "regular" then Some Regular
  else if String.eqb text "executable" then Some Executable
  else if String.eqb text "symlink" then Some Symlink
  else None.

(** One side of a changed path; [size] is a [u64]. *)
Inductive EntryState : Type :=
| Absent
| Present (kind : EntryKind) (blob : Digest) (size : Z).

Inductive Operation : Type := Add | Modify | Delete.

Definition operation_as_str (o : Operation) : string :=
  match o with
  | Add => "add"
  | Modify => "modify"
  | Delete => "delete"
  end.

Inductive ChangesetError : Type :=
| InvalidPath (value reason : string)
| OperationStateMismatch (operation : Operation) (before after : EntryState).

(** ** Paths *)

Record RepositoryPath : Type := mk_path { path_bytes : string }.

#[export] Instance RepositoryPath_eq_dec : EqDecision RepositoryPath.
Proof. solve_decision. Defined.

Definition percent : string := String "037"%char EmptyString.

Definition encode_path (bytes : string) : string :=
  if utf8_valid bytes && negb (contains_byte "037"%char bytes) then bytes
  else percent +:+ hex_of_bytes bytes.

Definition decode_manifest_string (text : string) : option string :=
  match strip_prefix percent text with
  | None => Some text
  | Some hex =>
      if negb (Nat.even (String.length hex)) then None
      else bytes_of_hex (Nat.div2 (String.length hex)) hex
  end.

(** The rules of one component. *)
Definition refused_component (component : string) : option string :=
  if String.eqb component EmptyString then Some "it has an empty path component"
  else if String.eqb component "." then Some "a component is `.`"
  else if String.eqb component ".." then Some "a component is `..`"
  else if Nat.ltb 255 (String.length component) then Some "a component is longer than 255 bytes"
  else None.

Definition path_from_bytes (bytes : string) : Result RepositoryPath ChangesetError :=
  let refuse reason := Err (InvalidPath (encode_path bytes) reason) in
  if String.eqb bytes EmptyString then refuse "it is empty"
  else if Nat.ltb MAX_PATH_BYTES (String.length bytes) then refuse "it is longer than 4096 bytes"
  else if contains_byte "000"%char bytes then refuse "it contains a NUL byte"
  else if starts_with "/" bytes then refuse "it is absolute"
  else match find_map refused_component (split_on "/"%char bytes) with
       | Some reason => refuse reason
       | None => Ok (mk_path bytes)
       end.

Definition path_from_manifest_string (text : string) : Result RepositoryPath ChangesetError :=
  let? bytes := ok_or (decode_manifest_string text)
                  (InvalidPath text "it is not a valid manifest spelling") in
  path_from_bytes bytes.

Definition to_manifest_string (p : RepositoryPath) : string := encode_path (path_bytes p).

Definition sort_key (p : RepositoryPath) : string := path_bytes p.

(** ** Entries *)

Definition entry_state_value (s : EntryState) : Value :=
  match s with
  | Absent => object [("state", Str "absent")]
  | Present k blob size => object [
      ("state", Str "present");
      ("mode", Str (entry_kind_as_str k));
      ("blob", Str (to_display blob));
      ("size", Integer (u64_as_i64 size))]
  end.

Record ChangesetEntry : Type := {
  ce_path : RepositoryPath;
  ce_operation : Operation;
  ce_before : EntryState;
  ce_after : EntryState
}.

Definition present (s : EntryState) : bool :=
  match s with
  | Present _ _ _ => true
  | Absent => false
  end.

(** [ChangesetEntry::new]. *)
Definition changeset_entry_new (path : RepositoryPath) (operation : Operation)
    (before after : EntryState) : Result ChangesetEntry ChangesetError :=
  let accepted := match operation with
                  | Add => negb (present before) && present after
                  | Modify => present before && present after
                  | Delete => present before && negb (present after)
                  end in
  if accepted
  then Ok {| ce_path := path; ce_operation := operation; ce_before := before; ce_after := after |}
  else Err (OperationStateMismatch operation before after).

Definition changeset_entry_value (e : ChangesetEntry) : Value :=
  object [
    ("path", Str (to_manifest_string (ce_path e)));
    ("operation", Str (operation_as_str (ce_operation e)));
    ("before", entry_state_value (ce_before e));
    ("after", entry_state_value (ce_after e))].

Record FinalEntry : Type := {
  fe_path : RepositoryPath;
  fe_kind : EntryKind;
  fe_blob : Digest;
  fe_size : Z
}.

Definition final_entry_value (e : FinalEntry) : Value :=
  object [
    ("path", Str (to_manifest_string (fe_path e)));
    ("mode", Str (entry_kind_as_str (fe_kind e)));
    ("blob", Str (to_display (fe_blob e)));
    ("size", Integer (u64_as_i64 (fe_size e)))].

(** ** The captured state *)

Record RevisionState : Type := {
  rs_entries : list FinalEntry;
  rs_digest : Digest
}.

Definition final_key (e : FinalEntry) : string := sort_key (fe_path e).
Definition final_cmp : FinalEntry → FinalEntry → comparison := key_cmp final_key String.compare.

Definition repeated_path (a b : FinalEntry) : option RepositoryPath :=
  if String.eqb (final_key a) (final_key b) then Some (fe_path b) else None.

(** [RevisionState::new]. *)
Definition revision_state_new `{Sha256} (entries : list FinalEntry) :
    Result RevisionState ChangesetError :=
  let entries := sort_by final_cmp entries in
  match find_window repeated_path entries with
  | Some duplicate =>
      Err (InvalidPath (to_manifest_string duplicate) "the captured state names it twice")
  | None =>
      Ok {| rs_entries := entries;
            rs_digest := value_digest (Array (map final_entry_value entries)) |}
  end.

(** [RevisionState::to_canonical_json]. *)
Definition revision_state_json (s : RevisionState) : string :=
  to_canonical_bytes (object [
    ("schemaVersion", Integer CHANGESET_SCHEMA_VERSION);
    ("entries", Array (map final_entry_value (rs_entries s)))]).

(** [RevisionState::entry]. *)
Definition revision_entry (s : RevisionState) (path : RepositoryPath) : option FinalEntry :=
  binary_search_by (fun e => String.compare (final_key e) (sort_key path)) (rs_entries s)
    ≫= fun index => rs_entries s !! index.

Definition change_cmp : ChangesetEntry → ChangesetEntry → comparison :=
  key_cmp (fun e => sort_key (ce_path e)) String.compare.

Definition changeset_manifest (repository base_commit : string)
    (workspace_revision_state : Digest) (entries : list ChangesetEntry) : Value :=
  let ordered := sort_by change_cmp entries in
  object [
    ("schemaVersion", Integer CHANGESET_SCHEMA_VERSION);
    ("artifactKind", Str CODE_CHANGESET_KIND);
    ("repository", Str repository);
    ("baseCommit", Str base_commit);
    ("workspaceRevision", Str (to_display workspace_revision_state));
    ("entries", Array (map changeset_entry_value ordered))].

(** ** The manifest spelling *)

Lemma contains_byte_prefix c s : contains_byte c s = false → strip_prefix (String c EmptyString) s = None.
Proof.
  destruct s as [|b s]; cbn; [done|]. intros [Hb _]%orb_false_iff.
  by rewrite Ascii.eqb_sym, Hb.
Qed.

Lemma div2_double n : Nat.div2 (2 * n) = n.
Proof. apply Nat.div2_double. Qed.

Lemma decode_encode_path bytes : decode_manifest_string (encode_path bytes) = Some bytes.
Proof.
  unfold encode_path. destruct (utf8_valid bytes && negb (contains_byte "037"%char bytes)) eqn:E.
  - split_andb. apply negb_true_iff in H0. unfold decode_manifest_string, percent.
    by rewrite contains_byte_prefix.
  - unfold decode_manifest_string. rewrite strip_prefix_app, length_hex_of_bytes.
    rewrite Nat.even_mul, orb_true_l. cbn [negb]. rewrite div2_double.
    apply bytes_of_hex_of_bytes.
Qed.

Lemma encode_path_inj b1 b2 : encode_path b1 = encode_path b2 → b1 = b2.
Proof. intros H. apply (inj Some). by rewrite <-!decode_encode_path, H. Qed.

Lemma hex_of_bytes_valid s : utf8_valid (hex_of_bytes s) = true.
Proof.
  induction s as [|b s IH]; [done|]. cbn [hex_of_bytes].
  destruct (nibbles_lt (byte_val b) (byte_val_lt b)) as [H1 H2].
  apply utf8_valid_cons; [by apply hex_char_lt|]. by apply utf8_valid_cons; [apply hex_char_lt|].
Qed.

Lemma encode_path_valid bytes : utf8_valid (encode_path bytes) = true.
Proof.
  unfold encode_path. destruct (utf8_valid bytes && _) eqn:E; [by split_andb|].
  apply utf8_valid_app; [done | apply hex_of_bytes_valid].
Qed.

Lemma to_manifest_string_valid p : utf8_valid (to_manifest_string p) = true.
Proof. apply encode_path_valid. Qed.

Lemma to_manifest_string_inj p q : to_manifest_string p = to_manifest_string q → p = q.
Proof. destruct p, q. intros H%encode_path_inj. cbn in H. by subst. Qed.

#[export] Hint Resolve to_manifest_string_valid : pantheon.

(** ** Admissible paths *)

(** The canonical path rules. *)
Definition canonical_path (bytes : string) : Prop :=
  bytes ≠ EmptyString ∧ String.length bytes ≤ MAX_PATH_BYTES ∧
  contains_byte "000"%char bytes = false ∧
  (∀ c, c ∈ split_on "/"%char bytes →
     c ≠ EmptyString ∧ c ≠ "." ∧ c ≠ ".." ∧ String.length c ≤ 255).

Lemma refused_component_None c :
  refused_component c = None ↔
  c ≠ EmptyString ∧ c ≠ "." ∧ c ≠ ".." ∧ String.length c ≤ 255.
Proof.
  unfold refused_component.
  destruct (String.eqb_spec c EmptyString), (String.eqb_spec c "."), (String.eqb_spec c ".."),
    (Nat.ltb_spec 255 (String.length c)); split; (done || naive_solver lia).
Qed.

(** An absolute path starts with an empty component. *)
Lemma absolute_component bytes :
  starts_with "/" bytes = true → EmptyString ∈ split_on "/"%char bytes.
Proof. intros [r ->]%starts_with_true. cbn. left. Qed.

Lemma path_from_bytes_Ok bytes p :
  path_from_bytes bytes = Ok p ↔ canonical_path bytes ∧ p = mk_path bytes.
Proof.
  unfold path_from_bytes, canonical_path. setoid_rewrite <-refused_component_None.
  rewrite <-find_map_None.
  destruct (String.eqb_spec bytes EmptyString); [naive_solver|].
  destruct (Nat.ltb_spec MAX_PATH_BYTES (String.length bytes)); [naive_solver lia|].
  destruct (contains_byte "000"%char bytes); [naive_solver|].
  destruct (starts_with "/" bytes) eqn:Ha.
  - split; [done|]. intros [(_ & _ & _ & Hnone) _].
    rewrite find_map_None in Hnone. by specialize (Hnone _ (absolute_component _ Ha)).
  - destruct (find_map _ _); naive_solver.
Qed.

Lemma path_roundtrip p :
  canonical_path (path_bytes p) → path_from_manifest_string (to_manifest_string p) = Ok p.
Proof.
  intros H. unfold path_from_manifest_string, to_manifest_string. rewrite decode_encode_path. cbn.
  apply path_from_bytes_Ok. by destruct p.
Qed.

(** ** Entries *)

Lemma changeset_entry_new_Ok p o b a e :
  changeset_entry_new p o b a = Ok e ↔
  e = {| ce_path := p; ce_operation := o; ce_before := b; ce_after := a |} ∧
  match o with
  | Add => b = Absent ∧ present a = true
  | Modify => present b = true ∧ present a = true
  | Delete => present b = true ∧ a = Absent
  end.
Proof. unfold changeset_entry_new. destruct o, b, a; cbn; naive_solver. Qed.

Lemma u64_as_i64_inj x y : in_u64 x = true → in_u64 y = true → u64_as_i64 x = u64_as_i64 y → x = y.
Proof.
  unfold in_u64, u64_as_i64, i64_max, u64_max. rewrite !andb_true_iff, !Z.leb_le. intros Hx Hy.
  destruct (Z.leb_spec x 9223372036854775807), (Z.leb_spec y 9223372036854775807); lia.
Qed.

Lemma entry_kind_as_str_inj k1 k2 : entry_kind_as_str k1 = entry_kind_as_str k2 → k1 = k2.
Proof. by destruct k1, k2. Qed.

(** What the Rust types guarantee of a captured entry. *)
Definition wf_final_entry (e : FinalEntry) : bool :=
  wf_digest (fe_blob e) && in_u64 (fe_size e).

Lemma final_entry_value_wf e : wf_final_entry e = true → wf_value (final_entry_value e) = true.
Proof.
  unfold wf_final_entry, final_entry_value. intros Hw. split_andb. wf_parts.
  by destruct (fe_kind e).
Qed.

Lemma final_entry_value_inj e1 e2 :
  wf_final_entry e1 = true → wf_final_entry e2 = true →
  final_entry_value e1 = final_entry_value e2 → e1 = e2.
Proof.
  unfold wf_final_entry, final_entry_value. intros H1 H2 Heq. split_andb.
  field_eq Heq "path". field_eq Heq "mode". field_eq Heq "blob". field_eq Heq "size".
  apply to_manifest_string_inj in E. apply entry_kind_as_str_inj in E0.
  apply to_display_inj in E1; [|done..]. apply u64_as_i64_inj in E2; [|done..].
  destruct e1, e2; cbn in *. by subst.
Qed.

(** ** The captured state *)

Lemma repeated_path_None a b : repeated_path a b = None ↔ final_key a ≠ final_key b.
Proof. unfold repeated_path. destruct (String.eqb_spec (final_key a) (final_key b)); naive_solver. Qed.

Section Capture.
Context `{Sha256}.

Definition state_of (entries : list FinalEntry) : RevisionState :=
  let sorted := sort_by final_cmp entries in
  {| rs_entries := sorted; rs_digest := value_digest (Array (map final_entry_value sorted)) |}.

Lemma revision_state_new_Ok es s :
  revision_state_new es = Ok s ↔ NoDup (map final_key es) ∧ s = state_of es.
Proof.
  unfold revision_state_new.
  rewrite <-(sorted_window_nodup final_key String.compare repeated_path es repeated_path_None).
  fold final_cmp. destruct (find_window _ _); naive_solver.
Qed.

(** Whether a capture is accepted, and what it is, does not depend on the order
    the entries were listed in. *)
Lemma revision_state_new_perm es1 es2 s :
  es1 ≡ₚ es2 → revision_state_new es1 = Ok s → revision_state_new es2 = Ok s.
Proof.
  rewrite !revision_state_new_Ok. intros Hp [Hnd ->]. split.
  - by rewrite <-(Permutation_map final_key Hp).
  - unfold state_of. fold final_cmp.
    by rewrite (sort_by_key_perm final_key String.compare es1 es2 Hnd Hp : sort_by final_cmp _ = _).
Qed.

Lemma revision_state_entry es s p e :
  revision_state_new es = Ok s → revision_entry s p = Some e ↔ e ∈ es ∧ fe_path e = p.
Proof.
  rewrite revision_state_new_Ok. intros [Hnd ->]. unfold revision_entry.
  change (rs_entries (state_of es)) with (sort_by final_cmp es).
  rewrite (binary_search_lookup final_key String.compare)
    by apply (sorted_nodup_strict final_key String.compare es Hnd).
  rewrite (elem_of_sort_by final_cmp). unfold final_key, sort_key.
  destruct p as [b], (fe_path e) as [b']; cbn. split; intros [? Heq]; split; congruence.
Qed.

Lemma state_value_wf es :
  forallb wf_final_entry es = true → wf_value (Array (map final_entry_value es)) = true.
Proof. intros Hes. apply wf_array_map. intros e He. apply final_entry_value_wf. by eapply forallb_True in Hes. Qed.

Lemma state_value_inj es1 es2 :
  forallb wf_final_entry es1 = true → forallb wf_final_entry es2 = true →
  map final_entry_value es1 = map final_entry_value es2 → es1 = es2.
Proof.
  revert es2; induction es1 as [|e1 es1 IH]; intros [|e2 es2]; cbn; try done.
  intros [H1 H1']%andb_true_iff [H2 H2']%andb_true_iff Heq.
  apply (f_equal head) in Heq as He; apply (f_equal tail) in Heq as Hes.
  f_equal; [|by apply IH]. apply final_entry_value_inj; [done|done|]. by apply (inj Some).
Qed.

Lemma wf_sorted es : forallb wf_final_entry es = true → forallb wf_final_entry (sort_by final_cmp es) = true.
Proof.
  rewrite !forallb_True. intros Hes e He. apply Hes. by apply (elem_of_sort_by final_cmp).
Qed.

(** The text a state's digest is taken over. *)
Definition state_text (s : RevisionState) : string := to_canonical_bytes (Array (map final_entry_value (rs_entries s))).

(** Equal state digests: the same entries, or a clash of the two texts. *)
Lemma revision_state_identity es1 es2 s1 s2 :
  forallb wf_final_entry es1 = true → forallb wf_final_entry es2 = true →
  revision_state_new es1 = Ok s1 → revision_state_new es2 = Ok s2 →
  rs_digest s1 = rs_digest s2 →
  es1 ≡ₚ es2 ∨ clash (state_text s1) (state_text s2).
Proof.
  rewrite !revision_state_new_Ok. intros Hw1 Hw2 [_ ->] [_ ->] Hd. cbn in Hd.
  apply value_digest_eq in Hd as [Heq|Hc]; [|by right|by apply state_value_wf, wf_sorted..].
  left. injection Heq as Heq. apply state_value_inj in Heq; [|by apply wf_sorted..].
  by rewrite <-(sort_by_perm final_cmp es1), Heq, (sort_by_perm final_cmp es2).
Qed.
End Capture.

(** The manifest does not depend on the order of the entries it is given. *)
Lemma changeset_manifest_perm repo base d es1 es2 :
  NoDup (map (fun e => sort_key (ce_path e)) es1) → es1 ≡ₚ es2 →
  changeset_manifest repo base d es1 = changeset_manifest repo base d es2.
Proof.
  intros Hnd Hp. unfold changeset_manifest, change_cmp.
  by rewrite (sort_by_key_perm _ String.compare es1 es2 Hnd Hp).
Qed.

(** ** Claims *)

(** the manifest spelling of a repository path is lossless: every admissible
    path, UTF-8 or not, reads back as itself, and two paths never share a
    spelling. *)
Theorem manifest_path_roundtrip p q :
  canonical_path (path_bytes p) →
  path_from_manifest_string (to_manifest_string p) = Ok p ∧
  (to_manifest_string p = to_manifest_string q → p = q).
Proof. intros Hp. split; [by apply path_roundtrip | apply to_manifest_string_inj]. Qed.

Definition sample_path : RepositoryPath := mk_path ("src/" +:+ String "255"%char "%a").

Lemma manifest_path_roundtrip_witness :
  canonical_path (path_bytes sample_path) ∧
  path_from_manifest_string (to_manifest_string sample_path) = Ok sample_path ∧
  (to_manifest_string sample_path = to_manifest_string sample_path → sample_path = sample_path).
Proof.
  assert (path_from_bytes (path_bytes sample_path) = Ok sample_path) as Hok
    by (vm_compute; reflexivity).
  apply path_from_bytes_Ok in Hok as [Hc _]. split; [exact Hc|].
  exact (manifest_path_roundtrip sample_path sample_path Hc).
Defined.

(** A capture is accepted exactly when no path is named twice, and the state is then its
    entries in the order of the path bytes with the digest of their canonical text. *)
Theorem revision_state_canonical `{Sha256} es s :
  revision_state_new es = Ok s ↔
  NoDup (map final_key es) ∧ rs_entries s ≡ₚ es ∧ StronglySorted (strict final_cmp) (rs_entries s) ∧
  rs_digest s = digest_of (state_text s).
Proof.
  rewrite revision_state_new_Ok. split.
  - intros [Hnd ->]. split_and!; [done|apply (sort_by_perm final_cmp)|by apply (sorted_nodup_strict final_key String.compare)|done].
  - intros (Hnd & Hp & Hs & Hd). split; [done|]. destruct s as [entries d]. unfold state_text in Hd. cbn [rs_entries rs_digest] in *.
    assert (sort_by final_cmp es = entries) as E.
    { apply (strict_sorted_unique final_cmp); [by apply (sorted_nodup_strict final_key String.compare)|done|].
      by rewrite (sort_by_perm final_cmp), Hp. }
    unfold state_of. by rewrite E, Hd.
Qed.

Definition sample_entry (path : string) : FinalEntry := {|
  fe_path := mk_path path; fe_kind := Regular; fe_blob := @digest_of prefix_hash path;
  fe_size := 7 |}.

Definition sample_state : RevisionState :=
  @state_of prefix_hash [sample_entry "b"; sample_entry "a"].

(** Two orders of one capture. *)
Example sample_state_of_both :
  @revision_state_new prefix_hash [sample_entry "a"; sample_entry "b"] = Ok sample_state ∧
  @revision_state_new prefix_hash [sample_entry "b"; sample_entry "a"] = Ok sample_state.
Proof. split; vm_compute; reflexivity. Qed.

(** looking a path up in a captured state by bisection finds exactly the
    entry captured for it. *)
Theorem revision_entry_exact `{Sha256} es s p e :
  revision_state_new es = Ok s → revision_entry s p = Some e ↔ e ∈ es ∧ fe_path e = p.
Proof. apply revision_state_entry. Qed.

Lemma revision_entry_exact_witness :
  revision_entry sample_state (mk_path "b") = Some (sample_entry "b") ∧
  sample_entry "b" ∈ [sample_entry "b"; sample_entry "a"].
Proof.
  split; [vm_compute; reflexivity|].
  eapply (@revision_entry_exact prefix_hash [sample_entry "b"; sample_entry "a"] sample_state
    (mk_path "b") (sample_entry "b")); vm_compute; reflexivity.
Defined.

(** a changeset entry exists exactly when its operation agrees with its two
    sides: an addition from nothing, a modification of something into something,
    a deletion into nothing. *)
Theorem changeset_entry_exact p o b a e :
  changeset_entry_new p o b a = Ok e ↔
  e = {| ce_path := p; ce_operation := o; ce_before := b; ce_after := a |} ∧
  match o with
  | Add => b = Absent ∧ present a = true
  | Modify => present b = true ∧ present a = true
  | Delete => present b = true ∧ a = Absent
  end.
Proof. apply changeset_entry_new_Ok. Qed.

(** Two spellings that decode to one path: the literal form may hold a percent
    sign after its first byte. *)
Lemma manifest_second_spelling :
  path_from_manifest_string "a%b" = Ok (mk_path "a%b") ∧
  to_manifest_string (mk_path "a%b") = "%612562" ∧
  path_from_manifest_string "%612562" = Ok (mk_path "a%b").
Proof. split_and!; vm_compute; reflexivity. Qed.
