(* ===== verification/Scope.v ===== *)
(** * The Task resource scope ([pantheon-core/src/planning/scope.rs])

    Compilation of resource patterns and the matcher that decides whether a
    changed path is inside a Task's ceiling, with the declarative meaning of a
    pattern the matcher implements. *)

From Stdlib Require Import Ascii.
From S2P Require Import Prelude Utf8 Canonical Parse ParseFacts Digest Artifact.

Record ScopeError : Type := { se_pattern : string; se_reason : string }.

Inductive Segment : Type :=
| Literal (text : string)
| One
| Many.

Record Pattern : Type := { pattern_segments : list Segment }.
Record WorkspaceScope : Type := { scope_patterns : list Pattern }.

Definition star : string := "*".
Definition double_star : string := "**".

(** One component of a pattern. *)
Definition compile_piece (pattern piece : string) : Result Segment ScopeError :=
  if String.eqb piece EmptyString
  then Err {| se_pattern := pattern; se_reason := "it has an empty path component" |}
  else if String.eqb piece double_star then Ok Many
  else if String.eqb piece star then Ok One
  else if contains_byte "*"%char piece
  then Err {| se_pattern := pattern; se_reason := "a wildcard must be a whole component" |}
  else Ok (Literal piece).

Definition compile_pattern (pattern : string) : Result Pattern ScopeError :=
  let? rest := ok_or (strip_prefix "workspace://" pattern)
    {| se_pattern := pattern; se_reason := "it does not begin with workspace://" |} in
  if String.eqb rest EmptyString
  then Err {| se_pattern := pattern; se_reason := "it names no path" |}
  else
    let? segments := collect (compile_piece pattern) (split_on "/"%char rest) in
    Ok {| pattern_segments := segments |}.

(** [WorkspaceScope::compile]. *)
Definition scope_compile (patterns : list string) : Result WorkspaceScope ScopeError :=
  let? compiled := collect compile_pattern patterns in
  Ok {| scope_patterns := compiled |}.

Definition scope_is_empty (s : WorkspaceScope) : bool := Nat.eqb (length (scope_patterns s)) 0.

(** The recursion drops a segment or, at a [Many], a component: structural on
    the pattern and, inside, on the path. *)
Fixpoint matches_from (pattern : list Segment) (path : list string) : bool :=
  match pattern with
  | [] =>
      match path with
      | [] => true
      | _ => false
      end
  | Literal literal :: prest =>
      match path with
      | component :: crest => String.eqb component literal && matches_from prest crest
      | [] => false
      end
  | One :: prest =>
      match path with
      | _ :: crest => matches_from prest crest
      | [] => false
      end
  | Many :: prest =>
      (fix many (path : list string) : bool :=
         matches_from prest path
         || match path with
            | [] => false
            | _ :: crest => many crest
            end) path
  end.

(** [WorkspaceScope::authorizes]. *)
Definition authorizes (s : WorkspaceScope) (path : RepositoryPath) : bool :=
  let components := split_on "/"%char (path_bytes path) in
  existsb (fun p => matches_from (pattern_segments p) components) (scope_patterns s).

(** ** The meaning of a pattern

    A segment stands for a run of components: a literal for itself, [One] for
    any single component, [Many] for any run, possibly empty. *)
Definition segment_run (s : Segment) (run : list string) : Prop :=
  match s with
  | Literal text => run = [text]
  | One => ∃ c, run = [c]
  | Many => True
  end.

(** A pattern denotes the concatenations of one run per segment. *)
Inductive denotes : list Segment → list string → Prop :=
| denotes_nil : denotes [] []
| denotes_cons s run prest rest :
    segment_run s run → denotes prest rest → denotes (s :: prest) (run ++ rest).

Lemma many_matches prest path :
  matches_from (Many :: prest) path = true ↔
  ∃ run rest, path = run ++ rest ∧ matches_from prest rest = true.
Proof.
  induction path as [|c path IH].
  - cbn. rewrite orb_false_r. split.
    + intros H. by exists [], [].
    + intros (run & rest & Heq & H). symmetry in Heq. by apply app_eq_nil in Heq as [_ ->].
  - cbn [matches_from] in *. rewrite orb_true_iff, IH. split.
    + intros [H|(run & rest & -> & H)]; [by exists [], (c :: path) | by exists (c :: run), rest].
    + intros (run & rest & Heq & H). destruct run as [|d run]; cbn in Heq.
      * left. by subst rest.
      * injection Heq as -> ->. right. eauto.
Qed.

(** The matcher decides exactly the meaning of the pattern. *)
Lemma matches_from_denotes pattern path :
  matches_from pattern path = true ↔ denotes pattern path.
Proof.
  revert path; induction pattern as [|s prest IH]; intros path.
  - destruct path; cbn; split; try done; [constructor | by inversion 1].
  - split.
    + destruct s as [text| |].
      * destruct path as [|c crest]; cbn; [done|]. intros [->%String.eqb_eq H]%andb_true_iff.
        by apply (denotes_cons _ [text]); [|apply IH].
      * destruct path as [|c crest]; cbn; [done|]. intros H.
        apply (denotes_cons _ [c]); [by exists c | by apply IH].
      * intros (run & rest & -> & H)%many_matches. constructor; [done | by apply IH].
    + inversion 1 as [|? run ? rest Hrun Hrest]; subst. apply IH in Hrest.
      destruct s as [text| |]; cbn in Hrun.
      * subst run. cbn. by rewrite String.eqb_refl.
      * destruct Hrun as [c ->]. done.
      * apply many_matches. eauto.
Qed.

(** ** Compilation *)

(** The text of a segment in the grammar. *)
Definition segment_text (s : Segment) : string :=
  match s with
  | Literal text => text
  | One => star
  | Many => double_star
  end.

Definition wf_segment (s : Segment) : Prop :=
  match s with
  | Literal text => text ≠ EmptyString ∧ contains_byte "*"%char text = false
  | _ => True
  end.

Lemma compile_piece_Ok pattern piece s :
  compile_piece pattern piece = Ok s ↔ piece = segment_text s ∧ wf_segment s.
Proof.
  unfold compile_piece. destruct (String.eqb_spec piece EmptyString) as [->|].
  { split; [done|]. intros [Ht Hs]. destruct s; [|discriminate Ht|discriminate Ht].
    cbn in *. by destruct Hs. }
  destruct (String.eqb_spec piece double_star) as [->|].
  { split; [by intros [= <-]|]. intros [Ht Hs]. destruct s as [t| |]; [|discriminate Ht|done].
    cbn in *. subst t. by destruct Hs. }
  destruct (String.eqb_spec piece star) as [->|].
  { split; [by intros [= <-]|]. intros [Ht Hs]. destruct s as [t| |]; [|done|discriminate Ht].
    cbn in *. subst t. by destruct Hs. }
  destruct (contains_byte _ piece) eqn:E.
  - split; [done|]. destruct s; cbn; [|naive_solver..]. intros [<- [_ Hs]]. congruence.
  - split; [by intros [= <-]|]. destruct s; cbn; [|naive_solver..]. by intros [<- _].
Qed.

(** A pattern compiles exactly when it spells a non-empty list of segments. *)
Lemma compile_pattern_Ok pattern p :
  compile_pattern pattern = Ok p ↔
  ∃ rest, pattern = "workspace://" +:+ rest ∧ rest ≠ EmptyString ∧
    Forall2 (fun piece s => piece = segment_text s ∧ wf_segment s)
      (split_on "/"%char rest) (pattern_segments p).
Proof.
  unfold compile_pattern. rewrite try_bind_Ok. split.
  - intros (rest & Hp & H). destruct (strip_prefix _ pattern) eqn:E; [|done].
    injection Hp as ->. apply strip_prefix_Some in E. exists rest. split; [done|].
    destruct (String.eqb_spec rest EmptyString); [done|]. split; [done|].
    apply try_bind_Ok in H as (segs & Hs & [= <-]). apply collect_Ok in Hs. cbn.
    eapply Forall2_impl; [exact Hs|]. intros piece s. apply compile_piece_Ok.
  - intros (rest & -> & Hne & Hs). exists rest. rewrite strip_prefix_app. split; [done|].
    destruct (String.eqb_spec rest EmptyString); [done|]. apply try_bind_Ok.
    exists (pattern_segments p). split; [|by destruct p]. apply collect_Ok.
    eapply Forall2_impl; [exact Hs|]. intros piece s. apply compile_piece_Ok.
Qed.

Lemma scope_compile_Ok patterns s :
  scope_compile patterns = Ok s ↔
  Forall2 (fun t p => compile_pattern t = Ok p) patterns (scope_patterns s).
Proof.
  unfold scope_compile. rewrite try_bind_Ok. setoid_rewrite collect_Ok. split.
  - by intros (ps & H & [= <-]).
  - intros H. exists (scope_patterns s). split; [done | by destruct s].
Qed.

Lemma authorizes_spec s path :
  authorizes s path = true ↔
  ∃ p, p ∈ scope_patterns s ∧
    denotes (pattern_segments p) (split_on "/"%char (path_bytes path)).
Proof.
  unfold authorizes. rewrite existsb_True. by setoid_rewrite matches_from_denotes.
Qed.

(** A scope compiled from fewer patterns authorizes fewer paths. *)
Lemma scope_monotone ts1 ts2 s1 s2 path :
  (∀ t, t ∈ ts1 → t ∈ ts2) → scope_compile ts1 = Ok s1 → scope_compile ts2 = Ok s2 →
  authorizes s1 path = true → authorizes s2 path = true.
Proof.
  rewrite !scope_compile_Ok, !authorizes_spec. intros Hsub H1 H2 (p & Hp & Hd).
  apply list_elem_of_lookup in Hp as [i Hi].
  destruct (Forall2_lookup_r _ _ _ _ _ H1 Hi) as (t & Ht & Hc).
  apply list_elem_of_lookup_2, Hsub, list_elem_of_lookup in Ht as [j Hj].
  destruct (Forall2_lookup_l _ _ _ _ _ H2 Hj) as (q & Hq & Hcq).
  exists q. split; [by eapply list_elem_of_lookup_2|]. congruence.
Qed.

(** ** Claims *)

(** C40: the recursive matcher is correct and complete for the documented meaning
    of a pattern: it accepts a path exactly when the path's components are a
    concatenation of one run per segment: the literal itself, any one component,
    or any run, possibly empty. *)
Theorem scope_authorizes_exactly s path :
  authorizes s path = true ↔
  ∃ p, p ∈ scope_patterns s ∧
    denotes (pattern_segments p) (split_on "/"%char (path_bytes path)).
Proof. apply authorizes_spec. Qed.

(** compilation accepts exactly the documented grammar: every pattern is
    [workspace://] and a non-empty list of whole-component segments; anything
    else fails the whole scope. *)
Theorem scope_compile_exact patterns s :
  scope_compile patterns = Ok s ↔
  Forall2 (fun text p => ∃ rest, text = "workspace://" +:+ rest ∧ rest ≠ EmptyString ∧
      Forall2 (fun piece seg => piece = segment_text seg ∧ wf_segment seg)
        (split_on "/"%char rest) (pattern_segments p))
    patterns (scope_patterns s).
Proof.
  rewrite scope_compile_Ok. split; intros Hall; (eapply Forall2_impl; [exact Hall|]);
    intros t p; apply compile_pattern_Ok.
Qed.
