(* ===== verification/Candidate.v ===== *)
(** * Candidate results ([pantheon-core/src/candidate.rs])

    A Run's proposed answer to its Task: a mapping from output slots to
    artifacts, normalized by slot name before it reaches identity. *)

From Stdlib Require Import ZArith Ascii.
From S2P Require Import Prelude Utf8 Canonical Parse ParseFacts Digest Goal Task Artifact.

Definition MAX_OUTPUT_SLOT_BYTES : nat := 128.

Record CandidateOutput : Type := { co_slot : string; co_artifact : Digest }.

Definition candidate_output_value (o : CandidateOutput) : Value :=
  object [("artifact", Str (to_display (co_artifact o))); ("slot", Str (co_slot o))].

Inductive CandidateError : Type :=
| DuplicateOutputSlot (slot : string)
| InvalidOutputSlot (slot reason : string)
| OutputKindMismatch (slot permitted submitted : string)
| UndeclaredOutputSlot (slot : string)
| MissingRequiredOutput (slot : string).

Record CandidateResult : Type := {
  cr_task_id : string;
  cr_run_id : string;
  cr_outputs : list CandidateOutput
}.

Definition check_slot (o : CandidateOutput) : Result unit CandidateError :=
  if is_empty (co_slot o) then Err (InvalidOutputSlot (co_slot o) "the slot name is empty")
  else if Nat.ltb MAX_OUTPUT_SLOT_BYTES (String.length (co_slot o))
  then Err (InvalidOutputSlot (co_slot o) "the slot name exceeds the bounded length")
  else Ok tt.

Definition slot_cmp : CandidateOutput → CandidateOutput → comparison :=
  key_cmp co_slot String.compare.

Definition repeated_slot (a b : CandidateOutput) : option string :=
  if String.eqb (co_slot a) (co_slot b) then Some (co_slot a) else None.

(** [CandidateResult::new]. *)
Definition candidate_new (task_id run_id : string) (outputs : list (string * Digest)) :
    Result CandidateResult CandidateError :=
  let normalized := map (fun o => {| co_slot := o.1; co_artifact := o.2 |}) outputs in
  do? for_each check_slot normalized in
  let normalized := sort_by slot_cmp normalized in
  match find_window repeated_slot normalized with
  | Some slot => Err (DuplicateOutputSlot slot)
  | None => Ok {| cr_task_id := task_id; cr_run_id := run_id; cr_outputs := normalized |}
  end.

Definition candidate_to_value (c : CandidateResult) : Value :=
  object [
    ("outputs", Array (map candidate_output_value (cr_outputs c)));
    ("run", Str (cr_run_id c));
    ("task", Str (cr_task_id c))].

Definition candidate_to_canonical_json (c : CandidateResult) : string :=
  to_canonical_bytes (candidate_to_value c).

Definition candidate_digest `{Sha256} (c : CandidateResult) : Digest :=
  digest_of (candidate_to_canonical_json c).

Definition declared (spec : TaskSpec) (name : string) : option TaskOutput :=
  find_first (fun o => String.eqb (output_name o) name) (task_outputs spec).

Definition check_required (c : CandidateResult) (required : TaskOutput) :
    Result unit CandidateError :=
  if negb (existsb (fun o => String.eqb (co_slot o) (output_name required)) (cr_outputs c))
  then Err (MissingRequiredOutput (output_name required)) else Ok tt.

Definition check_declared (spec : TaskSpec) (o : CandidateOutput) : Result unit CandidateError :=
  match declared spec (co_slot o) with
  | None => Err (UndeclaredOutputSlot (co_slot o))
  | Some _ => Ok tt
  end.

Definition validate_against_spec (c : CandidateResult) (spec : TaskSpec) :
    Result unit CandidateError :=
  do? for_each (check_required c) (List.filter output_required (task_outputs spec)) in
  for_each (check_declared spec) (cr_outputs c).

Definition kind_permitted (slot : TaskOutput) (artifact_kind : string) :
    Result unit CandidateError :=
  if String.eqb (output_kind slot) artifact_kind then Ok tt
  else Err (OutputKindMismatch (output_name slot) (output_kind slot) artifact_kind).

(** ** Construction *)

Lemma repeated_slot_None a b : repeated_slot a b = None ↔ co_slot a ≠ co_slot b.
Proof. unfold repeated_slot. destruct (String.eqb_spec (co_slot a) (co_slot b)); naive_solver. Qed.

Lemma check_slot_Ok o :
  check_slot o = Ok tt ↔
  co_slot o ≠ EmptyString ∧ String.length (co_slot o) ≤ MAX_OUTPUT_SLOT_BYTES.
Proof.
  unfold check_slot, is_empty. destruct (String.eqb_spec (co_slot o) EmptyString); [naive_solver|].
  destruct (Nat.ltb_spec MAX_OUTPUT_SLOT_BYTES (String.length (co_slot o))); naive_solver lia.
Qed.

Definition outputs_of (outputs : list (string * Digest)) : list CandidateOutput :=
  map (fun o => {| co_slot := o.1; co_artifact := o.2 |}) outputs.

Lemma elem_of_outputs_of outputs o :
  o ∈ outputs_of outputs ↔ (co_slot o, co_artifact o) ∈ outputs.
Proof.
  unfold outputs_of. rewrite !list_elem_of_In, in_map_iff. split.
  - intros ([s d] & <- & H). done.
  - intros H. eexists. split; [|exact H]. by destruct o.
Qed.

Lemma outputs_of_slots outputs : map co_slot (outputs_of outputs) = map fst outputs.
Proof. unfold outputs_of. by rewrite map_map. Qed.

(** Accepted exactly when every slot name is in bounds and no slot is repeated;
    the outputs are then the submitted ones in slot order. *)
Lemma candidate_new_Ok task run outputs c :
  candidate_new task run outputs = Ok c ↔
  (∀ s d, (s, d) ∈ outputs → s ≠ EmptyString ∧ String.length s ≤ MAX_OUTPUT_SLOT_BYTES) ∧
  NoDup (map fst outputs) ∧
  c = {| cr_task_id := task; cr_run_id := run; cr_outputs := sort_by slot_cmp (outputs_of outputs) |}.
Proof.
  unfold candidate_new. fold (outputs_of outputs). rewrite try_bind_Ok.
  rewrite <-outputs_of_slots,
    <-(sorted_window_nodup co_slot String.compare repeated_slot _ repeated_slot_None).
  fold slot_cmp. split.
  - intros ([] & Hs & H). rewrite for_each_Ok in Hs. destruct (find_window _ _); [done|].
    injection H as <-. split; [|done]. intros s d Hin.
    apply (check_slot_Ok {| co_slot := s; co_artifact := d |}), Hs. by apply elem_of_outputs_of.
  - intros (Hs & Hw & ->). exists tt. rewrite Hw. split; [|done]. apply for_each_Ok.
    intros o Ho. apply check_slot_Ok. eapply Hs. by apply elem_of_outputs_of.
Qed.

Lemma candidate_new_perm task run o1 o2 c :
  o1 ≡ₚ o2 → candidate_new task run o1 = Ok c → candidate_new task run o2 = Ok c.
Proof.
  rewrite !candidate_new_Ok. intros Hp (Hs & Hnd & ->). repeat split.
  - eapply Hs. by rewrite Hp.
  - eapply Hs. by rewrite Hp.
  - by rewrite <-(Permutation_map fst Hp).
  - f_equal. apply (sort_by_key_perm co_slot String.compare); [by rewrite outputs_of_slots|].
    by apply Permutation_map.
Qed.

(** ** Identity *)

Definition wf_candidate (c : CandidateResult) : bool :=
  utf8_valid (cr_task_id c) && utf8_valid (cr_run_id c)
  && forallb (fun o => utf8_valid (co_slot o) && wf_digest (co_artifact o)) (cr_outputs c).

Lemma candidate_to_value_wf c : wf_candidate c = true → wf_value (candidate_to_value c) = true.
Proof.
  unfold wf_candidate, candidate_to_value. intros H. split_andb. wf_parts.
  eapply forallb_True in H0; [|done]. split_andb. unfold candidate_output_value. wf_parts.
Qed.

Lemma candidate_to_value_inj c1 c2 :
  wf_candidate c1 = true → wf_candidate c2 = true →
  candidate_to_value c1 = candidate_to_value c2 → c1 = c2.
Proof.
  unfold wf_candidate, candidate_to_value. intros H1 H2 Heq. split_andb.
  field_eq Heq "outputs". field_eq Heq "run". field_eq Heq "task".
  assert (cr_outputs c1 = cr_outputs c2) as Ho.
  { revert H0 H3 E. clear. generalize (cr_outputs c1) (cr_outputs c2). intros l1 l2 W1 W2 E.
    assert (map candidate_output_value l1 = map candidate_output_value l2) as Hm by congruence.
    clear E. revert l2 W1 W2 Hm. induction l1 as [|x l1 IH]; intros [|y l2]; cbn [map]; try done.
    intros W1 W2 Hm. cbn [forallb] in *. split_andb.
    apply (f_equal head) in Hm as Hx; apply (f_equal tail) in Hm as Hr. cbn [head tail] in *.
    f_equal; [|by apply IH]. apply (inj Some) in Hx. unfold candidate_output_value in Hx.
    field_eq Hx "artifact". field_eq Hx "slot". apply to_display_inj in E; [|done..].
    destruct x, y; cbn in *. by subst. }
  destruct c1, c2; cbn in *. by subst.
Qed.

(** Equal candidate digests: the same document, or a collision. *)
Lemma candidate_identity `{Sha256} c1 c2 :
  wf_candidate c1 = true → wf_candidate c2 = true → candidate_digest c1 = candidate_digest c2 →
  c1 = c2 ∨ clash (to_canonical_bytes (candidate_to_value c1)) (to_canonical_bytes (candidate_to_value c2)).
Proof.
  intros H1 H2 Hd.
  destruct (value_digest_eq (candidate_to_value c1) (candidate_to_value c2)) as [E|?];
    [by apply candidate_to_value_wf..|exact Hd|left|by right].
  by apply candidate_to_value_inj.
Qed.

(** ** Validation against the specification *)

Lemma declared_spec spec name :
  is_Some (declared spec name) ↔ name ∈ map output_name (task_outputs spec).
Proof.
  unfold declared. rewrite list_elem_of_In, in_map_iff. setoid_rewrite <-list_elem_of_In. split.
  - intros [o Ho]. apply find_first_Some in Ho as [Hin Hn%String.eqb_eq]. eauto.
  - intros (o & <- & Hin). destruct (find_first _ _) eqn:E; [done|].
    rewrite find_first_None in E. specialize (E _ Hin). by rewrite String.eqb_refl in E.
Qed.

Lemma validate_against_spec_Ok c spec :
  validate_against_spec c spec = Ok tt ↔
  (∀ o, o ∈ task_outputs spec → output_required o = true →
     output_name o ∈ map co_slot (cr_outputs c)) ∧
  (∀ s, s ∈ map co_slot (cr_outputs c) → s ∈ map output_name (task_outputs spec)).
Proof.
  assert (∀ o, check_required c o = Ok tt ↔ output_name o ∈ map co_slot (cr_outputs c)) as Hreq.
  { intros o. unfold check_required.
    destruct (existsb (fun x => String.eqb (co_slot x) (output_name o)) (cr_outputs c)) eqn:E; cbn.
    - apply existsb_True in E as (x & Hx & Hn%String.eqb_eq). split; [|done]. intros _.
      rewrite <-Hn. apply list_elem_of_In, in_map. by apply list_elem_of_In.
    - rewrite existsb_False in E. split; [done|]. intros (x & Hn & Hx)%list_elem_of_In%in_map_iff.
      apply list_elem_of_In in Hx. specialize (E _ Hx). by rewrite Hn, String.eqb_refl in E. }
  assert (∀ o, check_declared spec o = Ok tt ↔ co_slot o ∈ map output_name (task_outputs spec)) as Hdec.
  { intros o. unfold check_declared. rewrite <-declared_spec, is_Some_alt.
    by destruct (declared spec (co_slot o)). }
  unfold validate_against_spec. rewrite try_bind_Ok. split.
  - intros ([] & H1 & H2). rewrite for_each_Ok in H1. rewrite for_each_Ok in H2. split.
    + intros o Ho Hr. apply Hreq, H1. apply list_elem_of_In, filter_In.
      by rewrite <-list_elem_of_In.
    + intros s (o & <- & Ho)%list_elem_of_In%in_map_iff. apply Hdec, H2. by apply list_elem_of_In.
  - intros [H1 H2]. exists tt. rewrite !for_each_Ok. split.
    + intros o Ho%list_elem_of_In%filter_In. apply Hreq. rewrite <-list_elem_of_In in Ho. naive_solver.
    + intros o Ho. apply Hdec, H2, list_elem_of_In, in_map. by apply list_elem_of_In.
Qed.

(** ** Claims *)

(** A candidate is accepted exactly when every slot name is in bounds and no slot is
    filled twice; it is then the Task, the Run and the submitted outputs in slot order, so
    the order of submission never reaches it. *)
Theorem candidate_normalized task run outputs c :
  candidate_new task run outputs = Ok c ↔
  (∀ s d, (s, d) ∈ outputs → s ≠ EmptyString ∧ String.length s ≤ MAX_OUTPUT_SLOT_BYTES) ∧ NoDup (map fst outputs) ∧
  cr_task_id c = task ∧ cr_run_id c = run ∧
  StronglySorted (strict slot_cmp) (cr_outputs c) ∧ cr_outputs c ≡ₚ outputs_of outputs.
Proof.
  rewrite candidate_new_Ok. split.
  - intros (Hs & Hnd & ->). split_and!; [done..| |apply (sort_by_perm slot_cmp)].
    apply (sorted_nodup_strict co_slot String.compare). by rewrite outputs_of_slots.
  - intros (Hs & Hnd & Ht & Hr & Hso & Hp). split_and!; [done..|]. destruct c as [t r os]. cbn in Ht, Hr, Hso, Hp. subst.
    f_equal. apply (strict_sorted_unique slot_cmp); [done| |by rewrite (sort_by_perm slot_cmp)].
    apply (sorted_nodup_strict co_slot String.compare). by rewrite outputs_of_slots.
Qed.

Definition sample_outputs : list (string * Digest) :=
  [("report", @digest_of prefix_hash "r"); ("changeset", @digest_of prefix_hash "c")].

Definition sample_candidate : CandidateResult := {|
  cr_task_id := "task-1"; cr_run_id := "run-1";
  cr_outputs := sort_by slot_cmp (outputs_of sample_outputs) |}.

Example sample_candidate_of_both :
  candidate_new "task-1" "run-1" sample_outputs = Ok sample_candidate ∧
  candidate_new "task-1" "run-1" (rev sample_outputs) = Ok sample_candidate.
Proof. split; vm_compute; reflexivity. Qed.

(** a candidate's digest identifies the exact Task, Run and output mapping,
    or their two canonical texts are a collision of SHA-256. *)
Theorem candidate_digest_identity `{Sha256} c1 c2 :
  wf_candidate c1 = true → wf_candidate c2 = true → candidate_digest c1 = candidate_digest c2 →
  c1 = c2 ∨ clash (to_canonical_bytes (candidate_to_value c1)) (to_canonical_bytes (candidate_to_value c2)).
Proof. apply candidate_identity. Qed.

Lemma candidate_digest_identity_witness :
  sample_candidate = sample_candidate ∨
  @clash prefix_hash (to_canonical_bytes (candidate_to_value sample_candidate))
    (to_canonical_bytes (candidate_to_value sample_candidate)).
Proof. apply (@candidate_digest_identity prefix_hash); vm_compute; reflexivity. Defined.

(** a submission matches its specification exactly when every required
    output is present and nothing undeclared is named. *)
Theorem candidate_matches_spec c spec :
  validate_against_spec c spec = Ok tt ↔
  (∀ o, o ∈ task_outputs spec → output_required o = true →
     output_name o ∈ map co_slot (cr_outputs c)) ∧
  (∀ s, s ∈ map co_slot (cr_outputs c) → s ∈ map output_name (task_outputs spec)).
Proof. apply validate_against_spec_Ok. Qed.
