(* ===== verification/ConfigModel.v ===== *)
(** * Compiled configuration components
      ([pantheon-core/src/config/model.rs], [revision.rs])

    The six immutable components of a configuration revision, the canonical form
    each one's identity is taken over, the revision identity over the component
    digests, and the decoder of a stored context policy. *)

From Stdlib Require Import ZArith Ascii.
From S2P Require Import Prelude Utf8 Canonical Parse ParseFacts Digest Goal.

(** [trait Component]. *)
Class Component (C : Type) : Type := component_value : C → Value.

Definition component_digest {C} `{Component C, Sha256} (c : C) : Digest :=
  value_digest (component_value c).

(** ** Agents *)

Record LogicalAgentVersion : Type := mk_agent_version { lav_name : string; lav_version : Z }.

#[export] Instance LogicalAgentVersion_eq_dec : EqDecision LogicalAgentVersion.
Proof. solve_decision. Defined.

(** The derived order: by name, then by version. *)
#[export] Instance LogicalAgentVersion_ord : Ord LogicalAgentVersion :=
  key_cmp (fun a => (lav_name a, lav_version a)) cmp.

Record Agent : Type := {
  ag_name : string;
  ag_version : Z;
  ag_enabled : bool;
  ag_current : bool;
  ag_accepts : list string;
  ag_competencies : list string;
  ag_route_policy : string;
  ag_execution_features : list string;
  ag_min_context_tokens : Z;
  ag_sandbox_profile : string;
  ag_sandbox_requirements : list string;
  ag_actions : list string;
  ag_soul : string;
  ag_behavior : string
}.

(** [Agent::identity]. *)
Definition identity (a : Agent) : LogicalAgentVersion := mk_agent_version (ag_name a) (ag_version a).

Record AgentComponent : Type := { agents : list Agent }.

(** A set-valued list, in sorted order. *)
Definition set_strings (values : list string) : Value := Array (map Str (sort values)).

Definition agent_entry_value (a : Agent) : Value :=
  object [
    ("name", Str (ag_name a));
    ("version", Integer (ag_version a));
    ("enabled", Bool (ag_enabled a));
    ("current", Bool (ag_current a));
    ("accepts", set_strings (ag_accepts a));
    ("competencies", set_strings (ag_competencies a));
    ("routePolicy", Str (ag_route_policy a));
    ("executionFeatures", set_strings (ag_execution_features a));
    ("minContextTokens", Integer (ag_min_context_tokens a));
    ("sandboxProfile", Str (ag_sandbox_profile a));
    ("sandboxRequirements", set_strings (ag_sandbox_requirements a));
    ("actions", set_strings (ag_actions a));
    ("soul", Str (ag_soul a));
    ("behavior", Str (ag_behavior a))].

Definition sorted_agents (l : list Agent) : list Agent := sort_by (key_cmp identity cmp) l.

#[export] Instance agent_component : Component AgentComponent := fun c =>
  object [("agents", Array (map agent_entry_value (sorted_agents (agents c))))].

(** ** Routing *)

Record RoutePolicy : Type := {
  rp_name : string;
  rp_priority : Z;
  rp_ordering : list string;
  rp_tie_break : string;
  rp_requires_keyed_launch : bool
}.

Definition route_policy_value (p : RoutePolicy) : Value :=
  object [
    ("name", Str (rp_name p));
    ("priority", Integer (rp_priority p));
    ("ordering", strings (rp_ordering p));
    ("tieBreak", Str (rp_tie_break p));
    ("requiresKeyedLaunch", Bool (rp_requires_keyed_launch p))].

Definition route_policy_digest `{Sha256} (p : RoutePolicy) : Digest :=
  value_digest (route_policy_value p).

Record RoutingComponent : Type := {
  policies : list RoutePolicy;
  agent_pins : list LogicalAgentVersion;
  agent_exclusions : list LogicalAgentVersion
}.

(** [agent_value]. *)
Definition agent_value (a : LogicalAgentVersion) : Value :=
  object [("name", Str (lav_name a)); ("version", Integer (lav_version a))].

Definition agent_references_value (values : list LogicalAgentVersion) : Value :=
  Array (map agent_value (sort values)).

Definition sorted_policies (l : list RoutePolicy) : list RoutePolicy :=
  sort_by (key_cmp rp_name cmp) l.

#[export] Instance routing_component : Component RoutingComponent := fun c =>
  object [
    ("policies", Array (map route_policy_value (sorted_policies (policies c))));
    ("agentPins", agent_references_value (agent_pins c));
    ("agentExclusions", agent_references_value (agent_exclusions c))].

(** ** Execution *)

Inductive IsolationClass : Type := TrustedHost | Container.

Definition isolation_class_as_str (c : IsolationClass) : string :=
  match c with
  | TrustedHost => "TRUSTED_HOST"
  | Container => "CONTAINER"
  end.

Definition can_isolate_control_plane (c : IsolationClass) : bool :=
  match c with
  | Container => true
  | TrustedHost => false
  end.

Inductive NetworkMode : Type := NetNone | NetBrokered.

Definition network_mode_as_str (m : NetworkMode) : string :=
  match m with
  | NetNone => "NONE"
  | NetBrokered => "BROKERED"
  end.

Record SandboxProfile : Type := {
  sp_name : string;
  sp_isolation_class : IsolationClass;
  sp_guarantees : list string;
  sp_network_mode : NetworkMode;
  sp_environment_identity : string
}.

Definition sandbox_profile_value (p : SandboxProfile) : Value :=
  object [
    ("name", Str (sp_name p));
    ("isolationClass", Str (isolation_class_as_str (sp_isolation_class p)));
    ("guarantees", set_strings (sp_guarantees p));
    ("networkMode", Str (network_mode_as_str (sp_network_mode p)));
    ("environmentIdentity", Str (sp_environment_identity p))].

Definition sandbox_profile_digest `{Sha256} (p : SandboxProfile) : Digest :=
  value_digest (sandbox_profile_value p).

Record BackendRegistration : Type := {
  br_backend_id : string;
  br_enabled : bool;
  br_selector : string
}.

Definition backend_value (b : BackendRegistration) : Value :=
  object [("backendId", Str (br_backend_id b)); ("enabled", Bool (br_enabled b));
          ("selector", Str (br_selector b))].

Record ExecutionComponent : Type := {
  profiles : list SandboxProfile;
  backends : list BackendRegistration
}.

#[export] Instance execution_component : Component ExecutionComponent := fun c =>
  object [("profiles", Array (map sandbox_profile_value (profiles c)));
          ("backends", Array (map backend_value (backends c)))].

(** ** Evaluators *)

Record EvaluatorRef : Type := { er_reference : string; er_current_version : string }.

Inductive EvaluatorKind : Type := KindCheck | KindSchema.

Definition evaluator_kind_as_str (k : EvaluatorKind) : string :=
  match k with
  | KindCheck => "check"
  | KindSchema => "schema"
  end.

Record EvaluatorVersion : Type := {
  ev_id : string;
  ev_kind : EvaluatorKind;
  ev_argv : list string;
  ev_timeout_ms : Z;
  ev_sandbox_profile : string;
  ev_result_protocol : string
}.

Record EvaluatorComponent : Type := {
  evaluator_refs : list EvaluatorRef;
  evaluator_versions : list EvaluatorVersion
}.

Definition evaluator_ref_value (r : EvaluatorRef) : Value :=
  object [("ref", Str (er_reference r)); ("currentVersion", Str (er_current_version r))].

Definition evaluator_version_value (v : EvaluatorVersion) : Value :=
  object [
    ("id", Str (ev_id v));
    ("kind", Str (evaluator_kind_as_str (ev_kind v)));
    ("argv", strings (ev_argv v));
    ("timeoutMs", Integer (ev_timeout_ms v));
    ("sandboxProfile", Str (ev_sandbox_profile v));
    ("resultProtocol", Str (ev_result_protocol v))].

#[export] Instance evaluator_component : Component EvaluatorComponent := fun c =>
  object [("refs", Array (map evaluator_ref_value (evaluator_refs c)));
          ("versions", Array (map evaluator_version_value (evaluator_versions c)))].

(** ** Context policy *)

Record ContextComponent : Type := {
  cc_schema_version : Z;
  cc_mandatory_sections : list string;
  cc_preload_priority : list string;
  cc_memory_limit_tokens : Z;
  cc_workspace_orientation_limit_tokens : Z;
  cc_safety_margin_tokens : Z;
  cc_optional_drop_order : list string
}.

#[export] Instance context_component : Component ContextComponent := fun c =>
  object [
    ("schemaVersion", Integer (cc_schema_version c));
    ("mandatorySections", strings (cc_mandatory_sections c));
    ("preloadPriority", strings (cc_preload_priority c));
    ("memoryLimitTokens", Integer (cc_memory_limit_tokens c));
    ("workspaceOrientationLimitTokens", Integer (cc_workspace_orientation_limit_tokens c));
    ("safetyMarginTokens", Integer (cc_safety_margin_tokens c));
    ("optionalDropOrder", strings (cc_optional_drop_order c))].

Inductive ContextPolicyDecodeError : Type :=
| CpNonString (name found : string)
| CpMissingOrMalformed (name : string)
| CpNotAnInteger (name found : string)
| CpMissing (name : string)
| CpSchemaVersion.

Definition cp_string_list (value : Value) (name : string) :
    Result (list string) ContextPolicyDecodeError :=
  match get value name with
  | Some (Array entries) =>
      collect (fun entry => match entry with
                            | Str text => Ok text
                            | other => Err (CpNonString name (kind other))
                            end) entries
  | _ => Err (CpMissingOrMalformed name)
  end.

Definition cp_integer (value : Value) (name : string) : Result Z ContextPolicyDecodeError :=
  match get value name with
  | Some (Integer number) => Ok number
  | Some other => Err (CpNotAnInteger name (kind other))
  | None => Err (CpMissing name)
  end.

(** [ContextComponent::from_canonical_value]. *)
Definition context_from_canonical_value (value : Value) :
    Result ContextComponent ContextPolicyDecodeError :=
  let? schema_version := cp_integer value "schemaVersion" in
  let? schema_version := ok_or (u32_try_from schema_version) CpSchemaVersion in
  let? mandatory_sections := cp_string_list value "mandatorySections" in
  let? preload_priority := cp_string_list value "preloadPriority" in
  let? memory_limit_tokens := cp_integer value "memoryLimitTokens" in
  let? orientation := cp_integer value "workspaceOrientationLimitTokens" in
  let? safety_margin_tokens := cp_integer value "safetyMarginTokens" in
  let? optional_drop_order := cp_string_list value "optionalDropOrder" in
  Ok {| cc_schema_version := schema_version;
        cc_mandatory_sections := mandatory_sections;
        cc_preload_priority := preload_priority;
        cc_memory_limit_tokens := memory_limit_tokens;
        cc_workspace_orientation_limit_tokens := orientation;
        cc_safety_margin_tokens := safety_margin_tokens;
        cc_optional_drop_order := optional_drop_order |}.

(** ** Authorization *)

Definition HARD_POLICY_VERSION : string := "pantheon-hard-policy-v1".

Inductive RuleEffect : Type := Permit | Forbid.

#[export] Instance RuleEffect_eq_dec : EqDecision RuleEffect.
Proof. solve_decision. Defined.

Definition rule_effect_as_str (e : RuleEffect) : string :=
  match e with
  | Permit => "permit"
  | Forbid => "forbid"
  end.

Record AuthorizationRule : Type := { ar_action : string; ar_effect : RuleEffect }.

Record AuthorizationComponent : Type := {
  az_schema_version : Z;
  az_rules : list AuthorizationRule
}.

Definition rule_value (r : AuthorizationRule) : Value :=
  object [("action", Str (ar_action r)); ("effect", Str (rule_effect_as_str (ar_effect r)))].

#[export] Instance authorization_component : Component AuthorizationComponent := fun c =>
  object [
    ("schemaVersion", Integer (az_schema_version c));
    ("hardPolicyVersion", Str HARD_POLICY_VERSION);
    ("rules", Array (map rule_value (az_rules c)))].

(** ** The revision *)

Definition COMPILER_VERSION : string := "pantheon-config-v3".

Record ComponentDigests : Type := {
  cd_agents : Digest;
  cd_routing : Digest;
  cd_execution_profile : Digest;
  cd_evaluator_registry : Digest;
  cd_context_policy : Digest;
  cd_authorization : Digest
}.

#[export] Instance ComponentDigests_eq_dec : EqDecision ComponentDigests.
Proof. solve_decision. Defined.

Definition component_digests_value (d : ComponentDigests) : Value :=
  object [
    ("agents", Str (to_display (cd_agents d)));
    ("routing", Str (to_display (cd_routing d)));
    ("executionProfiles", Str (to_display (cd_execution_profile d)));
    ("evaluators", Str (to_display (cd_evaluator_registry d)));
    ("context", Str (to_display (cd_context_policy d)));
    ("authorization", Str (to_display (cd_authorization d)))].

(** [ComponentDigests::revision_digest]. *)
Definition digests_revision_digest `{Sha256} (d : ComponentDigests) (compiler_version : string) :
    Digest :=
  value_digest (object [("compilerVersion", Str compiler_version);
                        ("components", component_digests_value d)]).

Record CompiledConfiguration : Type := {
  cfg_agents : AgentComponent;
  cfg_routing : RoutingComponent;
  cfg_execution : ExecutionComponent;
  cfg_evaluators : EvaluatorComponent;
  cfg_context : ContextComponent;
  cfg_authorization : AuthorizationComponent
}.

Section Revision.
Context `{Sha256}.

Definition record_of {C} `{Component C} (domain : string) (c : C) : string * Digest * string :=
  let bytes := to_canonical_bytes (component_value c) in
  (domain, digest_of bytes, if utf8_valid bytes then bytes else EmptyString).

Definition component_records (c : CompiledConfiguration) : list (string * Digest * string) := [
  record_of "agents" (cfg_agents c);
  record_of "routing" (cfg_routing c);
  record_of "executionProfiles" (cfg_execution c);
  record_of "evaluators" (cfg_evaluators c);
  record_of "context" (cfg_context c);
  record_of "authorization" (cfg_authorization c)].

Definition component_digests (c : CompiledConfiguration) : ComponentDigests := {|
  cd_agents := component_digest (cfg_agents c);
  cd_routing := component_digest (cfg_routing c);
  cd_execution_profile := component_digest (cfg_execution c);
  cd_evaluator_registry := component_digest (cfg_evaluators c);
  cd_context_policy := component_digest (cfg_context c);
  cd_authorization := component_digest (cfg_authorization c) |}.

(** [CompiledConfiguration::revision_digest]. *)
Definition revision_digest (c : CompiledConfiguration) : Digest :=
  digests_revision_digest (component_digests c) COMPILER_VERSION.

Definition source_set_digest (sources : list (string * string)) : Digest :=
  let sorted := sort_by (key_cmp fst cmp) sources in
  value_digest (Array (map (fun s =>
    object [("name", Str s.1); ("contentDigest", Str (to_display (digest_of s.2)))]) sorted)).
End Revision.

(** ** Orders *)

#[export] Instance LogicalAgentVersion_total : TotalOrder (cmp (A:=LogicalAgentVersion)).
Proof.
  split; [apply key_cmp_comparator; apply _|].
  intros [n v] [n' v'] E. unfold cmp, LogicalAgentVersion_ord, key_cmp in E.
  apply (total_order_eq cmp) in E. cbn in E. by injection E as -> ->.
Qed.

(** ** Sets are listed in one order *)

Lemma set_strings_perm l1 l2 : l1 ≡ₚ l2 → set_strings l1 = set_strings l2.
Proof.
  intros Hp. unfold set_strings, sort. rewrite (sort_by_unique cmp l1 l2); [done| |done].
  intros x y _ _. apply (total_order_eq cmp).
Qed.

Lemma wf_set_strings l : all_valid l = true → wf_value (set_strings l) = true.
Proof.
  intros H. apply wf_array_map. intros s Hs. cbn. unfold sort in Hs.
  rewrite (sort_by_perm cmp) in Hs. by eapply all_valid_elem.
Qed.

#[export] Hint Resolve wf_set_strings : pantheon.

(** Two agents that differ only in how their sets are listed. *)
Definition same_agent (a b : Agent) : Prop :=
  ag_name a = ag_name b ∧ ag_version a = ag_version b ∧ ag_enabled a = ag_enabled b ∧
  ag_current a = ag_current b ∧ ag_accepts a ≡ₚ ag_accepts b ∧
  ag_competencies a ≡ₚ ag_competencies b ∧ ag_route_policy a = ag_route_policy b ∧
  ag_execution_features a ≡ₚ ag_execution_features b ∧
  ag_min_context_tokens a = ag_min_context_tokens b ∧
  ag_sandbox_profile a = ag_sandbox_profile b ∧
  ag_sandbox_requirements a ≡ₚ ag_sandbox_requirements b ∧ ag_actions a ≡ₚ ag_actions b ∧
  ag_soul a = ag_soul b ∧ ag_behavior a = ag_behavior b.

Lemma agent_entry_value_same a b : same_agent a b → agent_entry_value a = agent_entry_value b.
Proof.
  intros (H1 & H2 & H3 & H4 & H5 & H6 & H7 & H8 & H9 & H10 & H11 & H12 & H13 & H14).
  unfold agent_entry_value. by rewrite H1, H2, H3, H4, (set_strings_perm _ _ H5),
    (set_strings_perm _ _ H6), H7, (set_strings_perm _ _ H8), H9, H10,
    (set_strings_perm _ _ H11), (set_strings_perm _ _ H12), H13, H14.
Qed.

(** The agents component does not depend on the order the agents are declared. *)
Lemma agent_component_perm c1 c2 :
  NoDup (map identity (agents c1)) → agents c1 ≡ₚ agents c2 →
  component_value c1 = component_value c2.
Proof.
  intros Hnd Hp. unfold component_value, agent_component, sorted_agents.
  by rewrite (sort_by_key_perm identity cmp _ _ Hnd Hp).
Qed.

(** ** Stored context policies *)

Definition wf_context (c : ContextComponent) : bool :=
  in_u32 (cc_schema_version c) && all_valid (cc_mandatory_sections c)
  && all_valid (cc_preload_priority c) && in_i64 (cc_memory_limit_tokens c)
  && in_i64 (cc_workspace_orientation_limit_tokens c) && in_i64 (cc_safety_margin_tokens c)
  && all_valid (cc_optional_drop_order c).

Lemma context_value_wf c : wf_context c = true → wf_value (component_value c) = true.
Proof.
  unfold wf_context, component_value, context_component. intros H. split_andb. wf_parts;
    auto with pantheon.
Qed.

Lemma context_from_value c :
  wf_context c = true → context_from_canonical_value (component_value c) = Ok c.
Proof.
  unfold wf_context. intros H. split_andb.
  unfold context_from_canonical_value, component_value, context_component, cp_string_list,
    cp_integer, strings. get_fields. cbn [try_bind].
  rewrite u32_try_from_in by done. cbn [ok_or try_bind].
  rewrite !collect_strings by done. cbn [try_bind]. by destruct c.
Qed.

(** ** Evaluator registries *)

Definition wf_evaluator_version (v : EvaluatorVersion) : bool :=
  utf8_valid (ev_id v) && all_valid (ev_argv v) && in_i64 (ev_timeout_ms v)
  && utf8_valid (ev_sandbox_profile v) && utf8_valid (ev_result_protocol v).

Definition wf_evaluators (c : EvaluatorComponent) : bool :=
  forallb (fun r => utf8_valid (er_reference r) && utf8_valid (er_current_version r))
    (evaluator_refs c)
  && forallb wf_evaluator_version (evaluator_versions c).

Lemma evaluators_value_wf c : wf_evaluators c = true → wf_value (component_value c) = true.
Proof.
  unfold wf_evaluators, component_value, evaluator_component. intros H. split_andb. wf_parts.
  - eapply forallb_True in H; [|done]. split_andb. unfold evaluator_ref_value. wf_parts.
  - eapply forallb_True in H0; [|done]. unfold wf_evaluator_version in H0. split_andb.
    unfold evaluator_version_value. wf_parts; auto with pantheon. by destruct (ev_kind x).
Qed.

(** ** Revision identity *)

Definition wf_digests (d : ComponentDigests) : bool :=
  wf_digest (cd_agents d) && wf_digest (cd_routing d) && wf_digest (cd_execution_profile d)
  && wf_digest (cd_evaluator_registry d) && wf_digest (cd_context_policy d)
  && wf_digest (cd_authorization d).

Section RevisionFacts.
Context `{Sha256}.

Lemma component_digests_wf c : wf_digests (component_digests c) = true.
Proof. unfold wf_digests, component_digests, component_digest, value_digest. cbn -[wf_digest].
  by rewrite !digest_of_wf.
Qed.

Lemma component_digests_value_inj d e :
  wf_digests d = true → wf_digests e = true →
  component_digests_value d = component_digests_value e → d = e.
Proof.
  unfold wf_digests, component_digests_value. intros Hd He Heq. split_andb.
  field_eq Heq "agents". field_eq Heq "routing". field_eq Heq "executionProfiles".
  field_eq Heq "evaluators". field_eq Heq "context". field_eq Heq "authorization".
  apply to_display_inj in E, E0, E1, E2, E3, E4; try done. destruct d, e; cbn in *. by subst.
Qed.

Lemma component_digests_value_wf d : wf_value (component_digests_value d) = true.
Proof. unfold component_digests_value. wf_parts. Qed.

(** The text a revision digest is taken over. *)
Definition revision_text (c : CompiledConfiguration) : string :=
  to_canonical_bytes (object [("compilerVersion", Str COMPILER_VERSION); ("components", component_digests_value (component_digests c))]).

(** The canonical texts of the six components. *)
Definition component_texts (c : CompiledConfiguration) : list string :=
  [to_canonical_bytes (component_value (cfg_agents c)); to_canonical_bytes (component_value (cfg_routing c));
   to_canonical_bytes (component_value (cfg_execution c)); to_canonical_bytes (component_value (cfg_evaluators c));
   to_canonical_bytes (component_value (cfg_context c)); to_canonical_bytes (component_value (cfg_authorization c))].

(** Lists of texts with equal digests: the same texts, or two at one place clash. *)
Lemma digests_of_eq l1 l2 :
  map digest_of l1 = map digest_of l2 → l1 = l2 ∨ ∃ i a b, l1 !! i = Some a ∧ l2 !! i = Some b ∧ clash a b.
Proof.
  revert l2. induction l1 as [|a l1 IH]; intros [|b l2] Heq; try done; [by left|]. cbn [map] in Heq.
  injection Heq as Hd Hl. destruct (digest_of_eq a b) as [->|Hc]; [unfold digest_of; by rewrite Hd| |right; by exists 0, a, b].
  destruct (IH _ Hl) as [->|(i & x & y & Hx & Hy & Hc)]; [by left|right; by exists (S i), x, y].
Qed.

(** Equal revision digests: equal component digests, or the two revision texts clash. *)
Lemma revision_digest_identity c1 c2 :
  revision_digest c1 = revision_digest c2 →
  component_digests c1 = component_digests c2 ∨ clash (revision_text c1) (revision_text c2).
Proof.
  intros Heq. unfold revision_digest, digests_revision_digest in Heq.
  pose proof (component_digests_value_wf (component_digests c1)). pose proof (component_digests_value_wf (component_digests c2)).
  apply value_digest_eq in Heq as [Heq|Hc]; [|by right|wf_parts|wf_parts].
  left. field_eq Heq "components". by apply component_digests_value_inj; [apply component_digests_wf..|].
Qed.

(** What a record stores is the digest's preimage. *)
Lemma record_of_spec {C} `{Component C} domain (c : C) :
  wf_value (component_value c) = true →
  record_of domain c = (domain, component_digest c, to_canonical_bytes (component_value c)).
Proof.
  intros Hw. unfold record_of, component_digest, value_digest, to_canonical_bytes.
  by rewrite (write_canonical_valid _ Hw).
Qed.

Lemma source_set_perm s1 s2 :
  NoDup (map fst s1) → s1 ≡ₚ s2 → source_set_digest s1 = source_set_digest s2.
Proof.
  intros Hnd Hp. unfold source_set_digest.
  by rewrite (sort_by_key_perm fst cmp s1 s2 Hnd Hp).
Qed.
End RevisionFacts.

(** ** Stored agents *)

Definition wf_agent (a : Agent) : bool :=
  utf8_valid (ag_name a) && in_u32 (ag_version a) && all_valid (ag_accepts a)
  && all_valid (ag_competencies a) && utf8_valid (ag_route_policy a)
  && all_valid (ag_execution_features a) && in_i64 (ag_min_context_tokens a)
  && utf8_valid (ag_sandbox_profile a) && all_valid (ag_sandbox_requirements a)
  && all_valid (ag_actions a) && utf8_valid (ag_soul a) && utf8_valid (ag_behavior a).

Lemma agent_entry_value_wf a : wf_agent a = true → wf_value (agent_entry_value a) = true.
Proof.
  unfold wf_agent, agent_entry_value. intros H. split_andb. wf_parts; auto with pantheon.
Qed.

Lemma agents_value_wf c : forallb wf_agent (agents c) = true → wf_value (component_value c) = true.
Proof.
  intros H. unfold component_value, agent_component. wf_parts.
  apply agent_entry_value_wf. eapply forallb_True in H; [exact H|].
  by apply (elem_of_sort_by (key_cmp identity cmp)).
Qed.

(** ** Claims *)

(** A revision digest identifies every component: two configurations with the same
    revision digest have the same six canonical texts, or a collision of SHA-256 is in
    hand, between the two revision texts or between two texts of one component. *)
Theorem revision_digest_binds `{Sha256} c1 c2 :
  revision_digest c1 = revision_digest c2 →
  component_texts c1 = component_texts c2 ∨ clash (revision_text c1) (revision_text c2) ∨
  ∃ i a b, component_texts c1 !! i = Some a ∧ component_texts c2 !! i = Some b ∧ clash a b.
Proof.
  intros [Heq|]%revision_digest_identity; [|by auto].
  assert (map digest_of (component_texts c1) = map digest_of (component_texts c2)) as [|]%digests_of_eq; [|by auto..].
  assert (∀ c, map digest_of (component_texts c) =
    (fun d => [cd_agents d; cd_routing d; cd_execution_profile d; cd_evaluator_registry d; cd_context_policy d; cd_authorization d])
      (component_digests c)) as Hall by done.
  by rewrite !Hall, Heq.
Qed.

Definition empty_configuration : CompiledConfiguration := {|
  cfg_agents := {| agents := [] |};
  cfg_routing := {| policies := []; agent_pins := []; agent_exclusions := [] |};
  cfg_execution := {| profiles := []; backends := [] |};
  cfg_evaluators := {| evaluator_refs := []; evaluator_versions := [] |};
  cfg_context := {| cc_schema_version := 1; cc_mandatory_sections := []; cc_preload_priority := [];
                    cc_memory_limit_tokens := 1; cc_workspace_orientation_limit_tokens := 1;
                    cc_safety_margin_tokens := 1; cc_optional_drop_order := [] |};
  cfg_authorization := {| az_schema_version := 1; az_rules := [] |} |}.

Lemma revision_digest_binds_witness :
  @revision_digest prefix_hash empty_configuration = @revision_digest prefix_hash empty_configuration ∧
  (component_texts empty_configuration = component_texts empty_configuration ∨
   @clash prefix_hash (@revision_text prefix_hash empty_configuration) (@revision_text prefix_hash empty_configuration) ∨
   ∃ i a b, component_texts empty_configuration !! i = Some a ∧ component_texts empty_configuration !! i = Some b ∧
     @clash prefix_hash a b).
Proof. split; [reflexivity | apply (@revision_digest_binds prefix_hash); reflexivity]. Defined.
