(* ===== verification/Compile.v ===== *)
(** * Compiling configuration
      ([pantheon-core/src/config/reader.rs], [error.rs], [compile.rs], [validate.rs])

    Source text to parsed value, each component read field by field in the order
    of the code, then the cross-reference rules over the whole candidate. *)

From Stdlib Require Import ZArith NArith Ascii.
From S2P Require Import Prelude Utf8 Canonical Parse ParseFacts Digest Goal ConfigModel.

(** ** Errors *)

(** Why a field's value is unacceptable. *)
Inductive InvalidDetail : Type :=
| Expected (wanted found : string)
| MustNotBeEmpty
| MustBePositive (found : Z)
| NotACanonicalAction (action : string)
| DoesNotFit32Bits
| TooLong (bound : N)
| UnknownName (what name : string)
| MustNameAnExecutable
| MustContainAValue
| UnknownField (name : string).

Inductive Incompatibility : Type :=
| TwoCurrentVersions (agent : string)
| GuaranteeNotAsserted (agent required profile : string)
| CannotIsolate (agent action profile : string)
| GuaranteeMissing (agent action profile : string)
| PinnedAndExcluded (agent : LogicalAgentVersion)
| MandatoryDropped (section : string).

Inductive ConfigError : Type :=
| Malformed (s : Stop)
| MissingField (path : string)
| InvalidField (path : string) (detail : InvalidDetail)
| DuplicateIdentity (kind id : string)
| UnknownReference (from kind id : string)
| IncompatibleCombination (detail : Incompatibility)
| HardPolicyViolation (detail : string).

Definition config_error_kind (e : ConfigError) : string :=
  match e with
  | Malformed _ => "malformed"
  | MissingField _ => "missing-field"
  | InvalidField _ _ => "invalid-value"
  | DuplicateIdentity _ _ => "duplicate-identity"
  | UnknownReference _ _ _ => "unknown-reference"
  | IncompatibleCombination _ => "incompatible-combination"
  | HardPolicyViolation _ => "hard-policy-violation"
  end.

(** ** Field access *)

Definition path_of (prefix key : string) : string :=
  if is_empty prefix then key else prefix +:+ ("." +:+ key).

Definition field (value : Value) (prefix key : string) : Result Value ConfigError :=
  ok_or (get value key) (MissingField (path_of prefix key)).

Definition as_str (value : Value) (at_ : string) : Result string ConfigError :=
  match value with
  | Str text => Ok text
  | other => Err (InvalidField at_ (Expected "a string" (kind other)))
  end.

Definition as_i64 (value : Value) (at_ : string) : Result Z ConfigError :=
  match value with
  | Integer number => Ok number
  | other => Err (InvalidField at_ (Expected "an integer" (kind other)))
  end.

Definition as_bool (value : Value) (at_ : string) : Result bool ConfigError :=
  match value with
  | Bool flag => Ok flag
  | other => Err (InvalidField at_ (Expected "a boolean" (kind other)))
  end.

Definition as_array (value : Value) (at_ : string) : Result (list Value) ConfigError :=
  match value with
  | Array values => Ok values
  | other => Err (InvalidField at_ (Expected "an array" (kind other)))
  end.

Definition string_list (parent : Value) (prefix key : string) :
    Result (list string) ConfigError :=
  let at_ := path_of prefix key in
  let? raw := field parent prefix key in
  let? entries := as_array raw at_ in
  collect (fun entry => as_str entry at_) entries.

Definition non_empty (text at_ : string) : Result unit ConfigError :=
  if is_empty text then Err (InvalidField at_ MustNotBeEmpty) else Ok tt.

Definition positive (number : Z) (at_ : string) : Result unit ConfigError :=
  if (number <=? 0)%Z then Err (InvalidField at_ (MustBePositive number)) else Ok tt.

(** Rejects a repeated identity; gives the identities seen so far. *)
Definition unique (seen : list string) (kind id : string) : Result (list string) ConfigError :=
  if existsb (fun existing => String.eqb existing id) seen
  then Err (DuplicateIdentity kind id) else Ok (seen ++ [id]).

(** [as_str(field(..)?, &path(..))?]. *)
Definition str_field (entry : Value) (prefix key : string) : Result string ConfigError :=
  let? raw := field entry prefix key in as_str raw (path_of prefix key).

Definition i64_field (entry : Value) (prefix key : string) : Result Z ConfigError :=
  let? raw := field entry prefix key in as_i64 raw (path_of prefix key).

Definition bool_field (entry : Value) (prefix key : string) : Result bool ConfigError :=
  let? raw := field entry prefix key in as_bool raw (path_of prefix key).

Definition array_field (entry : Value) (prefix key : string) : Result (list Value) ConfigError :=
  let? raw := field entry prefix key in as_array raw (path_of prefix key).

(** A string field that must not be empty. *)
Definition name_field (entry : Value) (prefix key : string) : Result string ConfigError :=
  let? name := str_field entry prefix key in
  do? non_empty name (path_of prefix key) in
  Ok name.

(** An integer field that must be positive. *)
Definition positive_field (entry : Value) (prefix key : string) : Result Z ConfigError :=
  let? number := i64_field entry prefix key in
  do? positive number (path_of prefix key) in
  Ok number.

Definition optional_bool (parent : Value) (prefix key : string) (default : bool) :
    Result bool ConfigError :=
  match get parent key with
  | None => Ok default
  | Some value => as_bool value (path_of prefix key)
  end.

Definition optional_i64 (parent : Value) (prefix key : string) (default : Z) :
    Result Z ConfigError :=
  match get parent key with
  | None => Ok default
  | Some value => as_i64 value (path_of prefix key)
  end.

Definition non_empty_list (values : list string) (at_ : string) : Result unit ConfigError :=
  match values with
  | [] => Err (InvalidField at_ MustContainAValue)
  | _ => Ok tt
  end.

Definition unique_list (values : list string) (kind : string) : Result unit ConfigError :=
  do? try_fold (fun seen value => unique seen kind value) [] values in Ok tt.

Definition reject_unknown_fields (value : Value) (prefix : string) (allowed : list string) :
    Result unit ConfigError :=
  match value with
  | Object fields =>
      match find_first (fun f => negb (contains allowed f.1)) fields with
      | Some unknown => Err (InvalidField prefix (UnknownField unknown.1))
      | None => Ok tt
      end
  | _ => Ok tt
  end.

Definition to_u32 (version : Z) (at_ : string) : Result Z ConfigError :=
  ok_or (u32_try_from version) (InvalidField at_ DoesNotFit32Bits).

(** [format!("{name}@{version}")]. *)
Definition agent_identity_text (name : string) (version : Z) : string :=
  name +:+ ("@" +:+ i64_to_string version).

(** [for (index, entry) in entries.iter().enumerate()] with the identities seen
    so far; each round appends what it compiled. *)
Fixpoint compile_entries {A} (name : string)
    (f : string → list string → Value → Result (list string * A) ConfigError)
    (index : N) (seen : list string) (entries : list Value) : Result (list A) ConfigError :=
  match entries with
  | [] => Ok []
  | entry :: rest =>
      let prefix := name +:+ ("[" +:+ (u64_to_string index +:+ "]")) in
      let? (seen', a) := f prefix seen entry in
      let? compiled := compile_entries name f (index + 1) seen' rest in
      Ok (a :: compiled)
  end.

(** ** Vocabularies and bounds *)

Definition CONTROL_PLANE_ACTIONS : list string := ["shell.execute"; "process.spawn"].
Definition CONTROL_PLANE_GUARANTEE : string := "isolation.control-plane".
Definition ACTIONS : list string := [
  "filesystem.read"; "filesystem.write"; "filesystem.delete"; "shell.execute"; "process.spawn";
  "artifact.read"; "artifact.seal"; "secret.read"; "secret.use"].
Definition HARD_DENIED_ACTION : string := "secret.read".
Definition ROUTE_PREFERENCE_KEYS : list string := ["contextCapacity"].
Definition ROUTE_TIE_BREAK_KEYS : list string := ["backendId"; "agentId"].
Definition MAX_GUIDANCE_CHARS : N := 8192.

(** ** Components *)

Definition AGENT_FIELDS : list string := [
  "name"; "version"; "enabled"; "current"; "accepts"; "competencies"; "routePolicy";
  "executionFeatures"; "minContextTokens"; "sandboxProfile"; "sandboxRequirements"; "actions";
  "soul"; "behavior"].

Definition check_action (prefix : string) (agent action : string) : Result unit ConfigError :=
  if negb (contains ACTIONS action)
  then Err (InvalidField (path_of prefix "actions") (NotACanonicalAction action))
  else if String.eqb action HARD_DENIED_ACTION then Err (HardPolicyViolation agent)
  else Ok tt.

(** The bounded SOUL or BEHAVIOR body. *)
Definition guidance (entry : Value) (prefix key : string) : Result string ConfigError :=
  let? text := name_field entry prefix key in
  if (MAX_GUIDANCE_CHARS <? N.of_nat (length (chars text)))%N
  then Err (InvalidField (path_of prefix key) (TooLong MAX_GUIDANCE_CHARS))
  else Ok text.

Definition compile_agent (prefix : string) (seen : list string) (entry : Value) :
    Result (list string * Agent) ConfigError :=
  do? reject_unknown_fields entry prefix AGENT_FIELDS in
  let? name := name_field entry prefix "name" in
  let? version := positive_field entry prefix "version" in
  let? seen := unique seen "Agent version" (agent_identity_text name version) in
  let? min_context_tokens := positive_field entry prefix "minContextTokens" in
  let? actions := string_list entry prefix "actions" in
  do? unique_list actions "agent action" in
  do? for_each (check_action prefix name) actions in
  let? accepts := string_list entry prefix "accepts" in
  do? non_empty_list accepts (path_of prefix "accepts") in
  do? unique_list accepts "accepts entry" in
  let? competencies := string_list entry prefix "competencies" in
  do? non_empty_list competencies (path_of prefix "competencies") in
  do? unique_list competencies "competency" in
  let? soul := guidance entry prefix "soul" in
  let? behavior := guidance entry prefix "behavior" in
  let? version := to_u32 version (path_of prefix "version") in
  let? enabled := optional_bool entry prefix "enabled" true in
  let? current := optional_bool entry prefix "current" true in
  let? route_policy := str_field entry prefix "routePolicy" in
  let? features := string_list entry prefix "executionFeatures" in
  do? unique_list features "execution feature" in
  let? sandbox_profile := str_field entry prefix "sandboxProfile" in
  let? requirements := string_list entry prefix "sandboxRequirements" in
  do? unique_list requirements "sandbox requirement" in
  Ok (seen, {|
    ag_name := name; ag_version := version; ag_enabled := enabled; ag_current := current;
    ag_accepts := accepts; ag_competencies := competencies; ag_route_policy := route_policy;
    ag_execution_features := features; ag_min_context_tokens := min_context_tokens;
    ag_sandbox_profile := sandbox_profile; ag_sandbox_requirements := requirements;
    ag_actions := actions; ag_soul := soul; ag_behavior := behavior |}).

Definition compile_agents (value : Value) : Result AgentComponent ConfigError :=
  let? entries := as_array value "agents" in
  let? compiled := compile_entries "agents" compile_agent 0 [] entries in
  Ok {| agents := compiled |}.

Definition check_known (known : list string) (what at_ key : string) : Result unit ConfigError :=
  if negb (contains known key) then Err (InvalidField at_ (UnknownName what key)) else Ok tt.

Definition compile_policy (prefix : string) (seen : list string) (entry : Value) :
    Result (list string * RoutePolicy) ConfigError :=
  let? name := name_field entry prefix "name" in
  let? seen := unique seen "route policy" name in
  let? priority := optional_i64 entry prefix "priority" 0 in
  let? ordering := string_list entry prefix "ordering" in
  do? for_each (check_known ROUTE_PREFERENCE_KEYS "route preference key"
                  (path_of prefix "ordering")) ordering in
  let? tie_break := name_field entry prefix "tieBreak" in
  do? check_known ROUTE_TIE_BREAK_KEYS "route tie-break key" (path_of prefix "tieBreak") tie_break in
  let? requires_keyed_launch := optional_bool entry prefix "requiresKeyedLaunch" true in
  Ok (seen, {| rp_name := name; rp_priority := priority; rp_ordering := ordering;
               rp_tie_break := tie_break; rp_requires_keyed_launch := requires_keyed_launch |}).

Definition compile_reference (prefix : string) (seen : list string) (entry : Value) :
    Result (list string * LogicalAgentVersion) ConfigError :=
  let? name := name_field entry prefix "name" in
  let? version := positive_field entry prefix "version" in
  let? version := to_u32 version (path_of prefix "version") in
  let? seen := unique seen "agent reference" (agent_identity_text name version) in
  Ok (seen, mk_agent_version name version).

Definition agent_references (value : Value) (key : string) :
    Result (list LogicalAgentVersion) ConfigError :=
  let at_ := path_of "routing" key in
  match get value key with
  | None => Ok []
  | Some raw =>
      let? entries := as_array raw at_ in
      compile_entries at_ compile_reference 0 [] entries
  end.

Definition compile_routing (value : Value) : Result RoutingComponent ConfigError :=
  let? entries := array_field value "routing" "policies" in
  let? policies := compile_entries "routing.policies" compile_policy 0 [] entries in
  let? pins := agent_references value "agentPins" in
  let? exclusions := agent_references value "agentExclusions" in
  Ok {| policies := policies; agent_pins := pins; agent_exclusions := exclusions |}.

Definition parse_isolation_class (text at_ : string) : Result IsolationClass ConfigError :=
  if String.eqb text "TRUSTED_HOST" then Ok TrustedHost
  else if String.eqb text "CONTAINER" then Ok Container
  else Err (InvalidField at_ (UnknownName "isolation class" text)).

Definition parse_network_mode (text at_ : string) : Result NetworkMode ConfigError :=
  if String.eqb text "NONE" then Ok NetNone
  else if String.eqb text "BROKERED" then Ok NetBrokered
  else Err (InvalidField at_ (UnknownName "network mode" text)).

Definition compile_profile (prefix : string) (seen : list string) (entry : Value) :
    Result (list string * SandboxProfile) ConfigError :=
  let? name := name_field entry prefix "name" in
  let? seen := unique seen "sandbox profile" name in
  let? class_text := str_field entry prefix "isolationClass" in
  let? isolation_class := parse_isolation_class class_text (path_of prefix "isolationClass") in
  let? network_text := str_field entry prefix "networkMode" in
  let? network_mode := parse_network_mode network_text (path_of prefix "networkMode") in
  let? environment_identity := name_field entry prefix "environmentIdentity" in
  let? guarantees := string_list entry prefix "guarantees" in
  do? unique_list guarantees "sandbox guarantee" in
  Ok (seen, {| sp_name := name; sp_isolation_class := isolation_class;
               sp_guarantees := guarantees; sp_network_mode := network_mode;
               sp_environment_identity := environment_identity |}).

Definition compile_backend (prefix : string) (seen : list string) (entry : Value) :
    Result (list string * BackendRegistration) ConfigError :=
  let? backend_id := name_field entry prefix "backendId" in
  let? seen := unique seen "backend" backend_id in
  let? selector := name_field entry prefix "selector" in
  let? enabled := bool_field entry prefix "enabled" in
  Ok (seen, {| br_backend_id := backend_id; br_enabled := enabled; br_selector := selector |}).

Definition compile_execution (value : Value) : Result ExecutionComponent ConfigError :=
  let? profile_entries := array_field value "execution" "profiles" in
  let? profiles := compile_entries "execution.profiles" compile_profile 0 [] profile_entries in
  let? backend_entries := array_field value "execution" "backends" in
  let? backends := compile_entries "execution.backends" compile_backend 0 [] backend_entries in
  Ok {| profiles := profiles; backends := backends |}.

Definition parse_evaluator_kind (text at_ : string) : Result EvaluatorKind ConfigError :=
  if String.eqb text "check" then Ok KindCheck
  else if String.eqb text "schema" then Ok KindSchema
  else Err (InvalidField at_ (UnknownName "evaluator kind" text)).

Definition compile_version (prefix : string) (seen : list string) (entry : Value) :
    Result (list string * EvaluatorVersion) ConfigError :=
  let? id := name_field entry prefix "id" in
  let? seen := unique seen "evaluator version" id in
  let? kind_text := str_field entry prefix "kind" in
  let? kind := parse_evaluator_kind kind_text (path_of prefix "kind") in
  let? argv := string_list entry prefix "argv" in
  do? match argv with
      | [] => Err (InvalidField (path_of prefix "argv") MustNameAnExecutable)
      | _ => Ok tt
      end in
  let? timeout_ms := positive_field entry prefix "timeoutMs" in
  let? result_protocol := name_field entry prefix "resultProtocol" in
  let? sandbox_profile := str_field entry prefix "sandboxProfile" in
  Ok (seen, {| ev_id := id; ev_kind := kind; ev_argv := argv; ev_timeout_ms := timeout_ms;
               ev_sandbox_profile := sandbox_profile; ev_result_protocol := result_protocol |}).

Definition compile_ref (prefix : string) (seen : list string) (entry : Value) :
    Result (list string * EvaluatorRef) ConfigError :=
  let? reference := name_field entry prefix "ref" in
  let? seen := unique seen "evaluator ref" reference in
  let? current_version := str_field entry prefix "currentVersion" in
  Ok (seen, {| er_reference := reference; er_current_version := current_version |}).

Definition compile_evaluators (value : Value) : Result EvaluatorComponent ConfigError :=
  let? version_entries := array_field value "evaluators" "versions" in
  let? versions := compile_entries "evaluators.versions" compile_version 0 [] version_entries in
  let? ref_entries := array_field value "evaluators" "refs" in
  let? refs := compile_entries "evaluators.refs" compile_ref 0 [] ref_entries in
  Ok {| evaluator_refs := refs; evaluator_versions := versions |}.

Definition compile_context (value : Value) : Result ContextComponent ConfigError :=
  let? schema_version := positive_field value "context" "schemaVersion" in
  let? memory := positive_field value "context" "memoryLimitTokens" in
  let? orientation := positive_field value "context" "workspaceOrientationLimitTokens" in
  let? safety := positive_field value "context" "safetyMarginTokens" in
  let? schema_version := to_u32 schema_version "context.schemaVersion" in
  let? mandatory := string_list value "context" "mandatorySections" in
  let? preload := string_list value "context" "preloadPriority" in
  let? drop_order := string_list value "context" "optionalDropOrder" in
  Ok {| cc_schema_version := schema_version; cc_mandatory_sections := mandatory;
        cc_preload_priority := preload; cc_memory_limit_tokens := memory;
        cc_workspace_orientation_limit_tokens := orientation;
        cc_safety_margin_tokens := safety; cc_optional_drop_order := drop_order |}.

Definition parse_effect (text at_ : string) : Result RuleEffect ConfigError :=
  if String.eqb text "permit" then Ok Permit
  else if String.eqb text "forbid" then Ok Forbid
  else Err (InvalidField at_ (UnknownName "effect" text)).

Definition compile_rule (prefix : string) (seen : list string) (entry : Value) :
    Result (list string * AuthorizationRule) ConfigError :=
  let action_at := path_of prefix "action" in
  let? action := str_field entry prefix "action" in
  do? (if negb (contains ACTIONS action)
       then Err (InvalidField action_at (NotACanonicalAction action)) else Ok tt) in
  let? effect_text := str_field entry prefix "effect" in
  let? effect := parse_effect effect_text (path_of prefix "effect") in
  if String.eqb action HARD_DENIED_ACTION && bool_decide (effect = Permit)
  then Err (HardPolicyViolation "authorization")
  else Ok (seen, {| ar_action := action; ar_effect := effect |}).

Definition compile_authorization (value : Value) : Result AuthorizationComponent ConfigError :=
  let? schema_version := positive_field value "authorization" "schemaVersion" in
  let? entries := array_field value "authorization" "rules" in
  let? rules := compile_entries "authorization.rules" compile_rule 0 [] entries in
  let? schema_version := to_u32 schema_version "authorization.schemaVersion" in
  Ok {| az_schema_version := schema_version; az_rules := rules |}.

(** ** Cross-references *)

Definition find_profile (c : CompiledConfiguration) (name : string) : option SandboxProfile :=
  find_first (fun p => String.eqb (sp_name p) name) (profiles (cfg_execution c)).

Definition check_isolation (agent : Agent) (profile : SandboxProfile) : Result unit ConfigError :=
  match find_first (contains CONTROL_PLANE_ACTIONS) (ag_actions agent) with
  | None => Ok tt
  | Some action =>
      if negb (can_isolate_control_plane (sp_isolation_class profile))
      then Err (IncompatibleCombination (CannotIsolate (ag_name agent) action (sp_name profile)))
      else if negb (existsb (fun g => String.eqb g CONTROL_PLANE_GUARANTEE) (sp_guarantees profile))
      then Err (IncompatibleCombination (GuaranteeMissing (ag_name agent) action (sp_name profile)))
      else Ok tt
  end.

(** Rules 1 to 3 for one agent. *)
Definition check_agent (c : CompiledConfiguration) (agent : Agent) : Result unit ConfigError :=
  if negb (contains (map rp_name (policies (cfg_routing c))) (ag_route_policy agent))
  then Err (UnknownReference (ag_name agent) "route policy" (ag_route_policy agent))
  else
    let? profile := ok_or (find_profile c (ag_sandbox_profile agent))
      (UnknownReference (ag_name agent) "sandbox profile" (ag_sandbox_profile agent)) in
    do? for_each (fun required =>
          if negb (contains (sp_guarantees profile) required)
          then Err (IncompatibleCombination
                      (GuaranteeNotAsserted (ag_name agent) required (sp_name profile)))
          else Ok tt) (ag_sandbox_requirements agent) in
    check_isolation agent profile.

(** One round of the loop over the agents, with the identities declared and the
    names that have a current version so far. *)
Definition cross_agent (c : CompiledConfiguration)
    (state : list LogicalAgentVersion * list string) (agent : Agent) :
    Result (list LogicalAgentVersion * list string) ConfigError :=
  let (declared_agents, current_names) := state in
  if contains declared_agents (identity agent)
  then Err (DuplicateIdentity "Agent version" (agent_identity_text (ag_name agent) (ag_version agent)))
  else
    let declared_agents := declared_agents ++ [identity agent] in
    let? current_names :=
      (if ag_current agent then
         if contains current_names (ag_name agent)
         then Err (IncompatibleCombination (TwoCurrentVersions (ag_name agent)))
         else Ok (current_names ++ [ag_name agent])
       else Ok current_names) in
    do? check_agent c agent in
    Ok (declared_agents, current_names).

Definition validate_agent_references (declared references : list LogicalAgentVersion)
    (kind : string) : Result unit ConfigError :=
  for_each (fun reference =>
    if negb (contains declared reference)
    then Err (UnknownReference kind "Agent version"
                (agent_identity_text (lav_name reference) (lav_version reference)))
    else Ok tt) references.

Definition cross_references (c : CompiledConfiguration) : Result unit ConfigError :=
  let? (declared, _) := try_fold (cross_agent c) ([], []) (agents (cfg_agents c)) in
  let routing := cfg_routing c in
  do? validate_agent_references declared (agent_pins routing) "pin" in
  do? validate_agent_references declared (agent_exclusions routing) "exclusion" in
  do? for_each (fun pin =>
        if contains (agent_exclusions routing) pin
        then Err (IncompatibleCombination (PinnedAndExcluded pin)) else Ok tt)
      (agent_pins routing) in
  do? for_each (fun version =>
        if negb (existsb (fun p => String.eqb (sp_name p) (ev_sandbox_profile version))
                   (profiles (cfg_execution c)))
        then Err (UnknownReference (ev_id version) "sandbox profile" (ev_sandbox_profile version))
        else Ok tt) (evaluator_versions (cfg_evaluators c)) in
  do? for_each (fun reference =>
        if negb (existsb (fun v => String.eqb (ev_id v) (er_current_version reference))
                   (evaluator_versions (cfg_evaluators c)))
        then Err (UnknownReference (er_reference reference) "evaluator version"
                    (er_current_version reference))
        else Ok tt) (evaluator_refs (cfg_evaluators c)) in
  let context := cfg_context c in
  do? for_each (fun section =>
        if contains (cc_mandatory_sections context) section
        then Err (IncompatibleCombination (MandatoryDropped section)) else Ok tt)
      (cc_optional_drop_order context) in
  for_each (fun section =>
    if negb (contains (cc_mandatory_sections context) section)
       && negb (contains (cc_optional_drop_order context) section)
    then Err (UnknownReference "context preload priority" "context section" section)
    else Ok tt) (cc_preload_priority context).

(** ** The pipeline *)

Definition compile_root (root : Value) : Result CompiledConfiguration ConfigError :=
  let? agents_value := field root EmptyString "agents" in
  let? agents := compile_agents agents_value in
  let? routing_value := field root EmptyString "routing" in
  let? routing := compile_routing routing_value in
  let? execution_value := field root EmptyString "execution" in
  let? execution := compile_execution execution_value in
  let? evaluators_value := field root EmptyString "evaluators" in
  let? evaluators := compile_evaluators evaluators_value in
  let? context_value := field root EmptyString "context" in
  let? context := compile_context context_value in
  let? authorization_value := field root EmptyString "authorization" in
  let? authorization := compile_authorization authorization_value in
  let compiled := {| cfg_agents := agents; cfg_routing := routing; cfg_execution := execution;
                     cfg_evaluators := evaluators; cfg_context := context;
                     cfg_authorization := authorization |} in
  do? cross_references compiled in
  Ok compiled.

Definition compile (source : string) : Result CompiledConfiguration ConfigError :=
  let? root := map_err Malformed (parse source) in
  compile_root root.
