(* ===== verification/CompileFacts.v ===== *)
(** * What a compiled configuration guarantees

    The declarative reading of the cross-reference rules and of the per-field
    checks, and that compilation establishes exactly them. *)

From Stdlib Require Import ZArith NArith Ascii Lia.
From S2P Require Import Prelude Utf8 Canonical Parse ParseFacts Digest Goal ConfigModel Compile.

(** ** Cross-references *)

Record consistent (c : CompiledConfiguration) : Prop := {
  con_identities : NoDup (map identity (agents (cfg_agents c)));
  con_current : NoDup (map ag_name (List.filter ag_current (agents (cfg_agents c))));
  con_route : ∀ a, a ∈ agents (cfg_agents c) →
    ag_route_policy a ∈ map rp_name (policies (cfg_routing c));
  con_profile : ∀ a, a ∈ agents (cfg_agents c) →
    ∃ p, find_profile c (ag_sandbox_profile a) = Some p ∧
      (∀ r, r ∈ ag_sandbox_requirements a → r ∈ sp_guarantees p) ∧
      (∀ act, act ∈ ag_actions a → act ∈ CONTROL_PLANE_ACTIONS →
         sp_isolation_class p = Container ∧ CONTROL_PLANE_GUARANTEE ∈ sp_guarantees p);
  con_pins : ∀ r, r ∈ agent_pins (cfg_routing c) →
    r ∈ map identity (agents (cfg_agents c)) ∧ r ∉ agent_exclusions (cfg_routing c);
  con_exclusions : ∀ r, r ∈ agent_exclusions (cfg_routing c) →
    r ∈ map identity (agents (cfg_agents c));
  con_versions : ∀ v, v ∈ evaluator_versions (cfg_evaluators c) →
    ∃ p, p ∈ profiles (cfg_execution c) ∧ sp_name p = ev_sandbox_profile v;
  con_refs : ∀ r, r ∈ evaluator_refs (cfg_evaluators c) →
    ∃ v, v ∈ evaluator_versions (cfg_evaluators c) ∧ ev_id v = er_current_version r;
  con_drop : ∀ s, s ∈ cc_optional_drop_order (cfg_context c) →
    s ∉ cc_mandatory_sections (cfg_context c);
  con_preload : ∀ s, s ∈ cc_preload_priority (cfg_context c) →
    s ∈ cc_mandatory_sections (cfg_context c) ∨ s ∈ cc_optional_drop_order (cfg_context c)
}.

(** A loop of guards: every element passes. *)
Lemma for_each_guard {A E} (b : A → bool) (e : A → E) l :
  for_each (fun x => if b x then Err (e x) else Ok tt) l = Ok tt ↔ ∀ x, x ∈ l → b x = false.
Proof.
  rewrite for_each_Ok. split; intros H x Hx; specialize (H x Hx); by destruct (b x).
Qed.

Lemma do_Ok {A E} (r : Result unit E) (k : Result A E) a :
  try_bind r (fun _ => k) = Ok a ↔ r = Ok tt ∧ k = Ok a.
Proof. rewrite try_bind_Ok. split; [by intros ([] & ? & ?) | intros [? ?]; by exists tt]. Qed.

Lemma existsb_name {A} (name : A → string) l s :
  existsb (fun x => String.eqb (name x) s) l = true ↔ ∃ x, x ∈ l ∧ name x = s.
Proof. rewrite existsb_True. by setoid_rewrite String.eqb_eq. Qed.

Lemma check_isolation_Ok a p :
  check_isolation a p = Ok tt ↔
  ∀ act, act ∈ ag_actions a → act ∈ CONTROL_PLANE_ACTIONS →
    sp_isolation_class p = Container ∧ CONTROL_PLANE_GUARANTEE ∈ sp_guarantees p.
Proof.
  unfold check_isolation. destruct (find_first _ (ag_actions a)) as [act|] eqn:E.
  - apply find_first_Some in E as [Hin Hc%contains_true].
    assert (existsb (fun g => String.eqb g CONTROL_PLANE_GUARANTEE) (sp_guarantees p) = true
            ↔ CONTROL_PLANE_GUARANTEE ∈ sp_guarantees p) as Hg.
    { rewrite existsb_True. setoid_rewrite String.eqb_eq. naive_solver. }
    setoid_rewrite <-Hg. destruct (sp_isolation_class p), (existsb _ _); cbn;
      (split; [try done; try (by intros _ ? ? ?) | intros H; specialize (H act Hin Hc); naive_solver]).
  - rewrite find_first_None in E. split; [|done]. intros _ act Hin Hc%contains_true.
    by rewrite E in Hc.
Qed.

Lemma check_agent_Ok c a :
  check_agent c a = Ok tt ↔
  ag_route_policy a ∈ map rp_name (policies (cfg_routing c)) ∧
  ∃ p, find_profile c (ag_sandbox_profile a) = Some p ∧
    (∀ r, r ∈ ag_sandbox_requirements a → r ∈ sp_guarantees p) ∧
    (∀ act, act ∈ ag_actions a → act ∈ CONTROL_PLANE_ACTIONS →
       sp_isolation_class p = Container ∧ CONTROL_PLANE_GUARANTEE ∈ sp_guarantees p).
Proof.
  unfold check_agent. rewrite <-contains_true. destruct (contains _ (ag_route_policy a)); cbn; [|naive_solver].
  destruct (find_profile c _) as [p|]; cbn; [|naive_solver].
  rewrite do_Ok, for_each_guard, check_isolation_Ok. setoid_rewrite negb_false_iff.
  setoid_rewrite contains_true. naive_solver.
Qed.

Lemma cross_agents_Ok c l ds ns ds' ns' :
  NoDup ds → NoDup ns →
  try_fold (cross_agent c) (ds, ns) l = Ok (ds', ns') ↔
  ds' = ds ++ map identity l ∧ ns' = ns ++ map ag_name (List.filter ag_current l) ∧
  NoDup ds' ∧ NoDup ns' ∧ ∀ a, a ∈ l → check_agent c a = Ok tt.
Proof.
  revert ds ns; induction l as [|a l IH]; intros ds ns Hds Hns; cbn [try_fold map List.filter].
  - rewrite !app_nil_r. split.
    + intros [= <- <-]. repeat split; try done. intros a Ha. by apply not_elem_of_nil in Ha.
    + by intros (-> & -> & _).
  - assert ((∀ y, y ∈ a :: l → check_agent c y = Ok tt) ↔
      (check_agent c a = Ok tt ∧ ∀ y, y ∈ l → check_agent c y = Ok tt)) as Hcons.
    { setoid_rewrite elem_of_cons. naive_solver. }
    rewrite Hcons. clear Hcons. rewrite try_bind_Ok. split.
    + intros ([ds1 ns1] & Hc & Hrest). unfold cross_agent in Hc.
      destruct (contains ds (identity a)) eqn:Hd; [done|]. apply contains_false in Hd.
      apply try_bind_Ok in Hc as (ns2 & Hn & Hc).
      apply do_Ok in Hc as [Hca [= <- <-]].
      assert (NoDup (ds ++ [identity a])) by (apply NoDup_snoc; done).
      destruct (ag_current a).
      * destruct (contains ns (ag_name a)) eqn:Hna; [done|]. injection Hn as <-.
        apply contains_false in Hna. apply IH in Hrest; [|done|by apply NoDup_snoc].
        rewrite <-!app_assoc in Hrest. naive_solver.
      * injection Hn as <-. apply IH in Hrest; [|done|done].
        rewrite <-!app_assoc in Hrest. naive_solver.
    + intros (-> & -> & Hnd & Hnn & Hca & Hall).
      assert (identity a ∉ ds) as Hd.
      { apply NoDup_app in Hnd as (_ & Hdis & _). intros Hin. eapply Hdis; [exact Hin|left]. }
      exists (ds ++ [identity a], if ag_current a then ns ++ [ag_name a] else ns). split.
      * unfold cross_agent. rewrite (proj2 (contains_false ds _) Hd).
        destruct (ag_current a).
        -- assert (ag_name a ∉ ns) as Hna.
           { apply NoDup_app in Hnn as (_ & Hdis & _). intros Hin. eapply Hdis; [exact Hin|left]. }
           rewrite (proj2 (contains_false ns _) Hna). cbn. by rewrite Hca.
        -- cbn. by rewrite Hca.
      * assert (NoDup (ds ++ [identity a])) by (apply NoDup_snoc; done).
        destruct (ag_current a).
        -- apply IH; [done| |by rewrite <-!app_assoc].
           cbn [map] in Hnn. rewrite cons_middle, app_assoc in Hnn. by apply NoDup_app in Hnn as (? & _).
        -- apply IH; [done|done|by rewrite <-!app_assoc].
Qed.

Lemma validate_agent_references_Ok declared refs kind :
  validate_agent_references declared refs kind = Ok tt ↔ ∀ r, r ∈ refs → r ∈ declared.
Proof.
  unfold validate_agent_references. rewrite for_each_guard. setoid_rewrite negb_false_iff.
  by setoid_rewrite contains_true.
Qed.

Lemma cross_references_Ok c : cross_references c = Ok tt ↔ consistent c.
Proof.
  unfold cross_references. rewrite try_bind_Ok. split.
  - intros ([ds ns] & Ha%cross_agents_Ok & H); [|by constructor..].
    destruct Ha as (-> & -> & Hd & Hn & Hag). cbn [app] in *.
    rewrite !do_Ok, !validate_agent_references_Ok, !for_each_guard in H.
    destruct H as (Hpin & Hexc & Hboth & Hver & Href & Hdrop & Hpre).
    split; try done.
    + intros a Ha. by apply Hag, check_agent_Ok in Ha as [? _].
    + intros a Ha. by apply Hag, check_agent_Ok in Ha as [_ ?].
    + intros r Hr. split; [by apply Hpin|]. by apply contains_false, Hboth.
    + intros v Hv. by apply existsb_name, negb_false_iff, Hver.
    + intros r Hr. by apply existsb_name, negb_false_iff, Href.
    + intros s Hs. by apply contains_false, Hdrop.
    + intros s Hs. specialize (Hpre s Hs). rewrite <-!contains_true.
      by destruct (contains (cc_mandatory_sections _) s), (contains (cc_optional_drop_order _) s); auto.
  - intros [Hd Hn Hro Hpr Hpin Hexc Hver Href Hdrop Hpre].
    exists (map identity (agents (cfg_agents c)),
            map ag_name (List.filter ag_current (agents (cfg_agents c)))). split.
    + apply cross_agents_Ok; [constructor|constructor|]. repeat split; try done.
      intros a Ha. apply check_agent_Ok. auto.
    + rewrite !do_Ok, !validate_agent_references_Ok, !for_each_guard. repeat split.
      * intros r Hr. by apply Hpin.
      * done.
      * intros r Hr. by apply contains_false, Hpin.
      * intros v Hv. by apply negb_false_iff, existsb_name, Hver.
      * intros r Hr. by apply negb_false_iff, existsb_name, Href.
      * intros s Hs. by apply contains_false, Hdrop.
      * intros s Hs. destruct (Hpre s Hs) as [H%contains_true|H%contains_true]; rewrite H; cbn;
          [done | by rewrite andb_false_r].
Qed.

(** ** Entries and uniqueness *)

Lemma unique_Ok seen kind id seen' :
  unique seen kind id = Ok seen' ↔ id ∉ seen ∧ seen' = seen ++ [id].
Proof.
  unfold unique. destruct (existsb _ seen) eqn:E.
  - apply existsb_True in E as (x & Hx & ->%String.eqb_eq). naive_solver.
  - rewrite existsb_False in E. split; [|naive_solver]. intros [= <-]. split; [|done].
    intros Hin. specialize (E _ Hin). by rewrite String.eqb_refl in E.
Qed.

Lemma try_fold_unique kind l seen seen' :
  NoDup seen → try_fold (fun s v => unique s kind v) seen l = Ok seen' →
  seen' = seen ++ l ∧ NoDup seen'.
Proof.
  revert seen; induction l as [|x l IH]; intros seen Hs; cbn.
  - intros [= <-]. by rewrite app_nil_r.
  - intros (s1 & [Hx ->]%unique_Ok & H)%try_bind_Ok. apply IH in H; [|by apply NoDup_snoc].
    by rewrite <-app_assoc in H.
Qed.

Lemma unique_list_Ok values kind : unique_list values kind = Ok tt → NoDup values.
Proof.
  unfold unique_list. intros (seen & H & _)%try_bind_Ok.
  apply try_fold_unique in H as [-> H]; [done|constructor].
Qed.

(** Every compiled entry comes from its source entry. *)
Lemma compile_entries_each {A} name (f : string → list string → Value → Result (list string * A) ConfigError)
    (P : A → Prop) i seen entries out :
  (∀ prefix s e s' a, e ∈ entries → f prefix s e = Ok (s', a) → P a) →
  compile_entries name f i seen entries = Ok out → ∀ a, a ∈ out → P a.
Proof.
  intros HP. revert i seen out; induction entries as [|e entries IH]; intros i seen out; cbn.
  - intros [= <-] a Ha. by apply not_elem_of_nil in Ha.
  - intros ([s' x] & Hx & H)%try_bind_Ok. apply try_bind_Ok in H as (out' & Hr & [= <-]).
    intros a [->|Ha]%elem_of_cons; [eapply HP; [left|exact Hx]|].
    eapply (IH (λ prefix s e s' a He, HP prefix s e s' a (list_elem_of_further _ _ _ He))); done.
Qed.

(** When each entry records its identity, the identities are distinct. *)
Lemma compile_entries_nodup {A} name (f : string → list string → Value → Result (list string * A) ConfigError)
    (id : A → string) i seen entries out :
  (∀ prefix s e s' a, f prefix s e = Ok (s', a) → id a ∉ s ∧ s' = s ++ [id a]) →
  compile_entries name f i seen entries = Ok out →
  NoDup (map id out) ∧ ∀ x, x ∈ map id out → x ∉ seen.
Proof.
  intros Hf. revert i seen out; induction entries as [|e entries IH]; intros i seen out; cbn.
  - intros [= <-]. split; [constructor|]. intros x Hx. by apply not_elem_of_nil in Hx.
  - intros ([s' y] & Hy & H)%try_bind_Ok. apply try_bind_Ok in H as (out' & Hr & [= <-]).
    apply Hf in Hy as [Hnot ->]. apply IH in Hr as [Hnd Hdis]. cbn. split.
    + apply NoDup_cons. split; [|done]. intros Hin. apply (Hdis _ Hin), elem_of_app. right. left.
    + intros x [->|Hx]%elem_of_cons; [done|]. intros Hs. apply (Hdis _ Hx), elem_of_app. by left.
Qed.

(** ** Fields *)

(** Opens a chain of [let?] that succeeded. *)
Ltac open_binds H :=
  repeat match type of H with
  | try_bind _ _ = Ok _ =>
      let x := fresh "x" in let Hx := fresh "Hx" in
      apply try_bind_Ok in H as (x & Hx & H);
      lazymatch type of x with
      | unit => destruct x
      | prod _ _ => destruct x
      | _ => idtac
      end
  end.

Lemma str_field_Ok e p k s : str_field e p k = Ok s → get e k = Some (Str s).
Proof.
  unfold str_field, field. intros H. open_binds H. destruct (get e k) as [v|]; [|done].
  injection Hx as <-. destruct v; try done. by injection H as ->.
Qed.

Lemma i64_field_Ok e p k z : i64_field e p k = Ok z → get e k = Some (Integer z).
Proof.
  unfold i64_field, field. intros H. open_binds H. destruct (get e k) as [v|]; [|done].
  injection Hx as <-. destruct v; try done. by injection H as ->.
Qed.

Lemma array_field_Ok e p k l : array_field e p k = Ok l → get e k = Some (Array l).
Proof.
  unfold array_field, field. intros H. open_binds H. destruct (get e k) as [v|]; [|done].
  injection Hx as <-. destruct v; try done. by injection H as ->.
Qed.

Lemma name_field_Ok e p k s :
  name_field e p k = Ok s → get e k = Some (Str s) ∧ s ≠ EmptyString.
Proof.
  unfold name_field. intros H. open_binds H. injection H as <-.
  apply str_field_Ok in Hx. split; [done|].
  unfold non_empty, is_empty in Hx0. by destruct (String.eqb_spec x EmptyString).
Qed.

Lemma positive_field_Ok e p k z :
  positive_field e p k = Ok z → get e k = Some (Integer z) ∧ (0 < z)%Z.
Proof.
  unfold positive_field. intros H. open_binds H. injection H as <-.
  apply i64_field_Ok in Hx. split; [done|]. unfold positive in Hx0.
  destruct (Z.leb_spec x 0); [done|lia].
Qed.

Lemma string_list_Ok e p k l : string_list e p k = Ok l → get e k = Some (strings l).
Proof.
  unfold string_list, field. intros H. open_binds H. destruct (get e k) as [v|]; [|done].
  injection Hx as <-. destruct v as [| | | |vs|]; try done. injection Hx0 as <-.
  apply collect_Ok in H. f_equal. unfold strings. f_equal.
  induction H as [|v s vs l Hv _ IH]; cbn; [done|]. f_equal; [|done].
  destruct v; try done. by injection Hv as ->.
Qed.

Lemma to_u32_Ok z p y : to_u32 z p = Ok y → y = z ∧ in_u32 z = true.
Proof. unfold to_u32, u32_try_from. destruct (in_u32 z); [by intros [= ->] | done]. Qed.

Lemma guidance_Ok e p k s :
  guidance e p k = Ok s →
  get e k = Some (Str s) ∧ s ≠ EmptyString ∧ (N.of_nat (length (chars s)) ≤ MAX_GUIDANCE_CHARS)%N.
Proof.
  unfold guidance. intros H. open_binds H. apply name_field_Ok in Hx as [Hx Hne].
  destruct (N.ltb_spec MAX_GUIDANCE_CHARS (N.of_nat (length (chars x)))) as [|Hle]; [done|].
  injection H as <-. done.
Qed.

(** ** What each component guarantees *)

Record agent_guarantees (a : Agent) : Prop := {
  gua_name : ag_name a ≠ EmptyString;
  gua_version : (0 < ag_version a ≤ u32_max)%Z;
  gua_tokens : (0 < ag_min_context_tokens a)%Z;
  gua_actions : ∀ act, act ∈ ag_actions a → act ∈ ACTIONS ∧ act ≠ HARD_DENIED_ACTION;
  gua_accepts : ag_accepts a ≠ [];
  gua_competencies : ag_competencies a ≠ [];
  gua_sets : NoDup (ag_actions a) ∧ NoDup (ag_accepts a) ∧ NoDup (ag_competencies a) ∧
    NoDup (ag_execution_features a) ∧ NoDup (ag_sandbox_requirements a);
  gua_soul : ag_soul a ≠ EmptyString ∧ (N.of_nat (length (chars (ag_soul a))) ≤ MAX_GUIDANCE_CHARS)%N;
  gua_behavior : ag_behavior a ≠ EmptyString ∧
    (N.of_nat (length (chars (ag_behavior a))) ≤ MAX_GUIDANCE_CHARS)%N
}.

Lemma check_action_Ok p n act :
  check_action p n act = Ok tt → act ∈ ACTIONS ∧ act ≠ HARD_DENIED_ACTION.
Proof.
  unfold check_action. rewrite <-contains_true. destruct (contains ACTIONS act); cbn [negb]; [|done].
  by destruct (String.eqb_spec act HARD_DENIED_ACTION).
Qed.

Lemma non_empty_list_Ok l p : non_empty_list l p = Ok tt → l ≠ [].
Proof. by destruct l. Qed.

Lemma compile_agent_Ok p seen e seen' a :
  compile_agent p seen e = Ok (seen', a) →
  agent_guarantees a ∧
  agent_identity_text (ag_name a) (ag_version a) ∉ seen ∧
  seen' = seen ++ [agent_identity_text (ag_name a) (ag_version a)].
Proof.
  unfold compile_agent. intros H. open_binds H. injection H as <- <-. cbn.
  repeat match goal with
  | H : name_field _ _ _ = Ok _ |- _ => apply name_field_Ok in H as [? ?]
  | H : positive_field _ _ _ = Ok _ |- _ => apply positive_field_Ok in H as [? ?]
  | H : to_u32 _ _ = Ok _ |- _ => apply to_u32_Ok in H as [-> ?%in_u32_spec]
  | H : guidance _ _ _ = Ok _ |- _ => apply guidance_Ok in H as (? & ? & ?)
  | H : unique_list _ _ = Ok _ |- _ => apply unique_list_Ok in H
  | H : non_empty_list _ _ = Ok _ |- _ => apply non_empty_list_Ok in H
  | H : unique _ _ _ = Ok _ |- _ => apply unique_Ok in H as [? ->]
  | H : for_each _ _ = Ok _ |- _ => rewrite for_each_Ok in H
  end.
  split; [|done]. split; cbn; try done; [lia|].
  intros act Hact. eapply check_action_Ok. eauto.
Qed.

(** A rule names a canonical action and never permits the hard-denied one. *)
Definition rule_guarantees (r : AuthorizationRule) : Prop :=
  ar_action r ∈ ACTIONS ∧ (ar_action r = HARD_DENIED_ACTION → ar_effect r = Forbid).

Lemma compile_rule_Ok p seen e seen' r : compile_rule p seen e = Ok (seen', r) → rule_guarantees r.
Proof.
  unfold compile_rule. intros H. open_binds H.
  destruct (contains ACTIONS x) eqn:Hc; [|done]. apply contains_true in Hc.
  destruct (String.eqb_spec x HARD_DENIED_ACTION) as [->|Hne]; cbn [andb] in H.
  - case_bool_decide; [done|]. injection H as <- <-. split; [done|]. intros _. cbn.
    by destruct x1.
  - injection H as <- <-. split; done.
Qed.

(** The keys of a compiled policy are the ones selection interprets. *)
Definition policy_guarantees (p : RoutePolicy) : Prop :=
  rp_name p ≠ EmptyString ∧ (∀ k, k ∈ rp_ordering p → k ∈ ROUTE_PREFERENCE_KEYS) ∧
  rp_tie_break p ∈ ROUTE_TIE_BREAK_KEYS.

Lemma check_known_Ok known what p k : check_known known what p k = Ok tt → k ∈ known.
Proof. unfold check_known. rewrite <-contains_true. by destruct (contains known k). Qed.

Lemma compile_policy_Ok p seen e seen' r :
  compile_policy p seen e = Ok (seen', r) →
  policy_guarantees r ∧ rp_name r ∉ seen ∧ seen' = seen ++ [rp_name r].
Proof.
  unfold compile_policy. intros H. open_binds H. injection H as <- <-.
  apply name_field_Ok in Hx as [_ ?], Hx4 as [_ ?]. apply unique_Ok in Hx0 as [? ->].
  apply check_known_Ok in Hx5. rewrite for_each_Ok in Hx3. split; [|done].
  split; [done|]. split; [|done]. intros k Hk. eapply check_known_Ok. eauto.
Qed.

(** A pin or an exclusion names one version of an agent. *)
Definition reference_guarantees (r : LogicalAgentVersion) : Prop :=
  lav_name r ≠ EmptyString ∧ (0 < lav_version r ≤ u32_max)%Z.

Lemma compile_reference_Ok p seen e seen' r :
  compile_reference p seen e = Ok (seen', r) →
  reference_guarantees r ∧ agent_identity_text (lav_name r) (lav_version r) ∉ seen ∧
  seen' = seen ++ [agent_identity_text (lav_name r) (lav_version r)].
Proof.
  unfold compile_reference. intros H. open_binds H. injection H as <- <-.
  apply name_field_Ok in Hx as [_ ?]. apply positive_field_Ok in Hx0 as [_ ?].
  apply to_u32_Ok in Hx1 as [-> ?%in_u32_spec].
  apply unique_Ok in Hx2 as [? ->]. split; [|done]. split; cbn; [done|lia].
Qed.

Lemma agent_references_Ok v k l :
  agent_references v k = Ok l → NoDup l ∧ ∀ r, r ∈ l → reference_guarantees r.
Proof.
  unfold agent_references. destruct (get v k) as [raw|].
  - intros H. open_binds H. split.
    + apply (NoDup_fmap_1 (fun r => agent_identity_text (lav_name r) (lav_version r))).
      eapply compile_entries_nodup; [|exact H]. intros * Hc. by eapply compile_reference_Ok.
    + eapply compile_entries_each; [|exact H]. intros * _ Hc. by eapply compile_reference_Ok.
  - intros [= <-]. split; [constructor|]. intros r Hr. by apply not_elem_of_nil in Hr.
Qed.

(** A profile names its environment and asserts each guarantee once. *)
Definition profile_guarantees (p : SandboxProfile) : Prop :=
  sp_name p ≠ EmptyString ∧ sp_environment_identity p ≠ EmptyString ∧ NoDup (sp_guarantees p).

Lemma compile_profile_Ok p seen e seen' r :
  compile_profile p seen e = Ok (seen', r) →
  profile_guarantees r ∧ sp_name r ∉ seen ∧ seen' = seen ++ [sp_name r].
Proof.
  unfold compile_profile. intros H. open_binds H. injection H as <- <-. apply unique_Ok in Hx0.
  apply name_field_Ok in Hx as [_ ?], Hx5 as [_ ?]. apply unique_list_Ok in Hx7. done.
Qed.

Definition backend_guarantees (b : BackendRegistration) : Prop :=
  br_backend_id b ≠ EmptyString ∧ br_selector b ≠ EmptyString.

Lemma compile_backend_Ok p seen e seen' b :
  compile_backend p seen e = Ok (seen', b) →
  backend_guarantees b ∧ br_backend_id b ∉ seen ∧ seen' = seen ++ [br_backend_id b].
Proof.
  unfold compile_backend. intros H. open_binds H. injection H as <- <-. apply unique_Ok in Hx0.
  apply name_field_Ok in Hx as [_ ?], Hx1 as [_ ?]. done.
Qed.

(** An evaluator version is a program with its time limit and its protocol. *)
Definition version_guarantees (v : EvaluatorVersion) : Prop :=
  ev_id v ≠ EmptyString ∧ ev_argv v ≠ [] ∧ (0 < ev_timeout_ms v)%Z ∧ ev_result_protocol v ≠ EmptyString.

Definition context_guarantees (c : ContextComponent) : Prop :=
  (0 < cc_schema_version c)%Z ∧ (0 < cc_memory_limit_tokens c)%Z ∧
  (0 < cc_workspace_orientation_limit_tokens c)%Z ∧ (0 < cc_safety_margin_tokens c)%Z.

Lemma compile_context_Ok v c : compile_context v = Ok c → context_guarantees c.
Proof.
  unfold compile_context. intros H. open_binds H. injection H as <-.
  apply positive_field_Ok in Hx as [_ ?], Hx0 as [_ ?], Hx1 as [_ ?], Hx2 as [_ ?].
  by apply to_u32_Ok in Hx3 as [-> _].
Qed.

(** ** Well-formed text *)

Lemma get_wf v k w : wf_value v = true → get v k = Some w → wf_value w = true.
Proof.
  destruct v as [| | | | |es]; cbn; try done. intros [_ H]%andb_true_iff Hg%bt_get_elem.
  eapply forallb_True in H; [|exact Hg]. by split_andb.
Qed.

Lemma wf_strings_inv l : wf_value (strings l) = true → all_valid l = true.
Proof.
  unfold all_valid. cbn. rewrite !forallb_True. intros H s Hs.
  apply (H (Str s)), list_elem_of_In, in_map. by apply list_elem_of_In.
Qed.

Lemma wf_array_elem vs v : wf_value (Array vs) = true → v ∈ vs → wf_value v = true.
Proof. cbn. intros H Hv. by eapply forallb_True in H. Qed.

Lemma compile_version_Ok p seen e seen' v :
  compile_version p seen e = Ok (seen', v) →
  version_guarantees v ∧
  (wf_value e = true → wf_evaluator_version v = true) ∧ ev_id v ∉ seen ∧ seen' = seen ++ [ev_id v].
Proof.
  unfold compile_version. intros H. open_binds H. injection H as <- <-.
  apply unique_Ok in Hx0 as [? ->].
  apply name_field_Ok in Hx as [Hx ?], Hx6 as [Hx6 ?]. apply string_list_Ok in Hx3.
  apply positive_field_Ok in Hx5 as [Hx5 ?]. apply str_field_Ok in Hx7.
  split; [split; cbn; [done|by destruct x3]|]. split; [|done]. intros Hw.
  unfold wf_evaluator_version. cbn.
  rewrite !andb_true_iff. repeat split.
  - exact (get_wf _ _ _ Hw Hx).
  - exact (wf_strings_inv _ (get_wf _ _ _ Hw Hx3)).
  - exact (get_wf _ _ _ Hw Hx5).
  - exact (get_wf _ _ _ Hw Hx7).
  - exact (get_wf _ _ _ Hw Hx6).
Qed.

Lemma compile_ref_Ok p seen e seen' r :
  compile_ref p seen e = Ok (seen', r) →
  er_reference r ≠ EmptyString ∧
  (wf_value e = true → utf8_valid (er_reference r) && utf8_valid (er_current_version r) = true) ∧
  er_reference r ∉ seen ∧ seen' = seen ++ [er_reference r].
Proof.
  unfold compile_ref. intros H. open_binds H. injection H as <- <-.
  apply unique_Ok in Hx0 as [? ->]. apply name_field_Ok in Hx as [Hx ?]. split; [done|]. split; [|done]. intros Hw.
  apply str_field_Ok in Hx1. cbn.
  rewrite andb_true_iff. split; [exact (get_wf _ _ _ Hw Hx) | exact (get_wf _ _ _ Hw Hx1)].
Qed.

Lemma compile_context_wf v c : wf_value v = true → compile_context v = Ok c → wf_context c = true.
Proof.
  intros Hw H. unfold compile_context in H. open_binds H. injection H as <-.
  apply positive_field_Ok in Hx as [Hx _], Hx0 as [Hx0 _], Hx1 as [Hx1 _], Hx2 as [Hx2 _].
  apply to_u32_Ok in Hx3 as [-> Hu]. apply string_list_Ok in Hx4, Hx5, Hx6.
  unfold wf_context. cbn. rewrite !andb_true_iff. repeat split; try done.
  1,2,6: eapply wf_strings_inv, get_wf; [exact Hw|eassumption].
  - exact (get_wf _ _ _ Hw Hx0).
  - exact (get_wf _ _ _ Hw Hx1).
  - exact (get_wf _ _ _ Hw Hx2).
Qed.

Lemma compile_agent_wf p seen e seen' a :
  wf_value e = true → compile_agent p seen e = Ok (seen', a) → wf_agent a = true.
Proof.
  intros Hw H. unfold compile_agent in H. open_binds H. injection H as _ <-.
  repeat match goal with
  | H : name_field _ _ _ = Ok _ |- _ => apply name_field_Ok in H as [H _]
  | H : str_field _ _ _ = Ok _ |- _ => apply str_field_Ok in H
  | H : positive_field _ _ _ = Ok _ |- _ => apply positive_field_Ok in H as [H _]
  | H : to_u32 _ _ = Ok _ |- _ => apply to_u32_Ok in H as [-> H]
  | H : guidance _ _ _ = Ok _ |- _ => apply guidance_Ok in H as (H & _)
  | H : string_list _ _ _ = Ok _ |- _ => apply string_list_Ok in H
  end.
  unfold wf_agent. cbn -[all_valid in_i64 utf8_valid]. rewrite !andb_true_iff. split_and!; try done.
  all: match goal with
  | H : get _ _ = Some (strings ?l) |- all_valid ?l = true =>
      exact (wf_strings_inv _ (get_wf _ _ _ Hw H))
  | H : get _ _ = Some (Str ?s) |- utf8_valid ?s = true => exact (get_wf _ _ _ Hw H)
  | H : get _ _ = Some (Integer ?z) |- in_i64 ?z = true => exact (get_wf _ _ _ Hw H)
  end.
Qed.

Lemma compile_evaluators_Ok v c :
  compile_evaluators v = Ok c →
  NoDup (map er_reference (evaluator_refs c)) ∧ NoDup (map ev_id (evaluator_versions c)) ∧
  (∀ x, x ∈ evaluator_versions c → version_guarantees x) ∧
  (∀ r, r ∈ evaluator_refs c → er_reference r ≠ EmptyString) ∧
  (wf_value v = true → wf_evaluators c = true).
Proof.
  intros H. unfold compile_evaluators in H. open_binds H. injection H as <-. cbn.
  split_and!.
  - eapply compile_entries_nodup; [|exact Hx2]. intros. by eapply compile_ref_Ok.
  - eapply compile_entries_nodup; [|exact Hx0]. intros. by eapply compile_version_Ok.
  - eapply compile_entries_each; [|exact Hx0]. intros * _ Hc. by eapply compile_version_Ok.
  - eapply compile_entries_each; [|exact Hx2]. intros * _ Hc. by eapply compile_ref_Ok.
  - intros Hw. unfold wf_evaluators. cbn. rewrite andb_true_iff, !forallb_True.
    apply array_field_Ok in Hx, Hx1. split.
    + eapply compile_entries_each; [|exact Hx2]. intros p s e s' a He Hc.
      eapply compile_ref_Ok; [exact Hc|]. eapply wf_array_elem; [|exact He]. by eapply get_wf.
    + eapply compile_entries_each; [|exact Hx0]. intros p s e s' a He Hc.
      eapply compile_version_Ok; [exact Hc|]. eapply wf_array_elem; [|exact He]. by eapply get_wf.
Qed.

(** What a source's text makes of the other components: texts are UTF-8, a priority is
    an [i64]. *)
Definition wf_reference (r : LogicalAgentVersion) : bool := utf8_valid (lav_name r).
Definition wf_policy (p : RoutePolicy) : bool := utf8_valid (rp_name p) && in_i64 (rp_priority p).
Definition wf_profile (p : SandboxProfile) : bool :=
  utf8_valid (sp_name p) && all_valid (sp_guarantees p) && utf8_valid (sp_environment_identity p).
Definition wf_backend (b : BackendRegistration) : bool := utf8_valid (br_backend_id b) && utf8_valid (br_selector b).

Definition wf_routing (c : RoutingComponent) : bool :=
  forallb wf_policy (policies c) && forallb wf_reference (agent_pins c) && forallb wf_reference (agent_exclusions c).
Definition wf_execution (c : ExecutionComponent) : bool := forallb wf_profile (profiles c) && forallb wf_backend (backends c).

Lemma optional_i64_wf e p k d z : wf_value e = true → in_i64 d = true → optional_i64 e p k d = Ok z → in_i64 z = true.
Proof.
  intros Hw Hd. unfold optional_i64. destruct (get e k) as [v|] eqn:E; [|by intros [= <-]].
  apply (get_wf _ _ _ Hw) in E. destruct v; try done. by intros [= <-].
Qed.

Lemma compile_policy_wf p seen e seen' r :
  wf_value e = true → compile_policy p seen e = Ok (seen', r) → wf_policy r = true.
Proof.
  intros Hw H. unfold compile_policy in H. open_binds H. injection H as _ <-. apply name_field_Ok in Hx as [Hx _].
  unfold wf_policy. cbn -[in_i64 utf8_valid]. rewrite andb_true_iff. split; [exact (get_wf _ _ _ Hw Hx)|].
  exact (optional_i64_wf _ _ _ 0%Z _ Hw eq_refl Hx1).
Qed.

Lemma agent_references_wf v k l : wf_value v = true → agent_references v k = Ok l → forallb wf_reference l = true.
Proof.
  intros Hw. unfold agent_references. destruct (get v k) as [raw|] eqn:E; [|by intros [= <-]]. intros H. open_binds H.
  apply (get_wf _ _ _ Hw) in E. apply forallb_True. eapply compile_entries_each; [|exact H]. intros p s e s' r He Hc.
  unfold compile_reference in Hc. open_binds Hc. injection Hc as _ <-. apply name_field_Ok in Hx0 as [Hx0 _].
  refine (get_wf e _ _ _ Hx0). eapply wf_array_elem; [|exact He]. destruct raw; try done. by injection Hx as ->.
Qed.

Lemma compile_profile_wf p seen e seen' r :
  wf_value e = true → compile_profile p seen e = Ok (seen', r) → wf_profile r = true.
Proof.
  intros Hw H. unfold compile_profile in H. open_binds H. injection H as _ <-.
  apply name_field_Ok in Hx as [Hx _], Hx5 as [Hx5 _]. apply string_list_Ok in Hx6.
  unfold wf_profile. cbn -[all_valid utf8_valid]. rewrite !andb_true_iff. split_and!.
  - exact (get_wf _ _ _ Hw Hx).
  - exact (wf_strings_inv _ (get_wf _ _ _ Hw Hx6)).
  - exact (get_wf _ _ _ Hw Hx5).
Qed.

Lemma compile_backend_wf p seen e seen' b :
  wf_value e = true → compile_backend p seen e = Ok (seen', b) → wf_backend b = true.
Proof.
  intros Hw H. unfold compile_backend in H. open_binds H. injection H as _ <-.
  apply name_field_Ok in Hx as [Hx _], Hx1 as [Hx1 _]. unfold wf_backend. cbn -[utf8_valid]. rewrite andb_true_iff.
  split; [exact (get_wf _ _ _ Hw Hx)|exact (get_wf _ _ _ Hw Hx1)].
Qed.

Lemma compile_routing_Ok v c :
  compile_routing v = Ok c →
  (∀ p, p ∈ policies c → policy_guarantees p) ∧ NoDup (map rp_name (policies c)) ∧
  (NoDup (agent_pins c) ∧ ∀ r, r ∈ agent_pins c → reference_guarantees r) ∧
  (NoDup (agent_exclusions c) ∧ ∀ r, r ∈ agent_exclusions c → reference_guarantees r) ∧
  (wf_value v = true → wf_routing c = true).
Proof.
  unfold compile_routing. intros H. open_binds H. injection H as <-. cbn. split_and!.
  - eapply compile_entries_each; [|eassumption]. intros * _ Hc. by eapply compile_policy_Ok.
  - eapply compile_entries_nodup; [|eassumption]. intros * Hc. by eapply compile_policy_Ok.
  - by eapply agent_references_Ok.
  - by eapply agent_references_Ok.
  - by eapply agent_references_Ok.
  - by eapply agent_references_Ok.
  - intros Hw. unfold wf_routing. cbn. rewrite !andb_true_iff. split_and!; [|by eapply agent_references_wf..].
    apply array_field_Ok in Hx. apply forallb_True. eapply compile_entries_each; [|exact Hx0]. intros p s e s' r He Hc.
    eapply compile_policy_wf; [|exact Hc]. eapply wf_array_elem; [|exact He]. by eapply get_wf.
Qed.

Lemma compile_execution_Ok v c :
  compile_execution v = Ok c →
  (∀ p, p ∈ profiles c → profile_guarantees p) ∧ NoDup (map sp_name (profiles c)) ∧
  (∀ b, b ∈ backends c → backend_guarantees b) ∧ NoDup (map br_backend_id (backends c)) ∧
  (wf_value v = true → wf_execution c = true).
Proof.
  unfold compile_execution. intros H. open_binds H. injection H as <-. cbn. split_and!.
  - eapply compile_entries_each; [|exact Hx0]. intros * _ Hc. by eapply compile_profile_Ok.
  - eapply compile_entries_nodup; [|exact Hx0]. intros * Hc. by eapply compile_profile_Ok.
  - eapply compile_entries_each; [|exact Hx2]. intros * _ Hc. by eapply compile_backend_Ok.
  - eapply compile_entries_nodup; [|exact Hx2]. intros * Hc. by eapply compile_backend_Ok.
  - intros Hw. unfold wf_execution. cbn. rewrite andb_true_iff, !forallb_True. apply array_field_Ok in Hx, Hx1. split.
    + eapply compile_entries_each; [|exact Hx0]. intros p s e s' r He Hc. eapply compile_profile_wf; [|exact Hc].
      eapply wf_array_elem; [|exact He]. by eapply get_wf.
    + eapply compile_entries_each; [|exact Hx2]. intros p s e s' r He Hc. eapply compile_backend_wf; [|exact Hc].
      eapply wf_array_elem; [|exact He]. by eapply get_wf.
Qed.

Lemma compile_authorization_Ok v c :
  compile_authorization v = Ok c →
  (0 < az_schema_version c ≤ u32_max)%Z ∧ ∀ r, r ∈ az_rules c → rule_guarantees r.
Proof.
  unfold compile_authorization. intros H. open_binds H. injection H as <-. cbn.
  apply positive_field_Ok in Hx as [_ ?]. apply to_u32_Ok in Hx2 as [-> ?%in_u32_spec]. split; [lia|].
  eapply compile_entries_each; [|eassumption]. intros * _ Hc. by eapply compile_rule_Ok.
Qed.

(** ** The whole pipeline *)

(** Everything the compiler checks. *)
Record compiled_guarantees (c : CompiledConfiguration) : Prop := {
  cg_consistent : consistent c;
  cg_agents : ∀ a, a ∈ agents (cfg_agents c) → agent_guarantees a;
  cg_policies : ∀ p, p ∈ policies (cfg_routing c) → policy_guarantees p;
  cg_policy_names : NoDup (map rp_name (policies (cfg_routing c)));
  cg_pins : NoDup (agent_pins (cfg_routing c)) ∧ ∀ r, r ∈ agent_pins (cfg_routing c) → reference_guarantees r;
  cg_exclusions : NoDup (agent_exclusions (cfg_routing c)) ∧
    ∀ r, r ∈ agent_exclusions (cfg_routing c) → reference_guarantees r;
  cg_profiles : ∀ p, p ∈ profiles (cfg_execution c) → profile_guarantees p;
  cg_profile_names : NoDup (map sp_name (profiles (cfg_execution c)));
  cg_backends : ∀ b, b ∈ backends (cfg_execution c) → backend_guarantees b;
  cg_backend_ids : NoDup (map br_backend_id (backends (cfg_execution c)));
  cg_versions : ∀ v, v ∈ evaluator_versions (cfg_evaluators c) → version_guarantees v;
  cg_version_ids : NoDup (map ev_id (evaluator_versions (cfg_evaluators c)));
  cg_ref_names : ∀ r, r ∈ evaluator_refs (cfg_evaluators c) → er_reference r ≠ EmptyString;
  cg_refs : NoDup (map er_reference (evaluator_refs (cfg_evaluators c)));
  cg_context : context_guarantees (cfg_context c);
  cg_rules : ∀ r, r ∈ az_rules (cfg_authorization c) → rule_guarantees r;
  cg_authorization_version : (0 < az_schema_version (cfg_authorization c) ≤ u32_max)%Z;
  cg_agents_wf : forallb wf_agent (agents (cfg_agents c)) = true;
  cg_routing_wf : wf_routing (cfg_routing c) = true;
  cg_execution_wf : wf_execution (cfg_execution c) = true;
  cg_evaluators_wf : wf_evaluators (cfg_evaluators c) = true;
  cg_context_wf : wf_context (cfg_context c) = true
}.

Lemma field_get v p k w : field v p k = Ok w → get v k = Some w.
Proof. unfold field. destruct (get v k); [by intros [= ->] | done]. Qed.

Lemma compile_root_Ok root c :
  wf_value root = true → compile_root root = Ok c → compiled_guarantees c.
Proof.
  intros Hw H. unfold compile_root in H. open_binds H. injection H as <-.
  apply field_get in Hx, Hx1, Hx3, Hx5, Hx7. pose proof (get_wf _ _ _ Hw Hx) as Hwa.
  pose proof (get_wf _ _ _ Hw Hx1) as Hwr. pose proof (get_wf _ _ _ Hw Hx3) as Hwx.
  pose proof (get_wf _ _ _ Hw Hx5) as Hwe. pose proof (get_wf _ _ _ Hw Hx7) as Hwc.
  apply compile_routing_Ok in Hx2 as (? & ? & ? & ? & ?). apply compile_execution_Ok in Hx4 as (? & ? & ? & ? & ?).
  apply compile_evaluators_Ok in Hx6 as (? & ? & ? & ? & ?). apply compile_authorization_Ok in Hx10 as [? ?].
  apply cross_references_Ok in Hx11. pose proof (compile_context_Ok _ _ Hx8).
  unfold compile_agents in Hx0. open_binds Hx0. injection Hx0 as <-.
  split; cbn; auto.
  - eapply compile_entries_each; [|eassumption]. intros * _ Hc. by eapply compile_agent_Ok.
  - apply forallb_True. eapply compile_entries_each; [|eassumption]. intros * He Hc.
    eapply compile_agent_wf; [|exact Hc]. eapply wf_array_elem; [|exact He].
    unfold as_array in *. destruct x; try done. simplify_eq. done.
  - by eapply compile_context_wf.
Qed.

Lemma compile_Ok source c : compile source = Ok c → compiled_guarantees c.
Proof.
  unfold compile. intros H. open_binds H. eapply compile_root_Ok; [|exact H].
  pose proof (parse_outcome source) as Hp. destruct (parse source); [|done]. by injection Hx as <-.
Qed.

(** ** A small configuration *)

Definition sample_config : Value :=
  object [
    ("agents", Array [object [
       ("name", Str "coder"); ("version", Integer 1);
       ("accepts", strings ["code.change"]); ("competencies", strings ["code.analysis"; "code.editing"; "test.execution"]);
       ("routePolicy", Str "default"); ("executionFeatures", strings []);
       ("minContextTokens", Integer 1000); ("sandboxProfile", Str "strict");
       ("sandboxRequirements", strings [CONTROL_PLANE_GUARANTEE]);
       ("actions", strings ["shell.execute"]);
       ("soul", Str "Careful."); ("behavior", Str "Tests first.")]]);
    ("routing", object [("policies", Array [object [
       ("name", Str "default"); ("ordering", strings ["contextCapacity"]);
       ("tieBreak", Str "backendId")]])]);
    ("execution", object [
       ("profiles", Array [object [
          ("name", Str "strict"); ("isolationClass", Str "CONTAINER");
          ("networkMode", Str "NONE"); ("environmentIdentity", Str "sha256:env");
          ("guarantees", strings [CONTROL_PLANE_GUARANTEE])]]);
       ("backends", Array [object [
          ("backendId", Str "local"); ("selector", Str "local"); ("enabled", Bool true)]])]);
    ("evaluators", object [
       ("versions", Array [object [
          ("id", Str "unit-tests@1"); ("kind", Str "check"); ("argv", strings ["make"; "test"]);
          ("timeoutMs", Integer 60000); ("sandboxProfile", Str "strict");
          ("resultProtocol", Str "exit-code")]]);
       ("refs", Array [object [
          ("ref", Str "check://project/unit-tests"); ("currentVersion", Str "unit-tests@1")]])]);
    ("context", object [
       ("schemaVersion", Integer 1); ("mandatorySections", strings ["task-contract"]);
       ("preloadPriority", strings ["workspace-orientation"]);
       ("memoryLimitTokens", Integer 100); ("workspaceOrientationLimitTokens", Integer 100);
       ("safetyMarginTokens", Integer 10);
       ("optionalDropOrder", strings ["workspace-orientation"])]);
    ("authorization", object [
       ("schemaVersion", Integer 1);
       ("rules", Array [object [("action", Str "secret.use"); ("effect", Str "forbid")]])])].

Definition sample_source : string := to_canonical_bytes sample_config.

Definition sample_compiled : CompiledConfiguration := Eval vm_compute in
  match compile sample_source with
  | Ok c => c
  | Err _ => empty_configuration
  end.

Lemma sample_compiles : compile sample_source = Ok sample_compiled.
Proof. vm_compute. reflexivity. Qed.

(** ** Claims *)

(** Whatever source compiles, the compiled configuration keeps every promise of the
    compiler. *)
Theorem compile_sound source c : compile source = Ok c → compiled_guarantees c.
Proof. apply compile_Ok. Qed.

Lemma compile_sound_witness :
  compile sample_source = Ok sample_compiled ∧ compiled_guarantees sample_compiled.
Proof.
  split; [vm_compute; reflexivity|]. apply (compile_sound sample_source). vm_compute. reflexivity.
Defined.

(** the cross-reference pass accepts a candidate exactly when it is
    consistent: no consistent configuration is refused and no inconsistent one
    passes. *)
Theorem cross_references_exact c : cross_references c = Ok tt ↔ consistent c.
Proof. apply cross_references_Ok. Qed.
