(* ===== verification/CompileExact.v ===== *)
(** * What compiles, exactly

    Every configuration that keeps the compiler's promises has a source text that
    compiles to it, so [compiled_guarantees] is all that the compiler asks for. *)

From Stdlib Require Import ZArith NArith Ascii Lia.
From S2P Require Import Prelude Utf8 Canonical Parse ParseFacts Digest Goal ConfigModel Compile CompileFacts.

(** ** Writing a configuration

    The sets of an agent and of a profile keep the order they have; the other entries are
    written as [ConfigModel] writes them. *)

Definition agent_source (a : Agent) : Value := object [
  ("name", Str (ag_name a)); ("version", Integer (ag_version a)); ("enabled", Bool (ag_enabled a));
  ("current", Bool (ag_current a)); ("accepts", strings (ag_accepts a));
  ("competencies", strings (ag_competencies a)); ("routePolicy", Str (ag_route_policy a));
  ("executionFeatures", strings (ag_execution_features a));
  ("minContextTokens", Integer (ag_min_context_tokens a)); ("sandboxProfile", Str (ag_sandbox_profile a));
  ("sandboxRequirements", strings (ag_sandbox_requirements a)); ("actions", strings (ag_actions a));
  ("soul", Str (ag_soul a)); ("behavior", Str (ag_behavior a))].

Definition profile_source (p : SandboxProfile) : Value := object [
  ("name", Str (sp_name p)); ("isolationClass", Str (isolation_class_as_str (sp_isolation_class p)));
  ("networkMode", Str (network_mode_as_str (sp_network_mode p)));
  ("environmentIdentity", Str (sp_environment_identity p)); ("guarantees", strings (sp_guarantees p))].

Definition configuration_source (c : CompiledConfiguration) : Value := object [
  ("agents", Array (map agent_source (agents (cfg_agents c))));
  ("routing", object [
     ("policies", Array (map route_policy_value (policies (cfg_routing c))));
     ("agentPins", Array (map agent_value (agent_pins (cfg_routing c))));
     ("agentExclusions", Array (map agent_value (agent_exclusions (cfg_routing c))))]);
  ("execution", object [
     ("profiles", Array (map profile_source (profiles (cfg_execution c))));
     ("backends", Array (map backend_value (backends (cfg_execution c))))]);
  ("evaluators", component_value (cfg_evaluators c));
  ("context", component_value (cfg_context c));
  ("authorization", object [
     ("schemaVersion", Integer (az_schema_version (cfg_authorization c)));
     ("rules", Array (map rule_value (az_rules (cfg_authorization c))))])].

(** ** Reading it back *)

Lemma str_field_found e p k s : get e k = Some (Str s) → str_field e p k = Ok s.
Proof. intros H. unfold str_field, field. by rewrite H. Qed.

Lemma name_field_found e p k s : get e k = Some (Str s) → s ≠ EmptyString → name_field e p k = Ok s.
Proof. intros H Hs. unfold name_field. rewrite (str_field_found _ _ _ _ H). cbn. unfold non_empty, is_empty. by destruct s. Qed.

Lemma positive_field_found e p k z : get e k = Some (Integer z) → (0 < z)%Z → positive_field e p k = Ok z.
Proof.
  intros H Hz. unfold positive_field, i64_field, field. rewrite H. cbn. unfold positive. by destruct (Z.leb_spec z 0); [lia|].
Qed.

Lemma string_list_found e p k l : get e k = Some (strings l) → string_list e p k = Ok l.
Proof.
  intros H. unfold string_list, field. rewrite H. unfold strings. cbn [ok_or try_bind as_array].
  clear H. induction l as [|s l IH]; [done|]. cbn [map collect as_str try_bind]. by rewrite IH.
Qed.

Lemma array_field_found e p k l : get e k = Some (Array l) → array_field e p k = Ok l.
Proof. intros H. unfold array_field, field. by rewrite H. Qed.

Lemma guidance_found e p k s :
  get e k = Some (Str s) → s ≠ EmptyString ∧ (N.of_nat (length (chars s)) ≤ MAX_GUIDANCE_CHARS)%N → guidance e p k = Ok s.
Proof.
  intros H [Hs Hl]. unfold guidance. rewrite (name_field_found _ _ _ _ H Hs). cbn [try_bind].
  by destruct (N.ltb_spec MAX_GUIDANCE_CHARS (N.of_nat (length (chars s)))); [lia|].
Qed.

Lemma unique_fresh seen kind id : id ∉ seen → unique seen kind id = Ok (seen ++ [id]).
Proof. intros H. by apply unique_Ok. Qed.

Lemma unique_list_found l kind : NoDup l → unique_list l kind = Ok tt.
Proof.
  intros Hl. unfold unique_list. assert (∀ seen, NoDup (seen ++ l) → ∃ s, try_fold (fun s v => unique s kind v) seen l = Ok s) as H.
  { clear Hl. induction l as [|x l IH]; intros seen Hs; cbn; [by eexists|]. rewrite unique_fresh.
    - cbn. apply IH. by rewrite <-app_assoc.
    - apply NoDup_app in Hs as (_ & Hd & _). intros Hx. eapply Hd; [exact Hx|left]. }
  destruct (H [] Hl) as [s ->]. done.
Qed.

Lemma to_u32_found z p : (0 < z ≤ u32_max)%Z → to_u32 z p = Ok z.
Proof. intros Hz. unfold to_u32. rewrite u32_try_from_in; [done|]. apply in_u32_spec. lia. Qed.

(** A source entry for each compiled one, with the identities they record. *)
Lemma compile_entries_found {A} name (f : string → list string → Value → Result (list string * A) ConfigError)
    (source : A → Value) (id : A → string) (P : A → Prop) i seen l :
  (∀ prefix s a, P a → id a ∉ s → f prefix s (source a) = Ok (s ++ [id a], a)) →
  (∀ a, a ∈ l → P a) → NoDup (seen ++ map id l) →
  compile_entries name f i seen (map source l) = Ok l.
Proof.
  intros Hf. revert i seen. induction l as [|a l IH]; intros i seen HP Hs; cbn [map compile_entries]; [done|].
  rewrite Hf; [|apply HP; left|].
  - cbn [try_bind]. rewrite IH; [done|by intros; apply HP; right|by rewrite <-app_assoc].
  - apply NoDup_app in Hs as (_ & Hd & _). intros Hx. eapply Hd; [exact Hx|left].
Qed.

(** *** The identity of an agent version *)

Lemma last_mark_inj (m : ascii) a b d e :
  contains_byte m d = false → contains_byte m e = false → a +:+ String m d = b +:+ String m e → a = b ∧ d = e.
Proof.
  intros Hd He. revert b. induction a as [|x a IH]; intros [|y b] H; cbn [String.append] in H.
  - by injection H as ->.
  - exfalso. injection H as _ H. rewrite H, contains_byte_app in Hd. cbn in Hd. by rewrite Ascii.eqb_refl, orb_true_r in Hd.
  - exfalso. injection H as _ H. rewrite <-H, contains_byte_app in He. cbn in He. by rewrite Ascii.eqb_refl, orb_true_r in He.
  - injection H as -> H. apply IH in H as [-> ->]. done.
Qed.

Lemma version_no_mark z : (0 < z)%Z → contains_byte "@" (i64_to_string z) = false.
Proof.
  intros Hz. unfold i64_to_string. destruct z as [|p|p]; [done| |lia].
  destruct (u64_to_string_spec (Z.to_N (Zpos p))) as (b & ds & -> & Hd & _). revert Hd. generalize (String b ds). clear.
  induction s as [|c s IH]; [done|]. cbn. intros [Hc Hs]%andb_true_iff. rewrite IH by done.
  destruct (Ascii.eqb_spec c "@") as [->|]; done.
Qed.

Lemma agent_identity_text_inj n v n' v' :
  (0 < v)%Z → (0 < v')%Z → agent_identity_text n v = agent_identity_text n' v' → n = n' ∧ v = v'.
Proof.
  intros Hv Hv' H. unfold agent_identity_text in H. cbn [String.append] in H.
  apply last_mark_inj in H as [-> H]; [|by apply version_no_mark..]. by apply i64_to_string_inj in H.
Qed.

Lemma identity_texts {A} (name : A → string) (version : A → Z) l :
  (∀ a, a ∈ l → (0 < version a)%Z) → NoDup (map (fun a => (name a, version a)) l) →
  NoDup (map (fun a => agent_identity_text (name a) (version a)) l).
Proof.
  induction l as [|a l IH]; intros Hv; cbn; [constructor|]. intros [Ha Hl]%NoDup_cons. apply NoDup_cons.
  split; [|apply IH; [by intros; apply Hv; right|done]]. intros (b & Hb & Hin)%list_elem_of_fmap. apply Ha.
  apply agent_identity_text_inj in Hb as [Hn Hz]; [|apply Hv; left|apply Hv; by right].
  apply list_elem_of_fmap. exists b. by rewrite Hn, Hz.
Qed.

(** *** The components *)

(** Reads the next field of an entry written above. *)
Lemma try_bind_found {A B E} (r : Result A E) (k : A → Result B E) a out : r = Ok a → k a = out → try_bind r k = out.
Proof. by intros -> <-. Qed.

Ltac read_next :=
  eapply try_bind_found;
  [ first [ eapply name_field_found; [reflexivity|done]
          | eapply positive_field_found; [reflexivity|lia]
          | eapply str_field_found; reflexivity
          | eapply array_field_found; reflexivity
          | eapply guidance_found; [reflexivity|done]
          | eapply string_list_found; reflexivity
          | apply unique_list_found; done
          | apply unique_fresh; done
          | apply to_u32_found; lia ]
  | cbv beta ].

Lemma for_each_known known what p l : (∀ k, k ∈ l → k ∈ known) → for_each (check_known known what p) l = Ok tt.
Proof. intros H. apply for_each_Ok. intros k Hk. unfold check_known. by rewrite (proj2 (contains_true _ _) (H k Hk)). Qed.

Lemma agent_found p seen a :
  agent_guarantees a → agent_identity_text (ag_name a) (ag_version a) ∉ seen →
  compile_agent p seen (agent_source a) = Ok (seen ++ [agent_identity_text (ag_name a) (ag_version a)], a).
Proof.
  intros [Hn Hv Ht Hact Hacc Hcom (Na & Nb & Nc & Nd & Ne) Hs Hb] Hf. unfold compile_agent.
  change (reject_unknown_fields (agent_source a) p AGENT_FIELDS) with (@Ok unit ConfigError tt). cbn [try_bind].
  do 6 read_next.
  assert (for_each (check_action p (ag_name a)) (ag_actions a) = Ok tt) as ->.
  { apply for_each_Ok. intros act Hin. destruct (Hact act Hin) as [Hk Hd]. unfold check_action.
    rewrite (proj2 (contains_true _ _) Hk). cbn [negb]. by destruct (String.eqb_spec act HARD_DENIED_ACTION). }
  cbn [try_bind]. read_next. assert (∀ l q, l ≠ [] → non_empty_list l q = Ok tt) as Hne by (by intros []).
  rewrite Hne by done. cbn [try_bind]. do 2 read_next. rewrite Hne by done. cbn [try_bind]. do 4 read_next.
  change (optional_bool (agent_source a) p "enabled" true) with (@Ok bool ConfigError (ag_enabled a)).
  change (optional_bool (agent_source a) p "current" true) with (@Ok bool ConfigError (ag_current a)). cbn [try_bind].
  do 6 read_next. by destruct a.
Qed.

Lemma policy_found p seen r :
  policy_guarantees r → rp_name r ∉ seen → compile_policy p seen (route_policy_value r) = Ok (seen ++ [rp_name r], r).
Proof.
  intros (Hn & Ho & Ht) Hf. unfold compile_policy. do 2 read_next.
  change (optional_i64 (route_policy_value r) p "priority" 0) with (@Ok Z ConfigError (rp_priority r)). cbn [try_bind].
  read_next. rewrite for_each_known by done. cbn [try_bind].
  assert (rp_tie_break r ≠ EmptyString) by (intros E; rewrite E in Ht; by apply (bool_decide_pack _) in Ht).
  read_next. unfold check_known. rewrite (proj2 (contains_true _ _) Ht). cbn [negb try_bind].
  change (optional_bool (route_policy_value r) p "requiresKeyedLaunch" true) with (@Ok bool ConfigError (rp_requires_keyed_launch r)).
  by destruct r.
Qed.

Lemma reference_found p seen r :
  reference_guarantees r → agent_identity_text (lav_name r) (lav_version r) ∉ seen →
  compile_reference p seen (agent_value r) = Ok (seen ++ [agent_identity_text (lav_name r) (lav_version r)], r).
Proof. intros [Hn Hv] Hf. unfold compile_reference. do 4 read_next. by destruct r. Qed.

Lemma profile_found p seen r :
  profile_guarantees r → sp_name r ∉ seen → compile_profile p seen (profile_source r) = Ok (seen ++ [sp_name r], r).
Proof.
  intros (Hn & He & Hg) Hf. unfold compile_profile. do 3 read_next.
  assert (∀ c q, parse_isolation_class (isolation_class_as_str c) q = Ok c) as -> by (by intros []). cbn [try_bind]. read_next.
  assert (∀ c q, parse_network_mode (network_mode_as_str c) q = Ok c) as -> by (by intros []). cbn [try_bind].
  do 3 read_next. by destruct r.
Qed.

Lemma backend_found p seen b :
  backend_guarantees b → br_backend_id b ∉ seen → compile_backend p seen (backend_value b) = Ok (seen ++ [br_backend_id b], b).
Proof.
  intros (Hi & Hs) Hf. unfold compile_backend. do 3 read_next.
  change (bool_field (backend_value b) p "enabled") with (@Ok bool ConfigError (br_enabled b)). by destruct b.
Qed.

Lemma version_found p seen v :
  version_guarantees v → ev_id v ∉ seen → compile_version p seen (evaluator_version_value v) = Ok (seen ++ [ev_id v], v).
Proof.
  intros (Hi & Ha & Ht & Hr) Hf. unfold compile_version. do 3 read_next.
  assert (∀ k q, parse_evaluator_kind (evaluator_kind_as_str k) q = Ok k) as -> by (by intros []). cbn [try_bind]. read_next.
  destruct v as [i k [|x l] t s r]; [done|]. cbn [ev_argv try_bind]. do 3 read_next. done.
Qed.

Lemma ref_found p seen r :
  er_reference r ≠ EmptyString → er_reference r ∉ seen → compile_ref p seen (evaluator_ref_value r) = Ok (seen ++ [er_reference r], r).
Proof. intros Hn Hf. unfold compile_ref. do 3 read_next. by destruct r. Qed.

Lemma rule_found p seen r : rule_guarantees r → compile_rule p seen (rule_value r) = Ok (seen, r).
Proof.
  intros [Ha Hd]. unfold compile_rule. read_next. rewrite (proj2 (contains_true _ _) Ha). cbn [negb try_bind]. read_next.
  assert (∀ e q, parse_effect (rule_effect_as_str e) q = Ok e) as -> by (by intros []). cbn [try_bind].
  destruct r as [act e]. cbn [ar_action ar_effect] in *. destruct (String.eqb_spec act HARD_DENIED_ACTION) as [E|]; [|done].
  by rewrite (Hd E).
Qed.

Lemma rules_found name i seen l :
  (∀ r, r ∈ l → rule_guarantees r) → compile_entries name compile_rule i seen (map rule_value l) = Ok l.
Proof.
  revert i. induction l as [|r l IH]; intros i Hl; cbn [map compile_entries]; [done|].
  rewrite rule_found by (apply Hl; left). cbn [try_bind]. by rewrite IH by (intros; apply Hl; by right).
Qed.

Lemma context_found c : context_guarantees c → in_u32 (cc_schema_version c) = true → compile_context (component_value c) = Ok c.
Proof.
  intros (H1 & H2 & H3 & H4) Hu%in_u32_spec. unfold compile_context. do 8 read_next. by destruct c.
Qed.

(** *** The whole *)

Lemma references_found key v l :
  get v key = Some (Array (map agent_value l)) →
  NoDup l → (∀ r, r ∈ l → reference_guarantees r) → agent_references v key = Ok l.
Proof.
  intros Hg Hnd Hl. unfold agent_references. rewrite Hg. cbn [as_array try_bind].
  apply (compile_entries_found _ _ _ (fun r => agent_identity_text (lav_name r) (lav_version r)) reference_guarantees);
    [intros; by apply reference_found|done|]. cbn [app].
  apply identity_texts; [intros r Hr; by apply Hl|].
  apply (NoDup_fmap_2_strong (fun r => (lav_name r, lav_version r))); [|done]. by intros [] [] _ _ [= -> ->].
Qed.

Lemma agents_found l :
  (∀ a, a ∈ l → agent_guarantees a) → NoDup (map identity l) → compile_agents (Array (map agent_source l)) = Ok {| agents := l |}.
Proof.
  intros Hl Hnd. unfold compile_agents. cbn [as_array try_bind].
  erewrite (compile_entries_found _ _ _ (fun a => agent_identity_text (ag_name a) (ag_version a)) agent_guarantees);
    [done|intros; by apply agent_found|done|]. cbn [app].
  apply identity_texts; [intros a Ha; by apply Hl|].
  assert (map identity l = map (fun p => mk_agent_version p.1 p.2) (map (fun a => (ag_name a, ag_version a)) l)) as E
    by (rewrite map_map; by apply map_ext).
  rewrite E in Hnd. by apply NoDup_fmap_1 in Hnd.
Qed.

Lemma routing_found c :
  (∀ p, p ∈ policies c → policy_guarantees p) → NoDup (map rp_name (policies c)) →
  NoDup (agent_pins c) ∧ (∀ r, r ∈ agent_pins c → reference_guarantees r) →
  NoDup (agent_exclusions c) ∧ (∀ r, r ∈ agent_exclusions c → reference_guarantees r) →
  compile_routing (object [
    ("policies", Array (map route_policy_value (policies c))); ("agentPins", Array (map agent_value (agent_pins c)));
    ("agentExclusions", Array (map agent_value (agent_exclusions c)))]) = Ok c.
Proof.
  intros Hp Hn [Np Rp] [Ne Re]. unfold compile_routing. read_next.
  rewrite (compile_entries_found _ _ _ rp_name policy_guarantees) by (done || intros; by apply policy_found). cbn [try_bind].
  rewrite (references_found _ _ (agent_pins c)) by done. cbn [try_bind].
  rewrite (references_found _ _ (agent_exclusions c)) by done. by destruct c.
Qed.

Lemma execution_found c :
  (∀ p, p ∈ profiles c → profile_guarantees p) → NoDup (map sp_name (profiles c)) →
  (∀ b, b ∈ backends c → backend_guarantees b) → NoDup (map br_backend_id (backends c)) →
  compile_execution (object [
    ("profiles", Array (map profile_source (profiles c))); ("backends", Array (map backend_value (backends c)))]) = Ok c.
Proof.
  intros Hp Hn Hb Hi. unfold compile_execution. read_next.
  rewrite (compile_entries_found _ _ _ sp_name profile_guarantees) by (done || intros; by apply profile_found). cbn [try_bind].
  read_next.
  rewrite (compile_entries_found _ _ _ br_backend_id backend_guarantees) by (done || intros; by apply backend_found).
  by destruct c.
Qed.

Lemma evaluators_found c :
  (∀ v, v ∈ evaluator_versions c → version_guarantees v) → NoDup (map ev_id (evaluator_versions c)) →
  (∀ r, r ∈ evaluator_refs c → er_reference r ≠ EmptyString) → NoDup (map er_reference (evaluator_refs c)) →
  compile_evaluators (component_value c) = Ok c.
Proof.
  intros Hv Hi Hr Hn. unfold compile_evaluators. read_next.
  rewrite (compile_entries_found _ _ _ ev_id version_guarantees) by (done || intros; by apply version_found). cbn [try_bind].
  read_next.
  rewrite (compile_entries_found _ _ _ er_reference (fun r => er_reference r ≠ EmptyString)) by (done || intros; by apply ref_found).
  by destruct c.
Qed.

Lemma authorization_found c :
  (0 < az_schema_version c ≤ u32_max)%Z → (∀ r, r ∈ az_rules c → rule_guarantees r) →
  compile_authorization (object [
    ("schemaVersion", Integer (az_schema_version c)); ("rules", Array (map rule_value (az_rules c)))]) = Ok c.
Proof.
  intros Hz Hr. unfold compile_authorization. do 2 read_next. rewrite rules_found by done. cbn [try_bind]. read_next. by destruct c.
Qed.

Lemma configuration_found c : compiled_guarantees c → compile_root (configuration_source c) = Ok c.
Proof.
  intros [Hcon Hag Hpol Hpoln Hpin Hexc Hprof Hprofn Hback Hbackn Hver Hvern Hrefn Hrefs Hctx Hrule Haz _ _ _ _ Hw].
  unfold wf_context in Hw. split_andb. unfold compile_root.
  eapply try_bind_found; [reflexivity|]. eapply try_bind_found; [apply agents_found; [done|by apply con_identities]|].
  eapply try_bind_found; [reflexivity|]. eapply try_bind_found; [by apply routing_found|].
  eapply try_bind_found; [reflexivity|]. eapply try_bind_found; [by apply execution_found|].
  eapply try_bind_found; [reflexivity|]. eapply try_bind_found; [by apply evaluators_found|].
  eapply try_bind_found; [reflexivity|]. eapply try_bind_found; [by apply context_found|].
  eapply try_bind_found; [reflexivity|]. eapply try_bind_found; [by apply authorization_found|].
  assert ({| cfg_agents := {| agents := agents (cfg_agents c) |}; cfg_routing := cfg_routing c; cfg_execution := cfg_execution c;
             cfg_evaluators := cfg_evaluators c; cfg_context := cfg_context c; cfg_authorization := cfg_authorization c |} = c)
    as E by (by destruct c as [[] ? ? ? ? ?]).
  rewrite E, (proj2 (cross_references_Ok c) Hcon). done.
Qed.

(** *** The text *)

Lemma version_wf z : (0 < z ≤ u32_max)%Z → in_i64 z = true.
Proof. intros Hz. unfold in_i64, i64_min, i64_max, u32_max in *. apply andb_true_iff. split; apply Z.leb_le; lia. Qed.

Lemma rule_value_wf r : rule_guarantees r → wf_value (rule_value r) = true.
Proof.
  intros [Ha _]. unfold rule_value. wf_parts; [|by destruct (ar_effect r)].
  unfold ACTIONS in Ha. by repeat (apply elem_of_cons in Ha as [->|Ha]; [reflexivity|]); apply not_elem_of_nil in Ha.
Qed.

Lemma route_policy_value_wf p : policy_guarantees p → wf_policy p = true → wf_value (route_policy_value p) = true.
Proof.
  intros (_ & Ho & Ht) [Hn Hp]%andb_true_iff. unfold route_policy_value. wf_parts.
  - apply wf_strings, forallb_True. intros k Hk. apply Ho in Hk. by apply list_elem_of_singleton in Hk as ->.
  - unfold ROUTE_TIE_BREAK_KEYS in Ht. by repeat (apply elem_of_cons in Ht as [->|Ht]; [reflexivity|]); apply not_elem_of_nil in Ht.
Qed.

Lemma agent_value_wf r : reference_guarantees r → wf_reference r = true → wf_value (agent_value r) = true.
Proof. intros [_ Hv] Hw. unfold agent_value. wf_parts. by apply version_wf. Qed.

Lemma backend_value_wf b : wf_backend b = true → wf_value (backend_value b) = true.
Proof. intros [Hi Hs]%andb_true_iff. unfold backend_value. wf_parts. Qed.

Lemma agent_source_wf a : wf_agent a = true → wf_value (agent_source a) = true.
Proof. unfold wf_agent, agent_source. intros H. split_andb. wf_parts; auto with pantheon. Qed.

Lemma profile_source_wf p : wf_profile p = true → wf_value (profile_source p) = true.
Proof.
  unfold wf_profile, profile_source. intros H. split_andb.
  wf_parts; auto with pantheon; [by destruct (sp_isolation_class p)|by destruct (sp_network_mode p)].
Qed.

Lemma configuration_source_wf c : compiled_guarantees c → wf_value (configuration_source c) = true.
Proof.
  intros [_ _ Hpol _ [_ Hpin] [_ Hexc] _ _ _ _ _ _ _ _ _ Hrule Haz Ha Hr Hx He Hc].
  apply evaluators_value_wf in He. apply context_value_wf in Hc. unfold wf_routing, wf_execution in Hr, Hx. split_andb.
  repeat match goal with H : forallb _ _ = true |- _ => rewrite forallb_True in H end.
  unfold configuration_source. wf_parts;
    auto using version_wf, rule_value_wf, route_policy_value_wf, agent_value_wf, backend_value_wf, agent_source_wf, profile_source_wf.
Qed.

(** ** Claims *)

(** C1: the compiler promises exactly what it checks. A configuration is the outcome of
    some source text exactly when every reference resolves, no agent or rule holds the
    hard-denied action, every agent that may run shells or processes runs in a container
    that asserts control-plane isolation, names and identities are there and declared
    once, sets repeat nothing, numbers are positive and fit, evaluators name a program
    and a time limit, guidance is bounded, and mandatory context is never droppable; and
    that is also exactly when the canonical text of the configuration's own source
    document compiles to that configuration, field for field. *)
Theorem compile_exact c :
  ((∃ source, compile source = Ok c) ↔ compiled_guarantees c) ∧
  (compile (to_canonical_bytes (configuration_source c)) = Ok c ↔ compiled_guarantees c).
Proof.
  assert (compiled_guarantees c → compile (to_canonical_bytes (configuration_source c)) = Ok c) as Hback.
  { intros Hc. pose proof (configuration_source_wf c Hc) as Hw. unfold compile. rewrite parse_write by done.
    by apply configuration_found. }
  split; split; [|by eauto|by apply compile_Ok|done]. intros [source Hc]. by eapply compile_Ok.
Qed.

(** A configuration that compiles: its set-valued fields need not be sorted, and its
    source is read again as it was. *)
Example sample_compiles_again : compile (to_canonical_bytes (configuration_source sample_compiled)) = Ok sample_compiled.
Proof. vm_compute. reflexivity. Qed.
