(* ===== verification/Scheduling.v ===== *)
(** * Scheduling ([pantheon-core/src/scheduling.rs])

    The deterministic service order over durable fairness state, the execution
    binding a Run commits to, and the frozen context-source snapshot with the
    decoder preparation reads it back through. *)

From Stdlib Require Import ZArith Ascii Lia.
From S2P Require Import Prelude Utf8 Canonical Parse ParseFacts Digest Goal ConfigModel.

Inductive DispatchMode : Type := Running | Paused.

Definition dispatch_mode_as_str (m : DispatchMode) : string :=
  match m with
  | Running => "RUNNING"
  | Paused => "PAUSED"
  end.

Definition dispatch_mode_parse (text : string) : option DispatchMode :=
  if String.eqb text "RUNNING" then Some Running
  else if String.eqb text "PAUSED" then Some Paused
  else None.

Inductive Suppression : Type := OperatorPause | ConfigurationUnavailable | SlotHeld.

(** ** Service order *)

Record GoalFairness : Type := {
  gf_goal_id : string;
  gf_last_served_sequence : option Z
}.

Record SchedulableTask : Type := {
  st_task_id : string;
  st_goal_id : string;
  st_eligible_since : Z
}.

(** The decision record of one task: [(served, goal, eligible since, task)]. *)
Definition Candidacy : Type := (Z * (string * (Z * string)))%type.

Definition candidacy (goals : list GoalFairness) (task : SchedulableTask) : Candidacy :=
  let served := find_first (fun g => String.eqb (gf_goal_id g) (st_goal_id task)) goals
                  ≫= gf_last_served_sequence in
  (default i64_min served, (st_goal_id task, (st_eligible_since task, st_task_id task))).

Definition service_order (goals : list GoalFairness) (tasks : list SchedulableTask) :
    list (string * string) :=
  map (fun c : Candidacy => (c.2.1, c.2.2.2)) (sort (map (candidacy goals) tasks)).

Definition select_service (goals : list GoalFairness) (tasks : list SchedulableTask) :
    option (string * string) :=
  head (service_order goals tasks).

(** ** The execution binding *)

Record ExecutionBinding : Type := {
  eb_task_id : string;
  eb_agent : LogicalAgentVersion;
  eb_request_digest : Digest;
  eb_offer_digest : Digest;
  eb_backend_id : string;
  eb_descriptor_revision : Z;
  eb_descriptor_digest : Digest;
  eb_execution_profile_digest : Digest;
  eb_sandbox_profile_digest : Digest;
  eb_route_policy_digest : Digest;
  eb_configuration_activation_sequence : Z;
  eb_configuration_content_digest : Digest;
  eb_component_digests : ComponentDigests
}.

Definition binding_to_value (b : ExecutionBinding) : Value :=
  object [
    ("taskId", Str (eb_task_id b));
    ("agent", agent_value (eb_agent b));
    ("requestDigest", Str (to_display (eb_request_digest b)));
    ("offerDigest", Str (to_display (eb_offer_digest b)));
    ("backendId", Str (eb_backend_id b));
    ("descriptorRevision", Integer (i64_saturating (eb_descriptor_revision b)));
    ("descriptorDigest", Str (to_display (eb_descriptor_digest b)));
    ("executionProfileDigest", Str (to_display (eb_execution_profile_digest b)));
    ("sandboxProfileDigest", Str (to_display (eb_sandbox_profile_digest b)));
    ("routePolicyDigest", Str (to_display (eb_route_policy_digest b)));
    ("configurationActivationSequence", Integer (eb_configuration_activation_sequence b));
    ("configurationContentDigest", Str (to_display (eb_configuration_content_digest b)));
    ("componentDigests", component_digests_value (eb_component_digests b))].

Definition binding_digest `{Sha256} (b : ExecutionBinding) : Digest :=
  value_digest (binding_to_value b).

(** ** The context-source snapshot *)

Record ContextSourceSnapshot : Type := {
  cs_task_spec_digest : Digest;
  cs_goal_id : string;
  cs_goal_revision : Z;
  cs_graph_revision : Z;
  cs_agent : LogicalAgentVersion;
  cs_configuration_activation_sequence : Z;
  cs_context_policy_digest : Digest;
  cs_agent_soul_digest : Digest;
  cs_agent_behavior_digest : Digest;
  cs_workspace_id : string;
  cs_workspace_resolved_base : string
}.

Definition snapshot_to_value (s : ContextSourceSnapshot) : Value :=
  object [
    ("taskSpecDigest", Str (to_display (cs_task_spec_digest s)));
    ("goalId", Str (cs_goal_id s));
    ("goalRevision", Integer (cs_goal_revision s));
    ("graphRevision", Integer (cs_graph_revision s));
    ("agent", agent_value (cs_agent s));
    ("configurationActivationSequence", Integer (cs_configuration_activation_sequence s));
    ("contextPolicyDigest", Str (to_display (cs_context_policy_digest s)));
    ("agentSoulDigest", Str (to_display (cs_agent_soul_digest s)));
    ("agentBehaviorDigest", Str (to_display (cs_agent_behavior_digest s)));
    ("workspaceId", Str (cs_workspace_id s));
    ("workspaceResolvedBase", Str (cs_workspace_resolved_base s))].

Definition snapshot_digest `{Sha256} (s : ContextSourceSnapshot) : Digest :=
  value_digest (snapshot_to_value s).

Inductive SnapshotDecodeError : Type :=
| SnUnparsable (s : Stop)
| SnMissing (name : string)
| SnNotAString (name found : string)
| SnNotAnInteger (name found : string)
| SnNotADigest (name : string)
| SnMalformedAgent
| SnAgentVersion.

Definition sn_string (value : Value) (name : string) : Result string SnapshotDecodeError :=
  match get value name with
  | Some (Str text) => Ok text
  | Some other => Err (SnNotAString name (kind other))
  | None => Err (SnMissing name)
  end.

Definition sn_integer (value : Value) (name : string) : Result Z SnapshotDecodeError :=
  match get value name with
  | Some (Integer number) => Ok number
  | Some other => Err (SnNotAnInteger name (kind other))
  | None => Err (SnMissing name)
  end.

Definition sn_digest (value : Value) (name : string) : Result Digest SnapshotDecodeError :=
  let? text := sn_string value name in
  ok_or (from_display text) (SnNotADigest name).

Definition sn_agent (value : Value) : Result LogicalAgentVersion SnapshotDecodeError :=
  let? agent := ok_or (get value "agent") (SnMissing "agent") in
  match get agent "name", get agent "version" with
  | Some (Str name), Some (Integer version) =>
      let? version := ok_or (u32_try_from version) SnAgentVersion in
      Ok (mk_agent_version name version)
  | _, _ => Err SnMalformedAgent
  end.

Definition snapshot_from_value (value : Value) :
    Result ContextSourceSnapshot SnapshotDecodeError :=
  let? agent := sn_agent value in
  let? task_spec_digest := sn_digest value "taskSpecDigest" in
  let? goal_id := sn_string value "goalId" in
  let? goal_revision := sn_integer value "goalRevision" in
  let? graph_revision := sn_integer value "graphRevision" in
  let? activation := sn_integer value "configurationActivationSequence" in
  let? context_policy_digest := sn_digest value "contextPolicyDigest" in
  let? soul := sn_digest value "agentSoulDigest" in
  let? behavior := sn_digest value "agentBehaviorDigest" in
  let? workspace_id := sn_string value "workspaceId" in
  let? base := sn_string value "workspaceResolvedBase" in
  Ok {| cs_task_spec_digest := task_spec_digest; cs_goal_id := goal_id;
        cs_goal_revision := goal_revision; cs_graph_revision := graph_revision;
        cs_agent := agent; cs_configuration_activation_sequence := activation;
        cs_context_policy_digest := context_policy_digest; cs_agent_soul_digest := soul;
        cs_agent_behavior_digest := behavior; cs_workspace_id := workspace_id;
        cs_workspace_resolved_base := base |}.

(** [ContextSourceSnapshot::from_canonical_json]. *)
Definition snapshot_from_canonical_json (text : string) :
    Result ContextSourceSnapshot SnapshotDecodeError :=
  let? value := map_err SnUnparsable (parse text) in
  snapshot_from_value value.

(** ** Lemmas: service order *)

#[export] Instance candidacy_total : TotalOrder (cmp (A:=Candidacy)).
Proof. unfold Candidacy. apply _. Qed.

(** The order serves exactly the tasks given, each once. *)
Lemma service_order_perm goals tasks :
  service_order goals tasks ≡ₚ map (fun t => (st_goal_id t, st_task_id t)) tasks.
Proof.
  unfold service_order, sort. rewrite (Permutation_map _ (sort_by_perm cmp (map (candidacy goals) tasks))).
  by rewrite map_map.
Qed.

(** Only what the fairness table answers matters, not how it was collected. *)
Lemma service_order_stable goals1 goals2 tasks1 tasks2 :
  (∀ t, t ∈ tasks1 → candidacy goals1 t = candidacy goals2 t) → tasks1 ≡ₚ tasks2 →
  service_order goals1 tasks1 = service_order goals2 tasks2.
Proof.
  intros Hg Hp. unfold service_order, sort. f_equal.
  assert (map (candidacy goals1) tasks1 = map (candidacy goals2) tasks1) as ->.
  { apply map_ext_in. intros t Ht. apply Hg. by apply list_elem_of_In. }
  apply sort_by_unique; [apply _| |by apply Permutation_map].
  intros x y _ _. apply (total_order_eq cmp).
Qed.

Lemma goal_served_perm goals1 goals2 id :
  NoDup (map gf_goal_id goals1) → goals1 ≡ₚ goals2 →
  find_first (fun g => String.eqb (gf_goal_id g) id) goals1 =
  find_first (fun g => String.eqb (gf_goal_id g) id) goals2.
Proof.
  intros Hnd Hp.
  destruct (find_first _ goals1) as [g1|] eqn:E1, (find_first _ goals2) as [g2|] eqn:E2; [| | |done].
  - apply find_first_Some in E1 as [H1 N1%String.eqb_eq], E2 as [H2 N2%String.eqb_eq].
    rewrite <-Hp in H2. f_equal. apply (NoDup_map_inj gf_goal_id goals1); [done..|congruence].
  - apply find_first_Some in E1 as [H1 N1]. rewrite find_first_None in E2.
    rewrite Hp in H1. by rewrite E2 in N1.
  - apply find_first_Some in E2 as [H2 N2]. rewrite find_first_None in E1.
    rewrite <-Hp in H2. by rewrite E1 in N2.
Qed.

(** The head of the order is a minimum of the decision records. *)
Lemma select_service_least goals tasks g t :
  select_service goals tasks = Some (g, t) →
  ∃ chosen, chosen ∈ tasks ∧ st_goal_id chosen = g ∧ st_task_id chosen = t ∧
    ∀ other, other ∈ tasks → cmp_le cmp (candidacy goals chosen) (candidacy goals other).
Proof.
  unfold select_service, service_order, sort.
  pose proof (sort_by_sorted cmp (map (candidacy goals) tasks)) as Hs.
  pose proof (sort_by_perm cmp (map (candidacy goals) tasks)) as Hp.
  destruct (sort_by cmp (map (candidacy goals) tasks)) as [|c rest]; [done|]. cbn. intros [= <- <-].
  assert (c ∈ map (candidacy goals) tasks) as Hc by (rewrite <-Hp; left).
  apply list_elem_of_In, in_map_iff in Hc as (chosen & <- & Hin%list_elem_of_In).
  exists chosen. repeat split; [done|]. intros other Ho.
  assert (candidacy goals other ∈ candidacy goals chosen :: rest) as Ho'.
  { rewrite Hp. apply list_elem_of_In, in_map. by apply list_elem_of_In. }
  inversion Hs as [|? ? _ Hall]; subst. apply elem_of_cons in Ho' as [->|Ho'].
  - unfold cmp_le. by rewrite (comparator_refl cmp).
  - rewrite Forall_forall in Hall. auto.
Qed.

(** Lexicographic comparison, component by component. *)
Lemma pair_le {A B} (f : A → A → comparison) (g : B → B → comparison) `{!TotalOrder f} x y :
  cmp_le (pair_cmp f g) x y → f x.1 y.1 = Lt ∨ (x.1 = y.1 ∧ cmp_le g x.2 y.2).
Proof.
  unfold cmp_le, pair_cmp. destruct (f x.1 y.1) eqn:E; cbn; [|by left|done].
  apply (total_order_eq f) in E. by right.
Qed.

(** The sequence a Goal was last served at; a Goal never served is oldest. *)
Definition served (goals : list GoalFairness) (goal_id : string) : Z :=
  default i64_min (find_first (fun g => String.eqb (gf_goal_id g) goal_id) goals
                     ≫= gf_last_served_sequence).

Definition fair_before (goals : list GoalFairness) (a b : SchedulableTask) : Prop :=
  (served goals (st_goal_id a) < served goals (st_goal_id b))%Z ∨
  (served goals (st_goal_id a) = served goals (st_goal_id b) ∧
   (String.compare (st_goal_id a) (st_goal_id b) = Lt ∨
    (st_goal_id a = st_goal_id b ∧
     ((st_eligible_since a < st_eligible_since b)%Z ∨
      (st_eligible_since a = st_eligible_since b ∧
       cmp_le String.compare (st_task_id a) (st_task_id b)))))).

Lemma candidacy_fair goals a b :
  cmp_le cmp (candidacy goals a) (candidacy goals b) → fair_before goals a b.
Proof.
  intros H. unfold candidacy in H. cbn zeta in H.
  fold (served goals (st_goal_id a)) (served goals (st_goal_id b)) in H.
  apply (pair_le (cmp (A:=Z)) cmp) in H as [H|[Heq H]]; cbn in *; [left; exact H|].
  right. split; [done|]. apply (pair_le (cmp (A:=string)) cmp) in H as [H|[Heq2 H]]; cbn in *; [by left|].
  right. split; [done|]. apply (pair_le (cmp (A:=Z)) cmp) in H as [H|[Heq3 H]]; cbn in *; [left; exact H|].
  right. split; done.
Qed.

(** ** Lemmas: the snapshot *)

Definition wf_snapshot (s : ContextSourceSnapshot) : bool :=
  wf_digest (cs_task_spec_digest s) && utf8_valid (cs_goal_id s) && in_i64 (cs_goal_revision s)
  && in_i64 (cs_graph_revision s) && utf8_valid (lav_name (cs_agent s))
  && in_u32 (lav_version (cs_agent s)) && in_i64 (cs_configuration_activation_sequence s)
  && wf_digest (cs_context_policy_digest s) && wf_digest (cs_agent_soul_digest s)
  && wf_digest (cs_agent_behavior_digest s) && utf8_valid (cs_workspace_id s)
  && utf8_valid (cs_workspace_resolved_base s).

Lemma snapshot_to_value_wf s : wf_snapshot s = true → wf_value (snapshot_to_value s) = true.
Proof.
  unfold wf_snapshot, snapshot_to_value, agent_value. intros H. split_andb. wf_parts.
Qed.

Lemma snapshot_from_to_value s :
  wf_snapshot s = true → snapshot_from_value (snapshot_to_value s) = Ok s.
Proof.
  unfold wf_snapshot. intros H. split_andb.
  unfold snapshot_from_value, sn_agent, sn_digest, sn_string, sn_integer, snapshot_to_value,
    agent_value. get_fields. cbn [ok_or try_bind]. get_fields.
  rewrite u32_try_from_in by done. cbn [ok_or try_bind].
  rewrite !from_display_to_display by done. cbn [ok_or try_bind].
  destruct s as [? ? ? ? [] ? ? ? ? ? ?]. done.
Qed.

Lemma select_service_None goals tasks : select_service goals tasks = None ↔ tasks = [].
Proof.
  unfold select_service. pose proof (service_order_perm goals tasks) as Hp. split.
  - destruct (service_order goals tasks); [|done]. apply Permutation_nil in Hp.
    by destruct tasks.
  - by intros ->.
Qed.

Lemma candidacy_perm goals1 goals2 t :
  NoDup (map gf_goal_id goals1) → goals1 ≡ₚ goals2 → candidacy goals1 t = candidacy goals2 t.
Proof. intros Hnd Hp. unfold candidacy. by rewrite (goal_served_perm goals1 goals2). Qed.

(** ** Claims *)

(** selection is fair and never idles: the service picked is always one of
    the schedulable tasks, and it comes before every other one in the documented
    order (the Goal served longest ago, a never-served Goal first; then the Goal
    identity; then the longest eligible task; then the task identity), and
    nothing is picked only when nothing is schedulable. *)
Theorem selection_is_fair goals tasks :
  match select_service goals tasks with
  | Some (g, t) =>
      ∃ chosen, chosen ∈ tasks ∧ st_goal_id chosen = g ∧ st_task_id chosen = t ∧
        ∀ other, other ∈ tasks → fair_before goals chosen other
  | None => tasks = []
  end.
Proof.
  destruct (select_service goals tasks) as [[g t]|] eqn:E.
  - apply select_service_least in E as (c & Hc & Hg & Ht & Hle).
    exists c. repeat split; [done..|]. intros o Ho. by apply candidacy_fair, Hle.
  - by apply select_service_None in E.
Qed.

(** the service order is a function of the durable state and not of how it
    was collected: it serves each schedulable task exactly once, and reordering
    the rows of the fairness table or of the task list changes nothing. *)
Theorem service_order_deterministic goals1 goals2 tasks1 tasks2
    (Hkey : NoDup (map gf_goal_id goals1)) (Hgoals : goals1 ≡ₚ goals2)
    (Htasks : tasks1 ≡ₚ tasks2) :
  service_order goals1 tasks1 ≡ₚ map (fun t => (st_goal_id t, st_task_id t)) tasks1 ∧
  service_order goals1 tasks1 = service_order goals2 tasks2.
Proof.
  split; [apply service_order_perm|].
  apply service_order_stable; [|done]. intros t _. by apply candidacy_perm.
Qed.

Definition sample_goals : list GoalFairness :=
  [{| gf_goal_id := "g1"; gf_last_served_sequence := Some 7%Z |};
   {| gf_goal_id := "g2"; gf_last_served_sequence := None |}].

Definition sample_tasks : list SchedulableTask :=
  [{| st_task_id := "t1"; st_goal_id := "g1"; st_eligible_since := 1%Z |};
   {| st_task_id := "t2"; st_goal_id := "g2"; st_eligible_since := 9%Z |};
   {| st_task_id := "t3"; st_goal_id := "g2"; st_eligible_since := 4%Z |}].

Lemma service_order_deterministic_witness :
  service_order sample_goals sample_tasks = [("g2", "t3"); ("g2", "t2"); ("g1", "t1")] ∧
  service_order sample_goals sample_tasks =
  service_order (rev sample_goals) (rev sample_tasks).
Proof.
  split; [reflexivity|].
  apply (service_order_deterministic sample_goals (rev sample_goals) sample_tasks (rev sample_tasks)).
  - apply (bool_decide_unpack _). vm_compute. exact I.
  - apply Permutation_rev.
  - apply Permutation_rev.
Defined.

(** the context-source snapshot frozen with a Run is read back by
    preparation exactly as it was frozen. *)
Theorem snapshot_roundtrip s (Hwf : wf_snapshot s = true) :
  snapshot_from_canonical_json (to_canonical_bytes (snapshot_to_value s)) = Ok s.
Proof.
  unfold snapshot_from_canonical_json.
  rewrite parse_write by by apply snapshot_to_value_wf. cbn [map_err try_bind].
  by apply snapshot_from_to_value.
Qed.

Definition sample_snapshot : ContextSourceSnapshot := {|
  cs_task_spec_digest := @digest_of prefix_hash "spec"; cs_goal_id := "goal-1";
  cs_goal_revision := 2%Z; cs_graph_revision := 5%Z; cs_agent := mk_agent_version "implementer" 3%Z;
  cs_configuration_activation_sequence := 11%Z;
  cs_context_policy_digest := @digest_of prefix_hash "policy";
  cs_agent_soul_digest := @digest_of prefix_hash "soul";
  cs_agent_behavior_digest := @digest_of prefix_hash "behavior";
  cs_workspace_id := "ws-1"; cs_workspace_resolved_base := "0123abcd" |}.

Lemma snapshot_roundtrip_witness :
  wf_snapshot sample_snapshot = true ∧
  snapshot_from_canonical_json (to_canonical_bytes (snapshot_to_value sample_snapshot)) =
  Ok sample_snapshot.
Proof. split; [vm_compute; reflexivity | apply snapshot_roundtrip; vm_compute; reflexivity]. Defined.
