(* ===== verification/ContextPlan.v ===== *)
(** * Context plans ([pantheon-core/src/context.rs])

    The provider-neutral selection a Run's frozen sources produce: sections with
    their inclusion class and authority stratum, the total order they are listed
    in, the policy-driven drop of optional sections, and the extraction of an
    agent's frozen guidance. *)

From Stdlib Require Import ZArith Ascii Lia.
From S2P Require Import Prelude Utf8 Canonical Parse ParseFacts Digest Goal Task ConfigModel Scheduling.

Definition CONTEXT_BUILDER_VERSION : string := "context-builder-v1".
Definition SECTION_TASK_CONTRACT : string := "task-contract".
Definition SECTION_GOAL_CONTRACT : string := "goal-contract".
Definition SECTION_AGENT_SOUL : string := "agent-soul".
Definition SECTION_AGENT_BEHAVIOR : string := "agent-behavior".
Definition SECTION_WORKSPACE_ORIENTATION : string := "workspace-orientation".
Definition SECTION_REFERENCE_INPUT : string := "reference-input".

Inductive InclusionClass : Type := Mandatory | Preload | OnDemand.

#[export] Instance InclusionClass_eq_dec : EqDecision InclusionClass.
Proof. solve_decision. Defined.

Definition inclusion_as_str (i : InclusionClass) : string :=
  match i with
  | Mandatory => "mandatory"
  | Preload => "preload"
  | OnDemand => "on-demand"
  end.

(** The first component of the order key. *)
Definition inclusion_rank (i : InclusionClass) : Z :=
  match i with
  | Mandatory => 0
  | Preload => 1
  | OnDemand => 2
  end.

Inductive PrecedenceStratum : Type :=
| ExecutionProtocol | GoalTaskContract | AgentGuidanceStratum | ContinuationEvidence | ReferenceData.

Definition stratum_as_str (p : PrecedenceStratum) : string :=
  match p with
  | ExecutionProtocol => "execution-protocol"
  | GoalTaskContract => "goal-task-contract"
  | AgentGuidanceStratum => "agent-guidance"
  | ContinuationEvidence => "continuation-evidence"
  | ReferenceData => "reference-data"
  end.

Definition stratum_rank (p : PrecedenceStratum) : Z :=
  match p with
  | ExecutionProtocol => 0
  | GoalTaskContract => 1
  | AgentGuidanceStratum => 2
  | ContinuationEvidence => 3
  | ReferenceData => 4
  end.

Definition kind_rank (kind : string) : Z :=
  if String.eqb kind SECTION_TASK_CONTRACT then 0
  else if String.eqb kind SECTION_GOAL_CONTRACT then 1
  else if String.eqb kind SECTION_AGENT_SOUL then 2
  else if String.eqb kind SECTION_AGENT_BEHAVIOR then 3
  else if String.eqb kind SECTION_WORKSPACE_ORIENTATION then 4
  else if String.eqb kind SECTION_REFERENCE_INPUT then 5
  else 255.

Record ContextSection : Type := {
  sec_kind : string;
  sec_key : string;
  sec_inclusion : InclusionClass;
  sec_precedence : PrecedenceStratum;
  sec_provenance : Value;
  sec_instruction : option string
}.

Definition order_key (s : ContextSection) : Z * (Z * (Z * (string * string))) :=
  (inclusion_rank (sec_inclusion s),
   (stratum_rank (sec_precedence s), (kind_rank (sec_kind s), (sec_kind s, sec_key s)))).

Definition section_to_value (s : ContextSection) : Value :=
  object [
    ("kind", Str (sec_kind s));
    ("key", Str (sec_key s));
    ("inclusion", Str (inclusion_as_str (sec_inclusion s)));
    ("precedence", Str (stratum_as_str (sec_precedence s)));
    ("provenance", sec_provenance s);
    ("instruction", match sec_instruction s with
                    | Some text => Str text
                    | None => Null
                    end)].

Record DroppedSection : Type := { ds_kind : string; ds_key : string; ds_reason : string }.

Definition dropped_to_value (d : DroppedSection) : Value :=
  object [("kind", Str (ds_kind d)); ("key", Str (ds_key d)); ("reason", Str (ds_reason d))].

Record ContextPlan : Type := {
  plan_source_snapshot_digest : Digest;
  plan_context_policy_digest : Digest;
  plan_task_spec_digest : Digest;
  plan_goal_id : string;
  plan_goal_revision : Z;
  plan_graph_revision : Z;
  plan_agent : LogicalAgentVersion;
  plan_agent_soul_digest : Digest;
  plan_agent_behavior_digest : Digest;
  plan_workspace_id : string;
  plan_workspace_resolved_base : string;
  plan_sections : list ContextSection;
  plan_dropped : list DroppedSection
}.

Definition plan_to_value (p : ContextPlan) : Value :=
  object [
    ("builder", object [
       ("version", Str CONTEXT_BUILDER_VERSION);
       ("contextPolicyDigest", Str (to_display (plan_context_policy_digest p)))]);
    ("sourceSnapshot", Str (to_display (plan_source_snapshot_digest p)));
    ("task", object [
       ("specDigest", Str (to_display (plan_task_spec_digest p)));
       ("goalId", Str (plan_goal_id p));
       ("goalRevision", Integer (plan_goal_revision p));
       ("graphRevision", Integer (plan_graph_revision p))]);
    ("agent", object [
       ("name", Str (lav_name (plan_agent p)));
       ("version", Integer (lav_version (plan_agent p)));
       ("soul", Str (to_display (plan_agent_soul_digest p)));
       ("behavior", Str (to_display (plan_agent_behavior_digest p)))]);
    ("workspace", object [
       ("id", Str (plan_workspace_id p));
       ("resolvedBase", Str (plan_workspace_resolved_base p))]);
    ("sections", Array (map section_to_value (plan_sections p)));
    ("dropped", Array (map dropped_to_value (plan_dropped p)))].

Definition plan_digest `{Sha256} (p : ContextPlan) : Digest := value_digest (plan_to_value p).

(** ** Ordering and dropping *)

Definition compare_sections : ContextSection → ContextSection → comparison :=
  key_cmp order_key cmp.

(** A preload section of the kind under consideration. *)
Definition droppable (kind : string) (s : ContextSection) : bool :=
  bool_decide (sec_inclusion s = Preload) && String.eqb (sec_kind s) kind.

Definition victim (kind : string) (kept : list ContextSection) : option ContextSection :=
  max_by compare_sections (List.filter (droppable kind) kept).

(** [retain]: what shares neither kind nor key with the victim stays. *)
Definition remaining (v : ContextSection) (s : ContextSection) : bool :=
  negb (String.eqb (sec_kind s) (sec_kind v)) || negb (String.eqb (sec_key s) (sec_key v)).

Section Drop.
Variable capacity_exceeded : list ContextSection → bool.

(** The [while] loop of one kind; every round removes at least its victim, so
    one more round than there are sections is enough. *)
Fixpoint drop_kind (fuel : nat) (kind : string)
    (state : list ContextSection * list DroppedSection) :
    list ContextSection * list DroppedSection :=
  match fuel with
  | O => state
  | S fuel' =>
      let (kept, dropped) := state in
      if capacity_exceeded kept then
        match victim kind kept with
        | None => state
        | Some section =>
            drop_kind fuel' kind
              (List.filter (remaining section) kept,
               dropped ++ [{| ds_kind := sec_kind section; ds_key := sec_key section;
                              ds_reason := "policy-drop-order" |}])
        end
      else state
  end.

Definition apply_optional_drop (sections : list ContextSection) (drop_order : list string) :
    list ContextSection * list DroppedSection :=
  fold_left (fun state kind => drop_kind (S (length sections)) kind state)
    drop_order (sections, []).
End Drop.

(** ** Building a plan *)

Record FrozenSources : Type := {
  fs_task_spec : TaskSpec;
  fs_goal_content_digest : Digest;
  fs_soul : string;
  fs_behavior : string;
  fs_workspace_repository : string
}.

Inductive ContextPlanError : Type := MandatorySectionUnsatisfiable (section : string).

Definition reference_section (input : TaskInput) : ContextSection := {|
  sec_kind := SECTION_REFERENCE_INPUT;
  sec_key := task_input_name input;
  sec_inclusion := OnDemand;
  sec_precedence := ReferenceData;
  sec_provenance := object [("ref", Str (task_input_reference input))];
  sec_instruction := None |}.

Definition guidance_section (kind : string) (snapshot : ContextSourceSnapshot) (digest : Digest)
    (text : string) : ContextSection := {|
  sec_kind := kind;
  sec_key := EmptyString;
  sec_inclusion := Mandatory;
  sec_precedence := AgentGuidanceStratum;
  sec_provenance := object [
    ("agentName", Str (lav_name (cs_agent snapshot)));
    ("agentVersion", Integer (lav_version (cs_agent snapshot)));
    ("digest", Str (to_display digest))];
  sec_instruction := Some text |}.

Section Build.
Context `{Sha256}.

(** The five fixed sections and one reference per Task input, in push order. *)
Definition plan_candidates (snapshot : ContextSourceSnapshot) (sources : FrozenSources) :
    list ContextSection :=
  [{| sec_kind := SECTION_TASK_CONTRACT;
      sec_key := EmptyString;
      sec_inclusion := Mandatory;
      sec_precedence := GoalTaskContract;
      sec_provenance := object [
        ("specDigest", Str (to_display (cs_task_spec_digest snapshot)));
        ("acceptanceDigest", Str (to_display (acceptance_digest (fs_task_spec sources))));
        ("goalId", Str (cs_goal_id snapshot));
        ("goalRevision", Integer (cs_goal_revision snapshot))];
      sec_instruction := Some (task_objective (fs_task_spec sources)) |};
   {| sec_kind := SECTION_GOAL_CONTRACT;
      sec_key := EmptyString;
      sec_inclusion := Mandatory;
      sec_precedence := GoalTaskContract;
      sec_provenance := object [
        ("goalId", Str (cs_goal_id snapshot));
        ("goalRevision", Integer (cs_goal_revision snapshot));
        ("contentDigest", Str (to_display (fs_goal_content_digest sources)))];
      sec_instruction := None |};
   guidance_section SECTION_AGENT_SOUL snapshot (cs_agent_soul_digest snapshot) (fs_soul sources);
   guidance_section SECTION_AGENT_BEHAVIOR snapshot (cs_agent_behavior_digest snapshot)
     (fs_behavior sources);
   {| sec_kind := SECTION_WORKSPACE_ORIENTATION;
      sec_key := EmptyString;
      sec_inclusion := Preload;
      sec_precedence := ReferenceData;
      sec_provenance := object [
        ("workspaceId", Str (cs_workspace_id snapshot));
        ("repository", Str (fs_workspace_repository sources));
        ("resolvedBase", Str (cs_workspace_resolved_base snapshot))];
      sec_instruction := None |}]
  ++ map reference_section
       (sort_by (key_cmp task_input_name cmp) (task_inputs (fs_task_spec sources))).

Definition build_context_plan (snapshot : ContextSourceSnapshot) (sources : FrozenSources)
    (policy : ContextComponent) : Result ContextPlan ContextPlanError :=
  let sections := plan_candidates snapshot sources in
  do? for_each (fun required =>
        if negb (existsb (fun s => String.eqb (sec_kind s) required) sections)
        then Err (MandatorySectionUnsatisfiable required) else Ok tt)
      (cc_mandatory_sections policy) in
  let (ordered, dropped) :=
    apply_optional_drop (fun _ => false) sections (cc_optional_drop_order policy) in
  let ordered := sort_by compare_sections ordered in
  Ok {| plan_source_snapshot_digest := snapshot_digest snapshot;
        plan_context_policy_digest := cs_context_policy_digest snapshot;
        plan_task_spec_digest := cs_task_spec_digest snapshot;
        plan_goal_id := cs_goal_id snapshot;
        plan_goal_revision := cs_goal_revision snapshot;
        plan_graph_revision := cs_graph_revision snapshot;
        plan_agent := cs_agent snapshot;
        plan_agent_soul_digest := cs_agent_soul_digest snapshot;
        plan_agent_behavior_digest := cs_agent_behavior_digest snapshot;
        plan_workspace_id := cs_workspace_id snapshot;
        plan_workspace_resolved_base := cs_workspace_resolved_base snapshot;
        plan_sections := ordered;
        plan_dropped := dropped |}.
End Build.

(** ** Frozen guidance *)

Record AgentGuidance : Type := { guidance_soul : string; guidance_behavior : string }.

Inductive GuidanceSourceError : Type :=
| VersionAbsent (agent : LogicalAgentVersion)
| GuidanceMalformed (detail : string).

(** The entry of exactly this name and version. *)
Definition is_agent_entry (agent : LogicalAgentVersion) (entry : Value) : bool :=
  match get entry "name", get entry "version" with
  | Some (Str name), Some (Integer version) =>
      String.eqb name (lav_name agent) && Z.eqb version (lav_version agent)
  | _, _ => false
  end.

Definition guidance_text (entry : Value) (name : string) : Result string GuidanceSourceError :=
  match get entry name with
  | Some (Str text) =>
      if negb (is_empty text) then Ok text else Err (GuidanceMalformed name)
  | _ => Err (GuidanceMalformed name)
  end.

Definition frozen_agent_guidance (agents_component : Value) (agent : LogicalAgentVersion) :
    Result AgentGuidance GuidanceSourceError :=
  match get agents_component "agents" with
  | Some (Array entries) =>
      let? entry := ok_or (find_first (is_agent_entry agent) entries) (VersionAbsent agent) in
      let? soul := guidance_text entry "soul" in
      let? behavior := guidance_text entry "behavior" in
      Ok {| guidance_soul := soul; guidance_behavior := behavior |}
  | _ => Err (GuidanceMalformed "agents")
  end.

Definition guidance_digest `{Sha256} (text : string) : Digest := value_digest (Str text).

(** ** The drop loop *)

Definition sec_id (s : ContextSection) : string * string := (sec_kind s, sec_key s).

Definition drop_record (s : ContextSection) : DroppedSection :=
  {| ds_kind := sec_kind s; ds_key := sec_key s; ds_reason := "policy-drop-order" |}.

Lemma droppable_true k s : droppable k s = true ↔ sec_inclusion s = Preload ∧ sec_kind s = k.
Proof. unfold droppable. by rewrite andb_true_iff, bool_decide_eq_true, String.eqb_eq. Qed.

Lemma remaining_true v s : remaining v s = true ↔ sec_id s ≠ sec_id v.
Proof.
  unfold remaining, sec_id. rewrite orb_true_iff, !negb_true_iff, !String.eqb_neq.
  destruct (decide (sec_kind s = sec_kind v)), (decide (sec_key s = sec_key v)); split; intros;
    (congruence || tauto || (left; congruence) || (right; congruence)).
Qed.

Lemma elem_of_filter_b {A} (p : A → bool) l x : x ∈ List.filter p l ↔ x ∈ l ∧ p x = true.
Proof. by rewrite !list_elem_of_In, filter_In. Qed.

#[export] Instance compare_sections_comparator : Comparator compare_sections.
Proof. apply _. Qed.

Lemma victim_Some k kept v :
  victim k kept = Some v →
  v ∈ kept ∧ sec_inclusion v = Preload ∧ sec_kind v = k ∧
  ∀ s, s ∈ kept → droppable k s = true → cmp_le compare_sections s v.
Proof.
  intros (Hv & Hmax)%max_by_Some; [|apply _].
  apply elem_of_filter_b in Hv as [Hin [? ?]%droppable_true]. repeat split; try done.
  intros s Hs Hd. apply Hmax, elem_of_filter_b. done.
Qed.

Lemma victim_None k kept :
  victim k kept = None ↔ ∀ s, s ∈ kept → sec_inclusion s = Preload → sec_kind s ≠ k.
Proof.
  unfold victim. destruct (List.filter (droppable k) kept) as [|x l] eqn:E.
  - split; [|done]. intros _ s Hs Hp Hk. assert (s ∈ List.filter (droppable k) kept) as Hin.
    { apply elem_of_filter_b. split; [done|]. by apply droppable_true. }
    rewrite E in Hin. by apply not_elem_of_nil in Hin.
  - split; [done|]. intros H. assert (x ∈ List.filter (droppable k) kept) as Hin.
    { rewrite E. left. }
    apply elem_of_filter_b in Hin as [Hx [? ?]%droppable_true]. by destruct (H x).
Qed.

Lemma filter_length_lt {A} (p : A → bool) l x :
  x ∈ l → p x = false → length (List.filter p l) < length l.
Proof.
  induction l as [|y l IH]; [intros H; by apply not_elem_of_nil in H|].
  intros [<-|Hx]%elem_of_cons Hp; cbn.
  - rewrite Hp. pose proof (filter_length_le p l). lia.
  - specialize (IH Hx Hp). destruct (p y); cbn; lia.
Qed.

Lemma drop_progress k kept v :
  victim k kept = Some v → length (List.filter (remaining v) kept) < length kept.
Proof.
  intros (Hin & _)%victim_Some. eapply filter_length_lt; [exact Hin|].
  apply not_true_iff_false. rewrite remaining_true. intros Hne. by apply Hne.
Qed.

(** Without repeated identities, a round removes exactly its victim. *)
Lemma remaining_perm v kept :
  NoDup (map sec_id kept) → v ∈ kept → kept ≡ₚ v :: List.filter (remaining v) kept.
Proof.
  induction kept as [|x l IH]; [intros _ H; by apply not_elem_of_nil in H|].
  cbn [map]. intros [Hx Hnd]%NoDup_cons Hin. destruct (decide (sec_id x = sec_id v)) as [E|E].
  - assert (x = v) as ->.
    { apply elem_of_cons in Hin as [->|Hin]; [done|]. destruct Hx. rewrite E.
      apply list_elem_of_In, in_map. by apply list_elem_of_In. }
    cbn. destruct (remaining v v) eqn:R; [by apply remaining_true in R|].
    constructor. assert (∀ y, y ∈ l → remaining v y = true) as Hall.
    { intros y Hy. apply remaining_true. intros Hyv. apply Hx. rewrite <-Hyv.
      apply list_elem_of_In, in_map. by apply list_elem_of_In. }
    clear -Hall. induction l as [|y l IH]; cbn; [done|]. rewrite Hall by left.
    constructor. apply IH. intros z Hz. apply Hall. by right.
  - cbn. rewrite (proj2 (remaining_true v x) E).
    apply elem_of_cons in Hin as [->|Hin]; [done|]. rewrite (IH Hnd Hin) at 1. apply perm_swap.
Qed.

(** What is left of [sections] after [removed] went. *)
Definition left_after (sections removed : list ContextSection) : list ContextSection :=
  fold_left (fun kept v => List.filter (remaining v) kept) removed sections.

Section DropFacts.
Variable capacity_exceeded : list ContextSection → bool.

(** Any property of the state that every round preserves, the loop preserves. *)
Lemma drop_kind_invariant (P : list ContextSection * list DroppedSection → Prop) fuel k state :
  (∀ kept dropped v, P (kept, dropped) → capacity_exceeded kept = true → victim k kept = Some v →
     P (List.filter (remaining v) kept, dropped ++ [drop_record v])) →
  P state → P (drop_kind capacity_exceeded fuel k state).
Proof.
  intros Hstep. revert state; induction fuel as [|fuel IH]; intros [kept dropped] HP; cbn; [done|].
  destruct (capacity_exceeded kept) eqn:Hc; [|done].
  destruct (victim k kept) as [v|] eqn:Hv; [|done]. by apply IH, Hstep.
Qed.

(** The loop ends by its own condition, not by running out of rounds. *)
Lemma drop_kind_done fuel k kept dropped :
  length kept < fuel →
  let kept' := (drop_kind capacity_exceeded fuel k (kept, dropped)).1 in
  capacity_exceeded kept' = false ∨ victim k kept' = None.
Proof.
  revert kept dropped; induction fuel as [|fuel IH]; intros kept dropped Hf; [lia|].
  cbn. destruct (capacity_exceeded kept) eqn:Hc; [|by left].
  destruct (victim k kept) as [v|] eqn:Hv; [|by right].
  apply IH. apply drop_progress in Hv. lia.
Qed.

(** More rounds change nothing. *)
Lemma drop_kind_fuel n m k kept dropped :
  length kept < n → length kept < m →
  drop_kind capacity_exceeded n k (kept, dropped) = drop_kind capacity_exceeded m k (kept, dropped).
Proof.
  revert m kept dropped; induction n as [|n IH]; intros m kept dropped Hn Hm; [lia|].
  destruct m as [|m]; [lia|]. cbn. destruct (capacity_exceeded kept); [|done].
  destruct (victim k kept) as [v|] eqn:Hv; [|done]. apply drop_progress in Hv.
  apply IH; lia.
Qed.

(** A section that may go next: a preload section of a listed kind, the least important
    of its kind among what is left, while what is left does not fit. *)
Record droppable_now (kinds : list string) (left_ : list ContextSection) (v : ContextSection) : Prop := {
  dn_exceeded : capacity_exceeded left_ = true;
  dn_left : v ∈ left_;
  dn_preload : sec_inclusion v = Preload;
  dn_listed : sec_kind v ∈ kinds;
  dn_last : ∀ s, s ∈ left_ → sec_inclusion s = Preload → sec_kind s = sec_kind v → cmp_le compare_sections s v
}.

(** What the loop has done so far to [sections]: it split them into the kept and the
    removed, and each removed one could go when it went. *)
Definition split_so_far (sections : list ContextSection) (kinds : list string)
    (state : list ContextSection * list DroppedSection) : Prop :=
  ∃ removed, sections ≡ₚ state.1 ++ removed ∧ state.2 = map drop_record removed ∧
    state.1 = left_after sections removed ∧
    ∀ l v r, removed = l ++ v :: r → droppable_now kinds (left_after sections l) v.

Lemma drop_kind_split sections kinds fuel k state :
  NoDup (map sec_id sections) → k ∈ kinds →
  split_so_far sections kinds state →
  split_so_far sections kinds (drop_kind capacity_exceeded fuel k state).
Proof.
  intros Hnd Hk. apply drop_kind_invariant. intros kept dropped v (removed & Hp & Hd & Hl & Hall) He Hv.
  apply victim_Some in Hv as (Hin & Hpre & Hkind & Hmax). cbn [fst snd] in *. subst dropped.
  rewrite (Permutation_map sec_id Hp), map_app in Hnd. apply NoDup_app in Hnd as (Hnd & _).
  exists (removed ++ [v]). cbn [fst snd]. split_and!.
  - rewrite Hp, (remaining_perm v kept Hnd Hin) at 1. cbn.
    rewrite (Permutation_app_comm removed [v]). cbn. by rewrite Permutation_middle.
  - by rewrite map_app.
  - unfold left_after in *. rewrite fold_left_app. cbn. by rewrite <-Hl.
  - intros l w r Heq. destruct r as [|x r _] using rev_ind.
    + apply app_inj_tail in Heq as [-> ->]. rewrite <-Hl.
      split; [done|done|done|by rewrite Hkind|]. intros s Hs Hp' Hks. apply Hmax; [done|]. apply droppable_true.
      split; [done|congruence].
    + rewrite app_comm_cons, app_assoc in Heq. apply app_inj_tail in Heq as [-> _]. by eapply Hall.
Qed.

Lemma fold_drop_split sections kinds fuel todo state :
  NoDup (map sec_id sections) → (∀ k, k ∈ todo → k ∈ kinds) →
  split_so_far sections kinds state →
  split_so_far sections kinds
    (fold_left (fun st k => drop_kind capacity_exceeded fuel k st) todo state).
Proof.
  intros Hnd. revert state; induction todo as [|k todo IH]; intros state Hsub H; cbn; [done|].
  apply IH; [intros; apply Hsub; by right|]. apply drop_kind_split; [done|apply Hsub; left|done].
Qed.

Lemma drop_kind_idle fuel k kept dropped :
  capacity_exceeded kept = false →
  drop_kind capacity_exceeded fuel k (kept, dropped) = (kept, dropped).
Proof. intros H. destruct fuel; cbn; [done|]. by rewrite H. Qed.

Lemma fold_drop_idle fuel todo kept dropped :
  capacity_exceeded kept = false →
  fold_left (fun st k => drop_kind capacity_exceeded fuel k st) todo (kept, dropped) = (kept, dropped).
Proof.
  intros H. induction todo as [|k todo IH]; cbn; [done|]. by rewrite drop_kind_idle.
Qed.

(** The kept sections only shrink. *)
Lemma drop_kind_shrinks fuel k kept dropped :
  let kept' := (drop_kind capacity_exceeded fuel k (kept, dropped)).1 in
  length kept' ≤ length kept ∧ ∀ s, s ∈ kept' → s ∈ kept.
Proof.
  cbn zeta. apply (drop_kind_invariant (fun st => length st.1 ≤ length kept ∧ ∀ s, s ∈ st.1 → s ∈ kept)).
  - cbn. intros k' d v [Hl Hs] _ Hv. pose proof (drop_progress _ _ _ Hv). split; [lia|].
    intros s [? _]%elem_of_filter_b. auto.
  - done.
Qed.

(** After the drop, the capacity holds or no listed kind has a preload section
    left. *)
Lemma fold_drop_done fuel todo kept dropped :
  length kept < fuel →
  let kept' := (fold_left (fun st k => drop_kind capacity_exceeded fuel k st) todo (kept, dropped)).1 in
  (∀ s, s ∈ kept' → s ∈ kept) ∧
  (capacity_exceeded kept' = false ∨
   ∀ s, s ∈ kept' → sec_inclusion s = Preload → sec_kind s ∉ todo).
Proof.
  revert kept dropped; induction todo as [|k todo IH]; intros kept dropped Hf; cbn.
  - split; [done|]. right. intros s _ _ H. by apply not_elem_of_nil in H.
  - pose proof (drop_kind_done fuel k kept dropped Hf) as Hdone.
    pose proof (drop_kind_shrinks fuel k kept dropped) as [Hlen Hsub].
    destruct (drop_kind capacity_exceeded fuel k (kept, dropped)) as [kept1 dropped1]. cbn in *.
    destruct Hdone as [Hc|Hv].
    + rewrite (fold_drop_idle _ _ _ _ Hc). cbn. auto.
    + destruct (IH kept1 dropped1) as [Hsub' Hend]; [lia|]. split; [auto|].
      destruct Hend as [?|Hend]; [by left|]. right. intros s Hs Hp [Heq|Hk]%elem_of_cons.
      * by apply (proj1 (victim_None _ _) Hv s (Hsub' s Hs) Hp).
      * by apply (Hend s Hs Hp).
Qed.

Lemma apply_optional_drop_spec sections order kept dropped :
  NoDup (map sec_id sections) →
  apply_optional_drop capacity_exceeded sections order = (kept, dropped) →
  split_so_far sections order (kept, dropped) ∧
  (capacity_exceeded kept = false ∨
   ∀ s, s ∈ kept → sec_inclusion s = Preload → sec_kind s ∉ order).
Proof.
  intros Hnd H. unfold apply_optional_drop in H. split.
  - pose proof (fold_drop_split sections order (S (length sections)) order (sections, []) Hnd) as Hs.
    rewrite H in Hs. apply Hs; [done|]. exists []. cbn. rewrite app_nil_r. split_and!; [done..|].
    intros [|] v r; discriminate.
  - pose proof (fold_drop_done (S (length sections)) order sections [] ltac:(lia)) as [_ Hend].
    by rewrite H in Hend.
Qed.
End DropFacts.

(** ** Order independence of the drop *)

Lemma order_key_id s t : order_key s = order_key t → sec_id s = sec_id t.
Proof. unfold order_key, sec_id. congruence. Qed.

Lemma victim_perm k l1 l2 :
  NoDup (map sec_id l1) → l1 ≡ₚ l2 → victim k l1 = victim k l2.
Proof.
  intros Hnd Hp.
  destruct (victim k l1) as [v1|] eqn:E1, (victim k l2) as [v2|] eqn:E2; [| | |done].
  - apply victim_Some in E1 as (Hin1 & P1 & K1 & M1), E2 as (Hin2 & P2 & K2 & M2).
    rewrite <-Hp in Hin2. f_equal. apply (NoDup_map_inj sec_id l1); [done..|].
    apply order_key_id, (total_order_eq cmp).
    apply (cmp_le_antisym_eq compare_sections).
    + apply M2; [by rewrite <-Hp|]. by apply droppable_true.
    + apply M1; [done|]. by apply droppable_true.
  - exfalso. apply victim_Some in E1 as (Hin & P & K & _). rewrite victim_None in E2.
    eapply E2; [rewrite <-Hp; exact Hin|done|done].
  - exfalso. apply victim_Some in E2 as (Hin & P & K & _). rewrite victim_None in E1.
    eapply E1; [rewrite Hp; exact Hin|done|done].
Qed.

Lemma filter_perm {A} (p : A → bool) l1 l2 : l1 ≡ₚ l2 → List.filter p l1 ≡ₚ List.filter p l2.
Proof. induction 1; cbn; repeat case_match; try done; [by constructor|constructor|by etrans]. Qed.

Lemma drop_kind_perm exceeded `{!Proper ((≡ₚ) ==> (=)) exceeded} fuel k l1 l2 d :
  NoDup (map sec_id l1) → l1 ≡ₚ l2 →
  (drop_kind exceeded fuel k (l1, d)).1 ≡ₚ (drop_kind exceeded fuel k (l2, d)).1 ∧
  (drop_kind exceeded fuel k (l1, d)).2 = (drop_kind exceeded fuel k (l2, d)).2.
Proof.
  revert l1 l2 d; induction fuel as [|fuel IH]; intros l1 l2 d Hnd Hp; cbn; [done|].
  rewrite <-Hp. destruct (exceeded l1); [|done].
  rewrite <-(victim_perm k l1 l2 Hnd Hp). destruct (victim k l1) as [v|] eqn:Hv; [|done].
  apply IH; [|by apply filter_perm].
  apply victim_Some in Hv as (Hin & _). rewrite (Permutation_map sec_id (remaining_perm v l1 Hnd Hin)) in Hnd.
  cbn in Hnd. by apply NoDup_cons in Hnd as [_ ?].
Qed.

Lemma apply_optional_drop_perm exceeded `{!Proper ((≡ₚ) ==> (=)) exceeded} order l1 l2 :
  NoDup (map sec_id l1) → l1 ≡ₚ l2 →
  (apply_optional_drop exceeded l1 order).1 ≡ₚ (apply_optional_drop exceeded l2 order).1 ∧
  (apply_optional_drop exceeded l1 order).2 = (apply_optional_drop exceeded l2 order).2.
Proof.
  intros Hnd Hp. unfold apply_optional_drop. rewrite (Permutation_length Hp).
  generalize (S (length l2)) as fuel. intros fuel. generalize (@nil DroppedSection) as d.
  revert l1 l2 Hnd Hp. induction order as [|k order IH]; intros l1 l2 Hnd Hp d; cbn; [done|].
  pose proof (drop_kind_perm exceeded fuel k l1 l2 d Hnd Hp) as [H1 H2].
  assert (NoDup (map sec_id (drop_kind exceeded fuel k (l1, d)).1)) as Hnd'.
  { apply (drop_kind_invariant exceeded (fun st => NoDup (map sec_id st.1))); [|done].
    intros kept d' v Hn _ Hv. cbn in *. apply victim_Some in Hv as (Hin & _).
    rewrite (Permutation_map sec_id (remaining_perm v kept Hn Hin)) in Hn.
    cbn in Hn. by apply NoDup_cons in Hn as [_ ?]. }
  destruct (drop_kind exceeded fuel k (l1, d)) as [k1 d1],
    (drop_kind exceeded fuel k (l2, d)) as [k2 d2]; cbn in *. subst d2. by apply IH.
Qed.

(** ** The built plan *)

Section BuildFacts.
Context `{Sha256}.

(** The kinds a build of these sources produces. *)
Definition producible (sources : FrozenSources) (kind : string) : Prop :=
  kind ∈ [SECTION_TASK_CONTRACT; SECTION_GOAL_CONTRACT; SECTION_AGENT_SOUL; SECTION_AGENT_BEHAVIOR;
          SECTION_WORKSPACE_ORIENTATION] ∨
  (kind = SECTION_REFERENCE_INPUT ∧ task_inputs (fs_task_spec sources) ≠ []).

Lemma producible_spec snapshot sources k :
  existsb (fun s => String.eqb (sec_kind s) k) (plan_candidates snapshot sources) = true ↔
  producible sources k.
Proof.
  unfold plan_candidates, producible. rewrite existsb_app, orb_true_iff. f_equiv.
  - cbn [existsb sec_kind guidance_section]. rewrite !orb_true_iff, !String.eqb_eq, !elem_of_cons. rewrite elem_of_nil. naive_solver.
  - rewrite existsb_True. split.
    + intros (s & Hs & Hk%String.eqb_eq). apply list_elem_of_In, in_map_iff in Hs as (i & <- & Hi).
      split; [done|]. intros E. apply list_elem_of_In in Hi.
      rewrite (elem_of_sort_by (key_cmp task_input_name cmp)), E in Hi. by apply not_elem_of_nil in Hi.
    + intros [-> Hne]. destruct (task_inputs (fs_task_spec sources)) as [|i l] eqn:E; [done|].
      exists (reference_section i). split; [|by apply String.eqb_eq].
      apply list_elem_of_In, in_map, list_elem_of_In.
      rewrite (elem_of_sort_by (key_cmp task_input_name cmp)). left.
Qed.

Lemma drop_nothing sections order :
  apply_optional_drop (fun _ => false) sections order = (sections, []).
Proof. unfold apply_optional_drop. by apply fold_drop_idle. Qed.

Lemma build_context_plan_Ok snapshot sources policy :
  (∃ p, build_context_plan snapshot sources policy = Ok p) ↔
  ∀ k, k ∈ cc_mandatory_sections policy → producible sources k.
Proof.
  unfold build_context_plan. rewrite drop_nothing. split.
  - intros (p & Hp). apply try_bind_Ok in Hp as ([] & Hf & _). rewrite for_each_Ok in Hf.
    intros k Hk. specialize (Hf k Hk). apply (producible_spec snapshot).
    by destruct (existsb _ _).
  - intros Hall. eexists. rewrite (proj2 (for_each_Ok _ _)); [done|].
    intros k Hk. by rewrite (proj2 (producible_spec snapshot sources k) (Hall k Hk)).
Qed.

Lemma build_context_plan_Err snapshot sources policy k :
  build_context_plan snapshot sources policy = Err (MandatorySectionUnsatisfiable k) →
  k ∈ cc_mandatory_sections policy ∧ ¬ producible sources k.
Proof.
  unfold build_context_plan. rewrite drop_nothing. intros Hp.
  destruct (for_each _ _) as [[]|e] eqn:Hf; cbn in Hp; [done|]. injection Hp as ->.
  apply for_each_Err in Hf as (k' & Hk & Hf).
  destruct (existsb _ _) eqn:Hx; cbn in Hf; [done|]. injection Hf as ->. split; [done|].
  intros Hprod%(producible_spec snapshot). by rewrite Hx in Hprod.
Qed.

Lemma build_context_plan_sections snapshot sources policy p :
  build_context_plan snapshot sources policy = Ok p →
  plan_sections p = sort_by compare_sections (plan_candidates snapshot sources) ∧ plan_dropped p = [].
Proof.
  unfold build_context_plan. rewrite drop_nothing. intros Hp.
  apply try_bind_Ok in Hp as ([] & _ & [= <-]). done.
Qed.

(** In the candidates, inclusion class and stratum agree. *)
Lemma candidate_strata snapshot sources s :
  s ∈ plan_candidates snapshot sources →
  match sec_inclusion s with
  | Mandatory => sec_precedence s = GoalTaskContract ∨ sec_precedence s = AgentGuidanceStratum
  | _ => sec_precedence s = ReferenceData
  end.
Proof.
  unfold plan_candidates. rewrite elem_of_app, !elem_of_cons, elem_of_nil.
  intros [[->|[->|[->|[->|[->|[]]]]]]|Hs]; cbn; auto.
  apply list_elem_of_In, in_map_iff in Hs as (i & <- & _). done.
Qed.

(** A section listed earlier never has less authority. *)
Lemma sections_by_authority snapshot sources :
  StronglySorted (fun a b => (stratum_rank (sec_precedence a) ≤ stratum_rank (sec_precedence b))%Z)
    (sort_by compare_sections (plan_candidates snapshot sources)).
Proof.
  pose proof (sort_by_sorted compare_sections (plan_candidates snapshot sources)) as Hs.
  assert (∀ s, s ∈ sort_by compare_sections (plan_candidates snapshot sources) →
            s ∈ plan_candidates snapshot sources) as Hin.
  { intros s. by rewrite (elem_of_sort_by compare_sections). }
  induction Hs as [|a l Hl IH Ha]; constructor.
  - apply IH. intros s Hx. apply Hin. by right.
  - rewrite Forall_forall in *. intros b Hb. specialize (Ha b Hb).
    assert (a ∈ plan_candidates snapshot sources) as Hca%candidate_strata by (apply Hin; left).
    assert (b ∈ plan_candidates snapshot sources) as Hcb%candidate_strata by (apply Hin; by right).
    unfold compare_sections, key_cmp in Ha. unfold cmp_le in Ha.
    apply (pair_le (cmp (A:=Z)) cmp (order_key a) (order_key b)) in Ha as [Hlt|[Heq Ha]].
    + assert (inclusion_rank (sec_inclusion a) < inclusion_rank (sec_inclusion b))%Z as Hr by exact Hlt.
      destruct (sec_inclusion a), (sec_inclusion b); cbn in Hr; try lia;
        destruct_or?; by rewrite ?Hca, ?Hcb.
    + apply (pair_le (cmp (A:=Z)) cmp) in Ha as [Hlt|[Heq' _]].
      * assert (stratum_rank (sec_precedence a) < stratum_rank (sec_precedence b))%Z by exact Hlt. lia.
      * cbn in Heq'. lia.
Qed.
End BuildFacts.

(** ** Guidance out of the agents component *)

Lemma is_agent_entry_value id a :
  is_agent_entry id (agent_entry_value a) = true ↔ identity a = id.
Proof.
  unfold is_agent_entry, agent_entry_value. get_fields.
  rewrite andb_true_iff, String.eqb_eq, Z.eqb_eq. destruct id as [n v]. unfold identity. cbn.
  split; [by intros [-> ->] | by intros [= -> ->]].
Qed.

Lemma find_first_map {A B} (p : B → bool) (f : A → B) l :
  find_first p (map f l) = f <$> find_first (fun x => p (f x)) l.
Proof. induction l as [|x l IH]; cbn; [done|]. by destruct (p (f x)). Qed.

(** Extraction gives back the bodies of exactly the version asked for. *)
Lemma frozen_agent_guidance_component c a :
  NoDup (map identity (agents c)) → a ∈ agents c →
  ag_soul a ≠ EmptyString → ag_behavior a ≠ EmptyString →
  frozen_agent_guidance (component_value c) (identity a) =
    Ok {| guidance_soul := ag_soul a; guidance_behavior := ag_behavior a |}.
Proof.
  intros Hnd Ha Hs Hb. unfold frozen_agent_guidance, component_value, agent_component. get_fields.
  rewrite find_first_map.
  assert (find_first (fun x => is_agent_entry (identity a) (agent_entry_value x))
            (sorted_agents (agents c)) = Some a) as ->.
  { assert (∀ x, x ∈ sorted_agents (agents c) ↔ x ∈ agents c) as Hel.
    { intros x. apply (elem_of_sort_by (key_cmp identity cmp)). }
    destruct (find_first _ _) as [b|] eqn:E.
    - apply find_first_Some in E as [Hin Hid%is_agent_entry_value]. apply Hel in Hin. f_equal.
      by apply (NoDup_map_inj identity (agents c)).
    - rewrite find_first_None in E. specialize (E a (proj2 (Hel a) Ha)).
      by rewrite (proj2 (is_agent_entry_value _ _) eq_refl) in E. }
  cbn [fmap option_fmap option_map ok_or try_bind]. unfold guidance_text, agent_entry_value. get_fields.
  unfold is_empty. apply String.eqb_neq in Hs, Hb. by rewrite Hs, Hb.
Qed.


(** ** Claims *)

Definition set_insensitive (exceeded : list ContextSection → bool) : Prop :=
  ∀ l1 l2, l1 ≡ₚ l2 → exceeded l1 = exceeded l2.

(** The optional drop removes only what policy allows and only until it is enough: for
    sections with distinct identities and any capacity test, the result splits the
    sections into the kept and the dropped; each one was dropped while what was left then
    did not fit, and was the least important preload section of a listed kind; and at the
    end the capacity holds or no listed kind has a preload section left. *)
Theorem drop_respects_policy exceeded sections order (Hid : NoDup (map sec_id sections)) :
  let (kept, dropped) := apply_optional_drop exceeded sections order in
  (∃ removed, sections ≡ₚ kept ++ removed ∧ dropped = map drop_record removed ∧ kept = left_after sections removed ∧
     ∀ l v r, removed = l ++ v :: r → droppable_now exceeded order (left_after sections l) v) ∧
  (exceeded kept = false ∨ ∀ s, s ∈ kept → sec_inclusion s = Preload → sec_kind s ∉ order).
Proof.
  destruct (apply_optional_drop exceeded sections order) as [kept dropped] eqn:E.
  by apply apply_optional_drop_spec.
Qed.

Definition sample_section (kind key : string) (inclusion : InclusionClass) : ContextSection := {|
  sec_kind := kind; sec_key := key; sec_inclusion := inclusion; sec_precedence := ReferenceData;
  sec_provenance := Null; sec_instruction := None |}.

Definition sample_sections : list ContextSection :=
  [sample_section SECTION_TASK_CONTRACT EmptyString Mandatory;
   sample_section SECTION_REFERENCE_INPUT "a" Preload;
   sample_section SECTION_REFERENCE_INPUT "b" Preload;
   sample_section SECTION_WORKSPACE_ORIENTATION EmptyString Preload].

Definition at_most (n : nat) (kept : list ContextSection) : bool := Nat.ltb n (length kept).

Lemma drop_respects_policy_witness :
  (apply_optional_drop (at_most 2) sample_sections
     [SECTION_REFERENCE_INPUT; SECTION_WORKSPACE_ORIENTATION]).2 =
    [{| ds_kind := SECTION_REFERENCE_INPUT; ds_key := "b"; ds_reason := "policy-drop-order" |};
     {| ds_kind := SECTION_REFERENCE_INPUT; ds_key := "a"; ds_reason := "policy-drop-order" |}] ∧
  let (kept, dropped) := apply_optional_drop (at_most 2) sample_sections
     [SECTION_REFERENCE_INPUT; SECTION_WORKSPACE_ORIENTATION] in
  at_most 2 kept = false ∨ ∀ s, s ∈ kept → sec_inclusion s = Preload →
     sec_kind s ∉ [SECTION_REFERENCE_INPUT; SECTION_WORKSPACE_ORIENTATION].
Proof.
  split; [vm_compute; reflexivity|].
  pose proof (drop_respects_policy (at_most 2) sample_sections
    [SECTION_REFERENCE_INPUT; SECTION_WORKSPACE_ORIENTATION]) as Hd.
  destruct (apply_optional_drop _ _ _) as [kept dropped]. apply Hd. apply (bool_decide_unpack _).
  vm_compute. exact I.
Defined.

(** which sections a drop keeps and the record of what it dropped do not
    depend on the order the sections arrive in. *)
Theorem drop_order_independent exceeded order sections1 sections2
    (Hcap : set_insensitive exceeded) (Hid : NoDup (map sec_id sections1))
    (Hperm : sections1 ≡ₚ sections2) :
  (apply_optional_drop exceeded sections1 order).1 ≡ₚ (apply_optional_drop exceeded sections2 order).1 ∧
  (apply_optional_drop exceeded sections1 order).2 = (apply_optional_drop exceeded sections2 order).2.
Proof. by apply (@apply_optional_drop_perm exceeded Hcap). Qed.

Lemma drop_order_independent_witness :
  (apply_optional_drop (at_most 3) sample_sections [SECTION_REFERENCE_INPUT]).1 ≡ₚ
    (apply_optional_drop (at_most 3) (rev sample_sections) [SECTION_REFERENCE_INPUT]).1 ∧
  (apply_optional_drop (at_most 3) sample_sections [SECTION_REFERENCE_INPUT]).2 =
    (apply_optional_drop (at_most 3) (rev sample_sections) [SECTION_REFERENCE_INPUT]).2.
Proof.
  apply (drop_order_independent (at_most 3) [SECTION_REFERENCE_INPUT] sample_sections (rev sample_sections)).
  - intros l1 l2 Hp. unfold at_most. by rewrite (Permutation_length Hp).
  - apply (bool_decide_unpack _). vm_compute. exact I.
  - apply Permutation_rev.
Defined.

(** Two sections of one identity: the round that drops the preload one takes the
    mandatory one with it, although only the preload one is recorded. *)
Lemma shared_identity_drops_mandatory :
  apply_optional_drop (at_most 1)
    [sample_section SECTION_AGENT_SOUL "k" Mandatory; sample_section SECTION_AGENT_SOUL "k" Preload]
    [SECTION_AGENT_SOUL] =
  ([], [{| ds_kind := SECTION_AGENT_SOUL; ds_key := "k"; ds_reason := "policy-drop-order" |}]).
Proof. reflexivity. Qed.

(** a plan is built exactly when the sources can produce every section the
    policy makes mandatory, the failure names one they cannot; a plan built
    holds each candidate section once and drops none, and lists its sections
    from most to least authoritative. *)
Theorem plan_complete_and_ordered `{Sha256} snapshot sources policy :
  match build_context_plan snapshot sources policy with
  | Ok p =>
      (∀ k, k ∈ cc_mandatory_sections policy → producible sources k) ∧
      plan_sections p ≡ₚ plan_candidates snapshot sources ∧ plan_dropped p = [] ∧
      StronglySorted (fun a b =>
        (stratum_rank (sec_precedence a) ≤ stratum_rank (sec_precedence b))%Z) (plan_sections p)
  | Err (MandatorySectionUnsatisfiable k) =>
      k ∈ cc_mandatory_sections policy ∧ ¬ producible sources k
  end.
Proof.
  destruct (build_context_plan snapshot sources policy) as [p|[k]] eqn:E.
  - split; [apply (build_context_plan_Ok snapshot); eauto|].
    apply build_context_plan_sections in E as [-> ->].
    repeat split; [apply sort_by_perm|apply sections_by_authority].
  - by apply (build_context_plan_Err snapshot).
Qed.
