(* ===== verification/Execution.v ===== *)
(** * Agent resolution and pre-Run execution rules ([pantheon-core/src/execution.rs])

    Semantic eligibility of the configured agents for a Task, the provider-neutral
    request, the checks a backend offer must pass to become a candidate, and the
    deterministic selection among candidates. *)

From Stdlib Require Import ZArith NArith Ascii Lia.
From S2P Require Import Prelude Utf8 Canonical Parse ParseFacts Digest Goal Task ConfigModel Compile CompileFacts.

(** ** Configuration provenance *)

Record ConfigurationBinding : Type := {
  cb_activation_sequence : Z;
  cb_content_digest : Digest;
  cb_component_digests : ComponentDigests
}.

Definition binding_matches (self other : ConfigurationBinding) : bool :=
  Z.eqb (cb_activation_sequence self) (cb_activation_sequence other)
  && bool_decide (cb_content_digest self = cb_content_digest other)
  && bool_decide (cb_component_digests self = cb_component_digests other).

Definition configuration_binding_value (b : ConfigurationBinding) : Value :=
  object [
    ("activationSequence", Integer (cb_activation_sequence b));
    ("contentDigest", Str (to_display (cb_content_digest b)));
    ("componentDigests", component_digests_value (cb_component_digests b))].

Inductive LaunchSafety : Type := KeyedRequired | ObservationalAllowed.
Inductive LaunchSemantics : Type := KeyedIdempotent | Observational.

#[export] Instance LaunchSafety_eq_dec : EqDecision LaunchSafety.
Proof. solve_decision. Defined.
#[export] Instance LaunchSemantics_eq_dec : EqDecision LaunchSemantics.
Proof. solve_decision. Defined.

Definition launch_semantics_as_str (l : LaunchSemantics) : string :=
  match l with
  | KeyedIdempotent => "KEYED_IDEMPOTENT"
  | Observational => "OBSERVATIONAL"
  end.

Definition launch_safety_as_str (l : LaunchSafety) : string :=
  match l with
  | KeyedRequired => "KEYED_REQUIRED"
  | ObservationalAllowed => "OBSERVATIONAL_ALLOWED"
  end.

Record ControllerSafetyFacts : Type := {
  csf_isolation_guarantees : list string;
  csf_observational_launch_safe : bool
}.

Record ResourceQuantity : Type := { rq_name : string; rq_quantity : Z }.

#[export] Instance ResourceQuantity_ord : Ord ResourceQuantity :=
  key_cmp (fun r => (rq_name r, rq_quantity r)) cmp.

(** A fact list as the sorted set of its members. *)
Definition fact_strings (values : list string) : Value :=
  Array (map Str (dedup (sort values))).

Definition resource_value (r : ResourceQuantity) : Value :=
  object [("name", Str (rq_name r)); ("quantity", Integer (rq_quantity r))].

Definition resources_value (values : list ResourceQuantity) : Value :=
  Array (map resource_value (sort values)).

Record BackendDescriptor : Type := {
  bd_backend_id : string;
  bd_revision : Z;
  bd_available_for_offers : bool;
  bd_placement : list string;
  bd_supported_execution_features : list string;
  bd_context_capacity_tokens : Z;
  bd_isolation_facts : list string;
  bd_resources : list ResourceQuantity;
  bd_launch_semantics : LaunchSemantics
}.

Definition descriptor_to_value (d : BackendDescriptor) : Value :=
  object [
    ("backendId", Str (bd_backend_id d));
    ("revision", Str (u64_to_string (Z.to_N (bd_revision d))));
    ("availableForOffers", Bool (bd_available_for_offers d));
    ("placement", fact_strings (bd_placement d));
    ("supportedExecutionFeatures", fact_strings (bd_supported_execution_features d));
    ("contextCapacityTokens", Integer (bd_context_capacity_tokens d));
    ("isolationFacts", fact_strings (bd_isolation_facts d));
    ("resources", resources_value (bd_resources d));
    ("launchSemantics", Str (launch_semantics_as_str (bd_launch_semantics d)))].

Record ExecutionRequest : Type := {
  req_task_id : string;
  req_task_spec_digest : Digest;
  req_task_type : string;
  req_task_competencies : list string;
  req_agent : LogicalAgentVersion;
  req_required_execution_features : list string;
  req_min_context_tokens : Z;
  req_placement_constraints : list string;
  req_isolation_requirements : list string;
  req_resource_requirements : list ResourceQuantity;
  req_required_actions : list string;
  req_configuration : ConfigurationBinding;
  req_route_policy_digest : Digest;
  req_execution_profile_digest : Digest;
  req_sandbox_profile_digest : Digest;
  req_launch_safety : LaunchSafety
}.

Definition request_to_value (r : ExecutionRequest) : Value :=
  object [
    ("taskId", Str (req_task_id r));
    ("taskSpecDigest", Str (to_display (req_task_spec_digest r)));
    ("taskType", Str (req_task_type r));
    ("taskCompetencies", fact_strings (req_task_competencies r));
    ("agent", agent_value (req_agent r));
    ("requiredExecutionFeatures", fact_strings (req_required_execution_features r));
    ("minContextTokens", Integer (req_min_context_tokens r));
    ("placementConstraints", fact_strings (req_placement_constraints r));
    ("isolationRequirements", fact_strings (req_isolation_requirements r));
    ("resourceRequirements", resources_value (req_resource_requirements r));
    ("requiredActions", fact_strings (req_required_actions r));
    ("configuration", configuration_binding_value (req_configuration r));
    ("routePolicyDigest", Str (to_display (req_route_policy_digest r)));
    ("executionProfileDigest", Str (to_display (req_execution_profile_digest r)));
    ("sandboxProfileDigest", Str (to_display (req_sandbox_profile_digest r)));
    ("launchSafety", Str (launch_safety_as_str (req_launch_safety r)))].

(** ** Offers and candidates *)

Record ExecutionOffer : Type := {
  of_request_digest : Digest;
  of_backend_id : string;
  of_descriptor_revision : Z;
  of_descriptor_digest : Digest;
  of_supported_execution_features : list string;
  of_context_capacity_tokens : Z;
  of_placement : list string;
  of_isolation_facts : list string;
  of_resources : list ResourceQuantity;
  of_launch_semantics : LaunchSemantics;
  of_offer_reference : string
}.

Definition offer_to_value (o : ExecutionOffer) : Value :=
  object [
    ("requestDigest", Str (to_display (of_request_digest o)));
    ("backendId", Str (of_backend_id o));
    ("descriptorRevision", Str (u64_to_string (Z.to_N (of_descriptor_revision o))));
    ("descriptorDigest", Str (to_display (of_descriptor_digest o)));
    ("supportedExecutionFeatures", fact_strings (of_supported_execution_features o));
    ("contextCapacityTokens", Integer (of_context_capacity_tokens o));
    ("placement", fact_strings (of_placement o));
    ("isolationFacts", fact_strings (of_isolation_facts o));
    ("resources", resources_value (of_resources o));
    ("launchSemantics", Str (launch_semantics_as_str (of_launch_semantics o)));
    ("offerReference", Str (of_offer_reference o))].

Definition offer_is_stale_against (o : ExecutionOffer) (d : BackendDescriptor) : bool :=
  negb (String.eqb (of_backend_id o) (bd_backend_id d))
  || negb (Z.eqb (of_descriptor_revision o) (bd_revision d)).

Record ResolvedAgent : Type := {
  ra_identity : LogicalAgentVersion;
  ra_agent : Agent;
  ra_route_policy : RoutePolicy;
  ra_sandbox_profile : SandboxProfile
}.

Inductive PolicyIncompatibility : Type :=
| ForbiddenAgentAction (action : string)
| ForbiddenTaskEffect (effect : string).

(** The details the text of [ConfigurationIncompatible] spells. *)
Inductive ConfigurationIncompatibility : Type :=
| FutureActivation
| UnknownRoutePolicy (name : string)
| UnknownSandboxProfile (name : string)
| UnsatisfiedRequirements (profile : string).

Inductive AgentRejectionReason : Type :=
| RejDisabled
| RejNotCurrent
| RejUnsupportedTaskType (task_type : string)
| RejMissingCompetencies (missing : list string)
| RejPinnedOut
| RejExcluded
| RejPolicyIncompatible (detail : PolicyIncompatibility)
| RejConfigurationIncompatible (detail : ConfigurationIncompatibility).

Record AgentRejection : Type := { rej_agent : LogicalAgentVersion; rej_reason : AgentRejectionReason }.

Record AgentResolution : Type := {
  res_eligible : list ResolvedAgent;
  res_rejected : list AgentRejection
}.

Inductive AgentResolutionError : Type :=
| ResConfigurationMismatch (expected actual : Digest)
| NoEligibleAgent (task_type : string) (causes : list AgentRejection).

Definition sorted_difference (required available : list string) : list string :=
  dedup (sort (List.filter (fun v => negb (contains available v)) required)).

(** [missing_strings]. *)
Definition missing_strings (required available : list string) : list string :=
  sorted_difference required available.

Definition forbids (rules : list AuthorizationRule) (action : string) : bool :=
  match find_first (fun r => String.eqb (ar_action r) action && bool_decide (ar_effect r = Forbid)) rules with
  | Some _ => true
  | None => false
  end.

Definition policy_incompatibility (task : TaskSpec) (agent : Agent) (c : CompiledConfiguration) :
    option PolicyIncompatibility :=
  let rules := az_rules (cfg_authorization c) in
  match find_map (fun a => if forbids rules a then Some (ForbiddenAgentAction a) else None)
          (ag_actions agent) with
  | Some detail => Some detail
  | None =>
      find_map (fun e => if forbids rules e then Some (ForbiddenTaskEffect e) else None)
        (scope_permitted_effects (task_scope task))
  end.

(** The first reason that makes an agent ineligible. *)
Definition rejection_reason (task : TaskSpec) (c : CompiledConfiguration)
    (binding : ConfigurationBinding) (agent : Agent) : option AgentRejectionReason :=
  let pins := agent_pins (cfg_routing c) in
  let exclusions := agent_exclusions (cfg_routing c) in
  if negb (ag_enabled agent) then Some RejDisabled
  else if negb (ag_current agent) then Some RejNotCurrent
  else if negb (existsb (fun a => String.eqb a (task_type task)) (ag_accepts agent))
  then Some (RejUnsupportedTaskType (task_type task))
  else
    match sorted_difference (task_competencies task) (ag_competencies agent) with
    | (_ :: _) as missing => Some (RejMissingCompetencies missing)
    | [] =>
        if negb (Nat.eqb (length pins) 0) && negb (contains pins (identity agent))
        then Some RejPinnedOut
        else if contains exclusions (identity agent) then Some RejExcluded
        else
          match policy_incompatibility task agent c with
          | Some detail => Some (RejPolicyIncompatible detail)
          | None =>
              if (cb_activation_sequence binding <?
                  acc_configuration_activation_sequence (task_acceptance task))%Z
              then Some (RejConfigurationIncompatible FutureActivation)
              else None
          end
    end.

(** One round of the loop: the agent with its configured facts, or why not. *)
Definition resolve_agent (task : TaskSpec) (c : CompiledConfiguration)
    (binding : ConfigurationBinding) (agent : Agent) : Result ResolvedAgent AgentRejectionReason :=
  match rejection_reason task c binding agent with
  | Some reason => Err reason
  | None =>
      let? route_policy :=
        ok_or (find_first (fun p => String.eqb (rp_name p) (ag_route_policy agent))
                 (policies (cfg_routing c)))
          (RejConfigurationIncompatible (UnknownRoutePolicy (ag_route_policy agent))) in
      let? sandbox_profile := ok_or (find_profile c (ag_sandbox_profile agent))
          (RejConfigurationIncompatible (UnknownSandboxProfile (ag_sandbox_profile agent))) in
      if existsb (fun r => negb (contains (sp_guarantees sandbox_profile) r))
           (ag_sandbox_requirements agent)
      then Err (RejConfigurationIncompatible (UnsatisfiedRequirements (sp_name sandbox_profile)))
      else Ok {| ra_identity := identity agent; ra_agent := agent;
                 ra_route_policy := route_policy; ra_sandbox_profile := sandbox_profile |}
  end.

Fixpoint resolve_loop (task : TaskSpec) (c : CompiledConfiguration)
    (binding : ConfigurationBinding) (l : list Agent) : list ResolvedAgent * list AgentRejection :=
  match l with
  | [] => ([], [])
  | agent :: rest =>
      let (eligible, rejected) := resolve_loop task c binding rest in
      match resolve_agent task c binding agent with
      | Ok r => (r :: eligible, rejected)
      | Err reason => (eligible, {| rej_agent := identity agent; rej_reason := reason |} :: rejected)
      end
  end.

Section Fabric.
Context `{Sha256}.

Definition descriptor_digest (d : BackendDescriptor) : Digest := value_digest (descriptor_to_value d).
Definition request_digest (r : ExecutionRequest) : Digest := value_digest (request_to_value r).
Definition offer_digest (o : ExecutionOffer) : Digest := value_digest (offer_to_value o).

Definition configuration_agrees (c : CompiledConfiguration) (b : ConfigurationBinding) : bool :=
  bool_decide (revision_digest c = cb_content_digest b)
  && bool_decide (component_digests c = cb_component_digests b).

Definition resolve_agents (task : TaskSpec) (c : CompiledConfiguration)
    (binding : ConfigurationBinding) : Result AgentResolution AgentResolutionError :=
  if negb (configuration_agrees c binding)
  then Err (ResConfigurationMismatch (cb_content_digest binding) (revision_digest c))
  else
    let (eligible, rejected) := resolve_loop task c binding (sorted_agents (agents (cfg_agents c))) in
    match eligible with
    | [] => Err (NoEligibleAgent (task_type task) rejected)
    | _ => Ok {| res_eligible := eligible; res_rejected := rejected |}
    end.

Inductive RequestBuildError : Type := RequestConfigurationMismatch.

Definition build_execution_request (task_id : string) (task : TaskSpec) (agent : ResolvedAgent)
    (c : CompiledConfiguration) (binding : ConfigurationBinding) :
    Result ExecutionRequest RequestBuildError :=
  if negb (configuration_agrees c binding) then Err RequestConfigurationMismatch
  else Ok {|
    req_task_id := task_id;
    req_task_spec_digest := task_digest task;
    req_task_type := task_type task;
    req_task_competencies := sort (task_competencies task);
    req_agent := ra_identity agent;
    req_required_execution_features := sort (ag_execution_features (ra_agent agent));
    req_min_context_tokens := ag_min_context_tokens (ra_agent agent);
    req_placement_constraints := [];
    req_isolation_requirements := sort (ag_sandbox_requirements (ra_agent agent));
    req_resource_requirements := [];
    req_required_actions := sort (ag_actions (ra_agent agent));
    req_configuration := binding;
    req_route_policy_digest := route_policy_digest (ra_route_policy agent);
    req_execution_profile_digest := cd_execution_profile (cb_component_digests binding);
    req_sandbox_profile_digest := sandbox_profile_digest (ra_sandbox_profile agent);
    req_launch_safety := if rp_requires_keyed_launch (ra_route_policy agent)
                         then KeyedRequired else ObservationalAllowed |}.

Inductive CandidateRejection : Type :=
| BackendDisabled
| BackendUnavailable
| BackendMismatch
| DescriptorRevisionMismatch
| OfferRequestMismatch
| MissingExecutionFeatures (missing : list string)
| ContextCapacityTooSmall (required offered : Z)
| PlacementIncompatible (missing : list string)
| IsolationNotProven (missing : list string)
| ResourceIncompatible (name : string) (required offered : Z)
| LaunchSemanticsMismatch
| UnsafeLaunchSemantics
| RoutePolicyMismatch.

Record ExecutionCandidate : Type := {
  ec_agent : LogicalAgentVersion;
  ec_request_digest : Digest;
  ec_offer : ExecutionOffer;
  ec_route_policy : RoutePolicy;
  ec_execution_profile_digest : Digest
}.

Definition execution_candidate_digest (c : ExecutionCandidate) : Digest :=
  value_digest (object [
    ("agent", agent_value (ec_agent c));
    ("requestDigest", Str (to_display (ec_request_digest c)));
    ("offerDigest", Str (to_display (offer_digest (ec_offer c))));
    ("routePolicyDigest", Str (to_display (route_policy_digest (ec_route_policy c))));
    ("executionProfileDigest", Str (to_display (ec_execution_profile_digest c)))]).

(** [resource_quantity]. *)
Definition resource_quantity (values : list ResourceQuantity) (name : string) : option Z :=
  rq_quantity <$> find_first (fun r => String.eqb (rq_name r) name) values.

(** Fails with [e missing] when something required is missing. *)
Definition require_none (missing : list string) (e : list string → CandidateRejection) :
    Result unit CandidateRejection :=
  match missing with
  | [] => Ok tt
  | _ => Err (e missing)
  end.

Definition guard (ok : bool) (e : CandidateRejection) : Result unit CandidateRejection :=
  if ok then Ok tt else Err e.

Definition check_quantity (values : list ResourceQuantity) (required : ResourceQuantity) :
    Result unit CandidateRejection :=
  match resource_quantity values (rq_name required) with
  | None => Err (ResourceIncompatible (rq_name required) (rq_quantity required) 0)
  | Some quantity =>
      guard (negb (quantity <? rq_quantity required)%Z)
        (ResourceIncompatible (rq_name required) (rq_quantity required) quantity)
  end.

Definition validate_execution_candidate (request : ExecutionRequest) (resolved : ResolvedAgent)
    (descriptor : BackendDescriptor) (offer : ExecutionOffer) (backend_enabled : bool)
    (safety : ControllerSafetyFacts) : Result ExecutionCandidate CandidateRejection :=
  do? guard backend_enabled BackendDisabled in
  do? guard (bd_available_for_offers descriptor) BackendUnavailable in
  do? guard (String.eqb (bd_backend_id descriptor) (of_backend_id offer)) BackendMismatch in
  do? guard (Z.eqb (bd_revision descriptor) (of_descriptor_revision offer))
        DescriptorRevisionMismatch in
  do? guard (bool_decide (descriptor_digest descriptor = of_descriptor_digest offer))
        DescriptorRevisionMismatch in
  do? guard (bool_decide (request_digest request = of_request_digest offer)) OfferRequestMismatch in
  do? guard (bool_decide (ra_identity resolved = req_agent request)
             && bool_decide (route_policy_digest (ra_route_policy resolved)
                             = req_route_policy_digest request)) RoutePolicyMismatch in
  do? require_none (missing_strings (req_required_execution_features request)
                      (bd_supported_execution_features descriptor)) MissingExecutionFeatures in
  do? require_none (missing_strings (req_required_execution_features request)
                      (of_supported_execution_features offer)) MissingExecutionFeatures in
  do? guard (negb (bd_context_capacity_tokens descriptor <? req_min_context_tokens request)%Z)
        (ContextCapacityTooSmall (req_min_context_tokens request)
           (bd_context_capacity_tokens descriptor)) in
  do? guard (negb (of_context_capacity_tokens offer <? req_min_context_tokens request)%Z)
        (ContextCapacityTooSmall (req_min_context_tokens request)
           (of_context_capacity_tokens offer)) in
  do? require_none (missing_strings (req_placement_constraints request) (bd_placement descriptor))
        PlacementIncompatible in
  do? require_none (missing_strings (req_placement_constraints request) (of_placement offer))
        PlacementIncompatible in
  do? require_none (List.filter (fun r =>
          negb (contains (csf_isolation_guarantees safety) r)
          || negb (contains (bd_isolation_facts descriptor) r)
          || negb (contains (of_isolation_facts offer) r))
        (req_isolation_requirements request)) IsolationNotProven in
  do? guard (bool_decide (bd_launch_semantics descriptor = of_launch_semantics offer))
        LaunchSemanticsMismatch in
  do? guard (negb (bool_decide (req_launch_safety request = KeyedRequired)
                   && negb (bool_decide (of_launch_semantics offer = KeyedIdempotent))))
        UnsafeLaunchSemantics in
  do? guard (negb (bool_decide (req_launch_safety request = ObservationalAllowed)
                   && bool_decide (of_launch_semantics offer = Observational)
                   && negb (csf_observational_launch_safe safety))) UnsafeLaunchSemantics in
  do? for_each (fun required =>
        do? check_quantity (bd_resources descriptor) required in
        check_quantity (of_resources offer) required) (req_resource_requirements request) in
  Ok {| ec_agent := ra_identity resolved; ec_request_digest := request_digest request;
        ec_offer := offer; ec_route_policy := ra_route_policy resolved;
        ec_execution_profile_digest := req_execution_profile_digest request |}.

(** ** Selection *)

(** One preference key: more context capacity first; other keys say nothing. *)
Definition preference_cmp (key : string) (left right : ExecutionCandidate) : comparison :=
  if String.eqb key "contextCapacity"
  then Z.compare (of_context_capacity_tokens (ec_offer right))
         (of_context_capacity_tokens (ec_offer left))
  else Eq.

Fixpoint preferences_cmp (keys : list string) (left right : ExecutionCandidate) : comparison :=
  match keys with
  | [] => Eq
  | key :: rest => then_cmp (preference_cmp key left right) (preferences_cmp rest left right)
  end.

(** [agent_order]. *)
Definition agent_order (a : LogicalAgentVersion) : string * Z := (lav_name a, lav_version a).

Definition tie_break_cmp (tie_break : string) (left right : ExecutionCandidate) : comparison :=
  if String.eqb tie_break "backendId"
  then String.compare (of_backend_id (ec_offer left)) (of_backend_id (ec_offer right))
  else if String.eqb tie_break "agentId"
  then cmp (agent_order (ec_agent left)) (agent_order (ec_agent right))
  else Eq.

(** The canonical identity two candidates are finally told apart by. *)
Definition final_identity (c : ExecutionCandidate) : string * (Z * (string * (Z * string))) :=
  (lav_name (ec_agent c), (lav_version (ec_agent c),
   (of_backend_id (ec_offer c), (of_descriptor_revision (ec_offer c),
    digest_bytes (offer_digest (ec_offer c)))))).

(** What follows the policy name: the policy's own keys, its tie-break, then
    identity. *)
Definition within_policy_cmp (policy : RoutePolicy) (left right : ExecutionCandidate) : comparison :=
  then_cmp (preferences_cmp (rp_ordering policy) left right)
    (then_cmp (tie_break_cmp (rp_tie_break policy) left right)
       (cmp (final_identity left) (final_identity right))).

Definition compare_candidates (left right : ExecutionCandidate) : comparison :=
  then_cmp (Z.compare (rp_priority (ec_route_policy right)) (rp_priority (ec_route_policy left)))
    (if negb (String.eqb (rp_name (ec_route_policy left)) (rp_name (ec_route_policy right)))
     then String.compare (rp_name (ec_route_policy left)) (rp_name (ec_route_policy right))
     else within_policy_cmp (ec_route_policy left) left right).

Inductive SelectionError : Type := NoCandidates.

Definition select_execution_candidate (candidates : list ExecutionCandidate) :
    Result ExecutionCandidate SelectionError :=
  ok_or (min_by compare_candidates candidates) NoCandidates.

Record RoutingResult : Type := {
  rr_task_id : string;
  rr_task_revision : Z;
  rr_task_spec_digest : Digest;
  rr_configuration : ConfigurationBinding;
  rr_request : ExecutionRequest;
  rr_candidate : ExecutionCandidate
}.

Definition routing_is_stale_against (r : RoutingResult) (current : ConfigurationBinding) : bool :=
  negb (binding_matches (rr_configuration r) current).
End Fabric.

(** ** Lemmas: required sets *)

Lemma sorted_difference_nil required available :
  sorted_difference required available = [] ↔ ∀ r, r ∈ required → r ∈ available.
Proof.
  unfold sorted_difference, sort. rewrite dedup_nil. split.
  - intros Hs r Hr. destruct (contains available r) eqn:E; [by apply contains_true|].
    assert (r ∈ sort_by cmp (List.filter (fun v => negb (contains available v)) required)) as Hin.
    { rewrite (elem_of_sort_by cmp). apply list_elem_of_In, filter_In.
      rewrite <-list_elem_of_In, E. done. }
    rewrite Hs in Hin. by apply not_elem_of_nil in Hin.
  - intros Hall. destruct (List.filter _ required) as [|x l] eqn:E; [done|].
    assert (x ∈ List.filter (fun v => negb (contains available v)) required) as Hx by (rewrite E; left).
    apply list_elem_of_In, filter_In in Hx as [Hx%list_elem_of_In Hn%negb_true_iff%contains_false].
    by destruct Hn; apply Hall.
Qed.

Lemma require_none_missing required available e :
  require_none (missing_strings required available) e = Ok tt ↔ ∀ r, r ∈ required → r ∈ available.
Proof.
  unfold missing_strings. rewrite <-sorted_difference_nil.
  by destruct (sorted_difference required available).
Qed.

Lemma guard_Ok b e : guard b e = Ok tt ↔ b = true.
Proof. by destruct b. Qed.

Lemma check_quantity_Ok values r :
  check_quantity values r = Ok tt ↔
  ∃ q, resource_quantity values (rq_name r) = Some q ∧ (rq_quantity r ≤ q)%Z.
Proof.
  unfold check_quantity. destruct (resource_quantity values (rq_name r)) as [q|].
  - rewrite guard_Ok, negb_true_iff, Z.ltb_ge. naive_solver.
  - naive_solver.
Qed.

(** ** Lemmas: eligibility *)

(** The semantic conditions of eligibility. *)
Record eligible (task : TaskSpec) (c : CompiledConfiguration) (b : ConfigurationBinding) (a : Agent) : Prop := {
  el_enabled : ag_enabled a = true;
  el_current : ag_current a = true;
  el_accepts : task_type task ∈ ag_accepts a;
  el_competencies : ∀ k, k ∈ task_competencies task → k ∈ ag_competencies a;
  el_pinned : agent_pins (cfg_routing c) = [] ∨ identity a ∈ agent_pins (cfg_routing c);
  el_not_excluded : identity a ∉ agent_exclusions (cfg_routing c);
  el_policy : ∀ r, r ∈ az_rules (cfg_authorization c) → ar_effect r = Forbid →
    ar_action r ∉ ag_actions a ∧ ar_action r ∉ scope_permitted_effects (task_scope task);
  el_activation : (acc_configuration_activation_sequence (task_acceptance task)
                   ≤ cb_activation_sequence b)%Z
}.

Lemma forbids_true rules act :
  forbids rules act = true ↔ ∃ r, r ∈ rules ∧ ar_action r = act ∧ ar_effect r = Forbid.
Proof.
  unfold forbids. destruct (find_first _ rules) as [r|] eqn:E.
  - apply find_first_Some in E as [Hin H]. split_andb. apply String.eqb_eq in H.
    apply bool_decide_eq_true in H0. naive_solver.
  - rewrite find_first_None in E. split; [done|]. intros (r & Hin & Ha & He). specialize (E r Hin).
    rewrite Ha, String.eqb_refl, bool_decide_eq_true_2 in E; done.
Qed.

Lemma find_forbidden rules (mk : string → PolicyIncompatibility) l :
  find_map (fun a => if forbids rules a then Some (mk a) else None) l = None ↔
  ∀ r, r ∈ rules → ar_effect r = Forbid → ar_action r ∉ l.
Proof.
  rewrite find_map_None. split.
  - intros Hl r Hr He Hin. specialize (Hl _ Hin).
    by rewrite (proj2 (forbids_true rules _) (ex_intro _ r (conj Hr (conj eq_refl He)))) in Hl.
  - intros Hall a Ha. destruct (forbids rules a) eqn:E; [|done].
    apply forbids_true in E as (r & Hr & <- & He). by destruct (Hall r Hr He).
Qed.

Lemma policy_incompatibility_None task a c :
  policy_incompatibility task a c = None ↔
  ∀ r, r ∈ az_rules (cfg_authorization c) → ar_effect r = Forbid →
    ar_action r ∉ ag_actions a ∧ ar_action r ∉ scope_permitted_effects (task_scope task).
Proof.
  unfold policy_incompatibility.
  destruct (find_map _ (ag_actions a)) eqn:E.
  - split; [done|]. intros Hall. exfalso.
    assert (find_map (fun a => if forbids (az_rules (cfg_authorization c)) a
       then Some (ForbiddenAgentAction a) else None) (ag_actions a) = None); [|congruence].
    apply find_forbidden. intros r Hr He. by apply Hall.
  - rewrite find_forbidden in E. rewrite find_forbidden. naive_solver.
Qed.

Lemma rejection_reason_None task c b a :
  rejection_reason task c b a = None ↔ eligible task c b a.
Proof.
  unfold rejection_reason. split.
  - destruct (ag_enabled a) eqn:He; [|done]. destruct (ag_current a) eqn:Hc; [|done]. cbn [negb].
    destruct (existsb _ (ag_accepts a)) eqn:Hacc; [|done]. cbn [negb].
    apply existsb_True in Hacc as (t & Ht & ->%String.eqb_eq).
    destruct (sorted_difference _ _) eqn:Hd; [|done]. rewrite sorted_difference_nil in Hd.
    destruct (_ && _) eqn:Hpin; [done|]. destruct (contains (agent_exclusions (cfg_routing c)) (identity a)) eqn:Hexc; [done|].
    destruct (policy_incompatibility task a c) eqn:Hp; [done|]. rewrite policy_incompatibility_None in Hp.
    destruct (Z.ltb_spec (cb_activation_sequence b) (acc_configuration_activation_sequence (task_acceptance task)));
      [done|]. intros _. split; try done.
    + apply andb_false_iff in Hpin as [Hn%negb_false_iff|Hn%negb_false_iff].
      * left. by destruct (agent_pins (cfg_routing c)).
      * right. by apply contains_true.
    + by apply contains_false.
  - intros [-> -> Hacc Hd Hpin Hexc Hp Hact]. cbn [negb].
    rewrite (proj2 (existsb_True _ _)); [|exists (task_type task); by rewrite String.eqb_refl]. cbn [negb].
    rewrite (proj2 (sorted_difference_nil _ _) Hd).
    assert (negb (Nat.eqb (length (agent_pins (cfg_routing c))) 0)
            && negb (contains (agent_pins (cfg_routing c)) (identity a)) = false) as ->.
    { destruct Hpin as [->|Hin%contains_true]; [done|]. by rewrite Hin, andb_false_r. }
    rewrite (proj2 (contains_false _ _) Hexc), (proj2 (policy_incompatibility_None _ _ _) Hp).
    by destruct (Z.ltb_spec (cb_activation_sequence b)
      (acc_configuration_activation_sequence (task_acceptance task))); [lia|].
Qed.

Lemma resolve_loop_eligible task c b l r :
  r ∈ (resolve_loop task c b l).1 ↔ ∃ a, a ∈ l ∧ resolve_agent task c b a = Ok r.
Proof.
  induction l as [|a l IH]; cbn.
  - split; [intros Hr; by apply not_elem_of_nil in Hr|].
    intros (a & Ha & _). by apply not_elem_of_nil in Ha.
  - destruct (resolve_loop task c b l) as [el rej]. cbn in IH.
    destruct (resolve_agent task c b a) as [x|e] eqn:E; cbn.
    + rewrite elem_of_cons, IH. split.
      * intros [->|(a' & Ha & Hr)]; [exists a; split; [left|done] | exists a'; split; [by right|done]].
      * intros (a' & [->|Ha]%elem_of_cons & Hr); [left; congruence | right; eauto].
    + rewrite IH. split.
      * intros (a' & Ha & Hr). exists a'. split; [by right|done].
      * intros (a' & [->|Ha]%elem_of_cons & Hr); [congruence | eauto].
Qed.

(** Every agent is either eligible or rejected with a reason. *)
Lemma resolve_loop_rejected task c b l x :
  x ∈ (resolve_loop task c b l).2 ↔
  ∃ a, a ∈ l ∧ rej_agent x = identity a ∧ resolve_agent task c b a = Err (rej_reason x).
Proof.
  induction l as [|a l IH]; cbn.
  - split; [intros Hr; by apply not_elem_of_nil in Hr|].
    intros (a & Ha & _). by apply not_elem_of_nil in Ha.
  - destruct (resolve_loop task c b l) as [el rej]. cbn in IH.
    destruct (resolve_agent task c b a) as [y|e] eqn:E; cbn.
    + rewrite IH. split.
      * intros (a' & Ha & Hr). exists a'. split; [by right|done].
      * intros (a' & [->|Ha]%elem_of_cons & Hid & Hr); [congruence | eauto].
    + rewrite elem_of_cons, IH. split.
      * intros [->|(a' & Ha & Hr)]; [exists a; split; [left|done] | exists a'; split; [by right|done]].
      * intros (a' & [->|Ha]%elem_of_cons & Hid & Hr); [|right; eauto]. left.
        destruct x; cbn in *. congruence.
Qed.

(** In a consistent configuration the configured lookups never fail, so an agent
    resolves exactly when it is semantically eligible. *)
Lemma resolve_agent_consistent task c b a :
  consistent c → a ∈ agents (cfg_agents c) →
  eligible task c b a ↔ ∃ r, resolve_agent task c b a = Ok r ∧ ra_agent r = a ∧ ra_identity r = identity a
    ∧ ra_route_policy r ∈ policies (cfg_routing c) ∧ rp_name (ra_route_policy r) = ag_route_policy a
    ∧ find_profile c (ag_sandbox_profile a) = Some (ra_sandbox_profile r).
Proof.
  intros Hcon Ha. rewrite <-(rejection_reason_None task c b a). unfold resolve_agent. split.
  - intros ->. pose proof (con_route c Hcon a Ha) as Hr.
    destruct (con_profile c Hcon a Ha) as (p & Hp & Hreq & _). rewrite Hp.
    apply list_elem_of_In, in_map_iff in Hr as (pol & Hn & Hpol%list_elem_of_In).
    destruct (find_first _ (policies (cfg_routing c))) as [q|] eqn:E.
    + apply find_first_Some in E as [Hq Hqn%String.eqb_eq]. cbn [ok_or try_bind].
      assert (existsb (fun r => negb (contains (sp_guarantees p) r)) (ag_sandbox_requirements a) = false) as ->.
      { apply existsb_False. intros r Hin. apply negb_false_iff, contains_true. auto. }
      eexists. split; [reflexivity|]. cbn. auto.
    + rewrite find_first_None in E. specialize (E _ Hpol). by rewrite Hn, String.eqb_refl in E.
  - intros (r & Hr & _). by destruct (rejection_reason task c b a).
Qed.

Lemma resolve_agent_fields task c b a r :
  resolve_agent task c b a = Ok r → ra_agent r = a ∧ ra_identity r = identity a.
Proof.
  unfold resolve_agent. destruct (rejection_reason task c b a); [done|]. intros Hr.
  apply try_bind_Ok in Hr as (p & _ & Hr). apply try_bind_Ok in Hr as (q & _ & Hr).
  destruct (existsb _ _); [done|]. by injection Hr as <-.
Qed.

Section FabricFacts.
Context `{Sha256}.

Lemma resolve_agents_Ok task c b r :
  consistent c → resolve_agents task c b = Ok r →
  res_eligible r ≠ [] ∧
  (∀ a, (∃ x, x ∈ res_eligible r ∧ ra_agent x = a) ↔ a ∈ agents (cfg_agents c) ∧ eligible task c b a).
Proof.
  intros Hcon. unfold resolve_agents. destruct (configuration_agrees c b); cbn [negb]; [|done].
  pose proof (fun x => resolve_loop_eligible task c b (sorted_agents (agents (cfg_agents c))) x) as Hel.
  destruct (resolve_loop task c b _) as [el rej]. destruct el as [|x0 el]; [done|].
  intros [= <-]. cbn in *. split; [done|]. intros a.
  assert (∀ y, y ∈ sorted_agents (agents (cfg_agents c)) ↔ y ∈ agents (cfg_agents c)) as Hs.
  { intros y. apply (elem_of_sort_by (key_cmp identity cmp)). }
  split.
  - intros (x & Hx & Hxa). apply Hel in Hx as (a' & Ha' & Hr).
    pose proof (resolve_agent_fields _ _ _ _ _ Hr) as [Heq _]. assert (a' = a) as -> by congruence.
    apply Hs in Ha'. split; [done|]. apply rejection_reason_None.
    unfold resolve_agent in Hr. by destruct (rejection_reason task c b a).
  - intros [Ha He]. apply (resolve_agent_consistent task c b a Hcon Ha) in He as (x & Hr & Hxa & _).
    exists x. split; [|done]. apply Hel. exists a. split; [by apply Hs | done].
Qed.

(** Resolution fails exactly when the captured configuration is another one or
    no declared agent is eligible. *)
Lemma resolve_agents_fails task c b :
  consistent c →
  (∃ e, resolve_agents task c b = Err e) ↔
  configuration_agrees c b = false ∨ ∀ a, a ∈ agents (cfg_agents c) → ¬ eligible task c b a.
Proof.
  intros Hcon. unfold resolve_agents. destruct (configuration_agrees c b); cbn [negb]; [|naive_solver].
  pose proof (fun x => resolve_loop_eligible task c b (sorted_agents (agents (cfg_agents c))) x) as Hel.
  destruct (resolve_loop task c b _) as [el rej]. cbn in Hel.
  assert (∀ y, y ∈ sorted_agents (agents (cfg_agents c)) ↔ y ∈ agents (cfg_agents c)) as Hs.
  { intros y. apply (elem_of_sort_by (key_cmp identity cmp)). }
  destruct el as [|x0 el].
  - split; [|eauto]. intros _. right. intros a Ha He.
    apply (resolve_agent_consistent task c b a Hcon Ha) in He as (x & Hr & _).
    assert (x ∈ []) as Hx by (apply Hel; exists a; split; [by apply Hs | done]).
    by apply not_elem_of_nil in Hx.
  - split; [by intros [e He]|]. intros [?|Hno]; [done|]. exfalso.
    destruct (proj1 (Hel x0)) as (a & Ha%Hs & Hr); [left|].
    apply (Hno a Ha), rejection_reason_None. unfold resolve_agent in Hr.
    by destruct (rejection_reason task c b a).
Qed.

(** What a request, a descriptor and an offer must agree on. *)
Record compatible (request : ExecutionRequest) (resolved : ResolvedAgent)
    (descriptor : BackendDescriptor) (offer : ExecutionOffer) (backend_enabled : bool)
    (safety : ControllerSafetyFacts) : Prop := {
  cp_enabled : backend_enabled = true;
  cp_available : bd_available_for_offers descriptor = true;
  cp_backend : bd_backend_id descriptor = of_backend_id offer;
  cp_revision : bd_revision descriptor = of_descriptor_revision offer;
  cp_descriptor : descriptor_digest descriptor = of_descriptor_digest offer;
  cp_request : request_digest request = of_request_digest offer;
  cp_agent : ra_identity resolved = req_agent request;
  cp_policy : route_policy_digest (ra_route_policy resolved) = req_route_policy_digest request;
  cp_features : ∀ f, f ∈ req_required_execution_features request →
    f ∈ bd_supported_execution_features descriptor ∧ f ∈ of_supported_execution_features offer;
  cp_capacity : (req_min_context_tokens request ≤ bd_context_capacity_tokens descriptor)%Z ∧
    (req_min_context_tokens request ≤ of_context_capacity_tokens offer)%Z;
  cp_placement : ∀ p, p ∈ req_placement_constraints request →
    p ∈ bd_placement descriptor ∧ p ∈ of_placement offer;
  cp_isolation : ∀ g, g ∈ req_isolation_requirements request →
    g ∈ csf_isolation_guarantees safety ∧ g ∈ bd_isolation_facts descriptor ∧
    g ∈ of_isolation_facts offer;
  cp_semantics : bd_launch_semantics descriptor = of_launch_semantics offer;
  cp_keyed : req_launch_safety request = KeyedRequired → of_launch_semantics offer = KeyedIdempotent;
  cp_observational : of_launch_semantics offer = Observational →
    csf_observational_launch_safe safety = true;
  cp_resources : ∀ r, r ∈ req_resource_requirements request → ∃ d o,
    resource_quantity (bd_resources descriptor) (rq_name r) = Some d ∧ (rq_quantity r ≤ d)%Z ∧
    resource_quantity (of_resources offer) (rq_name r) = Some o ∧ (rq_quantity r ≤ o)%Z
}.

Lemma isolation_none safety descriptor offer reqs :
  require_none (List.filter (fun r =>
      negb (contains (csf_isolation_guarantees safety) r)
      || negb (contains (bd_isolation_facts descriptor) r)
      || negb (contains (of_isolation_facts offer) r)) reqs) IsolationNotProven = Ok tt ↔
  ∀ g, g ∈ reqs → g ∈ csf_isolation_guarantees safety ∧ g ∈ bd_isolation_facts descriptor ∧
    g ∈ of_isolation_facts offer.
Proof.
  induction reqs as [|g reqs IH]; cbn.
  - split; [intros _ g Hg; by apply not_elem_of_nil in Hg | done].
  - destruct (negb _ || negb _ || negb _) eqn:E; cbn.
    + split; [done|]. intros Hall. destruct (Hall g) as (H1 & H2 & H3); [left|].
      apply contains_true in H1, H2, H3. by rewrite H1, H2, H3 in E.
    + apply orb_false_iff in E as [[E1 E2]%orb_false_iff E3].
      apply negb_false_iff, contains_true in E1, E2, E3. rewrite IH. split.
      * intros Hall x [->|Hx]%elem_of_cons; auto.
      * intros Hall x Hx. apply Hall. by right.
Qed.

Lemma validate_execution_candidate_Ok request resolved descriptor offer enabled safety cand :
  validate_execution_candidate request resolved descriptor offer enabled safety = Ok cand ↔
  compatible request resolved descriptor offer enabled safety ∧
  cand = {| ec_agent := ra_identity resolved; ec_request_digest := request_digest request;
            ec_offer := offer; ec_route_policy := ra_route_policy resolved;
            ec_execution_profile_digest := req_execution_profile_digest request |}.
Proof.
  unfold validate_execution_candidate.
  rewrite !do_Ok, !guard_Ok, !require_none_missing, isolation_none, for_each_Ok.
  setoid_rewrite do_Ok. setoid_rewrite check_quantity_Ok.
  rewrite !andb_true_iff, !bool_decide_eq_true, !negb_true_iff, !Z.ltb_ge, String.eqb_eq, Z.eqb_eq.
  assert (bool_decide (req_launch_safety request = KeyedRequired)
      && negb (bool_decide (of_launch_semantics offer = KeyedIdempotent)) = false ↔
    (req_launch_safety request = KeyedRequired → of_launch_semantics offer = KeyedIdempotent)) as Hk.
  { rewrite andb_false_iff, negb_false_iff, bool_decide_eq_false, bool_decide_eq_true.
    destruct (decide (req_launch_safety request = KeyedRequired)); tauto. }
  assert (bool_decide (req_launch_safety request = ObservationalAllowed)
      && bool_decide (of_launch_semantics offer = Observational)
      && negb (csf_observational_launch_safe safety) = false ↔
    (req_launch_safety request = ObservationalAllowed → of_launch_semantics offer = Observational →
     csf_observational_launch_safe safety = true)) as Ho.
  { rewrite !andb_false_iff, negb_false_iff, !bool_decide_eq_false.
    destruct (decide (req_launch_safety request = ObservationalAllowed)),
      (decide (of_launch_semantics offer = Observational)); tauto. }
  rewrite Hk, Ho. clear Hk Ho. split.
  - intros (? & ? & ? & ? & ? & ? & [? ?] & Hf1 & Hf2 & ? & ? & Hp1 & Hp2 & ? & ? & Hk & Ho & Hres & [= <-]).
    split; [|done]. split; auto.
    + intros Hs. destruct (req_launch_safety request); auto. by rewrite Hk in Hs.
    + intros r Hr. destruct (Hres r Hr) as [(d & ? & ?) (o & ? & ?)]. eauto 10.
  - intros [[? ? ? ? ? ? ? ? Hf [? ?] Hp Hi ? ? Ho Hres] ->].
    repeat split; try done; try (intros; by apply Hf); try (intros; by apply Hp);
      try (by apply Hi); auto;
      edestruct Hres as (d & o & ? & ? & ? & ?); eauto.
Qed.

(** ** Lemmas: selection *)

#[local] Instance eq_comparator : Comparator (fun _ _ : ExecutionCandidate => Eq).
Proof. split; [done|]. intros ? ? ? _ _. done. Qed.

#[local] Instance preference_comparator key : Comparator (preference_cmp key).
Proof.
  unfold preference_cmp. destruct (String.eqb key "contextCapacity"); [|apply _].
  apply (flip_comparator (key_cmp (fun c => of_context_capacity_tokens (ec_offer c)) Z.compare)).
Qed.

#[local] Instance preferences_comparator keys : Comparator (preferences_cmp keys).
Proof.
  induction keys as [|k keys IH]; cbn; [apply eq_comparator|].
  apply (then_cmp_comparator (preference_cmp k) (preferences_cmp keys)).
Qed.

#[local] Instance tie_break_comparator t : Comparator (tie_break_cmp t).
Proof.
  unfold tie_break_cmp. destruct (String.eqb t "backendId"); [|destruct (String.eqb t "agentId")].
  - apply (key_cmp_comparator (fun c => of_backend_id (ec_offer c)) String.compare).
  - change (Comparator (key_cmp (fun c => agent_order (ec_agent c)) (pair_cmp (cmp (A:=string)) (cmp (A:=Z))))).
    apply key_cmp_comparator. apply (total_order_comparator (TotalOrder:=pair_cmp_total _ _)).
  - apply eq_comparator.
Qed.

#[local] Instance within_policy_comparator p : Comparator (within_policy_cmp p).
Proof.
  unfold within_policy_cmp.
  apply (then_cmp_comparator (preferences_cmp (rp_ordering p))
    (fun x y => then_cmp (tie_break_cmp (rp_tie_break p) x y) (cmp (final_identity x) (final_identity y)))).
Qed.

(** A comparison by key whose refinement may depend on the key. *)
Lemma dependent_comparator {A K} (key : A → K) (f : K → K → comparison) (h : K → A → A → comparison)
    `{!TotalOrder f} `{∀ k, Comparator (h k)} :
  Comparator (fun x y => then_cmp (f (key x) (key y)) (h (key x) x y)).
Proof.
  split.
  - intros x y. rewrite (comparator_antisym f (key x) (key y)).
    destruct (f (key x) (key y)) eqn:E; cbn; [|done|done].
    apply (total_order_eq f) in E. rewrite E. apply (comparator_antisym (h (key y))).
  - intros x y z. unfold cmp_le. intros Hxy Hyz.
    destruct (f (key x) (key y)) eqn:E1; [|clear Hxy|by destruct Hxy].
    + apply (total_order_eq f) in E1. cbn in Hxy. rewrite E1 in *.
      destruct (f (key y) (key z)) eqn:E2; [|done|done]. cbn in *.
      exact (comparator_trans (h (key y)) x y z Hxy Hyz).
    + rewrite (cmp_lt_le_trans f (key x) (key y) (key z) E1); [done|].
      unfold cmp_le. intros E2. by rewrite E2 in Hyz.
Qed.

(** Descending priority, then name. *)
Definition policy_key (c : ExecutionCandidate) : Z * string :=
  ((- rp_priority (ec_route_policy c))%Z, rp_name (ec_route_policy c)).

Definition ranked (policy : string → RoutePolicy) (x y : ExecutionCandidate) : comparison :=
  then_cmp (pair_cmp Z.compare String.compare (policy_key x) (policy_key y))
    (within_policy_cmp (policy (policy_key x).2) x y).

#[local] Instance ranked_comparator policy : Comparator (ranked policy).
Proof.
  unfold ranked.
  apply (dependent_comparator (policy_key) (pair_cmp Z.compare String.compare)
    (fun k => within_policy_cmp (policy k.2))).
Qed.

(** When every candidate carries the policy its name stands for, the comparison
    of the code is this order. *)
Lemma compare_candidates_ranked policy x y :
  ec_route_policy x = policy (rp_name (ec_route_policy x)) →
  compare_candidates x y = ranked policy x y.
Proof.
  intros Hx. unfold compare_candidates, ranked, pair_cmp, policy_key. cbn.
  assert (∀ a b, Z.compare b a = Z.compare (- a) (- b)) as Hneg.
  { intros a b. destruct (Z.compare_spec (- a) (- b)), (Z.compare_spec b a); (done || lia). }
  rewrite Hneg. destruct (Z.compare _ _); cbn; [|done|done].
  destruct (String.eqb_spec (rp_name (ec_route_policy x)) (rp_name (ec_route_policy y))) as [E|E]; cbn.
  - rewrite E, string_compare_refl. cbn. rewrite <-E. by rewrite <-Hx.
  - destruct (String.compare _ _) eqn:E2; [|done|done]. by apply String.compare_eq_iff in E2.
Qed.

Lemma min_by_ext {A} (f g : A → A → comparison) l :
  (∀ x y, x ∈ l → f x y = g x y) → min_by f l = min_by g l.
Proof.
  destruct l as [|x l]; cbn; [done|]. intros Hfg. f_equal. revert x Hfg.
  induction l as [|y l IH]; intros x Hfg; cbn; [done|]. rewrite (Hfg x y) by left.
  destruct (g x y); apply IH; intros a b [->|Ha]%elem_of_cons; apply Hfg; set_solver.
Qed.

Lemma select_least policy l c :
  (∀ x, x ∈ l → ec_route_policy x = policy (rp_name (ec_route_policy x))) →
  select_execution_candidate l = Ok c →
  c ∈ l ∧ ∀ x, x ∈ l → compare_candidates c x ≠ Gt.
Proof.
  intros Hpol. unfold select_execution_candidate.
  rewrite (min_by_ext compare_candidates (ranked policy))
    by (intros; apply compare_candidates_ranked; auto).
  destruct (min_by (ranked policy) l) as [m|] eqn:E; [|done]. intros [= <-].
  apply min_by_Some in E as [Hin Hle]; [|apply _]. split; [done|]. intros x Hx.
  rewrite (compare_candidates_ranked policy) by auto. by apply Hle.
Qed.

(** Ties of the order are ties of identity. *)
Lemma compare_candidates_eq x y :
  compare_candidates x y = Eq → final_identity x = final_identity y.
Proof.
  unfold compare_candidates, within_policy_cmp. intros E.
  destruct (Z.compare _ _); cbn in E; [|done|done].
  destruct (String.eqb_spec (rp_name (ec_route_policy x)) (rp_name (ec_route_policy y))) as [_|Hne];
    cbn in E; [|by apply String.compare_eq_iff in E].
  destruct (preferences_cmp _ x y); cbn in E; [|done|done].
  destruct (tie_break_cmp _ x y); cbn in E; [|done|done]. by apply (total_order_eq cmp).
Qed.

(** The selected identity does not depend on the order of the candidates. *)
Lemma select_perm policy l1 l2 c1 c2 :
  (∀ x, x ∈ l1 → ec_route_policy x = policy (rp_name (ec_route_policy x))) → l1 ≡ₚ l2 →
  select_execution_candidate l1 = Ok c1 → select_execution_candidate l2 = Ok c2 →
  final_identity c1 = final_identity c2.
Proof.
  intros Hpol Hp H1 H2. assert (∀ x, x ∈ l2 → ec_route_policy x = policy (rp_name (ec_route_policy x))) as Hpol2.
  { intros x Hx. apply Hpol. by rewrite Hp. }
  apply (select_least policy) in H1 as [Hin1 Hle1]; [|done].
  apply (select_least policy) in H2 as [Hin2 Hle2]; [|done].
  assert (c2 ∈ l1) as Hin2' by (by rewrite Hp).
  assert (c1 ∈ l2) as Hin1' by (by rewrite <-Hp).
  specialize (Hle1 c2 Hin2'). specialize (Hle2 c1 Hin1').
  apply compare_candidates_eq. rewrite (compare_candidates_ranked policy) in * by auto.
  by apply (cmp_le_antisym_eq (ranked policy)).
Qed.

Lemma select_Ok_ne l : (∃ c, select_execution_candidate l = Ok c) ↔ l ≠ [].
Proof. unfold select_execution_candidate. destruct l; cbn; naive_solver. Qed.
(** The order of the documentation: higher policy priority first, then policy
    name, then what the shared policy prefers. *)
Definition preferred (a b : ExecutionCandidate) : Prop :=
  let p := ec_route_policy a in
  let q := ec_route_policy b in
  (rp_priority q < rp_priority p)%Z ∨
  (rp_priority p = rp_priority q ∧
   (String.compare (rp_name p) (rp_name q) = Lt ∨
    (rp_name p = rp_name q ∧ cmp_le (within_policy_cmp p) a b))).

Lemma compare_preferred a b : compare_candidates a b ≠ Gt → preferred a b.
Proof.
  unfold compare_candidates, preferred, cmp_le. intros Hc.
  destruct (Z.compare_spec (rp_priority (ec_route_policy b)) (rp_priority (ec_route_policy a)));
    cbn [then_cmp] in Hc; [|by left|done]. right. split; [done|].
  destruct (String.eqb_spec (rp_name (ec_route_policy a)) (rp_name (ec_route_policy b))) as [E|E];
    cbn [negb] in Hc; [by right|]. left.
  destruct (String.compare _ _) eqn:Ec; [by apply String.compare_eq_iff in Ec|done|done].
Qed.

(** Candidates whose policies come from one uniquely named list carry the policy
    their name stands for. *)
Lemma policies_by_name (pols : list RoutePolicy) l :
  NoDup (map rp_name pols) → (∀ x : ExecutionCandidate, x ∈ l → ec_route_policy x ∈ pols) →
  l = [] ∨ ∃ policy, ∀ x, x ∈ l → ec_route_policy x = policy (rp_name (ec_route_policy x)).
Proof.
  intros Hnd Hin. destruct l as [|x0 l]; [by left|right].
  exists (fun n => default (ec_route_policy x0) (find_first (fun p => String.eqb (rp_name p) n) pols)).
  intros x Hx. specialize (Hin x Hx).
  destruct (find_first _ pols) as [q|] eqn:E; cbn.
  - apply find_first_Some in E as [Hq Hn%String.eqb_eq].
    by apply (NoDup_map_inj rp_name pols).
  - rewrite find_first_None in E. specialize (E _ Hin). by rewrite String.eqb_refl in E.
Qed.
End FabricFacts.

(** ** Claims *)

(** agent resolution is exact for every configuration that compiles: it
    refuses a configuration other than the captured one, succeeds exactly when
    some declared agent meets every eligibility condition, and then lists exactly
    the agents that do; no eligible agent is lost to a dangling route policy or
    sandbox profile. *)
Theorem resolution_exact `{Sha256} source c task b (Hc : compile source = Ok c) :
  match resolve_agents task c b with
  | Ok r =>
      configuration_agrees c b = true ∧ res_eligible r ≠ [] ∧
      ∀ a, (∃ x, x ∈ res_eligible r ∧ ra_agent x = a) ↔
           a ∈ agents (cfg_agents c) ∧ eligible task c b a
  | Err (ResConfigurationMismatch _ _) => configuration_agrees c b = false
  | Err (NoEligibleAgent _ _) =>
      configuration_agrees c b = true ∧ ∀ a, a ∈ agents (cfg_agents c) → ¬ eligible task c b a
  end.
Proof.
  pose proof (cg_consistent _ (compile_Ok _ _ Hc)) as Hcon.
  destruct (resolve_agents task c b) as [r|e] eqn:E.
  - split; [|by apply resolve_agents_Ok].
    unfold resolve_agents in E. by destruct (configuration_agrees c b).
  - pose proof (proj1 (resolve_agents_fails task c b Hcon) (ex_intro _ e E)) as Hf.
    unfold resolve_agents in E. destruct (configuration_agrees c b); cbn [negb] in E.
    + destruct Hf as [?|Hf]; [done|]. destruct (resolve_loop _ _ _ _) as [[|? ?] ?]; by simplify_eq.
    + by simplify_eq.
Qed.

Definition sample_binding `{Sha256} (c : CompiledConfiguration) : ConfigurationBinding := {|
  cb_activation_sequence := 3; cb_content_digest := revision_digest c;
  cb_component_digests := component_digests c |}.

Lemma resolution_exact_witness :
  ∃ r, @resolve_agents prefix_hash sample_task sample_compiled
         (@sample_binding prefix_hash sample_compiled) = Ok r ∧
  ∀ a, (∃ x, x ∈ res_eligible r ∧ ra_agent x = a) ↔
       a ∈ agents (cfg_agents sample_compiled) ∧
       eligible sample_task sample_compiled (@sample_binding prefix_hash sample_compiled) a.
Proof.
  pose proof (@resolution_exact prefix_hash sample_source sample_compiled sample_task
    (@sample_binding prefix_hash sample_compiled) sample_compiles) as Hr.
  destruct (resolve_agents _ _ _) as [r|e] eqn:E; [|vm_compute in E; discriminate].
  exists r. split; [reflexivity|apply Hr].
Defined.

(** an offer becomes a candidate exactly when it is compatible: the backend
    is enabled and available, offer and descriptor are the same backend,
    revision and digest, the offer answers this very request for this agent and
    policy, every required feature, placement, isolation guarantee, context
    size and resource is met by the descriptor, the offer and (for isolation)
    the controller's own facts, and the launch semantics are safe. *)
Theorem candidate_admission_exact `{Sha256} request resolved descriptor offer enabled safety :
  (∃ cand, validate_execution_candidate request resolved descriptor offer enabled safety = Ok cand) ↔
  compatible request resolved descriptor offer enabled safety.
Proof.
  split.
  - by intros (cand & [Hc _]%validate_execution_candidate_Ok).
  - intros Hc. eexists. apply validate_execution_candidate_Ok. by split.
Qed.

(** selection is total, best and order-independent: over candidates whose
    policies come from one uniquely named list, a candidate is chosen whenever
    there is one, none of the others is preferred to it by the documented order
    (priority, policy name, the policy's preferences and tie-break, identity),
    and any arrangement of the same candidates selects the same identity. *)
Theorem selection_best `{Sha256} pols l1 l2
    (Hnames : NoDup (map rp_name pols)) (Hpols : ∀ x, x ∈ l1 → ec_route_policy x ∈ pols)
    (Hperm : l1 ≡ₚ l2) (Hne : l1 ≠ []) :
  ∃ c1 c2, select_execution_candidate l1 = Ok c1 ∧ select_execution_candidate l2 = Ok c2 ∧
    c1 ∈ l1 ∧ (∀ x, x ∈ l1 → preferred c1 x) ∧ final_identity c1 = final_identity c2.
Proof.
  destruct (policies_by_name pols l1 Hnames Hpols) as [?|[policy Hpol]]; [done|].
  destruct (proj2 (select_Ok_ne l1) Hne) as [c1 H1].
  assert (l2 ≠ []) as Hne2 by (intros ->; by apply Permutation_sym, Permutation_nil in Hperm).
  destruct (proj2 (select_Ok_ne l2) Hne2) as [c2 H2]. exists c1, c2.
  destruct (select_least policy l1 c1 Hpol H1) as [Hin Hle].
  split_and!; try done.
  - intros x Hx. by apply compare_preferred, Hle.
  - by apply (select_perm policy l1 l2).
Qed.

Definition sample_policy (name : string) (priority : Z) : RoutePolicy := {|
  rp_name := name; rp_priority := priority; rp_ordering := ["contextCapacity"];
  rp_tie_break := "backendId"; rp_requires_keyed_launch := false |}.

Definition sample_policies : list RoutePolicy := [sample_policy "fast" 1; sample_policy "safe" 5].

Definition sample_candidate (backend : string) (capacity : Z) (policy : RoutePolicy) :
    ExecutionCandidate := {|
  ec_agent := mk_agent_version "coder" 1;
  ec_request_digest := @digest_of prefix_hash "request";
  ec_offer := {|
    of_request_digest := @digest_of prefix_hash "request"; of_backend_id := backend;
    of_descriptor_revision := 1; of_descriptor_digest := @digest_of prefix_hash "descriptor";
    of_supported_execution_features := []; of_context_capacity_tokens := capacity;
    of_placement := []; of_isolation_facts := []; of_resources := [];
    of_launch_semantics := KeyedIdempotent; of_offer_reference := backend |};
  ec_route_policy := policy;
  ec_execution_profile_digest := @digest_of prefix_hash "execution" |}.

Definition sample_candidates : list ExecutionCandidate :=
  [sample_candidate "large" 9000 (sample_policy "fast" 1);
   sample_candidate "b" 4000 (sample_policy "safe" 5);
   sample_candidate "a" 4000 (sample_policy "safe" 5)].

Lemma selection_best_witness :
  @select_execution_candidate prefix_hash sample_candidates =
    Ok (sample_candidate "a" 4000 (sample_policy "safe" 5)) ∧
  ∃ c1 c2, @select_execution_candidate prefix_hash sample_candidates = Ok c1 ∧
    @select_execution_candidate prefix_hash (rev sample_candidates) = Ok c2 ∧
    c1 ∈ sample_candidates ∧ (∀ x, x ∈ sample_candidates → @preferred prefix_hash c1 x) ∧
    @final_identity prefix_hash c1 = @final_identity prefix_hash c2.
Proof.
  split; [vm_compute; reflexivity|].
  apply (@selection_best prefix_hash sample_policies).
  - apply (bool_decide_unpack _). vm_compute. exact I.
  - unfold sample_candidates, sample_policies. intros x Hx. set_unfold in Hx.
    destruct Hx as [->|[->|[->|[]]]]; cbn; set_solver.
  - apply Permutation_rev.
  - discriminate.
Defined.
