(* ===== verification/Workspace.v ===== *)
(** * Workspaces and base identities ([pantheon-core/src/workspace.rs]) *)

From Stdlib Require Import ZArith NArith Ascii Lia.
From S2P Require Import Prelude Utf8 Canonical Parse ParseFacts Digest.

Inductive WorkspacePhase : Type :=
| WsRequested | WsMaterializing | WsReady | WsFrozen | WsReleasing | WsReleased | WsError.

#[export] Instance WorkspacePhase_eq_dec : EqDecision WorkspacePhase.
Proof. solve_decision. Defined.

Definition workspace_phase_as_str (p : WorkspacePhase) : string :=
  match p with
  | WsRequested => "Requested"
  | WsMaterializing => "Materializing"
  | WsReady => "Ready"
  | WsFrozen => "Frozen"
  | WsReleasing => "Releasing"
  | WsReleased => "Released"
  | WsError => "Error"
  end.

Definition workspace_phase_parse (text : string) : option WorkspacePhase :=
  if String.eqb text "Requested" then Some WsRequested
  else if String.eqb text "Materializing" then Some WsMaterializing
  else if String.eqb text "Ready" then Some WsReady
  else if String.eqb text "Frozen" then Some WsFrozen
  else if String.eqb text "Releasing" then Some WsReleasing
  else if String.eqb text "Released" then Some WsReleased
  else if String.eqb text "Error" then Some WsError
  else None.

Definition has_been_mutable (p : WorkspacePhase) : bool :=
  match p with
  | WsReady | WsFrozen | WsReleasing | WsReleased => true
  | _ => false
  end.

Inductive Materialization : Type := MatPresent | MatAbsent | MatUnknown.

#[export] Instance Materialization_eq_dec : EqDecision Materialization.
Proof. solve_decision. Defined.

Definition materialization_as_str (m : Materialization) : string :=
  match m with
  | MatPresent => "Present"
  | MatAbsent => "Absent"
  | MatUnknown => "Unknown"
  end.

Definition materialization_parse (text : string) : option Materialization :=
  if String.eqb text "Present" then Some MatPresent
  else if String.eqb text "Absent" then Some MatAbsent
  else if String.eqb text "Unknown" then Some MatUnknown
  else None.

Definition REPOSITORY_INPUT : string := "repository".

(** ** Base identities *)

Inductive BaseError : Type :=
| NotAnObjectName (value : string)
| NotARefName (value reason : string).

Record ResolvedBase : Type := mk_resolved { resolved_text : string }.
Record RequestedBase : Type := mk_requested { requested_text : string }.

(** [bytes().all(p)]. *)
Fixpoint all_bytes (p : ascii → bool) (s : string) : bool :=
  match s with
  | EmptyString => true
  | String b rest => p b && all_bytes p rest
  end.

(** An ASCII digit or a lowercase hexadecimal letter. *)
Definition canonical_hex (b : ascii) : bool := in_range 48 57 b || in_range 97 102 b.

Definition resolved_base_parse (value : string) : Result ResolvedBase BaseError :=
  let supported_width := Nat.eqb (String.length value) 40 || Nat.eqb (String.length value) 64 in
  let canonical := all_bytes canonical_hex value in
  if supported_width && canonical then Ok (mk_resolved value) else Err (NotAnObjectName value).

Definition MAX_LEN : nat := 255.

Definition is_control (c : N) : bool := (c <? 32)%N || (c =? 127)%N.

(** The characters Git forbids: [ ' ' '~' '^' ':' '?' '*' '[' '\' ]. *)
Definition git_forbidden (c : N) : bool := contains [32; 126; 94; 58; 63; 42; 91; 92]%N c.

Definition refused_char (c : N) : option string :=
  if is_control c then Some "it contains a control character"
  else if git_forbidden c then Some "it contains a character Git forbids in a ref name"
  else None.

Definition requested_base_parse (value : string) : Result RequestedBase BaseError :=
  let refuse reason := Err (NotARefName value reason) in
  if is_empty value then refuse "it is empty"
  else if Nat.ltb MAX_LEN (String.length value) then refuse "it is longer than 255 characters"
  else if starts_with "-" value then refuse "it starts with '-'"
  else if starts_with "/" value || ends_with "/" value || contains_str "//" value
  then refuse "it has an empty path component"
  else if ends_with "." value || ends_with ".lock" value || contains_str "/." value
  then refuse "a component starts or ends with a reserved character"
  else if contains_str ".." value || contains_str "@{" value
  then refuse "it contains a revision-expression sequence"
  else match find_map refused_char (chars value) with
       | Some reason => refuse reason
       | None => Ok (mk_requested value)
       end.

(** ** Lemmas *)

Lemma workspace_phase_roundtrip p : workspace_phase_parse (workspace_phase_as_str p) = Some p.
Proof. by destruct p. Qed.

Lemma materialization_roundtrip m : materialization_parse (materialization_as_str m) = Some m.
Proof. by destruct m. Qed.

Lemma refused_char_None c :
  refused_char c = None ↔
  (32 ≤ c ∧ c ≠ 127)%N ∧ c ∉ [32; 126; 94; 58; 63; 42; 91; 92]%N.
Proof.
  unfold refused_char, is_control, git_forbidden. rewrite <-contains_false.
  destruct (N.ltb_spec c 32), (N.eqb_spec c 127); cbn [orb];
    try (split; [done|lia]); [split; [done|intros [[? ?] _]; lia]..|].
  destruct (contains _ c); naive_solver.
Qed.

(** What an accepted ref name can never be: an option, a path with an empty
    component, a revision expression, a text with control or Git-reserved
    characters. *)
Definition plain_ref_name (value : string) : Prop :=
  String.length value ≤ MAX_LEN ∧
  (∀ rest, value ≠ String "-" rest) ∧
  EmptyString ∉ split_on "/"%char value ∧
  (∀ l r, value ≠ l +:+ (".." +:+ r)) ∧ (∀ l r, value ≠ l +:+ ("@{" +:+ r)) ∧
  (∀ l, value ≠ l +:+ ".") ∧ (∀ l, value ≠ l +:+ ".lock") ∧ (∀ l r, value ≠ l +:+ ("/." +:+ r)) ∧
  (∀ c, c ∈ chars value → (32 ≤ c ∧ c ≠ 127)%N ∧ c ∉ [32; 126; 94; 58; 63; 42; 91; 92]%N).

Lemma contains_str_false p s : contains_str p s = false ↔ ∀ l r, s ≠ l +:+ (p +:+ r).
Proof. rewrite <-not_true_iff_false, contains_str_true. naive_solver. Qed.

Lemma ends_with_false p s : ends_with p s = false ↔ ∀ l, s ≠ l +:+ p.
Proof. rewrite <-not_true_iff_false, ends_with_true. naive_solver. Qed.

Lemma starts_with_dash_false s : starts_with "-" s = false ↔ ∀ rest, s ≠ String "-" rest.
Proof. rewrite <-not_true_iff_false, starts_with_true. naive_solver. Qed.

(** The three tests on slashes and the emptiness test say that no component is
    empty. *)
Lemma no_empty_component value :
  value ≠ EmptyString ∧ starts_with "/" value || ends_with "/" value || contains_str "//" value = false ↔
  EmptyString ∉ split_on "/"%char value.
Proof. rewrite split_on_empty_iff, !orb_false_iff, <-!not_true_iff_false. tauto. Qed.

Lemma requested_base_plain value b :
  requested_base_parse value = Ok b ↔ b = mk_requested value ∧ plain_ref_name value.
Proof.
  unfold requested_base_parse, plain_ref_name, is_empty.
  rewrite <-no_empty_component, <-starts_with_dash_false, <-!contains_str_false, <-!ends_with_false.
  assert ((∀ c, c ∈ chars value → (32 ≤ c ∧ c ≠ 127)%N ∧ c ∉ [32; 126; 94; 58; 63; 42; 91; 92]%N) ↔
          find_map refused_char (chars value) = None) as ->.
  { rewrite find_map_None. by setoid_rewrite refused_char_None. }
  destruct (String.eqb_spec value EmptyString) as [|Hne]; [naive_solver|].
  destruct (Nat.ltb_spec MAX_LEN (String.length value)); [split; [done|intros (? & ? & _); lia]|].
  destruct (starts_with "-" value); [naive_solver|].
  destruct (starts_with "/" value || _ || _); [naive_solver|].
  destruct (ends_with "." value), (ends_with ".lock" value), (contains_str "/." value);
    cbn [orb]; try naive_solver.
  destruct (contains_str ".." value), (contains_str "@{" value); cbn [orb]; try naive_solver.
  destruct (find_map refused_char (chars value)); naive_solver.
Qed.

Lemma resolved_base_Ok value b :
  resolved_base_parse value = Ok b ↔
  b = mk_resolved value ∧ (String.length value = 40 ∨ String.length value = 64) ∧
  all_bytes canonical_hex value = true.
Proof.
  unfold resolved_base_parse.
  destruct (Nat.eqb_spec (String.length value) 40), (Nat.eqb_spec (String.length value) 64),
    (all_bytes canonical_hex value); cbn; naive_solver.
Qed.

(** A canonical hexadecimal digit is the spelling of its value. *)
Lemma canonical_hex_char b :
  canonical_hex b = true → ∃ n, (n < 16)%N ∧ hex_char n = b.
Proof.
  unfold canonical_hex. intros [H|H]%orb_true_iff; unfold in_range in H; bool_split.
  - exists (byte_val b - 48)%N. split; [lia|]. unfold hex_char.
    destruct (N.ltb_spec (byte_val b - 48) 10); [|lia]. apply byte_of_eq. lia.
  - exists (byte_val b - 87)%N. split; [lia|]. unfold hex_char.
    destruct (N.ltb_spec (byte_val b - 87) 10); [lia|]. apply byte_of_eq. lia.
Qed.

Lemma hex_char_canonical n : (n < 16)%N → canonical_hex (hex_char n) = true.
Proof.
  intros Hn. unfold hex_char, canonical_hex, in_range.
  destruct (N.ltb_spec n 10); rewrite byte_val_of by lia; bool_lia; done.
Qed.

Lemma hex_of_bytes_canonical s : all_bytes canonical_hex (hex_of_bytes s) = true.
Proof.
  induction s as [|b s IH]; [done|]. cbn [hex_of_bytes all_bytes].
  destruct (nibbles_lt (byte_val b) (byte_val_lt b)) as [H1 H2].
  by rewrite !hex_char_canonical, IH.
Qed.

(** Canonical hexadecimal text of even length spells a sequence of bytes. *)
Lemma canonical_hex_bytes n s :
  String.length s = 2 * n → all_bytes canonical_hex s = true →
  ∃ bytes, s = hex_of_bytes bytes ∧ String.length bytes = n.
Proof.
  revert s; induction n as [|n IH]; intros s Hlen Hc.
  - destruct s; [by exists EmptyString | done].
  - destruct s as [|h [|l s]]; cbn in Hlen; [lia|lia|]. cbn [all_bytes] in Hc. split_andb.
    destruct (canonical_hex_char h) as (hi & Hhi & <-); [done|].
    destruct (canonical_hex_char l) as (lo & Hlo & <-); [done|].
    destruct (IH s) as (bytes & -> & Hn); [lia|done|].
    exists (String (byte_of (hi * 16 + lo)) bytes). cbn [hex_of_bytes]. split; [|cbn; lia].
    rewrite byte_val_of by lia. rewrite N.shiftr_div_pow2. change 15%N with (N.ones 4).
    rewrite N.land_ones. change (2 ^ 4)%N with 16%N.
    replace ((hi * 16 + lo) / 16)%N with hi by lia. by replace ((hi * 16 + lo) mod 16)%N with lo by lia.
Qed.

(** The accepted object names are exactly the lowercase hexadecimal spellings of
    20 or 32 bytes, one for each. *)
Lemma resolved_base_spelling value b :
  resolved_base_parse value = Ok b ↔
  b = mk_resolved value ∧
  ∃ bytes, value = hex_of_bytes bytes ∧ (String.length bytes = 20 ∨ String.length bytes = 32).
Proof.
  rewrite resolved_base_Ok. split.
  - intros (-> & [Hl|Hl] & Hc); (split; [done|]).
    + destruct (canonical_hex_bytes 20 value) as (bytes & -> & Hn); [done|done|]. eauto.
    + destruct (canonical_hex_bytes 32 value) as (bytes & -> & Hn); [done|done|]. eauto.
  - intros (-> & bytes & -> & Hn). split; [done|]. rewrite length_hex_of_bytes. split; [lia|].
    apply hex_of_bytes_canonical.
Qed.

(** ** Claims *)

(** a requested base is accepted exactly when it is a plain ref name, so it
    can be handed to Git verbatim: not an option, of bounded length, no empty
    component, no revision expression, no reserved ending and no control or
    Git-reserved character; the text is kept unchanged. *)
Theorem requested_base_exact value b :
  requested_base_parse value = Ok b ↔ b = mk_requested value ∧ plain_ref_name value.
Proof. apply requested_base_plain. Qed.

(** a resolved base is exactly the lowercase hexadecimal spelling of a 20 or
    32 byte object name: a ref, an abbreviation or a second spelling of the same
    object is never recorded. *)
Theorem resolved_base_exact value b :
  resolved_base_parse value = Ok b ↔
  b = mk_resolved value ∧
  ∃ bytes, value = hex_of_bytes bytes ∧ (String.length bytes = 20 ∨ String.length bytes = 32).
Proof. apply resolved_base_spelling. Qed.
