(* ===== verification/Sandbox.v ===== *)
(** * Sandboxes and attempt lineage
      ([pantheon-core/src/sandbox.rs], [pantheon-core/src/attempt.rs])

    Lifecycle phases and observations with their stored spellings, sandbox keys,
    the provider-neutral plan and its identity, and the verification facts. *)

From Stdlib Require Import ZArith Ascii Lia.
From S2P Require Import Prelude Utf8 Canonical Parse ParseFacts Digest.

(** ** Attempts *)

Inductive Observation : Type := ObsAbsent | ObsStarting | ObsRunning | ObsExited | ObsUnknown.

#[export] Instance Observation_eq_dec : EqDecision Observation.
Proof. solve_decision. Defined.

Definition observation_as_str (o : Observation) : string :=
  match o with
  | ObsAbsent => "ABSENT"
  | ObsStarting => "STARTING"
  | ObsRunning => "RUNNING"
  | ObsExited => "EXITED"
  | ObsUnknown => "UNKNOWN"
  end.

Definition observation_parse (text : string) : option Observation :=
  if String.eqb text "ABSENT" then Some ObsAbsent
  else if String.eqb text "STARTING" then Some ObsStarting
  else if String.eqb text "RUNNING" then Some ObsRunning
  else if String.eqb text "EXITED" then Some ObsExited
  else if String.eqb text "UNKNOWN" then Some ObsUnknown
  else None.

Inductive LaunchContactState : Type := NotContacted | ContactMayHaveOccurred.

#[export] Instance LaunchContactState_eq_dec : EqDecision LaunchContactState.
Proof. solve_decision. Defined.

Definition launch_contact_as_str (l : LaunchContactState) : string :=
  match l with
  | NotContacted => "NOT_CONTACTED"
  | ContactMayHaveOccurred => "CONTACT_MAY_HAVE_OCCURRED"
  end.

Definition launch_contact_parse (text : string) : option LaunchContactState :=
  if String.eqb text "NOT_CONTACTED" then Some NotContacted
  else if String.eqb text "CONTACT_MAY_HAVE_OCCURRED" then Some ContactMayHaveOccurred
  else None.

(** ** Sandbox lifecycle *)

Inductive SandboxPhase : Type :=
| SbRequested | SbPreparing | SbReady | SbReleasing | SbReleased | SbError.

#[export] Instance SandboxPhase_eq_dec : EqDecision SandboxPhase.
Proof. solve_decision. Defined.

Definition sandbox_phase_as_str (p : SandboxPhase) : string :=
  match p with
  | SbRequested => "Requested"
  | SbPreparing => "Preparing"
  | SbReady => "Ready"
  | SbReleasing => "Releasing"
  | SbReleased => "Released"
  | SbError => "Error"
  end.

Definition sandbox_phase_parse (text : string) : option SandboxPhase :=
  if String.eqb text "Requested" then Some SbRequested
  else if String.eqb text "Preparing" then Some SbPreparing
  else if String.eqb text "Ready" then Some SbReady
  else if String.eqb text "Releasing" then Some SbReleasing
  else if String.eqb text "Released" then Some SbReleased
  else if String.eqb text "Error" then Some SbError
  else None.

Inductive SandboxPresence : Type := SbPresent | SbAbsent | SbUnknown.

#[export] Instance SandboxPresence_eq_dec : EqDecision SandboxPresence.
Proof. solve_decision. Defined.

Definition sandbox_presence_as_str (p : SandboxPresence) : string :=
  match p with
  | SbPresent => "Present"
  | SbAbsent => "Absent"
  | SbUnknown => "Unknown"
  end.

Definition sandbox_presence_parse (text : string) : option SandboxPresence :=
  if String.eqb text "Present" then Some SbPresent
  else if String.eqb text "Absent" then Some SbAbsent
  else if String.eqb text "Unknown" then Some SbUnknown
  else None.

Record SandboxKey : Type := mk_sandbox_key { sandbox_key_text : string }.
Inductive SandboxKeyError : Type := KeyEmpty | KeyTooLong.

(** [SandboxKey::new]. *)
Definition sandbox_key_new (value : string) : Result SandboxKey SandboxKeyError :=
  if is_empty value then Err KeyEmpty
  else if Nat.ltb 128 (String.length value) then Err KeyTooLong
  else Ok (mk_sandbox_key value).

(** ** The plan *)

Record SandboxMount : Type := {
  mount_source : string;
  mount_destination : string;
  mount_read_only : bool
}.

Inductive SandboxNetworkMode : Type := SbNetNone | SbNetBrokered.

Definition sandbox_network_as_str (m : SandboxNetworkMode) : string :=
  match m with
  | SbNetNone => "NONE"
  | SbNetBrokered => "BROKERED"
  end.

Record SandboxPlan : Type := {
  spl_sandbox_profile_digest : Digest;
  spl_environment_identity : string;
  spl_mounts : list SandboxMount;
  spl_network_mode : SandboxNetworkMode;
  spl_cpu_limit_millicores : option Z;
  spl_memory_limit_mb : option Z
}.

Definition mount_value (m : SandboxMount) : Value :=
  object [("source", Str (mount_source m)); ("destination", Str (mount_destination m));
          ("readOnly", Bool (mount_read_only m))].

Definition limit_value (l : option Z) : Value :=
  match l with
  | Some v => Integer v
  | None => Null
  end.

Definition sandbox_plan_value (p : SandboxPlan) : Value :=
  object [
    ("sandboxProfileDigest", Str (to_display (spl_sandbox_profile_digest p)));
    ("environmentIdentity", Str (spl_environment_identity p));
    ("mounts", Array (map mount_value (spl_mounts p)));
    ("networkMode", Str (sandbox_network_as_str (spl_network_mode p)));
    ("cpuLimitMillicores", limit_value (spl_cpu_limit_millicores p));
    ("memoryLimitMb", limit_value (spl_memory_limit_mb p))].

Definition sandbox_plan_digest `{Sha256} (p : SandboxPlan) : Digest :=
  value_digest (sandbox_plan_value p).

(** ** Verification *)

Record SandboxProbeResult : Type := {
  probe_name : string;
  probe_expected : string;
  probe_observed : string;
  probe_passed : bool
}.

Record SandboxVerification : Type := {
  sv_sandbox_key : SandboxKey;
  sv_holder_id : string;
  sv_environment_identity : string;
  sv_mounts_verified : bool;
  sv_network_mode_verified : bool;
  sv_privilege_verified : bool;
  sv_capability_verified : bool;
  sv_agent_control_route_verified : bool;
  sv_workspace_binding_verified : bool;
  sv_resource_limits_verified : bool;
  sv_seccomp_active_verified : bool;
  sv_host_pid_hidden_verified : bool;
  sv_host_user_namespace_verified : bool;
  sv_host_mount_namespace_verified : bool;
  sv_cloud_metadata_unreachable_verified : bool;
  sv_dns_resolution_denied_verified : bool;
  sv_forbidden_mounts_absent_verified : bool;
  sv_runtime_socket_absent_verified : bool;
  sv_cross_attempt_isolation_verified : bool;
  sv_control_plane_unreachable_verified : bool;
  sv_probe_results : list SandboxProbeResult;
  sv_backend_descriptor : string;
  sv_backend_version : string;
  sv_platform : string;
  sv_architecture : string;
  sv_probe_implementation_version : string
}.

Definition all_passed (v : SandboxVerification) : bool :=
  sv_mounts_verified v && sv_network_mode_verified v && sv_privilege_verified v
  && sv_capability_verified v && sv_agent_control_route_verified v
  && sv_workspace_binding_verified v && sv_resource_limits_verified v
  && sv_seccomp_active_verified v && sv_host_pid_hidden_verified v
  && sv_host_user_namespace_verified v && sv_host_mount_namespace_verified v
  && sv_cloud_metadata_unreachable_verified v && sv_dns_resolution_denied_verified v
  && sv_forbidden_mounts_absent_verified v && sv_runtime_socket_absent_verified v
  && sv_cross_attempt_isolation_verified v && sv_control_plane_unreachable_verified v.

(** ** Lemmas *)

Definition wf_limit (l : option Z) : bool :=
  match l with
  | Some v => in_u32 v
  | None => true
  end.

Definition wf_sandbox_plan (p : SandboxPlan) : bool :=
  wf_digest (spl_sandbox_profile_digest p) && utf8_valid (spl_environment_identity p)
  && forallb (fun m => utf8_valid (mount_source m) && utf8_valid (mount_destination m)) (spl_mounts p)
  && wf_limit (spl_cpu_limit_millicores p) && wf_limit (spl_memory_limit_mb p).

Lemma limit_value_wf l : wf_limit l = true → wf_value (limit_value l) = true.
Proof. destruct l; cbn; [apply in_u32_i64 | done]. Qed.

Lemma limit_value_inj l1 l2 : limit_value l1 = limit_value l2 → l1 = l2.
Proof. destruct l1, l2; cbn; congruence. Qed.

Lemma sandbox_plan_value_wf p : wf_sandbox_plan p = true → wf_value (sandbox_plan_value p) = true.
Proof.
  unfold wf_sandbox_plan, sandbox_plan_value. intros H. split_andb.
  apply limit_value_wf in H0, H1. wf_parts.
  - eapply forallb_True in H2; [|done]. split_andb. unfold mount_value. wf_parts.
  - by destruct (spl_network_mode p).
Qed.

Lemma mount_value_inj m n : mount_value m = mount_value n → m = n.
Proof.
  unfold mount_value. intros H. field_eq H "source". field_eq H "destination". field_eq H "readOnly".
  destruct m, n; cbn in *. by subst.
Qed.

Lemma sandbox_plan_value_inj p q :
  wf_sandbox_plan p = true → wf_sandbox_plan q = true →
  sandbox_plan_value p = sandbox_plan_value q → p = q.
Proof.
  unfold wf_sandbox_plan, sandbox_plan_value. intros Hp Hq Heq. split_andb.
  field_eq Heq "sandboxProfileDigest". field_eq Heq "environmentIdentity". field_eq Heq "mounts".
  field_eq Heq "networkMode". field_eq Heq "cpuLimitMillicores". field_eq Heq "memoryLimitMb".
  apply to_display_inj in E; [|done..]. apply array_map_inj in E1; [|exact mount_value_inj].
  apply limit_value_inj in E3, E4.
  assert (spl_network_mode p = spl_network_mode q)
    by (by destruct (spl_network_mode p), (spl_network_mode q)).
  destruct p, q; cbn in *. by subst.
Qed.

(** The digest of a plan identifies it, up to a hash collision. *)
Lemma sandbox_plan_identity `{Sha256} p q :
  wf_sandbox_plan p = true → wf_sandbox_plan q = true →
  sandbox_plan_digest p = sandbox_plan_digest q → 
  p = q ∨ clash (to_canonical_bytes (sandbox_plan_value p)) (to_canonical_bytes (sandbox_plan_value q)).
Proof.
  intros Hp Hq Hd. apply value_digest_eq in Hd as [Heq|?];
    [left; by apply sandbox_plan_value_inj | by right | by apply sandbox_plan_value_wf..].
Qed.
