(* ===== verification/Pipeline.v ===== *)
(** * Across components

    What the parts guarantee together: a compiled configuration is stored as
    canonical records, read back by the planner's evaluator registry, by the
    context builder and by guidance extraction; and a validated Task's compiled
    scope stays inside its Goal's. *)

From Stdlib Require Import ZArith Ascii.
From S2P Require Import Prelude Utf8 Canonical Parse ParseFacts Digest Goal Task Proposal Validate.
From S2P Require Import Artifact Scope Candidate ConfigModel Compile CompileFacts Scheduling ContextPlan.

(** ** The stored registry *)

Lemma registry_entries_of_refs refs :
  omap registry_entry (map evaluator_ref_value refs) =
  map (fun r => (er_reference r, er_current_version r)) refs.
Proof. induction refs as [|[r v] refs IH]; [done|]. cbn [map omap list_omap]. rewrite <-IH. done. Qed.

Lemma registry_of_component c :
  wf_evaluators c = true →
  registry_from_canonical_json (to_canonical_bytes (component_value c)) =
    Ok {| registry_entries := map (fun r => (er_reference r, er_current_version r)) (evaluator_refs c) |}.
Proof.
  intros Hw. unfold registry_from_canonical_json.
  rewrite parse_write by by apply evaluators_value_wf. cbn [try_bind].
  unfold component_value, evaluator_component. get_fields. by rewrite registry_entries_of_refs.
Qed.

Lemma registry_resolves refs r :
  NoDup (map er_reference refs) → r ∈ refs →
  resolve (registry_resolver {| registry_entries :=
    map (fun r => (er_reference r, er_current_version r)) refs |}) (er_reference r)
  = Some (er_current_version r).
Proof.
  intros Hnd Hr. cbn. rewrite find_first_map. cbn [fst].
  destruct (find_first (fun x => String.eqb (er_reference x) (er_reference r)) refs) as [x|] eqn:E.
  - apply find_first_Some in E as [Hx Hn%String.eqb_eq].
    by rewrite (NoDup_map_inj er_reference refs x r Hnd Hx Hr Hn).
  - rewrite find_first_None in E. specialize (E _ Hr). by rewrite String.eqb_refl in E.
Qed.

(** The stored text of a domain's record. *)
Definition stored_text `{Sha256} (c : CompiledConfiguration) (domain : string) : option string :=
  snd <$> find_first (fun r => String.eqb r.1.1 domain) (component_records c).

(** ** Claims *)

(** evaluator pinning closes end to end: for any configuration that compiles,
    the evaluators record the store keeps parses as a registry that resolves
    every declared reference to its current version, and that version is
    declared, with a declared sandbox profile. *)
Theorem stored_evaluators_resolve `{Sha256} source c :
  compile source = Ok c →
  ∃ text registry, stored_text c "evaluators" = Some text ∧
    registry_from_canonical_json text = Ok registry ∧
    ∀ r, r ∈ evaluator_refs (cfg_evaluators c) →
      resolve (registry_resolver registry) (er_reference r) = Some (er_current_version r) ∧
      ∃ v p, v ∈ evaluator_versions (cfg_evaluators c) ∧ ev_id v = er_current_version r ∧
        p ∈ profiles (cfg_execution c) ∧ sp_name p = ev_sandbox_profile v.
Proof.
  intros Hc%compile_Ok. pose proof (cg_evaluators_wf c Hc) as Hw.
  eexists. eexists. split; [|split].
  - unfold stored_text, component_records. cbn -[record_of].
    rewrite (record_of_spec "evaluators" (cfg_evaluators c)) by by apply evaluators_value_wf.
    reflexivity.
  - by apply registry_of_component.
  - intros r Hr. split; [by apply registry_resolves; [apply cg_refs|]|].
    destruct (con_refs c (cg_consistent c Hc) r Hr) as (v & Hv & Hid).
    destruct (con_versions c (cg_consistent c Hc) v Hv) as (p & Hp & Hn). eauto 10.
Qed.

Lemma stored_evaluators_resolve_witness :
  ∃ text registry, @stored_text prefix_hash sample_compiled "evaluators" = Some text ∧
    registry_from_canonical_json text = Ok registry ∧
    ∀ r, r ∈ evaluator_refs (cfg_evaluators sample_compiled) →
      resolve (registry_resolver registry) (er_reference r) = Some (er_current_version r) ∧
      ∃ v p, v ∈ evaluator_versions (cfg_evaluators sample_compiled) ∧ ev_id v = er_current_version r ∧
        p ∈ profiles (cfg_execution sample_compiled) ∧ sp_name p = ev_sandbox_profile v.
Proof. apply (@stored_evaluators_resolve prefix_hash sample_source). vm_compute. reflexivity. Defined.

(** guidance is frozen faithfully: from the stored agents record of any
    compiled configuration, extraction by exact name and version yields the SOUL
    and BEHAVIOR bodies that agent was compiled with. *)
Theorem stored_guidance_is_compiled_guidance `{Sha256} source c a :
  compile source = Ok c → a ∈ agents (cfg_agents c) →
  ∃ text value, stored_text c "agents" = Some text ∧ parse text = Ok value ∧
    frozen_agent_guidance value (identity a) =
      Ok {| guidance_soul := ag_soul a; guidance_behavior := ag_behavior a |}.
Proof.
  intros Hc%compile_Ok Ha. pose proof (cg_agents_wf c Hc) as Hw. apply agents_value_wf in Hw.
  eexists. eexists. split; [|split].
  - unfold stored_text, component_records. cbn -[record_of].
    rewrite (record_of_spec "agents" (cfg_agents c)) by done. reflexivity.
  - by apply parse_write.
  - pose proof (cg_agents c Hc a Ha) as Hg. apply frozen_agent_guidance_component; [|done|..].
    + apply con_identities, cg_consistent, Hc.
    + by destruct (gua_soul a Hg).
    + by destruct (gua_behavior a Hg).
Qed.

Definition sample_agent : Agent := Eval vm_compute in
  match agents (cfg_agents sample_compiled) with
  | a :: _ => a
  | [] => {| ag_name := EmptyString; ag_version := 0; ag_enabled := false; ag_current := false;
             ag_accepts := []; ag_competencies := []; ag_route_policy := EmptyString;
             ag_execution_features := []; ag_min_context_tokens := 0;
             ag_sandbox_profile := EmptyString; ag_sandbox_requirements := []; ag_actions := [];
             ag_soul := EmptyString; ag_behavior := EmptyString |}
  end.

Lemma stored_guidance_is_compiled_guidance_witness :
  ∃ text value, @stored_text prefix_hash sample_compiled "agents" = Some text ∧ parse text = Ok value ∧
    frozen_agent_guidance value (identity sample_agent) =
      Ok {| guidance_soul := "Careful."; guidance_behavior := "Tests first." |}.
Proof.
  apply (@stored_guidance_is_compiled_guidance prefix_hash sample_source sample_compiled sample_agent).
  - vm_compute. reflexivity.
  - left.
Defined.

(** the context policy a Run froze is the one that was compiled: the stored
    record decodes to exactly the compiled context component. *)
Theorem stored_context_policy_decodes `{Sha256} source c :
  compile source = Ok c →
  ∃ text value, stored_text c "context" = Some text ∧ parse text = Ok value ∧
    context_from_canonical_value value = Ok (cfg_context c).
Proof.
  intros Hc%compile_Ok. pose proof (cg_context_wf c Hc) as Hw.
  eexists. eexists. split; [|split].
  - unfold stored_text, component_records. cbn -[record_of].
    rewrite (record_of_spec "context" (cfg_context c)) by by apply context_value_wf. reflexivity.
  - by apply parse_write, context_value_wf.
  - by apply context_from_value.
Qed.

Lemma stored_context_policy_decodes_witness :
  ∃ text value, @stored_text prefix_hash sample_compiled "context" = Some text ∧ parse text = Ok value ∧
    context_from_canonical_value value = Ok (cfg_context sample_compiled).
Proof. apply (@stored_context_policy_decodes prefix_hash sample_source). vm_compute. reflexivity. Defined.

(** C39: a validated Task never reaches outside its Goal: every repository path
    the Task's compiled scope authorizes is authorized by the Goal's permitted
    resources, and every effect it may have is permitted and not forbidden by
    the Goal. *)
Theorem validated_scope_within_goal `{Sha256} p a m tscope goal_scope path :
  validate p a = Ok m →
  scope_compile (scope_resources (task_scope (mat_spec m))) = Ok tscope →
  scope_compile (gc_permitted_resources (goal_constraints (au_goal a))) = Ok goal_scope →
  (authorizes tscope path = true → authorizes goal_scope path = true) ∧
  (∀ e, e ∈ scope_permitted_effects (task_scope (mat_spec m)) →
     e ∈ gc_permitted_effects (goal_constraints (au_goal a)) ∧
     e ∉ gc_forbidden_effects (goal_constraints (au_goal a))).
Proof.
  intros (task & cs & _ & _ & Hadm & ->)%validate_Ok Ht Hg. cbn in *. split.
  - by apply (scope_monotone _ _ _ _ path (adm_resources _ _ _ Hadm) Ht Hg).
  - apply (adm_effects _ _ _ Hadm).
Qed.

Definition sample_scope : WorkspaceScope :=
  {| scope_patterns := [{| pattern_segments := [Literal "src"; Many] |}] |}.

Lemma validated_scope_within_goal_witness :
  ∃ m, @validate prefix_hash (plan sample_input) sample_authority = Ok m ∧
    authorizes sample_scope (mk_path "src/a/b") = true ∧
    (authorizes sample_scope (mk_path "src/a/b") = true → authorizes sample_scope (mk_path "src/a/b") = true).
Proof.
  eexists. split; [vm_compute; reflexivity|]. split; [vm_compute; reflexivity|].
  eapply (@validated_scope_within_goal prefix_hash (plan sample_input) sample_authority);
    vm_compute; reflexivity.
Defined.
