(* ===== verification/Sql.v ===== *)
(** * The relational substrate of [pantheon-store]

    What the store's statements use of SQLite, as documented: rows of typed
    values, STRICT tables with NOT NULL, CHECK, PRIMARY KEY, UNIQUE (also partial)
    and FOREIGN KEY constraints enforced at the end of every statement, and the
    three statement forms the source issues (SELECT by equality, UPDATE, INSERT).
    The tables themselves are declared in the file of the schema. *)

From Stdlib Require Import ZArith Ascii Lia.
From S2P Require Import Prelude Utf8.

(** [transaction.rs]'s [Value]; a [f64] is its bit pattern. *)
Inductive SqlValue : Type :=
| SNull
| SInteger (i : Z)
| SReal (bits : Z)
| SText (s : string)
| SBlob (b : string).

#[export] Instance SqlValue_eq_dec : EqDecision SqlValue.
Proof. solve_decision. Defined.

Inductive SqliteError : Type :=
| NoSuchTable (table : string)
| NoSuchColumn (column : string)
| InvalidColumnType (column : string)
| DatatypeConstraint
| NotNullConstraint
| CheckConstraint
| PrimaryKeyConstraint
| UniqueConstraint
| ForeignKeyConstraint
| Busy
| IoFailure
| QueryReturnedNoRows.

#[export] Instance SqliteError_eq_dec : EqDecision SqliteError.
Proof. solve_decision. Defined.

(** ** Rows, tables, databases *)

Abbreviation Row := (gmap string SqlValue).
Abbreviation Database := (gmap string (list (gmap string SqlValue))).

Definition rows (db : Database) (table : string) : list Row := default [] (db !! table).

(** An absent column reads as NULL. *)
Definition column (r : Row) (c : string) : SqlValue := default SNull (r !! c).

Definition is_null (v : SqlValue) : bool := bool_decide (v = SNull).

(** [c = v] in a WHERE clause: NULL is equal to nothing. *)
Definition col_is (c : string) (v : SqlValue) (r : Row) : bool :=
  negb (is_null v) && bool_decide (column r c = v).

(** [length(v)]: the characters of a text before its first NUL, the bytes of a
    blob; NULL has no length. *)
Fixpoint until_nul (cs : list N) : nat :=
  match cs with
  | [] => 0
  | c :: rest => if (c =? 0)%N then 0 else S (until_nul rest)
  end.

Definition sql_length (v : SqlValue) : option nat :=
  match v with
  | SText s => Some (until_nul (chars s))
  | SBlob b => Some (String.length b)
  | _ => None
  end.

(** ** Three-valued conditions

    [None] is the unknown truth value a comparison with NULL has. *)

Definition not3 (p : option bool) : option bool := negb <$> p.

Definition and3 (p q : option bool) : option bool :=
  match p, q with
  | Some false, _ | _, Some false => Some false
  | Some true, Some true => Some true
  | _, _ => None
  end.

Definition or3 (p q : option bool) : option bool :=
  match p, q with
  | Some true, _ | _, Some true => Some true
  | Some false, Some false => Some false
  | _, _ => None
  end.

Definition eq3 (v w : SqlValue) : option bool :=
  if is_null v || is_null w then None else Some (bool_decide (v = w)).

Definition in3 (v : SqlValue) (texts : list string) : option bool :=
  match v with
  | SNull => None
  | SText s => Some (contains texts s)
  | _ => Some false
  end.

Definition is_null3 (v : SqlValue) : option bool := Some (is_null v).

(** [v >= n]; INTEGER columns only. *)
Definition ge3 (v : SqlValue) (n : Z) : option bool :=
  match v with
  | SInteger m => Some (n <=? m)%Z
  | _ => None
  end.

(** [length(v) BETWEEN lo AND hi]. *)
Definition length3 (lo hi : nat) (v : SqlValue) : option bool :=
  (fun n => Nat.leb lo n && Nat.leb n hi) <$> sql_length v.

(** A CHECK is violated by a false condition only; an unknown one passes. *)
Definition check_passes (p : option bool) : bool := negb (bool_decide (p = Some false)).

(** [v + 1] on an INTEGER; past the range the result is a REAL. *)
Definition sql_increment (v : SqlValue) : SqlValue :=
  match v with
  | SInteger n => if in_i64 (n + 1) then SInteger (n + 1) else SReal 4890909195324358656
  | other => other
  end.

(** ** Schemas *)

Inductive ColumnType : Type := TInteger | TText | TBlob.

#[export] Instance ColumnType_eq_dec : EqDecision ColumnType.
Proof. solve_decision. Defined.

Record UniqueKey : Type := {
  uk_columns : list string;
  uk_where : Row → bool;
  uk_primary : bool
}.

Record ForeignKey : Type := {
  fk_columns : list string;
  fk_table : string;
  fk_parent : list string
}.

Record TableSchema : Type := {
  ts_name : string;
  ts_columns : list (string * (ColumnType * bool));
  ts_checks : list (Row → option bool);
  ts_keys : list UniqueKey;
  ts_foreign : list ForeignKey
}.

Definition Schema : Type := list TableSchema.

Definition table_schema (schema : Schema) (table : string) : option TableSchema :=
  find_first (fun t => String.eqb (ts_name t) table) schema.

Definition column_names (t : TableSchema) : list string := map fst (ts_columns t).

(** STRICT typing; the statements of the source never rely on a coercion. *)
Definition type_violation (t : TableSchema) (r : Row) : option SqliteError :=
  find_map (fun c : string * (ColumnType * bool) =>
    match column r c.1, c.2 with
    | SNull, (_, true) => Some NotNullConstraint
    | SNull, (_, false) => None
    | SInteger n, (TInteger, _) => if in_i64 n then None else Some DatatypeConstraint
    | SText s, (TText, _) => if utf8_valid s then None else Some DatatypeConstraint
    | SBlob _, (TBlob, _) => None
    | _, _ => Some DatatypeConstraint
    end) (ts_columns t).

Definition row_violation (t : TableSchema) (r : Row) : option SqliteError :=
  match type_violation t r with
  | Some e => Some e
  | None =>
      if forallb (fun check => check_passes (check r)) (ts_checks t) then None
      else Some CheckConstraint
  end.

(** The tuple a key compares; a tuple with a NULL is distinct from every other. *)
Definition key_tuple (cols : list string) (r : Row) : option (list SqlValue) :=
  if existsb (fun c => is_null (column r c)) cols then None else Some (map (column r) cols).

Definition key_tuples (k : UniqueKey) (t : list Row) : list (list SqlValue) :=
  omap (key_tuple (uk_columns k)) (List.filter (uk_where k) t).

Definition key_violation (t : list Row) (k : UniqueKey) : option SqliteError :=
  if bool_decide (NoDup (key_tuples k t)) then None
  else Some (if uk_primary k then PrimaryKeyConstraint else UniqueConstraint).

Definition foreign_violation (db : Database) (r : Row) (k : ForeignKey) : option SqliteError :=
  match key_tuple (fk_columns k) r with
  | None => None
  | Some tuple =>
      if existsb (fun p => bool_decide (key_tuple (fk_parent k) p = Some tuple)) (rows db (fk_table k))
      then None else Some ForeignKeyConstraint
  end.

Definition table_violation (db : Database) (t : TableSchema) : option SqliteError :=
  match find_map (row_violation t) (rows db (ts_name t)) with
  | Some e => Some e
  | None => find_map (key_violation (rows db (ts_name t))) (ts_keys t)
  end.

Definition reference_violation (db : Database) (t : TableSchema) : option SqliteError :=
  find_map (fun r => find_map (foreign_violation db r) (ts_foreign t)) (rows db (ts_name t)).

(** The first constraint the database does not satisfy. *)
Definition violation (schema : Schema) (db : Database) : option SqliteError :=
  match find_map (table_violation db) schema with
  | Some e => Some e
  | None => find_map (reference_violation db) schema
  end.

Definition valid (schema : Schema) (db : Database) : Prop := violation schema db = None.

(** ** Statements *)

Section Statements.
Variable schema : Schema.

(** A statement takes effect when the database it would leave is valid, and has
    no effect otherwise. *)
Definition settle {A} (db' : Database) (a : A) : Result (A * Database) SqliteError :=
  match violation schema db' with
  | Some e => Err e
  | None => Ok (a, db')
  end.

Definition known_columns (t : TableSchema) (cols : list string) : Result unit SqliteError :=
  for_each (fun c => if contains (column_names t) c then Ok tt else Err (NoSuchColumn c)) cols.

(** [SELECT * FROM table WHERE where], in row order. *)
Definition select (db : Database) (table : string) (cols : list string) (where_ : Row → bool) :
    Result (list Row) SqliteError :=
  let? t := ok_or (table_schema schema table) (NoSuchTable table) in
  do? known_columns t cols in
  Ok (List.filter where_ (rows db table)).

(** [UPDATE table SET ... WHERE where]: the rows affected and the new database. *)
Definition update (db : Database) (table : string) (cols : list string) (where_ : Row → bool)
    (set : Row → Row) : Result (nat * Database) SqliteError :=
  let? t := ok_or (table_schema schema table) (NoSuchTable table) in
  do? known_columns t cols in
  settle (<[table := map (fun r => if where_ r then set r else r) (rows db table)]> db)
    (length (List.filter where_ (rows db table))).

(** [INSERT INTO table (...) VALUES (...)]. *)
Definition insert_row (db : Database) (table : string) (r : list (string * SqlValue)) :
    Result (nat * Database) SqliteError :=
  let? t := ok_or (table_schema schema table) (NoSuchTable table) in
  do? known_columns t (map fst r) in
  settle (<[table := rows db table ++ [list_to_map r]]> db) 1.
End Statements.

(** ** Lemmas *)

Lemma rows_insert db table l : rows (<[table := l]> db) table = l.
Proof. unfold rows. by rewrite lookup_insert_eq. Qed.

Lemma rows_insert_ne db t1 t2 l : t1 ≠ t2 → rows (<[t1 := l]> db) t2 = rows db t2.
Proof. intros H. unfold rows. by rewrite lookup_insert_ne. Qed.

Lemma column_insert r c v : column (<[c := v]> r) c = v.
Proof. unfold column. by rewrite lookup_insert_eq. Qed.

Lemma column_insert_ne r c d v : c ≠ d → column (<[c := v]> r) d = column r d.
Proof. intros H. unfold column. by rewrite lookup_insert_ne. Qed.

Lemma col_is_true c v r : col_is c v r = true ↔ v ≠ SNull ∧ column r c = v.
Proof.
  unfold col_is, is_null. rewrite andb_true_iff, negb_true_iff, bool_decide_eq_false, bool_decide_eq_true.
  done.
Qed.

Lemma settle_Ok {A} schema db (a : A) r :
  settle schema db a = Ok r ↔ valid schema db ∧ r = (a, db).
Proof. unfold settle, valid. destruct (violation schema db); naive_solver. Qed.

Lemma update_Ok schema db table cols where_ set n db' :
  update schema db table cols where_ set = Ok (n, db') →
  n = length (List.filter where_ (rows db table)) ∧ valid schema db' ∧
  db' = <[table := map (fun r => if where_ r then set r else r) (rows db table)]> db.
Proof.
  unfold update. intros H. apply try_bind_Ok in H as (t & _ & H).
  apply try_bind_Ok in H as ([] & _ & H). apply settle_Ok in H as [Hv [= -> ->]]. done.
Qed.

Lemma insert_row_Ok schema db table r n db' :
  insert_row schema db table r = Ok (n, db') →
  n = 1 ∧ valid schema db' ∧ db' = <[table := rows db table ++ [list_to_map r]]> db.
Proof.
  unfold insert_row. intros H. apply try_bind_Ok in H as (t & _ & H).
  apply try_bind_Ok in H as ([] & _ & H). apply settle_Ok in H as [Hv [= -> ->]]. done.
Qed.

Lemma select_Ok schema db table cols where_ l :
  select schema db table cols where_ = Ok l → l = List.filter where_ (rows db table).
Proof.
  unfold select. intros H. apply try_bind_Ok in H as (t & _ & H).
  apply try_bind_Ok in H as ([] & _ & [= <-]). done.
Qed.

(** What validity says of one declared table. *)
Lemma valid_rows schema db t r :
  valid schema db → t ∈ schema → r ∈ rows db (ts_name t) →
  type_violation t r = None ∧ ∀ check, check ∈ ts_checks t → check r ≠ Some false.
Proof.
  unfold valid, violation. intros Hv Ht Hr.
  destruct (find_map (table_violation db) schema) eqn:E; [done|].
  rewrite find_map_None in E. specialize (E t Ht). unfold table_violation in E.
  destruct (find_map (row_violation t) (rows db (ts_name t))) eqn:Er; [done|].
  rewrite find_map_None in Er. specialize (Er r Hr). unfold row_violation in Er.
  destruct (type_violation t r); [done|]. destruct (forallb _ (ts_checks t)) eqn:Ec; [|done].
  split; [done|]. intros check Hc. eapply forallb_True in Ec; [|exact Hc].
  unfold check_passes in Ec. by apply negb_true_iff, bool_decide_eq_false in Ec.
Qed.

Lemma valid_key schema db t k :
  valid schema db → t ∈ schema → k ∈ ts_keys t → NoDup (key_tuples k (rows db (ts_name t))).
Proof.
  unfold valid, violation. intros Hv Ht Hk.
  destruct (find_map (table_violation db) schema) eqn:E; [done|].
  rewrite find_map_None in E. specialize (E t Ht). unfold table_violation in E.
  destruct (find_map (row_violation t) (rows db (ts_name t))); [done|].
  rewrite find_map_None in E. specialize (E k Hk). unfold key_violation in E.
  by case_bool_decide.
Qed.

(** A STRICT INTEGER column never holds a REAL. *)
Lemma valid_integer schema db table t c nn r bits :
  valid schema db → table_schema schema table = Some t → (c, (TInteger, nn)) ∈ ts_columns t →
  r ∈ rows db table → column r c ≠ SReal bits.
Proof.
  intros Hv Ht Hc Hr Heq. apply find_first_Some in Ht as [Hin <-%String.eqb_eq].
  destruct (valid_rows schema db t r Hv Hin Hr) as [Hty _].
  unfold type_violation in Hty. rewrite find_map_None in Hty. specialize (Hty _ Hc). cbn in Hty.
  by rewrite Heq in Hty.
Qed.
