(* ===== verification/Schema.v ===== *)
(** * The database schema ([pantheon-store/src/migrations.rs])

    The tables the sixteen migrations leave, with the constraints their
    statements declare (for a table a later migration rebuilds or extends, the
    final ones), and the database the bootstrap migrations put in it. *)

From Stdlib Require Import ZArith Ascii Lia.
From S2P Require Import Prelude Utf8 Sql.

Definition required_column (c : string) (t : ColumnType) : string * (ColumnType * bool) := (c, (t, true)).
Definition nullable_column (c : string) (t : ColumnType) : string * (ColumnType * bool) := (c, (t, false)).

Definition primary_key (cols : list string) : UniqueKey :=
  {| uk_columns := cols; uk_where := fun _ => true; uk_primary := true |}.
Definition unique_key (cols : list string) : UniqueKey :=
  {| uk_columns := cols; uk_where := fun _ => true; uk_primary := false |}.
Definition unique_where (cols : list string) (p : Row → bool) : UniqueKey :=
  {| uk_columns := cols; uk_where := p; uk_primary := false |}.
Definition references (cols : list string) (table : string) (parent : list string) : ForeignKey :=
  {| fk_columns := cols; fk_table := table; fk_parent := parent |}.

Definition digest_column (c : string) (r : Row) : option bool := length3 32 32 (column r c).
Definition at_least (c : string) (n : Z) (r : Row) : option bool := ge3 (column r c) n.
Definition one_of (c : string) (texts : list string) (r : Row) : option bool := in3 (column r c) texts.

(** ** Migrations 1 and 3: identity, journal, commands *)

Definition system_state_table : TableSchema := {|
  ts_name := "system_state";
  ts_columns := [required_column "id" TInteger; required_column "restore_generation" TText];
  ts_checks := [fun r => eq3 (column r "id") (SInteger 1);
                fun r => length3 32 32 (column r "restore_generation")];
  ts_keys := [primary_key ["id"]];
  ts_foreign := [] |}.

Definition journal_epochs_table : TableSchema := {|
  ts_name := "journal_epochs";
  ts_columns := [required_column "epoch" TText; required_column "next_sequence" TInteger;
                 required_column "is_current" TInteger];
  ts_checks := [fun r => length3 32 32 (column r "epoch"); at_least "next_sequence" 1;
                fun r => or3 (eq3 (column r "is_current") (SInteger 0))
                             (eq3 (column r "is_current") (SInteger 1))];
  ts_keys := [primary_key ["epoch"];
              unique_where ["is_current"] (col_is "is_current" (SInteger 1))];
  ts_foreign := [] |}.

Definition event_journal_table : TableSchema := {|
  ts_name := "event_journal";
  ts_columns := [required_column "event_id" TText; required_column "journal_epoch" TText;
                 required_column "sequence" TInteger; required_column "event_type" TText;
                 required_column "recorded_at" TInteger; nullable_column "command_epoch" TText;
                 nullable_column "command_id" TText];
  ts_checks := [fun r => length3 32 32 (column r "event_id"); at_least "sequence" 1;
                fun r => length3 1 128 (column r "event_type");
                fun r => Some (Bool.eqb (is_null (column r "command_epoch"))
                                        (is_null (column r "command_id")))];
  ts_keys := [primary_key ["event_id"]; unique_key ["journal_epoch"; "sequence"]];
  ts_foreign := [references ["journal_epoch"] "journal_epochs" ["epoch"]] |}.

Definition commands_table : TableSchema := {|
  ts_name := "commands";
  ts_columns := [required_column "command_epoch" TText; required_column "command_id" TText;
                 required_column "request_hash" TBlob; required_column "journal_epoch" TText;
                 required_column "sequence" TInteger; required_column "recorded_at" TInteger];
  ts_checks := [fun r => length3 32 32 (column r "command_epoch");
                fun r => length3 1 128 (column r "command_id"); digest_column "request_hash"];
  ts_keys := [primary_key ["command_epoch"; "command_id"]];
  ts_foreign := [] |}.

(** ** Migration 5: configuration *)

Definition configuration_components_table : TableSchema := {|
  ts_name := "configuration_components";
  ts_columns := [required_column "digest" TBlob; required_column "domain" TText; required_column "canonical_json" TText];
  ts_checks := [digest_column "digest";
                one_of "domain" ["agents"; "routing"; "executionProfiles"; "evaluators"; "context";
                                 "authorization"]];
  ts_keys := [primary_key ["digest"]];
  ts_foreign := [] |}.

Definition configuration_revisions_table : TableSchema := {|
  ts_name := "configuration_revisions";
  ts_columns := [required_column "activation_sequence" TInteger; required_column "content_digest" TBlob;
                 required_column "compiler_version" TText; required_column "source_set_digest" TBlob;
                 required_column "agents_digest" TBlob; required_column "routing_digest" TBlob;
                 required_column "execution_profile_digest" TBlob; required_column "evaluator_registry_digest" TBlob;
                 required_column "context_policy_digest" TBlob; required_column "authorization_digest" TBlob;
                 required_column "recorded_at" TInteger];
  ts_checks := [at_least "activation_sequence" 1; digest_column "content_digest";
                digest_column "source_set_digest"];
  ts_keys := [primary_key ["activation_sequence"]];
  ts_foreign := map (fun c => references [c] "configuration_components" ["digest"])
    ["agents_digest"; "routing_digest"; "execution_profile_digest"; "evaluator_registry_digest";
     "context_policy_digest"; "authorization_digest"] |}.

Definition active_configuration_table : TableSchema := {|
  ts_name := "active_configuration";
  ts_columns := [required_column "id" TText; required_column "revision" TInteger;
                 nullable_column "activation_sequence" TInteger];
  ts_checks := [fun r => eq3 (column r "id") (SText "singleton"); at_least "revision" 1];
  ts_keys := [primary_key ["id"]];
  ts_foreign := [references ["activation_sequence"] "configuration_revisions" ["activation_sequence"]] |}.

(** ** Migration 7: Goals, Tasks and planning *)

Definition terminal_goal_phases : list string := ["Succeeded"; "Failed"; "Cancelled"].

(** The coherence condition of a phase and its terminal target: no target in an
    open phase, a target among the terminal phases in [Finalizing], and the
    phase itself as target in a terminal phase. *)
Definition coherent (open terminal : list string) (phase target : SqlValue) : option bool :=
  or3 (or3 (and3 (in3 phase open) (is_null3 target))
           (and3 (eq3 phase (SText "Finalizing")) (in3 target terminal)))
      (and3 (in3 phase terminal) (eq3 target phase)).

Definition terminal_coherence (open terminal : list string) (r : Row) : option bool :=
  coherent open terminal (column r "phase") (column r "terminal_target").

Definition open_goal_phases : list string := ["Planning"; "Active"; "Evaluating"].

Definition goals_table : TableSchema := {|
  ts_name := "goals";
  ts_columns := [required_column "id" TText; required_column "phase" TText; required_column "current_revision" TInteger;
                 required_column "revision" TInteger; nullable_column "terminal_target" TText;
                 required_column "created_at" TInteger];
  ts_checks := [one_of "phase" ["Planning"; "Active"; "Evaluating"; "Finalizing"; "Succeeded";
                                "Failed"; "Cancelled"];
                at_least "current_revision" 1; at_least "revision" 1;
                terminal_coherence open_goal_phases terminal_goal_phases];
  ts_keys := [primary_key ["id"]];
  ts_foreign := [] |}.

Definition goal_revisions_table : TableSchema := {|
  ts_name := "goal_revisions";
  ts_columns := [required_column "goal_id" TText; required_column "revision" TInteger;
                 required_column "content_digest" TBlob; required_column "canonical_json" TText;
                 required_column "created_at" TInteger];
  ts_checks := [at_least "revision" 1; digest_column "content_digest"];
  ts_keys := [primary_key ["goal_id"; "revision"]];
  ts_foreign := [references ["goal_id"] "goals" ["id"]] |}.

Definition task_graphs_table : TableSchema := {|
  ts_name := "task_graphs";
  ts_columns := [required_column "id" TText; required_column "revision" TInteger];
  ts_checks := [at_least "revision" 0];
  ts_keys := [primary_key ["id"]];
  ts_foreign := [references ["id"] "goals" ["id"]] |}.

Definition task_specs_table : TableSchema := {|
  ts_name := "task_specs";
  ts_columns := [required_column "digest" TBlob; required_column "goal_id" TText; required_column "goal_revision" TInteger;
                 required_column "canonical_json" TText; required_column "acceptance_digest" TBlob;
                 required_column "evaluator_registry_digest" TBlob;
                 required_column "configuration_activation_sequence" TInteger];
  ts_checks := [digest_column "digest"; digest_column "acceptance_digest";
                digest_column "evaluator_registry_digest"];
  ts_keys := [primary_key ["digest"]];
  ts_foreign := [references ["goal_id"] "goals" ["id"];
                 references ["goal_id"; "goal_revision"] "goal_revisions" ["goal_id"; "revision"]] |}.

Definition terminal_task_phases : list string := ["Succeeded"; "Failed"; "Cancelled"; "Superseded"].

Definition tasks_table : TableSchema := {|
  ts_name := "tasks";
  ts_columns := [required_column "id" TText; required_column "goal_id" TText;
                 required_column "created_graph_revision" TInteger; required_column "phase" TText;
                 required_column "revision" TInteger; nullable_column "terminal_target" TText;
                 nullable_column "terminal_reason_json" TText; nullable_column "active_run_id" TText;
                 required_column "spec_digest" TBlob];
  ts_checks := [one_of "phase" ["Pending"; "Ready"; "Active"; "Waiting"; "Evaluating"; "Finalizing";
                                "Succeeded"; "Failed"; "Cancelled"; "Superseded"];
                at_least "revision" 1;
                terminal_coherence ["Pending"; "Ready"; "Active"; "Waiting"; "Evaluating"]
                  terminal_task_phases;
                fun r => or3 (not3 (in3 (column r "phase") ["Ready"; "Waiting"]))
                             (is_null3 (column r "active_run_id"));
                fun r => or3 (not3 (eq3 (column r "phase") (SText "Active")))
                             (not3 (is_null3 (column r "active_run_id")))];
  ts_keys := [primary_key ["id"]];
  ts_foreign := [references ["goal_id"] "goals" ["id"];
                 references ["spec_digest"] "task_specs" ["digest"]] |}.

Definition task_graph_edges_table : TableSchema := {|
  ts_name := "task_graph_edges";
  ts_columns := [required_column "goal_id" TText; required_column "upstream_task_id" TText;
                 required_column "downstream_task_id" TText; required_column "kind" TText;
                 required_column "created_graph_revision" TInteger; nullable_column "removed_graph_revision" TInteger];
  ts_checks := [fun r => eq3 (column r "kind") (SText "requires_success");
                fun r => not3 (eq3 (column r "upstream_task_id") (column r "downstream_task_id"));
                fun r => or3 (is_null3 (column r "removed_graph_revision"))
                             (match column r "removed_graph_revision",
                                    column r "created_graph_revision" with
                              | SInteger removed, SInteger created => Some (created <? removed)%Z
                              | _, _ => None
                              end)];
  ts_keys := [];
  ts_foreign := [references ["goal_id"] "task_graphs" ["id"];
                 references ["upstream_task_id"] "tasks" ["id"];
                 references ["downstream_task_id"] "tasks" ["id"]] |}.

Definition planning_operations_table : TableSchema := {|
  ts_name := "planning_operations";
  ts_columns := [required_column "id" TText; required_column "goal_id" TText; required_column "goal_revision" TInteger;
                 required_column "expected_graph_revision" TInteger; required_column "trigger_kind" TText;
                 required_column "planning_input_digest" TBlob; required_column "planner_implementation" TText;
                 required_column "planner_version" TText;
                 required_column "configuration_activation_sequence" TInteger; required_column "state" TText;
                 required_column "revision" TInteger; required_column "created_at" TInteger];
  ts_checks := [at_least "expected_graph_revision" 0; one_of "trigger_kind" ["initial"];
                digest_column "planning_input_digest"; one_of "state" ["Planned"; "Materialized"];
                at_least "revision" 1];
  ts_keys := [primary_key ["id"]];
  ts_foreign := [references ["goal_id"] "goals" ["id"];
                 references ["goal_id"; "goal_revision"] "goal_revisions" ["goal_id"; "revision"]] |}.

Definition planning_records_table : TableSchema := {|
  ts_name := "planning_records";
  ts_columns := [required_column "planning_operation_id" TText; required_column "proposal_digest" TBlob;
                 required_column "canonical_proposal" TText; required_column "normalization_provenance" TText;
                 required_column "created_at" TInteger];
  ts_checks := [digest_column "proposal_digest"];
  ts_keys := [primary_key ["planning_operation_id"]];
  ts_foreign := [references ["planning_operation_id"] "planning_operations" ["id"]] |}.

(** ** Migration 8: Workspaces *)

(** [length(c) > 0]. *)
Definition non_empty_column (c : string) (r : Row) : option bool :=
  Nat.leb 1 <$> sql_length (column r c).

Definition length_between (c : string) (lo hi : nat) (r : Row) : option bool :=
  length3 lo hi (column r c).

(** [c != v OR d = w]. *)
Definition text_implies (c v d w : string) (r : Row) : option bool :=
  or3 (not3 (eq3 (column r c) (SText v))) (eq3 (column r d) (SText w)).

(** [p = q] of two conditions. *)
Definition iff3 (p q : option bool) : option bool :=
  match p, q with
  | Some a, Some b => Some (Bool.eqb a b)
  | _, _ => None
  end.

Definition object_id_length (c : string) (r : Row) : option bool :=
  (fun n => Nat.eqb n 40 || Nat.eqb n 64) <$> sql_length (column r c).

Definition workspaces_table : TableSchema := {|
  ts_name := "workspaces";
  ts_columns := [required_column "id" TText; required_column "task_id" TText;
                 required_column "repository" TText; required_column "source_path" TText;
                 required_column "requested_base" TText; required_column "resolved_base" TText;
                 required_column "phase" TText; required_column "materialization" TText;
                 required_column "revision" TInteger; required_column "created_at" TInteger];
  ts_checks := [length_between "repository" 1 512; non_empty_column "source_path";
                length_between "requested_base" 1 255; object_id_length "resolved_base";
                one_of "phase" ["Requested"; "Materializing"; "Ready"; "Frozen"; "Releasing";
                                "Released"; "Error"];
                one_of "materialization" ["Present"; "Absent"; "Unknown"]; at_least "revision" 1;
                text_implies "phase" "Ready" "materialization" "Present";
                text_implies "phase" "Requested" "materialization" "Absent";
                text_implies "phase" "Released" "materialization" "Absent"];
  ts_keys := [primary_key ["id"];
              unique_where ["task_id"] (fun r => negb (col_is "phase" (SText "Released") r))];
  ts_foreign := [references ["task_id"] "tasks" ["id"]] |}.

(** ** Migration 9: scheduling and Run intent *)

Definition scheduler_state_table : TableSchema := {|
  ts_name := "scheduler_state";
  ts_columns := [required_column "id" TText; required_column "dispatch_mode" TText;
                 required_column "next_service_sequence" TInteger; required_column "revision" TInteger;
                 required_column "updated_at" TInteger];
  ts_checks := [fun r => eq3 (column r "id") (SText "singleton");
                one_of "dispatch_mode" ["RUNNING"; "PAUSED"]; at_least "next_service_sequence" 1;
                at_least "revision" 1];
  ts_keys := [primary_key ["id"]];
  ts_foreign := [] |}.

Definition goal_scheduling_state_table : TableSchema := {|
  ts_name := "goal_scheduling_state";
  ts_columns := [required_column "goal_id" TText; nullable_column "last_served_sequence" TInteger;
                 required_column "revision" TInteger; required_column "created_at" TInteger;
                 required_column "updated_at" TInteger];
  ts_checks := [fun r => or3 (is_null3 (column r "last_served_sequence"))
                             (ge3 (column r "last_served_sequence") 1);
                at_least "revision" 1];
  ts_keys := [primary_key ["goal_id"]];
  ts_foreign := [references ["goal_id"] "goals" ["id"]] |}.

Definition task_scheduling_state_table : TableSchema := {|
  ts_name := "task_scheduling_state";
  ts_columns := [required_column "task_id" TText; nullable_column "eligible_since" TInteger;
                 nullable_column "next_attempt_at" TInteger; nullable_column "last_failure_code" TText;
                 nullable_column "last_failure_detail_json" TText; required_column "revision" TInteger;
                 required_column "updated_at" TInteger];
  ts_checks := [at_least "revision" 1];
  ts_keys := [primary_key ["task_id"]];
  ts_foreign := [references ["task_id"] "tasks" ["id"]] |}.

Definition execution_bindings_table : TableSchema := {|
  ts_name := "execution_bindings";
  ts_columns := [required_column "digest" TBlob; required_column "task_id" TText;
                 required_column "configuration_activation_sequence" TInteger;
                 required_column "configuration_content_digest" TBlob;
                 required_column "canonical_json" TText; required_column "created_at" TInteger];
  ts_checks := [digest_column "digest"; digest_column "configuration_content_digest"];
  ts_keys := [primary_key ["digest"]];
  ts_foreign := [references ["task_id"] "tasks" ["id"]] |}.

(** With the two columns migration 12 adds. *)
Definition context_source_snapshots_table : TableSchema := {|
  ts_name := "context_source_snapshots";
  ts_columns := [required_column "digest" TBlob;
                 required_column "configuration_activation_sequence" TInteger;
                 required_column "context_policy_digest" TBlob; required_column "task_spec_digest" TBlob;
                 required_column "goal_id" TText; required_column "goal_revision" TInteger;
                 required_column "graph_revision" TInteger; required_column "agent_name" TText;
                 required_column "agent_version" TInteger; required_column "workspace_id" TText;
                 required_column "workspace_resolved_base" TText; required_column "canonical_json" TText;
                 required_column "created_at" TInteger; nullable_column "agent_soul_digest" TBlob;
                 nullable_column "agent_behavior_digest" TBlob];
  ts_checks := [digest_column "digest"; digest_column "context_policy_digest";
                digest_column "task_spec_digest"; digest_column "agent_soul_digest";
                digest_column "agent_behavior_digest"];
  ts_keys := [primary_key ["digest"]];
  ts_foreign := [references ["goal_id"] "goals" ["id"];
                 references ["workspace_id"] "workspaces" ["id"]] |}.

(** With the composite key migration 12 adds. *)
Definition runs_table : TableSchema := {|
  ts_name := "runs";
  ts_columns := [required_column "id" TText; required_column "task_id" TText;
                 required_column "binding_digest" TBlob;
                 required_column "context_source_snapshot_digest" TBlob;
                 required_column "created_at" TInteger];
  ts_checks := [];
  ts_keys := [primary_key ["id"]; unique_key ["id"; "task_id"];
              unique_key ["id"; "context_source_snapshot_digest"]];
  ts_foreign := [references ["task_id"] "tasks" ["id"];
                 references ["binding_digest"] "execution_bindings" ["digest"];
                 references ["context_source_snapshot_digest"] "context_source_snapshots" ["digest"]] |}.

Definition live_run_phases : list string := ["Active"; "Finalizing"].

(** The condition that ties the slot to the phase. *)
Definition slot_coherence (phase slot : SqlValue) : option bool :=
  or3 (and3 (in3 phase live_run_phases) (eq3 slot (SText "global")))
      (and3 (not3 (in3 phase live_run_phases)) (is_null3 slot)).

Definition col_in (c : string) (texts : list string) (r : Row) : bool :=
  bool_decide (in3 (column r c) texts = Some true).

(** As migrations 13 and 14 rebuild it. *)
Definition run_status_table : TableSchema := {|
  ts_name := "run_status";
  ts_columns := [required_column "run_id" TText; required_column "task_id" TText;
                 required_column "phase" TText; nullable_column "terminal_target" TText;
                 required_column "revision" TInteger; nullable_column "active_slot" TText;
                 nullable_column "current_attempt_id" TText; nullable_column "candidate_digest" TBlob;
                 required_column "updated_at" TInteger];
  ts_checks := [one_of "phase" ["Active"; "Finalizing"; "Completed"; "Failed"; "Cancelled"; "Yielded"];
                at_least "revision" 1; digest_column "candidate_digest";
                fun r => or3 (not3 (eq3 (column r "phase") (SText "Finalizing")))
                             (not3 (is_null3 (column r "terminal_target")));
                fun r => or3 (not3 (eq3 (column r "phase") (SText "Completed")))
                             (not3 (is_null3 (column r "candidate_digest")));
                fun r => slot_coherence (column r "phase") (column r "active_slot")];
  ts_keys := [primary_key ["run_id"]; unique_where ["task_id"] (col_in "phase" live_run_phases);
              unique_where ["active_slot"] (fun r => negb (is_null (column r "active_slot")))];
  ts_foreign := [references ["run_id"; "task_id"] "runs" ["id"; "task_id"];
                 references ["current_attempt_id"; "run_id"] "attempts" ["id"; "run_id"]] |}.

(** ** Migration 11: artifacts and workspace revisions *)

Definition blobs_table : TableSchema := {|
  ts_name := "blobs";
  ts_columns := [required_column "digest" TBlob; required_column "size" TInteger;
                 required_column "created_at" TInteger];
  ts_checks := [digest_column "digest"; at_least "size" 0];
  ts_keys := [primary_key ["digest"]];
  ts_foreign := [] |}.

Definition artifacts_table : TableSchema := {|
  ts_name := "artifacts";
  ts_columns := [required_column "digest" TBlob; required_column "artifact_kind" TText;
                 required_column "canonical_json" TText; required_column "created_at" TInteger];
  ts_checks := [digest_column "digest"; length_between "artifact_kind" 1 128];
  ts_keys := [primary_key ["digest"]];
  ts_foreign := [] |}.

Definition artifact_members_table : TableSchema := {|
  ts_name := "artifact_members";
  ts_columns := [required_column "artifact_digest" TBlob; required_column "blob_digest" TBlob];
  ts_checks := [];
  ts_keys := [primary_key ["artifact_digest"; "blob_digest"]];
  ts_foreign := [references ["artifact_digest"] "artifacts" ["digest"];
                 references ["blob_digest"] "blobs" ["digest"]] |}.

Definition workspace_revisions_table : TableSchema := {|
  ts_name := "workspace_revisions";
  ts_columns := [required_column "id" TText; required_column "workspace_id" TText;
                 required_column "repository" TText; required_column "resolved_base" TText;
                 required_column "state_digest" TBlob; required_column "canonical_json" TText;
                 required_column "created_at" TInteger];
  ts_checks := [length_between "id" 32 32; length_between "repository" 1 512;
                object_id_length "resolved_base"; digest_column "state_digest"];
  ts_keys := [primary_key ["id"]; unique_key ["workspace_id"; "state_digest"]];
  ts_foreign := [references ["workspace_id"] "workspaces" ["id"]] |}.

(** ** Migration 12: context plans *)

Definition context_plans_table : TableSchema := {|
  ts_name := "context_plans";
  ts_columns := [required_column "digest" TBlob; required_column "source_snapshot_digest" TBlob;
                 required_column "builder_version" TText; required_column "canonical_json" TText;
                 required_column "created_at" TInteger];
  ts_checks := [digest_column "digest"; length_between "builder_version" 1 128];
  ts_keys := [primary_key ["digest"]; unique_key ["digest"; "source_snapshot_digest"]];
  ts_foreign := [references ["source_snapshot_digest"] "context_source_snapshots" ["digest"]] |}.

Definition run_context_plans_table : TableSchema := {|
  ts_name := "run_context_plans";
  ts_columns := [required_column "run_id" TText; required_column "context_source_snapshot_digest" TBlob;
                 required_column "context_plan_digest" TBlob; required_column "attached_at" TInteger];
  ts_checks := [digest_column "context_plan_digest"];
  ts_keys := [primary_key ["run_id"]];
  ts_foreign := [references ["run_id"; "context_source_snapshot_digest"] "runs"
                   ["id"; "context_source_snapshot_digest"];
                 references ["context_plan_digest"; "context_source_snapshot_digest"] "context_plans"
                   ["digest"; "source_snapshot_digest"]] |}.

(** ** Migration 13: attempts and sessions *)

Definition attempts_table : TableSchema := {|
  ts_name := "attempts";
  ts_columns := [required_column "id" TText; required_column "run_id" TText;
                 required_column "ordinal" TInteger; required_column "launch_key" TText;
                 required_column "created_at" TInteger];
  ts_checks := [length_between "id" 1 128; at_least "ordinal" 1; length_between "launch_key" 64 64];
  ts_keys := [primary_key ["id"]; unique_key ["launch_key"]; unique_key ["id"; "run_id"]];
  ts_foreign := [references ["run_id"] "runs" ["id"]] |}.

Definition not_contacted (r : Row) : option bool :=
  eq3 (column r "launch_contact_state") (SText "NOT_CONTACTED").

Definition zero_or_one (c : string) (r : Row) : option bool :=
  or3 (eq3 (column r c) (SInteger 0)) (eq3 (column r c) (SInteger 1)).

Definition attempt_status_table : TableSchema := {|
  ts_name := "attempt_status";
  ts_columns := [required_column "attempt_id" TText; required_column "run_id" TText;
                 required_column "observed_execution" TText; required_column "terminal" TInteger;
                 required_column "revision" TInteger; required_column "launch_contact_state" TText;
                 nullable_column "launch_contact_initiated_at" TInteger;
                 nullable_column "launch_contact_epoch" TText; nullable_column "started_at" TInteger;
                 nullable_column "finished_at" TInteger; required_column "updated_at" TInteger];
  ts_checks := [one_of "observed_execution" ["ABSENT"; "STARTING"; "RUNNING"; "EXITED"; "UNKNOWN"];
                zero_or_one "terminal"; at_least "revision" 1;
                one_of "launch_contact_state" ["NOT_CONTACTED"; "CONTACT_MAY_HAVE_OCCURRED"];
                fun r => and3 (iff3 (not_contacted r) (is_null3 (column r "launch_contact_initiated_at")))
                              (iff3 (not_contacted r) (is_null3 (column r "launch_contact_epoch")));
                fun r => or3 (not3 (eq3 (column r "terminal") (SInteger 0)))
                             (is_null3 (column r "finished_at"))];
  ts_keys := [primary_key ["attempt_id"]; unique_where ["run_id"] (col_is "terminal" (SInteger 0))];
  ts_foreign := [references ["attempt_id"; "run_id"] "attempts" ["id"; "run_id"]] |}.

Definition agent_control_sessions_table : TableSchema := {|
  ts_name := "agent_control_sessions";
  ts_columns := [required_column "id" TText; required_column "attempt_id" TText;
                 required_column "restore_generation" TText; required_column "credential_revision" TInteger;
                 required_column "credential_hash" TBlob; nullable_column "credential_rekeyed_at" TInteger;
                 required_column "state" TText; required_column "created_at" TInteger;
                 nullable_column "revoked_at" TInteger; nullable_column "revocation_reason" TText];
  ts_checks := [length_between "id" 1 128; length_between "restore_generation" 32 32;
                at_least "credential_revision" 1; digest_column "credential_hash";
                one_of "state" ["ACTIVE"; "REVOKED"];
                fun r => iff3 (eq3 (column r "state") (SText "ACTIVE")) (is_null3 (column r "revoked_at"))];
  ts_keys := [primary_key ["id"]; unique_key ["attempt_id"]];
  ts_foreign := [references ["attempt_id"] "attempts" ["id"]] |}.

(** ** Migration 14: requests, production and candidates *)

Definition null_or_length (c : string) (lo hi : nat) (r : Row) : option bool :=
  or3 (is_null3 (column r c)) (length3 lo hi (column r c)).

Definition agent_requests_table : TableSchema := {|
  ts_name := "agent_requests";
  ts_columns := [required_column "attempt_id" TText; required_column "request_id" TText;
                 required_column "request_hash" TBlob; required_column "operation" TText;
                 required_column "state" TText; nullable_column "result_ref" TText;
                 nullable_column "problem_code" TText; required_column "created_at" TInteger;
                 required_column "updated_at" TInteger];
  ts_checks := [length_between "attempt_id" 1 128; length_between "request_id" 1 128;
                digest_column "request_hash"; one_of "operation" ["artifact.seal"; "task.submit_result"];
                one_of "state" ["STARTED"; "SUCCEEDED"; "FAILED"]; null_or_length "result_ref" 1 128;
                null_or_length "problem_code" 1 64;
                fun r => iff3 (eq3 (column r "state") (SText "SUCCEEDED"))
                              (not3 (is_null3 (column r "result_ref")));
                fun r => iff3 (eq3 (column r "state") (SText "FAILED"))
                              (not3 (is_null3 (column r "problem_code")))];
  ts_keys := [primary_key ["attempt_id"; "request_id"]];
  ts_foreign := [references ["attempt_id"] "attempts" ["id"]] |}.

Definition production_records_table : TableSchema := {|
  ts_name := "production_records";
  ts_columns := [required_column "run_id" TText; required_column "output_slot" TText;
                 required_column "task_id" TText; required_column "attempt_id" TText;
                 required_column "workspace_revision_id" TText; required_column "artifact_digest" TBlob;
                 required_column "created_at" TInteger];
  ts_checks := [length_between "output_slot" 1 128];
  ts_keys := [primary_key ["run_id"; "output_slot"]; unique_key ["run_id"; "output_slot"; "artifact_digest"]];
  ts_foreign := [references ["workspace_revision_id"] "workspace_revisions" ["id"];
                 references ["artifact_digest"] "artifacts" ["digest"];
                 references ["run_id"; "task_id"] "runs" ["id"; "task_id"];
                 references ["attempt_id"; "run_id"] "attempts" ["id"; "run_id"]] |}.

Definition candidates_table : TableSchema := {|
  ts_name := "candidates";
  ts_columns := [required_column "digest" TBlob; required_column "task_id" TText;
                 required_column "run_id" TText; required_column "canonical_json" TText;
                 required_column "created_at" TInteger];
  ts_checks := [digest_column "digest"];
  ts_keys := [primary_key ["digest"]; unique_key ["run_id"]];
  ts_foreign := [references ["run_id"; "task_id"] "runs" ["id"; "task_id"]] |}.

Definition candidate_outputs_table : TableSchema := {|
  ts_name := "candidate_outputs";
  ts_columns := [required_column "candidate_digest" TBlob; required_column "output_slot" TText;
                 required_column "artifact_digest" TBlob; required_column "production_run_id" TText];
  ts_checks := [length_between "output_slot" 1 128];
  ts_keys := [primary_key ["candidate_digest"; "output_slot"]];
  ts_foreign := [references ["candidate_digest"] "candidates" ["digest"];
                 references ["artifact_digest"] "artifacts" ["digest"];
                 references ["production_run_id"; "output_slot"; "artifact_digest"] "production_records"
                   ["run_id"; "output_slot"; "artifact_digest"]] |}.

(** ** Migrations 15 and 16: sandboxes *)

Definition sandbox_instances_table : TableSchema := {|
  ts_name := "sandbox_instances";
  ts_columns := [required_column "id" TText; required_column "run_id" TText;
                 required_column "sandbox_plan_digest" TBlob; required_column "environment_identity" TText;
                 required_column "phase" TText; required_column "observed_presence" TText;
                 required_column "revision" TInteger; required_column "created_at" TInteger;
                 required_column "updated_at" TInteger];
  ts_checks := [length_between "id" 1 128; digest_column "sandbox_plan_digest";
                non_empty_column "environment_identity";
                one_of "phase" ["Requested"; "Preparing"; "Ready"; "Releasing"; "Released"; "Error"];
                one_of "observed_presence" ["Present"; "Absent"; "Unknown"]; at_least "revision" 1;
                text_implies "phase" "Ready" "observed_presence" "Present";
                text_implies "phase" "Requested" "observed_presence" "Absent";
                text_implies "phase" "Released" "observed_presence" "Absent"];
  ts_keys := [primary_key ["id"];
              unique_where ["run_id"] (fun r => negb (col_is "phase" (SText "Released") r))];
  ts_foreign := [] |}.

Definition sandbox_probe_results_table : TableSchema := {|
  ts_name := "sandbox_probe_results";
  ts_columns := [required_column "id" TInteger; required_column "sandbox_id" TText;
                 required_column "run_id" TText; required_column "probe_name" TText;
                 required_column "expected" TText; required_column "observed" TText;
                 required_column "passed" TInteger; required_column "backend_descriptor" TText;
                 required_column "backend_version" TText; required_column "platform" TText;
                 required_column "architecture" TText;
                 required_column "probe_implementation_version" TText;
                 required_column "environment_identity" TText; required_column "sandbox_plan_digest" TBlob;
                 required_column "launch_decision" TText; required_column "recorded_at" TInteger];
  ts_checks := [zero_or_one "passed"; digest_column "sandbox_plan_digest";
                one_of "launch_decision" ["blocked"; "allowed"]];
  ts_keys := [primary_key ["id"]];
  ts_foreign := [] |}.

Definition MIGRATIONS : Schema :=
  [system_state_table; journal_epochs_table; event_journal_table; commands_table;
   configuration_components_table; configuration_revisions_table; active_configuration_table;
   goals_table; goal_revisions_table; task_graphs_table; task_specs_table; tasks_table;
   task_graph_edges_table; planning_operations_table; planning_records_table; workspaces_table;
   scheduler_state_table; goal_scheduling_state_table; task_scheduling_state_table;
   execution_bindings_table; context_source_snapshots_table; runs_table; run_status_table;
   blobs_table; artifacts_table; artifact_members_table; workspace_revisions_table;
   context_plans_table; run_context_plans_table; attempts_table; attempt_status_table;
   agent_control_sessions_table; agent_requests_table; production_records_table; candidates_table;
   candidate_outputs_table; sandbox_instances_table; sandbox_probe_results_table].

(** ** The bootstrap migrations (2, 4, 6 and 10)

    The two identities are drawn from SQLite's random source; [now] is its clock. *)

Definition bootstrap (restore_generation journal_epoch : string) (now : Z) : Database :=
  <["system_state" := [list_to_map [("id", SInteger 1);
                                    ("restore_generation", SText restore_generation)]]]>
  (<["journal_epochs" := [list_to_map [("epoch", SText journal_epoch); ("next_sequence", SInteger 1);
                                       ("is_current", SInteger 1)]]]>
  (<["active_configuration" := [list_to_map [("id", SText "singleton"); ("revision", SInteger 1);
                                             ("activation_sequence", SNull)]]]>
  (<["scheduler_state" := [list_to_map [("id", SText "singleton"); ("dispatch_mode", SText "RUNNING");
                                        ("next_service_sequence", SInteger 1); ("revision", SInteger 1);
                                        ("updated_at", SInteger now)]]]> ∅))).

(** ** Lemmas *)

Definition text_or_null (t : option string) : SqlValue :=
  match t with
  | Some s => SText s
  | None => SNull
  end.

Lemma eq3_text s t : eq3 (SText s) (SText t) = Some (String.eqb s t).
Proof.
  unfold eq3, is_null. cbn. f_equal. apply eq_true_iff_eq.
  rewrite bool_decide_eq_true, String.eqb_eq. naive_solver.
Qed.

(** The condition in two-valued terms: unknown, hence satisfied, when the target
    of a closing phase is NULL. *)
Lemma coherent_passes open terminal p target :
  check_passes (coherent open terminal (SText p) (text_or_null target)) = true ↔
  match target with
  | None => p ∈ open ∨ p = "Finalizing" ∨ p ∈ terminal
  | Some t => (p = "Finalizing" ∧ t ∈ terminal) ∨ (p ∈ terminal ∧ t = p)
  end.
Proof.
  unfold check_passes, coherent. rewrite negb_true_iff, bool_decide_eq_false.
  destruct target as [t|]; cbn [text_or_null]; rewrite !eq3_text; cbn [in3];
    rewrite <-!contains_true, <-!String.eqb_eq.
  - destruct (contains open p), (String.eqb p "Finalizing"), (contains terminal t),
      (contains terminal p), (String.eqb t p); cbn; naive_solver.
  - change (eq3 SNull (SText p)) with (@None bool).
    destruct (contains open p), (String.eqb p "Finalizing"), (contains terminal p); cbn; naive_solver.
Qed.

(** ** Claims *)

(** the coherence constraint of a Goal's phase and terminal target, as SQLite
    evaluates it, admits a stored target exactly in [Finalizing] (any terminal
    phase) and in a terminal phase (that phase); a NULL target is admitted in
    every phase, [Finalizing] and the terminal phases included, because the
    condition is then unknown rather than false. *)
Theorem goal_terminal_constraint p target :
  check_passes (coherent open_goal_phases terminal_goal_phases (SText p) (text_or_null target)) = true ↔
  match target with
  | None => p ∈ open_goal_phases ∨ p = "Finalizing" ∨ p ∈ terminal_goal_phases
  | Some t => (p = "Finalizing" ∧ t ∈ terminal_goal_phases) ∨ (p ∈ terminal_goal_phases ∧ t = p)
  end.
Proof. apply coherent_passes. Qed.
