(* ===== verification/Transaction.v ===== *)
(** * The authoritative write boundary ([pantheon-store/src/transaction.rs])

    A write transaction is a function of the database and of the failure mark of
    its [Writer]; the boundary commits the database it leaves only when the
    closure succeeded and the mark is clear. Revisioned rows are written through
    one compare-and-swap statement. *)

From Stdlib Require Import ZArith NArith Ascii Lia.
From S2P Require Import Prelude Utf8 Sql Schema.

(** A formatted text: its words and the values it is made of. *)
Record Message : Type := message { msg_text : string; msg_values : list string }.

Inductive Invariant : Type :=
| NotPlainIdentifier (kind name : string)
| ForbiddenAssignment (column table : string)
| AffectedRows (table key : string) (n : nat)
| AlreadyInTransaction
| NotWriteState
| DiscardedFailure
| Broken (what : string)
| BrokenAt (what : Message)
| OccupiedSlot (epoch : string) (sequence : Z).

Inductive StoreError : Type :=
| Sqlite (e : SqliteError)
| UnsupportedSchemaVersion (found max_known : Z)
| InconsistentMigrationState (detail : Message)
| MigrationFailed (version : Z) (name : string) (source : SqliteError)
| PolicyVerificationFailed (detail : Message)
| RevisionConflict (table id : string) (expected : Z) (actual : option Z)
| InvariantViolated (what : Invariant)
| AlreadyOpen (path : string)
| StaleCommandEpoch (supplied current : string)
| CommandConflict (command_id : string)
| GoalNotCancellable (goal_id phase : string) (terminal_target : option string)
| WorkspaceHolderIneligible (task_id phase : string)
| WorkspaceAlreadyCurrent (task_id workspace_id : string)
| WorkspaceNotRematerializable (workspace_id phase : string)
| DispatchPaused
| DispatchSlotUnavailable (held_by_run held_for_task : string)
| TaskNotDispatchable (task_id phase : string) (active_run_id : option string)
| GoalNotDispatchable (goal_id phase : string)
| WorkspaceBaseMismatch (workspace_id bound verified : string)
| WorkspaceNotFreezable (workspace_id phase materialization : string)
| ContentIdentityConflict (table id : string) (detail : Message)
| SealAuthorityInvalid (workspace_id : string) (detail : Message)
| ConnectionUnavailable (detail : Message)
| RunNotFound (run_id : string)
| ContextSourceMismatch (run_id frozen proposed : string)
| RunContextPlanConflict (run_id attached_plan proposed_plan : string)
| AttemptNotLaunchReady (run_id : string) (detail : Message)
| AgentControlRekeyForbidden (attempt_id : string) (detail : Message)
| LaunchContactStaleAuthority (attempt_id : string) (detail : Message)
| AgentControlUnauthorized (attempt_id reason : string)
| AgentRequestConflict (attempt_id request_id : string)
| CandidateExists (run_id candidate_digest : string)
| CandidateInvalid (detail : Message)
| CandidateProvenanceInvalid (detail : Message)
| SubmissionStaleAuthority (attempt_id : string) (detail : Message)
| SandboxHolderIneligible (run_id phase : string)
| SandboxAlreadyCurrent (run_id sandbox_id : string).

(** ** The transaction monad *)

Record Writer : Type := { w_db : Database; w_failed : bool }.

Definition Tx (A : Type) : Type := Writer → Result A StoreError * Writer.

Definition tx_ret {A} (a : A) : Tx A := fun w => (Ok a, w).

Definition tx_err {A} (e : StoreError) : Tx A := fun w => (Err e, w).

Definition tx_bind {A B} (m : Tx A) (k : A → Tx B) : Tx B := fun w =>
  match m w with
  | (Ok a, w') => k a w'
  | (Err e, w') => (Err e, w')
  end.

Notation "'let!' x := m 'in' k" := (tx_bind m (fun x => k))
  (at level 10, x pattern, m at level 100, k at level 200) : rust_scope.
Notation "'do!' m 'in' k" := (tx_bind m (fun _ => k))
  (at level 10, m at level 100, k at level 200) : rust_scope.

(** [Writer::fail]: the error is returned and the transaction is marked. *)
Definition tx_fail {A} (e : StoreError) : Tx A := fun w =>
  (Err e, {| w_db := w_db w; w_failed := true |}).

(** A result that marks the transaction when it is an error. *)
Definition tx_or_fail {A} (r : Result A StoreError) : Tx A :=
  match r with
  | Ok a => tx_ret a
  | Err e => tx_fail e
  end.

(** ** Identifiers *)

Definition is_ascii_digit (c : N) : bool := (48 <=? c)%N && (c <=? 57)%N.
Definition is_ascii_alphabetic (c : N) : bool :=
  ((65 <=? c)%N && (c <=? 90)%N) || ((97 <=? c)%N && (c <=? 122)%N).

Definition ensure_plain_identifier (kind name : string) : Result unit StoreError :=
  if negb (is_empty name)
     && negb (match chars name with
              | c :: _ => is_ascii_digit c
              | [] => false
              end)
     && forallb (fun c => is_ascii_digit c || is_ascii_alphabetic c || (c =? 95)%N) (chars name)
  then Ok tt else Err (InvariantViolated (NotPlainIdentifier kind name)).

Definition ascii_lower_byte (b : ascii) : ascii :=
  let n := byte_val b in
  if (65 <=? n)%N && (n <=? 90)%N then byte_of (n + 32) else b.

Fixpoint ascii_lower (s : string) : string :=
  match s with
  | EmptyString => EmptyString
  | String b rest => String (ascii_lower_byte b) (ascii_lower rest)
  end.

Definition eq_ignore_ascii_case (a b : string) : bool := String.eqb (ascii_lower a) (ascii_lower b).

Definition ID_COLUMN : string := "id".
Definition REVISION_COLUMN : string := "revision".

Section Writes.
Variable schema : Schema.

(** ** Statements inside the transaction *)

(** A statement through [Writer::execute]: its failure marks the transaction. *)
Definition tx_execute (statement : Database → Result (nat * Database) SqliteError) : Tx nat := fun w =>
  match statement (w_db w) with
  | Ok (n, db') => (Ok n, {| w_db := db'; w_failed := w_failed w |})
  | Err e => tx_fail (Sqlite e) w
  end.

(** [Writer::query_all]. *)
Definition query_all {A} (table : string) (cols : list string) (where_ : Row → bool)
    (decode : Row → Result A SqliteError) : Tx (list A) := fun w =>
  match (let? l := select schema (w_db w) table cols where_ in collect decode l) with
  | Ok l => (Ok l, w)
  | Err e => tx_fail (Sqlite e) w
  end.

(** [Writer::query_optional]: the first row, when there is one. *)
Definition query_optional {A} (table : string) (cols : list string) (where_ : Row → bool)
    (decode : Row → Result A SqliteError) : Tx (option A) := fun w =>
  match (let? l := select schema (w_db w) table cols where_ in
         match l with
         | [] => Ok None
         | r :: _ => let? a := decode r in Ok (Some a)
         end) with
  | Ok o => (Ok o, w)
  | Err e => tx_fail (Sqlite e) w
  end.

Definition get_integer (c : string) (r : Row) : Result Z SqliteError :=
  match column r c with
  | SInteger n => Ok n
  | _ => Err (InvalidColumnType c)
  end.

Definition get_text (c : string) (r : Row) : Result string SqliteError :=
  match column r c with
  | SText s => Ok s
  | _ => Err (InvalidColumnType c)
  end.

Definition get_blob (c : string) (r : Row) : Result string SqliteError :=
  match column r c with
  | SBlob b => Ok b
  | _ => Err (InvalidColumnType c)
  end.

(** ** The revisioned update *)

(** The lookup of the conflict report; a failure here does not mark. *)
Definition current_revision_by (table key_column key : string) : Tx (option Z) := fun w =>
  match (let? l := select schema (w_db w) (ascii_lower table) [ascii_lower key_column; REVISION_COLUMN]
                     (col_is (ascii_lower key_column) (SText key)) in
         match l with
         | [] => Ok None
         | r :: _ => let? n := get_integer REVISION_COLUMN r in Ok (Some n)
         end) with
  | Ok o => (Ok o, w)
  | Err e => (Err (Sqlite e), w)
  end.

Definition revision_of (table id : string) : Tx (option Z) :=
  do! tx_or_fail (ensure_plain_identifier "table" table) in
  current_revision_by table ID_COLUMN id.

(** An assignment may not name the revision, the identity or the key. *)
Definition check_assignment (table key_column column : string) : Result unit StoreError :=
  do? ensure_plain_identifier "column" column in
  if eq_ignore_ascii_case column REVISION_COLUMN || eq_ignore_ascii_case column ID_COLUMN
     || eq_ignore_ascii_case column key_column
  then Err (InvariantViolated (ForbiddenAssignment column table)) else Ok tt.

Definition assign (r : Row) (a : string * SqlValue) : Row := <[ascii_lower a.1 := a.2]> r.

(** The SET clause: the assignments from left to right, then the increment. *)
Definition set_clause (assignments : list (string * SqlValue)) (r : Row) : Row :=
  <[REVISION_COLUMN := sql_increment (column r REVISION_COLUMN)]> (fold_left assign assignments r).

Definition cas_where (key_column key : string) (expected : Z) (r : Row) : bool :=
  col_is (ascii_lower key_column) (SText key) r && col_is REVISION_COLUMN (SInteger expected) r.

Definition cas_statement (table key_column key : string) (expected : Z)
    (assignments : list (string * SqlValue)) (db : Database) : Result (nat * Database) SqliteError :=
  update schema db (ascii_lower table)
    (map (fun a => ascii_lower a.1) assignments ++ [ascii_lower key_column; REVISION_COLUMN])
    (cas_where key_column key expected) (set_clause assignments).

Definition update_revisioned_by (table key_column key : string) (expected : Z)
    (assignments : list (string * SqlValue)) : Tx Z :=
  do! tx_or_fail (ensure_plain_identifier "table" table) in
  do! tx_or_fail (ensure_plain_identifier "column" key_column) in
  do! tx_or_fail (for_each (fun a => check_assignment table key_column a.1) assignments) in
  let! affected := tx_execute (cas_statement table key_column key expected assignments) in
  match affected with
  | 1 => tx_ret (expected + 1)%Z
  | 0 =>
      let! actual := current_revision_by table key_column key in
      tx_fail (RevisionConflict table key expected actual)
  | more => tx_fail (InvariantViolated (AffectedRows table key more))
  end.

Definition update_revisioned (table id : string) (expected : Z)
    (assignments : list (string * SqlValue)) : Tx Z :=
  update_revisioned_by table ID_COLUMN id expected assignments.
End Writes.

(** ** The boundary *)

Inductive TransactionState : Type := TxNone | TxRead | TxWrite.

#[export] Instance TransactionState_eq_dec : EqDecision TransactionState.
Proof. solve_decision. Defined.

(** What the driver and the disk answer during one transaction. *)
Record Driver : Type := {
  dr_begin : option SqliteError;
  dr_state : Result TransactionState SqliteError;
  dr_commit : option SqliteError;
  dr_rollback : bool
}.

(** The writer connection: the durable database, and whether it is outside any
    transaction. *)
Record Connection : Type := { conn_db : Database; conn_autocommit : bool }.

(** A rollback leaves the durable database; when it fails the connection stays
    inside its transaction. *)
Definition rolled_back (d : Driver) (c : Connection) : Connection :=
  {| conn_db := conn_db c; conn_autocommit := dr_rollback d |}.

Definition run {A} (d : Driver) (f : Tx A) (c : Connection) : Result A StoreError * Connection :=
  if negb (conn_autocommit c) then (Err (InvariantViolated AlreadyInTransaction), c)
  else
    match dr_begin d with
    | Some e => (Err (Sqlite e), c)
    | None =>
        match dr_state d with
        | Err e => (Err (Sqlite e), rolled_back d c)
        | Ok state =>
            if negb (bool_decide (state = TxWrite))
            then (Err (InvariantViolated NotWriteState), rolled_back d c)
            else
              match f {| w_db := conn_db c; w_failed := false |} with
              | (Ok value, w) =>
                  if w_failed w then (Err (InvariantViolated DiscardedFailure), rolled_back d c)
                  else
                    match dr_commit d with
                    | Some e => (Err (Sqlite e), rolled_back d c)
                    | None => (Ok value, {| conn_db := w_db w; conn_autocommit := true |})
                    end
              | (Err e, w) => (Err e, rolled_back d c)
              end
        end
    end.

(** A driver that answers every request. *)
Definition working : Driver := {|
  dr_begin := None; dr_state := Ok TxWrite; dr_commit := None; dr_rollback := true |}.

(** ** Lemmas: the boundary *)

(** Nothing is durable unless the closure returned a value with the mark clear
    and the commit succeeded. *)
Lemma run_spec {A} d (f : Tx A) c :
  match run d f c with
  | (Ok v, c') =>
      conn_autocommit c = true ∧ conn_autocommit c' = true ∧
      ∃ w, f {| w_db := conn_db c; w_failed := false |} = (Ok v, w) ∧ w_failed w = false ∧
        conn_db c' = w_db w
  | (Err _, c') => conn_db c' = conn_db c
  end.
Proof.
  unfold run. destruct (conn_autocommit c) eqn:Ha; cbn [negb]; [|done].
  destruct (dr_begin d); [done|]. destruct (dr_state d); [|done]. destruct (bool_decide _); cbn [negb]; [|done].
  destruct (f _) as [[v|e] w] eqn:Ef; [|done]. destruct (w_failed w) eqn:Hw; [done|].
  destruct (dr_commit d); [done|]. eauto 10.
Qed.

Lemma run_working {A} (f : Tx A) c v w :
  conn_autocommit c = true → f {| w_db := conn_db c; w_failed := false |} = (Ok v, w) →
  w_failed w = false →
  run working f c = (Ok v, {| conn_db := w_db w; conn_autocommit := true |}).
Proof. intros Ha Hf Hw. unfold run. rewrite Ha. cbn. by rewrite Hf, Hw. Qed.

(** ** Lemmas: the transaction monad *)

Lemma tx_bind_Ok {A B} (m : Tx A) (k : A → Tx B) w b w' :
  tx_bind m k w = (Ok b, w') ↔ ∃ a w1, m w = (Ok a, w1) ∧ k a w1 = (Ok b, w').
Proof. unfold tx_bind. destruct (m w) as [[a|e] w1]; naive_solver. Qed.

Lemma tx_or_fail_Ok {A} (r : Result A StoreError) w a w' :
  tx_or_fail r w = (Ok a, w') ↔ r = Ok a ∧ w' = w.
Proof. destruct r; cbn; unfold tx_ret, tx_fail; naive_solver. Qed.

Lemma tx_execute_Ok statement w n w' :
  tx_execute statement w = (Ok n, w') ↔
  statement (w_db w) = Ok (n, w_db w') ∧ w_failed w' = w_failed w.
Proof.
  unfold tx_execute, tx_fail. destruct (statement (w_db w)) as [[n' db']|e].
  - split; [by intros [= -> <-] | intros [[= -> ->] Hf]]. destruct w'; cbn in *. by rewrite Hf.
  - naive_solver.
Qed.

(** ** Lemmas: the revisioned update *)

Lemma ascii_lower_id : ascii_lower ID_COLUMN = ID_COLUMN.
Proof. reflexivity. Qed.

Lemma check_assignment_Ok table kc c :
  check_assignment table kc c = Ok tt →
  ascii_lower c ≠ REVISION_COLUMN ∧ ascii_lower c ≠ ID_COLUMN ∧ ascii_lower c ≠ ascii_lower kc.
Proof.
  unfold check_assignment. intros H. apply try_bind_Ok in H as ([] & _ & H).
  unfold eq_ignore_ascii_case in H.
  change (ascii_lower REVISION_COLUMN) with REVISION_COLUMN in H. rewrite ascii_lower_id in H.
  destruct (String.eqb_spec (ascii_lower c) REVISION_COLUMN); [done|].
  destruct (String.eqb_spec (ascii_lower c) ID_COLUMN); [done|].
  by destruct (String.eqb_spec (ascii_lower c) (ascii_lower kc)).
Qed.

Lemma assigned_column asg r c :
  (∀ a, a ∈ asg → ascii_lower a.1 ≠ c) → column (fold_left assign asg r) c = column r c.
Proof.
  revert r; induction asg as [|a asg IH]; intros r Hne; cbn; [done|].
  rewrite IH by (intros; apply Hne; by right). unfold assign. apply column_insert_ne, Hne. left.
Qed.

Lemma set_clause_column asg r c :
  c ≠ REVISION_COLUMN → (∀ a, a ∈ asg → ascii_lower a.1 ≠ c) →
  column (set_clause asg r) c = column r c.
Proof.
  intros Hc Hne. unfold set_clause. rewrite column_insert_ne by done. by apply assigned_column.
Qed.

Lemma set_clause_revision asg r :
  column (set_clause asg r) REVISION_COLUMN = sql_increment (column r REVISION_COLUMN).
Proof. unfold set_clause. apply column_insert. Qed.

Lemma filter_map_stable {A} (p : A → bool) (g : A → A) l :
  (∀ x, p (g x) = p x) → List.filter p (map g l) = map g (List.filter p l).
Proof.
  intros H. induction l as [|x l IH]; cbn; [done|]. rewrite H, IH. by destruct (p x).
Qed.

Lemma filter_and {A} (p q : A → bool) l :
  List.filter (fun x => p x && q x) l = List.filter q (List.filter p l).
Proof.
  induction l as [|x l IH]; cbn; [done|]. destruct (p x); cbn; [|done].
  by destruct (q x); rewrite IH.
Qed.

Section CasFacts.
Variable schema : Schema.
Variables table kc key : string.
Hypothesis Hkc : ascii_lower kc ≠ REVISION_COLUMN.

(** The row of the key is unique and at revision [n]. *)
Definition at_revision (db : Database) (n : Z) : Prop :=
  ∃ r, List.filter (col_is (ascii_lower kc) (SText key)) (rows db (ascii_lower table)) = [r] ∧
    column r REVISION_COLUMN = SInteger n.

Lemma set_clause_key asg r :
  (∀ a, a ∈ asg → check_assignment table kc a.1 = Ok tt) →
  col_is (ascii_lower kc) (SText key) (set_clause asg r) = col_is (ascii_lower kc) (SText key) r.
Proof.
  intros Hasg. unfold col_is. rewrite set_clause_column; [done|done|].
  intros a Ha. by destruct (check_assignment_Ok _ _ _ (Hasg a Ha)) as (_ & _ & ?).
Qed.

Lemma cas_filter db n expected :
  at_revision db n →
  ∃ r, List.filter (col_is (ascii_lower kc) (SText key)) (rows db (ascii_lower table)) = [r] ∧
    column r REVISION_COLUMN = SInteger n ∧
    List.filter (cas_where kc key expected) (rows db (ascii_lower table)) =
      (if (expected =? n)%Z then [r] else []) ∧
    cas_where kc key expected r = (expected =? n)%Z.
Proof.
  intros (r & Hf & Hr). exists r.
  assert (col_is REVISION_COLUMN (SInteger expected) r = (expected =? n)%Z) as Hrev.
  { apply eq_true_iff_eq. rewrite col_is_true, Hr, Z.eqb_eq. naive_solver. }
  split_and!; [done|done| |].
  - unfold cas_where. rewrite filter_and, Hf. cbn. by rewrite Hrev.
  - unfold cas_where. rewrite Hrev.
    assert (r ∈ List.filter (col_is (ascii_lower kc) (SText key)) (rows db (ascii_lower table))) as Hin
      by (rewrite Hf; left).
    apply list_elem_of_In, filter_In in Hin as [_ ->]. done.
Qed.

(** A successful update found its row at the expected revision, changed exactly
    that row, and left the mark alone. *)
Lemma update_revisioned_by_Ok expected asg w n' w' :
  update_revisioned_by schema table kc key expected asg w = (Ok n', w') →
  n' = (expected + 1)%Z ∧ w_failed w' = w_failed w ∧ valid schema (w_db w') ∧
  (∀ a, a ∈ asg → check_assignment table kc a.1 = Ok tt) ∧
  length (List.filter (cas_where kc key expected) (rows (w_db w) (ascii_lower table))) = 1 ∧
  w_db w' = <[ascii_lower table := map (fun r => if cas_where kc key expected r then set_clause asg r else r)
                     (rows (w_db w) (ascii_lower table))]> (w_db w).
Proof.
  unfold update_revisioned_by. intros H.
  apply tx_bind_Ok in H as ([] & w1 & [_ ->]%tx_or_fail_Ok & H).
  apply tx_bind_Ok in H as ([] & w2 & [_ ->]%tx_or_fail_Ok & H).
  apply tx_bind_Ok in H as ([] & w3 & [Hasg ->]%tx_or_fail_Ok & H).
  rewrite for_each_Ok in Hasg.
  apply tx_bind_Ok in H as (n & w4 & [Hu Hf]%tx_execute_Ok & H).
  apply update_Ok in Hu as (Hn & Hv & Hdb). destruct n as [|[|n]].
  - apply tx_bind_Ok in H as (? & ? & _ & ?). done.
  - unfold tx_ret in H. injection H as <- <-. rewrite <-Hn. done.
  - done.
Qed.

(** When it fails, the transaction is marked or no row has changed. *)
Lemma update_revisioned_by_Err expected asg w e w' :
  update_revisioned_by schema table kc key expected asg w = (Err e, w') →
  w_failed w' = true ∨ ∀ t, rows (w_db w') t = rows (w_db w) t.
Proof.
  unfold update_revisioned_by, tx_bind, tx_or_fail.
  destruct (ensure_plain_identifier "table" table); [|by intros [= <- <-]; left].
  destruct (ensure_plain_identifier "column" kc); [|by intros [= <- <-]; left].
  destruct (for_each _ asg); [|by intros [= <- <-]; left]. cbn [tx_ret].
  destruct (tx_execute _ w) as [[n|e'] w1] eqn:E; [|intros [= -> ->]].
  - apply tx_execute_Ok in E as [Hu Hf]. apply update_Ok in Hu as (Hn & _ & Hdb).
    destruct n as [|[|n]]; [|done|by intros [= <- <-]; left].
    intros H. right. assert (w_db w' = w_db w1) as ->.
    { destruct (current_revision_by _ _ _ _ w1) as [[o|e''] w2] eqn:Ec;
        unfold current_revision_by in Ec; repeat case_match; unfold tx_fail in *; by simplify_eq/=. }
    assert (∀ r, r ∈ rows (w_db w) (ascii_lower table) → cas_where kc key expected r = false) as Hno.
    { intros r Hr. apply not_true_iff_false. intros Ht.
      assert (r ∈ List.filter (cas_where kc key expected) (rows (w_db w) (ascii_lower table))) as Hin
        by (apply list_elem_of_In, filter_In; split; [by apply list_elem_of_In|done]).
      destruct (List.filter _ _); [by apply not_elem_of_nil in Hin|done]. }
    intros t. rewrite Hdb. destruct (decide (t = ascii_lower table)) as [->|Hne];
      [rewrite rows_insert|by rewrite rows_insert_ne].
    rewrite <-(map_id (rows (w_db w) _)) at 2. apply map_ext_in. intros r Hr%list_elem_of_In.
    by rewrite Hno.
  - left. unfold tx_execute, tx_fail in E. destruct (cas_statement _ _ _ _ _ _ _) as [[? ?]|]; by simplify_eq/=.
Qed.

Hypothesis Htyped : ∃ t nn, table_schema schema (ascii_lower table) = Some t ∧
  (REVISION_COLUMN, (TInteger, nn)) ∈ ts_columns t.

Lemma update_at_revision expected asg w n m w' :
  at_revision (w_db w) n →
  update_revisioned_by schema table kc key expected asg w = (Ok m, w') →
  expected = n ∧ m = (n + 1)%Z ∧ w_failed w' = w_failed w ∧ at_revision (w_db w') (n + 1).
Proof.
  intros Hat Hu. apply update_revisioned_by_Ok in Hu as (-> & Hfail & Hv & Hasg & Hlen & Hdb).
  destruct (cas_filter (w_db w) n expected Hat) as (r & Hf & Hr & Hcas & Hwhere).
  rewrite Hcas in Hlen. destruct (Z.eqb_spec expected n) as [->|]; [|done].
  split_and!; [done..|].
  assert (List.filter (col_is (ascii_lower kc) (SText key)) (rows (w_db w') (ascii_lower table)) =
    [set_clause asg r]) as Hf'.
  { rewrite Hdb, rows_insert, filter_map_stable.
    - rewrite Hf. cbn. by rewrite Hwhere.
    - intros x. destruct (cas_where kc key n x); [|done]. by apply set_clause_key. }
  exists (set_clause asg r). split; [done|]. rewrite set_clause_revision, Hr. cbn.
  destruct (in_i64 (n + 1)) eqn:Hi; [done|]. exfalso.
  destruct Htyped as (t & nn & Ht & Hc).
  eapply (valid_integer schema (w_db w') (ascii_lower table) t REVISION_COLUMN nn (set_clause asg r));
    [done|done|done| |].
  - assert (set_clause asg r ∈ [set_clause asg r]) as Hin by left. rewrite <-Hf' in Hin.
    by apply list_elem_of_In, filter_In in Hin as [?%list_elem_of_In _].
  - rewrite set_clause_revision, Hr. cbn. by rewrite Hi.
Qed.

(** ** Sequences of attempts on one row *)

(** One client's optimistic update: the revision it observed and what it writes,
    under what the driver answers. *)
Record Attempt : Type := {
  at_driver : Driver;
  at_expected : Z;
  at_assignments : list (string * SqlValue)
}.

Definition attempt (a : Attempt) : Connection → Result Z StoreError * Connection :=
  run (at_driver a) (update_revisioned_by schema table kc key (at_expected a) (at_assignments a)).

Fixpoint attempts (l : list Attempt) (c : Connection) : list (Result Z StoreError) * Connection :=
  match l with
  | [] => ([], c)
  | a :: rest =>
      let (r, c1) := attempt a c in
      let (rs, c2) := attempts rest c1 in
      (r :: rs, c2)
  end.

Definition successes (l : list (Result Z StoreError)) : list Z :=
  omap (fun r => match r with
                 | Ok n => Some n
                 | Err _ => None
                 end) l.

Fixpoint counting (n : Z) (k : nat) : list Z :=
  match k with
  | 0 => []
  | S k => (n + 1)%Z :: counting (n + 1) k
  end.

Lemma attempt_step a c n :
  at_revision (conn_db c) n →
  match attempt a c with
  | (Ok m, c') => at_expected a = n ∧ m = (n + 1)%Z ∧ at_revision (conn_db c') (n + 1)
  | (Err _, c') => at_revision (conn_db c') n
  end.
Proof.
  intros Hat. unfold attempt. pose proof (run_spec (at_driver a)
    (update_revisioned_by schema table kc key (at_expected a) (at_assignments a)) c) as Hrun.
  destruct (run _ _ c) as [[m|e] c']; [|by rewrite Hrun].
  destruct Hrun as (_ & _ & w & Hf & _ & ->).
  by apply (update_at_revision _ _ {| w_db := conn_db c; w_failed := false |} n) in Hf as (? & ? & _ & ?).
Qed.

Lemma attempts_count l c n :
  at_revision (conn_db c) n →
  let (rs, c') := attempts l c in
  successes rs = counting n (length (successes rs)) ∧
  at_revision (conn_db c') (n + Z.of_nat (length (successes rs))).
Proof.
  revert c n; induction l as [|a l IH]; intros c n Hat; cbn [attempts].
  - cbn. by rewrite Z.add_0_r.
  - pose proof (attempt_step a c n Hat) as Hstep. destruct (attempt a c) as [[m|e] c1].
    + destruct Hstep as (_ & -> & Hat1). specialize (IH c1 _ Hat1).
      destruct (attempts l c1) as [rs c2]. destruct IH as [IH1 IH2].
      change (successes (Ok (n + 1)%Z :: rs)) with ((n + 1)%Z :: successes rs).
      cbn [length counting]. split; [by rewrite <-IH1|].
      by replace (n + Z.of_nat (S (length (successes rs))))%Z
        with (n + 1 + Z.of_nat (length (successes rs)))%Z by lia.
    + specialize (IH c1 _ Hstep). by destruct (attempts l c1) as [rs c2].
Qed.
End CasFacts.

(** ** Claims *)

(** A driver that opens the write transaction it is asked for. *)
Definition opens (d : Driver) : Prop := dr_begin d = None ∧ dr_state d = Ok TxWrite.

(** C13: the write boundary is atomic and fails closed, whatever the closure does and
    whatever the driver answers. A write succeeds exactly when the connection was outside
    any transaction, the write transaction opened and committed, the closure returned a
    value and no mutation inside it had failed, even one whose error was discarded; the
    durable database is then exactly the one the closure left. Every other write leaves
    the durable database as it was; the closure's own error is the one reported, a
    discarded failure is refused, and a connection left inside a transaction refuses
    every later write. *)
Theorem write_boundary_atomic {A} d (f : Tx A) c :
  (∀ v c', run d f c = (Ok v, c') ↔
     conn_autocommit c = true ∧ opens d ∧ dr_commit d = None ∧
     ∃ w, f {| w_db := conn_db c; w_failed := false |} = (Ok v, w) ∧ w_failed w = false ∧
       c' = {| conn_db := w_db w; conn_autocommit := true |}) ∧
  (∀ e c', run d f c = (Err e, c') →
     conn_db c' = conn_db c ∧
     (conn_autocommit c = false → e = InvariantViolated AlreadyInTransaction ∧ c' = c) ∧
     (conn_autocommit c = true → opens d →
      match f {| w_db := conn_db c; w_failed := false |} with
      | (Err e', _) => e = e'
      | (Ok _, w) =>
          if w_failed w then e = InvariantViolated DiscardedFailure else ∃ s, dr_commit d = Some s ∧ e = Sqlite s
      end)).
Proof.
  unfold opens, run.
  destruct (conn_autocommit c); cbn [negb]; [|by split; [intros v c'; split; [done|intros (? & _)]|intros e c' [= <- <-]; split_and!]].
  destruct (dr_begin d) as [b|]; [by split; [intros v c'; split; [done|intros (_ & [? _] & _)]|intros e c' [= <- <-]; split_and!; [..|intros _ []]]|].
  destruct (dr_state d) as [state|s]; [|by split; [intros v c'; split; [done|intros (_ & [_ ?] & _)]|intros e c' [= <- <-]; split_and!; [..|intros _ []]]].
  destruct (decide (state = TxWrite)) as [->|Hne]; [|rewrite bool_decide_eq_false_2 by done; cbn [negb];
    split; [intros v c'; split; [done|intros (_ & [_ ?] & _); congruence]|intros e c' [= <- <-]; split_and!; [done..|intros _ [_ ?]; congruence]]].
  cbn [bool_decide]. rewrite bool_decide_eq_true_2 by done. cbn [negb].
  destruct (f _) as [[v|e] w]; [|split;
    [intros v' c'; split; [done|by intros (_ & _ & _ & w' & ? & _)]|intros e' c' [= <- <-]; by split_and!]].
  destruct (w_failed w) eqn:Hw; [split;
    [intros v' c'; split; [done|intros (_ & _ & _ & w' & [= _ <-] & Hw' & _); congruence]|intros e' c' [= <- <-]; by split_and!]|].
  destruct (dr_commit d) as [s|]; [split;
    [intros v' c'; split; [done|by intros (_ & _ & ? & _)]|intros e' c' [= <- <-]; split_and!; [done..|intros _ _; by exists s]]|].
  split; [|done]. intros v' c'. split; [intros [= <- <-]; split_and!; [done..|by exists w]|].
  by intros (_ & _ & _ & w' & [= <- <-] & _ & ->).
Qed.

(** C12: no update is lost. Whatever clients attempt optimistic updates of one
    row, in any order and with any driver failures, the attempts that succeed
    return consecutive revisions from the initial one, and the final revision is
    the initial one plus the number of successes: each success had observed the
    revision the previous success produced. *)
Theorem no_lost_update schema table kc key l c n
    (Hkey : ascii_lower kc ≠ REVISION_COLUMN)
    (Htyped : ∃ t nn, table_schema schema (ascii_lower table) = Some t ∧
       (REVISION_COLUMN, (TInteger, nn)) ∈ ts_columns t)
    (Hrow : at_revision table kc key (conn_db c) n) :
  let (rs, c') := attempts schema table kc key l c in
  successes rs = counting n (length (successes rs)) ∧
  at_revision table kc key (conn_db c') (n + Z.of_nat (length (successes rs))).
Proof. by apply attempts_count. Qed.

Definition sample_goal_row : Row := list_to_map [
  ("id", SText "goal-1"); ("phase", SText "Planning"); ("current_revision", SInteger 1);
  ("revision", SInteger 1); ("terminal_target", SNull); ("created_at", SInteger 0)].

Definition sample_connection : Connection := {|
  conn_db := <["goals" := [sample_goal_row]]>
    (bootstrap "0123456789abcdef0123456789abcdef" "fedcba9876543210fedcba9876543210" 0);
  conn_autocommit := true |}.

(** A Goal can be left [Finalizing] with no terminal target. *)
Lemma finalizing_without_target :
  (run working (update_revisioned MIGRATIONS "goals" "goal-1" 1 [("phase", SText "Finalizing")])
     sample_connection).1 = Ok 2%Z.
Proof. vm_compute. reflexivity. Qed.

(** Two clients observed revision 1; the second loses, then retries. *)
Definition sample_attempts : list Attempt := [
  {| at_driver := working; at_expected := 1; at_assignments := [("phase", SText "Active")] |};
  {| at_driver := working; at_expected := 1; at_assignments := [("phase", SText "Evaluating")] |};
  {| at_driver := working; at_expected := 2; at_assignments := [("phase", SText "Evaluating")] |}].

Lemma no_lost_update_witness :
  (attempts MIGRATIONS "goals" "id" "goal-1" sample_attempts sample_connection).1 =
    [Ok 2%Z; Err (RevisionConflict "goals" "goal-1" 1 (Some 2%Z)); Ok 3%Z] ∧
  let (rs, c') := attempts MIGRATIONS "goals" "id" "goal-1" sample_attempts sample_connection in
  successes rs = counting 1 (length (successes rs)) ∧
  at_revision "goals" "id" "goal-1" (conn_db c') (1 + Z.of_nat (length (successes rs))).
Proof.
  split; [vm_compute; reflexivity|].
  apply (no_lost_update MIGRATIONS "goals" "id" "goal-1" sample_attempts sample_connection 1).
  - discriminate.
  - exists goals_table, true. split; [reflexivity|]. apply (bool_decide_unpack _). vm_compute. exact I.
  - exists sample_goal_row. split; vm_compute; reflexivity.
Defined.
