(* ===== verification/Command.v ===== *)
(** * The command kernel ([pantheon-store/src/command.rs], [store.rs])

    An operator mutation runs under the identity [(epoch, id)] of its command:
    the epoch is fenced against the installation's, the ledger decides between
    new, replayed and conflicting, and the mutation, the journal sequence, the
    event and the ledger row commit in one transaction. *)

From Stdlib Require Import ZArith Ascii Lia.
From S2P Require Import Prelude Utf8 Sql Schema Transaction.

Record Command : Type := {
  cmd_epoch : string;
  cmd_id : string;
  cmd_request_hash : string;
  cmd_event_type : string
}.

Record JournalCursor : Type := { cursor_epoch : string; cursor_sequence : Z }.

Inductive Committed (A : Type) : Type :=
| Executed (value : A) (cursor : JournalCursor)
| Replayed (cursor : JournalCursor) (recorded_at : Z).
Arguments Executed {A} value cursor.
Arguments Replayed {A} cursor recorded_at.

Definition committed_cursor {A} (c : Committed A) : JournalCursor :=
  match c with
  | Executed _ cursor | Replayed cursor _ => cursor
  end.

Definition was_executed {A} (c : Committed A) : bool :=
  match c with
  | Executed _ _ => true
  | Replayed _ _ => false
  end.

Record LedgerEntry : Type := {
  le_request_hash : string;
  le_cursor : JournalCursor;
  le_recorded_at : Z
}.

(** What SQLite answers to [lower(hex(randomblob(16)))] and [unixepoch()] in one
    transaction. *)
Record Ambient : Type := { amb_event_id : string; amb_now : Z }.

(** [.ok_or_else(...)?] on a query: the error is returned unmarked. *)
Definition expect_row {A} (m : Tx (option A)) (what : string) : Tx A :=
  let! o := m in
  match o with
  | Some a => tx_ret a
  | None => tx_err (InvariantViolated (Broken what))
  end.

Section Kernel.
Variable schema : Schema.

Definition fence_epoch (supplied : string) : Tx unit :=
  let! current := expect_row
    (query_optional schema "system_state" ["restore_generation"; "id"]
       (col_is "id" (SInteger 1)) (get_text "restore_generation"))
    "system_state has no installation identity row" in
  if String.eqb supplied current then tx_ret tt
  else tx_fail (StaleCommandEpoch supplied current).

Definition command_where (c : Command) (r : Row) : bool :=
  col_is "command_epoch" (SText (cmd_epoch c)) r && col_is "command_id" (SText (cmd_id c)) r.

Definition decode_ledger (r : Row) : Result LedgerEntry SqliteError :=
  let? hash := get_blob "request_hash" r in
  let? epoch := get_text "journal_epoch" r in
  let? sequence := get_integer "sequence" r in
  let? recorded_at := get_integer "recorded_at" r in
  Ok {| le_request_hash := hash;
        le_cursor := {| cursor_epoch := epoch; cursor_sequence := sequence |};
        le_recorded_at := recorded_at |}.

Definition lookup_command (c : Command) : Tx (option LedgerEntry) :=
  query_optional schema "commands"
    ["request_hash"; "journal_epoch"; "sequence"; "recorded_at"; "command_epoch"; "command_id"]
    (command_where c) decode_ledger.

Definition is_current : Row → bool := col_is "is_current" (SInteger 1).

Definition advance_sequence (r : Row) : Row :=
  <["next_sequence" := sql_increment (column r "next_sequence")]> r.

Definition allocate_sequence : Tx JournalCursor :=
  let! (epoch, sequence) := expect_row
    (query_optional schema "journal_epochs" ["epoch"; "next_sequence"; "is_current"] is_current
       (fun r => let? e := get_text "epoch" r in
                 let? n := get_integer "next_sequence" r in Ok (e, n)))
    "no current journal epoch exists" in
  let! affected := tx_execute (fun db =>
    update schema db "journal_epochs" ["next_sequence"; "is_current"]
      (fun r => is_current r && col_is "next_sequence" (SInteger sequence) r) advance_sequence) in
  if Nat.eqb affected 1
  then tx_ret {| cursor_epoch := epoch; cursor_sequence := sequence |}
  else tx_fail (InvariantViolated (Broken "journal sequence allocation")).

(** The row of an event; [provenance] is the command's identity or none. *)
Definition event_row (amb : Ambient) (cursor : JournalCursor) (event_type : string)
    (provenance : option (string * string)) : list (string * SqlValue) :=
  [("event_id", SText (amb_event_id amb)); ("journal_epoch", SText (cursor_epoch cursor));
   ("sequence", SInteger (cursor_sequence cursor)); ("event_type", SText event_type);
   ("recorded_at", SInteger (amb_now amb));
   ("command_epoch", match provenance with
                     | Some (e, _) => SText e
                     | None => SNull
                     end);
   ("command_id", match provenance with
                  | Some (_, i) => SText i
                  | None => SNull
                  end)].

(** A UNIQUE violation of the journal slot is reported as a broken invariant. *)
Definition append_event (amb : Ambient) (c : Command) (cursor : JournalCursor) : Tx Z := fun w =>
  match tx_execute (fun db => insert_row schema db "event_journal"
          (event_row amb cursor (cmd_event_type c) (Some (cmd_epoch c, cmd_id c)))) w with
  | (Ok _, w') => (Ok (amb_now amb), w')
  | (Err (Sqlite UniqueConstraint), w') =>
      tx_fail (InvariantViolated (OccupiedSlot (cursor_epoch cursor) (cursor_sequence cursor))) w'
  | (Err other, w') => (Err other, w')
  end.

Definition ledger_row (c : Command) (cursor : JournalCursor) (recorded_at : Z) :
    list (string * SqlValue) :=
  [("command_epoch", SText (cmd_epoch c)); ("command_id", SText (cmd_id c));
   ("request_hash", SBlob (cmd_request_hash c)); ("journal_epoch", SText (cursor_epoch cursor));
   ("sequence", SInteger (cursor_sequence cursor)); ("recorded_at", SInteger recorded_at)].

Definition record_command (c : Command) (cursor : JournalCursor) (recorded_at : Z) : Tx unit :=
  do! tx_execute (fun db => insert_row schema db "commands" (ledger_row c cursor recorded_at)) in
  tx_ret tt.

(** The whole envelope. *)
Definition execute {A} (amb : Ambient) (c : Command) (mutation : Tx A) : Tx (Committed A) :=
  do! fence_epoch (cmd_epoch c) in
  let! entry := lookup_command c in
  match entry with
  | Some entry =>
      if negb (String.eqb (le_request_hash entry) (cmd_request_hash c))
      then tx_fail (CommandConflict (cmd_id c))
      else tx_ret (Replayed (le_cursor entry) (le_recorded_at entry))
  | None =>
      let! value := mutation in
      let! cursor := allocate_sequence in
      let! recorded_at := append_event amb c cursor in
      do! record_command c cursor recorded_at in
      tx_ret (Executed value cursor)
  end.

(** Events of controllers, which carry no command. *)
Definition append_internal_event (amb : Ambient) (event_type : string) : Tx JournalCursor :=
  let! cursor := allocate_sequence in
  do! tx_execute (fun db => insert_row schema db "event_journal"
        (event_row amb cursor event_type None)) in
  tx_ret cursor.

(** [Store::execute_command]: one transaction around the envelope. *)
Definition execute_command {A} (d : Driver) (amb : Ambient) (c : Command) (mutation : Tx A) :
    Connection → Result (Committed A) StoreError * Connection :=
  run d (execute amb c mutation).
End Kernel.

(** ** Lemmas *)

Lemma query_optional_Ok {A} schema table cols where_ (decode : Row → Result A SqliteError) w o w' :
  query_optional schema table cols where_ decode w = (Ok o, w') →
  w' = w ∧ match List.filter where_ (rows (w_db w) table) with
           | [] => o = None
           | r :: _ => ∃ a, decode r = Ok a ∧ o = Some a
           end.
Proof.
  unfold query_optional, tx_fail.
  destruct (try_bind (select schema (w_db w) table cols where_) _) as [o'|e] eqn:E; [|done].
  intros [= <- <-]. split; [done|]. apply try_bind_Ok in E as (l & ->%select_Ok & E).
  destruct (List.filter where_ _) as [|r l']; [by injection E|].
  apply try_bind_Ok in E as (a & Ha & [= <-]). eauto.
Qed.

Lemma expect_row_Ok {A} (m : Tx (option A)) what w a w' :
  expect_row m what w = (Ok a, w') → m w = (Ok (Some a), w').
Proof.
  unfold expect_row. intros H. apply tx_bind_Ok in H as ([a'|] & w1 & Hm & H); cbn in H.
  - by injection H as <- <-.
  - done.
Qed.

(** The four tables of the kernel. *)
Definition kernel_tables : list string := ["system_state"; "journal_epochs"; "event_journal"; "commands"].

(** A mutation that leaves the kernel's tables alone. *)
Definition respects_kernel {A} (m : Tx A) : Prop :=
  ∀ w v w', m w = (Ok v, w') → ∀ t, t ∈ kernel_tables → rows (w_db w') t = rows (w_db w) t.

(** A ledger row is the outcome of an event the journal holds. *)
Definition same_columns (cols : list string) (r s : Row) : Prop :=
  ∀ c, c ∈ cols → column r c = column s c.

Definition linked (events : list Row) (r : Row) : Prop :=
  ∃ ev, ev ∈ events ∧
    same_columns ["command_epoch"; "command_id"; "journal_epoch"; "sequence"; "recorded_at"] r ev.

(** The sequences of the events of one journal epoch, in append order. *)
Definition sequences (db : Database) (epoch : string) : list SqlValue :=
  map (fun r => column r "sequence")
    (List.filter (col_is "journal_epoch" (SText epoch)) (rows db "event_journal")).

(** The kernel's invariant: the installation is generation [g], the current
    journal is [e], its events are numbered from 1 without a gap and [n] is the
    next number, and every ledger row points at its event. *)
Record kernel (db : Database) (g e : string) (n : Z) : Prop := {
  kn_generation : ∃ r rest, List.filter (col_is "id" (SInteger 1)) (rows db "system_state") = r :: rest ∧
    column r "restore_generation" = SText g;
  kn_epoch : ∃ r, List.filter is_current (rows db "journal_epochs") = [r] ∧
    column r "epoch" = SText e ∧ column r "next_sequence" = SInteger n;
  kn_positive : (1 ≤ n)%Z;
  kn_sequences : sequences db e = map SInteger (counting 0 (Z.to_nat (n - 1)));
  kn_ledger : ∀ r, r ∈ rows db "commands" → linked (rows db "event_journal") r
}.

Lemma kernel_same db db' g e n :
  (∀ t, t ∈ kernel_tables → rows db' t = rows db t) → kernel db g e n → kernel db' g e n.
Proof.
  intros Hsame [H1 H2 H3 H4 H5].
  assert (rows db' "system_state" = rows db "system_state") as E1 by (apply Hsame; set_solver).
  assert (rows db' "journal_epochs" = rows db "journal_epochs") as E2 by (apply Hsame; set_solver).
  assert (rows db' "event_journal" = rows db "event_journal") as E3 by (apply Hsame; set_solver).
  assert (rows db' "commands" = rows db "commands") as E4 by (apply Hsame; set_solver).
  split; rewrite ?E1, ?E2, ?E3, ?E4; try done. unfold sequences in *. by rewrite E3.
Qed.

Lemma counting_snoc n k : counting n (S k) = counting n k ++ [(n + Z.of_nat (S k))%Z].
Proof.
  revert n; induction k as [|k IH]; intros n.
  - done.
  - change (counting n (S (S k))) with ((n + 1)%Z :: counting (n + 1) (S k)). rewrite IH. cbn. do 2 f_equal.
    f_equal. lia.
Qed.

Lemma is_current_advance r : is_current (advance_sequence r) = is_current r.
Proof. unfold is_current, col_is, advance_sequence. by rewrite column_insert_ne. Qed.

Lemma filter_app_b {A} (p : A → bool) l1 l2 : List.filter p (l1 ++ l2) = List.filter p l1 ++ List.filter p l2.
Proof. induction l1 as [|x l1 IH]; cbn; [done|]. destruct (p x); cbn; by rewrite IH. Qed.

(** The allocator hands out the next number of the current journal and advances. *)
Lemma allocate_sequence_Ok w cur w' g e n :
  kernel (w_db w) g e n → allocate_sequence MIGRATIONS w = (Ok cur, w') →
  cur = {| cursor_epoch := e; cursor_sequence := n |} ∧ w_failed w' = w_failed w ∧
  (∀ t, t ≠ "journal_epochs" → rows (w_db w') t = rows (w_db w) t) ∧
  ∃ r, List.filter is_current (rows (w_db w') "journal_epochs") = [r] ∧
    column r "epoch" = SText e ∧ column r "next_sequence" = SInteger (n + 1).
Proof.
  intros [_ (r & Hf & He & Hn) _ _ _] H. unfold allocate_sequence in H.
  apply tx_bind_Ok in H as ([e' n'] & w1 & Hq%expect_row_Ok%query_optional_Ok & H).
  destruct Hq as [-> Hq]. rewrite Hf in Hq. destruct Hq as (a & Ha & [= <-]).
  unfold get_text, get_integer in Ha. rewrite He, Hn in Ha. cbn in Ha. injection Ha as <- <-.
  apply tx_bind_Ok in H as (k & w2 & [Hu Hfail]%tx_execute_Ok & H).
  apply update_Ok in Hu as (_ & Hv & Hdb). destruct (Nat.eqb k 1); [|done].
  unfold tx_ret in H. injection H as <- <-. split; [done|]. split; [done|]. split.
  { intros t Ht. rewrite Hdb. by apply rows_insert_ne. }
  assert (is_current r = true ∧ col_is "next_sequence" (SInteger n) r = true) as [Hcur Hseq].
  { split; [|apply col_is_true; by rewrite Hn].
    assert (r ∈ List.filter is_current (rows (w_db w) "journal_epochs")) as Hin by (rewrite Hf; left).
    by apply list_elem_of_In, filter_In in Hin as [_ ?]. }
  assert (List.filter is_current (rows (w_db w2) "journal_epochs") = [advance_sequence r]) as Hf2.
  { rewrite Hdb, rows_insert, filter_map_stable.
    - rewrite Hf. cbn. by rewrite Hcur, Hseq.
    - intros x. destruct (_ && _); [apply is_current_advance|done]. }
  exists (advance_sequence r). split; [done|]. unfold advance_sequence.
  rewrite column_insert_ne, column_insert, Hn by done. split; [done|]. cbn.
  destruct (in_i64 (n + 1)) eqn:Hi; [done|]. exfalso.
  eapply (valid_integer MIGRATIONS (w_db w2) "journal_epochs" journal_epochs_table "next_sequence" true
    (advance_sequence r)); [done|reflexivity|set_solver| |].
  - assert (advance_sequence r ∈ [advance_sequence r]) as Hin by left. rewrite <-Hf2 in Hin.
    by apply list_elem_of_In, filter_In in Hin as [?%list_elem_of_In _].
  - unfold advance_sequence. rewrite column_insert, Hn. cbn. by rewrite Hi.
Qed.

Lemma column_cons k v l c :
  column (list_to_map ((k, v) :: l)) c = if String.eqb c k then v else column (list_to_map l) c.
Proof.
  cbn [list_to_map foldr]. destruct (String.eqb_spec c k) as [->|Hne].
  - apply column_insert.
  - by apply column_insert_ne.
Qed.

Lemma append_event_Ok amb c cur w t w' :
  append_event MIGRATIONS amb c cur w = (Ok t, w') →
  t = amb_now amb ∧ w_failed w' = w_failed w ∧
  w_db w' = <["event_journal" := rows (w_db w) "event_journal" ++
     [list_to_map (event_row amb cur (cmd_event_type c) (Some (cmd_epoch c, cmd_id c)))]]> (w_db w).
Proof.
  unfold append_event. destruct (tx_execute _ w) as [[k|err] w1] eqn:E.
  - intros [= <- <-]. apply tx_execute_Ok in E as [Hi Hf]. by apply insert_row_Ok in Hi as (_ & _ & ->).
  - intros H. destruct err; [destruct e|..]; discriminate H.
Qed.

Lemma record_command_Ok c cur t w u w' :
  record_command MIGRATIONS c cur t w = (Ok u, w') →
  w_failed w' = w_failed w ∧
  w_db w' = <["commands" := rows (w_db w) "commands" ++ [list_to_map (ledger_row c cur t)]]> (w_db w).
Proof.
  unfold record_command. intros H. apply tx_bind_Ok in H as (k & w1 & [Hi Hf]%tx_execute_Ok & H).
  apply insert_row_Ok in Hi as (_ & _ & Hdb). unfold tx_ret in H. by injection H as _ <-.
Qed.

Lemma fence_epoch_Ok supplied w u w' g e n :
  kernel (w_db w) g e n → fence_epoch MIGRATIONS supplied w = (Ok u, w') → supplied = g ∧ w' = w.
Proof.
  intros [(r & rest & Hf & Hg) _ _ _ _] H. unfold fence_epoch in H.
  apply tx_bind_Ok in H as (current & w1 & Hq%expect_row_Ok%query_optional_Ok & H).
  destruct Hq as [-> Hq]. rewrite Hf in Hq. destruct Hq as (a & Ha & [= <-]).
  unfold get_text in Ha. rewrite Hg in Ha. injection Ha as <-.
  destruct (String.eqb_spec supplied g); [|done]. by injection H as _ <-.
Qed.

Lemma filter_one (p : Row → bool) r : p r = true → List.filter p [r] = [r].
Proof. intros H. cbn [List.filter]. by rewrite H. Qed.

Lemma next_counting n :
  (1 ≤ n)%Z → map SInteger (counting 0 (Z.to_nat (n - 1))) ++ [SInteger n] =
              map SInteger (counting 0 (Z.to_nat (n + 1 - 1))).
Proof.
  intros Hn. replace (Z.to_nat (n + 1 - 1)) with (S (Z.to_nat (n - 1))) by lia.
  rewrite counting_snoc, map_app. cbn. do 3 f_equal. lia.
Qed.

(** One committed command keeps the invariant and consumes one number. *)
Lemma execute_new amb c w1 w2 w3 w4 cur t u g e n :
  kernel (w_db w1) g e n →
  allocate_sequence MIGRATIONS w1 = (Ok cur, w2) → append_event MIGRATIONS amb c cur w2 = (Ok t, w3) →
  record_command MIGRATIONS c cur t w3 = (Ok u, w4) →
  cur = {| cursor_epoch := e; cursor_sequence := n |} ∧ t = amb_now amb ∧
  kernel (w_db w4) g e (n + 1) ∧
  rows (w_db w4) "commands" = rows (w_db w1) "commands" ++ [list_to_map (ledger_row c cur t)].
Proof.
  intros Hk Ha He Hr. destruct (allocate_sequence_Ok _ _ _ _ _ _ Hk Ha) as (-> & _ & Hsame & Hep).
  apply append_event_Ok in He as (-> & _ & H3). apply record_command_Ok in Hr as (_ & H4).
  destruct Hk as [Hgen _ Hpos Hseq Hled].
  assert (rows (w_db w4) "commands" = rows (w_db w1) "commands" ++ [list_to_map (ledger_row c {| cursor_epoch := e; cursor_sequence := n |} (amb_now amb))]) as Hcmd.
  { rewrite H4, rows_insert, H3, rows_insert_ne, Hsame by done. done. }
  assert (rows (w_db w4) "event_journal" = rows (w_db w1) "event_journal" ++
    [list_to_map (event_row amb {| cursor_epoch := e; cursor_sequence := n |} (cmd_event_type c)
       (Some (cmd_epoch c, cmd_id c)))]) as Hev.
  { rewrite H4, rows_insert_ne, H3, rows_insert, Hsame by done. done. }
  split_and!; [done|done| |done]. split.
  - rewrite H4, rows_insert_ne, H3, rows_insert_ne, Hsame by done. done.
  - rewrite H4, rows_insert_ne, H3, rows_insert_ne by done. done.
  - lia.
  - unfold sequences. rewrite Hev, filter_app_b, map_app.
    fold (sequences (w_db w1) e). rewrite Hseq.
    rewrite filter_one.
    + cbn [map]. unfold event_row. rewrite !column_cons. by apply next_counting.
    + apply col_is_true. unfold event_row. by rewrite !column_cons.
  - rewrite Hcmd, Hev. intros r [Hin|Hin%list_elem_of_singleton]%elem_of_app.
    + destruct (Hled r Hin) as (ev & Hv & Hc). exists ev. split; [apply elem_of_app; by left|done].
    + subst r. eexists. split; [apply elem_of_app; right; left|].
      intros col Hcol. unfold ledger_row, event_row. rewrite !column_cons.
      set_unfold in Hcol. destruct_or!; subst; reflexivity.
Qed.

Lemma lookup_command_Ok c w o w' :
  lookup_command MIGRATIONS c w = (Ok o, w') →
  w' = w ∧ match List.filter (command_where c) (rows (w_db w) "commands") with
           | [] => o = None
           | r :: _ => ∃ a, decode_ledger r = Ok a ∧ o = Some a
           end.
Proof. apply query_optional_Ok. Qed.

(** Every way the envelope can return a value. *)
Lemma execute_Ok {A} amb c (m : Tx A) w r w' g e n :
  kernel (w_db w) g e n → respects_kernel m → execute MIGRATIONS amb c m w = (Ok r, w') →
  cmd_epoch c = g ∧
  match r with
  | Replayed cur t =>
      w' = w ∧ ∃ row rest entry,
        List.filter (command_where c) (rows (w_db w) "commands") = row :: rest ∧
        decode_ledger row = Ok entry ∧ le_request_hash entry = cmd_request_hash c ∧
        le_cursor entry = cur ∧ le_recorded_at entry = t
  | Executed v cur =>
      List.filter (command_where c) (rows (w_db w) "commands") = [] ∧
      cur = {| cursor_epoch := e; cursor_sequence := n |} ∧ kernel (w_db w') g e (n + 1) ∧
      rows (w_db w') "commands" =
        rows (w_db w) "commands" ++ [list_to_map (ledger_row c cur (amb_now amb))]
  end.
Proof.
  intros Hk Hm H. unfold execute in H.
  apply tx_bind_Ok in H as ([] & w1 & Hf & H).
  destruct (fence_epoch_Ok _ _ _ _ _ _ _ Hk Hf) as [-> ->]. split; [done|].
  apply tx_bind_Ok in H as (o & w2 & [-> Hl]%lookup_command_Ok & H).
  destruct o as [entry|].
  - destruct (String.eqb_spec (le_request_hash entry) (cmd_request_hash c)) as [Hh|]; cbn [negb] in H; [|done].
    unfold tx_ret in H. injection H as <- <-. split; [done|].
    destruct (List.filter _ _) as [|row rest]; [done|]. destruct Hl as (a & Ha & [= <-]). eauto 10.
  - apply tx_bind_Ok in H as (v & w3 & Hmut & H). pose proof (Hm _ _ _ Hmut) as Hsame.
    apply tx_bind_Ok in H as (cur & w4 & Ha & H). apply tx_bind_Ok in H as (t & w5 & He & H).
    apply tx_bind_Ok in H as (u & w6 & Hr & H). unfold tx_ret in H. injection H as <- <-.
    destruct (execute_new amb c w3 w4 w5 w6 cur t u _ _ _ (kernel_same _ _ _ _ _ Hsame Hk) Ha He Hr)
      as (-> & -> & Hk' & Hcmd).
    rewrite (Hsame "commands") in Hcmd by set_solver. split_and!; try done.
    destruct (List.filter _ _) as [|row rest]; [done|]. by destruct Hl as (? & _ & ?).
Qed.

(** ** Histories of commands *)

Record Call : Type := {
  call_driver : Driver;
  call_ambient : Ambient;
  call_command : Command;
  call_mutation : Tx unit
}.

Definition call (k : Call) : Connection → Result (Committed unit) StoreError * Connection :=
  execute_command MIGRATIONS (call_driver k) (call_ambient k) (call_command k) (call_mutation k).

Fixpoint calls (l : list Call) (c : Connection) :
    list (Result (Committed unit) StoreError) * Connection :=
  match l with
  | [] => ([], c)
  | k :: rest =>
      let (r, c1) := call k c in
      let (rs, c2) := calls rest c1 in
      (r :: rs, c2)
  end.

(** The journal positions of the commands that executed, in order. *)
Definition executed_cursors (l : list (Result (Committed unit) StoreError)) : list JournalCursor :=
  omap (fun r => match r with
                 | Ok (Executed _ cur) => Some cur
                 | _ => None
                 end) l.

Definition well_behaved (l : list Call) : Prop := ∀ k, k ∈ l → respects_kernel (call_mutation k).

Lemma command_step {A} d amb c (m : Tx A) conn g e n :
  kernel (conn_db conn) g e n → respects_kernel m →
  match execute_command MIGRATIONS d amb c m conn with
  | (Ok (Executed v cur), conn') =>
      cmd_epoch c = g ∧ cur = {| cursor_epoch := e; cursor_sequence := n |} ∧
      kernel (conn_db conn') g e (n + 1) ∧
      List.filter (command_where c) (rows (conn_db conn) "commands") = [] ∧
      rows (conn_db conn') "commands" =
        rows (conn_db conn) "commands" ++ [list_to_map (ledger_row c cur (amb_now amb))]
  | (_, conn') => conn_db conn' = conn_db conn
  end.
Proof.
  intros Hk Hm. unfold execute_command. pose proof (run_spec d (execute MIGRATIONS amb c m) conn) as Hr.
  destruct (run d _ conn) as [[r|err] conn']; [|done].
  destruct Hr as (_ & _ & w & Hx & _ & Hdb).
  apply (execute_Ok amb c m {| w_db := conn_db conn; w_failed := false |} r w g e n Hk Hm) in Hx
    as [Hg Hr].
  destruct r as [v cur|cur t]; rewrite Hdb.
  - destruct Hr as (? & ? & ? & ?). done.
  - destruct Hr as [-> _]. done.
Qed.

(** The ledger answers for the command with this cursor and time. *)
Definition recorded (db : Database) (c : Command) (cur : JournalCursor) (t : Z) : Prop :=
  ∃ rest, List.filter (command_where c) (rows db "commands") = list_to_map (ledger_row c cur t) :: rest.

Lemma ledger_row_matches c cur t : command_where c (list_to_map (ledger_row c cur t)) = true.
Proof.
  unfold command_where. rewrite andb_true_iff, !col_is_true. unfold ledger_row. by rewrite !column_cons.
Qed.

Lemma decode_ledger_row c cur t :
  decode_ledger (list_to_map (ledger_row c cur t)) =
  Ok {| le_request_hash := cmd_request_hash c; le_cursor := cur; le_recorded_at := t |}.
Proof.
  unfold decode_ledger, get_blob, get_text, get_integer, ledger_row. rewrite !column_cons. cbn.
  by destruct cur.
Qed.

Lemma recorded_grows db db' c cur t l :
  rows db' "commands" = rows db "commands" ++ l → recorded db c cur t → recorded db' c cur t.
Proof.
  intros Hg [rest Hf]. exists (rest ++ List.filter (command_where c) l).
  by rewrite Hg, filter_app_b, Hf.
Qed.

Lemma calls_spec l conn g e n :
  kernel (conn_db conn) g e n → well_behaved l →
  let (rs, conn') := calls l conn in
  let k := length (executed_cursors rs) in
  kernel (conn_db conn') g e (n + Z.of_nat k) ∧
  executed_cursors rs =
    map (fun i => {| cursor_epoch := e; cursor_sequence := i |}) (counting (n - 1) k) ∧
  ∃ added, rows (conn_db conn') "commands" = rows (conn_db conn) "commands" ++ added.
Proof.
  revert conn n; induction l as [|k l IH]; intros conn n Hk Hw; cbn [calls].
  { cbn. rewrite Z.add_0_r. split; [done|]. split; [done|]. exists []. by rewrite app_nil_r. }
  assert (well_behaved l) as Hw' by (intros x Hx; apply Hw; by right).
  pose proof (command_step (call_driver k) (call_ambient k) (call_command k) (call_mutation k) conn
    g e n Hk (Hw k ltac:(left))) as Hstep.
  unfold call. destruct (execute_command _ _ _ _ _ conn) as [[[v cur|cur t]|err] c1].
  - destruct Hstep as (_ & -> & Hk1 & _ & Hc1). specialize (IH c1 _ Hk1 Hw').
    destruct (calls l c1) as [rs c2]. destruct IH as (IH1 & IH2 & added & IH3).
    change (executed_cursors (Ok (Executed v {| cursor_epoch := e; cursor_sequence := n |}) :: rs))
      with ({| cursor_epoch := e; cursor_sequence := n |} :: executed_cursors rs).
    cbn [length counting map]. split_and!.
    + by replace (n + Z.of_nat (S (length (executed_cursors rs))))%Z
        with (n + 1 + Z.of_nat (length (executed_cursors rs)))%Z by lia.
    + replace (n - 1 + 1)%Z with n by lia. f_equal. rewrite IH2 at 1.
      by replace (n + 1 - 1)%Z with n by lia.
    + eexists. by rewrite IH3, Hc1, <-app_assoc.
  - rewrite <-Hstep in Hk. specialize (IH c1 n Hk Hw'). destruct (calls l c1) as [rs c2].
    by rewrite Hstep in IH.
  - rewrite <-Hstep in Hk. specialize (IH c1 n Hk Hw'). destruct (calls l c1) as [rs c2].
    by rewrite Hstep in IH.
Qed.

(** ** Retries *)

Lemma query_migrations {A} table cols where_ (decode : Row → Result A SqliteError) w t :
  table_schema MIGRATIONS table = Some t → known_columns t cols = Ok tt →
  query_optional MIGRATIONS table cols where_ decode w =
  match List.filter where_ (rows (w_db w) table) with
  | [] => (Ok None, w)
  | r :: _ => match decode r with
              | Ok a => (Ok (Some a), w)
              | Err err => tx_fail (Sqlite err) w
              end
  end.
Proof.
  intros Ht Hc. unfold query_optional, select. rewrite Ht. cbn [ok_or try_bind]. rewrite Hc. cbn [try_bind].
  destruct (List.filter where_ _) as [|r rest]; [done|]. by destruct (decode r).
Qed.

Lemma fence_epoch_eval supplied w g e n :
  kernel (w_db w) g e n →
  fence_epoch MIGRATIONS supplied w =
    if String.eqb supplied g then (Ok tt, w) else tx_fail (StaleCommandEpoch supplied g) w.
Proof.
  intros [(r & rest & Hf & Hg) _ _ _ _]. unfold fence_epoch, expect_row, tx_bind.
  rewrite (query_migrations _ _ _ _ _ system_state_table) by reflexivity.
  rewrite Hf. unfold get_text. rewrite Hg. cbn. by destruct (String.eqb supplied g).
Qed.

Lemma run_working_Err {A} (f : Tx A) c err w :
  conn_autocommit c = true → f {| w_db := conn_db c; w_failed := false |} = (Err err, w) →
  run working f c = (Err err, c).
Proof.
  intros Ha Hf. unfold run. rewrite Ha. cbn. rewrite Hf. destruct c; cbn in *. by rewrite Ha.
Qed.

Lemma retry_recorded {B} amb c h et (m : Tx B) conn cur t g e n :
  kernel (conn_db conn) g e n → cmd_epoch c = g → recorded (conn_db conn) c cur t →
  conn_autocommit conn = true →
  execute_command MIGRATIONS working amb
    {| cmd_epoch := cmd_epoch c; cmd_id := cmd_id c; cmd_request_hash := h; cmd_event_type := et |} m conn =
  if String.eqb (cmd_request_hash c) h then (Ok (Replayed cur t), conn)
  else (Err (CommandConflict (cmd_id c)), conn).
Proof.
  intros Hk Hg [rest Hf] Ha. set (c2 := {| cmd_epoch := _; cmd_id := _ |}).
  set (w := {| w_db := conn_db conn; w_failed := false |}).
  assert (execute MIGRATIONS amb c2 m w =
    if String.eqb (cmd_request_hash c) h then (Ok (Replayed cur t), w)
    else tx_fail (CommandConflict (cmd_id c)) w) as Hx.
  { unfold execute, tx_bind. rewrite (fence_epoch_eval _ w g e n Hk). cbn [cmd_epoch c2].
    rewrite Hg, String.eqb_refl. unfold lookup_command.
    rewrite (query_migrations _ _ _ _ _ commands_table) by reflexivity.
    change (command_where c2) with (command_where c). cbn [w_db w]. rewrite Hf, decode_ledger_row. cbn.
    by destruct (String.eqb (cmd_request_hash c) h). }
  unfold execute_command. destruct (String.eqb (cmd_request_hash c) h).
  - rewrite (run_working _ _ _ w Ha Hx) by done. cbn. destruct conn; cbn in *. by rewrite Ha.
  - by apply (run_working_Err _ _ _ _ Ha Hx).
Qed.

Lemma stale_refused {B} amb c (m : Tx B) conn g e n :
  kernel (conn_db conn) g e n → cmd_epoch c ≠ g → conn_autocommit conn = true →
  execute_command MIGRATIONS working amb c m conn = (Err (StaleCommandEpoch (cmd_epoch c) g), conn).
Proof.
  intros Hk Hne Ha. unfold execute_command.
  apply (run_working_Err _ _ _ {| w_db := conn_db conn; w_failed := true |} Ha).
  unfold execute, tx_bind. rewrite (fence_epoch_eval _ {| w_db := conn_db conn; w_failed := false |} g e n Hk).
  by destruct (String.eqb_spec (cmd_epoch c) g).
Qed.

(** A revisioned update of any other table leaves the kernel alone. *)
Lemma update_respects_kernel schema table kc key expected asg :
  ascii_lower table ∉ kernel_tables →
  respects_kernel (do! update_revisioned_by schema table kc key expected asg in tx_ret tt).
Proof.
  intros Hn w v w' H t Ht. apply tx_bind_Ok in H as (m & w1 & Hu & H).
  unfold tx_ret in H. injection H as _ <-.
  apply update_revisioned_by_Ok in Hu as (_ & _ & _ & _ & _ & ->).
  apply rows_insert_ne. by intros <-.
Qed.

(** ** Claims *)

(** C3: a command takes effect exactly once. After a command executed, and after
    any further history of commands over the kernel (whatever mutations they run
    on other tables, whatever fails), presenting the same identity again never
    runs its mutation: with the same request hash it returns the cursor and time
    of the first execution and leaves the database as it is, with another hash
    it is refused; and a command of another epoch is refused as stale before the
    ledger is looked at. *)
Theorem command_exactly_once {A B} d amb c (m : Tx A) conn v cur conn1 l g e n
    (Hkernel : kernel (conn_db conn) g e n) (Hm : respects_kernel m) (Hl : well_behaved l)
    (Hfirst : execute_command MIGRATIONS d amb c m conn = (Ok (Executed v cur), conn1))
    (Hready : conn_autocommit (calls l conn1).2 = true) :
  ∀ amb2 (m2 : Tx B) h et c2,
    execute_command MIGRATIONS working amb2
      {| cmd_epoch := cmd_epoch c; cmd_id := cmd_id c; cmd_request_hash := h; cmd_event_type := et |}
      m2 (calls l conn1).2 =
    (if String.eqb (cmd_request_hash c) h
     then (Ok (Replayed cur (amb_now amb)), (calls l conn1).2)
     else (Err (CommandConflict (cmd_id c)), (calls l conn1).2)) ∧
    (cmd_epoch c2 ≠ cmd_epoch c →
     execute_command MIGRATIONS working amb2 c2 m2 (calls l conn1).2 =
       (Err (StaleCommandEpoch (cmd_epoch c2) (cmd_epoch c)), (calls l conn1).2)).
Proof.
  intros amb2 m2 h et c2. pose proof (command_step d amb c m conn g e n Hkernel Hm) as Hs.
  rewrite Hfirst in Hs. destruct Hs as (Hg & _ & Hk1 & Hnone & Hrows).
  pose proof (calls_spec l conn1 g e _ Hk1 Hl) as Hc. destruct (calls l conn1) as [rs later].
  destruct Hc as (Hk2 & _ & added & Hadd). cbn in *. split.
  - eapply retry_recorded; [exact Hk2|exact Hg| |exact Hready].
    eapply recorded_grows; [exact Hadd|]. exists [].
    rewrite Hrows, filter_app_b, Hnone. apply filter_one, ledger_row_matches.
  - intros Hne. rewrite Hg. eapply stale_refused; [exact Hk2|by rewrite <-Hg|exact Hready].
Qed.

Definition sample_ambient (i : string) : Ambient := {| amb_event_id := i; amb_now := 1700000000 |}.

Definition sample_generation : string := "0123456789abcdef0123456789abcdef".
Definition sample_journal : string := "fedcba9876543210fedcba9876543210".
Definition sample_hash : string := "hash-hash-hash-hash-hash-hash-ha".

Definition sample_command (id : string) : Command := {|
  cmd_epoch := sample_generation; cmd_id := id; cmd_request_hash := sample_hash;
  cmd_event_type := "goal.activated" |}.

Definition sample_mutation (expected : Z) (phase : string) : Tx unit :=
  do! update_revisioned_by MIGRATIONS "goals" ID_COLUMN "goal-1" expected [("phase", SText phase)] in
  tx_ret tt.

Definition sample_calls : list Call := [
  {| call_driver := working; call_ambient := sample_ambient "00000000000000000000000000000002";
     call_command := sample_command "c2"; call_mutation := sample_mutation 2 "Evaluating" |};
  {| call_driver := working; call_ambient := sample_ambient "00000000000000000000000000000003";
     call_command := sample_command "c3"; call_mutation := sample_mutation 2 "Active" |}].

Lemma sample_kernel : kernel (conn_db sample_connection) sample_generation sample_journal 1.
Proof.
  split.
  - eexists _, _. split; [vm_compute; reflexivity|reflexivity].
  - eexists. split; [vm_compute; reflexivity|]. split; reflexivity.
  - lia.
  - reflexivity.
  - intros r Hr. by apply not_elem_of_nil in Hr.
Qed.

Lemma sample_mutation_respects expected phase : respects_kernel (sample_mutation expected phase).
Proof.
  apply (update_respects_kernel MIGRATIONS "goals"). apply (bool_decide_unpack _). vm_compute. exact I.
Qed.

Lemma sample_well_behaved : well_behaved sample_calls.
Proof.
  intros k Hk. unfold sample_calls in Hk. set_unfold in Hk.
  destruct Hk as [->|[->|[]]]; apply sample_mutation_respects.
Qed.

Definition sample_after : Connection := Eval vm_compute in
  (execute_command MIGRATIONS working (sample_ambient "00000000000000000000000000000001")
     (sample_command "c1") (sample_mutation 1 "Active") sample_connection).2.

Lemma command_exactly_once_witness :
  execute_command MIGRATIONS working (sample_ambient "00000000000000000000000000000009")
    (sample_command "c1") (sample_mutation 1 "Evaluating") (calls sample_calls sample_after).2 =
  (Ok (Replayed {| cursor_epoch := sample_journal; cursor_sequence := 1 |} 1700000000),
   (calls sample_calls sample_after).2).
Proof.
  destruct (command_exactly_once (B:=unit) working (sample_ambient "00000000000000000000000000000001")
    (sample_command "c1") (sample_mutation 1 "Active") sample_connection tt
    {| cursor_epoch := sample_journal; cursor_sequence := 1 |} sample_after sample_calls
    sample_generation sample_journal 1 sample_kernel (sample_mutation_respects _ _) sample_well_behaved
    ltac:(vm_compute; reflexivity) ltac:(vm_compute; reflexivity)
    (sample_ambient "00000000000000000000000000000009") (sample_mutation 1 "Evaluating")
    sample_hash "goal.activated" (sample_command "c1")) as [Hr _].
  exact Hr.
Defined.

(** C4: the event journal is gap-free and ordered. Over any history of commands,
    the commands that execute get consecutive positions of the current journal
    epoch, starting at its next number; replays, refusals and failures consume
    none; afterwards the events of the epoch are numbered 1, 2, ... in append
    order up to the allocator, and every ledger row points at the event of its
    command. *)
Theorem journal_gap_free l conn g e n
    (Hkernel : kernel (conn_db conn) g e n) (Hl : well_behaved l) :
  let (rs, conn') := calls l conn in
  executed_cursors rs =
    map (fun i => {| cursor_epoch := e; cursor_sequence := i |})
      (counting (n - 1) (length (executed_cursors rs))) ∧
  kernel (conn_db conn') g e (n + Z.of_nat (length (executed_cursors rs))).
Proof.
  pose proof (calls_spec l conn g e n Hkernel Hl) as Hc. destruct (calls l conn) as [rs conn'].
  destruct Hc as (? & ? & _). done.
Qed.

Lemma sample_after_kernel : kernel (conn_db sample_after) sample_generation sample_journal 2.
Proof.
  pose proof (command_step working (sample_ambient "00000000000000000000000000000001")
    (sample_command "c1") (sample_mutation 1 "Active") sample_connection sample_generation
    sample_journal 1 sample_kernel (sample_mutation_respects _ _)) as Hs.
  assert (execute_command MIGRATIONS working (sample_ambient "00000000000000000000000000000001")
    (sample_command "c1") (sample_mutation 1 "Active") sample_connection =
    (Ok (Executed tt {| cursor_epoch := sample_journal; cursor_sequence := 1 |}), sample_after)) as Hx
    by (vm_compute; reflexivity).
  rewrite Hx in Hs. by destruct Hs as (_ & _ & ? & _).
Qed.

Lemma journal_gap_free_witness :
  let (rs, conn') := calls sample_calls sample_after in
  executed_cursors rs = [{| cursor_epoch := sample_journal; cursor_sequence := 2 |}] ∧
  kernel (conn_db conn') sample_generation sample_journal 3.
Proof.
  pose proof (journal_gap_free sample_calls sample_after sample_generation sample_journal 2 sample_after_kernel
    sample_well_behaved) as Hj.
  assert (length (executed_cursors (calls sample_calls sample_after).1) = 1) as Hlen
    by (vm_compute; reflexivity).
  destruct (calls sample_calls sample_after) as [rs conn']. cbn [fst] in Hlen. rewrite Hlen in Hj.
  exact Hj.
Defined.
