(* ===== verification/StoreBase.v ===== *)
(** * What the store's operations share

    The remaining statement forms of the source (insert-or-ignore, reads over
    joined rows), guards, decoders, the row a key names, and the rules that say
    which tables a transaction changes and how. *)

From Stdlib Require Import ZArith Ascii Lia.
From S2P Require Import Prelude Utf8 Canonical Digest Sql Schema Transaction Command.

(** ** Statements *)

Definition get_optional_text (c : string) (r : Row) : Result (option string) SqliteError :=
  match column r c with
  | SText s => Ok (Some s)
  | SNull => Ok None
  | _ => Err (InvalidColumnType c)
  end.

Definition get_optional_integer (c : string) (r : Row) : Result (option Z) SqliteError :=
  match column r c with
  | SInteger n => Ok (Some n)
  | SNull => Ok None
  | _ => Err (InvalidColumnType c)
  end.

Definition get_optional_blob (c : string) (r : Row) : Result (option string) SqliteError :=
  match column r c with
  | SBlob b => Ok (Some b)
  | SNull => Ok None
  | _ => Err (InvalidColumnType c)
  end.

(** [if !b { return writer.fail(e) }]. *)
Definition guard (b : bool) (e : StoreError) : Tx unit :=
  if b then tx_ret tt else tx_fail e.

(** [value.ok_or_else(...)?]: the error is returned unmarked. *)
Definition tx_some {A} (o : option A) (e : StoreError) : Tx A :=
  match o with
  | Some a => tx_ret a
  | None => tx_err e
  end.

(** [let Some(a) = value else { return writer.fail(e) }]. *)
Definition some_or_fail {A} (o : option A) (e : StoreError) : Tx A :=
  match o with
  | Some a => tx_ret a
  | None => tx_fail e
  end.

(** A result propagated by [?]. *)
Definition tx_try {A} (r : Result A StoreError) : Tx A :=
  match r with
  | Ok a => tx_ret a
  | Err e => tx_err e
  end.

(** A SELECT over several tables, through the writer: its failure marks. *)
Definition tx_query {A} (q : Database → Result A SqliteError) : Tx A := fun w =>
  match q (w_db w) with
  | Ok a => (Ok a, w)
  | Err e => tx_fail (Sqlite e) w
  end.

(** [SELECT unixepoch()]. *)
Definition now (amb : Ambient) : Tx Z := tx_ret (amb_now amb).

(** [String::from_utf8(value.to_canonical_bytes()).unwrap_or_default()]. *)
Definition canonical_json (v : Value) : string :=
  let bytes := to_canonical_bytes v in
  if utf8_valid bytes then bytes else EmptyString.

(** A loop over a list, left at the first error. *)
Fixpoint tx_for_each {A} (f : A → Tx unit) (l : list A) : Tx unit :=
  match l with
  | [] => tx_ret tt
  | a :: l => do! f a in tx_for_each f l
  end.

Definition digest_blob (d : Digest) : SqlValue := SBlob (digest_bytes d).

Definition digest_from (bytes column : string) : Result Digest StoreError :=
  if Nat.eqb (String.length bytes) 32 then Ok (mk_digest bytes)
  else Err (InvariantViolated (BrokenAt (message "not a 32-byte digest" [column]))).

(** The row the text [k] names in a table. *)
Definition row_of (db : Database) (table kc k : string) : option Row :=
  match List.filter (col_is kc (SText k)) (rows db table) with
  | [] => None
  | r :: _ => Some r
  end.

Section Store.
Variable schema : Schema.

Definition tx_insert (table : string) (r : list (string * SqlValue)) : Tx nat :=
  tx_execute (fun db => insert_row schema db table r).

(** [INSERT ... ON CONFLICT (cols) DO NOTHING]: the new row's own constraints come
    first; a row with the same key then makes the statement a no-op. *)
Definition insert_or_ignore (db : Database) (table : string) (key : list string)
    (r : list (string * SqlValue)) : Result (nat * Database) SqliteError :=
  let row : Row := list_to_map r in
  let? t := ok_or (table_schema schema table) (NoSuchTable table) in
  do? known_columns t (map fst r) in
  match row_violation t row with
  | Some e => Err e
  | None =>
      if existsb (fun s => match key_tuple key s, key_tuple key row with
                           | Some a, Some b => bool_decide (a = b)
                           | _, _ => false
                           end) (rows db table)
      then Ok (0, db)
      else insert_row schema db table r
  end.

Definition tx_insert_or_ignore (table : string) (key : list string) (r : list (string * SqlValue)) :
    Tx nat :=
  tx_execute (fun db => insert_or_ignore db table key r).

Definition tx_update (table : string) (cols : list string) (where_ : Row → bool) (set : Row → Row) :
    Tx nat :=
  tx_execute (fun db => update schema db table cols where_ set).

(** [ORDER BY c], bytewise on texts; rows with equal keys keep their order. *)
Definition text_order (c : string) (r s : Row) : comparison :=
  match column r c, column s c with
  | SText a, SText b => cmp a b
  | _, _ => Eq
  end.

Definition query_ordered {A} (table : string) (cols : list string) (where_ : Row → bool) (by_ : string)
    (decode : Row → Result A SqliteError) : Tx (list A) :=
  tx_query (fun db => let? l := select schema db table cols where_ in
                      collect decode (sort_by (text_order by_) l)).

(** [Store::read] with [query_row]: the first row of the committed database. *)
Definition read_row {A} (db : Database) (table : string) (cols : list string) (where_ : Row → bool)
    (decode : Row → Result A SqliteError) : Result (option A) StoreError :=
  map_err Sqlite (let? l := select schema db table cols where_ in
                  match l with
                  | [] => Ok None
                  | r :: _ => let? a := decode r in Ok (Some a)
                  end).

(** A query by text key, first row. *)
Definition query_by {A} (table kc k : string) (cols : list string)
    (decode : Row → Result A SqliteError) : Tx (option A) :=
  query_optional schema table (kc :: cols) (col_is kc (SText k)) decode.
End Store.

(** ** Inverting transactions *)

(** Decides membership of a closed list. *)
Ltac elem := apply (bool_decide_unpack _); vm_compute; exact I.

Lemma guard_passed b e w u w' : guard b e w = (Ok u, w') ↔ b = true ∧ w' = w.
Proof. unfold guard, tx_ret, tx_fail. destruct u, b; naive_solver. Qed.

Lemma tx_some_Ok {A} (o : option A) e w a w' : tx_some o e w = (Ok a, w') ↔ o = Some a ∧ w' = w.
Proof. unfold tx_some, tx_ret, tx_err. destruct o; naive_solver. Qed.

Lemma some_or_fail_Ok {A} (o : option A) e w a w' :
  some_or_fail o e w = (Ok a, w') ↔ o = Some a ∧ w' = w.
Proof. unfold some_or_fail, tx_ret, tx_fail. destruct o; naive_solver. Qed.

Lemma tx_try_Ok {A} (r : Result A StoreError) w a w' : tx_try r w = (Ok a, w') ↔ r = Ok a ∧ w' = w.
Proof. unfold tx_try, tx_ret, tx_err. destruct r; naive_solver. Qed.

Lemma tx_ret_Ok {A} (x a : A) w w' : tx_ret x w = (Ok a, w') ↔ a = x ∧ w' = w.
Proof. unfold tx_ret. naive_solver. Qed.

Lemma now_Ok amb w n w' : now amb w = (Ok n, w') ↔ n = amb_now amb ∧ w' = w.
Proof. apply tx_ret_Ok. Qed.

Lemma tx_query_Ok {A} (q : Database → Result A SqliteError) w a w' :
  tx_query q w = (Ok a, w') ↔ q (w_db w) = Ok a ∧ w' = w.
Proof. unfold tx_query, tx_fail. destruct (q (w_db w)); naive_solver. Qed.

Lemma query_by_Ok {A} schema table kc k cols (decode : Row → Result A SqliteError) w o w' :
  query_by schema table kc k cols decode w = (Ok o, w') →
  w' = w ∧ match row_of (w_db w) table kc k with
           | None => o = None
           | Some r => ∃ a, decode r = Ok a ∧ o = Some a
           end.
Proof.
  intros H. apply query_optional_Ok in H as [-> H]. split; [done|]. unfold row_of.
  by destruct (List.filter _ _).
Qed.

Lemma query_by_Some {A} schema table kc k cols (decode : Row → Result A SqliteError) w a w' :
  query_by schema table kc k cols decode w = (Ok (Some a), w') →
  w' = w ∧ ∃ r, row_of (w_db w) table kc k = Some r ∧ decode r = Ok a.
Proof.
  intros [-> H]%query_by_Ok. split; [done|]. destruct (row_of _ _ _ _) as [r|]; [|done].
  destruct H as (a' & Ha & [= <-]). eauto.
Qed.

Lemma tx_insert_Ok schema table r w n w' :
  tx_insert schema table r w = (Ok n, w') →
  n = 1 ∧ w_failed w' = w_failed w ∧ valid schema (w_db w') ∧
  w_db w' = <[table := rows (w_db w) table ++ [list_to_map r]]> (w_db w).
Proof. unfold tx_insert. intros [H Hf]%tx_execute_Ok. apply insert_row_Ok in H as (? & ? & ?). done. Qed.

Lemma tx_update_Ok schema table cols where_ set w n w' :
  tx_update schema table cols where_ set w = (Ok n, w') →
  n = length (List.filter where_ (rows (w_db w) table)) ∧ w_failed w' = w_failed w ∧
  valid schema (w_db w') ∧
  w_db w' = <[table := map (fun r => if where_ r then set r else r) (rows (w_db w) table)]> (w_db w).
Proof. unfold tx_update. intros [H Hf]%tx_execute_Ok. apply update_Ok in H as (? & ? & ?). done. Qed.

Lemma tx_insert_or_ignore_Ok schema table key r w n w' :
  tx_insert_or_ignore schema table key r w = (Ok n, w') →
  w_failed w' = w_failed w ∧
  (w_db w' = w_db w ∧
     (∃ s tuple, s ∈ rows (w_db w) table ∧ key_tuple key s = Some tuple ∧
        key_tuple key (list_to_map r) = Some tuple) ∨
   valid schema (w_db w') ∧ w_db w' = <[table := rows (w_db w) table ++ [list_to_map r]]> (w_db w)).
Proof.
  unfold tx_insert_or_ignore. intros [H Hf]%tx_execute_Ok. split; [done|]. unfold insert_or_ignore in H.
  apply try_bind_Ok in H as (t & _ & H). apply try_bind_Ok in H as ([] & _ & H).
  destruct (row_violation _ _); [done|]. destruct (existsb _ _) eqn:Ex.
  - injection H as _ <-. left. split; [done|]. apply existsb_exists in Ex as (s & Hs & Hk).
    destruct (key_tuple key s) as [a|] eqn:Ea; [|done].
    destruct (key_tuple key (list_to_map r)) as [b|] eqn:Eb; [|done].
    apply bool_decide_eq_true in Hk as ->. exists s, b. by rewrite list_elem_of_In.
  - right. apply insert_row_Ok in H as (_ & ? & ?). done.
Qed.

(** A loop whose body only checks. *)
Lemma tx_for_each_unchanged {A} (f : A → Tx unit) l w u w' :
  (∀ a w u w', f a w = (Ok u, w') → w' = w) → tx_for_each f l w = (Ok u, w') →
  w' = w ∧ ∀ a, a ∈ l → f a w = (Ok tt, w).
Proof.
  intros Hf. revert w. induction l as [|a l IH]; intros w.
  - intros [_ ->]%tx_ret_Ok. set_solver.
  - intros ([] & w1 & E & H)%tx_bind_Ok. pose proof (Hf _ _ _ _ E) as ->. destruct (IH _ H) as [-> Hl].
    split; [done|]. intros a' [->|?]%elem_of_cons; auto.
Qed.

(** *** Related lists *)

Lemma Forall2_in_l {A B} (P : A → B → Prop) l k x : Forall2 P l k → x ∈ l → ∃ y, y ∈ k ∧ P x y.
Proof. induction 1; set_solver. Qed.

Lemma Forall2_in_r {A B} (P : A → B → Prop) l k y : Forall2 P l k → y ∈ k → ∃ x, x ∈ l ∧ P x y.
Proof. induction 1; set_solver. Qed.

(** *** Assigned columns *)

(** The last value a SET clause gives a column. *)
Definition assigned (asg : list (string * SqlValue)) (c : string) : option SqlValue :=
  fold_left (fun acc a => if String.eqb (ascii_lower a.1) c then Some a.2 else acc) asg None.

Lemma column_set_clause asg r c :
  c ≠ REVISION_COLUMN → column (set_clause asg r) c = default (column r c) (assigned asg c).
Proof.
  intros Hc. unfold set_clause. rewrite column_insert_ne by done. unfold assigned.
  assert (∀ acc r', column r' c = default (column r c) acc →
    column (fold_left assign asg r') c = default (column r c)
      (fold_left (fun acc a => if String.eqb (ascii_lower a.1) c then Some a.2 else acc) asg acc)) as Hgen.
  { induction asg as [|a asg IH]; intros acc r' Hr; cbn; [done|]. apply IH. unfold assign.
    destruct (String.eqb_spec (ascii_lower a.1) c) as [->|Hne].
    - cbn. apply column_insert.
    - by rewrite column_insert_ne. }
  by apply Hgen.
Qed.

(** *** Decoded columns *)

Lemma get_text_Ok c r s : get_text c r = Ok s ↔ column r c = SText s.
Proof. unfold get_text. destruct (column r c); naive_solver. Qed.

Lemma get_integer_Ok c r n : get_integer c r = Ok n ↔ column r c = SInteger n.
Proof. unfold get_integer. destruct (column r c); naive_solver. Qed.

Lemma get_blob_Ok c r b : get_blob c r = Ok b ↔ column r c = SBlob b.
Proof. unfold get_blob. destruct (column r c); naive_solver. Qed.

Definition optional_integer (o : option Z) : SqlValue :=
  match o with
  | Some n => SInteger n
  | None => SNull
  end.

Lemma get_optional_text_Ok c r o : get_optional_text c r = Ok o ↔ column r c = text_or_null o.
Proof. unfold get_optional_text. destruct (column r c), o; naive_solver. Qed.

Lemma get_optional_integer_Ok c r o : get_optional_integer c r = Ok o ↔ column r c = optional_integer o.
Proof. unfold get_optional_integer. destruct (column r c), o; naive_solver. Qed.

Lemma query_optional_Some {A} schema table cols where_ (decode : Row → Result A SqliteError) w a w' :
  query_optional schema table cols where_ decode w = (Ok (Some a), w') →
  w' = w ∧ ∃ r, r ∈ rows (w_db w) table ∧ where_ r = true ∧ decode r = Ok a.
Proof.
  intros [-> Hq]%query_optional_Ok. split; [done|].
  destruct (List.filter where_ (rows (w_db w) table)) as [|r l] eqn:Ef; [done|].
  destruct Hq as (a' & Hd & [= <-]). exists r. assert (r ∈ r :: l) as Hin by left. rewrite <-Ef in Hin.
  apply list_elem_of_In, filter_In in Hin as [?%list_elem_of_In ?]. done.
Qed.

Lemma query_ordered_Ok {A} schema table cols where_ by_ (decode : Row → Result A SqliteError) w l w' :
  query_ordered schema table cols where_ by_ decode w = (Ok l, w') →
  w' = w ∧ Forall2 (fun r a => decode r = Ok a)
    (sort_by (text_order by_) (List.filter where_ (rows (w_db w) table))) l.
Proof.
  unfold query_ordered. intros [Hq ->]%tx_query_Ok. split; [done|].
  apply try_bind_Ok in Hq as (rs & ->%select_Ok & Hc). by apply collect_Ok.
Qed.

(** Takes apart the decoding of a row into the values of its columns. *)
Ltac decode_inv D :=
  repeat match type of D with
  | try_bind _ _ = Ok _ =>
      let a := fresh "v" in let E := fresh "C" in
      apply try_bind_Ok in D as (a & E & D);
      first [ apply get_text_Ok in E | apply get_integer_Ok in E | apply get_blob_Ok in E
            | apply get_optional_text_Ok in E | apply get_optional_integer_Ok in E | idtac ]
  end;
  try (injection D as D; subst).

(** One inversion step of a successful run; repeated, it leaves the facts of every
    statement the run went through. *)
Ltac tx_step_atom E :=
  try lazymatch type of E with
  | guard _ _ _ = (Ok ?u, _) => apply guard_passed in E as [E ->]; try clear u
  | tx_some _ _ _ = _ => apply tx_some_Ok in E as [E ->]
  | some_or_fail _ _ _ = _ => apply some_or_fail_Ok in E as [E ->]
  | tx_try _ _ = _ => apply tx_try_Ok in E as [E ->]
  | tx_or_fail _ _ = _ => apply tx_or_fail_Ok in E as [E ->]
  | now _ _ = _ => apply now_Ok in E as [-> ->]
  | tx_ret _ _ = _ => apply tx_ret_Ok in E as [-> ->]
  end.

Tactic Notation "tx_step" hyp(H) "as" ident(E) :=
  let a := fresh "a" in let w := fresh "w" in
  apply tx_bind_Ok in H as (a & w & E & H); tx_step_atom E.

Tactic Notation "tx_step" hyp(H) := let E := fresh "E" in tx_step H as E.


(** ** What a transaction preserves

    [R] relates the databases before and after a successful run. *)

Definition preserves (R : relation Database) {A} (m : Tx A) : Prop :=
  ∀ w a w', m w = (Ok a, w') → R (w_db w) (w_db w').

Lemma preserves_run (R : relation Database) {A} (m : Tx A) w a w' :
  m w = (Ok a, w') → preserves R m → R (w_db w) (w_db w').
Proof. intros Hm HR. by apply (HR _ _ _ Hm). Qed.

Create HintDb preserves.

Section Preserves.
Context (R : relation Database) `{!PreOrder R}.

Lemma preserves_unchanged {A} (m : Tx A) : (∀ w a w', m w = (Ok a, w') → w' = w) → preserves R m.
Proof. intros H w a w' E. by rewrite (H _ _ _ E). Qed.

Lemma preserves_ret {A} (a : A) : preserves R (tx_ret a).
Proof. apply preserves_unchanged. by intros w a' w' [_ ->]%tx_ret_Ok. Qed.

Lemma preserves_err {A} e : preserves R (tx_err (A:=A) e).
Proof. done. Qed.

Lemma preserves_fail {A} e : preserves R (tx_fail (A:=A) e).
Proof. done. Qed.

Lemma preserves_bind {A B} (m : Tx A) (k : A → Tx B) :
  preserves R m → (∀ a, preserves R (k a)) → preserves R (tx_bind m k).
Proof.
  intros Hm Hk w b w' (a & w1 & E & H)%tx_bind_Ok. etrans; [by eapply Hm|by eapply Hk].
Qed.

Lemma preserves_guard b e : preserves R (guard b e).
Proof. destruct b; [apply preserves_ret|apply preserves_fail]. Qed.

Lemma preserves_tx_some {A} (o : option A) e : preserves R (tx_some o e).
Proof. destruct o; [apply preserves_ret|apply preserves_err]. Qed.

Lemma preserves_some_or_fail {A} (o : option A) e : preserves R (some_or_fail o e).
Proof. destruct o; [apply preserves_ret|apply preserves_fail]. Qed.

Lemma preserves_tx_try {A} (r : Result A StoreError) : preserves R (tx_try r).
Proof. destruct r; [apply preserves_ret|apply preserves_err]. Qed.

Lemma preserves_tx_or_fail {A} (r : Result A StoreError) : preserves R (tx_or_fail r).
Proof. destruct r; [apply preserves_ret|apply preserves_fail]. Qed.

Lemma preserves_query {A} (q : Database → Result A SqliteError) : preserves R (tx_query q).
Proof. apply preserves_unchanged. by intros w a w' [_ ->]%tx_query_Ok. Qed.

Lemma preserves_query_optional {A} schema table cols where_ (decode : Row → Result A SqliteError) :
  preserves R (query_optional schema table cols where_ decode).
Proof. apply preserves_unchanged. by intros w a w' [-> _]%query_optional_Ok. Qed.

Lemma preserves_query_all {A} schema table cols where_ (decode : Row → Result A SqliteError) :
  preserves R (query_all schema table cols where_ decode).
Proof.
  apply preserves_unchanged. intros w a w'. unfold query_all, tx_fail.
  destruct (try_bind _ _); naive_solver.
Qed.

Lemma preserves_query_by {A} schema table kc k cols (decode : Row → Result A SqliteError) :
  preserves R (query_by schema table kc k cols decode).
Proof. apply preserves_query_optional. Qed.

Lemma preserves_query_ordered {A} schema table cols where_ by_ (decode : Row → Result A SqliteError) :
  preserves R (query_ordered schema table cols where_ by_ decode).
Proof. apply preserves_query. Qed.

Lemma preserves_expect_row {A} (m : Tx (option A)) what : preserves R m → preserves R (expect_row m what).
Proof. intros H. apply preserves_bind; [done|]. intros [a|]; [apply preserves_ret|apply preserves_err]. Qed.

Lemma preserves_for_each {A} (f : A → Tx unit) l : (∀ a, preserves R (f a)) → preserves R (tx_for_each f l).
Proof.
  intros Hf. induction l as [|a l IH]; [apply preserves_ret|]. apply preserves_bind; [done|]. by intros _.
Qed.

Lemma preserves_now amb : preserves R (now amb).
Proof. apply preserves_ret. Qed.
End Preserves.

#[export] Hint Resolve preserves_ret preserves_err preserves_fail preserves_guard preserves_tx_some
  preserves_some_or_fail preserves_tx_try preserves_tx_or_fail preserves_query preserves_query_optional
  preserves_query_all preserves_query_ordered preserves_query_by preserves_now preserves_expect_row : preserves.

(** Walks through the binds and branches of an operation; the statements are left
    to the rules of the relation. *)
Ltac solve_preserves :=
  repeat first
    [ progress cbn beta
    | match goal with
      | |- preserves _ (tx_bind _ _) => apply preserves_bind; [ apply _ | | intros ? ]
      | |- preserves _ (tx_for_each _ _) => apply preserves_for_each; [ apply _ | intros ? ]
      end
    | match goal with |- preserves _ (match ?x with _ => _ end) => destruct x end
    | solve [eauto with preserves typeclass_instances] ].

(** *** The tables it changes *)

Definition same_outside (tables : list string) (db db' : Database) : Prop :=
  ∀ t, t ∉ tables → rows db' t = rows db t.

#[export] Instance same_outside_preorder tables : PreOrder (same_outside tables).
Proof.
  split; [by intros db t|]. intros d1 d2 d3 H1 H2 t Ht. by rewrite (H2 t Ht), (H1 t Ht).
Qed.

Definition touches (tables : list string) {A} (m : Tx A) : Prop := preserves (same_outside tables) m.

Lemma same_outside_insert tables table l db :
  table ∈ tables → same_outside tables db (<[table := l]> db).
Proof. intros Ht t Hn. apply rows_insert_ne. by intros <-. Qed.

Lemma update_revisioned_by_touches tables schema table kc key expected asg :
  ascii_lower table ∈ tables →
  preserves (same_outside tables) (update_revisioned_by schema table kc key expected asg).
Proof.
  intros Ht w n w' (_ & _ & _ & _ & _ & ->)%update_revisioned_by_Ok. by apply same_outside_insert.
Qed.

Lemma update_revisioned_touches tables schema table key expected asg :
  ascii_lower table ∈ tables →
  preserves (same_outside tables) (update_revisioned schema table key expected asg).
Proof. apply update_revisioned_by_touches. Qed.

Lemma tx_insert_touches tables schema table r :
  table ∈ tables → preserves (same_outside tables) (tx_insert schema table r).
Proof. intros Ht w n w' (_ & _ & _ & ->)%tx_insert_Ok. by apply same_outside_insert. Qed.

Lemma tx_update_touches tables schema table cols where_ set :
  table ∈ tables → preserves (same_outside tables) (tx_update schema table cols where_ set).
Proof. intros Ht w n w' (_ & _ & _ & ->)%tx_update_Ok. by apply same_outside_insert. Qed.

Lemma tx_insert_or_ignore_touches tables schema table key r :
  table ∈ tables → preserves (same_outside tables) (tx_insert_or_ignore schema table key r).
Proof.
  intros Ht w n w' (_ & [[-> _]|[_ ->]])%tx_insert_or_ignore_Ok; [done|]. by apply same_outside_insert.
Qed.

Ltac solve_touches :=
  unfold touches;
  solve_preserves;
  first [ apply update_revisioned_by_touches | apply update_revisioned_touches | apply tx_insert_touches | apply tx_update_touches
        | apply tx_insert_or_ignore_touches ];
  elem.

(** Adds what a run that succeeded leaves alone. *)
Tactic Notation "tx_frame" hyp(E) constr(tables) "as" ident(F) :=
  opose proof (preserves_run (same_outside tables) _ _ _ _ E _) as F; [solve_touches|].

Lemma touches_respects_kernel {A} tables (m : Tx A) :
  touches tables m → (∀ t, t ∈ kernel_tables → t ∉ tables) → respects_kernel m.
Proof. intros Hm Hd w v w' H t Ht. apply (Hm _ _ _ H). by apply Hd. Qed.

(** *** Validity *)

Definition validity (schema : Schema) (db db' : Database) : Prop := valid schema db → valid schema db'.

#[export] Instance validity_preorder schema : PreOrder (validity schema).
Proof. split; [by intros db H|]. intros d1 d2 d3 H1 H2 H. auto. Qed.

Lemma update_revisioned_by_validity schema table kc key expected asg :
  preserves (validity schema) (update_revisioned_by schema table kc key expected asg).
Proof. by intros w n w' (_ & _ & ? & _)%update_revisioned_by_Ok _. Qed.

Lemma update_revisioned_validity schema table key expected asg :
  preserves (validity schema) (update_revisioned schema table key expected asg).
Proof. apply update_revisioned_by_validity. Qed.

Lemma tx_insert_validity schema table r : preserves (validity schema) (tx_insert schema table r).
Proof. by intros w n w' (_ & _ & ? & _)%tx_insert_Ok _. Qed.

Lemma tx_update_validity schema table cols where_ set :
  preserves (validity schema) (tx_update schema table cols where_ set).
Proof. by intros w n w' (_ & _ & ? & _)%tx_update_Ok _. Qed.

Lemma tx_insert_or_ignore_validity schema table key r :
  preserves (validity schema) (tx_insert_or_ignore schema table key r).
Proof. intros w n w' (_ & [[-> _]|[? _]])%tx_insert_or_ignore_Ok ?; done. Qed.

#[export] Hint Resolve update_revisioned_by_validity update_revisioned_validity tx_insert_validity tx_update_validity
  tx_insert_or_ignore_validity : preserves.

(** Adds that a run that succeeded left a valid database. *)
Tactic Notation "tx_valid" hyp(E) hyp(Hv) "as" ident(V) :=
  opose proof (preserves_run (validity _) _ _ _ _ E _ Hv) as V; [solve_preserves|].

(** *** Rows that stay *)

(** Every row of the table is kept as it is. *)
Definition rows_kept (table : string) (db db' : Database) : Prop :=
  ∃ added, rows db' table = rows db table ++ added.

#[export] Instance rows_kept_preorder table : PreOrder (rows_kept table).
Proof.
  split; [by intros db; exists []; rewrite app_nil_r|].
  intros d1 d2 d3 [l1 H1] [l2 H2]. exists (l1 ++ l2). by rewrite H2, H1, app_assoc.
Qed.

Lemma rows_kept_other t table l db : t ≠ table → rows_kept t db (<[table := l]> db).
Proof. intros Hne. exists []. by rewrite rows_insert_ne, app_nil_r. Qed.

Lemma rows_kept_append t table r db : rows_kept t db (<[table := rows db table ++ [r]]> db).
Proof.
  destruct (decide (t = table)) as [->|]; [|by apply rows_kept_other].
  exists [r]. by rewrite rows_insert.
Qed.

Lemma tx_insert_kept t schema table r : preserves (rows_kept t) (tx_insert schema table r).
Proof. intros w n w' (_ & _ & _ & ->)%tx_insert_Ok. apply rows_kept_append. Qed.

Lemma tx_insert_or_ignore_kept t schema table key r :
  preserves (rows_kept t) (tx_insert_or_ignore schema table key r).
Proof. intros w n w' (_ & [[-> _]|[_ ->]])%tx_insert_or_ignore_Ok; [done|]. apply rows_kept_append. Qed.

Lemma update_revisioned_by_kept t schema table kc key expected asg :
  t ≠ ascii_lower table → preserves (rows_kept t) (update_revisioned_by schema table kc key expected asg).
Proof.
  intros Hne w n w' (_ & _ & _ & _ & _ & ->)%update_revisioned_by_Ok. by apply rows_kept_other.
Qed.

Lemma tx_update_kept t schema table cols where_ set :
  t ≠ table → preserves (rows_kept t) (tx_update schema table cols where_ set).
Proof. intros Hne w n w' (_ & _ & _ & ->)%tx_update_Ok. by apply rows_kept_other. Qed.

#[export] Hint Resolve tx_insert_kept tx_insert_or_ignore_kept : preserves.
#[export] Hint Extern 1 (preserves (rows_kept _) (update_revisioned_by _ _ _ _ _ _)) =>
  apply update_revisioned_by_kept; discriminate : preserves.
#[export] Hint Extern 1 (preserves (rows_kept _) (update_revisioned _ _ _ _ _)) =>
  apply update_revisioned_by_kept; discriminate : preserves.
#[export] Hint Extern 1 (preserves (rows_kept _) (tx_update _ _ _ _ _)) =>
  apply tx_update_kept; discriminate : preserves.

(** ** The row of a key *)

Lemma filter_nil_b {A} (p : A → bool) l : List.filter p l = [] ↔ ∀ x, x ∈ l → p x = false.
Proof.
  induction l as [|x l IH]; cbn; [set_solver|]. destruct (p x) eqn:E; [|set_solver].
  split; [done|]. intros H. specialize (H x ltac:(left)). congruence.
Qed.

(** The key column of a declared table: no two rows share its value. *)
Class Keyed (schema : Schema) (table kc : string) : Prop :=
  keyed : ∃ t, table_schema schema table = Some t ∧
    ∃ k, k ∈ ts_keys t ∧ uk_columns k = [kc] ∧ ∀ r, uk_where k r = true.

(** A table whose revision column is an INTEGER. *)
Class Revisioned (schema : Schema) (table : string) : Prop :=
  revisioned : ∃ t nn, table_schema schema table = Some t ∧
    (REVISION_COLUMN, (TInteger, nn)) ∈ ts_columns t.

Lemma key_tuple_one kc v r : col_is kc v r = true → key_tuple [kc] r = Some [v].
Proof.
  intros [Hv Hc]%col_is_true. unfold key_tuple. cbn. rewrite Hc. unfold is_null. by case_bool_decide.
Qed.

(** A declared key admits at most one row of each tuple. *)
Lemma unique_filter_le schema db table t k (p : Row → bool) tuple :
  valid schema db → table_schema schema table = Some t → k ∈ ts_keys t →
  (∀ r, r ∈ rows db table → p r = true → uk_where k r = true ∧ key_tuple (uk_columns k) r = Some tuple) →
  length (List.filter p (rows db table)) ≤ 1.
Proof.
  intros Hv Ht Hk Hp. apply find_first_Some in Ht as [Hin Hname%String.eqb_eq]. subst table.
  pose proof (valid_key _ _ _ _ Hv Hin Hk) as Hnd. unfold key_tuples in Hnd.
  induction (rows db (ts_name t)) as [|r l IH]; cbn; [lia|].
  assert (∀ s, s ∈ l → p s = true → uk_where k s = true ∧ key_tuple (uk_columns k) s = Some tuple) as Hl
    by (intros s Hs; apply Hp; by right).
  destruct (p r) eqn:Er.
  - destruct (Hp r ltac:(left) Er) as [Hw Hkt]. cbn in Hnd. rewrite Hw in Hnd. cbn in Hnd. rewrite Hkt in Hnd.
    apply NoDup_cons in Hnd as [Hni _]. enough (List.filter p l = []) as -> by (cbn; lia).
    apply filter_nil_b. intros x Hx. apply not_true_iff_false. intros Hc. apply Hni.
    destruct (Hl x Hx Hc) as [Hwx Hkx]. apply list_elem_of_omap. exists x. split; [|done].
    apply list_elem_of_In, filter_In. by rewrite <-list_elem_of_In.
  - apply IH; [done|]. cbn in Hnd. destruct (uk_where k r); [|done]. cbn in Hnd.
    destruct (key_tuple (uk_columns k) r); [by apply NoDup_cons in Hnd as [_ ?]|done].
Qed.

Lemma filter_key_le schema db table kc v `{!Keyed schema table kc} :
  valid schema db → length (List.filter (col_is kc v) (rows db table)) ≤ 1.
Proof.
  intros Hv. destruct Keyed0 as (t & Ht & k & Hk & Hcols & Hwhere).
  eapply unique_filter_le; [done|done|done|]. intros r _ Hr. split; [done|]. rewrite Hcols. by apply key_tuple_one.
Qed.

Lemma keyed_NoDup schema db table kc (p : Row → bool) `{!Keyed schema table kc} :
  valid schema db → NoDup (omap (key_tuple [kc]) (List.filter p (rows db table))).
Proof.
  intros Hv. destruct Keyed0 as (t & Ht & k & Hk & Hcols & Hwhere).
  apply find_first_Some in Ht as [Hin Hname%String.eqb_eq]. subst table.
  pose proof (valid_key _ _ _ _ Hv Hin Hk) as Hnd. unfold key_tuples in Hnd. rewrite Hcols in Hnd.
  assert (∀ l, List.filter (uk_where k) l = l) as Hf.
  { intros l. induction l as [|r l IH]; cbn; [done|]. by rewrite Hwhere, IH. }
  rewrite Hf in Hnd. clear Hf. induction (rows db (ts_name t)) as [|r l IH]; cbn; [done|].
  cbn in Hnd. destruct (key_tuple [kc] r) as [x|] eqn:Er.
  - apply NoDup_cons in Hnd as [Hni Hnd]. destruct (p r); [|by apply IH]. cbn. rewrite Er.
    apply NoDup_cons. split; [|by apply IH]. intros Hx. apply Hni.
    apply list_elem_of_omap in Hx as (y & Hy & Ey). apply list_elem_of_omap. exists y. split; [|done].
    apply list_elem_of_In, filter_In in Hy as [Hy _]. by apply list_elem_of_In.
  - destruct (p r); cbn; [rewrite Er|]; by apply IH.
Qed.

Lemma row_of_Some db table kc k r :
  row_of db table kc k = Some r → r ∈ rows db table ∧ column r kc = SText k.
Proof.
  unfold row_of. destruct (List.filter _ _) as [|s l] eqn:E; [done|]. intros [= ->].
  assert (r ∈ List.filter (col_is kc (SText k)) (rows db table)) as Hin by (rewrite E; left).
  apply list_elem_of_In, filter_In in Hin as [?%list_elem_of_In [_ ?]%col_is_true]. done.
Qed.

Lemma col_is_text kc k r : col_is kc (SText k) r = true ↔ column r kc = SText k.
Proof. rewrite col_is_true. naive_solver. Qed.

Lemma row_of_None db table kc k :
  row_of db table kc k = None ↔ ∀ r, r ∈ rows db table → column r kc ≠ SText k.
Proof.
  unfold row_of. destruct (List.filter _ _) as [|s l] eqn:E.
  - rewrite filter_nil_b in E. split; [|done]. intros _ r Hr Hc%col_is_text. by rewrite E in Hc.
  - split; [done|]. intros H. exfalso.
    assert (s ∈ List.filter (col_is kc (SText k)) (rows db table)) as Hin by (rewrite E; left).
    apply list_elem_of_In, filter_In in Hin as [?%list_elem_of_In ?%col_is_text]. by eapply H.
Qed.

Lemma row_of_unique schema db table kc k r `{!Keyed schema table kc} :
  valid schema db → r ∈ rows db table → column r kc = SText k → row_of db table kc k = Some r.
Proof.
  intros Hv Hr Hc%col_is_text. pose proof (filter_key_le schema db table kc (SText k) Hv) as Hle.
  assert (r ∈ List.filter (col_is kc (SText k)) (rows db table)) as Hin
    by (apply list_elem_of_In, filter_In; split; [by apply list_elem_of_In|done]).
  unfold row_of. destruct (List.filter _ _) as [|s [|s' l]]; cbn in Hle; [set_solver|set_solver|lia].
Qed.

Lemma row_of_ne table l db t kc k : table ≠ t → row_of (<[table := l]> db) t kc k = row_of db t kc k.
Proof. intros Hne. unfold row_of. by rewrite rows_insert_ne. Qed.

Lemma row_of_append db table kc k r :
  row_of (<[table := rows db table ++ [r]]> db) table kc k =
  match row_of db table kc k with
  | Some s => Some s
  | None => if col_is kc (SText k) r then Some r else None
  end.
Proof.
  unfold row_of. rewrite rows_insert, filter_app_b. destruct (List.filter _ (rows db table)); [|done].
  cbn. by destruct (col_is _ _ r).
Qed.

(** An insertion that succeeded under a fresh key. *)
Lemma insert_row_of schema table kc k r w n w' `{!Keyed schema table kc} :
  tx_insert schema table r w = (Ok n, w') → column (list_to_map r) kc = SText k →
  row_of (w_db w) table kc k = None ∧ row_of (w_db w') table kc k = Some (list_to_map r).
Proof.
  intros (_ & _ & Hv & Hdb)%tx_insert_Ok Hc.
  assert (row_of (w_db w') table kc k = Some (list_to_map r)) as Hnew.
  { apply (row_of_unique schema); [done|done| |done]. rewrite Hdb, rows_insert. set_solver. }
  split; [|done]. rewrite Hdb, row_of_append in Hnew.
  destruct (row_of (w_db w) table kc k) as [s|] eqn:E; [|done]. exfalso. injection Hnew as ->.
  pose proof (filter_key_le schema (w_db w') table kc (SText k) Hv) as Hle.
  apply row_of_Some in E as [Hin%list_elem_of_In Hs%col_is_text].
  rewrite Hdb, rows_insert, filter_app_b, length_app in Hle.
  destruct (List.filter _ (rows (w_db w) table)) eqn:Ef.
  - rewrite filter_nil_b in Ef. by rewrite Ef in Hs by (by apply list_elem_of_In).
  - cbn in Hle. rewrite Hs in Hle. cbn in Hle. lia.
Qed.

Lemma filter_map_other {A} (p : A → bool) (f : A → A) (q : A → bool) l :
  (∀ x, q x = true → p x = false ∧ p (f x) = false) →
  List.filter p (map (fun x => if q x then f x else x) l) = List.filter p l.
Proof.
  intros H. induction l as [|x l IH]; cbn; [done|]. rewrite IH. destruct (q x) eqn:E; [|done].
  destruct (H x E) as [-> ->]. done.
Qed.

(** A compare-and-swap changes the row its key names, from the expected revision,
    and no other. *)
Lemma update_row_of schema table kc key expected asg w n w' `{!Keyed schema table kc}
    `{!Revisioned schema table} :
  ascii_lower table = table → ascii_lower kc = kc → kc ≠ REVISION_COLUMN → valid schema (w_db w) →
  update_revisioned_by schema table kc key expected asg w = (Ok n, w') →
  n = (expected + 1)%Z ∧
  ∃ r, row_of (w_db w) table kc key = Some r ∧ column r REVISION_COLUMN = SInteger expected ∧
    row_of (w_db w') table kc key = Some (set_clause asg r) ∧
    column (set_clause asg r) REVISION_COLUMN = SInteger (expected + 1) ∧
    ∀ k, k ≠ key → row_of (w_db w') table kc k = row_of (w_db w) table kc k.
Proof.
  intros Htab Hkc Hrev Hv Hu. pose proof Hu as (-> & _ & Hv' & Hasg & Hlen & Hdb)%update_revisioned_by_Ok.
  rewrite Htab in Hlen, Hdb. split; [done|].
  destruct (List.filter (cas_where kc key expected) (rows (w_db w) table)) as [|r l] eqn:Ef; [done|].
  assert (r ∈ List.filter (cas_where kc key expected) (rows (w_db w) table)) as Hr by (rewrite Ef; left).
  apply list_elem_of_In, filter_In in Hr as [Hr%list_elem_of_In Hc]. pose proof Hc as Hcas.
  unfold cas_where in Hc. apply andb_true_iff in Hc as [Hk%col_is_true Hn%col_is_true].
  rewrite Hkc in Hk. destruct Hk as [_ Hk], Hn as [_ Hn]. exists r.
  pose proof (row_of_unique schema _ _ _ _ _ Hv Hr Hk) as Hrow.
  assert (set_clause asg r ∈ rows (w_db w') table) as Hin'.
  { rewrite Hdb, rows_insert. apply list_elem_of_In, in_map_iff. exists r. rewrite Hcas.
    by rewrite <-list_elem_of_In. }
  split_and!; [done|done| | |].
  - apply (row_of_unique schema); [done|done|done|].
    rewrite set_clause_column; [done|done|]. intros a Ha.
    destruct (check_assignment_Ok _ _ _ (Hasg a Ha)) as (_ & _ & H3). by rewrite Hkc in H3.
  - rewrite set_clause_revision, Hn. cbn. destruct (in_i64 (expected + 1)) eqn:Hi; [done|]. exfalso.
    destruct Revisioned0 as (t & nn & Ht & Hcol).
    apply (valid_integer schema (w_db w') table t REVISION_COLUMN nn (set_clause asg r) 4890909195324358656
      Hv' Ht Hcol Hin'). rewrite set_clause_revision, Hn. cbn. by rewrite Hi.
  - intros k Hne. unfold row_of. rewrite Hdb, rows_insert, (filter_map_other _ _ (cas_where kc key expected));
      [done|]. intros x [Hx%col_is_true _]%andb_true_iff. rewrite Hkc in Hx. destruct Hx as [_ Hx].
    assert (∀ y, column y kc = SText key → col_is kc (SText k) y = false) as Hno.
    { intros y Hy. apply not_true_iff_false. rewrite col_is_text. congruence. }
    split; apply Hno; [done|]. rewrite set_clause_column; [done|done|]. intros a Ha.
    destruct (check_assignment_Ok _ _ _ (Hasg a Ha)) as (_ & _ & H3). by rewrite Hkc in H3.
Qed.

Lemma update_revisioned_row schema table key expected asg w n w' `{!Keyed schema table "id"}
    `{!Revisioned schema table} :
  ascii_lower table = table → valid schema (w_db w) →
  update_revisioned schema table key expected asg w = (Ok n, w') →
  n = (expected + 1)%Z ∧
  ∃ r, row_of (w_db w) table "id" key = Some r ∧ column r REVISION_COLUMN = SInteger expected ∧
    row_of (w_db w') table "id" key = Some (set_clause asg r) ∧
    column (set_clause asg r) REVISION_COLUMN = SInteger (expected + 1) ∧
    ∀ k, k ≠ key → row_of (w_db w') table "id" k = row_of (w_db w) table "id" k.
Proof. intros Ht Hv Hu. by eapply update_row_of in Hu. Qed.

(** A reference names a row of its parent table. *)
Lemma valid_reference schema db t k r c parent :
  valid schema db → t ∈ schema → k ∈ ts_foreign t → r ∈ rows db (ts_name t) →
  fk_columns k = [c] → fk_parent k = [parent] → column r c ≠ SNull →
  ∃ p, p ∈ rows db (fk_table k) ∧ column p parent = column r c.
Proof.
  unfold valid, violation. intros Hv Ht Hk Hr Hc Hp Hn.
  destruct (find_map (table_violation db) schema); [done|].
  rewrite find_map_None in Hv. specialize (Hv t Ht). unfold reference_violation in Hv.
  rewrite find_map_None in Hv. specialize (Hv r Hr). cbn in Hv. rewrite find_map_None in Hv.
  specialize (Hv k Hk). unfold foreign_violation in Hv. rewrite Hc, Hp in Hv.
  assert (key_tuple [c] r = Some [column r c]) as Hkt.
  { unfold key_tuple. cbn. unfold is_null. by case_bool_decide. }
  rewrite Hkt in Hv. destruct (existsb _ _) eqn:Ex; [|done].
  apply existsb_exists in Ex as (p & Hin%list_elem_of_In & Hb%bool_decide_eq_true). exists p.
  split; [done|]. unfold key_tuple in Hb. destruct (existsb _ [parent]); [done|]. by injection Hb.
Qed.

Ltac solve_keyed := eexists; split; [reflexivity|]; eexists; split; [left|]; split; [reflexivity|done].

Ltac solve_revisioned :=
  eexists _, true; split; [reflexivity|]; elem.

#[export] Instance goals_revisioned : Revisioned MIGRATIONS "goals".
Proof. solve_revisioned. Qed.
#[export] Instance task_graphs_revisioned : Revisioned MIGRATIONS "task_graphs".
Proof. solve_revisioned. Qed.
#[export] Instance tasks_revisioned : Revisioned MIGRATIONS "tasks".
Proof. solve_revisioned. Qed.
#[export] Instance planning_operations_revisioned : Revisioned MIGRATIONS "planning_operations".
Proof. solve_revisioned. Qed.
#[export] Instance active_configuration_revisioned : Revisioned MIGRATIONS "active_configuration".
Proof. solve_revisioned. Qed.
#[export] Instance workspaces_revisioned : Revisioned MIGRATIONS "workspaces".
Proof. solve_revisioned. Qed.
#[export] Instance scheduler_state_revisioned : Revisioned MIGRATIONS "scheduler_state".
Proof. solve_revisioned. Qed.
#[export] Instance goal_scheduling_state_revisioned : Revisioned MIGRATIONS "goal_scheduling_state".
Proof. solve_revisioned. Qed.
#[export] Instance task_scheduling_state_revisioned : Revisioned MIGRATIONS "task_scheduling_state".
Proof. solve_revisioned. Qed.
#[export] Instance run_status_revisioned : Revisioned MIGRATIONS "run_status".
Proof. solve_revisioned. Qed.
#[export] Instance attempt_status_revisioned : Revisioned MIGRATIONS "attempt_status".
Proof. solve_revisioned. Qed.
#[export] Instance sandbox_instances_revisioned : Revisioned MIGRATIONS "sandbox_instances".
Proof. solve_revisioned. Qed.

#[export] Instance goals_keyed : Keyed MIGRATIONS "goals" "id".
Proof. solve_keyed. Qed.
#[export] Instance task_graphs_keyed : Keyed MIGRATIONS "task_graphs" "id".
Proof. solve_keyed. Qed.
#[export] Instance tasks_keyed : Keyed MIGRATIONS "tasks" "id".
Proof. solve_keyed. Qed.
#[export] Instance planning_operations_keyed : Keyed MIGRATIONS "planning_operations" "id".
Proof. solve_keyed. Qed.
#[export] Instance planning_records_keyed : Keyed MIGRATIONS "planning_records" "planning_operation_id".
Proof. solve_keyed. Qed.
#[export] Instance active_configuration_keyed : Keyed MIGRATIONS "active_configuration" "id".
Proof. solve_keyed. Qed.
#[export] Instance workspaces_keyed : Keyed MIGRATIONS "workspaces" "id".
Proof. solve_keyed. Qed.
#[export] Instance scheduler_state_keyed : Keyed MIGRATIONS "scheduler_state" "id".
Proof. solve_keyed. Qed.
#[export] Instance goal_scheduling_state_keyed : Keyed MIGRATIONS "goal_scheduling_state" "goal_id".
Proof. solve_keyed. Qed.
#[export] Instance task_scheduling_state_keyed : Keyed MIGRATIONS "task_scheduling_state" "task_id".
Proof. solve_keyed. Qed.
#[export] Instance runs_keyed : Keyed MIGRATIONS "runs" "id".
Proof. solve_keyed. Qed.
#[export] Instance run_status_keyed : Keyed MIGRATIONS "run_status" "run_id".
Proof. solve_keyed. Qed.
#[export] Instance attempts_keyed : Keyed MIGRATIONS "attempts" "id".
Proof. solve_keyed. Qed.
#[export] Instance attempt_status_keyed : Keyed MIGRATIONS "attempt_status" "attempt_id".
Proof. solve_keyed. Qed.
#[export] Instance sandbox_instances_keyed : Keyed MIGRATIONS "sandbox_instances" "id".
Proof. solve_keyed. Qed.
#[export] Instance agent_control_sessions_keyed : Keyed MIGRATIONS "agent_control_sessions" "attempt_id".
Proof.
  eexists; split; [reflexivity|]; eexists; split; [right; left|]; split; [reflexivity|done].
Qed.

(** ** Committed commands *)

Lemma tx_execute_changes schema table cols where_ set w n w' :
  tx_execute (fun db => update schema db table cols where_ set) w = (Ok n, w') →
  same_outside [table] (w_db w) (w_db w').
Proof. intros [Hu _]%tx_execute_Ok. apply update_Ok in Hu as (_ & _ & ->). apply same_outside_insert. left. Qed.

Lemma append_internal_event_touches schema amb e :
  touches ["journal_epochs"; "event_journal"] (append_internal_event schema amb e).
Proof.
  unfold touches, append_internal_event, allocate_sequence. solve_preserves.
  - intros w n w' Hw%tx_execute_changes t Ht. apply Hw. set_solver.
  - intros w n w' [Hi _]%tx_execute_Ok. apply insert_row_Ok in Hi as (_ & _ & ->).
    apply same_outside_insert. set_solver.
Qed.

Lemma append_internal_event_validity schema amb e :
  preserves (validity schema) (append_internal_event schema amb e).
Proof.
  unfold append_internal_event, allocate_sequence. solve_preserves.
Qed.

#[export] Hint Resolve append_internal_event_validity : preserves.

(** The number, the event and the ledger row of a command write the kernel's tables. *)
Lemma journal_tail_touches {A} schema amb c (v : A) :
  touches kernel_tables
    (let! cursor := allocate_sequence schema in
     let! recorded_at := append_event schema amb c cursor in
     do! record_command schema c cursor recorded_at in tx_ret (Executed v cursor)).
Proof.
  unfold touches, allocate_sequence, record_command. solve_preserves.
  - intros w n w' Hw%tx_execute_changes t Ht. apply Hw. set_solver.
  - intros w t w' Hw. unfold append_event, tx_fail in Hw.
    destruct (tx_execute _ w) as [[k|e] w1] eqn:Ee; [|by repeat case_match].
    injection Hw as _ <-. apply tx_execute_Ok in Ee as [Hi _]. apply insert_row_Ok in Hi as (_ & _ & ->).
    apply same_outside_insert. set_solver.
  - intros w n w' [Hi _]%tx_execute_Ok. apply insert_row_Ok in Hi as (_ & _ & ->).
    apply same_outside_insert. set_solver.
Qed.

Lemma execute_executed {A} schema amb c (m : Tx A) w v cur w' :
  execute schema amb c m w = (Ok (Executed v cur), w') →
  ∃ w1, m w = (Ok v, w1) ∧ same_outside kernel_tables (w_db w1) (w_db w').
Proof.
  unfold execute. intros H. tx_step H. tx_step H.
  assert (w0 = w) as ->.
  { clear H. unfold fence_epoch in E. tx_step E. apply expect_row_Ok, query_optional_Ok in E1 as [-> _].
    destruct (String.eqb _ _); [by apply tx_ret_Ok in E as [_ ->]|done]. }
  apply query_optional_Ok in E0 as [-> _]. destruct a0 as [entry|].
  { destruct (negb _); [done|]. by apply tx_ret_Ok in H as [? _]. }
  tx_step H. exists w0. pose proof (journal_tail_touches _ _ _ _ _ _ _ H) as Hp.
  assert (v = a0) as ->; [|done]. tx_step H. tx_step H. tx_step H. by apply tx_ret_Ok in H as [[= -> _] _].
Qed.

(** The body of a command that executed ran on the committed database, and only
    the kernel's tables differ between what it left and what was committed. *)
Lemma executed_body {A} schema d amb c (m : Tx A) conn v cur conn' :
  execute_command schema d amb c m conn = (Ok (Executed v cur), conn') →
  ∃ w, m {| w_db := conn_db conn; w_failed := false |} = (Ok v, w) ∧
    same_outside kernel_tables (w_db w) (conn_db conn').
Proof.
  unfold execute_command. intros Hx. pose proof (run_spec d (execute schema amb c m) conn) as Hr.
  rewrite Hx in Hr. destruct Hr as (_ & _ & w & Hw & _ & ->). by apply execute_executed in Hw.
Qed.

Lemma row_of_same tables db db' table kc k :
  same_outside tables db db' → table ∉ tables → row_of db' table kc k = row_of db table kc k.
Proof. intros Hs Ht. unfold row_of. by rewrite (Hs _ Ht). Qed.

(** ** Reads *)

Lemma read_row_eval {A} schema db table cols where_ (decode : Row → Result A SqliteError) t :
  table_schema schema table = Some t → known_columns t cols = Ok tt →
  read_row schema db table cols where_ decode =
  match List.filter where_ (rows db table) with
  | [] => Ok None
  | r :: _ => map_err Sqlite (let? a := decode r in Ok (Some a))
  end.
Proof.
  intros Ht Hc. unfold read_row, select. rewrite Ht. cbn [ok_or try_bind]. rewrite Hc. cbn [try_bind].
  by destruct (List.filter where_ _).
Qed.

Lemma query_optional_eval {A} schema table cols where_ (decode : Row → Result A SqliteError) t w r rest a :
  table_schema schema table = Some t → known_columns t cols = Ok tt →
  List.filter where_ (rows (w_db w) table) = r :: rest → decode r = Ok a →
  query_optional schema table cols where_ decode w = (Ok (Some a), w).
Proof.
  intros Ht Hc Hf Hd. unfold query_optional, select. rewrite Ht. cbn [ok_or try_bind]. rewrite Hc. cbn [try_bind].
  by rewrite Hf, Hd.
Qed.

Lemma query_by_eval {A} schema table kc k cols (decode : Row → Result A SqliteError) t w r a :
  table_schema schema table = Some t → known_columns t (kc :: cols) = Ok tt →
  row_of (w_db w) table kc k = Some r → decode r = Ok a →
  query_by schema table kc k cols decode w = (Ok (Some a), w).
Proof.
  unfold row_of. intros Ht Hc Hr Hd. destruct (List.filter _ _) as [|s l] eqn:Ef; [done|]. injection Hr as ->.
  by eapply query_optional_eval.
Qed.

Lemma tx_bind_eval {A B} (m : Tx A) (k : A → Tx B) w a w' : m w = (Ok a, w') → tx_bind m k w = k a w'.
Proof. unfold tx_bind. by intros ->. Qed.

Lemma read_row_of {A} db table kc k cols (decode : Row → Result A SqliteError) r a t :
  table_schema MIGRATIONS table = Some t → known_columns t cols = Ok tt →
  row_of db table kc k = Some r → decode r = Ok a →
  read_row MIGRATIONS db table cols (col_is kc (SText k)) decode = Ok (Some a).
Proof.
  intros Ht Hc Hr Hd. rewrite (read_row_eval _ _ _ _ _ _ t Ht Hc). unfold row_of in Hr.
  destruct (List.filter _ _) as [|s l]; [done|]. injection Hr as ->. by rewrite Hd.
Qed.

(** ** What validity says of a stored column *)

(** The declared type of a column. *)
Definition declared_type (table c : string) : option (ColumnType * bool) :=
  match table_schema MIGRATIONS table with
  | Some t => snd <$> find_first (fun d => String.eqb (fst d) c) (ts_columns t)
  | None => None
  end.

Lemma typed_column db table c ty nn r :
  valid MIGRATIONS db → declared_type table c = Some (ty, nn) → r ∈ rows db table →
  match ty with
  | TInteger => ∃ n, column r c = SInteger n
  | TText => ∃ s, column r c = SText s
  | TBlob => ∃ b, column r c = SBlob b
  end ∨ (nn = false ∧ column r c = SNull).
Proof.
  unfold declared_type. intros Hv Hd Hr. destruct (table_schema MIGRATIONS table) as [t|] eqn:Ht; [|done].
  destruct (find_first _ (ts_columns t)) as [[c' d]|] eqn:Ef; [|done]. injection Hd as ->.
  apply find_first_Some in Ef as [Hin Hc]. apply String.eqb_eq in Hc as <-. apply find_first_Some in Ht as [Ht <-%String.eqb_eq].
  destruct (valid_rows _ _ _ _ Hv Ht Hr) as [Hty _]. unfold type_violation in Hty.
  rewrite find_map_None in Hty. specialize (Hty _ Hin). cbn in Hty |- *.
  destruct (column r c'), ty, nn; try done; eauto.
Qed.

Lemma text_typed db table c r :
  valid MIGRATIONS db → declared_type table c = Some (TText, true) → r ∈ rows db table →
  ∃ s, column r c = SText s ∧ get_text c r = Ok s.
Proof.
  intros Hv Hd Hr. destruct (typed_column _ _ _ _ _ _ Hv Hd Hr) as [[s Hs]|[? _]]; [|done].
  exists s. split; [done|]. by apply get_text_Ok.
Qed.

Lemma integer_typed db table c r :
  valid MIGRATIONS db → declared_type table c = Some (TInteger, true) → r ∈ rows db table →
  ∃ n, column r c = SInteger n ∧ get_integer c r = Ok n.
Proof.
  intros Hv Hd Hr. destruct (typed_column _ _ _ _ _ _ Hv Hd Hr) as [[s Hs]|[? _]]; [|done].
  exists s. split; [done|]. by apply get_integer_Ok.
Qed.

Lemma blob_typed db table c r :
  valid MIGRATIONS db → declared_type table c = Some (TBlob, true) → r ∈ rows db table →
  ∃ b, column r c = SBlob b ∧ get_blob c r = Ok b.
Proof.
  intros Hv Hd Hr. destruct (typed_column _ _ _ _ _ _ Hv Hd Hr) as [[s Hs]|[? _]]; [|done].
  exists s. split; [done|]. by apply get_blob_Ok.
Qed.

Lemma optional_text_typed db table c r :
  valid MIGRATIONS db → declared_type table c = Some (TText, false) → r ∈ rows db table →
  ∃ o, get_optional_text c r = Ok o.
Proof.
  intros Hv Hd Hr. unfold get_optional_text.
  destruct (typed_column _ _ _ _ _ _ Hv Hd Hr) as [[s ->]|[_ ->]]; eauto.
Qed.

(** A CHECK of a table never fails on a stored row. *)
Lemma check_holds db table t check r :
  valid MIGRATIONS db → table_schema MIGRATIONS table = Some t → check ∈ ts_checks t → r ∈ rows db table →
  check r ≠ Some false.
Proof.
  intros Hv Ht Hc Hr. apply find_first_Some in Ht as [Ht <-%String.eqb_eq].
  destruct (valid_rows _ _ _ _ Hv Ht Hr) as [_ H]. by apply H.
Qed.

Lemma one_of_holds r c l s : one_of c l r ≠ Some false → column r c = SText s → contains l s = true.
Proof. unfold one_of, in3. intros Hc Hs. rewrite Hs in Hc. by destruct (contains l s). Qed.

Lemma digest_holds r c b : digest_column c r ≠ Some false → column r c = SBlob b → String.length b = 32.
Proof. unfold digest_column, length3. intros Hc Hb. rewrite Hb in Hc. cbn [sql_length fmap option_fmap option_map] in Hc.
  destruct (Nat.leb_spec 32 (String.length b)), (Nat.leb_spec (String.length b) 32); [lia|done..]. Qed.
