(* ===== verification/StorePlanning.v ===== *)
(** * Goal, planning and Task authority ([pantheon-store/src/planning*])

    The three mutations that turn a Goal into a Task (creation, the recorded
    planning decision, materialization), cancellation, and the reads of the
    rows they leave. *)

From Stdlib Require Import ZArith Ascii Lia.
From S2P Require Import Prelude Utf8 Canonical Parse ParseFacts Digest Goal Task Validate Sql Schema Transaction Command StoreBase.

Record GoalRecord : Type := {
  goal_record_id : string;
  goal_record_phase : GoalPhase;
  goal_record_current_revision : Z;
  goal_record_revision : Z
}.

Record GraphRecord : Type := {
  graph_record_goal_id : string;
  graph_record_revision : Z
}.

Record TaskRecord : Type := {
  task_record_id : string;
  task_record_goal_id : string;
  task_record_phase : TaskPhase;
  task_record_created_graph_revision : Z;
  task_record_spec_digest : Digest;
  task_record_revision : Z;
  task_record_active_run_id : option string
}.

Inductive PlanningState : Type := Planned | Materialized.

#[export] Instance PlanningState_eq_dec : EqDecision PlanningState.
Proof. solve_decision. Defined.

Definition planning_state_as_str (s : PlanningState) : string :=
  match s with
  | Planned => "Planned"
  | Materialized => "Materialized"
  end.

Definition planning_state_parse (text : string) : option PlanningState :=
  if String.eqb text "Planned" then Some Planned
  else if String.eqb text "Materialized" then Some Materialized
  else None.

Record PlanningOperationRecord : Type := {
  op_record_id : string;
  op_record_goal_id : string;
  op_record_goal_revision : Z;
  op_record_expected_graph_revision : Z;
  op_record_configuration_activation_sequence : Z;
  op_record_planning_input_digest : Digest;
  op_record_state : PlanningState;
  op_record_revision : Z
}.

Record PlanningDecision : Type := {
  decision_operation_id : string;
  decision_goal_id : string;
  decision_goal_revision : Z;
  decision_expected_graph_revision : Z;
  decision_configuration_activation_sequence : Z;
  decision_planning_input_digest : Digest;
  decision_trigger_kind : string;
  decision_planner_implementation : string;
  decision_planner_version : string
}.

Record ProposalRecord : Type := {
  proposal_record_digest : Digest;
  proposal_record_canonical : string;
  proposal_record_normalization_provenance : string
}.

Record MaterializedPlan : Type := {
  materialized_task : TaskRecord;
  materialized_graph_revision : Z;
  materialized_goal_phase : GoalPhase
}.

Record Cancellation : Type := {
  cancellation_goal : GoalRecord;
  cancellation_tasks_fenced : nat;
  cancellation_already_targeted : bool
}.

Section Planning.
Context `{Sha256}.
Variable schema : Schema.

(** ** Creation *)

Definition goal_row (amb : Ambient) (goal_id : string) : list (string * SqlValue) :=
  [("id", SText goal_id); ("phase", SText (goal_phase_as_str GoalPlanning));
   ("current_revision", SInteger 1); ("revision", SInteger 1); ("terminal_target", SNull);
   ("created_at", SInteger (amb_now amb))].

Definition goal_revision_row (amb : Ambient) (goal_id : string) (spec : GoalSpec) :
    list (string * SqlValue) :=
  [("goal_id", SText goal_id); ("revision", SInteger 1);
   ("content_digest", digest_blob (goal_digest spec));
   ("canonical_json", SText (canonical_json (goal_to_value spec)));
   ("created_at", SInteger (amb_now amb))].

Definition create_goal (amb : Ambient) (goal_id : string) (spec : GoalSpec) : Tx GoalRecord :=
  let! now := now amb in
  do! tx_insert schema "goals" (goal_row amb goal_id) in
  do! tx_insert schema "goal_revisions" (goal_revision_row amb goal_id spec) in
  do! tx_insert schema "task_graphs" [("id", SText goal_id); ("revision", SInteger 0)] in
  tx_ret {| goal_record_id := goal_id; goal_record_phase := GoalPlanning;
            goal_record_current_revision := 1; goal_record_revision := 1 |}.

(** ** The planning decision *)

Definition planning_operation_row (amb : Ambient) (d : PlanningDecision) : list (string * SqlValue) :=
  [("id", SText (decision_operation_id d)); ("goal_id", SText (decision_goal_id d));
   ("goal_revision", SInteger (decision_goal_revision d));
   ("expected_graph_revision", SInteger (decision_expected_graph_revision d));
   ("trigger_kind", SText (decision_trigger_kind d));
   ("planning_input_digest", digest_blob (decision_planning_input_digest d));
   ("planner_implementation", SText (decision_planner_implementation d));
   ("planner_version", SText (decision_planner_version d));
   ("configuration_activation_sequence", SInteger (decision_configuration_activation_sequence d));
   ("state", SText (planning_state_as_str Planned)); ("revision", SInteger 1);
   ("created_at", SInteger (amb_now amb))].

Definition planning_record_row (amb : Ambient) (d : PlanningDecision) (p : ProposalRecord) :
    list (string * SqlValue) :=
  [("planning_operation_id", SText (decision_operation_id d));
   ("proposal_digest", digest_blob (proposal_record_digest p));
   ("canonical_proposal", SText (proposal_record_canonical p));
   ("normalization_provenance", SText (proposal_record_normalization_provenance p));
   ("created_at", SInteger (amb_now amb))].

Definition record_direct_planning (amb : Ambient) (d : PlanningDecision) (p : ProposalRecord) :
    Tx PlanningOperationRecord :=
  let! now := now amb in
  do! tx_insert schema "planning_operations" (planning_operation_row amb d) in
  do! tx_insert schema "planning_records" (planning_record_row amb d p) in
  tx_ret {| op_record_id := decision_operation_id d; op_record_goal_id := decision_goal_id d;
            op_record_goal_revision := decision_goal_revision d;
            op_record_expected_graph_revision := decision_expected_graph_revision d;
            op_record_configuration_activation_sequence := decision_configuration_activation_sequence d;
            op_record_planning_input_digest := decision_planning_input_digest d;
            op_record_state := Planned; op_record_revision := 1 |}.

(** ** Materialization *)

(** An edge that is active at the graph revision and asks for the success of its
    upstream Task. *)
Definition active_edge (task_id : string) (graph_revision : Z) (edge : Row) : bool :=
  col_is "downstream_task_id" (SText task_id) edge
  && col_is "kind" (SText "requires_success") edge
  && match column edge "created_graph_revision" with
     | SInteger created => (created <=? graph_revision)%Z
     | _ => false
     end
  && match column edge "removed_graph_revision" with
     | SNull => true
     | SInteger removed => (graph_revision <? removed)%Z
     | _ => false
     end.

(** The upstream Tasks, by joined row, that have not succeeded. *)
Definition unsatisfied_upstream (db : Database) (task_id : string) (graph_revision : Z) : list Row :=
  flat_map (fun edge =>
      List.filter (fun up => match column edge "upstream_task_id" with
                             | SText u => col_is "id" (SText u) up
                             | _ => false
                             end
                             && negb (col_is "phase" (SText "Succeeded") up)) (rows db "tasks"))
    (List.filter (active_edge task_id graph_revision) (rows db "task_graph_edges")).

Definition prerequisites_satisfied (task_id : string) (graph_revision : Z) : Tx bool :=
  let! unsatisfied := tx_query (fun db => Ok (length (unsatisfied_upstream db task_id graph_revision))) in
  tx_ret (Nat.eqb unsatisfied 0).

(** What a planning operation froze: its Goal, the Goal revision, the graph
    revision, the configuration, its state and its row revision. *)
Definition decode_operation (r : Row) : Result (string * Z * Z * Z * string * Z) SqliteError :=
  let? goal_id := get_text "goal_id" r in
  let? goal_revision := get_integer "goal_revision" r in
  let? expected := get_integer "expected_graph_revision" r in
  let? config := get_integer "configuration_activation_sequence" r in
  let? state := get_text "state" r in
  let? revision := get_integer "revision" r in
  Ok (goal_id, goal_revision, expected, config, state, revision).

Definition decode_goal_head (r : Row) : Result (string * Z * Z) SqliteError :=
  let? phase := get_text "phase" r in
  let? current_revision := get_integer "current_revision" r in
  let? revision := get_integer "revision" r in
  Ok (phase, current_revision, revision).

Definition active_sequence : Tx (option Z) :=
  let! o := query_by schema "active_configuration" "id" "singleton" ["activation_sequence"]
              (get_optional_integer "activation_sequence") in
  tx_ret (match o with
          | Some inner => inner
          | None => None
          end).

Definition broken (what : string) (values : list string) : StoreError :=
  InvariantViolated (BrokenAt (message what values)).

(** The frozen operation, with every precondition re-read and compared: the
    operation's Goal, the Goal's phase text and row revision, the graph revision
    and the operation's row revision. *)
Definition materialize_preconditions (operation_id : string) (plan : Materializable) :
    Tx (string * string * Z * Z * Z) :=
  let! op := query_by schema "planning_operations" "id" operation_id
    ["goal_id"; "goal_revision"; "expected_graph_revision"; "configuration_activation_sequence";
     "state"; "revision"] decode_operation in
  let! (goal_id, frozen_goal_revision, expected_graph_revision, frozen_config, state, op_revision) :=
    tx_some op (broken "planning operation does not exist" [operation_id]) in
  let! state := tx_some (planning_state_parse state)
    (broken "planning operation has unknown state" [operation_id]) in
  do! guard (bool_decide (state = Planned))
    (RevisionConflict "planning_operations" operation_id op_revision (Some op_revision)) in
  let! goal := query_by schema "goals" "id" goal_id ["phase"; "current_revision"; "revision"]
    decode_goal_head in
  let! (goal_phase, current_goal_revision, goal_row_revision) :=
    tx_some goal (broken "goal does not exist" [goal_id]) in
  do! guard (current_goal_revision =? frozen_goal_revision)%Z
    (RevisionConflict "goal_revisions" goal_id frozen_goal_revision (Some current_goal_revision)) in
  do! guard (mat_goal_revision plan =? frozen_goal_revision)%Z
    (broken "plan was validated against another goal revision" []) in
  let! stored := query_optional schema "goal_revisions" ["content_digest"; "goal_id"; "revision"]
    (fun r => col_is "goal_id" (SText goal_id) r && col_is "revision" (SInteger frozen_goal_revision) r)
    (get_blob "content_digest") in
  let! stored_goal_digest := tx_some stored (broken "goal revision is not stored" [goal_id]) in
  do! guard (String.eqb stored_goal_digest (digest_bytes (mat_goal_digest plan)))
    (broken "plan was validated against a goal whose content is not the stored revision" []) in
  do! guard (String.eqb (task_goal_id (mat_spec plan)) goal_id)
    (broken "plan names another goal" [task_goal_id (mat_spec plan); operation_id; goal_id]) in
  let! recorded := query_by schema "planning_records" "planning_operation_id" operation_id
    ["proposal_digest"] (get_blob "proposal_digest") in
  let! recorded_proposal := tx_some recorded
    (broken "planning operation has no recorded proposal" [operation_id]) in
  do! guard (String.eqb recorded_proposal (digest_bytes (mat_proposal_digest plan)))
    (broken "plan does not match the proposal recorded" [operation_id]) in
  let! graph := query_by schema "task_graphs" "id" goal_id ["revision"] (get_integer "revision") in
  let! current_graph_revision := tx_some graph (broken "goal has no task graph" [goal_id]) in
  do! guard (current_graph_revision =? expected_graph_revision)%Z
    (RevisionConflict "task_graphs" goal_id expected_graph_revision (Some current_graph_revision)) in
  let! active := active_sequence in
  let! active_config := tx_some active (broken "no active configuration; cannot materialize a plan" []) in
  do! guard (active_config =? frozen_config)%Z
    (RevisionConflict "active_configuration" "singleton" frozen_config (Some active_config)) in
  tx_ret (goal_id, goal_phase, goal_row_revision, current_graph_revision, op_revision).

Definition task_spec_row (goal_id : string) (spec : TaskSpec) : list (string * SqlValue) :=
  [("digest", digest_blob (task_digest spec)); ("goal_id", SText goal_id);
   ("goal_revision", SInteger (task_goal_revision spec));
   ("canonical_json", SText (canonical_json (task_to_value spec)));
   ("acceptance_digest", digest_blob (acceptance_digest spec));
   ("evaluator_registry_digest", digest_blob (acc_evaluator_registry_digest (task_acceptance spec)));
   ("configuration_activation_sequence", SInteger (acc_configuration_activation_sequence (task_acceptance spec)))].

Definition task_row (goal_id task_id : string) (created : Z) (phase : TaskPhase) (spec_digest : Digest) :
    list (string * SqlValue) :=
  [("id", SText task_id); ("goal_id", SText goal_id); ("created_graph_revision", SInteger created);
   ("phase", SText (task_phase_as_str phase)); ("revision", SInteger 1); ("terminal_target", SNull);
   ("terminal_reason_json", SNull); ("active_run_id", SNull); ("spec_digest", digest_blob spec_digest)].

Definition scheduling_row (task_id : string) (now : Z) : list (string * SqlValue) :=
  [("task_id", SText task_id); ("eligible_since", SInteger now); ("next_attempt_at", SNull);
   ("last_failure_code", SNull); ("last_failure_detail_json", SNull); ("revision", SInteger 1);
   ("updated_at", SInteger now)].

Definition apply_plan (amb : Ambient) (operation_id task_id : string) (plan : Materializable) :
    Tx MaterializedPlan :=
  let! (goal_id, goal_phase, goal_row_revision, current_graph_revision, op_revision) :=
    materialize_preconditions operation_id plan in
  let spec := mat_spec plan in
  do! tx_insert_or_ignore schema "task_specs" ["digest"] (task_spec_row goal_id spec) in
  let new_graph_revision := (current_graph_revision + 1)%Z in
  let! ready := prerequisites_satisfied task_id new_graph_revision in
  let phase := if (ready : bool) then Ready else Pending in
  do! tx_insert schema "tasks" (task_row goal_id task_id new_graph_revision phase (task_digest spec)) in
  do! (if bool_decide (phase = Ready)
       then let! now := now amb in
            do! tx_insert schema "task_scheduling_state" (scheduling_row task_id now) in tx_ret tt
       else tx_ret tt) in
  do! update_revisioned schema "task_graphs" goal_id current_graph_revision [] in
  let! goal_phase := tx_some (goal_phase_parse goal_phase) (broken "goal has unknown phase" [goal_id]) in
  do! (if bool_decide (goal_phase = GoalPlanning)
       then do! update_revisioned schema "goals" goal_id goal_row_revision
                  [("phase", SText (goal_phase_as_str GoalActive))] in tx_ret tt
       else tx_ret tt) in
  do! update_revisioned schema "planning_operations" operation_id op_revision
        [("state", SText (planning_state_as_str Materialized))] in
  tx_ret {| materialized_task :=
              {| task_record_id := task_id; task_record_goal_id := goal_id; task_record_phase := phase;
                 task_record_created_graph_revision := new_graph_revision;
                 task_record_spec_digest := task_digest spec; task_record_revision := 1;
                 task_record_active_run_id := None |};
            materialized_graph_revision := new_graph_revision;
            materialized_goal_phase := GoalActive |}.

(** ** Cancellation *)

Definition quoted (s : string) : string := quote +:+ (s +:+ quote).

Definition goal_cancelled_reason : string :=
  "{" +:+ quoted "code" +:+ ":" +:+ quoted "goal-cancelled" +:+ "}".

Definition cancelled_task_assignments : list (string * SqlValue) :=
  [("phase", SText (task_phase_as_str Finalizing));
   ("terminal_target", SText (task_phase_as_str Cancelled));
   ("terminal_reason_json", SText goal_cancelled_reason)].

Definition decode_task_head (r : Row) : Result (string * string * Z * option string) SqliteError :=
  let? id := get_text "id" r in
  let? phase := get_text "phase" r in
  let? revision := get_integer "revision" r in
  let? target := get_optional_text "terminal_target" r in
  Ok (id, phase, revision, target).

(** The body of the fencing loop: whether the Task was driven to [Cancelled]. *)
Definition fence_task (t : string * string * Z * option string) : Tx bool :=
  let '(task_id, phase, revision, target) := t in
  let! phase := tx_some (task_phase_parse phase) (broken "task has unknown phase" [task_id]) in
  if task_is_terminal phase || bool_decide (target = Some "Cancelled") then tx_ret false
  else
    let! fenced_at := update_revisioned schema "tasks" task_id revision cancelled_task_assignments in
    do! guard (fenced_at =? revision + 1)%Z (broken "fencing left another revision" [task_id]) in
    tx_ret true.

Fixpoint fence_all (l : list (string * string * Z * option string)) : Tx nat :=
  match l with
  | [] => tx_ret 0
  | t :: rest =>
      let! fenced := fence_task t in
      let! n := fence_all rest in
      tx_ret (if (fenced : bool) then S n else n)
  end.

Definition fence_tasks (goal_id : string) : Tx nat :=
  let! tasks := query_ordered schema "tasks" ["id"; "phase"; "revision"; "terminal_target"; "goal_id"]
    (col_is "goal_id" (SText goal_id)) "id" decode_task_head in
  fence_all tasks.

Definition decode_cancellable (r : Row) : Result (string * Z * Z * option string) SqliteError :=
  let? phase := get_text "phase" r in
  let? current_revision := get_integer "current_revision" r in
  let? revision := get_integer "revision" r in
  let? target := get_optional_text "terminal_target" r in
  Ok (phase, current_revision, revision, target).

(** Whether a Goal is already on its way to [Cancelled]; none when it may not be
    cancelled. *)
Definition cancellable (phase : GoalPhase) (target : option string) : option bool :=
  match phase with
  | GoalPlanning | GoalActive | GoalEvaluating => Some false
  | GoalFinalizing =>
      if bool_decide (target = Some "Succeeded") || bool_decide (target = Some "Failed") then Some false
      else if bool_decide (target = Some "Cancelled") then Some true
      else None
  | _ => None
  end.

Definition cancel_goal (goal_id : string) : Tx Cancellation :=
  let! goal := query_by schema "goals" "id" goal_id
    ["phase"; "current_revision"; "revision"; "terminal_target"] decode_cancellable in
  let! (phase, current_revision, revision, target) :=
    tx_some goal (broken "goal does not exist" [goal_id]) in
  let! phase := tx_some (goal_phase_parse phase) (broken "goal has unknown phase" [goal_id]) in
  let! already := some_or_fail (cancellable phase target)
    (GoalNotCancellable goal_id (goal_phase_as_str phase) target) in
  let! goal_revision :=
    (if (already : bool) then tx_ret revision
     else update_revisioned schema "goals" goal_id revision
            [("phase", SText (goal_phase_as_str GoalFinalizing));
             ("terminal_target", SText (goal_phase_as_str GoalCancelled))]) in
  let! fenced := fence_tasks goal_id in
  tx_ret {| cancellation_goal :=
              {| goal_record_id := goal_id; goal_record_phase := GoalFinalizing;
                 goal_record_current_revision := current_revision;
                 goal_record_revision := goal_revision |};
            cancellation_tasks_fenced := fenced;
            cancellation_already_targeted := already |}.

(** ** Reads *)

(** [optional(..)?.map(..).transpose()]. *)
Definition and_then {A B} (r : Result (option A) StoreError) (f : A → Result B StoreError) :
    Result (option B) StoreError :=
  let? o := r in
  match o with
  | None => Ok None
  | Some a => let? b := f a in Ok (Some b)
  end.

Definition goal (db : Database) (goal_id : string) : Result (option GoalRecord) StoreError :=
  and_then (read_row schema db "goals" ["phase"; "current_revision"; "revision"; "id"]
              (col_is "id" (SText goal_id)) decode_goal_head)
    (fun '(phase, current_revision, revision) =>
       let? phase := ok_or (goal_phase_parse phase) (broken "goal has unknown phase" [goal_id]) in
       Ok {| goal_record_id := goal_id; goal_record_phase := phase;
             goal_record_current_revision := current_revision; goal_record_revision := revision |}).

Definition goal_revision_json (db : Database) (goal_id : string) (revision : Z) :
    Result (option string) StoreError :=
  read_row schema db "goal_revisions" ["canonical_json"; "goal_id"; "revision"]
    (fun r => col_is "goal_id" (SText goal_id) r && col_is "revision" (SInteger revision) r)
    (get_text "canonical_json").

Definition task_graph (db : Database) (goal_id : string) : Result (option GraphRecord) StoreError :=
  and_then (read_row schema db "task_graphs" ["revision"; "id"] (col_is "id" (SText goal_id))
              (get_integer "revision"))
    (fun revision => Ok {| graph_record_goal_id := goal_id; graph_record_revision := revision |}).

Definition decode_task (r : Row) : Result (string * string * Z * string * Z * option string) SqliteError :=
  let? goal_id := get_text "goal_id" r in
  let? phase := get_text "phase" r in
  let? created := get_integer "created_graph_revision" r in
  let? digest := get_blob "spec_digest" r in
  let? revision := get_integer "revision" r in
  let? active := get_optional_text "active_run_id" r in
  Ok (goal_id, phase, created, digest, revision, active).

Definition task (db : Database) (task_id : string) : Result (option TaskRecord) StoreError :=
  and_then (read_row schema db "tasks"
              ["goal_id"; "phase"; "created_graph_revision"; "spec_digest"; "revision"; "active_run_id"; "id"]
              (col_is "id" (SText task_id)) decode_task)
    (fun '(goal_id, phase, created, digest, revision, active) =>
       let? phase := ok_or (task_phase_parse phase) (broken "task has unknown phase" [task_id]) in
       let? digest := digest_from digest "spec_digest" in
       Ok {| task_record_id := task_id; task_record_goal_id := goal_id; task_record_phase := phase;
             task_record_created_graph_revision := created; task_record_spec_digest := digest;
             task_record_revision := revision; task_record_active_run_id := active |}).

Definition task_spec_json (db : Database) (digest : Digest) : Result (option string) StoreError :=
  read_row schema db "task_specs" ["canonical_json"; "digest"] (col_is "digest" (digest_blob digest))
    (get_text "canonical_json").

Definition decode_operation_row (r : Row) : Result (string * Z * Z * Z * string * string * Z) SqliteError :=
  let? goal_id := get_text "goal_id" r in
  let? goal_revision := get_integer "goal_revision" r in
  let? expected := get_integer "expected_graph_revision" r in
  let? config := get_integer "configuration_activation_sequence" r in
  let? digest := get_blob "planning_input_digest" r in
  let? state := get_text "state" r in
  let? revision := get_integer "revision" r in
  Ok (goal_id, goal_revision, expected, config, digest, state, revision).

Definition planning_operation (db : Database) (operation_id : string) :
    Result (option PlanningOperationRecord) StoreError :=
  and_then (read_row schema db "planning_operations"
              ["goal_id"; "goal_revision"; "expected_graph_revision"; "configuration_activation_sequence";
               "planning_input_digest"; "state"; "revision"; "id"]
              (col_is "id" (SText operation_id)) decode_operation_row)
    (fun '(goal_id, goal_revision, expected, config, digest, state, revision) =>
       let? state := ok_or (planning_state_parse state)
         (broken "planning operation has unknown state" [operation_id]) in
       let? digest := digest_from digest "planning_input_digest" in
       Ok {| op_record_id := operation_id; op_record_goal_id := goal_id;
             op_record_goal_revision := goal_revision; op_record_expected_graph_revision := expected;
             op_record_configuration_activation_sequence := config;
             op_record_planning_input_digest := digest; op_record_state := state;
             op_record_revision := revision |}).

Definition planning_record_proposal (db : Database) (operation_id : string) :
    Result (option (Digest * string)) StoreError :=
  and_then (read_row schema db "planning_records"
              ["proposal_digest"; "canonical_proposal"; "planning_operation_id"]
              (col_is "planning_operation_id" (SText operation_id))
              (fun r => let? d := get_blob "proposal_digest" r in
                        let? c := get_text "canonical_proposal" r in Ok (d, c)))
    (fun '(digest, canonical) =>
       let? digest := digest_from digest "proposal_digest" in Ok (digest, canonical)).

(** [a JOIN b ON b.c = v]: the rows of the table whose column is the value. *)
Definition joined (db : Database) (table c : string) (v : SqlValue) : list Row :=
  List.filter (col_is c v) (rows db table).

Definition active_evaluator_component_json (db : Database) : Result (option string) StoreError :=
  map_err Sqlite
    match flat_map (fun active =>
            flat_map (fun revision =>
              joined db "configuration_components" "digest" (column revision "evaluator_registry_digest"))
            (joined db "configuration_revisions" "activation_sequence" (column active "activation_sequence")))
          (joined db "active_configuration" "id" (SText "singleton")) with
    | [] => Ok None
    | component :: _ => let? json := get_text "canonical_json" component in Ok (Some json)
    end.
End Planning.

(** ** Lemmas *)

Lemma planning_state_parse_as_str s : planning_state_parse (planning_state_as_str s) = Some s.
Proof. by destruct s. Qed.

Section PlanningFacts.
Context `{Sha256}.

(** What materialization re-establishes inside its transaction: the operation is
    unspent and was decided for the Goal's current content, graph and
    configuration, and the plan is the recorded proposal, validated against that
    content. *)
Record plan_current (db : Database) (operation_id : string) (plan : Materializable)
    (goal_id goal_phase : string) (goal_row_revision graph_revision op_revision : Z) : Prop := {
  pc_operation : ∃ r, row_of db "planning_operations" "id" operation_id = Some r ∧
    column r "state" = SText (planning_state_as_str Planned) ∧ column r "goal_id" = SText goal_id ∧
    column r "goal_revision" = SInteger (mat_goal_revision plan) ∧
    column r "expected_graph_revision" = SInteger graph_revision ∧
    column r "revision" = SInteger op_revision ∧
    ∃ ac, row_of db "active_configuration" "id" "singleton" = Some ac ∧
      column ac "activation_sequence" = column r "configuration_activation_sequence";
  pc_goal : ∃ g, row_of db "goals" "id" goal_id = Some g ∧ column g "phase" = SText goal_phase ∧
    column g "current_revision" = SInteger (mat_goal_revision plan) ∧
    column g "revision" = SInteger goal_row_revision;
  pc_content : ∃ gr, gr ∈ rows db "goal_revisions" ∧ column gr "goal_id" = SText goal_id ∧
    column gr "revision" = SInteger (mat_goal_revision plan) ∧
    column gr "content_digest" = digest_blob (mat_goal_digest plan);
  pc_spec : task_goal_id (mat_spec plan) = goal_id;
  pc_proposal : ∃ pr, row_of db "planning_records" "planning_operation_id" operation_id = Some pr ∧
    column pr "proposal_digest" = digest_blob (mat_proposal_digest plan);
  pc_graph : ∃ gg, row_of db "task_graphs" "id" goal_id = Some gg ∧
    column gg "revision" = SInteger graph_revision
}.

Lemma active_sequence_Ok w o w' :
  active_sequence MIGRATIONS w = (Ok o, w') →
  w' = w ∧ match o with
           | Some n => ∃ ac, row_of (w_db w) "active_configuration" "id" "singleton" = Some ac ∧
               column ac "activation_sequence" = SInteger n
           | None => True
           end.
Proof.
  unfold active_sequence. intros Ha. tx_step Ha. apply query_by_Ok in E as [-> E].
  apply tx_ret_Ok in Ha as [-> ->]. split; [done|].
  destruct (row_of _ _ _ _) as [ac|]; [|by subst]. destruct E as (o' & Hd & ->).
  apply get_optional_integer_Ok in Hd. destruct o'; [eauto|done].
Qed.

Lemma materialize_preconditions_Ok operation_id plan w g p grr gr opr w' :
  materialize_preconditions MIGRATIONS operation_id plan w = (Ok (g, p, grr, gr, opr), w') →
  w' = w ∧ plan_current (w_db w) operation_id plan g p grr gr opr.
Proof.
  unfold materialize_preconditions. intros Hm. tx_step Hm as Eop. tx_step Hm as E. subst.
  apply query_by_Some in Eop as (-> & r & Hr & Dr). destruct a0 as [[[[[gid fgr] egr] fc] st] opr'].
  unfold decode_operation in Dr. decode_inv Dr. tx_step Hm as Est. tx_step Hm as E.
  apply bool_decide_eq_true in E as ->.
  tx_step Hm as Eg. tx_step Hm as E. subst. apply query_by_Some in Eg as (-> & g' & Hg & Dg).
  destruct a0 as [[ph cgr] grr']. unfold decode_goal_head in Dg. decode_inv Dg.
  do 2 (tx_step Hm as E; apply Z.eqb_eq in E; subst).
  tx_step Hm as Ec. tx_step Hm as E. subst. apply query_optional_Some in Ec as (-> & gr' & Hgr & Hw & Dc%get_blob_Ok).
  apply andb_true_iff in Hw as [[_ Hw1]%col_is_true [_ Hw2]%col_is_true].
  do 2 (tx_step Hm as E; apply String.eqb_eq in E; subst).
  tx_step Hm as Ep. tx_step Hm as E. subst. apply query_by_Some in Ep as (-> & pr & Hpr & Dp%get_blob_Ok).
  tx_step Hm as E. apply String.eqb_eq in E. subst.
  tx_step Hm as Egg. tx_step Hm as E. subst. apply query_by_Some in Egg as (-> & gg & Hgg & Dgg%get_integer_Ok).
  tx_step Hm as E. apply Z.eqb_eq in E. subst.
  tx_step Hm as Ea. tx_step Hm as E. subst. apply active_sequence_Ok in Ea as (-> & ac & Hac & Dac).
  tx_step Hm as E. apply Z.eqb_eq in E. subst.
  apply tx_ret_Ok in Hm as [[= -> -> -> -> ->] ->]. split; [done|].
  assert (st = planning_state_as_str Planned) as ->.
  { unfold planning_state_parse in Est. destruct (String.eqb_spec st "Planned") as [->|]; [done|].
    by destruct (String.eqb st "Materialized"). }
  split; [|eauto 10..]. exists r. split_and!; [done..|]. exists ac. split; [done|]. congruence.
Qed.

(** What it leaves: the new Task, the graph one revision on, the Goal out of
    [Planning], the operation spent. *)
Record plan_applied (db db' : Database) (operation_id task_id goal_id goal_phase : string)
    (graph_revision : Z) (phase : TaskPhase) (spec_digest : Digest) : Prop := {
  pa_task : row_of db "tasks" "id" task_id = None ∧
    row_of db' "tasks" "id" task_id =
      Some (list_to_map (task_row goal_id task_id (graph_revision + 1) phase spec_digest));
  pa_graph : ∃ gg, row_of db' "task_graphs" "id" goal_id = Some gg ∧
    column gg "revision" = SInteger (graph_revision + 1);
  pa_goal : ∃ p g, row_of db' "goals" "id" goal_id = Some g ∧ goal_phase_parse goal_phase = Some p ∧
    column g "phase" = SText (if bool_decide (p = GoalPlanning) then "Active" else goal_phase);
  pa_operation : ∃ r, row_of db' "planning_operations" "id" operation_id = Some r ∧
    column r "state" = SText (planning_state_as_str Materialized)
}.

(** A Task that is not stored yet has no dependency. *)
Lemma no_edges_of_absent db task_id graph_revision :
  valid MIGRATIONS db → row_of db "tasks" "id" task_id = None →
  unsatisfied_upstream db task_id graph_revision = [].
Proof.
  intros Hv Hnone. unfold unsatisfied_upstream.
  enough (List.filter (active_edge task_id graph_revision) (rows db "task_graph_edges") = []) as -> by done.
  apply filter_nil_b. intros edge Hin. apply not_true_iff_false. unfold active_edge. intros Ha.
  do 3 (apply andb_true_iff in Ha as [Ha _]). apply col_is_text in Ha.
  destruct (valid_reference MIGRATIONS db task_graph_edges_table
    (references ["downstream_task_id"] "tasks" ["id"]) edge "downstream_task_id" "id")
    as (p & Hp & Hc); [done|set_solver|cbn; set_solver|done|done|done|by rewrite Ha|].
  rewrite row_of_None in Hnone. apply (Hnone p Hp). congruence.
Qed.

Lemma apply_plan_Ok amb operation_id task_id plan w m w' :
  valid MIGRATIONS (w_db w) →
  apply_plan MIGRATIONS amb operation_id task_id plan w = (Ok m, w') →
  ∃ goal_phase goal_row_revision op_revision,
    let t := materialized_task m in
    let graph_revision := (materialized_graph_revision m - 1)%Z in
    plan_current (w_db w) operation_id plan (task_record_goal_id t) goal_phase goal_row_revision
      graph_revision op_revision ∧
    plan_applied (w_db w) (w_db w') operation_id task_id (task_record_goal_id t) goal_phase
      graph_revision Ready (task_digest (mat_spec plan)) ∧
    t = {| task_record_id := task_id; task_record_goal_id := task_record_goal_id t; task_record_phase := Ready;
           task_record_created_graph_revision := materialized_graph_revision m;
           task_record_spec_digest := task_digest (mat_spec plan); task_record_revision := 1;
           task_record_active_run_id := None |}.
Proof.
  intros Hv Hm. unfold apply_plan in Hm. tx_step Hm as Epre. destruct a as [[[[g p] grr] gr] opr].
  apply materialize_preconditions_Ok in Epre as [-> Hcur]. exists p, grr, opr.
  tx_step Hm as Es. pose proof (tx_insert_or_ignore_validity _ _ _ _ _ _ _ Es Hv) as Hv1.
  apply (tx_insert_or_ignore_touches ["task_specs"]) in Es; [|left].
  tx_step Hm as Eq. unfold prerequisites_satisfied in Eq. tx_step Eq as Ec.
  apply tx_query_Ok in Ec as [[= Ec] ->]. apply tx_ret_Ok in Eq as [-> ->].
  tx_step Hm as Et. destruct (insert_row_of _ _ "id" task_id _ _ _ _ Et eq_refl) as [Hnone Hnew].
  rewrite no_edges_of_absent in Ec by done. subst a1. cbn [length Nat.eqb] in *.
  tx_valid Et Hv1 as Hv2. tx_frame Et ["tasks"] as F2.
  rewrite bool_decide_eq_true_2 in Hm by done. tx_step Hm as Esch. tx_valid Esch Hv2 as Hv3.
  tx_frame Esch ["task_scheduling_state"] as F3.
  tx_step Hm as Egg. tx_valid Egg Hv3 as Hv4. tx_frame Egg ["task_graphs"] as F4.
  tx_step Hm as Ep. tx_step Hm as Eg. tx_valid Eg Hv4 as Hv5. tx_frame Eg ["goals"] as F5.
  tx_step Hm as Eop. tx_frame Eop ["planning_operations"] as F6. apply tx_ret_Ok in Hm as [-> ->].
  cbn [materialized_task materialized_graph_revision task_record_goal_id task_record_phase].
  replace (gr + 1 - 1)%Z with gr by lia. split_and!; [done| |done]. split.
  - rewrite <-(row_of_same _ _ _ "tasks" "id" task_id Es) by elem. split; [done|].
    by rewrite (row_of_same _ _ _ _ _ _ F6), (row_of_same _ _ _ _ _ _ F5), (row_of_same _ _ _ _ _ _ F4),
      (row_of_same _ _ _ _ _ _ F3) by elem.
  - apply update_revisioned_row in Egg as (_ & gg & _ & _ & Hrow & Hrev & _); [|apply _..|done|done].
    rewrite (row_of_same _ _ _ _ _ _ F6), (row_of_same _ _ _ _ _ _ F5) by elem. eauto.
  - rewrite (row_of_same _ _ _ _ _ _ F6) by elem. destruct Hcur as [_ (g' & Hg & Hp & _) _ _ _ _].
    rewrite <-(row_of_same _ _ _ _ _ _ Es), <-(row_of_same _ _ _ _ _ _ F2),
      <-(row_of_same _ _ _ _ _ _ F3), <-(row_of_same _ _ _ _ _ _ F4) in Hg by elem.
    destruct (bool_decide (a3 = GoalPlanning)) eqn:Eb.
    + tx_step Eg as Eu. apply tx_ret_Ok in Eg as [_ ->].
      apply update_revisioned_row in Eu as (_ & g'' & Hg'' & _ & Hrow & _); [|apply _..|done|done].
      exists a3, (set_clause [("phase", SText "Active")] g''). split_and!; [done|done|].
      by rewrite Eb, column_set_clause.
    + apply tx_ret_Ok in Eg as [_ ->]. exists a3, g'. split_and!; [done|done|]. by rewrite Eb.
  - apply update_revisioned_row in Eop as (_ & r & _ & _ & Hrow & _); [|apply _..|done|done].
    eexists. split; [done|]. by rewrite column_set_clause.
Qed.


(** A Goal that is not stored has no revision. *)
Lemma no_revision_of_absent db goal_id r :
  valid MIGRATIONS db → row_of db "goals" "id" goal_id = None → r ∈ rows db "goal_revisions" →
  column r "goal_id" ≠ SText goal_id.
Proof.
  intros Hv Hnone Hr Hc.
  destruct (valid_reference MIGRATIONS db goal_revisions_table (references ["goal_id"] "goals" ["id"])
    r "goal_id" "id") as (p & Hp & Hpc); [done|set_solver|cbn; set_solver|done|done|done|by rewrite Hc|].
  rewrite row_of_None in Hnone. apply (Hnone p Hp). congruence.
Qed.

Lemma canonical_json_wf v : wf_value v = true → canonical_json v = to_canonical_bytes v.
Proof. intros Hwf. unfold canonical_json, to_canonical_bytes. by rewrite (write_canonical_valid v Hwf). Qed.

Lemma create_goal_Ok amb goal_id spec w rec w' :
  valid MIGRATIONS (w_db w) → create_goal MIGRATIONS amb goal_id spec w = (Ok rec, w') →
  rec = {| goal_record_id := goal_id; goal_record_phase := GoalPlanning;
           goal_record_current_revision := 1; goal_record_revision := 1 |} ∧
  row_of (w_db w) "goals" "id" goal_id = None ∧
  row_of (w_db w') "goals" "id" goal_id = Some (list_to_map (goal_row amb goal_id)) ∧
  row_of (w_db w') "task_graphs" "id" goal_id =
    Some (list_to_map [("id", SText goal_id); ("revision", SInteger 0)]) ∧
  List.filter (fun r => col_is "goal_id" (SText goal_id) r && col_is "revision" (SInteger 1) r)
    (rows (w_db w') "goal_revisions") = [list_to_map (goal_revision_row amb goal_id spec)].
Proof.
  intros Hv Hm. unfold create_goal in Hm. tx_step Hm. tx_step Hm as Eg. tx_step Hm as Er. tx_step Hm as Et.
  apply tx_ret_Ok in Hm as [-> ->]. tx_frame Eg ["goals"] as F1. tx_frame Er ["goal_revisions"] as F2.
  tx_frame Et ["task_graphs"] as F3.
  destruct (insert_row_of _ _ "id" goal_id _ _ _ _ Eg eq_refl) as [Hnone Hgoal].
  destruct (insert_row_of _ _ "id" goal_id _ _ _ _ Et eq_refl) as [_ Hgraph].
  split_and!; [done|done| |done|].
  - by rewrite (row_of_same _ _ _ _ _ _ F3), (row_of_same _ _ _ _ _ _ F2) by elem.
  - rewrite (F3 "goal_revisions") by elem.
    apply tx_insert_Ok in Er as (_ & _ & _ & ->). rewrite rows_insert, filter_app_b, (F1 "goal_revisions") by elem.
    rewrite (proj2 (filter_nil_b _ (rows (w_db w) "goal_revisions"))).
    + apply filter_one. by rewrite andb_true_iff, !col_is_true.
    + intros r Hr. apply not_true_iff_false. intros [Hc%col_is_text _]%andb_true_iff.
      by apply (no_revision_of_absent (w_db w) goal_id r).
Qed.

(** a Goal that was created reads back as it was asked for: the row is the
    record the call returned, in [Planning] at revision 1, the stored text of its
    first revision decodes to exactly the given specification, and its graph
    exists at revision 0; and no Goal of that id existed before. *)
Theorem created_goal_reads_back d amb c goal_id spec conn rec cur conn'
    (Hvalid : valid MIGRATIONS (conn_db conn)) (Hwf : wf_goal spec = true)
    (Hx : execute_command MIGRATIONS d amb c (create_goal MIGRATIONS amb goal_id spec) conn =
       (Ok (Executed rec cur), conn')) :
  goal MIGRATIONS (conn_db conn) goal_id = Ok None ∧
  goal MIGRATIONS (conn_db conn') goal_id = Ok (Some rec) ∧
  (∃ json, goal_revision_json MIGRATIONS (conn_db conn') goal_id 1 = Ok (Some json) ∧
     goal_from_canonical_json json = Ok spec) ∧
  task_graph MIGRATIONS (conn_db conn') goal_id =
    Ok (Some {| graph_record_goal_id := goal_id; graph_record_revision := 0 |}).
Proof.
  destruct (executed_body _ _ _ _ _ _ _ _ _ Hx) as (w & Hw & Hk).
  apply create_goal_Ok in Hw as (-> & Hnone & Hg & Hgg & Hr); [|done].
  rewrite <-(row_of_same _ _ _ _ _ _ Hk) in Hg by elem.
  rewrite <-(row_of_same _ _ _ _ _ _ Hk) in Hgg by elem. rewrite <-(Hk "goal_revisions") in Hr by elem.
  split_and!.
  - unfold goal. rewrite (read_row_eval _ _ _ _ _ _ goals_table) by done. unfold row_of in Hnone. cbn [w_db] in Hnone.
    by destruct (List.filter _ _).
  - unfold goal. by erewrite (read_row_of _ "goals"); [|reflexivity|reflexivity|exact Hg|reflexivity].
  - exists (to_canonical_bytes (goal_to_value spec)). split; [|by apply goal_from_canonical].
    unfold goal_revision_json. rewrite (read_row_eval _ _ _ _ _ _ goal_revisions_table) by done. rewrite Hr. cbn.
    by rewrite (canonical_json_wf _ (goal_to_value_wf _ Hwf)).
  - unfold task_graph. by erewrite (read_row_of _ "task_graphs"); [|reflexivity|reflexivity|exact Hgg|reflexivity].
Qed.

(** *** Cancellation *)

(** A Task that will never run again: terminal, or on its way to [Cancelled]. *)
Definition task_fenced (r : Row) : Prop :=
  column r "terminal_target" = SText "Cancelled" ∨
  ∃ p, column r "phase" = SText (task_phase_as_str p) ∧ task_is_terminal p = true.

Lemma fence_task_Ok id p rev target w b w' r :
  valid MIGRATIONS (w_db w) → row_of (w_db w) "tasks" "id" id = Some r →
  decode_task_head r = Ok (id, p, rev, target) →
  fence_task MIGRATIONS (id, p, rev, target) w = (Ok b, w') →
  valid MIGRATIONS (w_db w') ∧ same_outside ["tasks"] (w_db w) (w_db w') ∧
  (∀ k, k ≠ id → row_of (w_db w') "tasks" "id" k = row_of (w_db w) "tasks" "id" k) ∧
  ∃ r', row_of (w_db w') "tasks" "id" id = Some r' ∧ task_fenced r' ∧
    column r' "goal_id" = column r "goal_id".
Proof.
  intros Hv Hr Hd Hf. unfold fence_task in Hf. tx_step Hf as Ep.
  unfold decode_task_head in Hd. decode_inv Hd. apply task_phase_parse_Some in Ep.
  destruct (task_is_terminal a || bool_decide (target = Some "Cancelled")) eqn:Eb.
  - apply tx_ret_Ok in Hf as [-> ->]. split_and!; [done..|]. exists r. split_and!; [done| |done].
    apply orb_true_iff in Eb as [Et|Et%bool_decide_eq_true]; [right|left; by subst]. exists a. by rewrite <-Ep.
  - tx_step Hf as Eu. tx_step Hf. apply tx_ret_Ok in Hf as [-> ->]. tx_valid Eu Hv as Hv'.
    tx_frame Eu ["tasks"] as F. apply update_revisioned_row in Eu as (_ & r1 & Hr1 & _ & Hrow & _ & Hother); [|apply _..|done|done]. split_and!; [done..|]. eexists. split; [done|].
    rewrite Hr in Hr1. injection Hr1 as <-. split; [left|]; by rewrite column_set_clause.
Qed.

Definition head_id (t : string * string * Z * option string) : string := t.1.1.1.

Lemma fence_all_Ok l w n w' :
  valid MIGRATIONS (w_db w) → NoDup (map head_id l) →
  (∀ t, t ∈ l → ∃ r, row_of (w_db w) "tasks" "id" (head_id t) = Some r ∧ decode_task_head r = Ok t) →
  fence_all MIGRATIONS l w = (Ok n, w') →
  valid MIGRATIONS (w_db w') ∧ same_outside ["tasks"] (w_db w) (w_db w') ∧
  (∀ k, k ∉ map head_id l → row_of (w_db w') "tasks" "id" k = row_of (w_db w) "tasks" "id" k) ∧
  ∀ t r, t ∈ l → row_of (w_db w) "tasks" "id" (head_id t) = Some r →
    ∃ r', row_of (w_db w') "tasks" "id" (head_id t) = Some r' ∧ task_fenced r' ∧
      column r' "goal_id" = column r "goal_id".
Proof.
  revert w n w'; induction l as [|t l IH]; intros w n w' Hv Hnd Hrows Hf.
  { apply tx_ret_Ok in Hf as [-> ->]. set_solver. }
  cbn [fence_all] in Hf. tx_step Hf as Ef. tx_step Hf as El. apply tx_ret_Ok in Hf as [_ ->].
  destruct (Hrows t ltac:(left)) as (r & Hr & Hd). destruct t as [[[id p] rev] target].
  cbn [map] in Hnd. apply NoDup_cons in Hnd as [Hni Hnd]. unfold head_id in Hni at 1. cbn in Hni, Hr.
  destruct (fence_task_Ok _ _ _ _ _ _ _ _ Hv Hr Hd Ef) as (Hv1 & F1 & Hother & r1 & Hr1 & Hfen & Hg1).
  assert (∀ u, u ∈ l → head_id u ≠ id) as Hne.
  { intros u Hu <-. apply Hni, list_elem_of_In, in_map, list_elem_of_In, Hu. }
  assert (∀ u, u ∈ l → ∃ r, row_of (w_db w0) "tasks" "id" (head_id u) = Some r ∧ decode_task_head r = Ok u)
    as Hrows1 by (intros u Hu; rewrite Hother by (by apply Hne); apply Hrows; by right).
  destruct (IH _ _ _ Hv1 Hnd Hrows1 El) as (Hv2 & F2 & Hother2 & Hall).
  split_and!; [done|by etrans| |].
  - intros k Hk. cbn in Hk. unfold head_id at 1 in Hk. cbn in Hk.
    rewrite Hother2 by set_solver. apply Hother. set_solver.
  - intros u ru [->|Hu]%elem_of_cons Hru.
    + cbn in Hru |- *. rewrite Hr in Hru. injection Hru as <-. rewrite Hother2 by done. eauto.
    + destruct (Hall u ru Hu) as (r' & ? & ? & ?); [by rewrite Hother by by apply Hne|]. eauto.
Qed.

(** The Tasks the fencing loop reads, one per stored Task of the Goal. *)
Lemma fence_tasks_reads goal_id w l :
  valid MIGRATIONS (w_db w) →
  Forall2 (fun r t => decode_task_head r = Ok t)
    (sort_by (text_order "id") (List.filter (col_is "goal_id" (SText goal_id)) (rows (w_db w) "tasks"))) l →
  NoDup (map head_id l) ∧
  (∀ t, t ∈ l → ∃ r, row_of (w_db w) "tasks" "id" (head_id t) = Some r ∧ decode_task_head r = Ok t) ∧
  ∀ r k, row_of (w_db w) "tasks" "id" k = Some r → column r "goal_id" = SText goal_id →
    ∃ t, t ∈ l ∧ head_id t = k.
Proof.
  intros Hv Hall.
  assert (∀ r t, decode_task_head r = Ok t → column r "id" = SText (head_id t)) as Hid.
  { intros r t Hd. unfold decode_task_head in Hd. by decode_inv Hd. }
  split_and!.
  - assert (omap (key_tuple ["id"]) (sort_by (text_order "id") (List.filter (col_is "goal_id" (SText goal_id))
      (rows (w_db w) "tasks"))) = map (fun t => [SText (head_id t)]) l) as Ho.
    { clear -Hall Hid. induction Hall as [|r t rs ts Hd Hall IH]; cbn; [done|]. rewrite IH.
      by rewrite (key_tuple_one "id" (SText (head_id t))) by (by apply col_is_text, Hid). }
    apply (NoDup_fmap_1 (fun k => [SText k])). rewrite <-list_fmap_compose.
    change (NoDup (map (fun t => [SText (head_id t)]) l)). rewrite <-Ho, sort_by_perm.
    apply (keyed_NoDup MIGRATIONS); [apply _|done].
  - intros t Ht. destruct (Forall2_in_r _ _ _ _ Hall Ht) as (r & Hr & Hd). rewrite sort_by_perm in Hr.
    apply list_elem_of_In, filter_In in Hr as [Hr%list_elem_of_In _]. exists r. split; [|done].
    apply (row_of_unique MIGRATIONS); [apply _|done|done|by apply Hid].
  - intros r k [Hr Hk]%row_of_Some Hg.
    destruct (Forall2_in_l _ _ _ r Hall) as (t & Ht & Hd).
    + rewrite sort_by_perm. apply list_elem_of_In, filter_In. split; [by apply list_elem_of_In|].
      by apply col_is_text.
    + exists t. split; [done|]. apply Hid in Hd. congruence.
Qed.

Lemma stored_text db t c r :
  valid MIGRATIONS db → t ∈ MIGRATIONS → (c, (TText, true)) ∈ ts_columns t → r ∈ rows db (ts_name t) →
  ∃ s, column r c = SText s.
Proof.
  intros Hv Ht Hc Hr. destruct (valid_rows _ _ _ _ Hv Ht Hr) as [Hty _].
  unfold type_violation in Hty. rewrite find_map_None in Hty. specialize (Hty _ Hc). cbn in Hty.
  destruct (column r c); try done. eauto.
Qed.

Lemma fence_tasks_Ok goal_id w n w' :
  valid MIGRATIONS (w_db w) → fence_tasks MIGRATIONS goal_id w = (Ok n, w') →
  valid MIGRATIONS (w_db w') ∧ same_outside ["tasks"] (w_db w) (w_db w') ∧
  ∀ r, r ∈ rows (w_db w') "tasks" → column r "goal_id" = SText goal_id → task_fenced r.
Proof.
  intros Hv Hf. unfold fence_tasks in Hf. tx_step Hf as Eq. apply query_ordered_Ok in Eq as [-> Hall].
  destruct (fence_tasks_reads _ _ _ Hv Hall) as (Hnd & Hread & Hcover).
  destruct (fence_all_Ok _ _ _ _ Hv Hnd Hread Hf) as (Hv' & F & Hother & Hfenced).
  split_and!; [done..|]. intros r Hr Hg.
  destruct (stored_text (w_db w') tasks_table "id" r) as [k Hid]; [done|set_solver|cbn; set_solver|done|].
  assert (row_of (w_db w') "tasks" "id" k = Some r) as Hrow
    by (apply (row_of_unique MIGRATIONS); [apply _|done..]).
  destruct (decide (k ∈ map head_id a)) as [Hin|Hni].
  - apply list_elem_of_In, in_map_iff in Hin as (t & <- & Ht%list_elem_of_In).
    destruct (Hread t Ht) as (r0 & Hr0 & _). destruct (Hfenced t r0 Ht Hr0) as (r' & Hr' & Hfen & _).
    rewrite Hrow in Hr'. by injection Hr' as <-.
  - exfalso. apply Hni. rewrite (Hother k Hni) in Hrow. destruct (Hcover r k Hrow Hg) as (t & Ht & <-).
    apply list_elem_of_In, in_map, list_elem_of_In, Ht.
Qed.

Lemma cancellable_nonterminal p target already :
  cancellable p target = Some already →
  goal_is_nonterminal p = true ∧ (already = true → p = GoalFinalizing ∧ target = Some "Cancelled").
Proof.
  destruct p; cbn; try naive_solver. destruct (_ || _); [naive_solver|].
  destruct (bool_decide (target = Some "Cancelled")) eqn:E; [|done]. apply bool_decide_eq_true in E. done.
Qed.

Lemma cancel_goal_Ok goal_id w v w' :
  valid MIGRATIONS (w_db w) → cancel_goal MIGRATIONS goal_id w = (Ok v, w') →
  valid MIGRATIONS (w_db w') ∧
  (∃ g, row_of (w_db w') "goals" "id" goal_id = Some g ∧ column g "phase" = SText "Finalizing" ∧
     column g "terminal_target" = SText "Cancelled") ∧
  (∀ r, r ∈ rows (w_db w') "tasks" → column r "goal_id" = SText goal_id → task_fenced r) ∧
  same_outside ["goals"; "tasks"] (w_db w) (w_db w') ∧
  ∃ g p, row_of (w_db w) "goals" "id" goal_id = Some g ∧
    column g "phase" = SText (goal_phase_as_str p) ∧ goal_is_nonterminal p = true.
Proof.
  intros Hv Hm. unfold cancel_goal in Hm. tx_step Hm as Eq. tx_step Hm as E. subst.
  apply query_by_Some in Eq as (-> & g & Hg & Dg). destruct a0 as [[[pt crev] rev] target].
  unfold decode_cancellable in Dg. decode_inv Dg. tx_step Hm as Ep. apply goal_phase_parse_Some in Ep. subst pt.
  tx_step Hm as Ec. apply cancellable_nonterminal in Ec as [Hnt Hal].
  tx_step Hm as Eu. tx_frame Eu ["goals"] as F1. tx_valid Eu Hv as Hv1.
  tx_step Hm as Ef. apply tx_ret_Ok in Hm as [-> ->].
  destruct (fence_tasks_Ok _ _ _ _ Hv1 Ef) as (Hv2 & F2 & Hfen).
  split_and!; [done| |done| |by eauto].
  - destruct a0.
    + apply tx_ret_Ok in Eu as [_ ->]. destruct (Hal eq_refl) as [-> ->]. exists g.
      rewrite (row_of_same _ _ _ _ _ _ F2) by elem. done.
    + apply update_revisioned_row in Eu as (_ & g1 & _ & _ & Hrow & _); [|apply _..|done|done].
      eexists. rewrite (row_of_same _ _ _ _ _ _ F2) by elem. split; [done|].
      by rewrite !column_set_clause.
  - intros t Ht. rewrite (F2 t) by set_solver. apply F1. set_solver.
Qed.

(** an accepted cancellation fences the Goal and all its work in one
    commit: the Goal is [Finalizing] with target [Cancelled], every stored Task of
    it is terminal or has target [Cancelled], and nothing outside the Goals, the
    Tasks and the kernel's own tables changes; a terminal Goal is never
    cancelled. *)
Theorem cancellation_fences d amb c goal_id conn v cur conn'
    (Hvalid : valid MIGRATIONS (conn_db conn))
    (Hx : execute_command MIGRATIONS d amb c (cancel_goal MIGRATIONS goal_id) conn =
       (Ok (Executed v cur), conn')) :
  (∃ g, row_of (conn_db conn') "goals" "id" goal_id = Some g ∧ column g "phase" = SText "Finalizing" ∧
     column g "terminal_target" = SText "Cancelled") ∧
  (∀ r, r ∈ rows (conn_db conn') "tasks" → column r "goal_id" = SText goal_id → task_fenced r) ∧
  same_outside ("goals" :: "tasks" :: kernel_tables) (conn_db conn) (conn_db conn') ∧
  ∃ g p, row_of (conn_db conn) "goals" "id" goal_id = Some g ∧
    column g "phase" = SText (goal_phase_as_str p) ∧ goal_is_nonterminal p = true.
Proof.
  destruct (executed_body _ _ _ _ _ _ _ _ _ Hx) as (w & Hw & Hk).
  destruct (cancel_goal_Ok goal_id {| w_db := conn_db conn; w_failed := false |} v w Hvalid Hw) as (Hv' & (g & Hg & Hph & Htt) & Htasks & F & Hbefore).
  split_and!; [|intros r Hr; rewrite (Hk "tasks") in Hr by elem; by apply Htasks| |done].
  - exists g. by rewrite (row_of_same _ _ _ _ _ _ Hk) by elem.
  - intros t Ht. rewrite (Hk t) by set_solver. apply F. set_solver.
Qed.
End PlanningFacts.
