(* ===== verification/StoreConfiguration.v ===== *)
(** * Configuration authority ([pantheon-store/src/configuration.rs])

    Activation writes the six content-addressed components, the immutable
    revision row and the pointer in one command; the read of the active
    configuration re-digests everything it serves. *)

From Stdlib Require Import ZArith Ascii Lia.
From S2P Require Import Prelude Utf8 Canonical Parse ParseFacts Digest ConfigModel Sql Schema Transaction Command StoreBase StorePlanning.

Record ActiveConfiguration : Type := {
  active_activation_sequence : Z;
  active_content_digest : Digest;
  active_components : ComponentDigests;
  active_source_set_digest : Digest;
  active_pointer_revision : Z
}.

Record ConfigurationPointer : Type := {
  pointer_active : option ActiveConfiguration;
  pointer_revision : Z
}.

Definition POINTER_ID : string := "singleton".

Section Configuration.
Context `{Sha256}.
Variable schema : Schema.

(** ** Activation *)

Definition component_row (record : string * Digest * string) : list (string * SqlValue) :=
  let '(domain, digest, json) := record in
  [("digest", digest_blob digest); ("domain", SText domain); ("canonical_json", SText json)].

Fixpoint write_components (records : list (string * Digest * string)) : Tx unit :=
  match records with
  | [] => tx_ret tt
  | record :: rest =>
      do! tx_insert_or_ignore schema "configuration_components" ["digest"] (component_row record) in
      write_components rest
  end.

(** [COALESCE(MAX(c), 0)] over INTEGER values. *)
Definition max_step (c : string) (acc : Z) (r : Row) : Z :=
  match column r c with
  | SInteger n => Z.max acc n
  | _ => acc
  end.

Definition max_integer (c : string) (l : list Row) : Z := fold_left (max_step c) l 0%Z.

(** The sum is a REAL past the range, which the caller's [i64] refuses. *)
Definition next_activation_sequence : Tx Z :=
  tx_query (fun db =>
    match sql_increment (SInteger (max_integer "activation_sequence" (rows db "configuration_revisions"))) with
    | SInteger n => Ok n
    | _ => Err (InvalidColumnType "activation_sequence")
    end).

Definition revision_row (amb : Ambient) (sequence : Z) (content : Digest) (source : Digest)
    (d : ComponentDigests) : list (string * SqlValue) :=
  [("activation_sequence", SInteger sequence); ("content_digest", digest_blob content);
   ("compiler_version", SText COMPILER_VERSION); ("source_set_digest", digest_blob source);
   ("agents_digest", digest_blob (cd_agents d)); ("routing_digest", digest_blob (cd_routing d));
   ("execution_profile_digest", digest_blob (cd_execution_profile d));
   ("evaluator_registry_digest", digest_blob (cd_evaluator_registry d));
   ("context_policy_digest", digest_blob (cd_context_policy d));
   ("authorization_digest", digest_blob (cd_authorization d)); ("recorded_at", SInteger (amb_now amb))].

Definition write_activation (amb : Ambient) (compiled : CompiledConfiguration) (source : Digest)
    (expected_pointer_revision : Z) : Tx ActiveConfiguration :=
  do! write_components (component_records compiled) in
  let! next_sequence := next_activation_sequence in
  let components := component_digests compiled in
  let content := revision_digest compiled in
  let! recorded_at := now amb in
  do! tx_insert schema "configuration_revisions" (revision_row amb next_sequence content source components) in
  let! pointer := update_revisioned schema "active_configuration" POINTER_ID expected_pointer_revision
    [("activation_sequence", SInteger next_sequence)] in
  tx_ret {| active_activation_sequence := next_sequence; active_content_digest := content;
            active_components := components; active_source_set_digest := source;
            active_pointer_revision := pointer |}.

(** ** Reading *)

(** [verify_component]: stored, under its domain, and still hashing to its name. *)
Definition verify_component (db : Database) (domain : string) (expected : Digest) :
    Result unit StoreError :=
  let? found := read_row schema db "configuration_components" ["domain"; "canonical_json"; "digest"]
    (col_is "digest" (digest_blob expected))
    (fun r => let? d := get_text "domain" r in let? j := get_text "canonical_json" r in Ok (d, j)) in
  let? (stored_domain, json) := ok_or found
    (broken "component is not stored" [domain; to_display expected]) in
  if negb (String.eqb stored_domain domain)
  then Err (broken "component is stored under another domain" [to_display expected; stored_domain; domain])
  else if bool_decide (digest_of json = expected) then Ok tt
  else Err (broken "component content hashes to another digest" [domain; to_display expected]).

(** [row.get::<_, Vec<u8>>] and [digest]. *)
Definition read_digest (r : Row) (c : string) : Result Digest StoreError :=
  let? bytes := map_err Sqlite (get_blob c r) in digest_from bytes c.

Definition read_components (r : Row) : Result ComponentDigests StoreError :=
  let? agents := read_digest r "agents_digest" in
  let? routing := read_digest r "routing_digest" in
  let? execution := read_digest r "execution_profile_digest" in
  let? evaluators := read_digest r "evaluator_registry_digest" in
  let? context := read_digest r "context_policy_digest" in
  let? authorization := read_digest r "authorization_digest" in
  Ok {| cd_agents := agents; cd_routing := routing; cd_execution_profile := execution;
        cd_evaluator_registry := evaluators; cd_context_policy := context;
        cd_authorization := authorization |}.

Definition component_domains (d : ComponentDigests) : list (string * Digest) :=
  [("agents", cd_agents d); ("routing", cd_routing d); ("executionProfiles", cd_execution_profile d);
   ("evaluators", cd_evaluator_registry d); ("context", cd_context_policy d);
   ("authorization", cd_authorization d)].

Definition read_revision_row (db : Database) (sequence pointer : Z) :
    Result ActiveConfiguration StoreError :=
  let? found := read_row schema db "configuration_revisions"
    ["content_digest"; "source_set_digest"; "compiler_version"; "agents_digest"; "routing_digest";
     "execution_profile_digest"; "evaluator_registry_digest"; "context_policy_digest";
     "authorization_digest"; "activation_sequence"]
    (col_is "activation_sequence" (SInteger sequence)) (fun r => Ok r) in
  let? row := ok_or found (broken "active configuration points at a revision that does not exist" []) in
  let? components := read_components row in
  let? content := read_digest row "content_digest" in
  let? compiler := map_err Sqlite (get_text "compiler_version" row) in
  if negb (bool_decide (digests_revision_digest components compiler = content))
  then Err (broken "revision names another content digest" [to_display content; compiler])
  else
    do? for_each (fun p => verify_component db p.1 p.2) (component_domains components) in
    let? source := read_digest row "source_set_digest" in
    Ok {| active_activation_sequence := sequence; active_content_digest := content;
          active_components := components; active_source_set_digest := source;
          active_pointer_revision := pointer |}.

Definition configuration_pointer (db : Database) : Result ConfigurationPointer StoreError :=
  let? found := read_row schema db "active_configuration" ["revision"; "activation_sequence"; "id"]
    (col_is "id" (SText POINTER_ID))
    (fun r => let? n := get_integer "revision" r in
              let? s := get_optional_integer "activation_sequence" r in Ok (n, s)) in
  let? (revision, sequence) := ok_or found (Sqlite QueryReturnedNoRows) in
  match sequence with
  | None => Ok {| pointer_active := None; pointer_revision := revision |}
  | Some sequence =>
      let? active := read_revision_row db sequence revision in
      Ok {| pointer_active := Some active; pointer_revision := revision |}
  end.
End Configuration.

(** ** Lemmas *)

Section ConfigurationFacts.
Context `{Sha256}.

(** The domain a component's content belongs to, by the field only it has. *)
Definition domain_of_value (v : Value) : option string :=
  find_map (fun p : string * string => match get v p.1 with
                                    | Some _ => Some p.2
                                    | None => None
                                    end)
    [("agents", "agents"); ("policies", "routing"); ("profiles", "executionProfiles");
     ("refs", "evaluators"); ("mandatorySections", "context"); ("rules", "authorization")].

Definition component_values (c : CompiledConfiguration) : list (string * Value) :=
  [("agents", component_value (cfg_agents c)); ("routing", component_value (cfg_routing c));
   ("executionProfiles", component_value (cfg_execution c));
   ("evaluators", component_value (cfg_evaluators c)); ("context", component_value (cfg_context c));
   ("authorization", component_value (cfg_authorization c))].

Definition wf_compiled (c : CompiledConfiguration) : bool :=
  forallb (fun p => wf_value p.2) (component_values c).

Lemma component_values_domain c p : p ∈ component_values c → domain_of_value p.2 = Some p.1.
Proof.
  intros Hp. unfold component_values in Hp.
  repeat (apply elem_of_cons in Hp as [->|Hp]; [reflexivity|]). by apply not_elem_of_nil in Hp.
Qed.

Definition value_record (p : string * Value) : string * Digest * string :=
  (p.1, value_digest p.2, to_canonical_bytes p.2).

Lemma component_records_values c :
  wf_compiled c = true → component_records c = map value_record (component_values c).
Proof.
  unfold wf_compiled, component_values. cbn [forallb]. intros Hw. split_andb. cbn [snd] in *.
  unfold component_records. by rewrite !record_of_spec.
Qed.

Lemma component_domains_values c :
  component_domains (component_digests c) = map (fun p => (p.1, value_digest p.2)) (component_values c).
Proof. done. Qed.

(** A stored component is the canonical text of a value of its domain, under the
    value's digest. *)
Definition component_sound (r : Row) : Prop :=
  ∃ v dom, wf_value v = true ∧ column r "canonical_json" = SText (to_canonical_bytes v) ∧
    column r "digest" = digest_blob (value_digest v) ∧ column r "domain" = SText dom ∧
    domain_of_value v = Some dom.

Definition components_sound (db : Database) : Prop :=
  ∀ r, r ∈ rows db "configuration_components" → component_sound r.

Lemma value_record_sound p :
  wf_value p.2 = true → domain_of_value p.2 = Some p.1 →
  component_sound (list_to_map (component_row (value_record p))).
Proof. intros Hw Hd. exists p.2, p.1. done. Qed.

Lemma write_components_preserves R `{!PreOrder R} schema records :
  (∀ table key r, preserves R (tx_insert_or_ignore schema table key r)) →
  preserves R (write_components schema records).
Proof. intros Hi. induction records; cbn [write_components]; solve_preserves. Qed.

Lemma write_components_touches schema records :
  touches ["configuration_components"] (write_components schema records).
Proof. induction records; cbn [write_components]; unfold touches in *; solve_preserves; solve_touches. Qed.

Lemma write_components_Ok ps w u w' :
  (∀ p, p ∈ ps → wf_value p.2 = true ∧ domain_of_value p.2 = Some p.1) →
  components_sound (w_db w) → write_components MIGRATIONS (map value_record ps) w = (Ok u, w') →
  components_sound (w_db w') ∧ rows_kept "configuration_components" (w_db w) (w_db w') ∧
  ∀ p, p ∈ ps → ∃ r, r ∈ rows (w_db w') "configuration_components" ∧
    column r "digest" = digest_blob (value_digest p.2).
Proof.
  revert w; induction ps as [|p ps IH]; intros w Hps Hs Hm; cbn [map write_components] in Hm.
  { apply tx_ret_Ok in Hm as [_ ->]. set_solver. }
  tx_step Hm as Ei. pose proof (tx_insert_or_ignore_kept "configuration_components" _ _ _ _ _ _ _ Ei) as Hk0.
  assert (components_sound (w_db w0) ∧ ∃ r, r ∈ rows (w_db w0) "configuration_components" ∧
    column r "digest" = digest_blob (value_digest p.2)) as [Hs0 (r & Hr & Hc)].
  { destruct (Hps p ltac:(left)) as [Hwf Hd].
    apply tx_insert_or_ignore_Ok in Ei as (_ & [[-> (s & tuple & Hin & Hk1 & Hk2)]|[_ ->]]).
    - split; [done|]. exists s. split; [done|]. unfold key_tuple in Hk1, Hk2.
      destruct (existsb _ _); [done|]. injection Hk1 as <-. cbn in Hk2. unfold value_record in Hk2. by injection Hk2.
    - split.
      + intros r. rewrite rows_insert, elem_of_app, list_elem_of_singleton.
        intros [Hr| ->]; [by apply Hs|by apply value_record_sound].
      + exists (list_to_map (component_row (value_record p))). rewrite rows_insert. set_solver. }
  destruct (IH w0) as (Hs1 & Hk & Hall); [set_solver|done|done|].
  split_and!; [done|by etrans|]. intros q [->|Hq]%elem_of_cons; [|by apply Hall].
  destruct Hk as [added Hk]. exists r. rewrite Hk. set_solver.
Qed.

(** A stored component text and the canonical text of another component of [c] are
    a collision of the hash. *)
Definition component_clash (db : Database) (c : CompiledConfiguration) : Prop :=
  ∃ p r text, p ∈ component_values c ∧ r ∈ rows db "configuration_components" ∧
    column r "canonical_json" = SText text ∧ clash (to_canonical_bytes p.2) text.

Lemma digest_blob_inj d e : digest_blob d = digest_blob e → d = e.
Proof. destruct d, e. by intros [= ->]. Qed.

Lemma verify_component_stored db c p r :
  p ∈ component_values c → components_sound db → wf_value p.2 = true → domain_of_value p.2 = Some p.1 →
  r ∈ rows db "configuration_components" → column r "digest" = digest_blob (value_digest p.2) →
  verify_component MIGRATIONS db p.1 (value_digest p.2) = Ok tt ∨ component_clash db c.
Proof.
  intros Hp Hs Hwf Hd Hr Hc. unfold verify_component.
  rewrite (read_row_eval _ _ _ _ _ _ configuration_components_table) by done.
  destruct (List.filter _ _) as [|r' l] eqn:Ef.
  { rewrite filter_nil_b in Ef. specialize (Ef r Hr). apply not_true_iff_false in Ef. destruct Ef.
    by apply col_is_true. }
  assert (r' ∈ r' :: l) as Hin by left. rewrite <-Ef in Hin.
  apply list_elem_of_In, filter_In in Hin as [Hin%list_elem_of_In [_ Hc']%col_is_true].
  destruct (Hs r' Hin) as (v & dom & Hv & Hj & Hdig & Hdom & Hdv). rewrite Hc' in Hdig.
  apply digest_blob_inj in Hdig as Heq.
  destruct (value_digest_eq _ _ Hwf Hv Heq) as [Ev|[? ?]]; [left|by right; exists p, r', (to_canonical_bytes v)].
  rewrite Ev in *.
  unfold get_text. rewrite Hdom, Hj. cbn [try_bind map_err ok_or]. rewrite Hdv in Hd. injection Hd as ->.
  rewrite String.eqb_refl. cbn [negb]. by rewrite bool_decide_eq_true_2.
Qed.

#[local] Instance configuration_revisions_keyed : Keyed MIGRATIONS "configuration_revisions" "activation_sequence".
Proof. solve_keyed. Qed.

Lemma digest_from_digest d c : wf_digest d = true → digest_from (digest_bytes d) c = Ok d.
Proof. unfold wf_digest, digest_from. intros ->. by destruct d. Qed.

Lemma read_digest_blob r c d : column r c = digest_blob d → wf_digest d = true → read_digest r c = Ok d.
Proof. intros Hc Hd. unfold read_digest, get_blob. rewrite Hc. cbn. by apply digest_from_digest. Qed.

Lemma read_components_row amb n content source c :
  read_components (list_to_map (revision_row amb n content source (component_digests c))) =
  Ok (component_digests c).
Proof.
  unfold read_components.
  rewrite (read_digest_blob _ "agents_digest" (component_digest (cfg_agents c))),
    (read_digest_blob _ "routing_digest" (component_digest (cfg_routing c))),
    (read_digest_blob _ "execution_profile_digest" (component_digest (cfg_execution c))),
    (read_digest_blob _ "evaluator_registry_digest" (component_digest (cfg_evaluators c))),
    (read_digest_blob _ "context_policy_digest" (component_digest (cfg_context c))),
    (read_digest_blob _ "authorization_digest" (component_digest (cfg_authorization c)));
    first [reflexivity | apply digest_of_wf].
Qed.

Lemma for_each_or {A E} (f : A → Result unit E) (P : Prop) l :
  (∀ x, x ∈ l → f x = Ok tt ∨ P) → for_each f l = Ok tt ∨ P.
Proof.
  induction l as [|x l IH]; intros Hl; [by left|]. cbn. destruct (Hl x ltac:(left)) as [->|]; [|by right].
  cbn. apply IH. set_solver.
Qed.

Lemma max_step_ge c l acc : (acc ≤ fold_left (max_step c) l acc)%Z.
Proof.
  revert acc; induction l as [|x l IH]; intros acc; cbn; [lia|]. etrans; [|apply IH].
  unfold max_step. destruct (column x c); lia.
Qed.

Lemma max_integer_le c l r n : r ∈ l → column r c = SInteger n → (n ≤ max_integer c l)%Z.
Proof.
  unfold max_integer. intros Hr Hc. generalize 0%Z. induction l as [|x l IH]; intros acc.
  - by apply not_elem_of_nil in Hr.
  - apply elem_of_cons in Hr as [<-|Hr]; cbn; [|by apply IH].
    etrans; [|apply max_step_ge]. unfold max_step. rewrite Hc. lia.
Qed.

(** What an activation leaves for the reader. *)
Lemma write_activation_Ok amb c source expected w act w' :
  valid MIGRATIONS (w_db w) → components_sound (w_db w) → wf_compiled c = true →
  write_activation MIGRATIONS amb c source expected w = (Ok act, w') →
  act = {| active_activation_sequence := active_activation_sequence act;
           active_content_digest := revision_digest c; active_components := component_digests c;
           active_source_set_digest := source; active_pointer_revision := (expected + 1)%Z |} ∧
  valid MIGRATIONS (w_db w') ∧ components_sound (w_db w') ∧
  (∀ p, p ∈ component_values c → ∃ r, r ∈ rows (w_db w') "configuration_components" ∧
     column r "digest" = digest_blob (value_digest p.2)) ∧
  List.filter (col_is "activation_sequence" (SInteger (active_activation_sequence act)))
    (rows (w_db w') "configuration_revisions") =
    [list_to_map (revision_row amb (active_activation_sequence act) (revision_digest c) source
       (component_digests c))] ∧
  (∃ p, row_of (w_db w') "active_configuration" "id" POINTER_ID = Some p ∧
     column p "revision" = SInteger (expected + 1) ∧
     column p "activation_sequence" = SInteger (active_activation_sequence act)) ∧
  ∀ r n, r ∈ rows (w_db w) "configuration_revisions" → column r "activation_sequence" = SInteger n →
    (n < active_activation_sequence act)%Z.
Proof.
  intros Hv Hs Hwf Hm. unfold write_activation in Hm. rewrite component_records_values in Hm by done.
  tx_step Hm as Ec. assert (valid MIGRATIONS (w_db w0)) as Hv0.
  { clear -Ec Hv. apply (preserves_run (validity _) _ _ _ _ Ec); [|done]. clear.
    apply write_components_preserves; intros; eauto with preserves typeclass_instances. }
  pose proof (write_components_touches _ _ _ _ _ Ec) as F0.
  apply write_components_Ok in Ec as (Hs0 & Hk0 & Hall0); [| |done].
  2:{ intros p Hp. split; [|by apply component_values_domain in Hp].
      unfold wf_compiled in Hwf. by apply (proj1 (forallb_True _ _) Hwf p Hp). }
  tx_step Hm as En. unfold next_activation_sequence in En. apply tx_query_Ok in En as [En ->].
  tx_step Hm. tx_step Hm as Er. tx_step Hm as Ep. apply tx_ret_Ok in Hm as [-> ->]. cbn.
  tx_valid Er Hv0 as Hv1. tx_frame Er ["configuration_revisions"] as F1. tx_valid Ep Hv1 as Hv2.
  tx_frame Ep ["active_configuration"] as F2.
  pose proof Ep as Ep'. apply update_revisioned_row in Ep' as (-> & p & _ & _ & Hrow & Hrev & _);
    [|apply _..|done|done].
  assert (∀ r n, r ∈ rows (w_db w) "configuration_revisions" → column r "activation_sequence" = SInteger n →
    (n < a0)%Z) as Hlt.
  { intros r n Hr Hn. rewrite <-(F0 "configuration_revisions") in Hr by elem.
    pose proof (max_integer_le _ _ _ _ Hr Hn). cbn in En.
    destruct (in_i64 _); [injection En as <-; lia|done]. }
  split_and!; [done|done| | | | |done].
  - intros r Hr. apply Hs0. by rewrite (F2 "configuration_components"), (F1 "configuration_components") in Hr by elem.
  - intros q Hq. destruct (Hall0 q Hq) as (r & Hr & Hc). exists r. split; [|done].
    by rewrite (F2 "configuration_components"), (F1 "configuration_components") by elem.
  - rewrite (F2 "configuration_revisions") by elem. apply tx_insert_Ok in Er as (_ & _ & _ & ->).
    rewrite rows_insert, filter_app_b, (F0 "configuration_revisions") by elem.
    rewrite (proj2 (filter_nil_b _ (rows (w_db w) "configuration_revisions"))); [by apply filter_one, col_is_true|].
    intros r Hr. apply not_true_iff_false. intros [_ Hc]%col_is_true. specialize (Hlt r _ Hr Hc). lia.
  - eexists. split; [done|]. split; [done|]. by rewrite column_set_clause.
Qed.

(** What an activation that committed leaves. *)
Lemma activation_committed d amb c compiled source expected conn act cur conn'
    (Hvalid : valid MIGRATIONS (conn_db conn)) (Hsound : components_sound (conn_db conn))
    (Hwf : wf_compiled compiled = true) (Hsource : wf_digest source = true)
    (Hx : execute_command MIGRATIONS d amb c (write_activation MIGRATIONS amb compiled source expected) conn =
       (Ok (Executed act cur), conn')) :
  (configuration_pointer MIGRATIONS (conn_db conn') =
     Ok {| pointer_active := Some act; pointer_revision := (expected + 1)%Z |} ∨
   component_clash (conn_db conn') compiled) ∧
  active_content_digest act = revision_digest compiled ∧ active_components act = component_digests compiled ∧
  components_sound (conn_db conn') ∧
  (∀ r n, r ∈ rows (conn_db conn) "configuration_revisions" → column r "activation_sequence" = SInteger n →
     (n < active_activation_sequence act)%Z).
Proof.
  destruct (executed_body _ _ _ _ _ _ _ _ _ Hx) as (w & Hw & Hk).
  apply write_activation_Ok in Hw as (Hact & Hv & Hs & Hall & Hrev & (p & Hp & Hp1 & Hp2) & Hlt); [|done..].
  split_and!; [|by rewrite Hact|by rewrite Hact| |done].
  2:{ intros r Hr. apply Hs. by rewrite <-(Hk "configuration_components") by elem. }
  assert (for_each (fun q => verify_component MIGRATIONS (conn_db conn') q.1 q.2)
    (component_domains (component_digests compiled)) = Ok tt ∨ component_clash (conn_db conn') compiled) as [Hver|]; [|left|by right].
  { apply for_each_or. rewrite component_domains_values. intros q Hq.
    apply list_elem_of_In, in_map_iff in Hq as (x & <- & Hx'%list_elem_of_In). cbn.
    destruct (Hall x Hx') as (r & Hr & Hc). apply (verify_component_stored _ _ _ r); [done| | | | |done].
    - intros r' Hr'. apply Hs. by rewrite <-(Hk "configuration_components") by elem.
    - unfold wf_compiled in Hwf. by apply (proj1 (forallb_True _ _) Hwf).
    - by apply component_values_domain in Hx'.
    - by rewrite (Hk "configuration_components") by elem. }
  unfold configuration_pointer. rewrite <-(row_of_same _ _ _ _ _ _ Hk) in Hp by elem.
  erewrite (read_row_of _ "active_configuration"); [|reflexivity|reflexivity|exact Hp|].
  2:{ unfold get_integer, get_optional_integer. by rewrite Hp1, Hp2. }
  cbn [ok_or try_bind]. unfold read_revision_row.
  rewrite (read_row_eval _ _ _ _ _ _ configuration_revisions_table) by done.
  rewrite <-(Hk "configuration_revisions") in Hrev by elem. rewrite Hrev. cbn [try_bind map_err ok_or].
  rewrite read_components_row. cbn [try_bind].
  rewrite (read_digest_blob _ _ (revision_digest compiled)); [|done|apply digest_of_wf]. cbn [try_bind].
  replace (get_text "compiler_version" _) with (@Ok _ SqliteError COMPILER_VERSION) by done.
  cbn [map_err try_bind]. rewrite bool_decide_eq_true_2 by done. cbn [negb]. rewrite Hver. cbn [try_bind].
  rewrite (read_digest_blob _ _ source) by done. cbn [try_bind]. by rewrite <-Hact.
Qed.

(** an activated configuration is what the next reader of the pointer gets:
    after the activation of a configuration committed, reading the active
    configuration verifies every stored component and returns exactly the
    activated revision, its component digests, its provenance and its sequence,
    which is above every sequence stored before (unless the text of a
    component of the configuration and another stored component text collide). The reader refuses a component whose text does not hash to the
    digest the revision names. *)
Theorem activation_reads_back d amb c compiled source expected conn act cur conn'
    (Hvalid : valid MIGRATIONS (conn_db conn)) (Hsound : components_sound (conn_db conn))
    (Hwf : wf_compiled compiled = true) (Hsource : wf_digest source = true)
    (Hx : execute_command MIGRATIONS d amb c (write_activation MIGRATIONS amb compiled source expected) conn =
       (Ok (Executed act cur), conn')) :
  (configuration_pointer MIGRATIONS (conn_db conn') =
     Ok {| pointer_active := Some act; pointer_revision := (expected + 1)%Z |} ∨
   component_clash (conn_db conn') compiled) ∧
  active_content_digest act = revision_digest compiled ∧ active_components act = component_digests compiled ∧
  components_sound (conn_db conn') ∧
  (∀ r n, r ∈ rows (conn_db conn) "configuration_revisions" → column r "activation_sequence" = SInteger n →
     (n < active_activation_sequence act)%Z).
Proof. by apply (activation_committed d amb c compiled source expected conn act cur conn'). Qed.
End ConfigurationFacts.
