(* ===== verification/StoreWorkspace.v ===== *)
(** * Task-owned Workspaces and seal authority
      ([pantheon-store/src/workspace.rs], [seal.rs])

    The Workspace rows and the phase transitions of their materialization and
    freeze, and the revalidation of the execution authority a seal runs under. *)

From Stdlib Require Import ZArith Ascii Lia.
From S2P Require Import Prelude Utf8 Canonical Digest Goal Task Artifact Workspace Sql Schema Transaction Command StoreBase StorePlanning.

Definition WORKSPACE_TABLE : string := "workspaces".

Record WorkspaceRecord : Type := {
  ws_id : string;
  ws_task_id : string;
  ws_repository : string;
  ws_source_path : string;
  ws_requested_base : RequestedBase;
  ws_resolved_base : ResolvedBase;
  ws_phase : WorkspacePhase;
  ws_materialization : Materialization;
  ws_revision : Z
}.

Record WorkspaceBinding : Type := {
  wb_task_id : string;
  wb_repository : string;
  wb_source_path : string;
  wb_requested_base : RequestedBase;
  wb_resolved_base : ResolvedBase
}.

Record SealAuthority : Type := { seal_run_id : string; seal_expected_run_revision : Z }.

Section Workspaces.
Variable schema : Schema.

(** ** Seal authority *)

Definition seal_invalid (workspace_id what : string) (values : list string) : StoreError :=
  SealAuthorityInvalid workspace_id (message what values).

Definition decode_seal_task (r : Row) : Result (string * Z * option string * string) SqliteError :=
  let? phase := get_text "phase" r in
  let? revision := get_integer "revision" r in
  let? active := get_optional_text "active_run_id" r in
  let? digest := get_blob "spec_digest" r in
  Ok (phase, revision, active, digest).

Definition query_blob_key {A} (table kc bytes : string) (cols : list string)
    (decode : Row → Result A SqliteError) : Tx (option A) :=
  query_optional schema table (kc :: cols) (col_is kc (SBlob bytes)) decode.

Definition validate_seal_authority (authority : SealAuthority)
    (task_id output_slot workspace_id : string) : Tx unit :=
  let run_id := seal_run_id authority in
  let invalid := seal_invalid workspace_id in
  let! task := query_by schema "tasks" "id" task_id ["phase"; "revision"; "active_run_id"; "spec_digest"]
    decode_seal_task in
  let! (phase_text, _, active_run_id, spec_digest) := some_or_fail task (invalid "task no longer exists" [task_id]) in
  do! guard (String.eqb phase_text (task_phase_as_str Active))
    (invalid "task is not Active under a responsible Run" [task_id; phase_text]) in
  do! guard (bool_decide (active_run_id = Some run_id))
    (invalid "run is not the task's current responsible run" [run_id; task_id]) in
  let! run := query_by schema "runs" "id" run_id ["task_id"; "context_source_snapshot_digest"]
    (fun r => let? t := get_text "task_id" r in
              let? d := get_blob "context_source_snapshot_digest" r in Ok (t, d)) in
  let! (run_task_id, snapshot_digest) := some_or_fail run (invalid "run does not exist" [run_id]) in
  do! guard (String.eqb run_task_id task_id)
    (invalid "run belongs to another task" [run_id; run_task_id; task_id]) in
  let! status := query_by schema "run_status" "run_id" run_id ["phase"; "revision"]
    (fun r => let? p := get_text "phase" r in let? n := get_integer "revision" r in Ok (p, n)) in
  let! (run_phase, run_revision) := some_or_fail status (broken "run has no status row" [run_id]) in
  do! guard (contains live_run_phases run_phase) (invalid "run is terminal" [run_id; run_phase]) in
  do! guard (run_revision =? seal_expected_run_revision authority)%Z (invalid "run moved" [run_id]) in
  let! snapshot := query_blob_key "context_source_snapshots" "digest" snapshot_digest
    ["task_spec_digest"; "workspace_id"; "workspace_resolved_base"]
    (fun r => let? d := get_blob "task_spec_digest" r in
              let? w := get_text "workspace_id" r in
              let? b := get_text "workspace_resolved_base" r in Ok (d, w, b)) in
  let! (frozen_spec_digest, frozen_workspace_id, frozen_base) :=
    some_or_fail snapshot (broken "run names a source snapshot which is not stored" [run_id]) in
  do! guard (String.eqb frozen_spec_digest spec_digest)
    (invalid "run froze another task-spec digest" [run_id; task_id]) in
  do! guard (String.eqb frozen_workspace_id workspace_id)
    (invalid "run is bound to another workspace" [run_id; frozen_workspace_id; workspace_id]) in
  let! base := query_by schema "workspaces" "id" workspace_id ["resolved_base"] (get_text "resolved_base") in
  let! workspace_base := some_or_fail base
    (broken "workspace disappeared inside its own transaction" [workspace_id]) in
  do! guard (String.eqb workspace_base frozen_base)
    (invalid "run is bound to another base" [run_id; frozen_base; workspace_id; workspace_base]) in
  let! json := query_blob_key "task_specs" "digest" spec_digest ["canonical_json"]
    (get_text "canonical_json") in
  let! spec_json := some_or_fail json (broken "the task's stored specification is not present" []) in
  let! spec := tx_try (map_err (fun _ => broken "the task's stored specification cannot be decoded" [])
                         (task_from_canonical_json spec_json)) in
  let! slot := some_or_fail (find_first (fun o => String.eqb (output_name o) output_slot) (task_outputs spec))
    (invalid "no such output slot" [output_slot]) in
  guard (String.eqb (output_kind slot) CODE_CHANGESET_KIND)
    (invalid "output slot permits another kind" [output_slot; output_kind slot]).

(** ** Rows *)

Definition parse_requested (value workspace_id : string) : Result RequestedBase StoreError :=
  map_err (fun _ => broken "workspace has an unusable requested base" [workspace_id])
    (requested_base_parse value).

Definition parse_resolved (value workspace_id : string) : Result ResolvedBase StoreError :=
  map_err (fun _ => broken "workspace has an unusable resolved base" [workspace_id])
    (resolved_base_parse value).

Definition workspace_columns : list string :=
  ["task_id"; "repository"; "source_path"; "requested_base"; "resolved_base"; "phase";
   "materialization"; "revision"].

Definition decode_workspace (r : Row) :
    Result (string * string * string * string * string * string * string * Z) SqliteError :=
  let? task_id := get_text "task_id" r in
  let? repository := get_text "repository" r in
  let? source_path := get_text "source_path" r in
  let? requested_base := get_text "requested_base" r in
  let? resolved_base := get_text "resolved_base" r in
  let? phase := get_text "phase" r in
  let? materialization := get_text "materialization" r in
  let? revision := get_integer "revision" r in
  Ok (task_id, repository, source_path, requested_base, resolved_base, phase, materialization, revision).

Definition workspace_of (id : string)
    (row : string * string * string * string * string * string * string * Z) :
    Result WorkspaceRecord StoreError :=
  let '(task_id, repository, source_path, requested_base, resolved_base, phase, materialization,
        revision) := row in
  let? requested := parse_requested requested_base id in
  let? resolved := parse_resolved resolved_base id in
  let? phase := ok_or (workspace_phase_parse phase) (broken "workspace has unknown phase" [id; phase]) in
  let? materialization := ok_or (materialization_parse materialization)
    (broken "workspace has unknown materialization" [id; materialization]) in
  Ok {| ws_id := id; ws_task_id := task_id; ws_repository := repository; ws_source_path := source_path;
        ws_requested_base := requested; ws_resolved_base := resolved; ws_phase := phase;
        ws_materialization := materialization; ws_revision := revision |}.

Definition read_in_transaction (workspace_id : string) : Tx WorkspaceRecord :=
  let! found := query_by schema "workspaces" "id" workspace_id workspace_columns decode_workspace in
  let! row := tx_some found (broken "workspace disappeared inside its own transaction" [workspace_id]) in
  tx_try (workspace_of workspace_id row).

Definition transition (workspace_id : string) (expected : Z) (phase : WorkspacePhase)
    (materialization : Materialization) : Tx WorkspaceRecord :=
  let! revision := update_revisioned schema WORKSPACE_TABLE workspace_id expected
    [("phase", SText (workspace_phase_as_str phase));
     ("materialization", SText (materialization_as_str materialization))] in
  let! record := read_in_transaction workspace_id in
  tx_ret {| ws_id := ws_id record; ws_task_id := ws_task_id record; ws_repository := ws_repository record;
            ws_source_path := ws_source_path record; ws_requested_base := ws_requested_base record;
            ws_resolved_base := ws_resolved_base record; ws_phase := ws_phase record;
            ws_materialization := ws_materialization record; ws_revision := revision |}.

Definition task_phase (task_id : string) : Tx TaskPhase :=
  let! phase := query_by schema "tasks" "id" task_id ["phase"] (get_text "phase") in
  let! phase := some_or_fail phase (WorkspaceHolderIneligible task_id "Absent") in
  tx_some (task_phase_parse phase) (broken "task has unknown phase" [task_id; phase]).

(** [phase != 'Released'], on a column that is never NULL. *)
Definition unreleased (r : Row) : bool := negb (col_is "phase" (SText "Released") r).

Definition current_workspace_id (task_id : string) : Tx (option string) :=
  query_optional schema "workspaces" ["id"; "task_id"; "phase"]
    (fun r => col_is "task_id" (SText task_id) r && unreleased r) (get_text "id").

Definition workspace_phase_and_base (workspace_id : string) (expected : Z) :
    Tx (WorkspacePhase * ResolvedBase) :=
  let! row := query_by schema "workspaces" "id" workspace_id ["phase"; "resolved_base"; "revision"]
    (fun r => let? p := get_text "phase" r in
              let? b := get_text "resolved_base" r in
              let? n := get_integer "revision" r in Ok (p, b, n)) in
  let! (phase, base, revision) := some_or_fail row (RevisionConflict WORKSPACE_TABLE workspace_id expected None) in
  do! guard (revision =? expected)%Z (RevisionConflict WORKSPACE_TABLE workspace_id expected (Some revision)) in
  let! phase := tx_some (workspace_phase_parse phase) (broken "workspace has unknown phase" [workspace_id; phase]) in
  let! base := tx_try (parse_resolved base workspace_id) in
  tx_ret (phase, base).

Definition workspace_phase (workspace_id : string) (expected : Z) : Tx WorkspacePhase :=
  let! pb := workspace_phase_and_base workspace_id expected in tx_ret pb.1.

(** ** Operations *)

Definition workspace_row (amb : Ambient) (workspace_id : string) (b : WorkspaceBinding) :
    list (string * SqlValue) :=
  [("id", SText workspace_id); ("task_id", SText (wb_task_id b)); ("repository", SText (wb_repository b));
   ("source_path", SText (wb_source_path b)); ("requested_base", SText (requested_text (wb_requested_base b)));
   ("resolved_base", SText (resolved_text (wb_resolved_base b)));
   ("phase", SText (workspace_phase_as_str WsRequested));
   ("materialization", SText (materialization_as_str MatAbsent)); ("revision", SInteger 1);
   ("created_at", SInteger (amb_now amb))].

Definition open_workspace (amb : Ambient) (workspace_id : string) (b : WorkspaceBinding) :
    Tx WorkspaceRecord :=
  let! phase := task_phase (wb_task_id b) in
  do! guard (bool_decide (phase = Ready)) (WorkspaceHolderIneligible (wb_task_id b) (task_phase_as_str phase)) in
  let! existing := current_workspace_id (wb_task_id b) in
  do! match existing with
      | Some id => tx_fail (WorkspaceAlreadyCurrent (wb_task_id b) id)
      | None => tx_ret tt
      end in
  let! now := now amb in
  do! tx_insert schema "workspaces" (workspace_row amb workspace_id b) in
  tx_ret {| ws_id := workspace_id; ws_task_id := wb_task_id b; ws_repository := wb_repository b;
            ws_source_path := wb_source_path b; ws_requested_base := wb_requested_base b;
            ws_resolved_base := wb_resolved_base b; ws_phase := WsRequested;
            ws_materialization := MatAbsent; ws_revision := 1 |}.

Definition begin_workspace_materialization (workspace_id : string) (expected : Z) : Tx WorkspaceRecord :=
  let! phase := workspace_phase workspace_id expected in
  do! guard (negb (has_been_mutable phase))
    (WorkspaceNotRematerializable workspace_id (workspace_phase_as_str phase)) in
  transition workspace_id expected WsMaterializing MatUnknown.

Definition complete_workspace_materialization (workspace_id : string) (expected : Z)
    (verified_base : ResolvedBase) : Tx WorkspaceRecord :=
  let! (phase, bound_base) := workspace_phase_and_base workspace_id expected in
  do! guard (bool_decide (phase = WsMaterializing)) (broken "workspace cannot become Ready" [workspace_id]) in
  do! guard (String.eqb (resolved_text bound_base) (resolved_text verified_base))
    (WorkspaceBaseMismatch workspace_id (resolved_text bound_base) (resolved_text verified_base)) in
  transition workspace_id expected WsReady MatPresent.

Definition fail_workspace_materialization (workspace_id : string) (expected : Z)
    (observed : Materialization) : Tx WorkspaceRecord :=
  do! guard (negb (bool_decide (observed = MatPresent)))
    (broken "workspace cannot record Present materialization on a failure path" [workspace_id]) in
  let! phase := workspace_phase workspace_id expected in
  do! guard (negb (has_been_mutable phase))
    (WorkspaceNotRematerializable workspace_id (workspace_phase_as_str phase)) in
  transition workspace_id expected WsError observed.

Definition freeze_workspace (authority : SealAuthority) (task_id output_slot workspace_id : string)
    (expected : Z) : Tx WorkspaceRecord :=
  let! row := query_by schema "workspaces" "id" workspace_id ["task_id"; "phase"; "materialization"]
    (fun r => let? t := get_text "task_id" r in
              let? p := get_text "phase" r in
              let? m := get_text "materialization" r in Ok (t, p, m)) in
  let! (owner, phase_text, materialization_text) :=
    some_or_fail row (RevisionConflict WORKSPACE_TABLE workspace_id expected None) in
  do! guard (String.eqb owner task_id)
    (seal_invalid workspace_id "the workspace is owned by another task" [owner; task_id]) in
  let! phase := tx_some (workspace_phase_parse phase_text)
    (broken "workspace has unknown phase" [workspace_id; phase_text]) in
  let! materialization := tx_some (materialization_parse materialization_text)
    (broken "workspace has unknown materialization" [workspace_id; materialization_text]) in
  do! guard (bool_decide (phase = WsReady) && bool_decide (materialization = MatPresent))
    (WorkspaceNotFreezable workspace_id (workspace_phase_as_str phase)
       (materialization_as_str materialization)) in
  do! validate_seal_authority authority task_id output_slot workspace_id in
  transition workspace_id expected WsFrozen MatPresent.

Definition validate_seal_authority_command (authority : SealAuthority)
    (task_id output_slot workspace_id : string) (expected : Z) : Tx WorkspaceRecord :=
  let! record := read_in_transaction workspace_id in
  do! guard (ws_revision record =? expected)%Z
    (RevisionConflict WORKSPACE_TABLE workspace_id expected (Some (ws_revision record))) in
  do! guard (String.eqb (ws_task_id record) task_id)
    (seal_invalid workspace_id "the workspace is owned by another task" [ws_task_id record; task_id]) in
  do! guard (bool_decide (ws_phase record = WsFrozen) && bool_decide (ws_materialization record = MatPresent))
    (WorkspaceNotFreezable workspace_id (workspace_phase_as_str (ws_phase record))
       (materialization_as_str (ws_materialization record))) in
  do! validate_seal_authority authority task_id output_slot workspace_id in
  tx_ret record.

Definition record_capture_failure (workspace_id : string) (expected : Z) : Tx WorkspaceRecord :=
  let! row := read_in_transaction workspace_id in
  do! guard (ws_revision row =? expected)%Z
    (RevisionConflict WORKSPACE_TABLE workspace_id expected (Some (ws_revision row))) in
  do! guard (bool_decide (ws_phase row = WsFrozen))
    (broken "capture failure may only be recorded against a frozen workspace" [workspace_id]) in
  tx_ret row.

(** ** Reads *)

Definition workspace_for_task (db : Database) (task_id : string) :
    Result (option WorkspaceRecord) StoreError :=
  and_then (read_row schema db "workspaces" ("id" :: workspace_columns)
              (fun r => col_is "task_id" (SText task_id) r && unreleased r)
              (fun r => let? id := get_text "id" r in
                        let? row := decode_workspace r in Ok (id, row)))
    (fun '(id, row) => workspace_of id row).

Definition workspace_record (db : Database) (workspace_id : string) :
    Result (option WorkspaceRecord) StoreError :=
  and_then (read_row schema db "workspaces" ("id" :: workspace_columns) (col_is "id" (SText workspace_id))
              decode_workspace)
    (fun row => workspace_of workspace_id row).
End Workspaces.
