(* ===== verification/StoreArtifacts.v ===== *)
(** * Publication of a sealed changeset ([pantheon-store/src/artifacts.rs])

    The one transaction that re-establishes a seal's authority, inserts or
    reuses the immutable content rows, and binds them to the producing Run. *)

From Stdlib Require Import ZArith Ascii Lia.
From S2P Require Import Prelude Utf8 Canonical Digest Task Artifact Workspace Sql Schema Transaction Command StoreBase StorePlanning StoreWorkspace.

Record SealedChangeset : Type := {
  sc_workspace_id : string;
  sc_task_id : string;
  sc_fence_revision : Z;
  sc_authority : SealAuthority;
  sc_output_slot : string;
  sc_repository : string;
  sc_resolved_base : string;
  sc_revision_state_digest : Digest;
  sc_revision_state_json : string;
  sc_artifact_digest : Digest;
  sc_artifact_json : string;
  sc_members : list (Digest * Z);
  sc_producer : option string
}.

Record SealOutcome : Type := { so_workspace_revision_id : string; so_artifact_reused : bool }.

Record ArtifactRecord : Type := {
  artifact_record_digest : Digest;
  artifact_record_kind : string;
  artifact_record_canonical_json : string
}.

Section Artifacts.
Variable schema : Schema.

(** The size is a [u64]. *)
Definition ensure_blob (amb : Ambient) (digest : Digest) (size : Z) : Tx unit :=
  let! stored_size := tx_some (if in_i64 size then Some size else None)
    (broken "blob size exceeds what SQLite can store" []) in
  let! existing := query_blob_key schema "blobs" "digest" (digest_bytes digest) ["size"] (get_integer "size") in
  match existing with
  | Some stored =>
      guard (stored =? stored_size)%Z
        (ContentIdentityConflict "blobs" (to_display digest)
           (message "stored size disagrees with published" []))
  | None =>
      do! tx_insert schema "blobs" [("digest", digest_blob digest); ("size", SInteger stored_size);
                                    ("created_at", SInteger (amb_now amb))] in
      tx_ret tt
  end.

Fixpoint ensure_blobs (amb : Ambient) (members : list (Digest * Z)) : Tx unit :=
  match members with
  | [] => tx_ret tt
  | (digest, size) :: rest => do! ensure_blob amb digest size in ensure_blobs amb rest
  end.

Fixpoint insert_members (artifact : Digest) (members : list (Digest * Z)) : Tx unit :=
  match members with
  | [] => tx_ret tt
  | (digest, _) :: rest =>
      do! tx_insert_or_ignore schema "artifact_members" ["artifact_digest"; "blob_digest"]
            [("artifact_digest", digest_blob artifact); ("blob_digest", digest_blob digest)] in
      insert_members artifact rest
  end.

Definition validate_frozen (seal : SealedChangeset) : Tx unit :=
  let workspace_id := sc_workspace_id seal in
  let! found := query_by schema "workspaces" "id" workspace_id ["task_id"; "phase"; "revision"]
    (fun r => let? t := get_text "task_id" r in
              let? p := get_text "phase" r in
              let? n := get_integer "revision" r in Ok (t, p, n)) in
  let! (owner, phase_text, revision) :=
    tx_some found (RevisionConflict "workspaces" workspace_id (sc_fence_revision seal) None) in
  do! guard (String.eqb owner (sc_task_id seal))
    (seal_invalid workspace_id "the workspace is owned by another task" [owner; sc_task_id seal]) in
  do! guard (String.eqb phase_text (workspace_phase_as_str WsFrozen))
    (seal_invalid workspace_id "the freeze did not hold" [phase_text]) in
  guard (revision =? sc_fence_revision seal)%Z (seal_invalid workspace_id "the freeze moved" []).

(** [fresh] is what [lower(hex(randomblob(16)))] answers. *)
Definition ensure_workspace_revision (amb : Ambient) (fresh : string) (seal : SealedChangeset) : Tx string :=
  let! row := query_optional schema "workspace_revisions" ["id"; "workspace_id"; "state_digest"]
    (fun r => col_is "workspace_id" (SText (sc_workspace_id seal)) r
              && col_is "state_digest" (digest_blob (sc_revision_state_digest seal)) r)
    (get_text "id") in
  match row with
  | Some id => tx_ret id
  | None =>
      do! tx_insert schema "workspace_revisions"
            [("id", SText fresh); ("workspace_id", SText (sc_workspace_id seal));
             ("repository", SText (sc_repository seal)); ("resolved_base", SText (sc_resolved_base seal));
             ("state_digest", digest_blob (sc_revision_state_digest seal));
             ("canonical_json", SText (sc_revision_state_json seal));
             ("created_at", SInteger (amb_now amb))] in
      tx_ret fresh
  end.

Definition ensure_artifact (amb : Ambient) (seal : SealedChangeset) : Tx bool :=
  let! existing := query_blob_key schema "artifacts" "digest" (digest_bytes (sc_artifact_digest seal))
    ["artifact_kind"; "canonical_json"]
    (fun r => let? k := get_text "artifact_kind" r in
              let? j := get_text "canonical_json" r in Ok (k, j)) in
  match existing with
  | Some (kind, json) =>
      do! guard (String.eqb kind CODE_CHANGESET_KIND && String.eqb json (sc_artifact_json seal))
        (ContentIdentityConflict "artifacts" (to_display (sc_artifact_digest seal))
           (message "an artifact with this digest holds a different manifest" [])) in
      tx_ret true
  | None =>
      do! tx_insert schema "artifacts"
            [("digest", digest_blob (sc_artifact_digest seal)); ("artifact_kind", SText CODE_CHANGESET_KIND);
             ("canonical_json", SText (sc_artifact_json seal)); ("created_at", SInteger (amb_now amb))] in
      tx_ret false
  end.

Definition record_production (amb : Ambient) (seal : SealedChangeset) (attempt_id revision_id : string) :
    Tx unit :=
  let run_id := seal_run_id (sc_authority seal) in
  let! existing := query_optional schema "production_records"
    ["task_id"; "attempt_id"; "workspace_revision_id"; "artifact_digest"; "run_id"; "output_slot"]
    (fun r => col_is "run_id" (SText run_id) r && col_is "output_slot" (SText (sc_output_slot seal)) r)
    (fun r => let? t := get_text "task_id" r in
              let? a := get_text "attempt_id" r in
              let? v := get_text "workspace_revision_id" r in
              let? d := get_blob "artifact_digest" r in Ok (t, a, v, d)) in
  let claimed := (sc_task_id seal, attempt_id, revision_id, digest_bytes (sc_artifact_digest seal)) in
  match existing with
  | Some recorded =>
      guard (bool_decide (recorded = claimed))
        (ContentIdentityConflict "production_records" run_id
           (message "the run already produced different content for this output slot" [sc_output_slot seal]))
  | None =>
      do! tx_insert schema "production_records"
            [("run_id", SText run_id); ("output_slot", SText (sc_output_slot seal));
             ("task_id", SText (sc_task_id seal)); ("attempt_id", SText attempt_id);
             ("workspace_revision_id", SText revision_id);
             ("artifact_digest", digest_blob (sc_artifact_digest seal));
             ("created_at", SInteger (amb_now amb))] in
      tx_ret tt
  end.

Definition commit_changeset_seal (amb : Ambient) (fresh : string) (seal : SealedChangeset) : Tx SealOutcome :=
  do! validate_frozen seal in
  do! validate_seal_authority schema (sc_authority seal) (sc_task_id seal) (sc_output_slot seal)
        (sc_workspace_id seal) in
  do! ensure_blobs amb (sc_members seal) in
  let! revision_id := ensure_workspace_revision amb fresh seal in
  let! reused := ensure_artifact amb seal in
  do! insert_members (sc_artifact_digest seal) (sc_members seal) in
  do! match sc_producer seal with
      | Some attempt_id => record_production amb seal attempt_id revision_id
      | None => tx_ret tt
      end in
  tx_ret {| so_workspace_revision_id := revision_id; so_artifact_reused := reused |}.

Definition artifact (db : Database) (digest : Digest) : Result (option ArtifactRecord) StoreError :=
  read_row schema db "artifacts" ["artifact_kind"; "canonical_json"; "digest"]
    (col_is "digest" (digest_blob digest))
    (fun r => let? k := get_text "artifact_kind" r in
              let? j := get_text "canonical_json" r in
              Ok {| artifact_record_digest := digest; artifact_record_kind := k;
                    artifact_record_canonical_json := j |}).
End Artifacts.
