(* ===== verification/StoreExecution.v ===== *)
(** * Attempt lineage ([pantheon-store/src/execution.rs])

    Attempt creation (T4), the pre-contact credential rekey (T4a), the
    launch-contact marker (T4b), observations, the conclusion of a Run, and the
    reads the Run controller reconciles through. *)

From Stdlib Require Import ZArith Ascii Lia.
From S2P Require Import Prelude Utf8 Canonical Digest Sandbox Sql Schema Transaction Command StoreBase StorePlanning StoreConfiguration.

Definition ATTEMPT_STATUS_TABLE : string := "attempt_status".
Definition SESSION_TABLE : string := "agent_control_sessions".

Record AttemptRecord : Type := {
  attempt_id : string;
  attempt_run_id : string;
  attempt_ordinal : Z;
  attempt_launch_key : string
}.

Record AgentControlSessionView : Type := {
  session_id : string;
  session_attempt_id : string;
  session_restore_generation : string;
  session_credential_revision : Z;
  session_state : string
}.

Record AttemptLineageView : Type := {
  lineage_attempt : AttemptRecord;
  lineage_observed_execution : Observation;
  lineage_terminal : bool;
  lineage_launch_contact_state : LaunchContactState;
  lineage_status_revision : Z;
  lineage_session : AgentControlSessionView
}.

Record RunExecutionView : Type := {
  rev_run_id : string;
  rev_task_id : string;
  rev_binding_digest : Digest;
  rev_source_snapshot_digest : Digest;
  rev_phase : string;
  rev_revision : Z;
  rev_current_attempt_id : option string;
  rev_context_plan_digest : option Digest;
  rev_attempt : option AttemptLineageView
}.

Record RunInventoryEntry : Type := {
  inventory_run_id : string;
  inventory_task_id : string;
  inventory_phase : string;
  inventory_revision : Z;
  inventory_current_attempt_id : option string
}.

Record AttemptCreated : Type := {
  created_attempt_id : string;
  created_run_id : string;
  created_ordinal : Z;
  created_launch_key : string;
  created_session_id : string;
  created_restore_generation : string
}.

Record AttemptCreation : Type := {
  ac_run_id : string;
  ac_attempt_id : string;
  ac_launch_key : string;
  ac_session_id : string;
  ac_credential_verifier : string;
  ac_expected_run_status_revision : Z
}.

Inductive ObservationUpdate : Type :=
| Observe (o : Observation)
| Terminal (o : Observation).

(** [split_once] at a byte. *)
Fixpoint split_once (sep : ascii) (s : string) : option (string * string) :=
  match s with
  | EmptyString => None
  | String b rest =>
      if Ascii.eqb b sep then Some (EmptyString, rest)
      else match split_once sep rest with
           | Some (left_, right_) => Some (String b left_, right_)
           | None => None
           end
  end.

Section Execution.
Variable schema : Schema.

(** ** T4: Attempt creation *)

Definition restore_generation : Tx (option string) :=
  query_optional schema "system_state" ["restore_generation"; "id"] (col_is "id" (SInteger 1))
    (get_text "restore_generation").

(** The status revision of a Run that exists and is [Active]. *)
Definition active_run_revision (run_id : string) : Tx (option Z) :=
  tx_query (fun db =>
    match flat_map (fun _ => List.filter (col_is "phase" (SText "Active")) (joined db "run_status" "run_id" (SText run_id)))
            (joined db "runs" "id" (SText run_id)) with
    | [] => Ok None
    | r :: _ => let? n := get_integer "revision" r in Ok (Some n)
    end).

Definition next_ordinal (run_id : string) : Tx Z :=
  tx_query (fun db =>
    match sql_increment (SInteger (max_integer "ordinal" (joined db "attempts" "run_id" (SText run_id)))) with
    | SInteger n => Ok n
    | _ => Err (InvalidColumnType "ordinal")
    end).

Definition attempt_row (amb : Ambient) (c : AttemptCreation) (ordinal : Z) : list (string * SqlValue) :=
  [("id", SText (ac_attempt_id c)); ("run_id", SText (ac_run_id c)); ("ordinal", SInteger ordinal);
   ("launch_key", SText (ac_launch_key c)); ("created_at", SInteger (amb_now amb))].

Definition attempt_status_row (amb : Ambient) (c : AttemptCreation) : list (string * SqlValue) :=
  [("attempt_id", SText (ac_attempt_id c)); ("run_id", SText (ac_run_id c));
   ("observed_execution", SText "ABSENT"); ("terminal", SInteger 0); ("revision", SInteger 1);
   ("launch_contact_state", SText "NOT_CONTACTED"); ("launch_contact_initiated_at", SNull);
   ("launch_contact_epoch", SNull); ("started_at", SNull); ("finished_at", SNull);
   ("updated_at", SInteger (amb_now amb))].

Definition session_row (amb : Ambient) (c : AttemptCreation) (generation : string) : list (string * SqlValue) :=
  [("id", SText (ac_session_id c)); ("attempt_id", SText (ac_attempt_id c));
   ("restore_generation", SText generation); ("credential_revision", SInteger 1);
   ("credential_hash", SBlob (ac_credential_verifier c)); ("credential_rekeyed_at", SNull);
   ("state", SText "ACTIVE"); ("created_at", SInteger (amb_now amb)); ("revoked_at", SNull);
   ("revocation_reason", SNull)].

Definition apply_attempt_creation (amb : Ambient) (c : AttemptCreation) : Tx AttemptCreated :=
  let run_id := ac_run_id c in
  let not_ready what values := AttemptNotLaunchReady run_id (message what values) in
  let! run := active_run_revision run_id in
  let! current_status_revision := some_or_fail run (not_ready "the Run does not exist or is not Active" []) in
  do! guard (current_status_revision =? ac_expected_run_status_revision c)%Z
    (RevisionConflict "run_status" run_id (ac_expected_run_status_revision c) (Some current_status_revision)) in
  let! attached := query_by schema "run_context_plans" "run_id" run_id ["context_plan_digest"]
    (get_blob "context_plan_digest") in
  let! _ := some_or_fail attached (not_ready "no ContextPlan is attached; the Run is not LaunchReady" []) in
  let! live := query_optional schema "attempt_status" ["attempt_id"; "run_id"; "terminal"]
    (fun r => col_is "run_id" (SText run_id) r && col_is "terminal" (SInteger 0) r) (get_text "attempt_id") in
  do! match live with
      | Some live => tx_fail (not_ready "nonterminal attempt already owns this Run" [live])
      | None => tx_ret tt
      end in
  let! ordinal := next_ordinal run_id in
  let! generation := restore_generation in
  let! generation := tx_some generation (InvariantViolated (Broken "system_state has no installation identity row")) in
  let! now := now amb in
  do! tx_insert schema "attempts" (attempt_row amb c ordinal) in
  do! tx_insert schema "attempt_status" (attempt_status_row amb c) in
  do! tx_insert schema "agent_control_sessions" (session_row amb c generation) in
  do! update_revisioned_by schema "run_status" "run_id" run_id (ac_expected_run_status_revision c)
        [("current_attempt_id", SText (ac_attempt_id c))] in
  tx_ret {| created_attempt_id := ac_attempt_id c; created_run_id := run_id; created_ordinal := ordinal;
            created_launch_key := ac_launch_key c; created_session_id := ac_session_id c;
            created_restore_generation := generation |}.

(** ** T4a: the pre-contact rekey *)

(** The current-Attempt pointer of the Run an Attempt belongs to, when that Run is
    [Active]; a NULL pointer is not a text and fails the query. *)
Definition current_attempt_of (attempt_id : string) : Tx (option string) :=
  tx_query (fun db =>
    match (match joined db "attempts" "id" (SText attempt_id) with
           | a :: _ => List.filter (col_is "phase" (SText "Active"))
                         (joined db "run_status" "run_id" (column a "run_id"))
           | [] => []
           end) with
    | [] => Ok None
    | r :: _ => let? t := get_text "current_attempt_id" r in Ok (Some t)
    end).

Definition forbid_rekey_unless_precontact (attempt_id : string) : Tx unit :=
  let forbidden what values := AgentControlRekeyForbidden attempt_id (message what values) in
  let! facts := query_by schema "attempt_status" "attempt_id" attempt_id ["launch_contact_state"; "terminal"]
    (fun r => let? c := get_text "launch_contact_state" r in
              let? t := get_integer "terminal" r in Ok (c, t)) in
  let! (contact_text, terminal) := some_or_fail facts (forbidden "the Attempt does not exist" []) in
  do! guard (terminal =? 0)%Z (forbidden "the Attempt is terminal" []) in
  do! guard (String.eqb contact_text (launch_contact_as_str NotContacted))
    (forbidden "the credential revision is frozen" [contact_text]) in
  let! generation := restore_generation in
  let! current_generation := some_or_fail generation
    (InvariantViolated (Broken "system_state has no installation identity row")) in
  let! session := query_by schema "agent_control_sessions" "attempt_id" attempt_id
    ["restore_generation"; "state"]
    (fun r => let? g := get_text "restore_generation" r in
              let? s := get_text "state" r in Ok (g +:+ ("|" +:+ s))) in
  let! bound := some_or_fail session (forbidden "the Attempt owns no AgentControlSession" []) in
  let! (bound_generation, state) := tx_some (split_once "|" bound)
    (InvariantViolated (Broken "session generation/state unreadable")) in
  do! guard (String.eqb state "ACTIVE") (forbidden "the session is not ACTIVE" [state]) in
  do! guard (String.eqb bound_generation current_generation)
    (forbidden "the session belongs to an older RestoreGeneration" []) in
  let! current := current_attempt_of attempt_id in
  guard (bool_decide (current = Some attempt_id))
    (forbidden "the Attempt is no longer the Run's current one under an Active Run" []).

Definition rekey_where (attempt_id : string) (expected : Z) (r : Row) : bool :=
  col_is "attempt_id" (SText attempt_id) r && col_is "credential_revision" (SInteger expected) r
  && col_is "state" (SText "ACTIVE") r.

Definition rekey_set (amb : Ambient) (verifier : string) (r : Row) : Row :=
  <["credential_revision" := sql_increment (column r "credential_revision")]>
  (<["credential_hash" := SBlob verifier]> (<["credential_rekeyed_at" := SInteger (amb_now amb)]> r)).

Definition apply_rekey (amb : Ambient) (attempt_id new_verifier : string) (expected : Z) : Tx Z :=
  do! forbid_rekey_unless_precontact attempt_id in
  let! affected := tx_update schema "agent_control_sessions"
    ["credential_revision"; "credential_hash"; "credential_rekeyed_at"; "attempt_id"; "state"]
    (rekey_where attempt_id expected) (rekey_set amb new_verifier) in
  if negb (Nat.eqb affected 1)
  then
    let! actual := query_by schema "agent_control_sessions" "attempt_id" attempt_id ["credential_revision"]
      (get_integer "credential_revision") in
    tx_fail (RevisionConflict SESSION_TABLE attempt_id expected actual)
  else
    do! append_internal_event schema amb "agent-control.session.rekeyed" in
    tx_ret (expected + 1)%Z.

(** ** T4b: the launch-contact marker *)

(** The credential revision of the [ACTIVE] session of the current generation. *)
Definition current_session_revision (attempt_id : string) : Tx (option Z) :=
  tx_query (fun db =>
    match List.filter (fun s => col_is "attempt_id" (SText attempt_id) s && col_is "state" (SText "ACTIVE") s
              && match joined db "system_state" "id" (SInteger 1) with
                 | g :: _ => col_is "restore_generation" (column g "restore_generation") s
                 | [] => false
                 end) (rows db "agent_control_sessions") with
    | [] => Ok None
    | s :: _ => let? n := get_integer "credential_revision" s in Ok (Some n)
    end).

Definition apply_launch_contact (amb : Ambient) (run_id attempt_id controller_epoch : string)
    (expected_status_revision expected_credential_revision : Z) : Tx unit :=
  let stale what := LaunchContactStaleAuthority attempt_id (message what []) in
  let! status := query_optional schema "attempt_status"
    ["launch_contact_state"; "revision"; "attempt_id"; "run_id"; "terminal"]
    (fun r => col_is "attempt_id" (SText attempt_id) r && col_is "run_id" (SText run_id) r
              && col_is "terminal" (SInteger 0) r)
    (fun r => let? c := get_text "launch_contact_state" r in
              let? n := get_integer "revision" r in Ok (c, n)) in
  let! (contact_text, _) := some_or_fail status
    (stale "the Attempt is absent, foreign to the Run, or terminal") in
  if String.eqb contact_text (launch_contact_as_str ContactMayHaveOccurred) then tx_ret tt
  else
    let! current := query_optional schema "run_status" ["current_attempt_id"; "run_id"; "phase"]
      (fun r => col_is "run_id" (SText run_id) r && col_is "phase" (SText "Active") r)
      (get_text "current_attempt_id") in
    do! guard (bool_decide (current = Some attempt_id))
      (stale "the Attempt is no longer the Run's current one under an Active Run") in
    let! session_revision := current_session_revision attempt_id in
    let! found := some_or_fail session_revision (stale "no current-generation ACTIVE session exists") in
    do! guard (found =? expected_credential_revision)%Z
      (stale "session credential revision is not the expected one") in
    let! now := now amb in
    do! update_revisioned_by schema ATTEMPT_STATUS_TABLE "attempt_id" attempt_id expected_status_revision
          [("launch_contact_state", SText (launch_contact_as_str ContactMayHaveOccurred));
           ("launch_contact_initiated_at", SInteger now); ("launch_contact_epoch", SText controller_epoch);
           ("updated_at", SInteger now)] in
    do! append_internal_event schema amb "run.attempt.contact-initiated" in
    tx_ret tt.

(** ** Observations *)

(** [COALESCE(column, v)]. *)
Definition coalesce (r : Row) (c : string) (v : SqlValue) : SqlValue :=
  if is_null (column r c) then v else column r c.

Definition stamp_started (amb : Ambient) (r : Row) : Row :=
  <["started_at" := coalesce r "started_at" (SInteger (amb_now amb))]> r.

Definition revoke_session (amb : Ambient) (r : Row) : Row :=
  <["state" := SText "REVOKED"]> (<["revoked_at" := SInteger (amb_now amb)]>
  (<["revocation_reason" := coalesce r "revocation_reason" (SText "attempt-terminal")]> r)).

Definition apply_observation (amb : Ambient) (attempt_id : string) (expected : Z)
    (update_ : ObservationUpdate) : Tx Z :=
  let! now := now amb in
  match update_ with
  | Observe observation =>
      do! guard (negb (bool_decide (observation = ObsExited)))
        (InvariantViolated (Broken "EXITED is definitive; use the terminal update")) in
      let! revision := update_revisioned_by schema ATTEMPT_STATUS_TABLE "attempt_id" attempt_id expected
        [("observed_execution", SText (observation_as_str observation)); ("updated_at", SInteger now)] in
      do! (if bool_decide (observation = ObsStarting) || bool_decide (observation = ObsRunning)
           then do! tx_update schema "attempt_status" ["started_at"; "attempt_id"]
                      (col_is "attempt_id" (SText attempt_id)) (stamp_started amb) in tx_ret tt
           else tx_ret tt) in
      tx_ret revision
  | Terminal observation =>
      let! contact := query_by schema "attempt_status" "attempt_id" attempt_id ["launch_contact_state"]
        (get_text "launch_contact_state") in
      do! guard (bool_decide (contact = Some (launch_contact_as_str ContactMayHaveOccurred)))
        (broken "attempt cannot terminalize while launch contact is not proven"
           [attempt_id; default "absent" contact]) in
      let! revision := update_revisioned_by schema ATTEMPT_STATUS_TABLE "attempt_id" attempt_id expected
        [("observed_execution", SText (observation_as_str observation)); ("terminal", SInteger 1);
         ("finished_at", SInteger now); ("updated_at", SInteger now)] in
      do! tx_update schema "agent_control_sessions" ["state"; "revoked_at"; "revocation_reason"; "attempt_id"]
            (fun r => col_is "attempt_id" (SText attempt_id) r && col_is "state" (SText "ACTIVE") r)
            (revoke_session amb) in
      do! append_internal_event schema amb "run.attempt.terminal" in
      tx_ret revision
  end.

Definition apply_conclude_run (amb : Ambient) (run_id terminal_target : string) (expected : Z) : Tx unit :=
  do! guard (contains ["Failed"; "Cancelled"] terminal_target)
    (broken "terminal target cannot conclude a Run directly" [terminal_target]) in
  let! now := now amb in
  do! update_revisioned_by schema "run_status" "run_id" run_id expected
        [("phase", SText terminal_target); ("terminal_target", SText terminal_target);
         ("active_slot", SNull); ("updated_at", SInteger now)] in
  do! append_internal_event schema amb "run.concluded" in
  tx_ret tt.

(** ** Reads *)

Definition decode_lineage (r : Row * Row * Row) :
    Result (string * Z * string * string * Z * string * Z * (string * string * Z * string)) SqliteError :=
  let '(st, a, s) := r in
  let? id := get_text "id" a in
  let? ordinal := get_integer "ordinal" a in
  let? launch_key := get_text "launch_key" a in
  let? observed := get_text "observed_execution" st in
  let? terminal := get_integer "terminal" st in
  let? contact := get_text "launch_contact_state" st in
  let? revision := get_integer "revision" st in
  let? session := get_text "id" s in
  let? generation := get_text "restore_generation" s in
  let? credential := get_integer "credential_revision" s in
  let? state := get_text "state" s in
  Ok (id, ordinal, launch_key, observed, terminal, contact, revision, (session, generation, credential, state)).

(** The joined rows of the nonterminal Attempts of a Run and their sessions. *)
Definition lineage_rows (db : Database) (run_id : string) : list (Row * Row * Row) :=
  flat_map (fun st =>
      flat_map (fun a => map (fun s => (st, a, s))
                           (joined db "agent_control_sessions" "attempt_id" (column a "id")))
        (joined db "attempts" "id" (column st "attempt_id")))
    (List.filter (col_is "terminal" (SInteger 0)) (joined db "attempt_status" "run_id" (SText run_id))).

Definition load_current_lineage (db : Database) (run_id : string) :
    Result (option AttemptLineageView) StoreError :=
  let? found := map_err Sqlite (collect decode_lineage (lineage_rows db run_id)) in
  match found with
  | [] => Ok None
  | [(id, ordinal, launch_key, observed, terminal, contact, revision,
      (session, generation, credential, state))] =>
      let? observed := ok_or (observation_parse observed)
        (broken "attempt stores unparsable observation" [id; observed]) in
      let? contact := ok_or (launch_contact_parse contact)
        (broken "attempt stores unparsable contact state" [id]) in
      if negb (String.eqb state "ACTIVE")
      then Err (broken "nonterminal attempt has a session that is not ACTIVE" [id; state])
      else Ok (Some
        {| lineage_attempt := {| attempt_id := id; attempt_run_id := run_id; attempt_ordinal := ordinal;
                                 attempt_launch_key := launch_key |};
           lineage_observed_execution := observed; lineage_terminal := negb (terminal =? 0)%Z;
           lineage_launch_contact_state := contact; lineage_status_revision := revision;
           lineage_session := {| session_id := session; session_attempt_id := id;
                                 session_restore_generation := generation;
                                 session_credential_revision := credential; session_state := state |} |})
  | _ => Err (broken "run has several nonterminal attempts" [run_id])
  end.

Definition run_execution_view (db : Database) (run_id : string) :
    Result (option RunExecutionView) StoreError :=
  match flat_map (fun r => map (fun s => (r, s)) (joined db "run_status" "run_id" (column r "id")))
          (joined db "runs" "id" (SText run_id)) with
  | [] => Ok None
  | (r, s) :: _ =>
      let? (task_id, binding, snapshot, phase, revision, current) := map_err Sqlite
        (let? t := get_text "task_id" r in
         let? b := get_blob "binding_digest" r in
         let? d := get_blob "context_source_snapshot_digest" r in
         let? p := get_text "phase" s in
         let? n := get_integer "revision" s in
         let? c := get_optional_text "current_attempt_id" s in Ok (t, b, d, p, n, c)) in
      let? plan := read_row schema db "run_context_plans" ["context_plan_digest"; "run_id"]
        (col_is "run_id" (SText run_id)) (get_blob "context_plan_digest") in
      let? attempt := load_current_lineage db run_id in
      let? binding := digest_from binding "binding_digest" in
      let? snapshot := digest_from snapshot "context_source_snapshot_digest" in
      let? plan := and_then (Ok plan) (fun bytes => digest_from bytes "context_plan_digest") in
      Ok (Some {| rev_run_id := run_id; rev_task_id := task_id; rev_binding_digest := binding;
                  rev_source_snapshot_digest := snapshot; rev_phase := phase; rev_revision := revision;
                  rev_current_attempt_id := current; rev_context_plan_digest := plan;
                  rev_attempt := attempt |})
  end.

Definition nonterminal_run_inventory (db : Database) : Result (list RunInventoryEntry) StoreError :=
  map_err Sqlite (collect (fun r =>
      let? run_id := get_text "run_id" r in
      let? task_id := get_text "task_id" r in
      let? phase := get_text "phase" r in
      let? revision := get_integer "revision" r in
      let? current := get_optional_text "current_attempt_id" r in
      Ok {| inventory_run_id := run_id; inventory_task_id := task_id; inventory_phase := phase;
            inventory_revision := revision; inventory_current_attempt_id := current |})
    (sort_by (text_order "run_id") (List.filter (col_in "phase" live_run_phases) (rows db "run_status")))).

Definition workspace_readiness (db : Database) (run_id : string) :
    Result (option (string * string)) StoreError :=
  map_err Sqlite
    match flat_map (fun r =>
            flat_map (fun s => joined db "workspaces" "id" (column s "workspace_id"))
              (joined db "context_source_snapshots" "digest" (column r "context_source_snapshot_digest")))
          (joined db "runs" "id" (SText run_id)) with
    | [] => Ok None
    | w :: _ => let? p := get_text "phase" w in
                let? m := get_text "materialization" w in Ok (Some (p, m))
    end.

Definition attempt_history_count (db : Database) (run_id : string) : Z :=
  Z.of_nat (length (joined db "attempts" "run_id" (SText run_id))).

Definition binding_canonical_json (db : Database) (digest : Digest) : Result (option string) StoreError :=
  read_row schema db "execution_bindings" ["canonical_json"; "digest"] (col_is "digest" (digest_blob digest))
    (get_text "canonical_json").

Definition attempt_status_revision (db : Database) (attempt_id : string) : Result Z StoreError :=
  let? found := read_row schema db "attempt_status" ["revision"; "attempt_id"]
    (col_is "attempt_id" (SText attempt_id)) (get_integer "revision") in
  ok_or found (Sqlite QueryReturnedNoRows).
End Execution.
