(* ===== verification/StoreScheduling.v ===== *)
(** * Scheduler state and the Run-intent commit
      ([pantheon-store/src/scheduling.rs])

    The durable scheduler singleton, the snapshot one scheduling cycle reads, the
    operator's dispatch mode, backoff bookkeeping, and T3: the one transaction
    that turns a selected route into a Run. *)

From Stdlib Require Import ZArith Ascii Lia.
From S2P Require Import Prelude Utf8 Canonical Parse Digest Goal Task ConfigModel Scheduling ContextPlan Sql Schema Transaction Command StoreBase StorePlanning StoreConfiguration StoreWorkspace.

Definition SCHEDULER_TABLE : string := "scheduler_state".
Definition TASK_SCHEDULING_TABLE : string := "task_scheduling_state".
Definition GOAL_SCHEDULING_TABLE : string := "goal_scheduling_state".

Record SchedulerStateRecord : Type := {
  ss_dispatch_mode : DispatchMode;
  ss_next_service_sequence : Z;
  ss_revision : Z
}.

Record GoalSchedulingRow : Type := {
  gsr_goal_id : string;
  gsr_last_served_sequence : option Z;
  gsr_revision : Z
}.

Definition row_fairness (r : GoalSchedulingRow) : GoalFairness :=
  {| gf_goal_id := gsr_goal_id r; gf_last_served_sequence := gsr_last_served_sequence r |}.

Record DispatchCandidate : Type := {
  dc_task_id : string;
  dc_goal_id : string;
  dc_spec_digest : Digest;
  dc_eligible_since : Z;
  dc_task_revision : Z;
  dc_goal_current_revision : Z;
  dc_goal_row_revision : Z;
  dc_graph_revision : Z;
  dc_workspace_id : string;
  dc_workspace_resolved_base : string;
  dc_workspace_revision : Z;
  dc_scheduling_revision : Z
}.

Definition schedulable (c : DispatchCandidate) : SchedulableTask :=
  {| st_task_id := dc_task_id c; st_goal_id := dc_goal_id c; st_eligible_since := dc_eligible_since c |}.

Record SchedulingSnapshot : Type := {
  snap_state : SchedulerStateRecord;
  snap_goals : list GoalSchedulingRow;
  snap_candidates : list DispatchCandidate;
  snap_now : Z
}.

Record RunIntentCommit : Type := {
  ric_run_id : string;
  ric_task_revision : Z;
  ric_scheduler_revision : Z;
  ric_charged_service_sequence : Z
}.

Record RunIntent : Type := {
  ri_run_id : string;
  ri_task_id : string;
  ri_goal_id : string;
  ri_expected_task_revision : Z;
  ri_expected_goal_row_revision : Z;
  ri_expected_goal_current_revision : Z;
  ri_expected_graph_revision : Z;
  ri_expected_workspace_revision : Z;
  ri_expected_scheduler_revision : Z;
  ri_expected_goal_fairness_revision : option Z;
  ri_expected_task_scheduling_revision : Z;
  ri_configuration_activation_sequence : Z;
  ri_binding_digest : Digest;
  ri_binding : ExecutionBinding;
  ri_snapshot_digest : Digest;
  ri_snapshot : ContextSourceSnapshot
}.

#[export] Instance DispatchMode_eq_dec : EqDecision DispatchMode.
Proof. solve_decision. Defined.

Section SchedulingStore.
Context `{Sha256}.
Variable schema : Schema.

(** ** The singleton *)

Definition parse_state (row : string * Z * Z) : Result SchedulerStateRecord StoreError :=
  let '(mode, sequence, revision) := row in
  let? dispatch_mode := ok_or (dispatch_mode_parse mode)
    (broken "scheduler_state contains an unparsable dispatch mode" [mode]) in
  Ok {| ss_dispatch_mode := dispatch_mode; ss_next_service_sequence := sequence; ss_revision := revision |}.

Definition decode_state (r : Row) : Result (string * Z * Z) SqliteError :=
  let? mode := get_text "dispatch_mode" r in
  let? sequence := get_integer "next_service_sequence" r in
  let? revision := get_integer "revision" r in
  Ok (mode, sequence, revision).

Definition state_columns : list string := ["dispatch_mode"; "next_service_sequence"; "revision"].

Definition no_singleton : StoreError := InvariantViolated (Broken "scheduler_state has no singleton row").

Definition read_state : Tx SchedulerStateRecord :=
  let! row := query_by schema "scheduler_state" "id" "singleton" state_columns decode_state in
  match row with
  | Some row => tx_try (parse_state row)
  | None => tx_err no_singleton
  end.

Definition scheduler_state (db : Database) : Result SchedulerStateRecord StoreError :=
  let? found := and_then (read_row schema db "scheduler_state" ("id" :: state_columns)
                            (col_is "id" (SText "singleton")) decode_state) parse_state in
  ok_or found no_singleton.

Definition slot_taken (r : Row) : bool := negb (is_null (column r "active_slot")).

Definition decode_holder (r : Row) : Result (string * string) SqliteError :=
  let? run_id := get_text "run_id" r in
  let? task_id := get_text "task_id" r in
  Ok (run_id, task_id).

Definition slot_holder (db : Database) : Result (option (string * string)) StoreError :=
  let? holders := map_err Sqlite
    (collect decode_holder (sort_by (text_order "run_id") (List.filter slot_taken (rows db "run_status")))) in
  match holders with
  | [] => Ok None
  | [h] => Ok (Some h)
  | _ => Err (broken "several runs hold the single execution slot" [])
  end.

(** ** The snapshot *)

Definition le_column (r : Row) (c : string) (n : Z) : bool :=
  match column r c with
  | SInteger m => (m <=? n)%Z
  | _ => false
  end.

(** The joined rows that are dispatchable now: the Task, its Goal, its graph, its
    Workspace and its scheduling row. *)
Definition dispatchable_rows (db : Database) (now : Z) : list (Row * Row * Row * Row * Row) :=
  flat_map (fun t =>
    flat_map (fun g =>
      flat_map (fun gr =>
        flat_map (fun w =>
          map (fun s => (t, g, gr, w, s))
            (List.filter (fun s => negb (is_null (column s "eligible_since"))
                && (is_null (column s "next_attempt_at") || le_column s "next_attempt_at" now))
               (joined db "task_scheduling_state" "task_id" (column t "id"))))
          (List.filter (fun w => col_is "phase" (SText "Ready") w && col_is "materialization" (SText "Present") w)
             (joined db "workspaces" "task_id" (column t "id"))))
        (List.filter (fun gr =>
             match column t "id", column gr "revision" with
             | SText id, SInteger revision => bool_decide (unsatisfied_upstream db id revision = [])
             | _, _ => false
             end) (joined db "task_graphs" "id" (column t "goal_id"))))
      (List.filter (col_in "phase" open_goal_phases) (joined db "goals" "id" (column t "goal_id"))))
    (List.filter (fun t => col_is "phase" (SText "Ready") t
        && negb (existsb (col_in "phase" live_run_phases) (joined db "run_status" "task_id" (column t "id"))))
       (rows db "tasks")).

Definition decode_candidate (r : Row * Row * Row * Row * Row) : Result DispatchCandidate SqliteError :=
  let '(t, g, gr, w, s) := r in
  let? spec := get_blob "spec_digest" t in
  let? task_id := get_text "id" t in
  let? goal_id := get_text "goal_id" t in
  let? spec_digest := map_err (fun _ => InvalidColumnType "spec_digest") (digest_from spec "spec_digest") in
  let? eligible_since := get_integer "eligible_since" s in
  let? task_revision := get_integer "revision" t in
  let? current := get_integer "current_revision" g in
  let? goal_row := get_integer "revision" g in
  let? graph := get_integer "revision" gr in
  let? workspace_id := get_text "id" w in
  let? base := get_text "resolved_base" w in
  let? workspace_revision := get_integer "revision" w in
  let? scheduling := get_integer "revision" s in
  Ok {| dc_task_id := task_id; dc_goal_id := goal_id; dc_spec_digest := spec_digest;
        dc_eligible_since := eligible_since; dc_task_revision := task_revision;
        dc_goal_current_revision := current; dc_goal_row_revision := goal_row; dc_graph_revision := graph;
        dc_workspace_id := workspace_id; dc_workspace_resolved_base := base;
        dc_workspace_revision := workspace_revision; dc_scheduling_revision := scheduling |}.

Definition first_task (r : Row * Row * Row * Row * Row) : Row := r.1.1.1.1.

Definition scheduling_snapshot (now : Z) (db : Database) : Result SchedulingSnapshot StoreError :=
  let? row := map_err (fun _ => broken "scheduler_state singleton unreadable" [])
    (let? found := read_row schema db "scheduler_state" ("id" :: state_columns)
                     (col_is "id" (SText "singleton")) decode_state in
     ok_or found (Sqlite QueryReturnedNoRows)) in
  let? state := parse_state row in
  let? goals := map_err Sqlite (collect (fun r =>
      let? goal_id := get_text "goal_id" r in
      let? last := get_optional_integer "last_served_sequence" r in
      let? revision := get_integer "revision" r in
      Ok {| gsr_goal_id := goal_id; gsr_last_served_sequence := last; gsr_revision := revision |})
    (sort_by (text_order "goal_id") (rows db "goal_scheduling_state"))) in
  let? candidates := map_err Sqlite (collect decode_candidate
    (sort_by (fun a b => text_order "id" (first_task a) (first_task b)) (dispatchable_rows db now))) in
  Ok {| snap_state := state; snap_goals := goals; snap_candidates := candidates; snap_now := now |}.

(** ** Dispatch mode and backoff *)

Definition set_dispatch_mode (amb : Ambient) (mode : DispatchMode) (expected : Z) : Tx SchedulerStateRecord :=
  let! now := now amb in
  do! update_revisioned schema SCHEDULER_TABLE "singleton" expected
        [("dispatch_mode", SText (dispatch_mode_as_str mode)); ("updated_at", SInteger now)] in
  read_state.

Definition record_scheduling_backoff (amb : Ambient) (task_id : string) (expected : Z)
    (code detail_json : string) (next_attempt_at : Z) : Tx Z :=
  let! now := now amb in
  update_revisioned_by schema TASK_SCHEDULING_TABLE "task_id" task_id expected
    [("next_attempt_at", SInteger next_attempt_at); ("last_failure_code", SText code);
     ("last_failure_detail_json", SText detail_json); ("updated_at", SInteger now)].

(** ** T3: the preconditions *)

(** 1. Dispatch permission and the scheduler fence. *)
Definition check_dispatch (i : RunIntent) : Tx SchedulerStateRecord :=
  let! state := read_state in
  do! guard (bool_decide (ss_dispatch_mode state = Running)) DispatchPaused in
  do! guard (ss_revision state =? ri_expected_scheduler_revision i)%Z
    (RevisionConflict SCHEDULER_TABLE "singleton" (ri_expected_scheduler_revision i)
       (Some (ss_revision state))) in
  tx_ret state.

Definition decode_digests (r : Row) : Result (string * list string) SqliteError :=
  let? content := get_blob "content_digest" r in
  let? components := collect (fun c => get_blob c r)
    ["agents_digest"; "routing_digest"; "execution_profile_digest"; "evaluator_registry_digest";
     "context_policy_digest"; "authorization_digest"] in
  Ok (content, components).

Definition digest_list (d : ComponentDigests) : list string :=
  map digest_bytes [cd_agents d; cd_routing d; cd_execution_profile d; cd_evaluator_registry d;
                    cd_context_policy d; cd_authorization d].

(** 2. The captured revision is active, and the Binding belongs to it. *)
Definition check_configuration (i : RunIntent) : Tx unit :=
  let sequence := ri_configuration_activation_sequence i in
  let! active := active_sequence schema in
  do! guard (bool_decide (active = Some sequence))
    (RevisionConflict "active_configuration" "singleton" sequence active) in
  let! stored := query_optional schema "configuration_revisions"
    ["content_digest"; "agents_digest"; "routing_digest"; "execution_profile_digest";
     "evaluator_registry_digest"; "context_policy_digest"; "authorization_digest"; "activation_sequence"]
    (col_is "activation_sequence" (SInteger sequence)) decode_digests in
  let! (content, digests) := some_or_fail stored (broken "active configuration names a revision which is not stored" []) in
  let components := eb_component_digests (ri_binding i) in
  guard (String.eqb content (digest_bytes (eb_configuration_content_digest (ri_binding i)))
         && bool_decide (digests = digest_list components)
         && bool_decide (cs_context_policy_digest (ri_snapshot i) = cd_context_policy components))
    (broken "the frozen Binding or source snapshot does not belong to the active ConfigurationRevision" []).

(** 2b. The frozen Agent guidance is that of the active revision. *)
Definition check_guidance (i : RunIntent) : Tx unit :=
  let! json := tx_query (fun db =>
    match flat_map (fun revision => joined db "configuration_components" "digest" (column revision "agents_digest"))
            (joined db "configuration_revisions" "activation_sequence"
               (SInteger (ri_configuration_activation_sequence i))) with
    | [] => Ok None
    | c :: _ => let? j := get_text "canonical_json" c in Ok (Some j)
    end) in
  let! json := some_or_fail json (broken "configuration revision has no stored agents component" []) in
  let unusable := broken "the active ConfigurationRevision carries no usable guidance"
    [lav_name (cs_agent (ri_snapshot i))] in
  let! guidance := tx_or_fail
    (let? value := map_err (fun _ => unusable) (parse json) in
     map_err (fun _ => unusable) (frozen_agent_guidance value (cs_agent (ri_snapshot i)))) in
  guard (bool_decide (guidance_digest (guidance_soul guidance) = cs_agent_soul_digest (ri_snapshot i))
         && bool_decide (guidance_digest (guidance_behavior guidance) = cs_agent_behavior_digest (ri_snapshot i)))
    (broken "the frozen source snapshot names Agent guidance of another revision" []).

(** The frozen records belong to this Run's Task and Goal. *)
Definition check_owners (i : RunIntent) : Tx unit :=
  do! guard (String.eqb (eb_task_id (ri_binding i)) (ri_task_id i))
    (broken "the frozen Binding names another task" [eb_task_id (ri_binding i); ri_task_id i]) in
  guard (String.eqb (cs_goal_id (ri_snapshot i)) (ri_goal_id i))
    (broken "the frozen source snapshot names another goal" [cs_goal_id (ri_snapshot i); ri_goal_id i]).

(** 3. The Task is [Ready], unowned, and at the observed revision. *)
Definition check_task (i : RunIntent) : Tx unit :=
  let task_id := ri_task_id i in
  let! task := query_by schema "tasks" "id" task_id
    ["goal_id"; "phase"; "revision"; "active_run_id"; "spec_digest"]
    (fun r => let? g := get_text "goal_id" r in
              let? p := get_text "phase" r in
              let? n := get_integer "revision" r in
              let? a := get_optional_text "active_run_id" r in
              let? d := get_blob "spec_digest" r in Ok (g, p, n, a, d)) in
  let! (goal_id, phase_text, task_revision, active_run_id, spec_digest) :=
    some_or_fail task (TaskNotDispatchable task_id "Absent" None) in
  let! phase := tx_some (task_phase_parse phase_text) (broken "task has unknown phase" [task_id; phase_text]) in
  do! guard (String.eqb goal_id (ri_goal_id i))
    (TaskNotDispatchable task_id (task_phase_as_str phase) active_run_id) in
  do! guard (bool_decide (phase = Ready) && bool_decide (active_run_id = None))
    (TaskNotDispatchable task_id (task_phase_as_str phase) active_run_id) in
  do! guard (task_revision =? ri_expected_task_revision i)%Z
    (RevisionConflict "tasks" task_id (ri_expected_task_revision i) (Some task_revision)) in
  guard (String.eqb spec_digest (digest_bytes (cs_task_spec_digest (ri_snapshot i))))
    (broken "frozen source snapshot names another task spec" [task_id]).

Definition goal_dispatchable (p : GoalPhase) : bool :=
  match p with
  | GoalPlanning | GoalActive | GoalEvaluating => true
  | _ => false
  end.

(** 4. The Goal admits new Runs, at the observed revision and graph. *)
Definition check_goal (i : RunIntent) : Tx unit :=
  let goal_id := ri_goal_id i in
  let! goal := query_by schema "goals" "id" goal_id ["phase"; "current_revision"; "revision"]
    decode_goal_head in
  let! (phase_text, current_revision, row_revision) :=
    some_or_fail goal (broken "task names a goal which does not exist" [ri_task_id i; goal_id]) in
  let! phase := tx_some (goal_phase_parse phase_text) (broken "goal has unknown phase" [goal_id; phase_text]) in
  do! guard (goal_dispatchable phase) (GoalNotDispatchable goal_id (goal_phase_as_str phase)) in
  do! guard (row_revision =? ri_expected_goal_row_revision i)%Z
    (RevisionConflict "goals" goal_id (ri_expected_goal_row_revision i) (Some row_revision)) in
  do! guard ((current_revision =? ri_expected_goal_current_revision i)%Z
             && (current_revision =? cs_goal_revision (ri_snapshot i))%Z)
    (RevisionConflict "goal_revisions" goal_id (cs_goal_revision (ri_snapshot i)) (Some current_revision)) in
  let! graph := query_by schema "task_graphs" "id" goal_id ["revision"] (get_integer "revision") in
  let! graph_revision := tx_some graph (broken "goal has no task graph" [goal_id]) in
  guard ((graph_revision =? ri_expected_graph_revision i)%Z
         && (graph_revision =? cs_graph_revision (ri_snapshot i))%Z)
    (RevisionConflict "task_graphs" goal_id (ri_expected_graph_revision i) (Some graph_revision)).

(** 5. The Workspace is the Task's, verified, and on the frozen base. *)
Definition check_workspace (i : RunIntent) : Tx unit :=
  let workspace_id := cs_workspace_id (ri_snapshot i) in
  let! found := query_by schema "workspaces" "id" workspace_id
    ["task_id"; "phase"; "materialization"; "revision"; "resolved_base"]
    (fun r => let? t := get_text "task_id" r in
              let? p := get_text "phase" r in
              let? m := get_text "materialization" r in
              let? n := get_integer "revision" r in
              let? b := get_text "resolved_base" r in Ok (t, p, m, n, b)) in
  let! (task_id, phase, materialization, revision, base) :=
    some_or_fail found (RevisionConflict "workspaces" workspace_id (ri_expected_workspace_revision i) None) in
  do! guard (String.eqb task_id (ri_task_id i) && String.eqb phase "Ready"
             && String.eqb materialization "Present" && (revision =? ri_expected_workspace_revision i)%Z)
    (RevisionConflict "workspaces" workspace_id (ri_expected_workspace_revision i) (Some revision)) in
  guard (String.eqb base (cs_workspace_resolved_base (ri_snapshot i)))
    (broken "frozen source snapshot names another workspace base" [cs_workspace_resolved_base (ri_snapshot i); base]).

(** 6. The single slot is free. *)
Definition check_slot : Tx unit :=
  let! holder := query_optional schema "run_status" ["run_id"; "task_id"; "active_slot"] slot_taken
    decode_holder in
  match holder with
  | Some (run_id, task_id) => tx_fail (DispatchSlotUnavailable run_id task_id)
  | None => tx_ret tt
  end.

(** ** T3: the writes *)

Definition binding_row (now : Z) (i : RunIntent) : list (string * SqlValue) :=
  [("digest", digest_blob (ri_binding_digest i)); ("task_id", SText (eb_task_id (ri_binding i)));
   ("configuration_activation_sequence", SInteger (eb_configuration_activation_sequence (ri_binding i)));
   ("configuration_content_digest", digest_blob (eb_configuration_content_digest (ri_binding i)));
   ("canonical_json", SText (canonical_json (binding_to_value (ri_binding i)))); ("created_at", SInteger now)].

Definition snapshot_row (now : Z) (i : RunIntent) : list (string * SqlValue) :=
  let s := ri_snapshot i in
  [("digest", digest_blob (ri_snapshot_digest i));
   ("configuration_activation_sequence", SInteger (cs_configuration_activation_sequence s));
   ("context_policy_digest", digest_blob (cs_context_policy_digest s));
   ("task_spec_digest", digest_blob (cs_task_spec_digest s)); ("goal_id", SText (cs_goal_id s));
   ("goal_revision", SInteger (cs_goal_revision s)); ("graph_revision", SInteger (cs_graph_revision s));
   ("agent_name", SText (lav_name (cs_agent s))); ("agent_version", SInteger (lav_version (cs_agent s)));
   ("agent_soul_digest", digest_blob (cs_agent_soul_digest s));
   ("agent_behavior_digest", digest_blob (cs_agent_behavior_digest s));
   ("workspace_id", SText (cs_workspace_id s));
   ("workspace_resolved_base", SText (cs_workspace_resolved_base s));
   ("canonical_json", SText (canonical_json (snapshot_to_value s))); ("created_at", SInteger now)].

Definition run_row (now : Z) (i : RunIntent) : list (string * SqlValue) :=
  [("id", SText (ri_run_id i)); ("task_id", SText (ri_task_id i));
   ("binding_digest", digest_blob (ri_binding_digest i));
   ("context_source_snapshot_digest", digest_blob (ri_snapshot_digest i)); ("created_at", SInteger now)].

Definition run_status_row (now : Z) (i : RunIntent) : list (string * SqlValue) :=
  [("run_id", SText (ri_run_id i)); ("task_id", SText (ri_task_id i)); ("phase", SText "Active");
   ("terminal_target", SNull); ("revision", SInteger 1); ("active_slot", SText "global");
   ("updated_at", SInteger now)].

(** A missing row under an observed fairness revision is reported as a broken
    invariant. *)
Definition charge_existing (now : Z) (i : RunIntent) (charged expected : Z) : Tx unit := fun w =>
  match update_revisioned_by schema GOAL_SCHEDULING_TABLE "goal_id" (ri_goal_id i) expected
          [("last_served_sequence", SInteger charged); ("updated_at", SInteger now)] w with
  | (Ok _, w') => (Ok tt, w')
  | (Err (RevisionConflict _ _ _ None), w') =>
      tx_fail (broken "goal had a fairness row at observation time and none at commit" [ri_goal_id i]) w'
  | (Err e, w') => (Err e, w')
  end.

Definition charge_goal (now : Z) (i : RunIntent) (charged : Z) : Tx unit :=
  match ri_expected_goal_fairness_revision i with
  | None =>
      let! affected := tx_insert schema "goal_scheduling_state"
        [("goal_id", SText (ri_goal_id i)); ("last_served_sequence", SInteger charged);
         ("revision", SInteger 1); ("created_at", SInteger now); ("updated_at", SInteger now)] in
      guard (Nat.eqb affected 1) (broken "fairness insert affected several rows" [ri_goal_id i])
  | Some expected => charge_existing now i charged expected
  end.

(** Every precondition, re-read in this transaction. *)
Definition check_intent (i : RunIntent) : Tx SchedulerStateRecord :=
  let! state := check_dispatch i in
  do! check_configuration i in
  do! check_guidance i in
  do! check_owners i in
  do! check_task i in
  do! check_goal i in
  do! check_workspace i in
  do! check_slot in
  tx_ret state.

Definition commit_intent (amb : Ambient) (i : RunIntent) (state : SchedulerStateRecord) : Tx RunIntentCommit :=
  let! now := now amb in
  do! tx_insert_or_ignore schema "execution_bindings" ["digest"] (binding_row now i) in
  do! tx_insert_or_ignore schema "context_source_snapshots" ["digest"] (snapshot_row now i) in
  do! tx_insert schema "runs" (run_row now i) in
  do! tx_insert schema "run_status" (run_status_row now i) in
  let! task_revision := update_revisioned schema "tasks" (ri_task_id i) (ri_expected_task_revision i)
    [("phase", SText (task_phase_as_str Active)); ("active_run_id", SText (ri_run_id i))] in
  let charged := ss_next_service_sequence state in
  do! charge_goal now i charged in
  let! scheduler_revision := update_revisioned schema SCHEDULER_TABLE "singleton" (ss_revision state)
    [("next_service_sequence", SInteger (charged + 1)); ("updated_at", SInteger now)] in
  do! update_revisioned_by schema TASK_SCHEDULING_TABLE "task_id" (ri_task_id i)
        (ri_expected_task_scheduling_revision i)
        [("eligible_since", SNull); ("next_attempt_at", SNull); ("last_failure_code", SNull);
         ("last_failure_detail_json", SNull); ("updated_at", SInteger now)] in
  tx_ret {| ric_run_id := ri_run_id i; ric_task_revision := task_revision;
            ric_scheduler_revision := scheduler_revision; ric_charged_service_sequence := charged |}.

Definition apply_run_intent (amb : Ambient) (i : RunIntent) : Tx RunIntentCommit :=
  let! state := check_intent i in
  commit_intent amb i state.
End SchedulingStore.

(** ** Lemmas *)

Lemma dispatch_mode_parse_Some t m : dispatch_mode_parse t = Some m → t = dispatch_mode_as_str m.
Proof. unfold dispatch_mode_parse. parse_inv. Qed.

Section SchedulingFacts.
Context `{Sha256}.

(** *** The fences of T3 *)

Definition dispatch_open (db : Database) (i : RunIntent) (next : Z) : Prop :=
  ∃ r, row_of db "scheduler_state" "id" "singleton" = Some r ∧ column r "dispatch_mode" = SText "RUNNING" ∧
    column r "revision" = SInteger (ri_expected_scheduler_revision i) ∧
    column r "next_service_sequence" = SInteger next.

Definition configuration_current (db : Database) (i : RunIntent) : Prop :=
  (∃ p, row_of db "active_configuration" "id" "singleton" = Some p ∧
     column p "activation_sequence" = SInteger (ri_configuration_activation_sequence i)) ∧
  (∃ r, r ∈ rows db "configuration_revisions" ∧
     column r "activation_sequence" = SInteger (ri_configuration_activation_sequence i) ∧
     column r "content_digest" = digest_blob (eb_configuration_content_digest (ri_binding i)) ∧
     let d := eb_component_digests (ri_binding i) in
     column r "agents_digest" = digest_blob (cd_agents d) ∧ column r "routing_digest" = digest_blob (cd_routing d) ∧
     column r "execution_profile_digest" = digest_blob (cd_execution_profile d) ∧
     column r "evaluator_registry_digest" = digest_blob (cd_evaluator_registry d) ∧
     column r "context_policy_digest" = digest_blob (cd_context_policy d) ∧
     column r "authorization_digest" = digest_blob (cd_authorization d)) ∧
  cs_context_policy_digest (ri_snapshot i) = cd_context_policy (eb_component_digests (ri_binding i)).

Definition task_dispatchable (db : Database) (i : RunIntent) : Prop :=
  ∃ t, row_of db "tasks" "id" (ri_task_id i) = Some t ∧ column t "goal_id" = SText (ri_goal_id i) ∧
    column t "phase" = SText "Ready" ∧ column t "active_run_id" = SNull ∧
    column t "revision" = SInteger (ri_expected_task_revision i) ∧
    column t "spec_digest" = digest_blob (cs_task_spec_digest (ri_snapshot i)).

Definition goal_open (db : Database) (i : RunIntent) : Prop :=
  ∃ g phase gr, row_of db "goals" "id" (ri_goal_id i) = Some g ∧
    column g "phase" = SText (goal_phase_as_str phase) ∧ goal_dispatchable phase = true ∧
    column g "revision" = SInteger (ri_expected_goal_row_revision i) ∧
    column g "current_revision" = SInteger (ri_expected_goal_current_revision i) ∧
    cs_goal_revision (ri_snapshot i) = ri_expected_goal_current_revision i ∧
    row_of db "task_graphs" "id" (ri_goal_id i) = Some gr ∧
    column gr "revision" = SInteger (ri_expected_graph_revision i) ∧
    cs_graph_revision (ri_snapshot i) = ri_expected_graph_revision i.

Definition workspace_verified (db : Database) (i : RunIntent) : Prop :=
  ∃ w, row_of db "workspaces" "id" (cs_workspace_id (ri_snapshot i)) = Some w ∧
    column w "task_id" = SText (ri_task_id i) ∧ column w "phase" = SText "Ready" ∧
    column w "materialization" = SText "Present" ∧
    column w "revision" = SInteger (ri_expected_workspace_revision i) ∧
    column w "resolved_base" = SText (cs_workspace_resolved_base (ri_snapshot i)).

Record intent_admissible (db : Database) (i : RunIntent) (next : Z) : Prop := {
  ia_dispatch : dispatch_open db i next;
  ia_configuration : configuration_current db i;
  ia_owners : eb_task_id (ri_binding i) = ri_task_id i ∧ cs_goal_id (ri_snapshot i) = ri_goal_id i;
  ia_task : task_dispatchable db i;
  ia_goal : goal_open db i;
  ia_workspace : workspace_verified db i;
  ia_slot : ∀ r, r ∈ rows db "run_status" → column r "active_slot" = SNull
}.

Lemma check_dispatch_Ok i w s w' :
  check_dispatch MIGRATIONS i w = (Ok s, w') → w' = w ∧ dispatch_open (w_db w) i (ss_next_service_sequence s) ∧
  ss_revision s = ri_expected_scheduler_revision i.
Proof.
  unfold check_dispatch, read_state. intros Hx. tx_step Hx as Es. tx_step Es as Eq.
  destruct a0 as [[[m q] n]|]; [|done]. apply query_by_Some in Eq as [-> (r & Hr & D)]. apply tx_try_Ok in Es as [Hp ->].
  unfold decode_state in D. decode_inv D. unfold parse_state in Hp.
  destruct (dispatch_mode_parse m) as [mode|] eqn:Em; [|done]. injection Hp as <-. cbn in *.
  apply dispatch_mode_parse_Some in Em as ->.
  tx_step Hx as Eg. apply bool_decide_eq_true in Eg as ->. tx_step Hx as En. apply Z.eqb_eq in En as ->.
  apply tx_ret_Ok in Hx as [-> ->]. cbn. split_and!; [done| |done]. by exists r.
Qed.

Lemma check_configuration_Ok i w u w' :
  check_configuration MIGRATIONS i w = (Ok u, w') → w' = w ∧ configuration_current (w_db w) i.
Proof.
  unfold check_configuration. intros Hx. tx_step Hx as Ea. apply active_sequence_Ok in Ea as [-> Hact].
  tx_step Hx as Eg. apply bool_decide_eq_true in Eg as ->. tx_step Hx as Eq. tx_step Hx as Es. subst a.
  apply query_optional_Some in Eq as [-> (r & Hr & [_ Hn]%col_is_true & D)]. destruct a0 as [content ds].
  apply guard_passed in Hx as [Hx ->]. apply andb_true_iff in Hx as [[Hc%String.eqb_eq Hd%bool_decide_eq_true]%andb_true_iff Hp%bool_decide_eq_true].
  unfold decode_digests in D. decode_inv D. split; [done|]. split; [exact Hact|]. split; [|done]. exists r.
  split_and!; [done|done|done|].  
  apply collect_Ok in C0. cbn [digest_list map] in C0.
  repeat (apply Forall2_cons in C0 as [?%get_blob_Ok C0]). done.
Qed.

Lemma check_guidance_unchanged i w u w' : check_guidance i w = (Ok u, w') → w' = w.
Proof.
  unfold check_guidance. intros Hx. tx_step Hx as Eq. apply tx_query_Ok in Eq as [_ ->]. tx_step Hx as Es.
  tx_step Hx as Eg. by apply guard_passed in Hx as [_ ->].
Qed.

Lemma check_owners_Ok i w u w' :
  check_owners i w = (Ok u, w') → w' = w ∧
  eb_task_id (ri_binding i) = ri_task_id i ∧ cs_goal_id (ri_snapshot i) = ri_goal_id i.
Proof.
  unfold check_owners. intros Hx. tx_step Hx as E1. apply guard_passed in Hx as [E2 ->].
  by apply String.eqb_eq in E1, E2.
Qed.

Lemma ready_task_Ok i w u w' :
  check_task MIGRATIONS i w = (Ok u, w') → w' = w ∧ task_dispatchable (w_db w) i.
Proof.
  unfold check_task. intros Hx. tx_step Hx as Eq. tx_step Hx as Es. subst a.
  apply query_by_Some in Eq as [-> (t & Ht & D)]. destruct a0 as [[[[g p] n] act] d]. decode_inv D.
  tx_step Hx as Ep. tx_step Hx as Eg. tx_step Hx as Er. tx_step Hx as En. apply guard_passed in Hx as [Hd ->].
  apply String.eqb_eq in Eg as ->. apply andb_true_iff in Er as [->%bool_decide_eq_true ->%bool_decide_eq_true].
  apply Z.eqb_eq in En as ->. apply String.eqb_eq in Hd as ->. apply task_phase_parse_Some in Ep as ->.
  split; [done|]. by exists t.
Qed.

Lemma check_goal_Ok i w u w' : check_goal MIGRATIONS i w = (Ok u, w') → w' = w ∧ goal_open (w_db w) i.
Proof.
  unfold check_goal. intros Hx. tx_step Hx as Eq. tx_step Hx as Es. subst a.
  apply query_by_Some in Eq as [-> (g & Hg & D)]. destruct a0 as [[p c] n]. unfold decode_goal_head in D. decode_inv D.
  tx_step Hx as Ep. tx_step Hx as Ed. tx_step Hx as En. tx_step Hx as Ec. tx_step Hx as Eq. tx_step Hx as Eg.
  subst a0. apply query_by_Some in Eq as [-> (gr & Hgr & Hrev%get_integer_Ok)]. apply guard_passed in Hx as [Hx ->].
  apply Z.eqb_eq in En as ->. apply andb_true_iff in Ec as [->%Z.eqb_eq Hcr%Z.eqb_eq].
  apply andb_true_iff in Hx as [->%Z.eqb_eq Hgr'%Z.eqb_eq]. apply goal_phase_parse_Some in Ep as ->.
  split; [done|]. by exists g, a, gr.
Qed.

Lemma check_workspace_Ok i w u w' :
  check_workspace MIGRATIONS i w = (Ok u, w') → w' = w ∧ workspace_verified (w_db w) i.
Proof.
  unfold check_workspace. intros Hx. tx_step Hx as Eq. tx_step Hx as Es. subst a.
  apply query_by_Some in Eq as [-> (r & Hr & D)]. destruct a0 as [[[[t p] m] n] b]. decode_inv D.
  tx_step Hx as Eg. apply guard_passed in Hx as [->%String.eqb_eq ->].
  apply andb_true_iff in Eg as [[[->%String.eqb_eq ->%String.eqb_eq]%andb_true_iff ->%String.eqb_eq]%andb_true_iff ->%Z.eqb_eq].
  split; [done|]. by exists r.
Qed.

Lemma slot_free_Ok w u w' :
  check_slot MIGRATIONS w = (Ok u, w') → w' = w ∧ ∀ r, r ∈ rows (w_db w) "run_status" → column r "active_slot" = SNull.
Proof.
  unfold check_slot. intros Hx. tx_step Hx as Eq. apply query_optional_Ok in Eq as [-> Hq].
  destruct a as [[r t]|]; [done|]. apply tx_ret_Ok in Hx as [_ ->]. split; [done|].
  destruct (List.filter slot_taken _) as [|x l] eqn:Ef; [|by destruct Hq as (? & _ & ?)].
  rewrite filter_nil_b in Ef. intros s Hs. specialize (Ef s Hs). unfold slot_taken, is_null in Ef.
  by apply negb_false_iff, bool_decide_eq_true in Ef.
Qed.

(** *** The writes of T3 *)

Record intent_committed (db' : Database) (i : RunIntent) (next : Z) : Prop := {
  ic_run : ∃ r, row_of db' "runs" "id" (ri_run_id i) = Some r ∧ column r "task_id" = SText (ri_task_id i) ∧
    column r "binding_digest" = digest_blob (ri_binding_digest i) ∧
    column r "context_source_snapshot_digest" = digest_blob (ri_snapshot_digest i);
  ic_status : ∃ r, row_of db' "run_status" "run_id" (ri_run_id i) = Some r ∧
    column r "phase" = SText "Active" ∧ column r "active_slot" = SText "global" ∧
    column r "task_id" = SText (ri_task_id i);
  ic_task : ∃ t, row_of db' "tasks" "id" (ri_task_id i) = Some t ∧ column t "phase" = SText "Active" ∧
    column t "active_run_id" = SText (ri_run_id i) ∧
    column t "revision" = SInteger (ri_expected_task_revision i + 1);
  ic_goal : ∃ g, row_of db' "goal_scheduling_state" "goal_id" (ri_goal_id i) = Some g ∧
    column g "last_served_sequence" = SInteger next;
  ic_scheduler : ∃ s, row_of db' "scheduler_state" "id" "singleton" = Some s ∧
    column s "next_service_sequence" = SInteger (next + 1) ∧ column s "dispatch_mode" = SText "RUNNING";
  ic_backlog : ∃ s, row_of db' "task_scheduling_state" "task_id" (ri_task_id i) = Some s ∧
    column s "eligible_since" = SNull
}.

Lemma charge_goal_Ok now i charged w u w' :
  valid MIGRATIONS (w_db w) → charge_goal MIGRATIONS now i charged w = (Ok u, w') →
  same_outside ["goal_scheduling_state"] (w_db w) (w_db w') ∧ valid MIGRATIONS (w_db w') ∧
  ∃ g, row_of (w_db w') "goal_scheduling_state" "goal_id" (ri_goal_id i) = Some g ∧
    column g "last_served_sequence" = SInteger charged.
Proof.
  intros Hv. unfold charge_goal. destruct (ri_expected_goal_fairness_revision i) as [expected|].
  - unfold charge_existing. intros Hx. destruct (update_revisioned_by _ _ _ _ _ _ w) as [[n|e] w1] eqn:Eu.
    2: { destruct e; try discriminate Hx. destruct actual; discriminate Hx. }
    injection Hx as _ <-. unfold GOAL_SCHEDULING_TABLE in Eu. tx_frame Eu ["goal_scheduling_state"] as F. tx_valid Eu Hv as V.
    apply update_row_of in Eu as (_ & g & _ & _ & Hg & _ & _); [|apply _..|done|done|done|done].
    split_and!; [done|done|]. eexists. split; [done|]. by rewrite column_set_clause.
  - intros Hx. tx_step Hx as Ei. apply guard_passed in Hx as [_ ->].
    tx_frame Ei ["goal_scheduling_state"] as F. tx_valid Ei Hv as V.
    eapply insert_row_of in Ei as [_ Hg]; [|apply _|reflexivity]. split_and!; [done|done|]. by eexists.
Qed.

Lemma check_intent_Ok i w s w' :
  check_intent MIGRATIONS i w = (Ok s, w') →
  w' = w ∧ intent_admissible (w_db w) i (ss_next_service_sequence s) ∧
  ss_revision s = ri_expected_scheduler_revision i.
Proof.
  unfold check_intent. intros Hx. tx_step Hx as E1. apply check_dispatch_Ok in E1 as (-> & H1 & Hrev).
  tx_step Hx as E2. apply check_configuration_Ok in E2 as [-> H2].
  tx_step Hx as E3. apply check_guidance_unchanged in E3 as ->.
  tx_step Hx as E4. apply check_owners_Ok in E4 as [-> H4]. tx_step Hx as E5. apply ready_task_Ok in E5 as [-> H5].
  tx_step Hx as E6. apply check_goal_Ok in E6 as [-> H6]. tx_step Hx as E7. apply check_workspace_Ok in E7 as [-> H7].
  tx_step Hx as E8. apply slot_free_Ok in E8 as [-> H8]. apply tx_ret_Ok in Hx as [-> ->]. by split_and!.
Qed.

Lemma commit_intent_Ok amb i s w out w' :
  valid MIGRATIONS (w_db w) → dispatch_open (w_db w) i (ss_next_service_sequence s) →
  commit_intent MIGRATIONS amb i s w = (Ok out, w') →
  intent_committed (w_db w') i (ss_next_service_sequence s) ∧
  ric_charged_service_sequence out = ss_next_service_sequence s ∧ ric_run_id out = ri_run_id i ∧
  ric_task_revision out = (ri_expected_task_revision i + 1)%Z.
Proof.
  intros Hv Hopen Hx. unfold commit_intent, SCHEDULER_TABLE, TASK_SCHEDULING_TABLE in Hx. tx_step Hx as E0.
  tx_step Hx as E1. tx_frame E1 ["execution_bindings"] as F1. tx_valid E1 Hv as V1. clear E1.
  tx_step Hx as E2. tx_frame E2 ["context_source_snapshots"] as F2. tx_valid E2 V1 as V2. clear E2.
  tx_step Hx as E3. tx_frame E3 ["runs"] as F3. tx_valid E3 V2 as V3.
  eapply insert_row_of in E3 as [_ R3]; [|apply _|reflexivity].
  tx_step Hx as E4. tx_frame E4 ["run_status"] as F4. tx_valid E4 V3 as V4.
  eapply insert_row_of in E4 as [_ R4]; [|apply _|reflexivity].
  tx_step Hx as E5. tx_frame E5 ["tasks"] as F5. tx_valid E5 V4 as V5.
  apply update_revisioned_row in E5 as (-> & t & _ & _ & R5 & N5 & _); [|apply _..|done|done].
  tx_step Hx as E6. apply charge_goal_Ok in E6 as (F6 & V6 & g & R6 & N6); [|done].
  tx_step Hx as E7. tx_frame E7 ["scheduler_state"] as F7. tx_valid E7 V6 as V7.
  apply update_revisioned_row in E7 as (-> & st & R7' & _ & R7 & _ & _); [|apply _..|done|done].
  tx_step Hx as E8. tx_frame E8 ["task_scheduling_state"] as F8. tx_valid E8 V7 as V8.
  apply update_row_of in E8 as (_ & ts & _ & _ & R8 & _ & _); [|apply _..|done|done|done|done].
  apply tx_ret_Ok in Hx as [-> ->]. split; [|done].
  rewrite (row_of_same _ _ _ _ _ _ F6), (row_of_same _ _ _ _ _ _ F5), (row_of_same _ _ _ _ _ _ F4),
    (row_of_same _ _ _ _ _ _ F3), (row_of_same _ _ _ _ _ _ F2), (row_of_same _ _ _ _ _ _ F1) in R7' by elem.
  destruct Hopen as (st' & Hst & Hmode & _). rewrite Hst in R7'. injection R7' as <-. split.
  - rewrite (row_of_same _ _ _ _ _ _ F8), (row_of_same _ _ _ _ _ _ F7), (row_of_same _ _ _ _ _ _ F6),
      (row_of_same _ _ _ _ _ _ F5), (row_of_same _ _ _ _ _ _ F4), R3 by elem. by eexists.
  - rewrite (row_of_same _ _ _ _ _ _ F8), (row_of_same _ _ _ _ _ _ F7), (row_of_same _ _ _ _ _ _ F6),
      (row_of_same _ _ _ _ _ _ F5), R4 by elem. by eexists.
  - rewrite (row_of_same _ _ _ _ _ _ F8), (row_of_same _ _ _ _ _ _ F7), (row_of_same _ _ _ _ _ _ F6), R5 by elem.
    eexists. split; [done|]. rewrite !column_set_clause by done. done.
  - exists g. by rewrite (row_of_same _ _ _ _ _ _ F8), (row_of_same _ _ _ _ _ _ F7) by elem.
  - rewrite (row_of_same _ _ _ _ _ _ F8), R7 by elem. eexists. split; [done|].
    rewrite !column_set_clause by done. done.
  - eexists. split; [done|]. by rewrite column_set_clause.
Qed.
End SchedulingFacts.

(** ** T3 *)

