(* ===== verification/StoreContext.v ===== *)
(** * Context plans ([pantheon-store/src/context.rs])

    The one-time attachment of a ContextPlan to its Run (T3a) and the reads
    deterministic preparation reconstructs its sources through. *)

From Stdlib Require Import ZArith Ascii Lia.
From S2P Require Import Prelude Utf8 Canonical Digest Sql Schema Transaction Command StoreBase StorePlanning.

Record RunRecord : Type := {
  run_id_ : string;
  run_task_id_ : string;
  run_binding_digest : Digest;
  run_source_snapshot_digest : Digest
}.

Record RunContextPlanRecord : Type := {
  rcp_run_id : string;
  rcp_source_snapshot_digest : Digest;
  rcp_plan_digest : Digest
}.

Record GoalRevisionContent : Type := {
  grc_goal_id : string;
  grc_revision : Z;
  grc_content_digest : Digest;
  grc_canonical_json : string
}.

Record ContextPlanAttachment : Type := {
  cpa_run_id : string;
  cpa_source_snapshot_digest : Digest;
  cpa_plan_digest : Digest;
  cpa_builder_version : string;
  cpa_plan_canonical_json : string
}.

Record AttachedContextPlan : Type := { acp_run_id : string; acp_plan_digest : Digest }.

Section Context.
Context `{Sha256}.
Variable schema : Schema.

(** ** Reads *)

Definition run_record (db : Database) (run_id : string) : Result (option RunRecord) StoreError :=
  and_then (read_row schema db "runs" ["task_id"; "binding_digest"; "context_source_snapshot_digest"; "id"]
              (col_is "id" (SText run_id))
              (fun r => let? t := get_text "task_id" r in
                        let? b := get_blob "binding_digest" r in
                        let? s := get_blob "context_source_snapshot_digest" r in Ok (t, b, s)))
    (fun '(task_id, binding, snapshot) =>
       let? binding := digest_from binding "binding_digest" in
       let? snapshot := digest_from snapshot "context_source_snapshot_digest" in
       Ok {| run_id_ := run_id; run_task_id_ := task_id; run_binding_digest := binding;
             run_source_snapshot_digest := snapshot |}).

Definition run_context_plan (db : Database) (run_id : string) :
    Result (option RunContextPlanRecord) StoreError :=
  and_then (read_row schema db "run_context_plans"
              ["context_source_snapshot_digest"; "context_plan_digest"; "run_id"]
              (col_is "run_id" (SText run_id))
              (fun r => let? s := get_blob "context_source_snapshot_digest" r in
                        let? p := get_blob "context_plan_digest" r in Ok (s, p)))
    (fun '(snapshot, plan) =>
       let? snapshot := digest_from snapshot "context_source_snapshot_digest" in
       let? plan := digest_from plan "context_plan_digest" in
       Ok {| rcp_run_id := run_id; rcp_source_snapshot_digest := snapshot; rcp_plan_digest := plan |}).

Definition context_source_snapshot_json (db : Database) (digest : Digest) :
    Result (option string) StoreError :=
  read_row schema db "context_source_snapshots" ["canonical_json"; "digest"]
    (col_is "digest" (digest_blob digest)) (get_text "canonical_json").

(** The stored bytes are refused unless they hash to the digest asked for. *)
Definition configuration_component_json (db : Database) (digest : Digest) :
    Result (option (string * string)) StoreError :=
  and_then (read_row schema db "configuration_components" ["domain"; "canonical_json"; "digest"]
              (col_is "digest" (digest_blob digest))
              (fun r => let? d := get_text "domain" r in
                        let? j := get_text "canonical_json" r in Ok (d, j)))
    (fun '(domain, json) =>
       if bool_decide (digest_of json = digest) then Ok (domain, json)
       else Err (broken "component content no longer hashes to its digest" [domain; to_display digest])).

Definition revision_agents_component_json (db : Database) (activation_sequence : Z) :
    Result (option string) StoreError :=
  and_then (map_err Sqlite
      match flat_map (fun revision =>
              map (fun c => (revision, c))
                (List.filter (col_is "domain" (SText "agents"))
                   (joined db "configuration_components" "digest" (column revision "agents_digest"))))
            (joined db "configuration_revisions" "activation_sequence" (SInteger activation_sequence)) with
      | [] => Ok None
      | (revision, c) :: _ =>
          let? n := get_integer "activation_sequence" revision in
          let? j := get_text "canonical_json" c in Ok (Some (n, j))
      end)
    (fun '(sequence, json) =>
       if (sequence =? activation_sequence)%Z then Ok json
       else Err (broken "configuration revision lookup returned another sequence" [])).

Definition goal_revision_content (db : Database) (goal_id : string) (revision : Z) :
    Result (option GoalRevisionContent) StoreError :=
  and_then (read_row schema db "goal_revisions" ["content_digest"; "canonical_json"; "goal_id"; "revision"]
              (fun r => col_is "goal_id" (SText goal_id) r && col_is "revision" (SInteger revision) r)
              (fun r => let? d := get_blob "content_digest" r in
                        let? j := get_text "canonical_json" r in Ok (d, j)))
    (fun '(content, json) =>
       let? content := digest_from content "content_digest" in
       Ok {| grc_goal_id := goal_id; grc_revision := revision; grc_content_digest := content;
             grc_canonical_json := json |}).

(** ** T3a: the attachment *)

(** [Digest::from_bytes(bytes.try_into().map_err(...)?)] shown in an error that is
    then raised; malformed bytes fail unmarked, with the other error. *)
Definition refuse_digest {A} (bytes : string) (malformed : StoreError) (e : string → StoreError) : Tx A :=
  if Nat.eqb (String.length bytes) 32 then tx_fail (e (to_display (mk_digest bytes)))
  else tx_err malformed.

(** 1. The Run and the source snapshot it froze. *)
Definition check_source (a : ContextPlanAttachment) : Tx unit :=
  let run_id := cpa_run_id a in
  let! run := query_by schema "runs" "id" run_id ["context_source_snapshot_digest"]
    (get_blob "context_source_snapshot_digest") in
  let! run_snapshot := some_or_fail run (RunNotFound run_id) in
  if String.eqb run_snapshot (digest_bytes (cpa_source_snapshot_digest a)) then tx_ret tt
  else refuse_digest run_snapshot (broken "run stores a malformed snapshot digest" [run_id])
    (fun frozen => ContextSourceMismatch run_id frozen (to_display (cpa_source_snapshot_digest a))).

Definition plan_conflict (a : ContextPlanAttachment) (what : string) : StoreError :=
  ContentIdentityConflict "context_plans" (to_display (cpa_plan_digest a)) (message what []).

Definition context_plan_row (now : Z) (a : ContextPlanAttachment) : list (string * SqlValue) :=
  [("digest", digest_blob (cpa_plan_digest a));
   ("source_snapshot_digest", digest_blob (cpa_source_snapshot_digest a));
   ("builder_version", SText (cpa_builder_version a));
   ("canonical_json", SText (cpa_plan_canonical_json a)); ("created_at", SInteger now)].

(** 2 and 3. The bytes hash to the digest; the plan row is inserted or verified. *)
Definition ensure_context_plan (now : Z) (a : ContextPlanAttachment) : Tx unit :=
  do! guard (bool_decide (digest_of (cpa_plan_canonical_json a) = cpa_plan_digest a))
    (plan_conflict a "the plan's canonical bytes do not hash to the claimed digest") in
  do! tx_insert_or_ignore schema "context_plans" ["digest"] (context_plan_row now a) in
  let! stored := query_optional schema "context_plans" ["source_snapshot_digest"; "canonical_json"; "digest"]
    (col_is "digest" (digest_blob (cpa_plan_digest a)))
    (fun r => let? s := get_blob "source_snapshot_digest" r in
              let? j := get_text "canonical_json" r in Ok (s, j)) in
  let! (stored_snapshot, stored_json) := some_or_fail stored
    (broken "context_plans insert reported success but the row is unreadable" []) in
  do! guard (String.eqb stored_json (cpa_plan_canonical_json a))
    (plan_conflict a "an existing plan row under this digest holds different canonical content") in
  guard (String.eqb stored_snapshot (digest_bytes (cpa_source_snapshot_digest a)))
    (broken "context_plans row pairs the claimed digest with another source snapshot" []).

Definition run_context_plan_row (now : Z) (a : ContextPlanAttachment) : list (string * SqlValue) :=
  [("run_id", SText (cpa_run_id a));
   ("context_source_snapshot_digest", digest_blob (cpa_source_snapshot_digest a));
   ("context_plan_digest", digest_blob (cpa_plan_digest a)); ("attached_at", SInteger now)].

(** 4. Attached exactly once. *)
Definition attach_once (now : Z) (a : ContextPlanAttachment) : Tx unit :=
  let run_id := cpa_run_id a in
  let! existing := query_by schema "run_context_plans" "run_id" run_id ["context_plan_digest"]
    (get_blob "context_plan_digest") in
  match existing with
  | Some existing =>
      if String.eqb existing (digest_bytes (cpa_plan_digest a)) then tx_ret tt
      else refuse_digest existing (broken "run has a malformed attached plan digest" [run_id])
        (fun attached => RunContextPlanConflict run_id attached (to_display (cpa_plan_digest a)))
  | None => do! tx_insert schema "run_context_plans" (run_context_plan_row now a) in tx_ret tt
  end.

Definition apply_attachment (amb : Ambient) (a : ContextPlanAttachment) : Tx AttachedContextPlan :=
  do! check_source a in
  do! ensure_context_plan (amb_now amb) a in
  do! attach_once (amb_now amb) a in
  tx_ret {| acp_run_id := cpa_run_id a; acp_plan_digest := cpa_plan_digest a |}.
End Context.

(** ** Lemmas *)

#[export] Instance run_context_plans_keyed : Keyed MIGRATIONS "run_context_plans" "run_id".
Proof. solve_keyed. Qed.

Section ContextFacts.
Context `{Sha256}.

Lemma check_source_Ok a w u w' :
  check_source MIGRATIONS a w = (Ok u, w') → w' = w ∧
  ∃ r, row_of (w_db w) "runs" "id" (cpa_run_id a) = Some r ∧
    column r "context_source_snapshot_digest" = digest_blob (cpa_source_snapshot_digest a).
Proof.
  unfold check_source. intros Hx. tx_step Hx as Eq. tx_step Hx as Es. subst a0.
  apply query_by_Some in Eq as [-> (r & Hr & D%get_blob_Ok)].
  destruct (String.eqb_spec a1 (digest_bytes (cpa_source_snapshot_digest a))) as [->|].
  - apply tx_ret_Ok in Hx as [_ ->]. eauto.
  - unfold refuse_digest in Hx. by destruct (Nat.eqb _ _).
Qed.

(** The plan's bytes, stored under the digest they hash to. *)
Definition plan_stored (db : Database) (a : ContextPlanAttachment) : Prop :=
  ∃ r, r ∈ rows db "context_plans" ∧ column r "digest" = digest_blob (cpa_plan_digest a) ∧
    column r "canonical_json" = SText (cpa_plan_canonical_json a) ∧
    column r "source_snapshot_digest" = digest_blob (cpa_source_snapshot_digest a).

Lemma ensure_context_plan_Ok now a w u w' :
  ensure_context_plan MIGRATIONS now a w = (Ok u, w') →
  same_outside ["context_plans"] (w_db w) (w_db w') ∧
  digest_of (cpa_plan_canonical_json a) = cpa_plan_digest a ∧ plan_stored (w_db w') a.
Proof.
  unfold ensure_context_plan. intros Hx. tx_frame Hx ["context_plans"] as F. split; [done|].
  tx_step Hx as Eg. apply bool_decide_eq_true in Eg. tx_step Hx as Ei. tx_step Hx as Eq. tx_step Hx as Es. subst a1.
  apply query_optional_Some in Eq as [-> (r & Hr & [_ Hd]%col_is_true & D)]. destruct a2 as [sn js]. decode_inv D.
  tx_step Hx as Ej. apply guard_passed in Hx as [Hs ->]. apply String.eqb_eq in Ej as ->. apply String.eqb_eq in Hs as ->.
  split; [done|]. by exists r.
Qed.

Definition attached (db : Database) (a : ContextPlanAttachment) : Prop :=
  ∃ r, row_of db "run_context_plans" "run_id" (cpa_run_id a) = Some r ∧
    column r "context_plan_digest" = digest_blob (cpa_plan_digest a).

Lemma attach_once_Ok now a w u w' :
  attach_once MIGRATIONS now a w = (Ok u, w') →
  same_outside ["run_context_plans"] (w_db w) (w_db w') ∧
  (row_of (w_db w) "run_context_plans" "run_id" (cpa_run_id a) = None ∨ attached (w_db w) a) ∧
  attached (w_db w') a.
Proof.
  unfold attach_once. intros Hx. tx_step Hx as Eq. destruct a0 as [existing|].
  - apply query_by_Some in Eq as [-> (r & Hr & D%get_blob_Ok)].
    destruct (String.eqb_spec existing (digest_bytes (cpa_plan_digest a))) as [->|].
    2: { unfold refuse_digest in Hx. by destruct (Nat.eqb _ _). }
    apply tx_ret_Ok in Hx as [_ ->]. split_and!; [done|right|]; by exists r.
  - apply query_by_Ok in Eq as [-> Hq]. tx_frame Hx ["run_context_plans"] as F. tx_step Hx as Ei.
    apply tx_ret_Ok in Hx as [_ ->]. eapply insert_row_of in Ei as [Hn Hs]; [|apply _|reflexivity].
    split_and!; [done|by left|]. eexists. split; [done|reflexivity].
Qed.
End ContextFacts.

(** ** T3a *)

(** A plan is attached to a Run only when it was built from the snapshot that
    Run froze and its bytes hash to the digest it claims; the plan is then stored
    under that digest and attached; and a Run that already had a plan had exactly
    this one: an attachment is never replaced. *)
Theorem attachment_exact `{Sha256} d amb c a conn out cursor conn' :
  execute_command MIGRATIONS d amb c (apply_attachment MIGRATIONS amb a) conn = (Ok (Executed out cursor), conn') →
  (∃ r, row_of (conn_db conn) "runs" "id" (cpa_run_id a) = Some r ∧
     column r "context_source_snapshot_digest" = digest_blob (cpa_source_snapshot_digest a)) ∧
  digest_of (cpa_plan_canonical_json a) = cpa_plan_digest a ∧
  (row_of (conn_db conn) "run_context_plans" "run_id" (cpa_run_id a) = None ∨ attached (conn_db conn) a) ∧
  plan_stored (conn_db conn') a ∧ attached (conn_db conn') a.
Proof.
  intros Hx. apply executed_body in Hx as (w & Hw & Hs). unfold apply_attachment in Hw. tx_step Hw as E1.
  apply check_source_Ok in E1 as [-> H1]. tx_step Hw as E2. apply ensure_context_plan_Ok in E2 as (F2 & Hd & P2).
  tx_step Hw as E3. apply attach_once_Ok in E3 as (F3 & Hn & Ha). apply tx_ret_Ok in Hw as [_ ->].
  split_and!; [done|done| | |].
  - unfold attached in Hn. by rewrite (row_of_same _ _ _ _ _ _ F2) in Hn by elem.
  - unfold plan_stored in *. by rewrite (Hs "context_plans"), (F3 "context_plans") by elem.
  - unfold attached. by rewrite (row_of_same _ _ _ _ _ _ Hs) by elem.
Qed.
