(* ===== verification/StoreAgentControl.v ===== *)
(** * Agent Control ([pantheon-store/src/agent_control.rs])

    The session authentication fence, the idempotency ledger of worker requests,
    and the Candidate submission transaction (T6). *)

From Stdlib Require Import ZArith Ascii Lia.
From S2P Require Import Prelude Utf8 Canonical Parse Digest Task Candidate Sql Schema Transaction Command StoreBase StorePlanning StoreWorkspace.

Definition REQUEST_TABLE : string := "agent_requests".

Inductive AgentOperation : Type := SealArtifact | SubmitResult.

Definition agent_operation_as_str (o : AgentOperation) : string :=
  match o with
  | SealArtifact => "artifact.seal"
  | SubmitResult => "task.submit_result"
  end.

Record AgentCredential : Type := { cred_attempt_id : string; cred_verifier : string }.

Inductive AgentRequestState : Type :=
| Started
| Succeeded (result_ref : string)
| Failed (problem_code : string).

Definition request_state_from (state : string) (result_ref problem_code : option string) :
    Result AgentRequestState StoreError :=
  if String.eqb state "STARTED" then Ok Started
  else if String.eqb state "SUCCEEDED" then
    let? r := ok_or result_ref (broken "a SUCCEEDED agent request stores no result ref" [state]) in
    Ok (Succeeded r)
  else if String.eqb state "FAILED" then
    let? c := ok_or problem_code (broken "a FAILED agent request stores no problem code" [state]) in
    Ok (Failed c)
  else Err (broken "agent_requests stores an unknown state" [state]).

Inductive AgentRequestOpened : Type :=
| RequestStarted
| RequestReconciled (state : AgentRequestState).

Record DeclaredOutput : Type := {
  declared_name : string;
  declared_kind : string;
  declared_required : bool
}.

Record AgentSessionDescription : Type := {
  asd_session_id : string;
  asd_attempt_id : string;
  asd_run_id : string;
  asd_task_id : string;
  asd_task_phase : string;
  asd_task_revision : Z;
  asd_outputs : list DeclaredOutput
}.

Record CandidateSubmission : Type := {
  sub_credential : AgentCredential;
  sub_request_id : string;
  sub_request_hash : string;
  sub_candidate : CandidateResult;
  sub_expected_task_revision : Z
}.

Record CandidateCommitted : Type := {
  cc_candidate_digest : string;
  cc_task_revision : Z;
  cc_run_revision : Z
}.

Record SubmissionOutcome : Type := { so_committed : CandidateCommitted; so_reconciled : bool }.

Record SubmissionContext : Type := { sctx_run_id : string; sctx_task_id : string }.

Inductive SessionFacts : Type :=
| Authorized
| SessionAbsent
| GenerationFenced
| NotActive (state : string)
| VerifierMismatch.

Section AgentControl.
Context `{Sha256}.
Variable schema : Schema.

(** ** The authentication fence *)

(** [restore_generation = (SELECT restore_generation FROM system_state WHERE id = 1)];
    without that row the comparison is NULL and does not decode. *)
Definition generation_current (db : Database) (s : Row) : Result bool SqliteError :=
  match joined db "system_state" "id" (SInteger 1) with
  | g :: _ => Ok (bool_decide (column s "restore_generation" = column g "restore_generation"))
  | [] => Err (InvalidColumnType "restore_generation")
  end.

Definition session_rows (db : Database) (attempt_id : string) : list Row :=
  joined db "agent_control_sessions" "attempt_id" (SText attempt_id).

Definition session_facts (db : Database) (attempt_id : string) :
    Result (option (string * bool)) SqliteError :=
  match session_rows db attempt_id with
  | [] => Ok None
  | s :: _ => let? state := get_text "state" s in
              let? current := generation_current db s in Ok (Some (state, current))
  end.

Definition judge_session (c : AgentCredential) : Tx SessionFacts :=
  let! facts := tx_query (fun db => session_facts db (cred_attempt_id c)) in
  match facts with
  | None => tx_ret SessionAbsent
  | Some (state, current) =>
      if negb current then tx_ret GenerationFenced
      else if negb (String.eqb state "ACTIVE") then tx_ret (NotActive state)
      else
        let! matches := tx_query (fun db =>
          match session_rows db (cred_attempt_id c) with
          | [] => Ok None
          | s :: _ => Ok (Some (bool_decide (column s "credential_hash" = SBlob (cred_verifier c))))
          end) in
        match matches with
        | Some true => tx_ret Authorized
        | Some false => tx_ret VerifierMismatch
        | None => tx_ret SessionAbsent
        end
  end.

Definition session_absent : string := "no AgentControlSession exists for the Attempt".
Definition generation_old : string := "the session belongs to an older RestoreGeneration".
Definition session_not_active : string := "the session is not ACTIVE".
Definition bearer_mismatch : string := "the presented bearer does not match the session verifier".

Definition authenticate_agent_session (c : AgentCredential) : Tx unit :=
  let unauthorized reason := AgentControlUnauthorized (cred_attempt_id c) reason in
  let! facts := judge_session c in
  match facts with
  | Authorized => tx_ret tt
  | SessionAbsent => tx_err (unauthorized session_absent)
  | GenerationFenced => tx_err (unauthorized generation_old)
  | NotActive state =>
      tx_err (unauthorized (if String.eqb state "REVOKED" then "the session is REVOKED" else session_not_active))
  | VerifierMismatch => tx_err (unauthorized bearer_mismatch)
  end.

(** ** Authenticated reads *)

(** The fence both reads apply, on one snapshot. *)
Definition authenticate_read (db : Database) (c : AgentCredential) : Result unit StoreError :=
  let unauthorized reason := AgentControlUnauthorized (cred_attempt_id c) reason in
  let? facts := map_err Sqlite (session_facts db (cred_attempt_id c)) in
  let? (state, current) := ok_or facts (unauthorized session_absent) in
  if negb current then Err (unauthorized generation_old)
  else if negb (String.eqb state "ACTIVE") then Err (unauthorized session_not_active)
  else if existsb (col_is "credential_hash" (SBlob (cred_verifier c))) (session_rows db (cred_attempt_id c))
  then Ok tt
  else Err (unauthorized bearer_mismatch).

Definition agent_submission_context (db : Database) (c : AgentCredential) :
    Result SubmissionContext StoreError :=
  do? authenticate_read db c in
  let? lineage := map_err Sqlite
    match flat_map (fun a => joined db "run_status" "run_id" (column a "run_id"))
            (joined db "attempts" "id" (SText (cred_attempt_id c))) with
    | [] => Ok None
    | rs :: _ => let? run := get_text "run_id" rs in
                 let? task := get_text "task_id" rs in Ok (Some (run, task))
    end in
  let? (run_id, task_id) := ok_or lineage
    (SubmissionStaleAuthority (cred_attempt_id c) (message "the Attempt has no Run" [])) in
  Ok {| sctx_run_id := run_id; sctx_task_id := task_id |}.

(** The session, Attempt, Run and Task rows that agree the Attempt is current. *)
Definition described_rows (db : Database) (attempt_id : string) : list (Row * Row * Row) :=
  flat_map (fun acs =>
    flat_map (fun a =>
      flat_map (fun _ =>
        flat_map (fun rs => map (fun t => (acs, rs, t))
            (List.filter (fun t => col_is "phase" (SText "Active") t
                                   && col_is "active_run_id" (column a "run_id") t)
               (joined db "tasks" "id" (column rs "task_id"))))
          (List.filter (fun rs => col_is "phase" (SText "Active") rs
                                  && col_is "current_attempt_id" (column acs "attempt_id") rs)
             (joined db "run_status" "run_id" (column a "run_id"))))
        (List.filter (col_is "terminal" (SInteger 0))
           (joined db "attempt_status" "attempt_id" (column a "id"))))
      (joined db "attempts" "id" (column acs "attempt_id")))
    (session_rows db attempt_id).

Definition declared_output (o : TaskOutput) : DeclaredOutput :=
  {| declared_name := output_name o; declared_kind := output_kind o; declared_required := output_required o |}.

Definition describe_agent_session (db : Database) (c : AgentCredential) :
    Result AgentSessionDescription StoreError :=
  do? authenticate_read db c in
  let? lineage := map_err Sqlite
    match described_rows db (cred_attempt_id c) with
    | [] => Ok None
    | (acs, rs, t) :: _ =>
        let? session := get_text "id" acs in
        let? run := get_text "run_id" rs in
        let? task := get_text "id" t in
        let? phase := get_text "phase" t in
        let? revision := get_integer "revision" t in
        let? spec := get_blob "spec_digest" t in Ok (Some (session, run, task, phase, revision, spec))
    end in
  let? (session_id, run_id, task_id, phase, revision, spec_digest) := ok_or lineage
    (AgentControlUnauthorized (cred_attempt_id c) "the Attempt no longer carries current Run/Task authority") in
  let? json := read_row schema db "task_specs" ["canonical_json"; "digest"]
    (col_is "digest" (SBlob spec_digest)) (get_text "canonical_json") in
  let? spec_json := ok_or json (Sqlite QueryReturnedNoRows) in
  let? spec := map_err (fun _ => CandidateInvalid (message "the specification cannot be decoded" []))
    (task_from_canonical_json spec_json) in
  Ok {| asd_session_id := session_id; asd_attempt_id := cred_attempt_id c; asd_run_id := run_id;
        asd_task_id := task_id; asd_task_phase := phase; asd_task_revision := revision;
        asd_outputs := map declared_output (task_outputs spec) |}.

(** ** The request ledger *)

Definition request_where (attempt_id request_id : string) (r : Row) : bool :=
  col_is "attempt_id" (SText attempt_id) r && col_is "request_id" (SText request_id) r.

(** The recorded hash and state of a request, if it was recorded. *)
Definition lookup_request (attempt_id request_id : string) : Tx (option (string * AgentRequestState)) :=
  let! raw := query_optional schema "agent_requests"
    ["request_hash"; "state"; "result_ref"; "problem_code"; "attempt_id"; "request_id"]
    (request_where attempt_id request_id)
    (fun r => let? h := get_blob "request_hash" r in
              let? s := get_text "state" r in
              let? ref := get_optional_text "result_ref" r in
              let? code := get_optional_text "problem_code" r in Ok (h, s, ref, code)) in
  match raw with
  | None => tx_ret None
  | Some (hash, state, ref, code) =>
      let! state := tx_try (request_state_from state ref code) in tx_ret (Some (hash, state))
  end.

Definition request_row (now : Z) (attempt_id request_id hash operation state : string)
    (result_ref : option string) : list (string * SqlValue) :=
  [("attempt_id", SText attempt_id); ("request_id", SText request_id); ("request_hash", SBlob hash);
   ("operation", SText operation); ("state", SText state); ("result_ref", text_or_null result_ref);
   ("problem_code", SNull); ("created_at", SInteger now); ("updated_at", SInteger now)].

Definition open_agent_request (amb : Ambient) (c : AgentCredential) (operation : AgentOperation)
    (request_id request_hash : string) : Tx AgentRequestOpened :=
  do! authenticate_agent_session c in
  let! existing := lookup_request (cred_attempt_id c) request_id in
  match existing with
  | Some (hash, state) =>
      do! guard (String.eqb hash request_hash) (AgentRequestConflict (cred_attempt_id c) request_id) in
      tx_ret (RequestReconciled state)
  | None =>
      let! now := now amb in
      do! tx_insert schema "agent_requests"
            (request_row now (cred_attempt_id c) request_id request_hash
               (agent_operation_as_str operation) "STARTED" None) in
      tx_ret RequestStarted
  end.

Definition request_columns : list string :=
  ["state"; "result_ref"; "problem_code"; "updated_at"; "attempt_id"; "request_id"].

Definition succeed_request (now : Z) (result_ref : string) (r : Row) : Row :=
  <["state" := SText "SUCCEEDED"]> (<["result_ref" := SText result_ref]>
  (<["problem_code" := SNull]> (<["updated_at" := SInteger now]> r))).

Definition refuse_request (now : Z) (problem_code : string) (r : Row) : Row :=
  <["state" := SText "FAILED"]> (<["problem_code" := SText problem_code]>
  (<["result_ref" := SNull]> (<["updated_at" := SInteger now]> r))).

Definition started_where (attempt_id request_id : string) (r : Row) : bool :=
  request_where attempt_id request_id r && col_is "state" (SText "STARTED") r.

Definition complete_agent_request (amb : Ambient) (c : AgentCredential) (request_id result_ref : string) :
    Tx unit :=
  do! authenticate_agent_session c in
  let! now := now amb in
  let! updated := tx_update schema "agent_requests" request_columns
    (started_where (cred_attempt_id c) request_id) (succeed_request now result_ref) in
  if Nat.ltb 0 updated then tx_ret tt
  else
    let! current := query_optional schema "agent_requests" ["state"; "attempt_id"; "request_id"]
      (request_where (cred_attempt_id c) request_id) (get_text "state") in
    match current with
    | Some state =>
        guard (String.eqb state "SUCCEEDED")
          (broken "success cannot overwrite the agent request's state" [request_id; state])
    | None => tx_fail (broken "agent request has no row to complete" [request_id])
    end.

Definition fail_agent_request (amb : Ambient) (c : AgentCredential) (request_id problem_code : string) :
    Tx unit :=
  do! authenticate_agent_session c in
  let! now := now amb in
  do! tx_update schema "agent_requests" request_columns
        (started_where (cred_attempt_id c) request_id) (refuse_request now problem_code) in
  tx_ret tt.

(** ** T6: the preconditions *)

Definition stale (c : AgentCredential) (what : string) (values : list string) : StoreError :=
  SubmissionStaleAuthority (cred_attempt_id c) (message what values).

Definition invalid (what : string) (values : list string) : StoreError :=
  CandidateInvalid (message what values).

(** The Run of a nonterminal Attempt. *)
Definition attempt_run (c : AgentCredential) : Tx string :=
  let! attempt := tx_query (fun db =>
    match flat_map (fun a => map (fun st => (a, st)) (joined db "attempt_status" "attempt_id" (column a "id")))
            (joined db "attempts" "id" (SText (cred_attempt_id c))) with
    | [] => Ok None
    | (a, st) :: _ => let? run := get_text "run_id" a in
                      let? terminal := get_integer "terminal" st in Ok (Some (run, terminal))
    end) in
  let! (run_id, terminal) := some_or_fail attempt (stale c "the Attempt does not exist" []) in
  do! guard (terminal =? 0)%Z (stale c "the Attempt is terminal" []) in
  tx_ret run_id.

(** The Run is [Active], holds the slot, and the Attempt is its current one. *)
Definition responsible_run (c : AgentCredential) (run_id : string) : Tx (string * Z) :=
  let! run := query_by schema "run_status" "run_id" run_id
    ["task_id"; "phase"; "active_slot"; "revision"; "current_attempt_id"]
    (fun r => let? t := get_text "task_id" r in
              let? p := get_text "phase" r in
              let? s := get_optional_text "active_slot" r in
              let? n := get_integer "revision" r in
              let? a := get_optional_text "current_attempt_id" r in Ok (t, p, s, n, a)) in
  let! (task_id, phase, slot, revision, current) :=
    some_or_fail run (stale c "the Attempt's Run has no status row" []) in
  do! guard (String.eqb phase "Active" && negb (bool_decide (slot = None)))
    (stale c "the Run is not Active" [phase]) in
  do! guard (bool_decide (current = Some (cred_attempt_id c)))
    (stale c "the Attempt is no longer the Run's current one" []) in
  tx_ret (task_id, revision).

(** The Task is [Active] under that Run, in a Goal that still takes work, at the
    observed revision. *)
Definition submittable_task (c : AgentCredential) (run_id task_id : string) (expected : Z) : Tx string :=
  let! task := query_by schema "tasks" "id" task_id ["phase"; "active_run_id"; "revision"; "spec_digest"]
    (fun r => let? p := get_text "phase" r in
              let? a := get_optional_text "active_run_id" r in
              let? n := get_integer "revision" r in
              let? d := get_blob "spec_digest" r in Ok (p, a, n, d)) in
  let! (phase, active_run, revision, spec_digest) :=
    some_or_fail task (stale c "the Run's Task no longer exists" []) in
  do! guard (String.eqb phase "Active") (stale c "the Task is not Active" [phase]) in
  do! guard (bool_decide (active_run = Some run_id))
    (stale c "the Task's responsible-Run pointer moved" []) in
  let! goal_phase := tx_query (fun db =>
    match joined db "tasks" "id" (SText task_id) with
    | [] => Ok None
    | t :: _ => match joined db "goals" "id" (column t "goal_id") with
                | [] => Ok None
                | g :: _ => let? p := get_text "phase" g in Ok (Some p)
                end
    end) in
  do! guard (match goal_phase with Some p => contains ["Planning"; "Active"; "Evaluating"] p | None => false end)
    (stale c "Task submission authority is gone with the Goal" [default "absent" goal_phase]) in
  do! guard (revision =? expected)%Z (RevisionConflict "tasks" task_id expected (Some revision)) in
  tx_ret spec_digest.

Definition stored_spec (spec_digest : string) : Tx TaskSpec :=
  let! json := query_blob_key schema "task_specs" "digest" spec_digest ["canonical_json"]
    (get_text "canonical_json") in
  let! json := tx_some json (InvariantViolated (Broken "the task's stored specification is not present")) in
  tx_try (map_err (fun _ => invalid "the specification cannot be decoded" []) (task_from_canonical_json json)).

(** The payload digests a stored manifest names. *)
Definition referenced_blobs (entries : list Value) : Result (list string) StoreError :=
  let sides := flat_map (fun entry => omap (fun side =>
      match get entry side with
      | Some state => match get state "blob" with
                      | Some (Str blob) => Some (side, blob)
                      | _ => None
                      end
      | None => None
      end) ["before"; "after"]) entries in
  collect (fun '(side, blob) =>
      let? d := ok_or (from_display blob) (invalid "unparsable blob reference" [side]) in
      Ok (digest_bytes d)) sides.

(** Sorting both lists and searching the sorted members decides membership. *)
Definition ensure_artifact_complete (o : CandidateOutput) (canonical_json : string) : Tx unit :=
  let artifact := to_display (co_artifact o) in
  let! manifest := tx_try (map_err (fun _ => invalid "artifact does not parse" [artifact]) (parse canonical_json)) in
  let! entries := match default Null (get manifest "entries") with
                  | Array entries => tx_ret entries
                  | _ => tx_err (invalid "artifact has no readable entries" [artifact])
                  end in
  let! referenced := tx_try (referenced_blobs entries) in
  let! members := query_all schema "artifact_members" ["blob_digest"; "artifact_digest"]
    (col_is "artifact_digest" (digest_blob (co_artifact o))) (get_blob "blob_digest") in
  if forallb (contains members) referenced then tx_ret tt
  else tx_err (invalid "the manifest references payload absent from its stored members" [artifact]).

(** [validate_against_spec] has already proved the slot is declared. *)
Definition declared_slot (spec : TaskSpec) (name : string) : Tx TaskOutput :=
  tx_some (declared spec name)
    (InvariantViolated (Broken "validate_against_spec already proved the slot is declared")).

(** One output: an existing, permitted, complete Artifact this Run produced for
    this slot. *)
Definition check_output (spec : TaskSpec) (run_id : string) (o : CandidateOutput) : Tx unit :=
  let! artifact := query_blob_key schema "artifacts" "digest" (digest_bytes (co_artifact o))
    ["artifact_kind"; "canonical_json"]
    (fun r => let? k := get_text "artifact_kind" r in
              let? j := get_text "canonical_json" r in Ok (k, j)) in
  let! (kind, json) := some_or_fail artifact
    (invalid "output references an artifact which does not exist" [co_slot o; to_display (co_artifact o)]) in
  let! slot := declared_slot spec (co_slot o) in
  do! tx_try (map_err (fun _ => invalid "the slot does not permit this kind" [co_slot o; kind])
                (kind_permitted slot kind)) in
  do! ensure_artifact_complete o json in
  let! provenance := query_optional schema "production_records" ["artifact_digest"; "run_id"; "output_slot"]
    (fun r => col_is "run_id" (SText run_id) r && col_is "output_slot" (SText (co_slot o)) r)
    (get_blob "artifact_digest") in
  match provenance with
  | Some digest =>
      guard (String.eqb digest (digest_bytes (co_artifact o)))
        (CandidateProvenanceInvalid (message "the run's slot produced another artifact" [run_id; co_slot o]))
  | None =>
      tx_fail (CandidateProvenanceInvalid (message "the run has no production record for the slot"
                                             [run_id; co_slot o]))
  end.

(** ** T6: the writes *)

Definition candidate_row (now : Z) (task_id run_id : string) (c : CandidateResult) : list (string * SqlValue) :=
  [("digest", digest_blob (candidate_digest c)); ("task_id", SText task_id); ("run_id", SText run_id);
   ("canonical_json", SText (candidate_to_canonical_json c)); ("created_at", SInteger now)].

Definition candidate_output_row (run_id : string) (c : CandidateResult) (o : CandidateOutput) :
    list (string * SqlValue) :=
  [("candidate_digest", digest_blob (candidate_digest c)); ("output_slot", SText (co_slot o));
   ("artifact_digest", digest_blob (co_artifact o)); ("production_run_id", SText run_id)].

(** The Candidate of a Run is created once. *)
Definition create_candidate (now : Z) (task_id run_id : string) (c : CandidateResult) : Tx unit :=
  let! existing := query_by schema "candidates" "run_id" run_id ["canonical_json"] (get_text "canonical_json") in
  do! guard (bool_decide (existing = None)) (CandidateExists run_id (to_display (candidate_digest c))) in
  do! tx_insert schema "candidates" (candidate_row now task_id run_id c) in
  tx_for_each (fun o => do! tx_insert schema "candidate_outputs" (candidate_output_row run_id c o) in tx_ret tt)
    (cr_outputs c).

Definition record_outcome (now : Z) (s : CandidateSubmission) (prior_row : bool) : Tx unit :=
  let attempt_id := cred_attempt_id (sub_credential s) in
  let result_ref := to_display (candidate_digest (sub_candidate s)) in
  if prior_row
  then do! tx_update schema "agent_requests" request_columns (request_where attempt_id (sub_request_id s))
             (succeed_request now result_ref) in tx_ret tt
  else do! tx_insert schema "agent_requests"
             (request_row now attempt_id (sub_request_id s) (sub_request_hash s) "task.submit_result"
                "SUCCEEDED" (Some result_ref)) in tx_ret tt.

Definition load_committed_outcome (c : CandidateResult) (digest : Digest) : Tx CandidateCommitted :=
  let! exists_ := query_optional schema "candidates" ["canonical_json"; "digest"; "run_id"]
    (fun r => col_is "digest" (digest_blob digest) r && col_is "run_id" (SText (cr_run_id c)) r)
    (get_text "canonical_json") in
  do! match exists_ with
      | Some stored_json =>
          guard (String.eqb stored_json (candidate_to_canonical_json c))
            (ContentIdentityConflict REQUEST_TABLE (to_display digest)
               (message "a recorded agent-request outcome names a candidate whose content disagrees" []))
      | None => tx_fail (broken "an agent request references a candidate which is not stored" [to_display digest])
      end in
  let! task_revision := query_by schema "tasks" "id" (cr_task_id c) ["revision"] (get_integer "revision") in
  let! run_revision := query_by schema "run_status" "run_id" (cr_run_id c) ["revision"] (get_integer "revision") in
  tx_ret {| cc_candidate_digest := to_display digest; cc_task_revision := default 0%Z task_revision;
            cc_run_revision := default 0%Z run_revision |}.

(** Everything current authority depends on is read again: the Run, the Task and
    the Run's status revision the submission acts on. *)
Definition submission_authority (s : CandidateSubmission) : Tx (string * string * Z) :=
  let c := sub_credential s in
  let candidate := sub_candidate s in
  let! run_id := attempt_run c in
  let! (task_id, run_revision) := responsible_run c run_id in
  let! spec_digest := submittable_task c run_id task_id (sub_expected_task_revision s) in
  do! guard (String.eqb (cr_run_id candidate) run_id && String.eqb (cr_task_id candidate) task_id)
    (invalid "the candidate binds another task or run than the authenticated lineage"
       [cr_task_id candidate; cr_run_id candidate; task_id; run_id]) in
  let! spec := stored_spec spec_digest in
  do! tx_try (map_err (fun _ => invalid "the candidate does not match the specification" [])
                (validate_against_spec candidate spec)) in
  do! tx_for_each (check_output spec run_id) (cr_outputs candidate) in
  tx_ret (run_id, task_id, run_revision).

(** Every effect, committed together. *)
Definition commit_submission (amb : Ambient) (s : CandidateSubmission) (prior_row : bool)
    (run_id task_id : string) (run_revision : Z) : Tx SubmissionOutcome :=
  let candidate := sub_candidate s in
  let! now := now amb in
  do! create_candidate now task_id run_id candidate in
  let! new_run_revision := update_revisioned_by schema "run_status" "run_id" run_id run_revision
    [("phase", SText "Finalizing"); ("terminal_target", SText "Completed");
     ("candidate_digest", digest_blob (candidate_digest candidate)); ("updated_at", SInteger now)] in
  let! new_task_revision := update_revisioned schema "tasks" task_id (sub_expected_task_revision s)
    [("phase", SText "Evaluating")] in
  do! record_outcome now s prior_row in
  do! append_internal_event schema amb "candidate.submitted" in
  tx_ret {| so_committed := {| cc_candidate_digest := to_display (candidate_digest candidate);
                               cc_task_revision := new_task_revision; cc_run_revision := new_run_revision |};
            so_reconciled := false |}.

Definition submit_fresh (amb : Ambient) (s : CandidateSubmission) (prior_row : bool) : Tx SubmissionOutcome :=
  let! (run_id, task_id, run_revision) := submission_authority s in
  commit_submission amb s prior_row run_id task_id run_revision.

Definition apply_candidate_submission (amb : Ambient) (s : CandidateSubmission) : Tx SubmissionOutcome :=
  do! authenticate_agent_session (sub_credential s) in
  let attempt_id := cred_attempt_id (sub_credential s) in
  let! existing := lookup_request attempt_id (sub_request_id s) in
  match existing with
  | None => submit_fresh amb s false
  | Some (hash, state) =>
      do! guard (String.eqb hash (sub_request_hash s)) (AgentRequestConflict attempt_id (sub_request_id s)) in
      match state with
      | Succeeded result_ref =>
          let! digest := tx_some (from_display result_ref)
            (broken "agent request stores an unparsable result ref" [result_ref]) in
          let! committed := load_committed_outcome (sub_candidate s) digest in
          tx_ret {| so_committed := committed; so_reconciled := true |}
      | Started | Failed _ => submit_fresh amb s true
      end
  end.
End AgentControl.

(** ** Lemmas *)

Lemma joined_text db table c k r rest :
  joined db table c (SText k) = r :: rest → row_of db table c k = Some r.
Proof. unfold joined, row_of. by intros ->. Qed.

Lemma joined_row_of db table kc k `{!Keyed MIGRATIONS table kc} :
  valid MIGRATIONS db → joined db table kc (SText k) = match row_of db table kc k with
                                                       | Some r => [r]
                                                       | None => []
                                                       end.
Proof.
  intros Hv. pose proof (filter_key_le MIGRATIONS db table kc (SText k) Hv) as Hl. unfold joined, row_of.
  destruct (List.filter _ _) as [|r [|s l]]; cbn in Hl; [done|done|lia].
Qed.

Section AgentControlFacts.
Context `{Sha256}.

Lemma authenticate_unchanged c w u w' : authenticate_agent_session c w = (Ok u, w') → w' = w.
Proof.
  unfold authenticate_agent_session, judge_session. intros Hx. tx_step Hx as Ej. tx_step Ej as Eq.
  apply tx_query_Ok in Eq as [_ ->]. destruct a0 as [[state current]|]; [|by apply tx_ret_Ok in Ej as [-> ->]].
  destruct (negb current); [by apply tx_ret_Ok in Ej as [-> ->]|].
  destruct (negb (String.eqb state "ACTIVE")); [by apply tx_ret_Ok in Ej as [-> ->]|].
  tx_step Ej as Em. apply tx_query_Ok in Em as [_ ->].
  destruct a0 as [[]|]; apply tx_ret_Ok in Ej as [-> ->]; try done. by apply tx_ret_Ok in Hx as [_ ->].
Qed.

(** What the fence establishes: the Attempt's session is [ACTIVE], of the current
    generation, and its verifier is the one presented. *)
Definition authentic (db : Database) (c : AgentCredential) : Prop :=
  ∃ s g, row_of db "agent_control_sessions" "attempt_id" (cred_attempt_id c) = Some s ∧
    column s "state" = SText "ACTIVE" ∧ column s "credential_hash" = SBlob (cred_verifier c) ∧
    head (joined db "system_state" "id" (SInteger 1)) = Some g ∧
    column s "restore_generation" = column g "restore_generation".

Lemma authenticate_Ok c w u w' : authenticate_agent_session c w = (Ok u, w') → authentic (w_db w) c.
Proof.
  unfold authenticate_agent_session, judge_session. intros Hx. tx_step Hx as Ej. tx_step Ej as Eq.
  apply tx_query_Ok in Eq as [Hf ->]. unfold session_facts, session_rows in Hf.
  destruct (joined (w_db w) "agent_control_sessions" _ _) as [|s rest] eqn:Es.
  { injection Hf as <-. by apply tx_ret_Ok in Ej as [-> ->]. }
  apply try_bind_Ok in Hf as (state & Hst%get_text_Ok & Hf). apply try_bind_Ok in Hf as (current & Hg & [= <-]).
  unfold generation_current in Hg. destruct (joined (w_db w) "system_state" _ _) as [|g gs] eqn:Eg; [done|].
  injection Hg as Hg. destruct current; cbn [negb] in Ej; [|by apply tx_ret_Ok in Ej as [-> ->]].
  destruct (String.eqb_spec state "ACTIVE") as [->|]; cbn [negb] in Ej; [|by apply tx_ret_Ok in Ej as [-> ->]].
  tx_step Ej as Em. apply tx_query_Ok in Em as [Hm ->]. unfold session_rows in Hm. rewrite Es in Hm.
  injection Hm as <-. case_bool_decide as Hh; apply tx_ret_Ok in Ej as [-> ->]; [|done].
  exists s, g. split_and!; [by eapply joined_text|done|done|by rewrite Eg|by apply bool_decide_eq_true in Hg].
Qed.

Lemma lookup_request_Ok a q w o w' :
  lookup_request MIGRATIONS a q w = (Ok o, w') →
  w' = w ∧ match List.filter (request_where a q) (rows (w_db w) "agent_requests") with
           | [] => o = None
           | r :: _ => ∃ h st ref code state, column r "request_hash" = SBlob h ∧ column r "state" = SText st ∧
               column r "result_ref" = text_or_null ref ∧ column r "problem_code" = text_or_null code ∧
               request_state_from st ref code = Ok state ∧ o = Some (h, state)
           end.
Proof.
  unfold lookup_request. intros Hx. tx_step Hx as Eq. apply query_optional_Ok in Eq as [-> Hq].
  destruct (List.filter _ _) as [|r rest].
  { subst a0. by apply tx_ret_Ok in Hx as [-> ->]. }
  destruct Hq as (v & Hd & ->). decode_inv Hd. tx_step Hx as Et. apply tx_ret_Ok in Hx as [-> ->].
  split; [done|]. naive_solver.
Qed.

(** *** The authority a submission runs under *)

Definition run_current (db : Database) (c : AgentCredential) (run_id task_id : string) (revision : Z) : Prop :=
  ∃ a st r, row_of db "attempts" "id" (cred_attempt_id c) = Some a ∧ column a "run_id" = SText run_id ∧
    row_of db "attempt_status" "attempt_id" (cred_attempt_id c) = Some st ∧ column st "terminal" = SInteger 0 ∧
    row_of db "run_status" "run_id" run_id = Some r ∧ column r "task_id" = SText task_id ∧
    column r "phase" = SText "Active" ∧ column r "active_slot" ≠ SNull ∧
    column r "current_attempt_id" = SText (cred_attempt_id c) ∧ column r "revision" = SInteger revision.

Definition task_current (db : Database) (run_id task_id : string) (revision : Z) (spec_digest : string) : Prop :=
  ∃ t goal_id g phase, row_of db "tasks" "id" task_id = Some t ∧ column t "phase" = SText "Active" ∧
    column t "active_run_id" = SText run_id ∧ column t "revision" = SInteger revision ∧
    column t "spec_digest" = SBlob spec_digest ∧ column t "goal_id" = SText goal_id ∧
    row_of db "goals" "id" goal_id = Some g ∧ column g "phase" = SText phase ∧
    phase ∈ ["Planning"; "Active"; "Evaluating"].

Lemma attempt_run_Ok c w run_id w' :
  valid MIGRATIONS (w_db w) → attempt_run c w = (Ok run_id, w') → w' = w ∧
  ∃ a st, row_of (w_db w) "attempts" "id" (cred_attempt_id c) = Some a ∧ column a "run_id" = SText run_id ∧
    row_of (w_db w) "attempt_status" "attempt_id" (cred_attempt_id c) = Some st ∧
    column st "terminal" = SInteger 0.
Proof.
  intros Hv. unfold attempt_run. intros Hx. tx_step Hx as Eq. apply tx_query_Ok in Eq as [Hq ->].
  tx_step Hx as Es. subst a. destruct a0 as [run terminal]. tx_step Hx as Eg. apply Z.eqb_eq in Eg as ->.
  apply tx_ret_Ok in Hx as [-> ->]. split; [done|]. rewrite joined_row_of in Hq by (apply _ || done).
  destruct (row_of (w_db w) "attempts" "id" _) as [a|] eqn:Ea; [|done]. cbn [flat_map] in Hq.
  destruct (row_of_Some _ _ _ _ _ Ea) as [_ Hid]. rewrite Hid, joined_row_of in Hq by (apply _ || done).
  destruct (row_of (w_db w) "attempt_status" "attempt_id" _) as [st|] eqn:Est; [|done]. cbn in Hq.
  decode_inv Hq. eauto 10.
Qed.

Lemma responsible_run_Ok c run_id w task_id revision w' :
  responsible_run MIGRATIONS c run_id w = (Ok (task_id, revision), w') → w' = w ∧
  ∃ r, row_of (w_db w) "run_status" "run_id" run_id = Some r ∧ column r "task_id" = SText task_id ∧
    column r "phase" = SText "Active" ∧ column r "active_slot" ≠ SNull ∧
    column r "current_attempt_id" = SText (cred_attempt_id c) ∧ column r "revision" = SInteger revision.
Proof.
  unfold responsible_run. intros Hx. tx_step Hx as Eq. tx_step Hx as Es. subst a.
  apply query_by_Some in Eq as [-> (r & Hr & D)]. destruct a0 as [[[[t p] sl] n] cur]. decode_inv D.
  tx_step Hx as Eg. tx_step Hx as Ec. apply tx_ret_Ok in Hx as [[= -> ->] ->].
  apply andb_true_iff in Eg as [->%String.eqb_eq Hs%negb_true_iff%bool_decide_eq_false].
  apply bool_decide_eq_true in Ec as ->. split; [done|]. exists r. split_and!; try done.
  destruct sl as [sl|]; [|done]. cbn in *. congruence.
Qed.

Lemma submittable_task_Ok c run_id task_id expected w spec w' :
  valid MIGRATIONS (w_db w) → submittable_task MIGRATIONS c run_id task_id expected w = (Ok spec, w') →
  w' = w ∧ task_current (w_db w) run_id task_id expected spec.
Proof.
  intros Hv. unfold submittable_task. intros Hx. tx_step Hx as Eq. tx_step Hx as Es. subst a.
  apply query_by_Some in Eq as [-> (t & Ht & D)]. destruct a0 as [[[p act] n] d]. decode_inv D.
  tx_step Hx as Ep. tx_step Hx as Ea. tx_step Hx as Egoal. apply tx_query_Ok in Egoal as [Hg ->].
  tx_step Hx as Eph. tx_step Hx as En. apply tx_ret_Ok in Hx as [-> ->]. split; [done|].
  apply String.eqb_eq in Ep as ->. apply bool_decide_eq_true in Ea as ->. apply Z.eqb_eq in En as ->.
  rewrite joined_row_of, Ht in Hg by (apply _ || done).
  destruct (row_of_Some _ _ _ _ _ Ht) as [Hin _].
  destruct (text_typed _ "tasks" "goal_id" t Hv eq_refl Hin) as (g & Hgid & _). rewrite Hgid in Hg.
  rewrite joined_row_of in Hg by (apply _ || done).
  destruct (row_of (w_db w) "goals" "id" g) as [gr|] eqn:Egr.
  - decode_inv Hg. apply contains_true in Eph. exists t, g, gr, v. done.
  - by injection Hg as <-.
Qed.

Lemma stored_spec_Ok d w spec w' :
  stored_spec MIGRATIONS d w = (Ok spec, w') → w' = w ∧
  ∃ r json, r ∈ rows (w_db w) "task_specs" ∧ column r "digest" = SBlob d ∧
    column r "canonical_json" = SText json ∧ task_from_canonical_json json = Ok spec.
Proof.
  unfold stored_spec, query_blob_key. intros Hx. tx_step Hx as Eq. tx_step Hx as Es. subst a.
  apply query_optional_Some in Eq as [-> (r & Hr & [_ Hd]%col_is_true & Hj%get_text_Ok)].
  apply tx_try_Ok in Hx as [Ht ->]. split; [done|]. exists r, a0. split_and!; try done.
  by destruct (task_from_canonical_json a0); [injection Ht as ->|].
Qed.

(** *** A proven output *)

(** An Artifact of the permitted kind whose manifest's payloads are all stored, and
    which this Run produced for this slot. *)
Definition output_proven (db : Database) (spec : TaskSpec) (run_id : string) (o : CandidateOutput) : Prop :=
  (∃ art json slot manifest entries payloads,
     art ∈ rows db "artifacts" ∧ column art "digest" = digest_blob (co_artifact o) ∧
     column art "canonical_json" = SText json ∧
     declared spec (co_slot o) = Some slot ∧ column art "artifact_kind" = SText (output_kind slot) ∧
     parse json = Ok manifest ∧ get manifest "entries" = Some (Array entries) ∧
     referenced_blobs entries = Ok payloads ∧
     ∀ b, b ∈ payloads → ∃ m, m ∈ rows db "artifact_members" ∧
       column m "artifact_digest" = digest_blob (co_artifact o) ∧ column m "blob_digest" = SBlob b) ∧
  ∃ p, p ∈ rows db "production_records" ∧ column p "run_id" = SText run_id ∧
    column p "output_slot" = SText (co_slot o) ∧ column p "artifact_digest" = digest_blob (co_artifact o).

Lemma query_all_Ok {A} schema table cols where_ (decode : Row → Result A SqliteError) w l w' :
  query_all schema table cols where_ decode w = (Ok l, w') →
  w' = w ∧ Forall2 (fun r a => decode r = Ok a) (List.filter where_ (rows (w_db w) table)) l.
Proof.
  unfold query_all, tx_fail. destruct (try_bind _ _) as [l'|e] eqn:E; [|done]. intros [= -> ->]. split; [done|].
  apply try_bind_Ok in E as (rs & ->%select_Ok & Hc). by apply collect_Ok.
Qed.

Lemma ensure_artifact_complete_Ok o json w u w' :
  ensure_artifact_complete MIGRATIONS o json w = (Ok u, w') → w' = w ∧
  ∃ manifest entries payloads, parse json = Ok manifest ∧ get manifest "entries" = Some (Array entries) ∧
    referenced_blobs entries = Ok payloads ∧
    ∀ b, b ∈ payloads → ∃ m, m ∈ rows (w_db w) "artifact_members" ∧
      column m "artifact_digest" = digest_blob (co_artifact o) ∧ column m "blob_digest" = SBlob b.
Proof.
  unfold ensure_artifact_complete. intros Hx. tx_step Hx as Em. destruct (parse json) as [m|]; [|done].
  injection Em as <-. tx_step Hx as Ee. destruct (get m "entries") as [[]|] eqn:Eg; cbn in Ee; try done.
  apply tx_ret_Ok in Ee as [-> ->]. tx_step Hx as Er. tx_step Hx as Eq. apply query_all_Ok in Eq as [-> Hf].
  destruct (forallb _ _) eqn:Ea; [|done]. apply tx_ret_Ok in Hx as [_ ->]. split; [done|].
  exists m, vs, a. split_and!; [done..|]. intros b Hb.
  rewrite forallb_forall in Ea. apply list_elem_of_In, Ea, contains_true in Hb.
  destruct (Forall2_in_r _ _ _ _ Hf Hb) as (r & Hr & Hbl%get_blob_Ok). exists r.
  apply list_elem_of_In, filter_In in Hr as [Hin%list_elem_of_In [_ ?]%col_is_true]. done.
Qed.

Lemma check_output_Ok spec run_id o w u w' :
  check_output MIGRATIONS spec run_id o w = (Ok u, w') → w' = w ∧ output_proven (w_db w) spec run_id o.
Proof.
  unfold check_output, query_blob_key, declared_slot. intros Hx. tx_step Hx as Eq. tx_step Hx as Es. subst a.
  apply query_optional_Some in Eq as [-> (art & Hart & [_ Hd]%col_is_true & D)]. destruct a0 as [kind json].
  decode_inv D. tx_step Hx as Esl. tx_step Hx as Ek. tx_step Hx as Ec.
  apply ensure_artifact_complete_Ok in Ec as [-> (m & es & ps & Hm & He & Hp & Hmem)].
  tx_step Hx as Epr. apply query_optional_Ok in Epr as [-> Hpr].
  unfold kind_permitted in Ek. destruct (String.eqb_spec (output_kind a) kind) as [<-|]; [|done].
  destruct (List.filter _ _) as [|p rest] eqn:Ef.
  { by subst. }
  destruct Hpr as (dg & Hdg%get_blob_Ok & ->). apply guard_passed in Hx as [->%String.eqb_eq ->].
  split; [done|]. split; [by exists art, json, a, m, es, ps|]. exists p. assert (p ∈ p :: rest) as Hin by left. rewrite <-Ef in Hin.
  apply list_elem_of_In, filter_In in Hin as [Hin%list_elem_of_In [[_ ?]%col_is_true [_ ?]%col_is_true]%andb_true_iff].
  done.
Qed.

(** *** The submission *)

(** Everything T6 re-establishes before it writes. *)
Record submission_current (db : Database) (s : CandidateSubmission) (run_id task_id : string)
    (run_revision : Z) : Prop := {
  sc_run : run_current db (sub_credential s) run_id task_id run_revision;
  sc_task : ∃ digest row json spec,
    task_current db run_id task_id (sub_expected_task_revision s) digest ∧
    row ∈ rows db "task_specs" ∧ column row "digest" = SBlob digest ∧ column row "canonical_json" = SText json ∧
    task_from_canonical_json json = Ok spec ∧ validate_against_spec (sub_candidate s) spec = Ok tt ∧
    ∀ o, o ∈ cr_outputs (sub_candidate s) → output_proven db spec run_id o;
  sc_binds : cr_run_id (sub_candidate s) = run_id ∧ cr_task_id (sub_candidate s) = task_id
}.

(** Everything it leaves behind. *)
Record submission_committed (db db' : Database) (s : CandidateSubmission) (run_id task_id : string)
    (run_revision : Z) : Prop := {
  cm_candidate : ∃ row, row_of db' "candidates" "run_id" run_id = Some row ∧
    column row "digest" = digest_blob (candidate_digest (sub_candidate s)) ∧
    column row "canonical_json" = SText (candidate_to_canonical_json (sub_candidate s)) ∧
    column row "task_id" = SText task_id;
  cm_run : ∃ r r', row_of db "run_status" "run_id" run_id = Some r ∧
    row_of db' "run_status" "run_id" run_id = Some r' ∧ column r' "phase" = SText "Finalizing" ∧
    column r' "terminal_target" = SText "Completed" ∧
    column r' "candidate_digest" = digest_blob (candidate_digest (sub_candidate s)) ∧
    column r' "active_slot" = column r "active_slot" ∧ column r' "revision" = SInteger (run_revision + 1);
  cm_task : ∃ t', row_of db' "tasks" "id" task_id = Some t' ∧ column t' "phase" = SText "Evaluating" ∧
    column t' "active_run_id" = SText run_id ∧
    column t' "revision" = SInteger (sub_expected_task_revision s + 1);
  cm_request : ∃ q, q ∈ rows db' "agent_requests" ∧
    request_where (cred_attempt_id (sub_credential s)) (sub_request_id s) q = true ∧
    column q "request_hash" = SBlob (sub_request_hash s) ∧ column q "state" = SText "SUCCEEDED" ∧
    column q "result_ref" = SText (to_display (candidate_digest (sub_candidate s)))
}.

Lemma check_outputs_Ok spec run_id l w u w' :
  tx_for_each (check_output MIGRATIONS spec run_id) l w = (Ok u, w') →
  w' = w ∧ ∀ o, o ∈ l → output_proven (w_db w) spec run_id o.
Proof.
  intros [-> Hall]%tx_for_each_unchanged.
  - split; [done|]. intros o Ho. by destruct (check_output_Ok _ _ _ _ _ _ (Hall o Ho)).
  - intros o w0 u0 w0' Hx. by apply check_output_Ok in Hx as [-> _].
Qed.

#[local] Instance candidates_keyed : Keyed MIGRATIONS "candidates" "run_id".
Proof. eexists; split; [reflexivity|]; eexists; split; [right; left|]; split; [reflexivity|done]. Qed.

Lemma create_candidate_Ok now task_id run_id c w u w' :
  create_candidate MIGRATIONS now task_id run_id c w = (Ok u, w') →
  same_outside ["candidates"; "candidate_outputs"] (w_db w) (w_db w') ∧
  row_of (w_db w) "candidates" "run_id" run_id = None ∧
  row_of (w_db w') "candidates" "run_id" run_id = Some (list_to_map (candidate_row now task_id run_id c)) ∧
  (valid MIGRATIONS (w_db w) → valid MIGRATIONS (w_db w')).
Proof.
  unfold create_candidate. intros Hx. tx_frame Hx ["candidates"; "candidate_outputs"] as F. split; [done|].
  assert (valid MIGRATIONS (w_db w) → valid MIGRATIONS (w_db w')) as V by (intros Hv; by tx_valid Hx Hv as V).
  tx_step Hx as Eq. tx_step Hx as Eg. tx_step Hx as Ei.
  apply query_by_Ok in Eq as [-> _].
  eapply insert_row_of in Ei as [Hn Hs]; [|apply _|reflexivity]. split; [done|].
  tx_frame Hx ["candidate_outputs"] as F2. rewrite (row_of_same _ _ _ _ _ _ F2); [done|]. elem.
Qed.

Lemma record_outcome_Ok now s prior w u w' :
  (prior = true → ∃ q, q ∈ rows (w_db w) "agent_requests" ∧
     request_where (cred_attempt_id (sub_credential s)) (sub_request_id s) q = true ∧
     column q "request_hash" = SBlob (sub_request_hash s)) →
  record_outcome MIGRATIONS now s prior w = (Ok u, w') →
  same_outside ["agent_requests"] (w_db w) (w_db w') ∧
  ∃ q, q ∈ rows (w_db w') "agent_requests" ∧
    request_where (cred_attempt_id (sub_credential s)) (sub_request_id s) q = true ∧
    column q "request_hash" = SBlob (sub_request_hash s) ∧ column q "state" = SText "SUCCEEDED" ∧
    column q "result_ref" = SText (to_display (candidate_digest (sub_candidate s))).
Proof.
  unfold record_outcome. intros Hprior Hx. tx_frame Hx ["agent_requests"] as F. split; [done|].
  destruct prior; tx_step Hx as Eu; apply tx_ret_Ok in Hx as [_ ->].
  - destruct (Hprior eq_refl) as (q & Hq & Hw & Hh). apply tx_update_Ok in Eu as (_ & _ & _ & Hdb).
    set (set := succeed_request now (to_display (candidate_digest (sub_candidate s)))) in *.
    exists (set q). split.
    { rewrite Hdb, rows_insert. apply list_elem_of_In, in_map_iff. exists q. rewrite Hw. by rewrite <-list_elem_of_In. }
    unfold set, succeed_request. unfold request_where, col_is in *. rewrite !column_insert_ne in * by done.
    by rewrite !column_insert, !column_insert_ne, !column_insert by done.
  - apply tx_insert_Ok in Eu as (_ & _ & _ & Hdb). eexists. rewrite Hdb, rows_insert. split; [apply elem_of_app; right; left|].
    unfold request_where. rewrite andb_true_iff, !col_is_text. unfold request_row. by rewrite !column_cons.
Qed.

Lemma submission_authority_Ok s w run_id task_id n w' :
  valid MIGRATIONS (w_db w) → submission_authority MIGRATIONS s w = (Ok (run_id, task_id, n), w') →
  w' = w ∧ submission_current (w_db w) s run_id task_id n.
Proof.
  intros Hv Hx. unfold submission_authority in Hx. tx_step Hx as Ea.
  apply attempt_run_Ok in Ea as [-> (at_ & st & Hat & Hrun & Hst & Hterm)]; [|done].
  tx_step Hx as Er. destruct a0 as [task n'].
  apply responsible_run_Ok in Er as [-> (r & Hr & Htask & Hph & Hslot & Hcur & Hrev)].
  tx_step Hx as Et. apply submittable_task_Ok in Et as [-> Htc]; [|done].
  tx_step Hx as Eb. apply andb_true_iff in Eb as [Hb1%String.eqb_eq Hb2%String.eqb_eq].
  tx_step Hx as Es. apply stored_spec_Ok in Es as [-> (row & json & Hrow & Hdig & Hjson & Hspec)].
  tx_step Hx as Ev. assert (validate_against_spec (sub_candidate s) a1 = Ok tt) as Hval
    by (by destruct (validate_against_spec _ _) as [[]|]).
  tx_step Hx as Eo. apply check_outputs_Ok in Eo as [-> Hout]. apply tx_ret_Ok in Hx as [[= -> -> ->] ->].
  split; [done|]. split; [by exists at_, st, r|by exists a0, row, json, a1|done].
Qed.

Lemma commit_submission_Ok amb s prior w run_id task_id n out w' :
  valid MIGRATIONS (w_db w) → submission_current (w_db w) s run_id task_id n →
  (prior = true → ∃ q, q ∈ rows (w_db w) "agent_requests" ∧
     request_where (cred_attempt_id (sub_credential s)) (sub_request_id s) q = true ∧
     column q "request_hash" = SBlob (sub_request_hash s)) →
  commit_submission MIGRATIONS amb s prior run_id task_id n w = (Ok out, w') →
  row_of (w_db w) "candidates" "run_id" run_id = None ∧
  submission_committed (w_db w) (w_db w') s run_id task_id n ∧
  out = {| so_committed := {| cc_candidate_digest := to_display (candidate_digest (sub_candidate s));
                              cc_task_revision := sub_expected_task_revision s + 1; cc_run_revision := n + 1 |};
           so_reconciled := false |}.
Proof.
  intros Hv Hcur Hprior Hx. unfold commit_submission in Hx. tx_step Hx as En. tx_step Hx as Ec.
  apply create_candidate_Ok in Ec as (F1 & Hnone & Hcand & V1). specialize (V1 Hv).
  tx_step Hx as Eu. tx_frame Eu ["run_status"] as F2. tx_valid Eu V1 as V2.
  apply update_row_of in Eu as (-> & r1 & Hr1 & Hrev1 & Hrow1 & Hnew1 & _); [|apply _..|done|done|done|done].
  tx_step Hx as Ek. tx_frame Ek ["tasks"] as F3. tx_valid Ek V2 as V3.
  apply update_revisioned_row in Ek as (-> & t1 & Ht1 & Hrev2 & Hrow2 & Hnew2 & _); [|apply _..|done|done].
  tx_step Hx as Eq. apply record_outcome_Ok in Eq as [F4 Hq]; last first.
  { intros Hp. rewrite (F3 "agent_requests"), (F2 "agent_requests"), (F1 "agent_requests") by elem. auto. }
  tx_step Hx as Ee. apply tx_ret_Ok in Hx as [-> ->]. apply append_internal_event_touches in Ee as F5.
  rewrite (row_of_same _ _ _ _ _ _ F1) in Hr1 by elem.
  rewrite (row_of_same _ _ _ _ _ _ F2), (row_of_same _ _ _ _ _ _ F1) in Ht1 by elem.
  split_and!; [done| |done]. split.
  - eexists. rewrite (row_of_same _ _ _ _ _ _ F5), (row_of_same _ _ _ _ _ _ F4), (row_of_same _ _ _ _ _ _ F3),
      (row_of_same _ _ _ _ _ _ F2) by elem. split; [done|]. unfold candidate_row. by rewrite !column_cons.
  - exists r1. eexists. rewrite (row_of_same _ _ _ _ _ _ F5), (row_of_same _ _ _ _ _ _ F4),
      (row_of_same _ _ _ _ _ _ F3) by elem. split; [done|]. split; [done|].
    rewrite !column_set_clause by done. done.
  - destruct Hcur as [_ (d & _ & _ & _ & (t & g & gr & p & Ht & _ & Hact & _) & _) _]. rewrite Ht in Ht1.
    injection Ht1 as <-. eexists. rewrite (row_of_same _ _ _ _ _ _ F5), (row_of_same _ _ _ _ _ _ F4) by elem.
    split; [done|]. rewrite !column_set_clause by done. done.
  - destruct Hq as (q & Hq & ?). exists q. by rewrite (F5 "agent_requests") by elem.
Qed.

(** *** Replay *)

Lemma authenticate_eval c w :
  authentic (w_db w) c → authenticate_agent_session c w = (Ok tt, w).
Proof.
  intros (s & g & Hs & Hst & Hh & Hg & Hgen). unfold authenticate_agent_session, judge_session.
  assert (∃ rest, session_rows (w_db w) (cred_attempt_id c) = s :: rest) as [rest Hr].
  { revert Hs. unfold row_of, session_rows, joined. destruct (List.filter _ _); [done|]. intros [= ->]. eauto. }
  destruct (joined (w_db w) "system_state" "id" (SInteger 1)) as [|g' gs] eqn:Eg; [done|]. injection Hg as ->.
  unfold tx_bind, tx_query, session_facts, get_text, generation_current. rewrite Hr, Hst, Eg. cbn [try_bind].
  rewrite bool_decide_true by done. cbn [negb String.eqb Ascii.eqb Bool.eqb]. rewrite Hr, Hh.
  by rewrite bool_decide_true.
Qed.

(** The ledger holds the outcome of this submission, and the Candidate it names. *)
Definition submission_recorded (db : Database) (s : CandidateSubmission) : Prop :=
  (∃ q, q ∈ rows db "agent_requests" ∧
     request_where (cred_attempt_id (sub_credential s)) (sub_request_id s) q = true ∧
     column q "request_hash" = SBlob (sub_request_hash s) ∧ column q "state" = SText "SUCCEEDED" ∧
     column q "result_ref" = SText (to_display (candidate_digest (sub_candidate s)))) ∧
  ∃ row, row_of db "candidates" "run_id" (cr_run_id (sub_candidate s)) = Some row ∧
    column row "digest" = digest_blob (candidate_digest (sub_candidate s)) ∧
    column row "canonical_json" = SText (candidate_to_canonical_json (sub_candidate s)).

Lemma request_unique db a q r :
  valid MIGRATIONS db → r ∈ rows db "agent_requests" → request_where a q r = true →
  List.filter (request_where a q) (rows db "agent_requests") = [r].
Proof.
  intros Hv Hr Hw.
  pose proof (unique_filter_le MIGRATIONS db "agent_requests" agent_requests_table
    (primary_key ["attempt_id"; "request_id"]) (request_where a q) [SText a; SText q] Hv eq_refl ltac:(left)) as Hl.
  assert (r ∈ List.filter (request_where a q) (rows db "agent_requests")) as Hin
    by (apply list_elem_of_In, filter_In; by rewrite <-list_elem_of_In).
  destruct (List.filter _ _) as [|x [|y l]]; [set_solver|set_solver|]. exfalso.
  enough (2 + length l ≤ 1) by lia. apply Hl. intros x' _ [H1%col_is_text H2%col_is_text]%andb_true_iff.
  split; [done|]. unfold key_tuple. cbn. by rewrite H1, H2.
Qed.

Lemma revision_read table kc k (w : Writer) t :
  valid MIGRATIONS (w_db w) → table_schema MIGRATIONS table = Some t →
  known_columns t [kc; "revision"] = Ok tt → declared_type table "revision" = Some (TInteger, true) →
  ∃ o, query_by MIGRATIONS table kc k ["revision"] (get_integer "revision") w = (Ok o, w).
Proof.
  intros Hv Ht Hc Hd. destruct (row_of (w_db w) table kc k) as [r|] eqn:Er.
  - destruct (row_of_Some _ _ _ _ _ Er) as [Hin _]. destruct (integer_typed _ _ _ _ Hv Hd Hin) as (n & _ & Hn).
    exists (Some n). by eapply query_by_eval.
  - exists None. unfold query_by, query_optional, select. rewrite Ht. cbn [ok_or try_bind]. rewrite Hc. cbn [try_bind].
    unfold row_of in Er. by destruct (List.filter _ _).
Qed.

Lemma load_committed_eval c digest row w :
  valid MIGRATIONS (w_db w) → row_of (w_db w) "candidates" "run_id" (cr_run_id c) = Some row →
  column row "digest" = digest_blob digest → column row "canonical_json" = SText (candidate_to_canonical_json c) →
  ∃ out, load_committed_outcome MIGRATIONS c digest w = (Ok out, w) ∧ cc_candidate_digest out = to_display digest.
Proof.
  intros Hv Hrow Hd Hj. destruct (row_of_Some _ _ _ _ _ Hrow) as [Hin Hrun]. unfold load_committed_outcome.
  set (p := fun r => col_is "digest" (digest_blob digest) r && col_is "run_id" (SText (cr_run_id c)) r).
  assert (row ∈ List.filter p (rows (w_db w) "candidates")) as Hp.
  { apply list_elem_of_In, filter_In. split; [by apply list_elem_of_In|]. unfold p.
    rewrite andb_true_iff, !col_is_true. done. }
  destruct (List.filter p _) as [|r1 rest] eqn:Ef; [set_solver|].
  assert (r1 = row) as ->.
  { assert (r1 ∈ r1 :: rest) as Hr1 by left. rewrite <-Ef in Hr1. unfold p in Hr1.
    apply list_elem_of_In, filter_In in Hr1 as [Hr1%list_elem_of_In [_ Hc%col_is_text]%andb_true_iff].
    rewrite (row_of_unique MIGRATIONS _ _ _ _ _ Hv Hr1 Hc) in Hrow. by injection Hrow. }
  erewrite tx_bind_eval; [|eapply query_optional_eval; [reflexivity|reflexivity|exact Ef|by apply get_text_Ok]].
  unfold guard. rewrite String.eqb_refl, (tx_bind_eval (tx_ret tt) _ w tt w eq_refl).
  destruct (revision_read "tasks" "id" (cr_task_id c) w tasks_table Hv eq_refl eq_refl eq_refl) as [tr Htr].
  destruct (revision_read "run_status" "run_id" (cr_run_id c) w run_status_table Hv eq_refl eq_refl eq_refl) as [rr Hrr].
  rewrite (tx_bind_eval _ _ _ _ _ Htr), (tx_bind_eval _ _ _ _ _ Hrr). by eexists.
Qed.

Lemma replay_eval amb s w :
  valid MIGRATIONS (w_db w) → authentic (w_db w) (sub_credential s) → submission_recorded (w_db w) s →
  ∃ out, apply_candidate_submission MIGRATIONS amb s w = (Ok out, w) ∧ so_reconciled out = true ∧
    cc_candidate_digest (so_committed out) = to_display (candidate_digest (sub_candidate s)).
Proof.
  intros Hv Ha [(q & Hq & Hw & Hh & Hs & Href) (row & Hrow & Hd & Hj)]. unfold apply_candidate_submission.
  rewrite (tx_bind_eval _ _ _ _ _ (authenticate_eval _ _ Ha)).
  pose proof (request_unique _ _ _ _ Hv Hq Hw) as Hf.
  assert (lookup_request MIGRATIONS (cred_attempt_id (sub_credential s)) (sub_request_id s) w =
    (Ok (Some (sub_request_hash s, Succeeded (to_display (candidate_digest (sub_candidate s))))), w)) as Hl.
  { unfold lookup_request.
    destruct (optional_text_typed _ "agent_requests" "problem_code" q Hv eq_refl Hq) as [code Hc].
    erewrite tx_bind_eval; [|eapply query_optional_eval; [reflexivity|reflexivity|exact Hf|]].
    2: { unfold get_blob, get_text, get_optional_text at 1. rewrite Hh, Hs, Href. cbn. rewrite Hc. reflexivity. }
    done. }
  rewrite (tx_bind_eval _ _ _ _ _ Hl). unfold guard. rewrite String.eqb_refl.
  rewrite (tx_bind_eval (tx_ret tt) _ w tt w eq_refl).
  rewrite from_display_to_display by (apply digest_of_wf). unfold tx_some.
  rewrite (tx_bind_eval (tx_ret _) _ w _ w eq_refl).
  destruct (load_committed_eval _ _ _ _ Hv Hrow Hd Hj) as (out & Hload & Hout).
  rewrite (tx_bind_eval _ _ _ _ _ Hload). eexists. by split_and!.
Qed.

(** *** The whole submission *)

(** The recorded request this submission may resume. *)
Definition resumes (db : Database) (s : CandidateSubmission) : Prop :=
  ∃ q, q ∈ rows db "agent_requests" ∧
    request_where (cred_attempt_id (sub_credential s)) (sub_request_id s) q = true ∧
    column q "request_hash" = SBlob (sub_request_hash s).

(** A first submission: authority, effects and outcome. *)
Definition first_submission (db db' : Database) (s : CandidateSubmission) (out : SubmissionOutcome) : Prop :=
  ∃ run_id task_id n, submission_current db s run_id task_id n ∧
    row_of db "candidates" "run_id" run_id = None ∧
    submission_committed db db' s run_id task_id n ∧
    out = {| so_committed := {| cc_candidate_digest := to_display (candidate_digest (sub_candidate s));
                                cc_task_revision := sub_expected_task_revision s + 1; cc_run_revision := n + 1 |};
             so_reconciled := false |}.

Lemma submit_fresh_Ok amb s prior w out w' :
  valid MIGRATIONS (w_db w) → (prior = true → resumes (w_db w) s) →
  submit_fresh MIGRATIONS amb s prior w = (Ok out, w') → first_submission (w_db w) (w_db w') s out.
Proof.
  intros Hv Hprior Hf. unfold submit_fresh in Hf. tx_step Hf as Es. destruct a as [[run_id task_id] n].
  apply submission_authority_Ok in Es as [-> Hc]; [|done].
  destruct (commit_submission_Ok _ _ _ _ _ _ _ _ _ Hv Hc Hprior Hf) as (Hn & Hcm & Ho).
  by exists run_id, task_id, n.
Qed.

(** A submission whose request already succeeded: the ledger holds its outcome under its
    hash, the Candidate that outcome names is stored for the Run with the very content
    submitted, and the answer names it, with the revisions the Task and the Run have. *)
Record reconciles (db : Database) (s : CandidateSubmission) (out : SubmissionOutcome) : Prop := {
  rs_flag : so_reconciled out = true;
  rs_recorded : ∃ q text digest row, q ∈ rows db "agent_requests" ∧
    request_where (cred_attempt_id (sub_credential s)) (sub_request_id s) q = true ∧
    column q "request_hash" = SBlob (sub_request_hash s) ∧ column q "state" = SText "SUCCEEDED" ∧
    column q "result_ref" = SText text ∧ from_display text = Some digest ∧
    row ∈ rows db "candidates" ∧ column row "digest" = digest_blob digest ∧
    column row "run_id" = SText (cr_run_id (sub_candidate s)) ∧
    column row "canonical_json" = SText (candidate_to_canonical_json (sub_candidate s)) ∧
    cc_candidate_digest (so_committed out) = to_display digest;
  rs_task t : row_of db "tasks" "id" (cr_task_id (sub_candidate s)) = Some t →
    column t "revision" = SInteger (cc_task_revision (so_committed out));
  rs_run r : row_of db "run_status" "run_id" (cr_run_id (sub_candidate s)) = Some r →
    column r "revision" = SInteger (cc_run_revision (so_committed out))
}.

Lemma succeeded_state st ref code r :
  request_state_from st ref code = Ok (Succeeded r) → st = "SUCCEEDED" ∧ ref = Some r.
Proof.
  unfold request_state_from. destruct (String.eqb_spec st "STARTED"); [done|].
  destruct (String.eqb_spec st "SUCCEEDED") as [->|]; [destruct ref; [by intros [= ->]|done]|].
  destruct (String.eqb st "FAILED"); [by destruct code|done].
Qed.

Lemma load_committed_Ok c d w out w' :
  load_committed_outcome MIGRATIONS c d w = (Ok out, w') →
  (∃ row, row ∈ rows (w_db w) "candidates" ∧ column row "digest" = digest_blob d ∧
     column row "run_id" = SText (cr_run_id c) ∧ column row "canonical_json" = SText (candidate_to_canonical_json c)) ∧
  cc_candidate_digest out = to_display d ∧
  (∀ t, row_of (w_db w) "tasks" "id" (cr_task_id c) = Some t → column t "revision" = SInteger (cc_task_revision out)) ∧
  (∀ r, row_of (w_db w) "run_status" "run_id" (cr_run_id c) = Some r → column r "revision" = SInteger (cc_run_revision out)).
Proof.
  unfold load_committed_outcome. intros Hx. tx_step Hx as E1. apply query_optional_Ok in E1 as [-> E1].
  destruct (List.filter _ _) as [|row rest] eqn:Ef; [subst; by tx_step Hx as E|].
  destruct E1 as (json & Hj & ->). tx_step Hx as E2. apply String.eqb_eq in E2.
  tx_step Hx as E3. apply query_by_Ok in E3 as [-> E3]. tx_step Hx as E4. apply query_by_Ok in E4 as [-> E4].
  apply tx_ret_Ok in Hx as [-> _]. cbn [cc_candidate_digest cc_task_revision cc_run_revision]. split_and!; [|done|..].
  - exists row. assert (row ∈ row :: rest) as Hr by left. rewrite <-Ef in Hr.
    apply list_elem_of_In, filter_In in Hr as [Hr%list_elem_of_In [H1%col_is_true H2%col_is_text]%andb_true_iff].
    rewrite <-E2. split_and!; [done|apply H1|done|]. by apply get_text_Ok.
  - intros t Ht. rewrite Ht in E3. destruct E3 as (n & Hn%get_integer_Ok & ->). done.
  - intros r Hr. rewrite Hr in E4. destruct E4 as (n & Hn%get_integer_Ok & ->). done.
Qed.

Lemma load_committed_unchanged c d w out w' :
  load_committed_outcome MIGRATIONS c d w = (Ok out, w') → w' = w.
Proof.
  unfold load_committed_outcome. intros Hx. tx_step Hx as E1. apply query_optional_Ok in E1 as [-> _].
  tx_step Hx as E2. assert (w0 = w) as -> by (destruct a; [by apply guard_passed in E2 as [_ ->]|done]).
  tx_step Hx as E3. apply query_by_Ok in E3 as [-> _]. tx_step Hx as E4. apply query_by_Ok in E4 as [-> _].
  by apply tx_ret_Ok in Hx as [_ ->].
Qed.

Lemma submission_Ok amb s w out w' :
  valid MIGRATIONS (w_db w) → apply_candidate_submission MIGRATIONS amb s w = (Ok out, w') →
  authentic (w_db w) (sub_credential s) ∧
  (reconciles (w_db w) s out ∧ w' = w ∨ first_submission (w_db w) (w_db w') s out).
Proof.
  intros Hv Hx. unfold apply_candidate_submission in Hx. tx_step Hx as Ea.
  pose proof (authenticate_unchanged _ _ _ _ Ea) as ->. split; [by eapply authenticate_Ok|].
  tx_step Hx as El. apply lookup_request_Ok in El as [-> Hl]. destruct (List.filter _ _) as [|q rest] eqn:Ef.
  - subst a0. right. by eapply (submit_fresh_Ok amb s false).
  - destruct Hl as (h & st & ref & code & state & Hh & Hst & Href & Hcode & Hstate & ->).
    tx_step Hx as Eg. apply String.eqb_eq in Eg as ->.
    assert (q ∈ q :: rest) as Hin by left. rewrite <-Ef in Hin.
    apply list_elem_of_In, filter_In in Hin as [Hin%list_elem_of_In Hwhere].
    assert (resumes (w_db w) s) as Hres by by exists q.
    destruct state as [|result|problem].
    + right. by eapply (submit_fresh_Ok amb s true).
    + tx_step Hx as Ed. tx_step Hx as Ec. apply tx_ret_Ok in Hx as [-> ->].
      pose proof (load_committed_unchanged _ _ _ _ _ Ec) as ->. left. split; [|done].
      apply succeeded_state in Hstate as [-> ->]. apply load_committed_Ok in Ec as ((row & Hrow) & Hd & Ht & Hr).
      split; [done| |done|done]. exists q, result, a0, row. destruct Hrow as (? & ? & ? & ?). by split_and!.
    + right. by eapply (submit_fresh_Ok amb s true).
Qed.

(** A submission leaves every session and the installation's identity alone. *)
Lemma commit_submission_touches amb s prior run_id task_id n :
  touches ["candidates"; "candidate_outputs"; "run_status"; "tasks"; "agent_requests"; "journal_epochs"; "event_journal"]
    (commit_submission MIGRATIONS amb s prior run_id task_id n).
Proof.
  unfold commit_submission, create_candidate, record_outcome. unfold touches. solve_preserves;
    try (first [ apply update_revisioned_by_touches | apply update_revisioned_touches | apply tx_insert_touches
               | apply tx_update_touches ]; elem).
  intros w c w' Hx t Ht. apply (append_internal_event_touches _ _ _ _ _ _ Hx). set_solver.
Qed.

Lemma submission_authority_unchanged s w a w' :
  submission_authority MIGRATIONS s w = (Ok a, w') → valid MIGRATIONS (w_db w) → w' = w.
Proof. intros Hx Hv. destruct a as [[run_id task_id] n]. by apply submission_authority_Ok in Hx as [-> _]. Qed.

Lemma submission_keeps_sessions amb s w out w' :
  valid MIGRATIONS (w_db w) → apply_candidate_submission MIGRATIONS amb s w = (Ok out, w') →
  rows (w_db w') "agent_control_sessions" = rows (w_db w) "agent_control_sessions" ∧
  rows (w_db w') "system_state" = rows (w_db w) "system_state".
Proof.
  intros Hv Hx. unfold apply_candidate_submission in Hx. tx_step Hx as Ea.
  apply authenticate_unchanged in Ea as ->. tx_step Hx as El. apply lookup_request_Ok in El as [-> _].
  assert (∀ prior w1, submit_fresh MIGRATIONS amb s prior w = (Ok out, w1) →
    rows (w_db w1) "agent_control_sessions" = rows (w_db w) "agent_control_sessions" ∧
    rows (w_db w1) "system_state" = rows (w_db w) "system_state") as Hf.
  { intros prior w1 Hf. unfold submit_fresh in Hf. tx_step Hf as Es. destruct a1 as [[run_id task_id] n].
    apply submission_authority_unchanged in Es as ->; [|done]. apply commit_submission_touches in Hf.
    split; apply Hf; elem. }
  destruct a0 as [[h state]|]; [|by eapply Hf]. tx_step Hx as Eg. destruct state as [|result|problem];
    [by eapply Hf| |by eapply Hf]. tx_step Hx as Ed. tx_step Hx as Ec. apply tx_ret_Ok in Hx as [-> ->].
  by apply load_committed_unchanged in Ec as ->.
Qed.

Lemma submission_validity amb s :
  preserves (validity MIGRATIONS) (apply_candidate_submission MIGRATIONS amb s).
Proof.
  unfold apply_candidate_submission, submit_fresh, commit_submission, create_candidate, record_outcome,
    submission_authority, attempt_run, responsible_run, submittable_task, stored_spec, check_output, declared_slot,
    ensure_artifact_complete, load_committed_outcome, lookup_request, authenticate_agent_session, judge_session,
    query_blob_key.
  solve_preserves.
Qed.

Lemma authentic_same db db' c :
  rows db' "agent_control_sessions" = rows db "agent_control_sessions" →
  rows db' "system_state" = rows db "system_state" → authentic db c → authentic db' c.
Proof. unfold authentic, row_of, joined. by intros -> ->. Qed.
End AgentControlFacts.

(** ** Candidate submission *)


(** Submitting is idempotent: once a submission has been committed, the same
    request sent again (under any clock) returns, changes nothing, reports itself
    reconciled and names the same Candidate. *)
Theorem submission_idempotent `{Sha256} d amb amb' s conn out conn' :
  valid MIGRATIONS (conn_db conn) →
  run d (apply_candidate_submission MIGRATIONS amb s) conn = (Ok out, conn') → so_reconciled out = false →
  ∃ out', run working (apply_candidate_submission MIGRATIONS amb' s) conn' = (Ok out', conn') ∧
    so_reconciled out' = true ∧
    cc_candidate_digest (so_committed out') = cc_candidate_digest (so_committed out).
Proof.
  intros Hv Hr Hfresh. pose proof (run_spec d (apply_candidate_submission MIGRATIONS amb s) conn) as Hs.
  rewrite Hr in Hs. destruct Hs as (_ & Hauto & w & Hw & Hwf & Hdb).
  set (w0 := {| w_db := conn_db conn; w_failed := false |}) in *.
  destruct (submission_Ok amb s w0 out w Hv Hw) as [Ha [[[Hc _ _ _] _]|(run_id & task_id & n & Hcur & _ & Hcm & Hout)]];
    [congruence|]. destruct (submission_keeps_sessions amb s w0 out w Hv Hw) as [Hs1 Hs2].
  destruct (replay_eval amb' s w (submission_validity amb s _ _ _ Hw Hv) (authentic_same _ _ _ Hs1 Hs2 Ha))
    as (out' & Hx & Hrec & Hdig).
  - destruct Hcm as [(row & Hrow & Hd & Hj & _) _ _ Hq]. destruct Hcur as [_ _ [Hrun _]]. rewrite <-Hrun in Hrow.
    split; [done|by exists row].
  - exists out'. split_and!; [|done|by rewrite Hdig, Hout]. destruct conn' as [db' auto'], w as [db failed].
    cbn in Hdb, Hauto, Hwf. subst.
    by rewrite (run_working _ {| conn_db := db; conn_autocommit := true |} out' {| w_db := db; w_failed := false |}).
Qed.
