(* ===== verification/StoreSandbox.v ===== *)
(** * Run-owned sandboxes ([pantheon-store/src/sandbox.rs])

    The SandboxInstance rows, their lifecycle transitions, and the probe evidence
    recorded for them. *)

From Stdlib Require Import ZArith Ascii Lia.
From S2P Require Import Prelude Utf8 Canonical Digest Sandbox Sql Schema Transaction Command StoreBase StorePlanning StoreConfiguration.

Definition SANDBOX_TABLE : string := "sandbox_instances".

Record SandboxRecord : Type := {
  sb_id : string;
  sb_run_id : string;
  sb_plan_digest : Digest;
  sb_environment_identity : string;
  sb_phase : SandboxPhase;
  sb_observed_presence : SandboxPresence;
  sb_revision : Z
}.

Record SandboxBinding : Type := {
  sbb_run_id : string;
  sbb_plan_digest : Digest;
  sbb_environment_identity : string
}.

Record SandboxProbeEvidence : Type := {
  pe_sandbox_id : string;
  pe_run_id : string;
  pe_probe_name : string;
  pe_expected : string;
  pe_observed : string;
  pe_passed : bool;
  pe_backend_descriptor : string;
  pe_backend_version : string;
  pe_platform : string;
  pe_architecture : string;
  pe_probe_implementation_version : string;
  pe_environment_identity : string;
  pe_sandbox_plan_digest : Digest;
  pe_launch_decision : string
}.

Record SandboxProbeRecord : Type := {
  spr_id : Z;
  spr_evidence : SandboxProbeEvidence;
  spr_recorded_at : Z
}.

Section Sandboxes.
Variable schema : Schema.

(** ** Rows *)

Definition unreleased_sandbox (run_id : string) (r : Row) : bool :=
  col_is "run_id" (SText run_id) r && negb (col_is "phase" (SText (sandbox_phase_as_str SbReleased)) r).

Definition current_sandbox_id (run_id : string) : Tx (option string) :=
  query_optional schema "sandbox_instances" ["id"; "run_id"; "phase"] (unreleased_sandbox run_id) (get_text "id").

Definition sandbox_columns : list string :=
  ["id"; "run_id"; "sandbox_plan_digest"; "environment_identity"; "phase"; "observed_presence"; "revision"].

Definition decode_sandbox (r : Row) :
    Result (string * string * string * string * string * string * Z) SqliteError :=
  let? id := get_text "id" r in
  let? run_id := get_text "run_id" r in
  let? digest := get_blob "sandbox_plan_digest" r in
  let? env := get_text "environment_identity" r in
  let? phase := get_text "phase" r in
  let? presence := get_text "observed_presence" r in
  let? revision := get_integer "revision" r in
  Ok (id, run_id, digest, env, phase, presence, revision).

Definition sandbox_of (row : string * string * string * string * string * string * Z) :
    Result SandboxRecord StoreError :=
  let '(id, run_id, digest, env, phase, presence, revision) := row in
  let? digest := map_err (fun _ => broken "sandbox has a malformed plan digest" [id])
    (digest_from digest "sandbox_plan_digest") in
  let? phase := ok_or (sandbox_phase_parse phase) (broken "sandbox has unknown phase" [id; phase]) in
  let? presence := ok_or (sandbox_presence_parse presence)
    (broken "sandbox has unknown presence" [id; presence]) in
  Ok {| sb_id := id; sb_run_id := run_id; sb_plan_digest := digest; sb_environment_identity := env;
        sb_phase := phase; sb_observed_presence := presence; sb_revision := revision |}.

Definition sandbox_in_transaction (sandbox_id : string) : Tx SandboxRecord :=
  let! found := query_by schema "sandbox_instances" "id" sandbox_id sandbox_columns decode_sandbox in
  let! row := tx_some found (broken "sandbox disappeared inside its own transaction" [sandbox_id]) in
  tx_try (sandbox_of row).

Definition sandbox_phase_at (sandbox_id : string) (expected : Z) : Tx SandboxPhase :=
  let! row := query_by schema "sandbox_instances" "id" sandbox_id ["phase"; "revision"]
    (fun r => let? p := get_text "phase" r in let? n := get_integer "revision" r in Ok (p, n)) in
  let! (phase, revision) := some_or_fail row (RevisionConflict SANDBOX_TABLE sandbox_id expected None) in
  do! guard (revision =? expected)%Z (RevisionConflict SANDBOX_TABLE sandbox_id expected (Some revision)) in
  tx_some (sandbox_phase_parse phase) (broken "sandbox has unknown phase" [sandbox_id; phase]).

Definition at_sandbox_revision (r : SandboxRecord) (revision : Z) : SandboxRecord :=
  {| sb_id := sb_id r; sb_run_id := sb_run_id r; sb_plan_digest := sb_plan_digest r;
     sb_environment_identity := sb_environment_identity r; sb_phase := sb_phase r;
     sb_observed_presence := sb_observed_presence r; sb_revision := revision |}.

Definition sandbox_transition (sandbox_id : string) (expected : Z) (phase : SandboxPhase)
    (presence : SandboxPresence) : Tx SandboxRecord :=
  let! revision := update_revisioned schema SANDBOX_TABLE sandbox_id expected
    [("phase", SText (sandbox_phase_as_str phase));
     ("observed_presence", SText (sandbox_presence_as_str presence))] in
  let! record := sandbox_in_transaction sandbox_id in
  tx_ret (at_sandbox_revision record revision).

Definition transition_presence (sandbox_id : string) (expected : Z) (presence : SandboxPresence) :
    Tx SandboxRecord :=
  let! revision := update_revisioned schema SANDBOX_TABLE sandbox_id expected
    [("observed_presence", SText (sandbox_presence_as_str presence))] in
  let! record := sandbox_in_transaction sandbox_id in
  tx_ret (at_sandbox_revision record revision).

(** ** Operations *)

Definition sandbox_row (now : Z) (sandbox_id : string) (b : SandboxBinding) : list (string * SqlValue) :=
  [("id", SText sandbox_id); ("run_id", SText (sbb_run_id b));
   ("sandbox_plan_digest", digest_blob (sbb_plan_digest b));
   ("environment_identity", SText (sbb_environment_identity b));
   ("phase", SText (sandbox_phase_as_str SbRequested));
   ("observed_presence", SText (sandbox_presence_as_str SbAbsent)); ("revision", SInteger 1);
   ("created_at", SInteger now); ("updated_at", SInteger now)].

Definition create_sandbox (amb : Ambient) (sandbox_id : string) (b : SandboxBinding) : Tx SandboxRecord :=
  let! existing := current_sandbox_id (sbb_run_id b) in
  do! match existing with
      | Some existing => tx_fail (SandboxAlreadyCurrent (sbb_run_id b) existing)
      | None => tx_ret tt
      end in
  let! now := now amb in
  do! tx_insert schema "sandbox_instances" (sandbox_row now sandbox_id b) in
  tx_ret {| sb_id := sandbox_id; sb_run_id := sbb_run_id b; sb_plan_digest := sbb_plan_digest b;
            sb_environment_identity := sbb_environment_identity b; sb_phase := SbRequested;
            sb_observed_presence := SbAbsent; sb_revision := 1 |}.

(** A transition allowed from one phase only. *)
Definition step_from (from : SandboxPhase) (sandbox_id : string) (expected : Z) (to_ : SandboxPhase)
    (presence : SandboxPresence) : Tx SandboxRecord :=
  let! phase := sandbox_phase_at sandbox_id expected in
  do! guard (bool_decide (phase = from))
    (broken "sandbox cannot make this transition"
       [sandbox_id; sandbox_phase_as_str phase; sandbox_phase_as_str to_]) in
  sandbox_transition sandbox_id expected to_ presence.

Definition begin_sandbox_preparation (sandbox_id : string) (expected : Z) : Tx SandboxRecord :=
  step_from SbRequested sandbox_id expected SbPreparing SbUnknown.

Definition complete_sandbox_preparation (sandbox_id : string) (expected : Z) : Tx SandboxRecord :=
  step_from SbPreparing sandbox_id expected SbReady SbPresent.

Definition begin_sandbox_release (sandbox_id : string) (expected : Z) : Tx SandboxRecord :=
  step_from SbReady sandbox_id expected SbReleasing SbUnknown.

Definition complete_sandbox_release (sandbox_id : string) (expected : Z) (observed : SandboxPresence) :
    Tx SandboxRecord :=
  do! guard (negb (bool_decide (observed = SbPresent)))
    (broken "sandbox cannot record Present on a release path" [sandbox_id]) in
  step_from SbReleasing sandbox_id expected SbReleased observed.

Definition fail_sandbox (sandbox_id : string) (expected : Z) (observed : SandboxPresence) : Tx SandboxRecord :=
  do! guard (negb (bool_decide (observed = SbPresent)))
    (broken "sandbox cannot record Present on a failure path" [sandbox_id]) in
  sandbox_transition sandbox_id expected SbError observed.

Definition update_sandbox_presence (sandbox_id : string) (expected : Z) (presence : SandboxPresence) :
    Tx SandboxRecord :=
  transition_presence sandbox_id expected presence.

(** ** Reads *)

Definition sandbox_for_run (db : Database) (run_id : string) : Result (option SandboxRecord) StoreError :=
  and_then (read_row schema db "sandbox_instances" sandbox_columns (unreleased_sandbox run_id) decode_sandbox)
    sandbox_of.

Definition sandbox_by_id (db : Database) (sandbox_id : string) : Result (option SandboxRecord) StoreError :=
  and_then (read_row schema db "sandbox_instances" sandbox_columns (col_is "id" (SText sandbox_id))
              decode_sandbox) sandbox_of.

Definition nonreleased_sandbox_inventory (db : Database) : Result (list SandboxRecord) StoreError :=
  collect (fun r => let? row := map_err Sqlite (decode_sandbox r) in sandbox_of row)
    (List.filter (fun r => negb (col_is "phase" (SText (sandbox_phase_as_str SbReleased)) r))
       (rows db "sandbox_instances")).

(** ** Probe evidence *)

(** The row's [INTEGER PRIMARY KEY] is assigned by SQLite: one more than the largest
    in use. (Past the largest integer it searches for a free one instead; the sum
    is then a REAL here and the insertion is refused.) *)
Definition next_rowid (db : Database) (table : string) : SqlValue :=
  sql_increment (SInteger (max_integer "id" (rows db table))).

Definition flag (b : bool) : SqlValue := SInteger (if b then 1 else 0).

Definition probe_row (id : SqlValue) (now : Z) (e : SandboxProbeEvidence) : list (string * SqlValue) :=
  [("id", id); ("sandbox_id", SText (pe_sandbox_id e)); ("run_id", SText (pe_run_id e));
   ("probe_name", SText (pe_probe_name e)); ("expected", SText (pe_expected e));
   ("observed", SText (pe_observed e)); ("passed", flag (pe_passed e));
   ("backend_descriptor", SText (pe_backend_descriptor e));
   ("backend_version", SText (pe_backend_version e)); ("platform", SText (pe_platform e));
   ("architecture", SText (pe_architecture e));
   ("probe_implementation_version", SText (pe_probe_implementation_version e));
   ("environment_identity", SText (pe_environment_identity e));
   ("sandbox_plan_digest", digest_blob (pe_sandbox_plan_digest e));
   ("launch_decision", SText (pe_launch_decision e)); ("recorded_at", SInteger now)].

Definition record_sandbox_probe_evidence (amb : Ambient) (e : SandboxProbeEvidence) : Tx unit :=
  let! recorded_at := now amb in
  do! tx_execute (fun db => insert_row schema db "sandbox_probe_results"
                              (probe_row (next_rowid db "sandbox_probe_results") recorded_at e)) in
  tx_ret tt.

Definition decode_probe (r : Row) : Result SandboxProbeRecord SqliteError :=
  let? digest := get_blob "sandbox_plan_digest" r in
  let? digest := map_err (fun _ => InvalidColumnType "sandbox_plan_digest")
    (digest_from digest "sandbox_plan_digest") in
  let? id := get_integer "id" r in
  let? sandbox_id := get_text "sandbox_id" r in
  let? run_id := get_text "run_id" r in
  let? name := get_text "probe_name" r in
  let? expected := get_text "expected" r in
  let? observed := get_text "observed" r in
  let? passed := get_integer "passed" r in
  let? backend := get_text "backend_descriptor" r in
  let? version := get_text "backend_version" r in
  let? platform := get_text "platform" r in
  let? architecture := get_text "architecture" r in
  let? implementation := get_text "probe_implementation_version" r in
  let? env := get_text "environment_identity" r in
  let? decision := get_text "launch_decision" r in
  let? recorded_at := get_integer "recorded_at" r in
  Ok {| spr_id := id;
        spr_evidence := {| pe_sandbox_id := sandbox_id; pe_run_id := run_id; pe_probe_name := name;
          pe_expected := expected; pe_observed := observed; pe_passed := negb (passed =? 0)%Z;
          pe_backend_descriptor := backend; pe_backend_version := version; pe_platform := platform;
          pe_architecture := architecture; pe_probe_implementation_version := implementation;
          pe_environment_identity := env; pe_sandbox_plan_digest := digest;
          pe_launch_decision := decision |};
        spr_recorded_at := recorded_at |}.

Definition integer_order (c : string) (r s : Row) : comparison :=
  match column r c, column s c with
  | SInteger a, SInteger b => (a ?= b)%Z
  | _, _ => Eq
  end.

(** Rows recorded in the same second keep the order they were inserted in. *)
Definition sandbox_probe_results (db : Database) (sandbox_id : string) :
    Result (list SandboxProbeRecord) StoreError :=
  map_err Sqlite (collect decode_probe
    (sort_by (integer_order "recorded_at") (joined db "sandbox_probe_results" "sandbox_id" (SText sandbox_id)))).
End Sandboxes.
