(* ===== verification/StoreOperator.v ===== *)
(** * Operator reads ([pantheon-store/src/operator.rs])

    Goals with the journal position they correspond to, and the events after a
    cursor. *)

From Stdlib Require Import ZArith Ascii Lia Sorting.Sorted.
From S2P Require Import Prelude Utf8 Canonical Parse ParseFacts Digest Goal Task Sql Schema Transaction Command StoreBase StorePlanning StoreConfiguration StoreExecution StoreSandbox.

(** A durable position in the journal. *)
Record Cursor : Type := { cur_epoch : string; cur_sequence : Z }.

Definition to_wire (c : Cursor) : string := cur_epoch c +:+ (":" +:+ i64_to_string (cur_sequence c)).

Definition cursor_parse (text : string) : option Cursor :=
  match split_once ":" text with
  | Some (epoch, sequence) =>
      if is_empty epoch then None
      else match parse_i64 sequence with
           | Some n => Some {| cur_epoch := epoch; cur_sequence := n |}
           | None => None
           end
  | None => None
  end.

Record EventRecord : Type := {
  ev_event_id : string;
  ev_journal_epoch : string;
  ev_sequence : Z;
  ev_event_type : string;
  ev_recorded_at : Z;
  ev_command_epoch : option string;
  ev_command_id : option string
}.

Definition event_cursor (e : EventRecord) : Cursor :=
  {| cur_epoch := ev_journal_epoch e; cur_sequence := ev_sequence e |}.

Record GoalDetail : Type := {
  gd_goal : GoalRecord;
  gd_revision_json : string;
  gd_tasks : list TaskRecord
}.

Record GoalSnapshot : Type := { gs_goals : list GoalRecord; gs_cursor : Cursor }.

Inductive CursorError : Type :=
| UnknownEpoch (supplied current : string)
| AheadOfJournal (supplied head : Z).

Section Operator.
Variable schema : Schema.

(** The current epoch, and one less than the number the allocator hands out next. *)
Definition read_head (db : Database) : Result Cursor StoreError :=
  let? found := read_row schema db "journal_epochs" ["epoch"; "next_sequence"; "is_current"] is_current
    (fun r => let? e := get_text "epoch" r in
              let? n := get_integer "next_sequence" r in Ok (e, n)) in
  let? (epoch, next) := ok_or found (Sqlite QueryReturnedNoRows) in
  Ok {| cur_epoch := epoch; cur_sequence := next - 1 |}.

Definition journal_head (db : Database) : Result Cursor StoreError := read_head db.

Definition task_of_row (goal_id : string) (r : Row) : Result TaskRecord StoreError :=
  let? (id, phase, created, digest, revision, active) := map_err Sqlite
    (let? id := get_text "id" r in
     let? phase := get_text "phase" r in
     let? created := get_integer "created_graph_revision" r in
     let? digest := get_blob "spec_digest" r in
     let? revision := get_integer "revision" r in
     let? active := get_optional_text "active_run_id" r in Ok (id, phase, created, digest, revision, active)) in
  let? phase := ok_or (task_phase_parse phase) (broken "task has unknown phase" [id]) in
  let? digest := digest_from digest "spec_digest" in
  Ok {| task_record_id := id; task_record_goal_id := goal_id; task_record_phase := phase;
        task_record_created_graph_revision := created; task_record_spec_digest := digest;
        task_record_revision := revision; task_record_active_run_id := active |}.

Definition goal_detail (db : Database) (goal_id : string) : Result (option GoalDetail) StoreError :=
  let? head := read_row schema db "goals" ["phase"; "current_revision"; "revision"; "id"]
    (col_is "id" (SText goal_id)) decode_goal_head in
  match head with
  | None => Ok None
  | Some (phase, current_revision, revision) =>
      let? phase := ok_or (goal_phase_parse phase) (broken "goal has unknown phase" [goal_id]) in
      let? json := goal_revision_json schema db goal_id current_revision in
      let? json := ok_or json (broken "goal revision is not stored" [goal_id]) in
      let? tasks := collect (task_of_row goal_id)
        (sort_by (text_order "id") (joined db "tasks" "goal_id" (SText goal_id))) in
      Ok (Some {| gd_goal := {| goal_record_id := goal_id; goal_record_phase := phase;
                                goal_record_current_revision := current_revision;
                                goal_record_revision := revision |};
                  gd_revision_json := json; gd_tasks := tasks |})
  end.

Definition goal_of_row (r : Row) : Result GoalRecord StoreError :=
  let? (id, phase, current_revision, revision) := map_err Sqlite
    (let? id := get_text "id" r in
     let? (phase, current_revision, revision) := decode_goal_head r in
     Ok (id, phase, current_revision, revision)) in
  let? phase := ok_or (goal_phase_parse phase) (broken "goal has unknown phase" [id]) in
  Ok {| goal_record_id := id; goal_record_phase := phase; goal_record_current_revision := current_revision;
        goal_record_revision := revision |}.

(** Both reads are of one database: the transaction's snapshot. *)
Definition goal_snapshot (db : Database) : Result GoalSnapshot StoreError :=
  let? goals := collect goal_of_row (sort_by (text_order "id") (rows db "goals")) in
  let? cursor := read_head db in
  Ok {| gs_goals := goals; gs_cursor := cursor |}.

Definition decode_event (r : Row) : Result EventRecord SqliteError :=
  let? event_id := get_text "event_id" r in
  let? epoch := get_text "journal_epoch" r in
  let? sequence := get_integer "sequence" r in
  let? event_type := get_text "event_type" r in
  let? recorded_at := get_integer "recorded_at" r in
  let? command_epoch := get_optional_text "command_epoch" r in
  let? command_id := get_optional_text "command_id" r in
  Ok {| ev_event_id := event_id; ev_journal_epoch := epoch; ev_sequence := sequence;
        ev_event_type := event_type; ev_recorded_at := recorded_at; ev_command_epoch := command_epoch;
        ev_command_id := command_id |}.

(** [LIMIT n]; a negative bound is no bound. *)
Definition sql_limit {A} (n : Z) (l : list A) : list A :=
  if (n <? 0)%Z then l else take (Z.to_nat n) l.

Definition after_cursor (c : Cursor) (r : Row) : bool :=
  col_is "journal_epoch" (SText (cur_epoch c)) r
  && match column r "sequence" with
     | SInteger n => (cur_sequence c <? n)%Z
     | _ => false
     end.

Definition events_after (db : Database) (c : Cursor) (limit : Z) :
    Result (Result (list EventRecord) CursorError) StoreError :=
  let? head := read_head db in
  if negb (String.eqb (cur_epoch c) (cur_epoch head))
  then Ok (Err (UnknownEpoch (cur_epoch c) (cur_epoch head)))
  else if (cur_sequence head <? cur_sequence c)%Z
  then Ok (Err (AheadOfJournal (cur_sequence c) (cur_sequence head)))
  else
    let? events := map_err Sqlite (collect decode_event
      (sql_limit limit (sort_by (integer_order "sequence")
         (List.filter (after_cursor c) (rows db "event_journal"))))) in
    Ok (Ok events).
End Operator.

(** ** Cursors on the wire *)

Lemma parse_i64_to_string z : in_i64 z = true → parse_i64 (i64_to_string z) = Some z.
Proof.
  intros Hz. unfold parse_i64, i64_to_string.
  assert (∀ b ds, all_digits (String b ds) = true → Ascii.eqb b "-" = false ∧ Ascii.eqb b "+" = false) as Hs.
  { intros b ds Hd. cbn in Hd. apply andb_true_iff in Hd as [Hb _]. rewrite !eqb_byte_val.
    unfold is_digit, in_range in Hb. apply andb_true_iff in Hb as [H1%N.leb_le H2%N.leb_le].
    change (byte_val "-") with 45%N. change (byte_val "+") with 43%N. rewrite !N.eqb_neq. lia. }
  destruct z as [|q|q]; [done| |].
  - destruct (u64_to_string_spec (Z.to_N (Zpos q))) as (b & ds & -> & Hd & Hv & _).
    destruct (Hs _ _ Hd) as [-> ->]. unfold unsigned_value. rewrite Hv.
    change (Z.of_N (Z.to_N (Z.pos q))) with (Z.pos q). by rewrite Hz.
  - destruct (u64_to_string_spec (Npos q)) as (b & ds & E & Hd & Hv & _). rewrite Ascii.eqb_refl, E.
    unfold unsigned_value. rewrite Hv. change (Z.opp <$> Some (Z.of_N (N.pos q))) with (Some (Z.neg q)).
    cbv beta iota. by rewrite Hz.
Qed.

(** Whether a byte occurs in a text. *)
Fixpoint has_byte (b : ascii) (s : string) : bool :=
  match s with
  | EmptyString => false
  | String c rest => Ascii.eqb c b || has_byte b rest
  end.

Lemma split_once_app sep s t : has_byte sep s = false → split_once sep (s +:+ String sep t) = Some (s, t).
Proof.
  induction s as [|c s IH]; cbn; intros Hs.
  - by rewrite Ascii.eqb_refl.
  - apply orb_false_iff in Hs as [-> Hs]. cbn in IH. by rewrite (IH Hs).
Qed.

Lemma to_wire_parse c :
  cur_epoch c ≠ EmptyString → has_byte ":" (cur_epoch c) = false → in_i64 (cur_sequence c) = true →
  cursor_parse (to_wire c) = Some c.
Proof.
  destruct c as [e n]. cbn. intros He Hc Hn. unfold cursor_parse, to_wire. cbn [cur_epoch cur_sequence].
  change (":" +:+ i64_to_string n) with (String ":" (i64_to_string n)).
  rewrite split_once_app by done. rewrite parse_i64_to_string by done. unfold is_empty.
  by destruct (String.eqb_spec e EmptyString).
Qed.

(** ** Watching *)

(** The kernel's head is the number before the next. *)
Lemma read_head_kernel db g e n :
  kernel db g e n → read_head MIGRATIONS db = Ok {| cur_epoch := e; cur_sequence := n - 1 |}.
Proof.
  intros [_ (r & Hf & He & Hn) _ _ _]. unfold read_head.
  erewrite read_row_eval; [|reflexivity|reflexivity]. rewrite Hf. cbn.
  unfold get_text, get_integer. by rewrite He, Hn.
Qed.

Lemma counting_sorted n k : StronglySorted Z.le (counting n k).
Proof.
  revert n. induction k as [|k IH]; intros n; cbn; constructor; [done|].
  apply List.Forall_forall. intros m Hm. clear IH. revert n Hm.
  induction k as [|k IH]; intros n Hm; cbn in Hm; [done|]. destruct Hm as [<-|Hm]; [lia|].
  apply IH in Hm. lia.
Qed.

Lemma counting_bounds n k m : m ∈ counting n k → (n < m ≤ n + Z.of_nat k)%Z.
Proof.
  revert n. induction k as [|k IH]; intros n; cbn; [set_solver|]. intros [->|Hm]%elem_of_cons; [lia|].
  apply IH in Hm. lia.
Qed.

Lemma take_counting j n k : take j (counting n k) = counting n (j `min` k).
Proof. revert n j. induction k as [|k IH]; intros n [|j]; cbn; [done..|]. by rewrite IH. Qed.

Definition sequence_after (k : Z) (r : Row) : bool :=
  match column r "sequence" with
  | SInteger n => (k <? n)%Z
  | _ => false
  end.

Abbreviation sequences_of := (map (fun r => column r "sequence")).

Lemma filter_after_all l a m k :
  sequences_of l = map SInteger (counting a m) → (k ≤ a)%Z → List.filter (sequence_after k) l = l.
Proof.
  revert l a. induction m as [|m IH]; intros l a Hl Hk; destruct l as [|r l]; try done.
  cbn in Hl. injection Hl as Hr Hl. cbn [List.filter]. unfold sequence_after at 1. rewrite Hr.
  destruct (Z.ltb_spec k (a + 1)); [|lia]. f_equal. apply (IH _ (a + 1)%Z); [done|lia].
Qed.

(** Rows numbered consecutively: the ones past a number are the rest. *)
Lemma filter_after l a m k :
  sequences_of l = map SInteger (counting a m) → (a ≤ k)%Z →
  sequences_of (List.filter (sequence_after k) l) = map SInteger (counting k (m - Z.to_nat (k - a))).
Proof.
  revert l a. induction m as [|m IH]; intros l a Hl Hk; destruct l as [|r l]; try done.
  destruct (decide (k = a)) as [->|Hne].
  { rewrite (filter_after_all _ a (S m)) by done. by rewrite Hl, Z.sub_diag, Nat.sub_0_r. }
  cbn in Hl. injection Hl as Hr Hl. cbn [List.filter]. unfold sequence_after at 1. rewrite Hr.
  destruct (Z.ltb_spec k (a + 1)); [lia|]. rewrite (IH _ (a + 1)%Z) by (done || lia). f_equal. f_equal. lia.
Qed.

Lemma journal_rows_decode db r :
  valid MIGRATIONS db → r ∈ rows db "event_journal" →
  ∃ e, decode_event r = Ok e ∧ column r "sequence" = SInteger (ev_sequence e) ∧
    column r "journal_epoch" = SText (ev_journal_epoch e) ∧ column r "event_id" = SText (ev_event_id e).
Proof.
  intros Hv Hr. unfold decode_event.
  destruct (text_typed db "event_journal" "event_id" r) as (s1 & H1 & ->); [done..|].
  destruct (text_typed db "event_journal" "journal_epoch" r) as (s2 & H2 & ->); [done..|].
  destruct (integer_typed db "event_journal" "sequence" r) as (s3 & H3 & ->); [done..|].
  destruct (text_typed db "event_journal" "event_type" r) as (s4 & H4 & ->); [done..|].
  destruct (integer_typed db "event_journal" "recorded_at" r) as (s5 & H5 & ->); [done..|].
  destruct (optional_text_typed db "event_journal" "command_epoch" r) as (s6 & ->); [done..|].
  destruct (optional_text_typed db "event_journal" "command_id" r) as (s7 & ->); [done..|].
  cbn. eauto.
Qed.

Lemma filter_filter_b {A} (p q : A → bool) l :
  List.filter (fun x => p x && q x) l = List.filter q (List.filter p l).
Proof. induction l as [|x l IH]; cbn; [done|]. destruct (p x); cbn; by rewrite IH. Qed.

Lemma integer_order_sorted l k m :
  sequences_of l = map SInteger (counting k m) → StronglySorted (cmp_le (integer_order "sequence")) l.
Proof.
  revert l k. induction m as [|m IH]; intros l k Hl; destruct l as [|r l]; try done; [constructor|].
  cbn in Hl. injection Hl as Hr Hl. constructor; [by eapply IH|]. apply List.Forall_forall.
  intros s Hs%(in_map (fun r => column r "sequence")). rewrite Hl in Hs.
  apply in_map_iff in Hs as (j & Hj & Hin%list_elem_of_In%counting_bounds).
  unfold cmp_le, integer_order. rewrite Hr, <-Hj. destruct (Z.compare_spec (k + 1) j); (done || lia).
Qed.

(** A page of events starts right after the cursor and skips nothing. *)
Lemma events_after_page db g e n k limit :
  kernel db g e n → valid MIGRATIONS db → (0 ≤ k < n)%Z → (0 ≤ limit)%Z →
  ∃ events, events_after MIGRATIONS db {| cur_epoch := e; cur_sequence := k |} limit = Ok (Ok events) ∧
    map ev_sequence events = counting k (Z.to_nat (Z.min limit (n - 1 - k))) ∧
    ∀ ev, ev ∈ events → ev_journal_epoch ev = e ∧
      ∃ r, r ∈ rows db "event_journal" ∧ decode_event r = Ok ev.
Proof.
  intros Hk Hv Hr Hl. unfold events_after. rewrite (read_head_kernel _ _ _ _ Hk). cbn [try_bind cur_epoch cur_sequence].
  rewrite String.eqb_refl. cbn [negb]. destruct (Z.ltb_spec (n - 1) k); [lia|].
  set (c := {| cur_epoch := e; cur_sequence := k |}).
  set (l := List.filter (after_cursor c) (rows db "event_journal")).
  assert (sequences_of l = map SInteger (counting k (Z.to_nat (n - 1 - k)))) as Hseq.
  { unfold l. change (after_cursor c) with (fun r => col_is "journal_epoch" (SText e) r && sequence_after k r).
    rewrite filter_filter_b, (filter_after _ 0 (Z.to_nat (n - 1))); [f_equal; f_equal; lia| |lia].
    apply (kn_sequences _ _ _ _ Hk). }
  rewrite (sort_by_sorted_id _ l) by (by eapply integer_order_sorted).
  unfold sql_limit. destruct (Z.ltb_spec limit 0); [lia|].
  assert (∀ r, r ∈ l → r ∈ rows db "event_journal" ∧ column r "journal_epoch" = SText e) as Hin.
  { intros r [Hr' Ha]%list_elem_of_In%filter_In. split; [by apply list_elem_of_In|].
    apply andb_true_iff in Ha as [Ha _]. by apply col_is_text in Ha. }
  assert (∀ r, r ∈ take (Z.to_nat limit) l → r ∈ l) as Hsub by apply subseteq_take.
  set (page := take (Z.to_nat limit) l) in *.
  assert (sequences_of page = map SInteger (counting k (Z.to_nat (Z.min limit (n - 1 - k))))) as Hpage.
  { unfold page. rewrite <-firstn_map, Hseq, firstn_map, take_counting. f_equal.
    f_equal. lia. }
  clearbody page l. revert Hpage. generalize (counting k (Z.to_nat (Z.min limit (n - 1 - k)))). clear Hseq.
  induction page as [|r page IH]; intros q Hq.
  - exists []. destruct q; [|done]. cbn. set_solver.
  - destruct q as [|z q]; [done|]. cbn in Hq. injection Hq as Hz Hq.
    destruct (Hin r (Hsub r ltac:(left))) as [Hrow He].
    destruct (journal_rows_decode db r Hv Hrow) as (ev & Hd & Hs & Hep & _).
    destruct (IH ltac:(intros; apply Hsub; by right) q Hq) as (events & Hev & Hm & Hall).
    exists (ev :: events). cbn [collect]. rewrite Hd. cbn [try_bind].
    destruct (collect decode_event page) as [evs|]; [|done]. cbn in Hev |- *. injection Hev as ->.
    split_and!; [done|f_equal; [congruence|done]|].
    intros x [->|Hx]%elem_of_cons; [|by apply Hall]. split; [congruence|eauto].
Qed.
