(* ===== verification/StoreLaws.v ===== *)
(** * How stored rows may change

    No statement of the store deletes a row. A table with a law keeps, in every
    row, the law's frozen columns and sticky values, and its growing columns never
    decrease; every other table is append-only. *)

From Stdlib Require Import ZArith Ascii Lia.
From S2P Require Import Prelude Utf8 Canonical Digest Sandbox Sql Schema Transaction Command StoreBase StorePlanning.

Record Law : Type := {
  law_frozen : list string;
  law_sticky : list (string * SqlValue);
  law_grows : list string
}.

Definition LAWS : list (string * Law) := [
  ("journal_epochs", {| law_frozen := ["epoch"; "is_current"]; law_sticky := []; law_grows := ["next_sequence"] |});
  ("goals", {| law_frozen := ["id"; "current_revision"; "created_at"];
               law_sticky := [("terminal_target", SText "Cancelled")]; law_grows := ["revision"] |});
  ("task_graphs", {| law_frozen := ["id"]; law_sticky := []; law_grows := ["revision"] |});
  ("tasks", {| law_frozen := ["id"; "goal_id"; "created_graph_revision"; "spec_digest"];
               law_sticky := [("terminal_target", SText "Cancelled")]; law_grows := ["revision"] |});
  ("planning_operations",
     {| law_frozen := ["id"; "goal_id"; "goal_revision"; "expected_graph_revision"; "trigger_kind";
                       "planning_input_digest"; "planner_implementation"; "planner_version";
                       "configuration_activation_sequence"; "created_at"];
        law_sticky := [("state", SText "Materialized")]; law_grows := ["revision"] |});
  ("active_configuration", {| law_frozen := ["id"]; law_sticky := []; law_grows := ["revision"] |});
  ("workspaces",
     {| law_frozen := ["id"; "task_id"; "repository"; "source_path"; "requested_base"; "resolved_base";
                       "created_at"];
        law_sticky := []; law_grows := ["revision"] |});
  ("scheduler_state", {| law_frozen := ["id"]; law_sticky := []; law_grows := ["revision"] |});
  ("goal_scheduling_state", {| law_frozen := ["goal_id"; "created_at"]; law_sticky := [];
                               law_grows := ["revision"] |});
  ("task_scheduling_state", {| law_frozen := ["task_id"]; law_sticky := [];
                               law_grows := ["revision"] |});
  ("run_status", {| law_frozen := ["run_id"; "task_id"]; law_sticky := []; law_grows := ["revision"] |});
  ("attempt_status",
     {| law_frozen := ["attempt_id"; "run_id"];
        law_sticky := [("terminal", SInteger 1); ("launch_contact_state", SText "CONTACT_MAY_HAVE_OCCURRED")];
        law_grows := ["revision"] |});
  ("agent_control_sessions",
     {| law_frozen := ["id"; "attempt_id"; "restore_generation"; "created_at"];
        law_sticky := [("state", SText "REVOKED")]; law_grows := ["credential_revision"] |});
  ("agent_requests",
     {| law_frozen := ["attempt_id"; "request_id"; "request_hash"; "operation"; "created_at"];
        law_sticky := [("state", SText "SUCCEEDED")]; law_grows := [] |});
  ("sandbox_instances",
     {| law_frozen := ["id"; "run_id"; "sandbox_plan_digest"; "environment_identity"; "created_at"];
        law_sticky := []; law_grows := ["revision"] |})].

Definition law (table : string) : option Law :=
  snd <$> find_first (fun p => String.eqb (fst p) table) LAWS.

Definition obeys (l : Law) (r s : Row) : Prop :=
  (∀ c, c ∈ law_frozen l → column s c = column r c) ∧
  (∀ c v, (c, v) ∈ law_sticky l → column r c = v → column s c = v) ∧
  (∀ c n, c ∈ law_grows l → column r c = SInteger n → ∃ m, column s c = SInteger m ∧ (n ≤ m)%Z).

Definition row_law (table : string) (r s : Row) : Prop :=
  match law table with
  | Some l => obeys l r s
  | None => s = r
  end.

(** Every row is kept, up to what its table's law allows. *)
Definition evolves (db db' : Database) : Prop :=
  ∀ t, ∃ kept added, rows db' t = kept ++ added ∧ Forall2 (row_law t) (rows db t) kept.

(** ** Lemmas *)

#[export] Instance obeys_preorder l : PreOrder (obeys l).
Proof.
  split; [intros r; split_and!; [done|done|]; intros c n _ ->; exists n; split; [done|lia]|].
  intros r s t (F1 & S1 & G1) (F2 & S2 & G2). split_and!.
  - intros c Hc. by rewrite (F2 c Hc), (F1 c Hc).
  - intros c v Hc Hv. apply (S2 c v Hc), (S1 c v Hc), Hv.
  - intros c n Hc Hn. destruct (G1 c n Hc Hn) as (m & Hm & ?). destruct (G2 c m Hc Hm) as (k & Hk & ?).
    exists k. split; [done|lia].
Qed.

#[export] Instance row_law_preorder t : PreOrder (row_law t).
Proof.
  unfold row_law. destruct (law t) as [l|]; [apply obeys_preorder|]. split; [done|]. intros r s u -> ->. done.
Qed.

#[export] Instance evolves_preorder : PreOrder evolves.
Proof.
  split.
  - intros db t. exists (rows db t), []. by rewrite app_nil_r.
  - intros d1 d2 d3 H1 H2 t. destruct (H1 t) as (k1 & a1 & E1 & F1), (H2 t) as (k2 & a2 & E2 & F2).
    rewrite E1 in F2. apply Forall2_app_inv_l in F2 as (k & k' & Fk & Fk' & ->).
    exists k, (k' ++ a2). rewrite E2, app_assoc. split; [done|]. by etrans.
Qed.

Lemma evolves_append db table r : evolves db (<[table := rows db table ++ [r]]> db).
Proof.
  intros t. destruct (decide (t = table)) as [->|Hne].
  - exists (rows db table), [r]. by rewrite rows_insert.
  - exists (rows db t), []. by rewrite rows_insert_ne, app_nil_r.
Qed.

Lemma evolves_map db table where_ set :
  (∀ r, r ∈ rows db table → where_ r = true → row_law table r (set r)) →
  evolves db (<[table := map (fun r => if where_ r then set r else r) (rows db table)]> db).
Proof.
  intros Hset t. destruct (decide (t = table)) as [->|Hne].
  - eexists _, []. rewrite rows_insert, app_nil_r. split; [done|]. revert Hset. generalize (rows db table).
    induction l as [|r l IH]; intros Hset; constructor; [|by apply IH; set_solver].
    destruct (where_ r) eqn:E; [|done]. apply Hset; [left|done].
  - exists (rows db t), []. by rewrite rows_insert_ne, app_nil_r.
Qed.

Lemma tx_insert_evolves schema table r : preserves evolves (tx_insert schema table r).
Proof. intros w n w' (_ & _ & _ & ->)%tx_insert_Ok. apply evolves_append. Qed.

Lemma tx_execute_insert_evolves schema table (r : Database → list (string * SqlValue)) :
  preserves evolves (tx_execute (fun db => insert_row schema db table (r db))).
Proof. intros w n w' [(_ & _ & ->)%insert_row_Ok _]%tx_execute_Ok. apply evolves_append. Qed.

Lemma tx_insert_or_ignore_evolves schema table key r :
  preserves evolves (tx_insert_or_ignore schema table key r).
Proof. intros w n w' (_ & [[-> _]|[_ ->]])%tx_insert_or_ignore_Ok; [done|]. apply evolves_append. Qed.

(** A column that is incremented in a row that is still well typed. *)
Lemma incremented db table c r s n :
  valid MIGRATIONS db → declared_type table c = Some (TInteger, true) → s ∈ rows db table →
  column r c = SInteger n → column s c = sql_increment (column r c) → column s c = SInteger (n + 1).
Proof.
  intros Hv Hd Hs Hr Hi. destruct (integer_typed _ _ _ _ Hv Hd Hs) as (m & Hm & _).
  rewrite Hr in Hi. cbn in Hi. destruct (in_i64 (n + 1)); congruence.
Qed.

Lemma tx_update_evolves table cols where_ set :
  (∀ db r, valid MIGRATIONS db → set r ∈ rows db table → where_ r = true → row_law table r (set r)) →
  preserves evolves (tx_update MIGRATIONS table cols where_ set).
Proof.
  intros Hset w n w' (_ & _ & Hv & Hdb)%tx_update_Ok. rewrite Hdb. apply evolves_map. intros r Hr Hw.
  apply (Hset (w_db w') r); [done| |done]. rewrite Hdb, rows_insert. apply list_elem_of_In, in_map_iff.
  exists r. rewrite Hw. by rewrite <-list_elem_of_In.
Qed.

(** What a SET clause may assign under a law. *)
Definition allows (l : Law) (asg : list (string * SqlValue)) : Prop :=
  Forall (fun c => c ≠ REVISION_COLUMN ∧ assigned asg c = None) (law_frozen l) ∧
  Forall (fun cv => cv.1 ≠ REVISION_COLUMN ∧ (assigned asg cv.1 = None ∨ assigned asg cv.1 = Some cv.2)) (law_sticky l) ∧
  Forall (fun c => c = REVISION_COLUMN) (law_grows l).

Lemma update_revisioned_by_evolves table kc key expected asg l :
  ascii_lower table = table → law table = Some l → declared_type table REVISION_COLUMN = Some (TInteger, true) →
  allows l asg → preserves evolves (update_revisioned_by MIGRATIONS table kc key expected asg).
Proof.
  intros Ht Hl Hd (Hf & Hs & Hg) w n w' (_ & _ & Hv & _ & _ & Hdb)%update_revisioned_by_Ok. rewrite Ht in Hdb.
  rewrite Hdb. apply evolves_map. intros r Hr Hw. unfold row_law. rewrite Hl.
  rewrite List.Forall_forall in Hf. rewrite List.Forall_forall in Hs. rewrite List.Forall_forall in Hg.
  setoid_rewrite <-list_elem_of_In in Hf. setoid_rewrite <-list_elem_of_In in Hs.
  setoid_rewrite <-list_elem_of_In in Hg. split_and!.
  - intros c Hc. destruct (Hf c Hc) as [Hne Ha]. by rewrite column_set_clause, Ha.
  - intros c v Hc Hcol. destruct (Hs _ Hc) as [Hne Ha]. cbn in Hne, Ha. rewrite column_set_clause by done.
    by destruct Ha as [->| ->].
  - intros c m Hc Hm. rewrite (Hg c Hc) in Hm |- *. exists (m + 1)%Z. split; [|lia].
    apply (incremented (w_db w') table REVISION_COLUMN r); [done|done| |done|apply set_clause_revision].
    rewrite Hdb, rows_insert. apply list_elem_of_In, in_map_iff. exists r. rewrite Hw. by rewrite <-list_elem_of_In.
Qed.

Lemma update_revisioned_evolves table key expected asg l :
  ascii_lower table = table → law table = Some l → declared_type table REVISION_COLUMN = Some (TInteger, true) →
  allows l asg → preserves evolves (update_revisioned MIGRATIONS table key expected asg).
Proof. apply update_revisioned_by_evolves. Qed.

(** Decides [allows] for a clause whose column names are known. *)
Ltac solve_allows :=
  split_and!; repeat (apply Forall_cons; split); try apply Forall_nil; try exact I;
    try (split; [discriminate|]); try reflexivity; first [by left | by right | done].

Ltac solve_evolves :=
  solve_preserves;
  first [ apply tx_insert_evolves | apply tx_insert_or_ignore_evolves | apply tx_execute_insert_evolves
        | eapply update_revisioned_by_evolves; [reflexivity|reflexivity|reflexivity|solve_allows]
        | eapply update_revisioned_evolves; [reflexivity|reflexivity|reflexivity|solve_allows]
        | idtac ].

(** ** The kernel's own statements *)

Lemma allocate_sequence_evolves : preserves evolves (allocate_sequence MIGRATIONS).
Proof.
  unfold allocate_sequence. solve_preserves.
  intros w n w' [(_ & Hv & Hdb)%update_Ok _]%tx_execute_Ok. rewrite Hdb. apply evolves_map.
  intros r Hr Hw. assert (advance_sequence r ∈ rows (w_db w') "journal_epochs") as Hin.
  { rewrite Hdb, rows_insert. apply list_elem_of_In, in_map_iff. exists r. rewrite Hw.
    by rewrite <-list_elem_of_In. }
  cbn. unfold row_law. cbn. unfold obeys. cbn [law_frozen law_sticky law_grows]. split_and!.
  - intros c Hc. unfold advance_sequence. rewrite column_insert_ne; [done|]. set_solver.
  - intros c v Hc. set_solver.
  - intros c m ->%list_elem_of_singleton Hm. exists (m + 1)%Z. split; [|lia].
    apply (incremented (w_db w') "journal_epochs" "next_sequence" r); [done|reflexivity|done|done|].
    unfold advance_sequence. by rewrite column_insert.
Qed.

Lemma append_internal_event_evolves amb e : preserves evolves (append_internal_event MIGRATIONS amb e).
Proof.
  unfold append_internal_event. apply preserves_bind; [apply _|apply allocate_sequence_evolves|].
  intros cur. solve_preserves.
  apply (tx_execute_insert_evolves MIGRATIONS "event_journal" (fun _ => event_row amb cur e None)).
Qed.

(** ** One step of the store

    What every operation keeps: the laws, the constraints, the kernel's journal,
    and the execution slot of a live Run. *)

Definition live (r : Row) : bool := col_in "phase" live_run_phases r.

Definition slot_held (db : Database) : Prop :=
  ∀ r, r ∈ rows db "run_status" → live r = true → column r "active_slot" = SText "global".

Record stepped (db db' : Database) : Prop := {
  adv_evolves : evolves db db';
  adv_valid : valid MIGRATIONS db';
  adv_kernel : ∀ g e n, kernel db g e n → ∃ n', (n ≤ n')%Z ∧ kernel db' g e n';
  adv_slot : slot_held db → slot_held db'
}.

Definition advance (db db' : Database) : Prop := valid MIGRATIONS db → stepped db db'.

#[export] Instance advance_preorder : PreOrder advance.
Proof.
  split.
  - intros db Hv. split; [done|done|intros g e n Hk; exists n; split; [lia|done]|done].
  - intros d1 d2 d3 A1 A2 Hv. destruct (A1 Hv) as [E1 V1 K1 S1]. destruct (A2 V1) as [E2 V2 K2 S2].
    split; [by etrans|done| |auto].
    intros g e n Hk. destruct (K1 g e n Hk) as (n1 & ? & Hk1). destruct (K2 g e n1 Hk1) as (n2 & ? & Hk2).
    exists n2. split; [lia|done].
Qed.

Lemma kernel_advance db db' g e n :
  (∀ t, t ∈ kernel_tables → rows db' t = rows db t) → kernel db g e n →
  ∃ n', (n ≤ n')%Z ∧ kernel db' g e n'.
Proof. intros Hs Hk. exists n. split; [lia|]. by eapply kernel_same. Qed.

(** A table that is neither the kernel's nor the Runs' status. *)
Definition ordinary (table : string) : bool := negb (contains ("run_status" :: kernel_tables) table).

Lemma ordinary_spec table l db :
  ordinary table = true →
  (∀ t, t ∈ kernel_tables → rows (<[table := l]> db) t = rows db t) ∧
  rows (<[table := l]> db) "run_status" = rows db "run_status".
Proof.
  unfold ordinary. intros Ho%negb_true_iff.
  assert (∀ t, t ∈ "run_status" :: kernel_tables → table ≠ t) as Hne.
  { intros t Ht ->. apply not_true_iff_false in Ho. apply Ho, contains_true, Ht. }
  split; [intros t Ht|]; apply rows_insert_ne, Hne; [by right|left].
Qed.

Lemma advance_ordinary db table l :
  ordinary table = true → evolves db (<[table := l]> db) → valid MIGRATIONS (<[table := l]> db) →
  advance db (<[table := l]> db).
Proof.
  intros Ho He Hv. destruct (ordinary_spec table l db Ho) as [Hk Hr]. intros _. split; [done|done| |].
  - intros g e n. by apply kernel_advance.
  - unfold slot_held. by rewrite Hr.
Qed.

Lemma tx_insert_advance table r :
  ordinary table = true → preserves advance (tx_insert MIGRATIONS table r).
Proof.
  intros Ho w n w' (_ & _ & Hv & Hdb)%tx_insert_Ok. rewrite Hdb in *. apply advance_ordinary; [done| |done].
  apply evolves_append.
Qed.

Lemma tx_execute_insert_advance table (r : Database → list (string * SqlValue)) :
  ordinary table = true → preserves advance (tx_execute (fun db => insert_row MIGRATIONS db table (r db))).
Proof.
  intros Ho w n w' [(_ & Hv & Hdb)%insert_row_Ok _]%tx_execute_Ok. rewrite Hdb in *.
  apply advance_ordinary; [done| |done]. apply evolves_append.
Qed.

Lemma tx_insert_or_ignore_advance table key r :
  ordinary table = true → preserves advance (tx_insert_or_ignore MIGRATIONS table key r).
Proof.
  intros Ho w n w' (_ & [[-> _]|[Hv Hdb]])%tx_insert_or_ignore_Ok; [done|]. rewrite Hdb in *.
  apply advance_ordinary; [done| |done]. apply evolves_append.
Qed.

Lemma tx_update_advance table cols where_ set :
  ordinary table = true →
  (∀ db r, valid MIGRATIONS db → set r ∈ rows db table → where_ r = true → row_law table r (set r)) →
  preserves advance (tx_update MIGRATIONS table cols where_ set).
Proof.
  intros Ho Hset w n w' Hu. pose proof (tx_update_evolves _ cols _ _ Hset w n w' Hu) as He.
  apply tx_update_Ok in Hu as (_ & _ & Hv & Hdb). rewrite Hdb in *. by apply advance_ordinary.
Qed.

Lemma update_revisioned_by_advance table kc key expected asg l :
  ordinary table = true → ascii_lower table = table → law table = Some l →
  declared_type table REVISION_COLUMN = Some (TInteger, true) → allows l asg →
  preserves advance (update_revisioned_by MIGRATIONS table kc key expected asg).
Proof.
  intros Ho Ht Hl Hd Ha w n w' Hu.
  pose proof (update_revisioned_by_evolves _ kc key expected _ _ Ht Hl Hd Ha w n w' Hu) as He.
  apply update_revisioned_by_Ok in Hu as (_ & _ & Hv & _ & _ & Hdb). rewrite Ht in Hdb. rewrite Hdb in *.
  by apply advance_ordinary.
Qed.

Lemma update_revisioned_advance table key expected asg l :
  ordinary table = true → ascii_lower table = table → law table = Some l →
  declared_type table REVISION_COLUMN = Some (TInteger, true) → allows l asg →
  preserves advance (update_revisioned MIGRATIONS table key expected asg).
Proof. apply update_revisioned_by_advance. Qed.

(** A change of a Run's status that keeps the slot of a live Run. *)
Lemma advance_run_status key expected asg w n w' :
  update_revisioned_by MIGRATIONS "run_status" "run_id" key expected asg w = (Ok n, w') →
  allows {| law_frozen := ["run_id"; "task_id"]; law_sticky := []; law_grows := ["revision"] |} asg →
  (∀ r, r ∈ rows (w_db w) "run_status" → cas_where "run_id" key expected r = true →
     (live r = true → column r "active_slot" = SText "global") →
     live (set_clause asg r) = true → column (set_clause asg r) "active_slot" = SText "global") →
  advance (w_db w) (w_db w').
Proof.
  intros Hu Ha Hs.
  pose proof (update_revisioned_by_evolves "run_status" "run_id" key expected asg _ eq_refl eq_refl eq_refl Ha w n w' Hu) as He.
  apply update_revisioned_by_Ok in Hu as (_ & _ & Hv & _ & _ & Hdb). cbn [ascii_lower] in Hdb.
  change (ascii_lower "run_status") with "run_status" in Hdb. intros _. split; [done|done| |].
  - intros g e k. apply kernel_advance. intros t Ht. rewrite Hdb. apply rows_insert_ne.
    intros <-. revert Ht. by apply (bool_decide_unpack _).
  - intros Hh r Hr. rewrite Hdb, rows_insert in Hr. apply list_elem_of_In, in_map_iff in Hr as (s & <- & Hin%list_elem_of_In).
    destruct (cas_where _ _ _ s) eqn:Ec; [|by apply Hh]. apply Hs; [done|done|]. by apply Hh.
Qed.

(** A new Run's status, with the slot when it is live. *)
Lemma tx_insert_run_status_advance r :
  (live (list_to_map r) = true → column (list_to_map r) "active_slot" = SText "global") →
  preserves advance (tx_insert MIGRATIONS "run_status" r).
Proof.
  intros Hs w n w' (_ & _ & Hv & Hdb)%tx_insert_Ok _. rewrite Hdb in *. split; [apply evolves_append|done| |].
  - intros g e k. apply kernel_advance. intros t Ht. apply rows_insert_ne.
    intros <-. revert Ht. by apply (bool_decide_unpack _).
  - intros Hh s Hin Hl. rewrite rows_insert in Hin. apply elem_of_app in Hin as [Hin|Hin]; [by apply Hh|].
    apply list_elem_of_singleton in Hin as ->. by apply Hs.
Qed.

Lemma append_internal_event_advance amb ev : preserves advance (append_internal_event MIGRATIONS amb ev).
Proof.
  intros w cur w' H. pose proof (append_internal_event_evolves amb ev w cur w' H) as He.
  unfold append_internal_event in H. tx_step H as Ea. tx_step H as Ei. apply tx_ret_Ok in H as [-> ->].
  apply tx_execute_Ok in Ei as [(_ & Hv & Hdb)%insert_row_Ok _].
  assert (∀ t, t ≠ "journal_epochs" → t ≠ "event_journal" → rows (w_db w1) t = rows (w_db w) t) as Hsame.
  { intros t H1 H2. rewrite Hdb, rows_insert_ne by done. unfold allocate_sequence in Ea. tx_step Ea as Eq.
    apply expect_row_Ok, query_optional_Ok in Eq as [-> _]. destruct a1 as [e' n']. tx_step Ea as Eu.
    apply tx_execute_changes in Eu. destruct (Nat.eqb _ _); [|done]. apply tx_ret_Ok in Ea as [_ ->].
    apply Eu. set_solver. }
  intros _. split; [done|done| |].
  - intros g e n Hk. exists (n + 1)%Z. split; [lia|].
    destruct (allocate_sequence_Ok _ _ _ _ _ _ Hk Ea) as (-> & _ & Hs & Hep). destruct Hk as [Hgen _ Hpos Hseq Hled].
    assert (rows (w_db w1) "event_journal" = rows (w_db w) "event_journal" ++
      [list_to_map (event_row amb {| cursor_epoch := e; cursor_sequence := n |} ev None)]) as Hev
      by (rewrite Hdb, rows_insert, Hs by done; done).
    split.
    + by rewrite Hsame.
    + by rewrite Hdb, rows_insert_ne.
    + lia.
    + unfold sequences. rewrite Hev, filter_app_b, map_app. fold (sequences (w_db w) e). rewrite Hseq, filter_one.
      * cbn [map]. unfold event_row. rewrite !column_cons. by apply next_counting.
      * apply col_is_true. unfold event_row. by rewrite !column_cons.
    + rewrite Hsame by done. rewrite Hev. intros r Hin. destruct (Hled r Hin) as (ev' & Hv' & Hc).
      exists ev'. split; [apply elem_of_app; by left|done].
  - unfold slot_held. by rewrite Hsame.
Qed.

#[export] Hint Resolve append_internal_event_advance : preserves.

(** Walks an operation; what is left are the statements it does not know. *)
Ltac solve_advance :=
  solve_preserves;
  first [ apply tx_insert_advance; reflexivity | apply tx_insert_or_ignore_advance; reflexivity
        | eapply update_revisioned_by_advance; [reflexivity|reflexivity|reflexivity|reflexivity|solve_allows]
        | eapply update_revisioned_advance; [reflexivity|reflexivity|reflexivity|reflexivity|solve_allows]
        | idtac ].

(** Proves a law of a row update written with column insertions. *)
Ltac solve_law :=
  unfold row_law; cbn [law fmap option_fmap option_map find_first LAWS String.eqb Ascii.eqb Bool.eqb fst snd];
  unfold obeys; cbn [law_frozen law_sticky law_grows];
  split_and!;
  [ let c := fresh in let Hc := fresh in intros c Hc; rewrite !column_insert_ne; [reflexivity|set_solver..]
  | let c := fresh in let v := fresh in let Hc := fresh in intros c v Hc; set_unfold in Hc; destruct_or?; simplify_eq
  | let c := fresh in let n := fresh in let Hc := fresh in intros c n Hc; set_unfold in Hc; destruct_or?; simplify_eq ].
