(* ===== verification/StoreHistory.v ===== *)
(** * Histories of the store

    Every operation of the store that writes, as data; a request runs one of them,
    in the command envelope or in a plain write transaction, as the source does; a
    history is any sequence of requests. *)

From Stdlib Require Import ZArith Ascii Lia.
From S2P Require Import Prelude Utf8 Canonical Digest Goal Task Validate ConfigModel Scheduling Workspace Sandbox Candidate Sql Schema Transaction Command StoreBase StorePlanning StoreConfiguration StoreWorkspace StoreArtifacts StoreExecution StoreScheduling StoreContext StoreAgentControl StoreSandbox StoreOperator StoreLaws.

Inductive Operation : Type :=
| OpCreateGoal (goal_id : string) (spec : GoalSpec)
| OpRecordPlanning (d : PlanningDecision) (p : ProposalRecord)
| OpApplyPlan (operation_id task_id : string) (plan : Materializable)
| OpCancelGoal (goal_id : string)
| OpActivate (compiled : CompiledConfiguration) (source : Digest) (expected : Z)
| OpOpenWorkspace (id : string) (b : WorkspaceBinding)
| OpBeginMaterialization (id : string) (expected : Z)
| OpCompleteMaterialization (id : string) (expected : Z) (base : ResolvedBase)
| OpFailMaterialization (id : string) (expected : Z) (observed : Materialization)
| OpFreeze (authority : SealAuthority) (task_id slot id : string) (expected : Z)
| OpValidateSeal (authority : SealAuthority) (task_id slot id : string) (expected : Z)
| OpCaptureFailure (id : string) (expected : Z)
| OpCommitSeal (fresh : string) (seal : SealedChangeset)
| OpDispatchMode (mode : DispatchMode) (expected : Z)
| OpBackoff (task_id : string) (expected : Z) (code detail : string) (next : Z)
| OpRunIntent (i : RunIntent)
| OpAttachPlan (a : ContextPlanAttachment)
| OpCreateAttempt (c : AttemptCreation)
| OpRekey (attempt_id verifier : string) (expected : Z)
| OpLaunchContact (run_id attempt_id epoch : string) (status credential : Z)
| OpObserve (attempt_id : string) (expected : Z) (u : ObservationUpdate)
| OpConcludeRun (run_id target : string) (expected : Z)
| OpOpenRequest (c : AgentCredential) (o : AgentOperation) (request_id hash : string)
| OpCompleteRequest (c : AgentCredential) (request_id result_ref : string)
| OpFailRequest (c : AgentCredential) (request_id code : string)
| OpSubmit (s : CandidateSubmission)
| OpCreateSandbox (id : string) (b : SandboxBinding)
| OpPrepareSandbox (id : string) (expected : Z)
| OpReadySandbox (id : string) (expected : Z)
| OpReleaseSandbox (id : string) (expected : Z)
| OpReleasedSandbox (id : string) (expected : Z) (observed : SandboxPresence)
| OpFailSandbox (id : string) (expected : Z) (observed : SandboxPresence)
| OpSandboxPresence (id : string) (expected : Z) (presence : SandboxPresence)
| OpProbe (e : SandboxProbeEvidence).

(** The result of an operation is not followed here. *)
Definition drop_result {A} (m : Tx A) : Tx unit := do! m in tx_ret tt.

Section History.
Context `{Sha256}.

Definition body (amb : Ambient) (o : Operation) : Tx unit :=
  match o with
  | OpCreateGoal g s => drop_result (create_goal MIGRATIONS amb g s)
  | OpRecordPlanning d p => drop_result (record_direct_planning MIGRATIONS amb d p)
  | OpApplyPlan o t p => drop_result (apply_plan MIGRATIONS amb o t p)
  | OpCancelGoal g => drop_result (cancel_goal MIGRATIONS g)
  | OpActivate c s n => drop_result (write_activation MIGRATIONS amb c s n)
  | OpOpenWorkspace i b => drop_result (open_workspace MIGRATIONS amb i b)
  | OpBeginMaterialization i n => drop_result (begin_workspace_materialization MIGRATIONS i n)
  | OpCompleteMaterialization i n b => drop_result (complete_workspace_materialization MIGRATIONS i n b)
  | OpFailMaterialization i n m => drop_result (fail_workspace_materialization MIGRATIONS i n m)
  | OpFreeze a t s i n => drop_result (freeze_workspace MIGRATIONS a t s i n)
  | OpValidateSeal a t s i n => drop_result (validate_seal_authority_command MIGRATIONS a t s i n)
  | OpCaptureFailure i n => drop_result (record_capture_failure MIGRATIONS i n)
  | OpCommitSeal f s => drop_result (commit_changeset_seal MIGRATIONS amb f s)
  | OpDispatchMode m n => drop_result (set_dispatch_mode MIGRATIONS amb m n)
  | OpBackoff t n c d next => drop_result (record_scheduling_backoff MIGRATIONS amb t n c d next)
  | OpRunIntent i => drop_result (apply_run_intent MIGRATIONS amb i)
  | OpAttachPlan a => drop_result (apply_attachment MIGRATIONS amb a)
  | OpCreateAttempt c => drop_result (apply_attempt_creation MIGRATIONS amb c)
  | OpRekey a v n => drop_result (apply_rekey MIGRATIONS amb a v n)
  | OpLaunchContact r a e s c => apply_launch_contact MIGRATIONS amb r a e s c
  | OpObserve a n u => drop_result (apply_observation MIGRATIONS amb a n u)
  | OpConcludeRun r t n => apply_conclude_run MIGRATIONS amb r t n
  | OpOpenRequest c o r h => drop_result (open_agent_request MIGRATIONS amb c o r h)
  | OpCompleteRequest c r ref => complete_agent_request MIGRATIONS amb c r ref
  | OpFailRequest c r code => fail_agent_request MIGRATIONS amb c r code
  | OpSubmit s => drop_result (apply_candidate_submission MIGRATIONS amb s)
  | OpCreateSandbox i b => drop_result (create_sandbox MIGRATIONS amb i b)
  | OpPrepareSandbox i n => drop_result (begin_sandbox_preparation MIGRATIONS i n)
  | OpReadySandbox i n => drop_result (complete_sandbox_preparation MIGRATIONS i n)
  | OpReleaseSandbox i n => drop_result (begin_sandbox_release MIGRATIONS i n)
  | OpReleasedSandbox i n o => drop_result (complete_sandbox_release MIGRATIONS i n o)
  | OpFailSandbox i n o => drop_result (fail_sandbox MIGRATIONS i n o)
  | OpSandboxPresence i n p => drop_result (update_sandbox_presence MIGRATIONS i n p)
  | OpProbe e => record_sandbox_probe_evidence MIGRATIONS amb e
  end.

(** Worker- and controller-facing writes that keep their own idempotency and are
    not recorded in the command ledger. *)
Definition plain_write (o : Operation) : bool :=
  match o with
  | OpBackoff _ _ _ _ _ | OpRekey _ _ _ | OpLaunchContact _ _ _ _ _ | OpObserve _ _ _
  | OpConcludeRun _ _ _ | OpOpenRequest _ _ _ _ | OpCompleteRequest _ _ _ | OpFailRequest _ _ _
  | OpSubmit _ => true
  | _ => false
  end.

Record Request : Type := {
  rq_driver : Driver;
  rq_ambient : Ambient;
  rq_command : Command;
  rq_operation : Operation
}.

Definition serve (q : Request) (conn : Connection) : bool * Connection :=
  let m := body (rq_ambient q) (rq_operation q) in
  if plain_write (rq_operation q)
  then let (r, conn') := run (rq_driver q) m conn in
       (match r with Ok _ => true | Err _ => false end, conn')
  else let (r, conn') := execute_command MIGRATIONS (rq_driver q) (rq_ambient q) (rq_command q) m conn in
       (match r with Ok _ => true | Err _ => false end, conn').

Fixpoint serve_all (l : list Request) (conn : Connection) : list bool * Connection :=
  match l with
  | [] => ([], conn)
  | q :: rest =>
      let (ok, conn1) := serve q conn in
      let (oks, conn2) := serve_all rest conn1 in
      (ok :: oks, conn2)
  end.

(** ** Every operation advances the store *)

Lemma drop_result_advance {A} (m : Tx A) : preserves advance m → preserves advance (drop_result m).
Proof. intros Hm. apply preserves_bind; [apply _|done|]. intros a. apply preserves_ret, _. Qed.

Lemma create_goal_advance amb g s : preserves advance (create_goal MIGRATIONS amb g s).
Proof. unfold create_goal. solve_advance. Qed.

Lemma record_direct_planning_advance amb d p : preserves advance (record_direct_planning MIGRATIONS amb d p).
Proof. unfold record_direct_planning. solve_advance. Qed.

Lemma apply_plan_advance amb o t p : preserves advance (apply_plan MIGRATIONS amb o t p).
Proof. unfold apply_plan, materialize_preconditions, prerequisites_satisfied, active_sequence. solve_advance. Qed.

Lemma fence_all_advance l : preserves advance (fence_all MIGRATIONS l).
Proof.
  induction l as [|[[[t p] n] target] l IH]; cbn [fence_all]; [apply preserves_ret, _|].
  apply preserves_bind; [apply _| |].
  - unfold fence_task, cancelled_task_assignments. solve_advance.
  - intros fenced. apply preserves_bind; [apply _|done|]. intros n'. apply preserves_ret, _.
Qed.

Lemma cancel_goal_advance g : preserves advance (cancel_goal MIGRATIONS g).
Proof. unfold cancel_goal, fence_tasks. solve_advance. apply fence_all_advance. Qed.

Lemma write_components_advance l : preserves advance (write_components MIGRATIONS l).
Proof. induction l as [|[[d g] j] l IH]; cbn [write_components]; solve_advance. Qed.

Lemma write_activation_advance amb c s n : preserves advance (write_activation MIGRATIONS amb c s n).
Proof.
  unfold write_activation, next_activation_sequence. apply preserves_bind; [apply _|apply write_components_advance|].
  intros _. solve_advance.
Qed.

(** Reads of the workspace operations. *)
Lemma workspace_read_advance i : preserves advance (StoreWorkspace.read_in_transaction MIGRATIONS i).
Proof. unfold StoreWorkspace.read_in_transaction. solve_advance. Qed.

Lemma workspace_transition_advance i n p m : preserves advance (transition MIGRATIONS i n p m).
Proof. unfold transition, WORKSPACE_TABLE, StoreWorkspace.read_in_transaction. solve_advance. Qed.

Lemma workspace_phase_and_base_advance i n : preserves advance (workspace_phase_and_base MIGRATIONS i n).
Proof. unfold workspace_phase_and_base. solve_advance. Qed.

Lemma validate_seal_authority_advance a t s i : preserves advance (validate_seal_authority MIGRATIONS a t s i).
Proof. unfold validate_seal_authority, query_blob_key. solve_advance. Qed.

#[local] Hint Resolve workspace_read_advance workspace_transition_advance workspace_phase_and_base_advance
  validate_seal_authority_advance : preserves.

Lemma open_workspace_advance amb i b : preserves advance (open_workspace MIGRATIONS amb i b).
Proof. unfold open_workspace, task_phase, current_workspace_id. solve_advance. Qed.

Lemma begin_materialization_advance i n : preserves advance (begin_workspace_materialization MIGRATIONS i n).
Proof. unfold begin_workspace_materialization, workspace_phase. solve_advance. Qed.

Lemma complete_materialization_advance i n b :
  preserves advance (complete_workspace_materialization MIGRATIONS i n b).
Proof. unfold complete_workspace_materialization. solve_advance. Qed.

Lemma fail_materialization_advance i n m : preserves advance (fail_workspace_materialization MIGRATIONS i n m).
Proof. unfold fail_workspace_materialization, workspace_phase. solve_advance. Qed.

Lemma freeze_advance a t s i n : preserves advance (freeze_workspace MIGRATIONS a t s i n).
Proof. unfold freeze_workspace. solve_advance. Qed.

Lemma validate_seal_advance a t s i n :
  preserves advance (validate_seal_authority_command MIGRATIONS a t s i n).
Proof. unfold validate_seal_authority_command. solve_advance. Qed.

Lemma capture_failure_advance i n : preserves advance (record_capture_failure MIGRATIONS i n).
Proof. unfold record_capture_failure. solve_advance. Qed.

Lemma ensure_blobs_advance amb l : preserves advance (ensure_blobs MIGRATIONS amb l).
Proof. induction l as [|[d n] l IH]; cbn [ensure_blobs]; [|unfold ensure_blob, query_blob_key]; solve_advance. Qed.

Lemma insert_members_advance d l : preserves advance (insert_members MIGRATIONS d l).
Proof. induction l as [|[m n] l IH]; cbn [insert_members]; solve_advance. Qed.

#[local] Hint Resolve ensure_blobs_advance insert_members_advance : preserves.

Lemma commit_seal_advance amb f s : preserves advance (commit_changeset_seal MIGRATIONS amb f s).
Proof.
  unfold commit_changeset_seal, validate_frozen, ensure_workspace_revision, ensure_artifact, record_production,
    query_blob_key.
  solve_advance.
Qed.

Lemma set_dispatch_mode_advance amb m n : preserves advance (set_dispatch_mode MIGRATIONS amb m n).
Proof. unfold set_dispatch_mode, read_state. solve_advance. Qed.

Lemma backoff_advance amb t n c d next :
  preserves advance (record_scheduling_backoff MIGRATIONS amb t n c d next).
Proof. unfold record_scheduling_backoff. solve_advance. Qed.

Lemma attachment_advance amb a : preserves advance (apply_attachment MIGRATIONS amb a).
Proof. unfold apply_attachment, check_source, ensure_context_plan, attach_once, refuse_digest. solve_advance. Qed.

(** ** The updates without a revision *)

Lemma rekey_lawful amb v a n cols :
  preserves advance (tx_update MIGRATIONS "agent_control_sessions" cols (rekey_where a n) (rekey_set amb v)).
Proof.
  apply tx_update_advance; [reflexivity|]. intros db r Hv Hin Hw. unfold rekey_set in *. solve_law.
  - by rewrite !column_insert_ne.
  - intros Hn. eexists. split; [|apply (Z.le_succ_diag_r _)].
    apply (incremented db "agent_control_sessions" "credential_revision" r); [done|reflexivity|done|done|].
    by rewrite column_insert.
Qed.

Lemma revoke_lawful amb cols where_ :
  preserves advance (tx_update MIGRATIONS "agent_control_sessions" cols where_ (revoke_session amb)).
Proof.
  apply tx_update_advance; [reflexivity|]. intros db r Hv Hin Hw. unfold revoke_session in *. solve_law.
  - by rewrite column_insert.
  - intros Hn. rewrite !column_insert_ne by done. eexists. split; [done|lia].
Qed.

Lemma stamp_lawful amb cols where_ :
  preserves advance (tx_update MIGRATIONS "attempt_status" cols where_ (stamp_started amb)).
Proof.
  apply tx_update_advance; [reflexivity|]. intros db r Hv Hin Hw. unfold stamp_started in *. solve_law.
  - by rewrite !column_insert_ne.
  - by rewrite !column_insert_ne.
  - intros Hn. rewrite !column_insert_ne by done. eexists. split; [done|lia].
Qed.

Lemma succeed_lawful now ref cols where_ :
  preserves advance (tx_update MIGRATIONS "agent_requests" cols where_ (succeed_request now ref)).
Proof.
  apply tx_update_advance; [reflexivity|]. intros db r Hv Hin Hw. unfold succeed_request in *. solve_law.
  by rewrite column_insert.
Qed.

Lemma refuse_lawful now code cols a q :
  preserves advance (tx_update MIGRATIONS "agent_requests" cols (started_where a q) (refuse_request now code)).
Proof.
  apply tx_update_advance; [reflexivity|]. intros db r Hv Hin Hw. unfold refuse_request in *. solve_law.
  intros Hs. unfold started_where in Hw. apply andb_true_iff in Hw as [_ Hw%col_is_text]. congruence.
Qed.

#[local] Hint Resolve rekey_lawful revoke_lawful stamp_lawful succeed_lawful refuse_lawful : preserves.

(** ** Runs and attempts *)

Lemma charge_goal_advance now i c : preserves advance (charge_goal MIGRATIONS now i c).
Proof.
  unfold charge_goal. solve_advance. unfold charge_existing. intros w u w' Hx.
  destruct (update_revisioned_by _ _ _ _ _ _ w) as [[n|e] w1] eqn:Eu.
  - injection Hx as _ <-. refine (preserves_run advance _ _ _ _ Eu _). solve_advance.
  - destruct e; try discriminate Hx. destruct actual; discriminate Hx.
Qed.

#[local] Hint Resolve charge_goal_advance : preserves.

Lemma run_intent_advance amb i : preserves advance (apply_run_intent MIGRATIONS amb i).
Proof.
  unfold apply_run_intent, check_intent, commit_intent, check_dispatch, read_state, check_configuration, active_sequence, check_guidance,
    check_owners, check_task, check_goal, check_workspace, StoreScheduling.check_slot, SCHEDULER_TABLE,
    TASK_SCHEDULING_TABLE.
  solve_advance. apply tx_insert_run_status_advance. reflexivity.
Qed.

(** A change of a Run's status that leaves its phase and its slot. *)
Lemma run_status_advance key expected asg :
  allows {| law_frozen := ["run_id"; "task_id"]; law_sticky := []; law_grows := ["revision"] |} asg →
  assigned asg "phase" = None → assigned asg "active_slot" = None →
  preserves advance (update_revisioned_by MIGRATIONS "run_status" "run_id" key expected asg).
Proof.
  intros Ha Hp Hs w n w' Hu. eapply advance_run_status; [done|done|]. intros r _ _ Hr.
  unfold live, col_in. rewrite !column_set_clause, Hp, Hs by done. done.
Qed.

Lemma attempt_creation_advance amb c : preserves advance (apply_attempt_creation MIGRATIONS amb c).
Proof.
  unfold apply_attempt_creation, active_run_revision, next_ordinal, restore_generation. solve_advance.
  apply run_status_advance; [solve_allows|reflexivity|reflexivity].
Qed.

Lemma rekey_advance amb a v n : preserves advance (apply_rekey MIGRATIONS amb a v n).
Proof.
  unfold apply_rekey, forbid_rekey_unless_precontact, restore_generation, current_attempt_of. solve_advance.
Qed.

Lemma launch_contact_advance amb r a e s c : preserves advance (apply_launch_contact MIGRATIONS amb r a e s c).
Proof. unfold apply_launch_contact, current_session_revision, ATTEMPT_STATUS_TABLE. solve_advance. Qed.

Lemma observation_advance amb a n u : preserves advance (apply_observation MIGRATIONS amb a n u).
Proof. unfold apply_observation, ATTEMPT_STATUS_TABLE. solve_advance. Qed.

Lemma conclude_run_advance amb r t n : preserves advance (apply_conclude_run MIGRATIONS amb r t n).
Proof.
  intros w u w' Hx. unfold apply_conclude_run in Hx. tx_step Hx as Eg. tx_step Hx as En. tx_step Hx as Eu.
  etrans; [|refine (preserves_run advance _ _ _ _ Hx _); solve_advance].
  eapply advance_run_status; [done|solve_allows|]. intros row _ _ _. unfold live, col_in.
  rewrite !column_set_clause by done. cbn [assigned fold_left ascii_lower String.eqb Ascii.eqb Bool.eqb fst snd].
  unfold assigned. cbn. intros Hl%bool_decide_eq_true. exfalso.
  apply contains_true in Eg. set_unfold in Eg. destruct Eg as [->|[->|[]]]; by vm_compute in Hl.
Qed.

(** ** Agent control *)

Lemma authenticate_advance c : preserves advance (authenticate_agent_session c).
Proof. unfold authenticate_agent_session, judge_session. solve_advance. Qed.

Lemma lookup_request_advance a q : preserves advance (lookup_request MIGRATIONS a q).
Proof. unfold lookup_request. solve_advance. Qed.

#[local] Hint Resolve authenticate_advance lookup_request_advance : preserves.

Lemma open_request_advance amb c o q h : preserves advance (open_agent_request MIGRATIONS amb c o q h).
Proof. unfold open_agent_request. solve_advance. Qed.

Lemma complete_request_advance amb c q ref : preserves advance (complete_agent_request MIGRATIONS amb c q ref).
Proof. unfold complete_agent_request. solve_advance. Qed.

Lemma fail_request_advance amb c q code : preserves advance (fail_agent_request MIGRATIONS amb c q code).
Proof. unfold fail_agent_request. solve_advance. Qed.

(** ** Sandboxes *)

Lemma sandbox_transition_advance i n p o : preserves advance (sandbox_transition MIGRATIONS i n p o).
Proof. unfold sandbox_transition, sandbox_in_transaction, SANDBOX_TABLE. solve_advance. Qed.

#[local] Hint Resolve sandbox_transition_advance : preserves.

Lemma step_from_advance f i n p o : preserves advance (step_from MIGRATIONS f i n p o).
Proof. unfold step_from, sandbox_phase_at. solve_advance. Qed.

#[local] Hint Resolve step_from_advance : preserves.

Lemma create_sandbox_advance amb i b : preserves advance (create_sandbox MIGRATIONS amb i b).
Proof. unfold create_sandbox, current_sandbox_id. solve_advance. Qed.

Lemma released_sandbox_advance i n o : preserves advance (complete_sandbox_release MIGRATIONS i n o).
Proof. unfold complete_sandbox_release. solve_advance. Qed.

Lemma fail_sandbox_advance i n o : preserves advance (fail_sandbox MIGRATIONS i n o).
Proof. unfold fail_sandbox. solve_advance. Qed.

Lemma presence_advance i n p : preserves advance (update_sandbox_presence MIGRATIONS i n p).
Proof. unfold update_sandbox_presence, transition_presence, sandbox_in_transaction, SANDBOX_TABLE. solve_advance. Qed.

Lemma probe_advance amb e : preserves advance (record_sandbox_probe_evidence MIGRATIONS amb e).
Proof.
  unfold record_sandbox_probe_evidence. apply preserves_bind; [apply _|apply preserves_now, _|]. intros t.
  apply preserves_bind; [apply _| |intros; apply preserves_ret, _].
  by apply (tx_execute_insert_advance "sandbox_probe_results"
    (fun db => probe_row (next_rowid db "sandbox_probe_results") t e)).
Qed.
(** ** Candidate submission *)

Lemma commit_submission_advance amb s prior run_id task_id n w out w' :
  submission_current (w_db w) s run_id task_id n →
  commit_submission MIGRATIONS amb s prior run_id task_id n w = (Ok out, w') → advance (w_db w) (w_db w').
Proof.
  intros Hc Hx. unfold commit_submission in Hx. tx_step Hx as En. tx_step Hx as Ec.
  assert (advance (w_db w) (w_db w0)) as A1.
  { refine (preserves_run advance _ _ _ _ Ec _). unfold create_candidate. solve_advance. }
  pose proof (create_candidate_Ok _ _ _ _ _ _ _ Ec) as (F1 & _ & _ & V1). tx_step Hx as Eu.
  etrans; [exact A1|]. etrans; [|refine (preserves_run advance _ _ _ _ Hx _)].
  2: { unfold record_outcome. solve_advance. }
  intros Hv. refine (advance_run_status _ _ _ _ _ _ Eu _ _ Hv); [solve_allows|].
  intros r Hr Hcas Hlive _. unfold live, col_in in Hlive. rewrite !column_set_clause by done. cbn.
  apply Hlive. destruct Hc as [(at_ & st & r0 & _ & _ & _ & _ & Hr0 & _ & Hph & _) _ _].
  rewrite <-(row_of_same _ _ _ _ _ _ F1) in Hr0 by elem.
  unfold cas_where in Hcas. apply andb_true_iff in Hcas as [Hk%col_is_text _]. change (ascii_lower "run_id") with "run_id" in Hk.
  rewrite (row_of_unique MIGRATIONS _ _ _ _ _ Hv Hr Hk) in Hr0. injection Hr0 as <-. by rewrite Hph.
Qed.

Lemma submission_advance amb s : preserves advance (apply_candidate_submission MIGRATIONS amb s).
Proof.
  intros w out w' Hx Hv. unfold apply_candidate_submission in Hx. tx_step Hx as Ea.
  apply authenticate_unchanged in Ea as ->. tx_step Hx as El. apply lookup_request_Ok in El as [-> _].
  assert (∀ prior, submit_fresh MIGRATIONS amb s prior w = (Ok out, w') → stepped (w_db w) (w_db w')) as Hf.
  { intros prior Hf. unfold submit_fresh in Hf. tx_step Hf as Es. destruct a1 as [[run_id task_id] n].
    apply submission_authority_Ok in Es as [-> Hc]; [|done]. exact (commit_submission_advance _ _ _ _ _ _ _ _ _ Hc Hf Hv). }
  destruct a0 as [[h state]|]; [|by eapply Hf]. tx_step Hx as Eg. destruct state as [|result|problem];
    [by eapply Hf| |by eapply Hf]. tx_step Hx as Ed. tx_step Hx as Ec. apply tx_ret_Ok in Hx as [-> ->].
  apply load_committed_unchanged in Ec as ->. by apply (PreOrder_Reflexive (R:=advance) (w_db w)).
Qed.

(** ** Requests *)

Lemma body_advance amb o : preserves advance (body amb o).
Proof.
  destruct o.
  - apply drop_result_advance, create_goal_advance.
  - apply drop_result_advance, record_direct_planning_advance.
  - apply drop_result_advance, apply_plan_advance.
  - apply drop_result_advance, cancel_goal_advance.
  - apply drop_result_advance, write_activation_advance.
  - apply drop_result_advance, open_workspace_advance.
  - apply drop_result_advance, begin_materialization_advance.
  - apply drop_result_advance, complete_materialization_advance.
  - apply drop_result_advance, fail_materialization_advance.
  - apply drop_result_advance, freeze_advance.
  - apply drop_result_advance, validate_seal_advance.
  - apply drop_result_advance, capture_failure_advance.
  - apply drop_result_advance, commit_seal_advance.
  - apply drop_result_advance, set_dispatch_mode_advance.
  - apply drop_result_advance, backoff_advance.
  - apply drop_result_advance, run_intent_advance.
  - apply drop_result_advance, attachment_advance.
  - apply drop_result_advance, attempt_creation_advance.
  - apply drop_result_advance, rekey_advance.
  - apply launch_contact_advance.
  - apply drop_result_advance, observation_advance.
  - apply conclude_run_advance.
  - apply drop_result_advance, open_request_advance.
  - apply complete_request_advance.
  - apply fail_request_advance.
  - apply drop_result_advance, submission_advance.
  - apply drop_result_advance, create_sandbox_advance.
  - apply drop_result_advance, step_from_advance.
  - apply drop_result_advance, step_from_advance.
  - apply drop_result_advance, step_from_advance.
  - apply drop_result_advance, released_sandbox_advance.
  - apply drop_result_advance, fail_sandbox_advance.
  - apply drop_result_advance, presence_advance.
  - apply probe_advance.
Qed.

(** The number, the event and the ledger row of a command that executed. *)
Lemma journal_tail_advance {A} amb c (v : A) :
  preserves advance
    (let! cursor := allocate_sequence MIGRATIONS in
     let! recorded_at := append_event MIGRATIONS amb c cursor in
     do! record_command MIGRATIONS c cursor recorded_at in tx_ret (Executed v cursor)).
Proof.
  intros w r w' Hx Hv. pose proof (journal_tail_touches _ _ _ _ _ _ _ Hx) as Hsame.
  tx_step Hx as Ea. tx_step Hx as Ee. tx_step Hx as Er. apply tx_ret_Ok in Hx as [-> ->].
  assert (evolves (w_db w) (w_db w0)) as E1 by (by eapply allocate_sequence_evolves).
  pose proof (append_event_Ok _ _ _ _ _ _ Ee) as (_ & _ & D2).
  pose proof (record_command_Ok _ _ _ _ _ _ Er) as (_ & D3).
  split.
  - etrans; [exact E1|]. rewrite D3, D2. etrans; apply evolves_append.
  - unfold record_command in Er. tx_step Er as Ei. apply tx_execute_Ok in Ei as [(_ & Hv' & _)%insert_row_Ok _].
    by apply tx_ret_Ok in Er as [_ ->].
  - intros g e n Hk. destruct (execute_new _ _ _ _ _ _ _ _ _ _ _ _ Hk Ea Ee Er) as (_ & _ & Hk' & _).
    exists (n + 1)%Z. split; [lia|done].
  - unfold slot_held. by rewrite Hsame by elem.
Qed.

(** The command envelope preserves what its body and its bookkeeping preserve. *)
Lemma execute_preserves (R : relation Database) `{!PreOrder R} {A} amb c (m : Tx A) :
  preserves R m →
  (∀ v : A, preserves R
    (let! cursor := allocate_sequence MIGRATIONS in
     let! recorded_at := append_event MIGRATIONS amb c cursor in
     do! record_command MIGRATIONS c cursor recorded_at in tx_ret (Executed v cursor))) →
  preserves R (execute MIGRATIONS amb c m).
Proof.
  intros Hm Ht. unfold execute. apply preserves_bind; [apply _| |].
  { unfold fence_epoch. solve_preserves. }
  intros _. apply preserves_bind; [apply _|unfold lookup_command; solve_preserves|].
  intros [entry|].
  - destruct (negb _); solve_preserves.
  - apply preserves_bind; [apply _|done|]. apply Ht.
Qed.

Lemma run_preserves (R : relation Database) `{!PreOrder R} {A} d (m : Tx A) conn :
  preserves R m → R (conn_db conn) (conn_db (run d m conn).2).
Proof.
  intros Hm. pose proof (run_spec d m conn) as Hr. destruct (run d m conn) as [[v|e] conn']; cbn.
  - destruct Hr as (_ & _ & w & Hw & _ & ->). by apply Hm in Hw.
  - by rewrite Hr.
Qed.

Lemma serve_preserves (R : relation Database) `{!PreOrder R} q conn :
  preserves R (body (rq_ambient q) (rq_operation q)) →
  (∀ v : unit, preserves R
    (let! cursor := allocate_sequence MIGRATIONS in
     let! recorded_at := append_event MIGRATIONS (rq_ambient q) (rq_command q) cursor in
     do! record_command MIGRATIONS (rq_command q) cursor recorded_at in tx_ret (Executed v cursor))) →
  R (conn_db conn) (conn_db (serve q conn).2).
Proof.
  intros Hb Ht. unfold serve. destruct (plain_write (rq_operation q)).
  - pose proof (run_preserves R (rq_driver q) _ conn Hb) as Hr. by destruct (run _ _ conn).
  - pose proof (run_preserves R (rq_driver q) _ conn (execute_preserves R _ _ _ Hb Ht)) as Hr.
    unfold execute_command. by destruct (run _ _ conn).
Qed.

Lemma serve_all_preserves (R : relation Database) `{!PreOrder R} l conn :
  (∀ q conn, R (conn_db conn) (conn_db (serve q conn).2)) → R (conn_db conn) (conn_db (serve_all l conn).2).
Proof.
  intros Hs. revert conn. induction l as [|q l IH]; intros conn; cbn [serve_all]; [done|].
  pose proof (Hs q conn) as Hq. destruct (serve q conn) as [ok conn1]. cbn in Hq.
  specialize (IH conn1). destruct (serve_all l conn1) as [oks conn2]. cbn in *. by etrans.
Qed.

Lemma serve_advance q conn : advance (conn_db conn) (conn_db (serve q conn).2).
Proof.
  apply serve_preserves; [apply _|apply body_advance|]. intros v. apply journal_tail_advance.
Qed.

Lemma serve_all_advance l conn : advance (conn_db conn) (conn_db (serve_all l conn).2).
Proof. apply serve_all_preserves; [apply _|]. apply serve_advance. Qed.
End History.

(** ** Every history *)

(** The rows of live Runs. *)
Lemma live_runs_one db :
  valid MIGRATIONS db → slot_held db → length (List.filter live (rows db "run_status")) ≤ 1.
Proof.
  intros Hv Hs.
  apply (unique_filter_le MIGRATIONS db "run_status" run_status_table
    (unique_where ["active_slot"] (fun r => negb (is_null (column r "active_slot")))) live [SText "global"] Hv eq_refl).
  - right. right. left.
  - intros r Hr Hl. specialize (Hs r Hr Hl). cbn. unfold key_tuple. cbn. by rewrite Hs.
Qed.

(** C10: Whatever requests the store serves, in whatever order and with whatever
    failures, no stored row disappears: a table without a law only grows (Goal
    revisions, specifications, configuration, Runs, Bindings, snapshots, Attempts,
    artifacts, provenance, Candidates, the journal and the ledger are never
    rewritten), and every row of the others keeps its frozen columns and sticky
    values (a cancelled Task or Goal stays targeted, a terminal Attempt stays
    terminal, launch contact is never forgotten, a revoked session stays revoked, a
    succeeded request stays succeeded) while its revision never decreases. *)
Theorem history_lawful `{Sha256} requests conn :
  valid MIGRATIONS (conn_db conn) →
  let conn' := (serve_all requests conn).2 in
  valid MIGRATIONS (conn_db conn') ∧
  ∀ table, ∃ kept added, rows (conn_db conn') table = kept ++ added ∧
    Forall2 (row_law table) (rows (conn_db conn) table) kept.
Proof. intros Hv. destruct (serve_all_advance requests conn Hv) as [He Hv' _ _]. done. Qed.

(** C6: From a fresh installation, whatever requests are served, at most one Run is
    ever live ([Active] or [Finalizing]): the single execution slot is never held
    twice, and a live Run always holds it. *)
Theorem single_execution_slot `{Sha256} requests conn :
  valid MIGRATIONS (conn_db conn) → rows (conn_db conn) "run_status" = [] →
  let db := conn_db (serve_all requests conn).2 in
  length (List.filter live (rows db "run_status")) ≤ 1 ∧
  ∀ r, r ∈ rows db "run_status" → live r = true → column r "active_slot" = SText "global".
Proof.
  intros Hv Hempty. destruct (serve_all_advance requests conn Hv) as [_ Hv' _ Hs].
  assert (slot_held (conn_db (serve_all requests conn).2)) as Hslot.
  { apply Hs. intros r. rewrite Hempty. set_solver. }
  split; [by apply live_runs_one|done].
Qed.

(** Listing then watching misses nothing. The snapshot's cursor is the journal
    head of the listed state; after any further requests, reading pages from that
    cursor returns the events of the current journal numbered right after it,
    consecutively, as many as the page allows or the journal holds. *)
Theorem watch_never_misses `{Sha256} requests conn snapshot generation epoch next limit :
  valid MIGRATIONS (conn_db conn) → kernel (conn_db conn) generation epoch next →
  goal_snapshot MIGRATIONS (conn_db conn) = Ok snapshot → (0 ≤ limit)%Z →
  let db := conn_db (serve_all requests conn).2 in
  ∃ head events, journal_head MIGRATIONS db = Ok {| cur_epoch := epoch; cur_sequence := head |} ∧
    (cur_sequence (gs_cursor snapshot) ≤ head)%Z ∧
    events_after MIGRATIONS db (gs_cursor snapshot) limit = Ok (Ok events) ∧
    map ev_sequence events = counting (cur_sequence (gs_cursor snapshot))
      (Z.to_nat (Z.min limit (head - cur_sequence (gs_cursor snapshot)))) ∧
    ∀ ev, ev ∈ events → ev_journal_epoch ev = epoch ∧ ∃ r, r ∈ rows db "event_journal" ∧ decode_event r = Ok ev.
Proof.
  intros Hv Hk Hsnap Hl. destruct (serve_all_advance requests conn Hv) as [_ Hv' Hk' _].
  destruct (Hk' _ _ _ Hk) as (n' & Hle & Hkn). unfold goal_snapshot in Hsnap.
  apply try_bind_Ok in Hsnap as (goals & _ & Hsnap). rewrite (read_head_kernel _ _ _ _ Hk) in Hsnap.
  injection Hsnap as <-. cbn [gs_cursor cur_sequence]. pose proof (kn_positive _ _ _ _ Hk) as Hpos.
  destruct (events_after_page _ _ _ _ (next - 1) limit Hkn Hv' ltac:(lia) Hl) as (events & He & Hm & Hall).
  exists (n' - 1)%Z, events. split_and!; [by apply (read_head_kernel _ generation)|lia|done|done|done].
Qed.
