(* ===== verification/StoreFrames.v ===== *)
(** * The tables each operation writes

    An operation's footprint: every table it may change. The other tables are
    left as they were, whatever the operation does. *)

From Stdlib Require Import ZArith Ascii Lia.
From S2P Require Import Prelude Utf8 Canonical Digest Sql Schema Transaction Command StoreBase StorePlanning StoreConfiguration StoreWorkspace StoreArtifacts StoreExecution StoreScheduling StoreContext StoreAgentControl StoreSandbox StoreLaws StoreHistory.

(** The tables an internal event writes. *)
Definition journal : list string := ["journal_epochs"; "event_journal"].

Definition footprint (o : Operation) : list string :=
  match o with
  | OpCreateGoal _ _ => ["goals"; "goal_revisions"; "task_graphs"]
  | OpRecordPlanning _ _ => ["planning_operations"; "planning_records"]
  | OpApplyPlan _ _ _ =>
      ["task_specs"; "tasks"; "task_scheduling_state"; "task_graphs"; "goals"; "planning_operations"]
  | OpCancelGoal _ => ["goals"; "tasks"]
  | OpActivate _ _ _ => ["configuration_components"; "configuration_revisions"; "active_configuration"]
  | OpOpenWorkspace _ _ | OpBeginMaterialization _ _ | OpCompleteMaterialization _ _ _
  | OpFailMaterialization _ _ _ | OpFreeze _ _ _ _ _ => ["workspaces"]
  | OpValidateSeal _ _ _ _ _ | OpCaptureFailure _ _ => []
  | OpCommitSeal _ _ =>
      ["blobs"; "workspace_revisions"; "artifacts"; "artifact_members"; "production_records"]
  | OpDispatchMode _ _ => ["scheduler_state"]
  | OpBackoff _ _ _ _ _ => ["task_scheduling_state"]
  | OpRunIntent _ =>
      ["execution_bindings"; "context_source_snapshots"; "runs"; "run_status"; "tasks"; "task_scheduling_state";
       "goal_scheduling_state"; "scheduler_state"]
  | OpAttachPlan _ => ["context_plans"; "run_context_plans"]
  | OpCreateAttempt _ => ["attempts"; "attempt_status"; "agent_control_sessions"; "run_status"]
  | OpRekey _ _ _ => "agent_control_sessions" :: journal
  | OpLaunchContact _ _ _ _ _ => "attempt_status" :: journal
  | OpObserve _ _ _ => "attempt_status" :: "agent_control_sessions" :: journal
  | OpConcludeRun _ _ _ => "run_status" :: journal
  | OpOpenRequest _ _ _ _ | OpCompleteRequest _ _ _ | OpFailRequest _ _ _ => ["agent_requests"]
  | OpSubmit _ =>
      "candidates" :: "candidate_outputs" :: "run_status" :: "tasks" :: "agent_requests" :: journal
  | OpCreateSandbox _ _ | OpPrepareSandbox _ _ | OpReadySandbox _ _ | OpReleaseSandbox _ _
  | OpReleasedSandbox _ _ _ | OpFailSandbox _ _ _ | OpSandboxPresence _ _ _ => ["sandbox_instances"]
  | OpProbe _ => ["sandbox_probe_results"]
  end.

Lemma append_internal_event_in tables amb e :
  journal ⊆ tables → preserves (same_outside tables) (append_internal_event MIGRATIONS amb e).
Proof.
  intros Hsub w c w' Hx t Ht. apply (append_internal_event_touches _ _ _ _ _ _ Hx). unfold journal in Hsub. set_solver.
Qed.

#[local] Hint Extern 1 (preserves (same_outside _) (append_internal_event _ _ _)) =>
  apply append_internal_event_in; elem : preserves.

Ltac solve_footprint :=
  solve_preserves;
  first [ apply update_revisioned_by_touches; elem | apply update_revisioned_touches; elem | apply tx_insert_touches; elem
        | apply tx_update_touches; elem | apply tx_insert_or_ignore_touches; elem | idtac ].

Section Frames.
Context `{Sha256}.

Lemma fence_all_footprint tables l :
  "tasks" ∈ tables → preserves (same_outside tables) (fence_all MIGRATIONS l).
Proof.
  intros Ht. induction l as [|[[[t p] n] target] l IH]; cbn [fence_all]; [apply preserves_ret, _|].
  unfold fence_task. solve_footprint. by apply update_revisioned_touches.
Qed.

Lemma write_components_footprint tables l :
  "configuration_components" ∈ tables → preserves (same_outside tables) (write_components MIGRATIONS l).
Proof.
  intros Ht. induction l as [|r l IH]; cbn [write_components]; solve_footprint.
  by apply tx_insert_or_ignore_touches.
Qed.

Lemma ensure_blobs_footprint tables amb l :
  "blobs" ∈ tables → preserves (same_outside tables) (ensure_blobs MIGRATIONS amb l).
Proof.
  intros Ht. induction l as [|[d n] l IH]; cbn [ensure_blobs]; [|unfold ensure_blob, query_blob_key];
    solve_footprint. by apply tx_insert_touches.
Qed.

Lemma insert_members_footprint tables d l :
  "artifact_members" ∈ tables → preserves (same_outside tables) (insert_members MIGRATIONS d l).
Proof.
  intros Ht. induction l as [|[m n] l IH]; cbn [insert_members]; solve_footprint.
  by apply tx_insert_or_ignore_touches.
Qed.

Lemma charge_existing_footprint tables now i c n :
  "goal_scheduling_state" ∈ tables → preserves (same_outside tables) (charge_existing MIGRATIONS now i c n).
Proof.
  intros Ht w u w' Hx. unfold charge_existing in Hx.
  destruct (update_revisioned_by _ _ _ _ _ _ w) as [[m|e] w1] eqn:Eu.
  - injection Hx as _ <-. refine (preserves_run (same_outside tables) _ _ _ _ Eu _).
    by apply update_revisioned_by_touches.
  - destruct e; try discriminate Hx. destruct actual; discriminate Hx.
Qed.

Lemma probe_footprint tables amb e :
  "sandbox_probe_results" ∈ tables →
  preserves (same_outside tables) (record_sandbox_probe_evidence MIGRATIONS amb e).
Proof.
  intros Ht. unfold record_sandbox_probe_evidence. apply preserves_bind; [apply _|apply preserves_now, _|]. intros t.
  apply preserves_bind; [apply _| |intros; apply preserves_ret, _].
  intros w n w' [(_ & _ & ->)%insert_row_Ok _]%tx_execute_Ok. by apply same_outside_insert.
Qed.

#[local] Hint Extern 1 (preserves (same_outside _) (fence_all _ _)) => apply fence_all_footprint; elem : preserves.
#[local] Hint Extern 1 (preserves (same_outside _) (write_components _ _)) =>
  apply write_components_footprint; elem : preserves.
#[local] Hint Extern 1 (preserves (same_outside _) (ensure_blobs _ _ _)) => apply ensure_blobs_footprint; elem : preserves.
#[local] Hint Extern 1 (preserves (same_outside _) (insert_members _ _ _)) =>
  apply insert_members_footprint; elem : preserves.
#[local] Hint Extern 1 (preserves (same_outside _) (charge_existing _ _ _ _ _)) =>
  apply charge_existing_footprint; elem : preserves.

Lemma body_footprint amb o : touches (footprint o) (body amb o).
Proof.
  unfold touches. destruct o; cbn [body footprint]; unfold drop_result.
  - unfold create_goal. solve_footprint.
  - unfold record_direct_planning. solve_footprint.
  - unfold apply_plan, materialize_preconditions, prerequisites_satisfied, active_sequence. solve_footprint.
  - unfold cancel_goal, fence_tasks. solve_footprint.
  - unfold write_activation, next_activation_sequence. solve_footprint.
  - unfold open_workspace, task_phase, current_workspace_id. solve_footprint.
  - unfold begin_workspace_materialization, workspace_phase, workspace_phase_and_base, transition,
      StoreWorkspace.read_in_transaction. solve_footprint.
  - unfold complete_workspace_materialization, workspace_phase_and_base, transition,
      StoreWorkspace.read_in_transaction. solve_footprint.
  - unfold fail_workspace_materialization, workspace_phase, workspace_phase_and_base, transition,
      StoreWorkspace.read_in_transaction. solve_footprint.
  - unfold freeze_workspace, validate_seal_authority, query_blob_key, transition,
      StoreWorkspace.read_in_transaction. solve_footprint.
  - unfold validate_seal_authority_command, validate_seal_authority, query_blob_key,
      StoreWorkspace.read_in_transaction. solve_footprint.
  - unfold record_capture_failure, StoreWorkspace.read_in_transaction. solve_footprint.
  - unfold commit_changeset_seal, validate_frozen, validate_seal_authority, ensure_workspace_revision, ensure_artifact,
      record_production, query_blob_key. solve_footprint.
  - unfold set_dispatch_mode, read_state. solve_footprint.
  - unfold record_scheduling_backoff. solve_footprint.
  - unfold apply_run_intent, check_intent, commit_intent, check_dispatch, read_state, check_configuration, active_sequence,
      check_guidance, check_owners, check_task, check_goal, check_workspace, StoreScheduling.check_slot, charge_goal.
    solve_footprint.
  - unfold apply_attachment, check_source, ensure_context_plan, attach_once, refuse_digest. solve_footprint.
  - unfold apply_attempt_creation, active_run_revision, next_ordinal, restore_generation. solve_footprint.
  - unfold apply_rekey, forbid_rekey_unless_precontact, restore_generation, current_attempt_of. solve_footprint.
  - unfold apply_launch_contact, current_session_revision. solve_footprint.
  - unfold apply_observation. solve_footprint.
  - unfold apply_conclude_run. solve_footprint.
  - unfold open_agent_request, authenticate_agent_session, judge_session, lookup_request. solve_footprint.
  - unfold complete_agent_request, authenticate_agent_session, judge_session. solve_footprint.
  - unfold fail_agent_request, authenticate_agent_session, judge_session. solve_footprint.
  - unfold apply_candidate_submission, submit_fresh, submission_authority, commit_submission, create_candidate,
      record_outcome, load_committed_outcome, attempt_run, responsible_run, submittable_task, stored_spec, check_output,
      declared_slot, ensure_artifact_complete, authenticate_agent_session, judge_session, lookup_request, query_blob_key.
    solve_footprint.
  - unfold create_sandbox, current_sandbox_id. solve_footprint.
  - unfold begin_sandbox_preparation, step_from, sandbox_phase_at, sandbox_transition, sandbox_in_transaction. solve_footprint.
  - unfold complete_sandbox_preparation, step_from, sandbox_phase_at, sandbox_transition, sandbox_in_transaction. solve_footprint.
  - unfold begin_sandbox_release, step_from, sandbox_phase_at, sandbox_transition, sandbox_in_transaction. solve_footprint.
  - unfold complete_sandbox_release, step_from, sandbox_phase_at, sandbox_transition, sandbox_in_transaction. solve_footprint.
  - unfold fail_sandbox, sandbox_transition, sandbox_in_transaction. solve_footprint.
  - unfold update_sandbox_presence, transition_presence, sandbox_in_transaction. solve_footprint.
  - apply probe_footprint. left.
Qed.

(** A table outside the footprint of a request, and of the command kernel, keeps
    its rows. *)
Lemma serve_footprint q conn table :
  table ∉ footprint (rq_operation q) → table ∉ kernel_tables →
  rows (conn_db (serve q conn).2) table = rows (conn_db conn) table.
Proof.
  intros Hf Hk. set (R := same_outside (footprint (rq_operation q) ++ kernel_tables)).
  enough (R (conn_db conn) (conn_db (serve q conn).2)) as HR by (apply HR; set_solver).
  apply serve_preserves; [apply _| |].
  - intros w u w' Hx t Ht. apply (body_footprint _ _ _ _ _ Hx). set_solver.
  - intros v w u w' Hx t Ht. apply (journal_tail_touches _ _ _ _ _ _ _ Hx). set_solver.
Qed.
End Frames.
