(* ===== verification/StoreCredentials.v ===== *)
(** * The credential of a launched Attempt

    Only the pre-contact rekey (T4a) changes a session's credential, and it is
    refused once launch contact may have occurred; so over every history the
    credential of a contacted Attempt is frozen. *)

From Stdlib Require Import ZArith Ascii Lia.
From S2P Require Import Prelude Utf8 Canonical Digest Sandbox Sql Schema Transaction Command StoreBase StorePlanning StoreConfiguration StoreWorkspace StoreArtifacts StoreExecution StoreScheduling StoreContext StoreAgentControl StoreSandbox StoreLaws StoreHistory StoreFrames.

Definition credential_columns : list string := ["attempt_id"; "credential_revision"; "credential_hash"].

(** Every session is kept with its credential. *)
Definition credentials_kept (db db' : Database) : Prop :=
  ∃ kept added, rows db' "agent_control_sessions" = kept ++ added ∧
    Forall2 (same_columns credential_columns) (rows db "agent_control_sessions") kept.

#[export] Instance same_columns_preorder cols : PreOrder (same_columns cols).
Proof. split; [by intros r c|]. intros r s t H1 H2 c Hc. by rewrite (H1 c Hc), (H2 c Hc). Qed.

#[export] Instance credentials_kept_preorder : PreOrder credentials_kept.
Proof.
  split; [intros db; exists (rows db "agent_control_sessions"), []; by rewrite app_nil_r|].
  intros d1 d2 d3 (k1 & a1 & E1 & F1) (k2 & a2 & E2 & F2). rewrite E1 in F2.
  apply Forall2_app_inv_l in F2 as (k & k' & Fk & _ & ->). exists k, (k' ++ a2). rewrite E2, app_assoc.
  split; [done|]. by etrans.
Qed.

Lemma credentials_other table l db :
  table ≠ "agent_control_sessions" → credentials_kept db (<[table := l]> db).
Proof. intros Hne. exists (rows db "agent_control_sessions"), []. by rewrite rows_insert_ne, app_nil_r. Qed.

Lemma credentials_append table r db : credentials_kept db (<[table := rows db table ++ [r]]> db).
Proof.
  destruct (decide (table = "agent_control_sessions")) as [->|]; [|by apply credentials_other].
  exists (rows db "agent_control_sessions"), [r]. by rewrite rows_insert.
Qed.

Lemma tx_insert_credentials table r : preserves credentials_kept (tx_insert MIGRATIONS table r).
Proof. intros w n w' (_ & _ & _ & ->)%tx_insert_Ok. apply credentials_append. Qed.

Lemma update_revisioned_by_credentials table kc key expected asg :
  ascii_lower table ≠ "agent_control_sessions" →
  preserves credentials_kept (update_revisioned_by MIGRATIONS table kc key expected asg).
Proof. intros Hne w n w' (_ & _ & _ & _ & _ & ->)%update_revisioned_by_Ok. by apply credentials_other. Qed.

Lemma update_revisioned_credentials table key expected asg :
  ascii_lower table ≠ "agent_control_sessions" →
  preserves credentials_kept (update_revisioned MIGRATIONS table key expected asg).
Proof. apply update_revisioned_by_credentials. Qed.

Lemma tx_update_credentials table cols where_ set :
  table ≠ "agent_control_sessions" → preserves credentials_kept (tx_update MIGRATIONS table cols where_ set).
Proof. intros Hne w n w' (_ & _ & _ & ->)%tx_update_Ok. by apply credentials_other. Qed.

Lemma revoke_credentials amb cols where_ :
  preserves credentials_kept (tx_update MIGRATIONS "agent_control_sessions" cols where_ (revoke_session amb)).
Proof.
  intros w n w' (_ & _ & _ & ->)%tx_update_Ok. eexists _, []. rewrite rows_insert, app_nil_r. split; [done|].
  induction (rows (w_db w) "agent_control_sessions") as [|r l IH]; constructor; [|done].
  destruct (where_ r); [|done]. intros c Hc. unfold revoke_session. rewrite !column_insert_ne; [done|set_solver..].
Qed.

Lemma append_internal_event_credentials amb e :
  preserves credentials_kept (append_internal_event MIGRATIONS amb e).
Proof.
  intros w c w' Hx. exists (rows (w_db w) "agent_control_sessions"), [].
  by rewrite app_nil_r, (append_internal_event_touches _ _ _ _ _ _ Hx "agent_control_sessions") by elem.
Qed.

#[export] Hint Resolve tx_insert_credentials revoke_credentials
  append_internal_event_credentials : preserves.

Ltac solve_credentials :=
  solve_preserves;
  first [ apply tx_insert_credentials | apply update_revisioned_by_credentials; discriminate
        | apply update_revisioned_credentials; discriminate | apply tx_update_credentials; discriminate | idtac ].

Section Credentials.
Context `{Sha256}.

Definition is_rekey (o : Operation) : bool :=
  match o with
  | OpRekey _ _ _ => true
  | _ => false
  end.

Lemma body_credentials amb o : is_rekey o = false → preserves credentials_kept (body amb o).
Proof.
  intros Ho. destruct (bool_decide ("agent_control_sessions" ∈ footprint o)) eqn:E.
  - destruct o; try discriminate Ho; try (vm_compute in E; discriminate E); cbn [body]; unfold drop_result.
    + unfold apply_attempt_creation, active_run_revision, next_ordinal, restore_generation. solve_credentials.
    + unfold apply_observation. solve_credentials.
  - intros w u w' Hx. apply body_footprint in Hx. exists (rows (w_db w) "agent_control_sessions"), [].
    by rewrite app_nil_r, (Hx "agent_control_sessions") by (by eapply bool_decide_eq_false_1).
Qed.

(** ** A contacted Attempt *)

Definition contacted (a : string) (db : Database) : Prop :=
  ∃ r, row_of db "attempt_status" "attempt_id" a = Some r ∧
    column r "launch_contact_state" = SText (launch_contact_as_str ContactMayHaveOccurred).

(** The credential revision and verifier the session of an Attempt stores. *)
Definition credential_of (db : Database) (a : string) : option (SqlValue * SqlValue) :=
  (fun r => (column r "credential_revision", column r "credential_hash")) <$>
  row_of db "agent_control_sessions" "attempt_id" a.

(** One step over which a contacted Attempt stays contacted and keeps its credential. *)
Definition frozen_step (a : string) (db db' : Database) : Prop :=
  advance db db' ∧ (valid MIGRATIONS db → contacted a db → ∀ c, credential_of db a = Some c → credential_of db' a = Some c).

Lemma contacted_advance a db db' : advance db db' → valid MIGRATIONS db → contacted a db → contacted a db'.
Proof.
  intros Ha Hv (r & Hr & Hc). destruct (Ha Hv) as [He Hv' _ _].
  destruct (He "attempt_status") as (kept & added & Hrows & Hf). apply row_of_Some in Hr as [Hin Hk].
  destruct (Forall2_in_l _ _ _ _ Hf Hin) as (s & Hs & Hfrozen & Hsticky & _). exists s.
  split; [|by apply Hsticky; [elem|]]. apply (row_of_unique MIGRATIONS); [apply _|done| |].
  - rewrite Hrows. set_solver.
  - rewrite Hfrozen by elem. done.
Qed.

#[export] Instance frozen_step_preorder a : PreOrder (frozen_step a).
Proof.
  split; [intros db; split; [done|tauto]|]. intros d1 d2 d3 [A1 C1] [A2 C2]. split; [by etrans|].
  intros Hv Hc c Hcred. apply C2; [by apply A1|by eapply contacted_advance|by apply C1].
Qed.

Lemma credentials_kept_of db db' a c :
  valid MIGRATIONS db' → credentials_kept db db' → credential_of db a = Some c → credential_of db' a = Some c.
Proof.
  intros Hv (kept & added & Hrows & Hf). unfold credential_of. rewrite fmap_Some. intros (r & Hr & ->).
  apply row_of_Some in Hr as [Hin Hk]. destruct (Forall2_in_l _ _ _ _ Hf Hin) as (s & Hs & Hsame).
  assert (row_of db' "agent_control_sessions" "attempt_id" a = Some s) as ->.
  { apply (row_of_unique MIGRATIONS); [apply _|done|rewrite Hrows; set_solver|by rewrite <-Hsame by elem]. }
  cbn. by rewrite <-!Hsame by elem.
Qed.

Lemma forbid_rekey_precontact a w u w' :
  forbid_rekey_unless_precontact MIGRATIONS a w = (Ok u, w') → w_db w = w_db w' ∧ ¬ contacted a (w_db w).
Proof.
  intros Hx. split.
  - refine (preserves_run eq _ _ _ _ Hx _).
    unfold forbid_rekey_unless_precontact, restore_generation, current_attempt_of. solve_preserves.
  - unfold forbid_rekey_unless_precontact in Hx. tx_step Hx as Eq.
    apply query_by_Ok in Eq as [-> Eq]. tx_step Hx as Es. subst a0. destruct a1 as [contact terminal].
    tx_step Hx as Et. tx_step Hx as Ec. intros (r & Hr & Hc). rewrite Hr in Eq.
    destruct Eq as (p & Hd & [= <-]). decode_inv Hd. rewrite Hc in C. injection C as <-. discriminate Ec.
Qed.

(** The rekey of one Attempt leaves the credential of every other. *)
Lemma rekey_set_other amb a b v n db :
  a ≠ b →
  credential_of (<["agent_control_sessions" := map (fun r => if rekey_where b n r then rekey_set amb v r else r)
    (rows db "agent_control_sessions")]> db) a = credential_of db a.
Proof.
  intros Hne. unfold credential_of, row_of. rewrite rows_insert, (filter_map_other _ _ (rekey_where b n)); [done|].
  intros r Hw. unfold rekey_where in Hw. apply andb_true_iff in Hw as [[Hw%col_is_text _]%andb_true_iff _].
  unfold rekey_set. split; apply not_true_iff_false; rewrite col_is_text;
    rewrite ?column_insert_ne by done; congruence.
Qed.

Lemma rekey_frozen a amb b v n : preserves (frozen_step a) (apply_rekey MIGRATIONS amb b v n).
Proof.
  intros w m w' Hx. split; [by apply rekey_advance in Hx|]. intros Hv Hc c Hcred.
  unfold apply_rekey in Hx. tx_step Hx as Ef. apply forbid_rekey_precontact in Ef as [Ew Hn].
  rewrite Ew in Hcred, Hc, Hn. tx_step Hx as Eu. apply tx_update_Ok in Eu as (_ & _ & _ & Hdb).
  destruct (negb _); [by tx_step Hx|]. tx_step Hx as Ee. apply tx_ret_Ok in Hx as [_ ->].
  apply append_internal_event_touches in Ee. unfold credential_of.
  rewrite (row_of_same _ _ _ _ _ _ Ee) by elem. rewrite Hdb.
  fold (credential_of (<["agent_control_sessions" :=
    map (fun r => if rekey_where b n r then rekey_set amb v r else r) (rows (w_db w0) "agent_control_sessions")]>
    (w_db w0)) a). rewrite rekey_set_other; [done|]. intros ->. done.
Qed.

Lemma body_frozen a amb o : preserves (frozen_step a) (body amb o).
Proof.
  destruct (is_rekey o) eqn:Ho.
  - destruct o; try discriminate Ho. cbn [body]. unfold drop_result.
    apply preserves_bind; [apply _|apply rekey_frozen|]. intros; apply preserves_ret, _.
  - intros w u w' Hx. split; [by apply body_advance in Hx|]. intros Hv _ c.
    pose proof (body_advance amb o _ _ _ Hx Hv) as [_ Hv' _ _].
    by apply credentials_kept_of, (body_credentials amb o Ho _ _ _ Hx).
Qed.

Lemma journal_tail_frozen {A} a amb c (v : A) :
  preserves (frozen_step a)
    (let! cursor := allocate_sequence MIGRATIONS in
     let! recorded_at := append_event MIGRATIONS amb c cursor in
     do! record_command MIGRATIONS c cursor recorded_at in tx_ret (Executed v cursor)).
Proof.
  intros w r w' Hx. split; [by apply journal_tail_advance in Hx|]. intros _ _ cr. unfold credential_of.
  apply journal_tail_touches in Hx. by rewrite (row_of_same _ _ _ _ _ _ Hx) by elem.
Qed.

Lemma serve_frozen a q conn : frozen_step a (conn_db conn) (conn_db (serve q conn).2).
Proof. apply serve_preserves; [apply _|apply body_frozen|]. intros v. apply journal_tail_frozen. Qed.
End Credentials.

(** The credential an Attempt was launched with is frozen. Once launch contact
    may have occurred, no sequence of requests changes the credential revision or
    the verifier its session stores, nor forgets the contact: the rekey is refused
    and every other operation leaves the credential alone. *)
Theorem credential_frozen `{Sha256} requests conn a credential :
  valid MIGRATIONS (conn_db conn) → contacted a (conn_db conn) → credential_of (conn_db conn) a = Some credential →
  let db := conn_db (serve_all requests conn).2 in contacted a db ∧ credential_of db a = Some credential.
Proof.
  intros Hv Hc Hcred. destruct (serve_all_preserves (frozen_step a) requests conn (serve_frozen a)) as [Ha Hk].
  split; [by eapply contacted_advance|by apply Hk].
Qed.
