(* ===== verification/StoreLifecycle.v ===== *)
(** * The lifecycles of stored resources

    Goals, Tasks, planning operations, Workspaces, Runs, Attempts and sandboxes as
    abstract state machines over the columns that hold their state, and the proof
    that every history of the store follows them: each step names the guard the
    operation that takes it re-reads in its own transaction. *)

From Stdlib Require Import ZArith Ascii Lia.
From S2P Require Import Prelude Utf8 Canonical Digest Goal Task Validate Workspace Sandbox Sql Schema Transaction Command StoreBase StorePlanning StoreConfiguration StoreWorkspace StoreArtifacts StoreExecution StoreScheduling StoreContext StoreAgentControl StoreSandbox StoreLaws StoreHistory StoreFrames.

(** ** The machines *)

Record Machine : Type := {
  mc_table : string;
  mc_columns : list string;
  mc_initial : list SqlValue;
  mc_step : list SqlValue → list SqlValue → Prop
}.

(** Phase and terminal target. *)
Inductive goal_step : list SqlValue → list SqlValue → Prop :=
| goal_activated target : goal_step [SText "Planning"; target] [SText "Active"; target]
| goal_cancelled phase target :
    cancellable phase target = Some false →
    goal_step [SText (goal_phase_as_str phase); text_or_null target] [SText "Finalizing"; SText "Cancelled"].

(** Phase, terminal target and responsible Run. *)
Inductive task_step : list SqlValue → list SqlValue → Prop :=
| task_dispatched target run :
    task_step [SText "Ready"; target; SNull] [SText "Active"; target; SText run]
| task_submitted target run :
    task_step [SText "Active"; target; SText run] [SText "Evaluating"; target; SText run]
| task_cancelled phase target run :
    task_is_terminal phase = false → target ≠ SText "Cancelled" →
    task_step [SText (task_phase_as_str phase); target; run] [SText "Finalizing"; SText "Cancelled"; run].

Inductive planning_step : list SqlValue → list SqlValue → Prop :=
| plan_materialized : planning_step [SText "Planned"] [SText "Materialized"].

(** Phase and materialization. A Workspace whose content may have been changed is
    never materialized again, and only a verified one is frozen. *)
Inductive workspace_step : list SqlValue → list SqlValue → Prop :=
| workspace_begun phase m :
    has_been_mutable phase = false →
    workspace_step [SText (workspace_phase_as_str phase); m] [SText "Materializing"; SText "Unknown"]
| workspace_ready m : workspace_step [SText "Materializing"; m] [SText "Ready"; SText "Present"]
| workspace_failed phase m observed :
    has_been_mutable phase = false → observed ≠ MatPresent →
    workspace_step [SText (workspace_phase_as_str phase); m] [SText "Error"; SText (materialization_as_str observed)]
| workspace_frozen : workspace_step [SText "Ready"; SText "Present"] [SText "Frozen"; SText "Present"].

(** Phase, terminal target and execution slot. *)
Inductive run_step : list SqlValue → list SqlValue → Prop :=
| run_submitted target slot :
    run_step [SText "Active"; target; slot] [SText "Finalizing"; SText "Completed"; slot]
| run_concluded phase target slot terminal :
    terminal ∈ ["Failed"; "Cancelled"] →
    run_step [phase; target; slot] [SText terminal; SText terminal; SNull].

(** Launch contact, terminal mark and observation. *)
Inductive attempt_step : list SqlValue → list SqlValue → Prop :=
| attempt_contacted contact o :
    contact ≠ SText "CONTACT_MAY_HAVE_OCCURRED" →
    attempt_step [contact; SInteger 0; o] [SText "CONTACT_MAY_HAVE_OCCURRED"; SInteger 0; o]
| attempt_observed contact terminal o observed :
    observed ≠ ObsExited →
    attempt_step [contact; terminal; o] [contact; terminal; SText (observation_as_str observed)]
| attempt_terminated terminal o observed :
    attempt_step [SText "CONTACT_MAY_HAVE_OCCURRED"; terminal; o]
      [SText "CONTACT_MAY_HAVE_OCCURRED"; SInteger 1; SText (observation_as_str observed)].

(** Phase and observed presence. *)
Inductive sandbox_step : list SqlValue → list SqlValue → Prop :=
| sandbox_preparing o : sandbox_step [SText "Requested"; o] [SText "Preparing"; SText "Unknown"]
| sandbox_ready o : sandbox_step [SText "Preparing"; o] [SText "Ready"; SText "Present"]
| sandbox_releasing o : sandbox_step [SText "Ready"; o] [SText "Releasing"; SText "Unknown"]
| sandbox_released o observed :
    observed ≠ SbPresent →
    sandbox_step [SText "Releasing"; o] [SText "Released"; SText (sandbox_presence_as_str observed)]
| sandbox_failed phase o observed :
    observed ≠ SbPresent → sandbox_step [phase; o] [SText "Error"; SText (sandbox_presence_as_str observed)]
| sandbox_observed phase o observed :
    sandbox_step [phase; o] [phase; SText (sandbox_presence_as_str observed)].

Definition goal_machine : Machine := {|
  mc_table := "goals"; mc_columns := ["phase"; "terminal_target"];
  mc_initial := [SText "Planning"; SNull]; mc_step := goal_step |}.

Definition task_machine : Machine := {|
  mc_table := "tasks"; mc_columns := ["phase"; "terminal_target"; "active_run_id"];
  mc_initial := [SText "Ready"; SNull; SNull]; mc_step := task_step |}.

Definition planning_machine : Machine := {|
  mc_table := "planning_operations"; mc_columns := ["state"];
  mc_initial := [SText "Planned"]; mc_step := planning_step |}.

Definition workspace_machine : Machine := {|
  mc_table := "workspaces"; mc_columns := ["phase"; "materialization"];
  mc_initial := [SText "Requested"; SText "Absent"]; mc_step := workspace_step |}.

Definition run_machine : Machine := {|
  mc_table := "run_status"; mc_columns := ["phase"; "terminal_target"; "active_slot"];
  mc_initial := [SText "Active"; SNull; SText "global"]; mc_step := run_step |}.

Definition attempt_machine : Machine := {|
  mc_table := "attempt_status"; mc_columns := ["launch_contact_state"; "terminal"; "observed_execution"];
  mc_initial := [SText "NOT_CONTACTED"; SInteger 0; SText "ABSENT"]; mc_step := attempt_step |}.

Definition sandbox_machine : Machine := {|
  mc_table := "sandbox_instances"; mc_columns := ["phase"; "observed_presence"];
  mc_initial := [SText "Requested"; SText "Absent"]; mc_step := sandbox_step |}.

Definition MACHINES : list Machine :=
  [goal_machine; task_machine; planning_machine; workspace_machine; run_machine; attempt_machine; sandbox_machine].

Definition state_of (m : Machine) (r : Row) : list SqlValue := map (column r) (mc_columns m).

(** Every stored row moved along its machine, and every new one started at its
    initial state. *)
Definition follows (m : Machine) (db db' : Database) : Prop :=
  ∃ kept added, rows db' (mc_table m) = kept ++ added ∧
    Forall2 (fun r s => rtc (mc_step m) (state_of m r) (state_of m s)) (rows db (mc_table m)) kept ∧
    Forall (fun s => rtc (mc_step m) (mc_initial m) (state_of m s)) added.

(** ** Following *)

Lemma stays m l : Forall2 (fun r s => rtc (mc_step m) (state_of m r) (state_of m s)) l l.
Proof. induction l; constructor; done. Qed.

#[export] Instance follows_preorder m : PreOrder (follows m).
Proof.
  split.
  - intros db. exists (rows db (mc_table m)), []. rewrite app_nil_r. split_and!; [done|apply stays|done].
  - intros d1 d2 d3 (k1 & a1 & E1 & F1 & I1) (k2 & a2 & E2 & F2 & I2). rewrite E1 in F2.
    apply Forall2_app_inv_l in F2 as (k & k' & Fk & Fk' & ->). exists k, (k' ++ a2). rewrite E2, app_assoc.
    split_and!; [done| |].
    + clear -F1 Fk. revert k Fk. induction F1 as [|r s l l' Hrs _ IH]; intros k Fk; inv Fk; constructor; [|eauto].
      by etrans.
    + apply Forall_app. split; [|done]. clear -I1 Fk'. induction Fk' as [|s t l l' Hst _ IH]; [done|].
      inv I1. constructor; [|eauto]. by etrans.
Qed.

Lemma follows_same m db db' : rows db' (mc_table m) = rows db (mc_table m) → follows m db db'.
Proof.
  intros E. exists (rows db (mc_table m)), []. rewrite app_nil_r, E. split_and!; [done|apply stays|done].
Qed.

Lemma follows_outside m tables db db' : same_outside tables db db' → mc_table m ∉ tables → follows m db db'.
Proof. intros Hs Ht. apply follows_same, Hs, Ht. Qed.

(** A statement on another table. *)
Lemma touches_follows {A} m tables (c : Tx A) : touches tables c → mc_table m ∉ tables → preserves (follows m) c.
Proof. intros Hc Ht w a w' Hx. by eapply follows_outside; [apply (Hc _ _ _ Hx)|]. Qed.

Lemma tx_insert_follows m table r :
  table ≠ mc_table m ∨ state_of m (list_to_map r) = mc_initial m → preserves (follows m) (tx_insert MIGRATIONS table r).
Proof.
  intros Hi w n w' (_ & _ & _ & Hdb)%tx_insert_Ok.
  destruct (decide (table = mc_table m)) as [->|Hne].
  - destruct Hi as [Hi|Hi]; [done|]. exists (rows (w_db w) (mc_table m)), [list_to_map r].
    rewrite Hdb, rows_insert. split_and!; [done|apply stays|constructor; [by rewrite Hi|done]].
  - apply follows_same. by rewrite Hdb, rows_insert_ne.
Qed.

Lemma follows_map m db where_ set :
  (∀ r, r ∈ rows db (mc_table m) → where_ r = true → rtc (mc_step m) (state_of m r) (state_of m (set r))) →
  follows m db (<[mc_table m := map (fun r => if where_ r then set r else r) (rows db (mc_table m))]> db).
Proof.
  intros Hset. eexists _, []. rewrite rows_insert, app_nil_r. split_and!; [done| |done].
  revert Hset. generalize (rows db (mc_table m)). induction l as [|r l IH]; intros Hset; constructor.
  - destruct (where_ r) eqn:E; [|done]. by apply Hset; [left|].
  - apply IH. intros s Hs. apply Hset. by right.
Qed.

(** A compare-and-swap on the machine's table: what it does to the row it names. *)
Lemma update_follows m kc key expected asg w n w' :
  ascii_lower (mc_table m) = mc_table m →
  update_revisioned_by MIGRATIONS (mc_table m) kc key expected asg w = (Ok n, w') →
  (∀ r, r ∈ rows (w_db w) (mc_table m) → cas_where kc key expected r = true →
     rtc (mc_step m) (state_of m r) (state_of m (set_clause asg r))) →
  follows m (w_db w) (w_db w').
Proof.
  intros Ht (_ & _ & _ & _ & _ & Hdb)%update_revisioned_by_Ok Hset. rewrite Ht in Hdb. rewrite Hdb.
  by apply follows_map.
Qed.

Lemma update_row_follows m kc key expected asg w n w' r `{!Keyed MIGRATIONS (mc_table m) kc} :
  ascii_lower (mc_table m) = mc_table m → ascii_lower kc = kc → valid MIGRATIONS (w_db w) →
  update_revisioned_by MIGRATIONS (mc_table m) kc key expected asg w = (Ok n, w') →
  row_of (w_db w) (mc_table m) kc key = Some r →
  rtc (mc_step m) (state_of m r) (state_of m (set_clause asg r)) →
  follows m (w_db w) (w_db w').
Proof.
  intros Ht Hkc Hv Hu Hr Hstep. eapply update_follows; [done|done|]. intros s Hs Hw.
  unfold cas_where in Hw. rewrite Hkc in Hw. apply andb_true_iff in Hw as [Hk%col_is_text _].
  rewrite (row_of_unique MIGRATIONS _ _ _ _ _ Hv Hs Hk) in Hr. by injection Hr as <-.
Qed.

(** *** Statements that take no step *)

Lemma update_other_follows m table kc key expected asg :
  ascii_lower table ≠ mc_table m →
  preserves (follows m) (update_revisioned_by MIGRATIONS table kc key expected asg).
Proof. intros Hne w n w' (_ & _ & _ & _ & _ & Hdb)%update_revisioned_by_Ok. apply follows_same. by rewrite Hdb, rows_insert_ne. Qed.

Lemma tx_update_other_follows m table cols where_ set :
  table ≠ mc_table m → preserves (follows m) (tx_update MIGRATIONS table cols where_ set).
Proof. intros Hne w n w' (_ & _ & _ & Hdb)%tx_update_Ok. apply follows_same. by rewrite Hdb, rows_insert_ne. Qed.

Lemma insert_or_ignore_other_follows m table key r :
  table ≠ mc_table m → preserves (follows m) (tx_insert_or_ignore MIGRATIONS table key r).
Proof.
  intros Hne w n w' (_ & [[Hdb _]|[_ Hdb]])%tx_insert_or_ignore_Ok; apply follows_same; rewrite Hdb; [done|].
  by rewrite rows_insert_ne.
Qed.

Lemma event_follows m amb e :
  mc_table m ∉ journal → preserves (follows m) (append_internal_event MIGRATIONS amb e).
Proof. intros Hj w c w' Hx. by eapply follows_outside; [apply (append_internal_event_touches _ _ _ _ _ _ Hx)|]. Qed.

(** A change of the machine's table outside its state. *)
Lemma update_stateless_follows m kc key expected asg :
  ascii_lower (mc_table m) = mc_table m →
  Forall (fun c => c ≠ REVISION_COLUMN ∧ assigned asg c = None) (mc_columns m) →
  preserves (follows m) (update_revisioned_by MIGRATIONS (mc_table m) kc key expected asg).
Proof.
  intros Ht Hc w n w' Hu. eapply update_follows; [done|done|]. intros r _ _.
  enough (state_of m (set_clause asg r) = state_of m r) as -> by done. unfold state_of.
  apply map_ext_in. intros c Hin. rewrite List.Forall_forall in Hc. destruct (Hc c Hin) as [Hne Ha].
  by rewrite column_set_clause, Ha.
Qed.

Lemma stamp_follows m amb cols where_ :
  "started_at" ∉ mc_columns m →
  preserves (follows m) (tx_update MIGRATIONS (mc_table m) cols where_ (stamp_started amb)).
Proof.
  intros Hc w n w' (_ & _ & _ & ->)%tx_update_Ok. apply follows_map. intros r _ _.
  enough (state_of m (stamp_started amb r) = state_of m r) as -> by done. unfold state_of, stamp_started.
  apply map_ext_in. intros c Hin%list_elem_of_In. apply column_insert_ne. by intros <-.
Qed.

Ltac solve_follows :=
  solve_preserves;
  first
    [ apply tx_insert_follows; first [left; discriminate | right; reflexivity]
    | apply update_other_follows; discriminate
    | apply tx_update_other_follows; discriminate
    | apply insert_or_ignore_other_follows; discriminate
    | apply event_follows; elem
    | idtac ].

(** The state after a SET clause, column by column. *)
Ltac clause_state :=
  unfold state_of; cbn [mc_columns map goal_machine task_machine planning_machine workspace_machine run_machine
    attempt_machine sandbox_machine];
  rewrite ?column_set_clause by done; unfold assigned; cbn [fold_left fst snd ascii_lower String.eqb Ascii.eqb
    Bool.eqb default].

(** ** Goals, Tasks and planning operations *)

Section Lifecycles.
Context `{Sha256}.

Lemma create_goal_follows amb g s : preserves (follows goal_machine) (create_goal MIGRATIONS amb g s).
Proof. unfold create_goal. solve_follows. Qed.

Lemma record_planning_follows amb d p :
  preserves (follows planning_machine) (record_direct_planning MIGRATIONS amb d p).
Proof. unfold record_direct_planning. solve_follows. Qed.

(** Steps over a part of a run that leaves the machine's table. *)
Ltac skip F := etrans; [apply (follows_outside _ _ _ _ F); elem|].

(** What a run that succeeded leaves of a machine it takes no step of. *)
Ltac frame_follows E := refine (preserves_run (follows _) _ _ _ _ E _); solve_follows.

Lemma apply_plan_follows amb operation_id task_id plan w u w' :
  valid MIGRATIONS (w_db w) → apply_plan MIGRATIONS amb operation_id task_id plan w = (Ok u, w') →
  follows goal_machine (w_db w) (w_db w') ∧ follows task_machine (w_db w) (w_db w') ∧
  follows planning_machine (w_db w) (w_db w').
Proof.
  intros Hv Hm. unfold apply_plan in Hm. tx_step Hm as Epre. destruct a as [[[[g p] grr] gr] opr].
  apply materialize_preconditions_Ok in Epre as [-> Hcur].
  destruct Hcur as [(op & Hop & Hplanned & _) (g0 & Hg & Hph & _) _ _ _ _].
  tx_step Hm as Es. tx_valid Es Hv as Hv1. tx_frame Es ["task_specs"] as F1.
  tx_step Hm as Eq. unfold prerequisites_satisfied in Eq. tx_step Eq as Ec.
  apply tx_query_Ok in Ec as [[= Ec] ->]. apply tx_ret_Ok in Eq as [-> ->].
  tx_step Hm as Et. destruct (insert_row_of _ _ "id" task_id _ _ _ _ Et eq_refl) as [Hnone _].
  rewrite no_edges_of_absent in Ec by done. subst a1. cbn [length Nat.eqb] in *.
  tx_valid Et Hv1 as Hv2. tx_frame Et ["tasks"] as F2.
  rewrite bool_decide_eq_true_2 in Hm by done. tx_step Hm as Esch. tx_valid Esch Hv2 as Hv3.
  tx_frame Esch ["task_scheduling_state"] as F3.
  tx_step Hm as Egg. tx_valid Egg Hv3 as Hv4. tx_frame Egg ["task_graphs"] as F4.
  tx_step Hm as Ep. tx_step Hm as Eg. tx_valid Eg Hv4 as Hv5. tx_frame Eg ["goals"] as F5.
  tx_step Hm as Eop. tx_frame Eop ["planning_operations"] as F6. apply tx_ret_Ok in Hm as [-> ->].
  split_and!.
  - skip F1. skip F2. skip F3. skip F4.
    etrans; [|by apply (follows_outside goal_machine _ _ _ F6); elem].
    destruct (bool_decide (a3 = GoalPlanning)) eqn:Eb; [|by apply tx_ret_Ok in Eg as [_ ->]].
    apply bool_decide_eq_true in Eb as ->. apply goal_phase_parse_Some in Ep as ->.
    tx_step Eg as Eu. apply tx_ret_Ok in Eg as [_ ->].
    eapply (update_row_follows goal_machine "id"); [apply _|done|done|done|exact Eu| |].
    + rewrite (row_of_same _ _ _ _ _ _ F4), (row_of_same _ _ _ _ _ _ F3), (row_of_same _ _ _ _ _ _ F2),
        (row_of_same _ _ _ _ _ _ F1) by elem. exact Hg.
    + apply rtc_once. clause_state. rewrite Hph. constructor.
  - skip F1. etrans; [frame_follows Et|]. skip F3. skip F4. skip F5.
    by apply (follows_outside task_machine _ _ _ F6); elem.
  - skip F1. skip F2. skip F3. skip F4. skip F5.
    eapply (update_row_follows planning_machine "id"); [apply _|done|done|done|exact Eop| |].
    + rewrite (row_of_same _ _ _ _ _ _ F5), (row_of_same _ _ _ _ _ _ F4), (row_of_same _ _ _ _ _ _ F3),
        (row_of_same _ _ _ _ _ _ F2), (row_of_same _ _ _ _ _ _ F1) by elem. exact Hop.
    + apply rtc_once. clause_state. rewrite Hplanned. constructor.
Qed.

Lemma fence_task_follows id p rev target w b w' r :
  valid MIGRATIONS (w_db w) → row_of (w_db w) "tasks" "id" id = Some r →
  decode_task_head r = Ok (id, p, rev, target) →
  fence_task MIGRATIONS (id, p, rev, target) w = (Ok b, w') → follows task_machine (w_db w) (w_db w').
Proof.
  intros Hv Hr Hd Hf. unfold fence_task in Hf. tx_step Hf as Ep.
  unfold decode_task_head in Hd. decode_inv Hd. apply task_phase_parse_Some in Ep.
  destruct (task_is_terminal a || bool_decide (target = Some "Cancelled")) eqn:Eb; [by apply tx_ret_Ok in Hf as [_ ->]|].
  apply orb_false_iff in Eb as [Hnt Htarget%bool_decide_eq_false].
  tx_step Hf as Eu. tx_step Hf. apply tx_ret_Ok in Hf as [_ ->].
  eapply (update_row_follows task_machine "id"); [apply _|done|done|done|exact Eu|exact Hr|].
  apply rtc_once. clause_state. subst p. rewrite C0. apply task_cancelled; [done|]. rewrite C2.
  destruct target; cbn; congruence.
Qed.

Lemma fence_all_follows l w n w' :
  valid MIGRATIONS (w_db w) → NoDup (map head_id l) →
  (∀ t, t ∈ l → ∃ r, row_of (w_db w) "tasks" "id" (head_id t) = Some r ∧ decode_task_head r = Ok t) →
  fence_all MIGRATIONS l w = (Ok n, w') → follows task_machine (w_db w) (w_db w').
Proof.
  revert w n w'; induction l as [|t l IH]; intros w n w' Hv Hnd Hrows Hf; [by apply tx_ret_Ok in Hf as [_ ->]|].
  cbn [fence_all] in Hf. tx_step Hf as Ef. tx_step Hf as El. apply tx_ret_Ok in Hf as [_ ->].
  destruct (Hrows t ltac:(left)) as (r & Hr & Hd). destruct t as [[[id p] rev] target].
  cbn [map] in Hnd. apply NoDup_cons in Hnd as [Hni Hnd]. unfold head_id in Hni at 1. cbn in Hni, Hr.
  destruct (fence_task_Ok _ _ _ _ _ _ _ _ Hv Hr Hd Ef) as (Hv1 & F1 & Hother & _).
  etrans; [by eapply fence_task_follows|]. eapply IH; [done|done| |done].
  intros u Hu. rewrite Hother; [apply Hrows; by right|]. intros <-.
  apply Hni, list_elem_of_In, in_map, list_elem_of_In, Hu.
Qed.

Lemma fence_tasks_follows goal_id w n w' :
  valid MIGRATIONS (w_db w) → fence_tasks MIGRATIONS goal_id w = (Ok n, w') →
  follows task_machine (w_db w) (w_db w').
Proof.
  intros Hv Hf. unfold fence_tasks in Hf. tx_step Hf as Eq. apply query_ordered_Ok in Eq as [-> Hall].
  destruct (fence_tasks_reads _ _ _ Hv Hall) as (Hnd & Hread & _). by eapply fence_all_follows.
Qed.

Lemma cancel_goal_follows goal_id w v w' :
  valid MIGRATIONS (w_db w) → cancel_goal MIGRATIONS goal_id w = (Ok v, w') →
  follows goal_machine (w_db w) (w_db w') ∧ follows task_machine (w_db w) (w_db w').
Proof.
  intros Hv Hm. unfold cancel_goal in Hm. tx_step Hm as Eq. tx_step Hm as E. subst.
  apply query_by_Some in Eq as (-> & g & Hg & Dg). destruct a0 as [[[pt crev] rev] target].
  unfold decode_cancellable in Dg. decode_inv Dg. tx_step Hm as Ep. apply goal_phase_parse_Some in Ep. subst pt.
  tx_step Hm as Ec. tx_step Hm as Eu. tx_frame Eu ["goals"] as F1. tx_valid Eu Hv as Hv1.
  tx_step Hm as Ef. apply tx_ret_Ok in Hm as [_ ->].
  destruct (fence_tasks_Ok _ _ _ _ Hv1 Ef) as (_ & F2 & _). split.
  - etrans; [|by apply (follows_outside goal_machine _ _ _ F2); elem].
    destruct a0; [by apply tx_ret_Ok in Eu as [_ ->]|].
    eapply (update_row_follows goal_machine "id"); [apply _|done|done|done|exact Eu|exact Hg|].
    apply rtc_once. clause_state. rewrite C, C2. by constructor.
  - skip F1. by eapply fence_tasks_follows.
Qed.

(** ** Runs *)

Lemma run_intent_follows amb i w out w' :
  valid MIGRATIONS (w_db w) → apply_run_intent MIGRATIONS amb i w = (Ok out, w') →
  follows task_machine (w_db w) (w_db w') ∧ follows run_machine (w_db w) (w_db w').
Proof.
  intros Hv Hx. unfold apply_run_intent in Hx. tx_step Hx as Ec. apply check_intent_Ok in Ec as (-> & Ha & _).
  destruct (ia_task _ _ _ Ha) as (t & Ht & _ & Hp & Hr & _).
  unfold commit_intent, SCHEDULER_TABLE, TASK_SCHEDULING_TABLE in Hx. tx_step Hx as E0.
  tx_step Hx as E1. tx_frame E1 ["execution_bindings"] as F1. tx_valid E1 Hv as V1.
  tx_step Hx as E2. tx_frame E2 ["context_source_snapshots"] as F2. tx_valid E2 V1 as V2.
  tx_step Hx as E3. tx_frame E3 ["runs"] as F3. tx_valid E3 V2 as V3.
  tx_step Hx as E4. tx_frame E4 ["run_status"] as F4. tx_valid E4 V3 as V4.
  tx_step Hx as E5. tx_frame E5 ["tasks"] as F5. tx_valid E5 V4 as V5.
  tx_step Hx as E6. apply charge_goal_Ok in E6 as (F6 & _); [|done].
  tx_step Hx as E7. tx_frame E7 ["scheduler_state"] as F7.
  tx_step Hx as E8. tx_frame E8 ["task_scheduling_state"] as F8. apply tx_ret_Ok in Hx as [_ ->].
  split.
  - skip F1. skip F2. skip F3. skip F4. etrans; [|skip F6; skip F7; by apply (follows_outside task_machine _ _ _ F8); elem].
    eapply (update_row_follows task_machine "id"); [apply _|done|done|done|exact E5| |].
    + rewrite (row_of_same _ _ _ _ _ _ F4), (row_of_same _ _ _ _ _ _ F3), (row_of_same _ _ _ _ _ _ F2),
        (row_of_same _ _ _ _ _ _ F1) by elem. exact Ht.
    + apply rtc_once. clause_state. rewrite Hp, Hr. constructor.
  - skip F1. skip F2. skip F3. etrans; [frame_follows E4|].
    skip F5. skip F6. skip F7. by apply (follows_outside run_machine _ _ _ F8); elem.
Qed.

Lemma commit_submission_follows amb s prior w run_id task_id n out w' :
  valid MIGRATIONS (w_db w) → submission_current (w_db w) s run_id task_id n →
  commit_submission MIGRATIONS amb s prior run_id task_id n w = (Ok out, w') →
  follows task_machine (w_db w) (w_db w') ∧ follows run_machine (w_db w) (w_db w').
Proof.
  intros Hv Hcur Hx. destruct Hcur as [(at_ & st & r & _ & _ & _ & _ & Hr & _ & Hrp & _)
    (d & _ & _ & _ & (t & g & gr & p & Ht & Htp & Hact & _) & _) _].
  unfold commit_submission in Hx. tx_step Hx as En. tx_step Hx as Ec.
  apply create_candidate_Ok in Ec as (F1 & _ & _ & V1). specialize (V1 Hv).
  tx_step Hx as Eu. tx_frame Eu ["run_status"] as F2. tx_valid Eu V1 as V2.
  tx_step Hx as Ek. tx_frame Ek ["tasks"] as F3.
  assert (∀ m, m = task_machine ∨ m = run_machine → follows m (w_db w2) (w_db w')) as Hpost.
  { unfold record_outcome in Hx. intros m [-> | ->]; frame_follows Hx. }
  split.
  - skip F1. skip F2. etrans; [|apply Hpost; by left].
    eapply (update_row_follows task_machine "id"); [apply _|done|done|done|exact Ek| |].
    + rewrite (row_of_same _ _ _ _ _ _ F2), (row_of_same _ _ _ _ _ _ F1) by elem. exact Ht.
    + apply rtc_once. clause_state. rewrite Htp, Hact. constructor.
  - skip F1. etrans; [|apply Hpost; by right]. etrans; [|by apply (follows_outside run_machine _ _ _ F3); elem].
    eapply (update_row_follows run_machine "run_id"); [apply _|done|done|done|exact Eu| |].
    + rewrite (row_of_same _ _ _ _ _ _ F1) by elem. exact Hr.
    + apply rtc_once. clause_state. rewrite Hrp. constructor.
Qed.

Lemma submission_follows amb s w out w' :
  valid MIGRATIONS (w_db w) → apply_candidate_submission MIGRATIONS amb s w = (Ok out, w') →
  follows task_machine (w_db w) (w_db w') ∧ follows run_machine (w_db w) (w_db w').
Proof.
  intros Hv Hx. unfold apply_candidate_submission in Hx. tx_step Hx as Ea.
  apply authenticate_unchanged in Ea as ->. tx_step Hx as El. apply lookup_request_Ok in El as [-> _].
  assert (∀ prior, submit_fresh MIGRATIONS amb s prior w = (Ok out, w') →
    follows task_machine (w_db w) (w_db w') ∧ follows run_machine (w_db w) (w_db w')) as Hf.
  { intros prior Hf. unfold submit_fresh in Hf. tx_step Hf as Es. destruct a1 as [[run_id task_id] n].
    apply submission_authority_Ok in Es as [-> Hc]; [|done]. by eapply commit_submission_follows. }
  destruct a0 as [[h state]|]; [|by eapply Hf]. tx_step Hx as Eg. destruct state as [|result|problem];
    [by eapply Hf| |by eapply Hf]. tx_step Hx as Ed. tx_step Hx as Ec. apply tx_ret_Ok in Hx as [-> ->].
  by apply load_committed_unchanged in Ec as ->.
Qed.

Lemma conclude_run_follows amb r t n : preserves (follows run_machine) (apply_conclude_run MIGRATIONS amb r t n).
Proof.
  intros w u w' Hx. unfold apply_conclude_run in Hx. tx_step Hx as Eg. tx_step Hx as En. tx_step Hx as Eu.
  etrans; [|frame_follows Hx]. eapply (update_follows run_machine); [done|exact Eu|]. intros s _ _.
  apply rtc_once. clause_state. constructor. by apply contains_true.
Qed.

(** ** Attempts *)

Lemma attempt_creation_follows amb c w out w' :
  apply_attempt_creation MIGRATIONS amb c w = (Ok out, w') →
  follows run_machine (w_db w) (w_db w') ∧ follows attempt_machine (w_db w) (w_db w').
Proof.
  intros Hx. unfold apply_attempt_creation, active_run_revision, next_ordinal, restore_generation in Hx.
  split; frame_follows Hx. apply (update_stateless_follows run_machine); [done|]. repeat constructor; done.
Qed.

Lemma launch_contact_follows amb r a e s c w u w' :
  valid MIGRATIONS (w_db w) → apply_launch_contact MIGRATIONS amb r a e s c w = (Ok u, w') →
  follows attempt_machine (w_db w) (w_db w').
Proof.
  intros Hv Hx. unfold apply_launch_contact in Hx. tx_step Hx as Eq. tx_step Hx as Es. subst a0.
  apply query_optional_Some in Eq as [-> (row & Hin & Hw & D)]. destruct a1 as [contact n].
  apply andb_true_iff in Hw as [[Ha%col_is_text _]%andb_true_iff [_ Hterm]%col_is_true]. decode_inv D.
  destruct (String.eqb_spec contact (launch_contact_as_str ContactMayHaveOccurred)) as [|Hne];
    [by apply tx_ret_Ok in Hx as [_ ->]|].
  tx_step Hx as Ec. apply query_optional_Ok in Ec as [-> _]. tx_step Hx as Eg. tx_step Hx as Er.
  unfold current_session_revision in Er. apply tx_query_Ok in Er as [_ ->]. tx_step Hx as Ef. tx_step Hx as Ee.
  tx_step Hx as En. tx_step Hx as Eu. etrans; [|frame_follows Hx].
  eapply (update_row_follows attempt_machine "attempt_id"); [apply _|done|done|done|exact Eu| |].
  - by apply (row_of_unique MIGRATIONS); [apply _|..].
  - apply rtc_once. clause_state. rewrite Hterm, C. constructor. unfold launch_contact_as_str in Hne. congruence.
Qed.

Lemma observation_follows amb a n u w out w' :
  valid MIGRATIONS (w_db w) → apply_observation MIGRATIONS amb a n u w = (Ok out, w') →
  follows attempt_machine (w_db w) (w_db w').
Proof.
  intros Hv Hx. unfold apply_observation in Hx. tx_step Hx as En. destruct u as [o|o].
  - tx_step Hx as Eg. apply negb_true_iff, bool_decide_eq_false in Eg. tx_step Hx as Eu.
    etrans; [|refine (preserves_run (follows attempt_machine) _ _ _ _ Hx _); solve_follows;
      by apply (stamp_follows attempt_machine); elem].
    eapply (update_follows attempt_machine); [done|exact Eu|]. intros r _ _. apply rtc_once. clause_state. by constructor.
  - tx_step Hx as Ec. apply query_by_Ok in Ec as [-> Hc]. tx_step Hx as Eg.
    apply bool_decide_eq_true in Eg as ->. tx_step Hx as Eu. etrans; [|frame_follows Hx].
    destruct (row_of (w_db w) "attempt_status" "attempt_id" a) as [r|] eqn:Hr; [|done].
    destruct Hc as (t & Ht%get_text_Ok & [= <-]).
    eapply (update_row_follows attempt_machine "attempt_id"); [apply _|done|done|done|exact Eu|exact Hr|].
    apply rtc_once. clause_state. rewrite Ht. constructor.
Qed.

(** ** Workspaces *)

Lemma workspace_phase_parse_Some text p : workspace_phase_parse text = Some p → text = workspace_phase_as_str p.
Proof. unfold workspace_phase_parse. parse_inv. Qed.

Lemma phase_and_base_Ok id n w p b w' :
  workspace_phase_and_base MIGRATIONS id n w = (Ok (p, b), w') →
  w' = w ∧ ∃ r, row_of (w_db w) "workspaces" "id" id = Some r ∧ column r "phase" = SText (workspace_phase_as_str p).
Proof.
  unfold workspace_phase_and_base. intros Hx. tx_step Hx as Eq. tx_step Hx as Es. subst a.
  apply query_by_Some in Eq as [-> (r & Hr & D)]. destruct a0 as [[pt bt] rev]. decode_inv D.
  tx_step Hx as Eg. tx_step Hx as Ep. apply workspace_phase_parse_Some in Ep as ->. tx_step Hx as Eb.
  apply tx_ret_Ok in Hx as [[= -> ->] ->]. eauto.
Qed.

Lemma transition_follows id n p m w rec w' r :
  valid MIGRATIONS (w_db w) → row_of (w_db w) "workspaces" "id" id = Some r →
  workspace_step [column r "phase"; column r "materialization"]
    [SText (workspace_phase_as_str p); SText (materialization_as_str m)] →
  transition MIGRATIONS id n p m w = (Ok rec, w') → follows workspace_machine (w_db w) (w_db w').
Proof.
  intros Hv Hr Hstep Hx. unfold transition, StoreWorkspace.read_in_transaction, WORKSPACE_TABLE in Hx.
  tx_step Hx as Eu. etrans; [|frame_follows Hx].
  eapply (update_row_follows workspace_machine "id"); [apply _|done|done|done|exact Eu|exact Hr|].
  apply rtc_once. clause_state. exact Hstep.
Qed.

Lemma open_workspace_follows amb i b :
  preserves (follows workspace_machine) (open_workspace MIGRATIONS amb i b).
Proof. unfold open_workspace, task_phase, current_workspace_id. solve_follows. Qed.

Lemma begin_follows i n w rec w' :
  valid MIGRATIONS (w_db w) → begin_workspace_materialization MIGRATIONS i n w = (Ok rec, w') →
  follows workspace_machine (w_db w) (w_db w').
Proof.
  intros Hv Hx. unfold begin_workspace_materialization in Hx. tx_step Hx as Ep. unfold workspace_phase in Ep.
  tx_step Ep as Eb. destruct a0 as [p b]. apply phase_and_base_Ok in Eb as (-> & r & Hr & Hp).
  apply tx_ret_Ok in Ep as [-> ->]. tx_step Hx as Eg. apply negb_true_iff in Eg.
  eapply transition_follows; [done|exact Hr| |exact Hx]. rewrite Hp. by constructor.
Qed.

Lemma complete_follows i n base w rec w' :
  valid MIGRATIONS (w_db w) → complete_workspace_materialization MIGRATIONS i n base w = (Ok rec, w') →
  follows workspace_machine (w_db w) (w_db w').
Proof.
  intros Hv Hx. unfold complete_workspace_materialization in Hx. tx_step Hx as Eb. destruct a as [p b].
  apply phase_and_base_Ok in Eb as (-> & r & Hr & Hp). tx_step Hx as Eg. apply bool_decide_eq_true in Eg as ->.
  tx_step Hx as Ev. eapply transition_follows; [done|exact Hr| |exact Hx]. rewrite Hp. constructor.
Qed.

Lemma fail_follows i n observed w rec w' :
  valid MIGRATIONS (w_db w) → fail_workspace_materialization MIGRATIONS i n observed w = (Ok rec, w') →
  follows workspace_machine (w_db w) (w_db w').
Proof.
  intros Hv Hx. unfold fail_workspace_materialization in Hx. tx_step Hx as Eo.
  apply negb_true_iff, bool_decide_eq_false in Eo. tx_step Hx as Ep. unfold workspace_phase in Ep.
  tx_step Ep as Eb. destruct a0 as [p b]. apply phase_and_base_Ok in Eb as (-> & r & Hr & Hp).
  apply tx_ret_Ok in Ep as [-> ->]. tx_step Hx as Eg. apply negb_true_iff in Eg.
  eapply transition_follows; [done|exact Hr| |exact Hx]. rewrite Hp. by constructor.
Qed.

Lemma materialization_parse_Some text m : materialization_parse text = Some m → text = materialization_as_str m.
Proof. unfold materialization_parse. parse_inv. Qed.

Lemma freeze_follows a t s i n w rec w' :
  valid MIGRATIONS (w_db w) → freeze_workspace MIGRATIONS a t s i n w = (Ok rec, w') →
  follows workspace_machine (w_db w) (w_db w').
Proof.
  intros Hv Hx. unfold freeze_workspace in Hx. tx_step Hx as Eq. tx_step Hx as Es. subst a0.
  apply query_by_Some in Eq as [-> (r & Hr & D)]. destruct a1 as [[owner pt] mt]. decode_inv D.
  tx_step Hx as Eo. tx_step Hx as Ep. apply workspace_phase_parse_Some in Ep as ->.
  tx_step Hx as Em. apply materialization_parse_Some in Em as ->. tx_step Hx as Eg.
  apply andb_true_iff in Eg as [->%bool_decide_eq_true ->%bool_decide_eq_true]. tx_step Hx as Ev.
  assert (w_db w0 = w_db w) as Hsame.
  { symmetry. refine (preserves_run eq _ _ _ _ Ev _). unfold validate_seal_authority, query_blob_key. solve_preserves. }
  rewrite <-Hsame in Hv, Hr |- *. eapply transition_follows; [done|exact Hr| |exact Hx]. rewrite C0, C1. constructor.
Qed.

(** ** Sandboxes *)

Lemma create_sandbox_follows amb i b :
  preserves (follows sandbox_machine) (create_sandbox MIGRATIONS amb i b).
Proof. unfold create_sandbox, current_sandbox_id. solve_follows. Qed.

Lemma sandbox_phase_parse_Some text p : sandbox_phase_parse text = Some p → text = sandbox_phase_as_str p.
Proof. unfold sandbox_phase_parse. parse_inv. Qed.

Lemma sandbox_transition_follows id n p o w rec w' :
  (∀ r, row_of (w_db w) "sandbox_instances" "id" id = Some r →
     sandbox_step [column r "phase"; column r "observed_presence"]
       [SText (sandbox_phase_as_str p); SText (sandbox_presence_as_str o)]) →
  valid MIGRATIONS (w_db w) → sandbox_transition MIGRATIONS id n p o w = (Ok rec, w') →
  follows sandbox_machine (w_db w) (w_db w').
Proof.
  intros Hstep Hv Hx. unfold sandbox_transition, sandbox_in_transaction, SANDBOX_TABLE in Hx.
  tx_step Hx as Eu. etrans; [|frame_follows Hx].
  destruct (update_revisioned_row MIGRATIONS "sandbox_instances" id n _ _ _ _ eq_refl Hv Eu) as (_ & r & Hr & _).
  eapply (update_row_follows sandbox_machine "id"); [apply _|done|done|done|exact Eu|exact Hr|].
  apply rtc_once. clause_state. by apply Hstep.
Qed.

Lemma step_from_follows from i n p o w rec w' :
  (∀ x, sandbox_step [SText (sandbox_phase_as_str from); x]
     [SText (sandbox_phase_as_str p); SText (sandbox_presence_as_str o)]) →
  valid MIGRATIONS (w_db w) → step_from MIGRATIONS from i n p o w = (Ok rec, w') →
  follows sandbox_machine (w_db w) (w_db w').
Proof.
  intros Hstep Hv Hx. unfold step_from in Hx. tx_step Hx as Ep. unfold sandbox_phase_at in Ep.
  tx_step Ep as Eq. tx_step Ep as Es. subst a0. apply query_by_Some in Eq as [-> (r & Hr & D)].
  destruct a1 as [pt rev]. decode_inv D. tx_step Ep as Er. apply tx_some_Ok in Ep as [Ep ->].
  apply sandbox_phase_parse_Some in Ep as ->. tx_step Hx as Eg. apply bool_decide_eq_true in Eg as ->.
  eapply sandbox_transition_follows; [|done|exact Hx]. intros s Hs. rewrite Hr in Hs. injection Hs as <-.
  rewrite C. apply Hstep.
Qed.

Lemma presence_follows i n o w rec w' :
  update_sandbox_presence MIGRATIONS i n o w = (Ok rec, w') → follows sandbox_machine (w_db w) (w_db w').
Proof.
  intros Hx. unfold update_sandbox_presence, transition_presence, sandbox_in_transaction, SANDBOX_TABLE in Hx.
  tx_step Hx as Eu. etrans; [|frame_follows Hx]. eapply (update_follows sandbox_machine); [done|exact Eu|].
  intros r _ _. apply rtc_once. clause_state. constructor.
Qed.

(** ** Every operation *)

Ltac run_of Hx := unfold drop_result in Hx; tx_step Hx; apply tx_ret_Ok in Hx as [_ ->].

Lemma body_follows m amb o w u w' :
  m ∈ MACHINES → valid MIGRATIONS (w_db w) → body amb o w = (Ok u, w') → follows m (w_db w) (w_db w').
Proof.
  intros Hm Hv Hx. destruct (bool_decide (mc_table m ∈ footprint o)) eqn:E; last first.
  { eapply follows_outside; [by apply body_footprint in Hx|by eapply bool_decide_eq_false_1]. }
  unfold MACHINES in Hm. repeat (apply elem_of_cons in Hm as [->|Hm]); [..|by apply elem_of_nil in Hm].
  - destruct o; try (vm_compute in E; discriminate E); cbn [body] in Hx; run_of Hx.
    + by eapply create_goal_follows.
    + by eapply apply_plan_follows.
    + by eapply cancel_goal_follows.
  - destruct o; try (vm_compute in E; discriminate E); cbn [body] in Hx; run_of Hx.
    + by eapply apply_plan_follows.
    + by eapply cancel_goal_follows.
    + by eapply run_intent_follows.
    + by eapply submission_follows.
  - destruct o; try (vm_compute in E; discriminate E); cbn [body] in Hx; run_of Hx.
    + by eapply record_planning_follows.
    + by eapply apply_plan_follows.
  - destruct o; try (vm_compute in E; discriminate E); cbn [body] in Hx; run_of Hx.
    + by eapply open_workspace_follows.
    + by eapply begin_follows.
    + by eapply complete_follows.
    + by eapply fail_follows.
    + by eapply freeze_follows.
  - destruct o; try (vm_compute in E; discriminate E); cbn [body] in Hx.
    + run_of Hx. by eapply run_intent_follows.
    + run_of Hx. by eapply attempt_creation_follows.
    + by eapply conclude_run_follows.
    + run_of Hx. by eapply submission_follows.
  - destruct o; try (vm_compute in E; discriminate E); cbn [body] in Hx.
    + run_of Hx. by eapply attempt_creation_follows.
    + by eapply launch_contact_follows.
    + run_of Hx. by eapply observation_follows.
  - destruct o; try (vm_compute in E; discriminate E); cbn [body] in Hx; run_of Hx.
    + by eapply create_sandbox_follows.
    + eapply step_from_follows; [|done|exact E0]. constructor.
    + eapply step_from_follows; [|done|exact E0]. constructor.
    + eapply step_from_follows; [|done|exact E0]. constructor.
    + unfold complete_sandbox_release in E0. tx_step E0 as Eg. apply negb_true_iff, bool_decide_eq_false in Eg.
      eapply step_from_follows; [|done|exact E0]. by constructor.
    + unfold fail_sandbox in E0. tx_step E0 as Eg. apply negb_true_iff, bool_decide_eq_false in Eg.
      eapply sandbox_transition_follows; [|done|exact E0]. by constructor.
    + by eapply presence_follows.
Qed.

(** One step of the store, on a valid database. *)
Definition moved (m : Machine) (db db' : Database) : Prop :=
  advance db db' ∧ (valid MIGRATIONS db → follows m db db').

#[export] Instance moved_preorder m : PreOrder (moved m).
Proof.
  split; [by intros db|]. intros d1 d2 d3 [A1 F1] [A2 F2]. split; [by etrans|]. intros Hv.
  etrans; [by apply F1|]. by apply F2, (adv_valid _ _ (A1 Hv)).
Qed.

Lemma serve_moved m q conn : m ∈ MACHINES → moved m (conn_db conn) (conn_db (serve q conn).2).
Proof.
  intros Hm. apply serve_preserves; [apply _| |].
  - intros w u w' Hx. split; [by apply body_advance in Hx|]. intros Hv. by eapply body_follows.
  - intros v w u w' Hx. split; [by apply journal_tail_advance in Hx|]. intros _.
    eapply follows_outside; [by apply journal_tail_touches in Hx|]. unfold MACHINES in Hm.
    repeat (apply elem_of_cons in Hm as [->|Hm]; [elem|]). by apply elem_of_nil in Hm.
Qed.
End Lifecycles.

(** C11: Whatever requests are served, every Goal, Task, planning operation,
    Workspace, Run, Attempt and sandbox moves along its state machine: a row that
    was stored is kept and its new state is reached from its old one by steps whose
    guards held, and a new row is reached from the machine's initial state. A Task
    runs only from [Ready] and without another Run, a decision materializes once, a
    Workspace that may have been changed is never materialized again, an Attempt
    ends only after launch contact was recorded. *)
Theorem lifecycles_refined `{Sha256} requests conn m :
  valid MIGRATIONS (conn_db conn) → m ∈ MACHINES →
  let db := conn_db (serve_all requests conn).2 in
  ∃ kept added, rows db (mc_table m) = kept ++ added ∧
    Forall2 (fun r s => rtc (mc_step m) (state_of m r) (state_of m s)) (rows (conn_db conn) (mc_table m)) kept ∧
    Forall (fun s => rtc (mc_step m) (mc_initial m) (state_of m s)) added.
Proof.
  intros Hv Hm. destruct (serve_all_preserves (moved m) requests conn) as [_ Hf]; [|by apply Hf].
  intros q c. by apply serve_moved.
Qed.
