(* ===== verification/StoreReads.v ===== *)
(** * Stored rows always decode

    The constraints of the schema are strong enough for the readers: on a valid
    database the reads of Goals, Tasks, planning operations, sandboxes, the
    scheduler and the execution slot never meet a row they cannot interpret. *)

From Stdlib Require Import ZArith Ascii Lia.
From S2P Require Import Prelude Utf8 Canonical Digest Goal Task Validate Scheduling Sandbox Sql Schema Transaction Command StoreBase StorePlanning StoreConfiguration StoreExecution StoreScheduling StoreSandbox.

Section Reads.
Context (db : Database) (Hvalid : valid MIGRATIONS db).

(** A read whose rows all decode returns. *)
Lemma read_row_total {A} table cols where_ (decode : Row → Result A SqliteError) t :
  table_schema MIGRATIONS table = Some t → known_columns t cols = Ok tt →
  (∀ r, r ∈ rows db table → ∃ a, decode r = Ok a) →
  ∃ o, read_row MIGRATIONS db table cols where_ decode = Ok o ∧
    ∀ a, o = Some a → ∃ r, r ∈ rows db table ∧ decode r = Ok a.
Proof.
  intros Ht Hc Hd. rewrite (read_row_eval _ _ _ _ _ _ t Ht Hc).
  destruct (List.filter where_ (rows db table)) as [|r l] eqn:Ef; [by exists None|].
  assert (r ∈ List.filter where_ (rows db table)) as Hr by (rewrite Ef; left).
  apply list_elem_of_In, filter_In in Hr as [Hr%list_elem_of_In _].
  destruct (Hd r Hr) as [a Ha]. exists (Some a). rewrite Ha. split; [done|]. intros b [= <-]. eauto.
Qed.

Lemma and_then_total {A B} (read : Result (option A) StoreError) (f : A → Result B StoreError) o :
  read = Ok o → (∀ a, o = Some a → ∃ b, f a = Ok b) → ∃ o', and_then read f = Ok o'.
Proof.
  intros -> Hf. destruct o as [a|]; [|by exists None]. destruct (Hf a eq_refl) as [b Hb]. exists (Some b).
  cbn. by rewrite Hb.
Qed.

(** A text column with a list of admitted values. *)
Lemma listed_text table t c l r :
  table_schema MIGRATIONS table = Some t → declared_type table c = Some (TText, true) → one_of c l ∈ ts_checks t →
  r ∈ rows db table → ∃ s, get_text c r = Ok s ∧ s ∈ l.
Proof.
  intros Ht Hd Hc Hr. destruct (text_typed _ _ _ _ Hvalid Hd Hr) as (s & Hs & Hg). exists s. split; [done|].
  apply contains_true. eapply one_of_holds; [|exact Hs]. by eapply check_holds.
Qed.

Lemma stored_digest table t c r :
  table_schema MIGRATIONS table = Some t → declared_type table c = Some (TBlob, true) →
  digest_column c ∈ ts_checks t → r ∈ rows db table →
  ∃ b, get_blob c r = Ok b ∧ String.length b = 32.
Proof.
  intros Ht Hd Hc Hr. destruct (blob_typed _ _ _ _ Hvalid Hd Hr) as (b & Hb & Hg). exists b. split; [done|].
  eapply digest_holds; [|exact Hb]. by eapply check_holds.
Qed.

Lemma digest_from_total b c : String.length b = 32 → ∃ d, digest_from b c = Ok d.
Proof. intros Hb. unfold digest_from. rewrite Hb. eauto. Qed.

(** Every text of a list parses. *)
Lemma listed_parse {A} (parse : string → option A) l s :
  forallb (fun t => match parse t with Some _ => true | None => false end) l = true → s ∈ l →
  ∃ a, parse s = Some a.
Proof.
  rewrite forallb_forall. intros Hl Hs%list_elem_of_In. specialize (Hl s Hs). destruct (parse s) as [a|]; [by exists a|done].
Qed.

Lemma goal_total id : ∃ o, goal MIGRATIONS db id = Ok o.
Proof.
  assert (∀ r, r ∈ rows db "goals" → ∃ p c n, decode_goal_head r = Ok (p, c, n) ∧
    ∃ q, goal_phase_parse p = Some q) as Hd.
  { intros r Hr. destruct (listed_text "goals" goals_table "phase" _ r eq_refl eq_refl ltac:(left) Hr) as (p & Hp & Hin).
    destruct (integer_typed _ "goals" "current_revision" r Hvalid eq_refl Hr) as (c & _ & Hc).
    destruct (integer_typed _ "goals" "revision" r Hvalid eq_refl Hr) as (n & _ & Hn).
    exists p, c, n. unfold decode_goal_head. rewrite Hp, Hc, Hn. split; [done|].
    by eapply listed_parse; [|exact Hin]. }
  destruct (read_row_total "goals" ["phase"; "current_revision"; "revision"; "id"] (col_is "id" (SText id))
    decode_goal_head goals_table eq_refl eq_refl) as (o & Ho & Hback).
  { intros r Hr. destruct (Hd r Hr) as (p & c & n & H & _). eauto. }
  eapply and_then_total; [exact Ho|]. intros [[p c] n] Ha. destruct (Hback _ Ha) as (r & Hr & Hdec).
  destruct (Hd r Hr) as (p' & c' & n' & Hdec' & q & Hq). rewrite Hdec in Hdec'. injection Hdec' as <- <- <-.
  rewrite Hq. cbn. eauto.
Qed.

(** The specification a Task names is stored, under a digest. *)
Lemma task_digest_length r :
  r ∈ rows db "tasks" → ∃ b, get_blob "spec_digest" r = Ok b ∧ String.length b = 32.
Proof.
  intros Hr. destruct (blob_typed _ "tasks" "spec_digest" r Hvalid eq_refl Hr) as (b & Hb & Hg). exists b.
  split; [done|]. destruct (valid_reference MIGRATIONS db tasks_table (references ["spec_digest"] "task_specs" ["digest"])
    r "spec_digest" "digest") as (p & Hp & Hc); [done|set_solver|cbn; set_solver|done|done|done|by rewrite Hb|].
  destruct (stored_digest "task_specs" task_specs_table "digest" p eq_refl eq_refl ltac:(left) Hp) as (b' & Hb'%get_blob_Ok & Hl).
  rewrite Hc, Hb in Hb'. by injection Hb' as <-.
Qed.

Lemma task_total id : ∃ o, task MIGRATIONS db id = Ok o.
Proof.
  assert (∀ r, r ∈ rows db "tasks" → ∃ g p c d n a, decode_task r = Ok (g, p, c, d, n, a) ∧
    (∃ q, task_phase_parse p = Some q) ∧ String.length d = 32) as Hd.
  { intros r Hr. destruct (text_typed _ "tasks" "goal_id" r Hvalid eq_refl Hr) as (g & _ & Hg).
    destruct (listed_text "tasks" tasks_table "phase" _ r eq_refl eq_refl ltac:(left) Hr) as (p & Hp & Hin).
    destruct (integer_typed _ "tasks" "created_graph_revision" r Hvalid eq_refl Hr) as (c & _ & Hc).
    destruct (task_digest_length r Hr) as (d & Hdig & Hl).
    destruct (integer_typed _ "tasks" "revision" r Hvalid eq_refl Hr) as (n & _ & Hn).
    destruct (optional_text_typed _ "tasks" "active_run_id" r Hvalid eq_refl Hr) as (a & Ha).
    exists g, p, c, d, n, a. unfold decode_task. rewrite Hg, Hp, Hc, Hdig, Hn, Ha. split_and!; [done| |done].
    by eapply listed_parse; [|exact Hin]. }
  destruct (read_row_total "tasks" ["goal_id"; "phase"; "created_graph_revision"; "spec_digest"; "revision";
    "active_run_id"; "id"] (col_is "id" (SText id)) decode_task tasks_table eq_refl eq_refl) as (o & Ho & Hback).
  { intros r Hr. destruct (Hd r Hr) as (g & p & c & d & n & a & H & _). eauto. }
  eapply and_then_total; [exact Ho|]. intros [[[[[g p] c] d] n] a] Ha. destruct (Hback _ Ha) as (r & Hr & Hdec).
  destruct (Hd r Hr) as (g' & p' & c' & d' & n' & a' & Hdec' & (q & Hq) & Hl). rewrite Hdec in Hdec'.
  injection Hdec' as <- <- <- <- <- <-. rewrite Hq. cbn. destruct (digest_from_total d "spec_digest" Hl) as [dd ->]. cbn. eauto.
Qed.

Lemma planning_operation_total id : ∃ o, planning_operation MIGRATIONS db id = Ok o.
Proof.
  assert (∀ r, r ∈ rows db "planning_operations" → ∃ g gr e c d s n, decode_operation_row r = Ok (g, gr, e, c, d, s, n) ∧
    (∃ q, planning_state_parse s = Some q) ∧ String.length d = 32) as Hd.
  { intros r Hr. destruct (text_typed _ "planning_operations" "goal_id" r Hvalid eq_refl Hr) as (g & _ & Hg).
    destruct (integer_typed _ "planning_operations" "goal_revision" r Hvalid eq_refl Hr) as (gr & _ & Hgr).
    destruct (integer_typed _ "planning_operations" "expected_graph_revision" r Hvalid eq_refl Hr) as (e & _ & He).
    destruct (integer_typed _ "planning_operations" "configuration_activation_sequence" r Hvalid eq_refl Hr) as (c & _ & Hc).
    destruct (stored_digest "planning_operations" planning_operations_table "planning_input_digest" r eq_refl eq_refl
      ltac:(do 2 right; left) Hr) as (d & Hdig & Hl).
    destruct (listed_text "planning_operations" planning_operations_table "state" _ r eq_refl eq_refl
      ltac:(do 3 right; left) Hr) as (s & Hs & Hin).
    destruct (integer_typed _ "planning_operations" "revision" r Hvalid eq_refl Hr) as (n & _ & Hn).
    exists g, gr, e, c, d, s, n. unfold decode_operation_row. rewrite Hg, Hgr, He, Hc, Hdig, Hs, Hn.
    split_and!; [done| |done]. by eapply listed_parse; [|exact Hin]. }
  destruct (read_row_total "planning_operations" ["goal_id"; "goal_revision"; "expected_graph_revision";
    "configuration_activation_sequence"; "planning_input_digest"; "state"; "revision"; "id"] (col_is "id" (SText id))
    decode_operation_row planning_operations_table eq_refl eq_refl) as (o & Ho & Hback).
  { intros r Hr. destruct (Hd r Hr) as (? & ? & ? & ? & ? & ? & ? & H & _). eauto. }
  eapply and_then_total; [exact Ho|]. intros [[[[[[g gr] e] c] d] s] n] Ha. destruct (Hback _ Ha) as (r & Hr & Hdec).
  destruct (Hd r Hr) as (? & ? & ? & ? & ? & ? & ? & Hdec' & (q & Hq) & Hl). rewrite Hdec in Hdec'.
  injection Hdec' as <- <- <- <- <- <- <-. rewrite Hq. cbn.
  destruct (digest_from_total d "planning_input_digest" Hl) as [dd ->]. cbn. eauto.
Qed.

Lemma sandbox_decodes r :
  r ∈ rows db "sandbox_instances" → ∃ row rec, decode_sandbox r = Ok row ∧ sandbox_of row = Ok rec.
Proof.
  intros Hr. destruct (text_typed _ "sandbox_instances" "id" r Hvalid eq_refl Hr) as (i & _ & Hi).
  destruct (text_typed _ "sandbox_instances" "run_id" r Hvalid eq_refl Hr) as (u & _ & Hu).
  destruct (stored_digest "sandbox_instances" sandbox_instances_table "sandbox_plan_digest" r eq_refl eq_refl
    ltac:(right; left) Hr) as (d & Hd & Hl).
  destruct (text_typed _ "sandbox_instances" "environment_identity" r Hvalid eq_refl Hr) as (e & _ & He).
  destruct (listed_text "sandbox_instances" sandbox_instances_table "phase" _ r eq_refl eq_refl
    ltac:(do 3 right; left) Hr) as (p & Hp & Hpin).
  destruct (listed_text "sandbox_instances" sandbox_instances_table "observed_presence" _ r eq_refl eq_refl
    ltac:(do 4 right; left) Hr) as (o & Ho & Hoin).
  destruct (integer_typed _ "sandbox_instances" "revision" r Hvalid eq_refl Hr) as (n & _ & Hn).
  opose proof (listed_parse sandbox_phase_parse _ _ _ Hpin) as [ph Hph]; [reflexivity|].
  opose proof (listed_parse sandbox_presence_parse _ _ _ Hoin) as [pr Hpr]; [reflexivity|].
  destruct (digest_from_total d "sandbox_plan_digest" Hl) as [dd Hdd].
  eexists _, _. unfold decode_sandbox. rewrite Hi, Hu, Hd, He, Hp, Ho, Hn. split; [done|].
  unfold sandbox_of. rewrite Hdd. cbn. rewrite Hph. cbn. by rewrite Hpr.
Qed.

Lemma sandbox_read_total where_ :
  ∃ o, and_then (read_row MIGRATIONS db "sandbox_instances" sandbox_columns where_ decode_sandbox) sandbox_of = Ok o.
Proof.
  destruct (read_row_total "sandbox_instances" sandbox_columns where_ decode_sandbox sandbox_instances_table
    eq_refl eq_refl) as (o & Ho & Hback).
  { intros r Hr. destruct (sandbox_decodes r Hr) as (row & _ & H & _). eauto. }
  eapply and_then_total; [exact Ho|]. intros row Ha. destruct (Hback _ Ha) as (r & Hr & Hdec).
  destruct (sandbox_decodes r Hr) as (row' & rec & Hdec' & Hrec). rewrite Hdec in Hdec'. injection Hdec' as <-. eauto.
Qed.

Lemma collect_total {A B E} (f : A → Result B E) l : (∀ a, a ∈ l → ∃ b, f a = Ok b) → ∃ bs, collect f l = Ok bs.
Proof.
  induction l as [|a l IH]; intros Hf; cbn; [eauto|]. destruct (Hf a ltac:(left)) as [b ->].
  destruct IH as [bs ->]; [set_solver|]. cbn. eauto.
Qed.

Lemma inventory_total : ∃ l, nonreleased_sandbox_inventory db = Ok l.
Proof.
  apply collect_total. intros r Hr. apply list_elem_of_In, filter_In in Hr as [Hr%list_elem_of_In _].
  destruct (sandbox_decodes r Hr) as (row & rec & Hd & Hrec). rewrite Hd. cbn. eauto.
Qed.

(** A slot that is taken is the global one. *)
Lemma taken_slot r : r ∈ rows db "run_status" → slot_taken r = true → column r "active_slot" = SText "global".
Proof.
  intros Hr Ht. unfold slot_taken, is_null in Ht. apply negb_true_iff, bool_decide_eq_false in Ht.
  assert (slot_coherence (column r "phase") (column r "active_slot") ≠ Some false) as Hc.
  { refine (check_holds db "run_status" run_status_table
      (fun r => slot_coherence (column r "phase") (column r "active_slot")) r Hvalid eq_refl _ Hr).
    do 5 right. left. }
  destruct (typed_column _ "run_status" "active_slot" _ _ r Hvalid eq_refl Hr) as [[s Hs]|[_ ?]]; [|done].
  rewrite Hs in Hc |- *. destruct (text_typed _ "run_status" "phase" r Hvalid eq_refl Hr) as (p & Hp & _).
  rewrite Hp in Hc. unfold slot_coherence, eq3, is_null, in3 in Hc. cbn [bool_decide orb] in Hc.
  destruct (decide (s = "global")) as [->|Hne]; [done|]. exfalso. apply Hc.
  rewrite !bool_decide_eq_false_2 by congruence. by destruct (contains live_run_phases p).
Qed.

Lemma slot_holder_total : ∃ o, slot_holder db = Ok o.
Proof.
  unfold slot_holder. set (l := List.filter slot_taken (rows db "run_status")).
  assert (length l ≤ 1) as Hle.
  { apply (unique_filter_le MIGRATIONS db "run_status" run_status_table
      (unique_where ["active_slot"] (fun r => negb (is_null (column r "active_slot")))) slot_taken [SText "global"]
      Hvalid eq_refl); [do 2 right; left|]. intros r Hr Ht. cbn. unfold key_tuple. cbn.
    by rewrite (taken_slot r Hr Ht). }
  destruct (collect_total decode_holder (sort_by (text_order "run_id") l)) as [hs Hhs].
  { intros r Hr. rewrite sort_by_perm in Hr. apply list_elem_of_In, filter_In in Hr as [Hr%list_elem_of_In _].
    destruct (text_typed _ "run_status" "run_id" r Hvalid eq_refl Hr) as (u & _ & Hu).
    destruct (text_typed _ "run_status" "task_id" r Hvalid eq_refl Hr) as (t & _ & Ht).
    unfold decode_holder. rewrite Hu, Ht. cbn. eauto. }
  rewrite Hhs. cbn. apply collect_Ok, Forall2_length in Hhs. rewrite sort_by_perm in Hhs.
  destruct hs as [|h [|h' hs]]; cbn in Hhs; [eauto|eauto|lia].
Qed.
End Reads.

(** C34: What the schema admits, the readers can interpret: on every valid
    database the reads of a Goal, a Task, a planning operation, a sandbox, the
    sandbox inventory and the execution slot return a record or nothing, never an
    error (no unknown phase, malformed digest, column of another type, or second
    holder of the slot is stored). *)
Theorem stored_rows_decode db :
  valid MIGRATIONS db →
  (∀ id, ∃ o, goal MIGRATIONS db id = Ok o) ∧ (∀ id, ∃ o, task MIGRATIONS db id = Ok o) ∧
  (∀ id, ∃ o, planning_operation MIGRATIONS db id = Ok o) ∧
  (∀ id, ∃ o, sandbox_by_id MIGRATIONS db id = Ok o) ∧ (∀ id, ∃ o, sandbox_for_run MIGRATIONS db id = Ok o) ∧
  (∃ l, nonreleased_sandbox_inventory db = Ok l) ∧ ∃ o, slot_holder db = Ok o.
Proof.
  intros Hv. split_and!.
  - by apply goal_total.
  - by apply task_total.
  - by apply planning_operation_total.
  - intros id. by apply sandbox_read_total.
  - intros id. by apply sandbox_read_total.
  - by apply inventory_total.
  - by apply slot_holder_total.
Qed.
