(* ===== verification/Migration.v ===== *)
(** * The migration runner ([pantheon-store/src/migrations.rs])

    [run_with] and what it relies on: the recorded history, its verification
    against the compiled migrations, and the one transaction per migration. What a
    migration's SQL does to the database is a parameter, as are the failures the
    connection can report. *)

From Stdlib Require Import ZArith NArith Ascii Lia.
From S2P Require Import Prelude Utf8 Digest Sql Schema Transaction.

Record Migration : Type := { mig_version : Z; mig_name : string; mig_sql : string }.

(** ** The checksum *)

Definition FNV_OFFSET : N := 14695981039346656037.
Definition FNV_PRIME : N := 1099511628211.

(** [hash ^= byte; hash = hash.wrapping_mul(FNV_PRIME)] on [u64]. *)
Definition fnv_step (hash : N) (b : ascii) : N :=
  (N.lxor hash (byte_val b) * FNV_PRIME mod 18446744073709551616)%N.

Fixpoint fnv (hash : N) (s : string) : N :=
  match s with
  | EmptyString => hash
  | String b rest => fnv (fnv_step hash b) rest
  end.

(** [{:016x}] of a [u64]: sixteen nibbles, the highest first. *)
Fixpoint hex16 (digits : nat) (n : N) (acc : string) : string :=
  match digits with
  | O => acc
  | S digits => hex16 digits (N.shiftr n 4) (String (hex_char (N.land n 15)) acc)
  end.

Definition checksum (sql : string) : string := hex16 16 (fnv FNV_OFFSET sql) EmptyString.

(** ** The recorded state *)

Record MigrationRow : Type := {
  mr_version : Z;
  mr_name : string;
  mr_checksum : string;
  mr_applied_at : Z
}.

(** A database file: [PRAGMA user_version], the [schema_migrations] table when it
    exists, and the content the migrations build. *)
Record File (Content : Type) : Type := mk_file {
  f_version : Z;
  f_recorded : option (list MigrationRow);
  f_content : Content
}.
Arguments mk_file {Content}.
Arguments f_version {Content}.
Arguments f_recorded {Content}.
Arguments f_content {Content}.

Definition version_order (a b : MigrationRow) : comparison := (mr_version a ?= mr_version b)%Z.

Definition inconsistent (what : string) : StoreError := InconsistentMigrationState (message what []).

(** The versions are 1, 2, ..., each known and with the compiled checksum. *)
Fixpoint verify_rows (migrations : list Migration) (expected_next : Z) (rows : list MigrationRow) :
    Result Z StoreError :=
  match rows with
  | [] => Ok expected_next
  | r :: rest =>
      if negb (mr_version r =? expected_next)%Z then Err (inconsistent "schema_migrations has a gap")
      else
        let? m := ok_or (find_first (fun m => mig_version m =? mr_version r)%Z migrations)
          (inconsistent "an applied version is not a migration this build knows") in
        if negb (String.eqb (mr_checksum r) (checksum (mig_sql m)))
        then Err (inconsistent "a checksum does not match the compiled migration")
        else verify_rows migrations (expected_next + 1) rest
  end.

Definition verify_recorded_state (migrations : list Migration) (current_version : Z)
    (recorded : list MigrationRow) : Result unit StoreError :=
  let? expected_next := verify_rows migrations 1 (sort_by version_order recorded) in
  if negb (expected_next - 1 =? current_version)%Z
  then Err (inconsistent "user_version does not match the highest recorded migration")
  else Ok tt.

Section Runner.
Context {Content : Type}.
(** [execute_batch] of a migration's SQL. *)
Variable execute_batch : string → Content → Result Content SqliteError.
(** Failures of [CREATE TABLE IF NOT EXISTS] (under version 0), [BEGIN IMMEDIATE],
    the bookkeeping statements and [COMMIT]. *)
Variable fault : string → Z → option SqliteError.

Definition succeed_or (stage : string) (version : Z) : Result unit StoreError :=
  match fault stage version with
  | Some e => Err (Sqlite e)
  | None => Ok tt
  end.

Definition migration_row (now : Z) (m : Migration) : MigrationRow :=
  {| mr_version := mig_version m; mr_name := mig_name m; mr_checksum := checksum (mig_sql m);
     mr_applied_at := now |}.

(** One migration in its own transaction; an error drops the transaction, which
    rolls everything back. *)
Definition apply_in_transaction (now : Z) (m : Migration) (f : File Content) :
    Result (File Content) StoreError :=
  let recorded := default [] (f_recorded f) in
  do? succeed_or "begin" (mig_version m) in
  let? content := map_err (MigrationFailed (mig_version m) (mig_name m))
    (execute_batch (mig_sql m) (f_content f)) in
  do? succeed_or "user_version" (mig_version m) in
  do? succeed_or "insert" (mig_version m) in
  if existsb (fun r => mr_version r =? mig_version m)%Z recorded then Err (Sqlite PrimaryKeyConstraint)
  else
    do? succeed_or "commit" (mig_version m) in
    Ok (mk_file (mig_version m) (Some (recorded ++ [migration_row now m])) content).

Definition apply_one (now : Z) (m : Migration) (f : File Content) : Result unit StoreError * File Content :=
  match apply_in_transaction now m f with
  | Ok f' => (Ok tt, f')
  | Err e => (Err e, f)
  end.

Fixpoint apply_all (now : Z) (l : list Migration) (f : File Content) : Result unit StoreError * File Content :=
  match l with
  | [] => (Ok tt, f)
  | m :: rest =>
      match apply_one now m f with
      | (Ok _, f') => apply_all now rest f'
      | (Err e, f') => (Err e, f')
      end
  end.

Definition max_known (migrations : list Migration) : Z :=
  match last migrations with
  | Some m => mig_version m
  | None => 0
  end.

Definition run_with (now : Z) (migrations : list Migration) (f : File Content) :
    Result unit StoreError * File Content :=
  let current_version := f_version f in
  if (max_known migrations <? current_version)%Z
  then (Err (UnsupportedSchemaVersion current_version (max_known migrations)), f)
  else
    match succeed_or "create" 0 with
    | Err e => (Err e, f)
    | Ok _ =>
        let f1 := mk_file current_version (Some (default [] (f_recorded f))) (f_content f) in
        match verify_recorded_state migrations current_version (default [] (f_recorded f)) with
        | Err e => (Err e, f1)
        | Ok _ => apply_all now (List.filter (fun m => current_version <? mig_version m)%Z migrations) f1
        end
    end.
End Runner.

(** The production set; the SQL of each entry is modelled by its tables in Schema. *)
Definition PRODUCTION_NAMES : list (Z * string) := [
  (1, "create_system_state"); (2, "bootstrap_installation_identity");
  (3, "create_command_and_journal_state"); (4, "bootstrap_journal_epoch");
  (5, "create_configuration_authority"); (6, "bootstrap_active_configuration_pointer");
  (7, "create_goal_planning_and_task_graph"); (8, "create_task_workspaces");
  (9, "create_scheduling_and_run_intent"); (10, "bootstrap_scheduler_state");
  (11, "create_artifacts_and_workspace_revisions"); (12, "create_context_plan_attachment");
  (13, "create_attempt_lineage"); (14, "create_candidate_submission");
  (15, "create_sandbox_instances"); (16, "create_sandbox_probe_results")]%Z.

Definition production (sql : Z → string) : list Migration :=
  map (fun '(v, n) => {| mig_version := v; mig_name := n; mig_sql := sql v |}) PRODUCTION_NAMES.

(** ** Lemmas *)

(** The versions are 1, 2, ... in order. *)
Definition numbered (migrations : list Migration) : Prop :=
  map mig_version migrations = counting 0 (length migrations).

Definition records (r : MigrationRow) (m : Migration) : Prop :=
  mr_version r = mig_version m ∧ mr_checksum r = checksum (mig_sql m).

Lemma numbered_lookup migrations k m : numbered migrations → migrations !! k = Some m → mig_version m = Z.of_nat (S k).
Proof.
  unfold numbered. intros Hn Hm.
  assert (map mig_version migrations !! k = Some (mig_version m)) as Hl
    by (rewrite list_lookup_fmap, Hm; done).
  rewrite Hn in Hl. apply lookup_lt_Some in Hm. revert Hl Hm. generalize (length migrations).
  clear. intros j. assert (∀ a, counting a j !! k = Some (mig_version m) → k < j → mig_version m = (a + Z.of_nat (S k))%Z) as H.
  { revert k. induction j as [|j IH]; intros [|k] a; cbn; try lia; [intros [= <-]; lia|].
    intros Hc Hk. rewrite (IH k (a + 1)%Z) by (done || lia). lia. }
  intros Hl Hk. by rewrite (H 0%Z).
Qed.

Lemma numbered_find migrations v :
  numbered migrations →
  find_first (fun m => mig_version m =? v)%Z migrations = if (1 <=? v)%Z then migrations !! Z.to_nat (v - 1) else None.
Proof.
  intros Hn. destruct (find_first _ migrations) as [m|] eqn:E.
  - apply find_first_Some in E as [Hin Hv%Z.eqb_eq]. apply list_elem_of_lookup in Hin as [k Hk].
    pose proof (numbered_lookup _ _ _ Hn Hk) as Hm. destruct (Z.leb_spec 1 v); [|lia].
    by replace (Z.to_nat (v - 1)) with k by lia.
  - destruct (Z.leb_spec 1 v); [|done]. destruct (migrations !! Z.to_nat (v - 1)) as [m|] eqn:Hm; [|done].
    exfalso. pose proof (numbered_lookup _ _ _ Hn Hm). rewrite find_first_None in E.
    assert (m ∈ migrations) as Hin by (by eapply list_elem_of_lookup_2). specialize (E m Hin). cbn in E. lia.
Qed.

(** The verification accepts exactly a recorded prefix. *)
Lemma verify_rows_Ok migrations j rows n :
  numbered migrations → j ≤ length migrations →
  verify_rows migrations (Z.of_nat (S j)) rows = Ok n ↔
  j + length rows ≤ length migrations ∧ n = Z.of_nat (S (j + length rows)) ∧
  Forall2 records rows (take (length rows) (drop j migrations)).
Proof.
  intros Hn. revert j. induction rows as [|r rows IH]; intros j Hj; cbn [verify_rows length].
  { rewrite Nat.add_0_r. split; [intros [= <-]; by repeat split|]. by intros (_ & -> & _). }
  destruct (Z.eqb_spec (mr_version r) (Z.of_nat (S j))) as [Hv|Hv]; cbn [negb].
  - rewrite numbered_find by done. rewrite Hv. destruct (Z.leb_spec 1 (Z.of_nat (S j))); [|lia].
    replace (Z.to_nat (Z.of_nat (S j) - 1)) with j by lia.
    destruct (migrations !! j) as [m|] eqn:Hm; cbn [ok_or try_bind].
    2: { apply lookup_ge_None in Hm. split; [done|]. lia. }
    pose proof (lookup_lt_Some _ _ _ Hm) as Hlt. pose proof (numbered_lookup _ _ _ Hn Hm) as Hmv.
    rewrite (drop_S _ _ _ Hm). cbn [take].
    destruct (String.eqb_spec (mr_checksum r) (checksum (mig_sql m))) as [Hc|Hc]; cbn [negb].
    + replace (Z.of_nat (S j) + 1)%Z with (Z.of_nat (S (S j))) by lia. rewrite IH by lia.
      split; intros (H1 & H2 & H3); split_and!; try lia.
      * constructor; [split; congruence|done].
      * by inversion H3.
    + split; [done|]. intros (_ & _ & H3). inversion H3 as [|? ? ? ? [_ ?]]. done.
  - split; [done|]. intros (Hl & _ & H3). destruct (migrations !! j) as [m|] eqn:Hm.
    + rewrite (drop_S _ _ _ Hm) in H3. inversion H3 as [|? ? ? ? [Hr _]]. exfalso.
      rewrite (numbered_lookup _ _ _ Hn Hm) in Hr. done.
    + apply lookup_ge_None in Hm. lia.
Qed.

Lemma verify_Ok migrations v recorded :
  numbered migrations →
  verify_recorded_state migrations v recorded = Ok tt ↔
  v = Z.of_nat (length recorded) ∧ length recorded ≤ length migrations ∧
  Forall2 records (sort_by version_order recorded) (take (length recorded) migrations).
Proof.
  intros Hn. unfold verify_recorded_state.
  assert (length (sort_by version_order recorded) = length recorded) as Hlen
    by (apply Permutation_length, sort_by_perm).
  split.
  - intros H. apply try_bind_Ok in H as (n & H & Hv).
    apply (verify_rows_Ok _ 0) in H as (H1 & -> & H3); [|done|lia]. rewrite Hlen in *. rewrite drop_0 in H3.
    destruct (Z.eqb_spec (Z.of_nat (S (0 + length recorded)) - 1) v); [|done]. split_and!; [lia|lia|done].
  - intros (-> & Hl & Hf). change 1%Z with (Z.of_nat 1).
    assert (verify_rows migrations (Z.of_nat 1) (sort_by version_order recorded)
      = Ok (Z.of_nat (S (0 + length recorded)))) as ->.
    { apply (verify_rows_Ok _ 0); [done|lia|]. rewrite Hlen, drop_0. split_and!; [lia|done|done]. }
    cbn [try_bind]. rewrite (proj2 (Z.eqb_eq _ _)) by lia. done.
Qed.

(** ** Running *)

Section RunnerFacts.
Context {Content : Type} (execute_batch : string → Content → Result Content SqliteError).
Context (migrations : list Migration) (Hnumbered : numbered migrations).

(** The file records the first [k] migrations, and their effect on the content it
    started from is its content. *)
Fixpoint batches (l : list Migration) (c : Content) : Result Content SqliteError :=
  match l with
  | [] => Ok c
  | m :: rest => let? c := execute_batch (mig_sql m) c in batches rest c
  end.

Definition at_version (k : nat) (f : File Content) : Prop :=
  k ≤ length migrations ∧ f_version f = Z.of_nat k ∧
  Forall2 records (default [] (f_recorded f)) (take k migrations).

Lemma batches_app l l' c c' : batches l c = Ok c' → batches (l ++ l') c = batches l' c'.
Proof.
  revert c. induction l as [|m l IH]; intros c; cbn; [by intros [= ->]|].
  intros (c1 & -> & H)%try_bind_Ok. cbn. by apply IH.
Qed.

Lemma at_version_sorted k f :
  at_version k f → sort_by version_order (default [] (f_recorded f)) = default [] (f_recorded f).
Proof.
  intros (_ & _ & Hf). apply sort_by_sorted_id. revert Hf. generalize (default [] (f_recorded f)).
  clear f. intros rs Hf.
  assert (∀ i r, rs !! i = Some r → mr_version r = Z.of_nat (S i)) as Hv.
  { intros i r Hr. destruct (Forall2_lookup_l _ _ _ _ _ Hf Hr) as (m & Hm & [-> _]).
    apply lookup_take_Some in Hm as [Hm _]. by apply (numbered_lookup migrations). }
  clear Hf. assert (∃ a, ∀ i r, rs !! i = Some r → mr_version r = Z.of_nat (a + i)) as [a Ha].
  { exists 1. intros i r Hr. by rewrite (Hv i r Hr). }
  clear Hv. revert a Ha. induction rs as [|r rs IH]; intros a Ha; constructor.
  - apply (IH (S a)). intros i x Hx. rewrite (Ha (S i) x Hx). lia.
  - apply Forall_forall. intros x [i Hx]%list_elem_of_lookup. unfold cmp_le, version_order.
    rewrite (Ha 0 r eq_refl), (Ha (S i) x Hx).
    destruct (Z.compare_spec (Z.of_nat (a + 0)) (Z.of_nat (a + S i))); (done || lia).
Qed.

Lemma at_version_verified k f :
  at_version k f → verify_recorded_state migrations (f_version f) (default [] (f_recorded f)) = Ok tt.
Proof.
  intros Hk. pose proof (at_version_sorted k f Hk) as Hs. destruct Hk as (Hl & Hv & Hf).
  apply verify_Ok; [done|]. pose proof (Forall2_length _ _ _ Hf) as Hlen. rewrite length_take in Hlen.
  rewrite Hs, Hlen. rewrite Nat.min_l by done. done.
Qed.

Lemma max_known_numbered : max_known migrations = Z.of_nat (length migrations).
Proof.
  unfold max_known. destruct (last migrations) as [m|] eqn:E.
  - rewrite last_lookup in E. rewrite (numbered_lookup _ _ _ Hnumbered E).
    apply lookup_lt_Some in E. lia.
  - apply last_None in E as ->. done.
Qed.

Lemma pending_drop k :
  List.filter (fun m => Z.of_nat k <? mig_version m)%Z migrations = drop k migrations.
Proof.
  assert (∀ l a j, (∀ i m, l !! i = Some m → mig_version m = Z.of_nat (a + S i)) →
    List.filter (fun m => Z.of_nat (a + j) <? mig_version m)%Z l = drop j l) as Hgen.
  { clear. induction l as [|m l IH]; intros a j Hv; cbn [List.filter]; [by rewrite drop_nil|].
    rewrite (Hv 0 m eq_refl).
    assert (∀ i x, l !! i = Some x → mig_version x = Z.of_nat (S a + S i)) as Hv'
      by (intros i x Hx; rewrite (Hv (S i) x Hx); lia).
    destruct j as [|j].
    - destruct (Z.ltb_spec (Z.of_nat (a + 0)) (Z.of_nat (a + 1))); [|lia]. rewrite drop_0. f_equal.
      rewrite <-(drop_0 l) at 2. rewrite <-(IH (S a) 0 Hv'). apply filter_ext_in. intros x Hx%list_elem_of_In.
      apply list_elem_of_lookup in Hx as [i Hx]. rewrite (Hv' i x Hx).
      destruct (Z.ltb_spec (Z.of_nat (a + 0)) (Z.of_nat (S a + S i))),
        (Z.ltb_spec (Z.of_nat (S a + 0)) (Z.of_nat (S a + S i))); (done || lia).
    - destruct (Z.ltb_spec (Z.of_nat (a + S j)) (Z.of_nat (a + 1))); [lia|]. cbn [drop].
      rewrite <-(IH (S a) j Hv'). by replace (a + S j) with (S a + j) by lia. }
  apply (Hgen _ 0). intros i m Hm. by rewrite (numbered_lookup migrations i m).
Qed.

(** One migration either commits as the next version or leaves the file alone. *)
Lemma apply_one_step fault now m k f :
  at_version k f → migrations !! k = Some m →
  match apply_one execute_batch fault now m f with
  | (Ok _, f') => at_version (S k) f' ∧ execute_batch (mig_sql m) (f_content f) = Ok (f_content f') ∧
      f_recorded f' ≠ None
  | (Err e, f') => f' = f ∧ ∀ v n s, e = MigrationFailed v n s →
      v = Z.of_nat (S k) ∧ execute_batch (mig_sql m) (f_content f) = Err s
  end.
Proof.
  intros (Hl & Hv & Hf) Hm. unfold apply_one, apply_in_transaction, succeed_or.
  pose proof (numbered_lookup _ _ _ Hnumbered Hm) as Hmv.
  destruct (fault "begin" _); [by split|]. cbn [try_bind].
  destruct (execute_batch (mig_sql m) (f_content f)) as [c|e]; cbn [map_err try_bind].
  2: { split; [done|]. intros v n s [= <- _ <-]. done. }
  destruct (fault "user_version" _); [by split|]. cbn [try_bind].
  destruct (fault "insert" _); [by split|]. cbn [try_bind].
  destruct (existsb _ _); [by split|].
  destruct (fault "commit" _); [by split|]. cbn. split_and!; [|done|done].
  apply lookup_lt_Some in Hm as Hlt. split_and!; [lia|cbn; lia|]. cbn.
  rewrite (take_S_r _ _ _ Hm). apply Forall2_app; [done|]. by constructor.
Qed.

Definition outcome_at (k' : nat) (r : Result unit StoreError) : Prop :=
  match r with
  | Ok _ => k' = length migrations
  | Err e => ∀ v n s, e = MigrationFailed v n s → v = Z.of_nat (S k')
  end.

Lemma apply_all_spec fault now k f :
  at_version k f →
  let (r, f') := apply_all execute_batch fault now (drop k migrations) f in
  ∃ k', k ≤ k' ∧ at_version k' f' ∧
    batches (take (k' - k) (drop k migrations)) (f_content f) = Ok (f_content f') ∧ outcome_at k' r.
Proof.
  remember (drop k migrations) as l eqn:El. revert k f El. induction l as [|m l IH]; intros k f El Hk.
  - cbn. exists k. rewrite Nat.sub_diag. split_and!; [done..|]. destruct Hk as (Hl & _).
    assert (length (drop k migrations) = 0) as Hd by (by rewrite <-El). rewrite length_drop in Hd. lia.
  - assert (migrations !! k = Some m) as Hm.
    { rewrite <-(Nat.add_0_r k), <-lookup_drop, <-El. done. }
    assert (l = drop (S k) migrations) as El'.
    { rewrite (drop_S _ _ _ Hm) in El. by injection El. }
    cbn [apply_all]. pose proof (apply_one_step fault now m k f Hk Hm) as Hs.
    destruct (apply_one _ _ _ m f) as [[u|e] f1].
    + destruct Hs as (Hk1 & Hb & _). specialize (IH (S k) f1 El' Hk1).
      destruct (apply_all _ _ _ l f1) as [r f']. destruct IH as (k' & Hle & Hat & Hbs & Ho).
      exists k'. split_and!; [lia|done| |done]. replace (k' - k) with (S (k' - S k)) by lia. cbn [take batches].
      by rewrite Hb.
    + destruct Hs as [-> He]. exists k. rewrite Nat.sub_diag. split_and!; [done..|]. intros v n s E.
      by destruct (He v n s E).
Qed.

(** A run from a recorded prefix ends at a recorded prefix, and reaches the last
    version when it succeeds. *)
Lemma run_with_spec fault now k f :
  at_version k f →
  let (r, f') := run_with execute_batch fault now migrations f in
  ∃ k', k ≤ k' ∧ at_version k' f' ∧
    batches (take (k' - k) (drop k migrations)) (f_content f) = Ok (f_content f') ∧ outcome_at k' r.
Proof.
  intros Hk. unfold run_with. rewrite max_known_numbered. pose proof Hk as (Hl & Hv & _).
  destruct (Z.ltb_spec (Z.of_nat (length migrations)) (f_version f)); [lia|].
  unfold succeed_or. destruct (fault "create" 0%Z).
  { exists k. by rewrite Nat.sub_diag. }
  rewrite (at_version_verified k f Hk), Hv, pending_drop.
  pose proof (apply_all_spec fault now k (mk_file (Z.of_nat k) (Some (default [] (f_recorded f))) (f_content f))) as H'.
  apply H'. destruct Hk as (? & ? & ?). done.
Qed.

Lemma apply_one_completes now m k f c :
  at_version k f → migrations !! k = Some m → execute_batch (mig_sql m) (f_content f) = Ok c →
  ∃ f', apply_one execute_batch (fun _ _ => None) now m f = (Ok tt, f') ∧ f_content f' = c.
Proof.
  intros (_ & _ & Hf) Hm Hc. unfold apply_one, apply_in_transaction, succeed_or. cbn [try_bind]. rewrite Hc.
  cbn [map_err try_bind]. destruct (existsb _ _) eqn:Ex; [|eauto]. exfalso.
  apply existsb_exists in Ex as ([v n ck t] & Hin%list_elem_of_In & Hr%Z.eqb_eq).
  apply list_elem_of_lookup in Hin as [i Hi].
  destruct (Forall2_lookup_l _ _ _ _ _ Hf Hi) as (m' & Hm' & [Hv' _]).
  apply lookup_take_Some in Hm' as [Hm' Hi']. cbn in Hr, Hv'.
  rewrite (numbered_lookup _ _ _ Hnumbered Hm') in Hv'. rewrite (numbered_lookup _ _ _ Hnumbered Hm) in Hr. lia.
Qed.

Lemma apply_all_completes now k f c :
  at_version k f → batches (drop k migrations) (f_content f) = Ok c →
  ∃ f', apply_all execute_batch (fun _ _ => None) now (drop k migrations) f = (Ok tt, f').
Proof.
  remember (drop k migrations) as l eqn:El. revert k f El. induction l as [|m l IH]; intros k f El Hk; [eauto|].
  cbn [batches apply_all]. intros (c1 & Hc1 & Hb)%try_bind_Ok.
  assert (migrations !! k = Some m) as Hm by (rewrite <-(Nat.add_0_r k), <-lookup_drop, <-El; done).
  rewrite (drop_S _ _ _ Hm) in El. injection El as El.
  pose proof (apply_one_step (fun _ _ => None) now m k f Hk Hm) as Hs.
  destruct (apply_one_completes now m k f c1 Hk Hm Hc1) as (f1 & E & Hf1). rewrite E in Hs |- *.
  destruct Hs as (Hk1 & _ & _). apply (IH (S k)); [done|done|]. by rewrite Hf1.
Qed.

(** Without a fault of the connection, a run whose SQL applies succeeds. *)
Lemma run_with_completes now k f c :
  at_version k f → batches (drop k migrations) (f_content f) = Ok c →
  ∃ f', run_with execute_batch (fun _ _ => None) now migrations f = (Ok tt, f') ∧
    at_version (length migrations) f' ∧ f_content f' = c.
Proof.
  intros Hk Hb. pose proof (run_with_spec (fun _ _ => None) now k f Hk) as H.
  assert (∃ f', run_with execute_batch (fun _ _ => None) now migrations f = (Ok tt, f')) as [f' Hf'].
  { unfold run_with. rewrite max_known_numbered. pose proof Hk as (Hl & Hv & Hrec).
    destruct (Z.ltb_spec (Z.of_nat (length migrations)) (f_version f)); [lia|]. unfold succeed_or.
    rewrite (at_version_verified k f Hk), Hv, pending_drop. by eapply apply_all_completes. }
  rewrite Hf' in H |- *. destruct H as (k' & Hle & Hat & Hbs & ->).
  rewrite take_ge in Hbs by (rewrite length_drop; lia). exists f'. split_and!; [done..|congruence].
Qed.
End RunnerFacts.

(** ** The recorded history *)

(** C37: The history check accepts a database exactly when its recorded migrations,
    in version order, are the first migrations this build knows, each with the
    checksum of the compiled SQL, and [user_version] is their number: a gap, an
    unknown version, edited SQL or a version out of step is refused. *)
Theorem migration_history_exact migrations version recorded :
  numbered migrations →
  verify_recorded_state migrations version recorded = Ok tt ↔
  version = Z.of_nat (length recorded) ∧ length recorded ≤ length migrations ∧
  Forall2 (fun r m => mr_version r = mig_version m ∧ mr_checksum r = checksum (mig_sql m))
    (sort_by version_order recorded) (take (length recorded) migrations).
Proof. apply verify_Ok. Qed.

(** C38: Whatever fails (a batch, a bookkeeping statement, a commit), a run that
    starts at a recorded prefix of the migrations ends at one: nothing is partly
    applied, no version is falsely advanced, the content is what the SQL of exactly
    the recorded migrations made of it, a reported batch failure names the first
    migration not recorded, and success means every migration is recorded. *)
Theorem migration_resumes {Content} (execute_batch : string → Content → Result Content SqliteError)
    migrations fault now k file :
  numbered migrations → at_version migrations k file →
  let (result, file') := run_with execute_batch fault now migrations file in
  ∃ k', k ≤ k' ∧ at_version migrations k' file' ∧
    batches execute_batch (take (k' - k) (drop k migrations)) (f_content file) = Ok (f_content file') ∧
    match result with
    | Ok _ => k' = length migrations
    | Err e => ∀ v name source, e = MigrationFailed v name source → v = Z.of_nat (S k')
    end.
Proof. intros Hn Hk. by apply run_with_spec. Qed.

(** With a connection that does not fail, migrating a database at any recorded
    prefix ends at the last version with the content the remaining SQL makes of it;
    a database already at the last version is left as it is. *)
Theorem migration_completes {Content} (execute_batch : string → Content → Result Content SqliteError)
    migrations now k file content :
  numbered migrations → at_version migrations k file →
  batches execute_batch (drop k migrations) (f_content file) = Ok content →
  ∃ file', run_with execute_batch (fun _ _ => None) now migrations file = (Ok tt, file') ∧
    at_version migrations (length migrations) file' ∧ f_content file' = content.
Proof. intros Hn Hk Hb. by eapply run_with_completes. Qed.

(** ** Witnesses *)

Definition sample_sql (v : Z) : string := "CREATE TABLE t" +:+ (i64_to_string v +:+ "(id TEXT) STRICT;").

(** A database whose batches are logged, and whose fourth migration is refused. *)
Definition sample_batch (sql : string) (log : list string) : Result (list string) SqliteError :=
  if String.eqb sql (sample_sql 4) then Err IoFailure else Ok (log ++ [sql]).

Definition sample_file : File (list string) := mk_file 0 None [].

Definition sample_two : File (list string) :=
  mk_file 2 (Some (map (migration_row 1700000000) (take 2 (production sample_sql)))) [sample_sql 1; sample_sql 2].

Lemma production_numbered sql : numbered (production sql).
Proof. reflexivity. Qed.

Lemma recorded_rows now l : Forall2 records (map (migration_row now) l) l.
Proof. induction l; constructor; [by split|done]. Qed.

Lemma sample_two_recorded : at_version (production sample_sql) 2 sample_two.
Proof. split; [cbn; lia|]. split; [reflexivity|]. apply recorded_rows. Qed.

Lemma migration_history_exact_witness :
  verify_recorded_state (production sample_sql) 2 (default [] (f_recorded sample_two)) = Ok tt.
Proof.
  apply migration_history_exact; [apply production_numbered|].
  split; [reflexivity|]. split; [cbn; lia|].
  change (sort_by version_order (default [] (f_recorded sample_two)))
    with (map (migration_row 1700000000) (take 2 (production sample_sql))).
  apply recorded_rows.
Defined.

Lemma migration_resumes_witness :
  run_with sample_batch (fun _ _ => None) 1700000000 (production sample_sql) sample_two =
    (Err (MigrationFailed 4 "bootstrap_journal_epoch" IoFailure),
     mk_file 3 (Some (map (migration_row 1700000000) (take 3 (production sample_sql))))
       [sample_sql 1; sample_sql 2; sample_sql 3]) ∧
  let (result, file') := run_with sample_batch (fun _ _ => None) 1700000000 (production sample_sql) sample_two in
  ∃ k', 2 ≤ k' ∧ at_version (production sample_sql) k' file' ∧
    batches sample_batch (take (k' - 2) (drop 2 (production sample_sql))) (f_content sample_two)
      = Ok (f_content file') ∧
    match result with
    | Ok _ => k' = length (production sample_sql)
    | Err e => ∀ v name source, e = MigrationFailed v name source → v = Z.of_nat (S k')
    end.
Proof.
  split; [vm_compute; reflexivity|]. apply migration_resumes; [apply production_numbered|].
  exact sample_two_recorded.
Defined.

Lemma migration_completes_witness :
  ∃ file', run_with (fun sql log => Ok (log ++ [sql])) (fun _ _ => None) 1700000000 (production sample_sql)
      sample_two = (Ok tt, file') ∧
    at_version (production sample_sql) 16 file' ∧
    f_content file' = map (fun m => mig_sql m) (production sample_sql).
Proof.
  apply (migration_completes _ (production sample_sql) 1700000000 2 sample_two); [apply production_numbered| |].
  - exact sample_two_recorded.
  - vm_compute. reflexivity.
Defined.
