(* ===== verification/Scenario.v ===== *)
(** * One history, end to end

    A Goal taken from creation to a submitted Candidate by the store's own
    operations, on a freshly migrated database. Every theorem about the store is
    applied to it. *)

From Stdlib Require Import ZArith NArith Ascii Lia.
From S2P Require Import Prelude Utf8 Canonical Parse ParseFacts Digest Goal Task Proposal Validate Artifact Candidate ConfigModel Compile CompileFacts Scheduling ContextPlan Execution Workspace Sandbox Sql Schema Transaction Command StoreBase StorePlanning StoreConfiguration StoreWorkspace StoreArtifacts StoreExecution StoreScheduling StoreContext StoreAgentControl StoreSandbox StoreOperator StoreLaws StoreHistory StoreFrames StoreCredentials StoreLifecycle StoreReads.

(** ** A concrete hash *)

(** Thirty-two bytes that every byte of the text is stirred into: cheap to evaluate, and
    different for the texts of these stories. *)
Definition mix (a b c : ascii) : ascii :=
  match a, b, c with
  | Ascii a0 a1 a2 a3 a4 a5 a6 a7, Ascii b0 b1 b2 b3 b4 b5 b6 b7, Ascii c0 c1 c2 c3 c4 c5 c6 c7 =>
      Ascii (xorb (xorb a7 b0) c5) (xorb (xorb a0 b1) c6) (xorb (xorb a1 b2) c7) (xorb (xorb a2 b3) c0)
            (xorb (xorb a3 b4) c1) (xorb (xorb a4 b5) c2) (xorb (xorb a5 b6) c3) (xorb (xorb a6 b7) c4)
  end.

(** The bytes still to be mixed in this round, those mixed, and the last of them. *)
Fixpoint stir (s : string) (front back : list ascii) (last : ascii) : list ascii :=
  match s with
  | EmptyString => front ++ rev back
  | String b rest =>
      match front with
      | a :: front' => let m := mix a b last in stir rest front' (m :: back) m
      | [] =>
          match rev back with
          | a :: front' => let m := mix a b last in stir rest front' [m] m
          | [] => []
          end
      end
  end.

Fixpoint padding (n : nat) : string := match n with O => EmptyString | S n' => String Ascii.zero (padding n') end.

Fixpoint word_bytes (k : nat) (l : list ascii) : string :=
  match k, l with
  | O, _ => EmptyString
  | S k', [] => String Ascii.zero (word_bytes k' [])
  | S k', b :: l' => String b (word_bytes k' l')
  end.

Lemma word_bytes_length k l : String.length (word_bytes k l) = k.
Proof. revert l. induction k as [|k IH]; intros [|b l]; cbn; [done..|by rewrite IH|by rewrite IH]. Qed.

Definition stirred (s : string) : list ascii :=
  stir (padding 64) (stir s (repeat Ascii.zero 32) [] Ascii.zero) [] Ascii.zero.

Definition stir_hash : Sha256 :=
  {| sha256 := fun s => word_bytes 32 (stirred s); sha256_length := fun s => word_bytes_length 32 _ |}.

#[local] Existing Instance stir_hash.

(** ** The requests *)

Definition ambient (i : string) : Ambient :=
  {| amb_event_id := "000000000000000000000000000000" +:+ i; amb_now := 1700000000 |}.

Definition command (i event : string) : Command := {|
  cmd_epoch := sample_generation; cmd_id := i; cmd_request_hash := sample_hash; cmd_event_type := event |}.

Definition request (i event : string) (o : Operation) : Request :=
  {| rq_driver := working; rq_ambient := ambient i; rq_command := command i event; rq_operation := o |}.

Definition story_authority : Authority := {|
  au_goal := sample_goal; au_goal_id := "goal-1"; au_goal_revision := 1;
  au_evaluators := registry_resolver sample_registry;
  au_evaluator_registry_digest := cd_evaluator_registry (component_digests sample_compiled);
  au_configuration_activation_sequence := 1 |}.

Definition story_input : PlanningInput := {|
  pi_goal_id := "goal-1"; pi_goal_revision := 1; pi_goal := sample_goal;
  pi_expected_graph_revision := 0; pi_configuration_activation_sequence := 1;
  pi_trigger := Initial |}.

Definition unplanned : Materializable := {|
  mat_spec := sample_task; mat_proposal_digest := mk_digest EmptyString; mat_goal_revision := 0;
  mat_goal_digest := mk_digest EmptyString |}.

(** The plan the DIRECT planner proposes and validation admits. *)
Definition story_plan : Materializable := Eval vm_compute in
  match validate (plan story_input) story_authority with
  | Ok m => m
  | Err _ => unplanned
  end.

Definition story_decision : PlanningDecision := {|
  decision_operation_id := "op-1"; decision_goal_id := "goal-1"; decision_goal_revision := 1;
  decision_expected_graph_revision := 0; decision_configuration_activation_sequence := 1;
  decision_planning_input_digest := digest_of "input"; decision_trigger_kind := "initial";
  decision_planner_implementation := "direct"; decision_planner_version := "1" |}.

Definition story_proposal : ProposalRecord := {|
  proposal_record_digest := mat_proposal_digest story_plan; proposal_record_canonical := "{}";
  proposal_record_normalization_provenance := "direct" |}.

Definition story_base : ResolvedBase := mk_resolved "0123456789abcdef0123456789abcdef01234567".

Definition story_workspace : WorkspaceBinding := {|
  wb_task_id := "task-1"; wb_repository := "repo://app"; wb_source_path := "/srv/app";
  wb_requested_base := mk_requested "main"; wb_resolved_base := story_base |}.

Definition story_binding : ExecutionBinding := {|
  eb_task_id := "task-1"; eb_agent := mk_agent_version "coder" 1; eb_request_digest := digest_of "request";
  eb_offer_digest := digest_of "offer"; eb_backend_id := "local"; eb_descriptor_revision := 1;
  eb_descriptor_digest := digest_of "descriptor"; eb_execution_profile_digest := digest_of "profile";
  eb_sandbox_profile_digest := digest_of "sandbox"; eb_route_policy_digest := digest_of "route";
  eb_configuration_activation_sequence := 1; eb_configuration_content_digest := revision_digest sample_compiled;
  eb_component_digests := component_digests sample_compiled |}.

Definition story_snapshot : ContextSourceSnapshot := {|
  cs_task_spec_digest := task_digest (mat_spec story_plan); cs_goal_id := "goal-1"; cs_goal_revision := 1;
  cs_graph_revision := 1; cs_agent := mk_agent_version "coder" 1; cs_configuration_activation_sequence := 1;
  cs_context_policy_digest := cd_context_policy (component_digests sample_compiled);
  cs_agent_soul_digest := guidance_digest "Careful."; cs_agent_behavior_digest := guidance_digest "Tests first.";
  cs_workspace_id := "ws-1"; cs_workspace_resolved_base := resolved_text story_base |}.

Definition story_intent : RunIntent := {|
  ri_run_id := "run-1"; ri_task_id := "task-1"; ri_goal_id := "goal-1"; ri_expected_task_revision := 1;
  ri_expected_goal_row_revision := 2; ri_expected_goal_current_revision := 1; ri_expected_graph_revision := 1;
  ri_expected_workspace_revision := 3; ri_expected_scheduler_revision := 1;
  ri_expected_goal_fairness_revision := None; ri_expected_task_scheduling_revision := 1;
  ri_configuration_activation_sequence := 1;
  ri_binding_digest := value_digest (binding_to_value story_binding); ri_binding := story_binding;
  ri_snapshot_digest := value_digest (snapshot_to_value story_snapshot); ri_snapshot := story_snapshot |}.

Definition story_attachment : ContextPlanAttachment := {|
  cpa_run_id := "run-1"; cpa_source_snapshot_digest := ri_snapshot_digest story_intent;
  cpa_plan_digest := digest_of "{}"; cpa_builder_version := "1"; cpa_plan_canonical_json := "{}" |}.

Definition story_verifier : string := sha256 "bearer".

Definition story_key : string := "0123456789abcdef0123456789abcdef0123456789abcdef0123456789abcdef".

Definition story_attempt : AttemptCreation := {|
  ac_run_id := "run-1"; ac_attempt_id := "attempt-1"; ac_launch_key := story_key; ac_session_id := "session-1";
  ac_credential_verifier := story_verifier; ac_expected_run_status_revision := 1 |}.

Definition story_credential : AgentCredential :=
  {| cred_attempt_id := "attempt-1"; cred_verifier := story_verifier |}.

Definition story_seal_authority : SealAuthority := {| seal_run_id := "run-1"; seal_expected_run_revision := 2 |}.

Definition story_manifest : string := to_canonical_bytes (object [("entries", Array [
  object [("after", object [("blob", Str (to_display (digest_of "blob")))])]])]).

Definition story_seal : SealedChangeset := {|
  sc_workspace_id := "ws-1"; sc_task_id := "task-1"; sc_fence_revision := 4;
  sc_authority := story_seal_authority; sc_output_slot := "patch"; sc_repository := "repo://app";
  sc_resolved_base := resolved_text story_base; sc_revision_state_digest := digest_of "state";
  sc_revision_state_json := "state"; sc_artifact_digest := digest_of story_manifest;
  sc_artifact_json := story_manifest; sc_members := [(digest_of "blob", 4%Z)]; sc_producer := Some "attempt-1" |}.

Definition story_candidate : CandidateResult := {|
  cr_task_id := "task-1"; cr_run_id := "run-1";
  cr_outputs := outputs_of [("patch", digest_of story_manifest)] |}.

Definition story_submission : CandidateSubmission := {|
  sub_credential := story_credential; sub_request_id := "request-1"; sub_request_hash := sample_hash;
  sub_candidate := story_candidate; sub_expected_task_revision := 2 |}.

Definition story : list Request := [
  request "01" "goal.created" (OpCreateGoal "goal-1" sample_goal);
  request "02" "configuration.activated" (OpActivate sample_compiled (digest_of "source") 1);
  request "03" "planning.recorded" (OpRecordPlanning story_decision story_proposal);
  request "04" "task.materialized" (OpApplyPlan "op-1" "task-1" story_plan);
  request "05" "workspace.opened" (OpOpenWorkspace "ws-1" story_workspace);
  request "06" "workspace.materializing" (OpBeginMaterialization "ws-1" 1);
  request "07" "workspace.ready" (OpCompleteMaterialization "ws-1" 2 story_base);
  request "08" "run.intended" (OpRunIntent story_intent);
  request "09" "run.context-attached" (OpAttachPlan story_attachment);
  request "0a" "run.attempt.created" (OpCreateAttempt story_attempt);
  request "0b" "internal" (OpLaunchContact "run-1" "attempt-1" "controller-1" 1 1);
  request "0c" "workspace.frozen" (OpFreeze story_seal_authority "task-1" "patch" "ws-1" 3);
  request "0d" "workspace.sealed" (OpCommitSeal "11111111111111111111111111111111" story_seal);
  request "0e" "internal" (OpSubmit story_submission)].

Definition opened : Connection :=
  {| conn_db := bootstrap sample_generation sample_journal 1700000000; conn_autocommit := true |}.

(** ** Stored states *)

(** A database as its rows, and back. *)
Definition dump (db : Database) : list (string * list (list (string * SqlValue))) :=
  map (fun t => (t.1, map map_to_list t.2)) (map_to_list db).

Definition load (tables : list (string * list (list (string * SqlValue)))) : Connection :=
  {| conn_db := list_to_map (map (fun t => (t.1, map list_to_map t.2)) tables); conn_autocommit := true |}.

(** What the first requests of the story leave. *)
Definition reached (n : nat) : list (string * list (list (string * SqlValue))) :=
  dump (conn_db (serve_all (take n story) opened).2).

(** The plan is recorded and the configuration active. *)
Definition planned_rows : list (string * list (list (string * SqlValue))) := Eval vm_compute in reached 3.
Definition planned : Connection := load planned_rows.

(** The Workspace is verified and the Task waits for dispatch. *)
Definition dispatchable_rows : list (string * list (list (string * SqlValue))) := Eval vm_compute in reached 7.
Definition dispatchable : Connection := load dispatchable_rows.

Definition running_rows : list (string * list (list (string * SqlValue))) := Eval vm_compute in reached 8.
Definition running : Connection := load running_rows.

Definition launched_rows : list (string * list (list (string * SqlValue))) := Eval vm_compute in reached 11.
Definition launched : Connection := load launched_rows.

(** The changeset is sealed and nothing submitted. *)
Definition sealed_rows : list (string * list (list (string * SqlValue))) := Eval vm_compute in reached 13.
Definition sealed : Connection := load sealed_rows.

Lemma opened_valid : valid MIGRATIONS (conn_db opened).
Proof. vm_compute. reflexivity. Qed.

Lemma planned_valid : valid MIGRATIONS (conn_db planned).
Proof. vm_compute. reflexivity. Qed.

Lemma dispatchable_valid : valid MIGRATIONS (conn_db dispatchable).
Proof. vm_compute. reflexivity. Qed.

Lemma launched_valid : valid MIGRATIONS (conn_db launched).
Proof. vm_compute. reflexivity. Qed.

Lemma sealed_valid : valid MIGRATIONS (conn_db sealed).
Proof. vm_compute. reflexivity. Qed.

(** ** The calls *)

Definition executed {A} (r : Result (Committed A) StoreError) : bool :=
  match r with
  | Ok (Executed _ _) => true
  | _ => false
  end.

Definition call {A} (i event : string) (m : Ambient → Tx A) (conn : Connection) :
    Result (Committed A) StoreError * Connection :=
  execute_command MIGRATIONS working (ambient i) (command i event) (m (ambient i)) conn.

Lemma executed_inv {A} (p : Result (Committed A) StoreError * Connection) :
  executed p.1 = true → ∃ v cur conn', p = (Ok (Executed v cur), conn').
Proof. destruct p as [[[v cur|]|] conn']; try done. eauto. Qed.

Definition create_call := call "01" "goal.created" (fun amb => create_goal MIGRATIONS amb "goal-1" sample_goal) opened.
Lemma create_runs : executed create_call.1 = true.
Proof. vm_compute. reflexivity. Qed.

Definition activate_call :=
  call "02" "configuration.activated"
    (fun amb => write_activation MIGRATIONS amb sample_compiled (digest_of "source") 1) opened.
Lemma activate_runs : executed activate_call.1 = true.
Proof. vm_compute. reflexivity. Qed.

Definition materialize_call :=
  call "04" "task.materialized" (fun amb => apply_plan MIGRATIONS amb "op-1" "task-1" story_plan) planned.
Lemma materialize_runs : executed materialize_call.1 = true.
Proof. vm_compute. reflexivity. Qed.

Definition cancel_call := call "20" "goal.cancelled" (fun _ => cancel_goal MIGRATIONS "goal-1") dispatchable.
Lemma cancel_runs : executed cancel_call.1 = true.
Proof. vm_compute. reflexivity. Qed.

Definition intent_call := call "08" "run.intended" (fun amb => apply_run_intent MIGRATIONS amb story_intent) dispatchable.
Lemma intent_runs : executed intent_call.1 = true.
Proof. vm_compute. reflexivity. Qed.

Definition attach_call := call "09" "run.context-attached" (fun amb => apply_attachment MIGRATIONS amb story_attachment) running.
Lemma attach_runs : executed attach_call.1 = true.
Proof. vm_compute. reflexivity. Qed.

Definition submit_call := run working (apply_candidate_submission MIGRATIONS (ambient "0e") story_submission) sealed.
Lemma submit_runs : match submit_call.1 with Ok out => so_reconciled out = false | Err _ => False end.
Proof. vm_compute. reflexivity. Qed.

(** ** The theorems on the story *)

Lemma created_goal_reads_back_witness :
  ∃ rec cur conn', create_call = (Ok (Executed rec cur), conn') ∧
    goal MIGRATIONS (conn_db conn') "goal-1" = Ok (Some rec).
Proof.
  destruct (executed_inv _ create_runs) as (rec & cur & conn' & E). exists rec, cur, conn'. split; [exact E|].
  refine (proj1 (proj2 (created_goal_reads_back _ _ _ _ _ _ _ _ _ opened_valid _ E))). vm_compute. reflexivity.
Defined.

Lemma cancellation_fences_witness :
  ∃ v cur conn', cancel_call = (Ok (Executed v cur), conn') ∧
    ∃ g, row_of (conn_db conn') "goals" "id" "goal-1" = Some g ∧ column g "phase" = SText "Finalizing" ∧
      column g "terminal_target" = SText "Cancelled".
Proof.
  destruct (executed_inv _ cancel_runs) as (v & cur & conn' & E). exists v, cur, conn'. split; [exact E|].
  exact (proj1 (cancellation_fences _ _ _ _ _ _ _ _ dispatchable_valid E)).
Defined.

Lemma activation_reads_back_witness :
  ∃ act cur conn', activate_call = (Ok (Executed act cur), conn') ∧
    active_content_digest act = revision_digest sample_compiled.
Proof.
  destruct (executed_inv _ activate_runs) as (act & cur & conn' & E). exists act, cur, conn'. split; [exact E|].
  refine (proj1 (proj2 (activation_reads_back _ _ _ _ _ _ _ _ _ _ opened_valid _ _ _ E))).
  - intros r Hr. assert (rows (conn_db opened) "configuration_components" = []) as Hn by (vm_compute; reflexivity).
    rewrite Hn in Hr. inversion Hr.
  - vm_compute. reflexivity.
  - vm_compute. reflexivity.
Defined.



Lemma attachment_exact_witness :
  ∃ out cur conn', attach_call = (Ok (Executed out cur), conn') ∧ attached (conn_db conn') story_attachment.
Proof.
  destruct (executed_inv _ attach_runs) as (out & cur & conn' & E). exists out, cur, conn'. split; [exact E|].
  exact (proj2 (proj2 (proj2 (proj2 (attachment_exact _ _ _ _ _ _ _ _ E))))).
Defined.


Lemma submission_idempotent_witness :
  ∃ out conn' out', submit_call = (Ok out, conn') ∧
    run working (apply_candidate_submission MIGRATIONS (ambient "0f") story_submission) conn' = (Ok out', conn') ∧
    so_reconciled out' = true.
Proof.
  pose proof submit_runs as Hr. destruct submit_call as [[out|e] conn'] eqn:E; [|destruct Hr].
  destruct (submission_idempotent _ _ (ambient "0f") _ _ _ _ sealed_valid E Hr) as (out' & H1 & H2 & _).
  exists out, conn', out'. split; [reflexivity|]. split; [exact H1|exact H2].
Defined.

(** *** Histories *)

Lemma history_lawful_witness :
  valid MIGRATIONS (conn_db opened) ∧ valid MIGRATIONS (conn_db (serve_all story opened).2).
Proof. split; [exact opened_valid|]. exact (proj1 (history_lawful story opened opened_valid)). Defined.

Lemma single_execution_slot_witness :
  valid MIGRATIONS (conn_db opened) ∧
  length (List.filter live (rows (conn_db (serve_all story opened).2) "run_status")) ≤ 1.
Proof.
  split; [exact opened_valid|]. refine (proj1 (single_execution_slot story opened opened_valid _)).
  vm_compute. reflexivity.
Defined.

Lemma launched_contact :
  (fun r => column r "launch_contact_state") <$> row_of (conn_db launched) "attempt_status" "attempt_id" "attempt-1" =
  Some (SText (launch_contact_as_str ContactMayHaveOccurred)).
Proof. vm_compute. reflexivity. Qed.

Lemma launched_contacted : contacted "attempt-1" (conn_db launched).
Proof. destruct (proj1 (fmap_Some _ _ _) launched_contact) as (r & Hr & Hc). exact (ex_intro _ r (conj Hr (eq_sym Hc))). Qed.

Lemma launched_credential :
  credential_of (conn_db launched) "attempt-1" = Some (SInteger 1, SBlob story_verifier).
Proof. vm_compute. reflexivity. Qed.

Lemma credential_frozen_witness :
  credential_of (conn_db launched) "attempt-1" = Some (SInteger 1, SBlob story_verifier) ∧
  credential_of (conn_db (serve_all [request "30" "internal" (OpRekey "attempt-1" (sha256 "other") 1)] launched).2)
    "attempt-1" = Some (SInteger 1, SBlob story_verifier).
Proof.
  split; [exact launched_credential|].
  exact (proj2 (credential_frozen _ launched "attempt-1" _ launched_valid launched_contacted launched_credential)).
Defined.

Lemma lifecycles_refined_witness :
  valid MIGRATIONS (conn_db opened) ∧
  ∃ kept added, rows (conn_db (serve_all story opened).2) "workspaces" = kept ++ added ∧
    Forall (fun s => rtc workspace_step [SText "Requested"; SText "Absent"] (state_of workspace_machine s)) added.
Proof.
  split; [exact opened_valid|].
  destruct (lifecycles_refined story opened workspace_machine opened_valid) as (kept & added & Hr & _ & Ha).
  - unfold MACHINES. set_solver.
  - exists kept, added. split; [exact Hr|exact Ha].
Defined.

Lemma stored_rows_decode_witness :
  valid MIGRATIONS (conn_db sealed) ∧ ∃ o, task MIGRATIONS (conn_db sealed) "task-1" = Ok o.
Proof.
  split; [exact sealed_valid|]. exact (proj1 (proj2 (stored_rows_decode _ sealed_valid)) "task-1").
Defined.

(** ** A decision outlives its Goal's cancellation *)

Definition cancelled_call := call "21" "goal.cancelled" (fun _ => cancel_goal MIGRATIONS "goal-1") planned.

Definition late_call :=
  call "22" "task.materialized" (fun amb => apply_plan MIGRATIONS amb "op-1" "task-1" story_plan) cancelled_call.2.

(** The phase of the Task and of the Goal that a call reports, and the phase of the
    Goal and the terminal target of the Task that the database it leaves holds. *)
Definition materialized_facts (outcome : Result (Committed MaterializedPlan) StoreError * Connection) :
    option (TaskPhase * GoalPhase * GoalPhase * SqlValue) :=
  match outcome with
  | (Ok (Executed m _), conn') =>
      match goal MIGRATIONS (conn_db conn') "goal-1", row_of (conn_db conn') "tasks" "id" "task-1" with
      | Ok (Some g), Some t =>
          Some (task_record_phase (materialized_task m), materialized_goal_phase m, goal_record_phase g,
                column t "terminal_target")
      | _, _ => None
      end
  | _ => None
  end.

(** Cancellation does not fence a planning decision that was already
    recorded. On the concrete history of [late_call] the Goal is cancelled between
    the decision and its materialization; the materialization still commits, creates
    a [Ready] Task without a terminal target under the [Finalizing] Goal, and reports
    the Goal as [Active]. *)
Theorem late_materialization_commits : materialized_facts late_call = Some (Ready, GoalActive, GoalFinalizing, SNull).
Proof. vm_compute. reflexivity. Qed.
