(* ===== verification/EngineBase.v ===== *)
(** * Controllers over the store ([pantheon-engine])

    A controller is a sequence of accesses to a store that others use at the same
    time. Before every access the rest of the world serves any requests it likes;
    what it does, what the driver answers and what the clock says at the n-th
    access are the n-th [Slot], an argument of every definition. *)

From Stdlib Require Import ZArith Ascii Lia.
From S2P Require Import Prelude Utf8 Canonical Digest ConfigModel Sql Schema Transaction Command StoreBase StoreConfiguration StoreLaws StoreHistory StoreFrames.

(** [configuration.rs], the published process-local snapshot. *)
Record Snapshot : Type := {
  snap_active : ActiveConfiguration;
  snap_compiled : option CompiledConfiguration
}.

Record Slot : Type := {
  slot_before : list Request;
  slot_driver : Driver;
  slot_ambient : Ambient;
  (** a failure of the read connection *)
  slot_fault : option StoreError;
  (** a snapshot that another caller of the configuration authority published *)
  slot_republish : option Snapshot
}.

(** The store's connection, the snapshot the process has published, and the number
    of accesses made. *)
Record World : Type := {
  wo_conn : Connection;
  wo_published : option Snapshot;
  wo_turn : nat
}.

Definition wo_db (w : World) : Database := conn_db (wo_conn w).

Definition Eng (E A : Type) : Type := World → Result A E * World.

Definition eng_ret {E A} (a : A) : Eng E A := fun w => (Ok a, w).

Definition eng_err {E A} (e : E) : Eng E A := fun w => (Err e, w).

Definition eng_bind {E A B} (m : Eng E A) (k : A → Eng E B) : Eng E B := fun w =>
  match m w with
  | (Ok a, w') => k a w'
  | (Err e, w') => (Err e, w')
  end.

Notation "'let@' x := m 'in' k" := (eng_bind m (fun x => k))
  (at level 10, x pattern, m at level 100, k at level 200) : rust_scope.
Notation "'do@' m 'in' k" := (eng_bind m (fun _ => k))
  (at level 10, m at level 100, k at level 200) : rust_scope.

(** [?] with the conversion of its error. *)
Definition eng_map_err {E F A} (f : E → F) (m : Eng E A) : Eng F A := fun w =>
  match m w with
  | (Ok a, w') => (Ok a, w')
  | (Err e, w') => (Err (f e), w')
  end.

Definition eng_try {E A} (r : Result A E) : Eng E A := fun w => (r, w).

Definition eng_some {E A} (o : option A) (e : E) : Eng E A :=
  match o with
  | Some a => eng_ret a
  | None => eng_err e
  end.

Section Engine.
Context `{Sha256}.
Variable slots : nat → Slot.

(** The others' turn. *)
Definition interfere (w : World) : Slot * World :=
  let s := slots (wo_turn w) in
  (s, {| wo_conn := (serve_all (slot_before s) (wo_conn w)).2;
         wo_published := match slot_republish s with
                         | Some snap => Some snap
                         | None => wo_published w
                         end;
         wo_turn := S (wo_turn w) |}).

Definition with_conn (w : World) (conn : Connection) : World :=
  {| wo_conn := conn; wo_published := wo_published w; wo_turn := wo_turn w |}.

(** One read, of one committed state. *)
Definition eng_read {A} (q : Ambient → Database → Result A StoreError) : Eng StoreError A := fun w =>
  let (s, w1) := interfere w in
  match slot_fault s with
  | Some e => (Err e, w1)
  | None => (q (slot_ambient s) (wo_db w1), w1)
  end.

(** One mutation in the command envelope. *)
Definition eng_command {A} (c : Command) (m : Ambient → Tx A) : Eng StoreError (Committed A) := fun w =>
  let (s, w1) := interfere w in
  let (r, conn) := execute_command MIGRATIONS (slot_driver s) (slot_ambient s) c (m (slot_ambient s)) (wo_conn w1) in
  (r, with_conn w1 conn).

(** One mutation in a plain write transaction. *)
Definition eng_write {A} (m : Ambient → Tx A) : Eng StoreError A := fun w =>
  let (s, w1) := interfere w in
  let (r, conn) := run (slot_driver s) (m (slot_ambient s)) (wo_conn w1) in
  (r, with_conn w1 conn).
End Engine.

(** ** What a controller does to the world

    [R] relates the worlds before and after, whether the call succeeds or not. *)

Definition keeps (R : relation World) {E A} (m : Eng E A) : Prop := ∀ w, R w (m w).2.

Create HintDb keeps.

Section Keeps.
Context (R : relation World) `{!PreOrder R}.

Lemma keeps_ret {E A} (a : A) : keeps R (eng_ret (E:=E) a).
Proof. by intros w. Qed.

Lemma keeps_err {E A} (e : E) : keeps R (eng_err (A:=A) e).
Proof. by intros w. Qed.

Lemma keeps_try {E A} (r : Result A E) : keeps R (eng_try r).
Proof. by intros w. Qed.

Lemma keeps_some {E A} (o : option A) (e : E) : keeps R (eng_some o e).
Proof. by destruct o; intros w. Qed.

Lemma keeps_bind {E A B} (m : Eng E A) (k : A → Eng E B) :
  keeps R m → (∀ a, keeps R (k a)) → keeps R (eng_bind m k).
Proof.
  intros Hm Hk w. unfold eng_bind. specialize (Hm w). destruct (m w) as [[a|e] w1]; [|done]. cbn in Hm.
  etrans; [done|apply Hk].
Qed.

Lemma keeps_map_err {E F A} (f : E → F) (m : Eng E A) : keeps R m → keeps R (eng_map_err f m).
Proof. intros Hm w. specialize (Hm w). unfold eng_map_err. by destruct (m w) as [[a|e] w1]. Qed.
End Keeps.

#[export] Hint Resolve keeps_ret keeps_err keeps_try keeps_some : keeps.

(** Walks through the binds and branches of a controller. *)
Ltac solve_keeps :=
  repeat first
    [ progress cbn beta
    | match goal with
      | |- keeps _ (eng_bind _ _) => apply keeps_bind; [ apply _ | | intros ? ]
      | |- keeps _ (eng_map_err _ _) => apply keeps_map_err
      end
    | match goal with |- keeps _ (match ?x with _ => _ end) => destruct x end
    | solve [eauto with keeps typeclass_instances] ].

(** *** Relations of the stored data *)

Definition on_db (Q : relation Database) (w w' : World) : Prop := Q (wo_db w) (wo_db w').

#[export] Instance on_db_preorder Q `{!PreOrder Q} : PreOrder (on_db Q).
Proof. unfold on_db. split; [by intros w|]. intros x y z Hxy Hyz. by etrans. Qed.

(** The operation's result is not part of the database. *)
Lemma execute_drop {A} amb c (m : Tx A) w :
  (execute MIGRATIONS amb c (drop_result m) w).2 = (execute MIGRATIONS amb c m w).2 ∧
  ∀ r, (execute MIGRATIONS amb c (drop_result m) w).1 = Err r ↔ (execute MIGRATIONS amb c m w).1 = Err r.
Proof.
  unfold execute, drop_result, tx_bind, tx_ret.
  destruct (fence_epoch MIGRATIONS (cmd_epoch c) w) as [[u|] w1]; [|naive_solver].
  destruct (lookup_command MIGRATIONS c w1) as [[[entry|]|] w2]; [|  |naive_solver].
  { destruct (negb _); [unfold tx_fail|]; naive_solver. }
  destruct (m w2) as [[v|] w3]; [|naive_solver].
  destruct (allocate_sequence MIGRATIONS w3) as [[cur|] w4]; [|naive_solver].
  destruct (append_event MIGRATIONS amb c cur w4) as [[t|] w5]; [|naive_solver].
  destruct (record_command MIGRATIONS c cur t w5) as [[x|] w6]; naive_solver.
Qed.

Lemma execute_command_drop {A} d amb c (m : Tx A) conn :
  (execute_command MIGRATIONS d amb c (drop_result m) conn).2 = (execute_command MIGRATIONS d amb c m conn).2.
Proof.
  unfold execute_command, run. destruct (negb (conn_autocommit conn)); [done|]. destruct (dr_begin d); [done|].
  destruct (dr_state d) as [state|]; [|done]. destruct (negb _); [done|].
  pose proof (execute_drop amb c m {| w_db := conn_db conn; w_failed := false |}) as [Hw Hr].
  destruct (execute _ _ _ (drop_result m) _) as [[x|x] w1], (execute _ _ _ m _) as [[y|y] w2]; cbn in *; subst.
  - destruct (w_failed w2); [done|]. by destruct (dr_commit d).
  - by pose proof (proj2 (Hr y) eq_refl).
  - by pose proof (proj1 (Hr x) eq_refl).
  - done.
Qed.

Section OnDb.
Context `{Sha256} (Q : relation Database) `{!PreOrder Q}.
Variable slots : nat → Slot.

(** What every request of the others does. *)
Hypothesis others : ∀ i q conn, q ∈ slot_before (slots i) → Q (conn_db conn) (conn_db (serve q conn).2).

Lemma interfere_on_db w : on_db Q w (interfere slots w).2.
Proof.
  unfold on_db, interfere, wo_db. cbn. generalize (wo_conn w).
  assert (∀ q, q ∈ slot_before (slots (wo_turn w)) → ∀ conn, Q (conn_db conn) (conn_db (serve q conn).2)) as Ho by eauto.
  revert Ho. induction (slot_before (slots (wo_turn w))) as [|q l IH]; intros Ho conn; cbn [serve_all]; [done|].
  pose proof (Ho q ltac:(left) conn) as Hq. destruct (serve q conn) as [ok conn1]. cbn in Hq.
  specialize (IH ltac:(intros; apply Ho; by right) conn1). destruct (serve_all l conn1) as [oks conn2]. by etrans.
Qed.

Lemma eng_read_on_db {A} (q : Ambient → Database → Result A StoreError) : keeps (on_db Q) (eng_read slots q).
Proof.
  intros w. unfold eng_read. pose proof (interfere_on_db w) as Hi. destruct (interfere slots w) as [s w1].
  by destruct (slot_fault s).
Qed.

(** A command of the controller is a request like any other. *)
Lemma eng_command_on_db {A} c (m : Ambient → Tx A) o :
  plain_write o = false → (∀ amb, body amb o = drop_result (m amb)) →
  (∀ q conn, rq_command q = c → rq_operation q = o → Q (conn_db conn) (conn_db (serve q conn).2)) →
  keeps (on_db Q) (eng_command slots c m).
Proof.
  intros Hp Hb Hq w. unfold eng_command. pose proof (interfere_on_db w) as Hi. destruct (interfere slots w) as [s w1].
  etrans; [exact Hi|].
  specialize (Hq {| rq_driver := slot_driver s; rq_ambient := slot_ambient s; rq_command := c; rq_operation := o |}
    (wo_conn w1) eq_refl eq_refl).
  unfold serve in Hq. cbn [rq_operation rq_ambient rq_command rq_driver] in Hq. rewrite Hp, Hb in Hq.
  pose proof (execute_command_drop (slot_driver s) (slot_ambient s) c (m (slot_ambient s)) (wo_conn w1)) as Hd.
  destruct (execute_command _ _ _ _ (drop_result _) _) as [r1 conn1], (execute_command _ _ _ _ (m _) _) as [r2 conn2].
  cbn in *. by subst.
Qed.

(** One whose operation has no result. *)
Lemma eng_body_on_db c o :
  plain_write o = false →
  (∀ q conn, rq_command q = c → rq_operation q = o → Q (conn_db conn) (conn_db (serve q conn).2)) →
  keeps (on_db Q) (eng_command slots c (fun amb => body amb o)).
Proof.
  intros Hp Hq w. unfold eng_command. pose proof (interfere_on_db w) as Hi. destruct (interfere slots w) as [s w1].
  etrans; [exact Hi|].
  specialize (Hq {| rq_driver := slot_driver s; rq_ambient := slot_ambient s; rq_command := c; rq_operation := o |}
    (wo_conn w1) eq_refl eq_refl).
  unfold serve in Hq. cbn [rq_operation rq_ambient rq_command rq_driver] in Hq. rewrite Hp in Hq.
  by destruct (execute_command _ _ _ _ _ _) as [r conn].
Qed.

Lemma eng_write_on_db {A} (m : Ambient → Tx A) :
  (∀ amb, preserves Q (m amb)) → keeps (on_db Q) (eng_write slots m).
Proof.
  intros Hm w. unfold eng_write. pose proof (interfere_on_db w) as Hi. destruct (interfere slots w) as [s w1].
  etrans; [exact Hi|].
  pose proof (run_preserves Q (slot_driver s) (m (slot_ambient s)) (wo_conn w1)) as Hr.
  destruct (run _ _ (wo_conn w1)) as [r conn]. by apply Hr.
Qed.
End OnDb.

(** *** The database advances *)

Abbreviation advances := (on_db advance).

Section Advances.
Context `{Sha256}.
Variable slots : nat → Slot.

Lemma interfere_advances w : advances w (interfere slots w).2.
Proof. apply serve_all_advance. Qed.

Lemma eng_read_advances {A} (q : Ambient → Database → Result A StoreError) : keeps advances (eng_read slots q).
Proof. apply eng_read_on_db; [apply _|]. intros i r conn _. apply serve_advance. Qed.

Lemma eng_command_advances {A} c (m : Ambient → Tx A) o :
  plain_write o = false → (∀ amb, body amb o = drop_result (m amb)) → keeps advances (eng_command slots c m).
Proof.
  intros Hp Hb. apply (eng_command_on_db _ _ ltac:(intros; apply serve_advance) _ _ o Hp Hb).
  intros; apply serve_advance.
Qed.

Lemma eng_write_advances {A} (m : Ambient → Tx A) :
  (∀ amb, preserves advance (m amb)) → keeps advances (eng_write slots m).
Proof.
  intros Hm. apply eng_write_on_db; [apply _|intros; apply serve_advance|done].
Qed.
End Advances.

#[export] Hint Resolve eng_read_advances : keeps.

(** ** Inversion *)

Lemma eng_bind_Ok {E A B} (m : Eng E A) (k : A → Eng E B) w b w' :
  eng_bind m k w = (Ok b, w') ↔ ∃ a w1, m w = (Ok a, w1) ∧ k a w1 = (Ok b, w').
Proof. unfold eng_bind. destruct (m w) as [[a|e] w1]; naive_solver. Qed.

Lemma eng_map_err_Ok {E F A} (f : E → F) (m : Eng E A) w a w' :
  eng_map_err f m w = (Ok a, w') ↔ m w = (Ok a, w').
Proof. unfold eng_map_err. destruct (m w) as [[x|e] w1]; naive_solver. Qed.

Lemma eng_some_Ok {E A} (o : option A) (e : E) w a w' :
  eng_some o e w = (Ok a, w') ↔ o = Some a ∧ w' = w.
Proof. destruct o; cbn; unfold eng_ret, eng_err; naive_solver. Qed.

Lemma eng_try_Ok {E A} (r : Result A E) w a w' : eng_try r w = (Ok a, w') ↔ r = Ok a ∧ w' = w.
Proof. unfold eng_try. naive_solver. Qed.

Lemma eng_ret_Ok {E A} (x : A) w a w' : eng_ret (E:=E) x w = (Ok a, w') ↔ a = x ∧ w' = w.
Proof. unfold eng_ret. naive_solver. Qed.

(** Takes the next step of a controller that returned. *)
Tactic Notation "eng_step" hyp(H) "as" ident(E) :=
  let a := fresh "a" in let w1 := fresh "w" in
  apply eng_bind_Ok in H; destruct H as (a & w1 & E & H);
  try (apply eng_map_err_Ok in E).

(** *** What one access did *)

Section Accesses.
Context `{Sha256}.
Variable slots : nat → Slot.

(** A command that executed: its operation ran on the database the others left, and
    only the kernel's tables differ between what it left and what was committed. *)
Lemma eng_command_executed {A} c (m : Ambient → Tx A) w v cur w' :
  eng_command slots c m w = (Ok (Executed v cur), w') →
  ∃ amb t, m amb {| w_db := wo_db (interfere slots w).2; w_failed := false |} = (Ok v, t) ∧
    same_outside kernel_tables (w_db t) (wo_db w').
Proof.
  unfold eng_command. destruct (interfere slots w) as [s w1].
  destruct (execute_command _ _ _ _ _ _) as [r conn] eqn:Hx. intros [= -> <-].
  apply executed_body in Hx as (t & Ht & Hs). eauto.
Qed.

(** A write that committed, and one that did not. *)
Lemma eng_write_inv {A} (m : Ambient → Tx A) w r w' :
  eng_write slots m w = (r, w') →
  match r with
  | Ok a => ∃ amb t, m amb {| w_db := wo_db (interfere slots w).2; w_failed := false |} = (Ok a, t) ∧ wo_db w' = w_db t
  | Err _ => wo_db w' = wo_db (interfere slots w).2
  end.
Proof.
  unfold eng_write. destruct (interfere slots w) as [s w1].
  pose proof (run_spec (slot_driver s) (m (slot_ambient s)) (wo_conn w1)) as Hr.
  destruct (run _ _ (wo_conn w1)) as [[a|e] conn]; intros [= <- <-]; [|exact Hr].
  destruct Hr as (_ & _ & t & Ht & _ & Hd). eauto.
Qed.
End Accesses.

(** ** The ledger *)

Definition in_ledger (db : Database) (c : Command) : Prop :=
  ∃ r, r ∈ rows db "commands" ∧ command_where c r = true.

Lemma kept_rows db db' table r :
  evolves db db' → law table = None → r ∈ rows db table → r ∈ rows db' table.
Proof.
  intros He Hl Hr. destruct (He table) as (kept & added & -> & Hf). apply elem_of_app. left.
  replace kept with (rows db table); [done|]. clear Hr.
  induction Hf as [|x y l k Hxy _ IH]; [done|]. unfold row_law in Hxy. rewrite Hl in Hxy. by rewrite IH, Hxy.
Qed.

(** A row of a table with a law is kept with its frozen columns. *)
Lemma frozen_row db db' table l r :
  evolves db db' → law table = Some l → r ∈ rows db table →
  ∃ s, s ∈ rows db' table ∧ ∀ c, c ∈ law_frozen l → column s c = column r c.
Proof.
  intros He Hl Hr. destruct (He table) as (kept & added & -> & Hf).
  apply list_elem_of_lookup in Hr as (i & Hi). destruct (Forall2_lookup_l _ _ _ _ _ Hf Hi) as (s & Hs & Hrs).
  exists s. split; [apply elem_of_app; left; by eapply list_elem_of_lookup_2|].
  unfold row_law in Hrs. rewrite Hl in Hrs. apply Hrs.
Qed.

Lemma in_ledger_evolves db db' c : evolves db db' → in_ledger db c → in_ledger db' c.
Proof. intros He (r & Hr & Hc). exists r. split; [|done]. by eapply kept_rows. Qed.

Lemma command_respects_kernel `{Sha256} amb o : plain_write o = false → respects_kernel (body amb o).
Proof.
  intros Hp w a w' Hx t Ht. apply (body_footprint amb o w a w' Hx). unfold kernel_tables in Ht.
  destruct o; try done; cbn [footprint]; set_unfold in Ht; destruct_or!; subst; elem.
Qed.

Lemma ledger_row_where c c' cur t :
  command_where c (list_to_map (ledger_row c' cur t)) = true → cmd_epoch c = cmd_epoch c' ∧ cmd_id c = cmd_id c'.
Proof.
  unfold command_where, ledger_row. rewrite andb_true_iff, !col_is_text, !column_cons. cbn. naive_solver.
Qed.

(** Only a command that executed is added to the ledger. *)
Lemma serve_ledger `{Sha256} q conn g e n c :
  kernel (conn_db conn) g e n → in_ledger (conn_db (serve q conn).2) c →
  in_ledger (conn_db conn) c ∨
  (plain_write (rq_operation q) = false ∧ cmd_epoch c = cmd_epoch (rq_command q) ∧ cmd_id c = cmd_id (rq_command q) ∧
   ∃ v cur, execute_command MIGRATIONS (rq_driver q) (rq_ambient q) (rq_command q)
     (body (rq_ambient q) (rq_operation q)) conn = (Ok (Executed v cur), (serve q conn).2)).
Proof.
  intros Hk (r & Hr & Hc). unfold serve in *. destruct (plain_write (rq_operation q)) eqn:Hp.
  - left. exists r. split; [|done].
    pose proof (run_preserves (same_outside (footprint (rq_operation q))) (rq_driver q) _ conn
      (body_footprint (rq_ambient q) (rq_operation q))) as Hs.
    destruct (run _ _ conn) as [res conn']. cbn in *. rewrite <-(Hs "commands"); [done|].
    destruct (rq_operation q); try done; cbn [footprint]; unfold journal; elem.
  - pose proof (command_step (rq_driver q) (rq_ambient q) (rq_command q) (body (rq_ambient q) (rq_operation q))
      conn g e n Hk (command_respects_kernel _ _ Hp)) as Hs.
    destruct (execute_command _ _ _ _ _ conn) as [[[v cur|cur t]|err] conn']; cbn in *.
    + destruct Hs as (_ & _ & _ & _ & Hrows). rewrite Hrows in Hr. apply elem_of_app in Hr as [Hr|Hr]; [left; by exists r|].
      apply list_elem_of_singleton in Hr as ->. apply ledger_row_where in Hc as [? ?]. right. eauto 10.
    + left. exists r. by rewrite <-Hs.
    + left. exists r. by rewrite <-Hs.
Qed.

(** A command that returned, now or before, is in the ledger. *)
Lemma command_recorded {A} d amb c (m : Tx A) conn r conn' g e n :
  kernel (conn_db conn) g e n → respects_kernel m →
  execute_command MIGRATIONS d amb c m conn = (Ok r, conn') → in_ledger (conn_db conn') c.
Proof.
  intros Hk Hm Hx. unfold execute_command in Hx. pose proof (run_spec d (execute MIGRATIONS amb c m) conn) as Hr.
  rewrite Hx in Hr. destruct Hr as (_ & _ & w & Hw & _ & ->).
  apply (execute_Ok amb c m {| w_db := conn_db conn; w_failed := false |} r w g e n Hk Hm) in Hw as [_ Hw].
  destruct r as [v cur|cur t].
  - destruct Hw as (_ & _ & _ & Hrows). exists (list_to_map (ledger_row c cur (amb_now amb))). rewrite Hrows.
    split; [apply elem_of_app; right; left|apply ledger_row_matches].
  - destruct Hw as (-> & row & rest & entry & Hf & _). cbn [w_db] in Hf |- *. exists row. cut (row ∈ List.filter (command_where c) (rows (conn_db conn) "commands"));
      [by intros [Hin Hw]%list_elem_of_In%filter_In; split; [apply list_elem_of_In|]|].
    rewrite Hf. left.
Qed.
