(* ===== verification/Operator.v ===== *)
(** * The operator surface: identities and failures
    ([pantheon-engine/src/operator.rs], [pantheon-operator-protocol/src/problem.rs],
    [pantheon-operator-api/src/problem.rs], [command.rs]) *)

From Stdlib Require Import ZArith Ascii Lia.
From S2P Require Import Prelude Utf8 Canonical Parse Digest Goal Validate Sql Schema Transaction Command StoreBase StoreConfiguration StoreOperator StoreHistory EngineBase.

(** ** Failures *)

(** The text of a failure, kept as what it is made of. *)
Inductive Detail : Type :=
| OfStore (e : StoreError)
| OfCursor (e : CursorError)
| OfPlan (e : PlanError)
| OfText (m : Message).

Inductive OperatorError : Type :=
| NotFound (resource id : string)
| Conflict (detail : Detail)
| OpStaleCommandEpoch (supplied current : string)
| OpCommandConflict (command_id : string)
| CursorGone (detail : Detail)
| NotReady (detail : Detail)
| OpInvalid (detail : Detail)
| StaleRevision (detail : Detail)
| Internal (detail : Detail).

Definition operator_error_from_store (err : StoreError) : OperatorError :=
  match err with
  | StaleCommandEpoch supplied current => OpStaleCommandEpoch supplied current
  | CommandConflict command_id => OpCommandConflict command_id
  | GoalNotCancellable _ _ _ | RevisionConflict _ _ _ _ => Conflict (OfStore err)
  | other => Internal (OfStore other)
  end.

Definition operator_error_from_cursor (err : CursorError) : OperatorError := CursorGone (OfCursor err).

(** [?] on a store call. *)
Definition of_store {A} (m : Eng StoreError A) : Eng OperatorError A := eng_map_err operator_error_from_store m.

Inductive ProblemCode : Type :=
| PcNotFound | PcValidation | PcPreconditionRequired | PcStaleRevision | PcStaleCommandEpoch | PcConflict
| PcCursorGone | PcTemporarilyUnavailable | PcInternal.

Definition problem_code_as_str (c : ProblemCode) : string :=
  match c with
  | PcNotFound => "not-found"
  | PcValidation => "validation"
  | PcPreconditionRequired => "precondition-required"
  | PcStaleRevision => "stale-revision"
  | PcStaleCommandEpoch => "stale-command-epoch"
  | PcConflict => "conflict"
  | PcCursorGone => "cursor-gone"
  | PcTemporarilyUnavailable => "temporarily-unavailable"
  | PcInternal => "internal"
  end.

Definition problem_status (c : ProblemCode) : Z :=
  match c with
  | PcNotFound => 404
  | PcValidation => 400
  | PcCursorGone => 410
  | PcStaleRevision => 412
  | PcPreconditionRequired => 428
  | PcStaleCommandEpoch | PcConflict => 409
  | PcInternal => 500
  | PcTemporarilyUnavailable => 503
  end.

(** What leaves the daemon: a code and the failure whose text is the detail; an
    internal failure is replaced. *)
Definition problem_of (err : OperatorError) : ProblemCode * option OperatorError :=
  match err with
  | NotFound _ _ => (PcNotFound, Some err)
  | Conflict _ => (PcConflict, Some err)
  | StaleRevision _ => (PcStaleRevision, Some err)
  | OpStaleCommandEpoch _ _ => (PcStaleCommandEpoch, Some err)
  | OpCommandConflict _ => (PcConflict, Some err)
  | CursorGone _ => (PcCursorGone, Some err)
  | NotReady _ => (PcTemporarilyUnavailable, Some err)
  | OpInvalid _ => (PcValidation, Some err)
  | Internal _ => (PcInternal, None)
  end.

(** ** Identities *)

Record CommandIdentity : Type := { ci_epoch : string; ci_id : string; ci_request_hash : string }.

Definition IDENTIFIER_HEX : nat := 32.

Definition short (hex : string) : string := take_bytes (IDENTIFIER_HEX `min` String.length hex) hex.

Section Identities.
Context `{Sha256}.

Definition derive_command_id (epoch command_id step : string) : string :=
  let value := object [("commandEpoch", Str epoch); ("commandId", Str command_id);
                       ("step", Str step)] in
  step +:+ ("-" +:+ short (to_hex (value_digest value))).

Definition derive_goal_id (epoch command_id : string) : string :=
  let value := object [("commandEpoch", Str epoch); ("commandId", Str command_id)] in
  "goal-" +:+ short (to_hex (value_digest value)).

Definition identity_step (c : CommandIdentity) (step : string) : CommandIdentity :=
  {| ci_epoch := ci_epoch c; ci_id := derive_command_id (ci_epoch c) (ci_id c) step;
     ci_request_hash := ci_request_hash c |}.

Definition identity_command (c : CommandIdentity) (event_type : string) : Command :=
  {| cmd_epoch := ci_epoch c; cmd_id := ci_id c; cmd_request_hash := ci_request_hash c;
     cmd_event_type := event_type |}.
End Identities.
