(* ===== verification/Watch.v ===== *)
(** * Watching events ([pantheon-engine/src/operator/events.rs],
    [pantheon-operator-api/src/events.rs])

    The page read, and the stream a watching client receives: polls of the journal
    interleaved with everything else the store serves. *)

From Stdlib Require Import ZArith Ascii Lia.
From S2P Require Import Prelude Utf8 Canonical Parse Digest Goal Sql Schema Transaction Command StoreBase StoreExecution StoreLaws StoreOperator StoreHistory EngineBase Operator.

Definition MAX_EVENTS : Z := 256.
Definition WATCH_PAGE : Z := 64.

Record EventView : Type := {
  evv_event_id : string;
  evv_cursor : Cursor;
  evv_event_type : string;
  evv_recorded_at : Z;
  evv_command_epoch : option string;
  evv_command_id : option string
}.

Record EventPage : Type := { page_events : list EventView; page_next : Cursor }.

Definition event_view (r : EventRecord) : EventView :=
  {| evv_event_id := ev_event_id r; evv_cursor := event_cursor r; evv_event_type := ev_event_type r;
     evv_recorded_at := ev_recorded_at r; evv_command_epoch := ev_command_epoch r;
     evv_command_id := ev_command_id r |}.

Definition clamp (lo hi n : Z) : Z := Z.max lo (Z.min hi n).

(** Where to resume: after the last event, or at the cursor when there is none. *)
Definition page_of (cursor : Cursor) (events : list EventRecord) : EventPage :=
  {| page_events := map event_view events;
     page_next := match last events with Some e => event_cursor e | None => cursor end |}.

(** The wire form of an event; the stream's [id] line is its cursor. *)
Record EventResponse : Type := {
  er_event_id : string;
  er_cursor : string;
  er_event_type : string;
  er_recorded_at : Z;
  er_command_epoch : option string;
  er_command_id : option string
}.

Record EventMessage : Type := { msg_id : string; msg_event : string; msg_data : EventResponse }.

Definition event_response (e : EventView) : EventResponse :=
  {| er_event_id := evv_event_id e; er_cursor := to_wire (evv_cursor e); er_event_type := evv_event_type e;
     er_recorded_at := evv_recorded_at e; er_command_epoch := evv_command_epoch e;
     er_command_id := evv_command_id e |}.

Definition event_message (e : EventView) : EventMessage :=
  {| msg_id := to_wire (evv_cursor e); msg_event := evv_event_type e; msg_data := event_response e |}.

(** Sends until the client is gone. [gone] says for each message whether the
    receiver was dropped before it. *)
Fixpoint send_all (gone : EventMessage → bool) (events : list EventView) : list EventMessage * bool :=
  match events with
  | [] => ([], true)
  | e :: rest =>
      let m := event_message e in
      if gone m then ([], false)
      else let (sent, alive) := send_all gone rest in (m :: sent, alive)
  end.

Section Watching.
Context `{Sha256}.
Variable slots : nat → Slot.

Definition service_journal_head : Eng OperatorError Cursor :=
  of_store (eng_read slots (fun _ db => journal_head MIGRATIONS db)).

(** Two failures: the store's and the cursor's. *)
Definition service_events_after (cursor : Cursor) (limit : Z) : Eng OperatorError EventPage :=
  let limit := clamp 1 MAX_EVENTS limit in
  let@ found := of_store (eng_read slots (fun _ db => events_after MIGRATIONS db cursor limit)) in
  let@ events := eng_try (map_err operator_error_from_cursor found) in
  eng_ret (page_of cursor events).

Definition resolve (after : option string) : Eng OperatorError Cursor :=
  match after with
  | None => service_journal_head
  | Some text =>
      eng_some (cursor_parse text) (CursorGone (OfText (message "not a journal cursor" [text])))
  end.

(** [GET /events]: one page and the cursor to continue from. *)
Definition list_events (after : option string) (limit : option Z) :
    Eng OperatorError (list EventResponse * string) :=
  let@ cursor := resolve after in
  let@ page := service_events_after cursor (default WATCH_PAGE limit) in
  eng_ret (map event_response (page_events page), to_wire (page_next page)).

(** The start of a stream: the cursor is read once, so that a bad one is an error
    and not an empty stream. *)
Definition watch_start (after : option string) : Eng OperatorError Cursor :=
  let@ cursor := resolve after in
  do@ service_events_after cursor 1 in
  eng_ret cursor.

(** [polls] turns of the loop; a failed read or a client that is gone ends it. *)
Fixpoint watch_loop (gone : EventMessage → bool) (polls : nat) (cursor : Cursor) (w : World) :
    list EventMessage * World :=
  match polls with
  | O => ([], w)
  | S polls' =>
      match service_events_after cursor WATCH_PAGE w with
      | (Err _, w') => ([], w')
      | (Ok page, w') =>
          let (sent, alive) := send_all gone (page_events page) in
          if alive
          then let (more, w'') := watch_loop gone polls' (page_next page) w' in (sent ++ more, w'')
          else (sent, w')
      end
  end.

(** [GET /events/watch], as far as [polls] turns. *)
Definition watch (gone : EventMessage → bool) (polls : nat) (after : option string) (w : World) :
    Result (list EventMessage) OperatorError * World :=
  match watch_start after w with
  | (Err e, w') => (Err e, w')
  | (Ok cursor, w') => let (sent, w'') := watch_loop gone polls cursor w' in (Ok sent, w'')
  end.

(** A client that reconnects with the last [id] it received. *)
Definition resume (after : option string) (received : list EventMessage) : option string :=
  match last received with
  | Some m => Some (msg_id m)
  | None => after
  end.

Fixpoint follow (sessions : list ((EventMessage → bool) * nat)) (after : option string) (w : World) :
    list EventMessage * World :=
  match sessions with
  | [] => ([], w)
  | (gone, polls) :: rest =>
      let (r, w') := watch gone polls after w in
      let received := match r with Ok sent => sent | Err _ => [] end in
      let (more, w'') := follow rest (resume after received) w' in
      (received ++ more, w'')
  end.
End Watching.

(** ** Lemmas: pages *)

Definition position (c : Cursor) : Z := Z.max 0 (cur_sequence c).

Lemma counting_app k a b : counting k (a + b) = counting k a ++ counting (k + Z.of_nat a) b.
Proof.
  revert k. induction a as [|a IH]; intros k; cbn [Nat.add counting app]; [by rewrite Z.add_0_r|].
  rewrite IH. do 3 f_equal. lia.
Qed.

Lemma length_counting k n : length (counting k n) = n.
Proof. revert k. induction n; intros k; cbn; auto. Qed.

(** A cursor before the first event reads like the origin. *)
Lemma events_after_origin db g e n k limit :
  kernel db g e n → (k < 0)%Z →
  events_after MIGRATIONS db {| cur_epoch := e; cur_sequence := k |} limit =
  events_after MIGRATIONS db {| cur_epoch := e; cur_sequence := 0 |} limit.
Proof.
  intros Hk Hneg. unfold events_after. rewrite (read_head_kernel _ _ _ _ Hk). cbn [try_bind cur_epoch cur_sequence].
  pose proof (kn_positive _ _ _ _ Hk). rewrite String.eqb_refl. cbn [negb].
  destruct (Z.ltb_spec (n - 1) k); [lia|]. destruct (Z.ltb_spec (n - 1) 0); [lia|].
  assert (∀ j, (j ≤ 0)%Z → List.filter (after_cursor {| cur_epoch := e; cur_sequence := j |}) (rows db "event_journal") =
    List.filter (col_is "journal_epoch" (SText e)) (rows db "event_journal")) as Hf.
  { intros j Hj.
    change (after_cursor _) with (fun r => col_is "journal_epoch" (SText e) r && sequence_after j r).
    rewrite filter_filter_b. apply (filter_after_all _ 0 (Z.to_nat (n - 1))); [|done].
    apply (kn_sequences _ _ _ _ Hk). }
  by rewrite !Hf by lia.
Qed.

(** What makes an event deliverable: it is the decoding of a stored row. *)
Definition stored_event (db : Database) (ev : EventRecord) : Prop :=
  ∃ r, r ∈ rows db "event_journal" ∧ decode_event r = Ok ev.

Lemma events_after_from db g e n c limit :
  kernel db g e n → valid MIGRATIONS db → cur_epoch c = e → (cur_sequence c < n)%Z → (0 ≤ limit)%Z →
  ∃ events, events_after MIGRATIONS db c limit = Ok (Ok events) ∧
    map event_cursor events = map (fun k => {| cur_epoch := e; cur_sequence := k |})
      (counting (position c) (Z.to_nat (Z.min limit (n - 1 - position c)))) ∧
    Forall (stored_event db) events.
Proof.
  destruct c as [e' k]. cbn. intros Hk Hv -> Hlt Hl. pose proof (kn_positive _ _ _ _ Hk).
  assert (events_after MIGRATIONS db {| cur_epoch := e; cur_sequence := k |} limit =
    events_after MIGRATIONS db {| cur_epoch := e; cur_sequence := position {| cur_epoch := e; cur_sequence := k |} |} limit)
    as ->.
  { unfold position. cbn. destruct (Z.max_spec 0 k) as [[? ->]|[? ->]]; [done|].
    destruct (decide (k = 0%Z)) as [->|]; [done|]. apply (events_after_origin _ g _ n); [done|lia]. }
  destruct (events_after_page db g e n (position {| cur_epoch := e; cur_sequence := k |}) limit)
    as (events & He & Hm & Hall); [done|done|unfold position; cbn; lia|done|].
  exists events. split; [done|]. split; [|apply Forall_forall; intros ev Hev; by destruct (Hall ev Hev)].
  rewrite <-Hm. clear Hm. rewrite map_map. apply map_ext_in. intros ev Hev%list_elem_of_In.
  destruct (Hall ev Hev) as [<- _]. done.
Qed.

(** ** Lemmas: the stream *)

(** [messages] are the events numbered right after [k], in order, none left out. *)
Definition delivered (e : string) (k : Z) (db : Database) (messages : list EventMessage) : Prop :=
  map msg_id messages =
    map (fun i => to_wire {| cur_epoch := e; cur_sequence := i |}) (counting k (length messages)) ∧
  Forall (fun m => ∃ ev, stored_event db ev ∧ m = event_message (event_view ev)) messages.

Lemma stored_event_evolves db db' ev : evolves db db' → stored_event db ev → stored_event db' ev.
Proof.
  intros He (r & Hr & Hd). exists r. split; [|done]. destruct (He "event_journal") as (kept & added & -> & Hf).
  apply elem_of_app. left. replace kept with (rows db "event_journal"); [done|].
  clear Hr. induction Hf as [|x y l k Hxy _ IH]; [done|]. by rewrite IH, (Hxy : y = x).
Qed.

Lemma delivered_evolves e k db db' l : evolves db db' → delivered e k db l → delivered e k db' l.
Proof.
  intros He [Hi Hs]. split; [done|]. eapply Forall_impl; [exact Hs|]. intros m (ev & Hev & ->).
  exists ev. split; [|done]. by eapply stored_event_evolves.
Qed.

Lemma delivered_nil e k db : delivered e k db [].
Proof. by split. Qed.

Lemma delivered_app e k db l1 l2 :
  delivered e k db l1 → delivered e (k + Z.of_nat (length l1)) db l2 → delivered e k db (l1 ++ l2).
Proof.
  intros [I1 S1] [I2 S2]. split; [|by apply Forall_app].
  rewrite map_app, I1, I2, length_app, counting_app. by rewrite map_app.
Qed.

Lemma delivered_prefix e k db l1 l2 : delivered e k db (l1 ++ l2) → delivered e k db l1.
Proof.
  intros [Hi Hs]. apply Forall_app in Hs as [Hs _]. split; [|done].
  rewrite map_app, length_app, counting_app, map_app in Hi. apply app_inj_1 in Hi as [Hi _]; [done|].
  by rewrite !length_map, length_counting.
Qed.

Lemma send_all_prefix gone events :
  let (sent, alive) := send_all gone events in
  ∃ rest, map event_message events = sent ++ rest ∧ (alive = true → rest = []).
Proof.
  induction events as [|e events IH]; cbn; [by exists []|].
  destruct (gone (event_message e)); [by eexists|]. destruct (send_all gone events) as [sent alive].
  destruct IH as (rest & -> & Hr). by exists rest.
Qed.

Lemma delivered_events e k db events :
  map event_cursor events = map (fun i => {| cur_epoch := e; cur_sequence := i |}) (counting k (length events)) →
  Forall (stored_event db) events → delivered e k db (map event_message (map event_view events)).
Proof.
  intros Hc Hs. split.
  - rewrite !length_map, !map_map. cbn. rewrite <-(map_map event_cursor to_wire), Hc, map_map. done.
  - apply Forall_forall. intros m (v & -> & (ev & -> & Hev)%list_elem_of_fmap)%list_elem_of_fmap.
    exists ev. split; [|done]. by eapply Forall_forall in Hs.
Qed.

Section Stream.
Context `{Sha256}.
Variable slots : nat → Slot.
Variables g e : string.

(** A journal in order, and its next number. *)
Definition journal_at (w : World) (n : Z) : Prop := valid MIGRATIONS (wo_db w) ∧ kernel (wo_db w) g e n.

Lemma journal_advances w w' n :
  advances w w' → journal_at w n → evolves (wo_db w) (wo_db w') ∧ ∃ n', (n ≤ n')%Z ∧ journal_at w' n'.
Proof.
  intros Ha [Hv Hk]. destruct (Ha Hv) as [He Hv' Hk' _]. split; [done|].
  destruct (Hk' _ _ _ Hk) as (n' & ? & ?). by exists n'.
Qed.

Lemma service_events_after_advances c limit : keeps advances (service_events_after slots c limit).
Proof. unfold service_events_after, of_store. solve_keeps. Qed.

Lemma watch_loop_advances gone polls c w : advances w (watch_loop slots gone polls c w).2.
Proof.
  revert c w. induction polls as [|polls IH]; intros c w; cbn [watch_loop]; [done|].
  pose proof (service_events_after_advances c WATCH_PAGE w) as Ha.
  destruct (service_events_after slots c WATCH_PAGE w) as [[page|err] w1]; [|done].
  destruct (send_all gone (page_events page)) as [sent [|]]; [|done].
  specialize (IH (page_next page) w1). destruct (watch_loop _ _ _ _ _) as [more w2]. by etrans.
Qed.

(** One page: the events right after the cursor, and a cursor right after them. *)
Lemma service_page c limit w n page w' :
  journal_at w n → service_events_after slots c limit w = (Ok page, w') →
  ∃ n', (n ≤ n')%Z ∧ journal_at w' n' ∧ cur_epoch c = e ∧ cur_epoch (page_next page) = e ∧
    delivered e (position c) (wo_db w') (map event_message (page_events page)) ∧
    position (page_next page) = (position c + Z.of_nat (length (page_events page)))%Z ∧
    Z.of_nat (length (page_events page)) = Z.min (clamp 1 MAX_EVENTS limit) (n' - 1 - position c) ∧
    (cur_sequence (page_next page) < n')%Z.
Proof.
  intros Hj Hx. pose proof (service_events_after_advances c limit w) as Ha. rewrite Hx in Ha. cbn in Ha.
  destruct (journal_advances _ _ _ Ha Hj) as [_ (n' & Hle & Hj')]. exists n'. split; [done|]. split; [done|].
  clear Hj Ha Hle. destruct Hj' as [Hv Hk]. unfold service_events_after in Hx.
  eng_step Hx as Er. eng_step Hx as Et. apply eng_try_Ok in Et as [Et ->]. apply eng_ret_Ok in Hx as [-> ->].
  unfold eng_read in Er. destruct (interfere slots w) as [s w1]. destruct (slot_fault s); [done|].
  injection Er as Er ->. destruct a as [events|]; [|done]. injection Et as <-.
  assert (cur_epoch c = e ∧ (cur_sequence c < n')%Z) as [He Hlt].
  { unfold events_after in Er. rewrite (read_head_kernel _ _ _ _ Hk) in Er. cbn [try_bind cur_epoch cur_sequence] in Er.
    destruct (String.eqb_spec (cur_epoch c) e); [|done]. cbn [negb] in Er.
    destruct (Z.ltb_spec (n' - 1) (cur_sequence c)); [done|]. split; [done|lia]. }
  pose proof (kn_positive _ _ _ _ Hk) as Hpos.
  destruct (events_after_from _ _ _ _ c (clamp 1 MAX_EVENTS limit) Hk Hv He Hlt) as (evs & Hev & Hc & Hs);
    [unfold clamp, MAX_EVENTS; lia|]. rewrite Hev in Er. injection Er as ->.
  assert (Z.of_nat (length events) = Z.min (clamp 1 MAX_EVENTS limit) (n' - 1 - position c)) as Hlen.
  { apply (f_equal length) in Hc. rewrite !length_map, length_counting in Hc. rewrite Hc, Z2Nat.id; [done|].
    unfold clamp, MAX_EVENTS, position. lia. }
  rewrite <-Hlen, Nat2Z.id in Hc. split; [done|]. unfold page_of. cbn [page_events page_next].
  assert (last events = None ∧ events = [] ∨ ∃ ev, last events = Some ev ∧
    event_cursor ev = {| cur_epoch := e; cur_sequence := position c + Z.of_nat (length events) |}) as Hlast.
  { destruct events as [|ev events] using rev_ind; [by left|right]. exists ev. rewrite last_snoc. split; [done|].
    rewrite !length_app, counting_app, !map_app in Hc. apply app_inj_2 in Hc as [_ Hc]; [|done].
    cbn in Hc. injection Hc as Hc1 Hc2. unfold event_cursor. rewrite length_app. f_equal; [done|]. cbn. lia. }
  rewrite length_map, Hlen. destruct Hlast as [[-> ->]|(ev & -> & ->)]; cbn [cur_epoch cur_sequence length map] in *.
  - split_and!; [done|apply delivered_nil|lia|lia|done].
  - split_and!; [done|by apply delivered_events|unfold position in *; cbn; lia|done|lia].
Qed.

Lemma watch_loop_delivered gone polls c w n sent w' :
  journal_at w n → watch_loop slots gone polls c w = (sent, w') →
  ∃ n', (n ≤ n')%Z ∧ journal_at w' n' ∧ delivered e (position c) (wo_db w') sent ∧
    (sent = [] ∨ position c + Z.of_nat (length sent) < n')%Z.
Proof.
  revert c w n sent. induction polls as [|polls IH]; intros c w n sent Hj; cbn [watch_loop].
  { intros [= <- <-]. exists n. split_and!; [lia|done|apply delivered_nil|by left]. }
  pose proof (service_events_after_advances c WATCH_PAGE w) as Ha.
  destruct (service_events_after slots c WATCH_PAGE w) as [[page|err] w1] eqn:Es; cbn in Ha; last first.
  { intros [= <- <-]. destruct (journal_advances _ _ _ Ha Hj) as [_ (n' & ? & ?)]. exists n'.
    split_and!; [done|done|apply delivered_nil|by left]. }
  destruct (service_page c WATCH_PAGE w n page w1 Hj Es) as (n1 & Hn1 & Hj1 & He & He' & Hd & Hp & Hlen & Hlt).
  pose proof (send_all_prefix gone (page_events page)) as Hsend.
  destruct (send_all gone (page_events page)) as [now alive]. destruct Hsend as (rest & Hsplit & Hrest).
  rewrite Hsplit in Hd. assert (position (page_next page) < n1)%Z as Hbound.
  { unfold position. destruct Hj1 as [_ Hk%kn_positive]. lia. }
  assert (length now + length rest = length (page_events page)) as Hl.
  { rewrite <-length_app, <-Hsplit. apply length_map. }
  destruct alive.
  - rewrite (Hrest eq_refl), app_nil_r in Hd. rewrite (Hrest eq_refl) in Hl. cbn in Hl.
    destruct (watch_loop slots gone polls (page_next page) w1) as [more w2] eqn:Ew. intros [= <- <-].
    destruct (IH _ _ _ _ Hj1 Ew) as (n2 & ? & Hj2 & Hd2 & Hb2). exists n2.
    assert (evolves (wo_db w1) (wo_db w2)) as Hev.
    { assert (advances w1 w2) as Ha2; [|by apply (journal_advances _ _ _ Ha2 Hj1)].
      replace w2 with (watch_loop slots gone polls (page_next page) w1).2 by (by rewrite Ew).
      apply watch_loop_advances. }
    split_and!; [lia|done| |].
    + apply delivered_app; [by eapply delivered_evolves|]. by rewrite Hp, <-Hl, Nat.add_0_r in Hd2.
    + destruct Hb2 as [->|Hb2].
      * right. rewrite app_nil_r. lia.
      * right. rewrite length_app. lia.
  - intros [= <- <-]. exists n1. split_and!; [done|done|by eapply delivered_prefix|]. right. lia.
Qed.

Lemma journal_next_in_i64 w n : journal_at w n → in_i64 n = true.
Proof.
  intros [Hv [_ (r & Hf & _ & Hn) _ _ _]].
  assert (r ∈ rows (wo_db w) "journal_epochs") as Hr.
  { assert (r ∈ [r]) as Hin by left. rewrite <-Hf in Hin. by apply list_elem_of_In, filter_In in Hin as [?%list_elem_of_In _]. }
  assert (journal_epochs_table ∈ MIGRATIONS) as Ht by (unfold MIGRATIONS; set_solver).
  destruct (valid_rows MIGRATIONS (wo_db w) _ r Hv Ht Hr) as [Hty _].
  unfold type_violation in Hty. rewrite find_map_None in Hty.
  assert (("next_sequence", (TInteger, true)) ∈ ts_columns journal_epochs_table) as Hc by (cbn; set_solver).
  specialize (Hty _ Hc). cbn in Hty. rewrite Hn in Hty. by destruct (in_i64 n).
Qed.

Lemma resolve_text text c w :
  cursor_parse text = Some c → resolve slots (Some text) w = (Ok c, w).
Proof. intros Hp. unfold resolve. by rewrite Hp. Qed.

Lemma watch_delivered gone polls text c w n r w' :
  journal_at w n → cursor_parse text = Some c → watch slots gone polls (Some text) w = (r, w') →
  let received := match r with Ok sent => sent | Err _ => [] end in
  ∃ n', (n ≤ n')%Z ∧ journal_at w' n' ∧ evolves (wo_db w) (wo_db w') ∧
    delivered e (position c) (wo_db w') received ∧
    (received = [] ∨ position c + Z.of_nat (length received) < n')%Z.
Proof.
  intros Hj Hp. unfold watch, watch_start, eng_bind. rewrite (resolve_text _ _ _ Hp).
  pose proof (service_events_after_advances c 1 w) as Ha.
  destruct (service_events_after slots c 1 w) as [[page|err] w1]; cbn in Ha; cbn [eng_ret];
    destruct (journal_advances _ _ _ Ha Hj) as [He1 (n1 & Hn1 & Hj1)].
  - pose proof (watch_loop_advances gone polls c w1) as Ha2.
    destruct (watch_loop slots gone polls c w1) as [sent w2] eqn:Ew. intros [= <- <-].
    destruct (watch_loop_delivered _ _ _ _ _ _ _ Hj1 Ew) as (n2 & ? & Hj2 & Hd & Hb). exists n2.
    destruct (journal_advances _ _ _ Ha2 Hj1) as [He2 _]. split_and!; [lia|done|by etrans|done|done].
  - intros [= <- <-]. exists n1. split_and!; [done|done|done|apply delivered_nil|by left].
Qed.

Lemma watch_advances gone polls after w : advances w (watch slots gone polls after w).2.
Proof.
  unfold watch. assert (keeps advances (watch_start slots after)) as Hs.
  { unfold watch_start, resolve, service_journal_head, of_store. solve_keeps. apply service_events_after_advances. }
  specialize (Hs w). destruct (watch_start slots after w) as [[c|err] w1]; [|done]. cbn in Hs.
  pose proof (watch_loop_advances gone polls c w1) as Hl. destruct (watch_loop _ _ _ _ _) as [sent w2]. by etrans.
Qed.

Lemma follow_advances sessions after w : advances w (follow slots sessions after w).2.
Proof.
  revert after w. induction sessions as [|[gone polls] sessions IH]; intros after w; cbn [follow]; [done|].
  pose proof (watch_advances gone polls after w) as Hw. destruct (watch slots gone polls after w) as [r w1].
  set (after' := resume _ _). specialize (IH after' w1). destruct (follow _ _ _ _) as [more w2]. by etrans.
Qed.

(** What a client resumes from names the place it stopped at. *)
Lemma resume_position text c db n received :
  e ≠ EmptyString → has_byte ":" e = false → in_i64 n = true → cursor_parse text = Some c →
  delivered e (position c) db received →
  (received = [] ∨ position c + Z.of_nat (length received) < n)%Z →
  ∃ text' c', resume (Some text) received = Some text' ∧ cursor_parse text' = Some c' ∧
    position c' = (position c + Z.of_nat (length received))%Z.
Proof.
  intros He Hcolon Hn Hp [Hi _] Hb. unfold resume.
  destruct received as [|m received] using rev_ind; [exists text, c; split_and!; [done|done|cbn; lia]|].
  clear IHreceived. destruct Hb as [Hb|Hb]; [by destruct received|]. rewrite last_snoc.
  rewrite length_app, map_app, counting_app, map_app in Hi. apply app_inj_2 in Hi as [_ Hi]; [|done].
  cbn [map counting length] in Hi. injection Hi as Hi. exists (msg_id m). rewrite length_app in *. cbn [length] in *.
  exists {| cur_epoch := e; cur_sequence := position c + Z.of_nat (length received) + 1 |}.
  split_and!; [done| |unfold position; cbn; lia].
  rewrite Hi. apply to_wire_parse; [done|done|]. cbn. unfold position in *. unfold in_i64, i64_min, i64_max in *. lia.
Qed.
End Stream.

(** ** The claims *)

(** A watching client receives every event exactly once, in order. Whatever the
    store serves between the polls, whatever reads fail and however often the client
    is disconnected and reconnects with the last id it received, the messages it gets
    after presenting a cursor are the stored events of the journal numbered right
    after that cursor, consecutively: no gap, no duplicate, no reordering. *)
Theorem watch_delivers_in_order `{Sha256} slots sessions text c w g e n messages w' :
  valid MIGRATIONS (wo_db w) → kernel (wo_db w) g e n → e ≠ EmptyString → has_byte ":" e = false →
  cursor_parse text = Some c → follow slots sessions (Some text) w = (messages, w') →
  delivered e (position c) (wo_db w') messages.
Proof.
  intros Hv Hk He Hcolon. assert (journal_at g e w n) as Hj by done. clear Hv Hk.
  revert text c w n messages Hj. induction sessions as [|[gone polls] sessions IH]; intros text c w n messages Hj Hp;
    cbn [follow]; [intros [= <- <-]; apply delivered_nil|].
  destruct (watch slots gone polls (Some text) w) as [r w1] eqn:Ew.
  destruct (watch_delivered _ _ _ _ _ _ _ _ _ _ _ Hj Hp Ew) as (n1 & ? & Hj1 & Hev & Hd & Hb).
  set (received := match r with Ok sent => sent | Err _ => [] end) in *.
  destruct (resume_position e text c (wo_db w1) n1 received) as (text' & c' & Hr & Hp' & Hpos);
    [done|done|by eapply journal_next_in_i64|done|done|done|].
  rewrite Hr. destruct (follow slots sessions (Some text') w1) as [more w2] eqn:Ef. intros [= <- <-].
  pose proof (IH _ _ _ _ _ Hj1 Hp' Ef) as Hmore. rewrite Hpos in Hmore.
  apply delivered_app; [|done]. eapply delivered_evolves; [|exact Hd].
  replace w2 with (follow slots sessions (Some text') w1).2 by (by rewrite Ef).
  apply (journal_advances g e w1 _ n1); [apply follow_advances|done].
Qed.

(** From access [turn] on nothing else is served and no read fails. *)
Definition quiet_from (slots : nat → Slot) (turn : nat) : Prop :=
  ∀ i, turn ≤ i → slot_before (slots i) = [] ∧ slot_fault (slots i) = None.

Lemma service_quiet `{Sha256} slots c limit w g e n :
  journal_at g e w n → quiet_from slots (wo_turn w) → cur_epoch c = e → (cur_sequence c < n)%Z →
  ∃ page w', service_events_after slots c limit w = (Ok page, w') ∧ journal_at g e w' n ∧
    wo_turn w' = S (wo_turn w).
Proof.
  intros [Hv Hk] Hq He Hlt. destruct (Hq (wo_turn w) ltac:(lia)) as [Hs Hf].
  destruct (events_after_from _ _ _ _ c (clamp 1 MAX_EVENTS limit) Hk Hv He Hlt) as (evs & Hev & _ & _);
    [unfold clamp, MAX_EVENTS; lia|].
  unfold service_events_after, of_store, eng_bind, eng_map_err, eng_read, interfere. rewrite Hs, Hf.
  cbn [serve_all snd]. unfold wo_db at 1. cbn [wo_conn]. fold (wo_db w). rewrite Hev. cbn.
  eexists _, _. by split_and!.
Qed.

Lemma watch_loop_quiet `{Sha256} slots polls c w g e n :
  journal_at g e w n → quiet_from slots (wo_turn w) → cur_epoch c = e → (cur_sequence c < n)%Z →
  (n - 1 - position c ≤ WATCH_PAGE * Z.of_nat polls)%Z →
  ∃ sent w', watch_loop slots (fun _ => false) polls c w = (sent, w') ∧ journal_at g e w' n ∧
    Z.of_nat (length sent) = (n - 1 - position c)%Z.
Proof.
  revert c w. induction polls as [|polls IH]; intros c w Hj Hq He Hlt Hn; cbn [watch_loop];
    pose proof (kn_positive _ _ _ _ (proj2 Hj)) as Hpos.
  { exists [], w. split_and!; [done..|]. unfold position in *. cbn. lia. }
  destruct (service_quiet slots c WATCH_PAGE w g e n Hj Hq He Hlt) as (page & w1 & Hs & Hj1 & Ht).
  destruct (service_page slots g e c WATCH_PAGE w n page w1 Hj Hs) as (n1 & _ & Hj1' & _ & He' & _ & Hp & Hlen & Hlt').
  assert (n1 = n) as ->.
  { destruct Hj1 as [_ [_ (r & Hf & _ & Hr) _ _ _]], Hj1' as [_ [_ (r' & Hf' & _ & Hr') _ _ _]].
    rewrite Hf in Hf'. injection Hf' as <-. congruence. }
  rewrite Hs. assert (send_all (fun _ => false) (page_events page) = (map event_message (page_events page), true)) as ->.
  { clear. induction (page_events page) as [|x l IH]; cbn; [done|]. by rewrite IH. }
  destruct (IH (page_next page) w1) as (sent & w2 & Hw & Hj2 & Hlen2); [done| |done|done| |].
  { intros i Hi. apply Hq. lia. }
  { rewrite Hp, Hlen. unfold clamp, MAX_EVENTS, WATCH_PAGE in *. lia. }
  rewrite Hw. eexists _, _. split_and!; [done|done|]. rewrite length_app, length_map. lia.
Qed.


(** A page of events is decided by the cursor alone: another journal history is
    refused as such, a position past the head is refused as such, and every other
    cursor gets the events right after it, at most as many as asked for and as many as
    there are; the head itself gets the empty page. *)
Theorem cursor_outcome db g e n c limit :
  valid MIGRATIONS db → kernel db g e n → (0 ≤ limit)%Z →
  (cur_epoch c ≠ e ∧ events_after MIGRATIONS db c limit = Ok (Err (UnknownEpoch (cur_epoch c) e))) ∨
  (cur_epoch c = e ∧ (n ≤ cur_sequence c)%Z ∧
     events_after MIGRATIONS db c limit = Ok (Err (AheadOfJournal (cur_sequence c) (n - 1)))) ∨
  (cur_epoch c = e ∧ (cur_sequence c < n)%Z ∧ ∃ events,
     events_after MIGRATIONS db c limit = Ok (Ok events) ∧
     map event_cursor events = map (fun k => {| cur_epoch := e; cur_sequence := k |})
       (counting (position c) (Z.to_nat (Z.min limit (n - 1 - position c)))) ∧
     Forall (stored_event db) events).
Proof.
  intros Hv Hk Hl. destruct (decide (cur_epoch c = e)) as [He|He].
  - destruct (Z.ltb_spec (cur_sequence c) n) as [Hlt|Hge].
    + right; right. split_and!; [done|done|]. by eapply events_after_from.
    + right; left. split_and!; [done|done|]. unfold events_after. rewrite (read_head_kernel _ _ _ _ Hk).
      cbn [try_bind cur_epoch cur_sequence]. rewrite He, String.eqb_refl. cbn [negb].
      destruct (Z.ltb_spec (n - 1) (cur_sequence c)); [done|lia].
  - left. split; [done|]. unfold events_after. rewrite (read_head_kernel _ _ _ _ Hk).
    cbn [try_bind cur_epoch cur_sequence]. by destruct (String.eqb_spec (cur_epoch c) e).
Qed.

(** ** Witnesses *)

(** The journal after the sample commands, watched by a client that loses its stream
    while another command is served. *)
Definition sample_world (conn : Connection) : World :=
  {| wo_conn := conn; wo_published := None; wo_turn := 0 |}.

Definition idle_slot : Slot :=
  {| slot_before := []; slot_driver := working; slot_ambient := sample_ambient "idle"; slot_fault := None; slot_republish := None |}.

Lemma sample_after_valid : valid MIGRATIONS (conn_db sample_after).
Proof. vm_compute. reflexivity. Qed.

#[local] Existing Instance prefix_hash.

Definition sample_cancel : Request := {|
  rq_driver := working; rq_ambient := sample_ambient "00000000000000000000000000000005";
  rq_command := sample_command "c5"; rq_operation := OpCancelGoal "goal-1" |}.

(** The cancellation is served between the two sessions. *)
Definition sample_slots (i : nat) : Slot :=
  if Nat.eqb i 2
  then {| slot_before := [sample_cancel]; slot_driver := working; slot_ambient := sample_ambient "busy";
          slot_fault := None; slot_republish := None |}
  else idle_slot.

Definition sample_origin : string := sample_journal +:+ ":0".

Abbreviation sample_follow :=
  (follow sample_slots [((fun _ => false), 1%nat); ((fun _ => false), 1%nat)] (Some sample_origin)
    (sample_world sample_after)).

Lemma watch_delivers_in_order_witness :
  ∃ messages w', sample_follow = (messages, w') ∧ length messages = 2 ∧
    delivered sample_journal 0 (wo_db w') messages.
Proof.
  assert (length sample_follow.1 = 2) as Hlen by (vm_compute; reflexivity).
  destruct sample_follow as [messages w'] eqn:E. exists messages, w'. split; [reflexivity|]. split; [exact Hlen|].
  refine (watch_delivers_in_order sample_slots _ sample_origin {| cur_epoch := sample_journal; cur_sequence := 0 |}
    (sample_world sample_after) sample_generation sample_journal 2 _ _ sample_after_valid sample_after_kernel
    _ _ _ E); [done|vm_compute; reflexivity|vm_compute; reflexivity].
Defined.


Lemma cursor_outcome_witness :
  events_after MIGRATIONS (conn_db sample_after) {| cur_epoch := sample_journal; cur_sequence := 7 |} 10 =
    Ok (Err (AheadOfJournal 7 1)).
Proof.
  destruct (cursor_outcome (conn_db sample_after) sample_generation sample_journal 2
    {| cur_epoch := sample_journal; cur_sequence := 7 |} 10 sample_after_valid sample_after_kernel)
    as [[Hne _]|[(_ & _ & Hx)|(_ & Hlt & _)]]; [lia|by destruct Hne|exact Hx|cbn in Hlt; lia].
Defined.
