(* ===== verification/EngineConfiguration.v ===== *)
(** * Configuration publication

    [pantheon-engine/src/configuration.rs] and the daemon's [publish]
    ([pantheond/src/main.rs]): candidates are compiled, activated in the store and
    published to the process, under one lock. The lock is held over all of
    [authority_activate], so calls on one authority happen one after another. *)

From Stdlib Require Import ZArith Ascii Lia.
From S2P Require Import Prelude Utf8 Canonical Parse ParseFacts Digest ConfigModel Compile CompileFacts CompileExact Sql Schema Transaction Command StoreBase StoreConfiguration StoreLaws StoreHistory StoreFrames EngineBase.

(** ** Definitions *)

Record SourceFile : Type := { sf_name : string; sf_text : string }.

Definition SourceSet : Type := list SourceFile.

Definition sources_single (name text : string) : SourceSet := [{| sf_name := name; sf_text := text |}].

Definition sources_compile (sources : SourceSet) : Result CompiledConfiguration ConfigError :=
  let? primary := ok_or (head sources) (MissingField "sources") in
  compile (sf_text primary).

Inductive ConfigurationStatus : Type :=
| Uninitialized
| StatusActive (active : ActiveConfiguration)
| Drifted (active : ActiveConfiguration) (source_set_digest : Digest).

Definition status_active (s : ConfigurationStatus) : option ActiveConfiguration :=
  match s with
  | Uninitialized => None
  | StatusActive active | Drifted active _ => Some active
  end.

Definition is_drifted (s : ConfigurationStatus) : bool :=
  match s with
  | Drifted _ _ => true
  | _ => false
  end.

Inductive UnavailableDetail : Type :=
| RefusingToPublish (candidate active : Digest)
| NothingPublished
| NoUsableSemantics.

Inductive ConfigurationError : Type :=
| Invalid (err : ConfigError)
| ConfigurationStore (err : StoreError)
| ConfigurationUnavailable (detail : UnavailableDetail).

(** [Store::restore_generation]. *)
Definition read_restore_generation (db : Database) : Result string StoreError :=
  let? found := read_row MIGRATIONS db "system_state" ["restore_generation"; "id"] (col_is "id" (SInteger 1))
    (get_text "restore_generation") in
  ok_or found (Sqlite QueryReturnedNoRows).

Section Authority.
Context `{Sha256}.

Definition sources_digest (sources : SourceSet) : Digest :=
  source_set_digest (map (fun file => (sf_name file, sf_text file)) sources).

(** [Snapshot::new]. *)
Definition snapshot_new (active : ActiveConfiguration) (compiled : option CompiledConfiguration) :
    Result Snapshot ConfigurationError :=
  match compiled with
  | Some candidate =>
      if bool_decide (revision_digest candidate = active_content_digest active)
      then Ok {| snap_active := active; snap_compiled := compiled |}
      else Err (ConfigurationUnavailable
                  (RefusingToPublish (revision_digest candidate) (active_content_digest active)))
  | None => Ok {| snap_active := active; snap_compiled := None |}
  end.

Definition set_published (s : option Snapshot) : Eng ConfigurationError unit := fun w =>
  (Ok tt, {| wo_conn := wo_conn w; wo_published := s; wo_turn := wo_turn w |}).

Variable slots : nat → Slot.

Definition read_pointer : Eng ConfigurationError ConfigurationPointer :=
  eng_map_err ConfigurationStore (eng_read slots (fun _ => configuration_pointer MIGRATIONS)).

(** The source's semantics, when they are those of the active revision. *)
Definition recovered (sources : SourceSet) (active : ActiveConfiguration) : option CompiledConfiguration :=
  match sources_compile sources with
  | Ok candidate =>
      if bool_decide (revision_digest candidate = active_content_digest active) then Some candidate else None
  | Err _ => None
  end.

Definition authority_load (sources : SourceSet) : Eng ConfigurationError ConfigurationStatus :=
  let@ pointer := read_pointer in
  match pointer_active pointer with
  | None => do@ set_published None in eng_ret Uninitialized
  | Some active =>
      let found := recovered sources active in
      let source_digest := sources_digest sources in
      let drifted :=
        bool_decide (found = None) || negb (bool_decide (source_digest = active_source_set_digest active)) in
      let@ snapshot := eng_try (snapshot_new active found) in
      do@ set_published (Some snapshot) in
      eng_ret (if drifted then Drifted active source_digest else StatusActive active)
  end.

Definition authority_activate (c : Command) (sources : SourceSet) :
    Eng ConfigurationError (Committed ActiveConfiguration) :=
  let@ compiled := eng_map_err Invalid (eng_try (sources_compile sources)) in
  let source_digest := sources_digest sources in
  let@ pointer := read_pointer in
  let expected := pointer_revision pointer in
  let@ committed := eng_map_err ConfigurationStore
    (eng_command slots c (fun amb => write_activation MIGRATIONS amb compiled source_digest expected)) in
  let@ active :=
    match committed with
    | Executed value _ => eng_ret (Some value)
    | Replayed _ _ => let@ pointer := read_pointer in eng_ret (pointer_active pointer)
    end in
  match active with
  | None => eng_ret committed
  | Some active =>
      let@ snapshot := eng_try (snapshot_new active (Some compiled)) in
      do@ set_published (Some snapshot) in
      eng_ret committed
  end.

Definition authority_snapshot : Eng ConfigurationError Snapshot := fun w =>
  (ok_or (wo_published w) (ConfigurationUnavailable NothingPublished), w).

Definition authority_status (sources : SourceSet) : Eng ConfigurationError ConfigurationStatus :=
  let@ pointer := read_pointer in
  eng_ret match pointer_active pointer with
          | None => Uninitialized
          | Some active =>
              let source_digest := sources_digest sources in
              if bool_decide (source_digest = active_source_set_digest active)
              then StatusActive active else Drifted active source_digest
          end.

(** [publish] of the daemon, after the source file is read. *)
Definition bootstrap_command (epoch : string) (digest : Digest) : Command := {|
  cmd_epoch := epoch; cmd_id := "bootstrap-" +:+ to_hex digest; cmd_request_hash := digest_bytes digest;
  cmd_event_type := "configuration.activated" |}.

Definition publish (name text : string) : Eng ConfigurationError ConfigurationStatus :=
  let sources := sources_single name text in
  let@ loaded := authority_load sources in
  match loaded with
  | Uninitialized =>
      let@ epoch := eng_map_err ConfigurationStore (eng_read slots (fun _ => read_restore_generation)) in
      do@ authority_activate (bootstrap_command epoch (sources_digest sources)) sources in
      authority_load sources
  | _ => eng_ret loaded
  end.
End Authority.

(** ** What compiles can be stored *)

Lemma agent_references_value_wf l :
  (∀ r, r ∈ l → reference_guarantees r) → forallb wf_reference l = true → wf_value (agent_references_value l) = true.
Proof.
  intros Hl Hw. unfold agent_references_value. apply wf_array_map. intros r Hr%elem_of_sort_by.
  apply agent_value_wf; [by apply Hl|]. by eapply forallb_True in Hw.
Qed.

Lemma profile_value_wf p : wf_profile p = true → wf_value (sandbox_profile_value p) = true.
Proof.
  unfold wf_profile, sandbox_profile_value. intros H. split_andb.
  wf_parts; [by destruct (sp_isolation_class p)|by apply wf_set_strings|by destruct (sp_network_mode p)].
Qed.

Lemma compile_wf source c : compile source = Ok c → wf_compiled c = true.
Proof.
  intros Hc%compile_Ok. apply forallb_True. intros p Hp. unfold component_values in Hp.
  destruct Hc as [_ _ Hpol _ [_ Hpin] [_ Hexc] _ _ _ _ _ _ _ _ _ Hrules Haz Ha Hr Hx He Hctx].
  unfold wf_routing, wf_execution in Hr, Hx. split_andb.
  repeat match goal with H : forallb _ _ = true |- _ => rewrite forallb_True in H end.
  repeat (apply elem_of_cons in Hp as [->|Hp]; cbn [snd]); [..|by apply not_elem_of_nil in Hp];
    unfold component_value, routing_component, execution_component, authorization_component.
  - apply agents_value_wf. by apply forallb_True.
  - wf_parts; [|apply agent_references_value_wf; [done|by apply forallb_True]..].
    match goal with H : _ ∈ sorted_policies _ |- _ => apply elem_of_sort_by in H end. auto using route_policy_value_wf.
  - wf_parts; auto using backend_value_wf, profile_value_wf.
  - by apply evaluators_value_wf.
  - by apply context_value_wf.
  - wf_parts; auto using version_wf, rule_value_wf.
Qed.

(** ** What the accesses do to the configuration *)

Definition configuration_tables : list string :=
  ["configuration_components"; "configuration_revisions"; "active_configuration"].

(** Nothing is activated or republished. *)
Record undisturbed (w w' : World) : Prop := {
  un_published : wo_published w' = wo_published w;
  un_rows : ∀ t, t ∈ configuration_tables → rows (wo_db w') t = rows (wo_db w) t;
  un_valid : valid MIGRATIONS (wo_db w) → valid MIGRATIONS (wo_db w')
}.

#[export] Instance undisturbed_preorder : PreOrder undisturbed.
Proof.
  split; [by intros w; split|]. intros x y z [P1 R1 V1] [P2 R2 V2].
  split; [congruence|intros t Ht; by rewrite R2, R1|auto].
Qed.

Lemma read_row_same {A} db db' table cols p (decode : Row → Result A SqliteError) :
  rows db' table = rows db table →
  read_row MIGRATIONS db' table cols p decode = read_row MIGRATIONS db table cols p decode.
Proof. intros Hr. unfold read_row, select. by rewrite Hr. Qed.

Lemma for_each_ext {A E} (f g : A → Result unit E) l : (∀ a, f a = g a) → for_each f l = for_each g l.
Proof. intros Hfg. induction l as [|a l IH]; cbn; [done|]. by rewrite Hfg, IH. Qed.

Lemma pointer_same `{Sha256} db db' :
  (∀ t, t ∈ configuration_tables → rows db' t = rows db t) →
  configuration_pointer MIGRATIONS db' = configuration_pointer MIGRATIONS db.
Proof.
  intros Hr. unfold configuration_pointer. rewrite (read_row_same db) by (apply Hr; unfold configuration_tables; elem).
  destruct (read_row _ _ "active_configuration" _ _ _) as [[[n [s|]]|]|]; try done. cbn. unfold read_revision_row.
  rewrite (read_row_same db) by (apply Hr; unfold configuration_tables; elem).
  repeat match goal with
  | |- try_bind ?x _ = try_bind ?x _ => destruct x; cbn [try_bind]; [|done]
  | |- try_bind (try_bind ?x _) _ = try_bind (try_bind ?x _) _ => destruct x; cbn [try_bind]; [|done]
  | |- context [if ?b then _ else _] => destruct b; [done|]
  end.
  by rewrite (for_each_ext _ (fun p => verify_component MIGRATIONS db p.1 p.2))
    by (intros p; unfold verify_component; by rewrite (read_row_same db) by (apply Hr; unfold configuration_tables; elem)).
Qed.

(** A command that was not executed leaves the database. *)
Lemma not_executed {A} d amb c (m : Tx A) conn r conn' :
  execute_command MIGRATIONS d amb c m conn = (r, conn') → (∀ v cur, r ≠ Ok (Executed v cur)) →
  conn_db conn' = conn_db conn.
Proof.
  unfold execute_command. intros Hx Hne. pose proof (run_spec d (execute MIGRATIONS amb c m) conn) as Hr. rewrite Hx in Hr.
  destruct r as [[v cur|cur t]|e]; [by destruct (Hne v cur)| |done].
  destruct Hr as (_ & _ & w & Hw & _ & ->). unfold execute in Hw. tx_step Hw as E. tx_step Hw as E0.
  assert (w0 = {| w_db := conn_db conn; w_failed := false |}) as ->.
  { clear Hw. unfold fence_epoch in E. tx_step E as E1. apply expect_row_Ok, query_optional_Ok in E1 as [-> _].
    destruct (String.eqb _ _); [by apply tx_ret_Ok in E as [_ ->]|done]. }
  apply query_optional_Ok in E0 as [-> _]. destruct a0 as [entry|].
  { destruct (negb _); [done|]. by apply tx_ret_Ok in Hw as [_ ->]. }
  do 4 tx_step Hw. by apply tx_ret_Ok in Hw as [? _].
Qed.

(** Configurations are activated and published through the authority only, by calls
    that do not overlap. *)
Definition sole_authority (slots : nat → Slot) : Prop :=
  ∀ i, slot_republish (slots i) = None ∧
    ∀ q, q ∈ slot_before (slots i) → ∀ compiled source expected, rq_operation q ≠ OpActivate compiled source expected.

Section Barrier.
Context `{Sha256}.
Variable slots : nat → Slot.

Hypothesis others : sole_authority slots.

Definition same_configuration (db db' : Database) : Prop :=
  (∀ t, t ∈ configuration_tables → rows db' t = rows db t) ∧ (valid MIGRATIONS db → valid MIGRATIONS db').

#[local] Instance same_configuration_preorder : PreOrder same_configuration.
Proof. split; [by split|]. intros x y z [R1 V1] [R2 V2]. split; [intros t Ht; by rewrite R2, R1|auto]. Qed.

Lemma other_same q conn :
  (∀ compiled source expected, rq_operation q ≠ OpActivate compiled source expected) →
  same_configuration (conn_db conn) (conn_db (serve q conn).2).
Proof.
  intros Hq. split; [|intros Hv; by destruct (serve_advance q conn Hv)]. intros t Ht.
  unfold configuration_tables in Ht. apply serve_footprint.
  - set_unfold in Ht. destruct (rq_operation q); cbn [footprint]; unfold journal; try (set_unfold; naive_solver); by destruct (Hq compiled source expected).
  - unfold kernel_tables. set_solver.
Qed.

Lemma interfere_undisturbed w : undisturbed w (interfere slots w).2.
Proof.
  destruct (interfere_on_db same_configuration slots) with (w := w) as [Hr Hv].
  - intros i q conn Hq. by apply other_same, (others i).
  - split; [|done..]. unfold interfere. cbn. by rewrite (proj1 (others _)).
Qed.

Lemma read_undisturbed {A} (q : Ambient → Database → Result A StoreError) w :
  undisturbed w (eng_read slots q w).2.
Proof.
  unfold eng_read. pose proof (interfere_undisturbed w) as Hi. destruct (interfere slots w) as [s w1].
  by destruct (slot_fault s).
Qed.

Lemma read_pointer_reads w r w1 :
  read_pointer slots w = (r, w1) →
  undisturbed w w1 ∧ ∀ p, r = Ok p → configuration_pointer MIGRATIONS (wo_db w1) = Ok p.
Proof.
  intros Hx. pose proof (read_undisturbed (fun _ => configuration_pointer MIGRATIONS) w) as Hu.
  unfold read_pointer, eng_map_err in Hx. unfold eng_read in *. destruct (interfere slots w) as [s w2].
  destruct (slot_fault s); [by injection Hx as <- <-|].
  destruct (configuration_pointer _ _) as [p|e] eqn:Ep; injection Hx as <- <-; (split; [exact Hu|naive_solver]).
Qed.

(** The published snapshot is the durable revision, with its own semantics. *)
Definition barrier (w : World) : Prop :=
  ∀ snap, wo_published w = Some snap →
    (∃ n, configuration_pointer MIGRATIONS (wo_db w) = Ok {| pointer_active := Some (snap_active snap); pointer_revision := n |}) ∧
    ∀ compiled, snap_compiled snap = Some compiled → revision_digest compiled = active_content_digest (snap_active snap).

Record settled (w : World) : Prop := {
  st_valid : valid MIGRATIONS (wo_db w);
  st_components : components_sound (wo_db w);
  st_barrier : barrier w
}.

Lemma undisturbed_settled w w' : undisturbed w w' → settled w → settled w'.
Proof.
  intros [Hp Hr Hv] [V C B]. split; [auto| |].
  - intros r. rewrite Hr by (unfold configuration_tables; elem). apply C.
  - intros snap. rewrite Hp. intros Hs. destruct (B snap Hs) as [[n Hn] Hc]. split; [|done]. exists n.
    by rewrite (pointer_same (wo_db w)).
Qed.

Lemma snapshot_new_Ok active compiled snap :
  snapshot_new active compiled = Ok snap →
  snap = {| snap_active := active; snap_compiled := compiled |} ∧
  ∀ c, compiled = Some c → revision_digest c = active_content_digest active.
Proof.
  unfold snapshot_new. destruct compiled as [c|]; [|by intros [= <-]]. case_bool_decide; [|done]. naive_solver.
Qed.

(** Publishing the pointer that was read. *)
Lemma publish_settled w active compiled snap n :
  settled w → configuration_pointer MIGRATIONS (wo_db w) = Ok {| pointer_active := Some active; pointer_revision := n |} →
  snapshot_new active compiled = Ok snap → settled (set_published (Some snap) w).2.
Proof.
  intros [V C _] Hp [-> Hd]%snapshot_new_Ok. split; [done|done|]. intros s [= <-]. split; [by exists n|exact Hd].
Qed.

(** A pointer with an active revision, as read. *)
Lemma pointer_eta p active :
  pointer_active p = Some active → p = {| pointer_active := Some active; pointer_revision := pointer_revision p |}.
Proof. destruct p. by intros [= ->]. Qed.

Lemma recovered_some sources active c :
  recovered sources active = Some c → revision_digest c = active_content_digest active.
Proof. unfold recovered. destruct (sources_compile sources); [|done]. case_bool_decide; naive_solver. Qed.

Lemma recovered_snapshot sources active :
  snapshot_new active (recovered sources active) =
  Ok {| snap_active := active; snap_compiled := recovered sources active |}.
Proof.
  unfold snapshot_new. destruct (recovered sources active) as [c|] eqn:E; [|done].
  by rewrite bool_decide_eq_true_2 by by eapply recovered_some.
Qed.

(** What [authority_load] does, on every path. *)
Lemma load_spec sources w r w' :
  authority_load slots sources w = (r, w') →
  same_configuration (wo_db w) (wo_db w') ∧
  match r with
  | Ok Uninitialized => (∃ n, configuration_pointer MIGRATIONS (wo_db w') = Ok {| pointer_active := None; pointer_revision := n |}) ∧
      wo_published w' = None
  | Ok status => ∃ active n, status_active status = Some active ∧
      configuration_pointer MIGRATIONS (wo_db w') = Ok {| pointer_active := Some active; pointer_revision := n |} ∧
      wo_published w' = Some {| snap_active := active; snap_compiled := recovered sources active |}
  | Err _ => wo_published w' = wo_published w
  end.
Proof.
  intros Hx. unfold authority_load, eng_bind in Hx. destruct (read_pointer slots w) as [r1 w1] eqn:Er.
  destruct (read_pointer_reads _ _ _ Er) as [[Hp Hr Hv] Hok].
  destruct r1 as [p|e]; [|by injection Hx as <- <-]. specialize (Hok p eq_refl).
  destruct (pointer_active p) as [active|] eqn:Ea.
  - rewrite (pointer_eta _ _ Ea) in Hok. unfold eng_try in Hx. rewrite recovered_snapshot in Hx.
    injection Hx as <- <-. split; [done|]. destruct (_ || _); exists active, (pointer_revision p); done.
  - injection Hx as <- <-. split; [done|]. split; [|done]. destruct p. cbn in Ea. subst. eauto.
Qed.

Lemma load_settled sources w : settled w → settled (authority_load slots sources w).2.
Proof.
  intros [V C B]. destruct (authority_load slots sources w) as [r w'] eqn:Hx.
  apply load_spec in Hx as [[Hr Hv] Hs]. split; [auto| |]; cbn [snd].
  - intros x. rewrite Hr by (unfold configuration_tables; elem). apply C.
  - intros snap Hsnap. destruct r as [[| |]|].
    1: by destruct Hs as [_ Hs]; rewrite Hs in Hsnap.
    1,2: destruct Hs as (act & n & _ & Hptr & Hpub); rewrite Hpub in Hsnap; injection Hsnap as <-;
      split; [by exists n|apply recovered_some].
    rewrite Hs in Hsnap. destruct (B snap Hsnap) as [[n Hn] Hc]. split; [|done]. exists n. by rewrite (pointer_same (wo_db w)).
Qed.

(** The command that activates. *)
Lemma activation_command c compiled source expected w r w' :
  settled w → wf_compiled compiled = true → wf_digest source = true →
  eng_command slots c (fun amb => write_activation MIGRATIONS amb compiled source expected) w = (r, w') →
  wo_published w' = wo_published w ∧
  match r with
  | Ok (Executed act _) =>
      valid MIGRATIONS (wo_db w') ∧ components_sound (wo_db w') ∧ active_content_digest act = revision_digest compiled ∧
      (configuration_pointer MIGRATIONS (wo_db w') = Ok {| pointer_active := Some act; pointer_revision := expected + 1 |} ∨
       component_clash (wo_db w') compiled)
  | _ => undisturbed w w'
  end.
Proof.
  intros Hs Hwf Hwd Hx.
  assert (keeps advances (eng_command slots c
    (fun amb => write_activation MIGRATIONS amb compiled source expected))) as Hadv
    by (by apply (eng_command_advances slots c _ (OpActivate compiled source expected))).
  specialize (Hadv w). rewrite Hx in Hadv. cbn [snd] in Hadv.
  unfold eng_command in Hx. pose proof (interfere_undisturbed w) as Hi. destruct (interfere slots w) as [s w1].
  cbn [snd] in Hi. destruct (undisturbed_settled _ _ Hi Hs) as [V1 C1 _].
  destruct (execute_command _ _ _ _ _ _) as [res conn] eqn:Ex. injection Hx as <- <-. cbn.
  split; [apply Hi|]. destruct res as [[act cur|cur t]|e].
  - destruct (activation_committed _ _ _ _ _ _ _ _ _ _ V1 C1 Hwf Hwd Ex) as (Hp & Hd & _ & Hc & _).
    split_and!; [|exact Hc|exact Hd|exact Hp]. apply Hadv, Hs.
  - etrans; [exact Hi|]. apply not_executed in Ex; [|done]. unfold with_conn. split; [done|..]; cbn; unfold wo_db; cbn; by rewrite Ex.
  - etrans; [exact Hi|]. apply not_executed in Ex; [|done]. unfold with_conn. split; [done|..]; cbn; unfold wo_db; cbn; by rewrite Ex.
Qed.

Lemma sources_digest_wf sources : wf_digest (sources_digest sources) = true.
Proof. apply digest_of_wf. Qed.

Lemma sources_compile_wf sources c : sources_compile sources = Ok c → wf_compiled c = true.
Proof. unfold sources_compile. intros (f & _ & Hc)%try_bind_Ok. by eapply compile_wf. Qed.

(** What [authority_activate] does, on every path. *)
Lemma activate_spec c sources w r w' :
  settled w → authority_activate slots c sources w = (r, w') →
  (settled w' ∨ ∃ compiled, sources_compile sources = Ok compiled ∧ component_clash (wo_db w') compiled) ∧
  match r with
  | Ok (Executed act _) => ∃ compiled, sources_compile sources = Ok compiled ∧
      wo_published w' = Some {| snap_active := act; snap_compiled := Some compiled |}
  | Ok (Replayed _ _) => same_configuration (wo_db w) (wo_db w')
  | Err _ => undisturbed w w'
  end.
Proof.
  intros Hs Hx. unfold authority_activate, eng_bind at 1 in Hx. unfold eng_map_err at 1, eng_try at 1 in Hx.
  destruct (sources_compile sources) as [compiled|e] eqn:Ec; [|injection Hx as <- <-; split; [by left|done]].
  unfold eng_bind at 1 in Hx. destruct (read_pointer slots w) as [r1 w1] eqn:Er.
  destruct (read_pointer_reads _ _ _ Er) as [U1 _]. pose proof (undisturbed_settled _ _ U1 Hs) as Hs1.
  destruct r1 as [p|e]; [|injection Hx as <- <-; split; [by left|done]].
  unfold eng_bind at 1, eng_map_err at 1 in Hx.
  destruct (eng_command slots c _ w1) as [r2 w2] eqn:Ex.
  destruct (activation_command _ _ _ _ _ _ _ Hs1 (sources_compile_wf _ _ Ec) (sources_digest_wf sources) Ex) as [P2 H2].
  destruct r2 as [[act cur|cur t]|e].
  - destruct H2 as (V2 & C2 & Hd & Hp). unfold eng_bind, eng_ret, eng_try in Hx. unfold snapshot_new in Hx.
    rewrite bool_decide_eq_true_2 in Hx by done. injection Hx as <- <-. split; [|by exists compiled].
    destruct Hp as [Hp|Hc]; [left|right; by exists compiled]. split; [done|done|]. intros snap [= <-]. split; [by exists (pointer_revision p + 1)%Z|].
    by intros c' [= <-].
  - pose proof (undisturbed_settled _ _ H2 Hs1) as Hs2. unfold eng_bind at 1 in Hx. unfold eng_bind at 1 in Hx.
    destruct (read_pointer slots w2) as [r3 w3] eqn:E3. destruct (read_pointer_reads _ _ _ E3) as [U3 Hok].
    pose proof (undisturbed_settled _ _ U3 Hs2) as Hs3. assert (undisturbed w w3) as U by (by etrans; [|etrans]).
    destruct r3 as [p3|e]; [|injection Hx as <- <-; split; [by left|done]]. unfold eng_ret at 1 in Hx. specialize (Hok p3 eq_refl).
    destruct (pointer_active p3) as [active|] eqn:Ea; [|injection Hx as <- <-; split; [by left|split; apply U]].
    unfold eng_bind, eng_try in Hx. destruct (snapshot_new active (Some compiled)) as [snap|e] eqn:En.
    + injection Hx as <- <-. split; [left|split; apply U].
      rewrite (pointer_eta _ _ Ea) in Hok. by eapply publish_settled.
    + injection Hx as <- <-. split; [by left|exact U].
  - injection Hx as <- <-. assert (undisturbed w w2) as U by by etrans. split; [|exact U]. left. by eapply undisturbed_settled.
Qed.
End Barrier.

(** ** Claims *)

(** The calls on one authority, in the order they take its lock. *)
Inductive AuthorityCall : Type :=
| CallLoad (sources : SourceSet)
| CallActivate (c : Command) (sources : SourceSet)
| CallStatus (sources : SourceSet).

Definition authority_call `{Sha256} (slots : nat → Slot) (call : AuthorityCall) (w : World) : World :=
  match call with
  | CallLoad sources => (authority_load slots sources w).2
  | CallActivate c sources => (authority_activate slots c sources w).2
  | CallStatus sources => (authority_status slots sources w).2
  end.

Definition authority_calls `{Sha256} (slots : nat → Slot) (calls : list AuthorityCall) (w : World) : World :=
  fold_left (fun w call => authority_call slots call w) calls w.

Lemma authority_calls_app `{Sha256} slots l1 l2 w :
  authority_calls slots (l1 ++ l2) w = authority_calls slots l2 (authority_calls slots l1 w).
Proof. apply fold_left_app. Qed.

(** One of the activations among the calls stored a component whose text collides
    with a component text stored under the same digest. *)
Definition activation_clash `{Sha256} (slots : nat → Slot) (calls : list AuthorityCall) (w : World) : Prop :=
  ∃ before c sources after compiled, calls = before ++ CallActivate c sources :: after ∧
    sources_compile sources = Ok compiled ∧
    component_clash (wo_db (authority_calls slots (before ++ [CallActivate c sources]) w)) compiled.

Lemma authority_call_settled `{Sha256} slots call w :
  sole_authority slots → settled w →
  settled (authority_call slots call w) ∨
  ∃ c sources compiled, call = CallActivate c sources ∧ sources_compile sources = Ok compiled ∧
    component_clash (wo_db (authority_call slots call w)) compiled.
Proof.
  intros Ho Hs. destruct call as [sources|c sources|sources]; cbn [authority_call].
  - left. by apply load_settled.
  - destruct (authority_activate slots c sources w) as [r w'] eqn:Ex.
    destruct (activate_spec slots Ho _ _ _ _ _ Hs Ex) as [[?|(compiled & ? & ?)] _]; [by left|].
    right. by exists c, sources, compiled.
  - left. unfold authority_status, eng_bind. destruct (read_pointer slots w) as [r w1] eqn:Er.
    destruct (read_pointer_reads slots Ho _ _ _ Er) as [U _]. destruct r; by eapply undisturbed_settled.
Qed.

Lemma authority_calls_settled `{Sha256} slots calls w :
  sole_authority slots → settled w → settled (authority_calls slots calls w) ∨ activation_clash slots calls w.
Proof.
  intros Ho Hw. induction calls as [|call calls IH] using rev_ind; [by left|].
  rewrite authority_calls_app. cbn [authority_calls fold_left]. destruct IH as [Hs|(b & c & s & a & x & -> & Hx & Hc)].
  - destruct (authority_call_settled slots call _ Ho Hs) as [Hs'|(c & s & x & -> & Hx & Hc)]; [by left|right].
    exists calls, c, s, [], x. split_and!; [done|done|]. by rewrite authority_calls_app.
  - right. exists b, c, s, (a ++ [call]), x. split_and!; [|done|done]. by rewrite <-app_assoc.
Qed.


(** Activation is all or nothing. An activation that executed has published
    exactly the revision it committed with the semantics its source compiles to: the
    check that guards publication never refuses it. One that failed - the candidate
    does not compile, the store refuses, the connection breaks, the replayed command
    is not the active revision - has changed neither the stored configuration nor
    the published snapshot, and a replay has changed nothing stored. *)
Theorem activation_all_or_nothing `{Sha256} slots c sources w r w'
    (Hvalid : valid MIGRATIONS (wo_db w)) (Hcomponents : components_sound (wo_db w))
    (Hbarrier : barrier w) (Hothers : sole_authority slots)
    (Hx : authority_activate slots c sources w = (r, w')) :
  match r with
  | Ok (Executed act _) => ∃ compiled, sources_compile sources = Ok compiled ∧
      wo_published w' = Some {| snap_active := act; snap_compiled := Some compiled |}
  | Ok (Replayed _ _) => ∀ t, t ∈ configuration_tables → rows (wo_db w') t = rows (wo_db w) t
  | Err _ => wo_published w' = wo_published w ∧
      ∀ t, t ∈ configuration_tables → rows (wo_db w') t = rows (wo_db w) t
  end.
Proof.
  assert (settled w) as Hs by by split. destruct (activate_spec slots Hothers _ _ _ _ _ Hs Hx) as [_ Hr].
  destruct r as [[act cur|cur t]|e]; [done|apply Hr|split; apply Hr].
Qed.

(** A restart is not a deployment. When the database names an active
    configuration, starting the daemon with any configuration file whatever leaves
    every stored configuration as it is, and when it succeeds reports and publishes
    that active revision; the file's semantics are published exactly when the file
    compiles to that revision. *)
Theorem restart_never_deploys `{Sha256} slots name text w active n r w'
    (Hactive : configuration_pointer MIGRATIONS (wo_db w) = Ok {| pointer_active := Some active; pointer_revision := n |})
    (Hothers : sole_authority slots) (Hx : publish slots name text w = (r, w')) :
  (∀ t, t ∈ configuration_tables → rows (wo_db w') t = rows (wo_db w) t) ∧
  ∀ status, r = Ok status → status_active status = Some active ∧
    ∃ compiled, wo_published w' = Some {| snap_active := active; snap_compiled := compiled |} ∧
      ∀ c, compiled = Some c ↔ compile text = Ok c ∧ revision_digest c = active_content_digest active.
Proof.
  unfold publish, eng_bind in Hx. destruct (authority_load slots _ w) as [r1 w1] eqn:El.
  apply (load_spec slots Hothers) in El as [[Hr _] Hs].
  rewrite <-(pointer_same _ (wo_db w1) Hr) in Hactive.
  assert (∀ c, recovered (sources_single name text) active = Some c ↔
    compile text = Ok c ∧ revision_digest c = active_content_digest active) as Hrec.
  { intros c. unfold recovered, sources_compile, sources_single. cbn.
    destruct (compile text) as [c'|]; [case_bool_decide|]; naive_solver. }
  destruct r1 as [[|act|act d]|e].
  - destruct Hs as [[m Hm] _]. by rewrite Hactive in Hm.
  - injection Hx as <- <-. split; [done|]. intros st [= <-]. destruct Hs as (act' & m & [= ->] & Hm & Hp).
    rewrite Hactive in Hm. injection Hm as -> ->. eauto.
  - injection Hx as <- <-. split; [done|]. intros st [= <-]. destruct Hs as (act' & m & [= ->] & Hm & Hp).
    rewrite Hactive in Hm. injection Hm as -> ->. eauto.
  - injection Hx as <- <-. by split.
Qed.
