(* ===== verification/EnginePlanning.v ===== *)
(** * From an operator's Goal to a Ready Task
    ([pantheon-engine/src/planning.rs], [pantheon-engine/src/operator/goals.rs])

    Creating a Goal is three commands whose identities are derived from the
    operator's own, so that the same request can be repeated after any failure. *)

From Stdlib Require Import ZArith Ascii Lia.
From S2P Require Import Prelude Utf8 Canonical Parse ParseFacts Digest Goal Task Proposal Validate ConfigModel Sql Schema Transaction Command StoreBase StorePlanning StoreConfiguration StoreOperator StoreLaws StoreHistory StoreFrames EngineBase Operator.

(** ** The planning controller *)

Inductive PlanningError : Type :=
| PlanInvalid (e : PlanError)
| PlanStore (e : StoreError)
| PlanConfiguration (detail : Message).

Record PlanningContext : Type := {
  ctx_goal : GoalSpec;
  ctx_goal_revision : Z;
  ctx_graph_revision : Z;
  ctx_configuration_activation_sequence : Z;
  ctx_evaluator_registry_digest : Digest;
  ctx_evaluators : RegistryResolver
}.

Definition unusable {A} (what : string) (values : list string) : Eng PlanningError A :=
  eng_err (PlanConfiguration (message what values)).

Section Planning.
Context `{Sha256}.
Variable slots : nat → Slot.

Definition plan_read {A} (q : Database → Result A StoreError) : Eng PlanningError A :=
  eng_map_err PlanStore (eng_read slots (fun _ => q)).

(** An optional read that planning cannot do without. *)
Definition plan_need {A} (q : Database → Result (option A) StoreError) (what : string) (values : list string) :
    Eng PlanningError A :=
  let@ found := plan_read q in
  eng_some found (PlanConfiguration (message what values)).

Definition planning_context (goal_id : string) : Eng PlanningError PlanningContext :=
  let@ goal := plan_need (fun db => goal MIGRATIONS db goal_id) "goal does not exist" [goal_id] in
  let@ graph := plan_need (fun db => task_graph MIGRATIONS db goal_id) "goal has no task graph" [goal_id] in
  let@ pointer := plan_read (configuration_pointer MIGRATIONS) in
  let@ active := eng_some (pointer_active pointer) (PlanConfiguration (message "no active configuration" [])) in
  let@ component := plan_need active_evaluator_component_json
    "active configuration has no evaluators" [] in
  let@ evaluators := eng_try (map_err (fun _ => PlanConfiguration (message "evaluators cannot be read" []))
    (registry_from_canonical_json component)) in
  let@ stored := plan_need (fun db => goal_revision_json MIGRATIONS db goal_id (goal_record_current_revision goal))
    "goal revision is not stored" [goal_id] in
  let@ spec := eng_try (map_err (fun _ => PlanConfiguration (message "goal cannot be read" [goal_id]))
    (goal_from_canonical_json stored)) in
  eng_ret {| ctx_goal := spec; ctx_goal_revision := goal_record_current_revision goal;
             ctx_graph_revision := graph_record_revision graph;
             ctx_configuration_activation_sequence := active_activation_sequence active;
             ctx_evaluator_registry_digest := cd_evaluator_registry (active_components active);
             ctx_evaluators := evaluators |}.

Definition controller_create_goal (c : Command) (goal_id : string) (spec : GoalSpec) :
    Eng PlanningError (Committed GoalRecord) :=
  eng_map_err PlanStore (eng_command slots c (fun amb => create_goal MIGRATIONS amb goal_id spec)).

Definition planning_input (goal_id : string) (context : PlanningContext) : PlanningInput :=
  {| pi_goal_id := goal_id; pi_goal_revision := ctx_goal_revision context; pi_goal := ctx_goal context;
     pi_expected_graph_revision := ctx_graph_revision context;
     pi_configuration_activation_sequence := ctx_configuration_activation_sequence context;
     pi_trigger := Initial |}.

Definition controller_plan (c : Command) (operation_id goal_id : string) :
    Eng PlanningError (Committed PlanningOperationRecord) :=
  let@ context := planning_context goal_id in
  let input := planning_input goal_id context in
  let proposal := plan input in
  let canonical := to_canonical_bytes (proposal_to_value proposal) in
  if negb (utf8_valid canonical) then unusable "proposal is not utf-8" []
  else
    eng_map_err PlanStore (eng_command slots c (fun amb => record_direct_planning MIGRATIONS amb
      {| decision_operation_id := operation_id; decision_goal_id := goal_id;
         decision_goal_revision := ctx_goal_revision context;
         decision_expected_graph_revision := ctx_graph_revision context;
         decision_configuration_activation_sequence := ctx_configuration_activation_sequence context;
         decision_planning_input_digest := planning_input_digest input;
         decision_trigger_kind := trigger_as_str Initial;
         decision_planner_implementation := PLANNER_IMPLEMENTATION;
         decision_planner_version := PLANNER_VERSION |}
      {| proposal_record_digest := proposal_digest proposal; proposal_record_canonical := canonical;
         proposal_record_normalization_provenance := "direct/v1" |})).

Definition controller_proposal (goal_id : string) : Eng PlanningError Proposal :=
  let@ context := planning_context goal_id in
  eng_ret (plan (planning_input goal_id context)).

Definition controller_validate (goal_id : string) (proposal : Proposal) : Eng PlanningError Materializable :=
  let@ context := planning_context goal_id in
  eng_try (map_err PlanInvalid (validate proposal
    {| au_goal := ctx_goal context; au_goal_id := goal_id; au_goal_revision := ctx_goal_revision context;
       au_evaluators := registry_resolver (ctx_evaluators context);
       au_evaluator_registry_digest := ctx_evaluator_registry_digest context;
       au_configuration_activation_sequence := ctx_configuration_activation_sequence context |})).

Definition controller_materialize (c : Command) (operation_id task_id goal_id : string) (proposal : Proposal) :
    Eng PlanningError (Committed MaterializedPlan) :=
  let@ plan := controller_validate goal_id proposal in
  eng_map_err PlanStore (eng_command slots c (fun amb => apply_plan MIGRATIONS amb operation_id task_id plan)).
End Planning.

(** ** Goals as an operator sees them *)

Record TaskView : Type := {
  tv_id : string;
  tv_phase : TaskPhase;
  tv_created_graph_revision : Z;
  tv_spec_digest : string
}.

Record GoalView : Type := {
  gv_id : string;
  gv_phase : GoalPhase;
  gv_goal_revision : Z;
  gv_revision : Z;
  gv_spec : GoalSpec;
  gv_tasks : list TaskView
}.

Record GoalSummary : Type := {
  gsu_id : string;
  gsu_phase : GoalPhase;
  gsu_goal_revision : Z;
  gsu_revision : Z
}.

Record GoalsPage : Type := { gp_goals : list GoalSummary; gp_snapshot_cursor : Cursor }.

Definition task_view (r : TaskRecord) : TaskView :=
  {| tv_id := task_record_id r; tv_phase := task_record_phase r;
     tv_created_graph_revision := task_record_created_graph_revision r;
     tv_spec_digest := to_hex (task_record_spec_digest r) |}.

Definition goal_summary (r : GoalRecord) : GoalSummary :=
  {| gsu_id := goal_record_id r; gsu_phase := goal_record_phase r;
     gsu_goal_revision := goal_record_current_revision r; gsu_revision := goal_record_revision r |}.

Definition operator_error_from_planning (e : PlanningError) : OperatorError :=
  match e with
  | PlanStore store => operator_error_from_store store
  | PlanInvalid detail => OpInvalid (OfPlan detail)
  | PlanConfiguration detail => NotReady (OfText detail)
  end.

Definition goal_view (detail : GoalDetail) : Result GoalView OperatorError :=
  let? spec := map_err (fun _ => Internal (OfText (message "goal cannot be read" [goal_record_id (gd_goal detail)])))
    (goal_from_canonical_json (gd_revision_json detail)) in
  Ok {| gv_id := goal_record_id (gd_goal detail); gv_phase := goal_record_phase (gd_goal detail);
        gv_goal_revision := goal_record_current_revision (gd_goal detail);
        gv_revision := goal_record_revision (gd_goal detail); gv_spec := spec;
        gv_tasks := map task_view (gd_tasks detail) |}.

Section Service.
Context `{Sha256}.
Variable slots : nat → Slot.

Definition service_goal (goal_id : string) : Eng OperatorError GoalView :=
  let@ detail := of_store (eng_read slots (fun _ db => goal_detail MIGRATIONS db goal_id)) in
  let@ detail := eng_some detail (NotFound "goal" goal_id) in
  eng_try (goal_view detail).

Definition service_goals : Eng OperatorError GoalsPage :=
  let@ snapshot := of_store (eng_read slots (fun _ db => goal_snapshot MIGRATIONS db)) in
  eng_ret {| gp_goals := map goal_summary (gs_goals snapshot); gp_snapshot_cursor := gs_cursor snapshot |}.

Definition of_planning {A} (m : Eng PlanningError A) : Eng OperatorError A :=
  eng_map_err operator_error_from_planning m.

Definition service_create_goal (c : CommandIdentity) (spec : GoalSpec) : Eng OperatorError GoalView :=
  let goal_id := derive_goal_id (ci_epoch c) (ci_id c) in
  let operation_id := derive_command_id (ci_epoch c) (ci_id c) "plan" in
  let task_id := derive_command_id (ci_epoch c) (ci_id c) "task" in
  do@ of_planning (controller_create_goal slots (identity_command (identity_step c "goal-create") "goal.created")
        goal_id spec) in
  do@ of_planning (controller_plan slots (identity_command (identity_step c "goal-plan") "planning.recorded")
        operation_id goal_id) in
  let@ proposal := of_planning (controller_proposal slots goal_id) in
  do@ of_planning (controller_materialize slots
        (identity_command (identity_step c "goal-materialize") "task.materialized")
        operation_id task_id goal_id proposal) in
  service_goal goal_id.

Definition service_cancel_goal (c : CommandIdentity) (goal_id : string) : Eng OperatorError GoalView :=
  let@ found := of_store (eng_read slots (fun _ db => goal MIGRATIONS db goal_id)) in
  do@ eng_some found (NotFound "goal" goal_id) in
  do@ of_store (eng_command slots (identity_command c "goal.cancel.requested")
        (fun _ => cancel_goal MIGRATIONS goal_id)) in
  service_goal goal_id.
End Service.

(** ** What a create-Goal request leaves *)

Lemma task_of_row_id g r rec : task_of_row g r = Ok rec → column r "id" = SText (task_record_id rec).
Proof.
  unfold task_of_row. intros (row & Hcols & Hdec)%try_bind_Ok.
  match type of Hcols with map_err _ ?x = _ => destruct x as [row'|] eqn:Hx; [|done] end.
  injection Hcols as ->. decode_inv Hx. apply try_bind_Ok in Hdec as (p' & _ & Hdec).
  apply try_bind_Ok in Hdec as (d' & _ & [= <-]). done.
Qed.

Section Retry.
Context `{Sha256}.
Variable identity : CommandIdentity.
Variable spec : GoalSpec.

Local Abbreviation goal_id := (derive_goal_id (ci_epoch identity) (ci_id identity)).
Local Abbreviation operation_id := (derive_command_id (ci_epoch identity) (ci_id identity) "plan").
Local Abbreviation task_id := (derive_command_id (ci_epoch identity) (ci_id identity) "task").
Local Abbreviation create_step := (identity_command (identity_step identity "goal-create") "goal.created").
Local Abbreviation plan_step := (identity_command (identity_step identity "goal-plan") "planning.recorded").
Local Abbreviation materialize_step :=
  (identity_command (identity_step identity "goal-materialize") "task.materialized").

Definition goal_stored (db : Database) : Prop :=
  (∃ r, r ∈ rows db "goals" ∧ column r "id" = SText goal_id ∧ column r "current_revision" = SInteger 1) ∧
  ∃ r, r ∈ rows db "goal_revisions" ∧ column r "goal_id" = SText goal_id ∧ column r "revision" = SInteger 1 ∧
    column r "canonical_json" = SText (canonical_json (goal_to_value spec)).

Definition task_stored (db : Database) : Prop :=
  ∃ r, r ∈ rows db "tasks" ∧ column r "id" = SText task_id ∧ column r "goal_id" = SText goal_id.

(** The recorded steps have left what they are for. *)
Record steps_sound (db : Database) : Prop := {
  ss_valid : valid MIGRATIONS db;
  ss_kernel : ∃ g e n, kernel db g e n;
  ss_goal : in_ledger db create_step → goal_stored db;
  ss_task : in_ledger db materialize_step → task_stored db
}.

(** A request that carries the identity of a step is that step: the same request
    sent again, possibly by several connections at once. *)
Definition own_step (q : Request) : Prop :=
  (cmd_epoch (rq_command q) = cmd_epoch create_step → cmd_id (rq_command q) = cmd_id create_step →
     plain_write (rq_operation q) = false → rq_operation q = OpCreateGoal goal_id spec) ∧
  (cmd_epoch (rq_command q) = cmd_epoch materialize_step → cmd_id (rq_command q) = cmd_id materialize_step →
     plain_write (rq_operation q) = false →
     ∃ plan, rq_operation q = OpApplyPlan operation_id task_id plan ∧ task_goal_id (mat_spec plan) = goal_id).

Lemma goal_stored_evolves db db' : evolves db db' → goal_stored db → goal_stored db'.
Proof.
  intros He [(r & Hr & Hid & Hcur) (v & Hv & Hv1 & Hv2 & Hv3)]. split.
  - destruct (frozen_row db db' "goals" _ r He eq_refl Hr) as (s & Hs & Hf). exists s.
    rewrite !Hf by elem. by split_and!.
  - exists v. split_and!; [by eapply kept_rows|done..].
Qed.

Lemma task_stored_evolves db db' : evolves db db' → task_stored db → task_stored db'.
Proof.
  intros He (r & Hr & Hid & Hg). destruct (frozen_row db db' "tasks" _ r He eq_refl Hr) as (s & Hs & Hf). exists s.
  rewrite !Hf by elem. by split_and!.
Qed.

Lemma drop_result_Ok {A} (m : Tx A) w u w' : drop_result m w = (Ok u, w') → ∃ a, m w = (Ok a, w').
Proof. unfold drop_result. intros (a & w1 & Hm & [_ ->]%tx_ret_Ok)%tx_bind_Ok. eauto. Qed.

Lemma created_stored d amb c conn v cur conn' :
  valid MIGRATIONS (conn_db conn) →
  execute_command MIGRATIONS d amb c (body amb (OpCreateGoal goal_id spec)) conn = (Ok (Executed v cur), conn') →
  goal_stored (conn_db conn').
Proof.
  intros Hv Hx. destruct (executed_body _ _ _ _ _ _ _ _ _ Hx) as (w & Hw & Hs). cbn [body] in Hw.
  apply drop_result_Ok in Hw as (rec & Hw). apply create_goal_Ok in Hw as (_ & _ & Hg & _ & Hr); [|done].
  apply row_of_Some in Hg as [Hg _]. split.
  - exists (list_to_map (goal_row amb goal_id)). rewrite (Hs "goals") by elem. split_and!; [done|reflexivity..].
  - exists (list_to_map (goal_revision_row amb goal_id spec)). rewrite (Hs "goal_revisions") by elem.
    split_and!; [|reflexivity..]. apply list_elem_of_In.
    eapply proj1, filter_In. rewrite Hr. by left.
Qed.

Lemma materialized_stored d amb c conn v cur conn' plan :
  valid MIGRATIONS (conn_db conn) → task_goal_id (mat_spec plan) = goal_id →
  execute_command MIGRATIONS d amb c (body amb (OpApplyPlan operation_id task_id plan)) conn =
    (Ok (Executed v cur), conn') →
  task_stored (conn_db conn').
Proof.
  intros Hv Hp Hx. destruct (executed_body _ _ _ _ _ _ _ _ _ Hx) as (w & Hw & Hs). cbn [body] in Hw.
  apply drop_result_Ok in Hw as (m & Hw). apply apply_plan_Ok in Hw as (gp & grr & opr & Hcur & [[_ Ht] _ _ _] & _); [|done].
  apply row_of_Some in Ht as [Ht _]. eexists. rewrite (Hs "tasks") by elem. split; [exact Ht|].
  split; [reflexivity|]. rewrite <-Hp. by rewrite (pc_spec _ _ _ _ _ _ _ _ Hcur).
Qed.

(** A step keeps the invariant, whoever sends it. *)
Lemma serve_steps_sound q conn :
  own_step q → steps_sound (conn_db conn) →
  steps_sound (conn_db (serve q conn).2) ∧ evolves (conn_db conn) (conn_db (serve q conn).2).
Proof.
  intros [Hown1 Hown2] [Hv (g & e & n & Hk) Hg Ht]. destruct (serve_advance q conn Hv) as [He Hv' Hk' _].
  destruct (Hk' _ _ _ Hk) as (n' & _ & Hkn). split; [|done]. split; [done|by exists g, e, n'| |].
  - intros Hin. destruct (serve_ledger q conn g e n _ Hk Hin) as [Hold|(Hp & Hep & Hid & v & cur & Hx)].
    + eapply goal_stored_evolves; [done|by apply Hg].
    + rewrite (Hown1 (eq_sym Hep) (eq_sym Hid) Hp) in Hx.
      exact (created_stored _ _ _ _ _ _ _ Hv Hx).
  - intros Hin. destruct (serve_ledger q conn g e n _ Hk Hin) as [Hold|(Hp & Hep & Hid & v & cur & Hx)].
    + eapply task_stored_evolves; [done|by apply Ht].
    + destruct (Hown2 (eq_sym Hep) (eq_sym Hid) Hp) as (plan & Ho & Hpl). rewrite Ho in Hx.
      exact (materialized_stored _ _ _ _ _ _ _ _ Hv Hpl Hx).
Qed.

Definition sound_step (db db' : Database) : Prop := steps_sound db → steps_sound db' ∧ evolves db db'.

#[local] Instance sound_step_preorder : PreOrder sound_step.
Proof.
  unfold sound_step. split; [by intros db Hs|]. intros x y z Hxy Hyz Hx. destruct (Hxy Hx) as [Hy Exy].
  destruct (Hyz Hy) as [Hz Eyz]. split; [done|by etrans].
Qed.

Section Controller.
Variable slots : nat → Slot.
Hypothesis others : ∀ i q, q ∈ slot_before (slots i) → own_step q.

Lemma others_sound i q conn :
  q ∈ slot_before (slots i) → sound_step (conn_db conn) (conn_db (serve q conn).2).
Proof. intros Hq Hs. by apply serve_steps_sound; [eapply others|]. Qed.

Lemma read_sound {A} (q : Ambient → Database → Result A StoreError) : keeps (on_db sound_step) (eng_read slots q).
Proof. apply eng_read_on_db; [apply _|apply others_sound]. Qed.

Lemma command_sound {A} c (m : Ambient → Tx A) o :
  plain_write o = false → (∀ amb, body amb o = drop_result (m amb)) →
  (∀ q, rq_command q = c → rq_operation q = o → own_step q) →
  keeps (on_db sound_step) (eng_command slots c m).
Proof.
  intros Hp Hb Hq. eapply eng_command_on_db; [apply _|apply others_sound|exact Hp|exact Hb|].
  intros q conn Hc Ho Hs. by apply serve_steps_sound; [apply Hq|].
Qed.

Lemma plan_need_sound {A} (q : Database → Result (option A) StoreError) what values :
  keeps (on_db sound_step) (plan_need slots q what values).
Proof. unfold plan_need, plan_read. solve_keeps. apply read_sound. Qed.

Lemma planning_context_sound g : keeps (on_db sound_step) (planning_context slots g).
Proof.
  unfold planning_context, plan_read. solve_keeps; try apply plan_need_sound. apply read_sound.
Qed.

(** Different steps have different identities. *)
Ltac steps_differ H := unfold derive_command_id in H; discriminate H.

Lemma create_step_own q :
  rq_command q = create_step → rq_operation q = OpCreateGoal goal_id spec → own_step q.
Proof.
  intros Hc Ho. unfold own_step. rewrite Hc, Ho. split; [done|]. intros _ Hid. steps_differ Hid.
Qed.

Lemma plan_step_own q d p :
  rq_command q = plan_step → rq_operation q = OpRecordPlanning d p → own_step q.
Proof.
  intros Hc Ho. unfold own_step. rewrite Hc, Ho. split; intros _ Hid; steps_differ Hid.
Qed.

Lemma materialize_step_own q plan :
  rq_command q = materialize_step → rq_operation q = OpApplyPlan operation_id task_id plan →
  task_goal_id (mat_spec plan) = goal_id → own_step q.
Proof.
  intros Hc Ho Hp. unfold own_step. rewrite Hc, Ho. split; [|eauto]. intros _ Hid. steps_differ Hid.
Qed.

Lemma validated_goal g proposal w plan w' :
  controller_validate slots g proposal w = (Ok plan, w') → task_goal_id (mat_spec plan) = g.
Proof.
  unfold controller_validate. intros Hx. eng_step Hx as Ec. apply eng_try_Ok in Hx as [Hx _].
  destruct (validate proposal _) as [m|] eqn:Ev; [|done]. injection Hx as ->.
  unfold validate in Ev. destruct (proposal_tasks proposal) as [|t [|]]; [done| |done].
  destruct (negb _); [done|]. by apply try_bind_Ok in Ev as (cs & _ & [= <-]).
Qed.

Lemma controller_create_sound :
  keeps (on_db sound_step) (controller_create_goal slots create_step goal_id spec).
Proof.
  apply keeps_map_err. apply (command_sound _ _ (OpCreateGoal goal_id spec)); [done|done|].
  intros q Hc Ho. by apply create_step_own.
Qed.

Lemma controller_plan_sound : keeps (on_db sound_step) (controller_plan slots plan_step operation_id goal_id).
Proof.
  unfold controller_plan. apply keeps_bind; [apply _|apply planning_context_sound|]. intros ctx.
  destruct (negb _); [apply keeps_err, _|]. apply keeps_map_err.
  eapply (command_sound _ _ (OpRecordPlanning _ _)); [done|done|]. intros q Hc Ho. by eapply plan_step_own.
Qed.

Lemma controller_materialize_sound proposal :
  keeps (on_db sound_step) (controller_materialize slots materialize_step operation_id task_id goal_id proposal).
Proof.
  intros w. unfold controller_materialize, eng_bind.
  assert (keeps (on_db sound_step) (controller_validate slots goal_id proposal)) as Hk.
  { unfold controller_validate. solve_keeps. apply planning_context_sound. }
  specialize (Hk w). destruct (controller_validate slots goal_id proposal w) as [[plan|e] w1] eqn:Ev; [|done].
  cbn in Hk. etrans; [exact Hk|]. revert w1 Ev Hk. intros w1 Ev _.
  enough (keeps (on_db sound_step) (eng_map_err PlanStore (eng_command slots materialize_step
    (fun amb => apply_plan MIGRATIONS amb operation_id task_id plan)))) as Hm by apply Hm.
  apply keeps_map_err. apply (command_sound _ _ (OpApplyPlan operation_id task_id plan)); [done|done|].
  intros q Hc Ho. eapply materialize_step_own; [done|done|]. by eapply validated_goal.
Qed.

Lemma service_create_sound : keeps (on_db sound_step) (service_create_goal slots identity spec).
Proof.
  unfold service_create_goal, of_planning.
  apply keeps_bind; [apply _|apply keeps_map_err, controller_create_sound|intros _].
  apply keeps_bind; [apply _|apply keeps_map_err, controller_plan_sound|intros _].
  apply keeps_bind; [apply _| |intros proposal].
  { apply keeps_map_err. unfold controller_proposal. solve_keeps. apply planning_context_sound. }
  apply keeps_bind; [apply _|apply keeps_map_err, controller_materialize_sound|intros _].
  unfold service_goal, of_store. solve_keeps. apply read_sound.
Qed.

(** A step that returned is recorded. *)
Lemma step_recorded {A} c (m : Ambient → Tx A) o w r w' :
  plain_write o = false → (∀ amb, body amb o = drop_result (m amb)) →
  steps_sound (wo_db w) → eng_command slots c m w = (Ok r, w') → in_ledger (wo_db w') c.
Proof.
  intros Hp Hb Hs Hx. unfold eng_command in Hx.
  pose proof (interfere_on_db sound_step slots others_sound w Hs) as Hs1.
  destruct (interfere slots w) as [s w1]. cbn in Hs1.
  destruct (execute_command _ _ _ _ _ _) as [res conn] eqn:Ex. injection Hx as -> <-.
  destruct Hs1 as [[_ (g & e & n & Hk) _ _] _]. eapply command_recorded; [exact Hk| |exact Ex].
  intros v a v' Hm. apply (command_respects_kernel (slot_ambient s) o Hp v tt v').
  rewrite Hb. unfold drop_result, tx_bind, tx_ret. by rewrite Hm.
Qed.

Definition shown (view : GoalView) : Prop :=
  gv_id view = goal_id ∧ gv_goal_revision view = 1%Z ∧ gv_spec view = spec ∧
  ∃ t, t ∈ gv_tasks view ∧ tv_id t = task_id.

Lemma first_revision_json db :
  valid MIGRATIONS db → goal_stored db →
  goal_revision_json MIGRATIONS db goal_id 1 = Ok (Some (canonical_json (goal_to_value spec))).
Proof.
  intros Hv [_ (r & Hr & Hg & Hn & Hj)]. unfold goal_revision_json.
  rewrite (read_row_eval _ _ _ _ _ _ goal_revisions_table) by done.
  set (p := fun r : Row => col_is "goal_id" (SText goal_id) r && col_is "revision" (SInteger 1) r).
  assert (length (List.filter p (rows db "goal_revisions")) ≤ 1) as Hle.
  { apply (unique_filter_le MIGRATIONS db "goal_revisions" goal_revisions_table (primary_key ["goal_id"; "revision"])
      p [SText goal_id; SInteger 1]); [done|done|cbn; set_solver|].
    intros x _ [Hx1 Hx2]%andb_true_iff. split; [done|]. apply col_is_true in Hx1 as [_ Hx1], Hx2 as [_ Hx2].
    unfold key_tuple. cbn. by rewrite Hx1, Hx2. }
  assert (r ∈ List.filter p (rows db "goal_revisions")) as Hin.
  { apply list_elem_of_In, filter_In. split; [by apply list_elem_of_In|]. unfold p.
    by rewrite andb_true_iff, !col_is_true. }
  destruct (List.filter p _) as [|x [|]]; [by apply not_elem_of_nil in Hin| |cbn in Hle; lia].
  apply list_elem_of_singleton in Hin as ->. cbn. unfold get_text. by rewrite Hj.
Qed.

Lemma stored_shown db detail view :
  wf_goal spec = true → valid MIGRATIONS db → goal_stored db → task_stored db →
  goal_detail MIGRATIONS db goal_id = Ok (Some detail) → goal_view detail = Ok view → shown view.
Proof.
  intros Hwf Hv Hgs (t & Ht & Htid & Htg) Hd Hview. pose proof (first_revision_json db Hv Hgs) as Hjson.
  destruct Hgs as [(r & Hr & Hid & Hcur) _].
  pose proof (row_of_unique MIGRATIONS db "goals" "id" goal_id r Hv Hr Hid) as Hrow.
  unfold goal_detail in Hd. apply try_bind_Ok in Hd as (head & Hhead & Hd).
  rewrite (read_row_eval _ _ _ _ _ _ goals_table) in Hhead by done. unfold row_of in Hrow.
  destruct (List.filter (col_is "id" _) (rows db "goals")) as [|r' l]; [done|]. injection Hrow as ->.
  destruct (decode_goal_head r) as [[[ph cr] rv]|] eqn:Dh; [|done]. cbn in Hhead. injection Hhead as <-.
  unfold decode_goal_head in Dh. decode_inv Dh.
  assert (cr = 1%Z) as -> by congruence.
  apply try_bind_Ok in Hd as (phase & _ & Hd). apply try_bind_Ok in Hd as (json & Hj & Hd).
  rewrite Hjson in Hj. injection Hj as <-. apply try_bind_Ok in Hd as (json & [= <-] & Hd).
  apply try_bind_Ok in Hd as (tasks & Htasks%collect_Ok & [= <-]).
  unfold goal_view in Hview. cbn [gd_goal gd_revision_json gd_tasks goal_record_id] in Hview.
  rewrite canonical_json_wf, goal_from_canonical in Hview by (done || by apply goal_to_value_wf).
  injection Hview as <-. split_and!; [done|done|done|]. cbn [gv_tasks].
  assert (t ∈ sort_by (text_order "id") (joined db "tasks" "goal_id" (SText goal_id))) as Hin.
  { apply elem_of_sort_by. apply list_elem_of_In, filter_In. split; [by apply list_elem_of_In|]. by apply col_is_text. }
  apply list_elem_of_lookup in Hin as (i & Hi). destruct (Forall2_lookup_l _ _ _ _ _ Htasks Hi) as (rec & Hrec & Hdec).
  exists (task_view rec). split; [by apply list_elem_of_fmap_2, (list_elem_of_lookup_2 _ i)|].
  apply task_of_row_id in Hdec. rewrite Htid in Hdec. by injection Hdec as ->.
Qed.

(** One stage of the request: it keeps the invariant and what was recorded. *)
Lemma stage {E A} (m : Eng E A) w a w' :
  keeps (on_db sound_step) m → steps_sound (wo_db w) → m w = (Ok a, w') →
  steps_sound (wo_db w') ∧ ∀ c, in_ledger (wo_db w) c → in_ledger (wo_db w') c.
Proof.
  intros Hm Hs Hx. destruct (Hm w Hs) as [Hs' He]. rewrite Hx in Hs', He. split; [done|].
  intros c. by apply in_ledger_evolves.
Qed.

Lemma service_create_shown w view w' :
  wf_goal spec = true → steps_sound (wo_db w) → service_create_goal slots identity spec w = (Ok view, w') →
  shown view ∧ in_ledger (wo_db w') create_step ∧ in_ledger (wo_db w') materialize_step.
Proof.
  intros Hwf Hs Hx. unfold service_create_goal, of_planning in Hx.
  eng_step Hx as E1. destruct (stage _ _ _ _ controller_create_sound Hs E1) as [Hs1 _].
  apply eng_map_err_Ok in E1.
  pose proof (step_recorded _ _ (OpCreateGoal goal_id spec) _ _ _ eq_refl (fun _ => eq_refl) Hs E1) as L1.
  eng_step Hx as E2. destruct (stage _ _ _ _ controller_plan_sound Hs1 E2) as [Hs2 K2].
  eng_step Hx as E3. assert (keeps (on_db sound_step) (controller_proposal slots goal_id)) as Hk
    by (unfold controller_proposal; solve_keeps; apply planning_context_sound).
  destruct (stage _ _ _ _ Hk Hs2 E3) as [Hs3 K3].
  eng_step Hx as E4. destruct (stage _ _ _ _ (controller_materialize_sound _) Hs3 E4) as [Hs4 K4].
  unfold controller_materialize in E4. eng_step E4 as E4v. apply eng_map_err_Ok in E4.
  assert (keeps (on_db sound_step) (controller_validate slots goal_id a1)) as Hkv
    by (unfold controller_validate; solve_keeps; apply planning_context_sound).
  destruct (stage _ _ _ _ Hkv Hs3 E4v) as [Hs3' _].
  pose proof (step_recorded _ _ (OpApplyPlan operation_id task_id _) _ _ _ eq_refl (fun _ => eq_refl) Hs3' E4) as L4.
  unfold service_goal in Hx. eng_step Hx as E5. destruct (stage _ _ _ _ (read_sound _) Hs4 E5) as [Hs5 K5].
  eng_step Hx as E6. apply eng_some_Ok in E6 as [-> ->]. apply eng_try_Ok in Hx as [Hview ->].
  destruct Hs5 as [Hv _ Hg Ht]. pose proof (K5 _ (K4 _ (K3 _ (K2 _ L1)))) as L1'.
  pose proof (K5 _ L4) as L4'. split; [|done]. refine (stored_shown _ _ _ Hwf Hv (Hg L1') (Ht L4') _ Hview).
  unfold eng_read in E5. destruct (interfere slots _) as [s ws]. destruct (slot_fault s); [done|].
  injection E5 as Hd Hw. by subst.
Qed.

(** The same request, sent again and again. *)
Fixpoint create_attempts (n : nat) (w : World) : list (Result GoalView OperatorError) * World :=
  match n with
  | O => ([], w)
  | S n' =>
      let (r, w1) := service_create_goal slots identity spec w in
      let (rs, w2) := create_attempts n' w1 in
      (r :: rs, w2)
  end.

Lemma create_attempts_shown n w rs w' :
  wf_goal spec = true → steps_sound (wo_db w) → create_attempts n w = (rs, w') →
  steps_sound (wo_db w') ∧ evolves (wo_db w) (wo_db w') ∧
  ∀ view, Ok view ∈ rs → shown view ∧ goal_stored (wo_db w') ∧ task_stored (wo_db w').
Proof.
  intros Hwf. revert w rs. induction n as [|n IH]; intros w rs Hs; cbn [create_attempts].
  { intros [= <- <-]. split_and!; [done|done|]. intros view Hin. by apply not_elem_of_nil in Hin. }
  destruct (service_create_goal slots identity spec w) as [r w1] eqn:Ec.
  destruct (service_create_sound w Hs) as [Hs1 E1]. rewrite Ec in Hs1, E1. cbn [snd] in Hs1, E1.
  destruct (create_attempts n w1) as [rs2 w2] eqn:Ea. intros [= <- <-].
  destruct (IH _ _ Hs1 Ea) as (Hs2 & E2 & Hall). split_and!; [done|by etrans|].
  intros view [Hr|Hin]%elem_of_cons; [subst r|by apply Hall].
  destruct (service_create_shown w view w1 Hwf Hs Ec) as (Hsh & L1 & L2). split; [done|].
  destruct Hs1 as [_ _ Hg Ht]. split; [eapply goal_stored_evolves; [exact E2|by apply Hg]|].
  eapply task_stored_evolves; [exact E2|by apply Ht].
Qed.
End Controller.
End Retry.

Lemma one_row db table kc k r `{!Keyed MIGRATIONS table kc} :
  valid MIGRATIONS db → r ∈ rows db table → column r kc = SText k →
  length (List.filter (col_is kc (SText k)) (rows db table)) = 1.
Proof.
  intros Hv Hr Hc%col_is_text. pose proof (filter_key_le MIGRATIONS db table kc (SText k) Hv) as Hle.
  assert (r ∈ List.filter (col_is kc (SText k)) (rows db table)) as Hin
    by (apply list_elem_of_In, filter_In; split; [by apply list_elem_of_In|done]).
  destruct (List.filter _ _) as [|x l]; [by apply not_elem_of_nil in Hin|]. cbn in *. lia.
Qed.

(** C8: Creating a Goal can be retried without harm. Send one create-Goal request any
    number of times, over any number of connections at once, with any other requests
    served in between and with any failures: whenever an answer comes back it shows
    the one Goal of that request, with the specification asked for, at its first
    revision, and with the Task planned for it; and afterwards the store holds exactly
    one Goal and one Task under the identities the request determines. *)
Theorem create_goal_exactly_once `{Sha256} slots identity spec attempts w g e n results w' :
  valid MIGRATIONS (wo_db w) → kernel (wo_db w) g e n → wf_goal spec = true →
  ~ in_ledger (wo_db w) (identity_command (identity_step identity "goal-create") "goal.created") →
  ~ in_ledger (wo_db w) (identity_command (identity_step identity "goal-materialize") "task.materialized") →
  (∀ i q, q ∈ slot_before (slots i) → own_step identity spec q) →
  create_attempts identity spec slots attempts w = (results, w') →
  ∀ view, Ok view ∈ results →
    shown identity spec view ∧
    length (List.filter (col_is "id" (SText (gv_id view))) (rows (wo_db w') "goals")) = 1 ∧
    length (List.filter (col_is "id" (SText (derive_command_id (ci_epoch identity) (ci_id identity) "task")))
      (rows (wo_db w') "tasks")) = 1.
Proof.
  intros Hv Hk Hwf L1 L2 Ho Hx view Hin.
  assert (steps_sound identity spec (wo_db w)) as Hs by (split; [done|by exists g, e, n|done|done]).
  destruct (create_attempts_shown identity spec slots Ho _ _ _ _ Hwf Hs Hx) as ([Hv' _ _ _] & _ & Hall).
  destruct (Hall view Hin) as (Hsh & [(r & Hr & Hid & _) _] & t & Ht & Htid & _).
  split; [done|]. destruct Hsh as [-> _]. split; by eapply one_row; [apply _|..].
Qed.
