(* ===== verification/EngineRouting.v ===== *)
(** * Routing a Ready Task ([pantheon-engine/src/routing.rs])

    One captured configuration, the stored Task, the core's resolution rules and the
    backends' offers are composed into one Agent-and-offer pair. The backends are not
    part of the program: they are arguments. *)

From Stdlib Require Import ZArith Ascii Lia.
From S2P Require Import Prelude Utf8 Canonical Parse ParseFacts Digest Goal Task ConfigModel Compile CompileFacts Execution Sql Schema Transaction Command StoreBase StorePlanning StoreConfiguration StoreLaws StoreHistory StoreFrames EngineBase EngineConfiguration.

(** ** Definitions *)

(** The backend-side failure, without a concrete implementation. *)
Record BackendError : Type := { be_detail : string }.

(** The port a backend implements: what it says about itself, and what it offers. *)
Record ExecutorBackend : Type := {
  describe : BackendDescriptor;
  offer : ExecutionRequest → Result (list ExecutionOffer) BackendError
}.

Record ExecutorBackendPort : Type := {
  port_backend : ExecutorBackend;
  port_safety : ControllerSafetyFacts
}.

Record OfferRejection : Type := {
  or_agent : LogicalAgentVersion;
  or_backend_id : string;
  or_reason : CandidateRejection
}.

(** The order the sources derive: variant first, then its fields. *)
Fixpoint list_cmp {A} `{Ord A} (l k : list A) : comparison :=
  match l, k with
  | [], [] => Eq
  | [], _ => Lt
  | _, [] => Gt
  | x :: l', y :: k' => then_cmp (cmp x y) (list_cmp l' k')
  end.

#[export] Instance list_ord {A} `{Ord A} : Ord (list A) := list_cmp.

Definition rejection_key (r : CandidateRejection) : Z * (list string * (string * (Z * Z))) :=
  match r with
  | BackendDisabled => (0, ([], (EmptyString, (0, 0))))
  | BackendUnavailable => (1, ([], (EmptyString, (0, 0))))
  | BackendMismatch => (2, ([], (EmptyString, (0, 0))))
  | DescriptorRevisionMismatch => (3, ([], (EmptyString, (0, 0))))
  | OfferRequestMismatch => (4, ([], (EmptyString, (0, 0))))
  | MissingExecutionFeatures missing => (5, (missing, (EmptyString, (0, 0))))
  | ContextCapacityTooSmall required offered => (6, ([], (EmptyString, (required, offered))))
  | PlacementIncompatible missing => (7, (missing, (EmptyString, (0, 0))))
  | IsolationNotProven missing => (8, (missing, (EmptyString, (0, 0))))
  | ResourceIncompatible name required offered => (9, ([], (name, (required, offered))))
  | LaunchSemanticsMismatch => (10, ([], (EmptyString, (0, 0))))
  | UnsafeLaunchSemantics => (11, ([], (EmptyString, (0, 0))))
  | RoutePolicyMismatch => (12, ([], (EmptyString, (0, 0))))
  end%Z.

#[export] Instance CandidateRejection_ord : Ord CandidateRejection := key_cmp rejection_key cmp.

#[export] Instance OfferRejection_ord : Ord OfferRejection :=
  key_cmp (fun r => (or_agent r, (or_backend_id r, or_reason r))) cmp.

Inductive InvalidSpec : Type :=
| SpecUndecodable (e : TaskDecodeError)
| SpecOfAnotherGoal.

Inductive RoutingError : Type :=
| RouteStore (e : StoreError)
| RouteConfiguration (e : ConfigurationError)
| TaskNotFound (task_id : string)
| TaskNotReady (task_id : string) (phase : TaskPhase) (active_run_id : option string)
| TaskSpecUnavailable (task_id : string)
| InvalidTaskSpec (task_id : string) (detail : InvalidSpec)
| TaskSpecDigestMismatch (task_id : string)
| RouteResolution (e : AgentResolutionError)
| RequestBuild (e : RequestBuildError)
| UnregisteredBackend (backend_id : string)
| DuplicateBackendDescriptor (backend_id : string)
| BackendOffer (backend_id : string) (e : BackendError)
| NoCompatibleOffers (task_id : string) (rejections : list OfferRejection)
| RouteSelection (e : SelectionError)
| StaleConfiguration.

Record BackendView : Type := {
  bv_backend : ExecutorBackend;
  bv_descriptor : BackendDescriptor;
  bv_enabled : bool;
  bv_safety : ControllerSafetyFacts
}.

Record LoadedTask : Type := { lt_spec : TaskSpec; lt_revision : Z }.

Definition binding_from_snapshot (s : Snapshot) : ConfigurationBinding := {|
  cb_activation_sequence := active_activation_sequence (snap_active s);
  cb_content_digest := active_content_digest (snap_active s);
  cb_component_digests := active_components (snap_active s) |}.

Definition ensure_ready (t : TaskRecord) : Result unit RoutingError :=
  if negb (bool_decide (task_record_phase t = Ready)) || bool_decide (task_record_active_run_id t ≠ None)
  then Err (TaskNotReady (task_record_id t) (task_record_phase t) (task_record_active_run_id t))
  else Ok tt.

Section Routing.
Context `{Sha256}.

Definition registration_of (compiled : CompiledConfiguration) (backend_id : string) : option BackendRegistration :=
  find_first (fun r => String.eqb (br_backend_id r) backend_id) (ConfigModel.backends (cfg_execution compiled)).

(** The loop over the backends: identities are unique and registered. *)
Fixpoint view_backends (compiled : CompiledConfiguration) (seen : list string) (backends : list ExecutorBackendPort) :
    Result (list BackendView) RoutingError :=
  match backends with
  | [] => Ok []
  | port :: rest =>
      let descriptor := describe (port_backend port) in
      if contains seen (bd_backend_id descriptor)
      then Err (DuplicateBackendDescriptor (bd_backend_id descriptor))
      else
        let? registration := ok_or (registration_of compiled (bd_backend_id descriptor))
          (UnregisteredBackend (bd_backend_id descriptor)) in
        let? views := view_backends compiled (seen ++ [bd_backend_id descriptor]) rest in
        Ok ({| bv_backend := port_backend port; bv_descriptor := descriptor;
               bv_enabled := br_enabled registration; bv_safety := port_safety port |} :: views)
  end.

Definition sort_views (l : list BackendView) : list BackendView :=
  sort_by (key_cmp (fun v => (bd_backend_id (bv_descriptor v), bd_revision (bv_descriptor v))) cmp) l.

(** The offers of one backend, validated one by one. *)
Fixpoint judge_offers (request : ExecutionRequest) (agent : ResolvedAgent) (view : BackendView)
    (offers : list ExecutionOffer) : list ExecutionCandidate * list OfferRejection :=
  match offers with
  | [] => ([], [])
  | o :: rest =>
      let (candidates, rejections) := judge_offers request agent view rest in
      match validate_execution_candidate request agent (bv_descriptor view) o (bv_enabled view) (bv_safety view) with
      | Ok candidate => (candidate :: candidates, rejections)
      | Err reason =>
          (candidates, {| or_agent := ra_identity agent; or_backend_id := bd_backend_id (bv_descriptor view);
                          or_reason := reason |} :: rejections)
      end
  end.

Fixpoint ask_backends (request : ExecutionRequest) (agent : ResolvedAgent) (views : list BackendView) :
    Result (list ExecutionCandidate * list OfferRejection) RoutingError :=
  match views with
  | [] => Ok ([], [])
  | view :: rest =>
      if negb (bv_enabled view) || negb (bd_available_for_offers (bv_descriptor view))
      then ask_backends request agent rest
      else
        let? offers := map_err (BackendOffer (bd_backend_id (bv_descriptor view))) (offer (bv_backend view) request) in
        let (candidates, rejections) := judge_offers request agent view offers in
        let? (candidates', rejections') := ask_backends request agent rest in
        Ok (candidates ++ candidates', rejections ++ rejections')
  end.

Fixpoint ask_all (requests : list (ResolvedAgent * ExecutionRequest)) (views : list BackendView) :
    Result (list ExecutionCandidate * list OfferRejection) RoutingError :=
  match requests with
  | [] => Ok ([], [])
  | (agent, request) :: rest =>
      let? (candidates, rejections) := ask_backends request agent views in
      let? (candidates', rejections') := ask_all rest views in
      Ok (candidates ++ candidates', rejections ++ rejections')
  end.

Definition build_requests (task_id : string) (spec : TaskSpec) (compiled : CompiledConfiguration)
    (binding : ConfigurationBinding) (eligible : list ResolvedAgent) :
    Result (list (ResolvedAgent * ExecutionRequest)) RoutingError :=
  collect (fun agent =>
    let? request := map_err RequestBuild (build_execution_request task_id spec agent compiled binding) in
    Ok (agent, request)) eligible.

(** What is computed once the Task and the configuration are read. *)
Definition route (task_id : string) (spec : TaskSpec) (compiled : CompiledConfiguration)
    (binding : ConfigurationBinding) (backends : list ExecutorBackendPort) :
    Result (ExecutionRequest * ExecutionCandidate) RoutingError :=
  let? resolution := map_err RouteResolution (resolve_agents spec compiled binding) in
  let? requests := build_requests task_id spec compiled binding (res_eligible resolution) in
  let? views := view_backends compiled [] backends in
  let? (candidates, rejections) := ask_all requests (sort_views views) in
  let? candidate := map_err (fun _ => NoCompatibleOffers task_id (sort rejections))
    (select_execution_candidate candidates) in
  let? request := ok_or (snd <$> find_first (fun p => bool_decide (request_digest p.2 = ec_request_digest candidate)) requests)
    (RouteSelection NoCandidates) in
  Ok (request, candidate).

Variable slots : nat → Slot.

Definition route_read {A} (q : Database → Result A StoreError) : Eng RoutingError A :=
  eng_map_err RouteStore (eng_read slots (fun _ => q)).

Definition read_task_spec (t : TaskRecord) : Eng RoutingError LoadedTask :=
  let@ found := route_read (fun db => task_spec_json MIGRATIONS db (task_record_spec_digest t)) in
  let@ canonical := eng_some found (TaskSpecUnavailable (task_record_id t)) in
  let@ spec := eng_try (map_err (fun e => InvalidTaskSpec (task_record_id t) (SpecUndecodable e))
    (task_from_canonical_json canonical)) in
  if negb (bool_decide (task_digest spec = task_record_spec_digest t))
  then eng_err (TaskSpecDigestMismatch (task_record_id t))
  else if negb (String.eqb (task_goal_id spec) (task_record_goal_id t))
  then eng_err (InvalidTaskSpec (task_record_id t) SpecOfAnotherGoal)
  else eng_ret {| lt_spec := spec; lt_revision := task_record_revision t |}.

Definition route_ready_task (task_id : string) (backends : list ExecutorBackendPort) :
    Eng RoutingError RoutingResult :=
  let@ snapshot := eng_map_err RouteConfiguration authority_snapshot in
  let binding := binding_from_snapshot snapshot in
  let@ compiled := eng_some (snap_compiled snapshot)
    (RouteConfiguration (ConfigurationUnavailable NoUsableSemantics)) in
  let@ found := route_read (fun db => task MIGRATIONS db task_id) in
  let@ record := eng_some found (TaskNotFound task_id) in
  do@ eng_try (ensure_ready record) in
  let@ loaded := read_task_spec record in
  let@ (request, candidate) := eng_try (route task_id (lt_spec loaded) compiled binding backends) in
  let@ current := eng_map_err RouteConfiguration authority_snapshot in
  if negb (binding_matches binding (binding_from_snapshot current)) then eng_err StaleConfiguration
  else eng_ret {| rr_task_id := task_id; rr_task_revision := lt_revision loaded;
                  rr_task_spec_digest := task_digest (lt_spec loaded); rr_configuration := binding;
                  rr_request := request; rr_candidate := candidate |}.
End Routing.

(** ** What can be routed to *)

Section RouteFacts.
Context `{Sha256}.

(** An offer of one view, admitted. *)
Definition admitted (agent : ResolvedAgent) (request : ExecutionRequest) (view : BackendView)
    (cand : ExecutionCandidate) : Prop :=
  bv_enabled view = true ∧ bd_available_for_offers (bv_descriptor view) = true ∧
  ∃ offers o, offer (bv_backend view) request = Ok offers ∧ o ∈ offers ∧
    validate_execution_candidate request agent (bv_descriptor view) o (bv_enabled view) (bv_safety view) = Ok cand.

Lemma judge_offers_elem request agent view offers cand :
  cand ∈ (judge_offers request agent view offers).1 ↔
  ∃ o, o ∈ offers ∧
    validate_execution_candidate request agent (bv_descriptor view) o (bv_enabled view) (bv_safety view) = Ok cand.
Proof.
  induction offers as [|o offers IH]; cbn [judge_offers].
  - split; [intros Hc; by apply not_elem_of_nil in Hc|]. intros (o & Ho & _). by apply not_elem_of_nil in Ho.
  - destruct (judge_offers request agent view offers) as [cs rs]. cbn [fst] in IH.
    destruct (validate_execution_candidate _ _ _ o _ _) as [c|e] eqn:E; cbn [fst]; rewrite ?elem_of_cons, IH; split.
    + intros [->|(o' & Ho & Hv)]; [exists o|exists o']; rewrite elem_of_cons; auto.
    + intros (o' & [->|Ho]%elem_of_cons & Hv); [left; congruence|eauto].
    + intros (o' & Ho & Hv). exists o'. rewrite elem_of_cons. auto.
    + intros (o' & [->|Ho]%elem_of_cons & Hv); [congruence|eauto].
Qed.

Lemma ask_backends_elem request agent views cs rs :
  ask_backends request agent views = Ok (cs, rs) →
  ∀ cand, cand ∈ cs ↔ ∃ view, view ∈ views ∧ admitted agent request view cand.
Proof.
  revert cs rs. induction views as [|view views IH]; intros cs rs; cbn [ask_backends].
  { intros [= <- <-] cand. split; [intros Hc; by apply not_elem_of_nil in Hc|]. intros (v & Hv & _). by apply not_elem_of_nil in Hv. }
  assert (∀ P, (∃ v, v ∈ view :: views ∧ P v) ↔ P view ∨ ∃ v, v ∈ views ∧ P v) as Hcons.
  { intros P. setoid_rewrite elem_of_cons. naive_solver. }
  destruct (negb (bv_enabled view) || _) eqn:Eb.
  - intros Hx cand. rewrite (IH _ _ Hx cand), Hcons. split; [by right|]. intros [(He & Ha & _)|?]; [|done].
    by rewrite He, Ha in Eb.
  - apply orb_false_iff in Eb as [He%negb_false_iff Ha%negb_false_iff].
    intros (offers & Ho & Hx)%try_bind_Ok. destruct (offer (bv_backend view) request) as [l|] eqn:El; [|done].
    injection Ho as ->. pose proof (judge_offers_elem request agent view offers) as Hj.
    destruct (judge_offers request agent view offers) as [c1 r1]. cbn [fst] in Hj.
    apply try_bind_Ok in Hx as ([c2 r2] & H2 & [= <- <-]). intros cand.
    rewrite elem_of_app, Hj, (IH _ _ H2 cand), Hcons. unfold admitted. rewrite He, Ha, El. naive_solver.
Qed.

Lemma ask_all_elem requests views cs rs :
  ask_all requests views = Ok (cs, rs) →
  ∀ cand, cand ∈ cs ↔ ∃ agent request view, (agent, request) ∈ requests ∧ view ∈ views ∧ admitted agent request view cand.
Proof.
  revert cs rs. induction requests as [|[agent request] requests IH]; intros cs rs; cbn [ask_all].
  { intros [= <- <-] cand. split; [intros Hc; by apply not_elem_of_nil in Hc|].
    intros (a & r & v & Hr & _). by apply not_elem_of_nil in Hr. }
  intros ([c1 r1] & H1 & Hx)%try_bind_Ok. apply try_bind_Ok in Hx as ([c2 r2] & H2 & [= <- <-]). intros cand.
  rewrite elem_of_app, (ask_backends_elem _ _ _ _ _ H1 cand), (IH _ _ H2 cand). setoid_rewrite elem_of_cons. naive_solver.
Qed.

(** The views are the backends with their registrations. *)
Definition view_of (compiled : CompiledConfiguration) (port : ExecutorBackendPort) (view : BackendView) : Prop :=
  ∃ reg, registration_of compiled (bd_backend_id (describe (port_backend port))) = Some reg ∧
    view = {| bv_backend := port_backend port; bv_descriptor := describe (port_backend port);
              bv_enabled := br_enabled reg; bv_safety := port_safety port |}.

Lemma view_backends_elem compiled seen ports views :
  view_backends compiled seen ports = Ok views →
  ∀ view, view ∈ views ↔ ∃ port, port ∈ ports ∧ view_of compiled port view.
Proof.
  revert seen views. induction ports as [|port ports IH]; intros seen views; cbn [view_backends].
  { intros [= <-] view. split; [intros Hv; by apply not_elem_of_nil in Hv|]. intros (p & Hp & _). by apply not_elem_of_nil in Hp. }
  destruct (contains seen _); [done|]. intros (reg & Hreg & Hx)%try_bind_Ok.
  apply try_bind_Ok in Hx as (vs & Hvs & [= <-]). intros view. rewrite elem_of_cons, (IH _ _ Hvs view).
  destruct (registration_of _ _) as [reg'|] eqn:E; [|done]. injection Hreg as ->.
  setoid_rewrite elem_of_cons. unfold view_of. split.
  - intros [->|(p & Hp & Hv)]; [|by exists p; auto]. exists port. split; [by left|]. by exists reg.
  - intros (p & [->|Hp] & Hv); [left|by right; exists p]. destruct Hv as (reg' & Hr & ->). congruence.
Qed.

(** A placement the rules allow: an eligible declared Agent, the request it gives
    rise to, a registered and enabled backend, and an offer it makes for that request
    which the admission rules accept. *)
Definition possible (task_id : string) (spec : TaskSpec) (compiled : CompiledConfiguration)
    (binding : ConfigurationBinding) (ports : list ExecutorBackendPort) (cand : ExecutionCandidate) : Prop :=
  ∃ a agent request port reg offers o,
    a ∈ agents (cfg_agents compiled) ∧ eligible spec compiled binding a ∧
    resolve_agent spec compiled binding a = Ok agent ∧
    build_execution_request task_id spec agent compiled binding = Ok request ∧
    port ∈ ports ∧ registration_of compiled (bd_backend_id (describe (port_backend port))) = Some reg ∧
    br_enabled reg = true ∧ offer (port_backend port) request = Ok offers ∧ o ∈ offers ∧
    compatible request agent (describe (port_backend port)) o true (port_safety port) ∧
    cand = {| ec_agent := identity a; ec_request_digest := request_digest request; ec_offer := o;
              ec_route_policy := ra_route_policy agent;
              ec_execution_profile_digest := req_execution_profile_digest request |}.

Lemma build_requests_elem task_id spec compiled binding eligible requests :
  build_requests task_id spec compiled binding eligible = Ok requests →
  ∀ agent request, (agent, request) ∈ requests ↔
    agent ∈ eligible ∧ build_execution_request task_id spec agent compiled binding = Ok request.
Proof.
  intros Hb%collect_Ok agent request. rewrite list_elem_of_lookup. split.
  - intros (i & Hi). destruct (Forall2_lookup_r _ _ _ _ _ Hb Hi) as (x & Hx & He).
    destruct (build_execution_request _ _ x _ _) as [r|] eqn:E; [|done]. injection He as -> ->.
    split; [by eapply list_elem_of_lookup_2|done].
  - intros [(i & Hi)%list_elem_of_lookup Hr]. destruct (Forall2_lookup_l _ _ _ _ _ Hb Hi) as ([a r] & Hx & He).
    rewrite Hr in He. injection He as <- <-. eauto.
Qed.

Lemma resolved_elem spec compiled binding r agent :
  resolve_agents spec compiled binding = Ok r →
  agent ∈ res_eligible r ↔ ∃ a, a ∈ agents (cfg_agents compiled) ∧ resolve_agent spec compiled binding a = Ok agent.
Proof.
  unfold resolve_agents. destruct (negb _); [done|].
  pose proof (resolve_loop_eligible spec compiled binding (sorted_agents (agents (cfg_agents compiled))) agent) as He.
  destruct (resolve_loop _ _ _ _) as [el rej]. cbn [fst] in He. destruct el as [|x el]; [done|]. intros [= <-]. cbn [res_eligible].
  rewrite He. unfold sorted_agents. setoid_rewrite (elem_of_sort_by (key_cmp identity cmp)). done.
Qed.

Lemma resolve_eligible spec compiled binding a agent :
  resolve_agent spec compiled binding a = Ok agent → eligible spec compiled binding a.
Proof.
  intros Hr. apply rejection_reason_None. unfold resolve_agent in Hr. by destruct (rejection_reason _ _ _ _).
Qed.

(** The candidates collected are the placements possible. *)
Lemma candidates_possible task_id spec compiled binding ports r requests views cs rs :
  resolve_agents spec compiled binding = Ok r →
  build_requests task_id spec compiled binding (res_eligible r) = Ok requests →
  view_backends compiled [] ports = Ok views → ask_all requests (sort_views views) = Ok (cs, rs) →
  ∀ cand, cand ∈ cs ↔ possible task_id spec compiled binding ports cand.
Proof.
  intros Hr Hb Hv Ha cand. rewrite (ask_all_elem _ _ _ _ Ha cand).
  assert (∀ v, v ∈ sort_views views ↔ ∃ port, port ∈ ports ∧ view_of compiled port v) as Hs.
  { intros v. unfold sort_views. rewrite elem_of_sort_by. by apply (view_backends_elem _ _ _ _ Hv). }
  split.
  - intros (agent & request & view & Hq & (port & Hp & reg & Hreg & ->)%Hs & He & Hav & offers & o & Ho & Hin & Hval).
    cbn in *. apply (build_requests_elem _ _ _ _ _ _ Hb) in Hq as [Hel Hreq].
    apply (resolved_elem _ _ _ _ _ Hr) in Hel as (a & Hin' & Hra).
    rewrite He in Hval. apply validate_execution_candidate_Ok in Hval as [Hc ->].
    destruct (resolve_agent_fields _ _ _ _ _ Hra) as [_ ->].
    exists a, agent, request, port, reg, offers, o. split_and!; try done. by eapply resolve_eligible.
  - intros (a & agent & request & port & reg & offers & o & Hin' & Hel & Hra & Hreq & Hp & Hreg & He & Ho & Hin & Hc & ->).
    eexists agent, request, _. split_and!.
    + apply (build_requests_elem _ _ _ _ _ _ Hb). split; [|done]. apply (resolved_elem _ _ _ _ _ Hr). eauto.
    + apply Hs. exists port. split; [done|]. exists reg. done.
    + split; [exact He|]. split; [apply Hc|]. exists offers, o. split_and!; [done|done|]. cbn [bv_descriptor bv_enabled bv_safety]. rewrite He. apply validate_execution_candidate_Ok.
      destruct (resolve_agent_fields _ _ _ _ _ Hra) as [_ ->]. done.
Qed.

Lemma possible_policy task_id spec compiled binding ports cand :
  consistent compiled → possible task_id spec compiled binding ports cand →
  ec_route_policy cand ∈ policies (cfg_routing compiled).
Proof.
  intros Hcon (a & agent & request & port & reg & offers & o & Hin' & Hel & Hra & _ & _ & _ & _ & _ & _ & _ & ->). cbn.
  apply (resolve_agent_consistent _ _ _ _ Hcon Hin') in Hel as (x & Hx & _ & _ & Hp & _).
  rewrite Hx in Hra. by injection Hra as ->.
Qed.

Lemma requests_built task_id spec compiled binding r :
  resolve_agents spec compiled binding = Ok r →
  ∃ requests, build_requests task_id spec compiled binding (res_eligible r) = Ok requests.
Proof.
  unfold resolve_agents. destruct (configuration_agrees compiled binding) eqn:Ha; [|done]. intros _.
  unfold build_requests, build_execution_request. rewrite Ha. cbn. induction (res_eligible r) as [|x l [k Hk]]; [by exists []|].
  cbn. rewrite Hk. cbn. eauto.
Qed.

Lemma view_backends_fails compiled seen ports e :
  view_backends compiled seen ports = Err e →
  (∃ i, e = DuplicateBackendDescriptor i) ∨ ∃ i, e = UnregisteredBackend i.
Proof.
  revert seen e. induction ports as [|p ports IH]; intros seen e; cbn [view_backends]; [done|].
  destruct (contains _ _); [intros [= <-]; eauto|]. destruct (registration_of _ _); cbn; [|intros [= <-]; eauto].
  destruct (view_backends _ _ ports) eqn:E; [done|]. intros [= <-]. by eapply IH.
Qed.

Lemma ask_backends_fails request agent views e :
  ask_backends request agent views = Err e → ∃ i b, e = BackendOffer i b.
Proof.
  revert e. induction views as [|v views IH]; intros e; cbn [ask_backends]; [done|].
  destruct (_ || _); [apply IH|]. destruct (offer _ _); cbn [map_err try_bind]; [|intros [= <-]; eauto].
  destruct (judge_offers _ _ _ _). destruct (ask_backends _ _ views) as [[]|]; [done|]. intros [= <-]. by apply IH.
Qed.

Lemma ask_all_fails requests views e : ask_all requests views = Err e → ∃ i b, e = BackendOffer i b.
Proof.
  revert e. induction requests as [|[agent request] requests IH]; intros e; cbn [ask_all]; [done|].
  destruct (ask_backends _ _ _) as [[]|] eqn:E; cbn [try_bind]; [|intros [= <-]; by eapply ask_backends_fails].
  destruct (ask_all requests _) as [[]|]; [done|]. intros [= <-]. by apply IH.
Qed.

(** What [route] returns, on every path. *)
Lemma route_cases task_id spec source compiled binding ports :
  compile source = Ok compiled →
  match route task_id spec compiled binding ports with
  | Ok (request, cand) =>
      possible task_id spec compiled binding ports cand ∧
      (∀ x, possible task_id spec compiled binding ports x → preferred cand x) ∧
      request_digest request = ec_request_digest cand
  | Err (NoCompatibleOffers _ _) => ∀ x, ¬ possible task_id spec compiled binding ports x
  | Err (RouteResolution (NoEligibleAgent _ _)) => ∀ a, a ∈ agents (cfg_agents compiled) → ¬ eligible spec compiled binding a
  | Err (RouteResolution (ResConfigurationMismatch _ _)) => configuration_agrees compiled binding = false
  | Err (RequestBuild _) | Err (RouteSelection _) => False
  | Err _ => True
  end.
Proof.
  intros Hc. pose proof (compile_Ok _ _ Hc) as Hg. pose proof (cg_consistent _ Hg) as Hcon. unfold route.
  destruct (resolve_agents spec compiled binding) as [r|e] eqn:Er; cbn [map_err try_bind].
  2:{ pose proof (proj1 (resolve_agents_fails spec compiled binding Hcon) (ex_intro _ e Er)) as Hf.
      unfold resolve_agents in Er. destruct (configuration_agrees compiled binding); cbn [negb] in Er.
      - destruct Hf as [?|Hf]; [done|]. destruct (resolve_loop _ _ _ _) as [[|? ?] ?]; by simplify_eq.
      - by injection Er as <-. }
  destruct (requests_built task_id spec compiled binding r Er) as [requests Hb]. rewrite Hb. cbn [try_bind].
  destruct (view_backends compiled [] ports) as [views|e] eqn:Ev; cbn [try_bind].
  2:{ by destruct (view_backends_fails _ _ _ _ Ev) as [[i ->]|[i ->]]. }
  destruct (ask_all requests (sort_views views)) as [[cs rs]|e] eqn:Ea; cbn [try_bind].
  2:{ by destruct (ask_all_fails _ _ _ Ea) as (i & b & ->). }
  pose proof (candidates_possible _ _ _ _ _ _ _ _ _ _ Er Hb Ev Ea) as Hp.
  destruct (select_execution_candidate cs) as [cand|e] eqn:Es; cbn [map_err try_bind].
  2:{ intros x Hx%Hp. unfold select_execution_candidate in Es. destruct cs; [by apply not_elem_of_nil in Hx|done]. }
  destruct (policies_by_name (policies (cfg_routing compiled)) cs) as [->|[policy Hpol]]; [apply Hg| |done|].
  { intros x Hx%Hp. by eapply possible_policy. }
  destruct (select_least policy cs cand Hpol Es) as [Hin Hle].
  destruct (find_first _ requests) as [[ag rq]|] eqn:Ef; cbn.
  - apply find_first_Some in Ef as [_ Hd%bool_decide_eq_true]. split_and!; [by apply Hp| |done].
    intros x Hx%Hp. by apply compare_preferred, Hle.
  - rewrite find_first_None in Ef. apply Hp in Hin as (a & agent & request & port & reg & offers & o & Hin' & Hel & Hra & Hreq & _ & _ & _ & _ & _ & _ & ->).
    assert ((agent, request) ∈ requests) as Hq.
    { apply (build_requests_elem _ _ _ _ _ _ Hb). split; [|done]. apply (resolved_elem _ _ _ _ _ Er). eauto. }
    apply Ef in Hq. cbn in Hq. by rewrite bool_decide_eq_true_2 in Hq.
Qed.
End RouteFacts.

(** ** Claims *)

(** The others' turns, and nothing else. *)
Fixpoint turns `{Sha256} (slots : nat → Slot) (k : nat) (w : World) : World :=
  match k with
  | O => w
  | S k' => turns slots k' (interfere slots w).2
  end.

Lemma turns_add `{Sha256} slots j k w : turns slots (j + k) w = turns slots k (turns slots j w).
Proof. revert w. induction j as [|j IH]; intros w; cbn; [done|]. apply IH. Qed.

(** A controller that only reads. *)
Definition only_reads `{Sha256} (slots : nat → Slot) {E A} (m : Eng E A) : Prop := ∀ w, ∃ k, (m w).2 = turns slots k w.

Lemma only_reads_keeps `{Sha256} slots {E A} (m : Eng E A) :
  only_reads slots m ↔ keeps (fun w w' => ∃ k, w' = turns slots k w) m.
Proof. done. Qed.

#[export] Instance turns_preorder `{Sha256} slots : PreOrder (fun w w' => ∃ k, w' = turns slots k w).
Proof.
  split; [intros w; by exists 0|]. intros x y z [j ->] [k ->]. exists (j + k). by rewrite turns_add.
Qed.

Lemma eng_read_turns `{Sha256} slots {A} (q : Ambient → Database → Result A StoreError) :
  keeps (fun w w' => ∃ k, w' = turns slots k w) (eng_read slots q).
Proof.
  intros w. exists 1. change (turns slots 1 w) with (interfere slots w).2. unfold eng_read.
  destruct (interfere slots w) as [s w1]. by destruct (slot_fault s).
Qed.

#[export] Hint Resolve eng_read_turns : keeps.

Lemma authority_snapshot_turns `{Sha256} slots : keeps (fun w w' => ∃ k, w' = turns slots k w) authority_snapshot.
Proof. intros w. by exists 0. Qed.

#[export] Hint Resolve authority_snapshot_turns : keeps.

Lemma route_only_reads `{Sha256} slots task_id ports : only_reads slots (route_ready_task slots task_id ports).
Proof.
  apply only_reads_keeps. unfold route_ready_task, read_task_spec, route_read. solve_keeps.
Qed.

Lemma eng_read_Ok `{Sha256} slots {A} (q : Ambient → Database → Result A StoreError) w a w1 :
  eng_read slots q w = (Ok a, w1) →
  w1 = turns slots 1 w ∧ q (slot_ambient (slots (wo_turn w))) (wo_db w1) = Ok a.
Proof.
  unfold eng_read. change (turns slots 1 w) with (interfere slots w).2.
  change (slots (wo_turn w)) with (interfere slots w).1. destruct (interfere slots w) as [s w2].
  cbn [fst snd]. destruct (slot_fault s); [done|]. by intros [= <- <-].
Qed.

Lemma route_read_cases `{Sha256} slots {A} (q : Database → Result A StoreError) w r w1 :
  route_read slots q w = (r, w1) →
  w1 = turns slots 1 w ∧ match r with
                         | Ok a => q (wo_db w1) = Ok a
                         | Err e => ∃ s, e = RouteStore s
                         end.
Proof.
  unfold route_read, eng_map_err, eng_read. change (turns slots 1 w) with (interfere slots w).2.
  destruct (interfere slots w) as [s w2]. destruct (slot_fault s); [intros [= <- <-]; eauto|].
  destruct (q (wo_db w2)) eqn:E; intros [= <- <-]; eauto.
Qed.

(** Reading the specification: what it says, or an error about the Task. *)
Lemma read_task_spec_cases `{Sha256} slots t w r w1 :
  read_task_spec slots t w = (r, w1) →
  w1 = turns slots 1 w ∧
  match r with
  | Ok loaded => lt_revision loaded = task_record_revision t ∧ task_digest (lt_spec loaded) = task_record_spec_digest t ∧
      task_goal_id (lt_spec loaded) = task_record_goal_id t ∧
      ∃ json, task_spec_json MIGRATIONS (wo_db w1) (task_record_spec_digest t) = Ok (Some json) ∧
        task_from_canonical_json json = Ok (lt_spec loaded)
  | Err e => (∃ s, e = RouteStore s) ∨ e = TaskSpecUnavailable (task_record_id t) ∨
      (∃ d, e = InvalidTaskSpec (task_record_id t) d) ∨ e = TaskSpecDigestMismatch (task_record_id t)
  end.
Proof.
  unfold read_task_spec, eng_bind at 1. destruct (route_read slots _ w) as [r1 w2] eqn:E1.
  destruct (route_read_cases _ _ _ _ _ E1) as [-> H1]. destruct r1 as [[json|]|e]; [|intros [= <- <-]; eauto..].
  cbn [eng_some]. unfold eng_bind, eng_ret, eng_try.
  destruct (task_from_canonical_json json) as [spec|e] eqn:Ed; cbn [map_err]; [|intros [= <- <-]; eauto 10].
  case_bool_decide as Hd; cbn [negb]; [|intros [= <- <-]; eauto 10].
  destruct (String.eqb_spec (task_goal_id spec) (task_record_goal_id t)) as [Hg|]; cbn [negb]; intros [= <- <-]; eauto 15.
Qed.

Lemma ensure_ready_Ok t : ensure_ready t = Ok tt → task_record_phase t = Ready ∧ task_record_active_run_id t = None.
Proof.
  unfold ensure_ready. case_bool_decide as H1; cbn [negb orb]; [|done]. case_bool_decide as H2; [done|].
  intros _. split; [done|]. by destruct (task_record_active_run_id t); [destruct H2|].
Qed.

Lemma binding_matches_eq a b : binding_matches a b = true → b = a.
Proof.
  unfold binding_matches. rewrite !andb_true_iff, Z.eqb_eq, !bool_decide_eq_true. destruct a, b. cbn. naive_solver.
Qed.

(** The Task that routing reads in [w]: Ready and free, and its stored specification
    hashes to the digest it names and belongs to its Goal. *)
Definition routable_task `{Sha256} (slots : nat → Slot) (task_id : string) (w : World) (t : TaskRecord)
    (spec : TaskSpec) : Prop :=
  task MIGRATIONS (wo_db (turns slots 1 w)) task_id = Ok (Some t) ∧ task_record_phase t = Ready ∧
  task_record_active_run_id t = None ∧
  (∃ json, task_spec_json MIGRATIONS (wo_db (turns slots 2 w)) (task_record_spec_digest t) = Ok (Some json) ∧
     task_from_canonical_json json = Ok spec) ∧
  task_digest spec = task_record_spec_digest t ∧ task_goal_id spec = task_record_goal_id t.

(** C16: Routing a Task is sound and free of side effects. Whatever the routing
    controller returns, it has only read. A Task it routes was Ready and free when
    read, its stored specification hashes to the digest the Task names and belongs
    to its Goal, the configuration captured at the start is still the published one,
    and the placement is one the rules allow - an eligible declared Agent, a
    registered enabled backend, an admissible offer for that Agent's request - with
    none preferred to it. It reports that there is no compatible offer, or no
    eligible Agent, only when that is so for the specification of the Task it read,
    and it never fails to build a request or to select among the offers. *)
Theorem routing_exact `{Sha256} slots source snap compiled task_id ports w r w'
    (Hpublished : wo_published w = Some snap) (Hsemantics : snap_compiled snap = Some compiled)
    (Hcompiled : compile source = Ok compiled) (Hx : route_ready_task slots task_id ports w = (r, w')) :
  let binding := binding_from_snapshot snap in
  (∃ k, w' = turns slots k w) ∧
  match r with
  | Ok result =>
      ∃ t spec current, routable_task slots task_id w t spec ∧
        rr_task_revision result = task_record_revision t ∧
        rr_task_spec_digest result = task_record_spec_digest t ∧ rr_configuration result = binding ∧
        wo_published w' = Some current ∧ binding_from_snapshot current = binding ∧
        request_digest (rr_request result) = ec_request_digest (rr_candidate result) ∧
        possible task_id spec compiled binding ports (rr_candidate result) ∧
        ∀ x, possible task_id spec compiled binding ports x → preferred (rr_candidate result) x
  | Err (NoCompatibleOffers _ _) =>
      ∃ t spec, routable_task slots task_id w t spec ∧ ∀ x, ¬ possible task_id spec compiled binding ports x
  | Err (RouteResolution (NoEligibleAgent _ _)) =>
      ∃ t spec, routable_task slots task_id w t spec ∧
        ∀ a, a ∈ agents (cfg_agents compiled) → ¬ eligible spec compiled binding a
  | Err (RequestBuild _) | Err (RouteSelection _) => False
  | Err _ => True
  end.
Proof.
  intros binding. pose proof (route_only_reads slots task_id ports w) as Hk. rewrite Hx in Hk. split; [exact Hk|]. clear Hk.
  unfold route_ready_task, eng_bind at 1, eng_map_err at 1, authority_snapshot at 1 in Hx.
  rewrite Hpublished in Hx. cbn [ok_or] in Hx. rewrite Hsemantics in Hx. cbn [eng_some] in Hx.
  unfold eng_bind at 1, eng_ret at 1 in Hx. unfold eng_bind at 1 in Hx.
  destruct (route_read slots _ w) as [r1 w1] eqn:E1. apply route_read_cases in E1 as [-> H1].
  destruct r1 as [[t|]|e]; [|by injection Hx as <- <-|destruct H1 as [s ->]; by injection Hx as <- <-].
  cbn [eng_some] in Hx. unfold eng_bind at 1, eng_ret at 1 in Hx. unfold eng_bind at 1, eng_try at 1 in Hx.
  destruct (ensure_ready t) as [[]|e] eqn:Er.
  2:{ unfold ensure_ready in Er. destruct (_ || _); [|done]. injection Er as <-. by injection Hx as <- <-. }
  apply ensure_ready_Ok in Er as [Hphase Hrun]. unfold eng_bind at 1 in Hx.
  destruct (read_task_spec slots t _) as [r2 w2] eqn:E2. apply read_task_spec_cases in E2 as [-> H2].
  change (turns slots 1 (turns slots 1 w)) with (turns slots 2 w) in H2, Hx.
  destruct r2 as [[spec revision]|e]; [|injection Hx as <- <-; destruct H2 as [[? ->]|[->|[[? ->]| ->]]]; done].
  destruct H2 as (Hrev & Hdigest & Hgoal & json & Hjson & Hdec). cbn [lt_spec lt_revision] in *.
  assert (routable_task slots task_id w t spec) as Ht by (split_and!; eauto).
  unfold eng_bind at 1, eng_try at 1 in Hx.
  pose proof (route_cases task_id spec source compiled binding ports Hcompiled) as Hr.
  change (binding_from_snapshot snap) with binding in Hx.
  destruct (route task_id spec compiled binding ports) as [[request cand]|e].
  2:{ injection Hx as <- <-. destruct e as [| | | | | | | [|]| | | | | | |]; try done; by exists t, spec. }
  unfold eng_bind at 1, eng_map_err at 1, authority_snapshot at 1 in Hx.
  destruct (wo_published (turns slots 2 w)) as [current|] eqn:Ecur; [|by injection Hx as <- <-]. cbn [ok_or] in Hx.
  destruct (binding_matches _ _) eqn:Em; cbn [negb] in Hx; [|by injection Hx as <- <-].
  injection Hx as <- <-. destruct Hr as (Hposs & Hbest & Hreq). exists t, spec, current.
  split_and!; try done. by apply binding_matches_eq.
Qed.
