(* ===== verification/EngineScheduling.v ===== *)
(** * The scheduling cycle ([pantheon-engine/src/scheduling.rs],
    [pantheon-engine/src/operator/dispatch.rs], [pantheon-engine/src/operator/system.rs])

    One cycle reads what is eligible, orders it, routes in that order and commits at
    most one Run intent. Dispatch control and readiness are the operator's view of
    the same state. *)

From Stdlib Require Import ZArith Ascii Lia.
From S2P Require Import Prelude Utf8 Canonical Parse Digest Goal Task ConfigModel Compile Scheduling ContextPlan Execution Workspace Sql Schema Transaction Command StoreBase StorePlanning StoreConfiguration StoreWorkspace StoreScheduling StoreOperator StoreLaws StoreHistory StoreFrames EngineBase Operator EngineConfiguration EngineRouting.

(** ** Definitions *)

Definition BACKOFF_SECONDS : Z := 60.

(** A panic ends the call, like an error. *)
Inductive SchedulingError : Type :=
| SchedulingStore (e : StoreError)
| SchedulingConfiguration (e : ConfigurationError)
| SchedulingPanic (message : string).

Inductive ScheduleOutcome : Type :=
| Idle
| Suppressed (s : Suppression)
| Deferred (task_id reason : string)
| Contention (task_id : string)
| CommittedRun (run_id task_id : string).

(** [short_hex]: the first sixteen bytes. *)
Definition short_hex (hash : string) : string := hex_of_bytes (take_bytes 16 hash).

(** Which routing failures deserve durable backoff. *)
Definition backoff_code (e : RoutingError) : option string :=
  match e with
  | NoCompatibleOffers _ _ => Some "no-compatible-offer"
  | RouteResolution _ => Some "no-eligible-agent"
  | UnregisteredBackend _ => Some "backend-unregistered"
  | BackendOffer _ _ => Some "backend-offer-failed"
  | RouteSelection _ => Some "no-compatible-offer"
  | StaleConfiguration => Some "stale-configuration"
  | _ => None
  end.

(** [now + BACKOFF_SECONDS] on [i64]. *)
Definition i64_add (a b : Z) : Z := ((a + b + 9223372036854775808) mod 18446744073709551616 - 9223372036854775808)%Z.

Section Scheduling.
Context `{Sha256}.

Definition run_request_hash (task_id : string) (binding_digest snapshot_digest : Digest)
    (scheduler_revision task_revision : Z) : string :=
  digest_bytes (value_digest (object [
    ("kind", Str "scheduler.run-intent");
    ("taskId", Str task_id);
    ("bindingDigest", Str (to_display binding_digest));
    ("snapshotDigest", Str (to_display snapshot_digest));
    ("schedulerRevision", Integer scheduler_revision);
    ("taskRevision", Integer task_revision)])).

Definition run_identity_value (task_id : string) (binding_digest snapshot_digest : Digest)
    (next_service_sequence : Z) : Value :=
  object [
    ("kind", Str "run");
    ("taskId", Str task_id);
    ("bindingDigest", Str (to_display binding_digest));
    ("snapshotDigest", Str (to_display snapshot_digest));
    ("nextServiceSequence", Integer next_service_sequence)].

Variable slots : nat → Slot.

Definition sched_read {A} (q : Ambient → Database → Result A StoreError) : Eng SchedulingError A :=
  eng_map_err SchedulingStore (eng_read slots q).

Definition sched_broken (what : string) (values : list string) : SchedulingError :=
  SchedulingStore (broken what values).

(** An optional read the commit cannot do without. *)
Definition sched_need {A} (q : Database → Result (option A) StoreError) (what : string) (values : list string) :
    Eng SchedulingError A :=
  let@ found := sched_read (fun _ => q) in
  eng_some found (sched_broken what values).

(** The facts one Run freezes. *)
Definition freeze_binding (task_id : string) (routed : RoutingResult) (binding : ConfigurationBinding) : ExecutionBinding :=
  let candidate := rr_candidate routed in
  let o := ec_offer candidate in
  {| eb_task_id := task_id; eb_agent := ec_agent candidate; eb_request_digest := request_digest (rr_request routed);
     eb_offer_digest := offer_digest o; eb_backend_id := of_backend_id o;
     eb_descriptor_revision := of_descriptor_revision o; eb_descriptor_digest := of_descriptor_digest o;
     eb_execution_profile_digest := ec_execution_profile_digest candidate;
     eb_sandbox_profile_digest := req_sandbox_profile_digest (rr_request routed);
     eb_route_policy_digest := req_route_policy_digest (rr_request routed);
     eb_configuration_activation_sequence := cb_activation_sequence binding;
     eb_configuration_content_digest := cb_content_digest binding;
     eb_component_digests := cb_component_digests binding |}.

Definition freeze_snapshot (routed : RoutingResult) (binding : ConfigurationBinding) (goal_id : string)
    (goal : GoalRecord) (graph : GraphRecord) (workspace : WorkspaceRecord) (agent : Agent) : ContextSourceSnapshot :=
  {| cs_task_spec_digest := rr_task_spec_digest routed; cs_goal_id := goal_id;
     cs_goal_revision := goal_record_current_revision goal; cs_graph_revision := graph_record_revision graph;
     cs_agent := ec_agent (rr_candidate routed);
     cs_configuration_activation_sequence := cb_activation_sequence binding;
     cs_context_policy_digest := cd_context_policy (cb_component_digests binding);
     cs_agent_soul_digest := guidance_digest (ag_soul agent);
     cs_agent_behavior_digest := guidance_digest (ag_behavior agent);
     cs_workspace_id := ws_id workspace; cs_workspace_resolved_base := resolved_text (ws_resolved_base workspace) |}.

(** The T3 request for one frozen world. *)
Definition run_intent_of (task_id goal_id : string) (candidate : DispatchCandidate) (goal : GoalRecord)
    (graph : GraphRecord) (workspace : WorkspaceRecord) (snap : SchedulingSnapshot) (binding : ConfigurationBinding)
    (frozen : ExecutionBinding) (source : ContextSourceSnapshot) : RunIntent :=
  let binding_digest := binding_digest frozen in
  let snapshot_digest := snapshot_digest source in
  {| ri_run_id := "run-" +:+ short_hex (digest_bytes (value_digest
       (run_identity_value task_id binding_digest snapshot_digest (ss_next_service_sequence (snap_state snap)))));
     ri_task_id := task_id; ri_goal_id := goal_id; ri_expected_task_revision := dc_task_revision candidate;
     ri_expected_goal_row_revision := goal_record_revision goal;
     ri_expected_goal_current_revision := goal_record_current_revision goal;
     ri_expected_graph_revision := graph_record_revision graph; ri_expected_workspace_revision := ws_revision workspace;
     ri_expected_scheduler_revision := ss_revision (snap_state snap);
     ri_expected_goal_fairness_revision :=
       gsr_revision <$> find_first (fun row => String.eqb (gsr_goal_id row) goal_id) (snap_goals snap);
     ri_expected_task_scheduling_revision := dc_scheduling_revision candidate;
     ri_configuration_activation_sequence := cb_activation_sequence binding;
     ri_binding_digest := binding_digest; ri_binding := frozen; ri_snapshot_digest := snapshot_digest;
     ri_snapshot := source |}.

(** Stage 4: freeze authority and commit T3. *)
Definition schedule_commit (routed : RoutingResult) (candidate : DispatchCandidate) (goal_id task_id : string)
    (snap : SchedulingSnapshot) (binding : ConfigurationBinding) : Eng SchedulingError ScheduleOutcome :=
  let@ goal := sched_need (fun db => goal MIGRATIONS db goal_id) "selected goal disappeared" [goal_id] in
  let@ graph := sched_need (fun db => task_graph MIGRATIONS db goal_id) "selected goal has no graph" [goal_id] in
  let@ workspace := sched_need (fun db => workspace_for_task MIGRATIONS db task_id)
    "selected task has no Workspace" [task_id] in
  let@ published := eng_map_err SchedulingConfiguration authority_snapshot in
  let@ compiled := eng_some (snap_compiled published)
    (sched_broken "the active ConfigurationRevision is not usable for scheduling" []) in
  let@ agent := eng_some
    (find_first (fun a => bool_decide (identity a = ec_agent (rr_candidate routed))) (agents (cfg_agents compiled)))
    (sched_broken "routed agent is absent from the captured configuration"
       [lav_name (ec_agent (rr_candidate routed))]) in
  let frozen := freeze_binding task_id routed binding in
  let source := freeze_snapshot routed binding goal_id goal graph workspace agent in
  let intent := run_intent_of task_id goal_id candidate goal graph workspace snap binding frozen source in
  let hash := run_request_hash task_id (ri_binding_digest intent) (ri_snapshot_digest intent)
    (ss_revision (snap_state snap)) (dc_task_revision candidate) in
  let@ epoch := sched_read (fun _ => read_restore_generation) in
  let command := {| cmd_epoch := epoch; cmd_id := "t3-" +:+ short_hex hash; cmd_request_hash := hash;
                    cmd_event_type := "run.committed" |} in
  fun w =>
    match eng_command slots command (fun amb => apply_run_intent MIGRATIONS amb intent) w with
    | (Ok (Executed value _), w') => (Ok (CommittedRun (ric_run_id value) task_id), w')
    | (Ok (Replayed _ _), w') => (Ok (CommittedRun (ri_run_id intent) task_id), w')
    | (Err DispatchPaused, w') | (Err (DispatchSlotUnavailable _ _), w')
    | (Err (RevisionConflict _ _ _ _), w') => (Ok (Contention task_id), w')
    | (Err e, w') => (Err (SchedulingStore e), w')
    end.

(** Durable backoff for a routing failure before T3. *)
Definition schedule_defer (candidate : DispatchCandidate) (e : RoutingError) (now : Z) :
    Eng SchedulingError ScheduleOutcome :=
  match backoff_code e with
  | None => eng_ret (Deferred (dc_task_id candidate) "routing-state-moved")
  | Some code =>
      do@ eng_map_err SchedulingStore (eng_write slots (fun amb =>
        record_scheduling_backoff MIGRATIONS amb (dc_task_id candidate) (dc_scheduling_revision candidate) code "{}"
          (i64_add now BACKOFF_SECONDS))) in
      eng_ret (Deferred (dc_task_id candidate) code)
  end.

(** The walk over the service order. *)
Fixpoint schedule_walk (ports : list ExecutorBackendPort) (snap : SchedulingSnapshot) (binding : ConfigurationBinding)
    (last_deferred : option (string * string)) (order : list (string * string)) :
    Eng SchedulingError ScheduleOutcome :=
  match order with
  | [] => eng_ret match last_deferred with
                  | Some (task_id, reason) => Deferred task_id reason
                  | None => Idle
                  end
  | (goal_id, task_id) :: rest =>
      let@ candidate := eng_some
        (find_first (fun c => String.eqb (dc_task_id c) task_id) (snap_candidates snap))
        (SchedulingPanic "the ordered Task came from the same snapshot") in
      fun w =>
        match route_ready_task slots task_id ports w with
        | (Ok routed, w') => schedule_commit routed candidate goal_id task_id snap binding w'
        | (Err e, w') =>
            (let@ outcome := schedule_defer candidate e (snap_now snap) in
             schedule_walk ports snap binding
               (match outcome with
                | Deferred task_id reason => Some (task_id, reason)
                | _ => last_deferred
                end) rest) w'
        end
  end.

Definition schedule_once (ports : list ExecutorBackendPort) : Eng SchedulingError ScheduleOutcome :=
  let@ snapshot := eng_map_err SchedulingConfiguration authority_snapshot in
  match snap_compiled snapshot with
  | None => eng_ret (Suppressed Scheduling.ConfigurationUnavailable)
  | Some _ =>
      let binding := binding_from_snapshot snapshot in
      let@ snap := sched_read (fun amb db => scheduling_snapshot MIGRATIONS (amb_now amb) db) in
      if bool_decide (ss_dispatch_mode (snap_state snap) = Paused) then eng_ret (Suppressed OperatorPause)
      else
        let@ holder := sched_read (fun _ => slot_holder) in
        match holder with
        | Some _ => eng_ret (Suppressed SlotHeld)
        | None =>
            match service_order (map row_fairness (snap_goals snap)) (map schedulable (snap_candidates snap)) with
            | [] => eng_ret Idle
            | order => schedule_walk ports snap binding None order
            end
        end
  end.
End Scheduling.

(** ** Dispatch control *)

Record DispatchView : Type := {
  dv_desired_mode : DispatchMode;
  dv_revision : Z;
  dv_effective_can_dispatch : bool;
  dv_blocked_by : list string
}.

Definition configuration_usable (w : World) : bool :=
  match authority_snapshot w with
  | (Ok snapshot, _) => match snap_compiled snapshot with Some _ => true | None => false end
  | (Err _, _) => false
  end.

Section Dispatch.
Variable slots : nat → Slot.
Context `{Sha256}.

Definition dispatch_status : Eng OperatorError DispatchView :=
  let@ state := of_store (eng_read slots (fun _ => scheduler_state MIGRATIONS)) in
  fun w =>
    let blocked_by :=
      (if bool_decide (ss_dispatch_mode state = Paused) then ["operator-pause"] else []) ++
      (if negb (configuration_usable w) then ["configuration"] else []) in
    (Ok {| dv_desired_mode := ss_dispatch_mode state; dv_revision := ss_revision state;
           dv_effective_can_dispatch := bool_decide (blocked_by = []); dv_blocked_by := blocked_by |}, w).

Definition set_dispatch (c : CommandIdentity) (mode : DispatchMode) (event : string) (expected : Z) :
    Eng OperatorError DispatchView := fun w =>
  match eng_command slots (identity_command c event) (fun amb => set_dispatch_mode MIGRATIONS amb mode expected) w with
  | (Err (RevisionConflict "scheduler_state" key found actual), w') =>
      (let@ current := of_store (eng_read slots (fun _ => scheduler_state MIGRATIONS)) in
       eng_err (StaleRevision (OfText (message "dispatch desired state is at another revision"
         [i64_to_string (ss_revision current); i64_to_string expected])))) w'
  | (Err e, w') => (Err (operator_error_from_store e), w')
  | (Ok _, w') => dispatch_status w'
  end.

Definition pause_dispatch (c : CommandIdentity) (expected : Z) : Eng OperatorError DispatchView :=
  set_dispatch c Paused "dispatch.paused" expected.

Definition resume_dispatch (c : CommandIdentity) (expected : Z) : Eng OperatorError DispatchView :=
  set_dispatch c Running "dispatch.resumed" expected.
End Dispatch.

Definition operator_error_from_scheduling (e : SchedulingError) : OperatorError :=
  match e with
  | SchedulingStore store => operator_error_from_store store
  | SchedulingConfiguration detail => NotReady (OfText (message "configuration" []))
  | SchedulingPanic m => Internal (OfText (message m []))
  end.

(** ** Readiness *)

Inductive ComponentState : Type := Satisfied | Unsatisfied | Unimplemented.

#[export] Instance ComponentState_eq_dec : EqDecision ComponentState.
Proof. solve_decision. Defined.

Definition component_state_as_str (s : ComponentState) : string :=
  match s with
  | Satisfied => "satisfied"
  | Unsatisfied => "unsatisfied"
  | Unimplemented => "unimplemented"
  end.

Record ReadinessComponent : Type := { rc_name : string; rc_state : ComponentState; rc_detail : option string }.

Record ReadinessReport : Type := { rd_ready : bool; rd_components : list ReadinessComponent }.

Definition active_configuration_component (w : World) : ReadinessComponent :=
  let unsatisfied detail :=
    {| rc_name := "active-configuration"; rc_state := Unsatisfied; rc_detail := Some detail |} in
  match authority_snapshot w with
  | (Ok snapshot, _) =>
      match snap_compiled snapshot with
      | Some _ => {| rc_name := "active-configuration"; rc_state := Satisfied; rc_detail := None |}
      | None => unsatisfied "the active revision's source has drifted, so its semantics are not loaded"
      end
  | (Err _, _) => unsatisfied "no configuration has been published; the daemon is not ready"
  end.

Definition readiness (w : World) : ReadinessReport :=
  let components :=
    [{| rc_name := "recovery-barrier"; rc_state := Unimplemented;
        rc_detail := Some "no startup recovery barrier exists in this build; readiness does not assert one was passed" |};
     active_configuration_component w;
     {| rc_name := "dispatch"; rc_state := Satisfied; rc_detail := None |}] in
  {| rd_ready := forallb (fun c => negb (bool_decide (rc_state c = Unsatisfied))) components;
     rd_components := components |}.

Record JournalView : Type := { jv_epoch : string; jv_latest_sequence : option Z }.

Definition journal_view_from_head (head : Cursor) : JournalView :=
  {| jv_epoch := cur_epoch head;
     jv_latest_sequence := if (1 <=? cur_sequence head)%Z then Some (cur_sequence head) else None |}.

(** ** Lemmas: what a cycle may touch *)

(** The tables of dispatch: Runs and their status, Tasks, fairness and the
    scheduler's own state. *)
Definition dispatch_tables : list string :=
  ["runs"; "run_status"; "tasks"; "goal_scheduling_state"; "scheduler_state"].

Definition unmoved (db db' : Database) : Prop :=
  (∀ t, t ∈ dispatch_tables → rows db' t = rows db t) ∧ (valid MIGRATIONS db → valid MIGRATIONS db').

#[export] Instance unmoved_preorder : PreOrder unmoved.
Proof. split; [by split|]. intros x y z [R1 V1] [R2 V2]. split; [intros t Ht; by rewrite R2, R1|auto]. Qed.

Section Cycle.
Context `{Sha256}.
Variable slots : nat → Slot.

(** The others leave dispatch alone. *)
Hypothesis others : ∀ i q t, q ∈ slot_before (slots i) → t ∈ dispatch_tables → t ∉ footprint (rq_operation q).

Lemma interfere_unmoved w : on_db unmoved w (interfere slots w).2.
Proof.
  apply interfere_on_db; [apply _|]. intros i q conn Hq. split.
  - intros t Ht. apply serve_footprint; [by eapply others|]. unfold dispatch_tables in Ht. unfold kernel_tables. set_solver.
  - intros Hv. by destruct (serve_advance q conn Hv).
Qed.

Lemma read_unmoved {A} (q : Ambient → Database → Result A StoreError) : keeps (on_db unmoved) (eng_read slots q).
Proof.
  intros w. unfold eng_read. pose proof (interfere_unmoved w) as Hi. destruct (interfere slots w) as [s w1].
  by destruct (slot_fault s).
Qed.

Lemma snapshot_unmoved : keeps (on_db unmoved) authority_snapshot.
Proof. by intros w. Qed.

#[local] Hint Resolve read_unmoved snapshot_unmoved : keeps.

Lemma route_unmoved task_id ports : keeps (on_db unmoved) (route_ready_task slots task_id ports).
Proof. unfold route_ready_task, read_task_spec, route_read. solve_keeps. Qed.

Lemma defer_unmoved candidate e now : keeps (on_db unmoved) (schedule_defer slots candidate e now).
Proof.
  unfold schedule_defer. destruct (backoff_code e) as [code|]; [|solve_keeps].
  apply keeps_bind; [apply _| |intros _; solve_keeps]. apply keeps_map_err. intros w. unfold eng_write.
  pose proof (interfere_unmoved w) as Hi. destruct (interfere slots w) as [s w1]. etrans; [exact Hi|].
  set (m := record_scheduling_backoff _ _ _ _ _ _ _).
  pose proof (run_preserves (same_outside ["task_scheduling_state"]) (slot_driver s) m (wo_conn w1)) as Hr.
  pose proof (run_preserves advance (slot_driver s) m (wo_conn w1)) as Ha.
  destruct (run _ _ (wo_conn w1)) as [r conn]. split; cbn.
  - intros t Ht. apply Hr; [|unfold dispatch_tables in Ht; set_solver]. apply update_revisioned_by_touches. elem.
  - intros Hv. apply Ha; [|done]. apply backoff_advance.
Qed.

(** What one cycle did: nothing to dispatch, or the commitment of exactly one Run. *)
Definition dispatched (db db' : Database) (goal_id task_id run_id : string) : Prop :=
  ∃ i next, ri_run_id i = run_id ∧ ri_task_id i = task_id ∧ ri_goal_id i = goal_id ∧
    dispatch_open db i next ∧ task_dispatchable db i ∧ (∀ r, r ∈ rows db "run_status" → column r "active_slot" = SNull) ∧
    intent_committed db' i next.

Lemma t3_cases i c w r w' :
  valid MIGRATIONS (wo_db w) → eng_command slots c (fun amb => apply_run_intent MIGRATIONS amb i) w = (r, w') →
  match r with
  | Ok (Executed out _) => ric_run_id out = ri_run_id i ∧ dispatched (wo_db w) (wo_db w') (ri_goal_id i) (ri_task_id i) (ri_run_id i)
  | _ => on_db unmoved w w'
  end.
Proof.
  intros Hv Hx. unfold eng_command in Hx. pose proof (interfere_unmoved w) as Hi. destruct (interfere slots w) as [s w1].
  cbn [snd] in Hi. destruct (execute_command _ _ _ _ _ _) as [res conn] eqn:Ex. injection Hx as -> <-.
  destruct r as [[out cur|cur t]|e].
  2,3: apply not_executed in Ex; [|done]; etrans; [exact Hi|]; unfold on_db; change (wo_db (with_conn w1 conn)) with (conn_db conn); by rewrite Ex.
  destruct Hi as [Hr Hv1]. specialize (Hv1 Hv). apply executed_body in Ex as (x & Hw & Hs).
  unfold apply_run_intent in Hw. tx_step Hw as Ec. apply check_intent_Ok in Ec as (-> & Ha & _).
  destruct (commit_intent_Ok _ i a {| w_db := wo_db w1; w_failed := false |} out x Hv1 (ia_dispatch _ _ _ Ha) Hw) as ([H1 H2 H3 H4 H5 H6] & _ & Hid & _).
  split; [done|]. exists i, (ss_next_service_sequence a). cbn [w_db] in *. split_and!; [done..| | | |].
  - destruct Ha as [(r & Hrow & Hd) _ _ _ _ _ _]. exists r. split; [|done]. unfold row_of in *. by rewrite <-(Hr "scheduler_state") by (unfold dispatch_tables; elem).
  - destruct Ha as [_ _ _ (r & Hrow & Hd) _ _ _]. exists r. split; [|done]. unfold row_of in *. by rewrite <-(Hr "tasks") by (unfold dispatch_tables; elem).
  - intros r Hrow. apply (ia_slot _ _ _ Ha). unfold wo_db in Hr. by rewrite (Hr "run_status") by (unfold dispatch_tables; elem).
  - change (wo_db (with_conn w1 conn)) with (conn_db conn). split; rewrite (row_of_same _ _ _ _ _ _ Hs) by elem; done.
Qed.

Lemma dispatched_after db0 db db' goal_id task_id run_id :
  unmoved db0 db → dispatched db db' goal_id task_id run_id → dispatched db0 db' goal_id task_id run_id.
Proof.
  intros [Hr _] (i & next & H1 & H2 & H3 & (s & Hs & Hd) & (t & Ht & Hp) & Hf & Hc). exists i, next.
  split_and!; [done..| | | |done].
  - exists s. split; [|done]. unfold row_of in *. by rewrite <-(Hr "scheduler_state") by (unfold dispatch_tables; elem).
  - exists t. split; [|done]. unfold row_of in *. by rewrite <-(Hr "tasks") by (unfold dispatch_tables; elem).
  - intros r Hrow. apply Hf. by rewrite (Hr "run_status") by (unfold dispatch_tables; elem).
Qed.

(** The end of a cycle that started at [w] and was about to commit. *)
Definition settles (goal_id task_id : string) (w : World) (r : Result ScheduleOutcome SchedulingError) (w' : World) : Prop :=
  match r with
  | Ok (CommittedRun run_id t) =>
      t = task_id ∧ (on_db unmoved w w' ∨ dispatched (wo_db w) (wo_db w') goal_id task_id run_id)
  | Err (SchedulingPanic _) => False
  | _ => on_db unmoved w w'
  end.

Lemma settles_after goal_id task_id w w1 r w' :
  on_db unmoved w w1 → settles goal_id task_id w1 r w' → settles goal_id task_id w r w'.
Proof.
  intros Hu. assert (on_db unmoved w1 w' → on_db unmoved w w') as Ht by (intros; by etrans).
  destruct r as [[| | | |run t]|[]]; cbn; auto. intros [-> [Hs|Hs]]; [auto|]. split; [done|]. right.
  by eapply dispatched_after.
Qed.

(** A step that only reads, then the rest. *)
Lemma settles_bind {A} goal_id task_id (m : Eng SchedulingError A) (k : A → Eng SchedulingError ScheduleOutcome) w r w' :
  keeps (on_db unmoved) m → (∀ e, (m w).1 = Err e → ∀ s, e ≠ SchedulingPanic s) →
  (∀ a w1, on_db unmoved w w1 → valid MIGRATIONS (wo_db w1) → k a w1 = (r, w') → settles goal_id task_id w1 r w') →
  valid MIGRATIONS (wo_db w) → eng_bind m k w = (r, w') → settles goal_id task_id w r w'.
Proof.
  intros Hm He Hk Hv Hx. unfold eng_bind in Hx. specialize (Hm w). destruct (m w) as [[a|e] w1]; cbn in *.
  - eapply settles_after; [exact Hm|]. apply (Hk a); [done|by apply Hm|done].
  - injection Hx as <- <-. destruct e; [done..|]. by destruct (He _ eq_refl message).
Qed.

Lemma sched_read_safe {A} (q : Ambient → Database → Result A StoreError) w e :
  (sched_read slots q w).1 = Err e → ∀ s, e ≠ SchedulingPanic s.
Proof. unfold sched_read, eng_map_err. destruct (eng_read slots q w) as [[a|x] w1]; cbn; naive_solver. Qed.

Lemma sched_need_safe {A} (q : Database → Result (option A) StoreError) what values w e :
  (sched_need slots q what values w).1 = Err e → ∀ s, e ≠ SchedulingPanic s.
Proof.
  unfold sched_need, eng_bind. pose proof (sched_read_safe (fun _ => q) w) as Hs.
  destruct (sched_read slots _ w) as [[[a|]|x] w1]; cbn in *; [done| |intros [= <-]; by apply Hs]. intros [= <-] s. done.
Qed.

Lemma sched_read_unmoved {A} (q : Ambient → Database → Result A StoreError) : keeps (on_db unmoved) (sched_read slots q).
Proof. apply keeps_map_err, read_unmoved. Qed.

Lemma sched_need_unmoved {A} (q : Database → Result (option A) StoreError) what values :
  keeps (on_db unmoved) (sched_need slots q what values).
Proof. unfold sched_need. apply keeps_bind; [apply _|apply sched_read_unmoved|]. intros a. solve_keeps. Qed.

Lemma commit_settles routed candidate goal_id task_id snap binding w r w' :
  valid MIGRATIONS (wo_db w) → schedule_commit slots routed candidate goal_id task_id snap binding w = (r, w') →
  settles goal_id task_id w r w'.
Proof.
  intros Hv Hx. unfold schedule_commit in Hx.
  eapply settles_bind; [apply sched_need_unmoved|apply sched_need_safe| |exact Hv|exact Hx]. clear Hx. intros goal w1 _ V1 Hx.
  eapply settles_bind; [apply sched_need_unmoved|apply sched_need_safe| |exact V1|exact Hx]. clear Hx. intros graph w2 _ V2 Hx.
  eapply settles_bind; [apply sched_need_unmoved|apply sched_need_safe| |exact V2|exact Hx]. clear Hx. intros ws w3 _ V3 Hx.
  eapply settles_bind; [apply keeps_map_err, snapshot_unmoved| | |exact V3|exact Hx]; clear Hx.
  { unfold eng_map_err, authority_snapshot. destruct (wo_published w3); cbn; naive_solver. }
  intros published w4 _ V4 Hx.
  eapply settles_bind; [apply keeps_some, _| | |exact V4|exact Hx]; clear Hx.
  { destruct (snap_compiled published); cbn; [done|]. intros e [= <-] s. done. }
  intros compiled w5 _ V5 Hx.
  eapply settles_bind; [apply keeps_some, _| | |exact V5|exact Hx]; clear Hx.
  { destruct (find_first _ _); cbn; [done|]. intros e [= <-] s. done. }
  intros agent w6 _ V6 Hx.
  eapply settles_bind; [apply sched_read_unmoved|apply sched_read_safe| |exact V6|exact Hx]. clear Hx. intros epoch w7 _ V7 Hx.
  cbv beta in Hx. set (intent := run_intent_of _ _ _ _ _ _ _ _ _ _) in Hx.
  assert (ri_goal_id intent = goal_id ∧ ri_task_id intent = task_id) as [Hg Hid] by done. clearbody intent.
  destruct (eng_command slots _ _ w7) as [res w8] eqn:E. pose proof (t3_cases intent _ _ _ _ V7 E) as Ht.
  destruct res as [[out cur|cur t]|e].
  - injection Hx as <- <-. destruct Ht as [-> Ht]. cbn. rewrite Hg, Hid in Ht. split; [done|]. by right.
  - injection Hx as <- <-. cbn. split; [done|]. by left.
  - destruct e; injection Hx as <- <-; exact Ht.
Qed.

(** The Tasks of an order were tried one after another, none could be routed, and the
    failure of each was deferred before the next was tried. *)
Fixpoint passed_over (ports : list ExecutorBackendPort) (snap : SchedulingSnapshot) (order : list (string * string))
    (w w' : World) : Prop :=
  match order with
  | [] => w' = w
  | (_, task_id) :: rest => ∃ candidate e w1,
      find_first (fun c => String.eqb (dc_task_id c) task_id) (snap_candidates snap) = Some candidate ∧
      route_ready_task slots task_id ports w = (Err e, w1) ∧
      passed_over ports snap rest (schedule_defer slots candidate e (snap_now snap) w1).2 w'
  end.

(** The end of a walk over an order that started at [start], as seen from [w]. *)
Definition walked (ports : list ExecutorBackendPort) (snap : SchedulingSnapshot) (order : list (string * string))
    (start w : World) (r : Result ScheduleOutcome SchedulingError) (w' : World) : Prop :=
  match r with
  | Ok (CommittedRun run_id task_id) =>
      ∃ pre goal_id post routed w1, order = pre ++ (goal_id, task_id) :: post ∧
        passed_over ports snap pre start w1 ∧ (route_ready_task slots task_id ports w1).1 = Ok routed ∧
        (on_db unmoved w w' ∨ dispatched (wo_db w) (wo_db w') goal_id task_id run_id)
  | Err (SchedulingPanic _) => False
  | _ => on_db unmoved w w'
  end.

Lemma walked_after ports snap order start w w1 r w' :
  on_db unmoved w w1 → walked ports snap order start w1 r w' → walked ports snap order start w r w'.
Proof.
  intros Hu. assert (on_db unmoved w1 w' → on_db unmoved w w') as Ht by (intros; by etrans).
  destruct r as [[| | | |run t]|[]]; cbn; auto. intros (pre & g & post & routed & w2 & He & Hp & Hr & Hs).
  exists pre, g, post, routed, w2. split_and!; [done..|]. destruct Hs as [Hs|Hs]; [auto|]. right. by eapply dispatched_after.
Qed.

Lemma defer_outcome candidate e now w r w' :
  schedule_defer slots candidate e now w = (r, w') →
  match r with Ok (Deferred _ _) => True | Err (SchedulingStore _) => True | _ => False end.
Proof.
  unfold schedule_defer. destruct (backoff_code e); [|by intros [= <- <-]].
  unfold eng_bind, eng_map_err. destruct (eng_write slots _ w) as [[n|x] w1]; by intros [= <- <-].
Qed.

Lemma walk_walked ports snap binding last order w r w' :
  (∀ p, p ∈ order → ∃ c, c ∈ snap_candidates snap ∧ dc_task_id c = p.2) → valid MIGRATIONS (wo_db w) →
  schedule_walk slots ports snap binding last order w = (r, w') → walked ports snap order w w r w'.
Proof.
  intros Hin. revert last w. induction order as [|[goal_id task_id] order IH]; intros last w Hv Hx; cbn [schedule_walk] in Hx.
  { injection Hx as <- <-. destruct last as [[t reason]|]; cbn; done. }
  destruct (Hin (goal_id, task_id)) as (c & Hc & Hid); [left|]. cbn in Hid.
  destruct (find_first _ (snap_candidates snap)) as [candidate|] eqn:Ef.
  2:{ rewrite find_first_None in Ef. specialize (Ef c Hc). by rewrite Hid, String.eqb_refl in Ef. }
  cbn [eng_some] in Hx. unfold eng_bind at 1, eng_ret at 1 in Hx.
  pose proof (route_unmoved task_id ports w) as Hr.
  destruct (route_ready_task slots task_id ports w) as [[routed|e] w1] eqn:Er; cbn [snd] in Hr.
  - apply (walked_after _ _ _ _ _ w1); [done|]. assert (valid MIGRATIONS (wo_db w1)) as V1 by by apply Hr.
    apply commit_settles in Hx; [|done]. destruct r as [[| | | |run t]|[]]; cbn in *; try done.
    destruct Hx as [-> Hx]. exists [], goal_id, order, routed, w. by rewrite Er.
  - unfold eng_bind at 1 in Hx. pose proof (defer_unmoved candidate e (snap_now snap) w1) as Hd.
    destruct (schedule_defer slots candidate e (snap_now snap) w1) as [d w2] eqn:Ed. cbn [snd] in Hd.
    pose proof (defer_outcome _ _ _ _ _ _ Ed) as Ho. assert (on_db unmoved w w2) as Hu by by etrans.
    destruct d as [[| |t reason| |]|[]]; try done; [|injection Hx as <- <-; exact Hu].
    apply IH in Hx; [|intros p Hp; apply Hin; by right|by apply Hu]. apply (walked_after _ _ _ _ w w2) in Hx; [|done].
    destruct r as [[| | | |run t']|[]]; cbn [walked] in *; try done.
    destruct Hx as (pre & g & post & routed & w3 & -> & Hp & Hs & Hd'). exists ((goal_id, task_id) :: pre), g, post, routed, w3.
    split_and!; [done| |done..]. exists candidate, e, w1. by rewrite Ed.
Qed.

(** The order names candidates of its own snapshot. *)
Lemma service_order_candidates goals (candidates : list DispatchCandidate) p :
  p ∈ service_order goals (map schedulable candidates) → ∃ c, c ∈ candidates ∧ dc_task_id c = p.2.
Proof.
  unfold service_order, sort. intros Hp. apply list_elem_of_In, in_map_iff in Hp as (x & <- & Hx%list_elem_of_In).
  rewrite elem_of_sort_by in Hx. apply list_elem_of_In, in_map_iff in Hx as (t & <- & Ht).
  apply in_map_iff in Ht as (c & <- & Hc%list_elem_of_In). by exists c.
Qed.
End Cycle.

(** ** Claims *)

(** C7: A scheduling cycle dispatches at most one Run, fairly, and otherwise leaves
    dispatch as it found it. If nobody else dispatches meanwhile, a cycle that does
    not commit - idle, suppressed, deferred, in contention, or failed anywhere - has
    changed no Run, no slot, no Task, no fairness account and no scheduler state. One
    that commits names a Task of the service order of its own snapshot, taken at the
    cycle's own time; every Task before it in that order was tried in turn, could not be
    routed and was deferred, and the Task was then routed; and either this very commitment had been made before and nothing moved, or dispatch was running,
    the slot free and the Task Ready before, and afterwards the Run holds the slot,
    the Task is Active under it, the Goal is charged and the scheduler advanced. The
    cycle never panics. *)
Theorem cycle_dispatches_at_most_one `{Sha256} slots ports w r w'
    (Hvalid : valid MIGRATIONS (wo_db w))
    (Hothers : ∀ i q t, q ∈ slot_before (slots i) → t ∈ dispatch_tables → t ∉ footprint (rq_operation q))
    (Hx : schedule_once slots ports w = (r, w')) :
  match r with
  | Ok (CommittedRun run_id task_id) =>
      ∃ snap pre goal_id post routed w1,
        scheduling_snapshot MIGRATIONS (amb_now (slot_ambient (slots (wo_turn w)))) (wo_db (turns slots 1 w)) = Ok snap ∧
        service_order (map row_fairness (snap_goals snap)) (map schedulable (snap_candidates snap)) =
          pre ++ (goal_id, task_id) :: post ∧
        passed_over slots ports snap pre (turns slots 2 w) w1 ∧
        (route_ready_task slots task_id ports w1).1 = Ok routed ∧
        ((∀ t, t ∈ dispatch_tables → rows (wo_db w') t = rows (wo_db w) t) ∨
         dispatched (wo_db w) (wo_db w') goal_id task_id run_id)
  | Err (SchedulingPanic _) => False
  | _ => ∀ t, t ∈ dispatch_tables → rows (wo_db w') t = rows (wo_db w) t
  end.
Proof.
  unfold schedule_once, eng_bind at 1, eng_map_err at 1, authority_snapshot in Hx.
  destruct (wo_published w) as [snapshot|]; cbn [ok_or] in Hx; [|by injection Hx as <- <-].
  destruct (snap_compiled snapshot); [|by injection Hx as <- <-]. unfold eng_bind at 1 in Hx.
  unfold sched_read at 1, eng_map_err at 1 in Hx.
  pose proof (read_unmoved slots Hothers (fun amb db => scheduling_snapshot MIGRATIONS (amb_now amb) db) w) as H1.
  destruct (eng_read slots _ w) as [r1 w1] eqn:E1. cbn [snd] in H1.
  destruct r1 as [snap|e]; [|injection Hx as <- <-; apply H1].
  apply eng_read_Ok in E1 as [-> Hsnap]. case_bool_decide; [injection Hx as <- <-; apply H1|].
  unfold eng_bind at 1, sched_read at 1, eng_map_err at 1 in Hx.
  pose proof (read_unmoved slots Hothers (fun _ => slot_holder) (turns slots 1 w)) as H2.
  destruct (eng_read slots _ (turns slots 1 w)) as [r2 w2] eqn:E2. cbn [snd] in H2.
  assert (on_db unmoved w w2) as U by by etrans.
  destruct r2 as [[holder|]|e]; [injection Hx as <- <-; apply U| |injection Hx as <- <-; apply U].
  apply eng_read_Ok in E2 as [-> _]. change (turns slots 1 (turns slots 1 w)) with (turns slots 2 w) in *. set (w2 := turns slots 2 w) in *.
  remember (service_order _ _) as order eqn:Eo. destruct order as [|p order]; [injection Hx as <- <-; apply U|].
  assert (valid MIGRATIONS (wo_db w2)) as V by by apply U.
  apply walk_walked in Hx; [|done| |done].
  2:{ intros q Hq. rewrite Eo in Hq. by apply service_order_candidates in Hq. }
  apply (walked_after _ _ _ _ _ w _ _ _ U) in Hx.
  destruct r as [[| | | |run t]|[]]; cbn in Hx; [apply Hx..| |apply Hx|apply Hx|done].
  destruct Hx as (pre & g & post & routed & w3 & He & Hp & Hr & Hs). exists snap, pre, g, post, routed, w3.
  split_and!; [exact Hsnap|by rewrite <-Eo|done|done|].
  destruct Hs as [Hs|Hs]; [left; apply Hs|by right].
Qed.
