(* ===== verification/EngineContext.v ===== *)
(** * Preparing a Run's context ([pantheon-engine/src/context.rs])

    The sources a Run froze are read back by identity, verified, and built into its
    context plan, which is attached once. *)

From Stdlib Require Import ZArith Ascii Lia.
From S2P Require Import Prelude Utf8 Canonical Parse ParseFacts Digest Goal Task ConfigModel Scheduling ContextPlan Workspace Sql Schema Transaction Command StoreBase StorePlanning StoreConfiguration StoreWorkspace StoreContext StoreLaws StoreHistory StoreFrames EngineBase EngineConfiguration EngineRouting EngineScheduling.

(** ** Definitions *)

Record PreparedContext : Type := {
  pc_run_id : string;
  pc_source_snapshot_digest : Digest;
  pc_context_plan_digest : Digest;
  pc_plan : ContextPlan
}.

(** Why a stored source cannot be read. *)
Inductive SourceFault : Type :=
| FaultSnapshot (e : SnapshotDecodeError)
| FaultPolicyDomain (domain : string)
| FaultText (s : Stop)
| FaultPolicy (e : ContextPolicyDecodeError)
| FaultTask (e : TaskDecodeError)
| FaultGuidance (e : GuidanceSourceError)
| FaultNotUtf8.

Inductive ContextPreparationError : Type :=
| CtxStore (e : StoreError)
| FrozenSnapshotUnavailable (digest : string)
| SourceDigestMismatch (source expected actual : string)
| RequiredSourceUnavailable (detail : Message)
| WrongSourceRelation (detail : Message)
| MalformedSource (detail : SourceFault)
| PolicyUnsatisfiable (e : ContextPlanError).

Section Context.
Context `{Sha256}.

Definition decode_frozen_snapshot (stored : option string) (expected : Digest) :
    Result ContextSourceSnapshot ContextPreparationError :=
  let? stored := ok_or stored (FrozenSnapshotUnavailable (to_display expected)) in
  if negb (bool_decide (digest_of stored = expected))
  then Err (SourceDigestMismatch "context-source-snapshot" (to_display expected) (to_display (digest_of stored)))
  else
    let? snapshot := map_err (fun e => MalformedSource (FaultSnapshot e)) (snapshot_from_canonical_json stored) in
    if negb (bool_decide (snapshot_digest snapshot = expected))
    then Err (SourceDigestMismatch "context-source-snapshot" (to_display expected) (to_display (snapshot_digest snapshot)))
    else Ok snapshot.

Definition decode_frozen_policy (stored : option (string * string)) (expected : Digest) :
    Result ContextComponent ContextPreparationError :=
  let? (domain, canonical_json) := ok_or stored
    (RequiredSourceUnavailable (message "context policy component" [to_display expected])) in
  if negb (String.eqb domain "context") then Err (MalformedSource (FaultPolicyDomain domain))
  else
    let? value := map_err (fun e => MalformedSource (FaultText e)) (parse canonical_json) in
    map_err (fun e => MalformedSource (FaultPolicy e)) (context_from_canonical_value value).

Definition decode_task_spec (stored : option string) (expected : Digest) :
    Result TaskSpec ContextPreparationError :=
  let? canonical := ok_or stored (RequiredSourceUnavailable (message "task specification" [to_display expected])) in
  let? spec := map_err (fun e => MalformedSource (FaultTask e)) (task_from_canonical_json canonical) in
  if negb (bool_decide (task_digest spec = expected))
  then Err (SourceDigestMismatch "task-specification" (to_display expected) (to_display (task_digest spec)))
  else Ok spec.

Definition verify_task_relation (spec : TaskSpec) (snapshot : ContextSourceSnapshot) :
    Result unit ContextPreparationError :=
  if negb (String.eqb (task_goal_id spec) (cs_goal_id snapshot))
     || negb (Z.eqb (task_goal_revision spec) (cs_goal_revision snapshot))
  then Err (WrongSourceRelation (message "spec names another goal than the snapshot froze"
              [task_goal_id spec; cs_goal_id snapshot]))
  else Ok tt.

Definition verify_goal_content (content : GoalRevisionContent) : Result unit ContextPreparationError :=
  let actual := digest_of (grc_canonical_json content) in
  if negb (bool_decide (actual = grc_content_digest content))
  then Err (SourceDigestMismatch "goal-revision" (to_display (grc_content_digest content)) (to_display actual))
  else Ok tt.

Definition decode_agent_guidance (agents_component_json : string) (snapshot : ContextSourceSnapshot) :
    Result AgentGuidance ContextPreparationError :=
  let? value := map_err (fun e => MalformedSource (FaultText e)) (parse agents_component_json) in
  let? guidance := map_err (fun e =>
      match e with
      | VersionAbsent agent => RequiredSourceUnavailable (message "agent in the frozen agents component" [lav_name agent])
      | other => MalformedSource (FaultGuidance other)
      end) (frozen_agent_guidance value (cs_agent snapshot)) in
  if negb (bool_decide (guidance_digest (guidance_soul guidance) = cs_agent_soul_digest snapshot))
     || negb (bool_decide (guidance_digest (guidance_behavior guidance) = cs_agent_behavior_digest snapshot))
  then Err (SourceDigestMismatch "agent-guidance" (to_display (cs_agent_soul_digest snapshot))
              (to_display (guidance_digest (guidance_soul guidance))))
  else Ok guidance.

Definition verify_workspace_relation (workspace : option WorkspaceRecord) (task_id : string)
    (snapshot : ContextSourceSnapshot) : Result WorkspaceRecord ContextPreparationError :=
  let? workspace := ok_or workspace (RequiredSourceUnavailable (message "workspace" [cs_workspace_id snapshot])) in
  if negb (String.eqb (ws_task_id workspace) task_id)
  then Err (WrongSourceRelation (message "workspace belongs to another task" [ws_task_id workspace; task_id]))
  else if negb (String.eqb (resolved_text (ws_resolved_base workspace)) (cs_workspace_resolved_base snapshot))
  then Err (WrongSourceRelation (message "workspace resolved to another base"
              [resolved_text (ws_resolved_base workspace); cs_workspace_resolved_base snapshot]))
  else Ok workspace.

Variable slots : nat → Slot.

Definition ctx_read {A} (q : Database → Result A StoreError) : Eng ContextPreparationError A :=
  eng_map_err CtxStore (eng_read slots (fun _ => q)).

(** The attachment's command, named by what is attached. *)
Definition attachment_command (epoch : string) (run : RunRecord) (digest : Digest) : Command :=
  let hash := digest_bytes (value_digest (object [
    ("kind", Str "run.context-plan-attachment");
    ("runId", Str (run_id_ run));
    ("sourceSnapshotDigest", Str (to_display (run_source_snapshot_digest run)));
    ("planDigest", Str (to_display digest))])) in
  {| cmd_epoch := epoch; cmd_id := "t3a-" +:+ short_hex hash; cmd_request_hash := hash;
     cmd_event_type := "run.context.attached" |}.

(** Steps 1 to 8: the frozen sources, verified, and the plan they give. *)
Definition prepare_plan (run_id : string) : Eng ContextPreparationError (RunRecord * ContextPlan) :=
  let@ found := ctx_read (fun db => run_record MIGRATIONS db run_id) in
  let@ run := eng_some found (CtxStore (RunNotFound run_id)) in
  let@ stored_snapshot := ctx_read (fun db => context_source_snapshot_json MIGRATIONS db (run_source_snapshot_digest run)) in
  let@ snapshot := eng_try (decode_frozen_snapshot stored_snapshot (run_source_snapshot_digest run)) in
  let@ stored_policy := ctx_read (fun db => configuration_component_json MIGRATIONS db (cs_context_policy_digest snapshot)) in
  let@ policy := eng_try (decode_frozen_policy stored_policy (cs_context_policy_digest snapshot)) in
  let@ stored_spec := ctx_read (fun db => task_spec_json MIGRATIONS db (cs_task_spec_digest snapshot)) in
  let@ spec := eng_try (decode_task_spec stored_spec (cs_task_spec_digest snapshot)) in
  do@ eng_try (verify_task_relation spec snapshot) in
  let@ found_goal := ctx_read (fun db => goal_revision_content MIGRATIONS db (cs_goal_id snapshot) (cs_goal_revision snapshot)) in
  let@ goal := eng_some found_goal (RequiredSourceUnavailable (message "goal revision" [cs_goal_id snapshot])) in
  do@ eng_try (verify_goal_content goal) in
  let@ found_agents := ctx_read (fun db => revision_agents_component_json db (cs_configuration_activation_sequence snapshot)) in
  let@ agents_json := eng_some found_agents (RequiredSourceUnavailable (message "agents component of configuration revision" [])) in
  let@ guidance := eng_try (decode_agent_guidance agents_json snapshot) in
  let@ found_workspace := ctx_read (fun db => workspace_record MIGRATIONS db (cs_workspace_id snapshot)) in
  let@ workspace := eng_try (verify_workspace_relation found_workspace (run_task_id_ run) snapshot) in
  let@ plan := eng_try (map_err PolicyUnsatisfiable (build_context_plan snapshot
    {| fs_task_spec := spec; fs_goal_content_digest := grc_content_digest goal; fs_soul := guidance_soul guidance;
       fs_behavior := guidance_behavior guidance; fs_workspace_repository := ws_repository workspace |} policy)) in
  eng_ret (run, plan).

Definition prepare_run_context (run_id : string) : Eng ContextPreparationError PreparedContext :=
  let@ (run, plan) := prepare_plan run_id in
  let digest := plan_digest plan in
  let canonical := to_canonical_bytes (plan_to_value plan) in
  if negb (utf8_valid canonical) then eng_err (MalformedSource FaultNotUtf8)
  else
    let prepared := {| pc_run_id := run_id_ run; pc_source_snapshot_digest := run_source_snapshot_digest run;
                       pc_context_plan_digest := digest; pc_plan := plan |} in
    let@ existing := ctx_read (fun db => run_context_plan MIGRATIONS db (run_id_ run)) in
    if match existing with
       | Some record => bool_decide (rcp_plan_digest record = digest)
       | None => false
       end
    then eng_ret prepared
    else
      let@ epoch := ctx_read read_restore_generation in
      do@ eng_map_err CtxStore (eng_command slots (attachment_command epoch run digest)
        (fun amb => apply_attachment MIGRATIONS amb
          {| cpa_run_id := run_id_ run; cpa_source_snapshot_digest := run_source_snapshot_digest run;
             cpa_plan_digest := digest; cpa_builder_version := CONTEXT_BUILDER_VERSION;
             cpa_plan_canonical_json := canonical |})) in
      eng_ret prepared.
End Context.

(** ** What later reads give *)

Definition later (db db' : Database) : Prop :=
  valid MIGRATIONS db ∧ valid MIGRATIONS db' ∧ evolves db db'.

Lemma later_trans d1 d2 d3 : later d1 d2 → later d2 d3 → later d1 d3.
Proof. intros (V1 & _ & E1) (_ & V3 & E2). split_and!; [done|done|by etrans]. Qed.

Lemma advances_later w w' : advances w w' → valid MIGRATIONS (wo_db w) → later (wo_db w) (wo_db w').
Proof. intros Ha Hv. destruct (Ha Hv) as [E V _ _]. by split_and!. Qed.

(** A read whose answer, once there, stays. *)
Definition frozen_read {A} (q : Database → Result (option A) StoreError) : Prop :=
  ∀ db db' a, later db db' → q db = Ok (Some a) → q db' = Ok (Some a).

Lemma frozen_and_then {A B} (q : Database → Result (option A) StoreError) (f : A → Result B StoreError) :
  frozen_read q → frozen_read (fun db => and_then (q db) f).
Proof.
  intros Hq db db' b Hl. unfold and_then. intros (o & Ho & Hx)%try_bind_Ok. destruct o as [a|]; [|done].
  rewrite (Hq db db' a Hl Ho). cbn. done.
Qed.

(** The rows of an append-only table are a prefix of its later rows. *)
Lemma append_only db db' table : evolves db db' → law table = None → ∃ added, rows db' table = rows db table ++ added.
Proof.
  intros He Hl. destruct (He table) as (kept & added & -> & Hf). exists added. f_equal. clear -Hf Hl.
  induction Hf as [|x y l k Hxy _ IH]; [done|]. unfold row_law in Hxy. rewrite Hl in Hxy. by rewrite IH, Hxy.
Qed.

Lemma frozen_row_read {A} table cols p (decode : Row → Result A SqliteError) :
  law table = None → frozen_read (fun db => read_row MIGRATIONS db table cols p decode).
Proof.
  intros Hl db db' a (_ & _ & He) Hr. destruct (append_only _ _ _ He Hl) as [added Ha].
  unfold read_row, select in *. rewrite Ha, filter_app_b.
  destruct (table_schema MIGRATIONS table) as [t|]; [|done]. cbn in *. destruct (known_columns t cols); [|done]. cbn in *.
  by destruct (List.filter p (rows db table)).
Qed.

(** The rows with one activation sequence. *)
Lemma revision_rows db sequence :
  valid MIGRATIONS db → length (joined db "configuration_revisions" "activation_sequence" (SInteger sequence)) ≤ 1.
Proof.
  intros Hv. apply (unique_filter_le MIGRATIONS db "configuration_revisions" configuration_revisions_table
    (primary_key ["activation_sequence"]) _ [SInteger sequence]); [done|done|cbn; set_solver|].
  intros r _ Hc. split; [done|]. apply col_is_true in Hc as [_ Hc]. unfold key_tuple. cbn. by rewrite Hc.
Qed.

Section Kept.
Context `{Sha256}.

Lemma frozen_run run_id : frozen_read (fun db => run_record MIGRATIONS db run_id).
Proof. apply frozen_and_then, frozen_row_read. done. Qed.

Lemma frozen_snapshot_json d : frozen_read (fun db => context_source_snapshot_json MIGRATIONS db d).
Proof. by apply frozen_row_read. Qed.

Lemma frozen_component d : frozen_read (fun db => configuration_component_json MIGRATIONS db d).
Proof. apply frozen_and_then, frozen_row_read. done. Qed.

Lemma frozen_spec d : frozen_read (fun db => task_spec_json MIGRATIONS db d).
Proof. by apply frozen_row_read. Qed.

Lemma frozen_goal g n : frozen_read (fun db => goal_revision_content MIGRATIONS db g n).
Proof. apply frozen_and_then, frozen_row_read. done. Qed.

Lemma frozen_agents n : frozen_read (fun db => revision_agents_component_json db n).
Proof.
  apply frozen_and_then. intros db db' a (V & V' & He) Hx.
  destruct (append_only _ _ "configuration_revisions" He eq_refl) as [ar Hr].
  destruct (append_only _ _ "configuration_components" He eq_refl) as [ac Hc].
  pose proof (revision_rows db' n V') as Hle. unfold joined in *. rewrite Hr, filter_app_b in *.
  destruct (List.filter _ (rows db "configuration_revisions")) as [|r l]; [done|].
  assert (l = [] ∧ List.filter (col_is "activation_sequence" (SInteger n)) ar = []) as [-> ->].
  { rewrite length_app in Hle. cbn in Hle. destruct l, (List.filter _ ar); cbn in Hle; done || lia. }
  cbn in *. rewrite app_nil_r in *. rewrite Hc, filter_app_b, filter_app_b, map_app.
  by destruct (map _ (List.filter (col_is "domain" _) (List.filter _ (rows db "configuration_components")))).
Qed.

(** The Workspace of an identity keeps its repository. *)
Lemma first_kept db db' table kc v l r k :
  evolves db db' → law table = Some l → kc ∈ law_frozen l → List.filter (col_is kc v) (rows db table) = r :: k →
  ∃ s k', List.filter (col_is kc v) (rows db' table) = s :: k' ∧ obeys l r s.
Proof.
  intros He Hl Hkc. destruct (He table) as (kept & added & -> & Hf). rewrite filter_app_b. revert k. clear He.
  induction Hf as [|x y xs ys Hxy _ IH]; intros k; cbn; [done|]. unfold row_law in Hxy. rewrite Hl in Hxy.
  assert (col_is kc v y = col_is kc v x) as ->. { unfold col_is. by rewrite (proj1 Hxy kc Hkc). }
  destruct (col_is kc v x); [|apply IH]. intros [= <- <-]. eexists _, _. split; [done|done].
Qed.

Lemma workspace_repository db db' id x y :
  later db db' → workspace_record MIGRATIONS db id = Ok (Some x) → workspace_record MIGRATIONS db' id = Ok (Some y) →
  ws_repository y = ws_repository x.
Proof.
  intros (_ & _ & He). unfold workspace_record, and_then.
  intros (o & Ho & Hx)%try_bind_Ok (o' & Ho' & Hy)%try_bind_Ok.
  rewrite (read_row_eval _ _ _ _ _ _ workspaces_table) in Ho by done.
  rewrite (read_row_eval _ _ _ _ _ _ workspaces_table) in Ho' by done.
  destruct (List.filter (col_is "id" (SText id)) (rows db "workspaces")) as [|r k] eqn:Ef; [injection Ho as <-; done|].
  assert (∃ l, law "workspaces" = Some l ∧ "id" ∈ law_frozen l ∧ "repository" ∈ law_frozen l) as (l & Hl & Hid & Hrep)
    by (eexists; split; [reflexivity|]; split; elem).
  destruct (first_kept _ _ _ _ _ _ _ _ He Hl Hid Ef) as (s & k' & Ef' & Hobey).
  rewrite Ef' in Ho'. destruct (decode_workspace r) as [a|] eqn:Da; [|done]. destruct (decode_workspace s) as [b|] eqn:Db; [|done].
  injection Ho as <-. injection Ho' as <-. cbn [try_bind] in *.
  destruct (workspace_of id a) as [wa|] eqn:Wa; [|done]. destruct (workspace_of id b) as [wb|] eqn:Wb; [|done].
  injection Hx as <-. injection Hy as <-.
  destruct a as [[[[[[[t1 r1] s1] q1] b1] p1] m1] n1], b as [[[[[[[t2 r2] s2] q2] b2] p2] m2] n2].
  unfold decode_workspace in Da, Db. decode_inv Da. decode_inv Db.
  assert (r2 = r1) as ->. { assert (column s "repository" = column r "repository") as Hc by exact (proj1 Hobey _ Hrep). congruence. }
  unfold workspace_of in Wa, Wb. repeat (apply try_bind_Ok in Wa as (? & _ & Wa)). repeat (apply try_bind_Ok in Wb as (? & _ & Wb)).
  injection Wa as <-. by injection Wb as <-.
Qed.
End Kept.

(** ** The plan is a function of what the Run froze *)

Section Reproducible.
Context `{Sha256}.

(** The sources of a Run, as read between two moments, and the plan they give. *)
Record gives (since db : Database) (run_id : string) (run : RunRecord) (plan : ContextPlan) : Prop := {
  gi_run : run_record MIGRATIONS db run_id = Ok (Some run);
  gi_rest : ∃ snapshot_json snapshot component policy spec_json spec goal agents_json guidance dbw workspace,
    context_source_snapshot_json MIGRATIONS db (run_source_snapshot_digest run) = Ok (Some snapshot_json) ∧
    decode_frozen_snapshot (Some snapshot_json) (run_source_snapshot_digest run) = Ok snapshot ∧
    configuration_component_json MIGRATIONS db (cs_context_policy_digest snapshot) = Ok (Some component) ∧
    decode_frozen_policy (Some component) (cs_context_policy_digest snapshot) = Ok policy ∧
    task_spec_json MIGRATIONS db (cs_task_spec_digest snapshot) = Ok (Some spec_json) ∧
    decode_task_spec (Some spec_json) (cs_task_spec_digest snapshot) = Ok spec ∧
    goal_revision_content MIGRATIONS db (cs_goal_id snapshot) (cs_goal_revision snapshot) = Ok (Some goal) ∧
    revision_agents_component_json db (cs_configuration_activation_sequence snapshot) = Ok (Some agents_json) ∧
    decode_agent_guidance agents_json snapshot = Ok guidance ∧
    later since dbw ∧ later dbw db ∧ workspace_record MIGRATIONS dbw (cs_workspace_id snapshot) = Ok (Some workspace) ∧
    build_context_plan snapshot
      {| fs_task_spec := spec; fs_goal_content_digest := grc_content_digest goal; fs_soul := guidance_soul guidance;
         fs_behavior := guidance_behavior guidance; fs_workspace_repository := ws_repository workspace |} policy = Ok plan
}.

Lemma gives_later since db db' run_id run plan :
  later db db' → gives since db run_id run plan → gives since db' run_id run plan.
Proof.
  intros Hl [Hr (sj & sn & cj & po & tj & sp & go & aj & gu & dw & ws & H1 & H2 & H3 & H4 & H5 & H6 & H7 & H8 & H9 & H10 & H11 & H12 & H13)].
  split; [by eapply frozen_run|]. exists sj, sn, cj, po, tj, sp, go, aj, gu, dw, ws.
  split_and!; try done.
  - by eapply frozen_snapshot_json.
  - by eapply frozen_component.
  - by eapply frozen_spec.
  - by eapply frozen_goal.
  - by eapply frozen_agents.
  - by eapply later_trans.
Qed.

(** What two preparations read, one after the other, is the same. *)
Lemma gives_same since1 db1 since2 db2 run_id run1 plan1 run2 plan2 :
  later db1 since2 → gives since1 db1 run_id run1 plan1 → gives since2 db2 run_id run2 plan2 → later since2 db2 →
  run1 = run2 ∧ plan1 = plan2.
Proof.
  intros L1 G1 G2 L2. pose proof (later_trans _ _ _ L1 L2) as L.
  destruct G1 as [R1 (sj & sn & cj & po & tj & sp & go & aj & gu & dw & ws & H1 & H2 & H3 & H4 & H5 & H6 & H7 & H8 & H9 & _ & H11 & H12 & H13)].
  destruct G2 as [R2 (sj' & sn' & cj' & po' & tj' & sp' & go' & aj' & gu' & dw' & ws' & K1 & K2 & K3 & K4 & K5 & K6 & K7 & K8 & K9 & K10 & _ & K12 & K13)].
  apply (frozen_run _ _ _ _ L) in R1. rewrite R2 in R1. injection R1 as ->. split; [done|].
  apply (frozen_snapshot_json _ _ _ _ L) in H1. rewrite K1 in H1. injection H1 as ->. rewrite K2 in H2. injection H2 as ->.
  apply (frozen_component _ _ _ _ L) in H3. rewrite K3 in H3. injection H3 as ->. rewrite K4 in H4. injection H4 as ->.
  apply (frozen_spec _ _ _ _ L) in H5. rewrite K5 in H5. injection H5 as ->. rewrite K6 in H6. injection H6 as ->.
  apply (frozen_goal _ _ _ _ _ L) in H7. rewrite K7 in H7. injection H7 as ->.
  apply (frozen_agents _ _ _ _ L) in H8. rewrite K8 in H8. injection H8 as ->. rewrite K9 in H9. injection H9 as ->.
  assert (later dw dw') as Lw by exact (later_trans _ _ _ H11 (later_trans _ _ _ L1 K10)).
  rewrite <-(workspace_repository _ _ _ _ _ Lw H12 K12), K13 in H13. by injection H13 as ->.
Qed.

Variable slots : nat → Slot.

Lemma source_later {A} (q : Database → Result A StoreError) w a w1 :
  valid MIGRATIONS (wo_db w) → eng_read slots (fun _ => q) w = (Ok a, w1) →
  later (wo_db w) (wo_db w1) ∧ valid MIGRATIONS (wo_db w1) ∧ q (wo_db w1) = Ok a.
Proof.
  intros Hv Hx. pose proof (eng_read_advances slots (fun _ => q) w) as Ha. rewrite Hx in Ha.
  apply eng_read_Ok in Hx as [-> Hq]. pose proof (advances_later _ _ Ha Hv) as Hl. split_and!; [done|apply Hl|done].
Qed.

Ltac source_step Hx V :=
  let E := fresh "E" in let L := fresh "L" in let V' := fresh "V" in let Q := fresh "Q" in
  eng_step Hx as E; destruct (source_later _ _ _ _ V E) as (L & V' & Q); clear E.

Ltac pure_step Hx Q :=
  let E := fresh "E" in
  eng_step Hx as E; first [apply eng_try_Ok in E as [Q ->] | apply eng_some_Ok in E as [-> ->]].

Lemma prepare_plan_gives run_id w run plan w' :
  valid MIGRATIONS (wo_db w) → prepare_plan slots run_id w = (Ok (run, plan), w') →
  later (wo_db w) (wo_db w') ∧ gives (wo_db w) (wo_db w') run_id run plan.
Proof.
  intros V Hx. unfold prepare_plan in Hx.
  source_step Hx V. pure_step Hx P0. source_step Hx V0. pure_step Hx P1. source_step Hx V1. pure_step Hx P2.
  source_step Hx V2. pure_step Hx P3. pure_step Hx P4. source_step Hx V3. pure_step Hx P5. pure_step Hx P6.
  source_step Hx V4. pure_step Hx P7. pure_step Hx P8. source_step Hx V5. pure_step Hx P9. pure_step Hx P10.
  apply eng_ret_Ok in Hx as [[= <- <-] ->].
  destruct a as [sj|]; [|done]. destruct a2 as [cj|]; [|done]. destruct a4 as [tj|]; [|done]. destruct a11 as [ws|]; [|done].
  assert (a12 = ws) as ->.
  { unfold verify_workspace_relation in P9. cbn in P9. repeat (destruct (negb _); [done|]). by injection P9. }
  destruct (build_context_plan _ _ _) as [p|] eqn:Eb; [|done]. injection P10 as ->.
  assert (later (wo_db w5) (wo_db w6)) as M5 by done. pose proof (later_trans _ _ _ L4 M5) as M4.
  pose proof (later_trans _ _ _ L3 M4) as M3. pose proof (later_trans _ _ _ L2 M3) as M2.
  pose proof (later_trans _ _ _ L1 M2) as M1. pose proof (later_trans _ _ _ L0 M1) as M0.
  pose proof (later_trans _ _ _ L M0) as M. split; [done|].
  split; [exact (frozen_run _ _ _ _ M0 Q)|].
  exists sj, a1, cj, a3, tj, a5, a8, a10, a9, (wo_db w6), ws. split_and!; try done.
  - exact (frozen_snapshot_json _ _ _ _ M1 Q0).
  - exact (frozen_component _ _ _ _ M2 Q1).
  - exact (frozen_spec _ _ _ _ M3 Q2).
  - exact (frozen_goal _ _ _ _ _ M4 Q3).
  - exact (frozen_agents _ _ _ _ M5 Q4).
Qed.

Lemma attach_advances c a : keeps advances (eng_command slots c (fun amb => apply_attachment MIGRATIONS amb a)).
Proof. by apply (eng_command_advances slots c _ (OpAttachPlan a)). Qed.

Lemma prepare_context_gives run_id w p w' :
  valid MIGRATIONS (wo_db w) → prepare_run_context slots run_id w = (Ok p, w') →
  later (wo_db w) (wo_db w') ∧
  ∃ run, gives (wo_db w) (wo_db w') run_id run (pc_plan p) ∧
    p = {| pc_run_id := run_id_ run; pc_source_snapshot_digest := run_source_snapshot_digest run;
           pc_context_plan_digest := plan_digest (pc_plan p); pc_plan := pc_plan p |}.
Proof.
  intros V Hx. unfold prepare_run_context in Hx. apply eng_bind_Ok in Hx as ([run plan] & w1 & E1 & Hx).
  destruct (prepare_plan_gives _ _ _ _ _ V E1) as [L1 G1]. assert (valid MIGRATIONS (wo_db w1)) as V1 by apply L1.
  destruct (negb _); [done|]. source_step Hx V1. pose proof (later_trans _ _ _ L1 L) as L2.
  assert (∀ w2, later (wo_db w) (wo_db w2) → later (wo_db w0) (wo_db w2) →
    later (wo_db w) (wo_db w2) ∧ ∃ run', gives (wo_db w) (wo_db w2) run_id run' plan ∧
      {| pc_run_id := run_id_ run; pc_source_snapshot_digest := run_source_snapshot_digest run;
         pc_context_plan_digest := plan_digest plan; pc_plan := plan |} =
      {| pc_run_id := run_id_ run'; pc_source_snapshot_digest := run_source_snapshot_digest run';
         pc_context_plan_digest := plan_digest plan; pc_plan := plan |}) as Hend.
  { intros w2 Lw L3. split; [done|]. exists run. split; [|done]. eapply gives_later; [|exact G1]. by eapply later_trans. }
  destruct (match a with Some _ => _ | None => _ end).
  - apply eng_ret_Ok in Hx as [-> ->]. apply Hend; [done|by split_and!].
  - source_step Hx V0. eng_step Hx as Ec. apply eng_ret_Ok in Hx as [-> ->]. edestruct attach_advances as [Ea Va _ _]; [exact V2|].
    erewrite Ec in Ea, Va. assert (later (wo_db w2) (wo_db w3)) as L3 by by split_and!.
    pose proof (later_trans _ _ _ L0 L3) as L4. apply Hend; [by eapply later_trans|done].
Qed.
End Reproducible.

(** ** Claims *)

(** C31: Preparing a Run's context is reproducible. Whenever the preparation of one
    Run succeeds twice - after a crash, by another daemon, after any requests of any
    kind were served in between and whatever configurations were activated, Goals
    replanned or Workspaces moved - both give the same plan under the same digest,
    of the same frozen snapshot. *)
Theorem context_reproducible `{Sha256} slots1 slots2 run_id requests w1 p1 w1' w2 p2 w2'
    (Hvalid : valid MIGRATIONS (wo_db w1)) (Hfirst : prepare_run_context slots1 run_id w1 = (Ok p1, w1'))
    (Hbetween : wo_conn w2 = (serve_all requests (wo_conn w1')).2)
    (Hsecond : prepare_run_context slots2 run_id w2 = (Ok p2, w2')) :
  p1 = p2.
Proof.
  destruct (prepare_context_gives slots1 _ _ _ _ Hvalid Hfirst) as (L1 & run1 & G1 & E1).
  assert (valid MIGRATIONS (wo_db w1')) as V1 by apply L1.
  assert (later (wo_db w1') (wo_db w2)) as Lb.
  { unfold wo_db. rewrite Hbetween. destruct (serve_all_advance requests (wo_conn w1') V1) as [E V _ _]. by split_and!. }
  destruct (prepare_context_gives slots2 _ _ _ _ ltac:(apply Lb) Hsecond) as (L2 & run2 & G2 & E2).
  destruct (gives_same _ _ _ _ _ _ _ _ _ Lb G1 G2 L2) as [-> Hp]. by rewrite E1, E2, Hp.
Qed.
