(* ===== verification/EngineSandbox.v ===== *)
(** * Provisioning a Run's Sandbox ([pantheon-engine/src/sandbox.rs])

    Durable identity first, then the external Sandbox, then its verification, then
    Ready. The backend is not part of the program: its answers, at every moment, are
    an argument. *)

From Stdlib Require Import ZArith Ascii Lia.
From S2P Require Import Prelude Utf8 Canonical Digest Sandbox Sql Schema Transaction Command StoreBase StorePlanning StoreConfiguration StoreSandbox StoreLaws StoreHistory StoreFrames EngineBase EngineConfiguration EngineRouting.

(** ** Definitions *)

Record SandboxError : Type := { se_detail : string }.

(** What the backend answers when asked at the n-th access. *)
Record SandboxBackend : Type := {
  ensure_sandbox : nat → SandboxKey → SandboxPlan → Result SandboxPresence SandboxError;
  inspect_sandbox : nat → SandboxKey → Result SandboxPresence SandboxError;
  release_sandbox : nat → SandboxKey → Result unit SandboxError;
  verify_sandbox : nat → SandboxKey → SandboxPlan → Result SandboxVerification SandboxError
}.

(** Why provisioning failed, in what the text is made of. *)
Inductive ProvisioningDetail : Type :=
| ByBackend (e : SandboxError)
| PhaseError
| PhaseReleasing
| NotPresent (presence : SandboxPresence)
| ProbesUnrecorded (e : StoreError)
| FailureUnrecorded (e : StoreError).

Inductive SandboxControllerError : Type :=
| SandboxStore (e : StoreError)
| ProvisioningFailed (sandbox_id : string) (detail : ProvisioningDetail)
| VerificationFailed (sandbox_id : string)
| InspectionFailed (sandbox_id : string) (e : SandboxError)
| ReleaseFailed (sandbox_id : string) (e : SandboxError)
| SandboxInvariant (detail : Message)
| SandboxPanic (message : string).

(** The backend's answer at this moment. *)
Definition eng_ask {E A} (f : nat → A) : Eng E A := fun w => (Ok (f (wo_turn w)), w).

(** The outcome of a call, error or not. *)
Definition eng_attempt {E F A} (m : Eng E A) : Eng F (Result A E) := fun w =>
  let (r, w') := m w in (Ok r, w').

Definition derive_sandbox_key (run_id : string) : Result SandboxKey SandboxControllerError :=
  map_err (fun _ => SandboxPanic "derived key is valid") (sandbox_key_new ("sandbox-" +:+ run_id)).

(** A step of the same command. *)
Definition step_command (c : Command) (epoch suffix event_type : string) : Command := {|
  cmd_epoch := epoch; cmd_id := cmd_id c +:+ suffix; cmd_request_hash := cmd_request_hash c;
  cmd_event_type := event_type |}.

Section SandboxController.
Context `{Sha256}.
Variable slots : nat → Slot.

Definition sandbox_read {A} (q : Database → Result A StoreError) : Eng SandboxControllerError A :=
  eng_map_err SandboxStore (eng_read slots (fun _ => q)).

Definition need_sandbox (run_id what : string) : Eng SandboxControllerError SandboxRecord :=
  let@ found := sandbox_read (fun db => sandbox_for_run MIGRATIONS db run_id) in
  eng_some found (SandboxInvariant (message what [run_id])).

(** The value of a commit, or the stored record on replay. *)
Definition committed_sandbox (run_id : string) (c : Committed SandboxRecord) : Eng SandboxControllerError SandboxRecord :=
  match c with
  | Executed value _ => eng_ret value
  | Replayed _ _ => need_sandbox run_id "sandbox for run reported replayed but not found"
  end.

Definition sandbox_command (c : Command) (m : Ambient → Tx SandboxRecord) :
    Eng SandboxControllerError (Committed SandboxRecord) :=
  eng_map_err SandboxStore (eng_command slots c m).

Definition probe_evidence (run_id : string) (key : SandboxKey) (plan : SandboxPlan) (v : SandboxVerification)
    (result : SandboxProbeResult) : SandboxProbeEvidence := {|
  pe_sandbox_id := sandbox_key_text key; pe_run_id := run_id; pe_probe_name := probe_name result;
  pe_expected := probe_expected result; pe_observed := probe_observed result; pe_passed := probe_passed result;
  pe_backend_descriptor := sv_backend_descriptor v; pe_backend_version := sv_backend_version v;
  pe_platform := sv_platform v; pe_architecture := sv_architecture v;
  pe_probe_implementation_version := sv_probe_implementation_version v;
  pe_environment_identity := spl_environment_identity plan; pe_sandbox_plan_digest := sandbox_plan_digest plan;
  pe_launch_decision := "blocked" |}.

(** [record_probe_evidence]: one command for each result. *)
Fixpoint record_probes (c : Command) (run_id : string) (key : SandboxKey) (plan : SandboxPlan)
    (v : SandboxVerification) (results : list SandboxProbeResult) : Eng StoreError unit :=
  match results with
  | [] => eng_ret tt
  | result :: rest =>
      do@ eng_command slots (step_command c (cmd_epoch c) ("-probe-" +:+ probe_name result) "sandbox.probe.recorded")
            (fun amb => record_sandbox_probe_evidence MIGRATIONS amb (probe_evidence run_id key plan v result)) in
      record_probes c run_id key plan v rest
  end.

Definition record_failure (c : Command) (epoch : string) (key : SandboxKey) (record : SandboxRecord)
    (presence : SandboxPresence) : Eng StoreError (Committed SandboxRecord) :=
  eng_command slots (step_command c epoch "-fail" "sandbox.failed")
    (fun _ => fail_sandbox MIGRATIONS (sandbox_key_text key) (sb_revision record) presence).

(** What the verification decides about a Sandbox that is present. *)
Definition settle_verified (c : Command) (epoch run_id : string) (key : SandboxKey) (plan : SandboxPlan)
    (record : SandboxRecord) (verified : SandboxVerification) : Eng SandboxControllerError SandboxRecord :=
  let id := sandbox_key_text key in
  if negb (all_passed verified) then
    do@ eng_map_err (fun e => ProvisioningFailed id (ProbesUnrecorded e))
          (record_probes c run_id key plan verified (sv_probe_results verified)) in
    do@ eng_map_err (fun e => ProvisioningFailed id (FailureUnrecorded e))
          (record_failure c epoch key record SbUnknown) in
    eng_err (VerificationFailed id)
  else
    let@ completed := sandbox_command (step_command c epoch "-complete-preparation" "sandbox.preparation.completed")
      (fun _ => complete_sandbox_preparation MIGRATIONS id (sb_revision record)) in
    committed_sandbox run_id completed.

(** From [Requested] or [Preparing] to [Ready]. *)
Definition prepare_sandbox (c : Command) (run_id : string) (key : SandboxKey) (plan : SandboxPlan)
    (backend : SandboxBackend) (record : SandboxRecord) : Eng SandboxControllerError SandboxRecord :=
  let id := sandbox_key_text key in
  let@ record :=
    (if bool_decide (sb_phase record = SbRequested) then
       let@ epoch := sandbox_read read_restore_generation in
       let@ begun := sandbox_command (step_command c epoch "-begin-preparation" "sandbox.preparation.begun")
         (fun _ => begin_sandbox_preparation MIGRATIONS id (sb_revision record)) in
       committed_sandbox run_id begun
     else eng_ret record) in
  let@ epoch := sandbox_read read_restore_generation in
  let@ ensured := eng_ask (fun n => ensure_sandbox backend n key plan) in
  match ensured with
  | Err e =>
      do@ eng_attempt (record_failure c epoch key record SbUnknown) in
      eng_err (ProvisioningFailed id (ByBackend e))
  | Ok SbPresent =>
      let@ checked := eng_ask (fun n => verify_sandbox backend n key plan) in
      let@ verified := eng_try (map_err (fun e => ProvisioningFailed id (ByBackend e)) checked) in
      settle_verified c epoch run_id key plan record verified
  | Ok presence =>
      do@ eng_attempt (record_failure c epoch key record presence) in
      eng_err (ProvisioningFailed id (NotPresent presence))
  end.

Definition provision (c : Command) (run_id : string) (plan : SandboxPlan) (backend : SandboxBackend) :
    Eng SandboxControllerError SandboxRecord :=
  let@ key := eng_try (derive_sandbox_key run_id) in
  let id := sandbox_key_text key in
  let binding := {| sbb_run_id := run_id; sbb_plan_digest := sandbox_plan_digest plan;
                    sbb_environment_identity := spl_environment_identity plan |} in
  let@ created := eng_attempt (eng_command slots c (fun amb => create_sandbox MIGRATIONS amb id binding)) in
  let@ record :=
    match created with
    | Ok committed => committed_sandbox run_id committed
    | Err (SandboxAlreadyCurrent _ _) => need_sandbox run_id "sandbox for run is current but not found"
    | Err other => eng_err (SandboxStore other)
    end in
  match sb_phase record with
  | SbReady => eng_ret record
  | SbError => eng_err (ProvisioningFailed id PhaseError)
  | SbReleasing => eng_err (ProvisioningFailed id PhaseReleasing)
  | SbRequested | SbPreparing => prepare_sandbox c run_id key plan backend record
  | SbReleased => eng_err (SandboxInvariant (message "sandbox for run is current but Released" [run_id]))
  end.

Record ReconciledSandbox : Type := { rcs_record : SandboxRecord; rcs_presence : SandboxPresence }.

(** [reconcile]. *)
Definition reconcile_sandbox (c : Command) (record : SandboxRecord) (backend : SandboxBackend) :
    Eng SandboxControllerError ReconciledSandbox :=
  let@ key := eng_try (map_err (fun _ => SandboxInvariant (message "invalid stored key" [sb_id record]))
    (sandbox_key_new (sb_id record))) in
  let@ inspected := eng_ask (fun n => inspect_sandbox backend n key) in
  let@ presence := eng_try (map_err (InspectionFailed (sb_id record)) inspected) in
  let@ updated := sandbox_command c
    (fun _ => update_sandbox_presence MIGRATIONS (sandbox_key_text key) (sb_revision record) presence) in
  let@ current := committed_sandbox (sb_run_id record) updated in
  eng_ret {| rcs_record := current; rcs_presence := presence |}.

(** A release step, whose replay is read back by identity. *)
Definition released_record (id : string) (c : Committed SandboxRecord) : Eng SandboxControllerError SandboxRecord :=
  match c with
  | Executed value _ => eng_ret value
  | Replayed _ _ =>
      let@ found := sandbox_read (fun db => sandbox_by_id MIGRATIONS db id) in
      eng_some found (SandboxInvariant (message "sandbox reported replayed but not found" [id]))
  end.

Definition begin_release (c : Command) (key : SandboxKey) (expected : Z) (backend : SandboxBackend) :
    Eng SandboxControllerError SandboxRecord :=
  let@ record := sandbox_command c (fun _ => begin_sandbox_release MIGRATIONS (sandbox_key_text key) expected) in
  let@ asked := eng_ask (fun n => release_sandbox backend n key) in
  do@ eng_try (map_err (ReleaseFailed (sandbox_key_text key)) asked) in
  released_record (sandbox_key_text key) record.

Definition complete_release (c : Command) (key : SandboxKey) (expected : Z) (observed : SandboxPresence) :
    Eng SandboxControllerError SandboxRecord :=
  let@ record := sandbox_command c
    (fun _ => complete_sandbox_release MIGRATIONS (sandbox_key_text key) expected observed) in
  released_record (sandbox_key_text key) record.
End SandboxController.

(** ** Lemmas *)

Lemma eng_attempt_Ok {E F A} (m : Eng E A) w r w' :
  eng_attempt (F:=F) m w = (Ok r, w') ↔ m w = (r, w').
Proof. unfold eng_attempt. destruct (m w). naive_solver. Qed.

Lemma keeps_attempt (R : relation World) {E F A} (m : Eng E A) : keeps R m → keeps R (eng_attempt (F:=F) m).
Proof. intros Hm w. specialize (Hm w). unfold eng_attempt. by destruct (m w). Qed.

Lemma keeps_ask (R : relation World) `{!PreOrder R} {E A} (f : nat → A) : keeps R (eng_ask (E:=E) f).
Proof. by intros w. Qed.

Lemma keeps_ask_at (R : relation World) {E A B} (f : nat → A) (k : A → Eng E B) w :
  R w (k (f (wo_turn w)) w).2 → R w (eng_bind (eng_ask f) k w).2.
Proof. done. Qed.

#[export] Hint Resolve keeps_attempt keeps_ask : keeps.

(** *** What becomes Ready *)

Definition is_ready (r : Row) : Prop := column r "phase" = SText (sandbox_phase_as_str SbReady).

(** Every Sandbox that is Ready was Ready. *)
Definition no_new_ready (db db' : Database) : Prop :=
  ∀ s, s ∈ rows db' "sandbox_instances" → is_ready s →
    ∃ r, r ∈ rows db "sandbox_instances" ∧ column r "id" = column s "id" ∧ is_ready r.

#[export] Instance no_new_ready_preorder : PreOrder no_new_ready.
Proof.
  split; [intros db s Hs Hr; by exists s|]. intros d1 d2 d3 H1 H2 s Hs Hr.
  destruct (H2 s Hs Hr) as (t & Ht & Hid & Htr). destruct (H1 t Ht Htr) as (u & Hu & Huid & Hur).
  exists u. split_and!; [done|congruence|done].
Qed.

Lemma no_new_ready_same db db' :
  rows db' "sandbox_instances" = rows db "sandbox_instances" → no_new_ready db db'.
Proof. intros E s Hs Hr. rewrite E in Hs. by exists s. Qed.

Lemma update_sandbox_no_ready id n asg :
  assigned asg "id" = None → assigned asg "phase" ≠ Some (SText (sandbox_phase_as_str SbReady)) →
  preserves no_new_ready (update_revisioned MIGRATIONS SANDBOX_TABLE id n asg).
Proof.
  intros Hid Hp w m w' (_ & _ & _ & _ & _ & Hdb)%update_revisioned_by_Ok s Hs Hr. rewrite Hdb in Hs.
  change (ascii_lower SANDBOX_TABLE) with "sandbox_instances" in Hs. rewrite rows_insert in Hs.
  apply list_elem_of_fmap in Hs as (r & -> & Hin). exists r. destruct (cas_where _ _ _ r); [|done].
  unfold is_ready in *. rewrite !column_set_clause in * by done. rewrite Hid. split_and!; [done|done|].
  destruct (assigned asg "phase") as [v|]; [|done]. cbn in Hr. by subst v.
Qed.

Definition is_ready_step (o : Operation) : bool :=
  match o with
  | OpReadySandbox _ _ => true
  | _ => false
  end.

Lemma insert_sandbox_no_ready now id b :
  preserves no_new_ready (tx_insert MIGRATIONS "sandbox_instances" (sandbox_row now id b)).
Proof.
  intros w n w' (_ & _ & _ & ->)%tx_insert_Ok s Hs Hr. rewrite rows_insert in Hs.
  apply elem_of_app in Hs as [Hs|Hs]; [by exists s|]. apply list_elem_of_singleton in Hs as ->. discriminate Hr.
Qed.

Section Ready.
Context `{Sha256}.

Lemma body_no_ready amb o : is_ready_step o = false → preserves no_new_ready (body amb o).
Proof.
  intros Ho. destruct (bool_decide ("sandbox_instances" ∈ footprint o)) eqn:E.
  - destruct o; try discriminate Ho; try (vm_compute in E; discriminate E); cbn [body]; unfold drop_result.
    all: unfold create_sandbox, current_sandbox_id, begin_sandbox_preparation, begin_sandbox_release,
      complete_sandbox_release, fail_sandbox, update_sandbox_presence, transition_presence, step_from,
      sandbox_phase_at, sandbox_transition, sandbox_in_transaction.
    all: solve_preserves; first [apply insert_sandbox_no_ready | by apply update_sandbox_no_ready].
  - intros w u w' Hx. apply body_footprint in Hx. apply no_new_ready_same.
    apply (Hx "sandbox_instances"). by eapply bool_decide_eq_false_1.
Qed.

Lemma serve_no_ready q conn :
  is_ready_step (rq_operation q) = false → no_new_ready (conn_db conn) (conn_db (serve q conn).2).
Proof.
  intros Ho. apply serve_preserves; [apply _|by apply body_no_ready|]. intros v w r w' Hx.
  apply journal_tail_touches in Hx. apply no_new_ready_same. by apply (Hx "sandbox_instances"); elem.
Qed.

Section Provisioning.
Variable slots : nat → Slot.
Hypothesis others_never : ∀ i q, q ∈ slot_before (slots i) → is_ready_step (rq_operation q) = false.

Lemma read_no_ready {A} (q : Ambient → Database → Result A StoreError) :
  keeps (on_db no_new_ready) (eng_read slots q).
Proof. apply eng_read_on_db; [apply _|]. intros i r conn Hr. by apply serve_no_ready, (others_never i). Qed.

Lemma command_no_ready {A} c (m : Ambient → Tx A) o :
  plain_write o = false → is_ready_step o = false → (∀ amb, body amb o = drop_result (m amb)) →
  keeps (on_db no_new_ready) (eng_command slots c m).
Proof.
  intros Hp Ho Hb. apply (eng_command_on_db _ _) with (o := o); [|done|done|].
  - intros i q conn Hq. by apply serve_no_ready, (others_never i).
  - intros q conn _ E. apply serve_no_ready. by rewrite E.
Qed.

Lemma create_no_ready c id b :
  keeps (on_db no_new_ready) (eng_command slots c (fun amb => create_sandbox MIGRATIONS amb id b)).
Proof. by apply (command_no_ready _ _ (OpCreateSandbox id b)). Qed.

Lemma begin_no_ready c id n :
  keeps (on_db no_new_ready) (eng_command slots c (fun _ => begin_sandbox_preparation MIGRATIONS id n)).
Proof. by apply (command_no_ready _ _ (OpPrepareSandbox id n)). Qed.

Lemma fail_no_ready c id n p :
  keeps (on_db no_new_ready) (eng_command slots c (fun _ => fail_sandbox MIGRATIONS id n p)).
Proof. by apply (command_no_ready _ _ (OpFailSandbox id n p)). Qed.

Lemma probe_no_ready c e :
  keeps (on_db no_new_ready) (eng_command slots c (fun amb => record_sandbox_probe_evidence MIGRATIONS amb e)).
Proof.
  apply (eng_body_on_db _ _) with (o := OpProbe e); [|done|].
  - intros i q conn Hq. by apply serve_no_ready, (others_never i).
  - intros q conn _ E. apply serve_no_ready. by rewrite E.
Qed.

#[local] Hint Resolve read_no_ready create_no_ready begin_no_ready fail_no_ready probe_no_ready : keeps.

Lemma probes_no_ready c run_id key plan v results :
  keeps (on_db no_new_ready) (record_probes slots c run_id key plan v results).
Proof. induction results as [|r rest IH]; cbn [record_probes]; solve_keeps. Qed.

Lemma committed_no_ready run_id c : keeps (on_db no_new_ready) (committed_sandbox slots run_id c).
Proof. unfold committed_sandbox, need_sandbox, sandbox_read. solve_keeps. Qed.

#[local] Hint Resolve probes_no_ready committed_no_ready : keeps.

(** No moment at which the backend reports the Sandbox present and every fact verified. *)
Definition never_verified (backend : SandboxBackend) (key : SandboxKey) (plan : SandboxPlan) : Prop :=
  ∀ n v, ensure_sandbox backend n key plan = Ok SbPresent → verify_sandbox backend n key plan = Ok v →
    all_passed v = false.

(** The commands that record the failure, and then the refusal. *)
Lemma refusal_never_Ok {A B} (m : Eng SandboxControllerError A) e w (b : B) w' :
  (do@ m in eng_err e) w ≠ (Ok b, w').
Proof. unfold eng_bind, eng_err. by destruct (m w) as [[]]. Qed.

Lemma settle_fails_closed c epoch run_id key plan record v :
  all_passed v = false →
  keeps (on_db no_new_ready) (settle_verified slots c epoch run_id key plan record v) ∧
  ∀ w r w', settle_verified slots c epoch run_id key plan record v w ≠ (Ok r, w').
Proof.
  intros Hv. unfold settle_verified, record_failure. rewrite Hv. cbn [negb]. split; [solve_keeps|].
  intros w r w' Hx. eng_step Hx as Hp. by apply refusal_never_Ok in Hx.
Qed.

Lemma prepare_fails_closed c run_id key plan backend record :
  never_verified backend key plan →
  keeps (on_db no_new_ready) (prepare_sandbox slots c run_id key plan backend record) ∧
  ∀ w r w', prepare_sandbox slots c run_id key plan backend record w ≠ (Ok r, w').
Proof.
  intros Hn. unfold prepare_sandbox, sandbox_read, sandbox_command. split.
  - apply keeps_bind; [apply _|solve_keeps|intros rec]. apply keeps_bind; [apply _|solve_keeps|intros epoch].
    intros w. apply keeps_ask_at. destruct (ensure_sandbox backend (wo_turn w) key plan) as [[]|e] eqn:E.
    2-4: unfold record_failure; revert w E; intros w _; revert w;
      match goal with |- ∀ w, on_db _ w (?m w).2 => change (keeps (on_db no_new_ready) m) end; solve_keeps.
    apply keeps_ask_at. unfold eng_bind, eng_try.
    destruct (verify_sandbox backend (wo_turn w) key plan) as [v|e] eqn:Ev; [|done]. cbn [map_err].
    apply settle_fails_closed. by eapply Hn.
  - intros w r w' Hx. eng_step Hx as Hb. eng_step Hx as He. apply eng_bind_Ok in Hx as (en & w3 & [= <- <-] & Hx).
    destruct (ensure_sandbox backend (wo_turn w1) key plan) as [[]|e] eqn:E; try by apply refusal_never_Ok in Hx.
    apply eng_bind_Ok in Hx as (ch & w4 & [= <- <-] & Hx). eng_step Hx as Ht. apply eng_try_Ok in Ht as [Ht ->].
    destruct (verify_sandbox backend (wo_turn w1) key plan) as [v|e] eqn:Ev; [|done]. injection Ht as <-.
    by apply settle_fails_closed in Hx; [|by eapply Hn].
Qed.

Lemma need_sandbox_Ok run_id what w r w' :
  need_sandbox slots run_id what w = (Ok r, w') → sandbox_for_run MIGRATIONS (wo_db w') run_id = Ok (Some r).
Proof.
  intros Hx. unfold need_sandbox, sandbox_read in Hx. eng_step Hx as Hr. apply eng_some_Ok in Hx as [-> ->].
  by apply eng_read_Ok in Hr as [_ Hr].
Qed.

Lemma create_sandbox_value amb id b w r w' :
  create_sandbox MIGRATIONS amb id b w = (Ok r, w') → sb_phase r = SbRequested.
Proof.
  intros Hx. unfold create_sandbox in Hx. tx_step Hx as E1. tx_step Hx as E2. tx_step Hx as E3. tx_step Hx as E4.
  by apply tx_ret_Ok in Hx as [-> _].
Qed.

Lemma provision_no_ready c run_id plan backend key :
  derive_sandbox_key run_id = Ok key → never_verified backend key plan →
  keeps (on_db no_new_ready) (provision slots c run_id plan backend).
Proof.
  intros Hk Hn. unfold provision. rewrite Hk. unfold eng_bind at 1, eng_try at 1.
  match goal with |- keeps _ (fun w => ?m w) => change (keeps (on_db no_new_ready) m) end.
  apply keeps_bind; [apply _|solve_keeps|intros created]. unfold need_sandbox, sandbox_read.
  apply keeps_bind; [apply _|solve_keeps|intros record].
  pose proof (prepare_fails_closed c run_id key plan backend record Hn) as [Hp _]. solve_keeps.
Qed.

Lemma provision_unverified c run_id plan backend key w record w' :
  derive_sandbox_key run_id = Ok key → never_verified backend key plan →
  provision slots c run_id plan backend w = (Ok record, w') →
  sb_phase record = SbReady ∧ sandbox_for_run MIGRATIONS (wo_db w') run_id = Ok (Some record).
Proof.
  intros Hk Hn Hx. unfold provision in Hx. rewrite Hk in Hx. eng_step Hx as Ek. apply eng_try_Ok in Ek as [[= <-] ->].
  eng_step Hx as Ec. apply (proj1 (eng_attempt_Ok (F:=SandboxControllerError) _ _ _ _)) in Ec. eng_step Hx as Er.
  assert (sb_phase a0 = SbReady ∧ record = a0 ∧ w' = w1) as (Hp & -> & ->).
  { destruct (sb_phase a0) eqn:Ep; try done; try by apply prepare_fails_closed in Hx.
    by apply eng_ret_Ok in Hx as [-> ->]. }
  split; [done|]. destruct a as [[v cur|cur t]|[]]; cbn [committed_sandbox] in Er; try done;
    try by apply need_sandbox_Ok in Er.
  apply eng_ret_Ok in Er as [-> ->]. apply eng_command_executed in Ec as (amb & t & Hc & _).
  apply create_sandbox_value in Hc. by rewrite Hc in Hp.
Qed.
End Provisioning.
End Ready.

(** C29: Provisioning fails closed. Unless the backend, asked during the call, reports
    the Sandbox present and then verifies every fact of it, no Sandbox becomes Ready,
    whatever the others do short of completing a preparation themselves and whatever
    fails on the way; and a Sandbox is then handed out only when the stored one is
    already Ready. *)
Theorem sandbox_fails_closed `{Sha256} slots c run_id plan backend key w :
  (∀ i q, q ∈ slot_before (slots i) → is_ready_step (rq_operation q) = false) →
  derive_sandbox_key run_id = Ok key → never_verified backend key plan →
  let (r, w') := provision slots c run_id plan backend w in
  no_new_ready (wo_db w) (wo_db w') ∧
  ∀ record, r = Ok record →
    sb_phase record = SbReady ∧ sandbox_for_run MIGRATIONS (wo_db w') run_id = Ok (Some record).
Proof.
  intros Ho Hk Hn. pose proof (provision_no_ready slots Ho c run_id plan backend key Hk Hn w) as Hq.
  destruct (provision slots c run_id plan backend w) as [r w'] eqn:Hx. split; [exact Hq|].
  intros record ->. by eapply provision_unverified.
Qed.
