(* ===== verification/EngineRun.v ===== *)
(** * The Run controller ([pantheon-engine/src/run.rs])

    From a committed Run through its gates to an Attempt, the contact marker, the
    backend call and the reconciliation of one lineage. Beside the store the
    controller keeps the bearers it minted, in memory only. The entropy source, the
    launcher and the sandbox backend are not part of the program: what each answers
    at every moment is an argument. *)

From Stdlib Require Import ZArith Ascii Lia.
From S2P Require Import Prelude Utf8 Canonical Parse ParseFacts Digest ConfigModel Compile CompileFacts Execution Sandbox Sql Schema Transaction Command StoreBase StorePlanning StoreConfiguration StoreWorkspace StoreExecution StoreContext StoreSandbox StoreLaws StoreHistory StoreFrames StoreCredentials EngineBase EngineConfiguration EngineRouting EngineScheduling EngineContext EngineSandbox.

(** ** Values *)

Record RandomFailure : Type := { rf_detail : string }.
Record LauncherFailure : Type := { lf_detail : string }.

(** The material of a [Bearer]: 64 hexadecimal characters. *)
Record Bearer : Type := { expose : string }.

Record LaunchPackage : Type := {
  lp_launch_key : string;
  lp_run_id : string;
  lp_attempt_id : string;
  lp_credential : Bearer;
  lp_context_plan_digest : Digest
}.

(** What the launcher answers when asked at the n-th access. *)
Record ExecutionLauncher : Type := {
  backend_id : string;
  launch_semantics : LaunchSemantics;
  ensure_execution : nat → LaunchPackage → Result Observation LauncherFailure;
  inspect_execution : nat → string → Result Observation LauncherFailure
}.

Record MinRecoveryPolicy : Type := { max_attempts_per_run : Z }.

Definition default_policy : MinRecoveryPolicy := {| max_attempts_per_run := 1 |}.

(** The gate that refused, in what its text is made of. *)
Inductive Gate : Type :=
| GateWorkspace (phase materialization : string)
| GateWorkspaceUnavailable
| GateSandbox (e : SandboxControllerError)
| GateContext (e : ContextPreparationError).

Inductive RunOutcome : Type :=
| RunUnknown
| RunInactive (phase : string)
| ConcludedInPreparation (gate : Gate)
| AttemptEstablished (attempt_id launch_key : string)
| Launched (attempt_id : string) (observation : Observation)
| Reconciled (attempt_id : string) (observation : Observation)
| UnknownFenced (attempt_id : string)
| RetryArmed (attempt_id : string) (next_ordinal : Z)
| ConcludedAfterFailure (attempt_id : string).

Inductive RunControllerError : Type :=
| RunStore (e : StoreError)
| Entropy (e : RandomFailure).

Record ReconciliationDeps : Type := {
  deps_launcher : ExecutionLauncher;
  deps_sandbox : SandboxBackend;
  deps_policy : MinRecoveryPolicy
}.

Record BearerState : Type := { bs_bearer : Bearer; bs_credential_revision : Z }.

Record FrozenBindingIdentity : Type := {
  fbi_sandbox_profile_digest : Digest;
  fbi_execution_profiles_component : Digest
}.

(** ** The controller's state *)

(** The world, the bearers held, the draws made from the entropy source, and the
    calls of [ensure_execution] made so far, each with the world at that moment. *)
Record RunController : Type := {
  rc_world : World;
  rc_bearers : gmap string BearerState;
  rc_draws : nat;
  rc_contacts : list (LaunchPackage * World)
}.

Definition run_controller_new (w : World) : RunController :=
  {| rc_world := w; rc_bearers := ∅; rc_draws := 0; rc_contacts := [] |}.

Definition Ctl (A : Type) : Type := RunController → Result A RunControllerError * RunController.

Definition ctl_ret {A} (a : A) : Ctl A := fun c => (Ok a, c).

Definition ctl_err {A} (e : RunControllerError) : Ctl A := fun c => (Err e, c).

Definition ctl_bind {A B} (m : Ctl A) (k : A → Ctl B) : Ctl B := fun c =>
  match m c with
  | (Ok a, c') => k a c'
  | (Err e, c') => (Err e, c')
  end.

Notation "'let%' x := m 'in' k" := (ctl_bind m (fun x => k))
  (at level 10, x pattern, m at level 100, k at level 200) : rust_scope.
Notation "'do%' m 'in' k" := (ctl_bind m (fun _ => k))
  (at level 10, m at level 100, k at level 200) : rust_scope.

Definition ctl_some {A} (o : option A) (e : RunControllerError) : Ctl A :=
  match o with
  | Some a => ctl_ret a
  | None => ctl_err e
  end.

Definition ctl_try {A} (r : Result A RunControllerError) : Ctl A := fun c => (r, c).

Definition with_world (c : RunController) (w : World) : RunController :=
  {| rc_world := w; rc_bearers := rc_bearers c; rc_draws := rc_draws c; rc_contacts := rc_contacts c |}.

(** A call of another controller or of the store, its outcome as a value. *)
Definition ctl_outcome {E A} (m : Eng E A) : Ctl (Result A E) := fun c =>
  let (r, w) := m (rc_world c) in (Ok r, with_world c w).

(** [?] on a store call. *)
Definition ctl_store {A} (m : Eng StoreError A) : Ctl A :=
  let% r := ctl_outcome m in ctl_try (map_err RunStore r).

Definition ctl_state {A} (f : RunController → A) : Ctl A := fun c => (Ok (f c), c).

Definition hold_bearer (a : string) (b : BearerState) : Ctl unit := fun c =>
  (Ok tt, {| rc_world := rc_world c; rc_bearers := <[a := b]> (rc_bearers c); rc_draws := rc_draws c;
             rc_contacts := rc_contacts c |}).

(** First external contact. *)
Definition contact_launcher (l : ExecutionLauncher) (p : LaunchPackage) : Ctl (Result Observation LauncherFailure) :=
  fun c =>
  (Ok (ensure_execution l (wo_turn (rc_world c)) p),
   {| rc_world := rc_world c; rc_bearers := rc_bearers c; rc_draws := rc_draws c;
      rc_contacts := rc_contacts c ++ [(p, rc_world c)] |}).

Definition run_broken {A} (what : string) (values : list string) : Ctl A :=
  ctl_err (RunStore (broken what values)).

(** ** Frozen profiles *)

Definition string_field (v : Value) (key : string) : option string :=
  match get v key with
  | Some (Str text) => Some text
  | _ => None
  end.

Definition array_field (v : Value) (key : string) : option (list Value) :=
  match get v key with
  | Some (Array items) => Some items
  | _ => None
  end.

(** [decode_sandbox_profile]; why it fails is not looked at. *)
Definition decode_sandbox_profile (v : Value) : option SandboxProfile :=
  isolation ← string_field v "isolationClass";
  isolation_class ← (if String.eqb isolation "TRUSTED_HOST" then Some TrustedHost
                     else if String.eqb isolation "CONTAINER" then Some Container
                     else None);
  network ← string_field v "networkMode";
  network_mode ← (if String.eqb network "NONE" then Some NetNone else None);
  let guarantees := match array_field v "guarantees" with
                    | Some items => omap (fun item => match item with Str text => Some text | _ => None end) items
                    | None => []
                    end in
  name ← string_field v "name";
  environment ← string_field v "environmentIdentity";
  Some {| sp_name := name; sp_isolation_class := isolation_class; sp_guarantees := guarantees;
          sp_network_mode := network_mode; sp_environment_identity := environment |}.

Section RunControl.
Context `{Sha256}.

(** [Bearer::verifier]. *)
Definition verifier (b : Bearer) : string := digest_bytes (digest_of (expose b)).

(** [derive_identifier]: sixteen bytes of the digest. *)
Definition derive_identifier (kind run_id : string) (ordinal : Z) : string :=
  kind +:+ ("-" +:+ short_hex (digest_bytes (value_digest
    (object [("kind", Str kind); ("runId", Str run_id); ("ordinal", Integer ordinal)])))).

Definition attempt_request_hash (run_id : string) (ordinal : Z) : string :=
  digest_bytes (value_digest (object [("kind", Str "attempt.creation"); ("runId", Str run_id);
                                      ("ordinal", Integer ordinal)])).

Definition attempt_command (epoch run_id : string) (ordinal : Z) : Command := {|
  cmd_epoch := epoch; cmd_id := "t4-" +:+ (run_id +:+ ("-" +:+ i64_to_string ordinal));
  cmd_request_hash := attempt_request_hash run_id ordinal; cmd_event_type := "run.attempt.created" |}.

Definition attempt_creation (run_id : string) (ordinal : Z) (launch_key : string) (b : Bearer) (revision : Z) :
    AttemptCreation := {|
  ac_run_id := run_id; ac_attempt_id := derive_identifier "attempt" run_id ordinal; ac_launch_key := launch_key;
  ac_session_id := derive_identifier "acs" run_id ordinal; ac_credential_verifier := verifier b;
  ac_expected_run_status_revision := revision |}.

Definition frozen_digest (source : Value) (name : string) : Result Digest RunControllerError :=
  let? text := ok_or (string_field source name) (RunStore (broken "stored binding has no readable field" [name])) in
  ok_or (from_display text) (RunStore (broken "stored binding field is not a sha256 digest" [name])).

(** The entry of the frozen profiles that has the Binding's identity. *)
Definition frozen_profile (json : string) (identity : FrozenBindingIdentity) : Result SandboxProfile RunControllerError :=
  let? value := map_err (fun _ => RunStore (broken "frozen execution profiles unreadable" [])) (parse json) in
  let? entries := ok_or (array_field value "profiles")
    (RunStore (broken "frozen execution profiles carry no profiles array" [])) in
  ok_or (find_first (fun p => bool_decide (sandbox_profile_digest p = fbi_sandbox_profile_digest identity))
           (omap decode_sandbox_profile entries))
    (RunStore (broken "frozen profiles do not contain the Binding's sandbox identity" [])).

Definition sandbox_plan_of (identity : FrozenBindingIdentity) (profile : SandboxProfile) (workspace : WorkspaceRecord) :
    SandboxPlan := {|
  spl_sandbox_profile_digest := fbi_sandbox_profile_digest identity;
  spl_environment_identity := sp_environment_identity profile;
  spl_mounts := [{| mount_source := ws_source_path workspace; mount_destination := "/workspace";
                    mount_read_only := false |}];
  spl_network_mode := match sp_network_mode profile with NetNone => SbNetNone | NetBrokered => SbNetBrokered end;
  spl_cpu_limit_millicores := None; spl_memory_limit_mb := None |}.

Definition package_of (run_id : string) (lineage : AttemptLineageView) (b : Bearer) (plan : Digest) : LaunchPackage := {|
  lp_launch_key := attempt_launch_key (lineage_attempt lineage); lp_run_id := run_id;
  lp_attempt_id := attempt_id (lineage_attempt lineage); lp_credential := b; lp_context_plan_digest := plan |}.

(** ** Operations *)

(** The entropy source's answer to the n-th draw: thirty-two bytes, or a failure. *)
Variable random : nat → Result string RandomFailure.
Variable incarnation : string.
Variable slots : nat → Slot.

Definition fill : Ctl string := fun c =>
  (map_err Entropy (random (rc_draws c)),
   {| rc_world := rc_world c; rc_bearers := rc_bearers c; rc_draws := S (rc_draws c); rc_contacts := rc_contacts c |}).

(** [random_hex_key]. *)
Definition random_hex_key : Ctl string := let% bytes := fill in ctl_ret (hex_of_bytes bytes).

(** [Bearer::generate]. *)
Definition generate : Ctl Bearer := let% bytes := fill in ctl_ret {| expose := hex_of_bytes bytes |}.

Definition ctl_read {A} (q : Database → Result A StoreError) : Ctl A := ctl_store (eng_read slots (fun _ => q)).

Definition ctl_write {A} (m : Ambient → Tx A) : Ctl A := ctl_store (eng_write slots m).

Definition conclude_in_preparation (run_id : string) (revision : Z) (gate : Gate) : Ctl RunOutcome :=
  do% ctl_write (fun amb => apply_conclude_run MIGRATIONS amb run_id "Failed" revision) in
  ctl_ret (ConcludedInPreparation gate).

Definition binding_profile_identity (view : RunExecutionView) : Ctl FrozenBindingIdentity :=
  let% found := ctl_read (fun db => binding_canonical_json MIGRATIONS db (rev_binding_digest view)) in
  let% json := ctl_some found (RunStore (broken "run binds a digest which is not stored" [rev_run_id view])) in
  let% value := ctl_try (map_err (fun _ => RunStore (broken "stored binding is unreadable" [])) (parse json)) in
  let% components := ctl_some (get value "componentDigests")
    (RunStore (broken "stored binding has no componentDigests" [])) in
  let% profile := ctl_try (frozen_digest value "sandboxProfileDigest") in
  let% component := ctl_try (frozen_digest components "executionProfiles") in
  ctl_ret {| fbi_sandbox_profile_digest := profile; fbi_execution_profiles_component := component |}.

Definition verify_policy_ready (run_id : string) (identity : FrozenBindingIdentity) : Ctl SandboxProfile :=
  let% found := ctl_read (fun db => configuration_component_json MIGRATIONS db (fbi_execution_profiles_component identity)) in
  let% (_, json) := ctl_some found
    (RunStore (broken "frozen execution-profiles component is unavailable" [run_id])) in
  ctl_try (frozen_profile json identity).

Definition ensure_current_bearer (run_id : string) (lineage : AttemptLineageView) : Ctl unit :=
  let id := attempt_id (lineage_attempt lineage) in
  let current := session_credential_revision (lineage_session lineage) in
  let% held := ctl_state (fun c => rc_bearers c !! id) in
  if match held with
     | Some state => (bs_credential_revision state =? current)%Z
     | None => false
     end
  then ctl_ret tt
  else
    let% bearer := generate in
    let% revision := ctl_write (fun amb => apply_rekey MIGRATIONS amb id (verifier bearer) current) in
    hold_bearer id {| bs_bearer := bearer; bs_credential_revision := revision |}.

Definition current_lineage (run_id id : string) : Ctl AttemptLineageView :=
  let% found := ctl_read (fun db => run_execution_view MIGRATIONS db run_id) in
  let% view := ctl_some found (RunStore (broken "run vanished mid-reconciliation" [run_id])) in
  ctl_some (rev_attempt view) (RunStore (broken "attempt is no longer current for run" [id; run_id])).

Definition current_status_revision (id : string) : Ctl Z :=
  ctl_read (fun db => attempt_status_revision MIGRATIONS db id).

(** [record]. *)
Definition record_observation (expected : Z) (id : string) (update_ : ObservationUpdate) : Ctl unit :=
  do% ctl_write (fun amb => apply_observation MIGRATIONS amb id expected update_) in ctl_ret tt.

(** What is observed, against the revision read just before. *)
Definition observe_now (id : string) (update_ : ObservationUpdate) : Ctl unit :=
  let% now := current_status_revision id in record_observation now id update_.

Definition attached_plan_digest (run_id : string) : Ctl Digest :=
  let% found := ctl_read (fun db => run_execution_view MIGRATIONS db run_id) in
  ctl_some (match found with Some view => rev_context_plan_digest view | None => None end)
    (RunStore (broken "run has no attached plan at launch time" [run_id])).

Definition launch (run_id : string) (lineage : AttemptLineageView) (deps : ReconciliationDeps) : Ctl RunOutcome :=
  let id := attempt_id (lineage_attempt lineage) in
  if negb (bool_decide (launch_semantics (deps_launcher deps) = KeyedIdempotent))
  then run_broken "backend does not factually advertise KEYED_IDEMPOTENT semantics" [backend_id (deps_launcher deps)]
  else
    let% plan := attached_plan_digest run_id in
    let% held := ctl_state (fun c => rc_bearers c !! id) in
    let% state := ctl_some held (RunStore (broken "no current bearer for attempt; refusing to launch" [id])) in
    let package := package_of run_id lineage (bs_bearer state) plan in
    do% ctl_write (fun amb => apply_launch_contact MIGRATIONS amb run_id id incarnation
          (lineage_status_revision lineage) (session_credential_revision (lineage_session lineage))) in
    let% answer := contact_launcher (deps_launcher deps) package in
    match answer with
    | Ok ObsExited =>
        do% observe_now id (Terminal ObsExited) in
        ctl_ret (Launched id ObsExited)
    | _ =>
        let observation := match answer with Ok o => o | Err _ => ObsUnknown end in
        let update_ := match observation with
                       | ObsExited => Terminal ObsExited
                       | other => Observe other
                       end in
        do% observe_now id update_ in
        ctl_ret (Launched id observation)
    end.

Definition decide_after_terminal (run_id id : string) (deps : ReconciliationDeps) : Ctl RunOutcome :=
  let% used := ctl_read (fun db => Ok (attempt_history_count db run_id)) in
  if (used <? max_attempts_per_run (deps_policy deps))%Z
  then ctl_ret (RetryArmed id (used + 1))
  else
    let% found := ctl_read (fun db => run_execution_view MIGRATIONS db run_id) in
    let% view := ctl_some found (RunStore (broken "run vanished during recovery decision" [run_id])) in
    do% ctl_write (fun amb => apply_conclude_run MIGRATIONS amb run_id "Failed" (rev_revision view)) in
    ctl_ret (ConcludedAfterFailure id).

Definition reconcile_contacted (lineage : AttemptLineageView) (deps : ReconciliationDeps) : Ctl RunOutcome :=
  let id := attempt_id (lineage_attempt lineage) in
  let% inspected := ctl_state (fun c => inspect_execution (deps_launcher deps) (wo_turn (rc_world c))
    (attempt_launch_key (lineage_attempt lineage))) in
  let observation := match inspected with Ok o => o | Err _ => ObsUnknown end in
  match observation with
  | ObsStarting | ObsRunning =>
      do% observe_now id (Observe observation) in
      ctl_ret (Reconciled id observation)
  | ObsUnknown =>
      do% observe_now id (Observe ObsUnknown) in
      ctl_ret (UnknownFenced id)
  | ObsAbsent | ObsExited =>
      do% observe_now id (Terminal observation) in
      decide_after_terminal (attempt_run_id (lineage_attempt lineage)) id deps
  end.

(** T4, once every gate is open. *)
Definition create_lineage (run_id : string) (view : RunExecutionView) : Ctl RunOutcome :=
  let% count := ctl_read (fun db => Ok (attempt_history_count db run_id)) in
  let ordinal := (count + 1)%Z in
  let id := derive_identifier "attempt" run_id ordinal in
  let% launch_key := random_hex_key in
  let% bearer := generate in
  let% epoch := ctl_read read_restore_generation in
  let% committed := ctl_store (eng_command slots (attempt_command epoch run_id ordinal) (fun amb =>
    apply_attempt_creation MIGRATIONS amb (attempt_creation run_id ordinal launch_key bearer (rev_revision view)))) in
  do% match committed with
      | Executed _ _ => hold_bearer id {| bs_bearer := bearer; bs_credential_revision := 1 |}
      | Replayed _ _ => ctl_ret tt
      end in
  ctl_ret (AttemptEstablished id launch_key).

(** The gates after WorkspaceReady, and T4. *)
Definition prepare_and_create (run_id : string) (view : RunExecutionView) (deps : ReconciliationDeps) : Ctl RunOutcome :=
  let% binding := binding_profile_identity view in
  let% profile := verify_policy_ready run_id binding in
  let% found := ctl_read (fun db => workspace_for_task MIGRATIONS db (rev_task_id view)) in
  let% workspace := ctl_some found (RunStore (broken "task has no current workspace" [run_id; rev_task_id view])) in
  let plan := sandbox_plan_of binding profile workspace in
  let% epoch := ctl_read read_restore_generation in
  let command := {| cmd_epoch := epoch; cmd_id := "sandbox-provision-" +:+ run_id;
                    cmd_request_hash := digest_bytes (sandbox_plan_digest plan);
                    cmd_event_type := "sandbox.provisioned" |} in
  let% provisioned := ctl_outcome (provision slots command run_id plan (deps_sandbox deps)) in
  match provisioned with
  | Err e => conclude_in_preparation run_id (rev_revision view) (GateSandbox e)
  | Ok _ =>
      let% prepared := ctl_outcome (prepare_run_context slots run_id) in
      match prepared with
      | Err (CtxStore e) => ctl_err (RunStore e)
      | Err other => conclude_in_preparation run_id (rev_revision view) (GateContext other)
      | Ok _ =>
          do% verify_policy_ready run_id binding in
          create_lineage run_id view
      end
  end.

Definition establish_attempt (run_id : string) (view : RunExecutionView) (deps : ReconciliationDeps) : Ctl RunOutcome :=
  let% found := ctl_read (fun db => workspace_readiness db run_id) in
  match found with
  | Some (phase, materialization) =>
      if String.eqb phase "Ready" && String.eqb materialization "Present"
      then prepare_and_create run_id view deps
      else conclude_in_preparation run_id (rev_revision view) (GateWorkspace phase materialization)
  | None => conclude_in_preparation run_id (rev_revision view) GateWorkspaceUnavailable
  end.

Definition reconcile_run (run_id : string) (deps : ReconciliationDeps) : Ctl RunOutcome :=
  let% found := ctl_read (fun db => run_execution_view MIGRATIONS db run_id) in
  match found with
  | None => ctl_ret RunUnknown
  | Some view =>
      if negb (String.eqb (rev_phase view) "Active") then ctl_ret (RunInactive (rev_phase view))
      else
        match rev_attempt view with
        | None => establish_attempt run_id view deps
        | Some lineage =>
            let id := attempt_id (lineage_attempt lineage) in
            if lineage_terminal lineage then decide_after_terminal run_id id deps
            else
              match lineage_launch_contact_state lineage with
              | NotContacted =>
                  do% ensure_current_bearer run_id lineage in
                  let% refreshed := current_lineage run_id id in
                  launch run_id refreshed deps
              | ContactMayHaveOccurred => reconcile_contacted lineage deps
              end
        end
  end.

(** One after the other; a failure is reported beside its Run. *)
Fixpoint reconcile_each (deps : ReconciliationDeps) (runs : list string) :
    Ctl (list (string * Result RunOutcome RunControllerError)) :=
  match runs with
  | [] => ctl_ret []
  | run_id :: rest => fun c =>
      let (r, c1) := reconcile_run run_id deps c in
      (let% more := reconcile_each deps rest in ctl_ret ((run_id, r) :: more)) c1
  end.

Definition reconcile_all (deps : ReconciliationDeps) : Ctl (list (string * Result RunOutcome RunControllerError)) :=
  let% inventory := ctl_read nonterminal_run_inventory in
  reconcile_each deps (map inventory_run_id inventory).
End RunControl.

(** ** Lemmas: the bearers held are the credentials stored *)

(** A step that keeps every stored credential. *)
Definition credential_step (db db' : Database) : Prop :=
  advance db db' ∧ (valid MIGRATIONS db → ∀ a c, credential_of db a = Some c → credential_of db' a = Some c).

#[export] Instance credential_step_preorder : PreOrder credential_step.
Proof.
  split; [intros db; split; [done|auto]|]. intros d1 d2 d3 [A1 C1] [A2 C2]. split; [by etrans|].
  intros Hv a c Hc. apply C2; [by apply A1|by apply C1].
Qed.

Lemma preserves_drop {A} (R : relation Database) (m : Tx A) : preserves R (drop_result m) → preserves R m.
Proof. intros Hd w a w' Hx. apply (Hd w tt w'). unfold drop_result, tx_bind. by rewrite Hx. Qed.

Section Kept.
Context `{Sha256}.

Lemma body_credential_step amb o : is_rekey o = false → preserves credential_step (body amb o).
Proof.
  intros Ho w u w' Hx. pose proof (body_advance amb o _ _ _ Hx) as Ha. split; [done|]. intros Hv a c.
  apply credentials_kept_of; [by apply Ha|by apply (body_credentials amb o Ho _ _ _ Hx)].
Qed.

Lemma serve_credential_step q conn :
  is_rekey (rq_operation q) = false → credential_step (conn_db conn) (conn_db (serve q conn).2).
Proof.
  intros Ho. apply serve_preserves; [apply _|by apply body_credential_step|]. intros v w r w' Hx.
  split; [by apply journal_tail_advance in Hx|]. intros _ a c. apply journal_tail_touches in Hx. unfold credential_of.
  by rewrite (row_of_same _ _ _ _ _ _ Hx) by elem.
Qed.

Variable slots : nat → Slot.
Hypothesis sole : ∀ i q, q ∈ slot_before (slots i) → is_rekey (rq_operation q) = false.

Lemma interfere_credentials w : on_db credential_step w (interfere slots w).2.
Proof. apply interfere_on_db; [apply _|]. intros i q conn Hq. by apply serve_credential_step, (sole i). Qed.

Lemma read_credentials {A} (q : Ambient → Database → Result A StoreError) :
  keeps (on_db credential_step) (eng_read slots q).
Proof. apply eng_read_on_db; [apply _|]. intros i r conn Hr. by apply serve_credential_step, (sole i). Qed.

Lemma command_credentials {A} c (m : Ambient → Tx A) o :
  plain_write o = false → is_rekey o = false → (∀ amb, body amb o = drop_result (m amb)) →
  keeps (on_db credential_step) (eng_command slots c m).
Proof.
  intros Hp Ho Hb. apply (eng_command_on_db _ _) with (o := o); [|done|done|].
  - intros i q conn Hq. by apply serve_credential_step, (sole i).
  - intros q conn _ E. apply serve_credential_step. by rewrite E.
Qed.

Lemma probe_credentials c e :
  keeps (on_db credential_step) (eng_command slots c (fun amb => record_sandbox_probe_evidence MIGRATIONS amb e)).
Proof.
  apply (eng_body_on_db _ _) with (o := OpProbe e); [|done|].
  - intros i q conn Hq. by apply serve_credential_step, (sole i).
  - intros q conn _ E. apply serve_credential_step. by rewrite E.
Qed.

Lemma write_credentials {A} (m : Ambient → Tx A) :
  (∀ amb, preserves credential_step (m amb)) → keeps (on_db credential_step) (eng_write slots m).
Proof.
  intros Hm. apply eng_write_on_db; [apply _| |done]. intros i q conn Hq. by apply serve_credential_step, (sole i).
Qed.

Lemma conclude_credentials run_id target n :
  keeps (on_db credential_step) (eng_write slots (fun amb => apply_conclude_run MIGRATIONS amb run_id target n)).
Proof. apply write_credentials. intros amb. by apply (body_credential_step amb (OpConcludeRun run_id target n)). Qed.

Lemma contact_credentials run_id id epoch s n :
  keeps (on_db credential_step) (eng_write slots (fun amb => apply_launch_contact MIGRATIONS amb run_id id epoch s n)).
Proof. apply write_credentials. intros amb. by apply (body_credential_step amb (OpLaunchContact run_id id epoch s n)). Qed.

Lemma observation_credentials id n u :
  keeps (on_db credential_step) (eng_write slots (fun amb => apply_observation MIGRATIONS amb id n u)).
Proof.
  apply write_credentials. intros amb. apply preserves_drop. by apply (body_credential_step amb (OpObserve id n u)).
Qed.

Lemma creation_credentials c a :
  keeps (on_db credential_step) (eng_command slots c (fun amb => apply_attempt_creation MIGRATIONS amb a)).
Proof. by apply (command_credentials _ _ (OpCreateAttempt a)). Qed.

Lemma attachment_credentials c a :
  keeps (on_db credential_step) (eng_command slots c (fun amb => apply_attachment MIGRATIONS amb a)).
Proof. by apply (command_credentials _ _ (OpAttachPlan a)). Qed.

Lemma create_sandbox_credentials c id b :
  keeps (on_db credential_step) (eng_command slots c (fun amb => create_sandbox MIGRATIONS amb id b)).
Proof. by apply (command_credentials _ _ (OpCreateSandbox id b)). Qed.

Lemma begin_sandbox_credentials c id n :
  keeps (on_db credential_step) (eng_command slots c (fun _ => begin_sandbox_preparation MIGRATIONS id n)).
Proof. by apply (command_credentials _ _ (OpPrepareSandbox id n)). Qed.

Lemma ready_sandbox_credentials c id n :
  keeps (on_db credential_step) (eng_command slots c (fun _ => complete_sandbox_preparation MIGRATIONS id n)).
Proof. by apply (command_credentials _ _ (OpReadySandbox id n)). Qed.

Lemma fail_sandbox_credentials c id n p :
  keeps (on_db credential_step) (eng_command slots c (fun _ => fail_sandbox MIGRATIONS id n p)).
Proof. by apply (command_credentials _ _ (OpFailSandbox id n p)). Qed.

#[local] Hint Resolve read_credentials conclude_credentials contact_credentials observation_credentials
  creation_credentials attachment_credentials create_sandbox_credentials begin_sandbox_credentials
  ready_sandbox_credentials fail_sandbox_credentials probe_credentials : keeps.

Lemma probes_credentials c run_id key plan v results :
  keeps (on_db credential_step) (record_probes slots c run_id key plan v results).
Proof. induction results as [|r rest IH]; cbn [record_probes]; solve_keeps. Qed.

#[local] Hint Resolve probes_credentials : keeps.

Lemma provision_credentials c run_id plan backend :
  keeps (on_db credential_step) (provision slots c run_id plan backend).
Proof.
  unfold provision, prepare_sandbox, settle_verified, record_failure, sandbox_command, committed_sandbox, need_sandbox,
    sandbox_read. solve_keeps.
Qed.

Lemma context_credentials run_id : keeps (on_db credential_step) (prepare_run_context slots run_id).
Proof. unfold prepare_run_context, prepare_plan, ctx_read. solve_keeps. Qed.

#[local] Hint Resolve provision_credentials context_credentials : keeps.

(** *** The controller's invariant *)

Definition held (db : Database) (bearers : gmap string BearerState) : Prop :=
  ∀ a st, bearers !! a = Some st →
    credential_of db a = Some (SInteger (bs_credential_revision st), SBlob (verifier (bs_bearer st))).

(** The launch key the Attempt was created with. *)
Definition keyed (db : Database) (a key : string) : Prop :=
  ∃ r, r ∈ rows db "attempts" ∧ column r "id" = SText a ∧ column r "launch_key" = SText key.

(** What is true of the stored Attempt when the backend is called. *)
Definition lawful_contact (p : LaunchPackage) (w : World) : Prop :=
  contacted (lp_attempt_id p) (wo_db w) ∧ keyed (wo_db w) (lp_attempt_id p) (lp_launch_key p) ∧
  ∃ n, credential_of (wo_db w) (lp_attempt_id p) = Some (SInteger n, SBlob (verifier (lp_credential p))).

Record controlled (c : RunController) : Prop := {
  ctl_valid : valid MIGRATIONS (wo_db (rc_world c));
  ctl_held : held (wo_db (rc_world c)) (rc_bearers c);
  ctl_lawful : ∀ p w, (p, w) ∈ rc_contacts c → lawful_contact p w
}.

Definition controls {A} (m : Ctl A) : Prop := ∀ c, controlled c → controlled (m c).2.

Lemma controls_ret {A} (a : A) : controls (ctl_ret a).
Proof. by intros c. Qed.

Lemma controls_err {A} e : controls (ctl_err (A:=A) e).
Proof. by intros c. Qed.

Lemma controls_try {A} (r : Result A RunControllerError) : controls (ctl_try r).
Proof. by intros c. Qed.

Lemma controls_some {A} (o : option A) e : controls (ctl_some o e).
Proof. by destruct o; intros c. Qed.

Lemma controls_state {A} (f : RunController → A) : controls (ctl_state f).
Proof. by intros c. Qed.

Lemma controls_bind {A B} (m : Ctl A) (k : A → Ctl B) : controls m → (∀ a, controls (k a)) → controls (ctl_bind m k).
Proof.
  intros Hm Hk c Hc. unfold ctl_bind. specialize (Hm c Hc). destruct (m c) as [[a|e] c1]; [|done]. by apply Hk.
Qed.

Lemma controlled_world c w : controlled c → on_db credential_step (rc_world c) w → controlled (with_world c w).
Proof.
  intros [V B L] [Ha Hk]. split; cbn; [by apply Ha| |done]. intros a st Hst. apply Hk; [done|]. by apply B.
Qed.

Lemma controls_outcome {E A} (m : Eng E A) : keeps (on_db credential_step) m → controls (ctl_outcome m).
Proof.
  intros Hm c Hc. specialize (Hm (rc_world c)). unfold ctl_outcome. destruct (m (rc_world c)) as [r w].
  by apply controlled_world.
Qed.

Lemma controls_store {A} (m : Eng StoreError A) : keeps (on_db credential_step) m → controls (ctl_store m).
Proof. intros Hm. apply controls_bind; [by apply controls_outcome|]. intros r. apply controls_try. Qed.

Lemma controls_fill random : controls (fill random).
Proof. intros c [V B L]. by split. Qed.

(** *** The steps that move a bearer or make contact *)

Lemma rekey_credential amb a v n w m w' :
  valid MIGRATIONS (w_db w) → apply_rekey MIGRATIONS amb a v n w = (Ok m, w') →
  m = (n + 1)%Z ∧ valid MIGRATIONS (w_db w') ∧ credential_of (w_db w') a = Some (SInteger (n + 1), SBlob v) ∧
  ∀ b, b ≠ a → credential_of (w_db w') b = credential_of (w_db w) b.
Proof.
  intros Hv Hx. assert (valid MIGRATIONS (w_db w')) as Hv' by (by apply (rekey_advance amb a v n _ _ _ Hx)).
  unfold apply_rekey in Hx. tx_step Hx as Ef. apply forbid_rekey_precontact in Ef as [Ew _].
  tx_step Hx as Eu. apply tx_update_Ok in Eu as (Hn & _ & Hv1 & Hdb).
  destruct (Nat.eqb_spec a1 1) as [H1|]; [|by tx_step Hx]. cbn [negb] in Hx. subst a1.
  tx_step Hx as Ee. apply tx_ret_Ok in Hx as [-> ->]. apply append_internal_event_touches in Ee.
  assert (∀ b, credential_of (w_db w2) b = credential_of (w_db w1) b) as Hsame.
  { intros b. unfold credential_of. by rewrite (row_of_same _ _ _ _ _ _ Ee) by elem. }
  split_and!; [done|done| |].
  - rewrite Hsame. destruct (List.filter (rekey_where a n) (rows (w_db w0) "agent_control_sessions")) as [|r l] eqn:Hf; [done|].
    assert (r ∈ r :: l) as Hin by left. rewrite <-Hf in Hin. apply list_elem_of_In, filter_In in Hin as [Hin%list_elem_of_In Hw].
    assert (rekey_set amb v r ∈ rows (w_db w1) "agent_control_sessions") as Hs.
    { rewrite Hdb, rows_insert. apply list_elem_of_In, in_map_iff. exists r. rewrite Hw. by rewrite <-list_elem_of_In. }
    unfold rekey_where in Hw. apply andb_true_iff in Hw as [[Ha%col_is_text [_ Hc]%col_is_true]%andb_true_iff _].
    unfold credential_of. rewrite (row_of_unique MIGRATIONS _ _ _ a _ Hv1 Hs);
      [|unfold rekey_set; by rewrite !column_insert_ne by done]. cbn [fmap option_fmap option_map].
    rewrite (incremented _ "agent_control_sessions" "credential_revision" r _ n Hv1 eq_refl Hs Hc);
      [|unfold rekey_set; by rewrite column_insert].
    unfold rekey_set. by rewrite column_insert_ne, column_insert by done.
  - intros b Hb. rewrite Hsame, Hdb, Ew. by apply rekey_set_other.
Qed.

Ltac solve_controls :=
  repeat first
    [ progress cbn beta
    | match goal with |- controls (ctl_bind _ _) => apply controls_bind; [ | intros ? ] end
    | match goal with |- controls (match ?x with _ => _ end) => destruct x end
    | solve [eauto using controls_ret, controls_err, controls_try, controls_some, controls_state, controls_outcome,
        controls_store, controls_fill with keeps] ].

Lemma controls_rekey id b current :
  controls (
    let% revision := ctl_write slots (fun amb => apply_rekey MIGRATIONS amb id (verifier b) current) in
    hold_bearer id {| bs_bearer := b; bs_credential_revision := revision |}).
Proof.
  intros c Hc. unfold ctl_write, ctl_store, ctl_bind, ctl_outcome.
  pose proof (interfere_credentials (rc_world c)) as Hi.
  destruct (eng_write slots _ (rc_world c)) as [r w] eqn:Hx. apply eng_write_inv in Hx.
  pose proof (controlled_world _ _ Hc Hi) as [V B L]. cbn in V, B, L. destruct r as [m|e]; cbn.
  - destruct Hx as (amb & t & Hr & Hw). apply rekey_credential in Hr as (-> & Hv & Hcred & Hother); [|done].
    rewrite <-Hw in *. split; cbn; [done| |done]. intros a st. rewrite lookup_insert_Some.
    intros [[<- <-]|[Hne Hst]]; [exact Hcred|]. rewrite Hother by done. by apply B.
  - split; cbn; [by rewrite Hx|by rewrite Hx|done].
Qed.

Lemma controls_bearer random run_id lineage : controls (ensure_current_bearer random slots run_id lineage).
Proof.
  unfold ensure_current_bearer, generate. apply controls_bind; [apply controls_state|]. intros st.
  destruct (match st with Some _ => _ | None => _ end); [apply controls_ret|].
  apply controls_bind; [solve_controls|]. intros b. by apply controls_rekey.
Qed.

Lemma launch_contact_contacted amb run_id a epoch n m w u w' :
  valid MIGRATIONS (w_db w) → apply_launch_contact MIGRATIONS amb run_id a epoch n m w = (Ok u, w') →
  contacted a (w_db w').
Proof.
  intros Hv Hx. unfold apply_launch_contact in Hx. tx_step Hx as Eq. tx_step Hx as Es. subst a0.
  apply query_optional_Some in Eq as [-> (row & Hin & Hw & D)]. destruct a1 as [contact k].
  apply andb_true_iff in Hw as [[Ha%col_is_text _]%andb_true_iff _]. decode_inv D.
  pose proof (row_of_unique MIGRATIONS _ _ _ _ _ Hv Hin Ha) as Hrow.
  destruct (String.eqb_spec contact (launch_contact_as_str ContactMayHaveOccurred)) as [->|Hne].
  { apply tx_ret_Ok in Hx as [_ ->]. by exists row. }
  tx_step Hx as Ec. apply query_optional_Ok in Ec as [-> _]. tx_step Hx as Eg. tx_step Hx as Er.
  unfold current_session_revision in Er. apply tx_query_Ok in Er as [_ ->]. tx_step Hx as Ef. tx_step Hx as Ee.
  tx_step Hx as En. tx_step Hx as Eu. tx_step Hx as Ev. apply tx_ret_Ok in Hx as [_ ->].
  apply append_internal_event_touches in Ev.
  destruct (update_row_of MIGRATIONS "attempt_status" "attempt_id" a n _ _ _ _ eq_refl eq_refl ltac:(done) Hv Eu) as (_ & r & _ & _ & Hr & _).
  exists (set_clause [("launch_contact_state", SText (launch_contact_as_str ContactMayHaveOccurred));
           ("launch_contact_initiated_at", SInteger (amb_now amb)); ("launch_contact_epoch", SText epoch);
           ("updated_at", SInteger (amb_now amb))] r).
  split; [by rewrite (row_of_same _ _ _ _ _ _ Ev) by elem|by rewrite column_set_clause].
Qed.

Lemma lineage_keyed db run_id view lineage :
  run_execution_view MIGRATIONS db run_id = Ok (Some view) → rev_attempt view = Some lineage →
  keyed db (attempt_id (lineage_attempt lineage)) (attempt_launch_key (lineage_attempt lineage)).
Proof.
  unfold run_execution_view. destruct (flat_map _ _) as [|[r s] l]; [done|]. intros Hx.
  apply try_bind_Ok in Hx as ([[[[[t b] d] ph] n] cu] & _ & Hx). apply try_bind_Ok in Hx as (plan & _ & Hx).
  apply try_bind_Ok in Hx as (att & Hl & Hx). apply try_bind_Ok in Hx as (bd & _ & Hx).
  apply try_bind_Ok in Hx as (sd & _ & Hx). apply try_bind_Ok in Hx as (pd & _ & [= <-]). cbn [rev_attempt]. intros ->.
  unfold load_current_lineage in Hl. apply try_bind_Ok in Hl as (found & Hc & Hl).
  destruct (collect decode_lineage _) as [rows_|] eqn:Hr; [|done]. injection Hc as ->. apply collect_Ok in Hr as Hc.
  destruct found as [|[[[[[[[id o] k] ob] tm] co] rv] [[[ss gn] cr] sta]] [|x rest]]; try done.
  apply Forall2_cons_inv_r in Hc as (row & rest & Hd & _ & Hrows). destruct row as [[st at_] se].
  unfold decode_lineage in Hd. decode_inv Hd.
  repeat (apply try_bind_Ok in Hl as (? & _ & Hl)). destruct (negb _); [done|]. injection Hl as <-. cbn.
  assert ((st, at_, se) ∈ lineage_rows db run_id) as Hin by (rewrite Hrows; left).
  exists at_. split_and!; [|done..]. unfold lineage_rows in Hin.
  apply list_elem_of_In, in_flat_map in Hin as (st' & _ & Hin). apply in_flat_map in Hin as (a' & Ha & Hin).
  apply in_map_iff in Hin as (se' & [= -> -> ->] & _). apply filter_In in Ha as [Ha _]. by apply list_elem_of_In.
Qed.

Lemma keyed_step db db' a key : credential_step db db' → valid MIGRATIONS db → keyed db a key → keyed db' a key.
Proof.
  intros [Ha _] Hv (r & Hr & Hk). exists r. split; [|done]. eapply kept_rows; [|done|exact Hr]. by apply Ha.
Qed.

(** Steps before contact, which keep the launch key of the Attempt. *)
Definition key_kept (a key : string) (c : RunController) : Prop := controlled c ∧ keyed (wo_db (rc_world c)) a key.

Definition steady (a key : string) {A} (m : Ctl A) : Prop := ∀ c, key_kept a key c → key_kept a key (m c).2.

Lemma steady_bind a key {A B} (m : Ctl A) (k : A → Ctl B) :
  steady a key m → (∀ x, steady a key (k x)) → steady a key (ctl_bind m k).
Proof. intros Hm Hk c Hc. unfold ctl_bind. specialize (Hm c Hc). destruct (m c) as [[x|e] c1]; [by apply Hk|done]. Qed.

Lemma steady_store a key {A} (m : Eng StoreError A) : keeps (on_db credential_step) m → steady a key (ctl_store m).
Proof.
  intros Hm c [Hc Hkey]. split; [by apply controls_store|]. specialize (Hm (rc_world c)).
  unfold ctl_store, ctl_bind, ctl_outcome, ctl_try. destruct (m (rc_world c)) as [[x|e] w]; cbn;
    (eapply keyed_step; [exact Hm|apply Hc|done]).
Qed.

Lemma steady_plan a key run_id : steady a key (attached_plan_digest slots run_id).
Proof. apply steady_bind; [apply steady_store, read_credentials|]. intros [v|]; [destruct (rev_context_plan_digest v)|]; by intros c. Qed.

Lemma controls_contact a key launcher p {B} (k : Result Observation LauncherFailure → Ctl B) run_id incarnation n m st :
  lp_attempt_id p = a → lp_launch_key p = key → lp_credential p = bs_bearer st → (∀ x, controls (k x)) →
  ∀ c, controlled c → keyed (wo_db (rc_world c)) a key → rc_bearers c !! a = Some st →
  controlled ((do% ctl_write slots (fun amb => apply_launch_contact MIGRATIONS amb run_id a incarnation n m) in
               let% answer := contact_launcher launcher p in k answer) c).2.
Proof.
  intros <- <- Hb Hk c Hc Hkey Hst. pose proof (contact_credentials run_id (lp_attempt_id p) incarnation n m (rc_world c)) as Hs.
  pose proof (interfere_credentials (rc_world c)) as Hi.
  unfold ctl_write, ctl_store, ctl_bind, ctl_outcome, ctl_try.
  destruct (eng_write slots _ (rc_world c)) as [[u|e] w] eqn:Hx; cbn in Hs |- *; [|by apply controlled_world].
  unfold contact_launcher. apply Hk. pose proof (controlled_world _ _ Hc Hs) as [V Hh L]. split; [exact V|exact Hh|].
  intros q w1 [Hq|Hq]%elem_of_app; [by apply L|]. apply list_elem_of_singleton in Hq as [= -> ->]. cbn.
  apply eng_write_inv in Hx as (amb & t & Ht & Hw). split_and!.
  - rewrite Hw. eapply launch_contact_contacted; [|exact Ht]. cbn. by apply (controlled_world _ _ Hc Hi).
  - eapply keyed_step; [exact Hs|apply Hc|done].
  - exists (bs_credential_revision st). rewrite Hb. by apply Hh.
Qed.

Lemma controls_observe id u : controls (observe_now slots id u).
Proof. unfold observe_now, current_status_revision, record_observation, ctl_read, ctl_write. solve_controls. Qed.

Lemma controls_conclude run_id n gate : controls (conclude_in_preparation slots run_id n gate).
Proof. unfold conclude_in_preparation, ctl_write. solve_controls. Qed.

#[local] Hint Resolve controls_observe controls_conclude controls_bearer controls_ret : keeps.

Lemma controls_launch incarnation run_id lineage deps c :
  key_kept (attempt_id (lineage_attempt lineage)) (attempt_launch_key (lineage_attempt lineage)) c →
  controlled (launch incarnation slots run_id lineage deps c).2.
Proof.
  intros Hc. unfold launch. destruct (negb _); [apply Hc|]. unfold ctl_bind at 1.
  pose proof (steady_plan _ _ run_id c Hc) as Hp. destruct (attached_plan_digest slots run_id c) as [[plan|e] c1]; [|apply Hp].
  cbn in Hp. unfold ctl_bind at 1, ctl_state at 1. unfold ctl_bind at 1.
  destruct (rc_bearers c1 !! _) as [st|] eqn:Hst; cbn [ctl_some]; [|apply Hp]. unfold ctl_ret at 1.
  destruct Hp as [Hp Hk]. eapply controls_contact; [reflexivity..| |exact Hp|exact Hk|exact Hst].
  intros [[]|e]; solve_controls.
Qed.

Lemma creation_credential amb a w v w' :
  apply_attempt_creation MIGRATIONS amb a w = (Ok v, w') →
  credential_of (w_db w') (ac_attempt_id a) = Some (SInteger 1, SBlob (ac_credential_verifier a)).
Proof.
  intros Hx. unfold apply_attempt_creation in Hx. tx_step Hx as E1. tx_step Hx as E2. tx_step Hx as E3. tx_step Hx as E4.
  tx_step Hx as E5. tx_step Hx as E6. tx_step Hx as E7. tx_step Hx as E8. tx_step Hx as E9. tx_step Hx as E10.
  tx_step Hx as E11. tx_step Hx as E12. tx_step Hx as E13. tx_step Hx as E14. tx_step Hx as E15.
  apply tx_ret_Ok in Hx as [_ ->].
  apply (insert_row_of MIGRATIONS "agent_control_sessions" "attempt_id" (ac_attempt_id a)) in E14 as [_ Hr]; [|apply _|done].
  apply update_revisioned_by_Ok in E15 as (_ & _ & _ & _ & _ & ->). unfold credential_of.
  rewrite row_of_ne by done. by rewrite Hr.
Qed.

Lemma controls_create random run_id view : controls (create_lineage random slots run_id view).
Proof.
  unfold create_lineage, random_hex_key, generate, ctl_read. apply controls_bind; [solve_controls|intros count].
  apply controls_bind; [solve_controls|intros key]. apply controls_bind; [solve_controls|intros b].
  apply controls_bind; [solve_controls|intros epoch]. intros c Hc.
  pose proof (controls_store _ (creation_credentials (attempt_command epoch run_id (count + 1))
    (attempt_creation run_id (count + 1) key b (rev_revision view))) c Hc) as Hs.
  unfold ctl_bind at 1. unfold ctl_store, ctl_outcome, ctl_bind, ctl_try in Hs |- *.
  destruct (eng_command slots _ _ (rc_world c)) as [[[v cur|cur t]|e] w] eqn:Hx; cbn [fst snd map_err] in *; [|exact Hs..].
  apply eng_command_executed in Hx as (amb & t & Ht & Hsame). destruct Hs as [V B L]. split; cbn; [done| |done].
  intros a st. rewrite lookup_insert_Some. intros [[<- <-]|[_ Hst]]; [|by apply B]. cbn.
  apply creation_credential in Ht. unfold credential_of in *. by rewrite (row_of_same _ _ _ _ _ _ Hsame) by elem.
Qed.

Lemma controls_after_terminal run_id id deps : controls (decide_after_terminal slots run_id id deps).
Proof. unfold decide_after_terminal, ctl_read, ctl_write. solve_controls. Qed.

#[local] Hint Resolve controls_create controls_after_terminal : keeps.

Lemma controls_contacted lineage deps : controls (reconcile_contacted slots lineage deps).
Proof. unfold reconcile_contacted. solve_controls. Qed.

Lemma controls_establish random run_id view deps : controls (establish_attempt random slots run_id view deps).
Proof.
  unfold establish_attempt, prepare_and_create, binding_profile_identity, verify_policy_ready, ctl_read. solve_controls.
Qed.

#[local] Hint Resolve controls_contacted controls_establish : keeps.

(** A lineage read just now has its launch key. *)
Lemma controls_refreshed incarnation run_id id deps :
  controls (let% refreshed := current_lineage slots run_id id in launch incarnation slots run_id refreshed deps).
Proof.
  intros c Hc. unfold current_lineage, ctl_read, ctl_store, ctl_outcome, ctl_bind, ctl_try.
  pose proof (read_credentials (fun _ db => run_execution_view MIGRATIONS db run_id) (rc_world c)) as Hs.
  destruct (eng_read slots _ (rc_world c)) as [[found|e] w] eqn:Hx; cbn in Hs |- *; [|by apply controlled_world].
  destruct found as [view|]; cbn; [|by apply controlled_world].
  destruct (rev_attempt view) as [lineage|] eqn:Ha; cbn; [|by apply controlled_world].
  apply controls_launch. split; [by apply controlled_world|]. cbn. apply eng_read_Ok in Hx as [_ Hx].
  by eapply lineage_keyed.
Qed.

Lemma controls_reconcile random incarnation run_id deps : controls (reconcile_run random incarnation slots run_id deps).
Proof.
  unfold reconcile_run, ctl_read. apply controls_bind; [solve_controls|]. intros [view|]; [|solve_controls].
  destruct (negb _); [solve_controls|]. destruct (rev_attempt view) as [lineage|]; [|solve_controls].
  destruct (lineage_terminal lineage); [solve_controls|]. destruct (lineage_launch_contact_state lineage); [|solve_controls].
  apply controls_bind; [apply controls_bearer|intros u; apply controls_refreshed].
Qed.

Lemma controls_each random incarnation deps runs : controls (reconcile_each random incarnation slots deps runs).
Proof.
  induction runs as [|r runs IH]; cbn [reconcile_each]; [apply controls_ret|]. intros c Hc.
  pose proof (controls_reconcile random incarnation r deps c Hc) as Hr.
  destruct (reconcile_run random incarnation slots r deps c) as [o c1]. cbn in Hr. revert c1 Hr. apply controls_bind; [exact IH|].
  intros l. apply controls_ret.
Qed.

Lemma controls_all random incarnation deps : controls (reconcile_all random incarnation slots deps).
Proof. apply controls_bind; [apply controls_store, read_credentials|]. intros l. apply controls_each. Qed.
End Kept.

(** ** Lemmas: frozen profiles *)

Definition sorted_profile (p : SandboxProfile) : SandboxProfile := {|
  sp_name := sp_name p; sp_isolation_class := sp_isolation_class p; sp_guarantees := sort (sp_guarantees p);
  sp_network_mode := sp_network_mode p; sp_environment_identity := sp_environment_identity p |}.

Lemma strings_back l : omap (fun item => match item with Str text => Some text | _ => None end) (map Str l) = l.
Proof. induction l as [|s l IH]; cbn; [done|]. by f_equal. Qed.

(** The entry written for a profile is read back unless the network is brokered. *)
Lemma decode_profile p :
  decode_sandbox_profile (sandbox_profile_value p) =
  match sp_network_mode p with
  | NetNone => Some (sorted_profile p)
  | NetBrokered => None
  end.
Proof.
  unfold decode_sandbox_profile, sandbox_profile_value, string_field, array_field. rewrite !get_object. cbn.
  destruct p as [n [] g [] e]; cbn; rewrite ?strings_back; reflexivity.
Qed.

Lemma sorted_profile_value p : sandbox_profile_value (sorted_profile p) = sandbox_profile_value p.
Proof.
  unfold sandbox_profile_value. cbn [sp_name sp_isolation_class sp_guarantees sp_network_mode sp_environment_identity sorted_profile].
  by rewrite (set_strings_perm (sort (sp_guarantees p)) (sp_guarantees p)) by apply (sort_by_perm cmp).
Qed.

Section FrozenProfiles.
Context `{Sha256}.

(** The decoded entries are the profiles without a brokered network. *)
Lemma decoded_profiles l q :
  q ∈ omap decode_sandbox_profile (map sandbox_profile_value l) ↔
  ∃ p, p ∈ l ∧ sp_network_mode p = NetNone ∧ q = sorted_profile p.
Proof.
  rewrite list_elem_of_omap. setoid_rewrite list_elem_of_fmap. split.
  - intros (v & (p & -> & Hp) & Hd). rewrite decode_profile in Hd. exists p. destruct (sp_network_mode p); naive_solver.
  - intros (p & Hp & Hn & ->). exists (sandbox_profile_value p). split; [eauto|]. by rewrite decode_profile, Hn.
Qed.

Lemma profiles_wf source c p :
  compile source = Ok c → p ∈ profiles (cfg_execution c) → wf_value (sandbox_profile_value p) = true.
Proof.
  intros Hc Hp. apply compile_wf in Hc. unfold wf_compiled, component_values in Hc. cbn [forallb snd] in Hc. split_andb.
  apply (wf_array_elem (map sandbox_profile_value (profiles (cfg_execution c)))).
  - apply (get_wf _ "profiles" _ H2). reflexivity.
  - by apply list_elem_of_fmap_2.
Qed.

(** The canonical texts of two profiles collide. *)
Definition profile_clash (q p : SandboxProfile) : Prop :=
  clash (to_canonical_bytes (sandbox_profile_value q)) (to_canonical_bytes (sandbox_profile_value p)).

(** Two profiles with one digest have one value, or their texts collide. *)
Lemma profile_digest_eq p q :
  wf_value (sandbox_profile_value p) = true → wf_value (sandbox_profile_value q) = true →
  sandbox_profile_digest p = sandbox_profile_digest q →
  sandbox_profile_value p = sandbox_profile_value q ∨ profile_clash p q.
Proof. apply value_digest_eq. Qed.

Lemma profile_value_network p q : sandbox_profile_value p = sandbox_profile_value q → sp_network_mode p = sp_network_mode q.
Proof.
  intros E. assert (decode_sandbox_profile (sandbox_profile_value p) = decode_sandbox_profile (sandbox_profile_value q)) as Hd
    by (by rewrite E). rewrite !decode_profile in Hd. by destruct (sp_network_mode p), (sp_network_mode q).
Qed.

Lemma frozen_profile_find source c identity :
  compile source = Ok c →
  frozen_profile (to_canonical_bytes (component_value (cfg_execution c))) identity =
  ok_or (find_first (fun p => bool_decide (sandbox_profile_digest p = fbi_sandbox_profile_digest identity))
           (omap decode_sandbox_profile (map sandbox_profile_value (profiles (cfg_execution c)))))
    (RunStore (broken "frozen profiles do not contain the Binding's sandbox identity" [])).
Proof.
  intros Hc. apply compile_wf in Hc. unfold wf_compiled, component_values in Hc. cbn [forallb snd] in Hc. split_andb.
  unfold frozen_profile. rewrite parse_write by done. reflexivity.
Qed.
End FrozenProfiles.

(** ** Claims *)

(** What happens to a controller over time: passes over the inventory, with whatever
    the ports answer in each, and restarts, which lose the bearers. *)
Inductive Turn : Type :=
| Pass (incarnation : string) (deps : ReconciliationDeps)
| Restart.

Fixpoint controller_history `{Sha256} (random : nat → Result string RandomFailure) (slots : nat → Slot) (turns : list Turn)
    (c : RunController) : RunController :=
  match turns with
  | [] => c
  | Pass incarnation deps :: rest =>
      controller_history random slots rest (reconcile_all random incarnation slots deps c).2
  | Restart :: rest =>
      controller_history random slots rest
        {| rc_world := rc_world c; rc_bearers := ∅; rc_draws := rc_draws c; rc_contacts := rc_contacts c |}
  end.

Lemma history_controlled `{Sha256} random slots turns c :
  (∀ i q, q ∈ slot_before (slots i) → is_rekey (rq_operation q) = false) →
  controlled c → controlled (controller_history random slots turns c).
Proof.
  intros Ho. revert c. induction turns as [|[incarnation deps|] turns IH]; intros c Hc; cbn [controller_history]; [done|..]; apply IH.
  - by apply controls_all.
  - destruct Hc as [V _ L]. split; cbn; [done| |done]. intros a st Hst. by rewrite lookup_empty in Hst.
Qed.

(** C5: The backend is contacted only behind the durable marker, with the stored
    key and credential. Over any passes and restarts of the Run controller, with any
    failures of the store, the entropy source and the ports, and anything the others
    do except rotating credentials: at every first-contact call the Attempt is durably
    marked as possibly contacted, the launch key handed over is the stored one, and
    the bearer handed over hashes to the verifier its session stores. At every moment
    the bearers held in memory are those of the stored credential revisions. *)
Theorem launch_after_contact `{Sha256} random slots turns w
    (Hvalid : valid MIGRATIONS (wo_db w))
    (Hsole : ∀ i q, q ∈ slot_before (slots i) → is_rekey (rq_operation q) = false) :
  let c := controller_history random slots turns (run_controller_new w) in
  held (wo_db (rc_world c)) (rc_bearers c) ∧ ∀ p w1, (p, w1) ∈ rc_contacts c → lawful_contact p w1.
Proof.
  destruct (history_controlled random slots turns (run_controller_new w) Hsole) as [V B L]; [|done].
  split; cbn; [done| |by intros p w1 Hp%not_elem_of_nil]. intros a st Hst. by rewrite lookup_empty in Hst.
Qed.

(** A frozen profile is found exactly when its network is not brokered. For
    every configuration that compiles and every profile of it, the Run controller's
    reading of the stored profiles finds an entry with the profile's identity when
    its network mode is NONE - and that entry is the profile's, unless the
    texts of the two collide under SHA-256 - and refuses when it is BROKERED, so that no
    Run of such a profile passes the policy gate (again unless it finds an entry whose
    text collides with the profile's). *)
Theorem frozen_profile_exact `{Sha256} source c p component
    (Hcompiled : compile source = Ok c) (Hprofile : p ∈ profiles (cfg_execution c)) :
  let frozen := frozen_profile (to_canonical_bytes (component_value (cfg_execution c)))
    {| fbi_sandbox_profile_digest := sandbox_profile_digest p; fbi_execution_profiles_component := component |} in
  match sp_network_mode p with
  | NetNone => ∃ q, frozen = Ok q ∧ (sandbox_profile_value q = sandbox_profile_value p ∨ profile_clash q p)
  | NetBrokered => (∃ e, frozen = Err e) ∨ ∃ q, frozen = Ok q ∧ profile_clash q p
  end.
Proof.
  rewrite (frozen_profile_find source) by done. cbn [fbi_sandbox_profile_digest].
  pose proof (profiles_wf _ _ _ Hcompiled Hprofile) as Hp.
  assert (∀ q, q ∈ omap decode_sandbox_profile (map sandbox_profile_value (profiles (cfg_execution c))) →
    sandbox_profile_digest q = sandbox_profile_digest p →
    sp_network_mode q = NetNone ∧ (sandbox_profile_value q = sandbox_profile_value p ∨ profile_clash q p)) as Hall.
  { intros q (p' & Hp' & Hn & ->)%decoded_profiles Hd. split; [exact Hn|]. apply profile_digest_eq; [|done|done].
    rewrite sorted_profile_value. by eapply profiles_wf. }
  destruct (find_first _ _) as [q|] eqn:Ef; cbn [ok_or].
  - apply find_first_Some in Ef as [Hq Hd%bool_decide_eq_true]. destruct (Hall q Hq Hd) as [Hn Hv].
    destruct (sp_network_mode p) eqn:En; [by exists q|]. right. exists q. destruct Hv as [Hv|Hc]; [|done].
    apply profile_value_network in Hv. congruence.
  - destruct (sp_network_mode p) eqn:En; [|by eauto]. rewrite find_first_None in Ef. exfalso.
    specialize (Ef (sorted_profile p)). rewrite decoded_profiles in Ef. specialize (Ef ltac:(eauto)).
    apply bool_decide_eq_false in Ef. destruct Ef. unfold sandbox_profile_digest. by rewrite sorted_profile_value.
Qed.
