(* ===== verification/EngineScenario.v ===== *)
(** * Controllers at work

    The controllers run on the concrete histories of [Scenario], with the rest of
    the world silent or making the requests written here. *)

From Stdlib Require Import ZArith NArith Ascii Lia.
From S2P Require Import Prelude Utf8 Canonical Digest Goal ConfigModel Compile CompileFacts Scheduling Execution Sandbox Sql Schema Transaction Command StoreBase StorePlanning StoreConfiguration StoreScheduling StoreExecution StoreSandbox StoreLaws StoreHistory StoreFrames StoreCredentials Scenario EngineBase Operator EngineConfiguration EnginePlanning EngineRouting EngineScheduling EngineContext EngineSandbox EngineRun.

#[local] Existing Instance stir_hash.

(** ** Worlds and slots *)

Definition calm (i : string) : Slot :=
  {| slot_before := []; slot_driver := working; slot_ambient := ambient i; slot_fault := None; slot_republish := None |}.

Definition quiet (n : nat) : Slot := calm (String "f" (String (hex_char (N.of_nat n)) EmptyString)).

Definition world_of (conn : Connection) : World := {| wo_conn := conn; wo_published := None; wo_turn := 0 |}.

(** ** Creating a Goal twice *)

Definition create_identity : CommandIdentity :=
  {| ci_epoch := sample_generation; ci_id := "request-7"; ci_request_hash := sample_hash |}.

(** Somebody else activates the configuration first. *)
Definition busy (n : nat) : Slot :=
  match n with
  | O => {| slot_before := [request "02" "configuration.activated" (OpActivate sample_compiled (digest_of "source") 1)];
            slot_driver := working; slot_ambient := ambient "f0"; slot_fault := None; slot_republish := None |}
  | _ => quiet n
  end.

Definition created_twice := create_attempts create_identity sample_goal busy 2 (world_of opened).

Definition answered {A E} (r : Result A E) : bool := match r with Ok _ => true | Err _ => false end.

Lemma created_twice_answers : map answered created_twice.1 = [true; true].
Proof. vm_compute. reflexivity. Qed.

(** A new database has a kernel with nothing recorded. *)
Lemma bootstrap_kernel g e now : kernel (bootstrap g e now) g e 1.
Proof.
  assert (rows (bootstrap g e now) "system_state" = [list_to_map [("id", SInteger 1); ("restore_generation", SText g)]])
    as Hs by done.
  assert (rows (bootstrap g e now) "journal_epochs" = [list_to_map [("epoch", SText e); ("next_sequence", SInteger 1);
    ("is_current", SInteger 1)]]) as He by done.
  assert (rows (bootstrap g e now) "event_journal" = []) as Hj by done.
  assert (rows (bootstrap g e now) "commands" = []) as Hc by done.
  split; [rewrite Hs|rewrite He|lia|unfold sequences; by rewrite Hj|rewrite Hc].
  - eexists _, _. by split.
  - eexists. by split_and!.
  - intros r Hr. by apply not_elem_of_nil in Hr.
Qed.

Lemma create_goal_exactly_once_witness :
  ∃ view, Ok view ∈ created_twice.1 ∧ shown create_identity sample_goal view ∧
    length (List.filter (col_is "id" (SText (gv_id view))) (rows (wo_db created_twice.2) "goals")) = 1.
Proof.
  pose proof created_twice_answers as Ha. destruct created_twice as [rs w'] eqn:E. cbn in Ha.
  destruct rs as [|[view|] rs]; [discriminate Ha| |discriminate Ha]. exists view. split; [left|].
  destruct (create_goal_exactly_once busy create_identity sample_goal 2 (world_of opened) sample_generation
    sample_journal 1 (Ok view :: rs) w') with (view := view) as (Hs & Hl & _).
  - exact opened_valid.
  - apply bootstrap_kernel.
  - vm_compute. reflexivity.
  - intros (r & Hr & _). inversion Hr.
  - intros (r & Hr & _). inversion Hr.
  - intros i q Hq. destruct i as [|i]; [|inversion Hq]. apply list_elem_of_singleton in Hq. subst q.
    split; intros _ Hid; discriminate Hid.
  - exact E.
  - left.
  - split; [exact Hs|exact Hl].
Defined.

(** ** Publishing a configuration *)

Definition sample_sources : SourceSet := sources_single "pantheon.json" sample_source.

Definition other_sources : SourceSet := sources_single "pantheon.json" "{}".

Definition publication_calls : list AuthorityCall :=
  [CallLoad sample_sources; CallActivate (command "31" "configuration.activated") sample_sources;
   CallActivate (command "32" "configuration.activated") other_sources; CallStatus other_sources].

Local Abbreviation published := (authority_calls quiet publication_calls (world_of opened)).

Lemma published_some : match wo_published published with Some snap => snap_compiled snap | None => None end = Some sample_compiled.
Proof. vm_compute. reflexivity. Qed.

Lemma quiet_sole : sole_authority quiet.
Proof. intros i. split; [reflexivity|]. intros q Hq. inversion Hq. Qed.

Lemma opened_components : components_sound (wo_db (world_of opened)).
Proof. intros r Hr. inversion Hr. Qed.


Local Abbreviation activated :=
  (authority_activate quiet (command "31" "configuration.activated") sample_sources (world_of opened)).

Definition is_executed {A E} (r : Result (Committed A) E) : bool :=
  match r with
  | Ok (Executed _ _) => true
  | _ => false
  end.

Lemma activated_runs : is_executed activated.1 = true.
Proof. vm_compute. reflexivity. Qed.

Lemma activation_all_or_nothing_witness :
  ∃ act cur w' compiled, activated = (Ok (Executed act cur), w') ∧
    wo_published w' = Some {| snap_active := act; snap_compiled := Some compiled |}.
Proof.
  pose proof activated_runs as Hr. destruct activated as [[[act cur|cur t]|e] w'] eqn:E; [|discriminate Hr..].
  assert (barrier (world_of opened)) as Hb by (intros snap Hsnap; discriminate Hsnap).
  destruct (activation_all_or_nothing quiet _ _ (world_of opened) _ _ opened_valid opened_components Hb quiet_sole E) as (compiled & _ & Hp).
  exists act, cur, w', compiled. split; [reflexivity|exact Hp].
Defined.

Local Abbreviation restarted := (publish quiet "pantheon.json" "{}" published).

Definition published_pointer : Result ConfigurationPointer StoreError := Eval vm_compute in
  configuration_pointer MIGRATIONS (wo_db published).

Lemma published_pointer_eq : configuration_pointer MIGRATIONS (wo_db published) = published_pointer.
Proof. vm_compute. reflexivity. Qed.

Lemma restart_never_deploys_witness :
  rows (wo_db restarted.2) "active_configuration" = rows (wo_db published) "active_configuration".
Proof.
  destruct restarted as [r w'] eqn:E. pose proof published_pointer_eq as Hp. unfold published_pointer in Hp.
  refine (proj1 (restart_never_deploys quiet _ _ published _ _ _ _ Hp quiet_sole E) "active_configuration" _).
  right. right. left.
Defined.

(** ** Routing and dispatching the story's Task *)

Definition local_descriptor : BackendDescriptor := {|
  bd_backend_id := "local"; bd_revision := 1; bd_available_for_offers := true; bd_placement := [];
  bd_supported_execution_features := []; bd_context_capacity_tokens := 5000;
  bd_isolation_facts := [CONTROL_PLANE_GUARANTEE]; bd_resources := []; bd_launch_semantics := KeyedIdempotent |}.

Definition local_offer (request : ExecutionRequest) : Result (list ExecutionOffer) BackendError :=
  Ok [{| of_request_digest := request_digest request; of_backend_id := "local"; of_descriptor_revision := 1;
         of_descriptor_digest := descriptor_digest local_descriptor; of_supported_execution_features := [];
         of_context_capacity_tokens := 4000; of_placement := []; of_isolation_facts := [CONTROL_PLANE_GUARANTEE];
         of_resources := []; of_launch_semantics := KeyedIdempotent; of_offer_reference := "offer-1" |}].

Definition local_port : ExecutorBackendPort := {|
  port_backend := {| describe := local_descriptor; offer := local_offer |};
  port_safety := {| csf_isolation_guarantees := [CONTROL_PLANE_GUARANTEE]; csf_observational_launch_safe := false |} |}.

(** The snapshot the daemon has published when the Task waits for dispatch. *)
Definition story_snapshot_published : option Snapshot := Eval vm_compute in
  match configuration_pointer MIGRATIONS (conn_db dispatchable) with
  | Ok {| pointer_active := Some active |} => Some {| snap_active := active; snap_compiled := Some sample_compiled |}
  | _ => None
  end.

Definition dispatch_world : World :=
  {| wo_conn := dispatchable; wo_published := story_snapshot_published; wo_turn := 0 |}.

Lemma routed_runs : answered (route_ready_task quiet "task-1" [local_port] dispatch_world).1 = true.
Proof. vm_compute. reflexivity. Qed.

Definition committed_task (r : Result ScheduleOutcome SchedulingError) : option string :=
  match r with
  | Ok (CommittedRun _ task_id) => Some task_id
  | _ => None
  end.

Lemma routing_exact_witness :
  ∃ result w', route_ready_task quiet "task-1" [local_port] dispatch_world = (Ok result, w') ∧
    request_digest (rr_request result) = ec_request_digest (rr_candidate result).
Proof.
  pose proof routed_runs as Hr. destruct (route_ready_task quiet "task-1" [local_port] dispatch_world) as [[result|e] w'] eqn:E;
    [|discriminate Hr]. exists result, w'. split; [reflexivity|].
  destruct (routing_exact quiet sample_source _ sample_compiled "task-1" [local_port] dispatch_world _ _ eq_refl eq_refl
    sample_compiles E) as (_ & t & spec & current & _ & _ & _ & _ & _ & _ & Hd & _).
  exact Hd.
Defined.

Lemma cycle_runs : committed_task (schedule_once quiet [local_port] dispatch_world).1 = Some "task-1".
Proof. vm_compute. reflexivity. Qed.

Lemma quiet_dispatch i q t : q ∈ slot_before (quiet i) → t ∈ dispatch_tables → t ∉ footprint (rq_operation q).
Proof. intros Hq. inversion Hq. Qed.

Lemma cycle_dispatches_at_most_one_witness :
  ∃ run_id w' goal_id, schedule_once quiet [local_port] dispatch_world = (Ok (CommittedRun run_id "task-1"), w') ∧
    ((∀ t, t ∈ dispatch_tables → rows (wo_db w') t = rows (wo_db dispatch_world) t) ∨
     dispatched (wo_db dispatch_world) (wo_db w') goal_id "task-1" run_id).
Proof.
  pose proof cycle_runs as Hr. destruct (schedule_once quiet [local_port] dispatch_world) as [r w'] eqn:E.
  assert (∃ run_id, r = Ok (CommittedRun run_id "task-1")) as (run_id & Er).
  { destruct r as [[]|e]; try discriminate Hr. injection Hr as Ht. subst. eexists. reflexivity. }
  subst r.
  destruct (cycle_dispatches_at_most_one quiet [local_port] dispatch_world _ _ dispatchable_valid quiet_dispatch E)
    as (_ & _ & goal_id & _ & _ & _ & _ & _ & _ & _ & Hd). exists run_id, w', goal_id. split; [reflexivity|exact Hd].
Defined.

(** ** Preparing the Run's context twice *)

Definition committed_rows : list (string * list (list (string * SqlValue))) := Eval vm_compute in
  dump (wo_db (schedule_once quiet [local_port] dispatch_world).2).

Definition committed_run : string := Eval vm_compute in
  match (schedule_once quiet [local_port] dispatch_world).1 with
  | Ok (CommittedRun run_id _) => run_id
  | _ => ""
  end.

(** The Run the cycle committed, before anything is prepared for it. *)
Definition committed_world : World :=
  {| wo_conn := load committed_rows; wo_published := story_snapshot_published; wo_turn := 0 |}.

Lemma committed_valid : valid MIGRATIONS (wo_db committed_world).
Proof. vm_compute. reflexivity. Qed.

Local Abbreviation first_preparation := (prepare_run_context quiet committed_run committed_world).

(** The configuration is activated anew in between. *)
Definition reactivation : list Request :=
  [request "41" "configuration.activated" (OpActivate sample_compiled (digest_of "source") 2)].

Local Abbreviation second_preparation := (prepare_run_context quiet committed_run
  {| wo_conn := (serve_all reactivation (wo_conn first_preparation.2)).2; wo_published := None; wo_turn := 3 |}).

Lemma preparations_run : answered first_preparation.1 = true ∧ answered second_preparation.1 = true.
Proof. vm_compute. split; reflexivity. Qed.

Lemma context_reproducible_witness :
  ∃ p w1 w2, first_preparation = (Ok p, w1) ∧ second_preparation = (Ok p, w2).
Proof.
  destruct preparations_run as [H1 H2]. destruct second_preparation as [[p2|e2] w2'] eqn:E2; [|discriminate H2].
  destruct first_preparation as [[p1|e1] w1] eqn:E1; [|discriminate H1].
  exists p1, w1, w2'. split; [reflexivity|].
  rewrite (context_reproducible quiet quiet committed_run reactivation committed_world p1 w1
    {| wo_conn := (serve_all reactivation (wo_conn w1)).2; wo_published := None; wo_turn := 3 |} p2 w2'
    committed_valid E1 eq_refl E2). reflexivity.
Defined.

(** ** A Sandbox that does not verify *)

Definition unverified : SandboxVerification := {|
  sv_sandbox_key := mk_sandbox_key ("sandbox-" +:+ committed_run); sv_holder_id := "h"; sv_environment_identity := "e";
  sv_mounts_verified := true; sv_network_mode_verified := false; sv_privilege_verified := true;
  sv_capability_verified := true; sv_agent_control_route_verified := true; sv_workspace_binding_verified := true;
  sv_resource_limits_verified := true; sv_seccomp_active_verified := true; sv_host_pid_hidden_verified := true;
  sv_host_user_namespace_verified := true; sv_host_mount_namespace_verified := true;
  sv_cloud_metadata_unreachable_verified := true; sv_dns_resolution_denied_verified := true;
  sv_forbidden_mounts_absent_verified := true; sv_runtime_socket_absent_verified := true;
  sv_cross_attempt_isolation_verified := true; sv_control_plane_unreachable_verified := true;
  sv_probe_results := [{| probe_name := "network"; probe_expected := "denied"; probe_observed := "open"; probe_passed := false |}];
  sv_backend_descriptor := "b"; sv_backend_version := "1"; sv_platform := "linux"; sv_architecture := "x86_64";
  sv_probe_implementation_version := "1" |}.

Definition leaky_backend : SandboxBackend := {|
  ensure_sandbox := fun _ _ _ => Ok SbPresent; inspect_sandbox := fun _ _ => Ok SbPresent;
  release_sandbox := fun _ _ => Ok tt; verify_sandbox := fun _ _ _ => Ok unverified |}.

Definition story_sandbox_plan : SandboxPlan := {|
  spl_sandbox_profile_digest := digest_of "profile"; spl_environment_identity := "e"; spl_mounts := [];
  spl_network_mode := SbNetNone; spl_cpu_limit_millicores := None; spl_memory_limit_mb := None |}.

Local Abbreviation leaky_provision := (provision quiet (command "51" "sandbox.provisioned") committed_run
  story_sandbox_plan leaky_backend committed_world).

Lemma leaky_refused : match leaky_provision.1 with Err (VerificationFailed _) => true | _ => false end = true.
Proof. vm_compute. reflexivity. Qed.

Lemma quiet_never_ready i q : q ∈ slot_before (quiet i) → is_ready_step (rq_operation q) = false.
Proof. intros Hq. inversion Hq. Qed.

Lemma sandbox_fails_closed_witness :
  ∃ id w', leaky_provision = (Err (VerificationFailed id), w') ∧ no_new_ready (wo_db committed_world) (wo_db w').
Proof.
  pose proof leaky_refused as Hr.
  pose proof (sandbox_fails_closed quiet (command "51" "sandbox.provisioned") committed_run story_sandbox_plan
    leaky_backend (mk_sandbox_key ("sandbox-" +:+ committed_run)) committed_world quiet_never_ready) as Hs.
  destruct leaky_provision as [[record|e] w'] eqn:E; [discriminate Hr|]. destruct e; try discriminate Hr.
  eexists _, w'. split; [reflexivity|].
  apply Hs; [reflexivity|]. intros n v _ Hv. injection Hv as Hv. subst v. reflexivity.
Defined.

(** ** The Run controller at work *)

(** A world without others for a hundred turns. *)
Definition alone (n : nat) : Slot := calm (hex_of_bytes (String (ascii_of_nat (100 + n)) EmptyString)).

Lemma alone_sole i q : q ∈ slot_before (alone i) → is_rekey (rq_operation q) = false.
Proof. intros Hq. inversion Hq. Qed.

Definition verified : SandboxVerification := {|
  sv_sandbox_key := mk_sandbox_key ("sandbox-" +:+ committed_run); sv_holder_id := "h"; sv_environment_identity := "e";
  sv_mounts_verified := true; sv_network_mode_verified := true; sv_privilege_verified := true;
  sv_capability_verified := true; sv_agent_control_route_verified := true; sv_workspace_binding_verified := true;
  sv_resource_limits_verified := true; sv_seccomp_active_verified := true; sv_host_pid_hidden_verified := true;
  sv_host_user_namespace_verified := true; sv_host_mount_namespace_verified := true;
  sv_cloud_metadata_unreachable_verified := true; sv_dns_resolution_denied_verified := true;
  sv_forbidden_mounts_absent_verified := true; sv_runtime_socket_absent_verified := true;
  sv_cross_attempt_isolation_verified := true; sv_control_plane_unreachable_verified := true;
  sv_probe_results := []; sv_backend_descriptor := "b"; sv_backend_version := "1"; sv_platform := "linux";
  sv_architecture := "x86_64"; sv_probe_implementation_version := "1" |}.

Definition sound_backend : SandboxBackend := {|
  ensure_sandbox := fun _ _ _ => Ok SbPresent; inspect_sandbox := fun _ _ => Ok SbPresent;
  release_sandbox := fun _ _ => Ok tt; verify_sandbox := fun _ _ _ => Ok verified |}.

(** A backend whose executions are over as soon as they are asked for. *)
Definition exiting_launcher : ExecutionLauncher := {|
  backend_id := "local"; launch_semantics := KeyedIdempotent;
  ensure_execution := fun _ _ => Ok ObsExited; inspect_execution := fun _ _ => Ok ObsExited |}.

Definition exiting_deps : ReconciliationDeps := {|
  deps_launcher := exiting_launcher; deps_sandbox := sound_backend; deps_policy := default_policy |}.

Definition story_entropy (n : nat) : Result string RandomFailure := Ok (sha256 (String (ascii_of_nat n) EmptyString)).

(** Establish the Attempt, restart, and launch it with a fresh credential. *)
Definition story_turns : list Turn := [Pass "one" exiting_deps; Restart; Pass "two" exiting_deps].

Local Abbreviation story_controller :=
  (controller_history story_entropy alone story_turns (run_controller_new committed_world)).

Lemma story_contacts : length (rc_contacts story_controller) = 1.
Proof. vm_compute. reflexivity. Qed.

Lemma launch_after_contact_witness : ∃ p w1, rc_contacts story_controller = [(p, w1)] ∧ lawful_contact p w1.
Proof.
  pose proof story_contacts as Hl. destruct (rc_contacts story_controller) as [|[p w1] [|x l]] eqn:E; try discriminate Hl.
  exists p, w1. split; [reflexivity|].
  apply (proj2 (launch_after_contact story_entropy alone story_turns committed_world committed_valid alone_sole)).
  rewrite E. left.
Defined.

Definition sample_profile : option SandboxProfile := Eval vm_compute in head (profiles (cfg_execution sample_compiled)).

Lemma frozen_profile_exact_witness :
  ∃ p q, sample_profile = Some p ∧
    frozen_profile (to_canonical_bytes (component_value (cfg_execution sample_compiled)))
      {| fbi_sandbox_profile_digest := sandbox_profile_digest p; fbi_execution_profiles_component := digest_of "" |} = Ok q.
Proof.
  assert (∃ p, sample_profile = Some p ∧ p ∈ profiles (cfg_execution sample_compiled) ∧ sp_network_mode p = NetNone)
    as (p & Hs & Hp & Hn).
  { eexists. split; [reflexivity|]. split; [left|reflexivity]. }
  pose proof (frozen_profile_exact sample_source sample_compiled p (digest_of "") sample_compiles Hp) as Hf.
  rewrite Hn in Hf. destruct Hf as (q & Hq & _). exists p, q. split; [exact Hs|exact Hq].
Defined.

(** A launch that ends at once escapes the recovery policy. The default policy
    allows one Attempt per Run; when the backend answers the first contact with
    EXITED the controller records the end and asks the policy nothing, and since a
    terminal Attempt is no longer shown to it, the next pass creates a second Attempt
    of the same Run. *)
Theorem exited_launch_escapes_policy :
  let turns := [Pass "one" exiting_deps; Pass "one" exiting_deps; Pass "one" exiting_deps] in
  let c := controller_history story_entropy alone turns (run_controller_new committed_world) in
  max_attempts_per_run (deps_policy exiting_deps) = 1%Z ∧ length (rc_contacts c) = 1 ∧
  attempt_history_count (wo_db (rc_world c)) committed_run = 2%Z.
Proof. vm_compute. split_and!; reflexivity. Qed.
