(* ===== verification/EngineWorkspace.v ===== *)
(** * Bringing a Task's Workspace to Ready ([pantheon-engine/src/workspace.rs])

    Identity and base first, then the durable marker, then the external state, then
    its verification. The materializer is not part of the program: its answers, at
    every moment, are an argument. Every call that changes external state is kept in
    the controller's state with the world it was made in; before it, as before every
    access to the store, the others take their turn. *)

From Stdlib Require Import ZArith Ascii Lia.
From S2P Require Import Prelude Utf8 Canonical Digest Goal Task Workspace Parse ParseFacts Sql Schema Transaction Command StoreBase StorePlanning StoreConfiguration StoreWorkspace StoreLaws StoreHistory StoreFrames StoreLifecycle EngineBase EngineConfiguration EngineRouting EngineSandbox EngineContext.

(** ** Definitions *)

Record MaterializationTarget : Type := {
  mt_workspace_id : string;
  mt_source : string;
  mt_destination : string;
  mt_base : ResolvedBase
}.

Record MaterializerError : Type := { me_code : string; me_detail : string }.

(** What the materializer answers when asked at the n-th moment. *)
Record RepositoryMaterializer : Type := {
  port_resolve_base : nat → string → RequestedBase → Result ResolvedBase MaterializerError;
  port_materialize : nat → MaterializationTarget → Result ResolvedBase MaterializerError;
  port_observe : nat → MaterializationTarget → Result Materialization MaterializerError;
  port_discard : nat → MaterializationTarget → Result unit MaterializerError
}.

Record WorkspaceRequest : Type := { wr_source : string; wr_requested_base : RequestedBase }.

Record WorkspaceCommand : Type := { wcm_epoch : string; wcm_id : string; wcm_request_hash : string }.

(** Why a Task's specification cannot be trusted. *)
Inductive SpecFault : Type :=
| NotStored
| Undecodable (e : TaskDecodeError)
| OtherDigest.

Inductive WorkspaceError : Type :=
| WorkspaceStore (e : StoreError)
| Ineligible (task_id : string) (reason : Message)
| TaskSpecUnusable (task_id : string) (detail : SpecFault)
| MaterializationFailed (workspace_id : string) (error : MaterializerError)
| Missing (workspace_id : string) (observed : Materialization)
| WorkspaceConflict (workspace_id : string) (detail : Message)
| CommandIdentityTooLong (id : string).

Definition MAX_COMMAND_ID : nat := 128.

(** [Path::join]: an absolute path replaces, and a separator is added where the
    first has none at its end. *)
Definition path_join (a b : string) : string :=
  if starts_with "/" b || is_empty a then b
  else if ends_with "/" a then a +:+ b
  else a +:+ ("/" +:+ b).

(** A path is any bytes; as text it is UTF-8. *)
Definition path_text (path : string) : option string := if utf8_valid path then Some path else None.

Definition command_text (base suffix : string) (from : option Z) : string :=
  base +:+ (":workspace:" +:+ match from with
                              | Some revision => suffix +:+ (":" +:+ i64_to_string revision)
                              | None => suffix
                              end).

Definition derive (base suffix : string) (from : option Z) : Result string WorkspaceError :=
  let id := command_text base suffix from in
  if Nat.ltb MAX_COMMAND_ID (String.length id) then Err (CommandIdentityTooLong id) else Ok id.

(** *** The controller's state *)

Inductive EffectKind : Type := Discarded | Materialized.

Record Effect : Type := { ef_kind : EffectKind; ef_target : MaterializationTarget; ef_world : World }.

Record WorkspaceController : Type := { wc_world : World; wc_effects : list Effect }.

Definition Wks (A : Type) : Type := WorkspaceController → Result A WorkspaceError * WorkspaceController.

Definition wks_ret {A} (a : A) : Wks A := fun c => (Ok a, c).

Definition wks_err {A} (e : WorkspaceError) : Wks A := fun c => (Err e, c).

Definition wks_try {A} (r : Result A WorkspaceError) : Wks A := fun c => (r, c).

Definition wks_bind {A B} (m : Wks A) (k : A → Wks B) : Wks B := fun c =>
  match m c with
  | (Ok a, c') => k a c'
  | (Err e, c') => (Err e, c')
  end.

Notation "'let^' x := m 'in' k" := (wks_bind m (fun x => k))
  (at level 10, x pattern, m at level 100, k at level 200) : rust_scope.
Notation "'do^' m 'in' k" := (wks_bind m (fun _ => k))
  (at level 10, m at level 100, k at level 200) : rust_scope.

Definition wks_some {A} (o : option A) (e : WorkspaceError) : Wks A := wks_try (ok_or o e).

(** A call of the store, its outcome as a value; and [?] on it. *)
Definition wks_outcome {A} (m : Eng StoreError A) : Wks (Result A StoreError) := fun c =>
  let (r, w) := m (wc_world c) in (Ok r, {| wc_world := w; wc_effects := wc_effects c |}).

Definition wks_store {A} (m : Eng StoreError A) : Wks A :=
  let^ r := wks_outcome m in wks_try (map_err WorkspaceStore r).

Section WorkspaceControl.
Context `{Sha256}.
Variable slots : nat → Slot.
Variable materializer : RepositoryMaterializer.
Variable root : string.

(** A call of the materializer that only looks. *)
Definition wks_ask {A} (f : nat → A) : Wks A := fun c =>
  let w := (interfere slots (wc_world c)).2 in
  (Ok (f (wo_turn w)), {| wc_world := w; wc_effects := wc_effects c |}).

(** One that changes the target's external state. *)
Definition wks_effect {A} (kind : EffectKind) (target : MaterializationTarget) (f : nat → A) : Wks A := fun c =>
  let w := (interfere slots (wc_world c)).2 in
  (Ok (f (wo_turn w)),
   {| wc_world := w;
      wc_effects := wc_effects c ++ [{| ef_kind := kind; ef_target := target; ef_world := w |}] |}).

Definition wks_read {A} (q : Database → Result A StoreError) : Wks A := wks_store (eng_read slots (fun _ => q)).

Definition path_of (workspace_id : string) : string := path_join (path_join root workspace_id) "repo".

Definition target_of (record : WorkspaceRecord) : MaterializationTarget := {|
  mt_workspace_id := ws_id record; mt_source := ws_source_path record;
  mt_destination := path_of (ws_id record); mt_base := ws_resolved_base record |}.

Definition settle (committed : Result (Committed WorkspaceRecord) StoreError) (task_id : string) :
    Wks WorkspaceRecord :=
  let^ committed := wks_try (map_err WorkspaceStore committed) in
  match committed with
  | Executed value _ => wks_ret value
  | Replayed _ _ =>
      let^ found := wks_read (fun db => workspace_for_task MIGRATIONS db task_id) in
      wks_some found (Ineligible task_id (message "a replayed workspace command left no current workspace" []))
  end.

Definition check_matches (current : WorkspaceRecord) (request : WorkspaceRequest) : Result unit WorkspaceError :=
  if negb (String.eqb (requested_text (ws_requested_base current)) (requested_text (wr_requested_base request))) then
    Err (WorkspaceConflict (ws_id current) (message "it was opened for another base"
      [requested_text (ws_requested_base current); requested_text (wr_requested_base request)]))
  else
    match path_text (wr_source request) with
    | Some source =>
        if String.eqb source (ws_source_path current) then Ok tt
        else Err (WorkspaceConflict (ws_id current) (message "it was opened against another source"
          [ws_source_path current; source]))
    | None => Err (WorkspaceConflict (ws_id current) (message "the source repository path is not valid UTF-8" []))
    end.

Definition repository_of (task_id : string) : Wks string :=
  let^ found := wks_read (fun db => task MIGRATIONS db task_id) in
  let^ task := wks_some found (Ineligible task_id (message "no such task" [])) in
  if negb (bool_decide (task_record_phase task = Ready)) then
    wks_err (Ineligible task_id (message "task is" [task_phase_as_str (task_record_phase task)]))
  else
    let^ stored := wks_read (fun db => task_spec_json MIGRATIONS db (task_record_spec_digest task)) in
    let^ canonical := wks_some stored (TaskSpecUnusable task_id NotStored) in
    let^ spec := wks_try (map_err (fun e => TaskSpecUnusable task_id (Undecodable e))
                            (task_from_canonical_json canonical)) in
    if negb (bool_decide (task_digest spec = task_record_spec_digest task)) then
      wks_err (TaskSpecUnusable task_id OtherDigest)
    else
      wks_some (task_input_reference <$>
                  find_first (fun i => String.eqb (task_input_name i) REPOSITORY_INPUT) (task_inputs spec))
        (Ineligible task_id (message "it declares no repository input to work in" [])).

(** One durable transition: the identity, the commit, the row it produced. *)
Definition derived_command (c : WorkspaceCommand) (id event_type : string) : Command := {|
  cmd_epoch := wcm_epoch c; cmd_id := id; cmd_request_hash := wcm_request_hash c;
  cmd_event_type := event_type |}.

Definition open (c : WorkspaceCommand) (workspace_id task_id : string) (request : WorkspaceRequest) :
    Wks WorkspaceRecord :=
  let^ repository := repository_of task_id in
  let^ answer := wks_ask (fun n => port_resolve_base materializer n (wr_source request) (wr_requested_base request)) in
  let^ resolved := wks_try (map_err (MaterializationFailed workspace_id) answer) in
  let^ source := wks_some (path_text (wr_source request))
    (Ineligible task_id (message "the source repository path is not valid UTF-8" [])) in
  let^ id := wks_try (derive (wcm_id c) "open" None) in
  let^ committed := wks_outcome (eng_command slots (derived_command c id "workspace.requested")
    (fun amb => open_workspace MIGRATIONS amb workspace_id
      {| wb_task_id := task_id; wb_repository := repository; wb_source_path := source;
         wb_requested_base := wr_requested_base request; wb_resolved_base := resolved |})) in
  settle committed task_id.

Definition record_failure {A} (c : WorkspaceCommand) (current : WorkspaceRecord) (target : MaterializationTarget)
    (error : MaterializerError) : Wks A :=
  let^ answer := wks_ask (fun n => port_observe materializer n target) in
  let observed := match answer with
                  | Ok MatPresent | Ok MatUnknown | Err _ => MatUnknown
                  | Ok MatAbsent => MatAbsent
                  end in
  let^ id := wks_try (derive (wcm_id c) "failed" (Some (ws_revision current))) in
  do^ wks_store (eng_command slots (derived_command c id "workspace.failed")
    (fun _ => fail_workspace_materialization MIGRATIONS (ws_id current) (ws_revision current) observed)) in
  wks_err (MaterializationFailed (ws_id current) error).

Definition materialize (c : WorkspaceCommand) (current : WorkspaceRecord) : Wks WorkspaceRecord :=
  let target := target_of current in
  let^ id := wks_try (derive (wcm_id c) "materializing" (Some (ws_revision current))) in
  let^ begun := wks_outcome (eng_command slots (derived_command c id "workspace.materializing")
    (fun _ => begin_workspace_materialization MIGRATIONS (ws_id current) (ws_revision current))) in
  let^ marked := settle begun (ws_task_id current) in
  let^ discarded := wks_effect Discarded target (fun n => port_discard materializer n target) in
  match discarded with
  | Err error => record_failure c marked target error
  | Ok _ =>
      let^ made := wks_effect Materialized target (fun n => port_materialize materializer n target) in
      match made with
      | Err error => record_failure c marked target error
      | Ok verified =>
          let^ id := wks_try (derive (wcm_id c) "ready" (Some (ws_revision marked))) in
          let^ completed := wks_outcome (eng_command slots (derived_command c id "workspace.ready")
            (fun _ => complete_workspace_materialization MIGRATIONS (ws_id marked) (ws_revision marked) verified)) in
          settle completed (ws_task_id marked)
      end
  end.

Definition reopen (current : WorkspaceRecord) : Wks WorkspaceRecord :=
  let^ answer := wks_ask (fun n => port_observe materializer n (target_of current)) in
  let^ observed := wks_try (map_err (MaterializationFailed (ws_id current)) answer) in
  if bool_decide (observed = MatPresent) then wks_ret current
  else wks_err (Missing (ws_id current) observed).

Definition ensure (c : WorkspaceCommand) (workspace_id task_id : string) (request : WorkspaceRequest) :
    Wks WorkspaceRecord :=
  let^ existing := wks_read (fun db => workspace_for_task MIGRATIONS db task_id) in
  let^ current := match existing with
                  | Some record => do^ wks_try (check_matches record request) in wks_ret record
                  | None => open c workspace_id task_id request
                  end in
  match ws_phase current with
  | WsReady => reopen current
  | WsRequested | WsMaterializing | WsError => materialize c current
  | phase => wks_err (WorkspaceConflict (ws_id current)
      (message "workspace cannot be brought to Ready here" [workspace_phase_as_str phase]))
  end.

(** A caller that retries: calls of the same command, one after the other. *)
Fixpoint ensure_retried (tries : nat) (c : WorkspaceCommand) (workspace_id task_id : string)
    (request : WorkspaceRequest) (s : WorkspaceController) :
    list (Result WorkspaceRecord WorkspaceError) * WorkspaceController :=
  match tries with
  | O => ([], s)
  | S k =>
      let (r, s1) := ensure c workspace_id task_id request s in
      let (rs, s2) := ensure_retried k c workspace_id task_id request s1 in
      (r :: rs, s2)
  end.
End WorkspaceControl.

(** ** The Task's current Workspace *)

Definition current_of (task_id : string) (db : Database) (record : WorkspaceRecord) : Prop :=
  workspace_for_task MIGRATIONS db task_id = Ok (Some record).

(** The rows of one Task. *)
Definition rows_of_task (task_id : string) (db : Database) : list Row :=
  List.filter (col_is "task_id" (SText task_id)) (rows db "workspaces").

(** What never changes of a Workspace. *)
Definition same_workspace (a b : WorkspaceRecord) : Prop :=
  ws_id b = ws_id a ∧ ws_task_id b = ws_task_id a ∧ ws_source_path b = ws_source_path a ∧
  ws_resolved_base b = ws_resolved_base a.

#[export] Instance same_workspace_preorder : PreOrder same_workspace.
Proof. split; [by intros a|]. intros a b c (?&?&?&?) (?&?&?&?). unfold same_workspace. by split_and!; etrans. Qed.

Lemma workspace_for_task_rows task_id db db' :
  rows_of_task task_id db' = rows_of_task task_id db →
  workspace_for_task MIGRATIONS db' task_id = workspace_for_task MIGRATIONS db task_id.
Proof.
  intros He. unfold workspace_for_task. f_equal.
  rewrite !(read_row_eval _ _ _ _ _ _ workspaces_table) by done.
  assert (∀ l, List.filter (fun r => col_is "task_id" (SText task_id) r && unreleased r) l =
    List.filter unreleased (List.filter (col_is "task_id" (SText task_id)) l)) as Hf.
  { intros l. induction l as [|r l IH]; cbn [List.filter]; [done|].
    destruct (col_is "task_id" (SText task_id) r); cbn [andb List.filter]; by rewrite IH. }
  rewrite !Hf. unfold rows_of_task in He. by rewrite He.
Qed.

(** The row behind a record. *)
Definition row_holds (r : Row) (record : WorkspaceRecord) : Prop :=
  column r "id" = SText (ws_id record) ∧
  ∃ cells, decode_workspace r = Ok cells ∧ workspace_of (ws_id record) cells = Ok record.

Lemma row_holds_columns r record :
  row_holds r record →
  column r "task_id" = SText (ws_task_id record) ∧ column r "source_path" = SText (ws_source_path record) ∧
  column r "resolved_base" = SText (resolved_text (ws_resolved_base record)) ∧
  column r "phase" = SText (workspace_phase_as_str (ws_phase record)) ∧
  column r "materialization" = SText (materialization_as_str (ws_materialization record)) ∧
  column r "revision" = SInteger (ws_revision record).
Proof.
  intros (_ & [[[[[[[t q] s] rb] b] p] m] n] & D & Hw). unfold decode_workspace in D. decode_inv D.
  unfold workspace_of in Hw. apply try_bind_Ok in Hw as (req & _ & Hw). apply try_bind_Ok in Hw as (res & Hb & Hw).
  apply try_bind_Ok in Hw as (ph & Hp & Hw). apply try_bind_Ok in Hw as (mt & Hm & Hw). injection Hw as <-. cbn.
  unfold parse_resolved in Hb. destruct (resolved_base_parse b) as [x|] eqn:Eb; [|done]. injection Hb as ->.
  unfold resolved_base_parse in Eb. destruct (_ && _); [|done]. injection Eb as <-.
  destruct (workspace_phase_parse p) eqn:Ep; [|done]. injection Hp as ->. apply workspace_phase_parse_Some in Ep as ->.
  destruct (materialization_parse m) eqn:Em; [|done]. injection Hm as ->. apply materialization_parse_Some in Em as ->.
  done.
Qed.

Lemma current_of_row task_id db record :
  current_of task_id db record →
  ∃ r rest, List.filter (fun r => col_is "task_id" (SText task_id) r && unreleased r) (rows db "workspaces") = r :: rest ∧
    row_holds r record ∧ ws_task_id record = task_id.
Proof.
  unfold current_of, workspace_for_task, and_then. intros (o & Ho & Hx)%try_bind_Ok.
  rewrite (read_row_eval _ _ _ _ _ _ workspaces_table) in Ho by done.
  destruct (List.filter _ _) as [|r rest] eqn:Ef; [by injection Ho as <-|].
  assert (r ∈ List.filter (fun r => col_is "task_id" (SText task_id) r && unreleased r) (rows db "workspaces")) as Hr
    by (rewrite Ef; left).
  apply list_elem_of_In, filter_In in Hr as [_ [Ht _]%andb_true_iff]. apply col_is_text in Ht.
  destruct (get_text "id" r) as [id|] eqn:Ei; [|done]. cbn [try_bind] in Ho.
  destruct (decode_workspace r) as [cells|] eqn:Ec; [|done]. injection Ho as <-. cbn [try_bind] in Hx.
  destruct (workspace_of id cells) as [w|] eqn:Ew; [|done]. injection Hx as <-.
  apply get_text_Ok in Ei.
  assert (ws_id w = id) as Hid.
  { destruct cells as [[[[[[[t q] s] rb] b] p] m] n]. unfold workspace_of in Ew.
    repeat (apply try_bind_Ok in Ew as (? & _ & Ew)). by injection Ew as <-. }
  assert (row_holds r w) as Hh by (split; [by rewrite Hid|]; exists cells; by rewrite Hid).
  exists r, rest. split_and!; [done|done|]. apply row_holds_columns in Hh. destruct Hh as (Hc & _). congruence.
Qed.

(** A row of the Task that is not Released is its current Workspace. *)
Lemma row_current task_id db r record :
  valid MIGRATIONS db → r ∈ rows db "workspaces" → row_holds r record → ws_task_id record = task_id →
  unreleased r = true → current_of task_id db record.
Proof.
  intros Hv Hin Hh Ht Hu.
  assert (length (List.filter (fun r => col_is "task_id" (SText task_id) r && unreleased r) (rows db "workspaces")) ≤ 1) as Hle.
  { apply (unique_filter_le MIGRATIONS db "workspaces" workspaces_table
      (unique_where ["task_id"] (fun r => negb (col_is "phase" (SText "Released") r))) _ [SText task_id]);
      [done|done|cbn; set_solver|]. intros x _ [Hx Hux]%andb_true_iff. split; [done|]. apply col_is_text in Hx.
    unfold key_tuple. cbn. by rewrite Hx. }
  pose proof (row_holds_columns _ _ Hh) as (Htc & _). rewrite Ht in Htc.
  assert (r ∈ List.filter (fun r => col_is "task_id" (SText task_id) r && unreleased r) (rows db "workspaces")) as Hf.
  { apply list_elem_of_In, filter_In. split; [by apply list_elem_of_In|]. rewrite Hu, andb_true_r. by apply col_is_text. }
  unfold current_of, workspace_for_task. rewrite (read_row_eval _ _ _ _ _ _ workspaces_table) by done.
  destruct (List.filter _ _) as [|x [|]] eqn:Ef; [by apply not_elem_of_nil in Hf| |cbn in Hle; lia].
  apply list_elem_of_singleton in Hf as ->. destruct Hh as (Hid & cells & Hd & Hw).
  unfold get_text at 1. rewrite Hid. cbn [try_bind]. rewrite Hd. cbn. by rewrite Hw.
Qed.

Lemma read_in_transaction_Ok id w rec w' :
  StoreWorkspace.read_in_transaction MIGRATIONS id w = (Ok rec, w') →
  w' = w ∧ ws_id rec = id ∧ ∃ r, row_of (w_db w) "workspaces" "id" id = Some r ∧ row_holds r rec.
Proof.
  unfold StoreWorkspace.read_in_transaction. intros Hx. tx_step Hx as Eq. tx_step Hx as Es. subst a.
  apply query_by_Some in Eq as [-> (r & Hr & Hd)]. apply tx_try_Ok in Hx as [Hw ->].
  assert (ws_id rec = id) as Hid.
  { destruct a0 as [[[[[[[t q] s] rb] b] p] m] n]. unfold workspace_of in Hw.
    repeat (apply try_bind_Ok in Hw as (? & _ & Hw)). by injection Hw as <-. }
  split; [done|]. split; [done|]. exists r. split; [done|]. apply row_of_Some in Hr as [_ Hc]. split; [by rewrite Hid|].
  exists a0. by rewrite Hid.
Qed.

(** A transition of the current Workspace leaves it current, one revision on. *)
Lemma transition_current T cur p m w rec w' :
  valid MIGRATIONS (w_db w) → current_of T (w_db w) cur → p ≠ WsReleased →
  transition MIGRATIONS (ws_id cur) (ws_revision cur) p m w = (Ok rec, w') →
  current_of T (w_db w') rec ∧ same_workspace cur rec ∧ ws_phase rec = p ∧ ws_materialization rec = m ∧
  ws_revision rec = (ws_revision cur + 1)%Z.
Proof.
  intros Hv Hc Hp Hx. unfold transition, WORKSPACE_TABLE in Hx. tx_step Hx as Eu. tx_step Hx as Er.
  apply tx_ret_Ok in Hx as [-> <-].
  pose proof Eu as (_ & _ & Hv' & _)%update_revisioned_by_Ok.
  destruct (update_revisioned_row MIGRATIONS "workspaces" _ _ _ _ _ _ eq_refl Hv Eu) as (-> & r & Hr & _ & Hr' & Hrev & _).
  apply read_in_transaction_Ok in Er as (-> & Hid & r1 & Hr1 & Hh1). rewrite Hr' in Hr1. injection Hr1 as <-.
  apply current_of_row in Hc as (r0 & rest & Hf & Hh & Ht).
  assert (r0 ∈ rows (w_db w) "workspaces") as Hin0.
  { assert (r0 ∈ r0 :: rest) as Hin by left. rewrite <-Hf in Hin. apply list_elem_of_In, filter_In in Hin as [Hin _].
    by apply list_elem_of_In. }
  rewrite (row_of_unique MIGRATIONS _ _ _ _ r0 Hv Hin0 (proj1 Hh)) in Hr. injection Hr as <-.
  pose proof (row_holds_columns _ _ Hh) as (C1 & C2 & C3 & C4 & C5 & C6).
  pose proof (row_holds_columns _ _ Hh1) as (D1 & D2 & D3 & D4 & D5 & D6).
  apply row_of_Some in Hr' as [Hin' _].
  rewrite !column_set_clause in D1, D2, D3, D4, D5 by done. change REVISION_COLUMN with "revision" in Hrev.
  assert (SText (ws_task_id a0) = column r0 "task_id") as E1 by exact (eq_sym D1).
  assert (SText (ws_source_path a0) = column r0 "source_path") as E2 by exact (eq_sym D2).
  assert (SText (resolved_text (ws_resolved_base a0)) = column r0 "resolved_base") as E3 by exact (eq_sym D3).
  assert (workspace_phase_as_str p = workspace_phase_as_str (ws_phase a0)) as E4 by (injection D4; exact id).
  assert (materialization_as_str m = materialization_as_str (ws_materialization a0)) as E5 by (injection D5; exact id).
  assert (ws_phase a0 = p) as <- by (by destruct p, (ws_phase a0)).
  assert (ws_materialization a0 = m) as <- by (by destruct m, (ws_materialization a0)).
  assert (ws_revision a0 = (ws_revision cur + 1)%Z) as Hn by congruence. cbn. rewrite <-Hn.
  assert (ws_resolved_base a0 = ws_resolved_base cur) as Eb.
  { destruct (ws_resolved_base a0), (ws_resolved_base cur). cbn in *. congruence. }
  split; [|split_and!; [split_and!; cbn; congruence|done..]].
  eapply row_current; [done|exact Hin'| | |].
  - destruct a0; exact Hh1.
  - cbn. congruence.
  - unfold unreleased. apply negb_true_iff, not_true_iff_false. rewrite col_is_text, (column_set_clause _ _ "phase") by done.
    cbn. by destruct (ws_phase a0).
Qed.

(** The operations of the materialization are transitions behind guards. *)
Lemma phase_and_base_same id n w pb w' : workspace_phase_and_base MIGRATIONS id n w = (Ok pb, w') → w' = w.
Proof. destruct pb. by intros [-> _]%phase_and_base_Ok. Qed.

Lemma begin_transition id n w rec w' :
  begin_workspace_materialization MIGRATIONS id n w = (Ok rec, w') →
  transition MIGRATIONS id n WsMaterializing MatUnknown w = (Ok rec, w').
Proof.
  unfold begin_workspace_materialization, workspace_phase. intros Hx. tx_step Hx as Ep. tx_step Ep as Eb.
  apply phase_and_base_same in Eb as ->. apply tx_ret_Ok in Ep as [-> ->]. by tx_step Hx as Eg.
Qed.

Lemma complete_transition id n base w rec w' :
  complete_workspace_materialization MIGRATIONS id n base w = (Ok rec, w') →
  transition MIGRATIONS id n WsReady MatPresent w = (Ok rec, w') ∧
  ∃ r, row_of (w_db w) "workspaces" "id" id = Some r ∧ column r "resolved_base" = SText (resolved_text base).
Proof.
  unfold complete_workspace_materialization. intros Hx. tx_step Hx as Eb. destruct a as [p b]. tx_step Hx as Eg.
  tx_step Hx as Ev. apply String.eqb_eq in Ev. unfold workspace_phase_and_base in Eb. tx_step Eb as Eq. tx_step Eb as Es.
  subst a. apply query_by_Some in Eq as [-> (r & Hr & Hd)]. destruct a0 as [[pt bt] rev]. decode_inv Hd.
  tx_step Eb as Er. tx_step Eb as Ep. tx_step Eb as Ex. apply tx_ret_Ok in Eb as [[= -> ->] ->].
  split; [exact Hx|]. exists r. split; [done|]. unfold parse_resolved in Ex.
  destruct (resolved_base_parse bt) as [x|] eqn:Eb; [|done]. cbn in Ex. injection Ex as ->. unfold resolved_base_parse in Eb.
  destruct (_ && _); [|done]. injection Eb as <-. cbn in Ev. congruence.
Qed.

Lemma fail_transition id n observed w rec w' :
  fail_workspace_materialization MIGRATIONS id n observed w = (Ok rec, w') →
  transition MIGRATIONS id n WsError observed w = (Ok rec, w').
Proof.
  unfold fail_workspace_materialization, workspace_phase. intros Hx. tx_step Hx as Eo. tx_step Hx as Ep. tx_step Ep as Eb.
  apply phase_and_base_same in Eb as ->. apply tx_ret_Ok in Ep as [-> ->]. by tx_step Hx as Eg.
Qed.

(** A Workspace is opened for a Task that has none. *)
Lemma open_fresh amb id b w rec w' cur :
  open_workspace MIGRATIONS amb id b w = (Ok rec, w') → ¬ current_of (wb_task_id b) (w_db w) cur.
Proof.
  unfold open_workspace, task_phase, current_workspace_id. intros Hx (r & rest & Hf & _)%current_of_row.
  tx_step Hx as Ep. tx_step Hx as Eg. tx_step Hx as Ec. tx_step Hx as En.
  assert (w0 = w) as ->.
  { tx_step Ep as E1. tx_step Ep as E2. subst. apply query_by_Some in E1 as [-> _]. by apply tx_some_Ok in Ep as [_ ->]. }
  apply query_optional_Ok in Ec as [_ Hc]. rewrite Hf in Hc. by destruct Hc as (x & _ & ->).
Qed.

Lemma open_current amb id b w rec w' :
  requested_base_parse (requested_text (wb_requested_base b)) = Ok (wb_requested_base b) →
  resolved_base_parse (resolved_text (wb_resolved_base b)) = Ok (wb_resolved_base b) →
  open_workspace MIGRATIONS amb id b w = (Ok rec, w') →
  current_of (wb_task_id b) (w_db w') rec ∧ ws_phase rec = WsRequested.
Proof.
  intros Hq Hr Hx. unfold open_workspace in Hx. tx_step Hx as Ep. tx_step Hx as Eg. tx_step Hx as Ec. tx_step Hx as En.
  tx_step Hx as Ew. tx_step Hx as Ei. apply tx_ret_Ok in Hx as [-> ->]. split; [|done].
  apply tx_insert_Ok in Ei as (Hcheck & Hfail & Hv & Hdb). rewrite Hdb in Hv |- *.
  eapply row_current; [done|rewrite rows_insert; apply elem_of_app; right; left| |done|done].
  split; [done|]. eexists (_, _, _, _, _, _, _, _). split; [reflexivity|]. cbn.
  unfold parse_requested, parse_resolved. by rewrite Hq, Hr.
Qed.

(** ** The fence around the external state *)

Inductive Stage : Type := Marking | Readying | Failing.

Definition stage_text (s : Stage) : string :=
  match s with
  | Marking => "materializing"
  | Readying => "ready"
  | Failing => "failed"
  end.

Section Fence.
Context `{Sha256}.
Variable cmd : WorkspaceCommand.
Variable T : string.

(** The identity of a transition of this command from a revision. *)
Definition stage_id (s : Stage) (revision : Z) : string := command_text (wcm_id cmd) (stage_text s) (Some revision).

Definition stage_command (s : Stage) (revision : Z) : Command := derived_command cmd (stage_id s revision) "".

(** A request of somebody who leaves this Task's Workspace and this command's
    transitions to their one caller. *)
Definition elsewhere (q : Request) : Prop :=
  (∀ conn, rows_of_task T (conn_db (serve q conn).2) = rows_of_task T (conn_db conn)) ∧
  (cmd_epoch (rq_command q) = wcm_epoch cmd → ∀ s n, cmd_id (rq_command q) ≠ stage_id s n).

Definition sound (db : Database) : Prop := valid MIGRATIONS db ∧ ∃ g e n, kernel db g e n.

(** A transition of this command that is in the ledger is behind the Workspace. *)
Definition settled (db : Database) : Prop :=
  ∀ s n, in_ledger db (stage_command s n) → ∃ cur, current_of T db cur ∧ (n < ws_revision cur)%Z.

Definition quiet (db db' : Database) : Prop :=
  sound db → sound db' ∧ rows_of_task T db' = rows_of_task T db ∧
  ∀ s n, in_ledger db' (stage_command s n) → in_ledger db (stage_command s n).

#[local] Instance quiet_preorder : PreOrder quiet.
Proof.
  split; [by intros db Hs|]. intros d1 d2 d3 H1 H2 S1. destruct (H1 S1) as (S2 & R1 & L1). destruct (H2 S2) as (S3 & R2 & L2).
  split; [done|]. split; [congruence|auto].
Qed.

Lemma sound_advance db db' : advance db db' → sound db → sound db'.
Proof.
  intros Ha [Hv (g & e & n & Hk)]. destruct (Ha Hv) as [_ Hv' Hk' _]. destruct (Hk' g e n Hk) as (k & _ & ?).
  split; [done|]. by exists g, e, k.
Qed.

Lemma elsewhere_quiet q conn : elsewhere q → quiet (conn_db conn) (conn_db (serve q conn).2).
Proof.
  intros [Hr Hid] Hs. split; [by eapply sound_advance; [apply serve_advance|]|]. split; [apply Hr|].
  destruct Hs as [_ (g & e & n & Hk)]. intros s k [Hl|(_ & He & Hi & _)]%(serve_ledger _ _ g e n); [done| |done].
  by destruct (Hid (eq_sym He) s k).
Qed.

Lemma elsewhere_footprint q :
  "workspaces" ∉ footprint (rq_operation q) →
  (cmd_epoch (rq_command q) = wcm_epoch cmd → ∀ s n, cmd_id (rq_command q) ≠ stage_id s n) → elsewhere q.
Proof.
  intros Hf Hid. split; [|done]. intros conn. unfold rows_of_task. rewrite serve_footprint; [done|done|].
  unfold kernel_tables. elem.
Qed.

Lemma current_quiet db db' cur : quiet db db' → sound db → current_of T db cur → current_of T db' cur.
Proof. intros Hq Hs Hc. destruct (Hq Hs) as (_ & Hr & _). unfold current_of. by rewrite (workspace_for_task_rows _ _ _ Hr). Qed.

Lemma settled_quiet db db' : quiet db db' → sound db → settled db → settled db'.
Proof.
  intros Hq Hs Hst s n Hl. destruct (Hst s n) as (cur & Hc & Hn); [by apply (Hq Hs)|]. exists cur.
  split; [by eapply current_quiet|done].
Qed.

(** Different transitions have different identities. *)
Lemma stage_id_inj s n s' n' : stage_id s n = stage_id s' n' → s = s' ∧ n = n'.
Proof.
  unfold stage_id, command_text. intros He%append_inj_l%append_inj_l.
  destruct s, s'; try discriminate He; split; try done; by apply append_inj_l, append_inj_l, i64_to_string_inj in He.
Qed.

Lemma open_not_stage s n : command_text (wcm_id cmd) "open" None ≠ stage_id s n.
Proof. unfold stage_id, command_text. intros He%append_inj_l%append_inj_l. by destruct s. Qed.

Section Calls.
Variable slots : nat → Slot.
Hypothesis others : ∀ i q, q ∈ slot_before (slots i) → elsewhere q.

Lemma interfere_quiet w : on_db quiet w (interfere slots w).2.
Proof. apply interfere_on_db; [apply _|]. intros i q conn Hq. by apply elsewhere_quiet, (others i). Qed.

(** What one command did, after the others' turn. *)
Lemma command_cases {A} c (m : Ambient → Tx A) o w r w' :
  plain_write o = false → (∀ amb, body amb o = drop_result (m amb)) → sound (wo_db w) →
  eng_command slots c m w = (r, w') →
  ∃ db, quiet (wo_db w) db ∧ sound db ∧
  match r with
  | Ok (Executed v _) =>
      ¬ in_ledger db c ∧ sound (wo_db w') ∧
      (∀ c', in_ledger (wo_db w') c' → in_ledger db c' ∨ cmd_epoch c' = cmd_epoch c ∧ cmd_id c' = cmd_id c) ∧
      ∃ amb t, m amb {| w_db := db; w_failed := false |} = (Ok v, t) ∧ same_outside kernel_tables (w_db t) (wo_db w')
  | Ok (Replayed _ _) => in_ledger db c ∧ wo_db w' = db
  | Err _ => wo_db w' = db
  end.
Proof.
  intros Hp Hb Hs Hx. exists (wo_db (interfere slots w).2).
  pose proof (interfere_quiet w) as Hq. split; [exact Hq|]. destruct (Hq Hs) as (Hs1 & _). split; [done|].
  pose proof Hs1 as [Hv (g & e & n & Hk)].
  assert (sound (wo_db w')) as Hs'.
  { pose proof (eng_command_advances slots c m o Hp Hb w) as Ha. rewrite Hx in Ha. by eapply sound_advance. }
  pose proof Hx as Hx2. unfold eng_command in Hx. destruct (interfere slots w) as [s w1] eqn:Ei.
  change (wo_db w1) with (conn_db (wo_conn w1)) in *.
  assert (respects_kernel (m (slot_ambient s))) as Hm.
  { intros v a v' Hm. apply (command_respects_kernel (slot_ambient s) o Hp v tt v').
    rewrite Hb. unfold drop_result, tx_bind, tx_ret. by rewrite Hm. }
  pose proof (command_step (slot_driver s) (slot_ambient s) c (m (slot_ambient s)) (wo_conn w1) g e n Hk Hm) as Hc.
  destruct (execute_command _ _ _ _ _ _) as [res conn] eqn:Ex. injection Hx as -> <-.
  destruct r as [[v cur|cur t]|err]; cbn [snd] in *; [| |exact Hc].
  - destruct Hc as (_ & _ & _ & Hnone & Hrows). split_and!; [|done| |].
    + intros (row & Hin & Hw). assert (row ∈ List.filter (command_where c) (rows (conn_db (wo_conn w1)) "commands")) as Hf
        by (apply list_elem_of_In, filter_In; by rewrite <-list_elem_of_In).
      rewrite Hnone in Hf. by apply not_elem_of_nil in Hf.
    + intros c' (row & Hin & Hw). change (row ∈ rows (conn_db conn) "commands") in Hin. rewrite Hrows in Hin.
      apply elem_of_app in Hin as [Hin|Hin]; [left; by exists row|right]. apply list_elem_of_singleton in Hin as ->.
      by apply ledger_row_where in Hw.
    + destruct (eng_command_executed slots c m w v cur _ Hx2) as (amb & t & Ht & Hd). rewrite Ei in Ht. eauto.
  - split; [|exact Hc]. change (in_ledger (conn_db (wo_conn w1)) c). rewrite <-Hc.
    eapply command_recorded; [exact Hk|exact Hm|exact Ex].
Qed.

(** A transition of this command from the Workspace's revision is never a replay. *)
Lemma transition_command (G : Database → Prop) s (m : Ambient → Tx WorkspaceRecord) o p mt cur ev w r w' :
  plain_write o = false → (∀ amb, body amb o = drop_result (m amb)) →
  (∀ amb v rec v', m amb v = (Ok rec, v') →
     transition MIGRATIONS (ws_id cur) (ws_revision cur) p mt v = (Ok rec, v') ∧ G (w_db v)) →
  p ≠ WsReleased → sound (wo_db w) → settled (wo_db w) → current_of T (wo_db w) cur →
  eng_command slots (derived_command cmd (stage_id s (ws_revision cur)) ev) m w = (r, w') →
  sound (wo_db w') ∧ settled (wo_db w') ∧
  match r with
  | Ok (Executed rec _) => current_of T (wo_db w') rec ∧ same_workspace cur rec ∧ ws_phase rec = p ∧
      ws_materialization rec = mt ∧ ∃ db, valid MIGRATIONS db ∧ current_of T db cur ∧ G db
  | Ok (Replayed _ _) => False
  | Err _ => current_of T (wo_db w') cur
  end.
Proof.
  intros Hp Hb Hm Hne Hs Hst Hc Hx. destruct (command_cases _ _ o _ _ _ Hp Hb Hs Hx) as (db & Hq & Hs1 & Hr).
  pose proof (current_quiet _ _ _ Hq Hs Hc) as Hc1. pose proof (settled_quiet _ _ Hq Hs Hst) as Hst1.
  destruct r as [[rec k|k t]|err].
  - destruct Hr as (_ & Hs' & Hl & amb & t & Ht & Hd). apply Hm in Ht as [Ht HG].
    apply (transition_current T) in Ht as (Hcur & Hsame & Hph & Hmt & Hrev); [|apply Hs1|exact Hc1|done].
    assert (current_of T (wo_db w') rec) as Hcur'.
    { unfold current_of. erewrite workspace_for_task_rows; [exact Hcur|]. unfold rows_of_task. rewrite Hd; [done|].
      unfold kernel_tables. elem. }
    split; [done|]. split; [|split_and!; try done; by exists db; split; [apply Hs1|]].
    intros s' n' [Hin|[_ Hid]]%Hl.
    + destruct (Hst1 s' n' Hin) as (c' & Hc' & Hn). exists rec. split; [done|]. unfold current_of in Hc1, Hc'.
      rewrite Hc1 in Hc'. injection Hc' as <-. lia.
    + apply stage_id_inj in Hid as [_ ->]. exists rec. split; [done|]. lia.
  - destruct Hr as [Hin _]. destruct (Hst1 s (ws_revision cur) Hin) as (c' & Hc' & Hn). unfold current_of in Hc1, Hc'.
    rewrite Hc1 in Hc'. injection Hc' as <-. lia.
  - by rewrite Hr.
Qed.

(** *** Runs of the controller *)

Variable materializer : RepositoryMaterializer.
Variable root : string.

Definition control_db (c : WorkspaceController) : Database := wo_db (wc_world c).

(** The effect found the Workspace marked, and was on its own external state. *)
Definition fenced (e : Effect) : Prop :=
  ∃ rec, current_of T (wo_db (ef_world e)) rec ∧ ws_phase rec = WsMaterializing ∧
    ws_materialization rec = MatUnknown ∧ ef_target e = target_of root rec.

Definition steady (c : WorkspaceController) : Prop := sound (control_db c) ∧ settled (control_db c).

Definition bound (db db' : Database) : Prop :=
  ∀ cur, current_of T db cur → ∃ cur', current_of T db' cur' ∧ same_workspace cur cur'.

Record goes (c c' : WorkspaceController) : Prop := {
  goes_steady : steady c';
  goes_bound : bound (control_db c) (control_db c');
  goes_effects : ∃ added, wc_effects c' = wc_effects c ++ added ∧ Forall fenced added
}.

Lemma goes_refl c : steady c → goes c c.
Proof. intros Hs. split; [done|by intros cur Hc; exists cur|]. exists []. by rewrite app_nil_r. Qed.

Lemma goes_trans a b c : goes a b → goes b c → goes a c.
Proof.
  intros [_ B1 (x & E1 & F1)] [S2 B2 (y & E2 & F2)]. split; [done| |].
  - intros cur Hc. destruct (B1 cur Hc) as (c1 & H1 & S1). destruct (B2 c1 H1) as (c2 & H2 & S3).
    exists c2. split; [done|]. by etrans.
  - exists (x ++ y). rewrite E2, E1, app_assoc. split; [done|]. by apply Forall_app.
Qed.

(** From a state where [P] holds, the controller keeps the fence, and [Q] holds of
    what it answers. *)
Definition runs (P : WorkspaceController → Prop) {A} (m : Wks A) (Q : A → WorkspaceController → Prop) : Prop :=
  ∀ c, steady c → P c → goes c (m c).2 ∧ match (m c).1 with Ok a => Q a (m c).2 | Err _ => True end.

Lemma runs_bind P {A B} (m : Wks A) (k : A → Wks B) Q R :
  runs P m Q → (∀ a, runs (Q a) (k a) R) → runs P (wks_bind m k) R.
Proof.
  intros Hm Hk c Hs HP. unfold wks_bind. destruct (Hm c Hs HP) as [Hg HQ]. destruct (m c) as [[a|e] c1]; cbn in *; [|done].
  destruct (Hk a c1 (goes_steady _ _ Hg) HQ) as [Hg2 HR]. split; [by eapply goes_trans|done].
Qed.

Lemma runs_weaken P P' {A} (m : Wks A) (Q Q' : A → WorkspaceController → Prop) :
  runs P m Q → (∀ c, steady c → P' c → P c) → (∀ a c, Q a c → Q' a c) → runs P' m Q'.
Proof.
  intros Hm HP HQ c Hs Hc. destruct (Hm c Hs (HP c Hs Hc)) as [Hg Hq]. split; [done|]. destruct (m c).1; auto.
Qed.

Lemma runs_pre P P' {A} (m : Wks A) Q : runs P m Q → (∀ c, steady c → P' c → P c) → runs P' m Q.
Proof. intros Hm HP. by eapply runs_weaken. Qed.

Lemma runs_try P {A} (r : Result A WorkspaceError) : runs P (wks_try r) (fun a c => P c ∧ r = Ok a).
Proof. intros c Hs Hc. split; [by apply goes_refl|]. cbn. by destruct r. Qed.

Lemma runs_some P {A} (o : option A) e : runs P (wks_some o e) (fun a c => P c ∧ o = Some a).
Proof. intros c Hs Hc. split; [by apply goes_refl|]. cbn. by destruct o. Qed.

Lemma runs_ret (P : WorkspaceController → Prop) {A} (a : A) Q : (∀ c, P c → Q a c) → runs P (wks_ret a) Q.
Proof. intros Hq c Hs Hc. split; [by apply goes_refl|]. cbn. auto. Qed.

Lemma runs_err P {A} (e : WorkspaceError) (Q : A → WorkspaceController → Prop) : runs P (wks_err e) Q.
Proof. intros c Hs Hc. by split; [apply goes_refl|]. Qed.

(** What an effect was is not forgotten. *)
Lemma runs_frame P {A} (m : Wks A) Q e :
  runs P m Q → runs (fun c => P c ∧ e ∈ wc_effects c) m (fun a c => Q a c ∧ e ∈ wc_effects c).
Proof.
  intros Hm c Hs [Hc He]. destruct (Hm c Hs Hc) as [Hg Hq]. split; [done|].
  assert (e ∈ wc_effects (m c).2) as He'.
  { destruct (goes_effects _ _ Hg) as (added & -> & _). apply elem_of_app. by left. }
  by destruct (m c).1.
Qed.

Lemma goes_quiet c w added :
  steady c → quiet (control_db c) (wo_db w) → Forall fenced added →
  goes c {| wc_world := w; wc_effects := wc_effects c ++ added |}.
Proof.
  intros [Hs Hst] Hq Hf. split; [split|intros cur Hc|by exists added].
  - by apply (Hq Hs).
  - by eapply settled_quiet.
  - exists cur. split; [by eapply current_quiet|done].
Qed.

Definition at_ (cur : WorkspaceRecord) (c : WorkspaceController) : Prop := current_of T (control_db c) cur.

(** What the others' turn leaves. *)
Definition stable (P : WorkspaceController → Prop) : Prop :=
  ∀ c w, steady c → quiet (control_db c) (wo_db w) → P c → P {| wc_world := w; wc_effects := wc_effects c |}.

Lemma stable_at cur : stable (at_ cur).
Proof. intros c w [Hs _] Hq Hc. unfold at_, control_db in *. cbn. by eapply current_quiet. Qed.

Lemma stable_true : stable (fun _ => True).
Proof. done. Qed.

Lemma goes_turn c w :
  steady c → quiet (control_db c) (wo_db w) → goes c {| wc_world := w; wc_effects := wc_effects c |}.
Proof. intros Hs Hq. pose proof (goes_quiet c w [] Hs Hq (Forall_nil_2 _)) as Hg. by rewrite app_nil_r in Hg. Qed.

Lemma runs_read P {A} (q : Database → Result A StoreError) :
  stable P → runs P (wks_read slots q) (fun a c => P c ∧ q (control_db c) = Ok a).
Proof.
  intros Hp c Hs Hc. pose proof (interfere_quiet (wc_world c)) as Hq.
  unfold wks_read, wks_store, wks_bind, wks_outcome, wks_try, eng_read. destruct (interfere slots (wc_world c)) as [sl w]. cbn in Hq.
  pose proof (goes_turn c w Hs Hq) as Hg. pose proof (Hp c w Hs Hq Hc) as Hc'.
  destruct (slot_fault sl); cbn; [done|]. split; [done|]. by destruct (q (wo_db w)) eqn:E; cbn.
Qed.

Lemma runs_ask P {A} (f : nat → A) : stable P → runs P (wks_ask slots f) (fun a c => P c ∧ ∃ n, a = f n).
Proof.
  intros Hp c Hs Hc. pose proof (interfere_quiet (wc_world c)) as Hq. unfold wks_ask. cbn.
  split; [by apply goes_turn|]. split; [by apply Hp|eauto].
Qed.

(** An effect on the marked Workspace. *)
Lemma runs_effect cur kind {A} (f : nat → A) :
  ws_phase cur = WsMaterializing → ws_materialization cur = MatUnknown →
  runs (at_ cur) (wks_effect slots kind (target_of root cur) f)
    (fun a c => at_ cur c ∧ ∃ e, e ∈ wc_effects c ∧ ef_kind e = kind ∧ ef_target e = target_of root cur ∧
       a = f (wo_turn (ef_world e))).
Proof.
  intros Hph Hmt c Hs Hc. pose proof (interfere_quiet (wc_world c)) as Hq. unfold wks_effect. cbn.
  set (e := {| ef_kind := kind; ef_target := target_of root cur; ef_world := (interfere slots (wc_world c)).2 |}).
  assert (current_of T (wo_db (interfere slots (wc_world c)).2) cur) as Hc' by (eapply current_quiet; [exact Hq|apply Hs|exact Hc]).
  split; [apply goes_quiet; [done|exact Hq|]; repeat constructor; by exists cur|]. split; [exact Hc'|].
  exists e. split_and!; [|done..]. apply elem_of_app. right. left.
Qed.

(** A transition of this command. *)
Lemma runs_transition (G : Database → Prop) s (m : Ambient → Tx WorkspaceRecord) o p mt cur ev :
  plain_write o = false → (∀ amb, body amb o = drop_result (m amb)) →
  (∀ amb v rec v', m amb v = (Ok rec, v') →
     transition MIGRATIONS (ws_id cur) (ws_revision cur) p mt v = (Ok rec, v') ∧ G (w_db v)) →
  p ≠ WsReleased →
  runs (at_ cur) (wks_outcome (eng_command slots (derived_command cmd (stage_id s (ws_revision cur)) ev) m))
    (fun r c => match r with
     | Ok (Executed rec _) => at_ rec c ∧ same_workspace cur rec ∧ ws_phase rec = p ∧ ws_materialization rec = mt ∧
         ∃ db, valid MIGRATIONS db ∧ current_of T db cur ∧ G db
     | Ok (Replayed _ _) => False
     | Err _ => True
     end).
Proof.
  intros Hp Hb Hm Hne c [Hs Hst] Hc. unfold wks_outcome.
  destruct (eng_command slots _ m (wc_world c)) as [r w'] eqn:Hx.
  destruct (transition_command G _ _ _ _ _ _ _ _ _ _ Hp Hb Hm Hne Hs Hst Hc Hx) as (Hs' & Hst' & Hr). cbn.
  assert (∀ rec, current_of T (wo_db w') rec → same_workspace cur rec →
    goes c {| wc_world := w'; wc_effects := wc_effects c |}) as Hgo.
  { intros rec Hrec Hsame. split; [done| |exists []; by rewrite app_nil_r].
    intros x Hxc. exists rec. split; [done|]. unfold at_, current_of in Hc, Hxc. rewrite Hc in Hxc. by injection Hxc as <-. }
  destruct r as [[rec k|k t]|err]; [|done|].
  - destruct Hr as (Hrec & Hsame & Hr). split; [by eapply Hgo|done].
  - split; [by eapply Hgo|done].
Qed.

(** The row a transition produced. *)
Lemma runs_settle rec0 r :
  runs (fun c => match r with
                 | Ok (Executed rec _) => rec0 rec c
                 | Ok (Replayed _ _) => False
                 | Err _ => True
                 end) (settle slots r T) (fun rec c => rec0 rec c).
Proof.
  destruct r as [[rec k|k t]|err]; intros c Hs Hc; [|done|]; (split; [by apply goes_refl|done]).
Qed.

Lemma runs_pure (φ : Prop) (P : WorkspaceController → Prop) {A} (m : Wks A) Q :
  (φ → runs P m Q) → runs (fun c => P c ∧ φ) m Q.
Proof. intros Hm c Hs [Hc Hφ]. by apply Hm. Qed.

Lemma derive_stage s n id : derive (wcm_id cmd) (stage_text s) (Some n) = Ok id → id = stage_id s n.
Proof. unfold derive. destruct (Nat.ltb _ _); [done|]. by intros [= <-]. Qed.

Lemma target_same a b : same_workspace a b → target_of root b = target_of root a.
Proof. intros (H1 & _ & H2 & H3). unfold target_of. by rewrite H1, H2, H3. Qed.

Lemma runs_record_failure cur target error {A} (Q : A → WorkspaceController → Prop) :
  runs (at_ cur) (record_failure slots materializer cmd cur target error) Q.
Proof.
  unfold record_failure. eapply runs_bind; [apply runs_ask, stable_at|]. intros answer.
  set (observed := match answer with Ok MatPresent | Ok MatUnknown | Err _ => MatUnknown | Ok MatAbsent => MatAbsent end).
  eapply runs_weaken; [|intros c _ [Hc _]; exact Hc|done].
  eapply runs_bind; [apply runs_try|]. intros id. apply runs_pure. intros ->%(derive_stage Failing).
  eapply runs_bind; [|intros u; apply (runs_err (fun _ => True))]. unfold wks_store. eapply runs_bind.
  - apply (runs_transition (fun _ => True) Failing _ (OpFailMaterialization (ws_id cur) (ws_revision cur) observed) WsError observed);
      [done|done| |done]. intros amb v rec v' Hx. split; [by apply fail_transition|done].
  - intros r. eapply runs_weaken; [apply (runs_try (fun _ => True))|done|done].
Qed.

(** The external state of a Workspace that is Ready was verified. *)
Definition verified (rec : WorkspaceRecord) (c : WorkspaceController) : Prop :=
  (∃ e, e ∈ wc_effects c ∧ ef_kind e = Materialized ∧ ef_target e = target_of root rec ∧
     port_materialize materializer (wo_turn (ef_world e)) (ef_target e) = Ok (ws_resolved_base rec)) ∨
  ∃ n, port_observe materializer n (target_of root rec) = Ok MatPresent.

Definition ready (rec : WorkspaceRecord) (c : WorkspaceController) : Prop :=
  at_ rec c ∧ ws_phase rec = WsReady ∧ verified rec c.

(** The base a completion was checked against is the bound one. *)
Lemma checked_base db cur base :
  valid MIGRATIONS db → current_of T db cur →
  (∃ r, row_of db "workspaces" "id" (ws_id cur) = Some r ∧ column r "resolved_base" = SText (resolved_text base)) →
  base = ws_resolved_base cur.
Proof.
  intros Hv (r0 & rest & Hf & Hh & _)%current_of_row (r & Hr & Hb).
  assert (r0 ∈ r0 :: rest) as Hin by left. rewrite <-Hf in Hin. apply list_elem_of_In, filter_In in Hin as [Hin _].
  rewrite (row_of_unique MIGRATIONS _ _ _ _ r0 Hv (proj2 (list_elem_of_In _ _) Hin) (proj1 Hh)) in Hr. injection Hr as <-.
  destruct (row_holds_columns _ _ Hh) as (_ & _ & Hc & _). destruct base, (ws_resolved_base cur). cbn in *. congruence.
Qed.

Definition complete_step (marked : WorkspaceRecord) (base : ResolvedBase) : Wks WorkspaceRecord :=
  let^ id := wks_try (derive (wcm_id cmd) "ready" (Some (ws_revision marked))) in
  let^ completed := wks_outcome (eng_command slots (derived_command cmd id "workspace.ready")
    (fun _ => complete_workspace_materialization MIGRATIONS (ws_id marked) (ws_revision marked) base)) in
  settle slots completed (ws_task_id marked).

Lemma runs_complete marked base :
  ws_task_id marked = T →
  runs (at_ marked) (complete_step marked base)
    (fun rec c => at_ rec c ∧ same_workspace marked rec ∧ ws_phase rec = WsReady ∧ base = ws_resolved_base rec).
Proof.
  intros HT. unfold complete_step. eapply runs_bind; [apply runs_try|]. intros id. apply runs_pure.
  intros ->%(derive_stage Readying). rewrite HT.
  eapply runs_bind; [|intros completed; eapply runs_weaken; [apply runs_settle| |intros a c Ha; exact Ha]].
  { apply (runs_transition (fun db => ∃ r, row_of db "workspaces" "id" (ws_id marked) = Some r ∧
        column r "resolved_base" = SText (resolved_text base)) Readying _
      (OpCompleteMaterialization (ws_id marked) (ws_revision marked) base) WsReady MatPresent);
      [done|done|intros amb; apply complete_transition|done]. }
  intros c _. destruct completed as [[rec k|k t]|err]; [|done..].
  intros (Hrec & Hsame & Hph & _ & db & Hv & Hc & Hrow). split_and!; [done..|].
  rewrite (checked_base _ _ _ Hv Hc Hrow). by destruct Hsame as (_ & _ & _ & ->).
Qed.

Lemma runs_materialize cur :
  ws_task_id cur = T → runs (at_ cur) (materialize slots materializer root cmd cur) ready.
Proof.
  intros HT. unfold materialize. eapply runs_bind; [apply runs_try|]. intros id. apply runs_pure.
  intros ->%(derive_stage Marking). rewrite HT. eapply runs_bind; [|intros begun; eapply runs_bind].
  { apply (runs_transition (fun _ => True) Marking _ (OpBeginMaterialization (ws_id cur) (ws_revision cur)) WsMaterializing MatUnknown);
      [done|done| |done]. intros amb v rec v' Hx. split; [by apply begin_transition|done]. }
  { eapply runs_weaken; [apply (runs_settle (fun rec c => at_ rec c ∧ same_workspace cur rec ∧ ws_phase rec = WsMaterializing ∧
      ws_materialization rec = MatUnknown))| |intros a c Ha; exact Ha].
    intros c _. destruct begun as [[rec k|k t]|err]; naive_solver. }
  intros marked. eapply (runs_weaken (fun c => at_ marked c ∧ (same_workspace cur marked ∧ ws_phase marked = WsMaterializing ∧
    ws_materialization marked = MatUnknown))); [apply runs_pure; intros (Hsame & Hph & Hmt)|tauto|intros a c Ha; exact Ha].
  rewrite <-(target_same _ _ Hsame). eapply runs_bind; [by apply runs_effect|]. intros [u|error];
    (eapply runs_pre; [|intros c _ [Hc _]; exact Hc]); [|apply runs_record_failure].
  eapply runs_bind; [by apply runs_effect|]. intros [base|error];
    [|eapply runs_weaken; [apply runs_record_failure|intros c _ [Hc _]; exact Hc|done]].
  intros c Hs (Hc & e & He & Hk & Htg & Ha).
  assert (ws_task_id marked = T) as HTm by (by destruct Hsame as (_ & -> & _)).
  destruct (runs_frame _ _ _ e (runs_complete marked base HTm) c Hs (conj Hc He)) as [Hg Hq]. split; [exact Hg|].
  unfold complete_step in Hq. destruct (wks_bind _ _ c) as [[rec|err] c1]; [|done]. cbn [fst snd] in Hq |- *.
  destruct Hq as [(Hrec & Hsame2 & Hph2 & ->) He1]. split_and!; [done..|]. left. exists e.
  split_and!; [done|done|by rewrite (target_same _ _ Hsame2)|]. by rewrite Htg, <-Ha.
Qed.

Lemma runs_reopen cur :
  ws_phase cur = WsReady → runs (at_ cur) (reopen slots materializer root cur) ready.
Proof.
  intros Hph. unfold reopen. eapply runs_bind; [apply runs_ask, stable_at|]. intros answer c Hs [Hc [n Hn]].
  unfold wks_bind, wks_try. destruct answer as [observed|error]; cbn; [|by split; [apply goes_refl|]].
  case_bool_decide as Ho; cbn; (split; [by apply goes_refl|]); [|done]. subst. split_and!; [done|done|]. right. by exists n.
Qed.

Lemma runs_repository_of (P : WorkspaceController → Prop) :
  stable P → runs P (repository_of slots T) (fun _ => P).
Proof.
  intros Hp. unfold repository_of. eapply runs_bind; [by apply runs_read|]. intros found.
  eapply (runs_pre P); [|by intros c _ [Hc _]]. eapply runs_bind; [apply runs_some|]. intros t.
  eapply (runs_pre P); [|by intros c _ [Hc _]]. destruct (negb _); [apply runs_err|].
  eapply runs_bind; [by apply runs_read|]. intros stored. eapply (runs_pre P); [|by intros c _ [Hc _]].
  eapply runs_bind; [apply runs_some|]. intros canonical. eapply (runs_pre P); [|by intros c _ [Hc _]].
  eapply runs_bind; [apply runs_try|]. intros spec. eapply (runs_pre P); [|by intros c _ [Hc _]].
  destruct (negb _); [apply runs_err|]. eapply runs_weaken; [apply (runs_some P)|done|by intros a c [Hc _]].
Qed.

(** What a base is, and an answer of the materializer. *)
Definition well_formed_base (base : ResolvedBase) : Prop := resolved_base_parse (resolved_text base) = Ok base.

Definition honest : Prop :=
  ∀ n source base answer, port_resolve_base materializer n source base = Ok answer → well_formed_base answer.

Lemma open_command id b c r w' ev :
  wb_task_id b = T →
  requested_base_parse (requested_text (wb_requested_base b)) = Ok (wb_requested_base b) →
  well_formed_base (wb_resolved_base b) → steady c →
  eng_command slots (derived_command cmd (command_text (wcm_id cmd) "open" None) ev)
    (fun amb => open_workspace MIGRATIONS amb id b) (wc_world c) = (r, w') →
  goes c {| wc_world := w'; wc_effects := wc_effects c |} ∧
  match r with Ok (Executed rec _) => current_of T (wo_db w') rec | _ => True end.
Proof.
  intros HT Hreq Hres [Hs Hst] Hx.
  destruct (command_cases _ _ (OpOpenWorkspace id b) _ _ _ eq_refl (fun _ => eq_refl) Hs Hx) as (db & Hq & Hs1 & Hr).
  destruct r as [[rec k|k t]|err].
  - destruct Hr as (_ & Hs' & Hl & amb & t & Ht & Hd).
    assert (∀ cur, ¬ current_of T db cur) as Hno by (intros cur; rewrite <-HT; by eapply open_fresh in Ht).
    apply open_current in Ht as [Hcur _]; [|done|done]. rewrite HT in Hcur.
    assert (current_of T (wo_db w') rec) as Hcur'.
    { unfold current_of. erewrite workspace_for_task_rows; [exact Hcur|]. unfold rows_of_task. rewrite Hd; [done|].
      unfold kernel_tables. elem. }
    split; [|done]. split; [split; [done|]| |exists []; by rewrite app_nil_r].
    + intros s n [Hin|[_ Hid]]%Hl; [|by destruct (open_not_stage s n)].
      destruct (settled_quiet _ _ Hq Hs Hst s n Hin) as (cur & Hc & _). by destruct (Hno cur).
    + intros cur Hc. destruct (Hno cur). by eapply current_quiet.
  - destruct Hr as [_ Hr]. split; [|done]. apply goes_turn; [done|]. by rewrite Hr.
  - split; [|done]. apply goes_turn; [done|]. by rewrite Hr.
Qed.

Lemma runs_replay k t : runs (fun _ => True) (settle slots (Ok (Replayed k t)) T) (fun rec c => at_ rec c).
Proof.
  unfold settle. eapply runs_bind; [apply runs_try|]. intros x. apply runs_pure. intros [= <-].
  eapply runs_bind; [by apply runs_read|]. intros found. eapply runs_weaken; [apply runs_some|intros c _ Hc; exact Hc|].
  by intros rec c [[_ Hq] ->].
Qed.

Lemma runs_open workspace_id request :
  requested_base_parse (requested_text (wr_requested_base request)) = Ok (wr_requested_base request) → honest →
  runs (fun _ => True) (open slots materializer cmd workspace_id T request) (fun rec c => at_ rec c).
Proof.
  intros Hreq Hh. unfold open. eapply runs_bind; [by apply runs_repository_of|]. intros repository.
  eapply runs_bind; [by apply runs_ask|]. intros answer.
  eapply (runs_pre (fun _ => True ∧ ∃ n, answer = port_resolve_base materializer n (wr_source request) (wr_requested_base request)));
    [apply runs_pure; intros [n Ha]|done].
  eapply runs_bind; [apply runs_try|]. intros resolved. apply runs_pure. intros Hres.
  assert (well_formed_base resolved) as Hwf.
  { eapply (Hh n (wr_source request)). rewrite <-Ha. by destruct answer; [injection Hres as ->|]. }
  eapply runs_bind; [apply runs_some|]. intros source. eapply (runs_pre (fun _ => True)); [|done].
  eapply runs_bind; [apply runs_try|]. intros id. apply runs_pure. intros Hid.
  unfold derive in Hid. destruct (Nat.ltb _ _); [done|]. injection Hid as <-.
  eapply (runs_bind _ _ _ (fun r c => match r with Ok (Executed rec _) => at_ rec c | _ => True end)).
  - intros c Hs _. unfold wks_outcome. destruct (eng_command _ _ _ (wc_world c)) as [r w'] eqn:Hx. cbn.
    exact (open_command workspace_id {| wb_task_id := T; wb_repository := repository; wb_source_path := source;
      wb_requested_base := wr_requested_base request; wb_resolved_base := resolved |} c r w' _ eq_refl Hreq Hwf Hs Hx).
  - intros [[rec k|k t]|err]; unfold settle.
    + intros c Hs Hc. by split; [apply goes_refl|].
    + intros c Hs _. destruct (runs_replay k t c Hs I) as [Hg Hq]. by split.
    + intros c Hs _. by split; [apply goes_refl|].
Qed.

Lemma runs_ensure workspace_id request :
  requested_base_parse (requested_text (wr_requested_base request)) = Ok (wr_requested_base request) → honest →
  runs (fun _ => True) (ensure slots materializer root cmd workspace_id T request) ready.
Proof.
  intros Hreq Hh. unfold ensure. eapply runs_bind; [by apply runs_read|]. intros existing.
  eapply (runs_bind _ _ _ (fun rec c => at_ rec c)).
  - destruct existing as [cur|]; [|eapply runs_weaken; [by apply runs_open|done|done]].
    intros c Hs [_ Hc]. unfold wks_bind, wks_try, wks_ret. destruct (check_matches cur request) as [[]|err]; cbn;
      by split; [apply goes_refl|].
  - intros cur c Hs Hc. pose proof (current_of_row _ _ _ Hc) as (_ & _ & _ & _ & HT).
    destruct (ws_phase cur) eqn:Hph; try (by split; [apply goes_refl|]).
    + by apply runs_materialize.
    + by apply runs_materialize.
    + by apply runs_reopen.
    + by apply runs_materialize.
Qed.

(** Ready answers stay about one Workspace. *)
Lemma retried_fenced workspace_id request tries c rs c' :
  requested_base_parse (requested_text (wr_requested_base request)) = Ok (wr_requested_base request) → honest →
  steady c → ensure_retried slots materializer root tries cmd workspace_id T request c = (rs, c') →
  goes c c' ∧
  ∀ a, Ok a ∈ rs → ws_phase a = WsReady ∧ verified a c' ∧ ∃ cur, at_ cur c' ∧ same_workspace a cur.
Proof.
  intros Hreq Hh. revert c rs. induction tries as [|k IH]; intros c rs Hs; cbn [ensure_retried].
  { intros [= <- <-]. split; [by apply goes_refl|]. by intros a Ha%not_elem_of_nil. }
  destruct (runs_ensure workspace_id request Hreq Hh c Hs I) as [Hg Hr].
  destruct (ensure _ _ _ _ _ _ _ c) as [r c1]. cbn in Hg, Hr.
  destruct (ensure_retried _ _ _ k _ _ _ _ c1) as [rs1 c2] eqn:E. intros [= <- <-].
  destruct (IH c1 rs1 (goes_steady _ _ Hg) E) as [Hg2 Hall]. split; [by eapply goes_trans|].
  intros a [<-|Ha]%elem_of_cons; [|by apply Hall]. destruct Hr as (Hc & Hph & Hv). split; [done|]. split.
  - destruct Hv as [(e & He & Hk & Ht & Hm)|Hv]; [|by right]. left. exists e. split_and!; [|done..].
    destruct (goes_effects _ _ Hg2) as (added & -> & _). apply elem_of_app. by left.
  - by apply (goes_bound _ _ Hg2).
Qed.
End Calls.
End Fence.

(** C19: A caller brings the Workspace of a Task to Ready, retrying the same command
    as often as it likes, while others use the store for anything but this Task's
    Workspace and this command's transitions. Then every discard and every creation
    of external state happened when the Task's current Workspace was durably
    Materializing with nothing known of its materialization - never when it was Ready -
    and touched the path, source and base bound to that Workspace alone. Every answer
    is Ready, and its base is the one the materializer verified on disk, or its
    external state was observed present. All answers are about one Workspace, bound to
    one base. *)
Theorem workspace_effects_fenced `{Sha256} slots materializer root cmd workspace_id task_id request tries w rs c' :
  (∀ i q, q ∈ slot_before (slots i) → elsewhere cmd task_id q) →
  sound (wo_db w) → settled cmd task_id (wo_db w) →
  requested_base_parse (requested_text (wr_requested_base request)) = Ok (wr_requested_base request) →
  honest materializer →
  ensure_retried slots materializer root tries cmd workspace_id task_id request
    {| wc_world := w; wc_effects := [] |} = (rs, c') →
  (∀ e, e ∈ wc_effects c' →
     ∃ rec, workspace_for_task MIGRATIONS (wo_db (ef_world e)) task_id = Ok (Some rec) ∧
       ws_phase rec = WsMaterializing ∧ ws_materialization rec = MatUnknown ∧ ef_target e = target_of root rec) ∧
  (∀ a, Ok a ∈ rs → ws_phase a = WsReady ∧ verified materializer root a c') ∧
  ∀ a b, Ok a ∈ rs → Ok b ∈ rs → same_workspace a b.
Proof.
  intros Ho Hs Hst Hreq Hh Hx.
  assert (steady cmd task_id {| wc_world := w; wc_effects := [] |}) as Hw by (split; [exact Hs|exact Hst]).
  destruct (retried_fenced cmd task_id slots Ho materializer root workspace_id request tries _ rs c' Hreq Hh Hw Hx)
    as [Hg Hall]. split_and!.
  - intros e He. destruct (goes_effects _ _ _ _ _ Hg) as (added & Ha & Hf). cbn in Ha. rewrite Ha in He.
    rewrite Forall_forall in Hf. by apply Hf.
  - intros a Ha. by destruct (Hall a Ha) as (? & ? & _).
  - intros a b Ha Hb. destruct (Hall a Ha) as (_ & _ & x & Hx1 & Sa). destruct (Hall b Hb) as (_ & _ & y & Hy & Sb).
    unfold at_, current_of in Hx1, Hy. rewrite Hx1 in Hy. injection Hy as <-.
    destruct Sa as (?&?&?&?), Sb as (?&?&?&?). unfold same_workspace. split_and!; congruence.
Qed.
