(* ===== verification/WorkspaceScenario.v ===== *)
(** * Bringing a Workspace to Ready, alone and against another caller *)

From Stdlib Require Import ZArith NArith Ascii Lia.
From S2P Require Import Prelude Utf8 Canonical Digest Goal Workspace Sql Schema Transaction Command StoreBase StorePlanning StoreWorkspace StoreLaws StoreHistory StoreFrames Scenario EngineBase EngineWorkspace EngineScenario.

#[local] Existing Instance stir_hash.

(** The materializer fails at first, and then creates what it is asked for. *)
Definition late_materializer : RepositoryMaterializer := {|
  port_resolve_base := fun _ _ _ => Ok story_base;
  port_materialize := fun n t =>
    if Nat.ltb n 9 then Err {| me_code := "workspace.io"; me_detail := "disk" |} else Ok (mt_base t);
  port_observe := fun n t => Ok (if Nat.ltb n 14 then MatAbsent else MatPresent);
  port_discard := fun _ _ => Ok tt |}.

Definition workspace_command : WorkspaceCommand :=
  {| wcm_epoch := sample_generation; wcm_id := "request-9"; wcm_request_hash := sample_hash |}.

Definition workspace_request : WorkspaceRequest :=
  {| wr_source := "/srv/app"; wr_requested_base := mk_requested "main" |}.

Definition materialized_connection : Connection := (serve_all (take 4 story) opened).2.

Local Abbreviation retried := (ensure_retried EngineScenario.quiet late_materializer "/var/lib/pantheon" 3 workspace_command
  "ws-1" "task-1" workspace_request {| wc_world := world_of materialized_connection; wc_effects := [] |}).

Lemma retried_answers : map answered retried.1 = [false; true; true].
Proof. vm_compute. reflexivity. Qed.

Lemma serve_all_sound l conn : sound (conn_db conn) → sound (conn_db (serve_all l conn).2).
Proof. intros Hs. by eapply sound_advance; [apply serve_all_advance|]. Qed.

Lemma opened_sound : sound (conn_db opened).
Proof. split; [exact opened_valid|]. eexists _, _, _. apply bootstrap_kernel. Qed.

Definition ledger_ids (db : Database) : list SqlValue := map (fun r => column r "command_id") (rows db "commands").

(** No recorded identity is one of the command's transitions. *)
Lemma unrecorded db ids :
  ledger_ids db = ids → forallb (fun v => match v with SText t => negb (starts_with "request-9" t) | _ => true end) ids = true →
  ∀ s n, ¬ in_ledger db (stage_command workspace_command s n).
Proof.
  intros <- Hall s n (r & Hr & Hc). rewrite forallb_forall in Hall.
  assert (In (column r "command_id") (ledger_ids db)) as Hin by (apply in_map_iff; exists r; split; [done|by apply list_elem_of_In]).
  specialize (Hall _ Hin).
  unfold command_where in Hc. apply andb_true_iff in Hc as [_ Hc%col_is_text]. rewrite Hc in Hall.
  cbn in Hall. discriminate Hall.
Qed.

Lemma quiet_elsewhere i q : q ∈ slot_before (EngineScenario.quiet i) → elsewhere workspace_command "task-1" q.
Proof. intros Hq. inversion Hq. Qed.

Lemma workspace_effects_fenced_witness :
  map answered retried.1 = [false; true; true] ∧
  ∀ e, e ∈ wc_effects retried.2 →
    ∃ rec, workspace_for_task MIGRATIONS (wo_db (ef_world e)) "task-1" = Ok (Some rec) ∧ ws_phase rec = WsMaterializing.
Proof.
  split; [exact retried_answers|]. destruct retried as [rs c'] eqn:E.
  destruct (workspace_effects_fenced EngineScenario.quiet late_materializer "/var/lib/pantheon" workspace_command "ws-1" "task-1"
    workspace_request 3 (world_of materialized_connection) rs c' quiet_elsewhere) as (He & _ & _).
  - apply serve_all_sound, opened_sound.
  - intros s n Hl. exfalso. revert Hl. eapply unrecorded; vm_compute; reflexivity.
  - reflexivity.
  - intros n source base answer [= <-]. reflexivity.
  - exact E.
  - intros e Hin. destruct (He e Hin) as (rec & Hr & Hp & _). exists rec. split; [exact Hr|exact Hp].
Defined.

(** ** Two callers with one command *)

(** The Workspace is recorded and nothing of it exists. *)
Definition requested_connection : Connection := (serve_all (take 5 story) opened).2.

Definition prompt_materializer : RepositoryMaterializer := {|
  port_resolve_base := fun _ _ _ => Ok story_base;
  port_materialize := fun _ t => Ok (mt_base t);
  port_observe := fun _ _ => Ok MatPresent;
  port_discard := fun _ _ => Ok tt |}.

Local Abbreviation ensured slots := (ensure slots prompt_materializer "/var/lib/pantheon" workspace_command "ws-1" "task-1"
  workspace_request {| wc_world := world_of requested_connection; wc_effects := [] |}).

(** The two commits of one call. *)
Definition rival_commits : list Request := [
  {| rq_driver := working; rq_ambient := ambient "e1";
     rq_command := command "request-9:workspace:materializing:1" "workspace.materializing";
     rq_operation := OpBeginMaterialization "ws-1" 1 |};
  {| rq_driver := working; rq_ambient := ambient "e2";
     rq_command := command "request-9:workspace:ready:2" "workspace.ready";
     rq_operation := OpCompleteMaterialization "ws-1" 2 story_base |}].

(** They happen after the other call has read the Workspace and before its marker. *)
Definition rival (n : nat) : Slot :=
  match n with
  | 1 => {| slot_before := rival_commits; slot_driver := working; slot_ambient := ambient "f0"; slot_fault := None;
            slot_republish := None |}
  | _ => EngineScenario.quiet n
  end.

Definition effect_phase (e : Effect) : option (EffectKind * WorkspacePhase) :=
  match workspace_for_task MIGRATIONS (wo_db (ef_world e)) "task-1" with
  | Ok (Some rec) => Some (ef_kind e, ws_phase rec)
  | _ => None
  end.

(** Two live callers of one command are not as harmless as the controller's
    contract says. One call reads the Workspace as Requested; a second call of the same
    command runs to the end and makes it Ready; the first one's marker is then a replay,
    it reads the Ready Workspace back, and discards and rebuilds its external state.
    Left alone, the first call is those same two commits, and its effects come before
    Ready. *)
Theorem replayed_marker_discards_ready :
  (omap effect_phase (wc_effects (ensured EngineScenario.quiet).2) =
     [(Discarded, WsMaterializing); (Materialized, WsMaterializing)] ∧
   workspace_for_task MIGRATIONS (wo_db (wc_world (ensured EngineScenario.quiet).2)) "task-1" =
     workspace_for_task MIGRATIONS (conn_db (serve_all rival_commits requested_connection).2) "task-1" ∧
   ledger_ids (wo_db (wc_world (ensured EngineScenario.quiet).2)) =
     ledger_ids (conn_db (serve_all rival_commits requested_connection).2)) ∧
  omap effect_phase (wc_effects (ensured rival).2) = [(Discarded, WsReady); (Materialized, WsReady)] ∧
  answered (ensured rival).1 = false.
Proof. vm_compute. repeat split. Qed.
