(* ===== verification/EngineSealing.v ===== *)
(** * Sealing a Workspace into a changeset ([pantheon-engine/src/sealing.rs])

    Authority, fence, capture, publication of every payload, the difference against
    the immutable base, the manifest, and one authoritative commit. The capture walk,
    the reader of the base repository and the content store are not part of this
    program: their answers, at every call, are an argument. What was published and
    what was committed is kept, in order, in the controller's state. *)

From Stdlib Require Import ZArith Ascii Lia.
From S2P Require Import Prelude Utf8 Canonical Digest Goal Task Artifact Scope Workspace Parse ParseFacts Sql Schema Transaction Command StoreBase StorePlanning StoreWorkspace StoreArtifacts StoreLaws StoreHistory StoreFrames EngineBase EngineWorkspace.

(** ** Definitions *)

#[export] Instance EntryKind_eq_dec : EqDecision EntryKind.
Proof. solve_decision. Defined.

Record ExternalFault : Type := { xf_code : string; xf_detail : string }.

Record CapturedEntry : Type := { cap_path : RepositoryPath; cap_kind : EntryKind; cap_bytes : string }.

Record BaseObject : Type := { bo_kind : EntryKind; bo_oid : string; bo_size : Z }.

Record ObjectRef : Type := { or_digest : Digest; or_size : Z }.

(** The walk's entries, and the fault it ended with. *)
Record WorkspaceTreeCapture : Type := {
  capture_tree : nat → string → list CapturedEntry * option ExternalFault
}.

Record TrustedBaseReader : Type := {
  port_base_tree : nat → string → ResolvedBase → Result (gmap string BaseObject) ExternalFault;
  port_blob_object_names : nat → string → list string → Result (list string) ExternalFault;
  port_blob_bytes : nat → string → string → Result string ExternalFault
}.

Record ContentObjectStore : Type := { port_publish : nat → string → Result ObjectRef ExternalFault }.

Record SealCommand : Type := { slc_epoch : string; slc_id : string; slc_request_hash : string }.

Record SealRequest : Type := {
  sr_task_id : string;
  sr_output_slot : string;
  sr_authority : SealAuthority;
  sr_producer_attempt_id : option string
}.

Inductive SealError : Type :=
| SealStore (e : StoreError)
| TaskUnusable (task_id : string) (detail : Message + SpecFault)
| OutputSlotInvalid (task_id slot : string) (detail : Message)
| WorkspaceState (workspace_id : string) (detail : Message)
| CaptureFailed (f : ExternalFault)
| ScopeViolated (path : string)
| CeilingsExceeded (detail : Message)
| SealIdentityTooLong (id : string).

Record SealedArtifact : Type := {
  sa_artifact_digest : Digest;
  sa_artifact_json : string;
  sa_revision_state_digest : Digest;
  sa_artifact_reused : bool
}.

Definition MAX_ENTRIES : Z := 100000.
Definition MAX_TOTAL_BYTES : Z := 1073741824.
Definition MAX_IDENTITY_BATCH_BYTES : Z := 16777216.
Definition SCOPE_FAULT_CODE : string := "workspace.scope-violated".

(** [u64::saturating_add]. *)
Definition saturating_add (a b : Z) : Z := Z.min u64_max (a + b).

Definition byte_size (s : string) : Z := Z.of_nat (String.length s).

(** The iteration of a [BTreeMap] keyed by bytes. *)
Definition btree_iter {V} (m : gmap string V) : list (string * V) :=
  sort_by (key_cmp fst String.compare) (map_to_list m).

(** What the walk has collected. *)
Record CaptureState : Type := {
  cs_final : gmap string (EntryKind * Digest * Z);
  cs_unpublished : gset string;
  cs_total_bytes : Z;
  cs_batch : list (string * string);
  cs_batch_bytes : Z;
  cs_identities : gmap string string
}.

Definition capture_start : CaptureState := {|
  cs_final := ∅; cs_unpublished := ∅; cs_total_bytes := 0; cs_batch := []; cs_batch_bytes := 0;
  cs_identities := ∅ |}.

(** *** The controller's state *)

Inductive SealEvent : Type :=
| EvPublished (bytes : string) (reference : ObjectRef)
| EvCommit (seal : SealedChangeset).

Record Sealer : Type := { sl_world : World; sl_calls : nat; sl_trace : list SealEvent }.

Definition Seal (E A : Type) : Type := Sealer → Result A E * Sealer.

Definition seal_ret {E A} (a : A) : Seal E A := fun s => (Ok a, s).

Definition seal_err {E A} (e : E) : Seal E A := fun s => (Err e, s).

Definition seal_try {E A} (r : Result A E) : Seal E A := fun s => (r, s).

Definition seal_bind {E A B} (m : Seal E A) (k : A → Seal E B) : Seal E B := fun s =>
  match m s with
  | (Ok a, s') => k a s'
  | (Err e, s') => (Err e, s')
  end.

Notation "'let~' x := m 'in' k" := (seal_bind m (fun x => k))
  (at level 10, x pattern, m at level 100, k at level 200) : rust_scope.
Notation "'do~' m 'in' k" := (seal_bind m (fun _ => k))
  (at level 10, m at level 100, k at level 200) : rust_scope.

Definition seal_map_err {E F A} (f : E → F) (m : Seal E A) : Seal F A := fun s =>
  match m s with
  | (Ok a, s') => (Ok a, s')
  | (Err e, s') => (Err (f e), s')
  end.

Definition seal_some {E A} (o : option A) (e : E) : Seal E A := seal_try (ok_or o e).

(** The outcome of a call, error or not. *)
Definition seal_attempt {E F A} (m : Seal E A) : Seal F (Result A E) := fun s =>
  let (r, s') := m s in (Ok r, s').

(** One call of a port. *)
Definition seal_call {E A} (f : nat → Result A E) : Seal E A := fun s =>
  (f (sl_calls s), {| sl_world := sl_world s; sl_calls := S (sl_calls s); sl_trace := sl_trace s |}).

Definition seal_event {E} (e : SealEvent) : Seal E unit := fun s =>
  (Ok tt, {| sl_world := sl_world s; sl_calls := sl_calls s; sl_trace := sl_trace s ++ [e] |}).

(** A call of the store, its outcome as a value; and [?] on it. *)
Definition seal_outcome {E A} (m : Eng StoreError A) : Seal E (Result A StoreError) := fun s =>
  let (r, w) := m (sl_world s) in
  (Ok r, {| sl_world := w; sl_calls := sl_calls s; sl_trace := sl_trace s |}).

Definition seal_store {A} (m : Eng StoreError A) : Seal SealError A :=
  let~ r := seal_outcome m in seal_try (map_err SealStore r).

Definition from_changeset_error (e : ChangesetError) : SealError :=
  SealStore (broken "changeset construction failed" []).

Definition authority_tag (a : SealAuthority) : string :=
  seal_run_id a +:+ ("@" +:+ i64_to_string (seal_expected_run_revision a)).

Definition seal_derive (base suffix : string) : Result string SealError :=
  let id := base +:+ (":seal:" +:+ suffix) in
  if Nat.ltb MAX_COMMAND_ID (String.length id) then Err (SealIdentityTooLong id) else Ok id.

Section Sealing.
Context `{Sha256}.
Variable slots : nat → Slot.
Variable capture : WorkspaceTreeCapture.
Variable base : TrustedBaseReader.
Variable objects : ContentObjectStore.
Variable workspace_root : string.
(** What [randomblob] answers at the n-th access. *)
Variable random_id : nat → string.

Definition seal_read {A} (q : Database → Result A StoreError) : Seal SealError A :=
  seal_store (eng_read slots (fun _ => q)).

Definition capture_root_of (workspace_id : string) : string :=
  path_join (path_join workspace_root workspace_id) "repo".

Definition publish (bytes : string) : Seal ExternalFault ObjectRef :=
  let~ reference := seal_call (fun n => port_publish objects n bytes) in
  do~ seal_event (EvPublished bytes reference) in
  seal_ret reference.

(** *** Capture *)

Definition flush_identity_batch (source : string) (cs : CaptureState) : Seal ExternalFault CaptureState :=
  match cs_batch cs with
  | [] => seal_ret cs
  | batch =>
      let contents := map snd batch in
      let~ names := seal_call (fun n => port_blob_object_names base n source contents) in
      if negb (Nat.eqb (length names) (length contents)) then
        seal_err {| xf_code := "workspace.base-unavailable";
                    xf_detail := "the base identity derivation returned another number of names" |}
      else
        seal_ret {| cs_final := cs_final cs; cs_unpublished := cs_unpublished cs;
                    cs_total_bytes := cs_total_bytes cs; cs_batch := []; cs_batch_bytes := cs_batch_bytes cs;
                    cs_identities := fold_left (fun m p => <[p.1.1 := p.2]> m) (combine batch names) (cs_identities cs) |}
  end.

(** What the walk does with one entry. *)
Definition capture_entry (source : string) (base_tree : gmap string BaseObject) (scope : WorkspaceScope)
    (cs : CaptureState) (entry : CapturedEntry) : Seal ExternalFault CaptureState :=
  if (MAX_ENTRIES <=? Z.of_nat (size (cs_final cs)))%Z then
    seal_err {| xf_code := "workspace.capture-ceiling"; xf_detail := "more than the permitted entries" |}
  else
  let size := byte_size (cap_bytes entry) in
  let total_bytes := saturating_add (cs_total_bytes cs) size in
  if (MAX_TOTAL_BYTES <? total_bytes)%Z then
    seal_err {| xf_code := "workspace.capture-ceiling"; xf_detail := "more than the permitted bytes" |}
  else
  let digest := digest_of (cap_bytes entry) in
  let key := sort_key (cap_path entry) in
  let~ unpublished :=
    (if authorizes scope (cap_path entry) then
       let~ published := publish (cap_bytes entry) in
       if negb (or_size published =? size)%Z || negb (bool_decide (or_digest published = digest)) then
         seal_err {| xf_code := "cas.verify-failed"; xf_detail := "published another object" |}
       else seal_ret (cs_unpublished cs)
     else seal_ret ({[ key ]} ∪ cs_unpublished cs)) in
  let candidate := match base_tree !! key with
                   | Some before => bool_decide (bo_kind before = cap_kind entry) && (bo_size before =? size)%Z
                   | None => false
                   end in
  let collected := {|
    cs_final := <[key := (cap_kind entry, digest, size)]> (cs_final cs);
    cs_unpublished := unpublished; cs_total_bytes := total_bytes;
    cs_batch := if candidate then cs_batch cs ++ [(key, cap_bytes entry)] else cs_batch cs;
    cs_batch_bytes := if candidate then (cs_batch_bytes cs + size)%Z else cs_batch_bytes cs;
    cs_identities := cs_identities cs |} in
  if candidate && (MAX_IDENTITY_BATCH_BYTES <=? cs_batch_bytes collected)%Z then
    let~ flushed := flush_identity_batch source collected in
    seal_ret {| cs_final := cs_final flushed; cs_unpublished := cs_unpublished flushed;
                cs_total_bytes := cs_total_bytes flushed; cs_batch := cs_batch flushed; cs_batch_bytes := 0;
                cs_identities := cs_identities flushed |}
  else seal_ret collected.

(** An error of the sink ends the walk and is returned unchanged. *)
Fixpoint capture_entries (source : string) (base_tree : gmap string BaseObject) (scope : WorkspaceScope)
    (cs : CaptureState) (entries : list CapturedEntry) : Seal ExternalFault CaptureState :=
  match entries with
  | [] => seal_ret cs
  | entry :: rest =>
      let~ cs := capture_entry source base_tree scope cs entry in
      capture_entries source base_tree scope cs rest
  end.

Definition capture_all (source root : string) (base_tree : gmap string BaseObject) (scope : WorkspaceScope) :
    Seal SealError CaptureState :=
  let~ walked := seal_call (fun n => Ok (capture_tree capture n root)) in
  let~ cs := seal_map_err
    (fun fault => if String.eqb (xf_code fault) SCOPE_FAULT_CODE then ScopeViolated (xf_detail fault)
                  else CaptureFailed fault)
    (let~ cs := capture_entries source base_tree scope capture_start walked.1 in
     match walked.2 with
     | Some fault => seal_err fault
     | None => seal_ret cs
     end) in
  seal_map_err CaptureFailed (flush_identity_batch source cs).

(** *** The difference *)

Definition path_of_bytes (bytes : string) : Seal SealError RepositoryPath :=
  seal_try (map_err from_changeset_error (path_from_bytes bytes)).

Definition refuse_unpublished_change (bytes : string) (unpublished : gset string) : Result unit SealError :=
  if bool_decide (bytes ∈ unpublished) then
    Err (ScopeViolated (match path_from_bytes bytes with
                        | Ok p => to_manifest_string p
                        | Err _ => "(unrepresentable)"
                        end))
  else Ok tt.

Definition before_state (source : string) (before : BaseObject) : Seal SealError EntryState :=
  let~ bytes := seal_map_err CaptureFailed (seal_call (fun n => port_blob_bytes base n source (bo_oid before))) in
  let~ published := seal_map_err CaptureFailed (publish bytes) in
  if negb (or_size published =? byte_size bytes)%Z || negb (or_size published =? bo_size before)%Z then
    seal_err (CaptureFailed {| xf_code := "cas.verify-failed"; xf_detail := "preimage published another size" |})
  else seal_ret (Present (bo_kind before) (or_digest published) (or_size published)).

Definition new_entry (path : RepositoryPath) (operation : Artifact.Operation) (before after : EntryState) :
    Seal SealError ChangesetEntry :=
  seal_try (map_err from_changeset_error (changeset_entry_new path operation before after)).

(** Proved by the name of the captured bytes, without the base's. *)
Definition unchanged (cs : CaptureState) (key : string) (after : EntryKind * Digest * Z) (before : BaseObject) : bool :=
  let '(kind, _, size) := after in
  bool_decide (bo_kind before = kind) && (bo_size before =? size)%Z &&
  bool_decide (cs_identities cs !! key = Some (bo_oid before)).

(** Added and modified paths. *)
Fixpoint diff_captured (source : string) (base_tree : gmap string BaseObject) (cs : CaptureState)
    (final : list (string * (EntryKind * Digest * Z))) : Seal SealError (list ChangesetEntry) :=
  match final with
  | [] => seal_ret []
  | (key, (kind, digest, size)) :: rest =>
      let~ path := path_of_bytes key in
      let after := Present kind digest size in
      match base_tree !! key with
      | None =>
          do~ seal_try (refuse_unpublished_change key (cs_unpublished cs)) in
          let~ entry := new_entry path Artifact.Add Absent after in
          let~ entries := diff_captured source base_tree cs rest in
          seal_ret (entry :: entries)
      | Some before =>
          if unchanged cs key (kind, digest, size) before then diff_captured source base_tree cs rest
          else
            do~ seal_try (refuse_unpublished_change key (cs_unpublished cs)) in
            let~ before := before_state source before in
            let~ entry := new_entry path Artifact.Modify before after in
            let~ entries := diff_captured source base_tree cs rest in
            seal_ret (entry :: entries)
      end
  end.

Fixpoint diff_deleted (source : string) (scope : WorkspaceScope) (cs : CaptureState)
    (base_tree : list (string * BaseObject)) : Seal SealError (list ChangesetEntry) :=
  match base_tree with
  | [] => seal_ret []
  | (key, before) :: rest =>
      if bool_decide (is_Some (cs_final cs !! key)) then diff_deleted source scope cs rest
      else
        let~ path := path_of_bytes key in
        if negb (authorizes scope path) then seal_err (ScopeViolated (to_manifest_string path))
        else
          let~ before := before_state source before in
          let~ entry := new_entry path Artifact.Delete before Absent in
          let~ entries := diff_deleted source scope cs rest in
          seal_ret (entry :: entries)
  end.

Definition diff (source : string) (base_tree : gmap string BaseObject) (scope : WorkspaceScope) (cs : CaptureState) :
    Seal SealError (list ChangesetEntry) :=
  let~ captured := diff_captured source base_tree cs (btree_iter (cs_final cs)) in
  let~ deleted := diff_deleted source scope cs (btree_iter base_tree) in
  seal_ret (captured ++ deleted).

Fixpoint final_entries (final : list (string * (EntryKind * Digest * Z))) : Seal SealError (list FinalEntry) :=
  match final with
  | [] => seal_ret []
  | (key, (kind, digest, size)) :: rest =>
      let~ path := path_of_bytes key in
      let~ entries := final_entries rest in
      seal_ret ({| fe_path := path; fe_kind := kind; fe_blob := digest; fe_size := size |} :: entries)
  end.

(** *** Publication *)

Definition member (s : EntryState) : option (Digest * Z) :=
  match s with
  | Present _ blob size => Some (blob, size)
  | Absent => None
  end.

(** The first of the members with one digest. *)
Fixpoint unique_members (seen : list (Digest * Z)) (members : list (Digest * Z)) : list (Digest * Z) :=
  match members with
  | [] => seen
  | m :: rest =>
      if existsb (fun u => bool_decide (u.1 = m.1)) seen then unique_members seen rest
      else unique_members (seen ++ [m]) rest
  end.

Definition members_of (entries : list ChangesetEntry) : list (Digest * Z) :=
  unique_members [] (omap (fun e => member (ce_before e)) entries ++ omap (fun e => member (ce_after e)) entries).

Definition seal_command (c : SealCommand) (id event_type : string) : Command := {|
  cmd_epoch := slc_epoch c; cmd_id := id; cmd_request_hash := slc_request_hash c; cmd_event_type := event_type |}.

Definition commit_seal (c : SealCommand) (id : string) (sealed : SealedChangeset) :
    Seal SealError (Committed SealOutcome) :=
  do~ seal_event (EvCommit sealed) in
  fun s => seal_store (eng_command slots (seal_command c id "workspace.sealed")
    (fun amb => commit_changeset_seal MIGRATIONS amb (random_id (wo_turn (sl_world s))) sealed)) s.

(** The difference, the manifest and the commit. *)
Definition seal_captured (c : SealCommand) (request : SealRequest) (workspace : WorkspaceRecord)
    (fence_revision : Z) (base_tree : gmap string BaseObject) (scope : WorkspaceScope) (cs : CaptureState) :
    Seal SealError SealedArtifact :=
  let~ entries := diff (ws_source_path workspace) base_tree scope cs in
  let~ final := final_entries (btree_iter (cs_final cs)) in
  let~ revision_state := seal_try (map_err from_changeset_error (revision_state_new final)) in
  let artifact_json := to_canonical_bytes (changeset_manifest (ws_repository workspace)
    (resolved_text (ws_resolved_base workspace)) (rs_digest revision_state) entries) in
  let artifact_digest := digest_of artifact_json in
  let~ id := seal_try (seal_derive (slc_id c)
    ("sealed:" +:+ (i64_to_string fence_revision +:+ (":" +:+ authority_tag (sr_authority request))))) in
  let~ committed := commit_seal c id {|
    sc_workspace_id := ws_id workspace; sc_task_id := ws_task_id workspace; sc_fence_revision := fence_revision;
    sc_authority := sr_authority request; sc_output_slot := sr_output_slot request;
    sc_repository := ws_repository workspace; sc_resolved_base := resolved_text (ws_resolved_base workspace);
    sc_revision_state_digest := rs_digest revision_state; sc_revision_state_json := revision_state_json revision_state;
    sc_artifact_digest := artifact_digest; sc_artifact_json := artifact_json; sc_members := members_of entries;
    sc_producer := sr_producer_attempt_id request |} in
  let~ reused := match committed with
                 | Executed value _ => seal_ret (so_artifact_reused value)
                 | Replayed _ _ =>
                     let~ found := seal_read (fun db => artifact MIGRATIONS db artifact_digest) in
                     seal_ret (bool_decide (is_Some found))
                 end in
  seal_ret {| sa_artifact_digest := artifact_digest; sa_artifact_json := artifact_json;
              sa_revision_state_digest := rs_digest revision_state; sa_artifact_reused := reused |}.

Definition capture_and_seal (c : SealCommand) (request : SealRequest) (workspace : WorkspaceRecord)
    (fence_revision : Z) (scope : WorkspaceScope) : Seal SealError SealedArtifact :=
  let source := ws_source_path workspace in
  let~ base_tree := seal_map_err CaptureFailed
    (seal_call (fun n => port_base_tree base n source (ws_resolved_base workspace))) in
  let~ cs := capture_all source (capture_root_of (ws_id workspace)) base_tree scope in
  seal_captured c request workspace fence_revision base_tree scope cs.

(** *** The order *)

Definition load_spec (task_id : string) : Seal SealError TaskSpec :=
  let~ found := seal_read (fun db => task MIGRATIONS db task_id) in
  let~ task := seal_some found (TaskUnusable task_id (inl (message "no such task" []))) in
  if negb (bool_decide (task_record_phase task = Active)) then
    seal_err (TaskUnusable task_id (inl (message "sealing runs under its current Run"
      [task_phase_as_str (task_record_phase task)])))
  else
    let~ stored := seal_read (fun db => task_spec_json MIGRATIONS db (task_record_spec_digest task)) in
    let~ canonical := seal_some stored (TaskUnusable task_id (inr NotStored)) in
    let~ spec := seal_try (map_err (fun e => TaskUnusable task_id (inr (Undecodable e)))
                             (task_from_canonical_json canonical)) in
    if negb (bool_decide (task_digest spec = task_record_spec_digest task)) then
      seal_err (TaskUnusable task_id (inr OtherDigest))
    else seal_ret spec.

Definition frozen_revision (task_id workspace_id : string) : Seal SealError Z :=
  let~ found := seal_read (fun db => workspace_for_task MIGRATIONS db task_id) in
  let~ record := seal_some
    (match found with
     | Some record => if String.eqb (ws_id record) workspace_id then Some record else None
     | None => None
     end) (WorkspaceState workspace_id (message "it vanished immediately after its own freeze" [])) in
  if negb (bool_decide (ws_phase record = WsFrozen)) || negb (bool_decide (ws_materialization record = MatPresent)) then
    seal_err (WorkspaceState workspace_id (message "after freezing it is"
      [workspace_phase_as_str (ws_phase record); materialization_as_str (ws_materialization record)]))
  else seal_ret (ws_revision record).

Definition output_slot (spec : TaskSpec) (request : SealRequest) : Result unit SealError :=
  let invalid what values := OutputSlotInvalid (sr_task_id request) (sr_output_slot request) (message what values) in
  let? slot := ok_or (find_first (fun o => String.eqb (output_name o) (sr_output_slot request)) (task_outputs spec))
    (invalid "no such output slot in the immutable specification" []) in
  if negb (String.eqb (output_kind slot) CODE_CHANGESET_KIND)
  then Err (invalid "it permits another kind" [output_kind slot])
  else Ok tt.

(** The Workspace is bound to the repository the Task declares. *)
Definition declared_repository (spec : TaskSpec) (task_id : string) (workspace : WorkspaceRecord) : Result unit SealError :=
  let? repository := ok_or (task_input_reference <$>
      find_first (fun i => String.eqb (task_input_name i) REPOSITORY_INPUT) (task_inputs spec))
    (TaskUnusable task_id (inl (message "it declares no repository input to have worked in" []))) in
  if negb (String.eqb (ws_repository workspace) repository)
  then Err (WorkspaceState (ws_id workspace) (message "it binds another repository" [ws_repository workspace; repository]))
  else Ok tt.

(** The fence, established or proved again under the claimed authority. *)
Definition quiesce (c : SealCommand) (request : SealRequest) (workspace : WorkspaceRecord) : Seal SealError Z :=
  let step what := seal_derive (slc_id c)
    (what +:+ (i64_to_string (ws_revision workspace) +:+ (":" +:+ authority_tag (sr_authority request)))) in
  match ws_phase workspace with
  | WsReady =>
      let~ id := seal_try (step "freeze:") in
      do~ seal_store (eng_command slots (seal_command c id "workspace.frozen")
        (fun _ => freeze_workspace MIGRATIONS (sr_authority request) (sr_task_id request) (sr_output_slot request)
                    (ws_id workspace) (ws_revision workspace))) in
      frozen_revision (ws_task_id workspace) (ws_id workspace)
  | WsFrozen =>
      if negb (bool_decide (ws_materialization workspace = MatPresent)) then
        seal_err (WorkspaceState (ws_id workspace)
          (message "it is frozen but its materialization is not verified present" []))
      else
        let~ id := seal_try (step "validated:") in
        do~ seal_store (eng_command slots (seal_command c id "workspace.seal-authority.validated")
          (fun _ => validate_seal_authority_command MIGRATIONS (sr_authority request) (sr_task_id request)
                      (sr_output_slot request) (ws_id workspace) (ws_revision workspace))) in
        seal_ret (ws_revision workspace)
  | phase => seal_err (WorkspaceState (ws_id workspace)
      (message "capture requires a verified, mutable-or-frozen Workspace" [workspace_phase_as_str phase]))
  end.

Definition seal (c : SealCommand) (request : SealRequest) : Seal SealError SealedArtifact :=
  let~ spec := load_spec (sr_task_id request) in
  do~ seal_try (output_slot spec request) in
  let~ found := seal_read (fun db => workspace_for_task MIGRATIONS db (sr_task_id request)) in
  let~ workspace := seal_some found
    (WorkspaceState "-" (message "the task owns no current Workspace" [sr_task_id request])) in
  do~ seal_try (declared_repository spec (sr_task_id request) workspace) in
  let~ fence_revision := quiesce c request workspace in
  let~ scope := seal_try (map_err (fun _ => CeilingsExceeded
    (message "the Task's declared scope patterns are unusable" [])) (scope_compile (scope_resources (task_scope spec)))) in
  if scope_is_empty scope then
    seal_err (ScopeViolated "(every path: the Task declares no resource scope)")
  else
    let~ outcome := seal_attempt (capture_and_seal c request workspace fence_revision scope) in
    match outcome with
    | Ok sealed => seal_ret sealed
    | Err error =>
        let~ id := seal_try (seal_derive (slc_id c) ("capture-failed:" +:+ i64_to_string fence_revision)) in
        do~ seal_store (eng_command slots (seal_command c id "workspace.capture-failed")
          (fun _ => record_capture_failure MIGRATIONS (ws_id workspace) fence_revision)) in
        seal_err error
    end.
End Sealing.

(** ** What is sealed *)

Section Sealed.
Context `{Sha256}.
Variable slots : nat → Slot.
Variable capture : WorkspaceTreeCapture.
Variable base : TrustedBaseReader.
Variable objects : ContentObjectStore.
Variable workspace_root : string.
Variable random_id : nat → string.

(** The name of a blob in the object format of a source repository. *)
Variable object_name : string → string → string.

(** What the ports promise. *)
Record honest_ports : Prop := {
  names_derived n source contents names :
    port_blob_object_names base n source contents = Ok names → names = map (object_name source) contents;
  blobs_named n source oid bytes : port_blob_bytes base n source oid = Ok bytes → object_name source bytes = oid;
  publish_addressed n bytes r :
    port_publish objects n bytes = Ok r → or_digest r = digest_of bytes ∧ or_size r = byte_size bytes
}.

Hypothesis ports : honest_ports.

(** The bytes of an object of the base tree, as far as its name says. *)
Definition base_bytes (source : string) (o : BaseObject) (bytes : string) : Prop :=
  object_name source bytes = bo_oid o ∧ byte_size bytes = bo_size o.

(** What the walk found at each path. *)
Definition contents (walked : list CapturedEntry) : gmap string (EntryKind * string) :=
  fold_left (fun m e => <[sort_key (cap_path e) := (cap_kind e, cap_bytes e)]> m) walked ∅.

Lemma unique_members_elem seen members m :
  m ∈ unique_members seen members → m ∈ seen ∨ m ∈ members.
Proof.
  revert seen. induction members as [|x l IH]; intros seen; cbn [unique_members]; [by left|].
  destruct (existsb _ _); intros [Hs|Hl]%IH; [by left|right; by right| |right; by right].
  apply elem_of_app in Hs as [Hs|Hs]; [by left|]. apply list_elem_of_singleton in Hs as ->. right. left.
Qed.

Lemma members_of_elem entries m :
  m ∈ members_of entries → ∃ e st, e ∈ entries ∧ st ∈ [ce_before e; ce_after e] ∧ member st = Some m.
Proof.
  unfold members_of. intros [Hn|[Hin|Hin]%elem_of_app]%unique_members_elem; [by apply not_elem_of_nil in Hn| |];
    apply list_elem_of_omap in Hin as (e & He & Hm).
  - exists e, (ce_before e). split_and!; [done|left|done].
  - exists e, (ce_after e). split_and!; [done|right; left|done].
Qed.

(** Applying a changeset to the state it was made against. *)
Definition apply_entry (state : gmap string (EntryKind * Digest * Z)) (e : ChangesetEntry) : gmap string (EntryKind * Digest * Z) :=
  match ce_after e with
  | Present kind blob size => <[path_bytes (ce_path e) := (kind, blob, size)]> state
  | Absent => delete (path_bytes (ce_path e)) state
  end.

Definition state_after (s : EntryState) : option (EntryKind * Digest * Z) :=
  match s with
  | Present kind blob size => Some (kind, blob, size)
  | Absent => None
  end.

Lemma apply_entries_lookup entries state key :
  NoDup (map (fun e => path_bytes (ce_path e)) entries) →
  (∀ e, e ∈ entries → path_bytes (ce_path e) = key → fold_left apply_entry entries state !! key = state_after (ce_after e)) ∧
  ((∀ e, e ∈ entries → path_bytes (ce_path e) ≠ key) → fold_left apply_entry entries state !! key = state !! key).
Proof.
  revert state. induction entries as [|x l IH]; intros state; cbn [map fold_left].
  { intros _. split; [by intros e He%not_elem_of_nil|done]. }
  intros [Hx Hnd]%NoDup_cons. destruct (IH (apply_entry state x) Hnd) as [I1 I2].
  assert (apply_entry state x !! path_bytes (ce_path x) = state_after (ce_after x)) as Hat.
  { unfold apply_entry. destruct (ce_after x); cbn; [by rewrite lookup_delete_eq|by rewrite lookup_insert_eq]. }
  split.
  - intros e [->|He]%elem_of_cons Hk; [|by apply I1]. rewrite I2, <-Hk; [done|]. intros y Hy Heq. apply Hx.
    apply list_elem_of_In, in_map_iff. exists y. split; [congruence|by apply list_elem_of_In].
  - intros Hno. rewrite I2; [|intros e He; apply Hno; by right]. specialize (Hno x ltac:(left)).
    unfold apply_entry. destruct (ce_after x); [by rewrite lookup_delete_ne|by rewrite lookup_insert_ne].
Qed.

Section Walk.
Variable source : string.
Variable tree : gmap string BaseObject.
Variable scope : WorkspaceScope.
Variable walked : list CapturedEntry.

Definition in_scope (key : string) : Prop := authorizes scope (mk_path key) = true.

(** Only what is in scope is made durable, under its own digest. *)
Definition retained (ev : SealEvent) : Prop :=
  match ev with
  | EvPublished bytes r =>
      or_digest r = digest_of bytes ∧ or_size r = byte_size bytes ∧
      ((∃ e, e ∈ walked ∧ in_scope (sort_key (cap_path e)) ∧ bytes = cap_bytes e) ∨
       ∃ key o, tree !! key = Some o ∧ in_scope key ∧ object_name source bytes = bo_oid o)
  | EvCommit _ => False
  end.

(** [m] only retains, and [Q] holds of what it answers and what it did. *)
Definition retains {E A} (m : Seal E A) (Q : A → list SealEvent → Prop) : Prop :=
  ∀ s, ∃ evs, sl_trace (m s).2 = sl_trace s ++ evs ∧ Forall retained evs ∧
    match (m s).1 with Ok a => Q a evs | Err _ => True end.

Lemma retains_ret {E A} (a : A) (Q : A → list SealEvent → Prop) : Q a [] → retains (seal_ret (E:=E) a) Q.
Proof. intros HQ s. exists []. by rewrite app_nil_r. Qed.

Lemma retains_err {E A} (e : E) (Q : A → list SealEvent → Prop) : retains (seal_err e) Q.
Proof. intros s. exists []. by rewrite app_nil_r. Qed.

Lemma retains_try {E A} (r : Result A E) : retains (seal_try r) (fun a evs => r = Ok a ∧ evs = []).
Proof. intros s. exists []. rewrite app_nil_r. split; [done|]. split; [done|]. by destruct r. Qed.

Lemma retains_call {E A} (f : nat → Result A E) : retains (seal_call f) (fun a evs => (∃ n, f n = Ok a) ∧ evs = []).
Proof. intros s. exists []. rewrite app_nil_r. split; [done|]. split; [done|]. cbn. destruct (f _) eqn:E'; eauto. Qed.

Lemma retains_bind {E A B} (m : Seal E A) (k : A → Seal E B) Q R :
  retains m Q → (∀ a evs, Q a evs → retains (k a) (fun b evs' => R b (evs ++ evs'))) → retains (seal_bind m k) R.
Proof.
  intros Hm Hk s. unfold seal_bind. destruct (Hm s) as (e1 & T1 & F1 & Q1). destruct (m s) as [[a|e] s1]; cbn in *.
  - destruct (Hk a e1 Q1 s1) as (e2 & T2 & F2 & Q2). exists (e1 ++ e2). rewrite T2, T1, app_assoc.
    split; [done|]. split; [by apply Forall_app|done].
  - by exists e1.
Qed.

Lemma retains_weaken {E A} (m : Seal E A) (Q Q' : A → list SealEvent → Prop) :
  retains m Q → (∀ a evs, Q a evs → Q' a evs) → retains m Q'.
Proof.
  intros Hm Hq s. destruct (Hm s) as (evs & ? & ? & HQ). exists evs. split_and!; [done..|]. destruct (m s).1; auto.
Qed.

Lemma retains_map_err {E F A} (f : E → F) (m : Seal E A) Q : retains m Q → retains (seal_map_err f m) Q.
Proof.
  intros Hm s. destruct (Hm s) as (evs & ? & ? & HQ). exists evs. unfold seal_map_err.
  by destruct (m s) as [[a|e] s1].
Qed.

(** Publishing bytes that may be retained. *)
Lemma retains_publish bytes :
  ((∃ e, e ∈ walked ∧ in_scope (sort_key (cap_path e)) ∧ bytes = cap_bytes e) ∨
   ∃ key o, tree !! key = Some o ∧ in_scope key ∧ object_name source bytes = bo_oid o) →
  retains (publish objects bytes)
    (fun r evs => or_digest r = digest_of bytes ∧ or_size r = byte_size bytes ∧ EvPublished bytes r ∈ evs).
Proof.
  intros Hb s. unfold publish, seal_bind, seal_call, seal_event, seal_ret. cbn.
  destruct (port_publish objects (sl_calls s) bytes) as [r|e] eqn:Hp; cbn.
  - destruct (publish_addressed ports _ _ _ Hp) as [Hd Hs]. exists [EvPublished bytes r].
    split; [done|]. split; [apply Forall_singleton; by split_and!|]. split_and!; [done..|left].
  - exists []. by rewrite app_nil_r.
Qed.

(** *** Capture *)

Definition candidate (key : string) (kind : EntryKind) (bytes : string) : bool :=
  match tree !! key with
  | Some before => bool_decide (bo_kind before = kind) && (bo_size before =? byte_size bytes)%Z
  | None => false
  end.

(** The names, once the batch is flushed. *)
Definition named (cs : CaptureState) : gmap string string :=
  fold_left (fun m p => <[p.1 := object_name source p.2]> m) (cs_batch cs) (cs_identities cs).

Record captured (found : gmap string (EntryKind * string)) (cs : CaptureState) : Prop := {
  captured_final : cs_final cs = (fun c => (c.1, digest_of c.2, byte_size c.2)) <$> found;
  captured_unpublished key : key ∈ cs_unpublished cs ↔ is_Some (found !! key) ∧ ¬ in_scope key;
  captured_named key kind bytes :
    found !! key = Some (kind, bytes) → candidate key kind bytes = true →
    named cs !! key = Some (object_name source bytes)
}.

Lemma captured_start : captured ∅ capture_start.
Proof.
  split; [by rewrite fmap_empty| |by intros key kind bytes; rewrite lookup_empty].
  intros key. rewrite lookup_empty. cbn. split; [set_solver|by intros [[? ?] _]].
Qed.

Lemma flush_batch (batch : list (string * string)) (m : gmap string string) :
  fold_left (fun m p => <[p.1.1 := p.2]> m) (combine batch (map (object_name source) (map snd batch))) m =
  fold_left (fun m p => <[p.1 := object_name source p.2]> m) batch m.
Proof. revert m. induction batch as [|[k b] l IH]; intros m; cbn; [done|]. apply IH. Qed.

Lemma flush_captured found cs :
  captured found cs →
  retains (flush_identity_batch base source cs)
    (fun cs' evs => captured found cs' ∧ cs_batch cs' = [] ∧ evs = []).
Proof.
  intros Hc. unfold flush_identity_batch. destruct (cs_batch cs) as [|p l] eqn:Eb; [by apply retains_ret|].
  eapply retains_bind; [apply retains_call|]. intros names evs [[n Hn] ->]. destruct (negb _); [apply retains_err|].
  apply retains_ret. cbn [app]. split; [|done]. apply (names_derived ports) in Hn as ->. rewrite <-Eb. destruct Hc as [Hf Hu Hm].
  split; [exact Hf|exact Hu|]. intros key kind bytes Hk Hcand. unfold named. cbn [cs_batch cs_identities fold_left].
  rewrite flush_batch. by apply (Hm key kind).
Qed.

(** One more entry. *)
Lemma captured_insert found cs key kind bytes unpublished total batch_bytes :
  captured found cs →
  (∀ k, k ∈ unpublished ↔ k ∈ cs_unpublished cs ∨ k = key ∧ ¬ in_scope key) →
  captured (<[key := (kind, bytes)]> found)
    {| cs_final := <[key := (kind, digest_of bytes, byte_size bytes)]> (cs_final cs);
       cs_unpublished := unpublished; cs_total_bytes := total;
       cs_batch := if candidate key kind bytes then cs_batch cs ++ [(key, bytes)] else cs_batch cs;
       cs_batch_bytes := batch_bytes; cs_identities := cs_identities cs |}.
Proof.
  intros [Hf Hu Hn] Hun. split; cbn.
  - by rewrite fmap_insert, Hf.
  - intros k. rewrite Hun, Hu. destruct (decide (k = key)) as [->|Hne].
    + rewrite lookup_insert_eq. split; [|intros [_ ?]; by right]. intros [[_ ?]|[_ ?]]; (split; [by eexists|done]).
    + rewrite lookup_insert_ne by done. naive_solver.
  - intros k kd b Hk Hcand. unfold named. cbn. destruct (decide (k = key)) as [->|Hne].
    + rewrite lookup_insert_eq in Hk. injection Hk as -> ->. rewrite Hcand, fold_left_app. cbn. by rewrite lookup_insert_eq.
    + rewrite lookup_insert_ne in Hk by done. specialize (Hn k kd b Hk Hcand). unfold named in Hn.
      destruct (candidate key kind bytes); [|done]. rewrite fold_left_app. cbn. by rewrite lookup_insert_ne.
Qed.

Lemma capture_entry_captured found cs e :
  captured found cs → e ∈ walked →
  retains (capture_entry base objects source tree scope cs e)
    (fun cs' evs => captured (<[sort_key (cap_path e) := (cap_kind e, cap_bytes e)]> found) cs' ∧
       (in_scope (sort_key (cap_path e)) → ∃ r, or_digest r = digest_of (cap_bytes e) ∧
          or_size r = byte_size (cap_bytes e) ∧ EvPublished (cap_bytes e) r ∈ evs)).
Proof.
  intros Hc He. unfold capture_entry. destruct (_ <=? _)%Z; [apply retains_err|].
  destruct (_ <? _)%Z; [apply retains_err|]. set (key := sort_key (cap_path e)).
  assert (mk_path key = cap_path e) as Hkey by (unfold key, sort_key; by destruct (cap_path e)).
  eapply (retains_bind _ _ (fun unpublished evs =>
    (∀ k, k ∈ unpublished ↔ (k ∈ cs_unpublished cs ∨ k = key ∧ ¬ in_scope key)) ∧
    (in_scope key → ∃ r, or_digest r = digest_of (cap_bytes e) ∧ or_size r = byte_size (cap_bytes e) ∧
       EvPublished (cap_bytes e) r ∈ evs))).
  { unfold in_scope. rewrite Hkey. destruct (authorizes scope (cap_path e)) eqn:Ha.
    - eapply retains_bind; [apply retains_publish; left; exists e; split_and!; [done| |done];
        change (authorizes scope (mk_path key) = true); by rewrite Hkey|].
      intros r evs (Hd & Hs & Hin). destruct (_ || _); [apply retains_err|]. apply retains_ret.
      split; [set_solver|]. intros _. exists r. split_and!; [done..|]. by rewrite app_nil_r.
    - apply retains_ret. split; [|done]. intros k. rewrite elem_of_union, elem_of_singleton. naive_solver. }
  intros unpublished evs [Hu Hp]. pose proof (captured_insert found cs key (cap_kind e) (cap_bytes e) unpublished
    (saturating_add (cs_total_bytes cs) (byte_size (cap_bytes e)))
    (if candidate key (cap_kind e) (cap_bytes e) then cs_batch_bytes cs + byte_size (cap_bytes e) else cs_batch_bytes cs)%Z
    Hc Hu) as Hc'. unfold candidate in Hc' at 1 2. cbn zeta. destruct (_ && (_ <=? _)%Z).
  - eapply retains_bind; [apply flush_captured; exact Hc'|]. intros cs' evs' ([Hf' Hu' Hn'] & Hb & ->). apply retains_ret.
    split; [|intros Hin; destruct (Hp Hin) as (r & ? & ? & ?); exists r; split_and!; [done..|]; rewrite !app_nil_r; done].
    split; [exact Hf'|exact Hu'|]. intros k kd b Hk Hcand. exact (Hn' k kd b Hk Hcand).
  - apply retains_ret. split; [exact Hc'|]. intros Hin. destruct (Hp Hin) as (r & ? & ? & ?). exists r.
    split_and!; [done..|]. by rewrite app_nil_r.
Qed.

Lemma capture_entries_captured l found cs :
  captured found cs → (∀ e, e ∈ l → e ∈ walked) →
  retains (capture_entries base objects source tree scope cs l)
    (fun cs' evs => captured (fold_left (fun m e => <[sort_key (cap_path e) := (cap_kind e, cap_bytes e)]> m) l found) cs' ∧
       ∀ e, e ∈ l → in_scope (sort_key (cap_path e)) → ∃ r, or_digest r = digest_of (cap_bytes e) ∧
          or_size r = byte_size (cap_bytes e) ∧ EvPublished (cap_bytes e) r ∈ evs).
Proof.
  revert found cs. induction l as [|e l IH]; intros found cs Hc Hl; cbn [capture_entries fold_left].
  { apply retains_ret. split; [done|]. by intros e He%not_elem_of_nil. }
  eapply retains_bind; [apply capture_entry_captured; [exact Hc|apply Hl; left]|]. intros cs' evs [Hc' Hp].
  eapply retains_weaken; [apply (IH _ cs' Hc'); intros; apply Hl; by right|]. cbn beta. intros cs2 evs2 [Hc2 Hp2].
  split; [done|]. intros e' [->|He']%elem_of_cons Hs.
  - destruct (Hp Hs) as (r & ? & ? & ?). exists r. split_and!; [done..|]. apply elem_of_app. by left.
  - destruct (Hp2 e' He' Hs) as (r & ? & ? & ?). exists r. split_and!; [done..|]. apply elem_of_app. by right.
Qed.

(** Everything in scope that the walk found is published. *)
Definition all_published (evs : list SealEvent) : Prop :=
  ∀ e, e ∈ walked → in_scope (sort_key (cap_path e)) → ∃ r, or_digest r = digest_of (cap_bytes e) ∧
    or_size r = byte_size (cap_bytes e) ∧ EvPublished (cap_bytes e) r ∈ evs.

Definition walk_outcome (fault : option ExternalFault) : Seal SealError CaptureState :=
  let~ cs := seal_map_err
    (fun fault => if String.eqb (xf_code fault) SCOPE_FAULT_CODE then ScopeViolated (xf_detail fault)
                  else CaptureFailed fault)
    (let~ cs := capture_entries base objects source tree scope capture_start walked in
     match fault with
     | Some fault => seal_err fault
     | None => seal_ret cs
     end) in
  seal_map_err CaptureFailed (flush_identity_batch base source cs).

Lemma walk_captured fault :
  retains (walk_outcome fault)
    (fun cs evs => captured (contents walked) cs ∧ cs_batch cs = [] ∧ fault = None ∧ all_published evs).
Proof.
  unfold walk_outcome. eapply (retains_bind _ _ (fun cs evs => captured (contents walked) cs ∧ fault = None ∧ all_published evs)).
  - apply retains_map_err. eapply retains_bind; [apply capture_entries_captured; [apply captured_start|done]|].
    intros cs evs [Hc Hp]. destruct fault; [apply retains_err|]. apply retains_ret. rewrite app_nil_r. by split_and!.
  - intros cs evs (Hc & Hf & Hp). apply retains_map_err. eapply retains_weaken; [by apply flush_captured|].
    cbn beta. intros cs' evs' (Hc' & Hb & ->). rewrite app_nil_r. by split_and!.
Qed.

(** *** The difference *)

Section Difference.
Variable cs : CaptureState.
Hypothesis Hcs : captured (contents walked) cs.
Hypothesis flushed : cs_batch cs = [].

(** The base holds this very content under the path, as far as names say. *)
Definition same_content (key : string) (kind : EntryKind) (bytes : string) : Prop :=
  ∃ o, tree !! key = Some o ∧ bo_kind o = kind ∧ base_bytes source o bytes.

Lemma unchanged_same key kind bytes o :
  contents walked !! key = Some (kind, bytes) → tree !! key = Some o →
  unchanged cs key (kind, digest_of bytes, byte_size bytes) o = true ↔ same_content key kind bytes.
Proof.
  intros Hk Ho. unfold unchanged, same_content, base_bytes.
  assert (candidate key kind bytes = bool_decide (bo_kind o = kind) && (bo_size o =? byte_size bytes)%Z) as Hc
    by (unfold candidate; by rewrite Ho).
  split.
  - intros [[Hk1 Hs]%andb_true_iff Hi%bool_decide_eq_true]%andb_true_iff.
    pose proof (captured_named _ _ Hcs key kind bytes Hk) as Hn. rewrite Hc, Hk1, Hs in Hn. specialize (Hn eq_refl).
    unfold named in Hn. rewrite flushed in Hn. cbn in Hn. rewrite Hi in Hn. injection Hn as Hn.
    apply bool_decide_eq_true in Hk1. apply Z.eqb_eq in Hs. exists o. by split_and!.
  - intros (o' & Ho' & Hk1 & Hn & Hs). rewrite Ho in Ho'. injection Ho' as <-.
    rewrite bool_decide_eq_true_2 by done. rewrite (proj2 (Z.eqb_eq _ _)) by done. cbn. apply bool_decide_eq_true.
    rewrite (proj2 (Z.eqb_eq _ _) (eq_sym Hs)), bool_decide_eq_true_2 in Hc by done.
    pose proof (captured_named _ _ Hcs key kind bytes Hk Hc) as Hnm. unfold named in Hnm. rewrite flushed in Hnm. cbn in Hnm.
    by rewrite Hnm, Hn.
Qed.

(** What an entry says of its path. *)
Definition before_published (o : BaseObject) (state : EntryState) (evs : list SealEvent) : Prop :=
  ∃ bytes r, base_bytes source o bytes ∧ EvPublished bytes r ∈ evs ∧
    state = Present (bo_kind o) (digest_of bytes) (byte_size bytes) ∧
    or_digest r = digest_of bytes ∧ or_size r = byte_size bytes.

Definition says (evs : list SealEvent) (e : ChangesetEntry) : Prop :=
  let key := path_bytes (ce_path e) in
  in_scope key ∧
  match contents walked !! key, tree !! key with
  | Some (kind, bytes), None =>
      ce_operation e = Artifact.Add ∧ ce_before e = Absent ∧ ce_after e = Present kind (digest_of bytes) (byte_size bytes)
  | Some (kind, bytes), Some o =>
      ce_operation e = Artifact.Modify ∧ before_published o (ce_before e) evs ∧
      ce_after e = Present kind (digest_of bytes) (byte_size bytes) ∧ ¬ same_content key kind bytes
  | None, Some o => ce_operation e = Artifact.Delete ∧ before_published o (ce_before e) evs ∧ ce_after e = Absent
  | None, None => False
  end.

Lemma says_more evs evs' e : says evs e → says (evs ++ evs') e ∧ says (evs' ++ evs) e.
Proof.
  intros [Hs Hm].
  assert (∀ o st, before_published o st evs → before_published o st (evs ++ evs') ∧ before_published o st (evs' ++ evs)) as Hb.
  { intros o st (b & r & Hb & Hin & Hst). split; exists b, r; (split; [done|split; [apply elem_of_app; auto|done]]). }
  unfold says. destruct (contents walked !! _) as [[k b]|], (tree !! _); naive_solver.
Qed.

Lemma says_l evs evs' e : says evs e → says (evs ++ evs') e.
Proof. apply says_more. Qed.

Lemma says_r evs evs' e : says evs' e → says (evs ++ evs') e.
Proof. intros He. by destruct (says_more _ evs _ He). Qed.

(** Entries about some of the paths, in their order. *)
Definition entries_of (keys : list string) (wanted : string → Prop) (entries : list ChangesetEntry) (evs : list SealEvent) : Prop :=
  (∀ e, e ∈ entries → says evs e ∧ wanted (path_bytes (ce_path e))) ∧
  (∀ key, key ∈ keys → wanted key → ∃ e, e ∈ entries ∧ path_bytes (ce_path e) = key) ∧
  map (fun e => path_bytes (ce_path e)) entries `sublist_of` keys.

Lemma entries_none wanted : entries_of [] wanted [] [].
Proof. split_and!; [by intros e He%not_elem_of_nil|by intros k Hk%not_elem_of_nil|constructor]. Qed.

Lemma entries_skip key keys wanted entries evs :
  ¬ wanted key → entries_of keys wanted entries evs → entries_of (key :: keys) wanted entries evs.
Proof.
  intros Hw (H1 & H2 & H3). split_and!; [done| |by constructor]. intros k [->|Hk]%elem_of_cons Hwk; [done|by apply H2].
Qed.

Lemma entries_add key keys (wanted : string → Prop) e entries evs evs' :
  path_bytes (ce_path e) = key → says evs e → wanted key → entries_of keys wanted entries evs' →
  entries_of (key :: keys) wanted (e :: entries) (evs ++ evs').
Proof.
  intros Hk He Hw (H1 & H2 & H3). split_and!.
  - intros x [->|Hx]%elem_of_cons; [split; [by apply says_l|by rewrite Hk]|]. destruct (H1 x Hx). split; [by apply says_r|done].
  - intros k [->|Hin]%elem_of_cons Hwk; [exists e; split; [left|done]|]. destruct (H2 k Hin Hwk) as (x & ? & ?).
    exists x. split; [by right|done].
  - cbn. rewrite Hk. by constructor.
Qed.

Lemma before_state_published key o :
  tree !! key = Some o → in_scope key →
  retains (before_state base objects source o) (fun st evs => before_published o st evs).
Proof.
  intros Ho Hs. unfold before_state.
  eapply retains_bind; [apply retains_map_err, retains_call|]. intros bytes evs [[n Hn] ->]. apply (blobs_named ports) in Hn.
  eapply retains_bind; [apply retains_map_err, retains_publish; right; exists key, o; by split_and!|].
  intros r evs (Hd & Hz & Hin). destruct (_ || _) eqn:Hc; [apply retains_err|]. apply retains_ret. cbn [app].
  apply orb_false_iff in Hc as [_ Hc%negb_false_iff%Z.eqb_eq]. exists bytes, r. rewrite app_nil_r, Hd, Hz.
  split; [split; [done|congruence]|]. by split_and!.
Qed.

Lemma path_known key p : path_from_bytes key = Ok p → p = mk_path key.
Proof. by intros [_ ->]%path_from_bytes_Ok. Qed.

Lemma not_unpublished key u :
  is_Some (contents walked !! key) → refuse_unpublished_change key (cs_unpublished cs) = Ok u → in_scope key.
Proof.
  unfold refuse_unpublished_change. intros Hf. case_bool_decide as Hu; [done|]. intros _.
  rewrite (captured_unpublished _ _ Hcs) in Hu. unfold in_scope in *. destruct (authorizes scope (mk_path key)); [done|].
  destruct Hu. by split.
Qed.

(** Added and modified paths. *)
Definition modified (key : string) : Prop :=
  ∃ kind bytes, contents walked !! key = Some (kind, bytes) ∧ ¬ same_content key kind bytes.

Lemma modified_at key kind bytes : contents walked !! key = Some (kind, bytes) → modified key ↔ ¬ same_content key kind bytes.
Proof. intros Hk. split; [intros (k & b & Hk' & Hn); rewrite Hk in Hk'; by injection Hk' as <- <-|intros Hn; by exists kind, bytes]. Qed.

Lemma diff_captured_entries final :
  (∀ key v, (key, v) ∈ final → ∃ kind bytes, contents walked !! key = Some (kind, bytes) ∧ v = (kind, digest_of bytes, byte_size bytes)) →
  retains (diff_captured base objects source tree cs final) (entries_of (map fst final) modified).
Proof.
  induction final as [|[key [[kind digest] size]] rest IH]; intros Hfinal; cbn [diff_captured map fst].
  { apply retains_ret, entries_none. }
  destruct (Hfinal key _ ltac:(left)) as (kd & bytes & Hk & [= -> -> ->]).
  specialize (IH ltac:(intros; apply Hfinal; by right)).
  eapply retains_bind; [apply retains_try|]. intros path evs [Hp ->]. cbn [app].
  destruct (path_from_bytes key) as [p|] eqn:Ep; [|done]. injection Hp as ->. apply path_known in Ep as ->.
  destruct (tree !! key) as [o|] eqn:Ho.
  - destruct (unchanged cs key _ o) eqn:Hu.
    + apply (unchanged_same _ _ _ _ Hk Ho) in Hu. eapply retains_weaken; [exact IH|]. intros es evs He.
      apply entries_skip; [|done]. rewrite (modified_at _ _ _ Hk). by intros Hn.
    + assert (¬ same_content key kd bytes) as Hn.
      { intros Hs. apply (unchanged_same _ _ _ _ Hk Ho) in Hs. congruence. }
      eapply retains_bind; [apply retains_try|]. intros u evs [Hr ->]. cbn [app].
      assert (in_scope key) as Hs by (eapply not_unpublished; [by eexists|exact Hr]).
      eapply retains_bind; [by eapply before_state_published|]. intros st evs Hst.
      eapply retains_bind; [apply retains_try|]. intros e evs' [He ->].
      destruct (changeset_entry_new _ _ _ _) as [x|] eqn:Ee; [|done]. injection He as ->.
      apply changeset_entry_new_Ok in Ee as [-> _].
      eapply retains_bind; [exact IH|]. intros es evs' Hes. apply retains_ret. rewrite app_nil_r. cbn [app].
      apply entries_add; [done| |by apply (modified_at _ _ _ Hk)|done]. split; [done|]. cbn [path_bytes ce_path]. rewrite Hk, Ho.
      by split_and!.
  - assert (¬ same_content key kd bytes) as Hn by (intros (o & Ho' & _); congruence).
    eapply retains_bind; [apply retains_try|]. intros u evs [Hr ->]. cbn [app].
    assert (in_scope key) as Hs by (eapply not_unpublished; [by eexists|exact Hr]).
    eapply retains_bind; [apply retains_try|]. intros e evs' [He ->].
    destruct (changeset_entry_new _ _ _ _) as [x|] eqn:Ee; [|done]. injection He as ->.
    apply changeset_entry_new_Ok in Ee as [-> _].
    eapply retains_bind; [exact IH|]. intros es evs' Hes. apply retains_ret. rewrite app_nil_r. cbn [app].
    apply (entries_add _ _ _ _ _ []); [done| |by apply (modified_at _ _ _ Hk)|done]. split; [done|]. cbn [path_bytes ce_path].
    rewrite Hk, Ho. by split_and!.
Qed.

(** Deleted paths. *)
Definition removed (key : string) : Prop := contents walked !! key = None ∧ is_Some (tree !! key).

Lemma final_known key : is_Some (cs_final cs !! key) ↔ is_Some (contents walked !! key).
Proof. rewrite (captured_final _ _ Hcs), lookup_fmap. by rewrite fmap_is_Some. Qed.

Lemma diff_deleted_entries listed :
  (∀ key o, (key, o) ∈ listed → tree !! key = Some o) →
  retains (diff_deleted base objects source scope cs listed) (entries_of (map fst listed) removed).
Proof.
  induction listed as [|[key o] rest IH]; intros Hl; cbn [diff_deleted map fst].
  { apply retains_ret, entries_none. }
  pose proof (Hl key o ltac:(left)) as Ho. specialize (IH ltac:(intros; apply Hl; by right)).
  case_bool_decide as Hf; rewrite final_known in Hf.
  { eapply retains_weaken; [exact IH|]. intros es evs He. apply entries_skip; [|done]. intros [Hn _]. rewrite Hn in Hf.
    by destruct Hf. }
  assert (contents walked !! key = None) as Hn by (by destruct (contents walked !! key); [destruct Hf; eexists|]).
  eapply retains_bind; [apply retains_try|]. intros path evs [Hp ->]. cbn [app].
  destruct (path_from_bytes key) as [p|] eqn:Ep; [|done]. injection Hp as ->. apply path_known in Ep as ->.
  destruct (authorizes scope (mk_path key)) eqn:Hs; [|apply retains_err]. cbn [negb].
  eapply retains_bind; [by eapply before_state_published|]. intros st evs Hst.
  eapply retains_bind; [apply retains_try|]. intros e evs' [He ->].
  destruct (changeset_entry_new _ _ _ _) as [x|] eqn:Ee; [|done]. injection He as ->.
  apply changeset_entry_new_Ok in Ee as [-> _].
  eapply retains_bind; [exact IH|]. intros es evs' Hes. apply retains_ret. rewrite app_nil_r. cbn [app].
  apply entries_add; [done| |by split; [|eexists]|done]. split; [done|]. cbn [path_bytes ce_path]. rewrite Hn, Ho.
  by split_and!.
Qed.

Lemma elem_of_btree {V} (m : gmap string V) key v : (key, v) ∈ btree_iter m ↔ m !! key = Some v.
Proof. unfold btree_iter. by rewrite elem_of_sort_by, elem_of_map_to_list. Qed.

Lemma btree_keys {V} (m : gmap string V) : NoDup (map fst (btree_iter m)).
Proof. unfold btree_iter. rewrite (sort_by_perm _). apply NoDup_fst_map_to_list. Qed.

(** The entries are the difference of the two states. *)
Definition difference (entries : list ChangesetEntry) (evs : list SealEvent) : Prop :=
  (∀ e, e ∈ entries → says evs e) ∧
  (∀ key, modified key ∨ removed key → ∃ e, e ∈ entries ∧ path_bytes (ce_path e) = key) ∧
  NoDup (map (fun e => path_bytes (ce_path e)) entries).

Lemma diff_difference : retains (diff base objects source tree scope cs) difference.
Proof.
  unfold diff. eapply retains_bind.
  { apply diff_captured_entries. intros key v Hin%elem_of_btree. rewrite (captured_final _ _ Hcs), lookup_fmap in Hin.
    destruct (contents walked !! key) as [[kind bytes]|] eqn:Hk; [|done]. injection Hin as <-. eauto. }
  intros captured evs1 (A1 & A2 & A3). eapply retains_bind; [apply diff_deleted_entries; by intros ? ? ?%elem_of_btree|].
  intros deleted evs2 (B1 & B2 & B3). apply retains_ret. rewrite app_nil_r. split_and!.
  - intros e [He|He]%elem_of_app; [apply says_l; by apply A1|apply says_r; by apply B1].
  - intros key [Hm|Hr].
    + destruct (A2 key) as (e & He & Hp); [|done|exists e; split; [apply elem_of_app; by left|done]].
      destruct Hm as (kind & bytes & Hk & _). apply list_elem_of_In, in_map_iff. eexists (key, _). split; [done|].
      apply list_elem_of_In, elem_of_btree. rewrite (captured_final _ _ Hcs), lookup_fmap, Hk. done.
    + destruct (B2 key) as (e & He & Hp); [|done|exists e; split; [apply elem_of_app; by right|done]].
      destruct Hr as [_ [o Ho]]. apply list_elem_of_In, in_map_iff. exists (key, o). split; [done|].
      by apply list_elem_of_In, elem_of_btree.
  - rewrite map_app. apply NoDup_app. split_and!.
    + eapply sublist_NoDup; [apply (btree_keys (cs_final cs))|exact A3].
    + intros k Hk1 Hk2. apply list_elem_of_In, in_map_iff in Hk1 as (e1 & <- & He1%list_elem_of_In).
      apply list_elem_of_In, in_map_iff in Hk2 as (e2 & Heq & He2%list_elem_of_In).
      destruct (A1 e1 He1) as [_ (kd & b & Hk & _)]. destruct (B1 e2 He2) as [_ [Hn _]]. rewrite Heq in Hn. congruence.
    + eapply sublist_NoDup; [apply (btree_keys tree)|exact B3].
Qed.

(** A state as digests. *)
Definition digests (state : gmap string (EntryKind * string)) : gmap string (EntryKind * Digest * Z) :=
  (fun c => (c.1, digest_of c.2, byte_size c.2)) <$> state.

(** The content of the base. *)
Definition originals_of (originals : gmap string (EntryKind * string)) : Prop :=
  ∀ key, match tree !! key with
         | Some o => ∃ bytes, originals !! key = Some (bo_kind o, bytes) ∧ base_bytes source o bytes
         | None => originals !! key = None
         end.

(** A captured file and the base object of the same path have other bytes and one
    object name. *)
Definition object_clash (originals : gmap string (EntryKind * string)) : Prop :=
  ∃ key c d, contents walked !! key = Some c ∧ originals !! key = Some d ∧
    c.2 ≠ d.2 ∧ object_name source c.2 = object_name source d.2.

Definition collides (originals : gmap string (EntryKind * string)) (key : string) (c : EntryKind * string) : bool :=
  match originals !! key with
  | Some d => bool_decide (c.2 ≠ d.2) && bool_decide (object_name source c.2 = object_name source d.2)
  | None => false
  end.

Lemma same_content_dec key kind bytes : same_content key kind bytes ∨ ¬ same_content key kind bytes.
Proof.
  unfold same_content, base_bytes. destruct (tree !! key) as [o|]; [|right; by intros (o & Ho & _)].
  destruct (decide (bo_kind o = kind ∧ object_name source bytes = bo_oid o ∧ byte_size bytes = bo_size o)) as [(?&?&?)|Hn].
  - left. by exists o.
  - right. intros (o' & [= <-] & ? & ? & ?). by apply Hn.
Qed.

Lemma entry_said entries evs e : difference entries evs → e ∈ entries → says evs e.
Proof. intros (D1 & _ & _). apply D1. Qed.

Lemma difference_applies_at entries evs originals key :
  difference entries evs → originals_of originals →
  (∀ c, contents walked !! key = Some c → collides originals key c = false) →
  fold_left apply_entry entries (digests originals) !! key = digests (contents walked) !! key.
Proof.
  intros Hd Ho Hno. pose proof Hd as (_ & D2 & D3).
  destruct (apply_entries_lookup entries (digests originals) key D3) as [A1 A2]. specialize (Ho key).
  destruct (contents walked !! key) as [[kind bytes]|] eqn:Hc.
  - assert (digests (contents walked) !! key = Some (kind, digest_of bytes, byte_size bytes)) as ->
      by (unfold digests; by rewrite lookup_fmap, Hc).
    destruct (same_content_dec key kind bytes) as [Hs|Hs].
    + rewrite A2.
      * destruct Hs as (o & Ht & <- & Hn & Hz). rewrite Ht in Ho. destruct Ho as (bb & Hb & Hbn & Hbz).
        specialize (Hno _ eq_refl). unfold collides in Hno. rewrite Hb in Hno. cbn in Hno.
        unfold digests. rewrite lookup_fmap, Hb. cbn. destruct (decide (bytes = bb)) as [->|Hne]; [done|].
        rewrite bool_decide_eq_true_2, bool_decide_eq_true_2 in Hno by congruence. done.
      * intros e He Hk. pose proof (entry_said _ _ _ Hd He) as [_ Hsay]. rewrite Hk, Hc in Hsay.
        pose proof Hs as (o & Ht & _). rewrite Ht in Hsay. by destruct Hsay as (_ & _ & _ & Hn).
    + destruct (D2 key) as (e & He & Hk); [left; by exists kind, bytes|]. rewrite (A1 e He Hk).
      pose proof (entry_said _ _ _ Hd He) as [_ Hsay]. rewrite Hk, Hc in Hsay.
      destruct (tree !! key); [destruct Hsay as (_ & _ & -> & _)|destruct Hsay as (_ & _ & ->)]; done.
  - assert (digests (contents walked) !! key = None) as -> by (unfold digests; by rewrite lookup_fmap, Hc).
    destruct (tree !! key) as [o|] eqn:Ht.
    + destruct (D2 key) as (e & He & Hk); [right; split; [done|by eexists]|]. rewrite (A1 e He Hk).
      pose proof (entry_said _ _ _ Hd He) as [_ Hsay]. rewrite Hk, Hc, Ht in Hsay. by destruct Hsay as (_ & _ & ->).
    + rewrite A2; [unfold digests; by rewrite lookup_fmap, Ho|]. intros e He Hk.
      pose proof (entry_said _ _ _ Hd He) as [_ Hsay]. by rewrite Hk, Hc, Ht in Hsay.
Qed.

(** The base with the changeset applied is what the walk found. *)
Lemma difference_applies entries evs originals :
  difference entries evs → originals_of originals →
  fold_left apply_entry entries (digests originals) = digests (contents walked) ∨ object_clash originals.
Proof.
  intros Hd Ho.
  destruct (decide (map_Forall (fun k c => collides originals k c = false) (contents walked))) as [Hno|Hyes].
  - left. apply map_eq. intros key. eapply difference_applies_at; [done|done|]. intros c Hc. by apply Hno.
  - right. apply map_not_Forall in Hyes as (k & c & Hc & Hcol); [|solve_decision].
    apply not_false_is_true in Hcol. unfold collides in Hcol. destruct (originals !! k) as [d|] eqn:Hk; [|done].
    apply andb_true_iff in Hcol as [H1%bool_decide_eq_true H2%bool_decide_eq_true]. by exists k, c, d.
Qed.
End Difference.

Lemma contents_elem key kind bytes :
  contents walked !! key = Some (kind, bytes) →
  ∃ e, e ∈ walked ∧ sort_key (cap_path e) = key ∧ cap_kind e = kind ∧ cap_bytes e = bytes.
Proof.
  unfold contents. enough (∀ l (m : gmap string (EntryKind * string)),
    fold_left (fun m e => <[sort_key (cap_path e) := (cap_kind e, cap_bytes e)]> m) l m !! key = Some (kind, bytes) →
    m !! key = Some (kind, bytes) ∨ ∃ e, e ∈ l ∧ sort_key (cap_path e) = key ∧ cap_kind e = kind ∧ cap_bytes e = bytes) as Hl.
  { intros [Hm|He]%Hl; [by rewrite lookup_empty in Hm|done]. }
  intros l. induction l as [|x l IH]; intros m; cbn [fold_left]; [by left|]. intros [Hm|(e & He & Hr)]%IH.
  - destruct (decide (sort_key (cap_path x) = key)) as [<-|Hne].
    + rewrite lookup_insert_eq in Hm. injection Hm as <- <-. right. exists x. split; [left|done].
    + rewrite lookup_insert_ne in Hm by done. by left.
  - right. exists e. split; [by right|done].
Qed.

(** Every payload of an entry was published before. *)
Definition payload (evs : list SealEvent) (m : Digest * Z) : Prop :=
  ∃ bytes r, EvPublished bytes r ∈ evs ∧ m = (digest_of bytes, byte_size bytes) ∧
    or_digest r = digest_of bytes ∧ or_size r = byte_size bytes.

Lemma says_payload evs1 evs2 e st m :
  all_published evs1 → says evs2 e → st ∈ [ce_before e; ce_after e] → member st = Some m → payload (evs1 ++ evs2) m.
Proof.
  intros Hall [Hs Hsays] Hst Hm.
  assert (∀ o st', before_published o st' evs2 → member st' = Some m → payload (evs1 ++ evs2) m) as Hb.
  { intros o st' (bytes & r & _ & Hin & -> & Hd & Hz) [= <-]. exists bytes, r. split_and!; [|done..].
    apply elem_of_app. by right. }
  assert (∀ kind bytes, contents walked !! path_bytes (ce_path e) = Some (kind, bytes) →
    member (Present kind (digest_of bytes) (byte_size bytes)) = Some m → payload (evs1 ++ evs2) m) as Ha.
  { intros kind bytes Hc [= <-]. apply contents_elem in Hc as (x & Hx & Hk & _ & <-).
    destruct (Hall x Hx) as (r & Hd & Hz & Hin); [by rewrite Hk|]. exists (cap_bytes x), r. split_and!; [|done..].
    apply elem_of_app. by left. }
  destruct (contents walked !! _) as [[kind bytes]|] eqn:Hc, (tree !! _) as [o|]; [| | |done].
  - destruct Hsays as (_ & Hbe & Haf & _). apply elem_of_cons in Hst as [->|Hst]; [by eapply Hb|].
    apply list_elem_of_singleton in Hst as ->. rewrite Haf in Hm. by eapply Ha.
  - destruct Hsays as (_ & Hbe & Haf). apply elem_of_cons in Hst as [->|Hst]; [by rewrite Hbe in Hm|].
    apply list_elem_of_singleton in Hst as ->. rewrite Haf in Hm. by eapply Ha.
  - destruct Hsays as (_ & Hbe & Haf). apply elem_of_cons in Hst as [->|Hst]; [by eapply Hb|].
    apply list_elem_of_singleton in Hst as ->. by rewrite Haf in Hm.
Qed.

Lemma final_entries_retains final : retains (final_entries final) (fun es evs =>
  evs = [] ∧ map (fun e => (path_bytes (fe_path e), (fe_kind e, fe_blob e, fe_size e))) es = final).
Proof.
  induction final as [|[key [[kind digest] size]] rest IH]; cbn [final_entries]; [by apply retains_ret|].
  eapply retains_bind; [apply retains_try|]. intros path evs [Hp ->].
  destruct (path_from_bytes key) as [p|] eqn:Ep; [|done]. injection Hp as ->. apply path_known in Ep as ->.
  eapply retains_bind; [exact IH|]. intros es evs [-> <-]. by apply retains_ret.
Qed.

(** *** Up to the commit *)

(** [m] retains, and then commits once or fails. *)
Definition closes (m : Seal SealError SealedArtifact) (C : list SealEvent → SealedChangeset → Prop)
    (Q : SealedArtifact → list SealEvent → Prop) : Prop :=
  ∀ s, ∃ evs commits, sl_trace (m s).2 = sl_trace s ++ evs ++ commits ∧ Forall retained evs ∧
    ((commits = [] ∧ ∀ a, (m s).1 ≠ Ok a) ∨
     ∃ sealed, commits = [EvCommit sealed] ∧ C evs sealed ∧ ∀ a, (m s).1 = Ok a → Q a evs).

Lemma closes_bind {A} (m : Seal SealError A) (k : A → Seal SealError SealedArtifact) P C Q :
  retains m P → (∀ a evs, P a evs → closes (k a) (fun evs' => C (evs ++ evs')) (fun x evs' => Q x (evs ++ evs'))) →
  closes (seal_bind m k) C Q.
Proof.
  intros Hm Hk s. unfold seal_bind. destruct (Hm s) as (e1 & T1 & F1 & Q1). destruct (m s) as [[a|e] s1]; cbn in *.
  - destruct (Hk a e1 Q1 s1) as (e2 & cms & T2 & F2 & H2). exists (e1 ++ e2), cms. rewrite T2, T1, <-!app_assoc.
    split; [done|]. split; [by apply Forall_app|done].
  - exists e1, []. rewrite app_nil_r. split_and!; [done..|]. by left.
Qed.

Definition payloads (evs : list SealEvent) (sealed : SealedChangeset) : Prop :=
  ∀ m, m ∈ sc_members sealed → payload evs m.

(** What a sealed Artifact is, of the Workspace and what was found. *)
Definition sealed_difference (workspace : WorkspaceRecord) (a : SealedArtifact) (evs : list SealEvent) : Prop :=
  ∃ entries revision_state,
    difference entries evs ∧
    sa_artifact_json a = to_canonical_bytes (changeset_manifest (ws_repository workspace)
      (resolved_text (ws_resolved_base workspace)) (rs_digest revision_state) entries) ∧
    sa_artifact_digest a = digest_of (sa_artifact_json a) ∧
    sa_revision_state_digest a = rs_digest revision_state ∧
    ∀ e, e ∈ rs_entries revision_state ↔
      ∃ kind bytes, contents walked !! path_bytes (fe_path e) = Some (kind, bytes) ∧
        e = {| fe_path := fe_path e; fe_kind := kind; fe_blob := digest_of bytes; fe_size := byte_size bytes |}.

Lemma closes_commit c id sealed (k : Committed SealOutcome → Seal SealError SealedArtifact) C Q :
  C [] sealed →
  (∀ x s, sl_trace (k x s).2 = sl_trace s ∧ ∀ a, (k x s).1 = Ok a → Q a []) →
  closes (seal_bind (commit_seal slots random_id c id sealed) k) C Q.
Proof.
  intros HC Hk s. exists [], [EvCommit sealed]. cbn [app].
  unfold commit_seal, seal_store, seal_outcome, seal_event, seal_try, seal_bind. cbn [sl_world].
  destruct (eng_command slots (seal_command c id "workspace.sealed") _ (sl_world s)) as [r w]. cbn.
  destruct r as [x|e]; cbn.
  - destruct (Hk x {| sl_world := w; sl_calls := sl_calls s; sl_trace := sl_trace s ++ [EvCommit sealed] |}) as [Ht Hq].
    cbn in Ht. split; [exact Ht|]. split; [constructor|]. right. by exists sealed.
  - split; [done|]. split; [constructor|]. right. exists sealed. by split_and!.
Qed.

Lemma final_entries_state cs es :
  captured (contents walked) cs →
  map (fun e => (path_bytes (fe_path e), (fe_kind e, fe_blob e, fe_size e))) es = btree_iter (cs_final cs) →
  ∀ e, e ∈ es ↔ ∃ kind bytes, contents walked !! path_bytes (fe_path e) = Some (kind, bytes) ∧
    e = {| fe_path := fe_path e; fe_kind := kind; fe_blob := digest_of bytes; fe_size := byte_size bytes |}.
Proof.
  intros Hc Hes e.
  assert (∀ key v, (key, v) ∈ map (fun e => (path_bytes (fe_path e), (fe_kind e, fe_blob e, fe_size e))) es ↔
    ∃ kind bytes, contents walked !! key = Some (kind, bytes) ∧ v = (kind, digest_of bytes, byte_size bytes)) as Hin.
  { intros key v. rewrite Hes, elem_of_btree, (captured_final _ _ Hc), lookup_fmap.
    destruct (contents walked !! key) as [[kind bytes]|]; cbn; [|naive_solver].
    split; [intros [= <-]; eauto|by intros (? & ? & [= <- <-] & ->)]. }
  split.
  - intros He. destruct (proj1 (Hin (path_bytes (fe_path e)) (fe_kind e, fe_blob e, fe_size e))) as (kind & bytes & Hk & Hv).
    { apply list_elem_of_In, in_map_iff. exists e. split; [done|by apply list_elem_of_In]. }
    exists kind, bytes. split; [done|]. destruct e; cbn in *. congruence.
  - intros (kind & bytes & Hk & ->). pose proof (proj2 (Hin (path_bytes (fe_path e)) (kind, digest_of bytes, byte_size bytes))
      ltac:(eauto)) as Hx. apply list_elem_of_In, in_map_iff in Hx as (x & Hx & He%list_elem_of_In).
    replace {| fe_path := _ |} with x; [done|]. destruct x as [xp xk xb xs], (fe_path e) as [ep]. destruct xp. cbn in *. congruence.
Qed.

Lemma closes_captured c request workspace fence cs evs0 :
  source = ws_source_path workspace → captured (contents walked) cs → cs_batch cs = [] → all_published evs0 →
  closes (seal_captured slots base objects random_id c request workspace fence tree scope cs)
    (fun evs => payloads (evs0 ++ evs)) (fun a evs => sealed_difference workspace a (evs0 ++ evs)).
Proof.
  intros Hsrc Hc Hb Hall. unfold seal_captured. rewrite <-Hsrc.
  eapply closes_bind; [exact (diff_difference cs Hc Hb)|]. intros entries evs Hd.
  eapply closes_bind; [apply final_entries_retains|]. intros es evs1 [-> Hes]. cbn [app].
  eapply closes_bind; [apply retains_try|]. intros state evs1 [Hst ->]. cbn [app].
  destruct (revision_state_new es) as [st|] eqn:Er; [|done]. injection Hst as ->.
  apply revision_state_new_Ok in Er as [_ ->].
  eapply closes_bind; [apply retains_try|]. intros id evs1 [_ ->]. cbn [app].
  assert (difference entries (evs0 ++ evs)) as Hd'.
  { destruct Hd as (D1 & D2 & D3). split_and!; [|done|done]. intros e He. apply says_r, D1, He. }
  apply closes_commit.
  - cbn. rewrite app_nil_r. intros m (e & x & He & Hx & Hm)%members_of_elem. destruct Hd as (D1 & _ & _).
    eapply says_payload; [done|by apply D1|exact Hx|exact Hm].
  - intros x s. rewrite app_nil_r.
    assert (∀ reused, sealed_difference workspace {| sa_artifact_digest := digest_of (to_canonical_bytes (changeset_manifest
        (ws_repository workspace) (resolved_text (ws_resolved_base workspace)) (rs_digest (state_of es)) entries));
      sa_artifact_json := to_canonical_bytes (changeset_manifest (ws_repository workspace)
        (resolved_text (ws_resolved_base workspace)) (rs_digest (state_of es)) entries);
      sa_revision_state_digest := rs_digest (state_of es); sa_artifact_reused := reused |} (evs0 ++ evs)) as Hsd.
    { intros reused. exists entries, (state_of es). split_and!; try done. intros e. cbn [rs_entries state_of].
      rewrite elem_of_sort_by. by apply (final_entries_state cs). }
    destruct x as [v cur|cur t]; cbn.
    + split; [done|]. by intros a [= <-].
    + unfold seal_read, seal_store, seal_outcome, seal_try, seal_bind. destruct (eng_read _ _ _) as [[found|e] w]; cbn.
      * split; [done|]. by intros a [= <-].
      * by split.
Qed.
End Walk.

Lemma difference_exact source tree scope walked entries evs :
  difference source tree scope walked entries evs →
  (∀ key, (∃ e, e ∈ entries ∧ path_bytes (ce_path e) = key) ↔
     modified source tree walked key ∨ removed tree walked key) ∧
  ∀ e, e ∈ entries → in_scope scope (path_bytes (ce_path e)).
Proof.
  intros (D1 & D2 & _). split.
  - intros key. split; [|apply D2]. intros (e & He & Hk). destruct (D1 e He) as [_ Hs]. rewrite Hk in Hs.
    unfold modified, removed. destruct (contents walked !! key) as [[kind bytes]|], (tree !! key) as [o|] eqn:Ht; [| | |done].
    + left. exists kind, bytes. split; [done|apply Hs].
    + left. exists kind, bytes. split; [done|]. intros (o & Ho & _). congruence.
    + right. split; [done|by eexists].
  - intros e He. apply (D1 e He).
Qed.

(** One run after the fence, whatever the ports answer. *)
Lemma capture_and_seal_run c request workspace fence scope s r s' :
  capture_and_seal slots capture base objects workspace_root random_id c request workspace fence scope s = (r, s') →
  let source := ws_source_path workspace in
  let walk := capture_tree capture (S (sl_calls s)) (capture_root_of workspace_root (ws_id workspace)) in
  match port_base_tree base (sl_calls s) source (ws_resolved_base workspace) with
  | Err _ => sl_trace s' = sl_trace s ∧ ∀ a, r ≠ Ok a
  | Ok tree =>
      ∃ evs commits, sl_trace s' = sl_trace s ++ evs ++ commits ∧ Forall (retained source tree scope walk.1) evs ∧
        ((commits = [] ∧ ∀ a, r ≠ Ok a) ∨
         ∃ sealed, commits = [EvCommit sealed] ∧ payloads evs sealed ∧
           ∀ a, r = Ok a → walk.2 = None ∧ sealed_difference source tree scope walk.1 workspace a evs)
  end.
Proof.
  intros Hx source walk. unfold capture_and_seal in Hx. unfold seal_bind at 1 in Hx. unfold seal_map_err, seal_call in Hx.
  fold source in Hx. destruct (port_base_tree base (sl_calls s) source (ws_resolved_base workspace)) as [tree|f] eqn:Ht.
  2: { injection Hx as <- <-. by split. }
  set (s1 := {| sl_world := sl_world s; sl_calls := S (S (sl_calls s)); sl_trace := sl_trace s |}).
  assert (closes source tree scope walk.1
    (let~ cs := walk_outcome source tree scope walk.1 walk.2 in
     seal_captured slots base objects random_id c request workspace fence tree scope cs)
    payloads (fun a evs => walk.2 = None ∧ sealed_difference source tree scope walk.1 workspace a evs)) as Hc.
  { eapply closes_bind; [apply walk_captured|]. intros cs evs (Hcap & Hb & Hf & Hall) s0.
    destruct (closes_captured source tree scope walk.1 c request workspace fence cs evs eq_refl Hcap Hb Hall s0)
      as (e2 & cms & T & F & [Hn|(sealed & Hs & HC & HQ)]); exists e2, cms; (split; [done|split; [done|]]); [by left|].
    right. exists sealed. split_and!; [done..|]. intros a Ha. split; [exact Hf|by apply HQ]. }
  destruct (Hc s1) as (evs & cms & T & F & Hcase).
  assert ((let~ cs := walk_outcome source tree scope walk.1 walk.2 in
     seal_captured slots base objects random_id c request workspace fence tree scope cs) s1 = (r, s')) as Hrun by exact Hx.
  rewrite Hrun in T, Hcase. exists evs, cms. by split_and!.
Qed.
End Sealed.

(** C20: A seal that succeeds names exactly the difference between the immutable base
    and what the walk found. A path has an entry precisely when it was added, deleted,
    or holds another kind, size or content than the base object of that name; every
    entry's path is inside the Task's scope; the manifest is the canonical text of
    those entries, the Artifact its digest, and the recorded state is what was found.
    Applied to the contents of the base, the entries give back the captured tree,
    unless a captured file and the base object of its own path have other bytes and the
    same object name. *)
Theorem changeset_is_the_difference `{Sha256} slots capture base objects workspace_root random_id object_name
    c request workspace fence scope s a s' :
  honest_ports base objects object_name →
  capture_and_seal slots capture base objects workspace_root random_id c request workspace fence scope s = (Ok a, s') →
  let source := ws_source_path workspace in
  ∃ tree walked entries revision_state,
    port_base_tree base (sl_calls s) source (ws_resolved_base workspace) = Ok tree ∧
    capture_tree capture (S (sl_calls s)) (capture_root_of workspace_root (ws_id workspace)) = (walked, None) ∧
    (∀ key, (∃ e, e ∈ entries ∧ path_bytes (ce_path e) = key) ↔
       modified object_name source tree walked key ∨ removed tree walked key) ∧
    (∀ e, e ∈ entries → authorizes scope (ce_path e) = true) ∧
    sa_artifact_json a = to_canonical_bytes (changeset_manifest (ws_repository workspace)
      (resolved_text (ws_resolved_base workspace)) (rs_digest revision_state) entries) ∧
    sa_artifact_digest a = digest_of (sa_artifact_json a) ∧
    (∀ e, e ∈ rs_entries revision_state ↔
       ∃ kind bytes, contents walked !! path_bytes (fe_path e) = Some (kind, bytes) ∧
         e = {| fe_path := fe_path e; fe_kind := kind; fe_blob := digest_of bytes; fe_size := byte_size bytes |}) ∧
    ∀ originals, originals_of object_name source tree originals →
      fold_left apply_entry entries (digests originals) = digests (contents walked) ∨
      object_clash object_name source walked originals.
Proof.
  intros Hports Hx source.
  pose proof (capture_and_seal_run slots capture base objects workspace_root random_id object_name Hports
    _ _ _ _ _ _ _ _ Hx) as Hr. cbn zeta in Hr. fold source in Hr.
  destruct (port_base_tree base (sl_calls s) source (ws_resolved_base workspace)) as [tree|f]; [|by destruct (proj2 Hr a)].
  destruct Hr as (evs & cms & _ & _ & [[_ Hn]|(sealed & _ & _ & Hq)]); [by destruct (Hn a)|].
  destruct (Hq a eq_refl) as (Hf & entries & st & Hd & Hj & Hdg & _ & Hst).
  destruct (capture_tree _ _ _) as [walked fault]. cbn [fst snd] in *. subst fault.
  pose proof (difference_exact _ _ _ _ _ _ _ Hd) as [He Hs].
  exists tree, walked, entries, st. split; [done|]. split; [done|]. split; [exact He|]. split; [|split_and!; try done].
  - intros e Hin. specialize (Hs e Hin). unfold in_scope in Hs. by destruct (ce_path e).
  - intros originals Ho. by eapply difference_applies.
Qed.

(** C21: Whatever the ports answer and however a seal ends, nothing outside the Task's
    scope is made durable: every published payload is the content of an authorized
    captured path or of the base object of an authorized path, under its own digest.
    There is at most one commit, it comes last, and every payload the committed
    changeset names was published before it. *)
Theorem payloads_before_commit `{Sha256} slots capture base objects workspace_root random_id object_name
    c request workspace fence scope s r s' :
  honest_ports base objects object_name →
  capture_and_seal slots capture base objects workspace_root random_id c request workspace fence scope s = (r, s') →
  let source := ws_source_path workspace in
  let walked := (capture_tree capture (S (sl_calls s)) (capture_root_of workspace_root (ws_id workspace))).1 in
  ∃ published commits, sl_trace s' = sl_trace s ++ published ++ commits ∧
    (∀ ev, ev ∈ published → ∃ tree, port_base_tree base (sl_calls s) source (ws_resolved_base workspace) = Ok tree ∧
       retained object_name source tree scope walked ev) ∧
    (commits = [] ∧ (∀ a, r ≠ Ok a) ∨
     ∃ sealed, commits = [EvCommit sealed] ∧
       ∀ m, m ∈ sc_members sealed → ∃ bytes ref, EvPublished bytes ref ∈ published ∧
         m = (digest_of bytes, byte_size bytes) ∧ or_digest ref = digest_of bytes).
Proof.
  intros Hports Hx source walked.
  pose proof (capture_and_seal_run slots capture base objects workspace_root random_id object_name Hports
    _ _ _ _ _ _ _ _ Hx) as Hr. cbn zeta in Hr. fold source in Hr.
  destruct (port_base_tree base (sl_calls s) source (ws_resolved_base workspace)) as [tree|f].
  - destruct Hr as (evs & cms & T & F & Hcase). exists evs, cms. split; [done|]. split.
    + intros ev Hin. exists tree. split; [done|]. rewrite Forall_forall in F. by apply F.
    + destruct Hcase as [Hn|(sealed & -> & Hp & _)]; [by left|right]. exists sealed. split; [done|]. intros m Hm.
      destruct (Hp m Hm) as (bytes & ref & Hin & Heq & Hd & _). by exists bytes, ref.
  - destruct Hr as [T Hn]. exists [], []. rewrite app_nil_r. split; [done|]. split; [by intros ev He%not_elem_of_nil|by left].
Qed.
