(* ===== verification/SealScenario.v ===== *)
(** * Sealing at work *)

From Stdlib Require Import ZArith NArith Ascii Lia.
From S2P Require Import Prelude Utf8 Canonical Digest Goal Task Artifact Scope Workspace Sql Schema Transaction Command StoreBase StorePlanning StoreWorkspace StoreArtifacts StoreLaws StoreHistory Scenario EngineBase EngineWorkspace EngineSealing EngineScenario.

#[local] Existing Instance stir_hash.

(** ** Ports *)

(** A repository whose object names are the contents. *)
Definition plain_name (source bytes : string) : string := bytes.

Definition base_object (bytes : string) : BaseObject :=
  {| bo_kind := Regular; bo_oid := bytes; bo_size := byte_size bytes |}.

Definition story_tree : gmap string BaseObject :=
  <["src/kept" := base_object "kept"]> (<["src/edited" := base_object "old."]> (<["src/gone" := base_object "gone"]>
    (<["README" := base_object "read me"]> ∅))).

Definition story_reader : TrustedBaseReader := {|
  port_base_tree := fun _ _ _ => Ok story_tree;
  port_blob_object_names := fun _ source contents => Ok (map (plain_name source) contents);
  port_blob_bytes := fun _ _ oid => Ok oid |}.

Definition story_objects : ContentObjectStore := {|
  port_publish := fun _ bytes => Ok {| or_digest := digest_of bytes; or_size := byte_size bytes |} |}.

Definition found (path bytes : string) : CapturedEntry :=
  {| cap_path := mk_path path; cap_kind := Regular; cap_bytes := bytes |}.

(** Someone changes a file between the first walk and the second. *)
Definition story_capture : WorkspaceTreeCapture := {|
  capture_tree := fun n _ =>
    ([found "README" "read me"; found "src/kept" "kept"; found "src/edited" "new.";
      found "src/added" (if Nat.ltb n 8 then "added" else "tampered")], None) |}.

Definition story_seal_command : SealCommand :=
  {| slc_epoch := sample_generation; slc_id := "seal-1"; slc_request_hash := sample_hash |}.

Definition story_seal_request : SealRequest := {|
  sr_task_id := "task-1"; sr_output_slot := "patch"; sr_authority := story_seal_authority;
  sr_producer_attempt_id := None |}.

Definition fresh_id (n : nat) : string := "1111111111111111111111111111111" +:+ String (hex_char (N.of_nat n)) EmptyString.

Definition sealer_at (conn : Connection) : Sealer := {| sl_world := world_of conn; sl_calls := 0; sl_trace := [] |}.

Local Abbreviation sealing := (seal EngineScenario.alone story_capture story_reader story_objects "/var/lib/pantheon" fresh_id
  story_seal_command story_seal_request).

(** ** A seal after the freeze *)

Definition frozen : Connection := (serve (request "0c" "workspace.frozen" (OpFreeze story_seal_authority "task-1" "patch" "ws-1" 3)) launched).2.

Definition frozen_workspace : WorkspaceRecord := {|
  ws_id := "ws-1"; ws_task_id := "task-1"; ws_repository := "repo://app"; ws_source_path := "/srv/app";
  ws_requested_base := mk_requested "main"; ws_resolved_base := story_base; ws_phase := WsFrozen;
  ws_materialization := MatPresent; ws_revision := 4 |}.

Lemma frozen_current : workspace_for_task MIGRATIONS (conn_db frozen) "task-1" = Ok (Some frozen_workspace).
Proof. vm_compute. reflexivity. Qed.

Definition source_scope : WorkspaceScope := {| scope_patterns := [{| pattern_segments := [Literal "src"; Many] |}] |}.

Local Abbreviation sealed_run := (capture_and_seal EngineScenario.alone story_capture story_reader story_objects "/var/lib/pantheon"
  fresh_id story_seal_command story_seal_request frozen_workspace 4 source_scope (sealer_at frozen)).

Lemma sealed_runs : answered sealed_run.1 = true.
Proof. vm_compute. reflexivity. Qed.

Lemma story_ports : honest_ports story_reader story_objects plain_name.
Proof.
  split.
  - intros n source contents names [= <-]. reflexivity.
  - intros n source oid bytes [= ->]. reflexivity.
  - intros n bytes r [= <-]. split; reflexivity.
Qed.

Definition story_originals : gmap string (EntryKind * string) := (fun o => (bo_kind o, bo_oid o)) <$> story_tree.

Lemma story_originals_of : originals_of plain_name "/srv/app" story_tree story_originals.
Proof.
  intros key. unfold story_originals. rewrite lookup_fmap. destruct (story_tree !! key) as [o|] eqn:Ho; [|reflexivity].
  exists (bo_oid o). split; [reflexivity|]. split; [reflexivity|]. unfold story_tree in Ho.
  repeat (apply lookup_insert_Some in Ho as [[_ <-]|[_ Ho]]; [reflexivity|]). by rewrite lookup_empty in Ho.
Qed.

Lemma changeset_is_the_difference_witness :
  ∃ a s' walked entries, sealed_run = (Ok a, s') ∧
    (∀ e, e ∈ entries → authorizes source_scope (ce_path e) = true) ∧
    fold_left apply_entry entries (digests story_originals) = digests (contents walked).
Proof.
  pose proof sealed_runs as Hr. destruct sealed_run as [[a|e] s'] eqn:E; [|discriminate Hr].
  destruct (changeset_is_the_difference EngineScenario.alone story_capture story_reader story_objects "/var/lib/pantheon" fresh_id
    plain_name story_seal_command story_seal_request frozen_workspace 4 source_scope (sealer_at frozen) a s' story_ports E)
    as (tree & walked & entries & st & Ht & _ & _ & Hs & _ & _ & _ & Ho).
  exists a, s', walked, entries. split; [reflexivity|]. split; [exact Hs|]. injection Ht as <-.
  destruct (Ho story_originals story_originals_of) as [Heq|(key & c & d & _ & _ & Hne & Hc)]; [exact Heq|destruct (Hne Hc)].
Defined.

Lemma payloads_before_commit_witness :
  ∃ a s' published sealed, sealed_run = (Ok a, s') ∧ sl_trace s' = published ++ [EvCommit sealed] ∧
    ∀ m, m ∈ sc_members sealed → ∃ bytes ref, EvPublished bytes ref ∈ published ∧ m = (digest_of bytes, byte_size bytes).
Proof.
  pose proof sealed_runs as Hr. destruct sealed_run as [[a|e] s'] eqn:E; [|discriminate Hr].
  destruct (payloads_before_commit EngineScenario.alone story_capture story_reader story_objects "/var/lib/pantheon" fresh_id
    plain_name story_seal_command story_seal_request frozen_workspace 4 source_scope (sealer_at frozen) (Ok a) s' story_ports E)
    as (published & commits & Ht & _ & [[_ Hn]|(sealed & -> & Hm)]); [destruct (Hn a eq_refl)|].
  exists a, s', published, sealed. split; [reflexivity|]. split; [exact Ht|]. intros m Hin.
  destruct (Hm m Hin) as (bytes & ref & Hp & Heq & _). exists bytes, ref. split; [exact Hp|exact Heq].
Defined.

(** ** The same seal twice *)

Definition unstored (r : Result SealedArtifact SealError * Sealer) : bool :=
  match r with
  | (Ok a, s) =>
      negb (sa_artifact_reused a) &&
      match artifact MIGRATIONS (wo_db (sl_world s)) (sa_artifact_digest a) with
      | Ok None => true
      | _ => false
      end
  | _ => false
  end.

(** A seal command sent twice, with a file of the frozen Workspace changed in
    between by someone outside the store: the second commit is a replay, nothing is
    stored, and the call still succeeds, naming an Artifact that no row holds. *)
Theorem replayed_seal_names_nothing :
  let first := sealing (sealer_at launched) in
  answered first.1 = true ∧ unstored first = false ∧ unstored (sealing first.2) = true.
Proof. vm_compute. repeat split. Qed.
