(* ===== verification/EngineAgentControl.v ===== *)
(** * The worker's gateway ([pantheon-engine/src/agent_control.rs])

    A worker presents its Attempt and the bearer it was launched with; everything
    else is derived from the store. The outcome of a request is recorded in the
    ledger of worker requests under the same fence, and a request whose outcome is
    recorded is answered from it. *)

From Stdlib Require Import ZArith Ascii Lia.
From S2P Require Import Prelude Utf8 Canonical Digest Parse ParseFacts Task Candidate Artifact Scope Workspace Sql Schema Transaction Command StoreBase StorePlanning StoreConfiguration StoreWorkspace StoreArtifacts StoreExecution StoreAgentControl StoreLaws StoreHistory StoreFrames EngineBase EngineConfiguration EngineRun EngineWorkspace EngineSealing.

(** ** Definitions *)

Record WorkerCredential : Type := { wc_attempt_id : string; wc_bearer : Bearer }.

Inductive AgentControlError : Type :=
| AcStore (e : StoreError)
| AcSeal (e : SealError)
| AcRequestRefused (problem_code : string)
| AcCandidate (e : CandidateError).

Inductive AgentSealOutcome : Type :=
| SealExecuted (a : SealedArtifact)
| SealReconciled (d : Digest)
| SealRefused (problem_code : string).

Record SubmittedCandidate : Type := { sbm_candidate_digest : string; sbm_reconciled : bool }.

Record SubmitResultRequest : Type := {
  srr_request_id : string;
  srr_expected_task_revision : Z;
  srr_outputs : list (string * Digest)
}.

Definition parse_recorded_digest (result_ref : string) : Result Digest AgentControlError :=
  ok_or (from_display result_ref)
    (AcStore (broken "a recorded agent-request outcome stores an unparsable ref" [result_ref])).

(** A recorded problem code, if it is of the domain. *)
Definition recorded_problem_code (recorded : string) : option string :=
  if contains ["output-slot-invalid"; "workspace-state"; "scope-violated"; "ceilings-exceeded"; "capture-failed";
               "task-unusable"; "internal"; "authority-stale"; "invalid-candidate"] recorded
  then Some recorded else None.

Definition problem_code_of (error : AgentControlError) : string :=
  match error with
  | AcSeal (OutputSlotInvalid _ _ _) => "output-slot-invalid"
  | AcSeal (WorkspaceState _ _) => "workspace-state"
  | AcSeal (ScopeViolated _) => "scope-violated"
  | AcSeal (CeilingsExceeded _) => "ceilings-exceeded"
  | AcSeal (CaptureFailed _) => "capture-failed"
  | AcSeal (TaskUnusable _ _) => "task-unusable"
  | AcSeal (SealIdentityTooLong _) | AcSeal (SealStore _) => "internal"
  | AcStore _ => "authority-stale"
  | AcCandidate _ => "invalid-candidate"
  | AcRequestRefused _ => "already-refused"
  end.

(** A call of the store, with [?]. *)
Definition acs_store {A} (m : Eng StoreError A) : Seal AgentControlError A :=
  let~ r := seal_outcome m in seal_try (map_err AcStore r).

Section AgentControlGateway.
Context `{Sha256}.

(** [WorkerCredential::verifier]. *)
Definition worker_verifier (c : WorkerCredential) : string := digest_bytes (digest_of (expose (wc_bearer c))).

Definition store_view (c : WorkerCredential) : AgentCredential :=
  {| cred_attempt_id := wc_attempt_id c; cred_verifier := worker_verifier c |}.

Definition request_value (operation attempt_id request_id : string) (fields : list (string * string)) : Value :=
  object ([("attempt", Str attempt_id); ("operation", Str operation); ("request", Str request_id)]
          ++ map (fun f => (f.1, Str f.2)) fields).

Definition canonical_request_hash (operation attempt_id request_id : string) (fields : list (string * string)) : string :=
  digest_bytes (digest_of (to_canonical_bytes (request_value operation attempt_id request_id fields))).

Definition canonical_request_hash_pairs (operation : string) (header : list (string * string))
    (candidate : CandidateResult) : string :=
  digest_bytes (digest_of (to_canonical_bytes (object
    (("operation", Str operation) :: map (fun p => (p.1, Str p.2)) header
     ++ [("candidate", Str (candidate_to_canonical_json candidate))])))).

Definition internal_command_id (attempt_id request_id request_hash : string) : string :=
  "acs:" +:+ (attempt_id +:+ (":" +:+ String.substring 0 16 (to_hex (digest_of request_hash)))).

Definition seal_request_hash (c : WorkerCredential) (request_id output_slot : string) : string :=
  canonical_request_hash "artifact.seal" (wc_attempt_id c) request_id [("outputSlot", output_slot)].

Variable slots : nat → Slot.
Variable capture : WorkspaceTreeCapture.
Variable base : TrustedBaseReader.
Variable objects : ContentObjectStore.
Variable workspace_root : string.
Variable random_id : nat → string.

Definition acs_read {A} (q : Database → Result A StoreError) : Seal AgentControlError A :=
  acs_store (eng_read slots (fun _ => q)).

Definition acs_write {A} (m : Ambient → Tx A) : Seal AgentControlError A := acs_store (eng_write slots m).

Definition describe (c : WorkerCredential) : Seal AgentControlError AgentSessionDescription :=
  acs_read (fun db => describe_agent_session MIGRATIONS db (store_view c)).

(** The identities come from what the store says of the session. *)
Definition drive_seal (c : WorkerCredential) (request_hash request_id output_slot : string) :
    Seal AgentControlError SealedArtifact :=
  let~ description := describe c in
  let~ found := acs_read (fun db => run_execution_view MIGRATIONS db (asd_run_id description)) in
  let~ run_view := seal_some found (AcStore (RunNotFound (asd_run_id description))) in
  let~ generation := acs_read read_restore_generation in
  let command_id := internal_command_id (wc_attempt_id c) request_id request_hash in
  seal_map_err AcSeal
    (seal slots capture base objects workspace_root random_id
       {| slc_epoch := generation; slc_id := command_id; slc_request_hash := request_hash |}
       {| sr_task_id := asd_task_id description; sr_output_slot := output_slot;
          sr_authority := {| seal_run_id := asd_run_id description;
                             seal_expected_run_revision := rev_revision run_view |};
          sr_producer_attempt_id := Some (wc_attempt_id c) |}).

Definition seal_artifact (c : WorkerCredential) (request_id output_slot : string) :
    Seal AgentControlError AgentSealOutcome :=
  let request_hash := seal_request_hash c request_id output_slot in
  let~ opened := acs_write (fun amb =>
    open_agent_request MIGRATIONS amb (store_view c) SealArtifact request_id request_hash) in
  match opened with
  | RequestReconciled (Succeeded result_ref) =>
      let~ d := seal_try (parse_recorded_digest result_ref) in seal_ret (SealReconciled d)
  | RequestReconciled (Failed problem_code) =>
      seal_ret (SealRefused (default "recorded-refusal" (recorded_problem_code problem_code)))
  | RequestStarted | RequestReconciled Started =>
      let~ sealed := seal_attempt (drive_seal c request_hash request_id output_slot) in
      match sealed with
      | Err error =>
          let~ _ := seal_outcome (eng_write slots (fun amb =>
            fail_agent_request MIGRATIONS amb (store_view c) request_id (problem_code_of error))) in
          seal_err error
      | Ok sealed =>
          do~ acs_write (fun amb => complete_agent_request MIGRATIONS amb (store_view c) request_id
                                      (to_display (sa_artifact_digest sealed))) in
          seal_ret (SealExecuted sealed)
      end
  end.

Definition submit_result (c : WorkerCredential) (request : SubmitResultRequest) :
    Seal AgentControlError SubmittedCandidate :=
  let~ context := acs_read (fun db => agent_submission_context db (store_view c)) in
  let~ candidate := seal_try (map_err AcCandidate
    (candidate_new (sctx_task_id context) (sctx_run_id context) (srr_outputs request))) in
  let request_hash := canonical_request_hash_pairs "task.submit_result"
    [("attempt", wc_attempt_id c); ("request", srr_request_id request)] candidate in
  let~ outcome := acs_write (fun amb => apply_candidate_submission MIGRATIONS amb
    {| sub_credential := store_view c; sub_request_id := srr_request_id request; sub_request_hash := request_hash;
       sub_candidate := candidate; sub_expected_task_revision := srr_expected_task_revision request |}) in
  seal_ret {| sbm_candidate_digest := cc_candidate_digest (so_committed outcome);
              sbm_reconciled := so_reconciled outcome |}.
End AgentControlGateway.

(** ** The outcomes of one request *)

Section Outcomes.
Context `{Sha256}.
Variables a q : string.

Definition is_outcome (r : Row) : bool := request_where a q r && col_is "state" (SText "SUCCEEDED") r.

Definition outcomes (db : Database) : list Row := List.filter is_outcome (rows db "agent_requests").

Definition outcomes_same (db db' : Database) : Prop := outcomes db' = outcomes db.

#[export] Instance outcomes_same_preorder : PreOrder outcomes_same.
Proof. unfold outcomes_same. split; [by intros db|]. intros x y z -> ->. done. Qed.

Lemma elem_of_outcomes db r :
  r ∈ outcomes db ↔ r ∈ rows db "agent_requests" ∧ request_where a q r = true ∧ column r "state" = SText "SUCCEEDED".
Proof.
  unfold outcomes, is_outcome. rewrite list_elem_of_In, filter_In, <-list_elem_of_In, andb_true_iff, col_is_text. done.
Qed.

Lemma same_of_touches {A} tables (m : Tx A) :
  "agent_requests" ∉ tables → preserves (same_outside tables) m → preserves outcomes_same m.
Proof. intros Hn Hm w x w' Hx. apply Hm in Hx. unfold outcomes_same, outcomes. by rewrite (Hx _ Hn). Qed.

Lemma insert_same r :
  is_outcome (list_to_map r) = false → preserves outcomes_same (tx_insert MIGRATIONS "agent_requests" r).
Proof.
  intros Hr w n w' (_ & _ & _ & ->)%tx_insert_Ok. unfold outcomes_same, outcomes.
  rewrite rows_insert, List.filter_app. cbn [List.filter]. by rewrite Hr, app_nil_r.
Qed.

Lemma update_same cols where_ set :
  (∀ r, where_ r = true → is_outcome r = false ∧ is_outcome (set r) = false) →
  preserves outcomes_same (tx_update MIGRATIONS "agent_requests" cols where_ set).
Proof.
  intros Hs w n w' (_ & _ & _ & ->)%tx_update_Ok. unfold outcomes_same, outcomes. rewrite rows_insert.
  induction (rows (w_db w) "agent_requests") as [|r l IH]; [done|]. cbn [map List.filter].
  destruct (where_ r) eqn:Hw; [|by rewrite IH]. destruct (Hs r Hw) as [-> ->]. exact IH.
Qed.

Lemma insert_other table r :
  table ≠ "agent_requests" → preserves (outcomes_same) (tx_insert MIGRATIONS table r).
Proof. intros Hne. apply (same_of_touches [table]); [set_solver|]. apply tx_insert_touches. left. Qed.

Lemma update_other table kc key expected asg :
  ascii_lower table ≠ "agent_requests" →
  preserves outcomes_same (update_revisioned_by MIGRATIONS table kc key expected asg).
Proof.
  intros Hne. apply (same_of_touches [ascii_lower table]); [set_solver|]. apply update_revisioned_by_touches. left.
Qed.

(** Rows of other requests, and of requests that have not succeeded. *)
Lemma other_request a' q' r :
  (a', q') ≠ (a, q) → request_where a' q' r = true → is_outcome r = false.
Proof.
  intros Hne [H1%col_is_text H2%col_is_text]%andb_true_iff. apply not_true_iff_false.
  intros [[G1%col_is_text G2%col_is_text]%andb_true_iff _]%andb_true_iff. apply Hne. congruence.
Qed.

Lemma not_succeeded r : column r "state" ≠ SText "SUCCEEDED" → is_outcome r = false.
Proof. intros Hne. apply not_true_iff_false. by intros [_ Hs%col_is_text]%andb_true_iff. Qed.

Lemma succeed_request_where now ref r : request_where a q (succeed_request now ref r) = request_where a q r.
Proof. unfold request_where, col_is, succeed_request. by rewrite !column_insert_ne by done. Qed.
End Outcomes.

#[local] Hint Extern 1 (preserves (outcomes_same _ _) (append_internal_event _ _ _)) =>
  eapply same_of_touches; [|apply append_internal_event_touches]; elem : preserves.

Section OutcomeSteps.
Context `{Sha256}.
Variables a q : string.

(** An operation that may record that this request succeeded. *)
Definition settles (o : Operation) : bool :=
  match o with
  | OpCompleteRequest c q' _ => bool_decide ((cred_attempt_id c, q') = (a, q))
  | OpSubmit s => bool_decide ((cred_attempt_id (sub_credential s), sub_request_id s) = (a, q))
  | _ => false
  end.

Lemma fail_same amb c q' code : preserves (outcomes_same a q) (fail_agent_request MIGRATIONS amb c q' code).
Proof.
  unfold fail_agent_request, authenticate_agent_session, judge_session. solve_preserves.
  apply update_same. intros r [_ Hs%col_is_text]%andb_true_iff. split; apply not_succeeded; [congruence|].
  unfold refuse_request. by rewrite column_insert.
Qed.

Lemma open_same amb c o q' h : preserves (outcomes_same a q) (open_agent_request MIGRATIONS amb c o q' h).
Proof.
  unfold open_agent_request, authenticate_agent_session, judge_session, lookup_request. solve_preserves.
  apply insert_same, not_succeeded. unfold request_row. by rewrite !column_cons.
Qed.

Lemma complete_same amb c q' ref :
  (cred_attempt_id c, q') ≠ (a, q) → preserves (outcomes_same a q) (complete_agent_request MIGRATIONS amb c q' ref).
Proof.
  intros Hne. unfold complete_agent_request, authenticate_agent_session, judge_session. solve_preserves.
  apply update_same. intros r [Hw _]%andb_true_iff. split; eapply other_request; try done.
  by rewrite succeed_request_where.
Qed.

Lemma record_outcome_same now s prior :
  (cred_attempt_id (sub_credential s), sub_request_id s) ≠ (a, q) →
  preserves (outcomes_same a q) (record_outcome MIGRATIONS now s prior).
Proof.
  intros Hne. unfold record_outcome. solve_preserves.
  - apply update_same. intros r Hw. split; eapply other_request; try done. by rewrite succeed_request_where.
  - apply insert_same. eapply other_request; [done|]. unfold request_where, request_row.
    by rewrite andb_true_iff, !col_is_text, !column_cons.
Qed.

Lemma submit_same amb s :
  (cred_attempt_id (sub_credential s), sub_request_id s) ≠ (a, q) →
  preserves (outcomes_same a q) (apply_candidate_submission MIGRATIONS amb s).
Proof.
  intros Hne. unfold apply_candidate_submission, submit_fresh, submission_authority, commit_submission, create_candidate,
    load_committed_outcome, attempt_run, responsible_run, submittable_task, stored_spec, check_output, declared_slot,
    ensure_artifact_complete, authenticate_agent_session, judge_session, lookup_request, query_blob_key.
  solve_preserves;
    first [ by apply record_outcome_same | by apply insert_other | by apply update_other ].
Qed.

Lemma body_same amb o : settles o = false → preserves (outcomes_same a q) (body amb o).
Proof.
  intros Ho. destruct (bool_decide ("agent_requests" ∈ footprint o)) eqn:E.
  - destruct o; try (vm_compute in E; discriminate E); cbn [settles] in Ho; cbn [body]; unfold drop_result;
      try apply bool_decide_eq_false in Ho.
    + apply preserves_bind; [apply _|apply open_same|]. intros. apply preserves_ret, _.
    + by apply complete_same.
    + apply fail_same.
    + apply preserves_bind; [apply _|by apply submit_same|]. intros. apply preserves_ret, _.
  - apply bool_decide_eq_false in E. eapply same_of_touches; [exact E|apply body_footprint].
Qed.

Lemma serve_same r conn :
  settles (rq_operation r) = false → outcomes_same a q (conn_db conn) (conn_db (serve r conn).2).
Proof.
  intros Ho. apply serve_preserves; [apply _|by apply body_same|]. intros v.
  eapply same_of_touches; [|apply journal_tail_touches]. elem.
Qed.

(** *** A recorded success stays *)

Definition outcomes_kept (db db' : Database) : Prop :=
  advance db db' ∧ (valid MIGRATIONS db → ∀ r, r ∈ outcomes a q db → r ∈ outcomes a q db').

#[export] Instance outcomes_kept_preorder : PreOrder outcomes_kept.
Proof.
  split; [by intros db; split|]. intros d1 d2 d3 [A1 K1] [A2 K2]. split; [by etrans|].
  intros Hv r Hr. apply K2; [by apply A1|by apply K1].
Qed.

Lemma outcome_unique db r :
  valid MIGRATIONS db → r ∈ outcomes a q db → List.filter (request_where a q) (rows db "agent_requests") = [r].
Proof. intros Hv (Hr & Hw & _)%elem_of_outcomes. by apply request_unique. Qed.

Lemma submit_recorded amb s w out w' r :
  valid MIGRATIONS (w_db w) → r ∈ outcomes a q (w_db w) →
  (cred_attempt_id (sub_credential s), sub_request_id s) = (a, q) →
  apply_candidate_submission MIGRATIONS amb s w = (Ok out, w') → w' = w.
Proof.
  intros Hv Hr [= Ha Hq] Hx. pose proof (outcome_unique _ _ Hv Hr) as Hu. apply elem_of_outcomes in Hr as (_ & _ & Hs).
  unfold apply_candidate_submission in Hx. rewrite Ha, Hq in Hx. tx_step Hx as Ea. apply authenticate_unchanged in Ea as ->.
  tx_step Hx as El. apply lookup_request_Ok in El as [-> Hl]. rewrite Hu in Hl.
  destruct Hl as (h & st & ref & code & state & _ & Hst & _ & _ & Hstate & ->).
  rewrite Hs in Hst. injection Hst as <-. cbn in Hstate. destruct ref as [ref|]; [|done]. injection Hstate as <-.
  tx_step Hx as Eg. tx_step Hx as Ed. tx_step Hx as Ec. apply tx_ret_Ok in Hx as [_ ->].
  by apply load_committed_unchanged in Ec.
Qed.

Lemma complete_kept amb c ref w u w' r :
  complete_agent_request MIGRATIONS amb c q ref w = (Ok u, w') → cred_attempt_id c = a →
  r ∈ outcomes a q (w_db w) → r ∈ outcomes a q (w_db w').
Proof.
  intros Hx Ha Hr. unfold complete_agent_request in Hx. tx_step Hx as Eauth. apply authenticate_unchanged in Eauth as ->.
  tx_step Hx as En. tx_step Hx as Eu. apply tx_update_Ok in Eu as (_ & _ & _ & Hdb).
  assert (w_db w' = w_db w0) as ->.
  { destruct (Nat.ltb 0 a1); [by apply tx_ret_Ok in Hx as [_ ->]|]. tx_step Hx as Eq.
    apply query_optional_Ok in Eq as [-> _]. destruct a2; [by apply guard_passed in Hx as [_ ->]|done]. }
  apply elem_of_outcomes in Hr as (Hr & Hw & Hs). apply elem_of_outcomes. split; [|done].
  rewrite Hdb, rows_insert. apply list_elem_of_In, in_map_iff. exists r. split; [|by apply list_elem_of_In].
  unfold started_where. rewrite Ha, Hw. cbn [andb]. destruct (col_is _ _ _) eqn:E; [|done].
  apply col_is_text in E. congruence.
Qed.

Lemma body_kept amb o : preserves outcomes_kept (body amb o).
Proof.
  intros w u w' Hx. split; [by apply body_advance in Hx|]. intros Hv r Hr. destruct (settles o) eqn:Ho.
  - destruct o; try discriminate Ho; cbn [settles] in Ho; apply bool_decide_eq_true in Ho; cbn [body] in Hx.
    + injection Ho as Ha Hq. rewrite Hq in Hx. by eapply complete_kept.
    + unfold drop_result in Hx. tx_step Hx as Es. apply tx_ret_Ok in Hx as [_ ->].
      by eapply submit_recorded in Es as ->.
  - by rewrite (body_same amb o Ho _ _ _ Hx).
Qed.

Lemma serve_kept r conn : outcomes_kept (conn_db conn) (conn_db (serve r conn).2).
Proof.
  apply serve_preserves; [apply _|apply body_kept|]. intros v w x w' Hx. split; [by apply journal_tail_advance in Hx|].
  intros _ s. unfold outcomes. rewrite (journal_tail_touches _ _ _ _ _ _ _ Hx "agent_requests"); [done|]. elem.
Qed.
End OutcomeSteps.

(** ** What a controller leaves of the stored data *)

Definition seal_keeps (Q : relation Database) {E A} (m : Seal E A) : Prop :=
  ∀ s, Q (wo_db (sl_world s)) (wo_db (sl_world (m s).2)).

Create HintDb seal_keeps.

Section SealKeeps.
Context (Q : relation Database) `{!PreOrder Q}.

Lemma seal_keeps_ret {E A} (a : A) : seal_keeps Q (seal_ret (E:=E) a).
Proof. by intros s. Qed.

Lemma seal_keeps_err {E A} (e : E) : seal_keeps Q (seal_err (A:=A) e).
Proof. by intros s. Qed.

Lemma seal_keeps_try {E A} (r : Result A E) : seal_keeps Q (seal_try r).
Proof. by intros s. Qed.

Lemma seal_keeps_some {E A} (o : option A) (e : E) : seal_keeps Q (seal_some o e).
Proof. apply seal_keeps_try. Qed.

Lemma seal_keeps_call {E A} (f : nat → Result A E) : seal_keeps Q (seal_call f).
Proof. by intros s. Qed.

Lemma seal_keeps_event {E} e : seal_keeps Q (seal_event (E:=E) e).
Proof. by intros s. Qed.

Lemma seal_keeps_bind {E A B} (m : Seal E A) (k : A → Seal E B) :
  seal_keeps Q m → (∀ a, seal_keeps Q (k a)) → seal_keeps Q (seal_bind m k).
Proof.
  intros Hm Hk s. unfold seal_bind. specialize (Hm s). destruct (m s) as [[a|e] s1]; [|done]. cbn in Hm.
  etrans; [done|apply Hk].
Qed.

Lemma seal_keeps_map_err {E F A} (f : E → F) (m : Seal E A) : seal_keeps Q m → seal_keeps Q (seal_map_err f m).
Proof. intros Hm s. specialize (Hm s). unfold seal_map_err. by destruct (m s) as [[a|e] s1]. Qed.

Lemma seal_keeps_attempt {E F A} (m : Seal E A) : seal_keeps Q m → seal_keeps Q (seal_attempt (F:=F) m).
Proof. intros Hm s. specialize (Hm s). unfold seal_attempt. by destruct (m s) as [r s1]. Qed.

Lemma seal_keeps_outcome {E A} (m : Eng StoreError A) :
  keeps (on_db Q) m → seal_keeps Q (seal_outcome (E:=E) m).
Proof. intros Hm s. specialize (Hm (sl_world s)). unfold seal_outcome. by destruct (m (sl_world s)) as [r w]. Qed.

Lemma seal_keeps_store {A} (m : Eng StoreError A) : keeps (on_db Q) m → seal_keeps Q (seal_store m).
Proof. intros Hm. apply seal_keeps_bind; [by apply seal_keeps_outcome|]. intros; apply seal_keeps_try. Qed.

Lemma seal_keeps_acs_store {A} (m : Eng StoreError A) : keeps (on_db Q) m → seal_keeps Q (acs_store m).
Proof. intros Hm. apply seal_keeps_bind; [by apply seal_keeps_outcome|]. intros; apply seal_keeps_try. Qed.
End SealKeeps.

#[export] Hint Resolve seal_keeps_ret seal_keeps_err seal_keeps_try seal_keeps_some seal_keeps_call
  seal_keeps_event : seal_keeps.

(** Walks through the binds and branches of a controller. *)
Ltac solve_seal_keeps :=
  repeat first
    [ progress cbn beta zeta
    | match goal with
      | |- seal_keeps _ (seal_bind _ _) => apply seal_keeps_bind; [ apply _ | | intros ? ]
      | |- seal_keeps _ (seal_map_err _ _) => apply seal_keeps_map_err
      | |- seal_keeps _ (seal_attempt _) => apply seal_keeps_attempt
      | |- seal_keeps _ (seal_store _) => apply seal_keeps_store; [ apply _ | ]
      | |- seal_keeps _ (acs_store _) => apply seal_keeps_acs_store; [ apply _ | ]
      end
    | match goal with |- seal_keeps _ (match ?x with _ => _ end) => destruct x end
    | solve [eauto with seal_keeps typeclass_instances] ].

(** *** The sealing path leaves a request's outcome alone *)

Section SealPath.
Context `{Sha256}.
Variables a q : string.
Variable slots : nat → Slot.
Variable capture : WorkspaceTreeCapture.
Variable base : TrustedBaseReader.
Variable objects : ContentObjectStore.
Variable workspace_root : string.
Variable random_id : nat → string.

Definition undecided (db db' : Database) : Prop := advance db db' ∧ outcomes_same a q db db'.

#[export] Instance undecided_preorder : PreOrder undecided.
Proof. split; [by intros db|]. intros x y z [A1 S1] [A2 S2]. split; by etrans. Qed.

(** Nobody else records that the request succeeded. *)
Hypothesis others : ∀ i r, r ∈ slot_before (slots i) → settles a q (rq_operation r) = false.

Lemma serve_undecided r conn :
  settles a q (rq_operation r) = false → undecided (conn_db conn) (conn_db (serve r conn).2).
Proof. split; [apply serve_advance|by apply serve_same]. Qed.

Lemma read_undecided {A} (f : Ambient → Database → Result A StoreError) : keeps (on_db undecided) (eng_read slots f).
Proof. apply eng_read_on_db; [apply _|]. intros i r conn Hr. by eapply serve_undecided, others. Qed.

Lemma command_undecided {A} c (m : Ambient → Tx A) o :
  plain_write o = false → settles a q o = false → (∀ amb, body amb o = drop_result (m amb)) →
  keeps (on_db undecided) (eng_command slots c m).
Proof.
  intros Hp Ho Hb. eapply (eng_command_on_db _ _ ltac:(intros; by eapply serve_undecided, others) _ _ o Hp Hb).
  intros r conn _ <-. by apply serve_undecided.
Qed.

#[local] Hint Resolve read_undecided : seal_keeps.

Lemma seal_read_undecided {A} (f : Database → Result A StoreError) : seal_keeps undecided (seal_read slots f).
Proof. unfold seal_read. solve_seal_keeps. Qed.

#[local] Hint Resolve seal_read_undecided : seal_keeps.

Lemma publish_undecided bytes : seal_keeps undecided (publish objects bytes).
Proof. unfold publish. solve_seal_keeps. Qed.

#[local] Hint Resolve publish_undecided : seal_keeps.

Lemma flush_undecided source cs : seal_keeps undecided (flush_identity_batch base source cs).
Proof. unfold flush_identity_batch. solve_seal_keeps. Qed.

#[local] Hint Resolve flush_undecided : seal_keeps.

Lemma capture_entry_undecided source tree scope cs e :
  seal_keeps undecided (capture_entry base objects source tree scope cs e).
Proof. unfold capture_entry. solve_seal_keeps. Qed.

Lemma capture_entries_undecided source tree scope l : ∀ cs,
  seal_keeps undecided (capture_entries base objects source tree scope cs l).
Proof.
  induction l as [|e l IH]; intros cs; cbn [capture_entries]; [apply seal_keeps_ret, _|].
  apply seal_keeps_bind; [apply _|apply capture_entry_undecided|]. intros. apply IH.
Qed.

Lemma before_state_undecided source o : seal_keeps undecided (before_state base objects source o).
Proof. unfold before_state. solve_seal_keeps. Qed.

#[local] Hint Resolve capture_entries_undecided before_state_undecided : seal_keeps.

Lemma diff_captured_undecided source tree cs l : seal_keeps undecided (diff_captured base objects source tree cs l).
Proof.
  induction l as [|[key [[kind d] n]] l IH]; cbn [diff_captured]; [apply seal_keeps_ret, _|].
  unfold path_of_bytes, new_entry. solve_seal_keeps.
Qed.

Lemma diff_deleted_undecided source scope cs l : seal_keeps undecided (diff_deleted base objects source scope cs l).
Proof.
  induction l as [|[key o] l IH]; cbn [diff_deleted]; [apply seal_keeps_ret, _|].
  unfold path_of_bytes, new_entry. solve_seal_keeps.
Qed.

Lemma final_entries_undecided l : seal_keeps undecided (final_entries l).
Proof.
  induction l as [|[key [[kind d] n]] l IH]; cbn [final_entries]; [apply seal_keeps_ret, _|].
  unfold path_of_bytes. solve_seal_keeps.
Qed.

#[local] Hint Resolve diff_captured_undecided diff_deleted_undecided final_entries_undecided : seal_keeps.

Lemma commit_seal_undecided c id sealed : seal_keeps undecided (commit_seal slots random_id c id sealed).
Proof.
  unfold commit_seal. apply seal_keeps_bind; [apply _|apply seal_keeps_event, _|]. intros _ s.
  apply seal_keeps_store; [apply _|]. by eapply (command_undecided _ _ (OpCommitSeal _ sealed)).
Qed.

#[local] Hint Resolve commit_seal_undecided : seal_keeps.

Lemma capture_and_seal_undecided c request workspace fence scope :
  seal_keeps undecided (capture_and_seal slots capture base objects workspace_root random_id c request workspace fence scope).
Proof. unfold capture_and_seal, capture_all, seal_captured, diff. solve_seal_keeps. Qed.

Lemma quiesce_undecided c request workspace : seal_keeps undecided (quiesce slots c request workspace).
Proof.
  unfold quiesce, frozen_revision. solve_seal_keeps.
  - eapply command_undecided with (o := OpFreeze _ _ _ _ _); [done..|]. intros amb. cbn [body]. reflexivity.
  - eapply command_undecided with (o := OpValidateSeal _ _ _ _ _); [done..|]. intros amb. cbn [body]. reflexivity.
Qed.

#[local] Hint Resolve capture_and_seal_undecided quiesce_undecided : seal_keeps.

Lemma seal_undecided c request :
  seal_keeps undecided (seal slots capture base objects workspace_root random_id c request).
Proof.
  unfold seal, load_spec. solve_seal_keeps. eapply command_undecided with (o := OpCaptureFailure _ _); [done..|]. intros amb. cbn [body]. reflexivity.
Qed.

Lemma drive_seal_undecided c h request_id slot :
  seal_keeps undecided (drive_seal slots capture base objects workspace_root random_id c h request_id slot).
Proof. pose proof seal_undecided. unfold drive_seal, describe, acs_read. solve_seal_keeps. Qed.
End SealPath.

(** ** The ledger of one request *)

Section Ledger.
Context `{Sha256}.
Variables a q : string.

Definition opened (h : string) (db : Database) : Prop :=
  ∃ r, r ∈ rows db "agent_requests" ∧ request_where a q r = true ∧ column r "request_hash" = SBlob h.

(** The request with this hash succeeded with this result. *)
Definition recorded (h ref : string) (db : Database) : Prop :=
  ∃ r, r ∈ outcomes a q db ∧ column r "request_hash" = SBlob h ∧ column r "result_ref" = SText ref.

Lemma opened_advance h db db' : advance db db' → valid MIGRATIONS db → opened h db → opened h db'.
Proof.
  intros Ha Hv (r & Hr & Hw & Hh). destruct (Ha Hv) as [He _ _ _].
  eapply frozen_row in Hr as (s & Hs & Hf); [|done|reflexivity]. exists s. unfold request_where, col_is in *.
  by rewrite !Hf by elem.
Qed.

Lemma open_Ok amb c op h w o w' :
  cred_attempt_id c = a → open_agent_request MIGRATIONS amb c op q h w = (Ok o, w') → valid MIGRATIONS (w_db w) →
  opened h (w_db w') ∧ match o with
                       | RequestStarted | RequestReconciled Started => outcomes a q (w_db w') = []
                       | _ => True
                       end.
Proof.
  intros Ha Hx Hv. pose proof (open_same a q _ _ _ _ _ _ _ _ Hx) as Hsame. unfold outcomes_same in Hsame.
  unfold open_agent_request in Hx. rewrite Ha in Hx. tx_step Hx as Ea. apply authenticate_unchanged in Ea as ->.
  tx_step Hx as El. apply lookup_request_Ok in El as [-> Hl].
  destruct (List.filter (request_where a q) (rows (w_db w) "agent_requests")) as [|r rest] eqn:Ef.
  - subst a1. tx_step Hx as En. tx_step Hx as Ei. apply tx_ret_Ok in Hx as [-> ->].
    apply tx_insert_Ok in Ei as (_ & _ & _ & Hdb). split.
    + eexists. rewrite Hdb, rows_insert. split; [apply elem_of_app; right; left|]. unfold request_where, request_row.
      by rewrite andb_true_iff, !col_is_text, !column_cons.
    + rewrite Hsame. destruct (outcomes a q (w_db w)) as [|s l] eqn:Eo; [done|]. exfalso.
      assert (s ∈ outcomes a q (w_db w)) as Hs by (rewrite Eo; left).
      pose proof (outcome_unique _ _ _ _ Hv Hs) as Hu. congruence.
  - destruct Hl as (h' & st & ref & code & state & Hh & Hst & Href & Hcode & Hstate & ->). tx_step Hx as Eg.
    apply tx_ret_Ok in Hx as [-> ->]. apply String.eqb_eq in Eg as ->.
    assert (r ∈ r :: rest) as Hin by left. rewrite <-Ef in Hin.
    apply list_elem_of_In, filter_In in Hin as [Hin%list_elem_of_In Hw]. split; [by exists r|]. destruct state; [|done..].
    destruct (outcomes a q (w_db w)) as [|s l] eqn:Eo; [done|]. exfalso.
    assert (s ∈ outcomes a q (w_db w)) as Hs by (rewrite Eo; left).
    pose proof (outcome_unique _ _ _ _ Hv Hs) as Hu. rewrite Ef in Hu. injection Hu as -> _.
    apply elem_of_outcomes in Hs as (_ & _ & Hs). rewrite Hs in Hst. injection Hst as <-. cbn in Hstate.
    by destruct ref.
Qed.

Lemma complete_Ok amb c h ref w u w' :
  cred_attempt_id c = a → complete_agent_request MIGRATIONS amb c q ref w = (Ok u, w') → valid MIGRATIONS (w_db w) →
  opened h (w_db w) → outcomes a q (w_db w) = [] → recorded h ref (w_db w').
Proof.
  intros Ha Hx Hv (r & Hr & Hw & Hh) Hnone. pose proof (request_unique _ _ _ _ Hv Hr Hw) as Hu.
  unfold complete_agent_request in Hx. rewrite Ha in Hx. tx_step Hx as Ea. apply authenticate_unchanged in Ea as ->.
  tx_step Hx as En. tx_step Hx as Eu. apply tx_update_Ok in Eu as (-> & _ & _ & Hdb).
  destruct (Nat.ltb 0 _) eqn:El.
  - apply tx_ret_Ok in Hx as [-> ->]. apply Nat.ltb_lt in El.
    destruct (List.filter (started_where a q) _) as [|s l] eqn:Es; [cbn in El; lia|].
    assert (s ∈ s :: l) as Hs by left. rewrite <-Es in Hs.
    apply list_elem_of_In, filter_In in Hs as [Hs%list_elem_of_In Hstart]. pose proof Hstart as [Hsw _]%andb_true_iff.
    assert (s = r) as ->.
    { assert (s ∈ List.filter (request_where a q) (rows (w_db w) "agent_requests")) as Hin
        by (apply list_elem_of_In, filter_In; by rewrite <-list_elem_of_In).
      rewrite Hu in Hin. by apply list_elem_of_singleton in Hin. }
    exists (succeed_request (amb_now amb) ref r). rewrite elem_of_outcomes, succeed_request_where, Hdb, rows_insert.
    split; [split_and!; [|done|by unfold succeed_request; rewrite column_insert]|].
    + apply list_elem_of_In, in_map_iff. exists r. rewrite Hstart. split; [done|by apply list_elem_of_In].
    + unfold succeed_request. split; [by rewrite !column_insert_ne|by rewrite column_insert_ne, column_insert].
  - tx_step Hx as Eq. apply query_optional_Ok in Eq as [-> Hq]. apply Nat.ltb_ge in El.
    assert (rows (w_db w0) "agent_requests" = rows (w_db w) "agent_requests") as Hrows.
    { rewrite Hdb, rows_insert. clear Hr Hu Hdb Hq. induction (rows (w_db w) "agent_requests") as [|x l IH]; [done|].
      cbn [List.filter map] in *. destruct (started_where a q x); [cbn in El; lia|]. by rewrite IH. }
    rewrite Hrows, Hu in Hq. destruct Hq as (state & Hst%get_text_Ok & ->).
    apply guard_passed in Hx as [->%String.eqb_eq _]. exfalso.
    assert (r ∈ outcomes a q (w_db w)) as Hin by by apply elem_of_outcomes. rewrite Hnone in Hin.
    by apply not_elem_of_nil in Hin.
Qed.

(** A recorded request is looked up. *)
Lemma lookup_recorded h ref w :
  valid MIGRATIONS (w_db w) → recorded h ref (w_db w) →
  lookup_request MIGRATIONS a q w = (Ok (Some (h, Succeeded ref)), w).
Proof.
  intros Hv (r & Hr & Hh & Href). pose proof (outcome_unique _ _ _ _ Hv Hr) as Hf.
  apply elem_of_outcomes in Hr as (Hr & _ & Hs). unfold lookup_request.
  destruct (optional_text_typed _ "agent_requests" "problem_code" r Hv eq_refl Hr) as [code Hc].
  erewrite tx_bind_eval; [|eapply query_optional_eval; [reflexivity|reflexivity|exact Hf|]].
  2: { unfold get_blob, get_text, get_optional_text at 1. rewrite Hh, Hs, Href. cbn. rewrite Hc. reflexivity. }
  done.
Qed.

Lemma open_recorded amb c op h ref h' w r w' :
  cred_attempt_id c = a → valid MIGRATIONS (w_db w) → recorded h ref (w_db w) →
  open_agent_request MIGRATIONS amb c op q h' w = (r, w') →
  (∀ o, r = Ok o → w' = w ∧ h' = h ∧ o = RequestReconciled (Succeeded ref)) ∧
  (authentic (w_db w) c → h' = h → r = Ok (RequestReconciled (Succeeded ref)) ∧ w' = w).
Proof.
  intros Ha Hv Hrec Hx. unfold open_agent_request in Hx. rewrite Ha in Hx. split.
  - intros o ->. tx_step Hx as Ea. apply authenticate_unchanged in Ea as ->.
    rewrite (tx_bind_eval _ _ _ _ _ (lookup_recorded _ _ _ Hv Hrec)) in Hx. tx_step Hx as Eg.
    apply String.eqb_eq in Eg. by apply tx_ret_Ok in Hx as [-> ->].
  - intros Hauth ->. rewrite (tx_bind_eval _ _ _ _ _ (authenticate_eval _ _ Hauth)) in Hx.
    rewrite (tx_bind_eval _ _ _ _ _ (lookup_recorded _ _ _ Hv Hrec)) in Hx. unfold guard in Hx.
    rewrite String.eqb_refl, (tx_bind_eval (tx_ret tt) _ w tt w eq_refl) in Hx. by injection Hx as <- <-.
Qed.

Lemma recorded_kept h ref db db' : outcomes_kept a q db db' → valid MIGRATIONS db → recorded h ref db → recorded h ref db'.
Proof. intros [_ Hk] Hv (r & Hr & Hh & Href). exists r. split; [by apply Hk|done]. Qed.
End Ledger.

(** ** Requests end to end *)

Section Gateway.
Context `{Sha256}.

(** What a controller that returns has returned. *)
Definition seal_returns {E A} (P : A → Prop) (m : Seal E A) : Prop := ∀ s a s', m s = (Ok a, s') → P a.

Lemma seal_returns_bind {E A B} P (m : Seal E A) (k : A → Seal E B) :
  (∀ a, seal_returns P (k a)) → seal_returns P (seal_bind m k).
Proof. intros Hk s b s'. unfold seal_bind. destruct (m s) as [[a|e] s1]; [apply Hk|done]. Qed.

Lemma seal_returns_attempt {E F A B} P (m : Seal E A) (k : Result A E → Seal F B) :
  (∀ s a s', m s = (Ok a, s') → seal_returns P (k (Ok a))) → (∀ e, seal_returns P (k (Err e))) →
  seal_returns P (seal_bind (seal_attempt m) k).
Proof.
  intros Hok Herr s b s'. unfold seal_bind, seal_attempt. destruct (m s) as [[a|e] s1] eqn:Em; [by eapply Hok|apply Herr].
Qed.

Lemma sealed_digest slots capture base objects root random c request :
  seal_returns (fun a => wf_digest (sa_artifact_digest a) = true)
    (seal slots capture base objects root random c request).
Proof.
  unfold seal. do 7 (apply seal_returns_bind; intros ?). destruct (scope_is_empty _); [done|].
  apply seal_returns_attempt.
  2: { intros e. do 2 (apply seal_returns_bind; intros ?). done. }
  intros s x s' Hx. cut (wf_digest (sa_artifact_digest x) = true); [by intros Hd s0 b s1 [= <- _]|].
  revert s x s' Hx. unfold capture_and_seal. do 2 (apply seal_returns_bind; intros ?).
  unfold seal_captured. do 3 (apply seal_returns_bind; intros ?). cbn zeta. do 3 (apply seal_returns_bind; intros ?).
  intros s x s' [= <- _]. apply digest_of_wf.
Qed.

(** A write of the gateway. *)
Lemma acs_write_inv slots {A} (m : Ambient → Tx A) s r s' :
  acs_write slots m s = (r, s') →
  ∃ r0, eng_write slots m (sl_world s) = (r0, sl_world s') ∧ r = map_err AcStore r0 ∧
    sl_calls s' = sl_calls s ∧ sl_trace s' = sl_trace s.
Proof.
  unfold acs_write, acs_store, seal_outcome, seal_try, seal_bind. destruct (eng_write slots m (sl_world s)) as [r0 w].
  intros [= <- <-]. by exists r0.
Qed.

Lemma acs_write_Ok slots {A} (m : Ambient → Tx A) s x s' :
  acs_write slots m s = (Ok x, s') →
  ∃ amb t, m amb {| w_db := wo_db (interfere slots (sl_world s)).2; w_failed := false |} = (Ok x, t) ∧
    wo_db (sl_world s') = w_db t.
Proof.
  intros (r0 & Hx & Hr & _)%acs_write_inv. destruct r0 as [y|e]; [|done]. injection Hr as ->.
  by apply eng_write_inv in Hx.
Qed.

Lemma interfere_undecided a q slots w :
  (∀ i r, r ∈ slot_before (slots i) → settles a q (rq_operation r) = false) →
  undecided a q (wo_db w) (wo_db (interfere slots w).2).
Proof. intros Ho. apply interfere_on_db; [apply _|]. intros i r conn Hr. by eapply serve_undecided, Ho. Qed.

Lemma driven_digest slots capture base objects root random c h request_id slot :
  seal_returns (fun a => wf_digest (sa_artifact_digest a) = true)
    (drive_seal slots capture base objects root random c h request_id slot).
Proof.
  unfold drive_seal. do 4 (apply seal_returns_bind; intros ?). intros s x s'. unfold seal_map_err.
  destruct (seal _ _ _ _ _ _ _ _ s) as [[y|e] s1] eqn:E; [|done]. intros [= <- _]. by eapply sealed_digest.
Qed.

(** An executed request is recorded with the digest it answers. *)
Lemma executed_recorded slots capture base objects root random c request_id slot s x s1 :
  (∀ i r, r ∈ slot_before (slots i) → settles (wc_attempt_id c) request_id (rq_operation r) = false) →
  valid MIGRATIONS (wo_db (sl_world s)) →
  seal_artifact slots capture base objects root random c request_id slot s = (Ok (SealExecuted x), s1) →
  valid MIGRATIONS (wo_db (sl_world s1)) ∧ wf_digest (sa_artifact_digest x) = true ∧
  recorded (wc_attempt_id c) request_id (seal_request_hash c request_id slot) (to_display (sa_artifact_digest x))
    (wo_db (sl_world s1)).
Proof.
  intros Ho Hv. set (a := wc_attempt_id c). set (h := seal_request_hash c request_id slot).
  unfold seal_artifact. fold h. unfold seal_bind at 1.
  destruct (acs_write slots _ s) as [[o|e] s2] eqn:Eopen; [|done].
  apply acs_write_Ok in Eopen as (amb & t & Hopen & Hdb2).
  destruct (interfere_undecided a request_id slots (sl_world s) Ho) as [Hadv _]. destruct (Hadv Hv) as [_ Hv1 _ _].
  set (w1 := {| w_db := _; w_failed := _ |}) in Hopen.
  destruct (open_Ok a request_id amb (store_view c) _ h w1 o t eq_refl Hopen Hv1) as [Hop Hnone].
  destruct (open_request_advance _ _ _ _ _ _ _ _ Hopen Hv1) as [_ Hv2 _ _]. rewrite <-Hdb2 in Hop, Hnone, Hv2.
  clear Hopen. intros Hx.
  assert (outcomes a request_id (wo_db (sl_world s2)) = [] ∧ ∃ s3,
    drive_seal slots capture base objects root random c h request_id slot s2 = (Ok x, s3) ∧
    ∃ u, acs_write slots (fun amb => complete_agent_request MIGRATIONS amb (store_view c) request_id
                        (to_display (sa_artifact_digest x))) s3 = (Ok u, s1)) as (Hn & s3 & Hdrive & u & Hcomplete).
  { destruct o as [|[|ref|code]]; [| |unfold seal_bind, seal_try in Hx; by destruct (parse_recorded_digest ref)|done];
      (split; [exact Hnone|]); revert Hx; unfold seal_bind at 1, seal_attempt at 1;
      destruct (drive_seal _ _ _ _ _ _ _ _ _ _ s2) as [[y|e] s3]; unfold seal_bind;
      (try by destruct (seal_outcome _ s3) as [[]]);
      (destruct (acs_write _ _ s3) as [[u|e] s4] eqn:Ec; [|done]); intros [= <- <-]; eauto. }
  clear Hx. assert (wf_digest (sa_artifact_digest x) = true) as Hwf by by eapply driven_digest.
  pose proof (drive_seal_undecided a request_id slots capture base objects root random Ho c h request_id slot s2) as [Ha3 Hs3].
  rewrite Hdrive in Ha3, Hs3. cbn [snd] in Ha3, Hs3.
  apply acs_write_Ok in Hcomplete as (amb3 & t3 & Hcomplete & Hdb4).
  destruct (interfere_undecided a request_id slots (sl_world s3) Ho) as [Ha4 Hs4].
  assert (advance (wo_db (sl_world s2)) (wo_db (interfere slots (sl_world s3)).2)) as Ha by by etrans.
  destruct (Ha Hv2) as [_ Hv4 _ _]. set (w4 := {| w_db := _; w_failed := _ |}) in Hcomplete.
  destruct (complete_request_advance _ _ _ _ _ _ _ Hcomplete Hv4) as [_ Hv5 _ _]. rewrite Hdb4.
  split; [done|]. split; [done|]. refine (complete_Ok a request_id _ (store_view c) h _ _ _ _ eq_refl Hcomplete Hv4 _ _).
  - by eapply opened_advance.
  - unfold outcomes_same in Hs3, Hs4. cbn [w_db w4]. by rewrite Hs4, Hs3.
Qed.

(** *** The identity of a request *)

Lemma request_value_wf attempt request slot :
  utf8_valid attempt = true → utf8_valid request = true → utf8_valid slot = true →
  wf_value (request_value "artifact.seal" attempt request [("outputSlot", slot)]) = true.
Proof. intros Ha Hr Hs. unfold request_value. cbn [map app fst snd]. wf_parts. Qed.

(** The canonical text a seal request is hashed over. *)
Definition seal_request_text (c : WorkerCredential) (request_id slot : string) : string :=
  to_canonical_bytes (request_value "artifact.seal" (wc_attempt_id c) request_id [("outputSlot", slot)]).

(** Two requests with one hash ask for one slot, or their texts collide. *)
Lemma request_slot_eq c request_id slot slot' :
  utf8_valid (wc_attempt_id c) = true → utf8_valid request_id = true → utf8_valid slot = true → utf8_valid slot' = true →
  seal_request_hash c request_id slot = seal_request_hash c request_id slot' →
  slot = slot' ∨ clash (seal_request_text c request_id slot) (seal_request_text c request_id slot').
Proof.
  intros Ha Hr Hs Hs' Heq. unfold seal_request_hash, canonical_request_hash in Heq.
  destruct (value_digest_eq (request_value "artifact.seal" (wc_attempt_id c) request_id [("outputSlot", slot)])
    (request_value "artifact.seal" (wc_attempt_id c) request_id [("outputSlot", slot')])) as [E|[Hne E]].
  - by apply request_value_wf.
  - by apply request_value_wf.
  - unfold value_digest. destruct (digest_of _), (digest_of _). cbn in Heq. by subst.
  - left. unfold request_value in E. cbn [map app fst snd] in E. by field_eq E "outputSlot".
  - by right.
Qed.

(** A recorded request, asked again. *)
Lemma recorded_answer slots capture base objects root random c request_id slot h d s r s1 :
  valid MIGRATIONS (wo_db (sl_world s)) → wf_digest d = true →
  recorded (wc_attempt_id c) request_id h (to_display d) (wo_db (sl_world s)) →
  seal_artifact slots capture base objects root random c request_id slot s = (r, s1) →
  let w := (interfere slots (sl_world s)).2 in
  sl_calls s1 = sl_calls s ∧ sl_trace s1 = sl_trace s ∧ wo_db (sl_world s1) = wo_db w ∧
  (∀ x, r = Ok x → x = SealReconciled d ∧ seal_request_hash c request_id slot = h) ∧
  (slot_driver (slots (wo_turn (sl_world s))) = working → conn_autocommit (wo_conn w) = true →
   authentic (wo_db w) (store_view c) → seal_request_hash c request_id slot = h → r = Ok (SealReconciled d)).
Proof.
  intros Hv Hwf Hrec Hx w.
  assert (outcomes_kept (wc_attempt_id c) request_id (wo_db (sl_world s)) (wo_db w)) as Hk.
  { apply interfere_on_db; [apply _|]. intros i q conn _. apply serve_kept. }
  pose proof (recorded_kept _ _ _ _ _ _ Hk Hv Hrec) as Hrec'. destruct Hk as [Hadv _]. destruct (Hadv Hv) as [_ Hv' _ _].
  unfold seal_artifact in Hx. set (h' := seal_request_hash c request_id slot) in *.
  unfold seal_bind at 1 in Hx. destruct (acs_write slots _ s) as [ro s2] eqn:Eo.
  pose proof Eo as (r0 & Hw & Hr0 & Hc & Ht)%acs_write_inv. set (w1 := {| w_db := wo_db w; w_failed := false |}).
  assert (wo_db (sl_world s2) = wo_db w ∧ (∀ o, ro = Ok o → o = RequestReconciled (Succeeded (to_display d)) ∧ h' = h)) as [Hdb Ho].
  { apply eng_write_inv in Hw. fold w in Hw. destruct r0 as [o|e]; [|subst ro; split; [done|by intros]].
    destruct Hw as (amb & t & Hopen & ->).
    destruct (open_recorded (wc_attempt_id c) request_id amb (store_view c) _ h (to_display d) h' w1 _ _ eq_refl Hv' Hrec' Hopen)
      as [Hi _]. destruct (Hi o eq_refl) as (-> & -> & ->). subst ro. split; [done|]. by intros o [= <-]. }
  assert (authentic (wo_db w) (store_view c) → h' = h → slot_driver (slots (wo_turn (sl_world s))) = working →
    conn_autocommit (wo_conn w) = true → ro = Ok (RequestReconciled (Succeeded (to_display d)))) as Hlive.
  { intros Hauth Hh Hd Hac. rewrite Hr0. unfold eng_write in Hw. subst w.
    destruct (interfere slots (sl_world s)) as [sl w2] eqn:Ei. assert (sl = slots (wo_turn (sl_world s))) as Hsl by by injection Ei.
    cbn [snd] in *. rewrite Hsl, Hd in Hw.
    destruct (open_agent_request MIGRATIONS (slot_ambient (slots (wo_turn (sl_world s)))) (store_view c) SealArtifact
      request_id h' w1) as [ro' t] eqn:Hopen.
    destruct (open_recorded (wc_attempt_id c) request_id _ (store_view c) _ h (to_display d) h' w1 _ _ eq_refl Hv' Hrec' Hopen)
      as [_ Hi]. destruct (Hi Hauth Hh) as [-> ->].
    erewrite run_working in Hw; [|exact Hac|exact Hopen|done]. by injection Hw as <- _. }
  destruct ro as [o|e].
  - destruct (Ho o eq_refl) as [-> Hh]. unfold seal_bind, seal_try, parse_recorded_digest in Hx.
    rewrite from_display_to_display in Hx by done. injection Hx as <- <-. split_and!; try done. by intros x [= <-].
  - injection Hx as <- <-. split_and!; try done. intros Hd Hac Hauth Hh. by discriminate (Hlive Hauth Hh Hd Hac).
Qed.

(** *** Submitting *)

Definition submission_of (c : WorkerCredential) (request : SubmitResultRequest) (candidate : CandidateResult) :
    CandidateSubmission := {|
  sub_credential := store_view c; sub_request_id := srr_request_id request;
  sub_request_hash := canonical_request_hash_pairs "task.submit_result"
    [("attempt", wc_attempt_id c); ("request", srr_request_id request)] candidate;
  sub_candidate := candidate; sub_expected_task_revision := srr_expected_task_revision request |}.

(** The order of the outputs is not part of the request. *)
Lemma submission_order task run c request request' candidate :
  srr_request_id request' = srr_request_id request →
  srr_expected_task_revision request' = srr_expected_task_revision request →
  srr_outputs request ≡ₚ srr_outputs request' →
  candidate_new task run (srr_outputs request) = Ok candidate →
  candidate_new task run (srr_outputs request') = Ok candidate ∧
  submission_of c request' candidate = submission_of c request candidate.
Proof.
  intros Hq Hn Hp Hc. split; [by eapply candidate_new_perm|]. unfold submission_of. by rewrite Hq, Hn.
Qed.
End Gateway.

(** A submission that returns built its Candidate from the Task and the Run the store
    holds for the authenticated Attempt, and either reconciles a recorded request,
    changing nothing, or is the Run's first. *)
Theorem submitted_candidate_bound `{Sha256} slots c request s out s' :
  valid MIGRATIONS (wo_db (sl_world s)) →
  submit_result slots c request s = (Ok out, s') →
  ∃ context candidate w1 db outcome,
    agent_submission_context (wo_db (interfere slots (sl_world s)).2) (store_view c) = Ok context ∧
    candidate_new (sctx_task_id context) (sctx_run_id context) (srr_outputs request) = Ok candidate ∧
    db = wo_db (interfere slots w1).2 ∧ advance (wo_db (sl_world s)) db ∧ authentic db (store_view c) ∧
    out = {| sbm_candidate_digest := cc_candidate_digest (so_committed outcome);
             sbm_reconciled := so_reconciled outcome |} ∧
    (so_reconciled outcome = true ∧ wo_db (sl_world s') = db ∨
     first_submission db (wo_db (sl_world s')) (submission_of c request candidate) outcome).
Proof.
  intros Hv. unfold submit_result. unfold seal_bind at 1. unfold acs_read, acs_store, seal_outcome, seal_bind at 1.
  destruct (eng_read slots _ (sl_world s)) as [r0 w1] eqn:Er. unfold seal_try at 1.
  destruct r0 as [context|]; [|done]. cbn [map_err]. unfold seal_bind at 1, seal_try at 1.
  destruct (candidate_new _ _ _) as [candidate|] eqn:Ec; [|done]. cbn [map_err]. fold (submission_of c request candidate).
  unfold seal_bind at 1. set (s1 := {| sl_world := w1; sl_calls := sl_calls s; sl_trace := sl_trace s |}).
  destruct (acs_write slots _ s1) as [[outcome|e] s2] eqn:Ew; [|done]. intros [= <- <-].
  apply acs_write_Ok in Ew as (amb & t & Hsub & Hdb). cbn [sl_world s1] in Hsub.
  assert (wo_db w1 = wo_db (interfere slots (sl_world s)).2 ∧
          agent_submission_context (wo_db (interfere slots (sl_world s)).2) (store_view c) = Ok context) as [Hw1 Hctx].
  { unfold eng_read in Er. destruct (interfere slots (sl_world s)) as [sl w]. destruct (slot_fault sl); [done|].
    by injection Er as Er <-. }
  assert (advance (wo_db (sl_world s)) (wo_db (interfere slots w1).2)) as Ha.
  { etrans; [apply (interfere_advances slots)|]. rewrite <-Hw1. apply (interfere_advances slots). }
  destruct (Ha Hv) as [_ Hv1 _ _]. destruct (submission_Ok amb _ {| w_db := _; w_failed := false |} _ _ Hv1 Hsub) as [Hauth Hcase].
  exists context, candidate, w1, (wo_db (interfere slots w1).2), outcome. split_and!; try done.
  rewrite Hdb. destruct Hcase as [[[Hrec _ _ _] ->]|Hfirst]; [by left|by right].
Qed.

(** C22: A seal request that was executed is answered once and for all. If nobody
    else settled the request while it ran, then whatever requests are served
    afterwards, asking again - even by another process,
    with other ports - calls no port, publishes and commits nothing and changes
    nothing. Such a call either fails or answers that digest, and then it named the
    same slot (unless the texts of the two requests collide under SHA-256); an authentic
    caller of a working store gets that answer. *)
Theorem sealed_request_answered_once `{Sha256} slots capture base objects root random
    slots' capture' base' objects' root' random' c request_id slot slot' s x s1 requests s2 r s3 :
  utf8_valid (wc_attempt_id c) = true → utf8_valid request_id = true → utf8_valid slot = true → utf8_valid slot' = true →
  (∀ i q, q ∈ slot_before (slots i) → settles (wc_attempt_id c) request_id (rq_operation q) = false) →
  valid MIGRATIONS (wo_db (sl_world s)) →
  seal_artifact slots capture base objects root random c request_id slot s = (Ok (SealExecuted x), s1) →
  wo_conn (sl_world s2) = (serve_all requests (wo_conn (sl_world s1))).2 →
  seal_artifact slots' capture' base' objects' root' random' c request_id slot' s2 = (r, s3) →
  let w := (interfere slots' (sl_world s2)).2 in
  sl_calls s3 = sl_calls s2 ∧ sl_trace s3 = sl_trace s2 ∧ wo_db (sl_world s3) = wo_db w ∧
  (∀ y, r = Ok y → y = SealReconciled (sa_artifact_digest x) ∧
    (slot' = slot ∨ clash (seal_request_text c request_id slot') (seal_request_text c request_id slot))) ∧
  (slot_driver (slots' (wo_turn (sl_world s2))) = working → conn_autocommit (wo_conn w) = true →
   authentic (wo_db w) (store_view c) → slot' = slot → r = Ok (SealReconciled (sa_artifact_digest x))).
Proof.
  intros Ua Uq Us Us' Ho Hv Hfirst Hbetween Hagain w.
  destruct (executed_recorded _ _ _ _ _ _ _ _ _ _ _ _ Ho Hv Hfirst) as (Hv1 & Hwf & Hrec).
  assert (outcomes_kept (wc_attempt_id c) request_id (wo_db (sl_world s1)) (wo_db (sl_world s2))) as Hk.
  { unfold wo_db. rewrite Hbetween. apply serve_all_preserves; [apply _|]. intros q conn. apply serve_kept. }
  pose proof (recorded_kept _ _ _ _ _ _ Hk Hv1 Hrec) as Hrec2. destruct Hk as [Hadv _]. destruct (Hadv Hv1) as [_ Hv2 _ _].
  destruct (recorded_answer _ _ _ _ _ _ _ _ _ _ _ _ _ _ Hv2 Hwf Hrec2 Hagain) as (Hc & Ht & Hd & Hok & Hlive).
  split_and!; try done.
  - intros y [-> Heq]%Hok. split; [done|]. by apply (request_slot_eq c request_id).
  - intros. subst slot'. by apply Hlive.
Qed.
