(* ===== verification/AgentControlScenario.v ===== *)
(** * The worker's gateway at work *)

From Stdlib Require Import ZArith NArith Ascii Lia.
From S2P Require Import Prelude Utf8 Canonical Digest Sql Schema Transaction Command StoreBase StoreAgentControl StoreLaws StoreHistory Scenario EngineBase EngineRun EngineSealing EngineAgentControl EngineScenario SealScenario.

#[local] Existing Instance stir_hash.

Definition story_worker : WorkerCredential := {| wc_attempt_id := "attempt-1"; wc_bearer := {| expose := "bearer" |} |}.

(** The driver is busy once, at the n-th access. *)
Definition busy_at (n : nat) (i : nat) : Slot :=
  let s := EngineScenario.alone i in
  if Nat.eqb i n
  then {| slot_before := slot_before s; slot_driver := slot_driver s; slot_ambient := slot_ambient s;
          slot_fault := Some (Sqlite Busy); slot_republish := slot_republish s |}
  else s.

Definition ask (slots : nat → Slot) (request_id : string) (s : Sealer) : Result AgentSealOutcome AgentControlError * Sealer :=
  seal_artifact slots story_capture story_reader story_objects "/var/lib/pantheon" fresh_id story_worker request_id "patch" s.

Definition executed_seal (r : Result AgentSealOutcome AgentControlError) : bool :=
  match r with
  | Ok (SealExecuted _) => true
  | _ => false
  end.

Local Abbreviation first_ask := (ask EngineScenario.alone "request-9" (sealer_at launched)).

Lemma first_ask_runs : executed_seal first_ask.1 = true.
Proof. vm_compute. reflexivity. Qed.

(** Another process asks again, on the database the first call left. *)
Definition again (s : Sealer) : Sealer := sealer_at (wo_conn (sl_world s)).

Lemma sealed_request_answered_once_witness :
  ∃ x s1 r s3, first_ask = (Ok (SealExecuted x), s1) ∧
    ask EngineScenario.alone "request-9" (again s1) = (r, s3) ∧ sl_trace s3 = [] ∧
    ∀ y, r = Ok y → y = SealReconciled (sa_artifact_digest x).
Proof.
  pose proof first_ask_runs as Hr. destruct first_ask as [o s1] eqn:E. destruct o as [y|e]; [|discriminate Hr].
  destruct y as [x| |]; [|discriminate Hr..]. destruct (ask EngineScenario.alone "request-9" (again s1)) as [r s3] eqn:Ea.
  destruct (sealed_request_answered_once EngineScenario.alone story_capture story_reader story_objects "/var/lib/pantheon" fresh_id
    EngineScenario.alone story_capture story_reader story_objects "/var/lib/pantheon" fresh_id story_worker "request-9" "patch" "patch"
    (sealer_at launched) x s1 [] (again s1) r s3) as (_ & Ht & _ & Hy & _).
  - reflexivity.
  - reflexivity.
  - reflexivity.
  - reflexivity.
  - intros i q Hq. inversion Hq.
  - exact launched_valid.
  - exact E.
  - reflexivity.
  - exact Ea.
  - exists x, s1, r, s3. split; [reflexivity|]. split; [exact Ea|]. split; [exact Ht|]. intros z Hz. apply (Hy z Hz).
Defined.

(** ** A passing fault *)

(** One read that meets a locked database after the request is open is recorded as
    the request's refusal: asked again when the database is free, the same request
    is refused for stale authority, while a new request of the same worker for the
    same slot is executed. *)
Theorem passing_fault_refuses_for_good :
  let failed := ask (busy_at 1) "request-9" (sealer_at launched) in
  failed.1 = Err (AcStore (Sqlite Busy)) ∧
  (ask EngineScenario.alone "request-9" (again failed.2)).1 = Ok (SealRefused "authority-stale") ∧
  executed_seal (ask EngineScenario.alone "request-10" (again failed.2)).1 = true.
Proof. vm_compute. repeat split. Qed.
