(* ===== verification/Cas.v ===== *)
(** * The content-addressed object store ([pantheon-cas/src/lib.rs])

    One directory, in which every name is either an object's digest or scratch.
    Publication stages, flushes, links and removes; other publishers run between
    any two of its system calls, every call may fail, and the machine may stop at
    any moment. *)

From Stdlib Require Import ZArith NArith Ascii Lia.
From S2P Require Import Prelude Utf8 Digest Parse ParseFacts Workspace StoreConfiguration EngineWorkspace EngineSealing.

(** ** The disk

    What the file system keeps: the content of every file, which of them have been
    flushed, the names of the directory, and the names its last flush made durable. *)

Record Disk : Type := {
  dk_data : gmap nat string;
  dk_flushed : gset nat;
  dk_names : gmap string nat;
  dk_linked : gmap string nat
}.

(** A power failure: each name is as the last flush of the directory left it or as it
    is now, and only flushed files are sure to keep their content. *)
Definition crash (d d' : Disk) : Prop :=
  (∀ name, dk_names d' !! name = dk_names d !! name ∨ dk_names d' !! name = dk_linked d !! name) ∧
  (∀ i, i ∈ dk_flushed d → i ∈ dk_flushed d' ∧ dk_data d' !! i = dk_data d !! i) ∧
  (∀ i, is_Some (dk_data d !! i) → is_Some (dk_data d' !! i)) ∧
  dk_linked d' = dk_names d'.

Inductive IoError : Type := AlreadyExists | IoFailed (detail : string).

(** The disk, the number of system calls made, and what each of them did. *)
Record Host : Type := { ho_disk : Disk; ho_turn : nat; ho_steps : list (Disk * Disk) }.

Definition Cas (E A : Type) : Type := Host → Result A E * Host.

Definition cas_ret {E A} (a : A) : Cas E A := fun h => (Ok a, h).

Definition cas_err {E A} (e : E) : Cas E A := fun h => (Err e, h).

Definition cas_bind {E A B} (m : Cas E A) (k : A → Cas E B) : Cas E B := fun h =>
  match m h with
  | (Ok a, h') => k a h'
  | (Err e, h') => (Err e, h')
  end.

Notation "'let#' x := m 'in' k" := (cas_bind m (fun x => k))
  (at level 10, x pattern, m at level 100, k at level 200) : rust_scope.
Notation "'do#' m 'in' k" := (cas_bind m (fun _ => k))
  (at level 10, m at level 100, k at level 200) : rust_scope.

Definition cas_map_err {E F A} (f : E → F) (m : Cas E A) : Cas F A := fun h =>
  match m h with
  | (Ok a, h') => (Ok a, h')
  | (Err e, h') => (Err (f e), h')
  end.

(** The outcome of a call, error or not. *)
Definition cas_attempt {E F A} (m : Cas E A) : Cas F (Result A E) := fun h => let (r, h') := m h in (Ok r, h').

Definition CAS_UNAVAILABLE : string := "cas.object-unavailable".
Definition CAS_CORRUPT : string := "cas.corrupt-object".

Definition fault (code detail : string) : ExternalFault := {| xf_code := code; xf_detail := detail |}.

Definition io_fault (code : string) (e : IoError) : ExternalFault :=
  fault code (match e with AlreadyExists => "already exists" | IoFailed detail => detail end).

(** The loop over scratch names is given a bound; it is never reached. *)
Inductive Halt : Type := Faulted (f : ExternalFault) | OutOfFuel.

Section Cas.
Context `{Sha256}.
(** What the others do before the n-th call, whether it fails, and how much a failing
    write leaves. *)
Variable others : nat → Disk → Disk.
Variable broken_at : nat → option string.
Variable kept : nat → nat.
(** [std::process::id()]. *)
Variable process_id : Z.
(** What [next_temp_name] answers this call the j-th time; other threads of the
    process take the numbers in between. *)
Variable next_temp_name : nat → Z.

(** One system call. *)
Definition sys {A} (failing : nat → Disk → Disk) (call : Disk → Result A IoError * Disk) : Cas IoError A := fun h =>
  let n := ho_turn h in
  let d := others n (ho_disk h) in
  let (r, d') := match broken_at n with
                 | Some detail => (Err (IoFailed detail), failing n d)
                 | None => call d
                 end in
  (r, {| ho_disk := d'; ho_turn := S n; ho_steps := ho_steps h ++ [(d, d')] |}).

Definition nothing (n : nat) (d : Disk) : Disk := d.

(** *** [std::fs] *)

Definition with_names (d : Disk) (names : gmap string nat) : Disk :=
  {| dk_data := dk_data d; dk_flushed := dk_flushed d; dk_names := names; dk_linked := dk_linked d |}.

Definition with_file (d : Disk) (i : nat) (bytes : string) : Disk :=
  {| dk_data := <[i := bytes]> (dk_data d); dk_flushed := dk_flushed d ∖ {[i]};
     dk_names := dk_names d; dk_linked := dk_linked d |}.

(** [Path::exists] answers false when it cannot tell. *)
Definition fs_exists (name : string) : Cas Halt bool :=
  fun h => let (r, h') := sys nothing (fun d => (Ok (bool_decide (is_Some (dk_names d !! name))), d)) h in
           (Ok (match r with Ok found => found | Err _ => false end), h').

Definition fs_read (name : string) : Cas IoError string :=
  sys nothing (fun d => match dk_names d !! name with
                        | Some i => (ok_or (dk_data d !! i) (IoFailed "no such file"), d)
                        | None => (Err (IoFailed "no such file"), d)
                        end).

(** [OpenOptions::create_new]. *)
Definition fs_create_new (name : string) : Cas IoError nat :=
  sys nothing (fun d =>
    match dk_names d !! name with
    | Some _ => (Err AlreadyExists, d)
    | None => let i := fresh (dom (dk_data d)) in
              (Ok i, with_names (with_file d i EmptyString) (<[name := i]> (dk_names d)))
    end).

Definition fs_write_all (i : nat) (bytes : string) : Cas IoError unit :=
  sys (fun n d => with_file d i (String.substring 0 (kept n) bytes)) (fun d => (Ok tt, with_file d i bytes)).

Definition fs_sync_file (i : nat) : Cas IoError unit :=
  sys nothing (fun d => (Ok tt, {| dk_data := dk_data d; dk_flushed := {[i]} ∪ dk_flushed d;
                                   dk_names := dk_names d; dk_linked := dk_linked d |})).

Definition fs_hard_link (original link : string) : Cas IoError unit :=
  sys nothing (fun d =>
    match dk_names d !! link, dk_names d !! original with
    | Some _, _ => (Err AlreadyExists, d)
    | None, Some i => (Ok tt, with_names d (<[link := i]> (dk_names d)))
    | None, None => (Err (IoFailed "no such file"), d)
    end).

Definition fs_remove_file (name : string) : Cas IoError unit :=
  sys nothing (fun d =>
    match dk_names d !! name with
    | Some _ => (Ok tt, with_names d (delete name (dk_names d)))
    | None => (Err (IoFailed "no such file"), d)
    end).

Definition fs_sync_dir : Cas IoError unit :=
  sys nothing (fun d => (Ok tt, {| dk_data := dk_data d; dk_flushed := dk_flushed d;
                                   dk_names := dk_names d; dk_linked := dk_names d |})).

(** *** The store *)

(** The name of an object in the directory of objects. *)
Definition object_path (d : Digest) : string := to_hex d.

Definition staging_prefix : string := "incoming-".

Definition staging_name (j : nat) : string :=
  staging_prefix +:+ (i64_to_string process_id +:+ ("-" +:+ i64_to_string (next_temp_name j))).

Definition faulted {A} (code : string) (m : Cas IoError A) : Cas Halt A :=
  cas_map_err (fun e => Faulted (io_fault code e)) m.

Definition read_verified (name : string) (reference : ObjectRef) : Cas Halt string :=
  let# bytes := faulted CAS_UNAVAILABLE (fs_read name) in
  if negb (byte_size bytes =? or_size reference)%Z then cas_err (Faulted (fault CAS_CORRUPT "it holds another size"))
  else if negb (bool_decide (digest_of bytes = or_digest reference)) then
    cas_err (Faulted (fault CAS_CORRUPT "it hashes to another digest"))
  else cas_ret bytes.

Definition discard_staged (staged : string) : Cas Halt unit := faulted "cas.publish-failed" (fs_remove_file staged).

Definition sync_dir : Cas Halt unit := faulted "cas.durability-failed" fs_sync_dir.

Definition finalize (staged final : string) (reference : ObjectRef) : Cas Halt unit :=
  let# linked := cas_attempt (fs_hard_link staged final) in
  match linked with
  | Ok _ => do# discard_staged staged in sync_dir
  | Err AlreadyExists =>
      let# _ := read_verified final reference in
      discard_staged staged
  | Err (IoFailed detail) => cas_err (Faulted (fault "cas.publish-failed" detail))
  end.

(** The first scratch name that was free, its file holding the bytes, flushed. *)
Fixpoint stage (fuel j : nat) (bytes : string) : Cas Halt string :=
  match fuel with
  | O => cas_err OutOfFuel
  | S fuel =>
      let candidate := staging_name j in
      let# opened := cas_attempt (fs_create_new candidate) in
      match opened with
      | Ok file =>
          do# faulted "cas.write-failed" (fs_write_all file bytes) in
          do# faulted "cas.durability-failed" (fs_sync_file file) in
          cas_ret candidate
      | Err AlreadyExists => stage fuel (S j) bytes
      | Err (IoFailed detail) => cas_err (Faulted (fault "cas.write-failed" detail))
      end
  end.

Definition reference_of (bytes : string) : ObjectRef := {| or_digest := digest_of bytes; or_size := byte_size bytes |}.

(** One more scratch name than the directory has names is enough. *)
Definition cas_publish (bytes : string) : Cas Halt ObjectRef := fun h0 =>
  (let reference := reference_of bytes in
   let final := object_path (or_digest reference) in
   let# present := fs_exists final in
   if present then
     let# _ := read_verified final reference in cas_ret reference
   else
     let# staged := stage (S (size (dk_names (ho_disk h0)))) 0 bytes in
     do# finalize staged final reference in
     cas_ret reference) h0.

Definition cas_verify (reference : ObjectRef) : Cas Halt unit :=
  let# _ := read_verified (object_path (or_digest reference)) reference in cas_ret tt.

Definition cas_read (reference : ObjectRef) : Cas Halt string :=
  read_verified (object_path (or_digest reference)) reference.
End Cas.

(** ** What publishers owe each other *)

Section Publishers.
Context `{Sha256}.

Definition scratch (name : string) : Prop := starts_with staging_prefix name = true.

(** Every name that is not scratch is the digest of a flushed file, and what the last
    flush of the directory made durable is still there. *)
Record sound (d : Disk) : Prop := {
  sd_files name i : dk_names d !! name = Some i → is_Some (dk_data d !! i);
  sd_linked name i : dk_linked d !! name = Some i → is_Some (dk_data d !! i);
  sd_objects name i : ¬ scratch name → dk_names d !! name = Some i →
    i ∈ dk_flushed d ∧ ∃ bytes, dk_data d !! i = Some bytes ∧ name = object_path (digest_of bytes);
  sd_durable name i : ¬ scratch name → dk_linked d !! name = Some i → dk_names d !! name = Some i
}.

(** A step that leaves alone the scratch names of [mine], their files and every
    object. *)
Record considerate (mine : string → Prop) (d d' : Disk) : Prop := {
  cn_sound : sound d';
  cn_names name : mine name → dk_names d' !! name = dk_names d !! name;
  cn_files name i : mine name → dk_names d !! name = Some i →
    dk_data d' !! i = dk_data d !! i ∧ (i ∈ dk_flushed d → i ∈ dk_flushed d') ∧
    ∀ other, dk_names d' !! other = Some i → dk_names d !! other = Some i;
  cn_objects name i : ¬ scratch name → dk_names d !! name = Some i →
    dk_names d' !! name = Some i ∧ dk_data d' !! i = dk_data d !! i;
  cn_durable name i : ¬ scratch name → dk_linked d !! name = Some i → dk_linked d' !! name = Some i
}.

Lemma considerate_refl mine d : sound d → considerate mine d d.
Proof. intros Hs. by split; [done|..]. Qed.

Lemma object_not_scratch d : ¬ scratch (object_path d).
Proof.
  unfold scratch, object_path, to_hex. pose proof (hex_of_bytes_canonical (digest_bytes d)) as Hc.
  intros [rest Hr]%starts_with_true. by rewrite Hr in Hc.
Qed.

(** *** The machine stops *)

Lemma crash_sound d d' : sound d → crash d d' → sound d'.
Proof.
  intros [S1 S2 S3 S4] (Hn & Hf & Hd & Hl).
  assert (∀ name i, dk_names d' !! name = Some i → is_Some (dk_data d' !! i)) as F.
  { intros name i Hi. apply Hd. destruct (Hn name) as [E|E]; rewrite E in Hi; eauto. }
  split.
  - exact F.
  - rewrite Hl. exact F.
  - intros name i Hs Hi. assert (dk_names d !! name = Some i) as Hi'.
    { destruct (Hn name) as [E|E]; rewrite E in Hi; [done|]. by apply S4. }
    destruct (S3 name i Hs Hi') as (Hfl & bytes & Hb & Hname). destruct (Hf i Hfl) as [Hfl' Hb']. split; [done|].
    exists bytes. by rewrite Hb'.
  - by rewrite Hl.
Qed.
End Publishers.

(** ** One publisher *)

Section Publisher.
Context `{Sha256}.
Variable others : nat → Disk → Disk.
Variable broken_at : nat → option string.
Variable kept : nat → nat.
Variable process_id : Z.
Variable next_temp_name : nat → Z.

Abbreviation staging := (staging_name process_id next_temp_name).

(** The scratch names of this call. *)
Definition mine (name : string) : Prop := ∃ j, name = staging j.

(** What this publisher relies on: at least that the others are considerate. *)
Variable rely : Disk → Disk → Prop.
Hypothesis rely_considerate : ∀ d d', sound d → rely d d' → considerate mine d d'.
Hypothesis polite : ∀ n d, sound d → rely d (others n d).
Hypothesis fresh_numbers : ∀ j k, next_temp_name j = next_temp_name k → j = k.

Lemma staging_inj j k : staging j = staging k → j = k.
Proof.
  unfold staging_name. intros E%append_inj_l%append_inj_l%(append_inj_l "-")%i64_to_string_inj. by apply fresh_numbers.
Qed.

Lemma mine_scratch name : mine name → scratch name.
Proof. intros [j ->]. apply starts_with_true. by eexists. Qed.

Lemma mine_not_object name d : mine name → name ≠ object_path d.
Proof. intros Hm%mine_scratch ->. by apply object_not_scratch in Hm. Qed.

(** A step that every other publisher can live with. *)
Definition leaves (d d' : Disk) : Prop :=
  ∀ theirs, (∀ name, theirs name → scratch name ∧ ¬ mine name) → considerate theirs d d'.

Lemma leaves_refl d : sound d → leaves d d.
Proof. intros Hs theirs _. by apply considerate_refl. Qed.

Lemma leaves_sound d d' : leaves d d' → sound d'.
Proof. intros Hl. by destruct (Hl (fun _ => False)). Qed.

Definition stable (P : Disk → Prop) : Prop := ∀ d d', sound d → P d → rely d d' → P d'.

(** From [P], whatever happens, every step leaves the others in peace and [Q] holds
    of what is answered. *)
Definition spec {E A} (P : Disk → Prop) (m : Cas E A) (Q : Result A E → Disk → Prop) : Prop := ∀ h,
  sound (ho_disk h) → P (ho_disk h) →
  sound (ho_disk (m h).2) ∧ Q (m h).1 (ho_disk (m h).2) ∧
  ∃ steps, ho_steps (m h).2 = ho_steps h ++ steps ∧ Forall (fun s => sound s.1 ∧ leaves s.1 s.2) steps.

Lemma spec_ret {E A} (P : Disk → Prop) (a : A) (Q : Result A E → Disk → Prop) :
  (∀ d, sound d → P d → Q (Ok a) d) → spec P (cas_ret a) Q.
Proof. intros Hq h Hs Hp. split; [done|]. split; [by apply Hq|]. exists []. by rewrite app_nil_r. Qed.

Lemma spec_err {E A} (P : Disk → Prop) (e : E) (Q : Result A E → Disk → Prop) :
  (∀ d, sound d → P d → Q (Err e) d) → spec P (cas_err e) Q.
Proof. intros Hq h Hs Hp. split; [done|]. split; [by apply Hq|]. exists []. by rewrite app_nil_r. Qed.

Lemma spec_bind {E A B} P (m : Cas E A) (k : A → Cas E B) R (Q : Result B E → Disk → Prop) :
  spec P m R → (∀ a, spec (R (Ok a)) (k a) Q) → (∀ e d, sound d → R (Err e) d → Q (Err e) d) → spec P (cas_bind m k) Q.
Proof.
  intros Hm Hk He h Hs Hp. unfold cas_bind. destruct (Hm h Hs Hp) as (S1 & Q1 & st1 & E1 & F1).
  destruct (m h) as [[a|e] h1]; cbn in *.
  - destruct (Hk a h1 S1 Q1) as (S2 & Q2 & st2 & E2 & F2). split; [done|]. split; [done|].
    exists (st1 ++ st2). rewrite E2, E1, app_assoc. split; [done|by apply Forall_app].
  - split; [done|]. split; [by apply He|]. by exists st1.
Qed.

Lemma spec_conseq {E A} P P' (m : Cas E A) (Q Q' : Result A E → Disk → Prop) :
  spec P m Q → (∀ d, sound d → P' d → P d) → (∀ r d, sound d → Q r d → Q' r d) → spec P' m Q'.
Proof. intros Hm Hp Hq h Hs Hh. destruct (Hm h Hs (Hp _ Hs Hh)) as (S & Q0 & St). eauto. Qed.

Lemma spec_map_err {E F A} (f : E → F) P (m : Cas E A) (Q : Result A F → Disk → Prop) :
  spec P m (fun r d => Q (map_err f r) d) → spec P (cas_map_err f m) Q.
Proof. intros Hm h Hs Hp. unfold cas_map_err. destruct (Hm h Hs Hp) as (S & Q0 & St). by destruct (m h) as [[a|e] h1]. Qed.

Lemma spec_attempt {E F A} P (m : Cas E A) (Q : Result (Result A E) F → Disk → Prop) :
  spec P m (fun r d => Q (Ok r) d) → spec P (cas_attempt m) Q.
Proof. intros Hm h Hs Hp. unfold cas_attempt. destruct (Hm h Hs Hp) as (S & Q0 & St). by destruct (m h) as [r h1]. Qed.

Lemma spec_sys {A} P (failing : nat → Disk → Disk) (call : Disk → Result A IoError * Disk) Q :
  stable P →
  (∀ d, sound d → P d → leaves d (call d).2 ∧ Q (call d).1 (call d).2) →
  (∀ n detail d, sound d → P d → leaves d (failing n d) ∧ Q (Err (IoFailed detail)) (failing n d)) →
  spec P (sys others broken_at failing call) Q.
Proof.
  intros Hst Hcall Hfail h Hs Hp. unfold sys. set (d := others (ho_turn h) (ho_disk h)).
  pose proof (polite (ho_turn h) _ Hs) as Hc. fold d in Hc.
  pose proof (cn_sound _ _ _ (rely_considerate _ _ Hs Hc)) as Hsd. pose proof (Hst _ _ Hs Hp Hc) as Hpd.
  destruct (broken_at (ho_turn h)) as [detail|].
  - destruct (Hfail (ho_turn h) detail d Hsd Hpd) as [Hl Hq]. cbn. split; [by eapply leaves_sound|]. split; [done|].
    eexists. split; [done|]. by constructor.
  - destruct (Hcall d Hsd Hpd) as [Hl Hq]. destruct (call d) as [r d']. cbn in *. split; [by eapply leaves_sound|].
    split; [done|]. eexists. split; [done|]. by constructor.
Qed.

(** *** Assertions *)

(** A scratch name of this call and its file, which has no other name. *)
Definition staged_at (name : string) (i : nat) (bytes : string) (d : Disk) : Prop :=
  dk_names d !! name = Some i ∧ dk_data d !! i = Some bytes ∧ ∀ other, dk_names d !! other = Some i → other = name.

Definition flushed_at (name bytes : string) (d : Disk) : Prop := ∃ i, staged_at name i bytes d ∧ i ∈ dk_flushed d.

(** The object a reference names is there. *)
Definition holds (reference : ObjectRef) (d : Disk) : Prop :=
  ∃ i bytes, dk_names d !! object_path (or_digest reference) = Some i ∧ dk_data d !! i = Some bytes ∧
    digest_of bytes = or_digest reference ∧ byte_size bytes = or_size reference.

(** And stays when the machine stops. *)
Definition durable (reference : ObjectRef) (d : Disk) : Prop :=
  is_Some (dk_linked d !! object_path (or_digest reference)).

Definition all_linked (d : Disk) : Prop :=
  ∀ name i, ¬ scratch name → dk_names d !! name = Some i → dk_linked d !! name = Some i.

Lemma staged_stable name i bytes : mine name → stable (staged_at name i bytes).
Proof.
  intros Hm d d' Hs (Hn & Hd & Hx) Hr%rely_considerate; [|done]. destruct (cn_files _ _ _ Hr name i Hm Hn) as (E & _ & Ho).
  split_and!; [by rewrite (cn_names _ _ _ Hr)|by rewrite E|]. intros other Hi%Ho. by apply Hx.
Qed.

Lemma flushed_stable name bytes : mine name → stable (flushed_at name bytes).
Proof.
  intros Hm d d' Hs (i & Hst & Hf) Hr. exists i. split; [by eapply staged_stable|].
  destruct Hst as (Hn & _). by apply (cn_files _ _ _ (rely_considerate _ _ Hs Hr) name i Hm Hn).
Qed.

Lemma holds_stable reference : stable (holds reference).
Proof.
  intros d d' Hs (i & bytes & Hn & Hd & Hb) Hr%rely_considerate; [|done]. exists i, bytes.
  destruct (cn_objects _ _ _ Hr _ _ (object_not_scratch _) Hn) as [E1 E2]. by rewrite E1, E2.
Qed.

Lemma durable_stable reference : stable (durable reference).
Proof.
  intros d d' Hs [i Hi] Hr%rely_considerate; [|done]. exists i.
  exact (cn_durable _ _ _ Hr _ _ (object_not_scratch _) Hi).
Qed.

Lemma stable_and P Q : stable P → stable Q → stable (fun d => P d ∧ Q d).
Proof. intros HP HQ d d' Hs [Hp Hq] Hr. split; [by eapply HP|by eapply HQ]. Qed.

(** *** Steps *)

Lemma leaves_create name d :
  mine name → sound d → dk_names d !! name = None →
  leaves d (with_names (with_file d (fresh (dom (dk_data d))) EmptyString)
    (<[name := fresh (dom (dk_data d))]> (dk_names d))).
Proof.
  intros Hm Hs Hn theirs Ht. set (i := fresh (dom (dk_data d))).
  assert (dk_data d !! i = None) as Hi by (apply not_elem_of_dom, is_fresh).
  assert (∀ other j, dk_names d !! other = Some j → j ≠ i) as Hne.
  { intros other j Hj ->. destruct (sd_files _ Hs _ _ Hj) as [? E]. congruence. }
  assert (∀ other, theirs other ∨ ¬ scratch other → other ≠ name) as Hother.
  { intros other [[_ Ho]%Ht|Ho] ->; [done|]. by apply Ho, mine_scratch. }
  split; cbn.
  - split; cbn.
    + intros other j [[<- <-]|[_ Hj]]%lookup_insert_Some; [by rewrite lookup_insert_eq; eexists|].
      rewrite lookup_insert_ne; [by eapply sd_files|]. intros <-. by eapply Hne.
    + intros other j Hj. destruct (decide (i = j)) as [->|]; [by rewrite lookup_insert_eq; eexists|].
      rewrite lookup_insert_ne by done. by eapply sd_linked.
    + intros other j Hsc Hj. rewrite lookup_insert_ne in Hj by (intros <-; by apply Hsc, mine_scratch).
      destruct (sd_objects _ Hs _ _ Hsc Hj) as (Hf & bytes & Hb & He). assert (j ≠ i) by by eapply Hne.
      split; [set_solver|]. exists bytes. by rewrite lookup_insert_ne.
    + intros other j Hsc Hj. rewrite lookup_insert_ne by (intros <-; by apply Hsc, mine_scratch). by apply (sd_durable _ Hs).
  - intros other Ho. rewrite lookup_insert_ne; [done|]. intros <-. by apply (Hother name); [left|].
  - intros other j Ho Hj. assert (j ≠ i) by by eapply Hne. split_and!; [by rewrite lookup_insert_ne|set_solver|].
    intros third [[_ E]|[_ Hk]]%lookup_insert_Some; [by subst|done].
  - intros other j Hsc Hj. assert (j ≠ i) by by eapply Hne.
    rewrite lookup_insert_ne; [|intros <-; by apply (Hother name); [right|]]. by rewrite lookup_insert_ne.
  - done.
Qed.

Lemma leaves_write name i old bytes d :
  mine name → sound d → staged_at name i old d → leaves d (with_file d i bytes).
Proof.
  intros Hm Hs (Hn & Hd & Hx) theirs Ht.
  assert (∀ other j, theirs other ∨ ¬ scratch other → dk_names d !! other = Some j → j ≠ i) as Hne.
  { intros other j Ho Hj ->. apply Hx in Hj as ->. destruct Ho as [[_ Ho]%Ht|Ho]; [done|]. by apply Ho, mine_scratch. }
  split; cbn.
  - split; cbn.
    + intros other j Hj. destruct (decide (i = j)) as [->|]; [by rewrite lookup_insert_eq; eexists|].
      rewrite lookup_insert_ne by done. by eapply sd_files.
    + intros other j Hj. destruct (decide (i = j)) as [->|]; [by rewrite lookup_insert_eq; eexists|].
      rewrite lookup_insert_ne by done. by eapply sd_linked.
    + intros other j Hsc Hj. assert (j ≠ i) by (eapply Hne; [by right|done]).
      destruct (sd_objects _ Hs _ _ Hsc Hj) as (Hf & c & Hc & He). split; [set_solver|]. exists c. by rewrite lookup_insert_ne.
    + by apply sd_durable.
  - done.
  - intros other j Ho Hj. assert (j ≠ i) by (eapply Hne; [by left|done]). split_and!; [by rewrite lookup_insert_ne|set_solver|done].
  - intros other j Hsc Hj. assert (j ≠ i) by (eapply Hne; [by right|done]). by rewrite lookup_insert_ne.
  - done.
Qed.

Lemma leaves_flush i d :
  sound d → leaves d {| dk_data := dk_data d; dk_flushed := {[i]} ∪ dk_flushed d;
                        dk_names := dk_names d; dk_linked := dk_linked d |}.
Proof.
  intros [S1 S2 S3 S4] theirs Ht. split; cbn; try done.
  - split; cbn; try done. intros other j Hsc Hj. destruct (S3 _ _ Hsc Hj) as [Hf Hb]. split; [set_solver|done].
  - intros other j _ _. split_and!; [done|set_solver|done].
Qed.

Lemma leaves_link name bytes i d :
  mine name → sound d → staged_at name i bytes d → i ∈ dk_flushed d → dk_names d !! object_path (digest_of bytes) = None →
  leaves d (with_names d (<[object_path (digest_of bytes) := i]> (dk_names d))).
Proof.
  intros Hm Hs (Hn & Hd & Hx) Hf Hnone theirs Ht. remember (object_path (digest_of bytes)) as final eqn:Hfinal.
  assert (∀ other, theirs other → other ≠ final) as Hne.
  { intros other [Ho _]%Ht ->. rewrite Hfinal in Ho. by apply (object_not_scratch (digest_of bytes)). }
  destruct Hs as [S1 S2 S3 S4]. split; cbn.
  - split; cbn; [| done | |].
    + intros other j [[<- <-]|[_ Hj]]%lookup_insert_Some; [by eexists|by eapply S1].
    + intros other j Hsc [[<- <-]|[_ Hj]]%lookup_insert_Some; [split; [done|by exists bytes]|by eapply S3].
    + intros other j Hsc Hj. rewrite lookup_insert_ne; [by apply S4|]. intros E. apply S4 in Hj; [|done].
      rewrite <-E, Hnone in Hj. done.
  - intros other Ho. rewrite lookup_insert_ne; [done|]. intros <-. by apply (Hne final).
  - intros other j Ho Hj. split_and!; [done|done|]. intros third [[_ E]|[_ Hk]]%lookup_insert_Some; [|done].
    subst j. apply Hx in Hj as ->. destruct (Ht _ Ho) as [_ Hmine]. done.
  - intros other j Hsc Hj. rewrite lookup_insert_ne; [done|]. intros E. by rewrite <-E, Hnone in Hj.
  - done.
Qed.

Lemma leaves_remove name d : mine name → sound d → leaves d (with_names d (delete name (dk_names d))).
Proof.
  intros Hm [S1 S2 S3 S4] theirs Ht.
  assert (∀ other, theirs other ∨ ¬ scratch other → name ≠ other) as Hne.
  { intros other [[_ Ho]%Ht|Ho] <-; [done|]. by apply Ho, mine_scratch. }
  split; cbn.
  - split; cbn; [|done| |].
    + intros other j [_ Hj]%lookup_delete_Some. by eapply S1.
    + intros other j Hsc [_ Hj]%lookup_delete_Some. by eapply S3.
    + intros other j Hsc Hj. rewrite lookup_delete_ne by (apply Hne; by right). by apply S4.
  - intros other Ho. rewrite lookup_delete_ne; [done|]. apply Hne. by left.
  - intros other j Ho Hj. split_and!; [done|done|]. by intros third [_ Hk]%lookup_delete_Some.
  - intros other j Hsc Hj. rewrite lookup_delete_ne by (apply Hne; by right). done.
  - done.
Qed.

Lemma leaves_flush_names d :
  sound d → leaves d {| dk_data := dk_data d; dk_flushed := dk_flushed d; dk_names := dk_names d; dk_linked := dk_names d |}.
Proof.
  intros [S1 S2 S3 S4] theirs Ht. split; cbn; try done.
Qed.

(** *** The calls *)

Lemma spec_read P name (Q : Result string IoError → Disk → Prop) :
  stable P →
  (∀ d i bytes, sound d → P d → dk_names d !! name = Some i → dk_data d !! i = Some bytes → Q (Ok bytes) d) →
  (∀ e d, sound d → P d → Q (Err e) d) →
  spec P (fs_read others broken_at name) Q.
Proof.
  intros Hst Hok Herr. apply spec_sys; [done| |].
  - intros d Hs Hp. destruct (dk_names d !! name) as [i|] eqn:Hn; cbn; [|by split; [apply leaves_refl|apply Herr]].
    split; [by apply leaves_refl|]. destruct (dk_data d !! i) as [bytes|] eqn:Hd; cbn; [by eapply Hok|by apply Herr].
  - intros n detail d Hs Hp. split; [by apply leaves_refl|by apply Herr].
Qed.

Lemma spec_read_verified P name reference (Q : Result string Halt → Disk → Prop) :
  stable P →
  (∀ d i bytes, sound d → P d → dk_names d !! name = Some i → dk_data d !! i = Some bytes →
    digest_of bytes = or_digest reference → byte_size bytes = or_size reference → Q (Ok bytes) d) →
  (∀ f d, sound d → P d → Q (Err (Faulted f)) d) →
  spec P (read_verified others broken_at name reference) Q.
Proof.
  intros Hst Hok Herr. unfold read_verified, faulted.
  eapply (spec_bind _ _ _ (fun r d => P d ∧ match r with
    | Ok bytes => ∃ i, dk_names d !! name = Some i ∧ dk_data d !! i = Some bytes
    | Err e => ∃ f, e = Faulted f end)).
  - apply spec_map_err, spec_read; [done| |]; cbn; eauto.
  - intros bytes. destruct (_ =? _)%Z eqn:Ez; cbn [negb]; [|apply spec_err; intros d Hs [Hp _]; by apply Herr].
    case_bool_decide as Hd; cbn [negb]; [|apply spec_err; intros d Hs [Hp _]; by apply Herr].
    apply spec_ret. intros d Hs (Hp & i & Hn & Hb). apply Z.eqb_eq in Ez. by eapply Hok.
  - intros e d Hs (Hp & f & ->). by apply Herr.
Qed.

(** *** Publication *)

(** When the others keep every object durable, so is every object found. *)
Variable calm : Prop.
Hypothesis calm_rely : calm → ∀ d d', sound d → rely d d' → all_linked d → all_linked d'.

Definition tidy (d : Disk) : Prop := calm → all_linked d.

Lemma tidy_stable : stable tidy.
Proof. intros d d' Hs Ht Hr Hc. by eapply calm_rely, Ht. Qed.

(** What a publisher that succeeds leaves. *)
Definition published (reference : ObjectRef) (d : Disk) : Prop := holds reference d ∧ (calm → durable reference d).

Lemma published_stable reference : stable (published reference).
Proof.
  intros d d' Hs [Hh Hd] Hr. split; [by eapply holds_stable|]. intros Hc. by eapply durable_stable, Hr; [|apply Hd].
Qed.

Lemma found_published d i bytes reference :
  tidy d → dk_names d !! object_path (or_digest reference) = Some i → dk_data d !! i = Some bytes →
  digest_of bytes = or_digest reference → byte_size bytes = or_size reference → published reference d.
Proof.
  intros Ht Hn Hd Hdig Hsz. split; [by exists i, bytes|]. intros Hc. exists i.
  apply (Ht Hc); [apply object_not_scratch|done].
Qed.

Lemma spec_discard P staged (Q : Result unit Halt → Disk → Prop) :
  stable P → mine staged →
  (∀ d i, sound d → P d → dk_names d !! staged = Some i → Q (Ok tt) (with_names d (delete staged (dk_names d)))) →
  (∀ f d, sound d → P d → Q (Err (Faulted f)) d) →
  spec P (discard_staged others broken_at staged) Q.
Proof.
  intros Hst Hm Hok Herr. apply spec_map_err, spec_sys; [done| |].
  - intros d Hs Hp. destruct (dk_names d !! staged) as [i|] eqn:Hn; cbn.
    + split; [by apply leaves_remove|by eapply Hok].
    + split; [by apply leaves_refl|by apply Herr].
  - intros n detail d Hs Hp. split; [by apply leaves_refl|by apply Herr].
Qed.

Lemma discarded_published staged reference d :
  mine staged → published reference d → published reference (with_names d (delete staged (dk_names d))).
Proof.
  intros Hm [(i & bytes & Hn & Hb) Hd]. split; [|exact Hd]. exists i, bytes. unfold with_names. cbn [dk_names].
  rewrite lookup_delete_ne; [done|by apply mine_not_object].
Qed.

Definition settled_call {A} (Q : A → Disk → Prop) (r : Result A Halt) (d : Disk) : Prop :=
  match r with
  | Ok a => Q a d
  | Err e => ∃ f, e = Faulted f
  end.

Lemma spec_finalize staged bytes :
  mine staged →
  spec (fun d => flushed_at staged bytes d ∧ tidy d)
    (finalize others broken_at staged (object_path (digest_of bytes)) (reference_of bytes))
    (settled_call (fun _ => published (reference_of bytes))).
Proof.
  intros Hm. unfold finalize. set (final := object_path (digest_of bytes)).
  eapply (spec_bind _ _ _ (fun r d => match r with
    | Ok (Ok _) => holds (reference_of bytes) d
    | Ok (Err _) => tidy d
    | Err _ => False end)); [| |done].
  - apply spec_attempt, spec_sys; [apply stable_and; [by apply flushed_stable|apply tidy_stable]| |].
    + intros d Hs [(i & Hst & Hf) Ht]. destruct (dk_names d !! final) as [j|] eqn:Hn; [by split; [apply leaves_refl|]|].
      pose proof Hst as (Hname & Hb & Hx). rewrite Hname. cbn. split; [by eapply leaves_link|]. exists i, bytes. cbn.
      by rewrite lookup_insert_eq.
    + intros n detail d Hs [_ Ht]. split; [by apply leaves_refl|done].
  - intros [u|[|detail]].
    + eapply (spec_bind _ _ _ (settled_call (fun _ => holds (reference_of bytes)))).
      * apply spec_discard; [apply holds_stable|done| |by eexists]. intros d i Hs Hh _. cbn.
        destruct Hh as (j & c & Hn & Hc). exists j, c. unfold with_names. cbn [dk_names].
        rewrite lookup_delete_ne; [done|by apply mine_not_object].
      * intros []. apply spec_map_err, spec_sys; [apply holds_stable| |].
        -- intros d Hs Hh. split; [by apply leaves_flush_names|]. split; [exact Hh|]. intros _.
           destruct Hh as (j & c & Hn & _). by exists j.
        -- intros n detail d Hs _. split; [by apply leaves_refl|by eexists].
      * by intros e d Hs [f ->]; eexists.
    + eapply (spec_bind _ _ _ (settled_call (fun _ => published (reference_of bytes)))).
      * apply spec_read_verified; [apply tidy_stable| |by eexists]. intros d i c Hs Ht Hn Hc Hd Hz.
        by eapply found_published.
      * intros c. apply spec_discard; [apply published_stable|done| |by eexists]. intros d i Hs Hp _.
        by apply discarded_published.
      * by intros e d Hs [f ->]; eexists.
    + apply spec_err. by eexists.
Qed.

(** The first [j] scratch names were all taken, as they were at the start. *)
Definition waiting (names : gmap string nat) (j : nat) (d : Disk) : Prop :=
  (∀ k, dk_names d !! staging k = names !! staging k) ∧ (∀ k, k < j → is_Some (names !! staging k)) ∧ tidy d.

Lemma waiting_stable names j : stable (waiting names j).
Proof.
  intros d d' Hs (Hn & Hj & Ht) Hr. split_and!; [|done|by eapply tidy_stable]. intros k.
  rewrite <-Hn. apply (cn_names _ _ _ (rely_considerate _ _ Hs Hr)). by exists k.
Qed.

Lemma tidy_same d d' :
  (∀ name, ¬ scratch name → dk_names d' !! name = dk_names d !! name) → dk_linked d' = dk_linked d → tidy d → tidy d'.
Proof. intros Hn Hl Ht Hc name i Hsc Hi. rewrite Hl. apply (Ht Hc); [done|by rewrite <-Hn]. Qed.

Definition staged_or_waiting (names : gmap string nat) (bytes : string) (n : nat) (r : Result string Halt) (d : Disk) : Prop :=
  match r with
  | Ok name => mine name ∧ flushed_at name bytes d ∧ tidy d
  | Err (Faulted _) => True
  | Err OutOfFuel => waiting names n d
  end.

Lemma spec_fill names n j i bytes :
  spec (fun d => staged_at (staging j) i EmptyString d ∧ tidy d)
    (do# faulted "cas.write-failed" (fs_write_all others broken_at kept i bytes) in
     do# faulted "cas.durability-failed" (fs_sync_file others broken_at i) in
     cas_ret (staging j)) (staged_or_waiting names bytes n).
Proof.
  assert (mine (staging j)) as Hm by by exists j.
  assert (∀ c d, staged_at (staging j) i EmptyString d → staged_at (staging j) i c (with_file d i c)) as Hwrite.
  { intros c d (Hn & _ & Hx). split_and!; [done|by cbn; rewrite lookup_insert_eq|done]. }
  eapply (spec_bind _ _ _ (settled_call (fun _ d => staged_at (staging j) i bytes d ∧ tidy d))).
  - apply spec_map_err, spec_sys; [apply stable_and; [by apply staged_stable|apply tidy_stable]| |].
    + intros d Hs [Hst Ht]. split; [by eapply leaves_write|]. cbn [fst snd map_err settled_call]. split; [by apply Hwrite|].
      by eapply tidy_same.
    + intros k detail d Hs [Hst Ht]. split; [by eapply leaves_write|by eexists].
  - intros []. eapply (spec_bind _ _ _ (settled_call (fun _ d => flushed_at (staging j) bytes d ∧ tidy d))).
    + apply spec_map_err, spec_sys; [apply stable_and; [by apply staged_stable|apply tidy_stable]| |].
      * intros d Hs [Hst Ht]. split; [by apply leaves_flush|]. cbn [fst snd map_err settled_call].
        split; [|by eapply tidy_same]. exists i. split; [exact Hst|]. cbn. set_solver.
      * intros k detail d Hs _. split; [by apply leaves_refl|by eexists].
    + intros []. apply spec_ret. by intros d Hs [Hf Ht].
    + by intros e d Hs [f ->].
  - by intros e d Hs [f ->].
Qed.

Lemma spec_stage names fuel bytes : ∀ j,
  spec (waiting names j)
    (stage others broken_at kept process_id next_temp_name fuel j bytes) (staged_or_waiting names bytes (fuel + j)).
Proof.
  induction fuel as [|fuel IH]; intros j; cbn [stage]; [apply spec_err; cbn; done|].
  assert (mine (staging j)) as Hm by by exists j.
  eapply (spec_bind _ _ _ (fun r d => match r with
    | Ok (Ok i) => staged_at (staging j) i EmptyString d ∧ tidy d
    | Ok (Err AlreadyExists) => waiting names (S j) d
    | _ => r ≠ Err OutOfFuel end)).
  - apply spec_attempt, spec_sys; [apply waiting_stable| |].
    + intros d Hs (Hn & Hj & Ht). destruct (dk_names d !! staging j) as [i|] eqn:Hname; cbn.
      * split; [by apply leaves_refl|]. split_and!; [done| |done]. intros k Hk.
        destruct (decide (k = j)) as [->|]; [rewrite <-Hn, Hname; by eexists|apply Hj; lia].
      * split; [by apply leaves_create|]. split.
        -- split_and!; [by cbn; rewrite lookup_insert_eq|by cbn; rewrite lookup_insert_eq|]. cbn.
           intros other [[<- _]|[_ Ho]]%lookup_insert_Some; [done|]. exfalso.
           destruct (sd_files _ Hs _ _ Ho) as [c Hc]. apply (is_fresh (dom (dk_data d))), elem_of_dom. by eexists.
        -- apply (tidy_same d); [|reflexivity|exact Ht]. intros name Hsc. cbn. apply lookup_insert_ne.
           intros <-. by apply Hsc, mine_scratch.
    + intros n detail d Hs _. split; [by apply leaves_refl|done].
  - intros [i|[|detail]].
    + eapply spec_conseq; [apply (spec_fill names (S fuel + j))|done|done].
    + replace (S fuel + j) with (fuel + S j) by lia. apply IH.
    + apply spec_err. by intros d Hs _.
  - intros e d Hs He. by destruct e.
Qed.

(** There are not that many names in the directory. *)
Lemma names_run_out names d : ¬ waiting names (S (size names)) d.
Proof.
  intros (_ & Hall & _).
  assert (size (list_to_set (map staging (seq 0 (S (size names)))) : gset string) ≤ size (dom names)) as Hl.
  { apply subseteq_size. intros name Hin%elem_of_list_to_set. apply list_elem_of_In, in_map_iff in Hin as (k & <- & Hk).
    apply elem_of_dom, Hall. apply in_seq in Hk. lia. }
  rewrite size_list_to_set, length_map, length_seq, size_dom in Hl; [lia|].
  change (map staging (seq 0 (S (size names)))) with (staging <$> seq 0 (S (size names))).
  apply NoDup_fmap_2_strong, NoDup_seq. intros j k _ _. apply staging_inj.
Qed.

Lemma publish_spec bytes h :
  sound (ho_disk h) → tidy (ho_disk h) →
  let (r, h') := cas_publish others broken_at kept process_id next_temp_name bytes h in
  sound (ho_disk h') ∧ settled_call (fun reference d => reference = reference_of bytes ∧ published reference d) r (ho_disk h') ∧
  ∃ steps, ho_steps h' = ho_steps h ++ steps ∧ Forall (fun s => sound s.1 ∧ leaves s.1 s.2) steps.
Proof.
  intros Hs Ht. set (names := dk_names (ho_disk h)).
  enough (spec (waiting names 0) (fun h0 : Host =>
    (let# present := fs_exists others broken_at (object_path (digest_of bytes)) in
     if present then
       let# _ := read_verified others broken_at (object_path (digest_of bytes)) (reference_of bytes) in cas_ret (reference_of bytes)
     else
       let# staged := stage others broken_at kept process_id next_temp_name (S (size names)) 0 bytes in
       do# finalize others broken_at staged (object_path (digest_of bytes)) (reference_of bytes) in
       cas_ret (reference_of bytes)) h0)
    (settled_call (fun reference d => reference = reference_of bytes ∧ published reference d))) as Hp.
  { specialize (Hp h Hs). unfold cas_publish. cbn zeta. fold names.
    change (or_digest (reference_of bytes)) with (digest_of bytes).
    specialize (Hp ltac:(split_and!; [done|lia|exact Ht])). revert Hp. cbn beta.
    by destruct (cas_bind _ _ h) as [r h']. }
  eapply (spec_bind _ _ _ (fun r d => match r with Ok _ => waiting names 0 d | Err _ => False end)); [| |done].
  - intros h0 Hs0 Hw0. unfold fs_exists.
    pose proof (spec_sys (waiting names 0) nothing (fun d => (Ok (bool_decide (is_Some (dk_names d !! object_path (digest_of bytes)))), d))
      (fun _ d => waiting names 0 d)) as Hx. specialize (Hx (waiting_stable _ _)
        ltac:(intros d Hd Hw; split; [by apply leaves_refl|done]) ltac:(intros n detail d Hd Hw; split; [by apply leaves_refl|done]) h0 Hs0 Hw0).
    destruct (sys _ _ _ _ h0) as [[b|e] h1]; exact Hx.
  - intros [|].
    + eapply (spec_bind _ _ _ (settled_call (fun _ => published (reference_of bytes)))).
      * apply spec_read_verified; [apply waiting_stable| |by eexists].
        intros d i c Hd (_ & _ & Htd) Hn Hc Hdig Hz. by eapply found_published.
      * intros c. apply spec_ret. by intros d Hd Hp.
      * by intros e d Hd [f ->]; eexists.
    + eapply spec_bind; [apply (spec_stage names (S (size names)) bytes 0)| |].
      * intros staged. eapply (spec_bind _ _ _ (settled_call (fun _ => published (reference_of bytes)))).
        -- intros h1 Hs1 (Hm & Hf & Htd). by eapply (spec_finalize staged bytes Hm).
        -- intros []. apply spec_ret. by intros d Hd Hp.
        -- by intros e d Hd [f ->]; eexists.
      * intros [f|] d Hd Hw; [by eexists|]. exfalso. rewrite Nat.add_0_r in Hw. by eapply names_run_out.
Qed.
End Publisher.

(** ** Many publishers *)

Lemma digits_dash_inj s s' t t' :
  all_digits s = true → all_digits s' = true → s +:+ String "-" t = s' +:+ String "-" t' → s = s' ∧ t = t'.
Proof.
  revert s'. induction s as [|b s IH]; intros [|b' s'] Hs Hs' Heq; cbn in *.
  - by injection Heq.
  - injection Heq as <- _. done.
  - injection Heq as -> _. done.
  - injection Heq as -> Heq. apply andb_true_iff in Hs as [_ Hs], Hs' as [_ Hs'].
    by destruct (IH s' Hs Hs' Heq) as [-> ->].
Qed.

(** Processes, and calls of one process that took different numbers, stage under
    different names. *)
Lemma staging_disjoint p p' t t' j k :
  (0 ≤ p)%Z → (0 ≤ p')%Z → staging_name p t j = staging_name p' t' k → p = p' ∧ t j = t' k.
Proof.
  intros Hp Hp' Heq%append_inj_l. assert (∀ z, (0 ≤ z)%Z → all_digits (i64_to_string z) = true) as Hd.
  { intros z Hz. unfold i64_to_string. destruct z; [|destruct (u64_to_string_spec (Z.to_N (Zpos p0))) as (b & ds & -> & H & _)|lia];
      done. }
  apply digits_dash_inj in Heq as [E1 E2]; [|by apply Hd..]. by apply i64_to_string_inj in E1, E2.
Qed.

(** *** The store's promises *)

Lemma publish_reference `{Sha256} others broken_at kept p t bytes h r h' :
  cas_publish others broken_at kept p t bytes h = (Ok r, h') → r = reference_of bytes.
Proof.
  unfold cas_publish, cas_bind. destruct (fs_exists _ _ _ h) as [[[]|] h1]; [| |done].
  - destruct (read_verified _ _ _ _ h1) as [[c|] h2]; [|done]. by intros [= <- _].
  - destruct (stage _ _ _ _ _ _ _ _ h1) as [[c|] h2]; [|done]. destruct (finalize _ _ _ _ _ h2) as [[u|] h3]; [|done].
    by intros [= <- _].
Qed.

(** The store as the sealing controller's port, the host as it is at every call. *)
Definition cas_objects `{Sha256} (others : nat → Disk → Disk) (broken_at : nat → option string) (kept : nat → nat)
    (process_id : Z) (next_temp_name : nat → Z) (host : nat → Host) : ContentObjectStore := {|
  port_publish n bytes :=
    match (cas_publish others broken_at kept process_id next_temp_name bytes (host n)).1 with
    | Ok reference => Ok reference
    | Err (Faulted f) => Err f
    | Err OutOfFuel => Err (fault "cas.write-failed" "unreachable")
    end |}.

(** The promise sealing asks of a content store is kept by this one. *)
Lemma cas_honest `{Sha256} others broken_at kept p t host reader object_name :
  (∀ n source contents names, port_blob_object_names reader n source contents = Ok names →
     names = map (object_name source) contents) →
  (∀ n source oid bytes, port_blob_bytes reader n source oid = Ok bytes → object_name source bytes = oid) →
  honest_ports reader (cas_objects others broken_at kept p t host) object_name.
Proof.
  intros Hn Hb. split; [done..|]. intros n bytes r. cbn [cas_objects port_publish].
  destruct (cas_publish _ _ _ _ _ bytes (host n)) as [[ref|[f|]] h'] eqn:Hp; [|done..]. intros [= <-].
  by apply publish_reference in Hp as ->.
Qed.

(** Any publisher that is not this call. *)
Definition elsewhere (process_id : Z) (next_temp_name : nat → Z) (name : string) : Prop :=
  scratch name ∧ ¬ mine process_id next_temp_name name.

(** C27: However many publishers run at once, whichever of their system calls fail and
    wherever the machine stops, every name of the directory that is not scratch is
    the digest of a file that was flushed. Publication relies on the others leaving
    its scratch names, their files and the objects alone, and each of its own system
    calls grants exactly that to every other publisher. It always comes to an end,
    and if it succeeds the object is there, under the digest and size it answers. *)
Theorem publishers_interleave `{Sha256} others broken_at kept process_id next_temp_name bytes h r h' :
  (∀ n d, sound d → considerate (mine process_id next_temp_name) d (others n d)) →
  (∀ j k, next_temp_name j = next_temp_name k → j = k) →
  sound (ho_disk h) →
  cas_publish others broken_at kept process_id next_temp_name bytes h = (r, h') →
  r ≠ Err OutOfFuel ∧
  (∀ reference, r = Ok reference → reference = reference_of bytes ∧ holds reference (ho_disk h')) ∧
  (∃ steps, ho_steps h' = ho_steps h ++ steps ∧ ∀ d d', (d, d') ∈ steps →
     considerate (elsewhere process_id next_temp_name) d d' ∧ sound d' ∧ ∀ stopped, crash d' stopped → sound stopped).
Proof.
  intros Hpolite Hfresh Hs Hx.
  pose proof (publish_spec others broken_at kept process_id next_temp_name (considerate (mine process_id next_temp_name))
    (fun d d' _ Hr => Hr) Hpolite Hfresh False (fun Hf => match Hf with end) bytes h Hs (fun Hf => match Hf with end)) as Hp.
  rewrite Hx in Hp. destruct Hp as (Hs' & Hq & steps & Heq & Hall). split_and!.
  - intros ->. destruct Hq as [f Hf]. done.
  - intros reference ->. destruct Hq as (-> & Hh & _). done.
  - exists steps. split; [done|]. intros d d' Hin. rewrite Forall_forall in Hall. destruct (Hall _ Hin) as [_ Hl].
    assert (sound d') as Hd' by by eapply leaves_sound. split; [by apply Hl|]. split; [done|].
    intros stopped. by apply crash_sound.
Qed.

(** C28: An object that was published survives: when the others flush what they link,
    a publication that succeeds leaves the object durable, so that it is still there
    after a power failure, and reading it back through the reference, any time later
    and on whatever the other publishers do meanwhile, either meets a fault or gives
    the published bytes (or other bytes of the same SHA-256), and gives them whenever the read
    itself does not fail. *)
Theorem published_object_survives `{Sha256} others broken_at kept process_id next_temp_name bytes h reference h'
    others' broken_at' stopped later h1 r h2 :
  (∀ n d, sound d → considerate (mine process_id next_temp_name) d (others n d) ∧ (all_linked d → all_linked (others n d))) →
  (∀ j k, next_temp_name j = next_temp_name k → j = k) →
  sound (ho_disk h) → all_linked (ho_disk h) →
  cas_publish others broken_at kept process_id next_temp_name bytes h = (Ok reference, h') →
  crash (ho_disk h') stopped →
  rtc (fun d d' => considerate (fun _ => False) d d') stopped later → ho_disk h1 = later →
  (∀ n d, sound d → considerate (fun _ => False) d (others' n d)) →
  cas_read others' broken_at' reference h1 = (r, h2) →
  (∀ read, r = Ok read → read = bytes ∨ clash read bytes) ∧ (broken_at' (ho_turn h1) = None → ∃ read, r = Ok read).
Proof.
  intros Hpolite Hfresh Hs Hlinked Hx Hcrash Hlater Hh1 Hpolite' Hread.
  pose proof (publish_spec others broken_at kept process_id next_temp_name
    (fun d d' => considerate (mine process_id next_temp_name) d d' ∧ (all_linked d → all_linked d'))
    (fun d d' _ Hr => proj1 Hr) Hpolite Hfresh True (fun _ d d' _ Hr => proj2 Hr) bytes h Hs (fun _ => Hlinked)) as Hp.
  rewrite Hx in Hp. destruct Hp as (Hs' & (-> & (i & c & Hn & Hd & Hdig & Hsz) & Hdurable) & _).
  set (name := object_path (or_digest (reference_of bytes))) in *.
  assert (¬ scratch name) as Hobj by apply object_not_scratch.
  assert (dk_names stopped !! name = Some i ∧ dk_data stopped !! i = Some c) as [Hn1 Hd1].
  { destruct (Hdurable I) as [j Hj]. fold name in Hj. pose proof (sd_durable _ Hs' _ _ Hobj Hj) as Hj'. rewrite Hn in Hj'.
    injection Hj' as <-. destruct Hcrash as (Hnames & Hfl & _). destruct (sd_objects _ Hs' _ _ Hobj Hn) as [Hf _].
    destruct (Hfl i Hf) as [_ ->]. split; [|done]. by destruct (Hnames name) as [-> | ->]. }
  assert (sound stopped) as Hs1 by by eapply crash_sound.
  assert (sound later ∧ dk_names later !! name = Some i ∧ dk_data later !! i = Some c) as (Hs2 & Hn2 & Hd2).
  { clear Hh1. revert Hs1 Hn1 Hd1. clear Hcrash. induction Hlater as [|x y z Hxy _ IH]; [done|]. intros Sx Nx Dx.
    destruct (cn_objects _ _ _ Hxy name i Hobj Nx) as [E1 E2]. apply IH; [by eapply cn_sound|done|by rewrite E2]. }
  subst later. pose proof (Hpolite' (ho_turn h1) _ Hs2) as Hc.
  destruct (cn_objects _ _ _ Hc name i Hobj Hn2) as [E1 E2]. rewrite Hd2 in E2.
  unfold cas_read, read_verified, faulted, fs_read, sys, cas_map_err, cas_bind in Hread. fold name in Hread.
  destruct (broken_at' (ho_turn h1)); [injection Hread as <- _; by split|].
  rewrite E1, E2 in Hread. cbn [ok_or] in Hread. rewrite Hsz, Z.eqb_refl, Hdig, bool_decide_true in Hread by done.
  cbn [negb] in Hread. injection Hread as <- _. split; [|by eauto]. intros read [= <-].
  destruct (decide (c = bytes)) as [|Hne]; [by left|right]. split; [done|]. by injection Hdig.
Qed.
