(* ===== verification/CasScenario.v ===== *)
(** * The object store at work *)

From Stdlib Require Import ZArith NArith Ascii Lia.
From S2P Require Import Prelude Utf8 Digest StoreConfiguration Scenario EngineSealing Cas.

#[local] Existing Instance stir_hash.

Definition empty_disk : Disk := {| dk_data := ∅; dk_flushed := ∅; dk_names := ∅; dk_linked := ∅ |}.

Definition host_of (d : Disk) : Host := {| ho_disk := d; ho_turn := 0; ho_steps := [] |}.

Definition undisturbed (n : nat) (d : Disk) : Disk := d.

Definition unbroken (n : nat) : option string := None.

(** The n-th system call fails. *)
Definition broken_call (n i : nat) : option string := if Nat.eqb i n then Some "input/output error" else None.

Local Abbreviation publishing broken d := (cas_publish undisturbed broken (fun _ => 0) 7 Z.of_nat "content" (host_of d)).

Definition published_ok {A} (r : Result A Halt) : bool := match r with Ok _ => true | Err _ => false end.

Lemma empty_sound : sound empty_disk.
Proof. split; cbn [empty_disk dk_data dk_flushed dk_names dk_linked]; intros name i; by rewrite lookup_empty. Qed.

Lemma publishing_runs : published_ok (publishing unbroken empty_disk).1 = true.
Proof. vm_compute. reflexivity. Qed.

Lemma publishers_interleave_witness :
  ∃ reference h', publishing unbroken empty_disk = (Ok reference, h') ∧ reference = reference_of "content" ∧
    holds reference (ho_disk h').
Proof.
  pose proof publishing_runs as Hr. destruct (publishing unbroken empty_disk) as [[reference|e] h'] eqn:E; [|discriminate Hr].
  destruct (publishers_interleave undisturbed unbroken (fun _ => 0) 7 Z.of_nat "content" (host_of empty_disk) (Ok reference) h')
    as (_ & Hok & _).
  - intros n d Hs. exact (considerate_refl _ d Hs).
  - intros j k Hjk. lia.
  - exact empty_sound.
  - exact E.
  - exists reference, h'. split; [reflexivity|]. exact (Hok reference eq_refl).
Defined.

(** What a stopped machine finds: the names the directory's last flush kept. *)
Definition restarted (d : Disk) : Disk :=
  {| dk_data := dk_data d; dk_flushed := dk_flushed d; dk_names := dk_linked d; dk_linked := dk_linked d |}.

Lemma restarted_crash d : crash d (restarted d).
Proof. split_and!; cbn; [by right|done..]. Qed.

Local Abbreviation reading reference d := (cas_read undisturbed unbroken reference (host_of d)).

Lemma published_object_survives_witness :
  ∃ reference h' read, publishing unbroken empty_disk = (Ok reference, h') ∧
    (reading reference (restarted (ho_disk h'))).1 = Ok read ∧ (read = "content" ∨ clash read "content").
Proof.
  pose proof publishing_runs as Hr. destruct (publishing unbroken empty_disk) as [[reference|e] h'] eqn:E; [|discriminate Hr].
  destruct (reading reference (restarted (ho_disk h'))) as [r h2] eqn:E2.
  destruct (published_object_survives undisturbed unbroken (fun _ => 0) 7 Z.of_nat "content" (host_of empty_disk) reference h'
    undisturbed unbroken (restarted (ho_disk h')) (restarted (ho_disk h')) (host_of (restarted (ho_disk h'))) r h2) as [Hread Hlive].
  - intros n d Hs. split; [exact (considerate_refl _ d Hs)|intros Hl; exact Hl].
  - intros j k Hjk. lia.
  - exact empty_sound.
  - intros name i _ Hi. cbn in Hi. rewrite lookup_empty in Hi. discriminate Hi.
  - exact E.
  - apply restarted_crash.
  - apply rtc_refl.
  - reflexivity.
  - intros n d Hs. exact (considerate_refl _ d Hs).
  - exact E2.
  - destruct (Hlive eq_refl) as [read Hr2]. exists reference, h', read. split; [reflexivity|]. rewrite E2.
    split; [exact Hr2|exact (Hread read Hr2)].
Defined.

(** ** A publication that is retried *)

Definition flush_fails : Result ObjectRef Halt * Host := publishing (broken_call 6) empty_disk.

Definition retried : Result ObjectRef Halt * Host := publishing unbroken (ho_disk flush_fails.2).

(** The flush of the directory fails, and so does the publication. Retried, it finds
    the object under its name and succeeds without flushing anything: a power failure
    loses the object although the publication was answered. *)
Theorem retried_publication_is_lost :
  match flush_fails.1 with Err (Faulted f) => xf_code f = "cas.durability-failed" | _ => False end ∧
  published_ok retried.1 = true ∧
  crash (ho_disk retried.2) (restarted (ho_disk retried.2)) ∧
  published_ok (cas_verify undisturbed unbroken (reference_of "content") (host_of (ho_disk retried.2))).1 = true ∧
  published_ok (cas_verify undisturbed unbroken (reference_of "content") (host_of (restarted (ho_disk retried.2)))).1 = false.
Proof.
  split; [vm_compute; reflexivity|]. split; [vm_compute; reflexivity|]. split; [apply restarted_crash|].
  split; vm_compute; reflexivity.
Qed.
