(* ===== verification/Container.v ===== *)
(** * The local container backend ([pantheon-sandbox/src/lib.rs])

    One Sandbox is one container of a runtime driven through its command line. The
    programs that are run ([podman] or [docker], [nsenter], [file], [which]), what
    [/proc] shows and the JSON reader are not part of this program: their answers, at
    every call, are an argument. Which programs were run is kept, in order. *)

From Stdlib Require Import ZArith NArith Ascii Lia SpecFloat.
From S2P Require Import Prelude Utf8 Digest Parse Sandbox Sql Schema Transaction Command StoreBase StoreSandbox StoreLaws StoreHistory StoreFrames EngineBase EngineSandbox.

(** ** The world outside *)

(** [std::process::Output]; the texts are [String::from_utf8_lossy] of the bytes. *)
Record Output : Type := { out_code : option Z; out_stdout : string; out_stderr : string }.

Definition success (o : Output) : bool := bool_decide (out_code o = Some 0%Z).

Record Machine : Type := {
  mc_spawn : nat → string → list string → Result Output string;
  mc_read_link : nat → string → Result string string;
  mc_read_file : nat → string → Result string string;
  mc_exists : nat → string → bool;
  (** [std::process::id], [std::env::consts::ARCH] and [OS] *)
  mc_process_id : Z;
  mc_arch : string;
  mc_os : string
}.

(** [serde_json]. *)
Class SerdeJson : Type := {
  Json : Type;
  json_from_str : string → Result Json string;
  json_get : Json → string → option Json;
  json_as_array : Json → option (list Json);
  json_as_str : Json → option string;
  json_as_bool : Json → option bool;
  json_as_u64 : Json → option Z;
  json_as_i64 : Json → option Z
}.

Record Box : Type := { bx_calls : nat; bx_ran : list (string * list string) }.

(** A panic ends the call without an answer. *)
Inductive BoxError (E : Type) : Type := Failed (e : E) | Panicked.
Arguments Failed {E} e.
Arguments Panicked {E}.

Definition Boxed (E A : Type) : Type := Box → Result A (BoxError E) * Box.

Definition box_ret {E A} (a : A) : Boxed E A := fun b => (Ok a, b).

Definition box_err {E A} (e : E) : Boxed E A := fun b => (Err (Failed e), b).

Definition box_try {E A} (r : Result A E) : Boxed E A := fun b => (map_err Failed r, b).

Definition box_bind {E A B} (m : Boxed E A) (k : A → Boxed E B) : Boxed E B := fun b =>
  match m b with
  | (Ok a, b') => k a b'
  | (Err e, b') => (Err e, b')
  end.

Notation "'let+' x := m 'in' k" := (box_bind m (fun x => k))
  (at level 10, x pattern, m at level 100, k at level 200) : rust_scope.
Notation "'do+' m 'in' k" := (box_bind m (fun _ => k))
  (at level 10, m at level 100, k at level 200) : rust_scope.

Definition box_map_err {E F A} (f : E → F) (m : Boxed E A) : Boxed F A := fun b =>
  match m b with
  | (Ok a, b') => (Ok a, b')
  | (Err (Failed e), b') => (Err (Failed (f e)), b')
  | (Err Panicked, b') => (Err Panicked, b')
  end.

(** The outcome of a call, error or not. *)
Definition box_attempt {E F A} (m : Boxed E A) : Boxed F (Result A E) := fun b =>
  match m b with
  | (Ok a, b') => (Ok (Ok a), b')
  | (Err (Failed e), b') => (Ok (Err e), b')
  | (Err Panicked, b') => (Err Panicked, b')
  end.

Definition box_some {E A} (o : option A) (e : E) : Boxed E A := box_try (ok_or o e).

(** One question to the world outside. *)
Definition box_ask {E A} (f : nat → Result A E) : Boxed E A := fun b =>
  (map_err Failed (f (bx_calls b)), {| bx_calls := S (bx_calls b); bx_ran := bx_ran b |}).

Definition box_spawn (m : Machine) (program : string) (args : list string) : Boxed string Output := fun b =>
  (map_err Failed (mc_spawn m (bx_calls b) program args),
   {| bx_calls := S (bx_calls b); bx_ran := bx_ran b ++ [(program, args)] |}).

(** ** Texts *)

(** [str::lines]: a carriage return belongs to the line break it stands before. *)
Definition strip_cr (s : string) : string := if ends_with (String "013" EmptyString) s then String.substring 0 (String.length s - 1) s else s.

Definition lines (s : string) : list string :=
  let pieces := split_on "010" s in
  map strip_cr (removelast pieces) ++
  (let last := List.last pieces EmptyString in if String.eqb last EmptyString then [] else [last]).

(** [str::split_whitespace], on characters. *)
Fixpoint words_of (cs current : list N) : list (list N) :=
  match cs with
  | [] => match current with [] => [] | _ => [current] end
  | c :: rest =>
      if char_is_whitespace c then match current with [] => words_of rest [] | _ => current :: words_of rest [] end
      else words_of rest (current ++ [c])
  end.

Definition split_whitespace (s : string) : list string := map of_chars (words_of (chars s) []).

(** [str::find] of an ASCII byte. *)
Fixpoint find_byte (c : ascii) (s : string) : option nat :=
  match s with
  | EmptyString => None
  | String b rest => if Ascii.eqb b c then Some 0 else S <$> find_byte c rest
  end.

Fixpoint trim_start_byte (c : ascii) (s : string) : string :=
  match s with
  | String b rest => if Ascii.eqb b c then trim_start_byte c rest else s
  | EmptyString => EmptyString
  end.

Definition join (sep : string) (pieces : list string) : string := String.concat sep pieces.

Definition u64_text (z : Z) : string := u64_to_string (Z.to_N z).

Definition bool_text (b : bool) : string := if b then "true" else "false".

(** [str::parse::<u64>]. *)
Fixpoint parse_digits (s : string) (acc : Z) : Result Z string :=
  match s with
  | EmptyString => Ok acc
  | String b rest =>
      if negb (is_digit b) then Err "invalid digit found in string"
      else
        let next := (acc * 10 + (Z.of_N (byte_val b) - 48))%Z in
        if (u64_max <? next)%Z then Err "number too large to fit in target type" else parse_digits rest next
  end.

Definition parse_u64 (s : string) : Result Z string :=
  match s with
  | EmptyString => Err "cannot parse integer from empty string"
  | String "+" (String b rest) => parse_digits (String b rest) 0
  | _ => parse_digits s 0
  end.

(** [format!("{:.2}")] of a nonnegative double: the exact value, rounded to hundredths,
    a tie to the even digit. *)
Definition hundredths (f : spec_float) : Z :=
  match f with
  | S754_finite _ m e =>
      if (0 <=? e)%Z then (Z.pos m * 2 ^ e * 100)%Z
      else
        let d := (2 ^ (- e))%Z in
        let q := (Z.pos m * 100 / d)%Z in
        let r := (Z.pos m * 100 mod d)%Z in
        if (d <? 2 * r)%Z || ((2 * r =? d)%Z && Z.odd q) then (q + 1)%Z else q
  | _ => 0%Z
  end.

Definition fixed_two (f : spec_float) : string :=
  let h := hundredths f in
  u64_text (h / 100) +:+ ("." +:+ (u64_text (h mod 100 / 10) +:+ u64_text (h mod 10))).

(** [f64::from(cpu) / 1000.0]. *)
Definition cpus_of (millicores : Z) : spec_float :=
  SFdiv 53 1024 (binary_normalize 53 1024 millicores 0 false) (binary_normalize 53 1024 1000 0 false).

(** ** The backend *)

Inductive RuntimeKind : Type := Podman | Docker.

Record LocalContainerBackend : Type := {
  lcb_runtime : string;
  lcb_kind : RuntimeKind;
  lcb_name_prefix : string;
  lcb_run_user : option string
}.

Definition name_prefix : string := "pantheon-sandbox-".

Definition backend_of (runtime : string) (kind : RuntimeKind) : LocalContainerBackend := {|
  lcb_runtime := runtime; lcb_kind := kind; lcb_name_prefix := name_prefix; lcb_run_user := Some "1000" |}.

Definition sandbox_error {A} (detail : string) : Boxed SandboxError A := box_err {| se_detail := detail |}.

(** [map_err] to a [SandboxError], the error's text after a prefix. *)
Definition explain {A} (prefix : string) (m : Boxed string A) : Boxed SandboxError A :=
  box_map_err (fun e => {| se_detail := prefix +:+ e |}) m.

(** *** What is asked of the runtime *)

Definition list_args (all : bool) (name : string) : list string :=
  ["ps"] ++ (if all then ["-a"] else []) ++ ["--filter"; "name=^" +:+ (name +:+ "$"); "--format"; "{{.Names}}"].

Definition network_arg (mode : SandboxNetworkMode) : string :=
  match mode with
  | SbNetNone => "--network=none"
  | SbNetBrokered => "--network=none"
  end.

Definition mount_spec (m : SandboxMount) : string :=
  "type=bind,source=" +:+ (mount_source m +:+ (",destination=" +:+
    (mount_destination m +:+ (if mount_read_only m then ",readonly" else EmptyString)))).

Definition create_args (run_user : option string) (name : string) (plan : SandboxPlan) : list string :=
  ["create"; "--name"; name; "--security-opt=no-new-privileges:true"; "--cap-drop=ALL"]
  ++ (match run_user with Some user => ["--user"; user] | None => [] end)
  ++ [network_arg (spl_network_mode plan)]
  ++ (match spl_cpu_limit_millicores plan with Some cpu => ["--cpus"; fixed_two (cpus_of cpu)] | None => [] end)
  ++ (match spl_memory_limit_mb plan with Some mem => ["--memory"; u64_text mem +:+ "m"] | None => [] end)
  ++ flat_map (fun m => ["--mount"; mount_spec m]) (spl_mounts plan)
  ++ [spl_environment_identity plan; "sleep"; "3600"].

(** *** Verification *)

Section Json.
Context `{SerdeJson}.

Definition json_text (j : Json) (key : string) : string := default EmptyString (json_get j key ≫= json_as_str).

Definition json_texts (j : Json) (key : string) : list string :=
  match json_get j key ≫= json_as_array with
  | Some values => omap json_as_str values
  | None => []
  end.

(** The one container an inspection describes. *)
Definition inspected (json : string) : Result Json string :=
  let? parsed := map_err (fun e => "inspect output is not valid JSON: " +:+ e) (json_from_str json) in
  ok_or (json_as_array parsed ≫= head) "inspect output is empty".

Definition u32_of (z : Z) : Z := (z mod 4294967296)%Z.

Definition container_pid_from_inspect (json : string) : Result Z string :=
  let? obj := inspected json in
  let? state := ok_or (json_get obj "State") "inspect output missing State" in
  let? pid := ok_or (json_get state "Pid" ≫= json_as_u64) "inspect output missing State.Pid" in
  if (pid =? 0)%Z then Err "container is not running" else Ok (u32_of pid).

(** Whether an entry of the inspected mounts is the one that was asked for. *)
Definition mount_matches (expected : SandboxMount) (m : Json) : bool :=
  let rw := match json_get m "RW" ≫= json_as_bool with
            | Some rw => rw
            | None => match json_get m "ReadOnly" ≫= json_as_bool with
                      | Some ro => negb ro
                      | None => true
                      end
            end in
  String.eqb (json_text m "Source") (mount_source expected)
  && String.eqb (json_text m "Destination") (mount_destination expected)
  && negb (Bool.eqb rw (mount_read_only expected))
  && (negb (mount_read_only expected) || contains_str "ro" (json_text m "Mode")).

Definition verify_mounts (actual : list Json) (expected : list SandboxMount) : bool :=
  forallb (fun e => existsb (mount_matches e) actual) expected.

(** The platform and architecture an inspection names. *)
Definition container_platform (obj : Json) : string * string :=
  match json_get obj "Platform" ≫= json_as_str with
  | Some platform =>
      match split_on "/" platform with
      | os :: arch :: _ => (os, arch)
      | [os] => (os, EmptyString)
      | [] => (EmptyString, EmptyString)
      end
  | None => (json_text obj "Os", json_text obj "Architecture")
  end.

Definition mapped_arch (arch : string) : string :=
  if String.eqb arch "amd64" then "x86_64"
  else if String.eqb arch "arm64" then "aarch64"
  else if String.eqb arch "386" then "i686"
  else arch.

Definition privilege_ok (host_config : Json) : bool :=
  negb (default false (json_get host_config "Privileged" ≫= json_as_bool)).

Definition capability_ok (host_config : Json) : bool :=
  negb (match json_texts host_config "CapDrop" with [] => true | _ => false end)
  && match json_texts host_config "CapAdd" with [] => true | _ => false end.

Definition network_ok (host_config : Json) (plan : SandboxPlan) : bool :=
  String.eqb (json_text host_config "NetworkMode")
    (match spl_network_mode plan with SbNetNone | SbNetBrokered => "none" end).

Definition limits_ok (host_config : Json) (plan : SandboxPlan) : bool :=
  let given key := bool_decide (is_Some (json_get host_config key ≫= json_as_i64)) in
  Bool.eqb (bool_decide (is_Some (spl_cpu_limit_millicores plan))) (given "NanoCpus")
  && Bool.eqb (bool_decide (is_Some (spl_memory_limit_mb plan))) (given "Memory").

Definition identity_ok (obj : Json) (key : SandboxKey) : bool :=
  String.eqb (trim_start_byte "/" (json_text obj "Name")) (name_prefix +:+ sandbox_key_text key).

Definition environment_ok (obj config : Json) (plan : SandboxPlan) : bool :=
  let image := json_text config "Image" in
  String.eqb image (spl_environment_identity plan)
  || String.eqb (json_text obj "ImageName") (spl_environment_identity plan)
  || ends_with ("/" +:+ spl_environment_identity plan) image.
End Json.

Section Backend.
Context `{SerdeJson}.
Variable machine : Machine.
Variable backend : LocalContainerBackend.

Definition container_name (key : SandboxKey) : string := lcb_name_prefix backend +:+ sandbox_key_text key.

(** *** Finding a runtime *)

Definition has_executable (name : string) : Boxed SandboxError bool :=
  let+ status := box_attempt (box_spawn machine "which" [name]) in
  box_ret (match status with Ok o => success o | Err _ => false end).

Definition detect : Boxed SandboxError LocalContainerBackend :=
  let+ podman := has_executable "podman" in
  if podman then box_ret (backend_of "podman" Podman)
  else
    let+ docker := has_executable "docker" in
    if docker then box_ret (backend_of "docker" Docker)
    else sandbox_error "no supported container runtime found on PATH (tried: podman, docker)".

Definition with_runtime (runtime : string) : Boxed SandboxError LocalContainerBackend :=
  let kind := if contains_str "podman" runtime then Podman else Docker in
  let+ found := has_executable runtime in
  if found then box_ret (backend_of runtime kind)
  else sandbox_error ("container runtime " +:+ (runtime +:+ " is not available on PATH")).

(** *** The runtime's command line *)

(** A run of the runtime whose failure is an error. *)
Definition runtime_call (args : list string) (unspawned verb : string) : Boxed SandboxError Output :=
  let+ output := explain unspawned (box_spawn machine (lcb_runtime backend) args) in
  if success output then box_ret output
  else sandbox_error (lcb_runtime backend +:+ (" " +:+ (verb +:+ (" failed: " +:+ out_stderr output)))).

Definition backend_version : Boxed SandboxError string :=
  let+ output := explain ("could not run " +:+ (lcb_runtime backend +:+ " --version: "))
                   (box_spawn machine (lcb_runtime backend) ["--version"]) in
  if success output then box_ret (trim (out_stdout output))
  else sandbox_error (lcb_runtime backend +:+ (" --version failed: " +:+ out_stderr output)).

Definition container_exists (name : string) : Boxed SandboxError bool :=
  let+ output := runtime_call (list_args true name) "could not list containers: " "ps" in
  box_ret (String.eqb (trim (out_stdout output)) name).

Definition container_running (name : string) : Boxed SandboxError bool :=
  let+ output := runtime_call (list_args false name) "could not list running containers: " "ps" in
  box_ret (String.eqb (trim (out_stdout output)) name).

Definition create_container (name : string) (plan : SandboxPlan) : Boxed SandboxError unit :=
  do+ runtime_call (create_args (lcb_run_user backend) name plan) "could not create container: " "create" in
  box_ret tt.

Definition start_container (name : string) : Boxed SandboxError unit :=
  do+ runtime_call ["start"; name] "could not start container: " "start" in
  box_ret tt.

(** Whether the runtime did it is not looked at. *)
Definition stop_container (name : string) : Boxed SandboxError unit :=
  do+ explain "could not stop container: " (box_spawn machine (lcb_runtime backend) ["stop"; "-t"; "10"; name]) in
  box_ret tt.

Definition remove_container (name : string) : Boxed SandboxError unit :=
  do+ explain "could not remove container: " (box_spawn machine (lcb_runtime backend) ["rm"; "-f"; name]) in
  box_ret tt.

Definition inspect_container (name : string) : Boxed SandboxError string :=
  let+ output := runtime_call ["inspect"; name] "could not inspect container: " "inspect" in
  box_ret (out_stdout output).

Definition exec_in_container_raw (name : string) (cmd : list string) : Boxed SandboxError Output :=
  explain "could not exec in container: " (box_spawn machine (lcb_runtime backend) (["exec"; name] ++ cmd)).

(** *** What the host sees of a process *)

Definition proc_path (pid : Z) (rest : string) : string := "/proc/" +:+ (u64_text pid +:+ ("/" +:+ rest)).

(** The number between the brackets; slicing panics when they are the wrong way round. *)
Definition ns_inode_of (link : string) : Boxed string Z :=
  let+ start := box_some (find_byte "[" link) "no [ in ns symlink" in
  let+ stop := box_some (find_byte "]" link) "no ] in ns symlink" in
  if Nat.ltb stop (S start) then fun b => (Err Panicked, b)
  else box_try (parse_u64 (String.substring (S start) (stop - S start) link)).

Definition read_ns_inode (pid : Z) (ns_type : string) : Boxed string Z :=
  let+ link := box_ask (fun n => mc_read_link machine n (proc_path pid ("ns/" +:+ ns_type))) in
  ns_inode_of link.

Definition read_proc_file (pid : Z) (filename : string) : Boxed string string :=
  box_ask (fun n => mc_read_file machine n (proc_path pid filename)).

Definition nsenter_net (pid : Z) (cmd : list string) : Boxed string Output :=
  box_spawn machine "nsenter" (["-t"; u64_text pid; "-n"] ++ cmd).

Definition file_names_arch (host_arch stdout : string) : option bool :=
  if String.eqb host_arch "x86_64" then Some (contains_str "x86-64" stdout || contains_str "x86_64" stdout)
  else if String.eqb host_arch "aarch64" then Some (contains_str "aarch64" stdout || contains_str "ARM aarch64" stdout)
  else if String.eqb host_arch "i686" then Some (contains_str "Intel 80386" stdout || contains_str "i386" stdout)
  else if String.eqb host_arch "arm" then Some (contains_str "ARM" stdout)
  else if String.eqb host_arch "riscv64" then Some (contains_str "RISC-V" stdout)
  else None.

Definition verify_container_arch_from_host (pid : Z) (host_arch host_platform : string) : Boxed string bool :=
  let exe_path := proc_path pid "exe" in
  let+ output := box_map_err (fun e => "cannot run file on " +:+ (exe_path +:+ (": " +:+ e)))
                   (box_spawn machine "file" ["-L"; exe_path]) in
  if negb (success output) then box_err ("file command failed: " +:+ out_stderr output)
  else if negb (String.eqb host_platform "linux") then box_ret false
  else box_some (file_names_arch host_arch (out_stdout output))
         ("unsupported host architecture for host-side verification: " +:+ host_arch).

(** *** Probes *)

Record BehavioralProbes : Type := {
  bp_seccomp_active : bool;
  bp_host_pid_hidden : bool;
  bp_host_user_namespace : bool;
  bp_host_mount_namespace : bool;
  bp_network_isolated : bool;
  bp_cloud_metadata_unreachable : bool;
  bp_dns_denied : bool;
  bp_forbidden_mounts_absent : bool;
  bp_runtime_socket_absent : bool;
  bp_control_plane_unreachable : bool
}.

Definition probe (name expected observed : string) (passed : bool) : SandboxProbeResult := {|
  probe_name := name; probe_expected := expected; probe_observed := observed; probe_passed := passed |}.

Definition seccomp_expected : string := "Seccomp:" +:+ String "009" "2".

Definition probe_seccomp (pid : Z) : Boxed SandboxError SandboxProbeResult :=
  let+ status := explain ("cannot read " +:+ (proc_path pid "status" +:+ ": ")) (read_proc_file pid "status") in
  let observed := match find_first (starts_with "Seccomp:") (lines status) with
                  | Some line => trim line
                  | None => "Seccomp line missing"
                  end in
  box_ret (probe "seccomp_active" "Seccomp: 2" observed (String.eqb observed seccomp_expected)).

(** The host's and the container's namespace of one kind. *)
Definition both_namespaces (pid : Z) (ns_type label : string) : Boxed SandboxError (Z * Z) :=
  let+ host := explain ("cannot read host " +:+ (label +:+ " namespace: ")) (read_ns_inode (mc_process_id machine) ns_type) in
  let+ container := explain ("cannot read container " +:+ (label +:+ " namespace: ")) (read_ns_inode pid ns_type) in
  box_ret (host, container).

Definition probe_namespace (pid : Z) (ns_type label name expected : string) : Boxed SandboxError SandboxProbeResult :=
  let+ (host, container) := both_namespaces pid ns_type label in
  let side which inode := which +:+ (" " +:+ (ns_type +:+ (":[" +:+ (u64_text inode +:+ "]")))) in
  box_ret (probe name expected (side "host" host +:+ (" " +:+ side "container" container)) (negb (host =? container)%Z)).

Definition probe_pid_namespace (pid : Z) : Boxed SandboxError SandboxProbeResult :=
  probe_namespace pid "pid" "PID" "pid_namespace" "distinct from host PID namespace".

Definition probe_user_namespace (pid : Z) : Boxed SandboxError SandboxProbeResult :=
  probe_namespace pid "user" "user" "user_namespace" "distinct from host user namespace".

Definition probe_mount_namespace (pid : Z) : Boxed SandboxError SandboxProbeResult :=
  probe_namespace pid "mnt" "mount" "mount_namespace" "distinct from host mount namespace".

(** An interface of [/proc/net/dev] other than the loopback. *)
Definition outside_interface (line : string) : bool :=
  let trimmed := trim line in
  negb (is_empty trimmed) && negb (starts_with "Inter-|" trimmed) && negb (starts_with "face |" trimmed)
  && negb (starts_with "lo:" trimmed).

Definition probe_network_namespace (pid : Z) : Boxed SandboxError SandboxProbeResult :=
  let+ (host, container) := both_namespaces pid "net" "net" in
  let ns_distinct := negb (host =? container)%Z in
  let+ output := explain "nsenter net check failed: " (nsenter_net pid ["cat"; "/proc/net/dev"]) in
  let non_lo := length (List.filter outside_interface (lines (out_stdout output))) in
  box_ret (probe "network_namespace" "distinct from host net namespace, 0 non-loopback interfaces"
    ("net ns distinct=" +:+ (bool_text ns_distinct +:+ (" non-loopback interfaces=" +:+ u64_text (Z.of_nat non_lo))))
    (ns_distinct && Nat.eqb non_lo 0)).

(** [nc], and [bash] when [nc] says neither. *)
Definition try_connect_nsenter (pid : Z) (host port : string) : Boxed SandboxError (string * string) :=
  let+ nc := box_attempt (nsenter_net pid ["nc"; "-z"; "-w"; "2"; host; port]) in
  let answered := match nc with
                  | Ok out => if success out then Some ("REACHABLE", trim (out_stderr out))
                              else if bool_decide (out_code out = Some 1%Z) then Some ("BLOCKED", trim (out_stderr out))
                              else None
                  | Err _ => None
                  end in
  match answered with
  | Some answer => box_ret answer
  | None =>
      let+ bash := explain "nsenter failed: " (nsenter_net pid
        ["/bin/bash"; "-c";
         "echo > /dev/tcp/" +:+ (host +:+ ("/" +:+ (port +:+ " 2>/dev/null && echo REACHABLE || echo BLOCKED")))]) in
      box_ret (trim (out_stdout bash), trim (out_stderr bash))
  end.

Definition probe_connection (pid : Z) (name host port : string) : Boxed SandboxError SandboxProbeResult :=
  let+ answer := box_attempt (try_connect_nsenter pid host port) in
  box_ret match answer with
          | Ok (stdout, stderr) =>
              probe name "BLOCKED" (if is_empty stdout && negb (is_empty stderr) then "stderr=" +:+ stderr else stdout)
                (String.eqb stdout "BLOCKED")
          | Err err => probe name "BLOCKED" ("probe execution error: " +:+ se_detail err) false
          end.

Definition probe_cloud_metadata (pid : Z) : Boxed SandboxError SandboxProbeResult :=
  probe_connection pid "cloud_metadata_reachability" "169.254.169.254" "80".

Definition probe_dns_denied (pid : Z) : Boxed SandboxError SandboxProbeResult :=
  probe_connection pid "dns_resolution" "8.8.8.8" "53".

Definition FORBIDDEN_MOUNTS : list string :=
  ["/.ssh"; "/.gnupg"; "/root/.ssh"; "/root/.gnupg"; "/root/.aws"; "/root/.config/gcloud"; "/var/run/docker.sock";
   "/run/docker.sock"].

Definition RUNTIME_SOCKETS : list string :=
  ["/run/docker.sock"; "/run/containerd.sock"; "/run/crio.sock"; "/run/podman/podman.sock"; "/var/run/docker.sock";
   "/var/run/containerd.sock"; "/var/run/crio.sock"; "/var/run/podman/podman.sock"].

Definition CONTROL_PATHS : list string := ["/pantheon.db"; "/workspace/pantheon.db"; "/root/.pantheon/pantheon.db"].

Definition read_mountinfo (pid : Z) : Boxed SandboxError string :=
  explain "cannot read container mountinfo: " (read_proc_file pid "mountinfo").

(** What was found of what must not be there. *)
Definition absence (name expected none : string) (found : list string) : SandboxProbeResult :=
  let passed := match found with [] => true | _ => false end in
  probe name expected (if passed then none else join ", " found) passed.

Definition named_in (mountinfo : string) (paths : list string) : list string :=
  List.filter (fun path => contains_str path mountinfo) paths.

Definition probe_forbidden_mounts (pid : Z) : Boxed SandboxError SandboxProbeResult :=
  let+ mountinfo := read_mountinfo pid in
  box_ret (absence "forbidden_mounts" "no host credential mounts" "none found" (named_in mountinfo FORBIDDEN_MOUNTS)).

Definition probe_runtime_sockets (pid : Z) : Boxed SandboxError SandboxProbeResult :=
  let+ mountinfo := read_mountinfo pid in
  box_ret (absence "runtime_socket_absent" "no container runtime sockets mounted" "none found"
    (named_in mountinfo RUNTIME_SOCKETS)).

Definition probe_control_plane (pid : Z) : Boxed SandboxError SandboxProbeResult :=
  let+ mountinfo := read_mountinfo pid in
  let mounted := existsb (fun line => existsb (contains_str "pantheon.db") (split_whitespace line)) (lines mountinfo) in
  box_ret (absence "control_plane_reachability" "pantheon.db not accessible" "none accessible"
    (named_in mountinfo CONTROL_PATHS ++ (if mounted then ["pantheon.db mounted"] else []))).

Definition run_probes (pid : Z) : Boxed SandboxError (list SandboxProbeResult * BehavioralProbes) :=
  let+ seccomp := probe_seccomp pid in
  let+ pid_ns := probe_pid_namespace pid in
  let+ user_ns := probe_user_namespace pid in
  let+ mount_ns := probe_mount_namespace pid in
  let+ net_ns := probe_network_namespace pid in
  let+ cloud := probe_cloud_metadata pid in
  let+ dns := probe_dns_denied pid in
  let+ forbidden := probe_forbidden_mounts pid in
  let+ sockets := probe_runtime_sockets pid in
  let+ ctrl := probe_control_plane pid in
  box_ret ([seccomp; pid_ns; user_ns; mount_ns; net_ns; cloud; dns; forbidden; sockets; ctrl],
    {| bp_seccomp_active := probe_passed seccomp; bp_host_pid_hidden := probe_passed pid_ns;
       bp_host_user_namespace := probe_passed user_ns; bp_host_mount_namespace := probe_passed mount_ns;
       bp_network_isolated := probe_passed net_ns; bp_cloud_metadata_unreachable := probe_passed cloud;
       bp_dns_denied := probe_passed dns; bp_forbidden_mounts_absent := probe_passed forbidden;
       bp_runtime_socket_absent := probe_passed sockets; bp_control_plane_unreachable := probe_passed ctrl |}).

(** What the inspection and the host's view of the process prove. *)
Definition verify_container_json (json : string) (key : SandboxKey) (plan : SandboxPlan) (pid : Z) :
    Boxed string SandboxVerification :=
  let+ obj := box_try (inspected json) in
  let+ host_config := box_some (json_get obj "HostConfig") "inspect output missing HostConfig" in
  let mounts_verified := verify_mounts (default [] (json_get obj "Mounts" ≫= json_as_array)) (spl_mounts plan) in
  let+ config := box_some (json_get obj "Config") "inspect output missing Config" in
  let '(platform, arch) := container_platform obj in
  let+ arch_ok :=
    (if is_empty arch && is_empty platform
     then verify_container_arch_from_host pid (mc_arch machine) (mc_os machine)
     else box_ret (String.eqb (mapped_arch arch) (mc_arch machine) && String.eqb platform (mc_os machine))) in
  if negb arch_ok then
    box_err ("container architecture/platform mismatch or unverifiable: container=" +:+ (platform +:+ ("/" +:+ (arch +:+
      (", host=" +:+ (mc_os machine +:+ ("/" +:+ mc_arch machine)))))))
  else
    let+ alive := box_ask (fun n => Ok (mc_exists machine n ("/proc/" +:+ u64_text pid))) in
    if negb alive then box_err ("container PID " +:+ (u64_text pid +:+ " does not exist in host /proc"))
    else box_ret {|
      sv_sandbox_key := key; sv_holder_id := sandbox_key_text key; sv_environment_identity := spl_environment_identity plan;
      sv_mounts_verified := mounts_verified && identity_ok obj key && environment_ok obj config plan;
      sv_network_mode_verified := network_ok host_config plan; sv_privilege_verified := privilege_ok host_config;
      sv_capability_verified := capability_ok host_config; sv_agent_control_route_verified := mounts_verified;
      sv_workspace_binding_verified := mounts_verified; sv_resource_limits_verified := limits_ok host_config plan;
      sv_seccomp_active_verified := false; sv_host_pid_hidden_verified := false;
      sv_host_user_namespace_verified := false; sv_host_mount_namespace_verified := false;
      sv_cloud_metadata_unreachable_verified := false; sv_dns_resolution_denied_verified := false;
      sv_forbidden_mounts_absent_verified := false; sv_runtime_socket_absent_verified := false;
      sv_cross_attempt_isolation_verified := false; sv_control_plane_unreachable_verified := false;
      sv_probe_results := []; sv_backend_descriptor := "unknown"; sv_backend_version := "unknown";
      sv_platform := "unknown"; sv_architecture := "unknown"; sv_probe_implementation_version := "unknown" |}.

(** *** The port *)

Definition container_ensure (key : SandboxKey) (plan : SandboxPlan) : Boxed SandboxError SandboxPresence :=
  let name := container_name key in
  let+ exists_ := container_exists name in
  if exists_ then
    let+ running := container_running name in
    if running then box_ret SbPresent
    else do+ start_container name in box_ret SbPresent
  else
    do+ create_container name plan in
    do+ start_container name in
    box_ret SbPresent.

Definition container_inspect (key : SandboxKey) : Boxed SandboxError SandboxPresence :=
  let name := container_name key in
  let+ exists_ := container_exists name in
  if negb exists_ then box_ret SbAbsent
  else
    let+ running := container_running name in
    box_ret (if running then SbPresent else SbUnknown).

Definition container_release (key : SandboxKey) : Boxed SandboxError unit :=
  let name := container_name key in
  let+ exists_ := container_exists name in
  if negb exists_ then box_ret tt
  else
    do+ stop_container name in
    do+ remove_container name in
    box_ret tt.

Definition container_verify (key : SandboxKey) (plan : SandboxPlan) : Boxed SandboxError SandboxVerification :=
  let+ inspect_json := inspect_container (container_name key) in
  let+ pid := box_map_err (fun detail => {| se_detail := detail |}) (box_try (container_pid_from_inspect inspect_json)) in
  let+ v := box_map_err (fun detail => {| se_detail := detail |}) (verify_container_json inspect_json key plan pid) in
  let+ (probe_results, probes) := run_probes pid in
  let+ version := backend_version in
  box_ret {|
    sv_sandbox_key := sv_sandbox_key v; sv_holder_id := sv_holder_id v; sv_environment_identity := sv_environment_identity v;
    sv_mounts_verified := sv_mounts_verified v; sv_network_mode_verified := sv_network_mode_verified v;
    sv_privilege_verified := sv_privilege_verified v; sv_capability_verified := sv_capability_verified v;
    sv_agent_control_route_verified := sv_agent_control_route_verified v;
    sv_workspace_binding_verified := sv_workspace_binding_verified v;
    sv_resource_limits_verified := sv_resource_limits_verified v;
    sv_seccomp_active_verified := bp_seccomp_active probes; sv_host_pid_hidden_verified := bp_host_pid_hidden probes;
    sv_host_user_namespace_verified := bp_host_user_namespace probes;
    sv_host_mount_namespace_verified := bp_host_mount_namespace probes;
    sv_cloud_metadata_unreachable_verified := bp_cloud_metadata_unreachable probes;
    sv_dns_resolution_denied_verified := bp_dns_denied probes;
    sv_forbidden_mounts_absent_verified := bp_forbidden_mounts_absent probes;
    sv_runtime_socket_absent_verified := bp_runtime_socket_absent probes;
    sv_cross_attempt_isolation_verified := bp_host_mount_namespace probes;
    sv_control_plane_unreachable_verified := bp_control_plane_unreachable probes;
    sv_probe_results := probe_results; sv_backend_descriptor := lcb_runtime backend; sv_backend_version := version;
    sv_platform := mc_os machine; sv_architecture := mc_arch machine; sv_probe_implementation_version := "2" |}.

(** The answer of one call, the machine as it is then. *)
Definition answer {A} (m : Boxed SandboxError A) (b : Box) : Result A SandboxError :=
  match (m b).1 with
  | Ok a => Ok a
  | Err (Failed e) => Err e
  | Err Panicked => Err {| se_detail := "panicked" |}
  end.

(** The controller's port; [boxes] is where each call finds the machine. *)
Definition local_backend (boxes : nat → Box) : SandboxBackend := {|
  ensure_sandbox := fun n key plan => answer (container_ensure key plan) (boxes n);
  inspect_sandbox := fun n key => answer (container_inspect key) (boxes n);
  release_sandbox := fun n key => answer (container_release key) (boxes n);
  verify_sandbox := fun n key plan => answer (container_verify key plan) (boxes n) |}.
End Backend.

(** ** Inversion *)

Lemma box_bind_Ok {E A B} (m : Boxed E A) (k : A → Boxed E B) b x b' :
  box_bind m k b = (Ok x, b') → ∃ a b1, m b = (Ok a, b1) ∧ k a b1 = (Ok x, b').
Proof. unfold box_bind. destruct (m b) as [[a|e] b1]; [eauto|done]. Qed.

Lemma box_map_err_Ok {E F A} (f : E → F) (m : Boxed E A) b x b' :
  box_map_err f m b = (Ok x, b') → m b = (Ok x, b').
Proof. unfold box_map_err. destruct (m b) as [[a|[e|]] b1]; congruence. Qed.

Lemma box_try_Ok {E A} (r : Result A E) b x b' : box_try r b = (Ok x, b') → r = Ok x ∧ b' = b.
Proof. unfold box_try. destruct r; cbn; [by intros [= -> ->]|done]. Qed.

Lemma box_some_Ok {E A} (o : option A) (e : E) b x b' : box_some o e b = (Ok x, b') → o = Some x ∧ b' = b.
Proof. unfold box_some. intros [Ho ->]%box_try_Ok. by destruct o; [injection Ho as ->|]. Qed.

Lemma box_ret_Ok {E A} (a : A) b x b' : box_ret (E:=E) a b = (Ok x, b') → x = a ∧ b' = b.
Proof. by intros [= -> ->]. Qed.

Lemma box_ask_Ok {E A} (f : nat → Result A E) b x b' : box_ask f b = (Ok x, b') → ∃ n, f n = Ok x.
Proof. unfold box_ask. intros [= Hf _]. exists (bx_calls b). destruct (f _); [by injection Hf as ->|done]. Qed.

Lemma box_spawn_Ok m program args b x b' : box_spawn m program args b = (Ok x, b') → ∃ n, mc_spawn m n program args = Ok x.
Proof. unfold box_spawn. intros [= Hf _]. exists (bx_calls b). destruct (mc_spawn _ _ _ _); [by injection Hf as ->|done]. Qed.

(** Takes the next step of a call that answered. *)
Tactic Notation "box_step" hyp(H) "as" ident(E) :=
  let a := fresh "a" in let b1 := fresh "b" in
  apply box_bind_Ok in H; destruct H as (a & b1 & E & H);
  repeat lazymatch type of E with
  | box_map_err _ _ _ = _ => apply box_map_err_Ok in E
  | explain _ _ _ = _ => apply box_map_err_Ok in E
  | box_try _ _ = _ => apply box_try_Ok in E; destruct E as [E ->]
  | box_some _ _ _ = _ => apply box_some_Ok in E; destruct E as [E ->]
  end.

(** ** What a verified container is *)

Section Verified.
Context `{SerdeJson}.
Variable machine : Machine.
Variable backend : LocalContainerBackend.

(** At some moment the process and the host were in different namespaces of a kind. *)
Definition apart (pid : Z) (ns_type : string) : Prop :=
  ∃ n1 n2 host_link link host container b,
    mc_read_link machine n1 (proc_path (mc_process_id machine) ("ns/" +:+ ns_type)) = Ok host_link ∧
    mc_read_link machine n2 (proc_path pid ("ns/" +:+ ns_type)) = Ok link ∧
    ns_inode_of host_link b = (Ok host, b) ∧ ns_inode_of link b = (Ok container, b) ∧ host ≠ container.

(** At some moment none of the paths was mounted in the process. *)
Definition unmounted (pid : Z) (paths : list string) : Prop :=
  ∃ n mountinfo, mc_read_file machine n (proc_path pid "mountinfo") = Ok mountinfo ∧
    ∀ path, path ∈ paths → contains_str path mountinfo = false.

Definition filtered (pid : Z) : Prop :=
  ∃ n status line, mc_read_file machine n (proc_path pid "status") = Ok status ∧
    find_first (starts_with "Seccomp:") (lines status) = Some line ∧ trim line = seccomp_expected.

(** What the runtime said of the container. *)
Record inspected_as (key : SandboxKey) (plan : SandboxPlan) (obj host_config config : Json) : Prop := {
  ia_host : json_get obj "HostConfig" = Some host_config;
  ia_config : json_get obj "Config" = Some config;
  ia_name : trim_start_byte "/" (json_text obj "Name") = name_prefix +:+ sandbox_key_text key;
  ia_image : environment_ok obj config plan = true;
  ia_privilege : json_get host_config "Privileged" ≫= json_as_bool ≠ Some true;
  ia_added : json_texts host_config "CapAdd" = [];
  ia_dropped : json_texts host_config "CapDrop" ≠ [];
  ia_network : json_text host_config "NetworkMode" = "none";
  ia_mounts m : m ∈ spl_mounts plan → ∃ j, j ∈ default [] (json_get obj "Mounts" ≫= json_as_array) ∧ mount_matches m j = true;
  ia_cpu : is_Some (spl_cpu_limit_millicores plan) ↔ is_Some (json_get host_config "NanoCpus" ≫= json_as_i64);
  ia_memory : is_Some (spl_memory_limit_mb plan) ↔ is_Some (json_get host_config "Memory" ≫= json_as_i64)
}.

(** A connection out of the container's network was tried and blocked. *)
Definition blocked (pid : Z) (host port : string) : Prop :=
  ∃ b b' stderr, try_connect_nsenter machine pid host port b = (Ok ("BLOCKED", stderr), b').

(** Everything a verification looked at. *)
Record isolated (key : SandboxKey) (plan : SandboxPlan) (pid : Z) : Prop := {
  is_inspected : ∃ n out obj host_config config,
    mc_spawn machine n (lcb_runtime backend) ["inspect"; container_name backend key] = Ok out ∧ success out = true ∧
    inspected (out_stdout out) = Ok obj ∧ container_pid_from_inspect (out_stdout out) = Ok pid ∧
    inspected_as key plan obj host_config config;
  is_alive : ∃ n, mc_exists machine n ("/proc/" +:+ u64_text pid) = true;
  is_filtered : filtered pid;
  is_apart ns_type : ns_type ∈ ["pid"; "user"; "mnt"] → apart pid ns_type;
  is_metadata : blocked pid "169.254.169.254" "80";
  is_dns : blocked pid "8.8.8.8" "53";
  is_forbidden : unmounted pid FORBIDDEN_MOUNTS;
  is_sockets : unmounted pid RUNTIME_SOCKETS;
  is_control : unmounted pid CONTROL_PATHS
}.

Lemma ns_inode_same link b x b' : ns_inode_of link b = (Ok x, b') → b' = b ∧ ∀ c, ns_inode_of link c = (Ok x, c).
Proof.
  unfold ns_inode_of. intros Hx. box_step Hx as E1. box_step Hx as E2. destruct (Nat.ltb _ _) eqn:El; [done|].
  apply box_try_Ok in Hx as [Hp ->]. split; [done|]. intros c.
  unfold box_bind, box_some, box_try. rewrite E1, E2. cbn [ok_or map_err]. by rewrite El, Hp.
Qed.

Lemma probe_namespace_apart pid ns_type label name expected b r b' :
  probe_namespace machine pid ns_type label name expected b = (Ok r, b') → probe_passed r = true → apart pid ns_type.
Proof.
  unfold probe_namespace, both_namespaces, read_ns_inode. intros Hx Hp. box_step Hx as E. destruct a as [host container].
  box_step E as E1. box_step E as E2. apply box_ret_Ok in E as [[= -> ->] ->]. apply box_ret_Ok in Hx as [-> _].
  cbn in Hp. apply negb_true_iff, Z.eqb_neq in Hp. box_step E1 as L1. box_step E2 as L2.
  apply box_ask_Ok in L1 as [n1 L1], L2 as [n2 L2]. apply ns_inode_same in E1 as [_ E1], E2 as [_ E2].
  exists n1, n2, a1, a2, a, a0, b. split_and!; auto.
Qed.

Lemma absence_passed name expected none found : probe_passed (absence name expected none found) = true → found = [].
Proof. by destruct found. Qed.

Lemma named_in_nil mountinfo paths : named_in mountinfo paths = [] → ∀ path, path ∈ paths → contains_str path mountinfo = false.
Proof.
  unfold named_in. intros Hn path Hp. apply not_true_iff_false. intros Hc.
  assert (path ∈ List.filter (fun path => contains_str path mountinfo) paths) as Hin
    by (apply list_elem_of_In, filter_In; by rewrite <-list_elem_of_In).
  rewrite Hn in Hin. by apply not_elem_of_nil in Hin.
Qed.

Lemma probe_forbidden_passed pid b r b' :
  probe_forbidden_mounts machine pid b = (Ok r, b') → probe_passed r = true → unmounted pid FORBIDDEN_MOUNTS.
Proof.
  unfold probe_forbidden_mounts, read_mountinfo, explain, read_proc_file. intros Hx Hp. box_step Hx as E.
  apply box_ask_Ok in E as [n E]. apply box_ret_Ok in Hx as [-> _]. apply absence_passed in Hp.
  exists n, a. split; [done|by apply named_in_nil].
Qed.

Lemma probe_sockets_passed pid b r b' :
  probe_runtime_sockets machine pid b = (Ok r, b') → probe_passed r = true → unmounted pid RUNTIME_SOCKETS.
Proof.
  unfold probe_runtime_sockets, read_mountinfo, explain, read_proc_file. intros Hx Hp. box_step Hx as E.
  apply box_ask_Ok in E as [n E]. apply box_ret_Ok in Hx as [-> _]. apply absence_passed in Hp.
  exists n, a. split; [done|by apply named_in_nil].
Qed.

Lemma probe_control_passed pid b r b' :
  probe_control_plane machine pid b = (Ok r, b') → probe_passed r = true → unmounted pid CONTROL_PATHS.
Proof.
  unfold probe_control_plane, read_mountinfo, explain, read_proc_file. intros Hx Hp. box_step Hx as E.
  apply box_ask_Ok in E as [n E]. apply box_ret_Ok in Hx as [-> _]. apply absence_passed, app_eq_nil in Hp as [Hp _].
  exists n, a. split; [done|by apply named_in_nil].
Qed.

Lemma probe_seccomp_passed pid b r b' :
  probe_seccomp machine pid b = (Ok r, b') → probe_passed r = true → filtered pid.
Proof.
  unfold probe_seccomp, explain, read_proc_file. intros Hx Hp. box_step Hx as E. apply box_ask_Ok in E as [n E].
  apply box_ret_Ok in Hx as [-> _]. cbn [probe probe_passed] in Hp. apply String.eqb_eq in Hp.
  destruct (find_first _ _) as [line|] eqn:Hl; [|done]. by exists n, a, line.
Qed.

Lemma probe_connection_passed pid name host port b r b' :
  probe_connection machine pid name host port b = (Ok r, b') → probe_passed r = true → blocked pid host port.
Proof.
  unfold probe_connection. intros Hx Hp. box_step Hx as E. apply box_ret_Ok in Hx as [-> _]. unfold box_attempt in E.
  destruct (try_connect_nsenter machine pid host port b) as [[[stdout stderr]|[e|]] b1] eqn:Et; [| |done]; injection E as <- <-.
  - cbn in Hp. apply String.eqb_eq in Hp as ->. by exists b, b1, stderr.
  - done.
Qed.

(** What the ten probes, all run, prove of a process. *)
Lemma run_probes_Ok pid b results probes b' :
  run_probes machine pid b = (Ok (results, probes), b') →
  (bp_seccomp_active probes = true → filtered pid) ∧
  (bp_host_pid_hidden probes = true → apart pid "pid") ∧
  (bp_host_user_namespace probes = true → apart pid "user") ∧
  (bp_host_mount_namespace probes = true → apart pid "mnt") ∧
  (bp_cloud_metadata_unreachable probes = true → blocked pid "169.254.169.254" "80") ∧
  (bp_dns_denied probes = true → blocked pid "8.8.8.8" "53") ∧
  (bp_forbidden_mounts_absent probes = true → unmounted pid FORBIDDEN_MOUNTS) ∧
  (bp_runtime_socket_absent probes = true → unmounted pid RUNTIME_SOCKETS) ∧
  (bp_control_plane_unreachable probes = true → unmounted pid CONTROL_PATHS).
Proof.
  unfold run_probes. intros Hx. box_step Hx as E1. box_step Hx as E2. box_step Hx as E3. box_step Hx as E4. box_step Hx as E5.
  box_step Hx as E6. box_step Hx as E7. box_step Hx as E8. box_step Hx as E9. box_step Hx as E10.
  apply box_ret_Ok in Hx as [[= -> ->] _]. cbn. split_and!.
  - by eapply probe_seccomp_passed.
  - by eapply probe_namespace_apart.
  - by eapply probe_namespace_apart.
  - by eapply probe_namespace_apart.
  - by eapply probe_connection_passed.
  - by eapply probe_connection_passed.
  - by eapply probe_forbidden_passed.
  - by eapply probe_sockets_passed.
  - by eapply probe_control_passed.
Qed.

Lemma bool_decide_same (P Q : Prop) `{!Decision P, !Decision Q} : Bool.eqb (bool_decide P) (bool_decide Q) = true → (P ↔ Q).
Proof. do 2 case_bool_decide; cbn; naive_solver. Qed.

(** What the inspection proves, up to the probes. *)
Lemma verify_json_Ok json key plan pid b v b' :
  verify_container_json machine json key plan pid b = (Ok v, b') →
  sv_mounts_verified v = true → sv_network_mode_verified v = true → sv_privilege_verified v = true →
  sv_capability_verified v = true → sv_resource_limits_verified v = true →
  (∃ obj host_config config, inspected json = Ok obj ∧ inspected_as key plan obj host_config config) ∧
  ∃ n, mc_exists machine n ("/proc/" +:+ u64_text pid) = true.
Proof.
  unfold verify_container_json. intros Hx. box_step Hx as Eo. box_step Hx as Eh. box_step Hx as Ec.
  destruct (container_platform a) as [platform arch]. box_step Hx as Ea. destruct (negb a2); [done|].
  box_step Hx as Ex. apply box_ask_Ok in Ex as [n [= Hn]]. destruct a3; [|done]. cbn [negb] in Hx.
  apply box_ret_Ok in Hx as [-> _]. cbn. intros Hm Hnet Hp Hc Hl. split; [|by exists n].
  exists a, a0, a1. split; [done|]. rewrite !andb_true_iff in Hm. destruct Hm as [[Hm Hid] Henv].
  unfold network_ok in Hnet. apply String.eqb_eq in Hnet. unfold identity_ok in Hid. apply String.eqb_eq in Hid.
  unfold capability_ok in Hc. apply andb_true_iff in Hc as [Hdrop Hadd].
  unfold limits_ok in Hl. apply andb_true_iff in Hl as [Hcpu Hmem]. split; try done.
  - intros Htrue. unfold privilege_ok in Hp. by rewrite Htrue in Hp.
  - by destruct (json_texts a0 "CapAdd").
  - by destruct (json_texts a0 "CapDrop").
  - rewrite Hnet. by destruct (spl_network_mode plan).
  - intros m Hin. unfold verify_mounts in Hm. pose proof (proj1 (forallb_True _ _) Hm m Hin) as He. cbn in He.
    apply existsb_exists in He as (j & Hj%list_elem_of_In & He). by exists j.
  - exact (bool_decide_same _ _ Hcpu).
  - exact (bool_decide_same _ _ Hmem).
Qed.

Lemma runtime_call_Ok args unspawned verb b out b' :
  runtime_call machine backend args unspawned verb b = (Ok out, b') →
  success out = true ∧ ∃ n, mc_spawn machine n (lcb_runtime backend) args = Ok out.
Proof.
  unfold runtime_call. intros Hx. box_step Hx as E. apply box_spawn_Ok in E. destruct (success a) eqn:Hs; [|done].
  apply box_ret_Ok in Hx as [-> _]. done.
Qed.

Lemma verify_isolated key plan b v b' :
  container_verify machine backend key plan b = (Ok v, b') → all_passed v = true → ∃ pid, isolated key plan pid.
Proof.
  unfold container_verify. intros Hx. box_step Hx as Ei. box_step Hx as Ep. box_step Hx as Ev. box_step Hx as Eprobes.
  destruct a2 as [results probes]. box_step Hx as Everion. apply box_ret_Ok in Hx as [-> _].
  unfold all_passed. cbn. rewrite !andb_true_iff. intros Hall. exists a0.
  unfold inspect_container in Ei. box_step Ei as Ei'. apply box_ret_Ok in Ei as [-> _].
  apply runtime_call_Ok in Ei' as [Hs [n Hn]].
  destruct Hall as [[[[[[[[[[[[[[[[Hm Hnet] Hpriv] Hcap] _] _] Hlim] Hsec] Hpid] Huser] Hmnt] Hcloud] Hdns] Hforb] Hsock] _] Hctrl].
  destruct (verify_json_Ok _ _ _ _ _ _ _ Ev) as [(obj & hc & cfg & Hobj & Hia) Halive]; try done.
  destruct (run_probes_Ok _ _ _ _ _ Eprobes) as (P1 & P2 & P3 & P4 & P5 & P6 & P7 & P8 & P9).
  split; auto.
  - exists n, a3, obj, hc, cfg. by split_and!.
  - intros ns Hin. set_unfold in Hin. destruct Hin as [->|[->|[->|[]]]]; auto.
Qed.
End Verified.

(** The provisioning controller over this backend makes no Sandbox Ready while there is
    no such container. *)
Theorem container_never_ready `{SerdeJson, Sha256} slots c run_id plan key machine backend boxes :
  (∀ i q, q ∈ slot_before (slots i) → is_ready_step (rq_operation q) = false) →
  derive_sandbox_key run_id = Ok key → (∀ pid, ¬ isolated machine backend key plan pid) →
  keeps (on_db no_new_ready) (provision slots c run_id plan (local_backend machine backend boxes)).
Proof.
  intros Ho Hk Hn. eapply provision_no_ready; [done|exact Hk|]. intros n v _. cbn [local_backend verify_sandbox]. unfold answer.
  destruct (container_verify machine backend key plan (boxes n)) as [[v'|[e|]] b'] eqn:Hv; cbn; [|done..].
  intros [= ->]. apply not_true_iff_false. intros Hp. destruct (verify_isolated _ _ _ _ _ _ _ Hv Hp) as [pid Hi]. by eapply Hn.
Qed.

