(* ===== verification/ContainerScenario.v ===== *)
(** * A container verified, and what the verification misses *)

From Stdlib Require Import ZArith Ascii Lia.
From S2P Require Import Prelude Utf8 Digest Sandbox EngineSandbox Container.

(** ** A reader of one document *)

Inductive Doc : Type :=
| DText (s : string)
| DFlag (b : bool)
| DNumber (z : Z)
| DList (l : list Doc)
| DFields (l : list (string * Doc)).

Definition doc_get (j : Doc) (key : string) : option Doc :=
  match j with
  | DFields fields => snd <$> find_first (fun f => String.eqb f.1 key) fields
  | _ => None
  end.

Definition story_mount : SandboxMount :=
  {| mount_source := "/srv/w"; mount_destination := "/workspace"; mount_read_only := false |}.

Definition story_inspection : Doc := DList [DFields [
  ("Name", DText "/pantheon-sandbox-k");
  ("State", DFields [("Pid", DNumber 7)]);
  ("Os", DText "linux");
  ("Architecture", DText "amd64");
  ("HostConfig", DFields [("Privileged", DFlag false); ("CapDrop", DList [DText "ALL"]); ("NetworkMode", DText "none");
                          ("Memory", DNumber 268435456)]);
  ("Config", DFields [("Image", DText "registry/image")]);
  ("Mounts", DList [DFields [("Source", DText "/srv/w"); ("Destination", DText "/workspace"); ("RW", DFlag true)]])]].

#[local] Instance story_json : SerdeJson := {|
  Json := Doc;
  json_from_str := fun s => if String.eqb s "inspection" then Ok story_inspection else Err "expected value at line 1 column 1";
  json_get := doc_get;
  json_as_array := fun j => match j with DList l => Some l | _ => None end;
  json_as_str := fun j => match j with DText s => Some s | _ => None end;
  json_as_bool := fun j => match j with DFlag b => Some b | _ => None end;
  json_as_u64 := fun j => match j with DNumber z => if (0 <=? z)%Z then Some z else None | _ => None end;
  json_as_i64 := fun j => match j with DNumber z => Some z | _ => None end |}.

(** ** A host *)

Definition ran (code : Z) (stdout stderr : string) : Result Output string :=
  Ok {| out_code := Some code; out_stdout := stdout; out_stderr := stderr |}.

Definition newline : string := String "010" EmptyString.

(** [nsenter] as [enter] answers; the container shares the host's network when [shared]. *)
Definition story_host (shared : bool) (enter : list string → Result Output string) : Machine := {|
  mc_spawn := fun _ program args =>
    if String.eqb program "podman" then
      match args with
      | ["inspect"; "pantheon-sandbox-k"] => ran 0 "inspection" EmptyString
      | ["--version"] => ran 0 ("podman version 5" +:+ newline) EmptyString
      | _ => ran 125 EmptyString "unknown"
      end
    else if String.eqb program "nsenter" then enter args
    else Err "No such file or directory";
  mc_read_link := fun _ path =>
    if starts_with "/proc/7/ns/" path then Ok (if shared && ends_with "net" path then "net:[1]" else "ns:[2]") else Ok "ns:[1]";
  mc_read_file := fun _ path =>
    if String.eqb path "/proc/7/status" then Ok ("State:" +:+ (newline +:+ (seccomp_expected +:+ newline)))
    else if String.eqb path "/proc/7/mountinfo" then Ok ("36 35 98:0 /srv/w /workspace rw" +:+ newline)
    else Err "No such file or directory";
  mc_exists := fun _ path => String.eqb path "/proc/7";
  mc_process_id := 3;
  mc_arch := "x86_64";
  mc_os := "linux" |}.

(** The connections time out. *)
Definition closed_net (args : list string) : Result Output string :=
  match args with
  | ["-t"; "7"; "-n"; "cat"; "/proc/net/dev"] => ran 0 ("Inter-| Receive" +:+ (newline +:+ ("    lo: 0" +:+ newline))) EmptyString
  | _ => ran 1 EmptyString "timed out"
  end.

(** [nsenter] itself fails: it may not enter the namespace. *)
Definition refused (args : list string) : Result Output string :=
  ran 1 EmptyString "nsenter: reassociate to namespace failed: Operation not permitted".

Definition story_box : Box := {| bx_calls := 0; bx_ran := [] |}.

Definition story_key : SandboxKey := mk_sandbox_key "k".

Definition story_plan : SandboxPlan := {|
  spl_sandbox_profile_digest := mk_digest "profile"; spl_environment_identity := "image"; spl_mounts := [story_mount];
  spl_network_mode := SbNetNone; spl_cpu_limit_millicores := None; spl_memory_limit_mb := Some 256%Z |}.

Definition podman : LocalContainerBackend := backend_of "podman" Podman.

Definition story_verify (m : Machine) := container_verify m podman story_key story_plan story_box.

(** Nothing the container shares with the host. *)
Lemma story_passes : match (story_verify (story_host false closed_net)).1 with Ok v => all_passed v | _ => false end = true.
Proof. vm_compute. reflexivity. Qed.


Definition probe_of (name : string) (v : SandboxVerification) : option SandboxProbeResult :=
  find_first (fun r => String.eqb (probe_name r) name) (sv_probe_results v).

(** A container in the host's own network, which [nsenter] is not allowed to enter, is
    verified: the failed network probe is recorded and not looked at, and the exit code
    1 of [nsenter] is taken for [nc]'s answer that the port is closed. *)
Theorem host_network_is_verified :
  ∃ v b probe, story_verify (story_host true refused) = (Ok v, b) ∧ all_passed v = true ∧
    probe_of "network_namespace" v = Some probe ∧ probe_passed probe = false.
Proof.
  assert (match (story_verify (story_host true refused)).1 with
          | Ok v => all_passed v && match probe_of "network_namespace" v with Some p => negb (probe_passed p) | None => false end
          | Err _ => false
          end = true) as Hx by (vm_compute; reflexivity).
  destruct (story_verify (story_host true refused)) as [[v|e] b] eqn:E; [|done]. cbn [fst] in Hx.
  apply andb_true_iff in Hx as [Hv Hp]. destruct (probe_of "network_namespace" v) as [p|] eqn:Ep; [|done].
  apply negb_true_iff in Hp. eauto 7.
Qed.

(** A limit below five thousandths of a processor is asked for as none at all. *)
Lemma small_limit_is_lost : fixed_two (cpus_of 4) = "0.00" ∧ fixed_two (cpus_of 1500) = "1.50" ∧ fixed_two (cpus_of 4294967295) = "4294967.29".
Proof. vm_compute. done. Qed.
