(* ===== verification/Capture.v ===== *)
(** * Capturing a Workspace's tree ([pantheon-git/src/capture.rs], the confined walk)

    One pass over a directory that somebody else may be changing at the same time.
    What the kernel answers, at every call, is an argument: nothing ties two answers
    together unless a theorem says so. A descriptor is the kernel's; the walk only
    hands it back. *)

From Stdlib Require Import ZArith NArith Ascii Lia.
From S2P Require Import Prelude Utf8 Digest Parse Artifact Scope Workspace Command StoreBase StoreWorkspace EngineBase EngineWorkspace EngineSealing.

(** ** Texts *)

(** How many bytes at the start of a text that is not UTF-8 one replacement stands for. *)
Definition bad_length (s : string) : nat :=
  match s with
  | String b0 (String b1 rest) =>
      if in_range 224 239 b0 then (if second_of_three b0 b1 then 2 else 1)
      else if in_range 240 244 b0 then
        if second_of_four b0 b1
        then match rest with String b2 _ => if is_cont b2 then 3 else 2 | EmptyString => 2 end
        else 1
      else 1
  | _ => 1
  end.

Definition replacement_char : N := 65533%N.

(** [String::from_utf8_lossy]; every round consumes a byte. *)
Fixpoint lossy_upto (fuel : nat) (s : string) : string :=
  match fuel, s with
  | S fuel, String _ _ =>
      match next_char s with
      | Some (c, rest) => encode_utf8 c +:+ lossy_upto fuel rest
      | None => encode_utf8 replacement_char +:+ lossy_upto fuel (drop_bytes (bad_length s) s)
      end
  | _, _ => EmptyString
  end.

Definition from_utf8_lossy (s : string) : string := lossy_upto (String.length s) s.

(** ** The kernel *)

Inductive ErrnoKind : Type := ELOOP | ENOTDIR | EISDIR | ENOENT | EOther.

Record Errno : Type := { errno_kind : ErrnoKind; errno_text : string }.

(** The fields of a stat result that are looked at: [u64], [u64], [u32] and [i64]. *)
Record Stat : Type := { st_dev : Z; st_ino : Z; st_mode : Z; st_size : Z }.

(** Each call with the flags the walk gives it: every open is [O_NOFOLLOW] and every
    stat [AT_SYMLINK_NOFOLLOW]. [k_read] is what a descriptor yields up to its end. *)
Record Kernel : Type := {
  Fd : Type;
  k_open_root : nat → string → Result Fd Errno;
  k_fstat : nat → Fd → Result Stat Errno;
  k_read_dir : nat → Fd → Result (list (Result string Errno)) Errno;
  k_statat : nat → Fd → string → Result Stat Errno;
  k_open_dir : nat → Fd → string → Result Fd Errno;
  k_open_file : nat → Fd → string → Result Fd Errno;
  k_readlinkat : nat → Fd → string → Result string Errno;
  k_read : nat → Fd → Result string string
}.

Definition HOSTILE_FILESYSTEM : string := "workspace.hostile-filesystem-state".
Definition HOSTILE_REPOSITORY : string := "workspace.hostile-repository-state".
Definition BASE_UNAVAILABLE : string := "workspace.base-unavailable".
Definition CAPTURE_IO : string := "workspace.capture-io".
Definition CEILING : string := "workspace.capture-ceiling".

Definition xfault (code detail : string) : ExternalFault := {| xf_code := code; xf_detail := detail |}.

Definition MAX_DEPTH : nat := 64.
Definition MAX_OBJECT_BYTES : Z := 536870912.

Definition file_type_field (mode : Z) : Z := Z.land mode 61440.

Definition FT_DIRECTORY : Z := 16384.
Definition FT_REGULAR : Z := 32768.
Definition FT_SYMLINK : Z := 40960.

(** [(stat.st_dev as i64) as u64]. *)
Definition dev_of (stat : Stat) : Z := (st_dev stat mod 18446744073709551616)%Z.

(** ** The walk's effects *)

Record Walker : Type := { wk_calls : nat; wk_found : list CapturedEntry }.

Definition Walk (A : Type) : Type := Walker → Result A ExternalFault * Walker.

Definition walk_ret {A} (a : A) : Walk A := fun w => (Ok a, w).

Definition walk_try {A} (r : Result A ExternalFault) : Walk A := fun w => (r, w).

Definition walk_bind {A B} (m : Walk A) (k : A → Walk B) : Walk B := fun w =>
  match m w with
  | (Ok a, w') => k a w'
  | (Err e, w') => (Err e, w')
  end.

Notation "'let=' x := m 'in' k" := (walk_bind m (fun x => k))
  (at level 10, x pattern, m at level 100, k at level 200) : rust_scope.
Notation "'do=' m 'in' k" := (walk_bind m (fun _ => k))
  (at level 10, m at level 100, k at level 200) : rust_scope.

(** A system call, and what its failure is called. *)
Definition walk_call {A E} (on_error : E → ExternalFault) (f : nat → Result A E) : Walk A := fun w =>
  (map_err on_error (f (wk_calls w)), {| wk_calls := S (wk_calls w); wk_found := wk_found w |}).

(** One step per element, as long as each succeeds. *)
Fixpoint walk_each {A} (f : A → Walk unit) (l : list A) : Walk unit :=
  match l with
  | [] => walk_ret tt
  | x :: rest => do= f x in walk_each f rest
  end.

(** ** Reading a payload *)

Inductive ReadFault : Type := RfIo (text : string) | Grew | OverCeiling.

(** [Read::take]. *)
Fixpoint take_limit (limit : Z) (s : string) : string :=
  match s with
  | EmptyString => EmptyString
  | String b rest => if (limit <=? 0)%Z then EmptyString else String b (take_limit (limit - 1) rest)
  end.

(** What the reader yields, read to its end through a limit. *)
Definition read_bounded (reader : Result string string) (expected max : Z) : Result string ReadFault :=
  let? stream := map_err RfIo reader in
  let bytes := take_limit (saturating_add max 1) stream in
  if (max <? byte_size bytes)%Z then Err OverCeiling
  else if negb (byte_size bytes =? expected)%Z then Err Grew
  else Ok bytes.

(** ** The walk *)

Definition component_bytes (name : string) : Result string ExternalFault :=
  if String.eqb name EmptyString || String.eqb name "." || String.eqb name ".." then
    Err (xfault HOSTILE_FILESYSTEM "a directory yielded a relative-path component")
  else Ok name.

(** The entries of one enumeration, up to its first failure. *)
Fixpoint entry_names (entries : list (Result string Errno)) : Result (list string) ExternalFault :=
  match entries with
  | [] => Ok []
  | Err errno :: _ => Err (xfault CAPTURE_IO ("directory enumeration failed: " +:+ errno_text errno))
  | Ok name :: rest =>
      let? names := entry_names rest in
      Ok (if String.eqb name "." || String.eqb name ".." then names else name :: names)
  end.

Definition child_path (prefix component : string) : string :=
  (if is_empty prefix then EmptyString else prefix +:+ "/") +:+ component.

Definition executable (stat : Stat) : bool := negb (Z.land (st_mode stat) 73 =? 0)%Z.

Section Walk.
Variable kernel : Kernel.
(** [{:?}] of a text. *)
Variable debug : string → string.
(** What takes an entry may refuse it, seeing what it was given before. *)
Variable sink : list CapturedEntry → CapturedEntry → option ExternalFault.

Definition hand_over (entry : CapturedEntry) : Walk unit := fun w =>
  (match sink (wk_found w) entry with Some fault => Err fault | None => Ok tt end,
   {| wk_calls := wk_calls w; wk_found := wk_found w ++ [entry] |}).

(** Proves that the opened descriptor is the object that was inspected. *)
Definition verify_identity (fd : Fd kernel) (inspected : Stat) (path : RepositoryPath) : Walk unit :=
  let= opened := walk_call (fun e => xfault CAPTURE_IO ("could not verify identity: " +:+ errno_text e))
                   (fun n => k_fstat kernel n fd) in
  walk_try (if negb (st_ino opened =? st_ino inspected)%Z || negb (st_dev opened =? st_dev inspected)%Z
            then Err (xfault HOSTILE_FILESYSTEM (to_manifest_string path +:+ " was replaced between inspection and open"))
            else Ok tt).

(** Inspects an entry without following it. *)
Definition inspect_entry (dir : Fd kernel) (prefix component : string) : Walk Stat :=
  walk_call (fun e => match errno_kind e with
                      | ENOENT => xfault HOSTILE_FILESYSTEM ("entry " +:+ (from_utf8_lossy prefix +:+
                                    (from_utf8_lossy component +:+ " vanished during capture")))
                      | _ => xfault CAPTURE_IO ("could not inspect " +:+ (from_utf8_lossy component +:+
                               (": " +:+ errno_text e)))
                      end)
    (fun n => k_statat kernel n dir component).

Definition captured_path (bytes : string) : Result RepositoryPath ExternalFault :=
  map_err (fun e => xfault HOSTILE_FILESYSTEM ("a captured path cannot be represented: " +:+
                      match e with
                      | InvalidPath value reason => "repository path " +:+ (debug value +:+ (" is invalid: " +:+ reason))
                      | OperationStateMismatch _ _ _ => EmptyString
                      end))
    (path_from_bytes bytes).

Definition capture_directory (descend : Fd kernel → string → Z → Walk unit) (dir : Fd kernel) (dir_dev : Z)
    (component : string) (stat : Stat) (path : RepositoryPath) : Walk unit :=
  let text := to_manifest_string path in
  if negb (dev_of stat =? dir_dev)%Z then
    walk_try (Err (xfault HOSTILE_FILESYSTEM (text +:+ " crosses onto another filesystem")))
  else
    let= child := walk_call (fun e => match errno_kind e with
        | ELOOP | ENOTDIR => xfault HOSTILE_FILESYSTEM (text +:+ " was replaced by non-directory state during capture")
        | _ => xfault CAPTURE_IO ("could not descend into " +:+ (text +:+ (": " +:+ errno_text e)))
        end) (fun n => k_open_dir kernel n dir component) in
    do= verify_identity child stat path in
    descend child (path_bytes path) (dev_of stat).

Definition capture_symlink (dir : Fd kernel) (component : string) (path : RepositoryPath) : Walk unit :=
  let= target := walk_call (fun e => xfault CAPTURE_IO ("could not read link " +:+
      (to_manifest_string path +:+ (": " +:+ errno_text e)))) (fun n => k_readlinkat kernel n dir component) in
  hand_over {| cap_path := path; cap_kind := Symlink; cap_bytes := target |}.

Definition capture_regular (dir : Fd kernel) (component : string) (stat : Stat) (path : RepositoryPath) : Walk unit :=
  let text := to_manifest_string path in
  let over := xfault CEILING (text +:+ " exceeds the per-object ceiling") in
  if (MAX_OBJECT_BYTES <? (if st_size stat <? 0 then u64_max else st_size stat))%Z then walk_try (Err over)
  else
    let= file := walk_call (fun e => match errno_kind e with
        | ELOOP | EISDIR => xfault HOSTILE_FILESYSTEM (text +:+ " was replaced by non-file state during capture")
        | _ => xfault CAPTURE_IO ("could not open " +:+ (text +:+ (": " +:+ errno_text e)))
        end) (fun n => k_open_file kernel n dir component) in
    do= verify_identity file stat path in
    let= bytes := walk_call (fun f => match f with
        | RfIo err => xfault CAPTURE_IO ("could not read " +:+ (text +:+ (": " +:+ err)))
        | Grew => xfault HOSTILE_FILESYSTEM (text +:+ " changed size while being captured")
        | OverCeiling => over
        end) (fun n => read_bounded (k_read kernel n file) (Z.max (st_size stat) 0) MAX_OBJECT_BYTES) in
    hand_over {| cap_path := path; cap_kind := if executable stat then Executable else Regular; cap_bytes := bytes |}.

(** One name of a directory. *)
Definition capture_name (descend : Fd kernel → string → Z → Walk unit) (dir : Fd kernel) (prefix : string)
    (dir_dev : Z) (name : string) : Walk unit :=
  let= component := walk_try (component_bytes name) in
  if is_empty prefix && String.eqb component ".git" then walk_ret tt
  else if contains_byte "000" component then walk_try (Err (xfault HOSTILE_FILESYSTEM "an entry name contains a NUL byte"))
  else
    let= stat := inspect_entry dir prefix component in
    let= path := walk_try (captured_path (child_path prefix component)) in
    if String.eqb component ".git" then
      walk_try (Err (xfault HOSTILE_FILESYSTEM (to_manifest_string path +:+ " nests a repository below the Workspace root")))
    else
      let kind := file_type_field (st_mode stat) in
      if (kind =? FT_DIRECTORY)%Z then capture_directory descend dir dir_dev component stat path
      else if (kind =? FT_SYMLINK)%Z then capture_symlink dir component path
      else if (kind =? FT_REGULAR)%Z then capture_regular dir component stat path
      else walk_try (Err (xfault HOSTILE_FILESYSTEM
             (to_manifest_string path +:+ " is a special filesystem object capture must not touch"))).

(** [levels] is how many directories deep the walk may still go, this one included:
    [MAX_DEPTH + 1 - depth]. *)
Fixpoint walk_directory (levels : nat) (dir : Fd kernel) (prefix : string) (dir_dev : Z) : Walk unit :=
  match levels with
  | O => walk_try (Err (xfault CEILING "directory nesting deeper than 64 levels"))
  | S deeper =>
      let= entries := walk_call (fun e => xfault CAPTURE_IO ("could not enumerate: " +:+ errno_text e))
                        (fun n => k_read_dir kernel n dir) in
      let= names := walk_try (entry_names entries) in
      walk_each (capture_name (walk_directory deeper) dir prefix dir_dev) (sort_by String.compare names)
  end.

Definition walk_root (root : string) : Walk unit :=
  let= fd := walk_call (fun e => match errno_kind e with
      | ELOOP | ENOTDIR => xfault HOSTILE_FILESYSTEM (root +:+ " is a symlink or not a directory, not the trusted capture root")
      | _ => xfault CAPTURE_IO ("could not open the capture root " +:+ (root +:+ (": " +:+ errno_text e)))
      end) (fun n => k_open_root kernel n root) in
  let= stat := walk_call (fun e => xfault CAPTURE_IO ("could not inspect the capture root: " +:+ errno_text e))
                 (fun n => k_fstat kernel n fd) in
  walk_directory (S MAX_DEPTH) fd EmptyString (dev_of stat).
End Walk.

Definition walk_start : Walker := {| wk_calls := 0; wk_found := [] |}.

(** The fault a walk ended with. *)
Definition fault_of {A} (r : Result A ExternalFault) : option ExternalFault :=
  match r with
  | Ok _ => None
  | Err fault => Some fault
  end.

(** What the walk finds, whoever takes it. *)
Definition takes_all : list CapturedEntry → CapturedEntry → option ExternalFault := fun _ _ => None.

(** The sealing controller's port; [kernels] is the machine at every call. *)
Definition confined_capture (debug : string → string) (kernels : nat → Kernel) : WorkspaceTreeCapture := {|
  capture_tree := fun n root =>
    let (r, w) := walk_root (kernels n) debug takes_all root walk_start in
    (wk_found w, fault_of r) |}.

(** ** Postconditions

    From a state: every entry found on the way satisfies [P], and an answer [Q]. *)
Definition walks {A} (P : CapturedEntry → Prop) (m : Walk A) (w : Walker) (Q : A → Walker → Prop) : Prop :=
  ∃ es, wk_found (m w).2 = wk_found w ++ es ∧ Forall P es ∧ ∀ a, (m w).1 = Ok a → Q a (m w).2.

Section Rules.
Context (P : CapturedEntry → Prop).

Lemma walks_ret {A} (a : A) w (Q : A → Walker → Prop) : Q a w → walks P (walk_ret a) w Q.
Proof. intros HQ. exists []. rewrite app_nil_r. split_and!; [done..|]. by intros ? [= <-]. Qed.

Lemma walks_try {A} (r : Result A ExternalFault) w (Q : A → Walker → Prop) :
  (∀ a, r = Ok a → Q a w) → walks P (walk_try r) w Q.
Proof. intros HQ. exists []. by rewrite app_nil_r. Qed.

Lemma walks_fail {A} fault w (Q : A → Walker → Prop) : walks P (walk_try (Err fault)) w Q.
Proof. by apply walks_try. Qed.

Lemma walks_call {A E} (on_error : E → ExternalFault) f w (Q : A → Walker → Prop) :
  (∀ a, f (wk_calls w) = Ok a → Q a {| wk_calls := S (wk_calls w); wk_found := wk_found w |}) →
  walks P (walk_call on_error f) w Q.
Proof.
  intros HQ. exists []. cbn. rewrite app_nil_r. split_and!; [done..|]. intros a Ha. apply HQ.
  destruct (f (wk_calls w)); cbn in Ha; [by injection Ha as ->|done].
Qed.

Lemma walks_bind {A B} (m : Walk A) (k : A → Walk B) w (Q1 : A → Walker → Prop) (Q2 : B → Walker → Prop) :
  walks P m w Q1 → (∀ a w1, Q1 a w1 → walks P (k a) w1 Q2) → walks P (walk_bind m k) w Q2.
Proof.
  intros (es & Hf & Hp & Hq) Hk. unfold walks, walk_bind. destruct (m w) as [[a|e] w1]; cbn in *.
  - destruct (Hk a w1 (Hq a eq_refl)) as (es2 & Hf2 & Hp2 & Hq2). exists (es ++ es2).
    rewrite Hf2, Hf, app_assoc. split_and!; [done|by apply Forall_app|done].
  - exists es. split_and!; [done..|]. by intros ? ?.
Qed.

Lemma walks_each {A} (f : A → Walk unit) l w :
  (∀ x w, x ∈ l → walks P (f x) w (fun _ _ => True)) → walks P (walk_each f l) w (fun _ _ => True).
Proof.
  revert w. induction l as [|x l IH]; intros w Hf; cbn [walk_each]; [by apply walks_ret|].
  eapply walks_bind; [apply Hf; left|]. intros _ w1 _. apply IH. intros y w2 Hy. apply Hf. by right.
Qed.

Lemma walks_weaken {A} (m : Walk A) w (Q1 Q2 : A → Walker → Prop) :
  walks P m w Q1 → (∀ a w1, Q1 a w1 → Q2 a w1) → walks P m w Q2.
Proof. intros (es & Hf & Hp & Hq) Hw. exists es. split_and!; auto. Qed.
End Rules.

(** ** Confinement *)

Section Confined.
Variable kernel : Kernel.
Variable root : string.

Definition same_object (opened inspected : Stat) : Prop :=
  st_ino opened = st_ino inspected ∧ st_dev opened = st_dev inspected.

(** An enumeration of the directory yielded the name. *)
Definition listed (dir : Fd kernel) (name : string) : Prop :=
  ∃ n entries, k_read_dir kernel n dir = Ok entries ∧ Ok name ∈ entries.

(** The directories of a walk: the root, and a directory in a directory of the walk that
    was inspected, opened without following and found to be what was inspected, on the
    same device. *)
Inductive reached : Fd kernel → string → Z → nat → Prop :=
| reached_root n fd stat :
    k_open_root kernel n root = Ok fd → k_fstat kernel (S n) fd = Ok stat → reached fd EmptyString (dev_of stat) 0
| reached_child dir prefix dev depth n name inspected fd opened :
    reached dir prefix dev depth → listed dir name → name ≠ ".git" →
    k_statat kernel n dir name = Ok inspected → file_type_field (st_mode inspected) = FT_DIRECTORY →
    dev_of inspected = dev →
    k_open_dir kernel (S n) dir name = Ok fd → k_fstat kernel (S (S n)) fd = Ok opened → same_object opened inspected →
    reached fd (child_path prefix name) dev (S depth).

(** Where the bytes of an entry of a directory came from. *)
Definition read_in (dir : Fd kernel) (n : nat) (name : string) (inspected : Stat) (kind : EntryKind) (bytes : string) : Prop :=
  (file_type_field (st_mode inspected) = FT_SYMLINK ∧ kind = Symlink ∧ k_readlinkat kernel (S n) dir name = Ok bytes) ∨
  (file_type_field (st_mode inspected) = FT_REGULAR ∧ kind = (if executable inspected then Executable else Regular) ∧
   byte_size bytes = st_size inspected ∧ (st_size inspected ≤ MAX_OBJECT_BYTES)%Z ∧
   ∃ fd opened, k_open_file kernel (S n) dir name = Ok fd ∧ k_fstat kernel (S (S n)) fd = Ok opened ∧
     same_object opened inspected ∧ k_read kernel (S (S (S n))) fd = Ok bytes).

Record confined (e : CapturedEntry) : Prop := {
  cf_origin : ∃ dir prefix dev depth n name inspected,
    reached dir prefix dev depth ∧ depth ≤ MAX_DEPTH ∧ listed dir name ∧ name ≠ ".git" ∧
    path_bytes (cap_path e) = child_path prefix name ∧
    k_statat kernel n dir name = Ok inspected ∧ read_in dir n name inspected (cap_kind e) (cap_bytes e);
  cf_path : canonical_path (path_bytes (cap_path e))
}.

Variable debug : string → string.
Variable sink : list CapturedEntry → CapturedEntry → option ExternalFault.

Lemma take_limit_all limit s : (byte_size (take_limit limit s) < limit)%Z → take_limit limit s = s.
Proof.
  revert limit. induction s as [|b s IH]; intros limit; cbn [take_limit]; [done|].
  destruct (Z.leb_spec limit 0); [unfold byte_size; cbn; lia|]. unfold byte_size in *. cbn [String.length].
  intros Hl. f_equal. apply IH. lia.
Qed.

Lemma read_bounded_Ok reader expected bytes :
  read_bounded reader expected MAX_OBJECT_BYTES = Ok bytes → reader = Ok bytes ∧ byte_size bytes = expected.
Proof.
  unfold read_bounded. intros (stream & Hs & Hx)%try_bind_Ok. destruct reader as [stream'|e]; [injection Hs as ->|done].
  revert Hx.
  destruct (Z.ltb_spec MAX_OBJECT_BYTES (byte_size (take_limit (saturating_add MAX_OBJECT_BYTES 1) stream))) as [|Hmax]; [done|].
  destruct (Z.eqb_spec (byte_size (take_limit (saturating_add MAX_OBJECT_BYTES 1) stream)) expected) as [He|]; [|done].
  cbn [negb]. intros [= <-]. rewrite take_limit_all in He |- *; [done|..]; change (saturating_add MAX_OBJECT_BYTES 1) with 536870913%Z in *;
    unfold MAX_OBJECT_BYTES in Hmax; lia.
Qed.

Lemma identity_walks P fd inspected path w (Q : unit → Walker → Prop) :
  (∀ opened, k_fstat kernel (wk_calls w) fd = Ok opened → same_object opened inspected →
     Q tt {| wk_calls := S (wk_calls w); wk_found := wk_found w |}) →
  walks P (verify_identity kernel fd inspected path) w Q.
Proof.
  intros HQ. unfold verify_identity. eapply walks_bind with (Q1 := fun opened w1 =>
    k_fstat kernel (wk_calls w) fd = Ok opened ∧ w1 = {| wk_calls := S (wk_calls w); wk_found := wk_found w |});
    [by apply walks_call|]. intros opened w1 [Ho ->].
  apply walks_try. intros [] Hx. destruct (_ || _) eqn:E; [done|]. apply orb_false_iff in E as [E1%negb_false_iff E2%negb_false_iff].
  apply (HQ opened); [done|]. by split; apply Z.eqb_eq.
Qed.

Lemma hand_over_walks (P : CapturedEntry → Prop) e w : P e → walks P (hand_over sink e) w (fun _ _ => True).
Proof. intros He. exists [e]. cbn. split_and!; [done|by repeat constructor|done]. Qed.

Definition is_here (w : Walker) (n : nat) : Prop := wk_calls w = n.

Lemma size_in_bounds stat :
  (MAX_OBJECT_BYTES <? (if st_size stat <? 0 then u64_max else st_size stat))%Z = false →
  (0 ≤ st_size stat ≤ MAX_OBJECT_BYTES)%Z.
Proof.
  destruct (Z.ltb_spec (st_size stat) 0); [done|]. intros Hm%Z.ltb_ge. lia.
Qed.

Lemma regular_walks dir prefix dev depth n name inspected w :
  reached dir prefix dev depth → depth ≤ MAX_DEPTH → listed dir name → name ≠ ".git" → k_statat kernel n dir name = Ok inspected →
  file_type_field (st_mode inspected) = FT_REGULAR → canonical_path (child_path prefix name) → wk_calls w = S n →
  walks confined (capture_regular kernel sink dir name inspected (mk_path (child_path prefix name))) w (fun _ _ => True).
Proof.
  intros Hr Hd Hls Hg Hs Hft Hc Hw. unfold capture_regular. destruct (_ <? _)%Z eqn:Hmax; [apply walks_fail|].
  apply size_in_bounds in Hmax.
  eapply walks_bind with (Q1 := fun fd w1 => k_open_file kernel (S n) dir name = Ok fd ∧ wk_calls w1 = S (S n)).
  { apply walks_call. rewrite Hw. by intros fd. }
  intros fd w1 [Ho Hw1]. eapply walks_bind with (Q1 := fun _ w2 =>
    wk_calls w2 = S (S (S n)) ∧ ∃ opened, k_fstat kernel (S (S n)) fd = Ok opened ∧ same_object opened inspected).
  { apply identity_walks. rewrite Hw1. intros opened Hf Hso. split; [done|by exists opened]. }
  intros _ w2 (Hw2 & opened & Hf & Hso). eapply walks_bind with (Q1 := fun bytes w3 =>
    k_read kernel (S (S (S n))) fd = Ok bytes ∧ byte_size bytes = st_size inspected).
  { apply walks_call. rewrite Hw2. intros bytes [Hb He]%read_bounded_Ok. split; [done|].
    lia. }
  intros bytes w3 [Hb He]. apply hand_over_walks. split; [|exact Hc].
  exists dir, prefix, dev, depth, n, name, inspected. split_and!; try done. right. cbn [cap_kind cap_bytes].
  split_and!; try done; [lia|eauto 6].
Qed.

Lemma symlink_walks dir prefix dev depth n name inspected w :
  reached dir prefix dev depth → depth ≤ MAX_DEPTH → listed dir name → name ≠ ".git" → k_statat kernel n dir name = Ok inspected →
  file_type_field (st_mode inspected) = FT_SYMLINK → canonical_path (child_path prefix name) → wk_calls w = S n →
  walks confined (capture_symlink kernel sink dir name (mk_path (child_path prefix name))) w (fun _ _ => True).
Proof.
  intros Hr Hd Hls Hg Hs Hft Hc Hw. unfold capture_symlink.
  eapply walks_bind with (Q1 := fun target _ => k_readlinkat kernel (S n) dir name = Ok target).
  { apply walks_call. rewrite Hw. by intros target. }
  intros target w1 Ht. apply hand_over_walks. split; [|exact Hc].
  exists dir, prefix, dev, depth, n, name, inspected. split_and!; try done. by left.
Qed.

Lemma directory_walks descend dir prefix dev depth n name inspected w :
  reached dir prefix dev depth → listed dir name → name ≠ ".git" → k_statat kernel n dir name = Ok inspected →
  file_type_field (st_mode inspected) = FT_DIRECTORY → wk_calls w = S n →
  (∀ fd w, reached fd (child_path prefix name) dev (S depth) →
     walks confined (descend fd (child_path prefix name) dev) w (fun _ _ => True)) →
  walks confined (capture_directory kernel descend dir dev name inspected (mk_path (child_path prefix name))) w (fun _ _ => True).
Proof.
  intros Hr Hls Hg Hs Hft Hw Hd. unfold capture_directory. destruct (Z.eqb_spec (dev_of inspected) dev) as [Hdev|]; [|apply walks_fail].
  cbn [negb]. eapply walks_bind with (Q1 := fun fd w1 => k_open_dir kernel (S n) dir name = Ok fd ∧ wk_calls w1 = S (S n)).
  { apply walks_call. rewrite Hw. by intros fd. }
  intros fd w1 [Ho Hw1]. eapply walks_bind with (Q1 := fun _ _ =>
    ∃ opened, k_fstat kernel (S (S n)) fd = Ok opened ∧ same_object opened inspected).
  { apply identity_walks. rewrite Hw1. intros opened Hf Hso. by exists opened. }
  intros _ w2 (opened & Hf & Hso). rewrite Hdev. apply Hd. by eapply reached_child.
Qed.

Lemma name_walks descend dir prefix dev depth name w :
  reached dir prefix dev depth → depth ≤ MAX_DEPTH → listed dir name →
  (∀ fd w, reached fd (child_path prefix name) dev (S depth) →
     walks confined (descend fd (child_path prefix name) dev) w (fun _ _ => True)) →
  walks confined (capture_name kernel debug sink descend dir prefix dev name) w (fun _ _ => True).
Proof.
  intros Hr Hd Hls Hdesc. unfold capture_name.
  eapply walks_bind with (Q1 := fun c _ => c = name).
  { apply walks_try. unfold component_bytes. intros c. destruct (_ || _); [done|]. by intros [= ->]. }
  intros c w1 ->. destruct (is_empty prefix && String.eqb name ".git"); [by apply walks_ret|].
  destruct (contains_byte _ _); [apply walks_fail|].
  eapply walks_bind with (Q1 := fun stat w2 => k_statat kernel (wk_calls w1) dir name = Ok stat ∧ wk_calls w2 = S (wk_calls w1)).
  { unfold inspect_entry. by apply walks_call. }
  intros stat w2 [Hs Hw2]. eapply walks_bind with (Q1 := fun path w3 =>
    path = mk_path (child_path prefix name) ∧ canonical_path (child_path prefix name) ∧ w3 = w2).
  { apply walks_try. unfold captured_path. intros path. destruct (path_from_bytes _) as [p|e] eqn:Hp; [|done].
    intros [= <-]. by apply path_from_bytes_Ok in Hp as [Hc ->]. }
  intros path w3 (-> & Hc & ->). destruct (String.eqb_spec name ".git"); [apply walks_fail|]. cbv zeta.
  destruct (Z.eqb_spec (file_type_field (st_mode stat)) FT_DIRECTORY); [by eapply directory_walks|].
  destruct (Z.eqb_spec (file_type_field (st_mode stat)) FT_SYMLINK); [by eapply symlink_walks|].
  destruct (Z.eqb_spec (file_type_field (st_mode stat)) FT_REGULAR); [by eapply regular_walks|]. apply walks_fail.
Qed.

Lemma entry_names_listed entries names name : entry_names entries = Ok names → name ∈ names → Ok name ∈ entries.
Proof.
  revert names. induction entries as [|[x|e] rest IH]; intros names; cbn [entry_names]; [|intros (l & Hl & Hx)%try_bind_Ok|done].
  - intros [= <-] Hn. by apply not_elem_of_nil in Hn.
  - injection Hx as <-. destruct (_ || _); [intros Hn; right; by eapply IH|].
    intros [->|Hn]%elem_of_cons; [left|right; by eapply IH].
Qed.

Lemma directory_confined levels : ∀ dir prefix dev depth w,
  reached dir prefix dev depth → levels + depth = S MAX_DEPTH →
  walks confined (walk_directory kernel debug sink levels dir prefix dev) w (fun _ _ => True).
Proof.
  induction levels as [|deeper IH]; intros dir prefix dev depth w Hr Hl; cbn [walk_directory]; [apply walks_fail|].
  eapply walks_bind with (Q1 := fun entries _ => ∃ n, k_read_dir kernel n dir = Ok entries);
    [apply walks_call; eauto|]. intros entries w1 [n Hn].
  eapply walks_bind with (Q1 := fun names _ => entry_names entries = Ok names); [by apply walks_try|]. intros names w2 He.
  apply walks_each. intros name w3 Hin. eapply name_walks; [exact Hr|lia| |].
  { exists n, entries. split; [done|]. eapply entry_names_listed; [exact He|]. by rewrite sort_by_perm in Hin by apply _. }
  intros fd w4 Hfd. apply (IH _ _ _ (S depth)); [done|lia].
Qed.

Lemma root_confined w : walks confined (walk_root kernel debug sink root) w (fun _ _ => True).
Proof.
  unfold walk_root. eapply walks_bind with (Q1 := fun fd w1 =>
    k_open_root kernel (wk_calls w) root = Ok fd ∧ wk_calls w1 = S (wk_calls w)); [by apply walks_call|].
  intros fd w1 [Ho Hw1]. eapply walks_bind with (Q1 := fun stat _ => k_fstat kernel (S (wk_calls w)) fd = Ok stat).
  { apply walks_call. by rewrite Hw1. }
  intros stat w2 Hs. apply (directory_confined _ _ _ _ 0); [by eapply reached_root|done].
Qed.

(** *** No repository below the root *)

Lemma split_on_join (sep : ascii) s t : split_on sep (s +:+ String sep t) = split_on sep s ++ split_on sep t.
Proof.
  induction s as [|b s IH]; cbn [String.append split_on].
  - by rewrite Ascii.eqb_refl.
  - rewrite IH. destruct (Ascii.eqb b sep); [done|]. pose proof (split_on_ne sep s). by destruct (split_on sep s).
Qed.

Lemma split_on_alone (sep : ascii) s : contains_byte sep s = false → split_on sep s = [s].
Proof.
  induction s as [|b s IH]; cbn [contains_byte split_on]; [done|]. intros [-> Hs]%orb_false_iff. by rewrite IH.
Qed.

(** A name the kernel lists is one component. *)
Definition lists_names : Prop := ∀ dir name, listed dir name → contains_byte "/" name = false.

Lemma child_components prefix name :
  contains_byte "/" name = false → name ≠ ".git" → (is_empty prefix = true ∨ ".git" ∉ split_on "/" prefix) →
  ".git" ∉ split_on "/" (child_path prefix name).
Proof.
  intros Hn Hg Hp. unfold child_path. destruct (is_empty prefix) eqn:He.
  - cbn [String.append]. rewrite split_on_alone by done. intros Hx%list_elem_of_singleton. congruence.
  - destruct Hp as [|Hp]; [done|]. rewrite append_assoc. cbn [String.append]. rewrite split_on_join, (split_on_alone _ name) by done.
    intros [Hin|Hin]%elem_of_app; [done|]. apply list_elem_of_singleton in Hin. congruence.
Qed.

Lemma reached_components dir prefix dev depth :
  lists_names → reached dir prefix dev depth → is_empty prefix = true ∨ ".git" ∉ split_on "/" prefix.
Proof.
  intros Hl. induction 1; [by left|right]. apply child_components; eauto.
Qed.

Lemma confined_no_git e : lists_names → confined e → ".git" ∉ split_on "/" (path_bytes (cap_path e)).
Proof.
  intros Hl [(dir & prefix & dev & depth & n & name & st & Hr & _ & Hn & Hg & -> & _) _].
  apply child_components; [by eapply Hl|done|by eapply reached_components].
Qed.
End Confined.

(** ** Whoever takes the entries

    A sink is given the entries one by one and can only end the walk early. *)

(** What a sink is given of a list of entries, and what it answers first. *)
Fixpoint feed (sink : list CapturedEntry → CapturedEntry → option ExternalFault) (given entries : list CapturedEntry) :
    list CapturedEntry * option ExternalFault :=
  match entries with
  | [] => (given, None)
  | e :: rest =>
      match sink given e with
      | Some fault => (given ++ [e], Some fault)
      | None => feed sink (given ++ [e]) rest
      end
  end.

Section Sink.
Variable kernel : Kernel.
Variable debug : string → string.
Variable sink : list CapturedEntry → CapturedEntry → option ExternalFault.

(** [m] is [m'] up to the first entry its sink refuses. *)
Definition cut_short {A} (m m' : Walk A) : Prop := ∀ w, ∃ es,
  wk_found (m' w).2 = wk_found w ++ es ∧
  match feed sink (wk_found w) es with
  | (given, Some fault) => (m w).1 = Err fault ∧ wk_found (m w).2 = given
  | (_, None) => m w = m' w
  end.

Lemma feed_all given es found : feed sink given es = (found, None) → found = given ++ es.
Proof.
  revert given. induction es as [|e es IH]; intros given; cbn [feed]; [intros [= <-]; by rewrite app_nil_r|].
  destruct (sink given e); [done|]. intros ->%IH. by rewrite <-app_assoc.
Qed.

Lemma feed_app given es1 es2 :
  feed sink given (es1 ++ es2) =
    match feed sink given es1 with
    | (found, Some fault) => (found, Some fault)
    | (found, None) => feed sink found es2
    end.
Proof.
  revert given. induction es1 as [|e es1 IH]; intros given; cbn [feed app]; [done|]. destruct (sink given e); [done|apply IH].
Qed.

(** A step that finds nothing is the same for every sink. *)
Lemma cut_same {A} (m : Walk A) : (∀ w, wk_found (m w).2 = wk_found w) → cut_short m m.
Proof. intros Hm w. exists []. by rewrite Hm, app_nil_r. Qed.

Lemma cut_bind {A B} (m m' : Walk A) (k k' : A → Walk B) :
  cut_short m m' → (∀ a, cut_short (k a) (k' a)) → cut_short (walk_bind m k) (walk_bind m' k').
Proof.
  intros Hm Hk w. destruct (Hm w) as (es & Hf & Hc). unfold walk_bind. destruct (feed sink (wk_found w) es) as [given [fault|]] eqn:Hfeed.
  - destruct Hc as [Hr Hg]. destruct (m w) as [r1 w1], (m' w) as [[a|e] w2]; cbn in *; subst r1.
    + destruct (Hk a w2) as (es2 & Hf2 & _). exists (es ++ es2). rewrite Hf2, Hf, app_assoc. split; [done|]. by rewrite feed_app, Hfeed.
    + exists es. by rewrite Hfeed.
  - rewrite Hc. apply feed_all in Hfeed as Hg. destruct (m' w) as [[a|e] w2]; cbn in *.
    + destruct (Hk a w2) as (es2 & Hf2 & Hc2). exists (es ++ es2). rewrite Hf2, Hf, app_assoc. split; [done|].
      rewrite feed_app, Hfeed. rewrite Hf in Hc2. by rewrite Hg.
    + exists es. by rewrite Hfeed.
Qed.

Lemma cut_each {A} (f f' : A → Walk unit) l : (∀ x, cut_short (f x) (f' x)) → cut_short (walk_each f l) (walk_each f' l).
Proof. intros Hf. induction l; cbn [walk_each]; [by apply cut_same|]. by apply cut_bind. Qed.

Lemma cut_hand_over e : cut_short (hand_over sink e) (hand_over takes_all e).
Proof.
  intros w. exists [e]. split; [done|]. cbn [feed]. unfold hand_over, takes_all. by destruct (sink (wk_found w) e).
Qed.

Lemma cut_call {A E} (on_error : E → ExternalFault) (f : nat → Result A E) : cut_short (walk_call on_error f) (walk_call on_error f).
Proof. by apply cut_same. Qed.

Lemma cut_identity fd inspected path :
  cut_short (verify_identity kernel fd inspected path) (verify_identity kernel fd inspected path).
Proof. apply cut_bind; [apply cut_call|]. intros. by apply cut_same. Qed.

Lemma cut_name (descend descend' : Fd kernel → string → Z → Walk unit) dir prefix dev name :
  (∀ fd p d, cut_short (descend fd p d) (descend' fd p d)) →
  cut_short (capture_name kernel debug sink descend dir prefix dev name) (capture_name kernel debug takes_all descend' dir prefix dev name).
Proof.
  intros Hd. unfold capture_name. apply cut_bind; [by apply cut_same|intros c]. destruct (_ && _); [by apply cut_same|].
  destruct (contains_byte _ _); [by apply cut_same|]. apply cut_bind; [apply cut_call|intros stat].
  apply cut_bind; [by apply cut_same|intros path]. destruct (String.eqb _ _); [by apply cut_same|]. cbv zeta.
  destruct (_ =? FT_DIRECTORY)%Z.
  { unfold capture_directory. destruct (negb _); [by apply cut_same|]. apply cut_bind; [apply cut_call|intros fd].
    apply cut_bind; [apply cut_identity|intros _; apply Hd]. }
  destruct (_ =? FT_SYMLINK)%Z.
  { unfold capture_symlink. apply cut_bind; [apply cut_call|intros target; apply cut_hand_over]. }
  destruct (_ =? FT_REGULAR)%Z; [|by apply cut_same].
  unfold capture_regular. destruct (_ <? _)%Z; [by apply cut_same|]. apply cut_bind; [apply cut_call|intros fd].
  apply cut_bind; [apply cut_identity|intros _]. apply cut_bind; [apply cut_call|intros bytes; apply cut_hand_over].
Qed.

Lemma cut_directory levels : ∀ dir prefix dev,
  cut_short (walk_directory kernel debug sink levels dir prefix dev) (walk_directory kernel debug takes_all levels dir prefix dev).
Proof.
  induction levels as [|deeper IH]; intros dir prefix dev; cbn [walk_directory]; [by apply cut_same|].
  apply cut_bind; [apply cut_call|intros entries]. apply cut_bind; [by apply cut_same|intros names].
  apply cut_each. intros name. by apply cut_name.
Qed.

Lemma cut_root root : cut_short (walk_root kernel debug sink root) (walk_root kernel debug takes_all root).
Proof.
  unfold walk_root. apply cut_bind; [apply cut_call|intros fd]. apply cut_bind; [apply cut_call|intros stat]. apply cut_directory.
Qed.
End Sink.

(** ** A tree that stands still *)

Inductive Tree : Type :=
| TDirectory (dev : Z) (children : list (string * Tree))
| TFile (exec : bool) (content : string)
| TLink (target : string)
| TSpecial.

Definition dots (name : string) : bool := String.eqb name "." || String.eqb name "..".

Definition git_state (path name : string) : bool := is_empty path && String.eqb name ".git".

Definition file_kind (exec : bool) : EntryKind := if exec then Executable else Regular.

(** All of them, or nothing. *)
Fixpoint concat_options {A} (l : list (option (list A))) : option (list A) :=
  match l with
  | [] => Some []
  | Some x :: rest => app x <$> concat_options rest
  | None :: _ => None
  end.

(** What a name of a directory adds, [sub] being what is below it. *)
Definition capture_child (path name : string) (sub : string → option (list CapturedEntry)) : option (list CapturedEntry) :=
  if git_state path name then Some []
  else if String.eqb name ".git" then None
  else match path_from_bytes (child_path path name) with
       | Ok _ => sub (child_path path name)
       | Err _ => None
       end.

(** What a capture of the tree is: its files and links, directory by directory in the
    order of the names; nothing when something in it must be refused. *)
Fixpoint capture_of (levels : nat) (dev : Z) (path : string) (t : Tree) {struct t} : option (list CapturedEntry) :=
  match t with
  | TDirectory dev' children =>
      if negb (dev' =? dev)%Z then None
      else match levels with
           | O => None
           | S deeper =>
               concat_options (map snd (sort_by (key_cmp fst String.compare) (map (fun '(name, t) =>
                 (name, capture_child path name (fun sub => capture_of deeper dev sub t))) children)))
           end
  | TFile exec content =>
      if (MAX_OBJECT_BYTES <? byte_size content)%Z then None
      else Some [{| cap_path := mk_path path; cap_kind := file_kind exec; cap_bytes := content |}]
  | TLink target => Some [{| cap_path := mk_path path; cap_kind := Symlink; cap_bytes := target |}]
  | TSpecial => None
  end.

(** The files and links of a tree, the Workspace's own Git state aside. *)
Inductive tree_holds : string → Tree → CapturedEntry → Prop :=
| holds_file path exec content :
    tree_holds path (TFile exec content) {| cap_path := mk_path path; cap_kind := file_kind exec; cap_bytes := content |}
| holds_link path target :
    tree_holds path (TLink target) {| cap_path := mk_path path; cap_kind := Symlink; cap_bytes := target |}
| holds_child path dev children name t e :
    (name, t) ∈ children → git_state path name = false → tree_holds (child_path path name) t e →
    tree_holds path (TDirectory dev children) e.

Section Quiet.
Variable kernel : Kernel.

(** The kernel answers, whenever it is asked, as the tree says. *)
Fixpoint stands (t : Tree) (dir : Fd kernel) (name : string) : Prop := ∃ stat,
  (∀ n, k_statat kernel n dir name = Ok stat) ∧
  match t with
  | TDirectory dev children =>
      file_type_field (st_mode stat) = FT_DIRECTORY ∧ dev_of stat = dev ∧ ∃ fd listing,
        (∀ n, k_open_dir kernel n dir name = Ok fd) ∧ (∀ n, k_fstat kernel n fd = Ok stat) ∧
        (∀ n, k_read_dir kernel n fd = Ok (map Ok listing)) ∧
        List.filter (fun name => negb (dots name)) listing ≡ₚ map fst children ∧
        foldr (fun '(name, t) rest => stands t fd name ∧ rest) True children
  | TFile exec content =>
      file_type_field (st_mode stat) = FT_REGULAR ∧ executable stat = exec ∧ st_size stat = byte_size content ∧ ∃ fd,
        (∀ n, k_open_file kernel n dir name = Ok fd) ∧ (∀ n, k_fstat kernel n fd = Ok stat) ∧
        (∀ n, k_read kernel n fd = Ok content)
  | TLink target => file_type_field (st_mode stat) = FT_SYMLINK ∧ ∀ n, k_readlinkat kernel n dir name = Ok target
  | TSpecial => file_type_field (st_mode stat) ∉ [FT_DIRECTORY; FT_SYMLINK; FT_REGULAR]
  end.

(** An open directory and what is in it. *)
Definition serves (fd : Fd kernel) (children : list (string * Tree)) : Prop := ∃ listing,
  (∀ n, k_read_dir kernel n fd = Ok (map Ok listing)) ∧
  List.filter (fun name => negb (dots name)) listing ≡ₚ map fst children ∧
  ∀ name t, (name, t) ∈ children → stands t fd name.

(** The tree of a root. *)
Definition stands_at (root : string) (dev : Z) (children : list (string * Tree)) : Prop := ∃ fd stat,
  (∀ n, k_open_root kernel n root = Ok fd) ∧ (∀ n, k_fstat kernel n fd = Ok stat) ∧ dev_of stat = dev ∧ serves fd children.

Variable debug : string → string.

(** The step finds exactly these entries, or it fails. *)
Definition follows (m : Walk unit) (o : option (list CapturedEntry)) : Prop := ∀ w,
  match o with
  | Some es => (m w).1 = Ok tt ∧ wk_found (m w).2 = wk_found w ++ es
  | None => ∃ fault, (m w).1 = Err fault
  end.

Lemma stands_children (fd : Fd kernel) children :
  foldr (fun '(name, t) rest => stands t fd name ∧ rest) True children ↔ ∀ name t, (name, t) ∈ children → stands t fd name.
Proof.
  induction children as [|[name t] children IH]; cbn [foldr].
  - split; [intros _ name t Hin; by apply not_elem_of_nil in Hin|done].
  - rewrite IH. split.
    + intros [Ht Hr] name' t' [[= -> ->]|Hin]%elem_of_cons; auto.
    + intros Hall. split; [apply Hall; left|]. intros name' t' Hin. apply Hall. by right.
Qed.

Lemma follows_skip : follows (walk_ret tt) (Some []).
Proof. intros w. cbn. by rewrite app_nil_r. Qed.

Lemma follows_fail fault : follows (walk_try (Err fault)) None.
Proof. intros w. by exists fault. Qed.

(** A call that always gives the same answer. *)
Lemma follows_call {A E} (on_error : E → ExternalFault) (f : nat → Result A E) a (k : A → Walk unit) o :
  (∀ n, f n = Ok a) → follows (k a) o → follows (walk_bind (walk_call on_error f) k) o.
Proof.
  intros Hf Hk w. unfold walk_bind, walk_call. rewrite Hf. cbn [map_err]. apply (Hk {| wk_calls := _; wk_found := wk_found w |}).
Qed.

Lemma follows_try {A} (a : A) (k : A → Walk unit) o : follows (k a) o → follows (walk_bind (walk_try (Ok a)) k) o.
Proof. intros Hk w. apply Hk. Qed.

Lemma follows_try_fail {A} fault (k : A → Walk unit) : follows (walk_bind (walk_try (Err fault)) k) None.
Proof. intros w. by exists fault. Qed.

Lemma follows_each {A} (f : A → Walk unit) (g : A → option (list CapturedEntry)) l :
  (∀ x, x ∈ l → follows (f x) (g x)) → follows (walk_each f l) (concat_options (map g l)).
Proof.
  induction l as [|x l IH]; intros Hf; cbn [walk_each map concat_options]; [apply follows_skip|].
  assert (follows (walk_each f l) (concat_options (map g l))) as Hl by (apply IH; intros y Hy; apply Hf; by right).
  intros w. pose proof (Hf x ltac:(left) w) as Hx. unfold walk_bind. destruct (g x) as [es|].
  - destruct Hx as [Hr Hw]. destruct (f x w) as [r w1]; cbn in *. subst r. specialize (Hl w1).
    destruct (concat_options (map g l)) as [es2|]; cbn; [|done]. destruct Hl as [-> ->]. by rewrite Hw, app_assoc.
  - destruct Hx as [fault Hr]. destruct (f x w) as [r w1]; cbn in *. subst r. by exists fault.
Qed.

Lemma follows_identity fd stat path (k : unit → Walk unit) o :
  (∀ n, k_fstat kernel n fd = Ok stat) → follows (k tt) o → follows (walk_bind (verify_identity kernel fd stat path) k) o.
Proof.
  intros Hf Hk w. unfold verify_identity, walk_bind, walk_call. cbv beta. rewrite Hf. cbn [map_err]. unfold walk_try.
  rewrite !Z.eqb_refl. cbn. apply (Hk {| wk_calls := _; wk_found := wk_found w |}).
Qed.

Lemma follows_hand_over e : follows (hand_over takes_all e) (Some [e]).
Proof. intros w. done. Qed.

Lemma take_limit_long limit s : (byte_size s ≤ limit)%Z → take_limit limit s = s.
Proof.
  revert limit. induction s as [|b s IH]; intros limit; cbn [take_limit]; [done|]. unfold byte_size in *. cbn [String.length].
  intros Hl. destruct (Z.leb_spec limit 0); [lia|]. f_equal. apply IH. lia.
Qed.

Lemma read_bounded_whole content expected :
  (byte_size content ≤ MAX_OBJECT_BYTES)%Z → expected = byte_size content →
  read_bounded (Ok content) expected MAX_OBJECT_BYTES = Ok content.
Proof.
  intros Hm ->. unfold read_bounded. cbn [map_err try_bind]. change (saturating_add MAX_OBJECT_BYTES 1) with 536870913%Z.
  rewrite take_limit_long by (unfold MAX_OBJECT_BYTES in Hm; lia). rewrite (proj2 (Z.ltb_ge _ _) Hm), Z.eqb_refl. done.
Qed.

(** *** One name *)

Lemma child_component path name : canonical_path (child_path path name) → component_bytes name = Ok name.
Proof.
  intros (_ & _ & _ & Hall). unfold component_bytes. destruct (_ || _) eqn:E; [exfalso|done].
  assert (contains_byte "/" name = false ∧ refused_component name ≠ None) as [Hs Hr].
  { rewrite !orb_true_iff, !String.eqb_eq in E. by destruct E as [[->| ->]| ->]. }
  apply Hr, refused_component_None, Hall. unfold child_path. destruct (is_empty path).
  - cbn [String.append]. rewrite split_on_alone by done. left.
  - rewrite append_assoc. cbn [String.append]. rewrite split_on_join, (split_on_alone _ name) by done. apply elem_of_app. right. left.
Qed.

Lemma child_nul path name : canonical_path (child_path path name) → contains_byte "000" name = false.
Proof. intros (_ & _ & Hn & _). unfold child_path in Hn. rewrite contains_byte_app in Hn. by apply orb_false_iff in Hn as [_ Hn]. Qed.

Lemma canonical_or_refused bytes : canonical_path bytes ∨ ∃ e, path_from_bytes bytes = Err e.
Proof. destruct (path_from_bytes bytes) as [p|e] eqn:E; [left; by apply path_from_bytes_Ok in E as [Hc _]|right; eauto]. Qed.

Lemma git_component path name : git_state path name = true → component_bytes name = Ok name.
Proof. unfold git_state. rewrite andb_true_iff, String.eqb_eq. by intros [_ ->]. Qed.

Lemma executable_kind stat exec : executable stat = exec → (if executable stat then Executable else Regular) = file_kind exec.
Proof. by intros <-. Qed.

(** What an inspected name adds. *)
Lemma follows_inspected deeper (dir : Fd kernel) path dev name t :
  stands t dir name →
  (∀ fd p children, serves fd children →
     follows (walk_directory kernel debug takes_all deeper fd p dev) (capture_of deeper dev p (TDirectory dev children))) →
  follows
    (let= stat := inspect_entry kernel dir path name in
     let= path := walk_try (captured_path debug (child_path path name)) in
     if String.eqb name ".git" then
       walk_try (Err (xfault HOSTILE_FILESYSTEM (to_manifest_string path +:+ " nests a repository below the Workspace root")))
     else
       let kind := file_type_field (st_mode stat) in
       if (kind =? FT_DIRECTORY)%Z
       then capture_directory kernel (walk_directory kernel debug takes_all deeper) dir dev name stat path
       else if (kind =? FT_SYMLINK)%Z then capture_symlink kernel takes_all dir name path
       else if (kind =? FT_REGULAR)%Z then capture_regular kernel takes_all dir name stat path
       else walk_try (Err (xfault HOSTILE_FILESYSTEM
              (to_manifest_string path +:+ " is a special filesystem object capture must not touch"))))
    (if String.eqb name ".git" then None
     else match path_from_bytes (child_path path name) with
          | Ok _ => capture_of deeper dev (child_path path name) t
          | Err _ => None
          end).
Proof.
  intros Hs IH. assert (∃ stat, ∀ n, k_statat kernel n dir name = Ok stat) as [stat0 Hstat0].
  { destruct t; destruct Hs as (stat & Hstat & _); eauto. }
  unfold inspect_entry. eapply follows_call; [exact Hstat0|].
  unfold captured_path. destruct (path_from_bytes (child_path path name)) as [p|e] eqn:Hp; cbn [map_err].
  2: { destruct (String.eqb _ _); apply follows_try_fail. }
  apply path_from_bytes_Ok in Hp as [Hc ->]. apply follows_try. destruct (String.eqb name ".git"); [apply follows_fail|]. cbv zeta.
  destruct t as [dev' children|exec content|target|]; destruct Hs as (stat & Hstat & Hrest);
    (assert (stat0 = stat) as -> by (pose proof (Hstat 0) as H1; rewrite Hstat0 in H1; congruence)).
  - destruct Hrest as (Hft & Hdev & fd & listing & Ho & Hfs & Hl & Hperm & Hch). rewrite Hft. cbn -[capture_of].
    unfold capture_directory. cbn [capture_of]. rewrite Hdev. destruct (dev' =? dev)%Z eqn:Hd; cbn [negb]; [|apply follows_fail].
    apply Z.eqb_eq in Hd as ->. eapply follows_call; [exact Ho|]. apply follows_identity; [exact Hfs|].
    pose proof (IH fd (child_path path name) children) as Hi. cbn [capture_of] in Hi. rewrite Z.eqb_refl in Hi. apply Hi.
    exists listing. split_and!; [done..|]. by apply stands_children.
  - destruct Hrest as (Hft & Hexec & Hsize & fd & Ho & Hfs & Hrd). rewrite Hft. cbn -[capture_of].
    unfold capture_regular. cbn [capture_of]. rewrite Hsize. pose proof (Nat2Z.is_nonneg (String.length content)) as Hpos.
    change (Z.of_nat (String.length content)) with (byte_size content) in Hpos.
    rewrite (proj2 (Z.ltb_ge _ _) Hpos). destruct (Z.ltb_spec MAX_OBJECT_BYTES (byte_size content)) as [|Hle]; [apply follows_fail|].
    eapply follows_call; [exact Ho|]. apply follows_identity; [exact Hfs|].
    eapply follows_call; [intros n; rewrite Hrd; apply read_bounded_whole; lia|].
    rewrite (executable_kind _ _ Hexec). apply follows_hand_over.
  - destruct Hrest as (Hft & Hl). rewrite Hft. cbn. unfold capture_symlink. eapply follows_call; [exact Hl|]. apply follows_hand_over.
  - destruct (Z.eqb_spec (file_type_field (st_mode stat)) FT_DIRECTORY) as [Hx|]; [destruct Hrest; rewrite Hx; left|].
    destruct (Z.eqb_spec (file_type_field (st_mode stat)) FT_SYMLINK) as [Hx|]; [destruct Hrest; rewrite Hx; right; left|].
    destruct (Z.eqb_spec (file_type_field (st_mode stat)) FT_REGULAR) as [Hx|]; [destruct Hrest; rewrite Hx; right; right; left|].
    apply follows_fail.
Qed.

Lemma follows_name deeper (dir : Fd kernel) path dev name t :
  stands t dir name →
  (∀ fd p children, serves fd children →
     follows (walk_directory kernel debug takes_all deeper fd p dev) (capture_of deeper dev p (TDirectory dev children))) →
  follows (capture_name kernel debug takes_all (walk_directory kernel debug takes_all deeper) dir path dev name)
    (capture_child path name (fun sub => capture_of deeper dev sub t)).
Proof.
  intros Hs IH. pose proof (follows_inspected deeper dir path dev name t Hs IH) as Hi. unfold capture_name, capture_child.
  fold (git_state path name). destruct (git_state path name) eqn:Hg.
  { rewrite (git_component _ _ Hg). apply follows_try. unfold git_state in Hg. rewrite Hg. apply follows_skip. }
  destruct (canonical_or_refused (child_path path name)) as [Hc|[e He]].
  - rewrite (child_component _ _ Hc). apply follows_try. unfold git_state in Hg. rewrite Hg, (child_nul _ _ Hc). exact Hi.
  - rewrite He in Hi |- *. replace (if String.eqb name ".git" then None else None) with (@None (list CapturedEntry)) in Hi |- *
      by by destruct (String.eqb name ".git").
    unfold component_bytes. destruct (_ || _); [apply follows_try_fail|]. apply follows_try. unfold git_state in Hg. rewrite Hg.
    destruct (contains_byte _ _); [apply follows_fail|exact Hi].
Qed.

(** *** A directory *)

Lemma entry_names_all listing : entry_names (map Ok listing) = Ok (List.filter (fun name => negb (dots name)) listing).
Proof.
  induction listing as [|name listing IH]; cbn [map entry_names List.filter]; [done|]. rewrite IH. cbn [try_bind]. unfold dots.
  by destruct (_ || _).
Qed.

Lemma sort_by_map {A B} (f : B → B → comparison) (g : A → A → comparison) (h : A → B) l :
  (∀ x y, f (h x) (h y) = g x y) → sort_by f (map h l) = map h (sort_by g l).
Proof.
  intros Hh. assert (∀ x l, insert_by f (h x) (map h l) = map h (insert_by g x l)) as Hi.
  { intros x l'. induction l' as [|y l' IH]; cbn [map insert_by]; [done|]. rewrite Hh. destruct (g x y); [done..|]. by rewrite IH. }
  induction l as [|x l IH]; cbn [map sort_by]; [done|]. by rewrite IH, Hi.
Qed.

Lemma walk_each_map {A B} (f : B → Walk unit) (h : A → B) l : walk_each f (map h l) = walk_each (fun x => f (h x)) l.
Proof. induction l as [|x l IH]; cbn [map walk_each]; [done|]. by rewrite IH. Qed.

Definition by_name : string * Tree → string * Tree → comparison := key_cmp fst String.compare.

(** The rows of a directory, in the order of their names. *)
Lemma capture_of_rows deeper dev path children :
  capture_of (S deeper) dev path (TDirectory dev children) =
    concat_options (map (fun c => capture_child path c.1 (fun sub => capture_of deeper dev sub c.2)) (sort_by by_name children)).
Proof.
  cbn [capture_of]. rewrite Z.eqb_refl. cbn [negb]. f_equal.
  rewrite (sort_by_map _ by_name) by (by intros [] []). rewrite map_map. apply map_ext. by intros [name t].
Qed.

Lemma follows_directory levels : ∀ fd path dev children,
  serves fd children →
  follows (walk_directory kernel debug takes_all levels fd path dev) (capture_of levels dev path (TDirectory dev children)).
Proof.
  induction levels as [|deeper IH]; intros fd path dev children Hs; cbn [walk_directory].
  { cbn [capture_of]. rewrite Z.eqb_refl. apply follows_fail. }
  destruct Hs as (listing & Hl & Hperm & Hch). eapply follows_call; [exact Hl|]. rewrite entry_names_all. apply follows_try.
  rewrite capture_of_rows.
  assert (sort_by String.compare (List.filter (fun name => negb (dots name)) listing) = map fst (sort_by by_name children)) as ->.
  { rewrite <-(sort_by_map String.compare by_name fst children) by done. apply sort_by_unique; [apply _| |done].
    intros x y _ _. apply (total_order_eq String.compare). }
  rewrite walk_each_map. apply follows_each. intros [name t] Hin. apply follows_name; [|by intros; apply IH].
  apply Hch. by rewrite sort_by_perm in Hin by apply _.
Qed.

Lemma follows_root root dev children :
  stands_at root dev children →
  follows (walk_root kernel debug takes_all root) (capture_of (S MAX_DEPTH) dev EmptyString (TDirectory dev children)).
Proof.
  intros (fd & stat & Ho & Hf & Hd & Hs). unfold walk_root. eapply follows_call; [exact Ho|]. eapply follows_call; [exact Hf|].
  rewrite Hd. by apply follows_directory.
Qed.
End Quiet.

(** What a capture of a tree is made of. *)
Lemma concat_options_elem {A B} (g : A → option (list B)) l es (e : B) :
  concat_options (map g l) = Some es → e ∈ es ↔ ∃ x xs, x ∈ l ∧ g x = Some xs ∧ e ∈ xs.
Proof.
  revert es. induction l as [|x l IH]; intros es; cbn [map concat_options].
  - intros [= <-]. split; [by intros ?%not_elem_of_nil|]. by intros (x & xs & ?%not_elem_of_nil & _).
  - destruct (g x) as [xs|] eqn:Hx; [|done]. destruct (concat_options (map g l)) as [rest|] eqn:Hr; [|done].
    cbn. intros [= <-]. rewrite elem_of_app, (IH rest eq_refl). split.
    + intros [Hin|(y & ys & Hy & Hg & Hin)]; [by exists x, xs; split; [left|]|by exists y, ys; split; [right|]].
    + intros (y & ys & [->|Hy]%elem_of_cons & Hg & Hin); [left; congruence|right; eauto].
Qed.

Lemma concat_options_all {A B} (g : A → option (list B)) l es :
  concat_options (map g l) = Some es → ∀ x, x ∈ l → is_Some (g x).
Proof.
  revert es. induction l as [|y l IH]; intros es; cbn [map concat_options]; [by intros _ x ?%not_elem_of_nil|].
  destruct (g y) as [ys|] eqn:Hy; [|done]. destruct (concat_options (map g l)) as [rest|] eqn:Hr; [|done].
  intros _ x [->|Hx]%elem_of_cons; eauto.
Qed.

Lemma capture_of_holds levels : ∀ dev path t es,
  capture_of levels dev path t = Some es → ∀ e, e ∈ es ↔ tree_holds path t e.
Proof.
  induction levels as [|deeper IH]; intros dev path t es Hes e.
  all: destruct t as [dev' children|exec content|target|]; cbn [capture_of] in Hes.
  4, 8: done.
  2, 5: destruct (_ <? _)%Z; [done|]; injection Hes as <-; rewrite list_elem_of_singleton; split;
    [intros ->; constructor|by inversion 1].
  2, 4: injection Hes as <-; rewrite list_elem_of_singleton; split; [intros ->; constructor|by inversion 1].
  { by destruct (negb _). }
  destruct (Z.eqb_spec dev' dev) as [->|]; [|done]. cbn [negb] in Hes.
  pose proof (capture_of_rows deeper dev path children) as Hrows. cbn [capture_of] in Hrows. rewrite Z.eqb_refl in Hrows. cbn [negb] in Hrows.
  rewrite Hrows in Hes. rewrite (concat_options_elem _ _ _ _ Hes). split.
  - intros ([name t] & xs & Hin & Hx & He). rewrite sort_by_perm in Hin by apply _. cbn [fst snd] in Hx. unfold capture_child in Hx.
    destruct (git_state path name) eqn:Hg; [injection Hx as <-; by apply not_elem_of_nil in He|].
    destruct (String.eqb name ".git"); [done|]. destruct (path_from_bytes _); [|done].
    eapply holds_child; [exact Hin|done|]. by apply (IH _ _ _ _ Hx).
  - intros Hh. inversion Hh as [| |? ? ? name t ? Hin Hg Ht]; subst. exists (name, t).
    assert ((name, t) ∈ sort_by by_name children) as Hs by (by rewrite sort_by_perm by apply _).
    pose proof (concat_options_all _ _ _ Hes _ Hs) as [xs Hx]. exists xs. split_and!; [done..|].
    cbn [fst snd] in Hx. unfold capture_child in Hx. rewrite Hg in Hx. destruct (String.eqb name ".git"); [done|].
    destruct (path_from_bytes _); [|done]. by apply (IH _ _ _ _ Hx).
Qed.

(** ** The port *)

Section Port.
Variable debug : string → string.
Variable kernels : nat → Kernel.

Lemma confined_found n root entries fault e :
  capture_tree (confined_capture debug kernels) n root = (entries, fault) → e ∈ entries → confined (kernels n) root e.
Proof.
  cbn [confined_capture capture_tree]. destruct (root_confined (kernels n) root debug takes_all walk_start) as (es & Hf & Hc & _).
  destruct (walk_root _ _ _ _ _) as [r w]. cbn [fst snd] in Hf. intros [= <- <-] He. rewrite Hf in He. cbn [app walk_start wk_found] in He.
  rewrite Forall_forall in Hc. by apply Hc.
Qed.

Lemma quiet_capture n root dev children :
  stands_at (kernels n) root dev children →
  match capture_of (S MAX_DEPTH) dev EmptyString (TDirectory dev children) with
  | Some es => capture_tree (confined_capture debug kernels) n root = (es, None)
  | None => ∃ found fault, capture_tree (confined_capture debug kernels) n root = (found, Some fault)
  end.
Proof.
  intros Hs. pose proof (follows_root _ debug _ _ _ Hs walk_start) as Hf. cbn [confined_capture capture_tree].
  destruct (walk_root _ _ _ _ _) as [r w]. cbn [fst snd] in Hf. destruct (capture_of _ _ _ _) as [es|].
  - by destruct Hf as [-> ->].
  - destruct Hf as [fault ->]. by exists (wk_found w), fault.
Qed.

(** Sealing a Workspace nobody changes any more: the walk it seals is the tree's. *)
Theorem quiet_seal_is_the_tree `{Sha256} slots base objects workspace_root random_id object_name
    c request workspace fence scope s a s' dev children :
  honest_ports base objects object_name →
  stands_at (kernels (S (sl_calls s))) (capture_root_of workspace_root (ws_id workspace)) dev children →
  capture_and_seal slots (confined_capture debug kernels) base objects workspace_root random_id c request workspace fence scope s
    = (Ok a, s') →
  let source := ws_source_path workspace in
  ∃ tree walked evs,
    port_base_tree base (sl_calls s) source (ws_resolved_base workspace) = Ok tree ∧
    (∀ e, e ∈ walked ↔ tree_holds EmptyString (TDirectory dev children) e) ∧
    sealed_difference object_name source tree scope walked workspace a evs.
Proof.
  intros Hports Hq Hx source. pose proof (quiet_capture _ _ _ _ Hq) as Hw.
  pose proof (capture_and_seal_run slots (confined_capture debug kernels) base objects workspace_root random_id object_name Hports
    _ _ _ _ _ _ _ _ Hx) as Hr. cbn zeta in Hr. fold source in Hr.
  destruct (port_base_tree _ _ _ _) as [tree|f]; [|by destruct (proj2 Hr a)].
  destruct Hr as (evs & cms & _ & _ & [[_ Hn]|(sealed & _ & _ & Hd)]); [by destruct (Hn a)|].
  destruct (Hd a eq_refl) as [Hf Hs]. destruct (capture_of _ _ _ _) as [es|] eqn:Hes.
  - rewrite Hw in Hs. exists tree, es, evs. split_and!; [done|by eapply capture_of_holds|exact Hs].
  - destruct Hw as (found & fault & Hw). by rewrite Hw in Hf.
Qed.
End Port.

(** ** The ceilings *)

(** The bytes of a recorded tree. *)
Definition total_size (m : gmap string (EntryKind * Digest * Z)) : Z := map_fold (fun _ v total => (v.2 + total)%Z) 0%Z m.

Lemma total_size_insert m key v : m !! key = None → total_size (<[key := v]> m) = (v.2 + total_size m)%Z.
Proof. intros Hn. unfold total_size. rewrite map_fold_insert_L; [done| |done]. intros. lia. Qed.

Lemma total_size_delete m key v : m !! key = Some v → total_size m = (v.2 + total_size (delete key m))%Z.
Proof. intros Hs. rewrite <-(total_size_insert _ key) by apply lookup_delete_eq. by rewrite insert_delete_id. Qed.

(** What a capture may hold. *)
Record within_ceilings (cs : CaptureState) : Prop := {
  wc_entries : (Z.of_nat (size (cs_final cs)) ≤ MAX_ENTRIES)%Z;
  wc_bytes : (total_size (cs_final cs) ≤ cs_total_bytes cs ≤ MAX_TOTAL_BYTES)%Z;
  wc_counted : (0 ≤ cs_total_bytes cs)%Z;
  wc_entry key kind digest size :
    cs_final cs !! key = Some (kind, digest, size) →
    (0 ≤ size)%Z ∧ (kind ≠ Symlink → size ≤ MAX_OBJECT_BYTES)%Z ∧ canonical_path key
}.

Lemma start_within : within_ceilings capture_start.
Proof. split; [done|split; vm_compute; by intros|done|]. intros key kind digest size. cbn. by rewrite lookup_empty. Qed.

Lemma within_same cs cs' :
  cs_final cs' = cs_final cs → cs_total_bytes cs' = cs_total_bytes cs → within_ceilings cs → within_ceilings cs'.
Proof. intros Hf Ht [He Hb Hn Hx]. split; rewrite ?Hf, ?Ht; done. Qed.

Lemma bind_yields {E A B} (m : Seal E A) (k : A → Seal E B) s b s' :
  seal_bind m k s = (Ok b, s') → ∃ a s1, m s = (Ok a, s1) ∧ k a s1 = (Ok b, s').
Proof. unfold seal_bind. destruct (m s) as [[a|e] s1]; [eauto|done]. Qed.

Lemma map_err_yields {E F A} (f : E → F) (m : Seal E A) s a s' : seal_map_err f m s = (Ok a, s') → m s = (Ok a, s').
Proof. unfold seal_map_err. destruct (m s) as [[x|e] s1]; congruence. Qed.

Section Ceilings.
Context `{Sha256}.
Variable base : TrustedBaseReader.
Variable objects : ContentObjectStore.

Lemma flush_within source cs s cs' s' :
  flush_identity_batch base source cs s = (Ok cs', s') → within_ceilings cs → within_ceilings cs'.
Proof.
  unfold flush_identity_batch. destruct (cs_batch cs) as [|p l]; [by intros [= <- <-]|].
  intros (names & s1 & _ & Hx)%bind_yields. destruct (negb _); [done|]. injection Hx as <- <-. by apply within_same.
Qed.

Definition bounded_entry (e : CapturedEntry) : Prop :=
  canonical_path (path_bytes (cap_path e)) ∧ (cap_kind e ≠ Symlink → byte_size (cap_bytes e) ≤ MAX_OBJECT_BYTES)%Z.

Lemma insert_within cs key kind digest size total unpublished batch batch_bytes identities :
  within_ceilings cs → (Z.of_nat (base.size (cs_final cs)) < MAX_ENTRIES)%Z → (0 ≤ size)%Z →
  (kind ≠ Symlink → size ≤ MAX_OBJECT_BYTES)%Z → canonical_path key →
  total = (cs_total_bytes cs + size)%Z → (total ≤ MAX_TOTAL_BYTES)%Z →
  within_ceilings {| cs_final := <[key := (kind, digest, size)]> (cs_final cs); cs_unpublished := unpublished; cs_total_bytes := total;
    cs_batch := batch; cs_batch_bytes := batch_bytes; cs_identities := identities |}.
Proof.
  intros [He Hb Hn Hx] Hlt Hs Hk Hc Ht Hm. split; cbn.
  - destruct (cs_final cs !! key) as [v|] eqn:Hv.
    + rewrite map_size_insert_Some by eauto. lia.
    + rewrite map_size_insert_None by done. lia.
  - split; [|done]. destruct (cs_final cs !! key) as [v|] eqn:Hv.
    + rewrite <-insert_delete_eq, total_size_insert by apply lookup_delete_eq. cbn [snd].
      rewrite (total_size_delete _ _ _ Hv) in Hb. destruct v as [[k d] z]. destruct (Hx _ _ _ _ Hv) as [Hz _]. cbn [snd] in *. lia.
    + rewrite total_size_insert by done. cbn [snd]. lia.
  - lia.
  - intros key' kind' digest' size'. destruct (decide (key' = key)) as [->|Hne].
    + rewrite lookup_insert_eq. by intros [= <- <- <-].
    + rewrite lookup_insert_ne by done. apply Hx.
Qed.

Lemma saturated_total cs e : (0 ≤ cs_total_bytes cs)%Z →
  (saturating_add (cs_total_bytes cs) (byte_size (cap_bytes e)) ≤ MAX_TOTAL_BYTES)%Z →
  saturating_add (cs_total_bytes cs) (byte_size (cap_bytes e)) = (cs_total_bytes cs + byte_size (cap_bytes e))%Z.
Proof. unfold saturating_add, MAX_TOTAL_BYTES, u64_max. lia. Qed.

Lemma entry_within source tree scope cs e s cs' s' :
  within_ceilings cs → bounded_entry e →
  capture_entry base objects source tree scope cs e s = (Ok cs', s') → within_ceilings cs'.
Proof.
  intros Hw [Hc Hk]. unfold capture_entry. destruct (Z.leb_spec MAX_ENTRIES (Z.of_nat (size (cs_final cs)))) as [|Hlt]; [done|].
  cbv zeta. destruct (Z.ltb_spec MAX_TOTAL_BYTES (saturating_add (cs_total_bytes cs) (byte_size (cap_bytes e)))) as [|Hm]; [done|].
  intros (unpublished & s1 & _ & Hx)%bind_yields.
  assert (∀ batch batch_bytes identities, within_ceilings {|
    cs_final := <[sort_key (cap_path e) := (cap_kind e, digest_of (cap_bytes e), byte_size (cap_bytes e))]> (cs_final cs);
    cs_unpublished := unpublished; cs_total_bytes := saturating_add (cs_total_bytes cs) (byte_size (cap_bytes e));
    cs_batch := batch; cs_batch_bytes := batch_bytes; cs_identities := identities |}) as Hnew.
  { intros. apply insert_within; [exact Hw|exact Hlt|unfold byte_size; lia|exact Hk|exact Hc| |exact Hm].
    apply saturated_total; [apply (wc_counted _ Hw)|exact Hm]. }
  destruct (_ && (MAX_IDENTITY_BATCH_BYTES <=? _)%Z).
  - apply bind_yields in Hx as (flushed & s2 & Hf & [= <- <-]). apply flush_within in Hf; [|apply Hnew]. by apply (within_same flushed).
  - injection Hx as <- <-. apply Hnew.
Qed.

Lemma entries_within source tree scope entries : ∀ cs s cs' s',
  within_ceilings cs → Forall bounded_entry entries →
  capture_entries base objects source tree scope cs entries s = (Ok cs', s') → within_ceilings cs'.
Proof.
  induction entries as [|e rest IH]; intros cs s cs' s' Hw; cbn [capture_entries]; [by intros _ [= <- <-]|].
  intros [He Hr]%Forall_cons (cs1 & s1 & H1 & Hx)%bind_yields. eapply IH; [|exact Hr|exact Hx]. by eapply entry_within.
Qed.
End Ceilings.

Lemma confined_bounded kernel root e : confined kernel root e → bounded_entry e.
Proof.
  intros [(dir & prefix & dev & depth & n & name & st & _ & _ & _ & _ & _ & _ & Hr) Hc]. split; [exact Hc|].
  destruct Hr as [(_ & -> & _)|(_ & -> & -> & Hs & _)]; [done|]. by intros _.
Qed.

(** Whatever a sink refuses, it was given a prefix of what the walk finds, and the walk
    ends with its refusal or, if it refuses nothing, as it would have ended. *)
Theorem sink_ends_walk kernel debug sink root :
  let (r, w) := walk_root kernel debug takes_all root walk_start in
  let (r', w') := walk_root kernel debug sink root walk_start in
  match feed sink [] (wk_found w) with
  | (given, Some fault) => r' = Err fault ∧ wk_found w' = given
  | (_, None) => r' = r ∧ w' = w
  end.
Proof.
  destruct (cut_root kernel debug sink root walk_start) as (es & Hf & Hc).
  destruct (walk_root kernel debug takes_all root walk_start) as [r w], (walk_root kernel debug sink root walk_start) as [r' w'].
  cbn [fst snd walk_start wk_found app] in *. rewrite Hf. destruct (feed sink [] es) as [given [fault|]]; [done|by injection Hc].
Qed.

(** C25: The ceilings of a capture. Whatever the file system does while it is walked,
    and whatever the other ports answer, a capture that succeeds holds at most 100000
    paths, each canonical, and 2^30 bytes in all, no file of it more than 2^29 bytes;
    the total is counted without overflow. *)
Theorem capture_within_ceilings `{Sha256} debug kernels base objects source root tree scope s cs s' :
  capture_all (confined_capture debug kernels) base objects source root tree scope s = (Ok cs, s') → within_ceilings cs.
Proof.
  unfold capture_all. intros (walked & s1 & Hw & Hx)%bind_yields. apply bind_yields in Hx as (cs1 & s2 & Hc & Hx).
  apply map_err_yields, bind_yields in Hc as (cs2 & s3 & He & Hc).
  destruct walked as [entries fault]. cbn [fst snd] in *. destruct fault; [done|]. injection Hc as <- <-.
  apply map_err_yields, flush_within in Hx; [exact Hx|]. eapply entries_within; [apply start_within| |exact He].
  unfold seal_call in Hw. injection Hw as Hw _. apply Forall_forall. intros e Hin.
  eapply confined_bounded, confined_found; [exact Hw|exact Hin].
Qed.

(** C23: Confinement, against any change of the file system while it is walked. Every
    captured entry lies at most 64 directories below the root, each of them listed in,
    inspected in and opened from the one above without following a link, found to be
    the object inspected and on the root's device; a link contributes its own target,
    and a regular file the complete content of the very object that was inspected, of
    the size and kind inspected. Its path is canonical, and when directories list plain
    names no part of it is [.git]. *)
Theorem capture_confined debug kernels n root entries fault e :
  capture_tree (confined_capture debug kernels) n root = (entries, fault) → e ∈ entries →
  confined (kernels n) root e ∧
  (lists_names (kernels n) → ".git" ∉ split_on "/" (path_bytes (cap_path e))).
Proof.
  intros Hx He. pose proof (confined_found _ _ _ _ _ _ _ Hx He) as Hc. split; [exact Hc|]. intros Hl. by eapply confined_no_git.
Qed.

(** C24: Capture of a tree that stands still. Over a kernel that answers throughout as
    one tree, in whatever order it lists names, the walk succeeds exactly when the
    reference [capture_of] accepts the tree, finds what the reference says in its order,
    and these are the files and links of the tree, the root's Git state aside; a tree
    with a special file, another device, a nested repository, an unusable path, too deep
    or too large, is refused. *)
Theorem quiet_capture_exact debug kernels n root dev children :
  stands_at (kernels n) root dev children →
  match capture_of (S MAX_DEPTH) dev EmptyString (TDirectory dev children) with
  | Some es => capture_tree (confined_capture debug kernels) n root = (es, None) ∧
               ∀ e, e ∈ es ↔ tree_holds EmptyString (TDirectory dev children) e
  | None => ∃ found fault, capture_tree (confined_capture debug kernels) n root = (found, Some fault)
  end.
Proof.
  intros Hs. pose proof (quiet_capture debug _ _ _ _ _ Hs) as Hc.
  destruct (capture_of _ _ _ _) as [es|] eqn:Hes; [|exact Hc]. split; [exact Hc|by eapply capture_of_holds].
Qed.
