(* ===== verification/GitBase.v ===== *)
(** * Git, run by the controller ([pantheon-git/src/sterile.rs], [capture.rs] and [materializer.rs])

    The base reader and the materializer: every process is [git] in a sterile
    environment. The executable and the file system are not part of this program:
    their answers, at every call, are an argument. Every process that is started is
    kept, in order, with its environment. *)

From Stdlib Require Import ZArith NArith Ascii Lia.
From stdpp Require Import gmap.
From S2P Require Import Prelude Utf8 Canonical Digest Parse ParseFacts Artifact Scope Workspace Command StoreBase StoreWorkspace EngineBase EngineWorkspace EngineSealing Container Capture.

(** ** The machine *)

(** A process that could not be started, or not be waited for. *)
Inductive RunFailure : Type := NotStarted (text : string) | NotWaited (text : string).

Definition failure_text (f : RunFailure) : string := match f with NotStarted text | NotWaited text => text end.

(** A finished process; what it wrote is bytes. *)
Record GitOutput : Type := { go_success : bool; go_stdout : string; go_stderr : string }.

Record Invocation : Type := {
  iv_env : list (string * string);
  iv_args : list string;
  iv_stdin : option string
}.

Inductive PathState : Type := Exists | NotFound | Unreadable (text : string).

(** The files are those this process has written, as a process it starts finds them. *)
Record GitHost : Type := {
  gh_run : nat → gmap string string → Invocation → Result GitOutput RunFailure;
  gh_create_dir_all : nat → string → Result unit string;
  gh_write : nat → string → string → Result unit string;
  (** Whether the directory went away, was not there, or neither. *)
  gh_remove_dir_all : nat → string → PathState;
  gh_symlink_metadata : nat → string → PathState;
  gh_path_variable : option string;
  gh_process_id : Z
}.

(** The calls made so far, the processes started, the process-wide counter of scratch
    directories, and the files written. *)
Record GitState : Type := {
  gt_calls : nat;
  gt_started : list Invocation;
  gt_scratch : Z;
  gt_files : gmap string string
}.

Definition after_call (g : GitState) (files : gmap string string) : GitState := {|
  gt_calls := S (gt_calls g); gt_started := gt_started g; gt_scratch := gt_scratch g; gt_files := files |}.

Definition Git (E A : Type) : Type := GitState → Result A E * GitState.

Definition git_ret {E A} (a : A) : Git E A := fun g => (Ok a, g).

Definition git_try {E A} (r : Result A E) : Git E A := fun g => (r, g).

Definition git_bind {E A B} (m : Git E A) (k : A → Git E B) : Git E B := fun g =>
  match m g with
  | (Ok a, g') => k a g'
  | (Err e, g') => (Err e, g')
  end.

Notation "'let%' x := m 'in' k" := (git_bind m (fun x => k))
  (at level 10, x pattern, m at level 100, k at level 200) : rust_scope.
Notation "'do%' m 'in' k" := (git_bind m (fun _ => k))
  (at level 10, m at level 100, k at level 200) : rust_scope.

(** The outcome of a step, error or not. *)
Definition git_attempt {E F A} (m : Git E A) : Git F (Result A E) := fun g =>
  let (r, g') := m g in (Ok r, g').

Definition git_map_err {E F A} (f : E → F) (m : Git E A) : Git F A := fun g =>
  let (r, g') := m g in (map_err f r, g').

(** A call of the file system that leaves the files as they are. *)
Definition git_fs {E A} (f : nat → Result A E) : Git E A := fun g => (f (gt_calls g), after_call g (gt_files g)).

(** ** The sterile profile *)

Record SterileProfile : Type := { spr_base : string; spr_home : string; spr_empty : string; spr_empty_config : string }.

Definition sterile_env (profile : SterileProfile) (path_variable : option string) : list (string * string) :=
  (match path_variable with Some path => [("PATH", path)] | None => [] end) ++
  [("HOME", spr_home profile); ("XDG_CONFIG_HOME", spr_home profile); ("GIT_CONFIG_NOSYSTEM", "1");
   ("GIT_CONFIG_GLOBAL", spr_empty_config profile); ("GIT_CONFIG_SYSTEM", spr_empty_config profile);
   ("GIT_ATTR_NOSYSTEM", "1"); ("GIT_TERMINAL_PROMPT", "0"); ("LC_ALL", "C")].

Definition sterile_args (profile : SterileProfile) : list string :=
  ["-c"; "core.hooksPath=" +:+ spr_empty profile; "-c"; "advice.detachedHead=false"; "-c"; "init.defaultBranch=main"].

Section Host.
Variable host : GitHost.

(** [std::fs::write]. *)
Definition write_file (path bytes : string) : Git string unit := fun g =>
  match gh_write host (gt_calls g) path bytes with
  | Ok _ => (Ok tt, after_call g (<[path := bytes]> (gt_files g)))
  | Err e => (Err e, after_call g (delete path (gt_files g)))
  end.

(** [std::fs::remove_dir_all]. *)
Definition remove_dir_all {E} (dir : string) : Git E PathState := fun g =>
  let state := gh_remove_dir_all host (gt_calls g) dir in
  (Ok state,
   after_call g (match state with
                 | Exists => filter (fun kv => starts_with (dir +:+ "/") kv.1 = false) (gt_files g)
                 | NotFound | Unreadable _ => gt_files g
                 end)).

Definition sterile_create (control_root : string) : Git string SterileProfile :=
  let base := path_join control_root "sterile" in
  let home := path_join base "home" in
  let empty := path_join base "empty" in
  let empty_config := path_join base "empty.gitconfig" in
  do% git_fs (fun n => gh_create_dir_all host n home) in
  do% git_fs (fun n => gh_create_dir_all host n empty) in
  do% write_file empty_config EmptyString in
  git_ret {| spr_base := base; spr_home := home; spr_empty := empty; spr_empty_config := empty_config |}.

Variable profile : SterileProfile.

(** A directory of its own for every call. *)
Definition scratch_dir (purpose : string) : Git string string := fun g =>
  let unique := gt_scratch g in
  let dir := path_join (path_join (spr_base profile) "scratch")
    (purpose +:+ ("-" +:+ (u64_text (gh_process_id host) +:+ ("-" +:+ u64_text unique)))) in
  (do% git_fs (fun n => gh_create_dir_all host n dir) in git_ret dir)
    {| gt_calls := gt_calls g; gt_started := gt_started g; gt_scratch := (unique + 1) mod 18446744073709551616;
       gt_files := gt_files g |}.

Definition sterile_invocation (args : list string) (stdin : option string) : Invocation := {|
  iv_env := sterile_env profile (gh_path_variable host);
  iv_args := sterile_args profile ++ args;
  iv_stdin := stdin |}.

(** [SterileProfile::run]; and with a text to read. *)
Definition git_start (args : list string) (stdin : option string) : Git RunFailure GitOutput := fun g =>
  let invocation := sterile_invocation args stdin in
  (gh_run host (gt_calls g) (gt_files g) invocation,
   {| gt_calls := S (gt_calls g); gt_started := gt_started g ++ [invocation]; gt_scratch := gt_scratch g;
      gt_files := gt_files g |}).

(** ** The base reader ([capture.rs]) *)

Definition is_canonical_object_name (name : string) : bool :=
  (Nat.eqb (String.length name) 40 || Nat.eqb (String.length name) 64) && all_bytes canonical_hex name.

(** One object name per line. *)
Definition parse_object_names (output : string) : option (list string) :=
  if utf8_valid output then
    let names := lines output in
    if forallb is_canonical_object_name names then Some names else None
  else None.

Definition reader_git (code what : string) (args : list string) : Git ExternalFault string :=
  let% output := git_map_err (fun e => xfault code ("could not run git while " +:+ (what +:+ (": " +:+ failure_text e)))) (git_start args None) in
  if go_success output then git_ret (go_stdout output)
  else git_try (Err (xfault code ("git failed while " +:+ (what +:+ (": " +:+ trim (from_utf8_lossy (go_stderr output))))))).

(** [{index:06}] *)
Fixpoint pad_zeros (n : nat) (s : string) : string :=
  match n with
  | O => s
  | S n => String "0" (pad_zeros n s)
  end.

Definition six_digits (index : nat) : string :=
  let text := u64_text (Z.of_nat index) in pad_zeros (6 - String.length text) text.

(** The staged payloads' paths, one per line. *)
Fixpoint stage_payloads (stage : string) (index : nat) (contents : list string) : Git ExternalFault string :=
  match contents with
  | [] => git_ret EmptyString
  | bytes :: rest =>
      let staged := path_join stage ("payload-" +:+ six_digits index) in
      do% git_map_err (fun e => xfault CAPTURE_IO ("could not stage comparison payload: " +:+ e))
            (write_file staged bytes) in
      let% paths := stage_payloads stage (S index) rest in
      git_ret (from_utf8_lossy staged +:+ String "010" paths)
  end.

Definition hash_staged_blobs (source stage : string) (contents : list string) : Git ExternalFault (list string) :=
  let% paths := stage_payloads stage 0 contents in
  let% output := git_map_err (fun e => xfault BASE_UNAVAILABLE match e with
      | NotStarted text => "could not run git while naming captured blobs: " +:+ text
      | NotWaited text => "could not read object names from git: " +:+ text
      end)
                   (git_start ["-C"; source; "hash-object"; "--stdin-paths"; "--no-filters"] (Some paths)) in
  if negb (go_success output) then
    git_try (Err (xfault BASE_UNAVAILABLE ("git failed while naming captured blobs: " +:+ trim (from_utf8_lossy (go_stderr output)))))
  else
    git_try (ok_or (parse_object_names (go_stdout output))
      (xfault BASE_UNAVAILABLE "git hash-object output is not one canonical object name per payload")).

Definition blob_object_names (source : string) (contents : list string) : Git ExternalFault (list string) :=
  match contents with
  | [] => git_ret []
  | _ =>
      let% stage := git_map_err (fun e => xfault CAPTURE_IO ("could not create comparison staging: " +:+ e))
                      (scratch_dir "base-compare") in
      let% result := git_attempt (hash_staged_blobs source stage contents) in
      do% remove_dir_all stage in
      git_try result
  end.

(** *** The base tree *)

Definition entry_kind_of (kind mode : string) : Result EntryKind ExternalFault :=
  if String.eqb kind "blob" && String.eqb mode "100644" then Ok Regular
  else if String.eqb kind "blob" && String.eqb mode "100755" then Ok Executable
  else if String.eqb kind "blob" && String.eqb mode "120000" then Ok Symlink
  else if String.eqb kind "commit" || (String.eqb kind "blob" && String.eqb mode "160000") then
    Err (xfault HOSTILE_REPOSITORY "the base tree contains a submodule entry, which v1 capture does not support")
  else Err (xfault HOSTILE_REPOSITORY "the base tree contains an unsupported entry type").

Variable debug : string → string.

(** One record of the listing. *)
Definition base_record (record : string) : Result (string * BaseObject) ExternalFault :=
  let refuse {A} (detail : string) : Result A ExternalFault := Err (xfault HOSTILE_REPOSITORY detail) in
  match find_byte "009" record with
  | None => refuse "the base tree listing is not shaped like ls-tree output"
  | Some tab =>
      let path := drop_bytes (S tab) record in
      match List.filter (fun field => negb (is_empty field)) (split_on " " (String.substring 0 tab record)) with
      | [mode; kind; oid; size] =>
          let? kind := entry_kind_of kind mode in
          let? _ := map_err (fun e => xfault HOSTILE_REPOSITORY ("the base tree names an unusable path: " +:+
                               match e with
                               | InvalidPath value reason => "repository path " +:+ (debug value +:+ (" is invalid: " +:+ reason))
                               | OperationStateMismatch _ _ _ => EmptyString
                               end)) (path_from_bytes path) in
          if negb (utf8_valid oid) then refuse "object name is not UTF-8"
          else
            match (if utf8_valid size then parse_u64 (trim_start_byte "-" size) else Err EmptyString) with
            | Ok size => Ok (path, {| bo_kind := kind; bo_oid := oid; bo_size := size |})
            | Err _ => refuse "a base tree record has no usable size"
            end
      | _ => refuse "a base tree record does not have four fields"
      end
  end.

(** A later record of a path replaces an earlier one. *)
Fixpoint base_records (records : list string) (tree : gmap string BaseObject) :
    Result (gmap string BaseObject) ExternalFault :=
  match records with
  | [] => Ok tree
  | record :: rest =>
      if is_empty record then base_records rest tree
      else
        let? entry := base_record record in
        base_records rest (<[entry.1 := entry.2]> tree)
  end.

Definition ls_tree_args (source revision : string) : list string :=
  ["-C"; source; "ls-tree"; "--full-tree"; "-r"; "-l"; "-z"; revision].

Definition base_tree (source : string) (base : ResolvedBase) : Git ExternalFault (gmap string BaseObject) :=
  let% out := reader_git BASE_UNAVAILABLE "reading the immutable base tree" (ls_tree_args source (resolved_text base)) in
  git_try (base_records (split_on "000" out) ∅).

Definition blob_bytes (source oid : string) : Git ExternalFault string :=
  if negb (is_canonical_object_name oid) then
    git_try (Err (xfault HOSTILE_REPOSITORY (debug oid +:+ " is not a canonical object name")))
  else reader_git BASE_UNAVAILABLE "reading a base blob" ["-C"; source; "cat-file"; "blob"; oid].

(** ** The materializer ([materializer.rs]) *)

Definition PANTHEON_BASE_REF : string := "refs/pantheon/base".
Definition WORKSPACE_IDENTITY_NAME : string := "Pantheon Task Workspace".
Definition WORKSPACE_IDENTITY_EMAIL : string := "workspace@pantheon.invalid".

Definition UNRESOLVABLE : string := "workspace.base-unresolvable".
Definition FAILED : string := "workspace.materialization-failed".
Definition HOSTILE : string := "workspace.hostile-repository-state".

Definition mat_error (code detail : string) : MaterializerError := {| me_code := code; me_detail := detail |}.

(** The standard output, as text. *)
Definition git (code what : string) (args : list string) : Git MaterializerError string :=
  let% output := git_map_err (fun e => mat_error code ("could not run git while " +:+ (what +:+ (": " +:+ failure_text e))))
                   (git_start args None) in
  if go_success output then git_ret (from_utf8_lossy (go_stdout output))
  else git_try (Err (mat_error code ("git failed while " +:+ (what +:+ (": " +:+ trim (from_utf8_lossy (go_stderr output))))))).

(** Whether a query succeeds, and its answer. *)
Definition git_probe {E} (args : list string) : Git E (option string) :=
  let% output := git_attempt (git_start args None) in
  git_ret match output with
          | Ok output => if go_success output then Some (trim (from_utf8_lossy (go_stdout output))) else None
          | Err _ => None
          end.

Definition path_state (path : string) {E} : Git E PathState := git_fs (fun n => Ok (gh_symlink_metadata host n path)).

Definition rev_parse_args (dest query : string) : list string :=
  ["-C"; dest; "rev-parse"; "--path-format=absolute"; query].

Definition verify_isolation (destination : string) : Git MaterializerError unit :=
  let refuse (detail : string) : Git MaterializerError unit := git_try (Err (mat_error HOSTILE detail)) in
  let dest := from_utf8_lossy destination in
  let% common := git_probe (rev_parse_args dest "--git-common-dir") in
  let% git_dir := git_probe (rev_parse_args dest "--git-dir") in
  let common := default EmptyString common in
  let git_dir := default EmptyString git_dir in
  if is_empty common || negb (String.eqb common git_dir) then
    refuse (dest +:+ (" has git dir " +:+ (debug git_dir +:+ (" and common dir " +:+ (debug common +:+
      ", which are not the same repository")))))
  else
    let% alternates := path_state (path_join destination ".git/objects/info/alternates") in
    match alternates with
    | Exists => refuse (dest +:+ " borrows an alternate object database")
    | NotFound | Unreadable _ =>
        let% remotes := git_probe ["-C"; dest; "remote"] in
        match remotes with
        | None => refuse ("could not list remotes of " +:+ dest)
        | Some remotes =>
            if is_empty (trim remotes) then git_ret tt
            else refuse (dest +:+ (" has configured remotes: " +:+ debug remotes))
        end
    end.

Definition base_error_text (e : BaseError) : string :=
  match e with
  | NotAnObjectName value => debug value +:+ " is not a lowercase hexadecimal object name of 40 or 64 characters"
  | NotARefName value reason => debug value +:+ (" is not a usable ref name: " +:+ reason)
  end.

Definition resolve_base (source : string) (requested : RequestedBase) : Git MaterializerError ResolvedBase :=
  let revision := requested_text requested +:+ "^{commit}" in
  let% resolved := git UNRESOLVABLE "resolving the requested base"
    ["-C"; from_utf8_lossy source; "rev-parse"; "--verify"; "--quiet"; "--end-of-options"; revision] in
  git_try (map_err (fun e => mat_error UNRESOLVABLE (requested_text requested +:+ (" did not resolve to a usable commit: " +:+
    base_error_text e))) (resolved_base_parse (trim resolved))).

(** [Path::parent]: the last component off, and the separators before it. *)
Fixpoint strip_separators (reversed : list ascii) : list ascii :=
  match reversed with
  | "/"%char :: [] => reversed
  | "/"%char :: rest => strip_separators rest
  | "."%char :: (("/"%char :: _) as rest) => strip_separators rest
  | _ => reversed
  end.

Fixpoint drop_component (reversed : list ascii) : list ascii :=
  match reversed with
  | [] => []
  | c :: rest => if Ascii.eqb c "/" then reversed else drop_component rest
  end.

Definition path_parent (path : string) : option string :=
  match strip_separators (rev (String.list_ascii_of_string path)) with
  | [] => None
  | "/"%char :: _ => None
  | reversed => Some (String.string_of_list_ascii (rev (strip_separators (drop_component reversed))))
  end.

Definition materialize_commands (destination source base : string) : list (string * list string) :=
  [("creating the workspace repository", ["init"; "--quiet"; "--template"; from_utf8_lossy (spr_empty profile); destination]);
   ("fetching the immutable base", ["-C"; destination; "fetch"; "--quiet"; "--no-tags"; "--end-of-options"; source; base]);
   ("pinning the base", ["-C"; destination; "update-ref"; PANTHEON_BASE_REF; base]);
   ("checking out the base", ["-C"; destination; "checkout"; "--quiet"; "--detach"; base]);
   ("setting the workspace commit identity", ["-C"; destination; "config"; "user.name"; WORKSPACE_IDENTITY_NAME]);
   ("setting the workspace commit identity", ["-C"; destination; "config"; "user.email"; WORKSPACE_IDENTITY_EMAIL])].

(** One command after the other, up to the first that fails. *)
Fixpoint git_each (commands : list (string * list string)) : Git MaterializerError unit :=
  match commands with
  | [] => git_ret tt
  | (what, args) :: rest => do% git FAILED what args in git_each rest
  end.

Definition materialize (target : MaterializationTarget) : Git MaterializerError ResolvedBase :=
  let destination := from_utf8_lossy (mt_destination target) in
  let source := from_utf8_lossy (mt_source target) in
  do% (match path_parent (mt_destination target) with
       | Some parent => git_map_err (fun e => mat_error FAILED ("could not create the workspace directory: " +:+ e))
                          (git_fs (fun n => gh_create_dir_all host n parent))
       | None => git_ret tt
       end) in
  do% git_each (materialize_commands destination source (resolved_text (mt_base target))) in
  do% verify_isolation (mt_destination target) in
  let% head := git FAILED "verifying the checked-out base" ["-C"; destination; "rev-parse"; "--verify"; "HEAD"] in
  git_try (map_err (fun e => mat_error FAILED ("the workspace HEAD is not a usable object name: " +:+ base_error_text e))
    (resolved_base_parse (trim head))).

Definition observe {E} (target : MaterializationTarget) : Git E Materialization :=
  let% found := path_state (mt_destination target) in
  match found with
  | NotFound => git_ret MatAbsent
  | Unreadable _ => git_ret MatUnknown
  | Exists =>
      let destination := from_utf8_lossy (mt_destination target) in
      let% head := git_probe ["-C"; destination; "rev-parse"; "--verify"; "HEAD"] in
      let% has_base := git_probe ["-C"; destination; "cat-file"; "-e"; resolved_text (mt_base target)] in
      let% isolated := git_attempt (verify_isolation (mt_destination target)) in
      git_ret match head, has_base, isolated with
              | Some _, Some _, Ok _ => MatPresent
              | _, _, _ => MatUnknown
              end
  end.

Definition discard (target : MaterializationTarget) : Git MaterializerError unit :=
  let% removed := remove_dir_all (mt_destination target) in
  match removed with
  | Exists | NotFound => git_ret tt
  | Unreadable text => git_try (Err (mat_error FAILED ("could not discard " +:+ (from_utf8_lossy (mt_destination target) +:+ (": " +:+ text)))))
  end.
End Host.

(** ** Texts *)

Lemma find_byte_app c s t : contains_byte c s = false → find_byte c (s +:+ String c t) = Some (String.length s).
Proof.
  induction s as [|b s IH]; cbn [String.append contains_byte find_byte]; [by rewrite Ascii.eqb_refl|].
  intros [-> Hs]%orb_false_iff. by rewrite IH.
Qed.

Lemma substring_all s t : String.substring 0 (String.length s) (s +:+ t) = s.
Proof. induction s as [|b s IH]; cbn [String.append String.length String.substring]; [by destruct t|]. by rewrite IH. Qed.

Lemma all_bytes_contains p c s : all_bytes p s = true → p c = false → contains_byte c s = false.
Proof.
  induction s as [|b s IH]; cbn [all_bytes contains_byte]; [done|]. intros [Hb Hs]%andb_true_iff Hc.
  apply orb_false_iff. split; [|by apply IH]. destruct (Ascii.eqb_spec b c); congruence.
Qed.

Lemma all_digits_bytes s : all_digits s = true → all_bytes is_digit s = true.
Proof. induction s as [|b s IH]; cbn [all_digits all_bytes]; [done|]. intros [-> Hs]%andb_true_iff. by apply IH. Qed.

Lemma canonical_hex_ascii b : canonical_hex b = true → (byte_val b < 128)%N.
Proof. unfold canonical_hex, in_range. rewrite orb_true_iff, !andb_true_iff, !N.leb_le. lia. Qed.

Lemma object_name_valid name : all_bytes canonical_hex name = true → utf8_valid name = true.
Proof.
  induction name as [|b name IH]; cbn [all_bytes]; [done|]. intros [Hb Hn]%andb_true_iff.
  apply utf8_valid_cons; [by apply canonical_hex_ascii|by apply IH].
Qed.

(** *** Numbers *)

Lemma digits_value_ge s acc v : (0 ≤ acc)%Z → digits_value s acc = Some v → (acc ≤ v)%Z.
Proof.
  revert acc. induction s as [|b s IH]; intros acc Ha; cbn [digits_value]; [intros [= <-]; lia|].
  destruct (is_digit b) eqn:Hb; [|done]. unfold is_digit in Hb. apply andb_true_iff in Hb as [Hb _]. apply N.leb_le in Hb.
  intros Hv. pose proof (IH (acc * 10 + (Z.of_N (byte_val b) - 48))%Z ltac:(lia) Hv). lia.
Qed.

Lemma parse_digits_value s acc v :
  (0 ≤ acc)%Z → digits_value s acc = Some v → (v ≤ u64_max)%Z → parse_digits s acc = Ok v.
Proof.
  revert acc. induction s as [|b s IH]; intros acc Ha; cbn [digits_value parse_digits]; [by intros [= ->]|].
  destruct (is_digit b) eqn:Hb; [|done]. cbn [negb]. unfold is_digit in Hb. apply andb_true_iff in Hb as [Hb _]. apply N.leb_le in Hb.
  intros Hv Hm. set (next := (acc * 10 + (Z.of_N (byte_val b) - 48))%Z) in *. assert (0 ≤ next)%Z as Hn by (unfold next; lia).
  pose proof (digits_value_ge _ _ _ Hn Hv). destruct (Z.ltb_spec u64_max next); [lia|]. by apply IH.
Qed.

Lemma u64_text_digits z : (0 ≤ z)%Z →
  all_bytes is_digit (u64_text z) = true ∧ digits_value (u64_text z) 0 = Some z ∧ is_empty (u64_text z) = false.
Proof.
  intros Hz. unfold u64_text. destruct (u64_to_string_spec (Z.to_N z)) as (b & ds & -> & Hd & Hv & _).
  split_and!; [by apply all_digits_bytes|by rewrite Hv, Z2N.id|done].
Qed.

Lemma parse_u64_text z : (0 ≤ z ≤ u64_max)%Z → parse_u64 (u64_text z) = Ok z.
Proof.
  intros [Hz Hm]. destruct (u64_text_digits z Hz) as (Hd & Hv & He). destruct (u64_text z) as [|b ds]; [done|].
  assert (b ≠ "+"%char) as Hb by (intros ->; done). rewrite <-(parse_digits_value _ 0 z) by done.
  unfold parse_u64. by destruct b as [[] [] [] [] [] [] [] []].
Qed.

(** ** The base tree's listing *)

Definition mode_text (kind : EntryKind) : string :=
  match kind with
  | Regular => "100644"
  | Executable => "100755"
  | Symlink => "120000"
  end.

Fixpoint pad_spaces (n : nat) (s : string) : string :=
  match n with
  | O => s
  | S n => String " " (pad_spaces n s)
  end.

Definition ls_tree_meta (o : BaseObject) : string :=
  mode_text (bo_kind o) +:+ String " " ("blob" +:+ String " " (bo_oid o +:+ String " "
    (pad_spaces (7 - String.length (u64_text (bo_size o))) (u64_text (bo_size o))))).

(** What [git ls-tree -r -l -z] writes of a blob, the size in a column of seven. *)
Definition ls_tree_record (entry : string * BaseObject) : string := ls_tree_meta entry.2 +:+ String "009" entry.1.

Fixpoint ls_tree_text (entries : list (string * BaseObject)) : string :=
  match entries with
  | [] => EmptyString
  | entry :: rest => ls_tree_record entry +:+ String "000" (ls_tree_text rest)
  end.

Record listable (entry : string * BaseObject) : Prop := {
  li_path : canonical_path entry.1;
  li_oid : is_canonical_object_name (bo_oid entry.2) = true;
  li_size : (0 ≤ bo_size entry.2 ≤ u64_max)%Z
}.

Section Listing.
Variable debug : string → string.

Lemma pad_spaces_contains c n s : Ascii.eqb " " c = false → contains_byte c s = false → contains_byte c (pad_spaces n s) = false.
Proof. intros Hc Hs. induction n as [|n IH]; cbn [pad_spaces contains_byte]; [done|]. by rewrite Hc. Qed.

Lemma meta_contains c o :
  canonical_hex c = false → is_digit c = false → contains_byte c "blob" = false → Ascii.eqb " " c = false →
  is_canonical_object_name (bo_oid o) = true → (0 ≤ bo_size o)%Z → contains_byte c (ls_tree_meta o) = false.
Proof.
  intros Hh Hd Hb Hs Ho Hz. apply andb_true_iff in Ho as [_ Ho]. destruct (u64_text_digits _ Hz) as (Hdig & _ & _).
  unfold ls_tree_meta. rewrite contains_byte_app. cbn [contains_byte]. rewrite Hs, contains_byte_app. cbn [contains_byte].
  cbn [contains_byte] in Hb. rewrite Hb, Hs, contains_byte_app. cbn [contains_byte]. rewrite Hs.
  rewrite (all_bytes_contains _ _ _ Ho Hh), (pad_spaces_contains _ _ _ Hs (all_bytes_contains _ _ _ Hdig Hd)).
  assert (all_bytes is_digit (mode_text (bo_kind o)) = true) as Hm by by destruct (bo_kind o).
  by rewrite (all_bytes_contains _ _ _ Hm Hd).
Qed.

Definition nonempty (field : string) : bool := negb (is_empty field).

Lemma padded_field n s :
  contains_byte " " s = false → is_empty s = false → List.filter nonempty (split_on " " (pad_spaces n s)) = [s].
Proof.
  intros Hs He. induction n as [|n IH]; cbn [pad_spaces split_on].
  - rewrite split_on_alone by done. cbn [List.filter]. unfold nonempty. by rewrite He.
  - cbn [Ascii.eqb]. cbn [List.filter nonempty is_empty String.eqb negb]. exact IH.
Qed.

Lemma meta_fields o :
  is_canonical_object_name (bo_oid o) = true → (0 ≤ bo_size o)%Z →
  List.filter nonempty (split_on " " (ls_tree_meta o)) = [mode_text (bo_kind o); "blob"; bo_oid o; u64_text (bo_size o)].
Proof.
  intros Ho Hz. apply andb_true_iff in Ho as [Hl Ho]. destruct (u64_text_digits _ Hz) as (Hdig & _ & He).
  unfold ls_tree_meta. rewrite !split_on_join, !List.filter_app. rewrite padded_field; [|by eapply all_bytes_contains|done].
  rewrite (split_on_alone " " (bo_oid o)) by by eapply all_bytes_contains.
  assert (nonempty (bo_oid o) = true) as Hn by (unfold nonempty; by destruct (bo_oid o)).
  cbn [List.filter]. rewrite Hn. by destruct (bo_kind o).
Qed.

Lemma base_record_listed entry : listable entry → base_record debug (ls_tree_record entry) = Ok entry.
Proof.
  intros [Hp Ho Hz]. unfold base_record, ls_tree_record.
  rewrite find_byte_app by (apply meta_contains; [done..|apply Hz]).
  rewrite substring_all. fold nonempty. change (fun field => negb (is_empty field)) with nonempty.
  rewrite meta_fields by (done || apply Hz).
  assert (drop_bytes (S (String.length (ls_tree_meta entry.2))) (ls_tree_meta entry.2 +:+ String "009" entry.1) = entry.1) as ->.
  { replace (ls_tree_meta entry.2 +:+ String "009" entry.1) with ((ls_tree_meta entry.2 +:+ String "009" EmptyString) +:+ entry.1)
      by by rewrite append_assoc.
    replace (S (String.length (ls_tree_meta entry.2))) with (String.length (ls_tree_meta entry.2 +:+ String "009" EmptyString))
      by (rewrite length_append; cbn; lia). apply drop_bytes_app. }
  assert (entry_kind_of "blob" (mode_text (bo_kind entry.2)) = Ok (bo_kind entry.2)) as -> by by destruct (bo_kind entry.2).
  cbn [try_bind]. rewrite (proj2 (path_from_bytes_Ok entry.1 (mk_path entry.1))) by done. cbn [map_err try_bind].
  apply andb_true_iff in Ho as [_ Ho]. rewrite (object_name_valid _ Ho). cbn [negb].
  destruct (u64_text_digits _ (proj1 Hz)) as (Hdig & _ & He).
  assert (utf8_valid (u64_text (bo_size entry.2)) = true) as ->.
  { clear -Hdig. induction (u64_text (bo_size entry.2)) as [|b s IH]; [done|]. cbn in Hdig. apply andb_true_iff in Hdig as [Hb Hs].
    apply utf8_valid_cons; [|by apply IH]. unfold is_digit in Hb. apply andb_true_iff in Hb as [_ Hb]. apply N.leb_le in Hb. lia. }
  assert (trim_start_byte "-" (u64_text (bo_size entry.2)) = u64_text (bo_size entry.2)) as ->.
  { destruct (u64_text (bo_size entry.2)) as [|b s]; [done|]. cbn [trim_start_byte]. cbn in Hdig.
    destruct (Ascii.eqb_spec b "-") as [->|]; [done|done]. }
  rewrite (parse_u64_text _ Hz). by destruct entry as [p [k i z]].
Qed.

Lemma record_shape entry : listable entry → contains_byte "000" (ls_tree_record entry) = false ∧ is_empty (ls_tree_record entry) = false.
Proof.
  intros [Hp Ho Hz]. unfold ls_tree_record. split.
  - rewrite contains_byte_app. rewrite meta_contains by (done || apply Hz). cbn [contains_byte orb].
    by destruct Hp as (_ & _ & -> & _).
  - unfold ls_tree_meta. by destruct (bo_kind entry.2).
Qed.

Lemma base_records_listed entries tree :
  Forall listable entries → NoDup entries.*1 →
  (∀ path, path ∈ entries.*1 → tree !! path = None) →
  base_records debug (split_on "000" (ls_tree_text entries)) tree = Ok (list_to_map entries ∪ tree).
Proof.
  revert tree. induction entries as [|entry rest IH]; intros tree Hl Hnd Ht; cbn [ls_tree_text].
  { cbn. by rewrite map_empty_union. }
  apply Forall_cons in Hl as [He Hl]. cbn [fmap list_fmap] in Hnd. apply NoDup_cons in Hnd as [Hni Hnd].
  destruct (record_shape entry He) as [Hn Hne]. rewrite split_on_join, split_on_alone by done. cbn [app base_records]. rewrite Hne.
  rewrite base_record_listed by done. cbn [try_bind]. rewrite IH; [|done|done|].
  - f_equal. destruct entry as [p o]. cbn [list_to_map foldr fst snd]. apply map_eq. intros path. cbn in Hni.
    rewrite !lookup_union. destruct (decide (path = p)) as [->|Hp].
    + rewrite !lookup_insert_eq. rewrite (not_elem_of_list_to_map_1 rest p Hni).
      rewrite (Ht p) by (left). done.
    + rewrite !lookup_insert_ne by done. done.
  - intros path Hin. rewrite lookup_insert_ne; [apply Ht; by right|]. intros <-. done.
Qed.
End Listing.

(** ** The names of captured payloads *)

(** One text per line. *)
Fixpoint lines_text (texts : list string) : string :=
  match texts with
  | [] => EmptyString
  | text :: rest => text +:+ String "010" (lines_text rest)
  end.

Lemma strip_cr_plain s : contains_byte "013" s = false → strip_cr s = s.
Proof.
  intros Hc. unfold strip_cr. destruct (ends_with (String "013" EmptyString) s) eqn:E; [exfalso|done].
  revert Hc E. induction s as [|b s IH]; [done|]. cbn [contains_byte ends_with]. intros [Hb Hs]%orb_false_iff.
  destruct (String.eqb_spec (String b s) (String "013" EmptyString)) as [[= -> _]|]; [done|]. by apply IH.
Qed.

Lemma split_lines_text texts :
  Forall (fun t => contains_byte "010" t = false) texts → split_on "010" (lines_text texts) = texts ++ [EmptyString].
Proof.
  induction 1 as [|t texts Ht Hts IH]; cbn [lines_text]; [done|]. by rewrite split_on_join, split_on_alone, IH.
Qed.

Lemma lines_of_text texts :
  Forall (fun t => contains_byte "010" t = false ∧ contains_byte "013" t = false) texts → lines (lines_text texts) = texts.
Proof.
  intros Ht. unfold lines. rewrite split_lines_text by (eapply Forall_impl; [exact Ht|naive_solver]).
  rewrite removelast_last, last_last. cbn [String.eqb]. rewrite app_nil_r. induction Ht as [|t texts [_ Hc] Hts IH]; cbn [map]; [done|].
  by rewrite strip_cr_plain, IH.
Qed.

(** Reading back the names [git] wrote. *)
Lemma parse_object_names_text names :
  Forall (fun n => is_canonical_object_name n = true) names → parse_object_names (lines_text names) = Some names.
Proof.
  intros Hn. unfold parse_object_names.
  assert (Forall (fun n => all_bytes canonical_hex n = true) names) as Hh.
  { eapply Forall_impl; [exact Hn|]. by intros n [_ H]%andb_true_iff. }
  assert (utf8_valid (lines_text names) = true) as ->.
  { clear Hn. induction Hh as [|n names H Hs IH]; cbn [lines_text]; [done|]. apply utf8_valid_app; [by apply object_name_valid|].
    by apply utf8_valid_cons. }
  rewrite lines_of_text.
  - assert (forallb is_canonical_object_name names = true) as ->; [|done]. apply forallb_True. by rewrite <-Forall_forall.
  - eapply Forall_impl; [exact Hh|]. intros n H. split; (eapply all_bytes_contains; [exact H|done]).
Qed.

(** *** Lossy texts of valid ones *)

Lemma lossy_valid fuel s : String.length s ≤ fuel → utf8_valid s = true → lossy_upto fuel s = s.
Proof.
  revert s. induction fuel as [|fuel IH]; intros s Hl Hv; [destruct s; [done|cbn in Hl; lia]|].
  destruct s as [|b s]; [done|]. cbn [lossy_upto]. apply utf8_valid_spec in Hv as Hcs. destruct Hcs as (cs & Heq & Hcs).
  destruct cs as [|c cs]; [done|]. cbn [of_chars] in Heq. apply Forall_cons in Hcs as [Hc Hcs].
  rewrite Heq, next_char_encode by done. f_equal. apply IH.
  - pose proof (next_char_length (String b s) c (of_chars cs)) as Hlen. rewrite Heq, next_char_encode in Hlen by done.
    specialize (Hlen eq_refl). rewrite <-Heq in Hlen. lia.
  - apply utf8_valid_spec. by exists cs.
Qed.

Lemma from_utf8_lossy_valid s : utf8_valid s = true → from_utf8_lossy s = s.
Proof. by apply lossy_valid. Qed.

(** *** Staged paths *)

Lemma u64_text_bytes z : all_bytes is_digit (u64_text z) = true.
Proof. unfold u64_text. destruct (u64_to_string_spec (Z.to_N z)) as (b & ds & -> & Hd & _). by apply all_digits_bytes. Qed.

Lemma all_bytes_app p s t : all_bytes p (s +:+ t) = all_bytes p s && all_bytes p t.
Proof. induction s as [|b s IH]; cbn [String.append all_bytes]; [done|]. by rewrite IH, andb_assoc. Qed.

Lemma six_digits_bytes index : all_bytes is_digit (six_digits index) = true.
Proof.
  unfold six_digits. pose proof (u64_text_bytes (Z.of_nat index)) as Hd. induction (6 - String.length (u64_text (Z.of_nat index)));
    cbn [pad_zeros all_bytes]; [exact Hd|done].
Qed.

Lemma six_digits_inj i j : six_digits i = six_digits j → i = j.
Proof.
  assert (∀ n s, digits_value (pad_zeros n s) 0 = digits_value s 0) as Hp.
  { induction n as [|n IH]; intros s; cbn [pad_zeros digits_value]; [done|]. exact (IH s). }
  intros H. apply (f_equal (fun s => digits_value s 0%Z)) in H. unfold six_digits in H. rewrite !Hp in H.
  rewrite (proj1 (proj2 (u64_text_digits (Z.of_nat i) ltac:(lia)))), (proj1 (proj2 (u64_text_digits (Z.of_nat j) ltac:(lia)))) in H.
  injection H as H. lia.
Qed.

Lemma digits_plain s : all_bytes is_digit s = true → utf8_valid s = true ∧ contains_byte "010" s = false.
Proof.
  intros Hd. split; [|by eapply all_bytes_contains]. induction s as [|b s IH]; [done|]. cbn in Hd. apply andb_true_iff in Hd as [Hb Hs].
  apply utf8_valid_cons; [|by apply IH]. unfold is_digit in Hb. apply andb_true_iff in Hb as [_ Hb]. apply N.leb_le in Hb. lia.
Qed.

(** A path of valid text on one line. *)
Definition plain (path : string) : Prop := utf8_valid path = true ∧ contains_byte "010" path = false.

Lemma plain_app s t : plain s → plain t → plain (s +:+ t).
Proof. intros [H1 H2] [H3 H4]. split; [by apply utf8_valid_app|]. by rewrite contains_byte_app, H2, H4. Qed.

Lemma plain_join a b : plain a → plain b → plain (path_join a b).
Proof.
  intros Ha Hb. unfold path_join. destruct (_ || _); [done|]. destruct (ends_with _ _); [by apply plain_app|].
  apply plain_app; [done|]. by apply plain_app.
Qed.

Lemma plain_text z : plain (u64_text z).
Proof. apply digits_plain, u64_text_bytes. Qed.

Definition staged_path (stage : string) (index : nat) : string := path_join stage ("payload-" +:+ six_digits index).

Lemma staged_plain stage index : plain stage → plain (staged_path stage index).
Proof. intros Hs. apply plain_join; [done|]. apply plain_app; [done|]. apply digits_plain, six_digits_bytes. Qed.

Lemma staged_inj stage i j : staged_path stage i = staged_path stage j → i = j.
Proof.
  unfold staged_path, path_join. cbn [starts_with strip_prefix String.append]. 
  destruct (is_empty stage), (ends_with "/" stage); cbn [orb]; intros H;
    repeat (apply append_inj_l in H); try (injection H as H); by apply six_digits_inj.
Qed.

(** ** What the base reader promises *)

Section Reader.
Variable host : GitHost.
Variable profile : SterileProfile.
Variable debug : string → string.
Variable object_name : string → string → string.

Definition hash_object_args (source : string) : list string := ["-C"; source; "hash-object"; "--stdin-paths"; "--no-filters"].

(** What the reader relies on of [git]: [hash-object] writes a line with the name of the
    content of every file named on its input, and [cat-file] an object of the name asked
    for. *)
Record git_laws : Prop := {
  names_canonical source bytes : is_canonical_object_name (object_name source bytes) = true;
  hash_object_names n files source paths contents out :
    Forall2 (fun path bytes => files !! path = Some bytes ∧ contains_byte "010" path = false) paths contents →
    gh_run host n files (sterile_invocation host profile (hash_object_args source) (Some (lines_text paths))) = Ok out →
    go_success out = true → go_stdout out = lines_text (map (object_name source) contents);
  cat_file_names n files source oid out :
    gh_run host n files (sterile_invocation host profile ["-C"; source; "cat-file"; "blob"; oid] None) = Ok out →
    go_success out = true → object_name source (go_stdout out) = oid
}.

Lemma git_bind_Ok {E A B} (m : Git E A) (k : A → Git E B) g b g' :
  git_bind m k g = (Ok b, g') → ∃ a g1, m g = (Ok a, g1) ∧ k a g1 = (Ok b, g').
Proof. unfold git_bind. destruct (m g) as [[a|e] g1]; [eauto|done]. Qed.

Lemma git_map_err_Ok {E F A} (f : E → F) (m : Git E A) g a g' : git_map_err f m g = (Ok a, g') → m g = (Ok a, g').
Proof. unfold git_map_err. destruct (m g) as [[x|e] g1]; cbn; congruence. Qed.

Lemma git_try_Ok {E A} (r : Result A E) g a g' : git_try r g = (Ok a, g') → r = Ok a ∧ g' = g.
Proof. by intros [= -> ->]. Qed.

Lemma git_start_Ok args stdin g out g' :
  git_start host profile args stdin g = (Ok out, g') →
  gh_run host (gt_calls g) (gt_files g) (sterile_invocation host profile args stdin) = Ok out ∧ gt_files g' = gt_files g ∧
  gt_started g' = gt_started g ++ [sterile_invocation host profile args stdin].
Proof. by intros [= -> <-]. Qed.

Lemma write_file_Ok path bytes g g' :
  write_file host path bytes g = (Ok tt, g') → gt_files g' = <[path := bytes]> (gt_files g).
Proof. unfold write_file. destruct (gh_write _ _ _ _); [by intros [= <-]|done]. Qed.

Lemma stage_payloads_Ok stage contents : plain stage → ∀ index g paths g',
  stage_payloads host stage index contents g = (Ok paths, g') →
  paths = lines_text (map (staged_path stage) (seq index (length contents))) ∧
  (∀ path, (∀ i, index ≤ i → path ≠ staged_path stage i) → gt_files g' !! path = gt_files g !! path) ∧
  Forall2 (fun path bytes => gt_files g' !! path = Some bytes ∧ contains_byte "010" path = false)
    (map (staged_path stage) (seq index (length contents))) contents.
Proof.
  intros Hp. induction contents as [|bytes rest IH]; intros index g paths g'; cbn [stage_payloads length seq map].
  { intros [= <- <-]. split_and!; [done..|constructor]. }
  intros ([] & g1 & Hw & Hx)%git_bind_Ok. apply git_map_err_Ok, write_file_Ok in Hw. fold (staged_path stage index) in Hw.
  apply git_bind_Ok in Hx as (more & g2 & Hm & [= <- <-]). apply IH in Hm as (-> & Hkeep & Hall).
  pose proof (staged_plain stage index Hp) as [Hv Hn]. split_and!.
  - cbn [lines_text]. fold (staged_path stage index). by rewrite from_utf8_lossy_valid.
  - intros path Hne. rewrite Hkeep by (intros i Hi; apply Hne; lia). rewrite Hw, lookup_insert_ne; [done|].
    intros Heq. by apply (Hne index).
  - constructor; [|exact Hall]. split; [|exact Hn]. rewrite Hkeep, Hw; [by rewrite lookup_insert_eq|].
    intros i Hi Heq%staged_inj. lia.
Qed.

Lemma scratch_dir_Ok purpose g dir g' :
  plain (spr_base profile) → plain purpose → scratch_dir host profile purpose g = (Ok dir, g') → plain dir.
Proof.
  intros Hb Hp. unfold scratch_dir, git_bind, git_fs. destruct (gh_create_dir_all _ _ _); [|done]. intros [= <- <-].
  apply plain_join; [by apply plain_join|]. apply plain_app; [exact Hp|]. apply (plain_app "-"); [done|].
  apply plain_app; [apply plain_text|]. apply (plain_app "-"); [done|apply plain_text].
Qed.

(** Every name is the name of its payload. *)
Lemma blob_names_derived source contents g names g' :
  git_laws → plain (spr_base profile) →
  blob_object_names host profile source contents g = (Ok names, g') → names = map (object_name source) contents.
Proof.
  intros Hlaws Hb Hx. destruct contents as [|bytes rest]; [by injection Hx as <- <-|]. set (contents := bytes :: rest) in *.
  change (blob_object_names host profile source contents) with
    (let% stage := git_map_err (fun e => xfault CAPTURE_IO ("could not create comparison staging: " +:+ e))
                     (scratch_dir host profile "base-compare") in
     let% result := git_attempt (hash_staged_blobs host profile source stage contents) in
     do% remove_dir_all host stage in git_try (E:=ExternalFault) result) in Hx.
  apply git_bind_Ok in Hx as (stage & g1 & Hs & Hx). apply git_map_err_Ok, scratch_dir_Ok in Hs; [|done..].
  apply git_bind_Ok in Hx as (result & g2 & Hr & Hx). apply git_bind_Ok in Hx as (state & g3 & _ & [-> ->]%git_try_Ok).
  unfold git_attempt in Hr. destruct (hash_staged_blobs host profile source stage contents g1) as [r g4] eqn:Hh. injection Hr as -> ->.
  unfold hash_staged_blobs in Hh. apply git_bind_Ok in Hh as (paths & g5 & Hp & Hh).
  apply stage_payloads_Ok in Hp as (-> & _ & Hall); [|done].
  apply git_bind_Ok in Hh as (out & g6 & Ho & Hh). apply git_map_err_Ok, git_start_Ok in Ho as (Ho & _ & _).
  destruct (go_success out) eqn:Hsu; [|done]. cbn [negb] in Hh. apply git_try_Ok in Hh as [Hn _].
  rewrite (hash_object_names Hlaws _ _ _ _ _ _ Hall Ho Hsu) in Hn. rewrite parse_object_names_text in Hn; [by injection Hn|].
  apply Forall_map, Forall_true. intros x. apply (names_canonical Hlaws).
Qed.

Lemma reader_git_Ok code what args g out g' :
  reader_git host profile code what args g = (Ok out, g') →
  ∃ o, gh_run host (gt_calls g) (gt_files g) (sterile_invocation host profile args None) = Ok o ∧ go_success o = true ∧ go_stdout o = out.
Proof.
  unfold reader_git. intros (o & g1 & Ho & Hx)%git_bind_Ok. apply git_map_err_Ok, git_start_Ok in Ho as (Ho & _ & _).
  destruct (go_success o) eqn:Hs; [|done]. injection Hx as <- <-. by exists o.
Qed.

Lemma blob_bytes_named source oid g bytes g' :
  git_laws → blob_bytes host profile debug source oid g = (Ok bytes, g') → object_name source bytes = oid.
Proof.
  intros Hlaws. unfold blob_bytes. destruct (negb _); [done|]. intros (o & Ho & Hs & <-)%reader_git_Ok.
  by eapply (cat_file_names Hlaws).
Qed.

(** The controller's port; [states] is where each call finds the process. *)
Definition git_base_reader (states : nat → GitState) : TrustedBaseReader := {|
  port_base_tree := fun n source base => (base_tree host profile debug source base (states n)).1;
  port_blob_object_names := fun n source contents => (blob_object_names host profile source contents (states n)).1;
  port_blob_bytes := fun n source oid => (blob_bytes host profile debug source oid (states n)).1 |}.

(** The promise sealing asks of a base reader is kept by this one. *)
Lemma git_reader_honest `{Sha256} objects states :
  git_laws → plain (spr_base profile) →
  (∀ n bytes r, port_publish objects n bytes = Ok r → or_digest r = digest_of bytes ∧ or_size r = byte_size bytes) →
  honest_ports (git_base_reader states) objects object_name.
Proof.
  intros Hlaws Hb Ho. split; cbn [git_base_reader port_blob_object_names port_blob_bytes]; [..|exact Ho].
  - intros n source contents names Hx. destruct (blob_object_names _ _ _ _ _) as [r g'] eqn:E. cbn in Hx. subst r.
    by eapply blob_names_derived.
  - intros n source oid bytes Hx. destruct (blob_bytes _ _ _ _ _ _) as [r g'] eqn:E. cbn in Hx. subst r. by eapply blob_bytes_named.
Qed.
End Reader.

(** ** What the materializer promises *)

Section Materializer.
Variable host : GitHost.
Variable profile : SterileProfile.
Variable debug : string → string.

(** A process of these arguments ended well and wrote the text. *)
Definition answered (args : list string) (text : string) : Prop := ∃ n files out,
  gh_run host n files (sterile_invocation host profile args None) = Ok out ∧ go_success out = true ∧
  text = trim (from_utf8_lossy (go_stdout out)).

Definition started_all (commands : list (list string)) : list Invocation :=
  map (fun args => sterile_invocation host profile args None) commands.

(** The step starts these processes and no others. *)
Definition starts {E A} (m : Git E A) (g : GitState) (commands : list (list string)) : Prop :=
  gt_started (m g).2 = gt_started g ++ started_all commands.

(** The repository shares no control state with another. *)
Record separate (destination : string) : Prop := {
  sp_same : ∃ dir, dir ≠ EmptyString ∧
    answered (rev_parse_args (from_utf8_lossy destination) "--git-common-dir") dir ∧
    answered (rev_parse_args (from_utf8_lossy destination) "--git-dir") dir;
  sp_objects : ∃ n, gh_symlink_metadata host n (path_join destination ".git/objects/info/alternates") ≠ Exists;
  sp_remotes : ∃ remotes, answered ["-C"; from_utf8_lossy destination; "remote"] remotes ∧ trim remotes = EmptyString
}.

Definition isolation_commands (destination : string) : list (list string) :=
  let dest := from_utf8_lossy destination in
  [rev_parse_args dest "--git-common-dir"; rev_parse_args dest "--git-dir"; ["-C"; dest; "remote"]].

Lemma git_Ok code what args g text g' :
  git host profile code what args g = (Ok text, g') →
  answered args (trim text) ∧ gt_started g' = gt_started g ++ started_all [args].
Proof.
  unfold git. intros (o & g1 & Ho & Hx)%git_bind_Ok. apply git_map_err_Ok, git_start_Ok in Ho as (Ho & _ & Hs).
  destruct (go_success o) eqn:Hsu; [|done]. injection Hx as <- <-. split; [|exact Hs]. by exists (gt_calls g), (gt_files g), o.
Qed.

Lemma git_probe_run {E} args g :
  let (r, g') := git_probe (E:=E) host profile args g in
  gt_started g' = gt_started g ++ started_all [args] ∧ ∃ answer, r = Ok answer ∧ ∀ text, answer = Some text → answered args text.
Proof.
  unfold git_probe, git_bind, git_attempt. destruct (git_start host profile args None g) as [[o|e] g1] eqn:E1; cbn [git_ret].
  - apply git_start_Ok in E1 as (Ho & _ & Hs). split; [exact Hs|]. eexists. split; [done|]. intros text.
    destruct (go_success o) eqn:Hsu; [|done]. intros [= <-]. by exists (gt_calls g), (gt_files g), o.
  - injection E1 as _ <-. split; [done|]. exists None. by split.
Qed.

Lemma git_probe_Ok {E} args g answer g' :
  git_probe (E:=E) host profile args g = (Ok answer, g') →
  gt_started g' = gt_started g ++ started_all [args] ∧ ∀ text, answer = Some text → answered args text.
Proof.
  intros Hx. pose proof (git_probe_run (E:=E) args g) as H. rewrite Hx in H. destruct H as [Hs (a & [= <-] & Ha)]. done.
Qed.

Lemma started_cons g commands args : (gt_started g ++ started_all commands) ++ started_all [args] = gt_started g ++ started_all (commands ++ [args]).
Proof. unfold started_all. by rewrite map_app, app_assoc. Qed.

Lemma verify_isolation_Ok destination g g' :
  verify_isolation host profile debug destination g = (Ok tt, g') →
  separate destination ∧ gt_started g' = gt_started g ++ started_all (isolation_commands destination).
Proof.
  unfold verify_isolation. intros (common & g1 & Hc & Hx)%git_bind_Ok. apply git_bind_Ok in Hx as (dir & g2 & Hd & Hx).
  apply git_probe_Ok in Hc as [S1 Hc], Hd as [S2 Hd]. cbv zeta in Hx.
  destruct (is_empty (default EmptyString common) || _) eqn:Hsame; [done|]. apply orb_false_iff in Hsame as [Hne Heq%negb_false_iff].
  apply String.eqb_eq in Heq. destruct common as [common|]; [|done]. cbn [from_option id] in Hne, Heq.
  assert (common ≠ EmptyString) as Hnz by by intros ->.
  destruct dir as [dir|]; cbn [from_option id] in Heq; [subst dir|by destruct Hnz].
  apply git_bind_Ok in Hx as (state & g3 & [= Hst <-] & Hx).
  assert (∃ remotes g4, git_probe (E:=MaterializerError) host profile ["-C"; from_utf8_lossy destination; "remote"] (after_call g2 (gt_files g2))
      = (Ok (Some remotes), g4) ∧ trim remotes = EmptyString ∧ g' = g4 ∧ state ≠ Exists) as (remotes & g4 & Hr & Ht & -> & Hse).
  { destruct state; [done|..]; apply git_bind_Ok in Hx as ([remotes|] & g4 & Hr & Hx); [|done| |done];
      (destruct (is_empty (trim remotes)) eqn:He; [|done]; injection Hx as <-; apply String.eqb_eq in He; by exists remotes, g4). }
  apply git_probe_Ok in Hr as [S3 Hr]. split.
  - split; [exists common; split_and!; [exact Hnz|by apply Hc|by apply Hd]|exists (gt_calls g2); congruence|].
    exists remotes. split; [by apply Hr|exact Ht].
  - rewrite S3. cbn [after_call gt_started]. rewrite S2, S1. unfold started_all, isolation_commands. cbn [map]. by rewrite <-!app_assoc.
Qed.

Lemma git_each_Ok commands : ∀ g g',
  git_each host profile commands g = (Ok tt, g') →
  gt_started g' = gt_started g ++ started_all (map snd commands) ∧ Forall (fun c => ∃ text, answered c.2 text) commands.
Proof.
  induction commands as [|[what args] rest IH]; intros g g'; cbn [git_each].
  - intros [= <-]. split; [by rewrite app_nil_r|constructor].
  - intros (text & g1 & Hg & Hx)%git_bind_Ok. apply git_Ok in Hg as [Ha Hs]. apply IH in Hx as [Hs2 Hall]. split.
    + rewrite Hs2, Hs, <-app_assoc. done.
    + constructor; [by eexists|exact Hall].
Qed.
End Materializer.

(** The controller's port; [states] is where each call finds the process. *)
Definition git_materializer (host : GitHost) (profile : SterileProfile) (debug : string → string) (states : nat → GitState) :
    RepositoryMaterializer := {|
  port_resolve_base := fun n source requested => (resolve_base host profile debug source requested (states n)).1;
  port_materialize := fun n target => (materialize host profile debug target (states n)).1;
  port_observe := fun n target => (observe host profile debug target (states n)).1;
  port_discard := fun n target => (discard host target (states n)).1 |}.

(** The promise the Workspace controller asks of a materializer is kept by this one. *)
Lemma git_materializer_honest host profile debug states : honest (git_materializer host profile debug states).
Proof.
  intros n source requested answer. cbn [git_materializer port_resolve_base]. unfold resolve_base, git_bind.
  destruct (git _ _ _ _ _ _) as [[text|e] g]; cbn; [|done]. unfold resolved_base_parse, well_formed_base.
  destruct (_ && _) eqn:Hc; cbn; [|done]. intros [= <-]. unfold resolved_base_parse. cbn [resolved_text]. by rewrite Hc.
Qed.

(** What is at the path, as far as it could be told. *)
Theorem observation_exact {E} host profile debug target g found g' :
  observe (E:=E) host profile debug target g = (Ok found, g') →
  (found = MatAbsent ↔ gh_symlink_metadata host (gt_calls g) (mt_destination target) = NotFound) ∧
  (found = MatPresent → separate host profile (mt_destination target) ∧
     (∃ head, answered host profile ["-C"; from_utf8_lossy (mt_destination target); "rev-parse"; "--verify"; "HEAD"] head) ∧
     ∃ text, answered host profile ["-C"; from_utf8_lossy (mt_destination target); "cat-file"; "-e"; resolved_text (mt_base target)] text).
Proof.
  unfold observe. intros (state & g1 & [= Hst <-] & Hx)%git_bind_Ok. rewrite Hst.
  destruct state as [| |text]; [|by injection Hx as <- <-|by injection Hx as <- <-].
  apply git_bind_Ok in Hx as (head & g2 & Hh & Hx). apply git_bind_Ok in Hx as (has & g3 & Hb & Hx).
  apply git_bind_Ok in Hx as (iso & g4 & Hi & Hx). injection Hx as <- <-.
  apply git_probe_Ok in Hh as [_ Hh], Hb as [_ Hb]. split; [by destruct head, has, iso|].
  destruct head as [head|], has as [has|], iso as [[]|]; try done. intros _. split_and!.
  - unfold git_attempt in Hi. destruct (verify_isolation _ _ _ _ g3) as [r g5] eqn:Hv. injection Hi as -> ->.
    by apply verify_isolation_Ok in Hv as [Hs _].
  - eexists. by apply Hh.
  - eexists. by apply Hb.
Qed.

(** The base's listing. From what [git ls-tree] writes of the files and links of a
    tree, in any order of their paths, the reader rebuilds that tree exactly: the kind,
    object name and size of every path. *)
Theorem base_tree_roundtrip host profile debug source base tree entries out g :
  (∀ path o, tree !! path = Some o → listable (path, o)) → entries ≡ₚ map_to_list tree →
  gh_run host (gt_calls g) (gt_files g) (sterile_invocation host profile (ls_tree_args source (resolved_text base)) None) = Ok out →
  go_success out = true → go_stdout out = ls_tree_text entries →
  (base_tree host profile debug source base g).1 = Ok tree.
Proof.
  intros Hl Hp Hr Hs Ht. assert (NoDup entries.*1) as Hnd by (rewrite Hp; apply NoDup_fst_map_to_list).
  unfold base_tree, reader_git, git_bind, git_map_err, git_start. rewrite Hr. cbn [map_err]. rewrite Hs. cbn [git_ret git_try fst].
  rewrite Ht, base_records_listed; [|..|done|].
  - f_equal. rewrite map_union_empty, <-(list_to_map_to_list tree). by apply list_to_map_proper.
  - apply Forall_forall. intros [path o] Hin. rewrite Hp in Hin. by apply Hl, elem_of_map_to_list.
  - intros path _. apply lookup_empty.
Qed.

