(* ===== verification/GitScenario.v ===== *)
(** * A tree captured, a base read, a Workspace materialized *)

From Stdlib Require Import ZArith Ascii Lia.
From stdpp Require Import gmap.
From S2P Require Import Prelude Utf8 Digest Artifact Scope Workspace StoreWorkspace Scenario EngineWorkspace EngineSealing EngineScenario SealScenario Container Capture GitBase.

#[local] Existing Instance stir_hash.

(** ** A kernel that answers as a tree says *)

Definition errno_of (kind : ErrnoKind) : Errno := {| errno_kind := kind; errno_text := "error" |}.

(** Every file is on the device given. *)
Definition stat_of (file_dev : Z) (t : Tree) : Stat :=
  match t with
  | TDirectory dev _ => {| st_dev := dev; st_ino := 1; st_mode := 16877; st_size := 4096 |}
  | TFile exec content =>
      {| st_dev := file_dev; st_ino := 2; st_mode := if exec then 33261 else 33188; st_size := byte_size content |}
  | TLink target => {| st_dev := file_dev; st_ino := 3; st_mode := 41471; st_size := byte_size target |}
  | TSpecial => {| st_dev := file_dev; st_ino := 4; st_mode := 4516; st_size := 0 |}
  end.

Definition child_of (dir : Tree) (name : string) : Result Tree Errno :=
  match dir with
  | TDirectory _ children => ok_or (snd <$> find_first (fun c => String.eqb c.1 name) children) (errno_of ENOENT)
  | _ => Err (errno_of ENOTDIR)
  end.

(** [swapped] is what an open of a name finds instead of what was inspected. *)
Definition tree_kernel (file_dev : Z) (swapped : string → option Tree) (root : Tree) : Kernel := {|
  Fd := Tree;
  k_open_root := fun _ _ => Ok root;
  k_fstat := fun _ fd => Ok (stat_of file_dev fd);
  k_read_dir := fun _ fd => match fd with
                            | TDirectory _ children => Ok (map Ok ("." :: ".." :: map fst children))
                            | _ => Err (errno_of ENOTDIR)
                            end;
  k_statat := fun _ dir name => let? t := child_of dir name in Ok (stat_of file_dev t);
  k_open_dir := fun _ dir name =>
    match swapped name with
    | Some t => Ok t
    | None => let? t := child_of dir name in match t with TDirectory _ _ => Ok t | _ => Err (errno_of ENOTDIR) end
    end;
  k_open_file := fun _ dir name =>
    match swapped name with
    | Some t => Ok t
    | None => let? t := child_of dir name in match t with TLink _ => Err (errno_of ELOOP) | _ => Ok t end
    end;
  k_readlinkat := fun _ dir name =>
    let? t := child_of dir name in match t with TLink target => Ok target | _ => Err (errno_of EOther) end;
  k_read := fun _ fd => match fd with TFile _ content => Ok content | _ => Err "is not a file" end |}.

Definition untouched (name : string) : option Tree := None.

Definition plain_debug (s : string) : string := s.

Definition story_children : list (string * Tree) :=
  [("notes.txt", TFile false "hello");
   (".git", TDirectory 1 [("config", TFile false "[core]")]);
   ("bin", TDirectory 1 [("run", TFile true "#!"); ("etc", TLink "/etc/passwd")])].

Definition git_story_tree : Tree := TDirectory 1 story_children.

Definition story_kernel (n : nat) : Kernel := tree_kernel 1 untouched git_story_tree.

Definition run_entry : CapturedEntry := {| cap_path := mk_path "bin/run"; cap_kind := Executable; cap_bytes := "#!" |}.

Definition story_entries : list CapturedEntry :=
  [{| cap_path := mk_path "bin/etc"; cap_kind := Symlink; cap_bytes := "/etc/passwd" |}; run_entry;
   {| cap_path := mk_path "notes.txt"; cap_kind := Regular; cap_bytes := "hello" |}].

Lemma git_story_captured : capture_tree (confined_capture plain_debug story_kernel) 0 "/w" = (story_entries, None).
Proof. vm_compute. reflexivity. Qed.

Lemma story_stands : stands_at (story_kernel 0) "/w" 1 story_children.
Proof.
  exists git_story_tree, (stat_of 1 git_story_tree). split_and!; [done..|]. exists ("." :: ".." :: map fst story_children).
  split_and!; [done|done|]. intros name t Hin. unfold story_children in Hin. set_unfold in Hin.
  destruct Hin as [[= -> ->]|[[= -> ->]|[[= -> ->]|[]]]]; eexists; (split; [intros n; reflexivity|]).
  - split_and!; [done..|]. eexists. split_and!; intros n; reflexivity.
  - split_and!; [done..|]. eexists. exists ["."; ".."; "config"]. split_and!; [intros n; reflexivity..|done|].
    cbn. split; [|done]. eexists. split; [intros n; reflexivity|]. split_and!; [done..|]. eexists. split_and!; intros n; reflexivity.
  - split_and!; [done..|]. eexists. exists ["."; ".."; "run"; "etc"]. split_and!; [intros n; reflexivity..|done|].
    cbn. split_and!; [..|done].
    + eexists. split; [intros n; reflexivity|]. split_and!; [done..|]. eexists. split_and!; intros n; reflexivity.
    + eexists. split; [intros n; reflexivity|]. split; [done|]. intros n. reflexivity.
Qed.

(** Witness of [capture_confined]. *)
Lemma capture_confined_witness :
  confined (story_kernel 0) "/w" run_entry ∧
  (lists_names (story_kernel 0) → ".git" ∉ split_on "/" (path_bytes (cap_path run_entry))).
Proof.
  apply (capture_confined plain_debug story_kernel 0 "/w" story_entries None run_entry); [exact git_story_captured|].
  unfold story_entries. right. left.
Defined.

Definition whole_scope : WorkspaceScope := {| scope_patterns := [{| pattern_segments := [Many] |}] |}.

Local Abbreviation story_capturing := (capture_all (confined_capture plain_debug story_kernel) story_reader story_objects "/srv/app" "/w" ∅
  whole_scope (sealer_at frozen)).

Lemma story_capturing_Ok : match story_capturing.1 with Ok cs => Nat.eqb (size (cs_final cs)) 3 | Err _ => false end = true.
Proof. vm_compute. reflexivity. Qed.

(** Witness of [capture_within_ceilings]. *)
Lemma capture_within_ceilings_witness : ∃ cs s', story_capturing = (Ok cs, s') ∧ within_ceilings cs.
Proof.
  pose proof story_capturing_Ok as Hr. destruct story_capturing as [[cs|e] s'] eqn:E; [|discriminate Hr].
  exists cs, s'. split; [reflexivity|]. exact (capture_within_ceilings plain_debug story_kernel story_reader story_objects "/srv/app" "/w" ∅
    whole_scope (sealer_at frozen) cs s' E).
Defined.

(** Witness of [quiet_capture_exact]. *)
Lemma quiet_capture_exact_witness :
  capture_tree (confined_capture plain_debug story_kernel) 0 "/w" = (story_entries, None) ∧
  ∀ e, e ∈ story_entries ↔ tree_holds EmptyString (TDirectory 1 story_children) e.
Proof. exact (quiet_capture_exact plain_debug story_kernel 0 "/w" 1 story_children story_stands). Defined.

(** What was inspected is a file, and what the open finds under its name is another. *)
Lemma swap_refused :
  (capture_tree (confined_capture plain_debug (fun _ =>
     tree_kernel 1 (fun name => if String.eqb name "notes.txt" then Some git_story_tree else None) git_story_tree)) 0 "/w").2 =
  Some (xfault HOSTILE_FILESYSTEM "notes.txt was replaced between inspection and open").
Proof. vm_compute. reflexivity. Qed.

(** A directory on another device is refused as a mount boundary; a file on another
    device is captured like any other. *)
Theorem foreign_file_captured :
  capture_tree (confined_capture plain_debug (fun _ => tree_kernel 9 untouched git_story_tree)) 0 "/w" = (story_entries, None) ∧
  (capture_tree (confined_capture plain_debug (fun _ =>
     tree_kernel 1 untouched (TDirectory 1 [("data", TDirectory 9 [])]))) 0 "/w").2 =
    Some (xfault HOSTILE_FILESYSTEM "data crosses onto another filesystem").
Proof. vm_compute. split; reflexivity. Qed.

(** ** A repository *)

Definition base_oid : string := "0123456789abcdef0123456789abcdef01234567".

Definition git_story_base : ResolvedBase := mk_resolved base_oid.

Definition story_object (kind : EntryKind) (size : Z) : BaseObject := {| bo_kind := kind; bo_oid := base_oid; bo_size := size |}.

Definition story_base_tree : gmap string BaseObject :=
  <["bin/run" := story_object Executable 2]> (<["notes.txt" := story_object Regular 12345678]> ∅).

Definition done_well (stdout : string) : Result GitOutput RunFailure :=
  Ok {| go_success := true; go_stdout := stdout; go_stderr := EmptyString |}.

Definition line (text : string) : string := text +:+ String "010" EmptyString.

(** [git], by what it is asked. *)
Definition story_git (args : list string) : Result GitOutput RunFailure :=
  match args with
  | _ :: _ :: _ :: _ :: _ :: _ :: "-C" :: _ :: "ls-tree" :: _ => done_well (ls_tree_text (map_to_list story_base_tree))
  | _ :: _ :: _ :: _ :: _ :: _ :: "-C" :: _ :: "rev-parse" :: "--verify" :: _ => done_well (line base_oid)
  | _ :: _ :: _ :: _ :: _ :: _ :: "-C" :: dir :: "rev-parse" :: _ => done_well (line (dir +:+ "/.git"))
  | _ => done_well EmptyString
  end.

Definition story_host : GitHost := {|
  gh_run := fun _ _ invocation => story_git (iv_args invocation);
  gh_create_dir_all := fun _ _ => Ok tt;
  gh_write := fun _ _ _ => Ok tt;
  gh_remove_dir_all := fun _ _ => Exists;
  gh_symlink_metadata := fun _ path => if String.eqb path "/w/1/repo" then Exists else NotFound;
  gh_path_variable := Some "/usr/bin";
  gh_process_id := 42 |}.

Definition git_fresh : GitState := {| gt_calls := 0; gt_started := []; gt_scratch := 0; gt_files := ∅ |}.

Definition story_profile : SterileProfile :=
  {| spr_base := "/c/sterile"; spr_home := "/c/sterile/home"; spr_empty := "/c/sterile/empty";
     spr_empty_config := "/c/sterile/empty.gitconfig" |}.

Lemma profile_created : (sterile_create story_host "/c" git_fresh).1 = Ok story_profile.
Proof. vm_compute. reflexivity. Qed.

Lemma story_listable path o : story_base_tree !! path = Some o → listable (path, o).
Proof.
  unfold story_base_tree. intros [[<- <-]|[_ [[<- <-]|[_ Ho]]%lookup_insert_Some]]%lookup_insert_Some; [| |by rewrite lookup_empty in Ho].
  - split; [|done|done]. by apply (proj1 (path_from_bytes_Ok _ (mk_path "bin/run"))).
  - split; [|done|done]. by apply (proj1 (path_from_bytes_Ok _ (mk_path "notes.txt"))).
Qed.

(** Witness of [base_tree_roundtrip]. *)
Lemma base_tree_roundtrip_witness :
  (base_tree story_host story_profile plain_debug "/src" git_story_base git_fresh).1 = Ok story_base_tree.
Proof.
  apply (base_tree_roundtrip story_host story_profile plain_debug "/src" git_story_base story_base_tree (map_to_list story_base_tree)
    {| go_success := true; go_stdout := ls_tree_text (map_to_list story_base_tree); go_stderr := EmptyString |});
    [exact story_listable|reflexivity..].
Defined.

Definition git_story_target : MaterializationTarget :=
  {| mt_workspace_id := "1"; mt_source := "/src"; mt_destination := "/w/1/repo"; mt_base := git_story_base |}.

Definition story_materialized := materialize story_host story_profile plain_debug git_story_target git_fresh.

Lemma story_materialized_Ok : story_materialized.1 = Ok git_story_base.
Proof. vm_compute. reflexivity. Qed.


(** The Workspace is then observed. *)
Lemma story_observed : (observe (E:=MaterializerError) story_host story_profile plain_debug git_story_target git_fresh).1 = Ok MatPresent.
Proof. vm_compute. reflexivity. Qed.

(** ** The laws of the base reader can hold

    A repository of one object name: every content is called so. *)
Definition one_name_run (invocation : Invocation) : Result GitOutput RunFailure :=
  match iv_args invocation with
  | [_; _; _; _; _; _; "-C"; _; "hash-object"; _; _] =>
      done_well (lines_text (map (fun _ => base_oid) (removelast (split_on "010" (default EmptyString (iv_stdin invocation))))))
  | [_; _; _; _; _; _; "-C"; _; "cat-file"; "blob"; oid] =>
      if String.eqb oid base_oid then done_well "hello" else Ok {| go_success := false; go_stdout := EmptyString; go_stderr := EmptyString |}
  | _ => done_well EmptyString
  end.

Definition one_name_host : GitHost := {|
  gh_run := fun _ _ invocation => one_name_run invocation;
  gh_create_dir_all := fun _ _ => Ok tt;
  gh_write := fun _ _ _ => Ok tt;
  gh_remove_dir_all := fun _ _ => Exists;
  gh_symlink_metadata := fun _ _ => NotFound;
  gh_path_variable := None;
  gh_process_id := 42 |}.

Lemma one_name_laws : git_laws one_name_host story_profile (fun _ _ => base_oid).
Proof.
  split.
  - intros source bytes. vm_compute. reflexivity.
  - intros n files source paths contents out Hall [= <-] _. cbn [go_stdout].
    unfold sterile_invocation. cbn [iv_stdin default from_option id].
    rewrite split_lines_text by (induction Hall as [|p b ps bs [_ Hp] _ IH]; constructor; done).
    rewrite removelast_last. f_equal. induction Hall as [|p b ps bs _ _ IH]; cbn [map]; [done|]. by rewrite IH.
  - intros n files source oid out Hr Hs. cbn [one_name_host gh_run one_name_run sterile_invocation sterile_args iv_args app story_profile spr_empty] in Hr.
    destruct (String.eqb_spec oid base_oid) as [->|]; [done|]. injection Hr as <-. done.
Qed.
