(* ===== verification/StoreOpen.v ===== *)
(** * Opening the store ([pantheon-store/src/store.rs], [policy.rs])

    The connection policy with every setting read back, the process's claim on a
    database file, [Store::open] and [Store::close]. What SQLite and the file system
    answer, at every call, is an argument. *)

From Stdlib Require Import ZArith Ascii Lia.
From stdpp Require Import gmap.
From S2P Require Import Prelude Digest Sql Schema Transaction Migration.

(** ** The connections *)

Inductive OpenFlag : Type := ReadWrite | Create | ReadOnly | NoMutex | PrivateCache.

Definition WRITER_FLAGS : list OpenFlag := [ReadWrite; Create; NoMutex; PrivateCache].
Definition READER_FLAGS : list OpenFlag := [ReadOnly; NoMutex; PrivateCache].

Inductive Role : Type := WriterConnection | ReaderConnection.

(** What SQLite answers of a connection, and the file system of a path; a path that
    does not resolve is reported as a database that cannot be opened. *)
Record Platform : Type := {
  pf_open : nat → string → list OpenFlag → Result unit SqliteError;
  pf_update : nat → Role → string → string → Result unit SqliteError;
  pf_text : nat → Role → string → Result string SqliteError;
  pf_integer : nat → Role → string → Result Z SqliteError;
  pf_busy_timeout : nat → Role → Z → Result unit SqliteError;
  pf_is_readonly : nat → Role → Result bool SqliteError;
  pf_canonicalize : nat → string → Result string SqliteError;
  pf_close : nat → Role → Result unit SqliteError
}.

(** What was asked that can change something. *)
Inductive OpenEvent : Type :=
| Connected (path : string) (flags : list OpenFlag)
| Updated (role : Role) (pragma value : string)
| BusyTimeout (role : Role) (milliseconds : Z)
| Migrating
| Closed (role : Role).

(** The calls made, what was asked, the files this process has a store open for, the
    next store's identity, and the database file. *)
Record Process (Content : Type) : Type := {
  ps_calls : nat;
  ps_events : list OpenEvent;
  ps_open : gset string;
  ps_next_id : Z;
  ps_file : File Content
}.
Arguments ps_calls {Content}.
Arguments ps_events {Content}.
Arguments ps_open {Content}.
Arguments ps_next_id {Content}.
Arguments ps_file {Content}.

Section Opening.
Context {Content : Type}.

Definition Open (A : Type) : Type := Process Content → Result A StoreError * Process Content.

Definition open_ret {A} (a : A) : Open A := fun p => (Ok a, p).

Definition open_err {A} (e : StoreError) : Open A := fun p => (Err e, p).

Definition open_bind {A B} (m : Open A) (k : A → Open B) : Open B := fun p =>
  match m p with
  | (Ok a, p') => k a p'
  | (Err e, p') => (Err e, p')
  end.

(** A call, and what it asks when it can change something. *)
Definition open_call {A} (events : list OpenEvent) (f : nat → Result A SqliteError) : Open A := fun p =>
  (map_err Sqlite (f (ps_calls p)),
   {| ps_calls := S (ps_calls p); ps_events := ps_events p ++ events; ps_open := ps_open p; ps_next_id := ps_next_id p;
      ps_file := ps_file p |}).
End Opening.

Notation "'let^^' x := m 'in' k" := (open_bind m (fun x => k))
  (at level 10, x pattern, m at level 100, k at level 200) : rust_scope.
Notation "'do^^' m 'in' k" := (open_bind m (fun _ => k))
  (at level 10, m at level 100, k at level 200) : rust_scope.

(** *** The policy *)

Definition BUSY_TIMEOUT : Z := 5000.
Definition APPLICATION_ID : Z := 1346457172.

Record StoreHandle : Type := { sh_claim : string; sh_id : Z }.

Section Store.
Context {Content : Type}.
Variable platform : Platform.
Variable execute_batch : string → Content → Result Content SqliteError.
Variable fault : string → Z → option SqliteError.
Variable now : Z.
Variable migrations : list Migration.

Local Abbreviation Open := (@Open Content).

Definition pragma_update (role : Role) (pragma value : string) : Open unit :=
  open_call [Updated role pragma value] (fun n => pf_update platform n role pragma value).

Definition query_text (role : Role) (pragma : string) : Open string := open_call [] (fun n => pf_text platform n role pragma).

Definition query_integer (role : Role) (pragma : string) : Open Z := open_call [] (fun n => pf_integer platform n role pragma).

Definition require_policy (condition : bool) (detail : string) (values : list string) : Open unit :=
  if condition then open_ret tt else open_err (PolicyVerificationFailed (message detail values)).

(** The settings of a connection rather than of the file. *)
Definition apply_and_verify_connection_settings (role : Role) : Open unit :=
  do^^ pragma_update role "synchronous" "FULL" in
  let^^ synchronous := query_integer role "synchronous" in
  do^^ require_policy (synchronous =? 2)%Z "synchronous is not FULL (2)" [] in
  do^^ pragma_update role "foreign_keys" "ON" in
  let^^ foreign_keys := query_integer role "foreign_keys" in
  do^^ require_policy (foreign_keys =? 1)%Z "foreign_keys is not ON" [] in
  do^^ pragma_update role "trusted_schema" "OFF" in
  let^^ trusted_schema := query_integer role "trusted_schema" in
  do^^ require_policy (trusted_schema =? 0)%Z "trusted_schema is not OFF" [] in
  do^^ open_call [BusyTimeout role BUSY_TIMEOUT] (fun n => pf_busy_timeout platform n role BUSY_TIMEOUT) in
  let^^ busy_timeout := query_integer role "busy_timeout" in
  require_policy (busy_timeout =? BUSY_TIMEOUT)%Z "busy_timeout is another" [].

Definition verify_journal_mode (role : Role) : Open unit :=
  let^^ journal_mode := query_text role "journal_mode" in
  require_policy (eq_ignore_ascii_case journal_mode "wal") "journal_mode is not wal" [journal_mode].

Definition verify_application_id (role : Role) : Open unit :=
  let^^ application_id := query_integer role "application_id" in
  require_policy (application_id =? APPLICATION_ID)%Z "application_id is another" [].

Definition apply_and_verify_writer : Open unit :=
  do^^ pragma_update WriterConnection "journal_mode" "WAL" in
  do^^ verify_journal_mode WriterConnection in
  do^^ apply_and_verify_connection_settings WriterConnection in
  do^^ pragma_update WriterConnection "application_id" "1346457172" in
  verify_application_id WriterConnection.

Definition apply_and_verify_reader : Open unit :=
  do^^ verify_journal_mode ReaderConnection in
  do^^ apply_and_verify_connection_settings ReaderConnection in
  do^^ verify_application_id ReaderConnection in
  let^^ read_only := open_call [] (fun n => pf_is_readonly platform n ReaderConnection) in
  require_policy read_only "the read connection is not read-only at the SQLite level" [].

(** *** The claim on the file *)

Definition set_open (p : Process Content) (open : gset string) : Process Content := {|
  ps_calls := ps_calls p; ps_events := ps_events p; ps_open := open; ps_next_id := ps_next_id p; ps_file := ps_file p |}.

(** [PathClaim::acquire]. *)
Definition acquire (path : string) : Open string :=
  let^^ key := open_call [] (fun n => pf_canonicalize platform n path) in
  fun p => if bool_decide (key ∈ ps_open p) then (Err (AlreadyOpen key), p) else (Ok key, set_open p ({[ key ]} ∪ ps_open p)).

Definition release (key : string) (p : Process Content) : Process Content := set_open p (ps_open p ∖ {[ key ]}).

(** What is done while the claim is held; a failure drops it. *)
Definition claimed {A} (key : string) (m : Open A) : Open A := fun p =>
  match m p with
  | (Ok a, p') => (Ok a, p')
  | (Err e, p') => (Err e, release key p')
  end.

Definition connect (path : string) (flags : list OpenFlag) : Open unit :=
  open_call [Connected path flags] (fun n => pf_open platform n path flags).

Definition migrate : Open unit := fun p =>
  let (r, file) := run_with execute_batch fault now migrations (ps_file p) in
  (r, {| ps_calls := ps_calls p; ps_events := ps_events p ++ [Migrating]; ps_open := ps_open p; ps_next_id := ps_next_id p;
         ps_file := file |}).

Definition take_id : Open Z := fun p =>
  (Ok (ps_next_id p),
   {| ps_calls := ps_calls p; ps_events := ps_events p; ps_open := ps_open p;
      ps_next_id := ((ps_next_id p + 1) mod 18446744073709551616)%Z; ps_file := ps_file p |}).

(** What an open does under its claim. *)
Definition establish (path key : string) : Open StoreHandle :=
  do^^ apply_and_verify_writer in
  do^^ migrate in
  do^^ connect path READER_FLAGS in
  do^^ apply_and_verify_reader in
  let^^ id := take_id in
  open_ret {| sh_claim := key; sh_id := id |}.

(** [Store::open]. *)
Definition store_open (path : string) : Open StoreHandle :=
  do^^ connect path WRITER_FLAGS in
  let^^ key := acquire path in
  claimed key (establish path key).

(** [Store::close]: the claim goes whatever happens, and neither connection's failure
    keeps the other from being closed. *)
Definition store_close (store : StoreHandle) (writer_poisoned reader_poisoned : bool) : Open unit := fun p =>
  let (r, p') :=
    (if writer_poisoned then
       open_err (ConnectionUnavailable (message "the authoritative writer is poisoned by an earlier panic" [])) p
     else if reader_poisoned then
       open_err (ConnectionUnavailable (message "the read connection is poisoned by an earlier panic" [])) p
     else
       let (reader_result, p1) := open_call [Closed ReaderConnection] (fun n => pf_close platform n ReaderConnection) p in
       let (writer_result, p2) := open_call [Closed WriterConnection] (fun n => pf_close platform n WriterConnection) p1 in
       (match writer_result with Ok _ => reader_result | Err e => Err e end, p2)) in
  (r, release (sh_claim store) p').

(** Dropping a store without closing it. *)
Definition store_drop (store : StoreHandle) (p : Process Content) : Process Content := release (sh_claim store) p.
End Store.

(** ** What an open store is *)

Section Opened.
Context {Content : Type}.
Variable platform : Platform.
Variable execute_batch : string → Content → Result Content SqliteError.
Variable fault : string → Z → option SqliteError.
Variable now : Z.
Variable migrations : list Migration.

Local Abbreviation opening := (store_open platform execute_batch fault now migrations).
Local Abbreviation Open := (@Open Content).

Lemma open_bind_Ok {A B} (m : Open A) (k : A → Open B) p b p' :
  open_bind m k p = (Ok b, p') → ∃ a p1, m p = (Ok a, p1) ∧ k a p1 = (Ok b, p').
Proof. unfold open_bind. destruct (m p) as [[a|e] p1]; [eauto|done]. Qed.

Lemma open_call_Ok {A} events (f : nat → Result A SqliteError) (p : Process Content) a p' :
  open_call events f p = (Ok a, p') → f (ps_calls p) = Ok a.
Proof. unfold open_call. intros [= Hf _]. by destruct (f (ps_calls p)); [injection Hf as ->|]. Qed.

Lemma require_Ok (condition : bool) detail values (p : Process Content) p' :
  require_policy condition detail values p = (Ok tt, p') → condition = true.
Proof. unfold require_policy. by destruct condition. Qed.

(** Every setting of the policy, as SQLite read it back. *)
Record verified_policy (role : Role) : Prop := {
  vp_journal : ∃ n mode, pf_text platform n role "journal_mode" = Ok mode ∧ eq_ignore_ascii_case mode "wal" = true;
  vp_synchronous : ∃ n, pf_integer platform n role "synchronous" = Ok 2%Z;
  vp_foreign_keys : ∃ n, pf_integer platform n role "foreign_keys" = Ok 1%Z;
  vp_trusted_schema : ∃ n, pf_integer platform n role "trusted_schema" = Ok 0%Z;
  vp_busy_timeout : ∃ n, pf_integer platform n role "busy_timeout" = Ok BUSY_TIMEOUT;
  vp_application_id : ∃ n, pf_integer platform n role "application_id" = Ok APPLICATION_ID
}.

(** A setting read back and found to be what it must be. *)
Lemma checked_integer role pragma expected detail values (p : Process Content) p' :
  (let^^ z := query_integer platform role pragma in require_policy (z =? expected)%Z detail values) p = (Ok tt, p') →
  ∃ n, pf_integer platform n role pragma = Ok expected.
Proof.
  intros (z & p1 & Hq & Hr)%open_bind_Ok. apply open_call_Ok in Hq. apply require_Ok, Z.eqb_eq in Hr as ->. by exists (ps_calls p).
Qed.

Lemma settings_verified role (p : Process Content) p' :
  apply_and_verify_connection_settings platform role p = (Ok tt, p') →
  (∃ n, pf_integer platform n role "synchronous" = Ok 2%Z) ∧ (∃ n, pf_integer platform n role "foreign_keys" = Ok 1%Z) ∧
  (∃ n, pf_integer platform n role "trusted_schema" = Ok 0%Z) ∧ (∃ n, pf_integer platform n role "busy_timeout" = Ok BUSY_TIMEOUT).
Proof.
  unfold apply_and_verify_connection_settings. intros ([] & p1 & _ & Hx)%open_bind_Ok.
  apply open_bind_Ok in Hx as (z1 & p2 & H1 & Hx). apply open_bind_Ok in Hx as ([] & p3 & R1 & Hx).
  apply open_bind_Ok in Hx as ([] & p4 & _ & Hx). apply open_bind_Ok in Hx as (z2 & p5 & H2 & Hx).
  apply open_bind_Ok in Hx as ([] & p6 & R2 & Hx). apply open_bind_Ok in Hx as ([] & p7 & _ & Hx).
  apply open_bind_Ok in Hx as (z3 & p8 & H3 & Hx). apply open_bind_Ok in Hx as ([] & p9 & R3 & Hx).
  apply open_bind_Ok in Hx as ([] & p10 & _ & Hx). apply checked_integer in Hx.
  apply open_call_Ok in H1, H2, H3. apply require_Ok, Z.eqb_eq in R1, R2, R3. subst. split_and!; eauto.
Qed.

Lemma journal_verified role (p : Process Content) p' :
  verify_journal_mode platform role p = (Ok tt, p') →
  ∃ n mode, pf_text platform n role "journal_mode" = Ok mode ∧ eq_ignore_ascii_case mode "wal" = true.
Proof. intros (mode & p1 & Hq%open_call_Ok & Hr%require_Ok)%open_bind_Ok. eauto. Qed.

Lemma writer_verified (p : Process Content) p' :
  apply_and_verify_writer platform p = (Ok tt, p') → verified_policy WriterConnection.
Proof.
  unfold apply_and_verify_writer. intros ([] & p1 & _ & Hx)%open_bind_Ok. apply open_bind_Ok in Hx as ([] & p2 & Hj & Hx).
  apply open_bind_Ok in Hx as ([] & p3 & Hs & Hx). apply open_bind_Ok in Hx as ([] & p4 & _ & Hx).
  apply settings_verified in Hs as (? & ? & ? & ?). split; try done; [by eapply journal_verified|by eapply checked_integer].
Qed.

Lemma reader_verified (p : Process Content) p' :
  apply_and_verify_reader platform p = (Ok tt, p') →
  verified_policy ReaderConnection ∧ ∃ n, pf_is_readonly platform n ReaderConnection = Ok true.
Proof.
  unfold apply_and_verify_reader. intros ([] & p1 & Hj & Hx)%open_bind_Ok. apply open_bind_Ok in Hx as ([] & p2 & Hs & Hx).
  apply open_bind_Ok in Hx as ([] & p3 & Ha & Hx). apply open_bind_Ok in Hx as (ro & p4 & Hr & Hx).
  apply open_call_Ok in Hr. apply require_Ok in Hx as ->. apply settings_verified in Hs as (? & ? & ? & ?).
  split; [|eauto]. split; try done; [by eapply journal_verified|by eapply checked_integer].
Qed.

(** *** What the claims do *)

(** The step leaves the claims alone. *)
Definition keeps_claims {A} (m : Open A) : Prop := ∀ p, ps_open (m p).2 = ps_open p.

Lemma keeps_claims_bind {A B} (m : Open A) (k : A → Open B) :
  keeps_claims m → (∀ a, keeps_claims (k a)) → keeps_claims (open_bind m k).
Proof. intros Hm Hk p. unfold open_bind. specialize (Hm p). destruct (m p) as [[a|e] p1]; cbn in *; [|done]. by rewrite Hk. Qed.

Lemma keeps_claims_call {A} events (f : nat → Result A SqliteError) : keeps_claims (open_call events f).
Proof. by intros p. Qed.

Lemma keeps_claims_require condition detail values : keeps_claims (require_policy condition detail values).
Proof. intros p. unfold require_policy. by destruct condition. Qed.

Lemma keeps_claims_ret {A} (a : A) : keeps_claims (open_ret a).
Proof. by intros p. Qed.

Lemma keeps_claims_migrate : keeps_claims (migrate execute_batch fault now migrations).
Proof. intros p. unfold migrate. by destruct (run_with _ _ _ _ _). Qed.

Lemma keeps_claims_id : keeps_claims take_id.
Proof. by intros p. Qed.

#[local] Hint Resolve keeps_claims_bind keeps_claims_call keeps_claims_require keeps_claims_ret keeps_claims_migrate keeps_claims_id : core.
#[local] Hint Extern 3 (keeps_claims _) =>
  progress unfold pragma_update, query_text, query_integer, verify_journal_mode, verify_application_id, connect,
    apply_and_verify_writer, apply_and_verify_reader, apply_and_verify_connection_settings : core.

Lemma keeps_claims_establish path key : keeps_claims (establish platform execute_batch fault now migrations path key).
Proof. unfold establish. eauto 80. Qed.

Lemma establish_key path key p store p' :
  establish platform execute_batch fault now migrations path key p = (Ok store, p') → sh_claim store = key.
Proof.
  unfold establish. intros ([] & p1 & _ & Hx)%open_bind_Ok. apply open_bind_Ok in Hx as ([] & p2 & _ & Hx).
  apply open_bind_Ok in Hx as ([] & p3 & _ & Hx). apply open_bind_Ok in Hx as ([] & p4 & _ & Hx).
  apply open_bind_Ok in Hx as (id & p5 & _ & Hx). by injection Hx as <- _.
Qed.

Lemma acquire_Ok path (p : Process Content) key p' :
  acquire platform path p = (Ok key, p') →
  key ∉ ps_open p ∧ ps_open p' = {[ key ]} ∪ ps_open p ∧ ps_file p' = ps_file p ∧ ∃ n, pf_canonicalize platform n path = Ok key.
Proof.
  unfold acquire. intros (k & p1 & Hk & Hx)%open_bind_Ok. apply open_call_Ok in Hk as Hc. injection Hk as _ <-. cbn in Hx.
  case_bool_decide; [done|]. injection Hx as <- <-. split_and!; [done..|eauto].
Qed.

Lemma acquire_Err path (p : Process Content) e p' :
  acquire platform path p = (Err e, p') →
  ps_open p' = ps_open p ∧ ps_file p' = ps_file p ∧ ps_events p' = ps_events p ∧
  ∀ key, e = AlreadyOpen key → key ∈ ps_open p.
Proof.
  unfold acquire, open_bind, open_call. destruct (pf_canonicalize _ _ _) as [k|e1]; cbn.
  - case_bool_decide; [|done]. intros [= <- <-]. cbn. rewrite app_nil_r. split_and!; [done..|]. by intros ? [= <-].
  - intros [= <- <-]. cbn. rewrite app_nil_r. by split_and!.
Qed.

(** The ways an open can end. *)
Inductive opened (path : string) (p : Process Content) : Result StoreHandle StoreError → Process Content → Prop :=
| opened_unconnected e p' :
    ps_open p' = ps_open p → ps_file p' = ps_file p → ps_events p' = ps_events p ++ [Connected path WRITER_FLAGS] →
    opened path p (Err e) p'
| opened_failed key p1 n p2 e :
    pf_canonicalize platform n path = Ok key → key ∉ ps_open p → ps_open p1 = {[ key ]} ∪ ps_open p → ps_file p1 = ps_file p →
    establish platform execute_batch fault now migrations path key p1 = (Err e, p2) →
    opened path p (Err e) (release key p2)
| opened_well key p1 n store p' :
    key ∉ ps_open p → ps_open p1 = {[ key ]} ∪ ps_open p → ps_file p1 = ps_file p → pf_canonicalize platform n path = Ok key →
    establish platform execute_batch fault now migrations path key p1 = (Ok store, p') →
    opened path p (Ok store) p'.

Lemma store_open_cases path p r p' : opening path p = (r, p') → opened path p r p'.
Proof.
  unfold store_open. unfold open_bind at 1. destruct (connect platform path WRITER_FLAGS p) as [[[]|e] p1] eqn:Hc;
    pose proof Hc as Hp; unfold connect, open_call in Hp; injection Hp as _ <-; [|by intros [= <- <-]; constructor].
  unfold open_bind. match goal with |- context [acquire platform path ?q] => set (p1 := q) end.
  destruct (acquire platform path p1) as [[key|e] p2] eqn:Ha.
  - apply acquire_Ok in Ha as (Hk & Ho & Hf & n & Hn). unfold claimed.
    destruct (establish _ _ _ _ _ _ _ p2) as [[store|e] p3] eqn:He; intros [= <- <-].
    + by eapply opened_well.
    + by eapply opened_failed.
  - apply acquire_Err in Ha as (Ho & Hf & Hev & _). intros [= <- <-]. by constructor.
Qed.

(** An open adds its own claim when it succeeds, and none when it fails. *)
Lemma open_claims path p r p' :
  opening path p = (r, p') →
  match r with
  | Ok store => sh_claim store ∉ ps_open p ∧ ps_open p' = {[ sh_claim store ]} ∪ ps_open p
  | Err _ => ps_open p' = ps_open p
  end.
Proof.
  intros [e p1 Ho _ _|key p1 n p2 e _ Hk Ho _ He|key p1 n store p2 Hk Ho _ _ He]%store_open_cases; [done|..];
    pose proof (keeps_claims_establish path key p1) as Hc; rewrite He in Hc; cbn [snd] in Hc.
  - cbn. rewrite Hc, Ho. set_solver.
  - apply establish_key in He as ->. by rewrite Hc, Ho.
Qed.
End Opened.

(** ** One store for a file *)

Section History.
Context {Content : Type}.
Variable execute_batch : string → Content → Result Content SqliteError.
Variable migrations : list Migration.

(** What a process does with its stores, whatever SQLite answers each time. *)
Inductive StoreStep : Type :=
| StepOpen (platform : Platform) (fault : string → Z → option SqliteError) (now : Z) (path : string)
| StepClose (platform : Platform) (k : nat) (writer_poisoned reader_poisoned : bool)
| StepDrop (k : nat).

(** The stores that are open. *)
Definition store_step (step : StoreStep) (s : list StoreHandle * Process Content) : list StoreHandle * Process Content :=
  let (live, p) := s in
  match step with
  | StepOpen platform fault now path =>
      let (r, p') := store_open platform execute_batch fault now migrations path p in
      (match r with Ok store => live ++ [store] | Err _ => live end, p')
  | StepClose platform k writer_poisoned reader_poisoned =>
      match live !! k with
      | Some store => (delete k live, (store_close platform store writer_poisoned reader_poisoned p).2)
      | None => (live, p)
      end
  | StepDrop k =>
      match live !! k with
      | Some store => (delete k live, store_drop store p)
      | None => (live, p)
      end
  end.

Definition store_history (steps : list StoreStep) (s : list StoreHandle * Process Content) : list StoreHandle * Process Content :=
  fold_left (fun s step => store_step step s) steps s.

(** Every open store holds the claim on its own file, and nobody else does. *)
Definition claims_live (s : list StoreHandle * Process Content) : Prop :=
  NoDup (map sh_claim s.1) ∧ ∀ key, key ∈ ps_open s.2 ↔ key ∈ map sh_claim s.1.

Lemma close_releases platform store wp rp (p : Process Content) :
  ps_open (store_close platform store wp rp p).2 = ps_open p ∖ {[ sh_claim store ]}.
Proof. unfold store_close. by destruct wp, rp. Qed.

Lemma released_live k store live (p p' : Process Content) :
  claims_live (live, p) → live !! k = Some store → ps_open p' = ps_open p ∖ {[ sh_claim store ]} →
  claims_live (delete k live, p').
Proof.
  intros [Hnd Hk] Hl Ho. cbn [fst snd] in *.
  assert (map sh_claim live ≡ₚ sh_claim store :: map sh_claim (delete k live)) as Hp.
  { change (sh_claim store :: map sh_claim (delete k live)) with (map sh_claim (store :: delete k live)).
    apply Permutation_map. by apply delete_Permutation. }
  rewrite Hp in Hnd. apply NoDup_cons in Hnd as [Hni Hnd]. split; [exact Hnd|]. intros key. cbn [fst snd].
  rewrite Ho, elem_of_difference, Hk, Hp, elem_of_cons, elem_of_singleton. naive_solver.
Qed.

Lemma store_step_live step s : claims_live s → claims_live (store_step step s).
Proof.
  destruct s as [live p]. intros Hl. destruct step as [platform fault now path|platform k wp rp|k]; cbn [store_step].
  - destruct (store_open _ _ _ _ _ path p) as [r p'] eqn:Hx. apply open_claims in Hx. destruct Hl as [Hnd Hk]. cbn [fst snd] in *.
    destruct r as [store|e]; [|split; cbn [fst snd]; [done|by rewrite Hx]]. destruct Hx as [Hn Ho]. split; cbn [fst snd]; rewrite map_app; cbn [map].
    + apply NoDup_app. split_and!; [done| |apply NoDup_singleton]. intros key Hin ->%list_elem_of_singleton. by apply Hn, Hk.
    + intros key. rewrite Ho, elem_of_union, elem_of_singleton, Hk, elem_of_app, list_elem_of_singleton. naive_solver.
  - destruct (live !! k) as [store|] eqn:E; [|done]. eapply released_live; [exact Hl|exact E|apply close_releases].
  - destruct (live !! k) as [store|] eqn:E; [|done]. by eapply released_live.
Qed.

Lemma store_history_live steps s : claims_live s → claims_live (store_history steps s).
Proof. revert s. induction steps as [|step steps IH]; intros s Hs; [exact Hs|]. apply IH. by apply store_step_live. Qed.
End History.

Section Establish.
Context {Content : Type}.
Variable platform : Platform.
Variable execute_batch : string → Content → Result Content SqliteError.
Variable fault : string → Z → option SqliteError.
Variable now : Z.
Variable migrations : list Migration.

Local Abbreviation Open := (@Open Content).

(** The step leaves the file alone. *)
Definition keeps_file {A} (m : Open A) : Prop := ∀ p, ps_file (m p).2 = ps_file p.

Lemma keeps_file_bind {A B} (m : Open A) (k : A → Open B) : keeps_file m → (∀ a, keeps_file (k a)) → keeps_file (open_bind m k).
Proof. intros Hm Hk p. unfold open_bind. specialize (Hm p). destruct (m p) as [[a|e] p1]; cbn in *; [|done]. by rewrite Hk. Qed.

Lemma keeps_file_call {A} events (f : nat → Result A SqliteError) : keeps_file (open_call events f).
Proof. by intros p. Qed.

Lemma keeps_file_require condition detail values : keeps_file (require_policy condition detail values).
Proof. intros p. unfold require_policy. by destruct condition. Qed.

#[local] Hint Resolve keeps_file_bind keeps_file_call keeps_file_require : core.
#[local] Hint Extern 3 (keeps_file _) =>
  progress unfold pragma_update, query_text, query_integer, verify_journal_mode, verify_application_id, connect,
    apply_and_verify_connection_settings : core.

Lemma keeps_file_writer : keeps_file (apply_and_verify_writer platform).
Proof. unfold apply_and_verify_writer. eauto 80. Qed.

Lemma keeps_file_reader : keeps_file (apply_and_verify_reader platform).
Proof. unfold apply_and_verify_reader. eauto 80. Qed.

(** What stands when an open has succeeded. *)
Lemma establish_Ok path key p store p' :
  establish platform execute_batch fault now migrations path key p = (Ok store, p') →
  sh_claim store = key ∧ run_with execute_batch fault now migrations (ps_file p) = (Ok tt, ps_file p') ∧
  verified_policy platform WriterConnection ∧ verified_policy platform ReaderConnection ∧
  ∃ n, pf_is_readonly platform n ReaderConnection = Ok true.
Proof.
  unfold establish. intros ([] & p1 & Hw & Hx)%open_bind_Ok. apply open_bind_Ok in Hx as ([] & p2 & Hm & Hx).
  apply open_bind_Ok in Hx as ([] & p3 & Hc & Hx). apply open_bind_Ok in Hx as ([] & p4 & Hr & Hx).
  apply open_bind_Ok in Hx as (id & p5 & [= <- <-] & [= <- <-]). cbn [sh_claim ps_file].
  pose proof (keeps_file_writer p) as F1. rewrite Hw in F1. pose proof (keeps_file_reader p3) as F2. rewrite Hr in F2.
  pose proof (keeps_file_call [Connected path READER_FLAGS] (fun n => pf_open platform n path READER_FLAGS) p2) as F3.
  unfold connect in Hc. rewrite Hc in F3. cbn [snd] in F1, F2, F3. unfold migrate in Hm.
  destruct (run_with _ _ _ _ (ps_file p1)) as [r file] eqn:Hrun. injection Hm as -> <-.
  apply writer_verified in Hw. apply reader_verified in Hr as [Hr Hro]. split_and!; try done. rewrite F2, F3. cbn [ps_file]. by rewrite <-F1.
Qed.

(** Opening. A store that opens holds the claim on its file, which nobody held;
    every setting of the policy was read back from SQLite as it must be, on both
    connections, and the reader is read-only to SQLite; and the file is what the
    migrations made of it. An open that fails holds no claim, and one of a file that is
    claimed already is refused before anything but the connection was made. *)
Theorem store_opened path p r p' :
  store_open platform execute_batch fault now migrations path p = (r, p') →
  match r with
  | Ok store =>
      sh_claim store ∉ ps_open p ∧ ps_open p' = {[ sh_claim store ]} ∪ ps_open p ∧
      (∃ n, pf_canonicalize platform n path = Ok (sh_claim store)) ∧
      run_with execute_batch fault now migrations (ps_file p) = (Ok tt, ps_file p') ∧
      verified_policy platform WriterConnection ∧ verified_policy platform ReaderConnection ∧
      ∃ n, pf_is_readonly platform n ReaderConnection = Ok true
  | Err e =>
      ps_open p' = ps_open p ∧
      ∀ key, (∀ n, pf_canonicalize platform n path = Ok key) → key ∈ ps_open p →
        ps_file p' = ps_file p ∧ ps_events p' = ps_events p ++ [Connected path WRITER_FLAGS]
  end.
Proof.
  intros Hx. pose proof (open_claims _ _ _ _ _ _ _ _ _ Hx) as Hc. destruct r as [store|e].
  - destruct Hc as [Hn Ho]. split; [exact Hn|]. split; [exact Ho|]. apply store_open_cases in Hx.
    inversion Hx as [| |key p1 n s p2 Hk Hp1 Hf Hcan He]; subst. apply establish_Ok in He as (<- & Hrun & Hw & Hr & Hro).
    rewrite Hf in Hrun. split_and!; eauto.
  - split; [exact Hc|]. intros key Hcan Hin. apply store_open_cases in Hx.
    inversion Hx as [e' p1 Ho Hf Hev|key' p1 n p2 e' Hn Hk Ho Hf He|]; subst; [done|exfalso].
    rewrite Hcan in Hn. by injection Hn as <-.
Qed.
End Establish.

(** ** A platform that answers as it should *)

Definition answering : Platform := {|
  pf_open := fun _ _ _ => Ok tt;
  pf_update := fun _ _ _ _ => Ok tt;
  pf_text := fun _ _ _ => Ok "WAL";
  pf_integer := fun _ _ pragma =>
    Ok (if String.eqb pragma "synchronous" then 2 else if String.eqb pragma "foreign_keys" then 1
        else if String.eqb pragma "busy_timeout" then BUSY_TIMEOUT
        else if String.eqb pragma "application_id" then APPLICATION_ID else 0)%Z;
  pf_busy_timeout := fun _ _ _ => Ok tt;
  pf_is_readonly := fun _ _ => Ok true;
  pf_canonicalize := fun _ path => Ok (if String.eqb path "link.db" then "pantheon.db" else path);
  pf_close := fun _ _ => Ok tt
|}.

Definition new_file : File unit := mk_file 0 None tt.
Definition new_process : Process unit := {| ps_calls := 0; ps_events := []; ps_open := ∅; ps_next_id := 0; ps_file := new_file |}.

Local Abbreviation answered := (store_open answering (fun _ content => Ok content) (fun _ _ => None) 0 []).

(** The first open succeeds; a second one of the same file, under another name, does not,
    until the first is closed. *)
Example one_store_for_a_file :
  ∃ store p, answered "pantheon.db" new_process = (Ok store, p) ∧
    (answered "link.db" p).1 = Err (AlreadyOpen "pantheon.db") ∧
    ∃ p1 again p2, store_close answering store false false p = (Ok tt, p1) ∧ answered "link.db" p1 = (Ok again, p2) ∧
      sh_id again = 1%Z.
Proof. do 2 eexists. split; [by vm_compute|]. split; [by vm_compute|]. do 3 eexists. split; [by vm_compute|]. split; by vm_compute. Qed.
