(* ===== verification/StoreWriter.v ===== *)
(** * The serialized writer ([pantheon-store/src/store.rs])

    [Store::write] as threads run it at the same time: the thread's own record of the
    stores it is inside, which refuses a re-entry; the lock, which waits; the
    transaction; and what a panic leaves. What a transaction does to its database is
    [Transaction.run]; every interleaving is a sequence of steps. *)

From Stdlib Require Import ZArith Lia.
From stdpp Require Import gmap functions.
From S2P Require Import Prelude Sql Schema Transaction.

(** One [Store::write] a thread is in: still at the lock, or in its transaction, with
    the connection as it was when the lock was taken. *)
Inductive Frame : Type :=
| Waiting (store : Z)
| Inside (store : Z) (begun : Connection).

Definition frame_store (f : Frame) : Z := match f with Waiting s => s | Inside s _ => s end.

(** The threads' nested writes, innermost first; what each recorded in [WRITES_HELD],
    in the order it was recorded; the locks taken and the poisoned ones; and the
    connection behind each lock. *)
Record Writers : Type := {
  wr_frames : nat → list Frame;
  wr_held : nat → list Z;
  wr_locked : gset Z;
  wr_poisoned : gset Z;
  wr_conn : Z → Connection
}.

(** The guard's drop: the last entry of that store goes. *)
Fixpoint remove_first (s : Z) (held : list Z) : list Z :=
  match held with
  | [] => []
  | x :: held' => if Z.eqb x s then held' else x :: remove_first s held'
  end.

Definition remove_last (s : Z) (held : list Z) : list Z := reverse (remove_first s (reverse held)).

(** What a thread does next: call [write], be given the lock, or leave the closure, with
    an answer or unwinding. *)
Inductive WriteLabel : Type :=
| Enter (store : Z)
| Lock
| Leave (d : Driver) (f : Tx unit)
| Panic (d : Driver).

Inductive WriteOutcome : Type :=
| Entered
| Acquired
| Returned (r : Result unit StoreError)
| Unwinding.

Definition reentered : StoreError :=
  ConnectionUnavailable (message "cannot re-enter the serialized authoritative writer of a store" []).
Definition poisoned : StoreError :=
  ConnectionUnavailable (message "the authoritative writer is poisoned by an earlier panic" []).

(** The end of a write: the lock is dropped before the guard. *)
Definition left_write (t : nat) (s : Z) (rest : list Frame) (c : Connection) (poison : gset Z) (w : Writers) : Writers := {|
  wr_frames := <[ t := rest ]> (wr_frames w);
  wr_held := <[ t := remove_last s (wr_held w t) ]> (wr_held w);
  wr_locked := wr_locked w ∖ {[ s ]};
  wr_poisoned := poison ∪ wr_poisoned w;
  wr_conn := <[ s := c ]> (wr_conn w)
|}.

(** One step of one thread, or [None] when the thread cannot take it now. *)
Definition write_step (t : nat) (l : WriteLabel) (w : Writers) : option (WriteOutcome * Writers) :=
  match wr_frames w t, l with
  | Waiting s :: rest, Lock =>
      if bool_decide (s ∈ wr_locked w) then None
      else if bool_decide (s ∈ wr_poisoned w) then
        Some (Returned (Err poisoned),
              {| wr_frames := <[ t := rest ]> (wr_frames w); wr_held := <[ t := remove_last s (wr_held w t) ]> (wr_held w);
                 wr_locked := wr_locked w; wr_poisoned := wr_poisoned w; wr_conn := wr_conn w |})
      else
        Some (Acquired,
              {| wr_frames := <[ t := Inside s (wr_conn w s) :: rest ]> (wr_frames w); wr_held := wr_held w;
                 wr_locked := {[ s ]} ∪ wr_locked w; wr_poisoned := wr_poisoned w; wr_conn := wr_conn w |})
  | Waiting _ :: _, _ => None
  | Inside s begun :: rest, Leave d f =>
      let (r, c) := run d f begun in Some (Returned r, left_write t s rest c ∅ w)
  | Inside s begun :: rest, Panic d =>
      if conn_autocommit begun then Some (Unwinding, left_write t s rest (rolled_back d begun) {[ s ]} w) else None
  | frames, Enter s =>
      if bool_decide (s ∈ wr_held w t) then Some (Returned (Err reentered), w)
      else
        Some (Entered,
              {| wr_frames := <[ t := Waiting s :: frames ]> (wr_frames w); wr_held := <[ t := wr_held w t ++ [s] ]> (wr_held w);
                 wr_locked := wr_locked w; wr_poisoned := wr_poisoned w; wr_conn := wr_conn w |})
  | _, _ => None
  end.

(** Nobody writes yet. *)
Definition idle (conn : Z → Connection) : Writers := {|
  wr_frames := fun _ => []; wr_held := fun _ => []; wr_locked := ∅; wr_poisoned := ∅; wr_conn := conn |}.

(** An interleaving of the threads' steps. *)
Fixpoint interleave (steps : list (nat * WriteLabel)) (w : Writers) : option Writers :=
  match steps with
  | [] => Some w
  | (t, l) :: rest => match write_step t l w with Some (_, w') => interleave rest w' | None => None end
  end.

(** ** The specification: one transaction after another *)

(** What a step does to the store it ends a write of, all at once. *)
Definition ended (w : Writers) (x : nat * WriteLabel) : option (Z * (Connection → Connection)) :=
  match wr_frames w x.1, x.2 with
  | Inside s _ :: _, Leave d f => Some (s, fun c => (run d f c).2)
  | Inside s _ :: _, Panic d => Some (s, rolled_back d)
  | _, _ => None
  end.

Definition apply_ended (s : Z) (c : Connection) (x : Z * (Connection → Connection)) : Connection :=
  if Z.eqb x.1 s then x.2 c else c.

(** The transactions of an interleaving, in the order they ended. *)
Fixpoint serial (steps : list (nat * WriteLabel)) (w : Writers) : list (Z * (Connection → Connection)) :=
  match steps with
  | [] => []
  | x :: rest =>
      match write_step x.1 x.2 w with
      | Some (_, w') => match ended w x with Some e => e :: serial rest w' | None => serial rest w' end
      | None => []
      end
  end.

(** ** The invariant *)

(** One thread's frames agree with its own record, only the innermost can be at the lock,
    and no store is there twice. *)
Record thread_ok (frames : list Frame) (held : list Z) : Prop := {
  to_held : held = reverse (map frame_store frames);
  to_once : NoDup (map frame_store frames);
  to_inner : ∀ s, Waiting s ∉ tail frames
}.

Record writers_ok (w : Writers) : Prop := {
  wo_thread : ∀ t, thread_ok (wr_frames w t) (wr_held w t);
  wo_locked : ∀ s, s ∈ wr_locked w ↔ ∃ t c, Inside s c ∈ wr_frames w t;
  wo_alone : ∀ s t t' c c', Inside s c ∈ wr_frames w t → Inside s c' ∈ wr_frames w t' → t = t';
  wo_conn : ∀ s t c, Inside s c ∈ wr_frames w t → wr_conn w s = c
}.

Lemma idle_ok conn : writers_ok (idle conn).
Proof.
  split; cbn.
  - intros t. split; [done|constructor|]. intros s Hs. by apply not_elem_of_nil in Hs.
  - intros s. split; [done|]. by intros (t & c & []%not_elem_of_nil).
  - by intros s t t' c c' []%not_elem_of_nil.
  - by intros s t c []%not_elem_of_nil.
Qed.

Lemma remove_last_held s rest : remove_last s (reverse (s :: map frame_store rest)) = reverse (map frame_store rest).
Proof. unfold remove_last. rewrite reverse_involutive. cbn. by rewrite Z.eqb_refl. Qed.

Lemma inside_store s c frames : Inside s c ∈ frames → s ∈ map frame_store frames.
Proof. intros Hin. by apply (list_elem_of_fmap_2 frame_store) in Hin. Qed.

(** The thread's own record after a frame has gone. *)
Lemma thread_ok_pop f rest held :
  thread_ok (f :: rest) held → thread_ok rest (remove_last (frame_store f) held).
Proof.
  intros [-> Hnd Hin]. cbn [map tail] in *. split.
  - by apply remove_last_held.
  - by apply NoDup_cons in Hnd as [_ ?].
  - intros s Hs. apply (Hin s). destruct rest; [done|]. by right.
Qed.

Lemma thread_ok_push s frames held :
  thread_ok frames held → (∀ s', Waiting s' ∉ frames) → s ∉ held → thread_ok (Waiting s :: frames) (held ++ [s]).
Proof.
  intros [-> Hnd _] Hrun Hs. split; cbn [map frame_store tail].
  - by rewrite reverse_cons.
  - apply NoDup_cons. split; [|done]. by rewrite elem_of_reverse in Hs.
  - done.
Qed.

(** A thread that is not at the lock is at none. *)
Lemma running frames held :
  thread_ok frames held → (∀ s rest, frames ≠ Waiting s :: rest) → ∀ s, Waiting s ∉ frames.
Proof.
  intros [_ _ Hin] Hne s Hs. destruct frames as [|f rest]; [by apply not_elem_of_nil in Hs|].
  apply elem_of_cons in Hs as [<-|Hs]; [by eapply Hne|by eapply Hin].
Qed.

(** The cases of a thread's update. *)
Ltac at_thread t t' :=
  destruct (decide (t = t')) as [<-|?]; rewrite ?fn_lookup_insert, ?fn_lookup_insert_ne by done.

(** What a thread is inside, seen through one thread's update. *)
Lemma inside_update t frames (fs : nat → list Frame) t' s c :
  Inside s c ∈ (<[ t := frames ]> fs) t' ↔ (t = t' ∧ Inside s c ∈ frames) ∨ (t ≠ t' ∧ Inside s c ∈ fs t').
Proof. at_thread t t'; naive_solver. Qed.

(** A step that changes no thread's transactions, no lock and no connection. *)
Lemma same_inside_ok w t frames held poison :
  writers_ok w → thread_ok frames held → (∀ s c, Inside s c ∈ frames ↔ Inside s c ∈ wr_frames w t) →
  writers_ok {| wr_frames := <[ t := frames ]> (wr_frames w); wr_held := <[ t := held ]> (wr_held w);
                wr_locked := wr_locked w; wr_poisoned := poison; wr_conn := wr_conn w |}.
Proof.
  intros [Ht Hl Ha Hc] Hok Hin.
  assert (∀ t' s c, Inside s c ∈ (<[ t := frames ]> (wr_frames w)) t' ↔ Inside s c ∈ wr_frames w t') as Hsame.
  { intros t' s c. rewrite inside_update, Hin. destruct (decide (t = t')) as [->|?]; naive_solver. }
  split; cbn [wr_frames wr_held wr_locked wr_poisoned wr_conn].
  - intros t'. at_thread t t'; [done|apply Ht].
  - intros s. rewrite Hl. by setoid_rewrite Hsame.
  - intros s t1 t2 c1 c2. rewrite !Hsame. apply Ha.
  - intros s t1 c. rewrite Hsame. apply Hc.
Qed.

(** The lock is given. *)
Lemma acquired_ok w t s rest :
  writers_ok w → wr_frames w t = Waiting s :: rest → s ∉ wr_locked w →
  writers_ok {| wr_frames := <[ t := Inside s (wr_conn w s) :: rest ]> (wr_frames w); wr_held := wr_held w;
                wr_locked := {[ s ]} ∪ wr_locked w; wr_poisoned := wr_poisoned w; wr_conn := wr_conn w |}.
Proof.
  intros [Ht Hl Ha Hc] Hf Hs.
  assert (∀ t' c, Inside s c ∉ wr_frames w t') as Hno by (intros t' c Hin; apply Hs, Hl; eauto).
  assert (∀ t' s' c, Inside s' c ∈ (<[ t := Inside s (wr_conn w s) :: rest ]> (wr_frames w)) t' ↔
            (t' = t ∧ s' = s ∧ c = wr_conn w s) ∨ Inside s' c ∈ wr_frames w t') as Hin.
  { intros t' s' c. rewrite inside_update, elem_of_cons. destruct (decide (t = t')) as [<-|?]; [|naive_solver].
    rewrite Hf, elem_of_cons. naive_solver. }
  split; cbn [wr_frames wr_held wr_locked wr_poisoned wr_conn].
  - intros t'. specialize (Ht t'). at_thread t t'; [|done]. rewrite Hf in Ht. destruct Ht as [Hh Hnd Hin']. by split.
  - intros s'. rewrite elem_of_union, elem_of_singleton, Hl. setoid_rewrite Hin. split.
    + intros [->|(t' & c & Hx)]; eauto 8.
    + intros (t' & c & [(_ & -> & _)|Hx]); eauto.
  - intros s' t1 t2 c1 c2. rewrite !Hin. intros [(-> & -> & ->)|H1] [(-> & Hx & ->)|H2]; subst; try done;
      [by apply Hno in H2|by apply Hno in H1|by eapply Ha].
  - intros s' t' c. rewrite Hin. intros [(-> & -> & ->)|H1]; [done|by eapply Hc].
Qed.

(** A write ends. *)
Lemma left_ok w t s begun rest c poison :
  writers_ok w → wr_frames w t = Inside s begun :: rest → writers_ok (left_write t s rest c poison w).
Proof.
  intros [Ht Hl Ha Hc] Hf. pose proof (Ht t) as Hok. rewrite Hf in Hok. pose proof (to_once _ _ Hok) as Hnd. cbn [map frame_store] in Hnd.
  apply NoDup_cons in Hnd as [Hni _].
  assert (∀ t' s' c', Inside s' c' ∈ (<[ t := rest ]> (wr_frames w)) t' ↔ s' ≠ s ∧ Inside s' c' ∈ wr_frames w t') as Hin.
  { intros t' s' c'. rewrite inside_update. destruct (decide (t = t')) as [<-|Hne].
    - rewrite Hf, elem_of_cons. split; [|naive_solver]. intros [[_ Hx]|[? ?]]; [|done]. split; [|by right].
      intros ->. apply Hni. by eapply inside_store.
    - split; [|naive_solver]. intros [[? ?]|[_ Hx]]; [done|]. split; [|done]. intros ->. apply Hne.
      eapply (Ha s); [rewrite Hf; by left|exact Hx]. }
  unfold left_write. split; cbn [wr_frames wr_held wr_locked wr_poisoned wr_conn].
  - intros t'. at_thread t t'; [|apply Ht]. by eapply (thread_ok_pop (Inside s begun)).
  - intros s'. rewrite elem_of_difference, elem_of_singleton, Hl. setoid_rewrite Hin. naive_solver.
  - intros s' t1 t2 c1 c2. rewrite !Hin. intros [_ H1] [_ H2]. by eapply Ha.
  - intros s' t' c'. rewrite Hin. intros [Hne Hx]. rewrite fn_lookup_insert_ne by done. by eapply Hc.
Qed.

Lemma write_step_ok t l w o w' : writers_ok w → write_step t l w = Some (o, w') → writers_ok w'.
Proof.
  intros Hw. pose proof (wo_thread _ Hw t) as Hok. unfold write_step. destruct (wr_frames w t) as [|[s|s begun] rest] eqn:Hf.
  - destruct l as [s| | |]; try done. case_bool_decide as Hs; intros [= <- <-]; [done|].
    apply same_inside_ok; [done| |].
    + apply thread_ok_push; [done| |done]. by intros ? []%not_elem_of_nil.
    + intros s' c. rewrite Hf, elem_of_cons. naive_solver.
  - destruct l; try done. case_bool_decide as Hl; [done|]. case_bool_decide as Hp; intros [= <- <-].
    + apply same_inside_ok; [done|by apply (thread_ok_pop (Waiting s))|]. intros s' c. rewrite Hf, elem_of_cons. naive_solver.
    + by apply acquired_ok.
  - destruct l as [s'| |d f|d]; try done.
    + case_bool_decide as Hs; intros [= <- <-]; [done|]. apply same_inside_ok; [done| |].
      * apply thread_ok_push; [done| |done]. eapply running; [done|]. congruence.
      * intros s1 c. rewrite Hf, (elem_of_cons (Inside s begun :: rest)). naive_solver.
    + destruct (run d f begun) as [r c]. intros [= <- <-]. by eapply left_ok.
    + destruct (conn_autocommit begun); [|done]. intros [= <- <-]. by eapply left_ok.
Qed.

Lemma interleave_ok steps w w' : writers_ok w → interleave steps w = Some w' → writers_ok w'.
Proof.
  revert w. induction steps as [|[t l] steps IH]; intros w Hw; cbn; [by intros [= <-]|].
  destruct (write_step t l w) as [[o w1]|] eqn:E; [|done]. intros Hx. eapply IH; [by eapply write_step_ok|exact Hx].
Qed.

(** A step makes its ended transaction out of the store's content then. *)
Lemma write_step_conn t l w o w' s :
  writers_ok w → write_step t l w = Some (o, w') →
  wr_conn w' s = match ended w (t, l) with Some e => apply_ended s (wr_conn w s) e | None => wr_conn w s end.
Proof.
  intros Hw. unfold write_step, ended. cbn [fst snd]. destruct (wr_frames w t) as [|[s1|s1 begun] rest] eqn:Hf.
  - destruct l; try done. case_bool_decide; by intros [= <- <-].
  - destruct l; try done. case_bool_decide; [done|]. case_bool_decide; by intros [= <- <-].
  - assert (wr_conn w s1 = begun) as Hb by (eapply (wo_conn _ Hw s1 t); rewrite Hf; by left).
    destruct l as [s'| |d f|d]; try done.
    + case_bool_decide; by intros [= <- <-].
    + destruct (run d f begun) as [r c] eqn:Hr. intros [= <- <-]. cbn [left_write wr_conn]. unfold apply_ended. cbn [fst snd].
      destruct (Z.eqb_spec s1 s) as [<-|Hne]; [by rewrite fn_lookup_insert, Hb, Hr|by rewrite fn_lookup_insert_ne].
    + destruct (conn_autocommit begun); [|done]. intros [= <- <-]. cbn [left_write wr_conn]. unfold apply_ended. cbn [fst snd].
      destruct (Z.eqb_spec s1 s) as [<-|Hne]; [by rewrite fn_lookup_insert, Hb|by rewrite fn_lookup_insert_ne].
Qed.

(** ** Properties *)

(** C14: Serialized writers. However the threads interleave, at most one is inside a
    store's transaction, and what a store then holds is what its transactions would have
    made of it one after another, in the order they ended: none saw or overwrote half of
    another's work. *)
Theorem writes_serialized conn steps w :
  interleave steps (idle conn) = Some w →
  (∀ s t t' c c', Inside s c ∈ wr_frames w t → Inside s c' ∈ wr_frames w t' → t = t') ∧
  (∀ s, wr_conn w s = fold_left (apply_ended s) (serial steps (idle conn)) (conn s)).
Proof.
  intros Hx. split; [by eapply wo_alone, interleave_ok, Hx; apply idle_ok|]. intros s.
  change (conn s) with (wr_conn (idle conn) s). pose proof (idle_ok conn) as Hw. revert Hw Hx. generalize (idle conn).
  induction steps as [|[t l] steps IH]; intros w0 Hw; cbn [interleave serial fst snd]; [by intros [= <-]|].
  destruct (write_step t l w0) as [[o w1]|] eqn:E; [|done]. intros Hx.
  rewrite (IH w1 (write_step_ok _ _ _ _ _ Hw E) Hx), (write_step_conn t l w0 o w1 s Hw E).
  by destruct (ended w0 (t, l)).
Qed.

(** *** Waiting *)

(** A thread that can take no step. *)
Definition blocked (t : nat) (w : Writers) : Prop := ∀ l, write_step t l w = None.

Lemma blocked_iff t w : blocked t w ↔ ∃ s rest, wr_frames w t = Waiting s :: rest ∧ s ∈ wr_locked w.
Proof.
  split.
  - intros Hb. pose proof (Hb Lock) as Hl. pose proof (Hb (Enter 0)) as He. unfold write_step in Hl, He.
    destruct (wr_frames w t) as [|[s|s c] rest]; [by case_bool_decide| |by case_bool_decide].
    case_bool_decide; [eauto|by case_bool_decide].
  - intros (s & rest & Hf & Hs) l. unfold write_step. rewrite Hf. destruct l; try done. by rewrite bool_decide_eq_true_2.
Qed.

(** A thread never waits for a lock it has itself: it is refused before. *)
Theorem never_waits_for_itself conn steps w t s rest c :
  interleave steps (idle conn) = Some w → wr_frames w t = Waiting s :: rest → Inside s c ∉ wr_frames w t.
Proof.
  intros Hx Hf Hin. eapply interleave_ok in Hx as [Ht _ _ _]; [|apply idle_ok]. specialize (Ht t). rewrite Hf in Hin, Ht.
  apply to_once in Ht. cbn [map frame_store] in Ht. apply NoDup_cons in Ht as [Hni _].
  apply elem_of_cons in Hin as [|Hin]; [done|]. by apply Hni, (inside_store s c).
Qed.

(** The threads take their stores in ascending order. *)
Definition ascending (w : Writers) : Prop := ∀ t s rest s', wr_frames w t = Waiting s :: rest → s' ∈ map frame_store rest → (s' < s)%Z.

(** While every thread enters its stores in ascending order somebody can always go on:
    behind any blocked thread there is one that is not. *)
Theorem ascending_writers_progress conn steps w t :
  interleave steps (idle conn) = Some w → ascending w →
  (∀ t s, s ∈ wr_held w t → (0 <= s < 18446744073709551616)%Z) →
  blocked t w → ∃ t' s c, Inside s c ∈ wr_frames w t' ∧ ¬ blocked t' w.
Proof.
  intros Hx Hasc Hbound Hb. eapply interleave_ok in Hx as [Ht Hl _ _]; [|apply idle_ok].
  apply blocked_iff in Hb as (s & rest & Hf & Hs).
  assert (∃ n, n = Z.to_nat (18446744073709551616 - s)) as [n Hn] by eauto.
  revert t s rest Hf Hs Hn. induction n as [n IH] using lt_wf_ind. intros t s rest Hf Hs Hn.
  apply Hl in Hs as (t' & c & Hin).
  destruct (wr_frames w t') as [|[s1|s1 c1] rest'] eqn:Hf'; [by apply not_elem_of_nil in Hin| |].
  - destruct (decide (s1 ∈ wr_locked w)) as [Hs1|Hs1].
    + apply elem_of_cons in Hin as [|Hin]; [done|]. apply inside_store in Hin. pose proof (Hasc _ _ _ _ Hf' Hin) as Hlt.
      assert (s1 ∈ wr_held w t') as Hh.
      { rewrite (to_held _ _ (Ht t')), Hf'. cbn [map frame_store]. rewrite elem_of_reverse. by left. }
      apply Hbound in Hh. eapply IH; [|exact Hf'|exact Hs1|reflexivity]. lia.
    + exists t', s, c. rewrite Hf'. split; [done|]. rewrite blocked_iff, Hf'. intros (? & ? & [= <- <-] & ?). done.
  - exists t', s, c. rewrite Hf'. split; [done|]. rewrite blocked_iff, Hf'. intros (? & ? & ? & ?). done.
Qed.

(** Two stores entered in opposite orders, each inside the other's transaction: both
    threads wait for ever, and the guard has refused nothing. *)
Definition crossed : list (nat * WriteLabel) :=
  [(0, Enter 0%Z); (0, Lock); (1, Enter 1%Z); (1, Lock); (0, Enter 1%Z); (1, Enter 0%Z)].

Theorem crossed_writers_deadlock conn :
  ∃ w, interleave crossed (idle conn) = Some w ∧ blocked 0 w ∧ blocked 1 w.
Proof.
  eexists. split; [reflexivity|]. split; apply blocked_iff; eexists _, _; (split; [reflexivity|]); by apply (bool_decide_unpack _); vm_compute.
Qed.

(** A store a panic has poisoned stays so, and no write of it begins again: whoever gets
    its lock is refused. *)
Theorem poison_is_permanent t l w o w' s :
  s ∈ wr_poisoned w → write_step t l w = Some (o, w') →
  s ∈ wr_poisoned w' ∧
  (∀ rest, wr_frames w t = Waiting s :: rest → o = Returned (Err poisoned) ∧ wr_frames w' t = rest ∧ wr_conn w' = wr_conn w).
Proof.
  intros Hs. unfold write_step. destruct (wr_frames w t) as [|[s1|s1 begun] rest] eqn:Hf.
  - destruct l; try done. case_bool_decide; by intros [= <- <-].
  - destruct l; try done. case_bool_decide; [done|]. case_bool_decide; intros [= <- <-]; cbn [wr_poisoned]; (split; [done|]);
      intros rest' [= -> ->]; [|done]. cbn [wr_frames wr_conn]. by rewrite fn_lookup_insert.
  - destruct l as [s'| |d f|d]; try done.
    + case_bool_decide; by intros [= <- <-].
    + destruct (run d f begun) as [r c]. intros [= <- <-]. cbn [left_write wr_poisoned]. split; [set_solver|done].
    + destruct (conn_autocommit begun); [|done]. intros [= <- <-]. cbn [left_write wr_poisoned]. split; [set_solver|done].
Qed.

(** *** A concrete interleaving *)

(** Two threads on one store: the second waits while the first is inside, and each adds
    a row. *)
Definition insert_row (name : string) : Tx unit := fun w =>
  (Ok tt, {| w_db := <[name := []]> (w_db w); w_failed := w_failed w |}).

Definition two_threads : list (nat * WriteLabel) :=
  [(0, Enter 7%Z); (0, Lock); (1, Enter 7%Z); (0, Leave working (insert_row "first")); (1, Lock);
   (1, Leave working (insert_row "second"))].

Definition empty_connection (_ : Z) : Connection := {| conn_db := ∅; conn_autocommit := true |}.

Lemma writes_serialized_witness :
  ∃ w, interleave two_threads (idle empty_connection) = Some w ∧ conn_db (wr_conn w 7) !! "first" = Some [] ∧
    conn_db (wr_conn w 7) !! "second" = Some [].
Proof.
  eexists. split; [reflexivity|]. match goal with |- context [wr_conn ?w 7] => set (w0 := w) end.
  assert (interleave two_threads (idle empty_connection) = Some w0) as Hx by reflexivity.
  destruct (writes_serialized _ _ _ Hx) as [_ Hs]. rewrite (Hs 7%Z). split; reflexivity.
Defined.
