(* ===== verification/Cli.v ===== *)
(** * What the operator types ([pantheon-cli/src/args.rs], [pantheond/src/options.rs])

    The argument parsers of the client and of the daemon, on lists of words. The
    environment is an argument. A failure keeps its sentence and the words it quotes. *)

From Stdlib Require Import ZArith Ascii Lia.
From S2P Require Import Prelude Utf8 Parse Transaction StoreExecution StoreOperator EngineWorkspace.

(** ** Invocations *)

(** The Goal an operator described: inputs are name and reference, deliverables name,
    kind and whether they are required. *)
Record GoalRequest : Type := {
  gq_objective : string;
  gq_inputs : list (string * string);
  gq_deliverables : list (string * string * bool);
  gq_permitted_effects : list string;
  gq_forbidden_effects : list string;
  gq_permitted_resources : list string
}.

Inductive CliCommand : Type :=
| CliStatus
| CliVersion
| CliGoalCreate (request : GoalRequest)
| CliGoalGet (id : string)
| CliGoalList
| CliGoalCancel (id : string)
| CliDispatchStatus
| CliDispatchPause
| CliDispatchResume
| CliEventsList (after : option string) (limit : option Z)
| CliEventsWatch (after : option string).

Record Invocation : Type := {
  iv_socket : string;
  iv_json : bool;
  iv_command_id : option string;
  iv_command : CliCommand
}.

Definition args_error {A} (text : string) (quoted : list string) : Result A Message := Err (message text quoted).

(** [next]: the value an option needs. *)
Definition needs_value (name : string) : Message := message "needs a value" [name].

(** ** The globals, wherever they stand *)

Record Globals : Type := {
  gl_socket : option string;
  gl_json : bool;
  gl_command_id : option string;
  gl_rest : list string
}.

Definition no_globals : Globals := {| gl_socket := None; gl_json := false; gl_command_id := None; gl_rest := [] |}.

(** [None] when help was asked for. *)
Fixpoint take_globals (args : list string) (g : Globals) : Result (option Globals) Message :=
  match args with
  | [] => Ok (Some g)
  | arg :: rest =>
      if String.eqb arg "-h" || String.eqb arg "--help" then Ok None
      else if String.eqb arg "--json" then
        take_globals rest {| gl_socket := gl_socket g; gl_json := true; gl_command_id := gl_command_id g; gl_rest := gl_rest g |}
      else if String.eqb arg "--socket" then
        match rest with
        | v :: rest' =>
            take_globals rest' {| gl_socket := Some v; gl_json := gl_json g; gl_command_id := gl_command_id g; gl_rest := gl_rest g |}
        | [] => Err (needs_value "--socket")
        end
      else if String.eqb arg "--command-id" then
        match rest with
        | v :: rest' =>
            take_globals rest' {| gl_socket := gl_socket g; gl_json := gl_json g; gl_command_id := Some v; gl_rest := gl_rest g |}
        | [] => Err (needs_value "--command-id")
        end
      else
        take_globals rest
          {| gl_socket := gl_socket g; gl_json := gl_json g; gl_command_id := gl_command_id g; gl_rest := gl_rest g ++ [arg] |}
  end.

(** ** Commands *)

Definition nothing_more {A} (words : list string) (command : string) (a : A) : Result A Message :=
  match words with
  | [] => Ok a
  | extra :: _ => args_error "takes no arguments" [command; extra]
  end.

Definition parse_dispatch (words : list string) : Result CliCommand Message :=
  match words with
  | "status" :: rest => nothing_more rest "dispatch status" CliDispatchStatus
  | "pause" :: rest => nothing_more rest "dispatch pause" CliDispatchPause
  | "resume" :: rest => nothing_more rest "dispatch resume" CliDispatchResume
  | other => args_error "dispatch needs status, pause or resume" [default "nothing" (head other)]
  end.

(** [--input]'s value, at its first equals sign. *)
Definition parse_input (raw : string) : Result (string * string) Message :=
  match split_once "=" raw with
  | Some (name, reference) => Ok (name, reference)
  | None => args_error "--input must be <name>=<reference>" [raw]
  end.

(** [--deliverable]'s value: required unless its suffix says otherwise. *)
Definition parse_deliverable (raw : string) : Result (string * string * bool) Message :=
  match split_on ":" raw with
  | name :: kind :: parts =>
      match parts with
      | [] => Ok (name, kind, true)
      | "optional" :: _ => Ok (name, kind, false)
      | other :: _ => args_error "--deliverable suffix must be `optional`" [other]
      end
  | _ => args_error "--deliverable must be <name>:<kind>[:optional]" [raw]
  end.

Definition empty_request : GoalRequest := {|
  gq_objective := EmptyString; gq_inputs := []; gq_deliverables := []; gq_permitted_effects := [];
  gq_forbidden_effects := []; gq_permitted_resources := [] |}.

Definition set_objective (q : GoalRequest) (v : string) : GoalRequest := {|
  gq_objective := v; gq_inputs := gq_inputs q; gq_deliverables := gq_deliverables q;
  gq_permitted_effects := gq_permitted_effects q; gq_forbidden_effects := gq_forbidden_effects q;
  gq_permitted_resources := gq_permitted_resources q |}.
Definition push_input (q : GoalRequest) (v : string * string) : GoalRequest := {|
  gq_objective := gq_objective q; gq_inputs := gq_inputs q ++ [v]; gq_deliverables := gq_deliverables q;
  gq_permitted_effects := gq_permitted_effects q; gq_forbidden_effects := gq_forbidden_effects q;
  gq_permitted_resources := gq_permitted_resources q |}.
Definition push_deliverable (q : GoalRequest) (v : string * string * bool) : GoalRequest := {|
  gq_objective := gq_objective q; gq_inputs := gq_inputs q; gq_deliverables := gq_deliverables q ++ [v];
  gq_permitted_effects := gq_permitted_effects q; gq_forbidden_effects := gq_forbidden_effects q;
  gq_permitted_resources := gq_permitted_resources q |}.
Definition push_permit (q : GoalRequest) (v : string) : GoalRequest := {|
  gq_objective := gq_objective q; gq_inputs := gq_inputs q; gq_deliverables := gq_deliverables q;
  gq_permitted_effects := gq_permitted_effects q ++ [v]; gq_forbidden_effects := gq_forbidden_effects q;
  gq_permitted_resources := gq_permitted_resources q |}.
Definition push_forbid (q : GoalRequest) (v : string) : GoalRequest := {|
  gq_objective := gq_objective q; gq_inputs := gq_inputs q; gq_deliverables := gq_deliverables q;
  gq_permitted_effects := gq_permitted_effects q; gq_forbidden_effects := gq_forbidden_effects q ++ [v];
  gq_permitted_resources := gq_permitted_resources q |}.
Definition push_resource (q : GoalRequest) (v : string) : GoalRequest := {|
  gq_objective := gq_objective q; gq_inputs := gq_inputs q; gq_deliverables := gq_deliverables q;
  gq_permitted_effects := gq_permitted_effects q; gq_forbidden_effects := gq_forbidden_effects q;
  gq_permitted_resources := gq_permitted_resources q ++ [v] |}.

(** One option of [goal create] with its value. *)
Definition goal_option (word v : string) (q : GoalRequest) : Result GoalRequest Message :=
  if String.eqb word "--objective" then Ok (set_objective q v)
  else if String.eqb word "--input" then let? i := parse_input v in Ok (push_input q i)
  else if String.eqb word "--deliverable" then let? d := parse_deliverable v in Ok (push_deliverable q d)
  else if String.eqb word "--permit" then Ok (push_permit q v)
  else if String.eqb word "--forbid" then Ok (push_forbid q v)
  else Ok (push_resource q v).

Definition goal_options : list string := ["--objective"; "--input"; "--deliverable"; "--permit"; "--forbid"; "--resource"].

Fixpoint goal_options_loop (words : list string) (q : GoalRequest) : Result GoalRequest Message :=
  match words with
  | [] => Ok q
  | word :: rest =>
      if contains goal_options word then
        match rest with
        | v :: rest' =>
            match goal_option word v q with
            | Ok q' => goal_options_loop rest' q'
            | Err e => Err e
            end
        | [] => Err (needs_value word)
        end
      else args_error "unknown goal create option" [word]
  end.

Definition parse_goal_request (words : list string) : Result GoalRequest Message :=
  let? request := goal_options_loop words empty_request in
  if is_empty (trim (gq_objective request)) then args_error "goal create needs --objective" [] else Ok request.

Definition parse_goal (words : list string) : Result CliCommand Message :=
  match words with
  | [] => args_error "goal needs a subcommand: create, get, list or cancel" []
  | "list" :: rest => nothing_more rest "goal list" CliGoalList
  | "get" :: rest =>
      match rest with
      | id :: rest' => nothing_more rest' "goal get" (CliGoalGet id)
      | [] => Err (needs_value "goal get")
      end
  | "cancel" :: rest =>
      match rest with
      | id :: rest' => nothing_more rest' "goal cancel" (CliGoalCancel id)
      | [] => Err (needs_value "goal cancel")
      end
  | "create" :: rest => let? request := parse_goal_request rest in Ok (CliGoalCreate request)
  | other :: _ => args_error "unknown goal subcommand" [other]
  end.

Fixpoint events_options (words : list string) (after : option string) (limit : option Z) :
    Result (option string * option Z) Message :=
  match words with
  | [] => Ok (after, limit)
  | word :: rest =>
      if String.eqb word "--after" then
        match rest with
        | v :: rest' => events_options rest' (Some v) limit
        | [] => Err (needs_value "--after")
        end
      else if String.eqb word "--limit" then
        match rest with
        | v :: rest' =>
            match parse_i64 v with
            | Some n => events_options rest' after (Some n)
            | None => args_error "--limit must be a number" [v]
            end
        | [] => Err (needs_value "--limit")
        end
      else args_error "unknown events option" [word]
  end.

Definition parse_events (words : list string) : Result CliCommand Message :=
  match words with
  | [] => args_error "events needs a subcommand: watch or list" []
  | action :: rest =>
      let? (after, limit) := events_options rest None None in
      if String.eqb action "watch" then Ok (CliEventsWatch after)
      else if String.eqb action "list" then Ok (CliEventsList after limit)
      else args_error "unknown events subcommand" [action]
  end.

Definition parse_command (words : list string) : Result CliCommand Message :=
  match words with
  | [] => args_error "no command given" []
  | "status" :: rest => nothing_more rest "status" CliStatus
  | "version" :: rest => nothing_more rest "version" CliVersion
  | "goal" :: rest => parse_goal rest
  | "dispatch" :: rest => parse_dispatch rest
  | "events" :: rest => parse_events rest
  | other :: _ => args_error "unknown command" [other]
  end.

Definition default_socket : string := path_join (path_join "pantheon-data" "run") "pantheond.sock".

(** [Invocation::parse_with]. *)
Definition parse_with (args : list string) (env : string → option string) : Result (option Invocation) Message :=
  let? taken := take_globals args no_globals in
  match taken with
  | None => Ok None
  | Some g =>
      let? command := parse_command (gl_rest g) in
      let socket := match gl_socket g with
                    | Some s => s
                    | None => default default_socket (env "PANTHEON_SOCKET")
                    end in
      Ok (Some {| iv_socket := socket; iv_json := gl_json g; iv_command_id := gl_command_id g; iv_command := command |})
  end.

(** ** The daemon's options *)

Record Options : Type := {
  opt_data_dir : string;
  opt_socket : string;
  opt_configuration : string;
  opt_fake_executor : bool;
  opt_tick_millis : Z
}.

Definition MAX_SOCKET_PATH : nat := 100.
Definition DEFAULT_TICK_MILLIS : Z := 10000.

(** [str::parse::<u64>()]. *)
Definition tick_of (s : string) : option Z :=
  let digits := match s with String b s' => if Ascii.eqb b "+" then s' else s | EmptyString => s end in
  match unsigned_value digits with
  | Some z => if in_u64 z then Some z else None
  | None => None
  end.

Record OptionsRead : Type := {
  or_data_dir : option string;
  or_socket : option string;
  or_configuration : option string;
  or_fake_executor : bool;
  or_tick_millis : option Z
}.

Definition nothing_read : OptionsRead :=
  {| or_data_dir := None; or_socket := None; or_configuration := None; or_fake_executor := false; or_tick_millis := None |}.

Definition daemon_options : list string := ["--data-dir"; "--socket"; "--config"; "--executor"; "--tick-millis"].

Definition daemon_option (word v : string) (o : OptionsRead) : Result OptionsRead Message :=
  if String.eqb word "--data-dir" then
    Ok {| or_data_dir := Some v; or_socket := or_socket o; or_configuration := or_configuration o;
          or_fake_executor := or_fake_executor o; or_tick_millis := or_tick_millis o |}
  else if String.eqb word "--socket" then
    Ok {| or_data_dir := or_data_dir o; or_socket := Some v; or_configuration := or_configuration o;
          or_fake_executor := or_fake_executor o; or_tick_millis := or_tick_millis o |}
  else if String.eqb word "--config" then
    Ok {| or_data_dir := or_data_dir o; or_socket := or_socket o; or_configuration := Some v;
          or_fake_executor := or_fake_executor o; or_tick_millis := or_tick_millis o |}
  else if String.eqb word "--executor" then
    if String.eqb v "fake" then
      Ok {| or_data_dir := or_data_dir o; or_socket := or_socket o; or_configuration := or_configuration o;
            or_fake_executor := true; or_tick_millis := or_tick_millis o |}
    else args_error "unknown executor; only 'fake' exists" [v]
  else
    match tick_of v with
    | Some n => Ok {| or_data_dir := or_data_dir o; or_socket := or_socket o; or_configuration := or_configuration o;
                      or_fake_executor := or_fake_executor o; or_tick_millis := Some n |}
    | None => args_error "--tick-millis expects a number" [v]
    end.

Fixpoint options_loop (args : list string) (o : OptionsRead) : Result (option OptionsRead) Message :=
  match args with
  | [] => Ok (Some o)
  | arg :: rest =>
      if String.eqb arg "-h" || String.eqb arg "--help" then Ok None
      else if contains daemon_options arg then
        match rest with
        | v :: rest' =>
            match daemon_option arg v o with
            | Ok o' => options_loop rest' o'
            | Err e => Err e
            end
        | [] => Err (needs_value arg)
        end
      else args_error "unrecognized argument" [arg]
  end.

(** [Options::parse]. *)
Definition options_parse (args : list string) (env : string → option string) : Result (option Options) Message :=
  let? found := options_loop args nothing_read in
  match found with
  | None => Ok None
  | Some o =>
      let data_dir := match or_data_dir o with
                      | Some d => d
                      | None => default "pantheon-data" (env "PANTHEON_DATA_DIR")
                      end in
      let options := {|
        opt_data_dir := data_dir;
        opt_socket := default (path_join (path_join data_dir "run") "pantheond.sock") (or_socket o);
        opt_configuration := default (path_join data_dir "configuration.json") (or_configuration o);
        opt_fake_executor := or_fake_executor o;
        opt_tick_millis := default DEFAULT_TICK_MILLIS (or_tick_millis o) |} in
      if Nat.ltb MAX_SOCKET_PATH (String.length (opt_socket options))
      then args_error "the socket path is too long for a Unix socket address" [opt_socket options]
      else Ok (Some options)
  end.

(** [Options::database]. *)
Definition database_path (o : Options) : string := path_join (opt_data_dir o) "pantheon.db".

(** ** Lemmas *)

Definition global_options : list string := ["-h"; "--help"; "--json"; "--socket"; "--command-id"].

Definition with_words (g : Globals) (words : list string) : Globals := {|
  gl_socket := gl_socket g; gl_json := gl_json g; gl_command_id := gl_command_id g; gl_rest := gl_rest g ++ words |}.

(** Two steps at a time. *)
Lemma pairs_ind {A} (P : list A → Prop) :
  P [] → (∀ a, P [a]) → (∀ a b l, P l → P (b :: l) → P (a :: b :: l)) → ∀ l, P l.
Proof.
  intros H0 H1 H2 l. assert (P l ∧ ∀ a, P (a :: l)) as [? _]; [|done].
  induction l as [|b l [IH IHa]]; split; auto.
Qed.

(** What has been read in full does not depend on what follows. *)
Lemma take_globals_app a1 a2 g g1 : take_globals a1 g = Ok (Some g1) → take_globals (a1 ++ a2) g = take_globals a2 g1.
Proof.
  revert g. induction a1 as [|a|a b l IH IHb] using pairs_ind; intros g.
  - by intros [= <-].
  - cbn [take_globals app]. repeat (case_match; [try done|]); by intros [= <-].
  - change ((a :: b :: l) ++ a2) with (a :: (b :: l) ++ a2).
    cbn [take_globals]. destruct (String.eqb a "-h" || String.eqb a "--help"); [done|].
    destruct (String.eqb a "--json"); [apply IHb|]. destruct (String.eqb a "--socket"); [apply IH|].
    destruct (String.eqb a "--command-id"); [apply IH|apply IHb].
Qed.

Lemma plain_word w : w ∉ global_options →
  String.eqb w "-h" || String.eqb w "--help" = false ∧ String.eqb w "--json" = false ∧ String.eqb w "--socket" = false ∧
  String.eqb w "--command-id" = false.
Proof. unfold global_options. intros Hw. rewrite orb_false_iff, !String.eqb_neq. set_solver. Qed.

Lemma take_plain words g : Forall (fun w => w ∉ global_options) words → take_globals words g = Ok (Some (with_words g words)).
Proof.
  intros Hw. revert g. induction Hw as [|w words Hp _ IH]; intros g; cbn [take_globals].
  - unfold with_words. rewrite app_nil_r. by destruct g.
  - apply plain_word in Hp as (-> & -> & -> & ->). rewrite IH. unfold with_words. cbn. by rewrite <-app_assoc.
Qed.

(** *** Goal options *)

Definition said (options : list (string * string)) : list string := flat_map (fun o => [o.1; o.2]) options.

Definition apply_options (options : list (string * string)) (q : GoalRequest) : Result GoalRequest Message :=
  try_fold (fun q o => goal_option o.1 o.2 q) q options.

Lemma goal_options_said options q :
  Forall (fun o => o.1 ∈ goal_options) options → goal_options_loop (said options) q = apply_options options q.
Proof.
  intros Ho. revert q. induction Ho as [|[w v] options Hw _ IH]; intros q; [done|].
  cbn [said flat_map app goal_options_loop fst snd]. apply contains_true in Hw. cbn [fst] in Hw. rewrite Hw.
  unfold apply_options. cbn [try_fold fst snd]. destruct (goal_option w v q) as [q'|e]; [apply IH|done].
Qed.

(** A goal's options are read exactly when they are options with their values, each
    taken in turn, and none is dropped. *)
Theorem goal_request_exact words q :
  parse_goal_request words = Ok q ↔
  ∃ options, words = said options ∧ Forall (fun o => o.1 ∈ goal_options) options ∧
    apply_options options empty_request = Ok q ∧ is_empty (trim (gq_objective q)) = false.
Proof.
  unfold parse_goal_request. split.
  - intros (q' & Hl & Hq)%try_bind_Ok. destruct (is_empty _) eqn:He; [done|]. injection Hq as ->.
    cut (∃ options, words = said options ∧ Forall (fun o => o.1 ∈ goal_options) options ∧ apply_options options empty_request = Ok q).
    { intros (options & ? & ? & ?). by exists options. }
    clear He. revert Hl. generalize empty_request.
    induction words as [|a|a b l IH _] using pairs_ind; intros q0; cbn [goal_options_loop].
    + intros [= ->]. by exists [].
    + by destruct (contains goal_options a).
    + destruct (contains goal_options a) eqn:Ha; [|done]. destruct (goal_option a b q0) as [q1|] eqn:Hg; [|done].
      intros (options & -> & Ho & Hf)%IH. exists ((a, b) :: options). split; [done|]. split; [constructor; [by apply contains_true|done]|].
      unfold apply_options. cbn [try_fold fst snd]. by rewrite Hg.
  - intros (options & -> & Ho & Hf & He). rewrite goal_options_said by done. rewrite Hf. cbn [try_bind]. by rewrite He.
Qed.

(** *** Spelling an invocation *)

Definition deliverable_text (d : string * string * bool) : string :=
  d.1.1 +:+ (":" +:+ (d.1.2 +:+ (if d.2 then EmptyString else ":optional"))).

Definition request_options (q : GoalRequest) : list (string * string) :=
  [("--objective", gq_objective q)] ++
  map (fun i => ("--input", i.1 +:+ ("=" +:+ i.2))) (gq_inputs q) ++
  map (fun d => ("--deliverable", deliverable_text d)) (gq_deliverables q) ++
  map (fun e => ("--permit", e)) (gq_permitted_effects q) ++
  map (fun e => ("--forbid", e)) (gq_forbidden_effects q) ++
  map (fun r => ("--resource", r)) (gq_permitted_resources q).

Definition option_words (name : string) (v : option string) : list string :=
  match v with Some v => [name; v] | None => [] end.

Definition command_words (c : CliCommand) : list string :=
  match c with
  | CliStatus => ["status"]
  | CliVersion => ["version"]
  | CliGoalCreate q => ["goal"; "create"] ++ said (request_options q)
  | CliGoalGet id => ["goal"; "get"; id]
  | CliGoalList => ["goal"; "list"]
  | CliGoalCancel id => ["goal"; "cancel"; id]
  | CliDispatchStatus => ["dispatch"; "status"]
  | CliDispatchPause => ["dispatch"; "pause"]
  | CliDispatchResume => ["dispatch"; "resume"]
  | CliEventsList after limit => ["events"; "list"] ++ option_words "--after" after ++ option_words "--limit" (i64_to_string <$> limit)
  | CliEventsWatch after => ["events"; "watch"] ++ option_words "--after" after
  end.

Definition spelled (v : Invocation) : list string :=
  ["--socket"; iv_socket v] ++ (if iv_json v then ["--json"] else []) ++ option_words "--command-id" (iv_command_id v) ++
  command_words (iv_command v).

(** What can be written on a command line: no word is mistaken for a global option, and
    the separators of a pair stand in none of its parts. *)
Definition writable_request (q : GoalRequest) : Prop :=
  is_empty (trim (gq_objective q)) = false ∧ (∀ i, i ∈ gq_inputs q → contains_byte "=" i.1 = false) ∧
  (∀ d, d ∈ gq_deliverables q → contains_byte ":" d.1.1 = false ∧ contains_byte ":" d.1.2 = false).

Definition writable (c : CliCommand) : Prop :=
  Forall (fun w => w ∉ global_options) (command_words c) ∧
  match c with
  | CliGoalCreate q => writable_request q
  | CliEventsList _ (Some limit) => in_i64 limit = true
  | _ => True
  end.

Lemma split_on_app sep a b : contains_byte sep a = false → split_on sep (a +:+ String sep b) = a :: split_on sep b.
Proof.
  intros Ha. pose proof (split_on_no_sep sep a) as _. induction a as [|c a IH]; cbn [String.append split_on].
  - by rewrite Ascii.eqb_refl.
  - cbn [contains_byte] in Ha. apply orb_false_iff in Ha as [Hc Ha]. rewrite Hc. by rewrite (IH Ha).
Qed.

Lemma split_on_whole sep a : contains_byte sep a = false → split_on sep a = [a].
Proof.
  induction a as [|c a IH]; cbn [split_on contains_byte]; [done|]. intros [Hc Ha]%orb_false_iff. rewrite Hc. by rewrite (IH Ha).
Qed.

Lemma parse_deliverable_text d :
  contains_byte ":" d.1.1 = false → contains_byte ":" d.1.2 = false → parse_deliverable (deliverable_text d) = Ok d.
Proof.
  destruct d as [[name kind] required]. cbn [fst snd]. intros Hn Hk. unfold parse_deliverable, deliverable_text. cbn [fst snd].
  change (":" +:+ ?x) with (String ":" x). rewrite split_on_app by done. destruct required.
  - rewrite append_nil_r. by rewrite split_on_whole.
  - change ":optional" with (String ":" "optional"). by rewrite split_on_app.
Qed.

Lemma split_once_fresh sep a b : contains_byte sep a = false → split_once sep (a +:+ String sep b) = Some (a, b).
Proof.
  induction a as [|c a IH]; cbn [String.append split_once contains_byte]; [by rewrite Ascii.eqb_refl|].
  intros [Hc Ha]%orb_false_iff. by rewrite Hc, IH.
Qed.

(** Every list of a request, from its options. *)
Lemma apply_options_app o1 o2 q :
  apply_options (o1 ++ o2) q = let? q' := apply_options o1 q in apply_options o2 q'.
Proof.
  unfold apply_options. revert q. induction o1 as [|o o1 IH]; intros q; [done|]. cbn [app try_fold].
  destruct (goal_option _ _ q); [apply IH|done].
Qed.

Lemma apply_pushed {X} w (text : X → string) (push : GoalRequest → X → GoalRequest) l q :
  (∀ x q, x ∈ l → goal_option w (text x) q = Ok (push q x)) → apply_options (map (fun x => (w, text x)) l) q = Ok (fold_left push l q).
Proof.
  unfold apply_options. revert q. induction l as [|x l IH]; intros q Hw; [done|]. cbn [map try_fold fst snd fold_left].
  rewrite Hw by left. apply IH. intros y q' Hy. apply Hw. by right.
Qed.

(** A list pushed one by one is appended. *)
Ltac pushes l :=
  match goal with |- context [fold_left _ l ?q] => revert q end; induction l as [|x l IH]; intros q; cbn [fold_left];
  [by destruct q; cbn; rewrite app_nil_r | rewrite IH; cbn; by rewrite <-app_assoc].

Lemma push_input_all l q : fold_left push_input l q =
  {| gq_objective := gq_objective q; gq_inputs := gq_inputs q ++ l; gq_deliverables := gq_deliverables q; gq_permitted_effects := gq_permitted_effects q; gq_forbidden_effects := gq_forbidden_effects q; gq_permitted_resources := gq_permitted_resources q |}.
Proof. pushes l. Qed.

Lemma push_deliverable_all l q : fold_left push_deliverable l q =
  {| gq_objective := gq_objective q; gq_inputs := gq_inputs q; gq_deliverables := gq_deliverables q ++ l; gq_permitted_effects := gq_permitted_effects q; gq_forbidden_effects := gq_forbidden_effects q; gq_permitted_resources := gq_permitted_resources q |}.
Proof. pushes l. Qed.

Lemma push_permit_all l q : fold_left push_permit l q =
  {| gq_objective := gq_objective q; gq_inputs := gq_inputs q; gq_deliverables := gq_deliverables q; gq_permitted_effects := gq_permitted_effects q ++ l; gq_forbidden_effects := gq_forbidden_effects q; gq_permitted_resources := gq_permitted_resources q |}.
Proof. pushes l. Qed.

Lemma push_forbid_all l q : fold_left push_forbid l q =
  {| gq_objective := gq_objective q; gq_inputs := gq_inputs q; gq_deliverables := gq_deliverables q; gq_permitted_effects := gq_permitted_effects q; gq_forbidden_effects := gq_forbidden_effects q ++ l; gq_permitted_resources := gq_permitted_resources q |}.
Proof. pushes l. Qed.

Lemma push_resource_all l q : fold_left push_resource l q =
  {| gq_objective := gq_objective q; gq_inputs := gq_inputs q; gq_deliverables := gq_deliverables q; gq_permitted_effects := gq_permitted_effects q; gq_forbidden_effects := gq_forbidden_effects q; gq_permitted_resources := gq_permitted_resources q ++ l |}.
Proof. pushes l. Qed.

Lemma apply_request q : writable_request q → apply_options (request_options q) empty_request = Ok q.
Proof.
  destruct q as [objective inputs deliverables permits forbids resources]. intros (_ & Hi & Hd). cbn [gq_inputs gq_deliverables] in *.
  unfold request_options. cbn [gq_objective gq_inputs gq_deliverables gq_permitted_effects gq_forbidden_effects gq_permitted_resources].
  rewrite apply_options_app.
  change (apply_options [("--objective", objective)] empty_request) with (@Ok GoalRequest Message (set_objective empty_request objective)).
  cbn [try_bind]. rewrite apply_options_app, (apply_pushed _ _ push_input); cbn [try_bind].
  2:{ intros [a b] q Hx. change (goal_option "--input" _ q) with (let? i := parse_input (a +:+ String "=" b) in Ok (push_input q i)).
      unfold parse_input. rewrite split_once_fresh; [done|]. apply (Hi _ Hx). }
  rewrite apply_options_app, (apply_pushed _ _ push_deliverable); cbn [try_bind].
  2:{ intros d q Hx. change (goal_option "--deliverable" _ q) with
        (let? d := parse_deliverable (deliverable_text d) in Ok (push_deliverable q d)).
      destruct (Hd _ Hx). by rewrite parse_deliverable_text. }
  rewrite apply_options_app, (apply_pushed "--permit" id push_permit) by done. cbn [try_bind].
  rewrite apply_options_app, (apply_pushed "--forbid" id push_forbid) by done. cbn [try_bind].
  rewrite (apply_pushed "--resource" id push_resource) by done.
  by rewrite push_resource_all, push_forbid_all, push_permit_all, push_deliverable_all, push_input_all.
Qed.

Lemma parse_command_words c : writable c → parse_command (command_words c) = Ok c.
Proof.
  intros [_ Hw]. destruct c as [| |q|id| |id| | | |after limit|after]; try done.
  - cbn [command_words app]. change (parse_command ("goal" :: "create" :: ?w)) with (let? q := parse_goal_request w in Ok (CliGoalCreate q)).
    assert (parse_goal_request (said (request_options q)) = Ok q) as ->; [|done].
    apply goal_request_exact. exists (request_options q). split; [done|]. split; [|split; [by apply apply_request|apply Hw]].
    unfold request_options. repeat (apply Forall_app; split); rewrite ?Forall_map; [by repeat constructor|..];
      apply Forall_true; intros x; cbn [fst]; unfold goal_options; set_solver.
  - destruct after as [a|], limit as [l|]; cbn in Hw |- *; rewrite ?parse_i64_to_string by done; done.
  - by destruct after.
Qed.

(** Spelling an invocation. Whatever an operator can write, socket, output mode,
    command identity and command, the Goal with all its inputs, deliverables, effects and
    resources included, is read back exactly as it was meant, whatever the environment. *)
Theorem spelled_invocation_parsed v env : writable (iv_command v) → parse_with (spelled v) env = Ok (Some v).
Proof.
  intros Hw. pose proof Hw as [Hplain _]. unfold parse_with, spelled. destruct v as [socket json id c]. cbn [iv_socket iv_json iv_command_id iv_command] in *.
  set (g1 := {| gl_socket := Some socket; gl_json := json; gl_command_id := id; gl_rest := [] |}).
  assert (take_globals (["--socket"; socket] ++ (if json then ["--json"] else []) ++ option_words "--command-id" id) no_globals = Ok (Some g1))
    as Hg by (destruct json, id; done).
  rewrite !app_assoc, <-(app_assoc ["--socket"; socket]). rewrite (take_globals_app _ _ _ _ Hg), take_plain by done.
  cbn [try_bind with_words gl_rest gl_socket gl_json gl_command_id g1 app]. by rewrite parse_command_words.
Qed.

Definition with_front (words : list string) (g : Globals) : Globals := {|
  gl_socket := gl_socket g; gl_json := gl_json g; gl_command_id := gl_command_id g; gl_rest := words ++ gl_rest g |}.

Lemma take_globals_cons arg rest g :
  take_globals (arg :: rest) g =
  if String.eqb arg "-h" || String.eqb arg "--help" then Ok None
  else if String.eqb arg "--json" then
    take_globals rest {| gl_socket := gl_socket g; gl_json := true; gl_command_id := gl_command_id g; gl_rest := gl_rest g |}
  else if String.eqb arg "--socket" then
    match rest with
    | v :: rest' =>
        take_globals rest' {| gl_socket := Some v; gl_json := gl_json g; gl_command_id := gl_command_id g; gl_rest := gl_rest g |}
    | [] => Err (needs_value "--socket")
    end
  else if String.eqb arg "--command-id" then
    match rest with
    | v :: rest' =>
        take_globals rest' {| gl_socket := gl_socket g; gl_json := gl_json g; gl_command_id := Some v; gl_rest := gl_rest g |}
    | [] => Err (needs_value "--command-id")
    end
  else take_globals rest (with_words g [arg]).
Proof. done. Qed.

Lemma take_globals_front words a g :
  take_globals a (with_front words g) =
  match take_globals a g with Ok (Some h) => Ok (Some (with_front words h)) | r => r end.
Proof.
  revert g. induction a as [|a|a b l IH IHb] using pairs_ind; intros g.
  - done.
  - cbn [take_globals]. repeat (case_match; try done); simplify_eq/=; unfold with_front; cbn; by rewrite ?app_assoc.
  - rewrite !(take_globals_cons a). destruct (String.eqb a "-h" || String.eqb a "--help"); [done|].
    destruct (String.eqb a "--json"); [by rewrite <-IHb|]. destruct (String.eqb a "--socket"); [by rewrite <-IH|].
    destruct (String.eqb a "--command-id"); [by rewrite <-IH|].
    rewrite <-IHb. unfold with_front, with_words. cbn [gl_socket gl_json gl_command_id gl_rest]. by rewrite app_assoc.
Qed.

(** The globals mean the same before the words of the command and among them. *)
Theorem globals_anywhere words globals rest g env :
  Forall (fun w => w ∉ global_options) words → take_globals globals no_globals = Ok (Some g) → gl_rest g = [] →
  parse_with (words ++ globals ++ rest) env = parse_with (globals ++ words ++ rest) env.
Proof.
  intros Hw Hg Hr. unfold parse_with. rewrite (take_globals_app globals (words ++ rest) _ _ Hg).
  rewrite (take_globals_app words (globals ++ rest) _ _ (take_plain _ no_globals Hw)), (take_globals_app words rest _ _ (take_plain _ g Hw)).
  change (with_words no_globals words) with {| gl_socket := None; gl_json := false; gl_command_id := None; gl_rest := words |}.
  assert ({| gl_socket := None; gl_json := false; gl_command_id := None; gl_rest := words |} = with_front words no_globals) as ->
    by (unfold with_front; cbn; by rewrite app_nil_r).
  assert (take_globals globals (with_front words no_globals) = Ok (Some (with_front words g))) as Hf
    by (by rewrite take_globals_front, Hg).
  rewrite (take_globals_app _ _ _ _ Hf). unfold with_front, with_words. by rewrite Hr, app_nil_r.
Qed.

(** *** What is taken without meaning anything *)

Definition no_env (_ : string) : option string := None.

(** A limit on a watch, and whatever follows [optional] in a deliverable, are accepted
    and dropped; a word that spells a global is taken for it even as the value of another
    option. *)
Example words_without_effect :
  parse_with ["events"; "watch"; "--limit"; "3"] no_env = parse_with ["events"; "watch"] no_env ∧
  parse_deliverable "report:file:optional:required" = Ok ("report", "file", false) ∧
  parse_with ["goal"; "create"; "--objective"; "--json"] no_env = Err (needs_value "--objective").
Proof. split; [vm_compute; reflexivity|]. split; vm_compute; reflexivity. Qed.

(** *** The daemon *)

Lemma daemon_option_sound word v o o' :
  daemon_option word v o = Ok o' →
  (or_fake_executor o' = true → or_fake_executor o = true ∨ (word = "--executor" ∧ v = "fake")) ∨ word ∉ daemon_options.
Proof.
  destruct (decide (word ∈ daemon_options)) as [Hin|Hin]; [left|by right]. unfold daemon_option in *.
  unfold daemon_options in Hin. rewrite !elem_of_cons in Hin.
  destruct Hin as [->|[->|[->|[->|[->|[]%not_elem_of_nil]]]]]; cbn in *; intros; simplify_eq/=; try by left.
  - destruct (String.eqb_spec v "fake"); [by right|]. by destruct (String.eqb v "fake").
  - case_match; simplify_eq/=; by left.
Qed.

(** What the loop has read of the words. *)
Lemma options_loop_sound args o o' :
  options_loop args o = Ok (Some o') →
  (or_fake_executor o' = true → or_fake_executor o = true ∨ ∃ l r, args = l ++ "--executor" :: "fake" :: r) ∧
  (∀ n, or_tick_millis o' = Some n → or_tick_millis o = Some n ∨ in_u64 n = true).
Proof.
  revert o. induction args as [|a|a b l IH _] using pairs_ind; intros o; cbn [options_loop].
  - intros [= <-]. split; [by left|by left].
  - by repeat case_match.
  - destruct (_ || _); [done|]. destruct (contains daemon_options a) eqn:Ha; [|done]. apply contains_true in Ha.
    destruct (daemon_option a b o) as [o1|] eqn:Ho; [|done]. intros [Hf Ht]%IH. split.
    + intros [Hf1|(p & q & ->)]%Hf; [|by right; exists (a :: b :: p), q].
      apply daemon_option_sound in Ho as [Ho|]; [|done]. destruct (Ho Hf1) as [|[-> ->]]; [by left|right]. by exists [], l.
    + intros n [Hn|]%Ht; [|by right]. unfold daemon_option in Ho. repeat (case_match; simplify_eq/=; try (by left)).
      right. unfold tick_of in *. repeat (case_match; simplify_eq/=; try done).
Qed.

(** A daemon that starts has a socket path the system can hold and a tick of 64 bits,
    and runs the fake executor only when it was told to, word for word. *)
Theorem options_sound args env o :
  options_parse args env = Ok (Some o) →
  String.length (opt_socket o) ≤ MAX_SOCKET_PATH ∧ in_u64 (opt_tick_millis o) = true ∧
  (opt_fake_executor o = true → ∃ l r, args = l ++ "--executor" :: "fake" :: r).
Proof.
  unfold options_parse. intros ([found|] & Hl & Ho)%try_bind_Ok; [|done]. cbn zeta in Ho.
  case_match eqn:Hlen; [done|]. injection Ho as <-. cbn [opt_socket opt_tick_millis opt_fake_executor] in *.
  apply Nat.ltb_ge in Hlen. apply options_loop_sound in Hl as [Hf Ht]. split_and!; [done| |].
  - destruct (or_tick_millis found) as [n|]; [|done]. by destruct (Ht n eq_refl).
  - intros [|]%Hf; done.
Qed.

(** *** A concrete invocation *)

Definition sample_invocation : Invocation := {|
  iv_socket := "/run/p.sock"; iv_json := true; iv_command_id := Some "retry-1";
  iv_command := CliGoalCreate {|
    gq_objective := "ship it"; gq_inputs := [("source", "repo:main=x")]; gq_deliverables := [("report", "file", true); ("log", "file", false)];
    gq_permitted_effects := ["git.commit"; "net"]; gq_forbidden_effects := ["git.push"]; gq_permitted_resources := ["src/**"] |} |}.

Lemma spelled_invocation_parsed_witness :
  parse_with (spelled sample_invocation) no_env = Ok (Some sample_invocation).
Proof.
  apply (spelled_invocation_parsed sample_invocation no_env). split.
  - repeat constructor; apply (bool_decide_unpack _); vm_compute; exact I.
  - split; [vm_compute; reflexivity|]. split; [intros i Hi|intros d Hd].
    + apply list_elem_of_singleton in Hi as ->. reflexivity.
    + apply elem_of_cons in Hd as [->|Hd]; [split; reflexivity|]. apply list_elem_of_singleton in Hd as ->. split; reflexivity.
Defined.
