(* ===== verification/OperatorApi.v ===== *)
(** * Operator Control over HTTP ([pantheon-operator-api], [pantheon-operator-protocol])

    The handlers: what a request must carry, the operation it is turned into, and the
    response with its status, its entity tag and its body as a value of the protocol's
    types. Reading a header's text and decoding a JSON body are the [http] and [serde]
    crates' and arguments here; so is SQLite's answer to [PRAGMA user_version]. *)

From Stdlib Require Import ZArith NArith Ascii Lia.
From S2P Require Import Prelude Utf8 Canonical Parse ParseFacts Digest Goal Task Scheduling Sql Schema Transaction Command StoreBase StoreConfiguration StoreScheduling StoreOperator StoreHistory EngineBase Operator EngineConfiguration EnginePlanning EngineScheduling Watch.

(** ** The protocol's types *)

Record GoalInputPayload : Type := { gip_name : string; gip_reference : string }.
Record DeliverablePayload : Type := { dlp_name : string; dlp_kind : string; dlp_required : bool }.
Record GoalConstraintsPayload : Type := {
  gcp_permitted_effects : list string;
  gcp_forbidden_effects : list string;
  gcp_permitted_resources : list string
}.
Record GoalSpecPayload : Type := {
  gsp_objective : string;
  gsp_inputs : list GoalInputPayload;
  gsp_deliverables : list DeliverablePayload;
  gsp_constraints : GoalConstraintsPayload
}.

Record TaskResponse : Type := {
  tr_id : string;
  tr_phase : string;
  tr_created_graph_revision : Z;
  tr_spec_digest : string
}.
Record GoalResponse : Type := {
  gr_id : string;
  gr_phase : string;
  gr_goal_revision : Z;
  gr_revision : Z;
  gr_goal : GoalSpecPayload;
  gr_tasks : list TaskResponse
}.
Record GoalSummaryResponse : Type := { gsr_id : string; gsr_phase : string; gsr_goal_revision : Z; gsr_revision : Z }.
Record DispatchResponse : Type := {
  dr_desired_mode : string;
  dr_revision : Z;
  dr_effective_can_dispatch : bool;
  dr_blocked_by : list string
}.
Record ReadinessResponse : Type := { rr_ready : bool; rr_components : list (string * string * option string) }.
Record SystemResponse : Type := {
  sr_daemon_version : string;
  sr_api_versions : list string;
  sr_schema_version : Z;
  sr_command_epoch : string;
  sr_journal : string * option Z;
  sr_active_configuration : option (Z * string * bool);
  sr_readiness : ReadinessResponse
}.

Definition problem_title (c : ProblemCode) : string :=
  match c with
  | PcNotFound => "Resource not found"
  | PcValidation => "Request is not valid"
  | PcPreconditionRequired => "Required precondition is missing"
  | PcStaleRevision => "Revision precondition failed"
  | PcStaleCommandEpoch => "Command epoch is not current"
  | PcConflict => "Current state forbids this request"
  | PcCursorGone => "Requested journal position is unreachable"
  | PcTemporarilyUnavailable => "Control plane is not ready"
  | PcInternal => "Internal error"
  end.

Definition problem_type_uri (c : ProblemCode) : string := "urn:pantheon:problem:" +:+ problem_code_as_str c.

(** The human half of a problem: a failure's own text, or a sentence. *)
Inductive ProblemDetail : Type :=
| OfFailure (e : OperatorError)
| OfSentence (m : Message).

Record Problem : Type := {
  pb_type_uri : string;
  pb_title : string;
  pb_status : Z;
  pb_detail : ProblemDetail;
  pb_code : ProblemCode
}.

Definition problem_new (code : ProblemCode) (detail : ProblemDetail) : Problem := {|
  pb_type_uri := problem_type_uri code; pb_title := problem_title code; pb_status := problem_status code;
  pb_detail := detail; pb_code := code |}.

(** ** Requests and responses *)

(** [hr_header name] is the first value under a name, as bytes. *)
Record HttpRequest : Type := { hr_header : string → option string; hr_body : string }.

Inductive Body : Type :=
| BodyGoal (g : GoalResponse)
| BodyGoals (goals : list GoalSummaryResponse) (snapshot_cursor : string)
| BodyDispatch (d : DispatchResponse)
| BodyEvents (events : list EventResponse) (next_cursor : string)
| BodySystem (s : SystemResponse)
| BodyReadiness (r : ReadinessResponse)
| BodyLiveness (live : bool)
| BodyProblem (p : Problem).

Record HttpResponse : Type := { rsp_status : Z; rsp_etag : option string; rsp_body : Body }.

Definition COMMAND_ID_HEADER : string := "pantheon-command-id".
Definition COMMAND_EPOCH_HEADER : string := "pantheon-command-epoch".
Definition IF_MATCH : string := "if-match".
Definition API_PREFIX : string := "/api/v1".
Definition API_VERSIONS : list string := ["v1"].
Definition DAEMON_VERSION : string := "0.1.0".

Definition invalid (m : Message) : Problem := problem_new PcValidation (OfSentence m).
Definition precondition_required (m : Message) : Problem := problem_new PcPreconditionRequired (OfSentence m).

(** [From<OperatorError> for ProblemResponse]. *)
Definition problem_from (err : OperatorError) : Problem :=
  let (code, told) := problem_of err in
  problem_new code
    (match told with
     | Some e => OfFailure e
     | None => OfSentence (message "the daemon could not complete this request" [])
     end).

Definition problem_response (p : Problem) : HttpResponse :=
  {| rsp_status := pb_status p; rsp_etag := None; rsp_body := BodyProblem p |}.

(** ** Views on the wire *)

Definition payload_from (spec : GoalSpec) : GoalSpecPayload := {|
  gsp_objective := goal_objective spec;
  gsp_inputs := map (fun i => {| gip_name := goal_input_name i; gip_reference := goal_input_reference i |}) (goal_inputs spec);
  gsp_deliverables := map (fun d => {| dlp_name := deliverable_name d; dlp_kind := deliverable_kind d;
                                       dlp_required := deliverable_required d |}) (goal_deliverables spec);
  gsp_constraints := {| gcp_permitted_effects := gc_permitted_effects (goal_constraints spec);
                        gcp_forbidden_effects := gc_forbidden_effects (goal_constraints spec);
                        gcp_permitted_resources := gc_permitted_resources (goal_constraints spec) |} |}.

Definition spec_from (payload : GoalSpecPayload) : Result GoalSpec Problem :=
  if is_empty (trim (gsp_objective payload)) then Err (invalid (message "goal.objective must not be empty" []))
  else Ok {|
    goal_objective := gsp_objective payload;
    goal_inputs := map (fun i => {| goal_input_name := gip_name i; goal_input_reference := gip_reference i |}) (gsp_inputs payload);
    goal_deliverables := map (fun d => {| deliverable_name := dlp_name d; deliverable_kind := dlp_kind d;
                                          deliverable_required := dlp_required d |}) (gsp_deliverables payload);
    goal_constraints := {| gc_permitted_effects := gcp_permitted_effects (gsp_constraints payload);
                           gc_forbidden_effects := gcp_forbidden_effects (gsp_constraints payload);
                           gc_permitted_resources := gcp_permitted_resources (gsp_constraints payload) |} |}.

Definition task_response (t : TaskView) : TaskResponse := {|
  tr_id := tv_id t; tr_phase := task_phase_as_str (tv_phase t); tr_created_graph_revision := tv_created_graph_revision t;
  tr_spec_digest := tv_spec_digest t |}.

Definition response (view : GoalView) : GoalResponse := {|
  gr_id := gv_id view; gr_phase := goal_phase_as_str (gv_phase view); gr_goal_revision := gv_goal_revision view;
  gr_revision := gv_revision view; gr_goal := payload_from (gv_spec view); gr_tasks := map task_response (gv_tasks view) |}.

Definition goals_list_response (page : GoalsPage) : Body :=
  BodyGoals (map (fun g => {| gsr_id := gsu_id g; gsr_phase := goal_phase_as_str (gsu_phase g);
                              gsr_goal_revision := gsu_goal_revision g; gsr_revision := gsu_revision g |}) (gp_goals page))
    (to_wire (gp_snapshot_cursor page)).

Definition readiness_response (r : ReadinessReport) : ReadinessResponse := {|
  rr_ready := rd_ready r;
  rr_components := map (fun c => (rc_name c, component_state_as_str (rc_state c), rc_detail c)) (rd_components r) |}.

Definition dispatch_body (view : DispatchView) : Body := BodyDispatch {|
  dr_desired_mode := dispatch_mode_as_str (dv_desired_mode view); dr_revision := dv_revision view;
  dr_effective_can_dispatch := dv_effective_can_dispatch view; dr_blocked_by := dv_blocked_by view |}.

Definition quote_mark : string := String "034" EmptyString.
Definition goal_etag (view : GoalView) : string := quote_mark +:+ (gv_id view +:+ ("-" +:+ (i64_to_string (gv_revision view) +:+ quote_mark))).
Definition dispatch_etag (revision : Z) : string := quote_mark +:+ ("dispatch-" +:+ (i64_to_string revision +:+ quote_mark)).

(** The text before a closing quotation mark. *)
Fixpoint strip_quote (s : string) : option string :=
  match s with
  | EmptyString => None
  | String b EmptyString => if Ascii.eqb b "034" then Some EmptyString else None
  | String b rest => String b <$> strip_quote rest
  end.

(** ** Handlers *)

Section Handlers.
Context `{Sha256}.
Variable slots : nat → Slot.
Variable header_value : string → option string. (* HeaderValue::from_str *)
Variable header_text : string → option string. (* HeaderValue::to_str *)
Variable decode_create : string → Result GoalSpecPayload string. (* serde_json::from_slice *)
Variable user_version : Database → Result Z StoreError. (* PRAGMA user_version *)

Definition Handler : Type := World → HttpResponse * World.

(** [blocking] and the two arms of its answer. *)
Definition respond {A} (m : Eng OperatorError A) (ok : A → HttpResponse) : Handler := fun w =>
  match m w with
  | (Ok a, w') => (ok a, w')
  | (Err e, w') => (problem_response (problem_from e), w')
  end.

Definition refuse (p : Problem) : Handler := fun w => (problem_response p, w).

(** *** The identity a mutation carries *)

Definition required (r : HttpRequest) (name : string) : Result string Problem :=
  match hr_header r name with
  | None => Err (precondition_required (message "is required for a mutation" [name]))
  | Some value =>
      match header_text value with
      | None => Err (precondition_required (message "must be ASCII" [name]))
      | Some text =>
          if is_empty text then Err (precondition_required (message "must not be empty" [name])) else Ok text
      end
  end.

Definition identity_from_headers (r : HttpRequest) (request_hash : string) : Result CommandIdentity Problem :=
  let? epoch := required r COMMAND_EPOCH_HEADER in
  let? id := required r COMMAND_ID_HEADER in
  Ok {| ci_epoch := epoch; ci_id := id; ci_request_hash := request_hash |}.

Definition hashed_request (method path : string) (body : Value) : Value :=
  object [("method", Str method); ("path", Str path); ("body", body)].

Definition request_hash (method path : string) (body : Value) : string :=
  digest_bytes (digest_of (to_canonical_bytes (hashed_request method path body))).

(** The tag goes out when it can be a header. *)
Definition goal_response (status : Z) (view : GoalView) : HttpResponse :=
  {| rsp_status := status; rsp_etag := header_value (goal_etag view); rsp_body := BodyGoal (response view) |}.

Definition dispatch_response (status : Z) (view : DispatchView) : HttpResponse :=
  {| rsp_status := status; rsp_etag := header_value (dispatch_etag (dv_revision view)); rsp_body := dispatch_body view |}.

(** *** Goals *)

Definition goals_list : Handler :=
  respond (service_goals slots) (fun page => {| rsp_status := 200; rsp_etag := None; rsp_body := goals_list_response page |}).

Definition goals_get (goal_id : string) : Handler := respond (service_goal slots goal_id) (goal_response 200).

Definition goals_create (r : HttpRequest) : Handler :=
  match decode_create (hr_body r) with
  | Err e => refuse (invalid (message e []))
  | Ok payload =>
      match spec_from payload with
      | Err p => refuse p
      | Ok spec =>
          match identity_from_headers r (request_hash "POST" "/api/v1/goals" (goal_to_value spec)) with
          | Err p => refuse p
          | Ok caller => respond (service_create_goal slots caller spec) (goal_response 201)
          end
      end
  end.

Definition goals_cancel (goal_id : string) (r : HttpRequest) : Handler :=
  match identity_from_headers r (request_hash "POST" "/api/v1/goals/{id}/actions/cancel" (Str goal_id)) with
  | Err p => refuse p
  | Ok caller => respond (service_cancel_goal slots caller goal_id) (goal_response 202)
  end.

(** *** Dispatch *)

Definition expected_revision (r : HttpRequest) : Result Z Problem :=
  match hr_header r IF_MATCH with
  | None => Err (precondition_required (message "dispatch desired-state changes require If-Match" []))
  | Some supplied =>
      match header_text supplied with
      | None => Err (invalid (message "If-Match must be a valid ETag string" []))
      | Some text =>
          let named := rest ← strip_prefix (quote_mark +:+ "dispatch-") (trim text); strip_quote rest in
          match named with
          | None => Err (invalid (message "If-Match is not this resource's ETag" [text]))
          | Some number =>
              match parse_i64 number with
              | None => Err (invalid (message "If-Match is not this resource's ETag" [text]))
              | Some revision => Ok revision
              end
          end
      end
  end.

Definition set_mode (path : string) (apply : CommandIdentity → Z → Eng OperatorError DispatchView) (r : HttpRequest) : Handler :=
  match expected_revision r with
  | Err p => refuse p
  | Ok expected =>
      match identity_from_headers r (request_hash "POST" path (Str path)) with
      | Err p => refuse p
      | Ok caller => respond (apply caller expected) (dispatch_response 200)
      end
  end.

Definition dispatch_get : Handler := respond (dispatch_status slots) (dispatch_response 200).
Definition dispatch_pause : HttpRequest → Handler := set_mode "/api/v1/dispatch/actions/pause" (pause_dispatch slots).
Definition dispatch_resume : HttpRequest → Handler := set_mode "/api/v1/dispatch/actions/resume" (resume_dispatch slots).

(** *** Events, system, health *)

Definition events_list (after : option string) (limit : option Z) : Handler :=
  respond (list_events slots after limit)
    (fun page => {| rsp_status := 200; rsp_etag := None; rsp_body := BodyEvents page.1 page.2 |}).

Definition active_configuration (w : World) : option (Z * string * bool) :=
  match authority_snapshot w with
  | (Ok snapshot, _) =>
      Some (active_activation_sequence (snap_active snapshot), to_hex (active_content_digest (snap_active snapshot)),
            match snap_compiled snapshot with Some _ => true | None => false end)
  | (Err _, _) => None
  end.

Definition service_system : Eng OperatorError SystemResponse :=
  let@ head := service_journal_head slots in
  let@ schema_version := of_store (eng_read slots (fun _ => user_version)) in
  let@ epoch := of_store (eng_read slots (fun _ => read_restore_generation)) in
  fun w =>
    let journal := journal_view_from_head head in
    (Ok {| sr_daemon_version := DAEMON_VERSION; sr_api_versions := API_VERSIONS; sr_schema_version := schema_version;
           sr_command_epoch := epoch; sr_journal := (jv_epoch journal, jv_latest_sequence journal);
           sr_active_configuration := active_configuration w; sr_readiness := readiness_response (readiness w) |}, w).

Definition system_get : Handler :=
  respond service_system (fun s => {| rsp_status := 200; rsp_etag := None; rsp_body := BodySystem s |}).

Definition health_live : Handler := fun w => ({| rsp_status := 200; rsp_etag := None; rsp_body := BodyLiveness true |}, w).

Definition health_ready : Handler := fun w =>
  let report := readiness w in
  ({| rsp_status := if rd_ready report then 200 else 503; rsp_etag := None;
      rsp_body := BodyReadiness (readiness_response report) |}, w).

(** *** The routes *)

Inductive Route : Type :=
| HealthLive
| HealthReady
| GetSystem
| GetGoals
| PostGoals
| GetGoal (id : string)
| PostCancel (id : string)
| GetDispatch
| PostPause
| PostResume
| GetEvents (after : option string) (limit : option Z).

(** The table of [router]; the stream of [/events/watch] is [Watch.watch]. *)
Definition router (route : Route) (r : HttpRequest) : Handler :=
  match route with
  | HealthLive => health_live
  | HealthReady => health_ready
  | GetSystem => system_get
  | GetGoals => goals_list
  | PostGoals => goals_create r
  | GetGoal id => goals_get id
  | PostCancel id => goals_cancel id r
  | GetDispatch => dispatch_get
  | PostPause => dispatch_pause r
  | PostResume => dispatch_resume r
  | GetEvents after limit => events_list after limit
  end.

Definition mutation (route : Route) : bool :=
  match route with PostGoals | PostCancel _ | PostPause | PostResume => true | _ => false end.
End Handlers.

(** ** Lemmas *)

(** *** The entity tag of dispatch *)

Lemma strip_quote_app s : strip_quote (s +:+ quote_mark) = Some s.
Proof.
  induction s as [|b s IH]; [done|]. cbn [String.append]. destruct (s +:+ quote_mark) eqn:E; [by destruct s|].
  cbn [strip_quote] in IH |- *. by rewrite IH.
Qed.

Lemma i64_to_string_valid z : utf8_valid (i64_to_string z) = true.
Proof.
  unfold i64_to_string. destruct z as [|p|p]; [done|..].
  - destruct (u64_to_string_spec (Z.to_N (Zpos p))) as (b & ds & -> & Hd & _). by apply all_digits_valid.
  - destruct (u64_to_string_spec (Npos p)) as (b & ds & -> & Hd & _).
    apply utf8_valid_cons; [done|by apply all_digits_valid].
Qed.

(** A text between two marks that are not blank is what it is trimmed to. *)
Lemma trim_marked a s b :
  is_scalar a = true → is_scalar b = true → char_is_whitespace a = false → char_is_whitespace b = false → utf8_valid s = true →
  trim (encode_utf8 a +:+ (s +:+ encode_utf8 b)) = encode_utf8 a +:+ (s +:+ encode_utf8 b).
Proof.
  intros Ha Hb Wa Wb (cs & -> & Hcs)%utf8_valid_spec.
  assert (encode_utf8 a +:+ (of_chars cs +:+ encode_utf8 b) = of_chars ([a] ++ cs ++ [b])) as ->
    by (rewrite !of_chars_app; cbn [of_chars]; by rewrite !append_nil_r).
  unfold trim. rewrite chars_of_chars by (repeat (apply Forall_app; split); [by repeat constructor|done|by repeat constructor]).
  cbn [app skip_blank]. rewrite Wa. change (a :: cs ++ [b]) with ((a :: cs) ++ [b]). rewrite rev_app_distr. cbn [rev app skip_blank].
  rewrite Wb. f_equal. change (b :: rev cs ++ [a]) with ([b] ++ rev cs ++ [a]). rewrite !rev_app_distr, rev_involutive. done.
Qed.

Lemma dispatch_etag_trim revision : trim (dispatch_etag revision) = dispatch_etag revision.
Proof.
  unfold dispatch_etag. change quote_mark with (encode_utf8 34). rewrite <-append_assoc at 1.
  rewrite append_assoc. rewrite <-(append_assoc "dispatch-" (i64_to_string revision)).
  apply trim_marked; try done. apply utf8_valid_app; [done|apply i64_to_string_valid].
Qed.

(** The entity tag of dispatch. The tag a response carries, sent back as [If-Match],
    names exactly the revision the response showed. *)
Theorem dispatch_etag_roundtrip header_text r revision :
  in_i64 revision = true → hr_header r IF_MATCH = Some (dispatch_etag revision) →
  header_text (dispatch_etag revision) = Some (dispatch_etag revision) →
  expected_revision header_text r = Ok revision.
Proof.
  intros Hr Hh Ht. unfold expected_revision. rewrite Hh, Ht, dispatch_etag_trim. unfold dispatch_etag.
  rewrite <-(append_assoc quote_mark "dispatch-"), strip_prefix_app. cbn [mbind option_bind].
  by rewrite strip_quote_app, parse_i64_to_string.
Qed.

(** *** What a request is hashed over *)

Lemma hashed_request_inj method path body method' path' body' :
  hashed_request method path body = hashed_request method' path' body' → method = method' ∧ path = path' ∧ body = body'.
Proof.
  intros Heq. assert (∀ k, get (hashed_request method path body) k = get (hashed_request method' path' body') k) as Hk
    by (intros k; by rewrite Heq).
  pose proof (Hk "method") as H1. pose proof (Hk "path") as H2. pose proof (Hk "body") as H3. cbn in H1, H2, H3. by simplify_eq.
Qed.

(** Two requests with one hash are one method, one path and one meaning, or the
    texts they are hashed over collide. *)
Theorem request_hash_identifies `{Sha256} method path body method' path' body' :
  utf8_valid method = true → utf8_valid path = true → wf_value body = true →
  utf8_valid method' = true → utf8_valid path' = true → wf_value body' = true →
  request_hash method path body = request_hash method' path' body' →
  (method = method' ∧ path = path' ∧ body = body') ∨
  clash (to_canonical_bytes (hashed_request method path body)) (to_canonical_bytes (hashed_request method' path' body')).
Proof.
  intros Hm Hp Hb Hm' Hp' Hb' Heq.
  assert (wf_value (hashed_request method path body) = true) as W1 by (unfold hashed_request; wf_parts).
  assert (wf_value (hashed_request method' path' body') = true) as W2 by (unfold hashed_request; wf_parts).
  destruct (value_digest_eq _ _ W1 W2) as [E|[Hne E]].
  - unfold request_hash in Heq. unfold value_digest, digest_of in *. cbn [digest_bytes] in Heq. by rewrite Heq.
  - left. by apply hashed_request_inj.
  - by right.
Qed.

(** What is shown of a Goal can be asked for again. *)
Theorem payload_roundtrip spec :
  is_empty (trim (goal_objective spec)) = false → spec_from (payload_from spec) = Ok spec.
Proof.
  destruct spec as [objective inputs deliverables [permits forbids resources]]. cbn [goal_objective]. intros Ho.
  unfold spec_from, payload_from. cbn -[trim]. rewrite Ho. do 2 f_equal; rewrite map_map; (etrans; [|apply map_id]);
    apply map_ext; by intros [].
Qed.

(** *** What a request may do *)

Section Gates.
Context `{Sha256}.
Variable slots : nat → Slot.
Variable header_value : string → option string.
Variable header_text : string → option string.
Variable decode_create : string → Result GoalSpecPayload string.
Variable user_version : Database → Result Z StoreError.

Local Abbreviation served := (router slots header_value header_text decode_create user_version).

Lemma required_refused r name p : required header_text r name = Err p → pb_status p = 428%Z.
Proof. unfold required. destruct (hr_header r name) as [v|]; [|by intros [= <-]]. destruct (header_text v) as [t|]; [|by intros [= <-]].
  destruct (is_empty t); [by intros [= <-]|done]. Qed.

Lemma identity_refused r hash p : identity_from_headers header_text r hash = Err p → pb_status p = 428%Z.
Proof.
  unfold identity_from_headers. destruct (required header_text r COMMAND_EPOCH_HEADER) as [e|q] eqn:E1; cbn [try_bind].
  - destruct (required header_text r COMMAND_ID_HEADER) as [i|q] eqn:E2; cbn [try_bind]; [done|intros [= <-]; by eapply required_refused].
  - intros [= <-]. by eapply required_refused.
Qed.

Lemma expected_refused r p : expected_revision header_text r = Err p → pb_status p = 428%Z ∨ pb_status p = 400%Z.
Proof.
  unfold expected_revision. destruct (hr_header r IF_MATCH) as [v|]; [|intros [= <-]; by left].
  destruct (header_text v) as [t|]; [|intros [= <-]; by right]. cbn zeta.
  destruct (_ ≫= _) as [n|]; [|intros [= <-]; by right]. destruct (parse_i64 n); [done|intros [= <-]; by right].
Qed.

(** Nothing is mutated for a request that does not say, in both headers, which command it
    is: the handler answers 428, or 400 where the request is unreadable before that, and
    the store is not even consulted. *)
Theorem mutation_needs_identity route r name w :
  mutation route = true → name ∈ [COMMAND_EPOCH_HEADER; COMMAND_ID_HEADER] →
  (∀ text, required header_text r name ≠ Ok text) →
  (served route r w).2 = w ∧ ((served route r w).1.(rsp_status) = 428%Z ∨ (served route r w).1.(rsp_status) = 400%Z).
Proof.
  intros Hm Hn Hr. assert (∀ hash, ∃ p, identity_from_headers header_text r hash = Err p) as Hid.
  { intros hash. unfold identity_from_headers. rewrite !elem_of_cons in Hn. destruct Hn as [->|[->|[]%not_elem_of_nil]].
    - destruct (required header_text r COMMAND_EPOCH_HEADER) as [t|p]; [by destruct (Hr t)|by exists p].
    - destruct (required header_text r COMMAND_EPOCH_HEADER) as [t|p]; [|by exists p]. cbn [try_bind].
      destruct (required header_text r COMMAND_ID_HEADER) as [t'|p]; [by destruct (Hr t')|by exists p]. }
  assert (∀ path apply, (set_mode header_value header_text path apply r w).2 = w ∧
    ((set_mode header_value header_text path apply r w).1.(rsp_status) = 428%Z ∨
     (set_mode header_value header_text path apply r w).1.(rsp_status) = 400%Z)) as Hset.
  { intros path apply. unfold set_mode. destruct (expected_revision header_text r) as [e|p] eqn:E.
    - destruct (Hid (request_hash "POST" path (Str path))) as [p Hp]. rewrite Hp. split; [done|left]. by eapply identity_refused.
    - split; [done|]. by eapply expected_refused. }
  destruct route as [| | | | |id|id| | | |after limit]; try done; cbn [router].
  - unfold goals_create. destruct (decode_create (hr_body r)) as [payload|e]; [|by split; [|right]].
    unfold spec_from. destruct (is_empty _); [by split; [|right]|].
    match goal with |- context [identity_from_headers _ _ ?h] => destruct (Hid h) as [p Hp] end.
    rewrite Hp. split; [done|left]. by eapply identity_refused.
  - unfold goals_cancel. match goal with |- context [identity_from_headers _ _ ?h] => destruct (Hid h) as [p Hp] end.
    rewrite Hp. split; [done|left]. by eapply identity_refused.
  - apply Hset.
  - apply Hset.
Qed.

(** *** Reads *)

Definition same_db (w w' : World) : Prop := wo_db w = wo_db w'.

#[local] Instance same_db_preorder : PreOrder same_db.
Proof. split; [by intros w|intros a b c; unfold same_db; congruence]. Qed.

Hypothesis silent : ∀ i, slot_before (slots i) = [].

Lemma interfere_same w : same_db w (interfere slots w).2.
Proof. unfold interfere, same_db, wo_db. cbn. by rewrite silent. Qed.

Lemma read_same {A} (q : Ambient → Database → Result A StoreError) : keeps same_db (eng_read slots q).
Proof.
  intros w. unfold eng_read. pose proof (interfere_same w) as Hi. destruct (interfere slots w) as [s w1]. cbn in Hi.
  by destruct (slot_fault s).
Qed.

#[local] Hint Resolve read_same : keeps.

Lemma respond_same {A} (m : Eng OperatorError A) ok : keeps same_db m → ∀ w, same_db w (respond m ok w).2.
Proof. intros Hm w. unfold respond. specialize (Hm w). by destruct (m w) as [[a|e] w']. Qed.

Lemma pure_same {E A} (f : World → Result A E * World) : (∀ w, (f w).2 = w) → keeps same_db f.
Proof. intros Hf w. by rewrite Hf. Qed.

(** A request that is not a mutation leaves the store as it found it, whatever it asks
    and whatever fails. *)
Theorem reads_write_nothing route r w : mutation route = false → wo_db (served route r w).2 = wo_db w.
Proof.
  intros Hm. symmetry. change (same_db w (served route r w).2).
  destruct route as [| | | | |id|id| | | |after limit]; try done; cbn [router].
  - apply respond_same. unfold service_system, service_journal_head, of_store. solve_keeps; first [apply read_same|by apply pure_same].
  - apply respond_same. unfold service_goals, of_store. solve_keeps; apply read_same.
  - apply respond_same. unfold service_goal, of_store. solve_keeps; apply read_same.
  - apply respond_same. unfold dispatch_status, of_store. solve_keeps; first [apply read_same|by apply pure_same].
  - apply respond_same. unfold list_events, resolve, service_journal_head, service_events_after, of_store.
    destruct after; solve_keeps; apply read_same.
Qed.
End Gates.
