(* ===== verification/Client.v ===== *)
(** * The operator's client ([pantheon-cli/src/client.rs], [commands.rs], [commands/*.rs],
    [main.rs])

    Commands as requests over a link that may lose either direction, answered by
    [OperatorApi.router]; and the event stream, read from bytes that arrive in any
    pieces. Bodies cross the link as values of the protocol's types. *)

From Stdlib Require Import ZArith NArith Ascii Lia.
From S2P Require Import Prelude Utf8 Canonical Parse Digest Goal Sql Schema Transaction Command StoreBase StoreExecution StoreOperator StoreLaws StoreHistory EngineBase Operator EngineConfiguration EnginePlanning EngineRouting EngineScheduling Watch Container Capture GitBase Cli OperatorApi.

(** ** The event stream *)

Definition crlf : string := String "013" (String "010" EmptyString).
Definition line_feed : string := String "010" EmptyString.

(** [find_separator]: where the first message ends, and the length of what ends it. *)
Fixpoint find_separator (buffer : string) : option (nat * nat) :=
  match buffer with
  | EmptyString => None
  | String _ rest =>
      if starts_with (crlf +:+ crlf) buffer then Some (0, 4)
      else if starts_with (line_feed +:+ line_feed) buffer then Some (0, 2)
      else (fun p => (S p.1, p.2)) <$> find_separator rest
  end.

(** The inner loop: every complete message of the buffer, and what stays in it. *)
Fixpoint drain (fuel : nat) (pending : string) : list string * string :=
  match fuel with
  | O => ([], pending)
  | S fuel' =>
      match find_separator pending with
      | None => ([], pending)
      | Some (length, separator) =>
          let (more, rest) := drain fuel' (drop_bytes (length + separator) pending) in
          (take_bytes length pending :: more, rest)
      end
  end.

Definition drained (pending : string) : list string * string := drain (S (String.length pending)) pending.

(** The outer loop over the frames' data. *)
Fixpoint read_frames (frames : list string) (pending : string) : list string * string :=
  match frames with
  | [] => ([], pending)
  | chunk :: frames' =>
      let (found, rest) := drained (pending +:+ chunk) in
      let (more, last) := read_frames frames' rest in
      (found ++ more, last)
  end.

Section Messages.
Variable decode_event : string → option EventResponse. (* serde_json::from_str *)

Record MessageLines : Type := { ml_id : option string; ml_data : string }.

Definition message_line (m : MessageLines) (line : string) : MessageLines :=
  match strip_prefix "id:" line with
  | Some value => {| ml_id := Some (trim value); ml_data := ml_data m |}
  | None =>
      match strip_prefix "data:" line with
      | Some value => {| ml_id := ml_id m; ml_data := ml_data m +:+ trim value |}
      | None => m
      end
  end.

(** [emit_message]: the event printed, and the cursor the message carried. *)
Definition emit_message (message : string) : option EventResponse * option string :=
  let m := fold_left message_line (lines (from_utf8_lossy message)) {| ml_id := None; ml_data := EmptyString |} in
  if is_empty (ml_data m) then (None, ml_id m)
  else match decode_event (ml_data m) with
       | Some event => (Some event, Some (er_cursor event))
       | None => (None, ml_id m)
       end.

(** [watch] on what arrived: the events printed and the cursor to resume with. *)
Definition watch_stream (frames : list string) : list EventResponse * option string :=
  let emitted := map emit_message (read_frames frames EmptyString).1 in
  (omap fst emitted, last (omap snd emitted)).
End Messages.

(** *** The pieces do not matter *)

Lemma starts_with_app p s t : String.length p ≤ String.length s → starts_with p (s +:+ t) = starts_with p s.
Proof.
  unfold starts_with. revert s. induction p as [|a p IH]; intros [|b s] Hl; cbn in *; [done|done|lia|].
  destruct (Ascii.eqb _ _); [|done]. apply IH. lia.
Qed.

Lemma find_separator_bound s length separator :
  find_separator s = Some (length, separator) → 2 ≤ separator ∧ length + separator ≤ String.length s.
Proof.
  revert length. induction s as [|a s IH]; intros l; [done|]. cbn [find_separator].
  destruct (starts_with (crlf +:+ crlf) (String a s)) eqn:E4.
  { intros [= <- <-]. apply starts_with_true in E4 as [r ->]. rewrite length_append. cbn. lia. }
  destruct (starts_with (line_feed +:+ line_feed) (String a s)) eqn:E2.
  { intros [= <- <-]. apply starts_with_true in E2 as [r ->]. rewrite length_append. cbn. lia. }
  destruct (find_separator s) as [[l' n]|] eqn:Ef; [|done]. intros [= <- <-]. destruct (IH l' eq_refl). cbn. lia.
Qed.

Lemma find_separator_app s t p : find_separator s = Some p → find_separator (s +:+ t) = Some p.
Proof.
  revert p. induction s as [|a s IH]; intros p; [done|]. cbn [String.append find_separator].
  destruct (starts_with (crlf +:+ crlf) (String a s)) eqn:E4.
  { intros [= <-]. apply starts_with_true in E4 as [r Hr]. change (String a (s +:+ t)) with (String a s +:+ t). rewrite Hr.
    by rewrite append_assoc, (proj2 (starts_with_true _ _) (ex_intro _ _ eq_refl)). }
  destruct (starts_with (line_feed +:+ line_feed) (String a s)) eqn:E2.
  { intros [= <-]. apply starts_with_true in E2 as [r Hr]. change (String a (s +:+ t)) with (String a s +:+ t). by rewrite Hr. }
  destruct (find_separator s) as [q|] eqn:Ef; [|done]. intros [= <-]. rewrite (IH q eq_refl).
  change (String a (s +:+ t)) with (String a s +:+ t).
  assert (1 ≤ String.length s) as Hl by (destruct s; [done|cbn; lia]).
  rewrite (starts_with_app (line_feed +:+ line_feed)), E2 by (cbn; lia).
  assert (starts_with (crlf +:+ crlf) (String a s +:+ t) = false) as ->; [|done].
  destruct s as [|b [|c [|d s]]]; [done| | |rewrite starts_with_app; [exact E4|cbn; lia]].
  - destruct q as [l n]. apply find_separator_bound in Ef. cbn in Ef. lia.
  - apply not_true_iff_false. intros [r Hr]%starts_with_true. cbn in Hr. simplify_eq.
Qed.

Lemma drop_bytes_prefix n s t : n ≤ String.length s → drop_bytes n (s +:+ t) = drop_bytes n s +:+ t.
Proof. revert s. induction n as [|n IH]; intros [|a s] Hl; cbn in *; try done; [lia|apply IH; lia]. Qed.

Lemma take_bytes_app n s t : n ≤ String.length s → take_bytes n (s +:+ t) = take_bytes n s.
Proof. revert s. induction n as [|n IH]; intros [|a s] Hl; cbn in *; try done; [lia|by rewrite IH by lia]. Qed.

Lemma length_drop n s : String.length (drop_bytes n s) = String.length s - n.
Proof. revert s. induction n as [|n IH]; intros [|a s]; cbn; [done..|apply IH]. Qed.

(** Enough turns are enough. *)
Lemma drain_fuel n m s : String.length s < n → String.length s < m → drain n s = drain m s.
Proof.
  revert m s. induction n as [|n IH]; intros [|m] s Hn Hm; [lia..|]. cbn [drain].
  destruct (find_separator s) as [[l sep]|] eqn:E; [|done]. apply find_separator_bound in E.
  rewrite (IH m); [done|rewrite length_drop; lia..].
Qed.

Lemma drained_step s l sep : find_separator s = Some (l, sep) →
  drained s = let (more, rest) := drained (drop_bytes (l + sep) s) in (take_bytes l s :: more, rest).
Proof.
  intros E. unfold drained. cbn [drain]. rewrite E. apply find_separator_bound in E as Hb.
  rewrite (drain_fuel (String.length s) (S (String.length (drop_bytes (l + sep) s)))); [done|rewrite length_drop; lia..].
Qed.

(** The messages of a text are those of its beginning, and those of what is left of it
    with the rest. *)
Lemma drained_app s t :
  drained (s +:+ t) = let (found, rest) := drained s in let (more, last) := drained (rest +:+ t) in (found ++ more, last).
Proof.
  remember (String.length s) as n eqn:Hn. revert s Hn. induction n as [n IH] using lt_wf_ind. intros s ->.
  destruct (find_separator s) as [[l sep]|] eqn:E.
  - apply find_separator_bound in E as Hb. rewrite (drained_step s l sep E).
    rewrite (drained_step (s +:+ t) l sep (find_separator_app s t _ E)), drop_bytes_prefix, take_bytes_app by lia.
    rewrite (IH (String.length (drop_bytes (l + sep) s))) by (rewrite ?length_drop; lia).
    destruct (drained (drop_bytes (l + sep) s)) as [found rest]. by destruct (drained (rest +:+ t)).
  - unfold drained at 2. cbn [drain]. rewrite E. by destruct (drained (s +:+ t)).
Qed.

Lemma drained_rest s found rest : drained s = (found, rest) → find_separator rest = None.
Proof.
  remember (String.length s) as n eqn:Hn. revert s found Hn. induction n as [n IH] using lt_wf_ind. intros s found ->.
  destruct (find_separator s) as [[l sep]|] eqn:E.
  - apply find_separator_bound in E as Hb. rewrite (drained_step s l sep E).
    destruct (drained (drop_bytes (l + sep) s)) as [more r] eqn:Ed. intros [= _ <-].
    eapply IH; [|reflexivity|exact Ed]. rewrite length_drop. lia.
  - unfold drained. cbn [drain]. rewrite E. by intros [= _ <-].
Qed.

(** Frames. Into whatever pieces the bytes of the event stream are cut on their way,
    the client reads the messages of the whole. *)
Theorem frames_do_not_matter frames pending :
  find_separator pending = None → read_frames frames pending = drained (pending +:+ String.concat EmptyString frames).
Proof.
  revert pending. induction frames as [|chunk frames IH]; intros pending Hp; cbn [read_frames].
  - cbn [String.concat]. rewrite append_nil_r. unfold drained. cbn [drain]. by rewrite Hp.
  - assert (String.concat EmptyString (chunk :: frames) = chunk +:+ String.concat EmptyString frames) as ->
      by (destruct frames; cbn; [by rewrite append_nil_r|done]).
    rewrite <-append_assoc, (drained_app (pending +:+ chunk)). destruct (drained (pending +:+ chunk)) as [found rest] eqn:Ed.
    by rewrite (IH rest (drained_rest _ _ _ Ed)).
Qed.

(** *** What the daemon sends is what the client reads *)

(** The field of a server-sent message: one line, with no blank at its ends. *)
Record field_text (s : string) : Prop := {
  ft_valid : utf8_valid s = true;
  ft_lf : contains_byte "010" s = false;
  ft_cr : contains_byte "013" s = false;
  ft_trimmed : trim s = s
}.

(** A message as [axum] frames it, and a keep-alive comment. *)
Definition body_lines (l1 l2 l3 : string) : string := l1 +:+ (line_feed +:+ (l2 +:+ (line_feed +:+ l3))).
Definition framed (id event data : string) : string :=
  body_lines ("id: " +:+ id) ("event: " +:+ event) ("data: " +:+ data) +:+ (line_feed +:+ line_feed).
Definition keep_alive : string := ":" +:+ (line_feed +:+ line_feed).

Lemma find_separator_line s t :
  contains_byte "010" s = false → contains_byte "013" s = false →
  find_separator (s +:+ t) = (fun p => (String.length s + p.1, p.2)) <$> find_separator t.
Proof.
  induction s as [|a s IH]; [cbn; by destruct (find_separator t) as [[]|]|]. cbn [contains_byte].
  intros [Hl Hs]%orb_false_iff [Hc Hr]%orb_false_iff. cbn [String.append find_separator].
  assert (starts_with (crlf +:+ crlf) (String a (s +:+ t)) = false) as ->
    by (apply not_true_iff_false; intros [r Hx]%starts_with_true; cbn in Hx; injection Hx as -> _; done).
  assert (starts_with (line_feed +:+ line_feed) (String a (s +:+ t)) = false) as ->
    by (apply not_true_iff_false; intros [r Hx]%starts_with_true; cbn in Hx; injection Hx as -> _; done).
  rewrite (IH Hs Hr). by destruct (find_separator t) as [[]|].
Qed.

(** A line break before a line is not yet the end of a message. *)
Lemma find_separator_break a s : Ascii.eqb a "010" = false → find_separator (line_feed +:+ String a s) = (fun p => (S p.1, p.2)) <$> find_separator (String a s).
Proof.
  intros Ha. cbn [line_feed String.append]. cbn [find_separator].
  assert (starts_with (line_feed +:+ line_feed) (String "010" (String a s)) = false) as ->; [|done].
  apply not_true_iff_false. intros [r Hx]%starts_with_true. cbn in Hx. injection Hx as -> _. done.
Qed.

Lemma prefixed_clean (c : ascii) p s : contains_byte c p = false → contains_byte c s = false → contains_byte c (p +:+ s) = false.
Proof. intros Hp Hs. induction p as [|a p IH]; [done|]. cbn in *. apply orb_false_iff in Hp as [-> Hp]. by apply IH. Qed.

(** A line without a line break of its own. *)
Definition clean (l : string) : Prop :=
  contains_byte "010" l = false ∧ contains_byte "013" l = false ∧ l ≠ EmptyString.

Lemma find_separator_next l s : clean l →
  find_separator (line_feed +:+ (l +:+ s)) = (fun p => (S p.1, p.2)) <$> find_separator (l +:+ s).
Proof.
  intros (Hl & _ & Hne). destruct l as [|a l]; [done|]. apply find_separator_break. cbn in Hl. by apply orb_false_iff in Hl as [? _].
Qed.

Lemma find_separator_end t : find_separator (line_feed +:+ (line_feed +:+ t)) = Some (0, 2).
Proof. done. Qed.

Lemma body_separator l1 l2 l3 t :
  clean l1 → clean l2 → clean l3 →
  find_separator (body_lines l1 l2 l3 +:+ (line_feed +:+ line_feed) +:+ t) = Some (String.length (body_lines l1 l2 l3), 2).
Proof.
  intros H1 H2 H3. unfold body_lines. rewrite !append_assoc. destruct H1 as (L1 & R1 & N1).
  rewrite find_separator_line, find_separator_next by done. destruct H2 as (L2 & R2 & N2).
  rewrite find_separator_line, find_separator_next by done. destruct H3 as (L3 & R3 & N3). rewrite find_separator_line by done.
  rewrite find_separator_end. cbn [fmap option_fmap option_map fst snd].
  rewrite !length_append. change (String.length line_feed) with 1. do 2 f_equal. lia.
Qed.

Lemma take_bytes_exact s t : take_bytes (String.length s) (s +:+ t) = s.
Proof. induction s as [|a s IH]; cbn; [by destruct t|by rewrite IH]. Qed.

Lemma drop_bytes_exact s t n : drop_bytes (String.length s + n) (s +:+ t) = drop_bytes n t.
Proof. induction s as [|a s IH]; cbn; [done|exact IH]. Qed.

(** A complete message at the front is taken whole. *)
Lemma drained_message body t :
  find_separator (body +:+ (line_feed +:+ (line_feed +:+ t))) = Some (String.length body, 2) →
  drained (body +:+ (line_feed +:+ (line_feed +:+ t))) = let (more, rest) := drained t in (body :: more, rest).
Proof. intros E. by rewrite (drained_step _ _ _ E), take_bytes_exact, drop_bytes_exact. Qed.

Lemma strip_cr_clean l : contains_byte "013" l = false → strip_cr l = l.
Proof.
  intros Hc. unfold strip_cr. destruct (ends_with _ l) eqn:E; [|done]. apply ends_with_true in E as [l' ->].
  assert (contains_byte "013" (l' +:+ String "013" EmptyString) = true) as Ht; [|congruence].
  apply contains_byte_true. by exists l', EmptyString.
Qed.

Lemma lines_of_body l1 l2 l3 : clean l1 → clean l2 → clean l3 → lines (body_lines l1 l2 l3) = [l1; l2; l3].
Proof.
  intros (L1 & R1 & N1) (L2 & R2 & N2) (L3 & R3 & N3). unfold lines.
  change (body_lines l1 l2 l3) with (l1 +:+ String "010" (l2 +:+ String "010" l3)).
  rewrite !split_on_app, split_on_whole by done. cbn [removelast List.last map app].
  rewrite !strip_cr_clean by done. apply String.eqb_neq in N3. by rewrite N3.
Qed.

Lemma trim_space s : utf8_valid s = true → trim (" " +:+ s) = trim s.
Proof.
  intros (cs & -> & Hcs)%utf8_valid_spec. change (" " +:+ of_chars cs) with (of_chars (32%N :: cs)).
  unfold trim. rewrite !chars_of_chars by (try constructor; done). done.
Qed.

Lemma labelled_clean label s : clean label → contains_byte "010" s = false → contains_byte "013" s = false → clean (label +:+ s).
Proof. intros (L & R & N) Hl Hr. split_and!; [by apply prefixed_clean..|]. by destruct label. Qed.

Section Stream.
Variable encode_event : EventResponse → string. (* serde_json::to_string *)
Variable decode_event : string → option EventResponse.

(** The daemon's stream: messages, and comments that keep it alive. *)
Inductive Piece : Type :=
| PieceMessage (m : EventMessage)
| PieceKeepAlive.

Definition piece_text (p : Piece) : string :=
  match p with
  | PieceMessage m => framed (msg_id m) (msg_event m) (encode_event (msg_data m))
  | PieceKeepAlive => keep_alive
  end.

Definition piece_messages (pieces : list Piece) : list EventMessage :=
  omap (fun p => match p with PieceMessage m => Some m | PieceKeepAlive => None end) pieces.

(** What can travel as the message of an event: its fields are lines, and the JSON of its
    event is read back as the event. *)
Record sendable (m : EventMessage) : Prop := {
  sn_id : field_text (msg_id m);
  sn_event : field_text (msg_event m);
  sn_data : field_text (encode_event (msg_data m));
  sn_full : encode_event (msg_data m) ≠ EmptyString;
  sn_decode : decode_event (encode_event (msg_data m)) = Some (msg_data m);
  sn_cursor : er_cursor (msg_data m) = msg_id m
}.

Definition message_text (m : EventMessage) : string :=
  body_lines ("id: " +:+ msg_id m) ("event: " +:+ msg_event m) ("data: " +:+ encode_event (msg_data m)).

Lemma emit_sent m : sendable m → emit_message decode_event (message_text m) = (Some (msg_data m), Some (msg_id m)).
Proof.
  intros [[Vi Li Ri Ti] [Ve Le Re Te] [Vd Ld Rd Td] Hf Hd Hc]. unfold emit_message.
  rewrite from_utf8_lossy_valid by (unfold message_text, body_lines; by repeat apply utf8_valid_app).
  unfold message_text. rewrite lines_of_body by (by apply labelled_clean). cbn [fold_left].
  set (m1 := message_line _ ("id: " +:+ msg_id m)).
  assert (m1 = {| ml_id := Some (msg_id m); ml_data := EmptyString |}) as ->.
  { unfold m1, message_line. change ("id: " +:+ msg_id m) with ("id:" +:+ (" " +:+ msg_id m)). rewrite strip_prefix_app.
    by rewrite trim_space, Ti. }
  change (message_line ?x ("event: " +:+ msg_event m)) with x.
  unfold message_line. change (strip_prefix "id:" ("data: " +:+ ?x)) with (@None string).
  change ("data: " +:+ encode_event (msg_data m)) with ("data:" +:+ (" " +:+ encode_event (msg_data m))).
  rewrite strip_prefix_app, trim_space, Td by done. cbn [ml_id ml_data String.append].
  unfold is_empty. apply String.eqb_neq in Hf. rewrite Hf, Hd. by rewrite Hc.
Qed.

Lemma emit_keep_alive : emit_message decode_event ":" = (None, None).
Proof. done. Qed.

Lemma drained_pieces pieces tail :
  Forall sendable (piece_messages pieces) → find_separator tail = None →
  omap fst (map (emit_message decode_event) (drained (String.concat EmptyString (map piece_text pieces) +:+ tail)).1) =
    map msg_data (piece_messages pieces) ∧
  omap snd (map (emit_message decode_event) (drained (String.concat EmptyString (map piece_text pieces) +:+ tail)).1) =
    map msg_id (piece_messages pieces).
Proof.
  intros Hs Ht. induction pieces as [|p pieces IH].
  - cbn [map String.concat String.append piece_messages omap list_omap]. unfold drained. cbn [drain]. by rewrite Ht.
  - assert (String.concat EmptyString (map piece_text (p :: pieces)) +:+ tail =
      piece_text p +:+ (String.concat EmptyString (map piece_text pieces) +:+ tail)) as ->.
    { rewrite <-append_assoc. f_equal. cbn [map]. destruct pieces; cbn; [by rewrite append_nil_r|done]. }
    set (t := String.concat EmptyString (map piece_text pieces) +:+ tail) in *. destruct p as [m|]; cbn [piece_text].
    + change (piece_messages (PieceMessage m :: pieces)) with (m :: piece_messages pieces) in *. apply Forall_cons in Hs as [Hm Hs].
      destruct (IH Hs) as [IH1 IH2]. pose proof (emit_sent m Hm) as He. destruct Hm as [[_ Li Ri _] [_ Le Re _] [_ Ld Rd _] _ _ _].
      unfold framed. fold (message_text m). rewrite !append_assoc.
      rewrite drained_message.
      2:{ unfold message_text. rewrite <-(append_assoc line_feed). by apply body_separator; apply labelled_clean. }
      destruct (drained t) as [more rest]. cbn [fst map omap list_omap] in *. rewrite He. cbn. split; by f_equal.
    + change (piece_messages (PieceKeepAlive :: pieces)) with (piece_messages pieces) in *. destruct (IH Hs) as [IH1 IH2].
      unfold keep_alive. rewrite !append_assoc, drained_message by done. destruct (drained t) as [more rest].
      cbn [fst map omap list_omap] in *. rewrite emit_keep_alive. cbn. by split.
Qed.

(** The watching client. It prints exactly the events the daemon sent, in order,
    however the bytes are cut into frames, wherever comments keep the connection alive
    and wherever the stream breaks off; and the cursor it reports is the one with which
    the daemon's stream is resumed. *)
Theorem watch_reads_what_was_sent frames pieces tail after :
  Forall sendable (piece_messages pieces) → find_separator tail = None →
  String.concat EmptyString frames = String.concat EmptyString (map piece_text pieces) +:+ tail →
  (watch_stream decode_event frames).1 = map msg_data (piece_messages pieces) ∧
  match (watch_stream decode_event frames).2 with Some c => Some c | None => after end = resume after (piece_messages pieces).
Proof.
  intros Hs Ht Hf. unfold watch_stream. rewrite frames_do_not_matter by done. cbn [String.append]. rewrite Hf.
  destruct (drained_pieces pieces tail Hs Ht) as [H1 H2]. split; [exact H1|]. cbn [snd]. rewrite H2. unfold resume.
  change (map msg_id (piece_messages pieces)) with (msg_id <$> piece_messages pieces). rewrite fmap_last. by destruct (last (piece_messages pieces)).
Qed.
End Stream.

(** ** Commands *)

Inductive Failure : Type :=
| Refused (p : Problem)
| Unreachable (why : string)
| Usage (why : string).

(** What becomes of one exchange. *)
Inductive Delivery : Type := Delivered | RequestLost | AnswerLost.

Definition exit_code {A} (r : Result A Failure) : Z :=
  match r with
  | Ok _ => 0
  | Err (Usage _) => 2
  | Err (Refused _) => 3
  | Err (Unreachable _) => 4
  end.

Inductive Printed : Type :=
| PrintedVersion
| PrintedBody (b : Body)
| PrintedEvents (events : list EventResponse) (resume_with : option string).

Section Commands.
Context `{Sha256}.
Variable slots : nat → Slot.
Variable header_value : string → option string.
Variable header_text : string → option string.
Variable encode_create : GoalSpecPayload → string. (* serde_json::to_vec *)
Variable decode_create : string → Result GoalSpecPayload string.
Variable user_version : Database → Result Z StoreError.
Variable link : nat → Delivery.
Variable random : nat → option string. (* sixteen bytes of /dev/urandom *)
(** For a watch: when the daemon sees that the client is gone, how many polls it makes,
    the JSON of an event, and the frames the stream's bytes arrive in. *)
Variable gone : EventMessage → bool.
Variable polls : nat.
Variable encode_event : EventResponse → string.
Variable decode_event : string → option EventResponse.
Variable frames_of : string → list string.

(** The daemon's world, and the number of exchanges so far. *)
Definition Cli (A : Type) : Type := World * nat → Result A Failure * (World * nat).

Definition cli_ret {A} (a : A) : Cli A := fun s => (Ok a, s).
Definition cli_err {A} (e : Failure) : Cli A := fun s => (Err e, s).
Definition cli_bind {A B} (m : Cli A) (k : A → Cli B) : Cli B := fun s =>
  match m s with
  | (Ok a, s') => k a s'
  | (Err e, s') => (Err e, s')
  end.
Definition cli_try {A} (r : Result A Failure) : Cli A := fun s => (r, s).

(** A response that is not a success is a refusal when it carries a problem. *)
Definition received (rsp : HttpResponse) : Result Body Failure :=
  if (200 <=? rsp_status rsp)%Z && (rsp_status rsp <? 300)%Z then Ok (rsp_body rsp)
  else match rsp_body rsp with
       | BodyProblem p => Err (Refused p)
       | _ => Err (Unreachable "an answer without a problem")
       end.

(** One connection, one request. *)
Definition send (route : Route) (r : HttpRequest) : Cli Body := fun '(w, n) =>
  match link n with
  | RequestLost => (Err (Unreachable "request failed"), (w, S n))
  | AnswerLost => (Err (Unreachable "could not read the response"),
                   ((router slots header_value header_text decode_create user_version route r w).2, S n))
  | Delivered =>
      let (rsp, w') := router slots header_value header_text decode_create user_version route r w in
      (received rsp, (w', S n))
  end.

Definition not_understood {A} : Result A Failure := Err (Unreachable "could not understand the response").

Definition client_get (route : Route) : Cli Body := send route {| hr_header := fun _ => None; hr_body := EmptyString |}.

Definition header (value : string) : Result string Failure :=
  match header_value value with
  | Some v => Ok v
  | None => Err (Unreachable "not a valid header value")
  end.

Definition client_post (route : Route) (epoch id : string) (if_match : option string) (body : string) : Cli Body :=
  cli_bind (cli_try (header epoch)) (fun epoch =>
  cli_bind (cli_try (header id)) (fun id =>
  cli_bind (cli_try (match if_match with
                     | Some tag => let? v := header tag in Ok (Some v)
                     | None => Ok None
                     end)) (fun tag =>
  send route {| hr_header := fun name =>
                  if String.eqb name COMMAND_EPOCH_HEADER then Some epoch
                  else if String.eqb name COMMAND_ID_HEADER then Some id
                  else if String.eqb name IF_MATCH then tag else None;
                hr_body := body |}))).

(** Read each time, never remembered. *)
Definition command_epoch : Cli string :=
  cli_bind (client_get GetSystem) (fun b =>
  match b with
  | BodySystem s => cli_ret (sr_command_epoch s)
  | _ => cli_try not_understood
  end).

Definition fresh_command_id : Cli string := fun '(w, n) =>
  (match random n with
   | Some bytes => Ok (hex_of_bytes bytes)
   | None => Err (Unreachable "could not draw a command id")
   end, (w, n)).

Definition command_id (v : Invocation) : Cli string :=
  match iv_command_id v with
  | Some id => if is_empty (trim id) then cli_err (Usage "--command-id must not be empty") else cli_ret id
  | None => fresh_command_id
  end.

Definition payload (q : GoalRequest) : GoalSpecPayload := {|
  gsp_objective := gq_objective q;
  gsp_inputs := map (fun i => {| gip_name := i.1; gip_reference := i.2 |}) (gq_inputs q);
  gsp_deliverables := map (fun d => {| dlp_name := d.1.1; dlp_kind := d.1.2; dlp_required := d.2 |}) (gq_deliverables q);
  gsp_constraints := {| gcp_permitted_effects := gq_permitted_effects q; gcp_forbidden_effects := gq_forbidden_effects q;
                        gcp_permitted_resources := gq_permitted_resources q |} |}.

(** A body of the kind the command asks for is printed. *)
Definition printed (wanted : Body → bool) (b : Body) : Cli Printed :=
  cli_try (if wanted b then Ok (PrintedBody b) else not_understood).

Definition is_goal (b : Body) : bool := match b with BodyGoal _ => true | _ => false end.
Definition is_goals (b : Body) : bool := match b with BodyGoals _ _ => true | _ => false end.
Definition is_dispatch (b : Body) : bool := match b with BodyDispatch _ => true | _ => false end.
Definition is_events (b : Body) : bool := match b with BodyEvents _ _ => true | _ => false end.
Definition is_system (b : Body) : bool := match b with BodySystem _ => true | _ => false end.

Definition run_create (v : Invocation) (q : GoalRequest) : Cli Printed :=
  let body := encode_create (payload q) in
  cli_bind command_epoch (fun epoch =>
  cli_bind (command_id v) (fun id =>
  cli_bind (client_post PostGoals epoch id None body) (printed is_goal))).

Definition run_cancel (v : Invocation) (goal_id : string) : Cli Printed :=
  cli_bind command_epoch (fun epoch =>
  cli_bind (command_id v) (fun id =>
  cli_bind (client_post (PostCancel goal_id) epoch id None EmptyString) (printed is_goal))).

Definition run_set_mode (v : Invocation) (route : Route) : Cli Printed :=
  cli_bind (client_get GetDispatch) (fun b =>
  match b with
  | BodyDispatch current =>
      let if_match := dispatch_etag (OperatorApi.dr_revision current) in
      cli_bind command_epoch (fun epoch =>
      cli_bind (command_id v) (fun id =>
      cli_bind (client_post route epoch id (Some if_match) EmptyString) (printed is_dispatch)))
  | _ => cli_try not_understood
  end).

(** The stream of the messages the daemon sends while it lasts. *)
Definition stream_of (messages : list EventMessage) : string :=
  String.concat EmptyString (map (piece_text encode_event) (map PieceMessage messages)).

Definition run_watch (after : option string) : Cli Printed := fun '(w, n) =>
  match link n with
  | RequestLost => (Err (Unreachable "request failed"), (w, S n))
  | AnswerLost => (Err (Unreachable "request failed"), ((watch slots gone polls after w).2, S n))
  | Delivered =>
      match watch slots gone polls after w with
      | (Err e, w') => (Err (Refused (problem_from e)), (w', S n))
      | (Ok sent, w') =>
          let (events, cursor) := watch_stream decode_event (frames_of (stream_of sent)) in
          (Ok (PrintedEvents events cursor), (w', S n))
      end
  end.

(** [commands::run]. *)
Definition run_command (v : Invocation) : Cli Printed :=
  match iv_command v with
  | CliVersion => cli_ret PrintedVersion
  | CliStatus => cli_bind (client_get GetSystem) (printed is_system)
  | CliGoalCreate q => run_create v q
  | CliGoalGet id => cli_bind (client_get (GetGoal id)) (printed is_goal)
  | CliGoalList => cli_bind (client_get GetGoals) (printed is_goals)
  | CliGoalCancel id => run_cancel v id
  | CliDispatchStatus => cli_bind (client_get GetDispatch) (printed is_dispatch)
  | CliDispatchPause => run_set_mode v PostPause
  | CliDispatchResume => run_set_mode v PostResume
  | CliEventsList after limit => cli_bind (client_get (GetEvents after limit)) (printed is_events)
  | CliEventsWatch after => run_watch after
  end.

(** The same command line, typed again and again. *)
Fixpoint typed_again (times : nat) (v : Invocation) (s : World * nat) : list (Result Printed Failure) * (World * nat) :=
  match times with
  | O => ([], s)
  | S times' =>
      let (r, s1) := run_command v s in
      let (rs, s2) := typed_again times' v s1 in
      (r :: rs, s2)
  end.
End Commands.

(** ** Creating a Goal from the command line *)

Section CreateAgain.
Context `{Sha256}.
Variable slots : nat → Slot.
Variable header_value : string → option string.
Variable header_text : string → option string.
Variable encode_create : GoalSpecPayload → string.
Variable decode_create : string → Result GoalSpecPayload string.
Variable user_version : Database → Result Z StoreError.
Variable link : nat → Delivery.
Variable random : nat → option string.
Variable gone : EventMessage → bool.
Variable polls : nat.
Variable encode_event : EventResponse → string.
Variable decode_event : string → option EventResponse.
Variable frames_of : string → list string.

(** What a header is made of is what is read from it, and the body sent decodes to what
    was encoded. *)
Hypothesis header_roundtrip : ∀ s v, header_value s = Some v → header_text v = Some s.

Variable generation : string.
Variable id : string.
Variable spec : GoalSpec.
Variable v : Invocation.
Variable q : GoalRequest.
Hypothesis v_command : iv_command v = CliGoalCreate q.
Hypothesis v_id : iv_command_id v = Some id.
Hypothesis create_roundtrip : decode_create (encode_create (payload q)) = Ok (payload q).
Hypothesis q_spec : spec_from (payload q) = Ok spec.

Definition cli_identity : CommandIdentity := {|
  ci_epoch := generation; ci_id := id; ci_request_hash := request_hash "POST" "/api/v1/goals" (goal_to_value spec) |}.

Hypothesis others : ∀ i r, r ∈ slot_before (slots i) → own_step cli_identity spec r.
Hypothesis spec_wf : wf_goal spec = true.

Definition of_generation (db : Database) : Prop :=
  ∃ r rest, List.filter (col_is "id" (SInteger 1)) (rows db "system_state") = r :: rest ∧
    column r "restore_generation" = SText generation.

(** What every exchange keeps. *)
Definition sound_world (w : World) : Prop := steps_sound cli_identity spec (wo_db w) ∧ of_generation (wo_db w).

Lemma generation_evolves db db' : evolves db db' → of_generation db → of_generation db'.
Proof.
  intros He (r & rest & Hf & Hg). destruct (He "system_state") as (kept & added & Hr & Hk).
  assert (kept = rows db "system_state") as ->.
  { clear -Hk. induction Hk as [|x y l l' Hxy _ IH]; [done|]. f_equal; [exact Hxy|exact IH]. }
  exists r, (rest ++ List.filter (col_is "id" (SInteger 1)) added). by rewrite Hr, List.filter_app, Hf.
Qed.

#[local] Existing Instance sound_step_preorder.

(** Whatever an operation of the daemon answers, the world stays sound. *)
Lemma sound_world_keeps {E A} (m : Eng E A) w r w' :
  keeps (on_db (sound_step cli_identity spec)) m → m w = (r, w') → sound_world w →
  sound_world w' ∧ evolves (wo_db w) (wo_db w').
Proof.
  intros Hm Hx [Hw Hg]. destruct (Hm w Hw) as [Hw' He]. rewrite Hx in Hw', He. cbn [snd] in Hw', He.
  split; [split; [done|by eapply generation_evolves]|done].
Qed.

Lemma generation_read db e : of_generation db → read_restore_generation db = Ok e → e = generation.
Proof.
  intros (r & rest & Hf & Hg) Hr. unfold read_restore_generation in Hr.
  rewrite (read_row_eval _ _ _ _ _ _ system_state_table) in Hr by done. rewrite Hf in Hr. unfold get_text in Hr.
  rewrite Hg in Hr. cbn in Hr. congruence.
Qed.

(** The epoch a client is told is the store's generation. *)
Lemma system_generation w s w' :
  sound_world w → service_system slots user_version w = (Ok s, w') → sr_command_epoch s = generation.
Proof.
  intros Hw Hx. unfold service_system, service_journal_head, of_store in Hx.
  eng_step Hx as E1. eng_step Hx as E2. eng_step Hx as E3. injection Hx as <- _. cbn [sr_command_epoch].
  destruct (sound_world_keeps _ _ _ _ (read_sound _ _ _ others _) E1 Hw) as [H1 _].
  destruct (sound_world_keeps _ _ _ _ (read_sound _ _ _ others _) E2 H1) as [H2 _].
  destruct (sound_world_keeps _ _ _ _ (read_sound _ _ _ others _) E3 H2) as [[_ H3] _].
  apply eng_read_Ok in E3 as [_ Hr]. by eapply generation_read.
Qed.

(** *** What a command leaves *)

(** From a sound world to a sound world, with [P] of the answer and of the store. *)
Definition triple {A} (P : A → Database → Prop) (m : Cli A) : Prop := ∀ s r s',
  sound_world s.1 → m s = (r, s') →
  sound_world s'.1 ∧ evolves (wo_db s.1) (wo_db s'.1) ∧ ∀ a, r = Ok a → P a (wo_db s'.1).

Lemma triple_try {A} (P : A → Database → Prop) (r : Result A Failure) : (∀ a db, r = Ok a → P a db) → triple P (cli_try r).
Proof. intros Hr s r' s' Hs [= <- <-]. split_and!; [done|done|]. intros a. apply Hr. Qed.

Lemma triple_bind {A B} (P : A → Prop) (Q : B → Database → Prop) (m : Cli A) (k : A → Cli B) :
  triple (fun a _ => P a) m → (∀ a, P a → triple Q (k a)) → triple Q (cli_bind m k).
Proof.
  intros Hm Hk s r s' Hs. unfold cli_bind. destruct (m s) as [[a|e] s1] eqn:E.
  - destruct (Hm _ _ _ Hs E) as (H1 & E1 & Ha). intros Hx. destruct (Hk a (Ha a eq_refl) _ _ _ H1 Hx) as (H2 & E2 & Hb).
    split_and!; [done|by etrans|done].
  - intros [= <- <-]. by destruct (Hm _ _ _ Hs E) as (H1 & E1 & _).
Qed.

(** A request, whatever becomes of it on the link. *)
Lemma triple_send {A} (m : Eng OperatorError A) ok route r (P : Body → Database → Prop) :
  router slots header_value header_text decode_create user_version route r = respond m ok →
  keeps (on_db (sound_step cli_identity spec)) m →
  (∀ w a w' b, sound_world w → m w = (Ok a, w') → received (ok a) = Ok b → P b (wo_db w')) →
  triple P (send slots header_value header_text decode_create user_version link route r).
Proof.
  intros Hr Hm HP [w n] res s' Hs. unfold send. rewrite Hr. unfold respond.
  destruct (m w) as [[a|e] w1] eqn:E; destruct (sound_world_keeps _ _ _ _ Hm E Hs) as [H1 E1];
    destruct (link n); cbn beta iota; cbn [snd]; intros [= <- <-]; cbn [fst]; split_and!; try done.
  - intros b Hb. exact (HP _ _ _ _ Hs E Hb).
  - intros b. unfold received. cbn [rsp_status rsp_body problem_response].
    destruct (_ && _) eqn:Es; [|done]. exfalso. clear -Es. unfold problem_from in Es. destruct (problem_of e) as [[] t]; done.
Qed.

Lemma epoch_triple :
  triple (fun e _ => e = generation) (command_epoch slots header_value header_text decode_create user_version link).
Proof.
  unfold command_epoch. eapply (triple_bind (fun b => ∀ s, b = BodySystem s → sr_command_epoch s = generation)).
  - unfold client_get. eapply triple_send; [reflexivity| |].
    + unfold service_system, service_journal_head, of_store. repeat (apply keeps_bind; [apply _|apply keeps_map_err, read_sound, others|intros ?]).
      intros w. reflexivity.
    + intros w a w' b Hw Hx [= <-] s [= <-]. by eapply system_generation.
  - intros b Hb. destruct b; try (apply triple_try; done). apply triple_try. intros e db [= <-]. by apply Hb.
Qed.

(** A request refused before it reaches the service. *)
Lemma triple_refused route r p (P : Body → Database → Prop) :
  router slots header_value header_text decode_create user_version route r = refuse p → pb_status p = 428%Z →
  triple P (send slots header_value header_text decode_create user_version link route r).
Proof.
  intros Hr Hp [w n] res s' Hs. unfold send. rewrite Hr. unfold refuse, problem_response, received. cbn [rsp_status rsp_body].
  rewrite Hp. cbn. destruct (link n); by intros [= <- <-].
Qed.

(** What a printed body says, and what it left in the store. *)
Definition created (b : Body) (db : Database) : Prop :=
  ∃ view, b = BodyGoal (response view) ∧ shown cli_identity spec view ∧
    goal_stored cli_identity spec db ∧ task_stored cli_identity db.

Lemma header_Ok value x : header header_value value = Ok x → header_value value = Some x.
Proof. unfold header. destruct (header_value value); [by intros [= <-]|done]. Qed.

Lemma post_triple :
  triple created (client_post slots header_value header_text decode_create user_version link PostGoals generation id None
                    (encode_create (payload q))).
Proof.
  unfold client_post. eapply (triple_bind (fun e => header_value generation = Some e)).
  { apply triple_try. intros e _. apply header_Ok. }
  intros e He. eapply (triple_bind (fun i => header_value id = Some i)).
  { apply triple_try. intros i _. apply header_Ok. }
  intros i Hi. eapply (triple_bind (fun tag => tag = None)); [by apply triple_try; intros ? ? [= <-]|]. intros tag ->.
  set (r := {| hr_body := encode_create (payload q) |}).
  assert (∀ hash, identity_from_headers header_text r hash =
    Ok {| ci_epoch := generation; ci_id := id; ci_request_hash := hash |} ∨
    ∃ p, identity_from_headers header_text r hash = Err p) as Hid.
  { intros hash. unfold identity_from_headers, required, r. cbn -[is_empty].
    rewrite (header_roundtrip _ _ He), (header_roundtrip _ _ Hi).
    destruct (is_empty generation); cbn [try_bind]; [by right; eexists|]. destruct (is_empty id); [by right; eexists|by left]. }
  assert (router slots header_value header_text decode_create user_version PostGoals r = goals_create slots header_value header_text decode_create r)
    as Hroute by done.
  unfold goals_create in Hroute. cbn [hr_body r] in Hroute. rewrite create_roundtrip, q_spec in Hroute.
  destruct (Hid (request_hash "POST" "/api/v1/goals" (goal_to_value spec))) as [E|[p E]]; rewrite E in Hroute.
  - eapply triple_send; [exact Hroute|apply service_create_sound, others|].
    intros w view w' b Hw Hx [= <-]. exists view. split; [done|].
    destruct (sound_world_keeps _ _ _ _ (service_create_sound _ _ _ others) Hx Hw) as [[[_ _ Hg Ht] _] _].
    destruct (service_create_shown _ _ _ others _ _ _ spec_wf (proj1 Hw) Hx) as (Hsh & L1 & L2).
    split_and!; [done|by apply Hg|by apply Ht].
  - eapply triple_refused; [exact Hroute|by eapply identity_refused].
Qed.

Lemma typed_triple :
  triple (fun out db => ∃ b, out = PrintedBody b ∧ created b db)
    (run_command slots header_value header_text encode_create decode_create user_version link random gone polls
       encode_event decode_event frames_of v).
Proof.
  unfold run_command. rewrite v_command. unfold run_create. eapply triple_bind; [exact epoch_triple|]. intros e ->.
  eapply (triple_bind (fun i => i = id)).
  { unfold command_id. rewrite v_id. destruct (is_empty _); apply (triple_try _ _); [done|]. by intros ? ? [= <-]. }
  intros i ->. intros s r s' Hs. unfold cli_bind.
  destruct (client_post _ _ _ _ _ _ _ _ _ _ _ s) as [[b|f] s1] eqn:E;
    destruct (post_triple _ _ _ Hs E) as (H1 & E1 & Hb).
  - unfold printed, cli_try. intros [= <- <-]. split_and!; [done|done|]. intros out. destruct (is_goal b); [|done].
    intros [= <-]. exists b. split; [done|by apply Hb].
  - intros [= <- <-]. by split_and!.
Qed.

Lemma created_evolves b db db' : evolves db db' → created b db → created b db'.
Proof.
  intros He (view & -> & Hs & Hg & Ht). exists view.
  split_and!; [done|done|by eapply goal_stored_evolves|by eapply task_stored_evolves].
Qed.

Lemma typed_again_created times s outs s' :
  sound_world s.1 →
  typed_again slots header_value header_text encode_create decode_create user_version link random gone polls
    encode_event decode_event frames_of times v s = (outs, s') →
  sound_world s'.1 ∧ evolves (wo_db s.1) (wo_db s'.1) ∧
  ∀ out, Ok out ∈ outs → ∃ b, out = PrintedBody b ∧ created b (wo_db s'.1).
Proof.
  revert s outs. induction times as [|times IH]; intros s outs Hs; cbn [typed_again].
  { intros [= <- <-]. split_and!; [done|done|]. by intros out Hin%not_elem_of_nil. }
  destruct (run_command _ _ _ _ _ _ _ _ _ _ _ _ _ v s) as [r s1] eqn:E1. destruct (typed_triple _ _ _ Hs E1) as (H1 & V1 & Ho).
  destruct (typed_again _ _ _ _ _ _ _ _ _ _ _ _ _ times v s1) as [rest s2] eqn:E2. intros [= <- <-].
  destruct (IH _ _ H1 E2) as (H2 & V2 & Hrest). split_and!; [done|by etrans|].
  intros out [Hr|Hin]%elem_of_cons; [|by apply Hrest]. destruct (Ho out (eq_sym Hr)) as (b & -> & Hb).
  exists b. split; [done|by eapply created_evolves].
Qed.
End CreateAgain.

(** C9: Creating a Goal from the command line is safe to repeat. Type one [goal create]
    with one [--command-id] any number of times, over a link that loses any of its
    requests and any of its answers, to a daemon that serves others in between and fails
    as it may: whatever is printed is the one Goal that was asked for, at its first
    revision with the Task planned for it, and the store holds exactly one such Goal and
    one such Task. *)
Theorem cli_create_exactly_once `{Sha256} slots header_value header_text encode_create decode_create user_version
    link random gone polls encode_event decode_event frames_of generation id spec v q times w n j seq outs s' :
  let who := cli_identity generation id spec in
  (∀ s t, header_value s = Some t → header_text t = Some s) →
  iv_command v = CliGoalCreate q → iv_command_id v = Some id →
  decode_create (encode_create (payload q)) = Ok (payload q) → spec_from (payload q) = Ok spec →
  wf_goal spec = true → (∀ i r, r ∈ slot_before (slots i) → own_step who spec r) →
  valid MIGRATIONS (wo_db w) → kernel (wo_db w) generation j seq →
  ~ in_ledger (wo_db w) (identity_command (identity_step who "goal-create") "goal.created") →
  ~ in_ledger (wo_db w) (identity_command (identity_step who "goal-materialize") "task.materialized") →
  typed_again slots header_value header_text encode_create decode_create user_version link random gone polls
    encode_event decode_event frames_of times v (w, n) = (outs, s') →
  ∀ out, Ok out ∈ outs → ∃ view,
    out = PrintedBody (BodyGoal (response view)) ∧ shown who spec view ∧
    length (List.filter (col_is "id" (SText (gv_id view))) (rows (wo_db s'.1) "goals")) = 1 ∧
    length (List.filter (col_is "id" (SText (derive_command_id generation id "task"))) (rows (wo_db s'.1) "tasks")) = 1.
Proof.
  intros who Hh Hc Hi Hr Hq Hwf Ho Hv Hk L1 L2 Hx out Hin.
  assert (sound_world generation id spec w) as Hs.
  { split; [|by destruct Hk]. split; [done|by exists generation, j, seq|done|done]. }
  destruct (typed_again_created slots header_value header_text encode_create decode_create user_version link random gone
    polls encode_event decode_event frames_of Hh generation id spec v q Hc Hi Hr Hq Ho Hwf times (w, n) outs s' Hs Hx)
    as ([[Hv' _ _ _] _] & _ & Hall).
  destruct (Hall out Hin) as (b & -> & view & -> & Hsh & [(r & Hr1 & Hid & _) _] & t & Ht & Htid & _).
  exists view. split_and!; [done|done|..]; [destruct Hsh as [-> _]|]; by eapply one_row; [apply _|..].
Qed.
