(* ===== verification/ClientScenario.v ===== *)
(** * A command line typed twice

    The operator asks for the Goal of [Scenario]'s story; the answer to the first request
    is lost, and the same words are typed again. *)

From Stdlib Require Import ZArith Lia.
From S2P Require Import Prelude Utf8 Canonical Parse Digest Goal Sql Schema Transaction Command StoreBase StoreHistory EngineBase Operator EnginePlanning Watch Scenario EngineScenario Cli OperatorApi Client.

#[local] Existing Instance stir_hash.

(** The body as the canonical text of the Goal it asks for. *)
Definition json_of (p : GoalSpecPayload) : string :=
  match spec_from p with
  | Ok spec => to_canonical_bytes (goal_to_value spec)
  | Err _ => EmptyString
  end.

Definition json_read (s : string) : Result GoalSpecPayload string :=
  match goal_from_canonical_json s with
  | Ok spec => Ok (payload_from spec)
  | Err _ => Err "not a Goal"
  end.

Definition sample_words : list string :=
  ["goal"; "create"; "--objective"; "Fix the failing build"; "--input"; "repository=repo://app";
   "--deliverable"; "patch:code.changeset"; "--permit"; "filesystem.write"; "--forbid"; "secret.read";
   "--resource"; "workspace://src/**"; "--command-id"; "request-9"].

Definition sample_request : GoalRequest := {|
  gq_objective := "Fix the failing build"; gq_inputs := [("repository", "repo://app")];
  gq_deliverables := [("patch", "code.changeset", true)]; gq_permitted_effects := ["filesystem.write"];
  gq_forbidden_effects := ["secret.read"]; gq_permitted_resources := ["workspace://src/**"] |}.

Definition typed_invocation : Invocation := {|
  iv_socket := default_socket; iv_json := false; iv_command_id := Some "request-9"; iv_command := CliGoalCreate sample_request |}.

Example sample_words_parsed : parse_with sample_words no_env = Ok (Some typed_invocation).
Proof. vm_compute. reflexivity. Qed.

(** The second exchange, the first [POST], is answered in vain. *)
Definition lossy (n : nat) : Delivery := match n with 1 => AnswerLost | _ => Delivered end.

Definition typed_twice :=
  typed_again busy Some Some json_of json_read (fun _ => Ok 16%Z) lossy (fun _ => None) (fun _ => false) 0
    (fun _ => EmptyString) (fun _ => None) (fun s => [s]) 2 typed_invocation (world_of opened, 0).

Lemma typed_twice_codes : map exit_code typed_twice.1 = [4; 0]%Z.
Proof. vm_compute. reflexivity. Qed.

Lemma cli_create_exactly_once_witness :
  ∃ view, Ok (PrintedBody (BodyGoal (response view))) ∈ typed_twice.1 ∧ gv_spec view = sample_goal ∧
    length (List.filter (col_is "id" (SText (gv_id view))) (rows (wo_db typed_twice.2.1) "goals")) = 1.
Proof.
  pose proof typed_twice_codes as Ha. destruct typed_twice as [outs s'] eqn:E. cbn in Ha.
  destruct outs as [|r0 [|[out|[]] outs]]; try discriminate Ha.
  destruct (cli_create_exactly_once busy Some Some json_of json_read (fun _ => Ok 16%Z) lossy (fun _ => None) (fun _ => false)
    0 (fun _ => EmptyString) (fun _ => None) (fun s => [s]) sample_generation "request-9" sample_goal typed_invocation
    sample_request 2 (world_of opened) 0 sample_journal 1 (r0 :: Ok out :: outs) s') with (out := out)
    as (view & -> & (_ & _ & Hs & _) & Hl & _).
  - intros s t Ht. injection Ht as Ht. rewrite Ht. reflexivity.
  - reflexivity.
  - reflexivity.
  - vm_compute. reflexivity.
  - vm_compute. reflexivity.
  - vm_compute. reflexivity.
  - intros i q Hq. destruct i as [|i]; [|inversion Hq]. apply list_elem_of_singleton in Hq. subst q.
    split; intros _ Hid; discriminate Hid.
  - exact opened_valid.
  - apply bootstrap_kernel.
  - intros (r & Hr & _). inversion Hr.
  - intros (r & Hr & _). inversion Hr.
  - exact E.
  - right. left.
  - exists view. split; [right; left|]. split; [exact Hs|exact Hl].
Defined.

(** The answer that was lost: the client says that the daemon could not be reached, and
    the Goal is there. *)
Example unreachable_may_have_acted :
  let once := typed_again busy Some Some json_of json_read (fun _ => Ok 16%Z) lossy (fun _ => None) (fun _ => false) 0
    (fun _ => EmptyString) (fun _ => None) (fun s => [s]) 1 typed_invocation (world_of opened, 0) in
  map exit_code once.1 = [4]%Z ∧ length (rows (wo_db once.2.1) "goals") = 1.
Proof. split; vm_compute; reflexivity. Qed.
